(* ===== verification/_CoqProject ===== *)
-Q . S2P
Prelude.v
Riscv.v
Boot.v
Mem.v
Asm.v
Spinlock.v
Kalloc.v
Vm.v
VmSpec.v
VmOps.v
VmFree.v
VmUser.v
VmFork.v
VmKernel.v
Bytes.v
Sleeplock.v
Disk.v
Sdhci.v
Virtio.v
VirtioSpec.v
VirtioDisk.v
Bio.v
BioSpec.v
Cache.v
Log.v
LogSpec.v
LogSafe.v
BlockIO.v
LogIO.v
Fs.v
FsSpec.v
FsAlloc.v
FsInode.v
ProcEnv.v
FsOwn.v
FsMap.v
FsFile.v
FsDir.v
FsPath.v
FsTrunc.v
FsDemo.v
Mkfs.v
MkfsSpec.v
MkfsImage.v
MkfsBoot.v
Pipe.v
PipeSpec.v
Printf.v
Proc.v
ProcInv.v
ProcUser.v
File.v
Syscall.v
Exec.v
Sysfile.v
Kernel.v
FdFrame.v
FdSpec.v
FdCalls.v
Console.v
ConsoleSpec.v
Trap.v
TrapSpec.v
Main.v
MainSpec.v
Ulib.v
Umalloc.v
UmallocSpec.v
Grep.v
Sh.v
ShSpec.v
Usys.v
Utrace.v
Uprog.v
UprogSpec.v
Utest.v
ShRun.v
ShProc.v
ShRunSpec.v
FdShell.v
