(* ===== verification/Prelude.v ===== *)
(** * xv6 on the OrangePi RV2: a verification development

    The program under src/ is xv6, a small Unix-like kernel for 64-bit RISC-V
    written in C, ported to the OrangePi RV2 board, with its C library, shell
    and tools, and mkfs, which makes the file system on the build host. This
    library translates its code into Rocq functions and proves what makes the
    parts correct.

    ** How code is modelled

    A kernel routine is a function in the monad [M S A] of this file: from a
    state [S] to an [outcome], which is a result and a new state, a [panic]
    with its message, going to sleep on a channel, or running out of the fuel
    of a bounded loop. Machine integers are [Z] with [u8], [u16], [u32],
    [u64], [i32], [i64] written where the C code wraps. Pointers into tables
    of the kernel are indices; pointers into memory are addresses of the byte
    memory of [Mem]. A routine that can sleep in the middle is modelled as the
    segments that run between two sleeps, so that a step relation can
    interleave the segments of different processes. Inside one thread a spin
    lock is a flag, [acquire] on a flag that is set is the panic of the code;
    [Spinlock] justifies that view by the interleavings of harts. Assembly is
    a list of instructions over a machine with registers, control registers,
    address translation and memory.

    A user program is an interaction tree [prog A] over the system calls
    (Usys): every answer the kernel may give is a branch. [Utrace] gives the
    sequences of calls and answers of one process; [ShProc] runs a program as
    a process with a table of descriptors, its children included.

    Parts meet at interfaces. [KernelImage] (Kalloc) is the linker's symbols.
    [DiskDriver] and [DiskSpec] (Disk) are a block device and its contract,
    [BlockIO] and [BlockSpec] what the file system needs of the cache and the
    log (discharged in LogIO), [UserMem], [ProcEnv] and [ProcSpec] (BlockIO,
    ProcEnv) what services need of the running process (implemented by Proc,
    and the contract proved of it in ProcUser), [DevSw] (File) the device switch, [Controller] (Sdhci) the registers of
    the SD host controller, [VirtioDevice] (Virtio) the registers of a virtio
    device, [Firmware] (Boot) the firmware's calls and [Mmu] (Asm) address
    translation.

    ** The files, from the bottom up

    - Prelude: outcomes and the monad, machine integers, bit masks, byte lists,
      loops, positions in a ring; the flags of open (kernel/fcntl.h) and the
      kinds of sbrk (kernel/vm.h); the tactics [step_with], [bind_inv], [dlia],
      [uni], [len].
    - Riscv, Mem, Bytes: kernel/riscv.h and memlayout.h; byte memory and
      kernel/string.c; structures inside disk blocks.
    - Boot: entry.S, start.c, sbi.c, the set-up of plic.c, over a hart that
      checks its privilege mode. The boot path needs machine mode; the macros
      for the interrupt controller name the wrong context.
    - Asm, TrapSpec: swtch.S, kernelvec.S and trampoline.S. A switch saves and
      restores what the compiler relies on; an interrupt is invisible to the
      code it interrupts; a system call or interrupt from user mode and its
      return keep every user register and memory, with trap.c in between.
    - Spinlock, Sleeplock: kernel/spinlock.c and sleeplock.c, as step relations
      over harts and processes. Mutual exclusion, [holding] is exact,
      interrupts are off while a lock is held.
    - Kalloc: kernel/kalloc.c. The list threaded through the free pages is a
      stack of pages; no page is handed out twice.
    - Vm, VmSpec, VmOps, VmFree, VmUser, VmFork: kernel/vm.c. Three-level page
      tables in memory refine finite maps from pages to entries; mapping,
      growing, unmapping, freeing and copying address spaces neither lose nor
      share pages; copies to and from user memory agree with what the process
      sees, lazily allocated pages included.
      [ProcUser] carries this to the running process.
    - VmKernel: the kernel's own table. What it maps, that it can be built,
      that kernel text cannot be written through it.
    - Disk, Sdhci: the block-device contract, kernel/ramdisk.c and
      disk_stub.c; kernel/sdhci.c, the driver the Makefile links. The RAM disk
      keeps the contract. The SD driver does not: it moves half of each block,
      and on a controller that follows its specification no read completes.
      The layers above are verified against the contract.
    - Virtio, VirtioSpec, VirtioDisk: kernel/virtio_disk.c with any number of
      requests in flight and a device that may answer them in any order, with
      errors too. The descriptors stay well formed, no wakeup is lost, the only
      panic is the one on a reported error, and with a device that reports none
      the driver refines the block device.
    - Bio, BioSpec, Cache: kernel/bio.c. The ring of buffers refines an LRU
      list; what its clients may rely on.
    - Log, LogSpec, LogSafe: kernel/log.c. A transaction of fewer than NBUF
      blocks is atomic across power failures at any write, recovery is idempotent, the reservation of
      [begin_op] is sound, and a transaction of LOGBLOCKS blocks cannot commit
      because NBUF is no larger.
    - BlockIO, LogIO: the interface between file system and log, and its proof.
    - Fs: kernel/fs.c. FsSpec, FsAlloc, FsInode: block allocation, inodes
      between memory and disk, splitting of paths. FsOwn, FsMap, FsFile,
      FsTrunc: which inode owns which block, and reading, writing and
      truncating files. FsDir, FsPath: directories as maps from names, paths
      as walks through them, the table of inodes. FsDemo: a small file system
      for examples.
    - Mkfs, MkfsSpec, MkfsImage, MkfsBoot: mkfs/mkfs.c. The image is a well-formed file
      system with the files given; the kernel starts on it ([fsinit]) and reads
      them back.
    - ProcEnv, Pipe, PipeSpec: kernel/pipe.c. A pipe is a bounded FIFO queue
      under every interleaving of readers and writers; wakeups are not lost,
      unless a writer is killed.
    - Printf: kernel/printf.c and user/printf.c. Both loops print the same; the
      digit buffer never overflows.
    - Proc, ProcInv: kernel/proc.c. Pids are unique in every reachable state,
      kill hits the process named (and, for pid 0, a free entry); the
      scheduler picks every runnable process within NPROC visits.
    - ProcUser: the running process as services see it. [copyin] and [copyout]
      reach the bytes of its memory, sleeping and waking leave memory alone:
      the contract [ProcSpec] of pipes and files holds of the process table.
    - File, Syscall, Exec, Sysfile, Kernel, Trap: kernel/file.c,
      syscall.c, exec.c, sysfile.c, sysproc.c, the parts of proc.c
      that use files, trap.c, and the claim and complete of plic.c: models of
      every call, composed as in the code.
    - FdFrame, FdSpec, FdCalls: the descriptors of all processes and the table
      of open files, through every system call. FdFrame shows what the calls
      leave alone; FdSpec and FdCalls that the reference count of a file is the
      number of descriptors that name it, in every state reached. A call that
      waits for a child, a pipe, the clock or a device is a sequence of steps;
      one that has to wait for the disk is not a step: [exit] that waits in the
      middle of [fileclose] has dropped a count and still names the file.
    - Console, ConsoleSpec: kernel/console.c and uart.c. The interrupt handler
      is a line editor. The transmitter is busy for a while after each byte,
      and the synchronous routine waits for it.
    - Main, MainSpec: kernel/main.c and [forkret]. From a machine that has
      been switched on, [main] reaches the scheduler with every component in
      its initial invariant and one process ready to run.
    - Ulib, Umalloc, UmallocSpec, Grep: user/ulib.c, umalloc.c, grep.c. [atoi]
      reads what [printf] prints; malloc hands out disjoint blocks and always
      returns; grep's matcher decides the language of the pattern.
    - Sh, ShSpec: the parser of user/sh.c. It terminates and reads back every
      command line that is written, with any spacing.
    - Usys, Utrace: the system calls, and traces of programs.
    - Uprog, UprogSpec: cat, wc, echo, kill, ln, mkdir, rm, zombie, init, ls
      and grep. cat's output is what it reads, wc counts, init keeps exactly
      one shell and gives up only when a call has failed.
    - Utest: forktest, stressfs, logstress, dorphan, forphan and grind; the
      generator of grind is that of Park and Miller.
    - ShRun, ShProc, ShRunSpec: the rest of user/sh.c. Running a parsed
      command does what the command means, a pipeline leaves no process with
      an end of its pipe it should not have, and a line that is typed is run as
      the command it spells.
    - FdShell: the kernel's calls on descriptors are those that the model of the
      shell's processes assumes.

    ** Fuel and bounds

    Loops whose bound is in the code are structural. Others take fuel, and a
    theorem shows it is enough where a result is claimed: the free-page loop
    of [freerange] (one step per page), path components (one per byte), the ring
    of [malloc] and [free] (one step per header), the pipe and console loops
    (one step per byte asked for), the wait of [uartputc_sync] (the delay of the
    device), the parser (linear in the line). Polling loops of the SD driver
    have the counts of the code. Loops of user
    programs are those of interaction trees and need no fuel; their traces
    and runs are indexed by a height that the theorems quantify over. [umalloc_disjoint]
    assumes that the kernel lets a heap grow to at most 2^36 bytes, as sizes
    are 32-bit numbers of 16-byte units; pids are assumed below 2^31 - 1. The
    kernel's page table takes 359 pages, and starting the kernel 364.

    ** Not modelled

    usertests.c, a collection of tests of the system. kernel.ld, user.ld and
    the stubs that usys.pl generates. The banner of [panic], the lock of
    printf, and messages that kernel code other than [main], the console and
    procdump prints. What the parser of the shell prints about leftover words
    before it gives up. The steps of a system call that waits for the log, an
    inode or a buffer, in FdCalls. Memory is sequentially consistent: the fences
    of spinlock.c and main.c are not modelled. *)

From stdpp Require Import base gmap list numbers strings sets.
From Stdlib Require Import ZArith Lia.

Open Scope Z_scope.

(** ** Kernel outcomes

    A kernel routine run by one thread ends in one of four ways: it returns,
    it calls [panic], it goes to sleep on a wait channel (with the state the
    other threads then see), or a bounded loop of the model runs out of fuel
    (excluded by a theorem wherever a loop is bounded that way). *)

(** Wait channels: in the source a channel is the address of an object, here
    it is that object. *)
Inductive chan :=
  | ChLog                       (* &log *)
  | ChBuf (i : nat)             (* &bcache.buf[i].lock *)
  | ChInode (i : nat)           (* &itable.inode[i].lock *)
  | ChPipeR (pi : Z)            (* &pi->nread *)
  | ChPipeW (pi : Z)            (* &pi->nwrite *)
  | ChProc (i : nat)            (* &proc[i] *)
  | ChTicks                     (* &ticks *)
  | ChCons                      (* &cons.r *)
  | ChUartTx                    (* &tx_chan *)
  | ChDiskFree                  (* &disk.free[0] *)
  | ChDiskBuf (b : nat)         (* the struct buf a disk request waits for *)
  | ChExit (i : nat).           (* none: process i has exited *)

#[export] Instance chan_eq_dec : EqDecision chan.
Proof. solve_decision. Defined.

Inductive outcome (S A : Type) : Type :=
  | Ok (a : A) (s : S)
  | Panic (msg : string)
  | Sleep (c : chan) (s : S)
  | NoFuel.

Arguments Ok {S A} a s.
Arguments Panic {S A} msg.
Arguments Sleep {S A} c s.
Arguments NoFuel {S A}.

Definition M (S A : Type) : Type := S -> outcome S A.

Definition ret {S A} (a : A) : M S A := fun s => Ok a s.
Definition bind {S A B} (m : M S A) (k : A -> M S B) : M S B := fun s =>
  match m s with
  | Ok a s' => k a s'
  | Panic msg => Panic msg
  | Sleep c s' => Sleep c s'
  | NoFuel => NoFuel
  end.
Definition panic {S A} (msg : string) : M S A := fun _ => Panic msg.
Definition sleep_on {S A} (c : chan) : M S A := fun s => Sleep c s.
Definition no_fuel {S A} : M S A := fun _ => NoFuel.
Definition get {S} : M S S := fun s => Ok s s.
Definition gets {S A} (f : S -> A) : M S A := fun s => Ok (f s) s.
Definition put {S} (s : S) : M S unit := fun _ => Ok tt s.
Definition modify {S} (f : S -> S) : M S unit := fun s => Ok tt (f s).

Declare Scope kernel_scope.
Delimit Scope kernel_scope with kernel.

Notation "x <- c1 ;; c2" := (bind c1 (fun x => c2))
  (at level 100, c1 at next level, c2 at level 200, right associativity) : kernel_scope.
Notation "'let*' pat := c1 'in' c2" := (bind c1 (fun x => match x with pat => c2 end))
  (at level 10, pat strict pattern, c1 at level 200, c2 at level 200) : kernel_scope.
Notation "c1 ;;; c2" := (bind c1 (fun _ => c2))
  (at level 100, c2 at level 200, right associativity) : kernel_scope.

Open Scope kernel_scope.

(** [if(c) m;] with nothing in the else branch. *)
Definition when {S} (c : bool) (m : M S unit) : M S unit :=
  if c then m else ret tt.

(** A [for] loop over the values its index takes, whose body may leave the
    loop with a value ([return v] or [break]). *)
Fixpoint for_each {S A R} (l : list A) (body : A -> M S (option R)) : M S (option R) :=
  match l with
  | [] => ret None
  | x :: l' =>
      r <- body x ;;
      match r with
      | Some v => ret (Some v)
      | None => for_each l' body
      end
  end.

(** A [for] loop whose body always falls through. *)
Fixpoint for_all {S A} (l : list A) (body : A -> M S unit) : M S unit :=
  match l with
  | [] => ret tt
  | x :: l' => body x ;;; for_all l' body
  end.

(** Running a routine of a component on a larger state that contains it. *)
Definition zoom {S T A} (getf : T -> S) (setf : T -> S -> T) (m : M S A) : M T A :=
  fun t =>
    match m (getf t) with
    | Ok a s => Ok a (setf t s)
    | Panic msg => Panic msg
    | Sleep c s => Sleep c (setf t s)
    | NoFuel => NoFuel
    end.

(** ** Reasoning about [bind] *)

Lemma bind_ok {S A B} (m : M S A) (k : A -> M S B) s a s' :
  m s = Ok a s' -> bind m k s = k a s'.
Proof. unfold bind. by intros ->. Qed.

Lemma bind_inv {S A B} (m : M S A) (k : A -> M S B) s b s'' :
  bind m k s = Ok b s'' -> exists a s', m s = Ok a s' /\ k a s' = Ok b s''.
Proof. unfold bind. destruct (m s) eqn:E; intros; try discriminate. eauto. Qed.

Lemma bind_ret {S A B} (a : A) (k : A -> M S B) s : bind (ret a) k s = k a s.
Proof. reflexivity. Qed.

Lemma bind_ext {S A B} (m : M S A) (k k' : A -> M S B) s : (forall a s', k a s' = k' a s') -> bind m k s = bind m k' s.
Proof. intros E. unfold bind. by destruct (m s). Qed.

Lemma bind_assoc {S A B C} (m : M S A) (f : A -> M S B) (g : B -> M S C) s :
  bind (bind m f) g s = bind m (fun x => bind (f x) g) s.
Proof. unfold bind. by destruct (m s). Qed.

(** [step] runs the first statement of a sequence when its result is a known
    equation; [mrun] unfolds the state primitives. *)
Ltac step := erewrite bind_ok; [ | solve [ eauto | reflexivity ] ].
Ltac step_with H := rewrite (bind_ok _ _ _ _ _ H).

Ltac mrun :=
  unfold ret, get, gets, put, modify, panic, when, sleep_on, no_fuel in *; cbn beta iota in *.

Ltac bind_inv H :=
  let a := fresh "a" in let s := fresh "s" in let Ha := fresh "H" in let Hk := fresh "H" in
  apply bind_inv in H; destruct H as (a & s & Ha & Hk).

(** ** Machine integers

    An unsigned w-bit integer is a [Z] in [0, 2^w); a signed one a [Z] in
    [-2^(w-1), 2^(w-1)). The conversions C inserts are written out. *)

Definition u8 (x : Z) : Z := x mod 2 ^ 8.
Definition u16 (x : Z) : Z := x mod 2 ^ 16.
Definition u32 (x : Z) : Z := x mod 2 ^ 32.
Definition u64 (x : Z) : Z := x mod 2 ^ 64.
Definition signed (w x : Z) : Z :=
  let y := x mod 2 ^ w in if y <? 2 ^ (w - 1) then y else y - 2 ^ w.
Definition i8 (x : Z) : Z := signed 8 x.
Definition i16 (x : Z) : Z := signed 16 x.
Definition i32 (x : Z) : Z := signed 32 x.
Definition i64 (x : Z) : Z := signed 64 x.

Lemma u32_small x : 0 <= x < 2 ^ 32 -> u32 x = x.
Proof. intros. by apply Z.mod_small. Qed.
Lemma u64_small x : 0 <= x < 2 ^ 64 -> u64 x = x.
Proof. intros. by apply Z.mod_small. Qed.
Lemma u32_range x : 0 <= u32 x < 2 ^ 32.
Proof. apply Z.mod_pos_bound. lia. Qed.
Lemma u64_range x : 0 <= u64 x < 2 ^ 64.
Proof. apply Z.mod_pos_bound. lia. Qed.

Lemma signed_small w x : 0 < w -> - 2 ^ (w - 1) <= x < 2 ^ (w - 1) -> signed w x = x.
Proof.
  intros Hw Hx. unfold signed.
  assert (Hp : 2 ^ w = 2 * 2 ^ (w - 1)).
  { replace w with (Z.succ (w - 1)) at 1 by lia. apply Z.pow_succ_r. lia. }
  destruct (Z.ltb_spec (x mod 2 ^ w) (2 ^ (w - 1))) as [Hlt | Hge].
  - destruct (Z_lt_le_dec x 0).
    + rewrite <- (Z_mod_plus_full x 1), Z.mod_small in Hlt by lia. lia.
    + apply Z.mod_small. lia.
  - destruct (Z_lt_le_dec x 0).
    + rewrite <- (Z_mod_plus_full x 1), Z.mod_small by lia. lia.
    + rewrite Z.mod_small in Hge by lia. lia.
Qed.

(** [lia] with division and modulo by constants. *)
Ltac dlia := Z.div_mod_to_equations; lia.

(** Membership in unions, differences and singletons by propositional logic. *)
Ltac uni :=
  repeat progress rewrite ?elem_of_difference, ?elem_of_union, ?elem_of_singleton, ?elem_of_empty in *; intuition congruence.

(** Bit masks used as tests: [(x & m) != 0]. *)
Definition has (x m : Z) : bool := negb (Z.land x m =? 0).

Lemma has_testbit x k : 0 <= k -> has x (Z.shiftl 1 k) = Z.testbit x k.
Proof.
  intros Hk. unfold has. rewrite Z.shiftl_1_l.
  assert (E : Z.land x (2 ^ k) = if Z.testbit x k then 2 ^ k else 0).
  { apply Z.bits_inj'. intros i Hi. rewrite Z.land_spec, Z.pow2_bits_eqb by lia.
    destruct (Z.eqb_spec k i) as [<-|Hne].
    - rewrite andb_true_r. destruct (Z.testbit x k); [by rewrite Z.pow2_bits_true by lia|by rewrite Z.bits_0].
    - rewrite andb_false_r. destruct (Z.testbit x k); [by rewrite Z.pow2_bits_false by lia|by rewrite Z.bits_0]. }
  rewrite E. destruct (Z.testbit x k); [|done].
  pose proof (Z.pow_pos_nonneg 2 k). by destruct (Z.eqb_spec (2 ^ k) 0); [lia|].
Qed.

(** ** Constants shared by the kernel and the programs

    The flags of open (kernel/fcntl.h) and the kinds of sbrk (kernel/vm.h). *)

Definition O_RDONLY : Z := 0x000.
Definition O_WRONLY : Z := 0x001.
Definition O_RDWR : Z := 0x002.
Definition O_CREATE : Z := 0x200.
Definition O_TRUNC : Z := 0x400.

Definition SBRK_EAGER : Z := 1.
Definition SBRK_LAZY : Z := 2.

(** ** Little-endian encodings of C integers in byte arrays *)

Fixpoint le_bytes (n : nat) (v : Z) : list Z :=
  match n with
  | O => []
  | S n' => v mod 256 :: le_bytes n' (v / 256)
  end.

Fixpoint le_value (l : list Z) : Z :=
  match l with
  | [] => 0
  | b :: l' => b + 256 * le_value l'
  end.

Definition is_byte (b : Z) : Prop := 0 <= b < 256.

Lemma length_le_bytes n v : length (le_bytes n v) = n.
Proof. revert v. induction n; intros; cbn; auto. Qed.

Lemma le_value_bytes n v : le_value (le_bytes n v) = v mod 256 ^ Z.of_nat n.
Proof.
  revert v. induction n as [|n IH]; intros v.
  - cbn. by rewrite Z.mod_1_r.
  - cbn [le_bytes le_value]. rewrite IH, Nat2Z.inj_succ, Z.pow_succ_r by lia.
    rewrite Z.rem_mul_r by lia. lia.
Qed.

Lemma le_bytes_byte n v : Forall is_byte (le_bytes n v).
Proof.
  revert v. induction n as [|n IH]; intros v; cbn; constructor; auto.
  apply Z.mod_pos_bound. lia.
Qed.

Lemma le_value_range l : Forall is_byte l -> 0 <= le_value l < 256 ^ Z.of_nat (length l).
Proof.
  induction 1 as [|b l Hb _ IH]; cbn [le_value length]; [lia|].
  rewrite Nat2Z.inj_succ, Z.pow_succ_r by lia. unfold is_byte in Hb. lia.
Qed.

Lemma le_bytes_value l : Forall is_byte l -> le_bytes (length l) (le_value l) = l.
Proof.
  induction 1 as [|b l Hb _ IH]; cbn [le_value length le_bytes]; [done|].
  unfold is_byte in Hb. f_equal.
  - rewrite Z.mul_comm, Z_mod_plus_full. by apply Z.mod_small.
  - rewrite Z.mul_comm, Z_div_plus_full, Z.div_small, Z.add_0_l by lia. done.
Qed.

(** ** Lists *)

Create Rewrite HintDb len.
#[export] Hint Rewrite @length_app @length_take @length_drop @length_replicate
  @length_insert @length_fmap @length_seq @length_seqZ length_le_bytes @length_cons
  @length_nil : len.
Ltac len := autorewrite with len in *; try lia.

(** Overwriting part of an array, [n + length l' <= length l]. *)
Definition splice {A} (l : list A) (n : nat) (l' : list A) : list A :=
  take n l ++ l' ++ drop (n + length l') l.

Lemma length_splice {A} (l : list A) n l' :
  (n + length l' <= length l)%nat -> length (splice l n l') = length l.
Proof. intros. unfold splice. len. Qed.

Lemma lookup_splice_old {A} (l : list A) n l' i :
  (n + length l' <= length l)%nat -> (i < n \/ n + length l' <= i)%nat ->
  splice l n l' !! i = l !! i.
Proof.
  intros Hn [Hi | Hi]; unfold splice.
  - rewrite lookup_app_l by len. by rewrite lookup_take_lt.
  - rewrite lookup_app_r by len. rewrite lookup_app_r by len.
    rewrite lookup_drop. f_equal. len.
Qed.

Lemma lookup_splice_new {A} (l : list A) n l' i :
  (n + length l' <= length l)%nat -> (n <= i < n + length l')%nat ->
  splice l n l' !! i = l' !! (i - n)%nat.
Proof.
  intros Hn Hi. unfold splice.
  rewrite lookup_app_r by len. rewrite lookup_app_l by len. f_equal. len.
Qed.

(** Array element with the default the source cannot observe. *)
Definition nthz (l : list Z) (i : Z) : Z := default 0 (l !! Z.to_nat i).
Definition setz {A} (l : list A) (i : Z) (v : A) : list A := <[Z.to_nat i := v]> l.

Lemma nthz_setz l i j v : 0 <= i -> 0 <= j < Z.of_nat (length l) -> nthz (setz l j v) i = if i =? j then v else nthz l i.
Proof.
  intros Hi Hj. unfold nthz, setz. destruct (Z.eqb_spec i j) as [->|Hne].
  - rewrite list_lookup_insert_eq by lia. done.
  - rewrite list_lookup_insert_ne by lia. done.
Qed.

(** ** Loops *)

(** The invariant rule for [for(t = 0; t < n; t++)]. *)
Lemma for_all_inv {S} (I : Z -> S -> Prop) (body : Z -> M S unit) n s : 0 <= n -> I 0 s ->
  (forall t s, 0 <= t < n -> I t s -> exists s', body t s = Ok tt s' /\ I (t + 1) s') ->
  exists s', for_all (seqZ 0 n) body s = Ok tt s' /\ I n s'.
Proof.
  intros Hn H0 Hstep.
  assert (Hgen : forall (k : nat) a s0, a + Z.of_nat k = n -> 0 <= a -> I a s0 ->
    exists s', for_all (seqZ a (Z.of_nat k)) body s0 = Ok tt s' /\ I n s').
  { induction k as [|k IH]; intros a s0 Ha Ha0 HI.
    - exists s0. rewrite seqZ_nil by lia. by replace n with a by lia.
    - rewrite seqZ_cons by lia. cbn [for_all].
      destruct (Hstep a s0 ltac:(lia) HI) as (s1 & Hb & HI1). step_with Hb.
      replace (Z.pred (Z.of_nat (Datatypes.S k))) with (Z.of_nat k) by lia.
      apply IH; [lia|lia|]. by replace (Z.succ a) with (a + 1) by lia. }
  destruct (Hgen (Z.to_nat n) 0 s) as (s' & Hr & HI); [lia|lia|done|]. rewrite Z2Nat.id in Hr by lia. by exists s'.
Qed.

(** ** Positions in a ring of [n] elements *)

Definition next_pos (n i : nat) : nat := (S i mod n)%nat.
(** How many steps from [i] to [j]. *)
Definition steps_to (n i j : nat) : nat := if (i <=? j)%nat then (j - i)%nat else (n - i + j)%nat.
Lemma steps_to_next n i j : (i < n)%nat -> (j < n)%nat -> i <> j ->
  (next_pos n i < n)%nat /\ steps_to n i j = S (steps_to n (next_pos n i) j).
Proof.
  intros Hi Hj Hne. unfold next_pos, steps_to. destruct (decide (S i = n)) as [E|E].
  - rewrite E, Nat.Div0.mod_same. replace (0 <=? j)%nat with true by done. rewrite (proj2 (Nat.leb_gt i j)) by lia. lia.
  - rewrite Nat.mod_small by lia. split; [lia|]. destruct (Nat.leb_spec i j), (Nat.leb_spec (S i) j); lia.
Qed.
Lemma steps_to_lt n i j : (i < n)%nat -> (j < n)%nat -> (steps_to n i j < n)%nat.
Proof. intros. unfold steps_to. destruct (Nat.leb_spec i j); lia. Qed.
