(* ===== verification/Riscv.v ===== *)
(** * Page-table and address-space arithmetic

    The macros of kernel/riscv.h (pages, page-table entries, Sv39 indices)
    and of kernel/memlayout.h (the OrangePi RV2 physical layout and the fixed
    virtual addresses), with the arithmetic facts the page-table code relies
    on. *)

From stdpp Require Import base gmap list numbers strings.
From Stdlib Require Import ZArith Lia.
From S2P Require Import Prelude.
Open Scope Z_scope.

(** ** kernel/riscv.h *)

Definition PGSIZE : Z := 4096.
Definition PGSHIFT : Z := 12.

(** [((sz)+PGSIZE-1) & ~(PGSIZE-1)] and [((a)) & ~(PGSIZE-1)] on a uint64. *)
Definition PGROUNDUP (sz : Z) : Z := Z.land (u64 (sz + PGSIZE - 1)) (Z.lnot (PGSIZE - 1)).
Definition PGROUNDDOWN (a : Z) : Z := Z.land a (Z.lnot (PGSIZE - 1)).

Definition PTE_V : Z := Z.shiftl 1 0.
Definition PTE_R : Z := Z.shiftl 1 1.
Definition PTE_W : Z := Z.shiftl 1 2.
Definition PTE_X : Z := Z.shiftl 1 3.
Definition PTE_U : Z := Z.shiftl 1 4.

Definition PA2PTE (pa : Z) : Z := u64 (Z.shiftl (Z.shiftr pa 12) 10).
Definition PTE2PA (pte : Z) : Z := u64 (Z.shiftl (Z.shiftr pte 10) 12).
Definition PTE_FLAGS (pte : Z) : Z := Z.land pte 0x3FF.

Definition PXMASK : Z := 0x1FF.
Definition PXSHIFT (level : Z) : Z := PGSHIFT + 9 * level.
Definition PX (level va : Z) : Z := Z.land (Z.shiftr va (PXSHIFT level)) PXMASK.

Definition MAXVA : Z := Z.shiftl 1 (9 + 9 + 9 + 12 - 1).

Definition SATP_SV39 : Z := Z.shiftl 8 60.
Definition MAKE_SATP (pagetable : Z) : Z := Z.lor SATP_SV39 (Z.shiftr pagetable 12).

(** ** kernel/memlayout.h *)

Definition UART0 : Z := 0xd4017000.
Definition UART0_IRQ : Z := 74.
Definition SDHCI0 : Z := 0xd4280000.
Definition SDHCI0_IRQ : Z := 99.
Definition PLIC : Z := 0xe0000000.
Definition KERNBASE : Z := 0x40000000.
Definition PHYSTOP : Z := KERNBASE + 512 * 1024 * 1024.
Definition TRAMPOLINE : Z := MAXVA - PGSIZE.
Definition KSTACK (p : Z) : Z := TRAMPOLINE - (p + 1) * 2 * PGSIZE.
Definition TRAPFRAME : Z := TRAMPOLINE - PGSIZE.

(** ** Arithmetic facts *)

Lemma land_lnot_ones x n : 0 <= n -> Z.land x (Z.lnot (Z.ones n)) = x / 2 ^ n * 2 ^ n.
Proof.
  intros. rewrite <- Z.ldiff_land, Z.ldiff_ones_r by done.
  by rewrite Z.shiftl_mul_pow2, Z.shiftr_div_pow2.
Qed.

Lemma PGROUNDDOWN_spec a : PGROUNDDOWN a = a / PGSIZE * PGSIZE.
Proof. apply (land_lnot_ones a 12). lia. Qed.

Lemma PGROUNDUP_u64 sz : PGROUNDUP sz = u64 (sz + PGSIZE - 1) / PGSIZE * PGSIZE.
Proof. apply (land_lnot_ones _ 12). lia. Qed.

(** Below the last page of the 64-bit space, [PGROUNDUP] is the least
    multiple of the page size not below its argument. *)
Lemma PGROUNDUP_spec sz : 0 <= sz <= 2 ^ 64 - PGSIZE ->
  PGROUNDUP sz = (sz + PGSIZE - 1) / PGSIZE * PGSIZE.
Proof.
  intros. rewrite PGROUNDUP_u64, u64_small; [done|]. unfold PGSIZE in *. lia.
Qed.

Lemma PGROUNDUP_bounds sz : 0 <= sz <= 2 ^ 64 - PGSIZE ->
  PGROUNDUP sz mod PGSIZE = 0 /\ sz <= PGROUNDUP sz < sz + PGSIZE.
Proof.
  intros. rewrite PGROUNDUP_spec by done. unfold PGSIZE in *.
  rewrite Z.mod_mul by lia. pose proof (Z.div_mod (sz + 4096 - 1) 4096).
  pose proof (Z.mod_pos_bound (sz + 4096 - 1) 4096). lia.
Qed.

Lemma PGROUNDUP_aligned sz : 0 <= sz <= 2 ^ 64 - PGSIZE -> sz mod PGSIZE = 0 -> PGROUNDUP sz = sz.
Proof.
  intros Hs Ha. destruct (PGROUNDUP_bounds sz Hs) as [Hm Hb]. unfold PGSIZE in *.
  pose proof (Z.div_mod sz 4096). pose proof (Z.div_mod (PGROUNDUP sz) 4096). lia.
Qed.

Lemma PGROUNDDOWN_bounds a : 0 <= a ->
  PGROUNDDOWN a mod PGSIZE = 0 /\ 0 <= PGROUNDDOWN a <= a /\ a < PGROUNDDOWN a + PGSIZE.
Proof.
  intros. rewrite PGROUNDDOWN_spec. unfold PGSIZE in *.
  rewrite Z.mod_mul by lia. pose proof (Z.div_mod a 4096).
  pose proof (Z.mod_pos_bound a 4096). pose proof (Z.div_pos a 4096). lia.
Qed.

(** In the last page of the 64-bit space [PGROUNDUP] wraps around to 0: the
    callers have to exclude it. *)
Lemma PGROUNDUP_wraps sz : 2 ^ 64 - PGSIZE < sz < 2 ^ 64 -> PGROUNDUP sz = 0.
Proof.
  intros. rewrite PGROUNDUP_u64. unfold PGSIZE, u64 in *.
  rewrite <- (Z_mod_plus_full (sz + 4096 - 1) (-1)), Z.mod_small by lia.
  rewrite Z.div_small by lia. done.
Qed.

Lemma land_mul_low x f k : 0 <= k -> 0 <= f < 2 ^ k -> Z.land (x * 2 ^ k) f = 0.
Proof.
  intros Hk Hf. apply Z.bits_inj'. intros i Hi.
  rewrite Z.land_spec, Z.bits_0, <- Z.shiftl_mul_pow2 by done.
  rewrite Z.shiftl_spec by done.
  destruct (Z_lt_le_dec i k).
  - by rewrite Z.testbit_neg_r by lia.
  - rewrite (Z.testbit_eqb f) by done.
    rewrite Z.div_small; [by rewrite andb_comm|].
    split; [lia|]. apply Z.lt_le_trans with (2 ^ k); [lia|]. apply Z.pow_le_mono_r; lia.
Qed.

Lemma lor_mul_low x f k : 0 <= k -> 0 <= f < 2 ^ k -> Z.lor (x * 2 ^ k) f = x * 2 ^ k + f.
Proof.
  intros. pose proof (Z.add_lor_land (x * 2 ^ k) f). rewrite land_mul_low in * by done. lia.
Qed.

Lemma lor_range a b k : 0 <= k -> 0 <= a < 2 ^ k -> 0 <= b < 2 ^ k -> 0 <= Z.lor a b < 2 ^ k.
Proof.
  intros Hk Ha Hb. replace (Z.lor a b) with (Z.lor a b mod 2 ^ k); [apply Z.mod_pos_bound; lia|].
  rewrite <- Z.land_ones, Z.land_lor_distr_l, !Z.land_ones by lia. by rewrite !Z.mod_small.
Qed.

Lemma PA2PTE_spec pa : 0 <= pa < 2 ^ 56 -> PA2PTE pa = pa / 2 ^ 12 * 2 ^ 10.
Proof.
  intros. unfold PA2PTE. rewrite Z.shiftl_mul_pow2, Z.shiftr_div_pow2 by lia.
  apply u64_small. pose proof (Z.div_pos pa (2 ^ 12)).
  pose proof (Z.div_lt_upper_bound pa (2 ^ 12) (2 ^ 44)). lia.
Qed.

Lemma PTE2PA_spec pte : 0 <= pte < 2 ^ 54 -> PTE2PA pte = pte / 2 ^ 10 * 2 ^ 12.
Proof.
  intros. unfold PTE2PA. rewrite Z.shiftl_mul_pow2, Z.shiftr_div_pow2 by lia.
  apply u64_small. pose proof (Z.div_pos pte (2 ^ 10)).
  pose proof (Z.div_lt_upper_bound pte (2 ^ 10) (2 ^ 44)). lia.
Qed.

(** A leaf entry for [pa] is [PA2PTE(pa) | flags]. *)
Definition mkpte (pa flags : Z) : Z := Z.lor (PA2PTE pa) flags.

Lemma mkpte_add pa flags : 0 <= pa < 2 ^ 56 -> 0 <= flags < 2 ^ 10 ->
  mkpte pa flags = pa / 2 ^ 12 * 2 ^ 10 + flags.
Proof. intros. unfold mkpte. rewrite PA2PTE_spec by lia. by apply lor_mul_low. Qed.

Lemma mkpte_range pa flags : 0 <= pa < 2 ^ 56 -> 0 <= flags < 2 ^ 10 ->
  0 <= mkpte pa flags < 2 ^ 54.
Proof.
  intros. rewrite mkpte_add by done. pose proof (Z.div_pos pa (2 ^ 12)).
  pose proof (Z.div_lt_upper_bound pa (2 ^ 12) (2 ^ 44)). lia.
Qed.

Lemma PTE2PA_mkpte pa flags : 0 <= pa < 2 ^ 56 -> pa mod PGSIZE = 0 -> 0 <= flags < 2 ^ 10 ->
  PTE2PA (mkpte pa flags) = pa.
Proof.
  intros Hpa Hal Hf. rewrite PTE2PA_spec by (by apply mkpte_range).
  rewrite mkpte_add by done. rewrite Z.div_add_l, (Z.div_small flags) by lia.
  unfold PGSIZE in *. change (2 ^ 12) with 4096. pose proof (Z.div_mod pa 4096). lia.
Qed.

Lemma PTE_FLAGS_mkpte pa flags : 0 <= pa < 2 ^ 56 -> 0 <= flags < 2 ^ 10 ->
  PTE_FLAGS (mkpte pa flags) = flags.
Proof.
  intros. unfold PTE_FLAGS. change 0x3FF with (Z.ones 10).
  rewrite Z.land_ones, mkpte_add by lia.
  rewrite Z.add_comm, Z_mod_plus_full. by apply Z.mod_small.
Qed.

(** Testing a flag bit of an entry only looks at its flags. *)
Lemma has_mkpte pa flags k : 0 <= pa < 2 ^ 56 -> 0 <= flags < 2 ^ 10 -> 0 <= k < 10 ->
  has (mkpte pa flags) (Z.shiftl 1 k) = Z.testbit flags k.
Proof.
  intros Hpa Hf Hk. unfold has.
  assert (Hb : Z.land (mkpte pa flags) (Z.shiftl 1 k) = if Z.testbit flags k then 2 ^ k else 0).
  { apply Z.bits_inj'. intros i Hi. rewrite Z.land_spec, Z.shiftl_1_l, Z.pow2_bits_eqb by lia.
    destruct (Z.eqb_spec k i) as [<-|Hne].
    - rewrite andb_true_r. unfold mkpte. rewrite Z.lor_spec, PA2PTE_spec by lia.
      rewrite <- Z.shiftl_mul_pow2, Z.shiftl_spec_low by lia. cbn.
      destruct (Z.testbit flags k); [by rewrite Z.pow2_bits_true by lia | by rewrite Z.bits_0].
    - rewrite andb_false_r. destruct (Z.testbit flags k); [|by rewrite Z.bits_0].
      by rewrite Z.pow2_bits_false by lia. }
  rewrite Hb. destruct (Z.testbit flags k).
  - pose proof (Z.pow_pos_nonneg 2 k). destruct (Z.eqb_spec (2 ^ k) 0); [lia|done].
  - done.
Qed.

(** The three indices and the offset determine a virtual address. *)
Lemma PX_spec level va : 0 <= level -> PX level va = va / 2 ^ PXSHIFT level mod 512.
Proof.
  intros. unfold PX, PXMASK. change 0x1FF with (Z.ones 9).
  rewrite Z.land_ones, Z.shiftr_div_pow2 by (unfold PXSHIFT, PGSHIFT; lia). done.
Qed.

Lemma PX_range level va : 0 <= level -> 0 <= PX level va < 512.
Proof. intros. rewrite PX_spec by done. apply Z.mod_pos_bound. lia. Qed.

Lemma MAXVA_val : MAXVA = 2 ^ 38. Proof. reflexivity. Qed.

Lemma va_decompose va : 0 <= va < MAXVA ->
  va = PX 2 va * 2 ^ 30 + PX 1 va * 2 ^ 21 + PX 0 va * 2 ^ 12 + va mod PGSIZE.
Proof.
  rewrite MAXVA_val. intros. rewrite !PX_spec by lia.
  change (PXSHIFT 2) with 30. change (PXSHIFT 1) with 21. change (PXSHIFT 0) with 12.
  unfold PGSIZE. Z.div_mod_to_equations. lia.
Qed.

Lemma PX_inj va va' : 0 <= va < MAXVA -> 0 <= va' < MAXVA ->
  va mod PGSIZE = 0 -> va' mod PGSIZE = 0 ->
  PX 2 va = PX 2 va' -> PX 1 va = PX 1 va' -> PX 0 va = PX 0 va' -> va = va'.
Proof.
  intros H H' Ha Ha' E2 E1 E0.
  rewrite (va_decompose va), (va_decompose va') by done. congruence.
Qed.

(** Kernel stacks lie below the trampoline, do not overlap, and are
    separated by an unmapped guard page. *)
Lemma KSTACK_spec p q : 0 <= p < q -> 
  KSTACK p mod PGSIZE = 0 /\ KSTACK q + 2 * PGSIZE <= KSTACK p /\ KSTACK p + 2 * PGSIZE <= TRAMPOLINE.
Proof.
  intros. unfold KSTACK, TRAMPOLINE. rewrite MAXVA_val. unfold PGSIZE.
  split; [|lia].
  replace (2 ^ 38 - 4096 - (p + 1) * 2 * 4096) with ((2 ^ 26 - 1 - (p + 1) * 2) * 4096) by lia.
  apply Z.mod_mul. lia.
Qed.
