(* ===== verification/Boot.v ===== *)
(** * Entering the kernel (kernel/entry.S, start.c, sbi.c, the control-register
      accessors of riscv.h, plicinit and plicinithart of plic.c)

    One hart with its control and status registers, the firmware below it and
    the registers of the interrupt controller. An access to a control register
    needs the privilege that bits 8 and 9 of its number name; without it the
    hart takes an illegal-instruction exception, which no handler of the kernel
    survives and which is a panic here.

    The theorems: the firmware starts the kernel in supervisor mode, where the
    first access to mhartid traps, so [main] is never entered; and the registers
    plic.c writes are those of other contexts than the supervisor's. *)

From stdpp Require Import base gmap list numbers strings.
From Stdlib Require Import ZArith Lia.
From S2P Require Import Prelude Riscv.
Open Scope Z_scope.
Open Scope kernel_scope.

Definition NCPU : Z := 8.

(** ** The hart *)

Definition UMODE : Z := 0.
Definition SMODE : Z := 1.
Definition MMODE : Z := 3.

Record hart := mk_hart { h_mode : Z; h_csr : Z -> Z; h_tp : Z; h_sp : Z; h_ra : Z }.

(** The firmware answers an ecall (extension, function, arguments) with an
    error and a value; its trap handler for machine mode is at [sbi_mtvec]. *)
Class Firmware (D : Type) := {
  sbi_handler : Z -> Z -> list Z -> D -> (Z * Z) * D;
  sbi_mtvec : Z
}.

(** [b_plic] is what was written to the registers of the interrupt
    controller. *)
Record bootst (D : Type) := mk_boot { b_hart : hart; b_fw : D; b_plic : gmap Z Z }.
Arguments mk_boot {D} _ _ _.
Arguments b_hart {D} _.
Arguments b_fw {D} _.
Arguments b_plic {D} _.

Section boot.
Context {D : Type} {fw : Firmware D}.
Abbreviation B := (bootst D).
Implicit Types (s : B).

Definition set_hart s (h : hart) : B := mk_boot h (b_fw s) (b_plic s).
Definition csr_allowed (mode n : Z) : bool := Z.land (Z.shiftr n 8) 3 <=? mode.
Definition csr_readonly (n : Z) : bool := Z.land (Z.shiftr n 10) 3 =? 3.

Definition csrr (n : Z) : M B Z :=
  s <- get ;;
  if csr_allowed (h_mode (b_hart s)) n then ret (h_csr (b_hart s) n) else panic "illegal instruction".
Definition csrw (n v : Z) : M B unit :=
  s <- get ;;
  let h := b_hart s in
  if csr_allowed (h_mode h) n && negb (csr_readonly n)
  then put (set_hart s (mk_hart (h_mode h) (fun m => if m =? n then v else h_csr h m) (h_tp h) (h_sp h) (h_ra h)))
  else panic "illegal instruction".

(** ** riscv.h *)

Definition MSTATUS_MPP_MASK : Z := Z.shiftl 3 11.
Definition MSTATUS_MPP_M : Z := Z.shiftl 3 11.
Definition MSTATUS_MPP_S : Z := Z.shiftl 1 11.
Definition MSTATUS_MPP_U : Z := Z.shiftl 0 11.
Definition SSTATUS_SIE : Z := Z.shiftl 1 1.
Definition SIE_SEIE : Z := Z.shiftl 1 9.
Definition SIE_STIE : Z := Z.shiftl 1 5.
Definition SIE_SSIE : Z := Z.shiftl 1 1.
Definition MIE_STIE : Z := Z.shiftl 1 5.

Definition r_mhartid : M B Z := csrr 0xF14.
Definition r_mstatus : M B Z := csrr 0x300.
Definition w_mstatus : Z -> M B unit := csrw 0x300.
Definition w_mepc : Z -> M B unit := csrw 0x341.
Definition r_sstatus : M B Z := csrr 0x100.
Definition w_sstatus : Z -> M B unit := csrw 0x100.
Definition r_sip : M B Z := csrr 0x144.
Definition w_sip : Z -> M B unit := csrw 0x144.
Definition r_sie : M B Z := csrr 0x104.
Definition w_sie : Z -> M B unit := csrw 0x104.
Definition r_mie : M B Z := csrr 0x304.
Definition w_mie : Z -> M B unit := csrw 0x304.
Definition r_sepc : M B Z := csrr 0x141.
Definition w_sepc : Z -> M B unit := csrw 0x141.
Definition r_medeleg : M B Z := csrr 0x302.
Definition w_medeleg : Z -> M B unit := csrw 0x302.
Definition r_mideleg : M B Z := csrr 0x303.
Definition w_mideleg : Z -> M B unit := csrw 0x303.
Definition r_stvec : M B Z := csrr 0x105.
Definition w_stvec : Z -> M B unit := csrw 0x105.
Definition r_stimecmp : M B Z := csrr 0x14d.
Definition w_stimecmp : Z -> M B unit := csrw 0x14d.
Definition r_menvcfg : M B Z := csrr 0x30a.
Definition w_menvcfg : Z -> M B unit := csrw 0x30a.
Definition w_pmpcfg0 : Z -> M B unit := csrw 0x3A0.
Definition w_pmpaddr0 : Z -> M B unit := csrw 0x3B0.
Definition r_satp : M B Z := csrr 0x180.
Definition w_satp : Z -> M B unit := csrw 0x180.
Definition r_scause : M B Z := csrr 0x142.
Definition r_stval : M B Z := csrr 0x143.
Definition r_mcounteren : M B Z := csrr 0x306.
Definition w_mcounteren : Z -> M B unit := csrw 0x306.
Definition r_time : M B Z := csrr 0xC01.

Definition r_sp : M B Z := gets (fun s => h_sp (b_hart s)).
Definition r_ra : M B Z := gets (fun s => h_ra (b_hart s)).
Definition r_tp : M B Z := gets (fun s => h_tp (b_hart s)).
Definition w_tp (v : Z) : M B unit := modify (fun s =>
  let h := b_hart s in set_hart s (mk_hart (h_mode h) (h_csr h) v (h_sp h) (h_ra h))).
Definition w_sp (v : Z) : M B unit := modify (fun s =>
  let h := b_hart s in set_hart s (mk_hart (h_mode h) (h_csr h) (h_tp h) v (h_ra h))).

(** ** sbi.c *)

Definition SBI_EXT_0_1_SET_TIMER : Z := 0.
Definition SBI_EXT_0_1_CONSOLE_PUTCHAR : Z := 1.
Definition SBI_EXT_0_1_CONSOLE_GETCHAR : Z := 2.
Definition SBI_EXT_0_1_SHUTDOWN : Z := 8.

(** struct sbiret *)
Record sbiret := mk_sbiret { sbi_error : Z; sbi_value : Z }.

(** An ecall of supervisor mode goes to the firmware; one of machine mode traps to
    the address in mtvec, which may be the firmware's. *)
Definition sbi_answers s : bool :=
  let h := b_hart s in (h_mode h =? SMODE) || (h_mode h =? MMODE) && (h_csr h 0x305 =? sbi_mtvec).
Definition sbi_ecall (ext fid : Z) (args : list Z) : M B sbiret := fun s =>
  if sbi_answers s then
    let '((e, v), d) := sbi_handler ext fid args (b_fw s) in Ok (mk_sbiret e v) (mk_boot (b_hart s) d (b_plic s))
  else Panic "environment call".
Definition sbi_console_putchar (ch : Z) : M B unit := sbi_ecall SBI_EXT_0_1_CONSOLE_PUTCHAR 0 [ch; 0; 0; 0; 0; 0] ;;; ret tt.
Definition sbi_console_getchar : M B Z := r <- sbi_ecall SBI_EXT_0_1_CONSOLE_GETCHAR 0 [0; 0; 0; 0; 0; 0] ;; ret (i32 (sbi_error r)).
Definition sbi_set_timer (stime_value : Z) : M B unit := sbi_ecall SBI_EXT_0_1_SET_TIMER 0 [stime_value; 0; 0; 0; 0; 0] ;;; ret tt.
Definition sbi_shutdown : M B unit := sbi_ecall SBI_EXT_0_1_SHUTDOWN 0 [0; 0; 0; 0; 0; 0] ;;; ret tt.

(** ** entry.S and start.c

    [stack0] and [kernelvec] are addresses of the kernel's image. [start]
    returns when it would call [main]. *)
Context (stack0 kernelvec : Z).

Definition start : M B unit :=
  w_satp 0 ;;;
  w_stvec kernelvec ;;;
  sie <- r_sie ;;
  w_sie (Z.lor (Z.lor (Z.lor sie SIE_SEIE) SIE_STIE) SIE_SSIE) ;;;
  sst <- r_sstatus ;;
  w_sstatus (Z.lor sst SSTATUS_SIE) ;;;
  time <- r_time ;;
  sbi_set_timer (u64 (time + 10000000)) ;;;
  id <- r_mhartid ;;
  w_tp (u64 (i32 id)).

Definition _entry : M B unit :=
  w_sp stack0 ;;;
  id <- r_mhartid ;;
  sp <- r_sp ;;
  w_sp (u64 (sp + u64 (4096 * u64 (id + 1)))) ;;;
  start.

(** ** plic.c *)

Definition PLIC_SENABLE (hart : Z) : Z := PLIC + 0x2080 + (hart * 2 + 1) * 0x80.
Definition PLIC_SPRIORITY (hart : Z) : Z := PLIC + 0x201000 + (hart * 2 + 1) * 0x1000.
Definition PLIC_SCLAIM (hart : Z) : Z := PLIC + 0x201004 + (hart * 2 + 1) * 0x1000.

Definition mmio_write (a v : Z) : M B unit := modify (fun s => mk_boot (b_hart s) (b_fw s) (<[a := v]> (b_plic s))).
Definition plicinit : M B unit := mmio_write (PLIC + UART0_IRQ * 4) 1.
Definition plicinithart : M B unit :=
  tp <- r_tp ;;
  let hart := i32 tp in
  let reg := UART0_IRQ / 32 in
  mmio_write (PLIC_SENABLE hart + 4 * reg) (u32 (Z.shiftl 1 (UART0_IRQ mod 32))) ;;;
  mmio_write (PLIC_SPRIORITY hart) 0.

(** ** Privilege *)

Definition put_csr s (n v : Z) : B :=
  let h := b_hart s in set_hart s (mk_hart (h_mode h) (fun m => if m =? n then v else h_csr h m) (h_tp h) (h_sp h) (h_ra h)).
Lemma csrr_ok n s : csr_allowed (h_mode (b_hart s)) n = true -> csrr n s = Ok (h_csr (b_hart s) n) s.
Proof using. intros H. unfold csrr, bind, get. by rewrite H. Qed.
Lemma csrw_ok n v s : csr_allowed (h_mode (b_hart s)) n = true -> csr_readonly n = false -> csrw n v s = Ok tt (put_csr s n v).
Proof using. intros H1 H2. unfold csrw, bind, get. by rewrite H1, H2. Qed.
Lemma mhartid_traps s : h_mode (b_hart s) = SMODE -> r_mhartid s = Panic "illegal instruction".
Proof using. intros H. unfold r_mhartid, csrr, bind, get. by rewrite H. Qed.
Lemma set_timer_run v s : if sbi_answers s then exists d, sbi_set_timer v s = Ok tt (mk_boot (b_hart s) d (b_plic s)) else sbi_set_timer v s = Panic "environment call".
Proof using. unfold sbi_set_timer, sbi_ecall, bind. destruct (sbi_answers s); [|done]. destruct (sbi_handler _ _ _ (b_fw s)) as [[e r] d]. by exists d. Qed.

(** Up to the read of mhartid [start] only uses supervisor registers. *)
Lemma start_boots s : SMODE <= h_mode (b_hart s) -> if sbi_answers s then exists s', start s = (id <- r_mhartid ;; w_tp (u64 (i32 id))) s' /\
  h_mode (b_hart s') = h_mode (b_hart s) /\ h_csr (b_hart s') 0xF14 = h_csr (b_hart s) 0xF14 /\ h_sp (b_hart s') = h_sp (b_hart s)
  else start s = Panic "environment call".
Proof using.
  intros Hm. assert (Hal : forall n, Z.land (Z.shiftr n 8) 3 <= 1 -> forall s', h_mode (b_hart s') = h_mode (b_hart s) -> csr_allowed (h_mode (b_hart s')) n = true).
  { intros n Hn s' E. unfold csr_allowed, SMODE in *. apply Z.leb_le. lia. }
  unfold start. rewrite (bind_ok _ _ _ _ _ (csrw_ok 0x180 0 s (Hal 0x180 ltac:(done) _ eq_refl) eq_refl)).
  rewrite (bind_ok _ _ _ _ _ (csrw_ok 0x105 kernelvec _ (Hal 0x105 ltac:(done) (put_csr s 0x180 0) eq_refl) eq_refl)). set (s2 := put_csr (put_csr s 0x180 0) 0x105 kernelvec).
  rewrite (bind_ok _ _ _ _ _ (csrr_ok 0x104 s2 (Hal 0x104 ltac:(done) s2 eq_refl))).
  rewrite (bind_ok _ _ _ _ _ (csrw_ok 0x104 _ s2 (Hal 0x104 ltac:(done) s2 eq_refl) eq_refl)). set (s3 := put_csr s2 0x104 _).
  rewrite (bind_ok _ _ _ _ _ (csrr_ok 0x100 s3 (Hal 0x100 ltac:(done) s3 eq_refl))).
  rewrite (bind_ok _ _ _ _ _ (csrw_ok 0x100 _ s3 (Hal 0x100 ltac:(done) s3 eq_refl) eq_refl)). set (s4 := put_csr s3 0x100 _).
  rewrite (bind_ok _ _ _ _ _ (csrr_ok 0xC01 s4 (Hal 0xC01 ltac:(done) s4 eq_refl))).
  pose proof (set_timer_run (u64 (h_csr (b_hart s4) 0xC01 + 10000000)) s4) as Ht. change (sbi_answers s4) with (sbi_answers s) in Ht.
  destruct (sbi_answers s); [destruct Ht as [d Ed]; rewrite (bind_ok _ _ _ _ _ Ed); by eexists|]. unfold bind at 1. by rewrite Ht.
Qed.

(** C33. A kernel that the firmware enters in supervisor mode, as the comment in
    start.c says it is, never reaches [main]: entry.S reads mhartid, a register
    of machine mode, before it has a stack, and so does [start] before it sets
    tp. In machine mode, with the firmware's trap handler still in place to
    answer the ecall of [start], both return, the hart's number is in tp and the
    stack pointer is the top of the hart's own part of [stack0]; with another
    handler in mtvec the ecall goes there. *)
Theorem boot_needs_machine_mode s : 0 <= stack0 -> stack0 + 4096 * NCPU < 2 ^ 64 -> 0 <= h_csr (b_hart s) 0xF14 < NCPU ->
  (h_mode (b_hart s) = SMODE -> _entry s = Panic "illegal instruction" /\ start s = Panic "illegal instruction") /\
  (h_mode (b_hart s) = MMODE -> if h_csr (b_hart s) 0x305 =? sbi_mtvec
    then exists s', _entry s = Ok tt s' /\ h_tp (b_hart s') = h_csr (b_hart s) 0xF14 /\ h_sp (b_hart s') = stack0 + 4096 * (h_csr (b_hart s) 0xF14 + 1)
    else _entry s = Panic "environment call").
Proof using.
  intros Hs Ht Hid. unfold NCPU in *. split; intros Hm.
  - split.
    + unfold _entry, w_sp. unfold bind at 1, modify. unfold bind at 1. by rewrite mhartid_traps.
    + pose proof (start_boots s) as Hb. unfold sbi_answers in Hb. rewrite Hm in Hb. destruct (Hb ltac:(done)) as (s' & -> & E & _). unfold bind. rewrite mhartid_traps; [done|congruence].
  - assert (Hal : forall s', h_mode (b_hart s') = MMODE -> r_mhartid s' = Ok (h_csr (b_hart s') 0xF14) s') by (intros s' E; apply csrr_ok; by rewrite E).
    set (s1 := set_hart s (mk_hart (h_mode (b_hart s)) (h_csr (b_hart s)) (h_tp (b_hart s)) stack0 (h_ra (b_hart s)))).
    set (s2 := set_hart s1 (mk_hart (h_mode (b_hart s)) (h_csr (b_hart s)) (h_tp (b_hart s)) (u64 (stack0 + u64 (4096 * u64 (h_csr (b_hart s) 0xF14 + 1)))) (h_ra (b_hart s)))).
    assert (E0 : _entry s = start s2) by (unfold _entry; unfold w_sp at 1; unfold bind at 1, modify; fold s1; by rewrite (bind_ok _ _ _ _ _ (Hal s1 Hm))).
    rewrite E0. assert (Ea : sbi_answers s2 = (h_csr (b_hart s) 0x305 =? sbi_mtvec)) by (unfold sbi_answers; cbn [b_hart s2 set_hart h_mode h_csr]; by rewrite Hm).
    pose proof (start_boots s2 ltac:(cbn; by rewrite Hm)) as Hb. rewrite Ea in Hb. destruct (_ =? _); [|exact Hb]. destruct Hb as (s' & -> & E1 & E2 & E3). cbn [b_hart s2 set_hart h_mode] in E1.
    rewrite (bind_ok _ _ _ _ _ (Hal s' ltac:(by rewrite E1))). unfold w_tp, modify. eexists. split; [done|]. cbn [b_hart set_hart h_tp h_sp]. rewrite E2, E3. cbn [s2 s1 b_hart set_hart h_csr h_sp]. split.
    + rewrite (signed_small 32) by lia. by rewrite u64_small by lia.
    + rewrite (u64_small (_ + 1)), (u64_small (4096 * _)), u64_small by lia. done.
Qed.

(** ** The interrupt controller

    Where its specification puts the registers of context [c]: the enable
    word of a source, the priority threshold. The contexts of hart [h] are
    [2h] for machine mode and [2h + 1] for supervisor mode. *)
Definition plic_enable (c irq : Z) : Z := PLIC + 0x2000 + c * 0x80 + 4 * (irq / 32).
Definition plic_threshold (c : Z) : Z := PLIC + 0x200000 + c * 0x1000.
Definition with_tp s (h : Z) : B := set_hart s (mk_hart (h_mode (b_hart s)) (h_csr (b_hart s)) h (h_sp (b_hart s)) (h_ra (b_hart s))).

Lemma plicinithart_run s h : 0 <= h < NCPU -> h_tp (b_hart s) = h ->
  plicinithart s = Ok tt (mk_boot (b_hart s) (b_fw s) (<[plic_threshold (2 * h + 2) := 0]> (<[plic_enable (2 * h + 2) UART0_IRQ := 1024]> (b_plic s)))).
Proof using.
  intros Hh Ht. unfold NCPU in *. unfold plicinithart, r_tp, bind, gets, mmio_write, modify. rewrite Ht. rewrite (signed_small 32) by lia. cbn [b_hart b_fw b_plic].
  do 2 f_equal. unfold plic_threshold, PLIC_SPRIORITY, plic_enable, PLIC_SENABLE. f_equal; [lia|]. f_equal. lia.
Qed.

(** All harts run [plicinithart]. *)
Fixpoint plicinit_all (harts : list Z) : M B unit :=
  match harts with
  | [] => ret tt
  | h :: l => modify (fun s => with_tp s h) ;;; plicinithart ;;; plicinit_all l
  end.

(** What is written, and what is left alone. *)
Lemma plicinit_all_run l s : Forall (fun h => 0 <= h < NCPU) l -> exists s', plicinit_all l s = Ok tt s' /\
  (forall h, h ∈ l -> b_plic s' !! plic_enable (2 * h + 2) UART0_IRQ = Some 1024 /\ b_plic s' !! plic_threshold (2 * h + 2) = Some 0) /\
  forall a, (forall h, h ∈ l -> a <> plic_enable (2 * h + 2) UART0_IRQ /\ a <> plic_threshold (2 * h + 2)) -> b_plic s' !! a = b_plic s !! a.
Proof using.
  intros Hl. revert s. induction Hl as [|h l Hh Hl IH]; intros s.
  { exists s. split_and!; [done|intros h Hh%elem_of_nil; done|done]. }
  cbn [plicinit_all]. unfold bind at 1, modify. rewrite (bind_ok _ _ _ _ _ (plicinithart_run (with_tp s h) h Hh eq_refl)). cbn [with_tp set_hart b_hart b_fw b_plic].
  match goal with |- context [plicinit_all l ?x] => destruct (IH x) as (s' & E & H1 & H2); set (s1 := x) in * end. exists s'. split; [done|]. cbn [s1 b_plic] in H2. rewrite list.Forall_forall in Hl.
  split.
  - intros x Hx. destruct (decide (x ∈ l)) as [Hi|Hn]; [by apply H1|]. assert (x = h) as -> by (by apply elem_of_cons in Hx as [|]).
    assert (Hne : forall y, y ∈ l -> y <> h /\ 0 <= y < NCPU) by (intros y Hy; split; [congruence|by apply Hl]). unfold NCPU in *.
    rewrite !H2; [split|intros y Hy; destruct (Hne y Hy); unfold plic_enable, plic_threshold; change (UART0_IRQ / 32) with 2; lia..].
    + rewrite lookup_insert_ne by (unfold plic_threshold, plic_enable; change (UART0_IRQ / 32) with 2; lia). apply lookup_insert_eq.
    + apply lookup_insert_eq.
  - intros a Ha. rewrite H2 by (intros y Hy; apply Ha; by right). destruct (Ha h) as [N1 N2]; [by left|]. by rewrite !lookup_insert_ne.
Qed.

(** C34. No hart can be interrupted by the UART. [plicinithart] of hart h sets the
    enable bit and the threshold of context 2h + 2, the machine mode of hart
    h + 1; whatever the controller held before, after all harts have run it the
    enable words and the threshold of every supervisor context are what they
    were, so no source has been enabled for any of them. *)
Theorem uart_interrupt_not_enabled s :
  exists s', (plicinit ;;; plicinit_all (seqZ 0 NCPU)) s = Ok tt s' /\
    (forall h, 0 <= h < NCPU -> b_plic s' !! plic_enable (2 * h + 2) UART0_IRQ = Some 1024 /\ b_plic s' !! plic_threshold (2 * h + 2) = Some 0) /\
    forall h, 0 <= h < NCPU -> (forall irq, 0 <= irq < 160 -> b_plic s' !! plic_enable (2 * h + 1) irq = b_plic s !! plic_enable (2 * h + 1) irq) /\
      b_plic s' !! plic_threshold (2 * h + 1) = b_plic s !! plic_threshold (2 * h + 1).
Proof using.
  set (s1 := mk_boot (b_hart s) (b_fw s) (<[PLIC + UART0_IRQ * 4 := 1]> (b_plic s))).
  destruct (plicinit_all_run (seqZ 0 NCPU) s1) as (s' & E & H1 & H2).
  { apply list.Forall_forall. intros h Hh%elem_of_seqZ. unfold NCPU in *. lia. }
  exists s'. split; [exact E|]. unfold NCPU in *. split.
  - intros h Hh. apply H1, elem_of_seqZ. lia.
  - intros h Hh. split; [intros irq Hi|]; (rewrite H2; [cbn [s1 b_plic]; apply lookup_insert_ne|intros x Hx%elem_of_seqZ]); unfold plic_enable, plic_threshold, UART0_IRQ; dlia.
Qed.
End boot.

Definition no_firmware : Firmware unit := {| sbi_handler := fun _ _ _ d => ((0, 0), d); sbi_mtvec := 0 |}.
Definition demo_hart (mode : Z) : bootst unit := mk_boot (mk_hart mode (fun n => if n =? 0xF14 then 3 else 0) 0 0 0) tt ∅.

Lemma boot_needs_machine_mode_witness : @_entry unit no_firmware 0x40008000 0x40001000 (demo_hart SMODE) = Panic "illegal instruction".
Proof. apply (@boot_needs_machine_mode unit no_firmware 0x40008000 0x40001000 (demo_hart SMODE)); [lia|by vm_compute|by vm_compute|reflexivity]. Defined.
