(* ===== verification/Mem.v ===== *)
(** * Physical memory and kernel/string.c

    RAM as a finite map from addresses to bytes, 64-bit loads and stores on
    it, and the byte-array and string routines of kernel/string.c, which
    work on raw pointers. Plain [char] is unsigned on RISC-V. *)

From stdpp Require Import base gmap list numbers strings.
From Stdlib Require Import ZArith Lia.
From S2P Require Import Prelude.
Open Scope Z_scope.

Abbreviation ram := (gmap Z Z).

Definition ld8 (m : ram) (a : Z) : Z := u8 (default 0 (m !! a)).
Definition st8 (m : ram) (a v : Z) : ram := <[a := u8 v]> m.

Definition ldn (n : nat) (m : ram) (a : Z) : list Z :=
  map (fun i => ld8 m (a + i)) (seqZ 0 (Z.of_nat n)).
Fixpoint stn (m : ram) (a : Z) (l : list Z) : ram :=
  match l with
  | [] => m
  | b :: l' => stn (st8 m a b) (a + 1) l'
  end.

(** A uint64 in memory is little-endian. *)
Definition ld64 (m : ram) (a : Z) : Z := le_value (ldn 8 m a).
Definition st64 (m : ram) (a v : Z) : ram := stn m a (le_bytes 8 v).

(** ** kernel/string.c *)

Fixpoint memset_loop (k : nat) (m : ram) (cdst c i : Z) : ram :=
  match k with
  | O => m
  | S k' => memset_loop k' (st8 m (cdst + i) c) cdst c (i + 1)
  end.
Definition memset (m : ram) (dst c n : Z) : ram := memset_loop (Z.to_nat n) m dst c 0.

Fixpoint memcmp_loop (k : nat) (m : ram) (s1 s2 : Z) : Z :=
  match k with
  | O => 0
  | S k' =>
      if negb (ld8 m s1 =? ld8 m s2) then ld8 m s1 - ld8 m s2
      else memcmp_loop k' m (s1 + 1) (s2 + 1)
  end.
Definition memcmp (m : ram) (v1 v2 n : Z) : Z := memcmp_loop (Z.to_nat n) m v1 v2.

(** [while(n-- > 0) *--d = *--s;] *)
Fixpoint memmove_down (k : nat) (m : ram) (d s : Z) : ram :=
  match k with
  | O => m
  | S k' => memmove_down k' (st8 m (d - 1) (ld8 m (s - 1))) (d - 1) (s - 1)
  end.
(** [while(n-- > 0) *d++ = *s++;] *)
Fixpoint memmove_up (k : nat) (m : ram) (d s : Z) : ram :=
  match k with
  | O => m
  | S k' => memmove_up k' (st8 m d (ld8 m s)) (d + 1) (s + 1)
  end.
Definition memmove (m : ram) (dst src n : Z) : ram :=
  if n =? 0 then m
  else
    if (src <? dst) && (dst <? src + n)
    then memmove_down (Z.to_nat n) m (dst + n) (src + n)
    else memmove_up (Z.to_nat n) m dst src.
Definition memcpy (m : ram) (dst src n : Z) : ram := memmove m dst src n.

Fixpoint strncmp_loop (k : nat) (m : ram) (p q : Z) : Z :=
  match k with
  | O => 0
  | S k' =>
      if negb (ld8 m p =? 0) && (ld8 m p =? ld8 m q)
      then strncmp_loop k' m (p + 1) (q + 1)
      else ld8 m p - ld8 m q
  end.
Definition strncmp (m : ram) (p q n : Z) : Z := strncmp_loop (Z.to_nat n) m p q.

(** The second loop of [strncpy]: [while(n-- > 0) *s++ = 0;]. *)
Fixpoint strncpy_pad (k : nat) (m : ram) (s : Z) : ram :=
  match k with
  | O => m
  | S k' => strncpy_pad k' (st8 m s 0) (s + 1)
  end.
(** The first loop: [while(n-- > 0 && ( *s++ = *t++) != 0);]. *)
Fixpoint strncpy_copy (k : nat) (m : ram) (s t : Z) : ram :=
  match k with
  | O => m
  | S k' =>
      let c := ld8 m t in
      let m' := st8 m s c in
      if c =? 0 then strncpy_pad k' m' (s + 1) else strncpy_copy k' m' (s + 1) (t + 1)
  end.
Definition strncpy (m : ram) (s t n : Z) : ram := strncpy_copy (Z.to_nat n) m s t.

Fixpoint safestrcpy_copy (k : nat) (m : ram) (s t : Z) : ram :=
  match k with
  | O => st8 m s 0
  | S k' =>
      let c := ld8 m t in
      let m' := st8 m s c in
      if c =? 0 then st8 m' (s + 1) 0 else safestrcpy_copy k' m' (s + 1) (t + 1)
  end.
Definition safestrcpy (m : ram) (s t n : Z) : ram :=
  if n <=? 0 then m else safestrcpy_copy (Z.to_nat (n - 1)) m s t.

Fixpoint strlen_loop (fuel : nat) (m : ram) (s n : Z) : option Z :=
  match fuel with
  | O => None
  | S k => if ld8 m (s + n) =? 0 then Some n else strlen_loop k m s (n + 1)
  end.
(** [None] when no NUL lies within [fuel] bytes of [s]. *)
Definition strlen (fuel : nat) (m : ram) (s : Z) : option Z := strlen_loop fuel m s 0.

(** ** Loads and stores *)

Lemma ld8_range m a : 0 <= ld8 m a < 256.
Proof. apply Z.mod_pos_bound. lia. Qed.

Lemma u8_idem x : u8 (u8 x) = u8 x.
Proof. unfold u8. by rewrite Z.mod_mod by lia. Qed.

Lemma u8_byte x : 0 <= x < 256 -> u8 x = x.
Proof. intros. by apply Z.mod_small. Qed.

Lemma u8_ld8 m a : u8 (ld8 m a) = ld8 m a.
Proof. apply u8_idem. Qed.

Lemma ld8_st8 m a v b : ld8 (st8 m a v) b = if a =? b then u8 v else ld8 m b.
Proof.
  unfold ld8, st8. destruct (Z.eqb_spec a b) as [->|Hne].
  - rewrite lookup_insert_eq. apply u8_idem.
  - by rewrite lookup_insert_ne.
Qed.

Lemma ld8_stn l m a b :
  ld8 (stn m a l) b =
    if (a <=? b) && (b <? a + Z.of_nat (length l))
    then u8 (default 0 (l !! Z.to_nat (b - a))) else ld8 m b.
Proof.
  revert m a. induction l as [|v l IH]; intros m a.
  - cbn [stn length]. destruct (Z.leb_spec a b), (Z.ltb_spec b (a + Z.of_nat 0)); cbn; auto; lia.
  - cbn [stn length]. rewrite IH, ld8_st8.
    destruct (Z.leb_spec (a + 1) b), (Z.ltb_spec b (a + 1 + Z.of_nat (length l)));
      destruct (Z.leb_spec a b), (Z.ltb_spec b (a + Z.of_nat (S (length l)))); cbn; try lia.
    + replace (Z.to_nat (b - a)) with (S (Z.to_nat (b - (a + 1)))) by lia. done.
    + destruct (Z.eqb_spec a b); [lia|done].
    + destruct (Z.eqb_spec a b); [|lia]. by replace (Z.to_nat (b - a)) with O by lia.
    + destruct (Z.eqb_spec a b); [lia|done].
Qed.

Lemma length_ldn n m a : length (ldn n m a) = n.
Proof. unfold ldn. rewrite length_map. len. Qed.
#[export] Hint Rewrite length_ldn : len.

Lemma lookup_ldn n m a i : (i < n)%nat -> ldn n m a !! i = Some (ld8 m (a + Z.of_nat i)).
Proof.
  intros. unfold ldn. change (map ?f ?l) with (f <$> l).
  rewrite list_lookup_fmap, lookup_seqZ_lt by lia. done.
Qed.

Lemma ldn_byte n m a : Forall is_byte (ldn n m a).
Proof.
  apply Forall_lookup_2. intros i b Hi.
  pose proof (lookup_lt_Some _ _ _ Hi). rewrite length_ldn in *.
  rewrite lookup_ldn in Hi by done. simplify_eq. apply ld8_range.
Qed.

Lemma ldn_ext n m m' a a' :
  (forall i, 0 <= i < Z.of_nat n -> ld8 m (a + i) = ld8 m' (a' + i)) -> ldn n m a = ldn n m' a'.
Proof.
  intros H. apply list_eq. intros i. destruct (decide (i < n)%nat).
  - rewrite !lookup_ldn by done. f_equal. apply H. lia.
  - rewrite !lookup_ge_None_2 by len. done.
Qed.

Lemma ldn_stn_same l m a : Forall is_byte l -> ldn (length l) (stn m a l) a = l.
Proof.
  intros Hl. apply list_eq. intros i. destruct (decide (i < length l)%nat) as [Hi|Hi].
  - rewrite lookup_ldn by done. rewrite ld8_stn.
    destruct (lookup_lt_is_Some_2 l i Hi) as [b Hb].
    destruct (Z.leb_spec a (a + Z.of_nat i)); [|lia].
    destruct (Z.ltb_spec (a + Z.of_nat i) (a + Z.of_nat (length l))); [|lia]. cbn.
    replace (Z.to_nat (a + Z.of_nat i - a)) with i by lia. rewrite Hb. cbn.
    rewrite u8_byte; [done|]. by apply (Forall_lookup_1 _ _ _ _ Hl Hb).
  - rewrite !lookup_ge_None_2 by len. done.
Qed.

Lemma ldn_stn_other n l m a b :
  b + Z.of_nat n <= a \/ a + Z.of_nat (length l) <= b -> ldn n (stn m a l) b = ldn n m b.
Proof.
  intros H. apply ldn_ext. intros i Hi. rewrite ld8_stn.
  destruct (Z.leb_spec a (b + i)), (Z.ltb_spec (b + i) (a + Z.of_nat (length l))); cbn; auto; lia.
Qed.

Lemma ld64_range m a : 0 <= ld64 m a < 2 ^ 64.
Proof.
  unfold ld64. pose proof (le_value_range (ldn 8 m a) (ldn_byte 8 m a)).
  rewrite length_ldn in *. lia.
Qed.

Lemma ld64_st64 m a v : 0 <= v < 2 ^ 64 -> ld64 (st64 m a v) a = v.
Proof.
  intros. unfold ld64, st64.
  pose proof (ldn_stn_same (le_bytes 8 v) m a (le_bytes_byte 8 v)) as E.
  rewrite length_le_bytes in E. rewrite E, le_value_bytes. by apply Z.mod_small.
Qed.

Lemma ld64_st64_ne m a b v : b + 8 <= a \/ a + 8 <= b -> ld64 (st64 m a v) b = ld64 m b.
Proof.
  intros. unfold ld64, st64. f_equal. apply ldn_stn_other. rewrite length_le_bytes. lia.
Qed.

Lemma ld8_st64_ne m a b v : b < a \/ a + 8 <= b -> ld8 (st64 m a v) b = ld8 m b.
Proof.
  intros. unfold st64. rewrite ld8_stn, length_le_bytes.
  destruct (Z.leb_spec a b), (Z.ltb_spec b (a + Z.of_nat 8)); cbn; auto; lia.
Qed.

Lemma ld64_ext m m' a : (forall i, 0 <= i < 8 -> ld8 m (a + i) = ld8 m' (a + i)) -> ld64 m a = ld64 m' a.
Proof. intros. unfold ld64. f_equal. apply ldn_ext. auto. Qed.

Lemma ld64_zero m a : (forall i, 0 <= i < 8 -> ld8 m (a + i) = 0) -> ld64 m a = 0.
Proof.
  intros H. unfold ld64. 
  assert (E : ldn 8 m a = replicate 8 0).
  { apply list_eq. intros i. destruct (decide (i < 8)%nat).
    - rewrite lookup_ldn, lookup_replicate_2, H by lia. done.
    - rewrite !lookup_ge_None_2 by len. done. }
  by rewrite E.
Qed.

(** ** The routines of string.c *)

Section string_c.
Context (m : ram).

Lemma ld8_memset_loop k m0 d c i a :
  ld8 (memset_loop k m0 d c i) a =
    if (d + i <=? a) && (a <? d + i + Z.of_nat k) then u8 c else ld8 m0 a.
Proof.
  revert m0 i. induction k as [|k IH]; intros m0 i; cbn [memset_loop].
  - destruct (Z.leb_spec (d + i) a), (Z.ltb_spec a (d + i + Z.of_nat 0)); cbn; auto; lia.
  - rewrite IH, ld8_st8.
    destruct (Z.leb_spec (d + (i + 1)) a), (Z.ltb_spec a (d + (i + 1) + Z.of_nat k)),
      (Z.leb_spec (d + i) a), (Z.ltb_spec a (d + i + Z.of_nat (S k))),
      (Z.eqb_spec (d + i) a); cbn; auto; lia.
Qed.

(** [memset] writes exactly the [n] bytes at [dst]. *)
Lemma ld8_memset d c n a : 0 <= n ->
  ld8 (memset m d c n) a = if (d <=? a) && (a <? d + n) then u8 c else ld8 m a.
Proof.
  intros. unfold memset. rewrite ld8_memset_loop, Z2Nat.id by done. by rewrite Z.add_0_r.
Qed.

Lemma ld8_memmove_up k m0 d s a : (d <= s \/ s + Z.of_nat k <= d) ->
  ld8 (memmove_up k m0 d s) a =
    if (d <=? a) && (a <? d + Z.of_nat k) then ld8 m0 (s + (a - d)) else ld8 m0 a.
Proof.
  revert m0 d s. induction k as [|k IH]; intros m0 d s Hds; cbn [memmove_up].
  - destruct (Z.leb_spec d a), (Z.ltb_spec a (d + Z.of_nat 0)); cbn; auto; lia.
  - rewrite IH by lia. rewrite !ld8_st8, u8_ld8.
    destruct (Z.leb_spec (d + 1) a), (Z.ltb_spec a (d + 1 + Z.of_nat k)),
      (Z.leb_spec d a), (Z.ltb_spec a (d + Z.of_nat (S k))); cbn; try lia;
      destruct (Z.eqb_spec d a); try lia; auto.
    + destruct (Z.eqb_spec d (s + 1 + (a - (d + 1)))); [lia|]. f_equal. lia.
    + f_equal. lia.
Qed.

Lemma ld8_memmove_down k m0 d s a : s <= d ->
  ld8 (memmove_down k m0 (d + Z.of_nat k) (s + Z.of_nat k)) a =
    if (d <=? a) && (a <? d + Z.of_nat k) then ld8 m0 (s + (a - d)) else ld8 m0 a.
Proof.
  intros Hds. revert m0. induction k as [|k IH]; intros m0; cbn [memmove_down].
  - destruct (Z.leb_spec d a), (Z.ltb_spec a (d + Z.of_nat 0)); cbn; auto; lia.
  - replace (d + Z.of_nat (S k) - 1) with (d + Z.of_nat k) by lia.
    replace (s + Z.of_nat (S k) - 1) with (s + Z.of_nat k) by lia.
    rewrite IH, !ld8_st8, u8_ld8.
    destruct (Z.leb_spec d a), (Z.ltb_spec a (d + Z.of_nat k)),
      (Z.ltb_spec a (d + Z.of_nat (S k))); cbn; try lia;
      destruct (Z.eqb_spec (d + Z.of_nat k) a); try lia; auto.
    + destruct (Z.eqb_spec (d + Z.of_nat k) (s + (a - d))); [lia|]. done.
    + f_equal. lia.
Qed.

(** Whatever the overlap of source and destination, the destination ends up
    with the bytes the source held before the call. *)
Lemma ld8_memmove d s n a : 0 <= n ->
  ld8 (memmove m d s n) a =
    if (d <=? a) && (a <? d + n) then ld8 m (s + (a - d)) else ld8 m a.
Proof.
  intros Hn. unfold memmove. destruct (Z.eqb_spec n 0) as [->|].
  - destruct (Z.leb_spec d a), (Z.ltb_spec a (d + 0)); cbn; auto; lia.
  - destruct (Z.ltb_spec s d), (Z.ltb_spec d (s + n)); cbn [andb].
    1: pose proof (ld8_memmove_down (Z.to_nat n) m d s a) as E; rewrite Z2Nat.id in E by lia;
       apply E; lia.
    all: rewrite ld8_memmove_up, Z2Nat.id by lia; done.
Qed.

Lemma ldn_memmove d s n : 0 <= n ->
  ldn (Z.to_nat n) (memmove m d s n) d = ldn (Z.to_nat n) m s.
Proof.
  intros. apply ldn_ext. intros i Hi. rewrite ld8_memmove by done.
  destruct (Z.leb_spec d (d + i)), (Z.ltb_spec (d + i) (d + n)); cbn; try lia.
  f_equal. lia.
Qed.
End string_c.

Lemma ldn_cons k m s : ldn (S k) m s = ld8 m s :: ldn k m (s + 1).
Proof.
  apply list_eq. intros [|i].
  - rewrite lookup_ldn by lia. cbn. f_equal. f_equal. lia.
  - rewrite lookup_cons. destruct (decide (i < k)%nat).
    + rewrite !lookup_ldn by lia. f_equal. f_equal. lia.
    + rewrite !lookup_ge_None_2 by len. done.
Qed.

(** [memcmp] is zero exactly on equal ranges. *)
Lemma memcmp_loop_zero k m s1 s2 :
  memcmp_loop k m s1 s2 = 0 <-> ldn k m s1 = ldn k m s2.
Proof.
  revert s1 s2. induction k as [|k IH]; intros s1 s2; [by cbn|].
  rewrite !ldn_cons. cbn [memcmp_loop].
  destruct (Z.eqb_spec (ld8 m s1) (ld8 m s2)) as [E|E]; cbn [negb].
  - rewrite IH, E. split; intros H; [by rewrite H | by injection H].
  - split; intros H; [lia|]. injection H. lia.
Qed.

(** *** C strings at list level

    The same comparison and copy on byte arrays held as values (names in
    directory entries, path buffers). *)

Fixpoint strncmp_list (k : nat) (p q : list Z) : Z :=
  match k with
  | O => 0
  | S k' =>
      let a := default 0 (head p) in
      let b := default 0 (head q) in
      if negb (a =? 0) && (a =? b) then strncmp_list k' (tail p) (tail q) else a - b
  end.

Lemma strncmp_list_spec k m p q :
  strncmp_loop k m p q = strncmp_list k (ldn k m p) (ldn k m q).
Proof.
  revert p q. induction k as [|k IH]; intros p q; [done|].
  rewrite !ldn_cons. cbn [strncmp_loop strncmp_list head tail default]. rewrite IH. done.
Qed.

Lemma strlen_loop_spec fuel m s n k :
  (k < fuel)%nat -> ld8 m (s + n + Z.of_nat k) = 0 ->
  (forall j, 0 <= j < Z.of_nat k -> ld8 m (s + n + j) <> 0) ->
  strlen_loop fuel m s n = Some (n + Z.of_nat k).
Proof.
  revert n k. induction fuel as [|fuel IH]; intros n k Hk H0 Hn; [lia|].
  cbn [strlen_loop]. destruct k as [|k].
  - replace (s + n + Z.of_nat 0) with (s + n) in H0 by lia. rewrite H0. cbn. f_equal. lia.
  - destruct (Z.eqb_spec (ld8 m (s + n)) 0) as [E|_].
    + exfalso. apply (Hn 0); [lia|]. by rewrite Z.add_0_r.
    + rewrite (IH (n + 1) k); [f_equal; lia|lia| |].
      * replace (s + (n + 1) + Z.of_nat k) with (s + n + Z.of_nat (S k)) by lia. done.
      * intros j Hj. replace (s + (n + 1) + j) with (s + n + (j + 1)) by lia. apply Hn. lia.
Qed.

#[global] Arguments ld64 : simpl never.
#[global] Arguments st64 : simpl never.
#[global] Arguments ld8 : simpl never.
#[global] Arguments st8 : simpl never.
#[global] Arguments memset : simpl never.
#[global] Arguments memmove : simpl never.
#[global] Opaque memset memmove ld64 st64.
