(* ===== verification/Asm.v ===== *)
(** * The assembly code (kernel/trampoline.S, kernelvec.S, swtch.S)

    The instructions these files use, on a hart with its registers, control
    registers and memory behind address translation, and the code as lists of
    instructions in the order of the files. The translation of virtual addresses
    is a parameter. The theorems: a user process finds all its registers as it
    left them when it comes back from a trap, so does kernel code from an
    interrupt, and a context switch resumes the other context and can be
    resumed from the saved one. *)

From stdpp Require Import functions base gmap numbers strings list.
From Stdlib Require Import ZArith Lia.
From S2P Require Import Prelude Riscv Mem.
Open Scope Z_scope.

Module X.
Inductive reg :=
  | ra | sp | gp | tp | t0 | t1 | t2 | s0 | s1 | a0 | a1 | a2 | a3 | a4 | a5 | a6 | a7
  | s2 | s3 | s4 | s5 | s6 | s7 | s8 | s9 | s10 | s11 | t3 | t4 | t5 | t6.
End X.
Abbreviation reg := X.reg.
#[export] Instance reg_eq_dec : EqDecision reg.
Proof. solve_decision. Defined.

(** ** The hart *)

Definition SATP : Z := 0x180.
Definition SSCRATCH : Z := 0x140.
Definition SSTATUS : Z := 0x100.
Definition SEPC : Z := 0x141.
Definition SCAUSE : Z := 0x142.
Definition STVEC : Z := 0x105.
Definition SPP : Z := 8.
Definition SPIE : Z := 5.
Definition SIE : Z := 1.

Inductive instr :=
  | SD (r : reg) (off : Z) (base : reg)
  | LD (r : reg) (off : Z) (base : reg)
  | ADDI (rd rs : reg) (imm : Z)
  | LI (rd : reg) (v : Z)
  | CSRW (csr : Z) (r : reg)
  | CSRR (r : reg) (csr : Z)
  | SFENCE
  | JALR (r : reg) (link : Z)      (* [link] is the address of the next instruction *)
  | CALL (target link : Z)
  | RET
  | SRET.

(** [user] is the privilege mode. *)
Record mach := mk_mach { rf : reg -> Z; csrf : Z -> Z; phys : ram; user : bool; pc : Z }.

(** What a virtual address means under a value of satp. *)
Class Mmu := translate : Z -> Z -> option Z.

Section exec.
Context {mmu : Mmu}.

Definition set_rf (m : mach) (r : reg) (v : Z) : mach := mk_mach (<[r := v]> (rf m)) (csrf m) (phys m) (user m) (pc m).
Definition set_csrf (m : mach) (c v : Z) : mach := mk_mach (rf m) (<[c := v]> (csrf m)) (phys m) (user m) (pc m).
Definition set_phys (m : mach) (x : ram) : mach := mk_mach (rf m) (csrf m) x (user m) (pc m).
Definition set_pc (m : mach) (v : Z) : mach := mk_mach (rf m) (csrf m) (phys m) (user m) v.
Definition vaddr (m : mach) (base : reg) (off : Z) : Z := u64 (rf m base + off).

(** Bits of sstatus: [sret] goes to the mode in SPP with the interrupt enable
    of SPIE. *)
Definition put_bit (v k : Z) (b : bool) : Z := if b then Z.setbit v k else Z.clearbit v k.
Definition sret (m : mach) : mach :=
  let st := csrf m SSTATUS in
  let st' := put_bit (put_bit (put_bit st SIE (Z.testbit st SPIE)) SPIE true) SPP false in
  mk_mach (rf m) (<[SSTATUS := st']> (csrf m)) (phys m) (negb (Z.testbit st SPP)) (csrf m SEPC).

(** [None]: the access faults. *)
Definition exec1 (i : instr) (m : mach) : option mach :=
  match i with
  | SD r off base => a ← translate (csrf m SATP) (vaddr m base off); Some (set_phys m (st64 (phys m) a (rf m r)))
  | LD r off base => a ← translate (csrf m SATP) (vaddr m base off); Some (set_rf m r (ld64 (phys m) a))
  | ADDI rd rs imm => Some (set_rf m rd (u64 (rf m rs + imm)))
  | LI rd v => Some (set_rf m rd (u64 v))
  | CSRW c r => Some (set_csrf m c (rf m r))
  | CSRR r c => Some (set_rf m r (csrf m c))
  | SFENCE => Some m
  | JALR r link => Some (set_pc (set_rf m X.ra link) (rf m r))
  | CALL target link => Some (set_pc (set_rf m X.ra link) target)
  | RET => Some (set_pc m (rf m X.ra))
  | SRET => Some (sret m)
  end.
Fixpoint exec (l : list instr) (m : mach) : option mach :=
  match l with
  | [] => Some m
  | i :: l' => m' ← exec1 i m; exec l' m'
  end.

(** ** trampoline.S *)

Definition uservec (userret_addr : Z) : list instr := [
  CSRW SSCRATCH X.a0;
  LI X.a0 TRAPFRAME;
  SD X.ra 40 X.a0; SD X.sp 48 X.a0; SD X.gp 56 X.a0; SD X.tp 64 X.a0; SD X.t0 72 X.a0; SD X.t1 80 X.a0; SD X.t2 88 X.a0;
  SD X.s0 96 X.a0; SD X.s1 104 X.a0; SD X.a1 120 X.a0; SD X.a2 128 X.a0; SD X.a3 136 X.a0; SD X.a4 144 X.a0; SD X.a5 152 X.a0;
  SD X.a6 160 X.a0; SD X.a7 168 X.a0; SD X.s2 176 X.a0; SD X.s3 184 X.a0; SD X.s4 192 X.a0; SD X.s5 200 X.a0; SD X.s6 208 X.a0;
  SD X.s7 216 X.a0; SD X.s8 224 X.a0; SD X.s9 232 X.a0; SD X.s10 240 X.a0; SD X.s11 248 X.a0; SD X.t3 256 X.a0; SD X.t4 264 X.a0;
  SD X.t5 272 X.a0; SD X.t6 280 X.a0;
  CSRR X.t0 SSCRATCH;
  SD X.t0 112 X.a0;
  LD X.sp 8 X.a0;
  LD X.tp 32 X.a0;
  LD X.t0 16 X.a0;
  LD X.t1 0 X.a0;
  SFENCE;
  CSRW SATP X.t1;
  SFENCE;
  JALR X.t0 userret_addr ].

Definition userret : list instr := [
  SFENCE;
  CSRW SATP X.a0;
  SFENCE;
  LI X.a0 TRAPFRAME;
  LD X.ra 40 X.a0; LD X.sp 48 X.a0; LD X.gp 56 X.a0; LD X.tp 64 X.a0; LD X.t0 72 X.a0; LD X.t1 80 X.a0; LD X.t2 88 X.a0;
  LD X.s0 96 X.a0; LD X.s1 104 X.a0; LD X.a1 120 X.a0; LD X.a2 128 X.a0; LD X.a3 136 X.a0; LD X.a4 144 X.a0; LD X.a5 152 X.a0;
  LD X.a6 160 X.a0; LD X.a7 168 X.a0; LD X.s2 176 X.a0; LD X.s3 184 X.a0; LD X.s4 192 X.a0; LD X.s5 200 X.a0; LD X.s6 208 X.a0;
  LD X.s7 216 X.a0; LD X.s8 224 X.a0; LD X.s9 232 X.a0; LD X.s10 240 X.a0; LD X.s11 248 X.a0; LD X.t3 256 X.a0; LD X.t4 264 X.a0;
  LD X.t5 272 X.a0; LD X.t6 280 X.a0;
  LD X.a0 112 X.a0;
  SRET ].

(** ** swtch.S *)

Definition swtch : list instr := [
  SD X.ra 0 X.a0; SD X.sp 8 X.a0; SD X.s0 16 X.a0; SD X.s1 24 X.a0; SD X.s2 32 X.a0; SD X.s3 40 X.a0; SD X.s4 48 X.a0;
  SD X.s5 56 X.a0; SD X.s6 64 X.a0; SD X.s7 72 X.a0; SD X.s8 80 X.a0; SD X.s9 88 X.a0; SD X.s10 96 X.a0; SD X.s11 104 X.a0;
  LD X.ra 0 X.a1; LD X.sp 8 X.a1; LD X.s0 16 X.a1; LD X.s1 24 X.a1; LD X.s2 32 X.a1; LD X.s3 40 X.a1; LD X.s4 48 X.a1;
  LD X.s5 56 X.a1; LD X.s6 64 X.a1; LD X.s7 72 X.a1; LD X.s8 80 X.a1; LD X.s9 88 X.a1; LD X.s10 96 X.a1; LD X.s11 104 X.a1;
  RET ].

(** ** kernelvec.S, up to the call of [kerneltrap] and from its return *)

Definition kernelvec_save (kerneltrap_addr link : Z) : list instr := [
  ADDI X.sp X.sp (-256);
  SD X.ra 0 X.sp; SD X.gp 16 X.sp; SD X.tp 24 X.sp; SD X.t0 32 X.sp; SD X.t1 40 X.sp; SD X.t2 48 X.sp; SD X.a0 72 X.sp;
  SD X.a1 80 X.sp; SD X.a2 88 X.sp; SD X.a3 96 X.sp; SD X.a4 104 X.sp; SD X.a5 112 X.sp; SD X.a6 120 X.sp; SD X.a7 128 X.sp;
  SD X.t3 216 X.sp; SD X.t4 224 X.sp; SD X.t5 232 X.sp; SD X.t6 240 X.sp;
  CALL kerneltrap_addr link ].
Definition kernelvec_restore : list instr := [
  LD X.ra 0 X.sp; LD X.gp 16 X.sp; LD X.t0 32 X.sp; LD X.t1 40 X.sp; LD X.t2 48 X.sp; LD X.a0 72 X.sp;
  LD X.a1 80 X.sp; LD X.a2 88 X.sp; LD X.a3 96 X.sp; LD X.a4 104 X.sp; LD X.a5 112 X.sp; LD X.a6 120 X.sp; LD X.a7 128 X.sp;
  LD X.t3 216 X.sp; LD X.t4 224 X.sp; LD X.t5 232 X.sp; LD X.t6 240 X.sp;
  ADDI X.sp X.sp 256;
  SRET ].

(** ** Saving and loading registers *)

Definition saves (base : reg) (l : list (reg * Z)) : list instr := map (fun x => SD (fst x) (snd x) base) l.
Definition loads (base : reg) (l : list (reg * Z)) : list instr := map (fun x => LD (fst x) (snd x) base) l.
Definition stored (pa : Z) (m : mach) (l : list (reg * Z)) : ram := foldl (fun x e => st64 x (pa + snd e) (rf m (fst e))) (phys m) l.
Definition loaded (pa : Z) (m : mach) (l : list (reg * Z)) : reg -> Z := foldl (fun f e => <[fst e := ld64 (phys m) (pa + snd e)]> f) (rf m) l.

(** The [n] bytes at a virtual address are at a physical one. *)
Definition mapped (satp va pa n : Z) : Prop := forall o, 0 <= o < n -> translate satp (u64 (va + o)) = Some (pa + o).

Lemma exec_app l1 l2 m m' : exec l1 m = Some m' -> exec (l1 ++ l2) m = exec l2 m'.
Proof using. revert m. induction l1 as [|i l1 IH]; intros m; cbn; [by intros [= ->]|]. destruct (exec1 i m); cbn; [apply IH|done]. Qed.

Lemma saves_run base pa n l m : mapped (csrf m SATP) (rf m base) pa n -> Forall (fun e => 0 <= snd e < n) l ->
  exec (saves base l) m = Some (set_phys m (stored pa m l)).
Proof using.
  intros Hm Hl. unfold stored. assert (H : forall x, exec (saves base l) (set_phys m x) = Some (set_phys m (foldl (fun x e => st64 x (pa + snd e) (rf m (fst e))) x l))).
  { induction Hl as [|[r o] l Ho Hl IH]; intros x; [done|]. cbn [saves map exec exec1 fst snd]. unfold vaddr. cbn [rf csrf set_phys phys]. cbn in Ho.
    rewrite (Hm o Ho). cbn [mbind option_bind foldl fst snd]. apply IH. }
  specialize (H (phys m)). by destruct m.
Qed.

Lemma loads_run base pa n l m : mapped (csrf m SATP) (rf m base) pa n -> Forall (fun e => 0 <= snd e < n) l -> Forall (fun e => fst e <> base) l ->
  exec (loads base l) m = Some (mk_mach (loaded pa m l) (csrf m) (phys m) (user m) (pc m)).
Proof using.
  intros Hm Hl Hb. unfold loaded. assert (H : forall f, f base = rf m base -> exec (loads base l) (mk_mach f (csrf m) (phys m) (user m) (pc m)) =
    Some (mk_mach (foldl (fun f e => <[fst e := ld64 (phys m) (pa + snd e)]> f) f l) (csrf m) (phys m) (user m) (pc m))).
  { induction Hl as [|[r o] l Ho Hl IH]; intros f Hf; [done|]. apply Forall_cons in Hb as [Hr Hb]. cbn in Ho, Hr. cbn [loads map exec exec1 fst snd]. unfold vaddr. cbn [rf csrf phys].
    rewrite Hf, (Hm o Ho). cbn [mbind option_bind foldl fst snd]. apply (IH Hb). by rewrite fn_lookup_insert_ne. }
  specialize (H (rf m) eq_refl). by destruct m.
Qed.

(** Different words of eight bytes. *)
Definition words (l : list (reg * Z)) : Prop := NoDup (map snd l) /\ Forall (fun e => snd e mod 8 = 0) l.

Lemma stored_at pa m l r o : words l -> (r, o) ∈ l -> 0 <= rf m r < 2 ^ 64 -> ld64 (stored pa m l) (pa + o) = rf m r.
Proof using.
  unfold stored. generalize (phys m) as x. intros x [Hn Ha] Hin Hr. revert x Hin. induction l as [|[r' o'] l IH]; intros x Hin; [by apply elem_of_nil in Hin|].
  apply Forall_cons in Ha as [Ha' Ha]. cbn [map] in Hn. apply NoDup_cons in Hn as [Hn' Hn]. cbn [foldl fst snd] in *. apply elem_of_cons in Hin as [[= <- <-]|Hin]; [|by apply IH].
  enough (H : forall y, ld64 (foldl (fun x e => st64 x (pa + snd e) (rf m (fst e))) y l) (pa + o) = ld64 y (pa + o)) by (rewrite H; by apply ld64_st64).
  clear IH Hn. induction l as [|[r' o'] l IH]; intros y; [done|]. apply Forall_cons in Ha as [Ho Ha]. cbn [map foldl fst snd] in *. apply not_elem_of_cons in Hn' as [Hne Hn'].
  rewrite (IH Hn' Ha). apply ld64_st64_ne. clear -Hne Ho Ha'. dlia.
Qed.

Lemma stored_else pa m l a : (forall e, e ∈ l -> a + 8 <= pa + snd e \/ pa + snd e + 8 <= a) -> ld64 (stored pa m l) a = ld64 (phys m) a.
Proof using.
  unfold stored. generalize (phys m) as x. induction l as [|[r o] l IH]; intros x H; [done|]. cbn [foldl fst snd]. rewrite IH by (intros e He; apply H; by right).
  apply ld64_st64_ne. specialize (H (r, o) ltac:(by left)). cbn in H. lia.
Qed.

Lemma loaded_at pa m l r o : NoDup (map fst l) -> (r, o) ∈ l -> loaded pa m l r = ld64 (phys m) (pa + o).
Proof using.
  unfold loaded. generalize (rf m) as f. intros f Hn Hin. revert f Hin. induction l as [|[r' o'] l IH]; intros f Hin; [by apply elem_of_nil in Hin|].
  cbn [map] in Hn. apply NoDup_cons in Hn as [Hn' Hn]. cbn [foldl fst snd] in *. apply elem_of_cons in Hin as [[= <- <-]|Hin]; [|by apply IH].
  enough (H : forall g, foldl (fun f e => <[fst e := ld64 (phys m) (pa + snd e)]> f) g l r = g r) by (by rewrite H, fn_lookup_insert).
  clear IH Hn. induction l as [|[r' o'] l IH]; intros g; [done|]. cbn [map foldl fst snd] in *. apply not_elem_of_cons in Hn' as [Hne Hn']. rewrite (IH Hn'). by rewrite fn_lookup_insert_ne.
Qed.

Lemma loaded_else pa m l r : r ∉ map fst l -> loaded pa m l r = rf m r.
Proof using.
  unfold loaded. generalize (rf m) as f. induction l as [|[r' o'] l IH]; intros f Hn; [done|]. cbn [map foldl fst snd] in *. apply not_elem_of_cons in Hn as [Hne Hn].
  rewrite (IH _ Hn). by rewrite fn_lookup_insert_ne.
Qed.

(** ** User traps *)

(** Where struct trapframe keeps a register. *)
Definition tf_off (r : reg) : Z :=
  match r with
  | X.ra => 40 | X.sp => 48 | X.gp => 56 | X.tp => 64 | X.t0 => 72 | X.t1 => 80 | X.t2 => 88 | X.s0 => 96 | X.s1 => 104
  | X.a0 => 112 | X.a1 => 120 | X.a2 => 128 | X.a3 => 136 | X.a4 => 144 | X.a5 => 152 | X.a6 => 160 | X.a7 => 168
  | X.s2 => 176 | X.s3 => 184 | X.s4 => 192 | X.s5 => 200 | X.s6 => 208 | X.s7 => 216 | X.s8 => 224 | X.s9 => 232
  | X.s10 => 240 | X.s11 => 248 | X.t3 => 256 | X.t4 => 264 | X.t5 => 272 | X.t6 => 280
  end.
Definition but_a0 : list reg :=
  [X.ra; X.sp; X.gp; X.tp; X.t0; X.t1; X.t2; X.s0; X.s1; X.a1; X.a2; X.a3; X.a4; X.a5; X.a6; X.a7;
   X.s2; X.s3; X.s4; X.s5; X.s6; X.s7; X.s8; X.s9; X.s10; X.s11; X.t3; X.t4; X.t5; X.t6].
Definition frame : list (reg * Z) := map (fun r => (r, tf_off r)) but_a0.
Definition kernel_words : list (reg * Z) := [(X.sp, 8); (X.tp, 32); (X.t0, 16); (X.t1, 0)].

Lemma uservec_split link : uservec link = [CSRW SSCRATCH X.a0; LI X.a0 TRAPFRAME] ++ saves X.a0 frame ++
  [CSRR X.t0 SSCRATCH] ++ saves X.a0 [(X.t0, 112)] ++ loads X.a0 kernel_words ++ [SFENCE; CSRW SATP X.t1; SFENCE; JALR X.t0 link].
Proof using. reflexivity. Qed.
Lemma userret_split : userret = [SFENCE; CSRW SATP X.a0; SFENCE; LI X.a0 TRAPFRAME] ++ loads X.a0 frame ++ [LD X.a0 112 X.a0; SRET].
Proof using. reflexivity. Qed.

Lemma frame_words : words frame.
Proof using. split; [apply (bool_decide_unpack _); by vm_compute|by repeat constructor]. Qed.
Lemma frame_in r : r <> X.a0 -> (r, tf_off r) ∈ frame.
Proof using. intros H. apply (list_elem_of_fmap_2' (fun r => (r, tf_off r)) but_a0 r); [|done]. destruct r; try done; repeat first [left; reflexivity|right]. Qed.
Lemma frame_range : Forall (fun e => 40 <= snd e < 288 /\ snd e <> 112 /\ snd e mod 8 = 0) frame.
Proof using. by repeat constructor. Qed.

(** The trap frame of the process is mapped in its page table, and the
    registers hold 64-bit values. *)
Definition tf_mapped (satp tf : Z) : Prop := mapped satp TRAPFRAME tf 288.
Definition regs_ok (m : mach) : Prop := forall r, 0 <= rf m r < 2 ^ 64.

Record trapped (tf link : Z) (m m1 : mach) : Prop := {
  tr_pc : pc m1 = ld64 (phys m) (tf + 16);
  tr_sp : rf m1 X.sp = ld64 (phys m) (tf + 8);
  tr_tp : rf m1 X.tp = ld64 (phys m) (tf + 32);
  tr_satp : csrf m1 SATP = ld64 (phys m) (tf + 0);
  tr_ra : rf m1 X.ra = link;
  tr_saved : forall r, ld64 (phys m1) (tf + tf_off r) = rf m r;
  tr_mem : forall a, a + 8 <= tf + 40 \/ tf + 288 <= a -> ld64 (phys m1) a = ld64 (phys m) a;
  tr_user : user m1 = user m;
  tr_csr : forall c, c <> SATP -> c <> SSCRATCH -> csrf m1 c = csrf m c }.

Lemma uservec_saves tf link m : tf_mapped (csrf m SATP) tf -> regs_ok m -> exists m1, exec (uservec link) m = Some m1 /\ trapped tf link m m1.
Proof using.
  intros Hm Hr. rewrite uservec_split. set (m1 := set_rf (set_csrf m SSCRATCH (rf m X.a0)) X.a0 TRAPFRAME).
  rewrite (exec_app _ _ m m1) by done.
  assert (Hm1 : mapped (csrf m1 SATP) (rf m1 X.a0) tf 288) by exact Hm.
  assert (Hf1 : Forall (fun e => 0 <= snd e < 288) frame) by (eapply Forall_impl; [exact frame_range|cbn; lia]).
  rewrite (exec_app _ _ _ _ (saves_run X.a0 tf 288 frame m1 Hm1 Hf1)). set (m2 := set_phys m1 (stored tf m1 frame)).
  set (m3 := set_rf m2 X.t0 (rf m X.a0)). rewrite (exec_app _ _ m2 m3) by done.
  rewrite (exec_app _ _ m3 _ (saves_run X.a0 tf 288 [(X.t0, 112)] m3 Hm1 ltac:(by repeat constructor))). set (m4 := set_phys m3 (stored tf m3 [(X.t0, 112)])).
  rewrite (exec_app _ _ m4 _ (loads_run X.a0 tf 288 kernel_words m4 Hm1 ltac:(by repeat constructor) ltac:(by repeat constructor))).
  eexists. split; [reflexivity|].
  assert (Hold : forall a, a + 8 <= tf + 40 \/ tf + 288 <= a -> ld64 (phys m4) a = ld64 (phys m) a).
  { intros a Ha. cbn [m4 set_phys phys]. rewrite stored_else by (intros e ->%list_elem_of_singleton; cbn; lia). cbn [m3 m2 set_rf set_phys phys].
    change (phys m) with (phys m1). apply stored_else. intros e He. pose proof (proj1 (list.Forall_forall _ _) frame_range e He) as (H1 & _ & H2). dlia. }
  assert (Hk : forall r o, (r, o) ∈ kernel_words -> loaded tf m4 kernel_words r = ld64 (phys m) (tf + o)).
  { intros r o Hin. rewrite (loaded_at tf m4 _ r o); [|apply (bool_decide_unpack _); by vm_compute|done]. apply Hold. left.
    assert (o <= 32) by (repeat (apply elem_of_cons in Hin as [[= -> ->]|Hin]; [lia|]); by apply elem_of_nil in Hin). lia. }
  split; cbn [set_pc set_rf set_csrf pc rf csrf phys user].
  - apply Hk. by right; right; left.
  - rewrite fn_lookup_insert_ne by done. apply Hk. by left.
  - rewrite fn_lookup_insert_ne by done. apply Hk. by right; left.
  - rewrite fn_lookup_insert. apply Hk. by right; right; right; left.
  - apply fn_lookup_insert.
  - intros r. cbn [m4 set_phys phys]. destruct (decide (r = X.a0)) as [->|Hne].
    + rewrite (stored_at tf m3 _ X.t0 112); [done|split; [apply NoDup_singleton|by repeat constructor]|by left|apply Hr].
    + rewrite stored_else. 2:{ intros e ->%list_elem_of_singleton. cbn [snd]. pose proof (proj1 (list.Forall_forall _ _) frame_range _ (frame_in r Hne)) as Hb. cbn [snd] in Hb. destruct Hb as (H1 & H2 & H3). dlia. }
      cbn [m3 m2 set_rf set_phys phys]. assert (E : rf m1 r = rf m r) by (cbn; by rewrite fn_lookup_insert_ne).
      rewrite <- E. apply stored_at; [exact frame_words|by apply frame_in|rewrite E; apply Hr].
  - exact Hold.
  - done.
  - intros c H1 H2. rewrite fn_lookup_insert_ne by done. cbn. by rewrite fn_lookup_insert_ne.
Qed.

Lemma testbit_put v k b j : 0 <= k -> 0 <= j -> Z.testbit (put_bit v k b) j = if k =? j then b else Z.testbit v j.
Proof using.
  intros Hk Hj. unfold put_bit. destruct b; [rewrite Z.setbit_eqb by done|rewrite Z.clearbit_eqb by done]; destruct (Z.eqb_spec k j); by rewrite ?orb_true_r, ?andb_false_r, ?orb_false_l, ?andb_true_r.
Qed.

Record returned (tf : Z) (m2 m3 : mach) : Prop := {
  rt_regs : forall r, rf m3 r = ld64 (phys m2) (tf + tf_off r);
  rt_pc : pc m3 = csrf m2 SEPC;
  rt_user : user m3 = negb (Z.testbit (csrf m2 SSTATUS) SPP);
  rt_sie : Z.testbit (csrf m3 SSTATUS) SIE = Z.testbit (csrf m2 SSTATUS) SPIE;
  rt_satp : csrf m3 SATP = rf m2 X.a0;
  rt_mem : phys m3 = phys m2 }.

Lemma userret_restores tf m : tf_mapped (rf m X.a0) tf -> exists m3, exec userret m = Some m3 /\ returned tf m m3.
Proof using.
  intros Hm. rewrite userret_split. set (m1 := set_rf (set_csrf m SATP (rf m X.a0)) X.a0 TRAPFRAME). rewrite (exec_app _ _ m m1) by done.
  assert (Hm1 : mapped (csrf m1 SATP) (rf m1 X.a0) tf 288) by exact Hm.
  assert (Hf1 : Forall (fun e => 0 <= snd e < 288) frame) by (eapply Forall_impl; [exact frame_range|cbn; lia]).
  rewrite (exec_app _ _ _ _ (loads_run X.a0 tf 288 frame m1 Hm1 Hf1 ltac:(by repeat constructor))). cbn [exec exec1]. unfold vaddr. cbn [rf csrf phys].
  assert (Ea0 : loaded tf m1 frame X.a0 = TRAPFRAME) by (rewrite loaded_else; [done|]; apply (bool_decide_unpack _); by vm_compute).
  rewrite Ea0. pose proof (Hm1 112 ltac:(lia)) as Ht. change (rf m1 X.a0) with TRAPFRAME in Ht. rewrite Ht. cbn [mbind option_bind]. eexists. split; [reflexivity|]. unfold sret. split; cbn [set_rf rf csrf phys user pc].
  - intros r. destruct (decide (r = X.a0)) as [->|Hne]; [by rewrite fn_lookup_insert|]. rewrite fn_lookup_insert_ne by done. rewrite (loaded_at tf m1 frame r (tf_off r)); [done| |by apply frame_in].
    apply (bool_decide_unpack _). by vm_compute.
  - done.
  - done.
  - rewrite fn_lookup_insert, !testbit_put by (unfold SIE, SPIE, SPP; lia). done.
  - done.
  - done.
Qed.

(** ** Context switches *)

(** The layout of struct context. *)
Definition context : list (reg * Z) :=
  [(X.ra, 0); (X.sp, 8); (X.s0, 16); (X.s1, 24); (X.s2, 32); (X.s3, 40); (X.s4, 48); (X.s5, 56); (X.s6, 64); (X.s7, 72);
   (X.s8, 80); (X.s9, 88); (X.s10, 96); (X.s11, 104)].
Definition in_context (r : reg) : Prop := r ∈ map fst context.

Lemma swtch_split : swtch = saves X.a0 context ++ loads X.a1 context ++ [RET].
Proof using. reflexivity. Qed.
Lemma context_words : words context.
Proof using. split; [apply (bool_decide_unpack _); by vm_compute|by repeat constructor]. Qed.
Lemma context_range : Forall (fun e => 0 <= snd e < 112) context.
Proof using. by repeat constructor. Qed.
Lemma context_regs : NoDup (map fst context).
Proof using. apply (bool_decide_unpack _). by vm_compute. Qed.

(** [old] and [new] are the physical addresses of the two contexts. *)
Record switched (old new : Z) (m m' : mach) : Prop := {
  sw_old : forall r o, (r, o) ∈ context -> ld64 (phys m') (old + o) = rf m r;
  sw_new : forall r o, (r, o) ∈ context -> rf m' r = ld64 (phys m) (new + o);
  sw_rest : forall r, ~ in_context r -> rf m' r = rf m r;
  sw_pc : pc m' = ld64 (phys m) (new + 0);
  sw_mem : forall a, a + 8 <= old \/ old + 112 <= a -> ld64 (phys m') a = ld64 (phys m) a;
  sw_csr : csrf m' = csrf m }.

Lemma swtch_run old new m : regs_ok m -> mapped (csrf m SATP) (rf m X.a0) old 112 -> mapped (csrf m SATP) (rf m X.a1) new 112 ->
  old + 112 <= new \/ new + 112 <= old -> exists m', exec swtch m = Some m' /\ switched old new m m'.
Proof using.
  intros Hr Ho Hn Hd. rewrite swtch_split. rewrite (exec_app _ _ _ _ (saves_run X.a0 old 112 context m Ho context_range)). set (m1 := set_phys m (stored old m context)).
  rewrite (exec_app _ _ m1 _ (loads_run X.a1 new 112 context m1 Hn context_range ltac:(by repeat constructor))). eexists. split; [reflexivity|].
  pose proof (proj1 (list.Forall_forall _ _) context_range) as Hrg. cbn beta in Hrg. pose proof (proj1 (list.Forall_forall _ _) (proj2 context_words)) as Hal. cbn beta in Hal.
  assert (Hout : forall a, a + 8 <= old \/ old + 112 <= a -> ld64 (phys m1) a = ld64 (phys m) a).
  { intros a Ha. apply stored_else. intros e He. specialize (Hrg e He). specialize (Hal e He). dlia. }
  assert (Hnew : forall r o, (r, o) ∈ context -> ld64 (phys m1) (new + o) = ld64 (phys m) (new + o)).
  { intros r o Hin. apply Hout. specialize (Hrg _ Hin). specialize (Hal _ Hin). cbn in Hrg, Hal. dlia. }
  split; cbn [set_pc rf csrf phys pc].
  - intros r o Hin. apply stored_at; [exact context_words|done|apply Hr].
  - intros r o Hin. rewrite (loaded_at new m1 context r o context_regs Hin). by apply (Hnew r).
  - intros r Hni. by rewrite loaded_else.
  - rewrite (loaded_at new m1 context X.ra 0 context_regs ltac:(by left)). apply (Hnew X.ra). by left.
  - exact Hout.
  - done.
Qed.

(** A context switch resumes the other context and can be resumed.
    [swtch(old, new)] saves ra, sp and the callee-saved registers into [old],
    loads them from [new], returns to the ra of [new] and changes nothing else;
    a later [swtch] to [old], from any machine on which the saved words are
    still there, returns where the first was called with the registers it had. *)
Theorem swtch_switches old new m : regs_ok m -> mapped (csrf m SATP) (rf m X.a0) old 112 -> mapped (csrf m SATP) (rf m X.a1) new 112 ->
  old + 112 <= new \/ new + 112 <= old ->
  exists m1, exec swtch m = Some m1 /\ switched old new m m1 /\
    forall m2 other, regs_ok m2 -> mapped (csrf m2 SATP) (rf m2 X.a0) other 112 -> mapped (csrf m2 SATP) (rf m2 X.a1) old 112 ->
      other + 112 <= old \/ old + 112 <= other -> (forall r o, (r, o) ∈ context -> ld64 (phys m2) (old + o) = ld64 (phys m1) (old + o)) ->
      exists m3, exec swtch m2 = Some m3 /\ pc m3 = rf m X.ra /\ forall r, in_context r -> rf m3 r = rf m r.
Proof using.
  intros Hr Ho Hn Hd. destruct (swtch_run old new m Hr Ho Hn Hd) as (m1 & E1 & S1). exists m1. split; [done|]. split; [done|].
  intros m2 other Hr2 Ho2 Hn2 Hd2 Hsame. destruct (swtch_run other old m2 Hr2 Ho2 Hn2 Hd2) as (m3 & E3 & S3). exists m3. split; [done|]. split.
  - rewrite (sw_pc _ _ _ _ S3). rewrite (Hsame X.ra 0) by (by left). apply (sw_old _ _ _ _ S1). by left.
  - intros r Hin. apply list_elem_of_fmap in Hin as ([r' o] & -> & Hin). cbn [fst]. rewrite (sw_new _ _ _ _ S3 r' o Hin), (Hsame r' o Hin). by apply (sw_old _ _ _ _ S1).
Qed.

(** ** Interrupts in the kernel *)

Definition kframe : list (reg * Z) :=
  [(X.ra, 0); (X.gp, 16); (X.tp, 24); (X.t0, 32); (X.t1, 40); (X.t2, 48); (X.a0, 72); (X.a1, 80); (X.a2, 88); (X.a3, 96); (X.a4, 104); (X.a5, 112);
   (X.a6, 120); (X.a7, 128); (X.t3, 216); (X.t4, 224); (X.t5, 232); (X.t6, 240)].
Definition kframe_back : list (reg * Z) := filter (fun e => fst e <> X.tp) kframe.
Definition callee_saved (r : reg) : Prop := r ∈ [X.sp; X.s0; X.s1; X.s2; X.s3; X.s4; X.s5; X.s6; X.s7; X.s8; X.s9; X.s10; X.s11].

Lemma kernelvec_split f link : kernelvec_save f link = [ADDI X.sp X.sp (-256)] ++ saves X.sp kframe ++ [CALL f link].
Proof using. reflexivity. Qed.
Lemma kernelvec_back : kernelvec_restore = loads X.sp kframe_back ++ [ADDI X.sp X.sp 256; SRET].
Proof using. reflexivity. Qed.

Lemma kframe_words : words kframe.
Proof using. split; [apply (bool_decide_unpack _); by vm_compute|by repeat constructor]. Qed.
Lemma kframe_range : Forall (fun e => 0 <= snd e < 256) kframe.
Proof using. by repeat constructor. Qed.
Lemma kframe_back_in e : e ∈ kframe_back -> e ∈ kframe.
Proof using. by intros [_ ?]%list_elem_of_filter. Qed.
Lemma kframe_cases r : r <> X.tp -> (exists o, (r, o) ∈ kframe_back) \/ callee_saved r /\ r ∉ map fst kframe_back.
Proof using.
  intros Hr. destruct (decide (callee_saved r)) as [Hc|Hc]; [right; split; [done|]|left].
  - revert Hc. destruct r; intros Hc; try (exfalso; revert Hc; apply (bool_decide_unpack _); by vm_compute); apply (bool_decide_unpack _); by vm_compute.
  - change kframe_back with [(X.ra, 0); (X.gp, 16); (X.t0, 32); (X.t1, 40); (X.t2, 48); (X.a0, 72); (X.a1, 80); (X.a2, 88); (X.a3, 96); (X.a4, 104); (X.a5, 112);
      (X.a6, 120); (X.a7, 128); (X.t3, 216); (X.t4, 224); (X.t5, 232); (X.t6, 240)].
    destruct r; try done; try (exfalso; apply Hc, (bool_decide_unpack _); by vm_compute); eexists; repeat first [left; reflexivity|right].
Qed.

(** An interrupt is transparent to the kernel code it interrupts. If
    [kerneltrap] keeps the callee-saved registers, as the calling convention
    says, and the frame that kernelvec pushed, then after kernelvec every
    register but tp has the value it had, and execution goes on at sepc in the
    mode and with the interrupt enable that sstatus says. *)
Theorem kernelvec_transparent f link frame_pa m : regs_ok m -> 256 <= rf m X.sp -> mapped (csrf m SATP) (rf m X.sp - 256) frame_pa 256 ->
  exists m1, exec (kernelvec_save f link) m = Some m1 /\ pc m1 = f /\ rf m1 X.ra = link /\ rf m1 X.a0 = rf m X.a0 /\
    forall m2, csrf m2 SATP = csrf m SATP -> (forall r, callee_saved r -> rf m2 r = rf m1 r) ->
      (forall o, 0 <= o < 256 -> o mod 8 = 0 -> ld64 (phys m2) (frame_pa + o) = ld64 (phys m1) (frame_pa + o)) ->
      exists m3, exec kernelvec_restore m2 = Some m3 /\ (forall r, r <> X.tp -> rf m3 r = rf m r) /\ rf m3 X.tp = rf m2 X.tp /\
        pc m3 = csrf m2 SEPC /\ user m3 = negb (Z.testbit (csrf m2 SSTATUS) SPP) /\ phys m3 = phys m2.
Proof using.
  intros Hr Hsp Hm. rewrite kernelvec_split, kernelvec_back. assert (Esp : u64 (rf m X.sp + -256) = rf m X.sp - 256) by (rewrite u64_small; [lia|specialize (Hr X.sp); lia]).
  set (m0 := set_rf m X.sp (rf m X.sp - 256)). rewrite (exec_app _ _ m m0) by (cbn; by rewrite Esp).
  assert (Hm0 : mapped (csrf m0 SATP) (rf m0 X.sp) frame_pa 256) by (cbn; by rewrite fn_lookup_insert).
  rewrite (exec_app _ _ _ _ (saves_run X.sp frame_pa 256 kframe m0 Hm0 kframe_range)). eexists. split; [reflexivity|]. cbn [set_pc set_rf set_phys rf pc phys csrf].
  split; [done|]. split; [apply fn_lookup_insert|]. split; [done|]. intros m2 Hs Hc Hf.
  assert (Hm2 : mapped (csrf m2 SATP) (rf m2 X.sp) frame_pa 256).
  { rewrite Hs, Hc by by left. rewrite fn_lookup_insert_ne by done. exact Hm0. }
  assert (Hb1 : Forall (fun e => 0 <= snd e < 256) kframe_back) by by repeat constructor. assert (Hb2 : Forall (fun e => fst e <> X.sp) kframe_back) by by repeat constructor.
  rewrite (exec_app _ _ _ _ (loads_run X.sp frame_pa 256 kframe_back m2 Hm2 Hb1 Hb2)). cbn [exec exec1 mbind option_bind]. eexists. split; [reflexivity|]. unfold sret. cbn [set_rf rf csrf phys user pc].
  assert (Hsp2 : loaded frame_pa m2 kframe_back X.sp = rf m X.sp - 256).
  { rewrite loaded_else by (apply (bool_decide_unpack _); by vm_compute). rewrite Hc by by left. rewrite fn_lookup_insert_ne by done. apply fn_lookup_insert. }
  split; [|split; [rewrite fn_lookup_insert_ne by done; apply loaded_else, (bool_decide_unpack _); by vm_compute|done]].
  intros r Htp. destruct (decide (r = X.sp)) as [->|Hne]; [rewrite fn_lookup_insert, Hsp2; replace (rf m X.sp - 256 + 256) with (rf m X.sp) by lia; apply u64_small, Hr|].
  rewrite fn_lookup_insert_ne by done. assert (E0 : rf m0 r = rf m r) by (cbn; by rewrite fn_lookup_insert_ne). destruct (kframe_cases r Htp) as [(o & Hin)|[Hcs Hni]].
  - rewrite (loaded_at _ _ _ r o); [|apply (bool_decide_unpack _); by vm_compute|done]. apply kframe_back_in in Hin.
    pose proof (proj1 (list.Forall_forall _ _) kframe_range _ Hin) as Hrg. pose proof (proj1 (list.Forall_forall _ _) (proj2 kframe_words) _ Hin) as Hal.
    rewrite (Hf o Hrg Hal), (stored_at _ _ _ r o kframe_words Hin); [done|]. rewrite E0. apply Hr.
  - rewrite loaded_else by done. rewrite Hc by done. rewrite fn_lookup_insert_ne; [done|]. intros <-. revert Hcs. apply (bool_decide_unpack _). by vm_compute.
Qed.
End exec.

(** ** Examples: memory mapped at its own address *)

Definition flat_mmu : Mmu := fun _ va => Some va.
Definition demo_regs (sp a0 a1 : Z) (r : reg) : Z := match r with X.sp => sp | X.a0 => a0 | X.a1 => a1 | X.ra => 77 | _ => 5 end.
Definition demo_mach (sp a0 a1 : Z) : mach := mk_mach (demo_regs sp a0 a1) (fun _ => 0) ∅ false 0.

Lemma flat_mapped satp va n : 0 <= va -> va + n <= 2 ^ 64 -> @mapped flat_mmu satp va va n.
Proof. intros H1 H2 o Ho. unfold translate, flat_mmu. f_equal. apply u64_small. lia. Qed.
Lemma demo_regs_ok sp a0 a1 : 0 <= sp < 2 ^ 64 -> 0 <= a0 < 2 ^ 64 -> 0 <= a1 < 2 ^ 64 -> regs_ok (demo_mach sp a0 a1).
Proof. intros H1 H2 H3 r. destruct r; cbn; lia. Qed.

Lemma swtch_switches_witness : exists m1, @exec flat_mmu swtch (demo_mach 4096 1000 2000) = Some m1 /\ switched 1000 2000 (demo_mach 4096 1000 2000) m1.
Proof.
  destruct (@swtch_switches flat_mmu 1000 2000 (demo_mach 4096 1000 2000)) as (m1 & E & S & _); [apply demo_regs_ok; lia|apply flat_mapped; cbn; lia..|lia|].
  exists m1. by split.
Defined.

Lemma kernelvec_transparent_witness : exists m1, @exec flat_mmu (kernelvec_save 500 60) (demo_mach 4096 1000 2000) = Some m1 /\ pc m1 = 500.
Proof.
  destruct (@kernelvec_transparent flat_mmu 500 60 3840 (demo_mach 4096 1000 2000)) as (m1 & E & H & _); [apply demo_regs_ok; lia|cbn; lia|apply flat_mapped; cbn; lia|].
  exists m1. by split.
Defined.
