(* ===== verification/Spinlock.v ===== *)
(** * Spin locks (kernel/spinlock.c)

    [push_off], [pop_off] and [holding] as functions on the state of one
    hart; [acquire] and [release] as the sequence of atomic actions the code
    performs, interleaved between harts by a step relation. The last section
    gives the view the other components use: inside one thread a lock is
    either free or held by that thread. *)

From stdpp Require Import base gmap list numbers strings.
From Stdlib Require Import ZArith Lia.
From S2P Require Import Prelude.
Open Scope Z_scope.
Open Scope kernel_scope.

(** struct spinlock; [lk_cpu] is the hart number behind [lk->cpu]. *)
Record spinlock := mk_spinlock { locked : Z; lk_name : string; lk_cpu : option nat }.

Definition initlock (name : string) : spinlock := mk_spinlock 0 name None.

(** The part of struct cpu the lock code uses, with the interrupt-enable bit
    of the hart's sstatus. *)
Record cpu := mk_cpu { noff : Z; intena : bool; sie : bool }.

Definition intr_get (c : cpu) : bool := sie c.
Definition intr_off (c : cpu) : cpu := mk_cpu (noff c) (intena c) false.
Definition intr_on (c : cpu) : cpu := mk_cpu (noff c) (intena c) true.

Definition push_off : M cpu unit :=
  old <- gets intr_get ;;
  modify intr_off ;;;
  c <- get ;;
  when (noff c =? 0) (modify (fun c => mk_cpu (noff c) old (sie c))) ;;;
  modify (fun c => mk_cpu (noff c + 1) (intena c) (sie c)).

Definition pop_off : M cpu unit :=
  c <- get ;;
  if intr_get c then panic "pop_off - interruptible"
  else if noff c <? 1 then panic "pop_off"
  else
    modify (fun c => mk_cpu (noff c - 1) (intena c) (sie c)) ;;;
    c <- get ;;
    when ((noff c =? 0) && intena c) (modify intr_on).

Definition holding (me : nat) (lk : spinlock) : bool :=
  negb (locked lk =? 0) && bool_decide (lk_cpu lk = Some me).

(** ** Interleaved execution *)

(** Where a hart is inside [acquire] or [release]. *)
Inductive pc :=
  | Outside
  | Spinning (l : nat)      (* after push_off and the holding check *)
  | Swapped (l : nat)       (* test-and-set returned 0 *)
  | Cleared (l : nat)       (* release has set lk->cpu = 0 *)
  | Unlocked (l : nat).     (* release has stored 0 into lk->locked *)

(** [h_held] is a ghost list of the locks the hart has acquired and not yet
    started to release. *)
Record hart := mk_hart { h_cpu : cpu; h_pc : pc; h_held : list nat }.

(** [owner] is ghost as well: the hart in the critical section of a lock,
    from the swap that returned 0 to the store that frees the lock. *)
Record smp := mk_smp { harts : nat -> hart; locks : nat -> spinlock; owner : nat -> option nat }.

Definition fupd {A} (f : nat -> A) (i : nat) (x : A) : nat -> A :=
  fun j => if bool_decide (j = i) then x else f j.

Lemma fupd_eq {A} (f : nat -> A) i x : fupd f i x i = x.
Proof. unfold fupd. by rewrite bool_decide_true. Qed.
Lemma fupd_ne {A} (f : nat -> A) i j x : j <> i -> fupd f i x j = f j.
Proof. intros. unfold fupd. by rewrite bool_decide_false. Qed.

Definition set_hart (s : smp) (c : nat) (h : hart) : smp :=
  mk_smp (fupd (harts s) c h) (locks s) (owner s).
Definition set_lock (s : smp) (l : nat) (k : spinlock) : smp :=
  mk_smp (harts s) (fupd (locks s) l k) (owner s).
Definition set_owner (s : smp) (l : nat) (o : option nat) : smp :=
  mk_smp (harts s) (locks s) (fupd (owner s) l o).

Inductive lock_step : smp -> smp -> Prop :=
  | step_acquire s c l cpu' :
      (* push_off(); if(holding(lk)) panic("acquire"); *)
      h_pc (harts s c) = Outside ->
      push_off (h_cpu (harts s c)) = Ok tt cpu' ->
      holding c (locks s l) = false ->
      lock_step s (set_hart s c (mk_hart cpu' (Spinning l) (h_held (harts s c))))
  | step_spin s c l :
      (* while(__sync_lock_test_and_set(&lk->locked, 1) != 0), old value 1 *)
      h_pc (harts s c) = Spinning l ->
      locked (locks s l) <> 0 ->
      lock_step s (set_lock s l (mk_spinlock 1 (lk_name (locks s l)) (lk_cpu (locks s l))))
  | step_swap s c l :
      (* the same instruction, old value 0 *)
      h_pc (harts s c) = Spinning l ->
      locked (locks s l) = 0 ->
      lock_step s
        (set_hart
           (set_owner (set_lock s l (mk_spinlock 1 (lk_name (locks s l)) (lk_cpu (locks s l)))) l (Some c))
           c (mk_hart (h_cpu (harts s c)) (Swapped l) (h_held (harts s c))))
  | step_setcpu s c l :
      (* lk->cpu = mycpu(); *)
      h_pc (harts s c) = Swapped l ->
      lock_step s
        (set_hart (set_lock s l (mk_spinlock (locked (locks s l)) (lk_name (locks s l)) (Some c)))
           c (mk_hart (h_cpu (harts s c)) Outside (l :: h_held (harts s c))))
  | step_release s c l :
      (* if(!holding(lk)) panic("release"); lk->cpu = 0; *)
      h_pc (harts s c) = Outside ->
      holding c (locks s l) = true ->
      lock_step s
        (set_hart (set_lock s l (mk_spinlock (locked (locks s l)) (lk_name (locks s l)) None))
           c (mk_hart (h_cpu (harts s c)) (Cleared l)
                (filter (fun x => x <> l) (h_held (harts s c)))))
  | step_unlock s c l :
      (* __sync_lock_release(&lk->locked); *)
      h_pc (harts s c) = Cleared l ->
      lock_step s
        (set_hart
           (set_owner (set_lock s l (mk_spinlock 0 (lk_name (locks s l)) (lk_cpu (locks s l)))) l None)
           c (mk_hart (h_cpu (harts s c)) (Unlocked l) (h_held (harts s c))))
  | step_pop s c l cpu' :
      (* pop_off(); *)
      h_pc (harts s c) = Unlocked l ->
      pop_off (h_cpu (harts s c)) = Ok tt cpu' ->
      lock_step s (set_hart s c (mk_hart cpu' Outside (h_held (harts s c))))
  | step_intr s c b :
      (* intr_on()/intr_off() outside any push_off *)
      h_pc (harts s c) = Outside ->
      noff (h_cpu (harts s c)) = 0 ->
      lock_step s
        (set_hart s c (mk_hart (mk_cpu 0 (intena (h_cpu (harts s c))) b) Outside (h_held (harts s c)))).

Definition smp_init (s : smp) : Prop :=
  (forall l, locked (locks s l) = 0 /\ lk_cpu (locks s l) = None /\ owner s l = None) /\
  (forall c, h_pc (harts s c) = Outside /\ h_held (harts s c) = [] /\ noff (h_cpu (harts s c)) = 0).

Inductive lock_reach (s0 : smp) : smp -> Prop :=
  | reach_refl : lock_reach s0 s0
  | reach_step s s' : lock_reach s0 s -> lock_step s s' -> lock_reach s0 s'.

(** A hart is in the critical section of [l] from the swap that returned 0
    until the store that frees the lock. *)
Definition in_section (s : smp) (c l : nat) : Prop :=
  In l (h_held (harts s c)) \/ h_pc (harts s c) = Swapped l \/ h_pc (harts s c) = Cleared l.

(** A hart between [push_off] and [pop_off] of a call in progress. *)
Definition pending (p : pc) : Z := match p with Outside => 0 | _ => 1 end.

Record lock_inv (s : smp) : Prop := {
  inv_locked : forall l, owner s l = None <-> locked (locks s l) = 0;
  inv_swapped : forall c l, h_pc (harts s c) = Swapped l -> owner s l = Some c /\ lk_cpu (locks s l) = None;
  inv_cleared : forall c l, h_pc (harts s c) = Cleared l -> owner s l = Some c /\ lk_cpu (locks s l) = None;
  inv_held : forall c l, In l (h_held (harts s c)) <-> lk_cpu (locks s l) = Some c;
  inv_owner : forall c l, lk_cpu (locks s l) = Some c -> owner s l = Some c;
  inv_nodup : forall c, List.NoDup (h_held (harts s c));
  inv_noff : forall c, noff (h_cpu (harts s c)) =
               Z.of_nat (length (h_held (harts s c))) + pending (h_pc (harts s c));
  inv_sie : forall c, 0 < noff (h_cpu (harts s c)) -> sie (h_cpu (harts s c)) = false
}.

(** ** Invariant of the interleaved execution *)

Lemma push_off_spec c c' : push_off c = Ok tt c' ->
  noff c' = noff c + 1 /\ sie c' = false /\ intena c' = (if noff c =? 0 then sie c else intena c).
Proof.
  destruct c as [n i e]. unfold push_off, bind, when, gets, get, modify, ret, intr_get, intr_off; cbn.
  destruct (n =? 0); cbn; intros H; simplify_eq; auto.
Qed.

Lemma push_off_ok c : exists c', push_off c = Ok tt c'.
Proof.
  destruct c as [n i e]. unfold push_off, bind, when, gets, get, modify, ret; cbn.
  destruct (n =? 0); eauto.
Qed.

Lemma pop_off_spec c c' : pop_off c = Ok tt c' ->
  1 <= noff c /\ sie c = false /\ noff c' = noff c - 1 /\ intena c' = intena c /\
  sie c' = ((noff c =? 1) && intena c).
Proof.
  destruct c as [n i e]. unfold pop_off, bind, when, get, modify, ret, panic, intr_get; cbn.
  destruct e; [discriminate|]. destruct (Z.ltb_spec n 1); [discriminate|].
  cbn. destruct (Z.eqb_spec (n - 1) 0), (Z.eqb_spec n 1), i; try lia; cbn;
    intros H0; simplify_eq; cbn; split_and!; auto; try lia.
Qed.

Lemma holding_held s c l : lock_inv s ->
  holding c (locks s l) = true <-> In l (h_held (harts s c)).
Proof.
  intros Hi. unfold holding. rewrite andb_true_iff, negb_true_iff, Z.eqb_neq, bool_decide_eq_true.
  rewrite (inv_held _ Hi). split; [tauto|]. intros Hc. split; [|done].
  rewrite <- (inv_locked _ Hi), (inv_owner _ Hi c l Hc). done.
Qed.

Lemma filter_ne_In (l x : nat) held :
  In x (filter (fun y => y <> l) held) <-> In x held /\ x <> l.
Proof. rewrite <- !list_elem_of_In, list_elem_of_filter. tauto. Qed.

Lemma filter_ne_NoDup (l : nat) held :
  List.NoDup held -> List.NoDup (filter (fun y => y <> l) held).
Proof. rewrite <- !NoDup_ListNoDup. apply NoDup_filter. Qed.

Lemma filter_ne_length (l : nat) held : List.NoDup held -> In l held ->
  S (length (filter (fun y => y <> l) held)) = length held.
Proof.
  induction held as [|y held IH]; intros Hnd Hin; [done|].
  inversion Hnd as [|? ? Hy Hnd']; subst. rewrite filter_cons. case_decide as Hd.
  - destruct Hin as [->|Hin]; [done|]. cbn. f_equal. by apply IH.
  - assert (y = l) as -> by (destruct (decide (y = l)); [done|by contradict Hd]).
    cbn. f_equal. clear -Hy. induction held as [|z held IH]; [done|].
    rewrite filter_cons. case_decide as Hz.
    + cbn. f_equal. apply IH. intros ?. apply Hy. by right.
    + exfalso. subst. apply Hy. by left.
Qed.

Lemma lock_inv_init s : smp_init s -> lock_inv s.
Proof.
  intros [Hl Hc]. split.
  - intros l. destruct (Hl l) as (-> & _ & ->). done.
  - intros c l. destruct (Hc c) as (-> & _). done.
  - intros c l. destruct (Hc c) as (-> & _). done.
  - intros c l. destruct (Hc c) as (_ & -> & _), (Hl l) as (_ & -> & _). cbn. split; done.
  - intros c l. destruct (Hl l) as (_ & -> & _). done.
  - intros c. destruct (Hc c) as (_ & -> & _). constructor.
  - intros c. destruct (Hc c) as (-> & -> & ->). done.
  - intros c. destruct (Hc c) as (_ & _ & ->). lia.
Qed.

(** Case analysis on which hart and which lock a step touched. *)
Ltac who c := intros c0; destruct (decide (c0 = c)) as [->|?];
  cbn [harts locks owner set_hart set_lock set_owner]; rewrite ?fupd_eq, ?fupd_ne by done;
  cbn [h_cpu h_pc h_held].
Ltac what l := intros l0; destruct (decide (l0 = l)) as [->|?];
  cbn [harts locks owner set_hart set_lock set_owner]; rewrite ?fupd_eq, ?fupd_ne by done;
  cbn [locked lk_name lk_cpu].

Section preservation.
Context (s : smp) (Hi : lock_inv s).

(** The invariant splits into facts about one lock and about one hart. *)
Lemma lock_inv_step_acquire c l c' :
  h_pc (harts s c) = Outside -> push_off (h_cpu (harts s c)) = Ok tt c' ->
  lock_inv (set_hart s c (mk_hart c' (Spinning l) (h_held (harts s c)))).
Proof.
  destruct Hi as [Hl Hsw Hcl Hhe How Hnd Hno Hsi]. intros Ho Hp.
  apply push_off_spec in Hp as (Hn1 & Hs1 & _).
  split; [exact Hl| | | |exact How| | |].
  - who c; [done|apply Hsw].
  - who c; [done|apply Hcl].
  - who c; apply Hhe.
  - who c; apply Hnd.
  - who c; [|apply Hno]. rewrite Hn1, Hno, Ho. cbn. lia.
  - who c; [done|apply Hsi].
Qed.

Lemma lock_inv_step_spin l : locked (locks s l) <> 0 ->
  lock_inv (set_lock s l (mk_spinlock 1 (lk_name (locks s l)) (lk_cpu (locks s l)))).
Proof.
  destruct Hi as [Hl Hsw Hcl Hhe How Hnd Hno Hsi]. intros Hn.
  split; try assumption; try (intros c; what l; eauto; fail).
  what l; [|apply Hl]. rewrite Hl. split; [done|]. lia.
Qed.

Lemma lock_inv_step_swap c l :
  h_pc (harts s c) = Spinning l -> locked (locks s l) = 0 ->
  lock_inv (set_hart
     (set_owner (set_lock s l (mk_spinlock 1 (lk_name (locks s l)) (lk_cpu (locks s l)))) l (Some c))
     c (mk_hart (h_cpu (harts s c)) (Swapped l) (h_held (harts s c)))).
Proof.
  destruct Hi as [Hl Hsw Hcl Hhe How Hnd Hno Hsi]. intros Hp H0.
  apply Hl in H0.
  assert (lk_cpu (locks s l) = None) as Hcpu.
  { destruct (lk_cpu (locks s l)) eqn:E; [|done]. apply How in E. congruence. }
  split.
  - what l; [done|apply Hl].
  - who c.
    + intros l0 [= <-]. rewrite !fupd_eq. done.
    + what l; [intros H; apply Hsw in H; destruct H; congruence|apply Hsw].
  - who c; [done|]. what l; [intros H; apply Hcl in H; destruct H; congruence|apply Hcl].
  - who c; what l; rewrite Hhe; try rewrite Hcpu; done.
  - intros c0. what l; [rewrite Hcpu; done|apply How].
  - who c; apply Hnd.
  - who c; [|apply Hno]. rewrite Hno, Hp. done.
  - who c; apply Hsi.
Qed.

Lemma lock_inv_step_setcpu c l : h_pc (harts s c) = Swapped l ->
  lock_inv (set_hart (set_lock s l (mk_spinlock (locked (locks s l)) (lk_name (locks s l)) (Some c)))
     c (mk_hart (h_cpu (harts s c)) Outside (l :: h_held (harts s c)))).
Proof.
  destruct Hi as [Hl Hsw Hcl Hhe How Hnd Hno Hsi]. intros Hp.
  destruct (Hsw _ _ Hp) as [Ho Hcpu].
  split.
  - what l; apply Hl.
  - who c; [done|]. what l; [intros H; apply Hsw in H; destruct H; congruence|apply Hsw].
  - who c; [done|]. what l; [intros H; apply Hcl in H; destruct H; congruence|apply Hcl].
  - who c; what l; cbn [In].
    + split; auto.
    + rewrite Hhe. split; [intros [?|?]; [congruence|done]|auto].
    + rewrite Hhe, Hcpu. split; [done|congruence].
    + apply Hhe.
  - intros c0. what l; [congruence|apply How].
  - who c; [|apply Hnd]. constructor; [|apply Hnd]. rewrite Hhe, Hcpu. done.
  - who c; [|apply Hno]. rewrite Hno, Hp. cbn. lia.
  - who c; apply Hsi.
Qed.

Lemma lock_inv_step_release c l :
  h_pc (harts s c) = Outside -> holding c (locks s l) = true ->
  lock_inv (set_hart (set_lock s l (mk_spinlock (locked (locks s l)) (lk_name (locks s l)) None))
     c (mk_hart (h_cpu (harts s c)) (Cleared l) (filter (fun x => x <> l) (h_held (harts s c))))).
Proof.
  intros Hp Hh. apply (holding_held s c l Hi) in Hh.
  destruct Hi as [Hl Hsw Hcl Hhe How Hnd Hno Hsi].
  pose proof (proj1 (Hhe _ _) Hh) as Hcpu. pose proof (How _ _ Hcpu) as Ho.
  split.
  - what l; apply Hl.
  - who c; [done|]. what l; [intros H; apply Hsw in H; destruct H; congruence|apply Hsw].
  - who c.
    + intros l0 [= <-]. rewrite fupd_eq. done.
    + what l; [intros H; apply Hcl in H; destruct H; congruence|apply Hcl].
  - who c; what l; rewrite ?filter_ne_In, ?Hhe; split; try tauto; try congruence.
  - intros c0. what l; [done|apply How].
  - who c; [|apply Hnd]. by apply filter_ne_NoDup.
  - who c; [|apply Hno]. rewrite Hno, Hp. pose proof (filter_ne_length l _ (Hnd c) Hh). cbn. lia.
  - who c; apply Hsi.
Qed.

Lemma lock_inv_step_unlock c l : h_pc (harts s c) = Cleared l ->
  lock_inv (set_hart
     (set_owner (set_lock s l (mk_spinlock 0 (lk_name (locks s l)) (lk_cpu (locks s l)))) l None)
     c (mk_hart (h_cpu (harts s c)) (Unlocked l) (h_held (harts s c)))).
Proof.
  destruct Hi as [Hl Hsw Hcl Hhe How Hnd Hno Hsi]. intros Hp.
  destruct (Hcl _ _ Hp) as [Ho Hcpu].
  split.
  - what l; [done|apply Hl].
  - who c; [done|]. what l; [intros H; apply Hsw in H; destruct H; congruence|apply Hsw].
  - who c; [done|]. what l; [intros H; apply Hcl in H; destruct H; congruence|apply Hcl].
  - who c; what l; apply Hhe.
  - intros c0. what l; [rewrite Hcpu; done|apply How].
  - who c; apply Hnd.
  - who c; [|apply Hno]. rewrite Hno, Hp. done.
  - who c; apply Hsi.
Qed.

Lemma lock_inv_step_pop c l c' :
  h_pc (harts s c) = Unlocked l -> pop_off (h_cpu (harts s c)) = Ok tt c' ->
  lock_inv (set_hart s c (mk_hart c' Outside (h_held (harts s c)))).
Proof.
  destruct Hi as [Hl Hsw Hcl Hhe How Hnd Hno Hsi]. intros Hp Hpo.
  apply pop_off_spec in Hpo as (Hn1 & Hs1 & Hn2 & _ & Hs2).
  split; [exact Hl| | | |exact How| | |].
  - who c; [done|apply Hsw].
  - who c; [done|apply Hcl].
  - who c; apply Hhe.
  - who c; apply Hnd.
  - who c; [|apply Hno]. rewrite Hn2, Hno, Hp. cbn. lia.
  - who c; [|apply Hsi]. intros. rewrite Hs2.
    destruct (Z.eqb_spec (noff (h_cpu (harts s c))) 1); [lia|done].
Qed.

Lemma lock_inv_step_intr c b :
  h_pc (harts s c) = Outside -> noff (h_cpu (harts s c)) = 0 ->
  lock_inv (set_hart s c (mk_hart (mk_cpu 0 (intena (h_cpu (harts s c))) b) Outside (h_held (harts s c)))).
Proof.
  destruct Hi as [Hl Hsw Hcl Hhe How Hnd Hno Hsi]. intros Hp Hn.
  split; [exact Hl| | | |exact How| | |].
  - who c; [done|apply Hsw].
  - who c; [done|apply Hcl].
  - who c; apply Hhe.
  - who c; apply Hnd.
  - who c; [|apply Hno]. pose proof (Hno c) as E. rewrite Hp, Hn in E. done.
  - who c; [cbn; lia|apply Hsi].
Qed.
End preservation.

#[local] Hint Resolve lock_inv_step_acquire lock_inv_step_spin lock_inv_step_swap
  lock_inv_step_setcpu lock_inv_step_release lock_inv_step_unlock lock_inv_step_pop
  lock_inv_step_intr : core.

Lemma lock_inv_reach s0 s : smp_init s0 -> lock_reach s0 s -> lock_inv s.
Proof.
  intros H0 Hr. induction Hr as [|s s' _ IH Hs]; [by apply lock_inv_init|].
  destruct Hs; eauto.
Qed.

Lemma in_section_owner s c l : lock_inv s -> in_section s c l -> owner s l = Some c.
Proof.
  intros Hi [H|[H|H]].
  - apply (inv_owner _ Hi). by apply (inv_held _ Hi).
  - by apply (inv_swapped _ Hi).
  - by apply (inv_cleared _ Hi).
Qed.

(** C35. Mutual exclusion, under every interleaving of any number of harts:
    at most one hart is inside the critical section of a spin lock, and the
    [holding] test a hart runs without any lock held is exact, that is true
    only for the hart that has the lock. *)
Theorem spinlock_mutual_exclusion s0 s :
  smp_init s0 -> lock_reach s0 s ->
  (forall c c' l, in_section s c l -> in_section s c' l -> c = c') /\
  (forall c l, holding c (locks s l) = true <-> In l (h_held (harts s c))).
Proof.
  intros H0 Hr. pose proof (lock_inv_reach _ _ H0 Hr) as Hi. split.
  - intros c c' l H H'. apply (in_section_owner _ _ _ Hi) in H, H'. congruence.
  - intros c l. by apply holding_held.
Qed.

(** A hart that holds a spin lock, or is on its way in or out of one,
    runs with interrupts disabled, whatever the nesting of [acquire] and
    [release]. *)
Theorem spinlock_interrupts_off s0 s c :
  smp_init s0 -> lock_reach s0 s ->
  (exists l, in_section s c l) -> sie (h_cpu (harts s c)) = false.
Proof.
  intros H0 Hr [l Hl]. pose proof (lock_inv_reach _ _ H0 Hr) as Hi.
  apply (inv_sie _ Hi). rewrite (inv_noff _ Hi). destruct Hl as [Hl|[->| ->]].
  - destruct (h_held (harts s c)); [done|]. cbn. destruct (h_pc (harts s c)); cbn; lia.
  - cbn. lia.
  - cbn. lia.
Qed.

(** A concrete run: hart 0 runs [acquire] on lock 0 to its end while hart 1
    spins on it. *)
Definition smp0 : smp :=
  mk_smp (fun _ => mk_hart (mk_cpu 0 false true) Outside [])
         (fun _ => initlock "lk") (fun _ => None).
Definition smp1 : smp := set_hart smp0 0%nat (mk_hart (mk_cpu 1 true false) (Spinning 0) []).
Definition smp2 : smp := set_hart smp1 1%nat (mk_hart (mk_cpu 1 true false) (Spinning 0) []).
Definition smp3 : smp :=
  set_hart (set_owner (set_lock smp2 0%nat (mk_spinlock 1 "lk" None)) 0%nat (Some 0%nat))
    0%nat (mk_hart (mk_cpu 1 true false) (Swapped 0) []).
Definition smp4 : smp :=
  set_hart (set_lock smp3 0%nat (mk_spinlock 1 "lk" (Some 0%nat)))
    0%nat (mk_hart (mk_cpu 1 true false) Outside [0%nat]).

Lemma smp0_init : smp_init smp0.
Proof. split; intros; cbn; auto. Qed.

Lemma smp4_reach : lock_reach smp0 smp4.
Proof.
  apply (reach_step _ smp3); [|exact (step_setcpu smp3 0 0 eq_refl)].
  apply (reach_step _ smp2); [|exact (step_swap smp2 0 0 eq_refl eq_refl)].
  apply (reach_step _ smp1); [|exact (step_acquire smp1 1 0 (mk_cpu 1 true false) eq_refl eq_refl eq_refl)].
  apply (reach_step _ smp0); [|exact (step_acquire smp0 0 0 (mk_cpu 1 true false) eq_refl eq_refl eq_refl)].
  apply reach_refl.
Qed.

Lemma spinlock_mutual_exclusion_witness :
  in_section smp4 0%nat 0%nat /\ (forall c', in_section smp4 c' 0%nat -> 0%nat = c') /\
  holding 0%nat (locks smp4 0%nat) = true /\ holding 1%nat (locks smp4 0%nat) = false.
Proof.
  destruct (spinlock_mutual_exclusion smp0 smp4 smp0_init smp4_reach) as [Hex Hho].
  assert (in_section smp4 0%nat 0%nat) as Hin by (left; left; reflexivity).
  split; [exact Hin|]. split; [intros c' H; exact (Hex _ _ _ Hin H)|].
  split; [apply Hho; left; reflexivity | reflexivity].
Defined.

Lemma spinlock_interrupts_off_witness :
  in_section smp4 0%nat 0%nat /\ sie (h_cpu (harts smp4 0%nat)) = false.
Proof.
  assert (in_section smp4 0%nat 0%nat) as Hin by (left; left; reflexivity).
  split; [exact Hin|].
  apply (spinlock_interrupts_off smp0 smp4 0%nat smp0_init smp4_reach).
  exists 0%nat. exact Hin.
Defined.

(** ** Matched [push_off]/[pop_off] *)

Fixpoint repeat_m {S} (n : nat) (m : M S unit) : M S unit :=
  match n with
  | O => ret tt
  | S n' => m ;;; repeat_m n' m
  end.

Lemma pop_off_ok c : sie c = false -> 1 <= noff c ->
  pop_off c = Ok tt (mk_cpu (noff c - 1) (intena c) ((noff c =? 1) && intena c)).
Proof.
  destruct c as [n i e]. cbn. intros -> Hn.
  unfold pop_off, bind, when, get, modify, ret, panic, intr_get; cbn.
  destruct (Z.ltb_spec n 1); [lia|]. cbn.
  destruct (Z.eqb_spec (n - 1) 0), (Z.eqb_spec n 1), i; try lia; done.
Qed.

Lemma push_off_val c :
  push_off c = Ok tt (mk_cpu (noff c + 1) (if noff c =? 0 then sie c else intena c) false).
Proof.
  destruct c as [n i e]. unfold push_off, bind, when, gets, get, modify, ret; cbn.
  destruct (n =? 0); done.
Qed.

Lemma repeat_push n c : 0 < noff c -> sie c = false ->
  repeat_m n push_off c = Ok tt (mk_cpu (noff c + Z.of_nat n) (intena c) false).
Proof.
  revert c. induction n as [|n IH]; intros [k i e] Hk He; cbn in Hk, He; subst.
  - cbn. rewrite Z.add_0_r. done.
  - cbn [repeat_m]. rewrite (bind_ok _ _ _ _ _ (push_off_val _)). cbn [noff intena sie].
    destruct (Z.eqb_spec k 0); [lia|]. rewrite IH by (cbn; lia || done). cbn. do 2 f_equal. lia.
Qed.

Lemma repeat_pop n c : sie c = false -> noff c = Z.of_nat (S n) ->
  repeat_m (S n) pop_off c = Ok tt (mk_cpu 0 (intena c) (intena c)).
Proof.
  revert c. induction n as [|n IH]; intros [k i e] He Hk; cbn in Hk, He; subst.
  - by destruct i.
  - change (repeat_m (S (S n)) pop_off) with (pop_off ;;; repeat_m (S n) pop_off).
    erewrite bind_ok by (apply pop_off_ok; cbn; [done|lia]). cbn [noff intena].
    destruct (Z.eqb_spec (Z.of_nat (S (S n))) 1) as [E|_]; [lia|]. cbn [andb].
    rewrite IH by (cbn; lia || done). done.
Qed.

(** It takes as many [pop_off]s to undo as there were [push_off]s:
    after any number of nested [push_off]s interrupts are off, and the same
    number of [pop_off]s puts the hart back with interrupts as they were. *)
Theorem push_pop_balanced n c : noff c = 0 ->
  exists c1 c2, repeat_m (S n) push_off c = Ok tt c1 /\ sie c1 = false /\
    repeat_m (S n) pop_off c1 = Ok tt c2 /\ noff c2 = noff c /\ sie c2 = sie c.
Proof.
  intros H0. exists (mk_cpu (Z.of_nat (S n)) (sie c) false). eexists.
  split; [|split; [done|]].
  - cbn [repeat_m]. rewrite (bind_ok _ _ _ _ _ (push_off_val _)).
    rewrite repeat_push by (cbn; lia || done). cbn. rewrite H0. cbn. do 2 f_equal. lia.
  - rewrite repeat_pop by done. split; [reflexivity|]. cbn. auto.
Qed.

Lemma push_pop_balanced_witness :
  exists c1 c2, repeat_m 3 push_off (mk_cpu 0 false true) = Ok tt c1 /\ sie c1 = false /\
    repeat_m 3 pop_off c1 = Ok tt c2 /\ noff c2 = 0 /\ sie c2 = true.
Proof. exact (push_pop_balanced 2 (mk_cpu 0 false true) eq_refl). Defined.

(** ** The view of one thread

    The other components run [acquire] and [release] on a lock that, by
    mutual exclusion, is free or held by the running thread: the other harts
    show up only as time spent spinning. A lock of a component is then a
    boolean of its state, read and written through [g] and [f]. *)

Section view.
Context {S : Type} (g : S -> bool) (f : S -> bool -> S).

Definition acquire : M S unit :=
  s <- get ;; if g s then panic "acquire" else put (f s true).
Definition release : M S unit :=
  s <- get ;; if g s then put (f s false) else panic "release".
End view.

(** A thread that runs [acquire] on a free lock gets it. *)
Lemma acquire_free s c l :
  h_pc (harts s c) = Outside -> locked (locks s l) = 0 ->
  exists s', lock_reach s s' /\ In l (h_held (harts s' c)).
Proof.
  intros Hp Hl. destruct (push_off_ok (h_cpu (harts s c))) as [c' Hc'].
  eexists. split.
  - eapply reach_step; [eapply reach_step; [eapply reach_step; [apply reach_refl|]|]|].
    + apply (step_acquire s c l c' Hp Hc'). unfold holding. by rewrite Hl.
    + apply (step_swap _ c l); cbn; [by rewrite fupd_eq | done].
    + apply (step_setcpu _ c l). cbn. by rewrite fupd_eq.
  - cbn. rewrite fupd_eq. cbn. auto.
Qed.
