(* ===== verification/Kalloc.v ===== *)
(** * The physical page allocator (kernel/kalloc.c)

    The free list is threaded through the free pages themselves: the first
    eight bytes of a free page hold the address of the next one. The
    abstract view of the allocator is the list of the free pages, top
    first. *)

From stdpp Require Import base gmap list numbers strings.
From Stdlib Require Import ZArith Lia.
From S2P Require Import Prelude Riscv Mem Spinlock.
Open Scope Z_scope.
Open Scope kernel_scope.

(** Symbols the linker script kernel.ld defines: the end of the kernel
    image, the end of its text, the page of trampoline code. *)
Class KernelImage := { k_end : Z; etext : Z; trampoline : Z }.

(** What kernel.ld guarantees of them. *)
Class KernelImageOk (img : KernelImage) : Prop := {
  etext_range : KERNBASE < etext <= k_end;
  etext_aligned : etext mod PGSIZE = 0;
  k_end_range : k_end <= PHYSTOP;
  trampoline_range : KERNBASE <= trampoline < etext;
  trampoline_aligned : trampoline mod PGSIZE = 0
}.

(** RAM, and struct { lock; freelist } kmem. *)
Record memst := mk_memst { mram : ram; kmem_lock : bool; freelist : Z }.

Definition set_ram (s : memst) (m : ram) : memst := mk_memst m (kmem_lock s) (freelist s).
Definition set_kmem_lock (s : memst) (b : bool) : memst := mk_memst (mram s) b (freelist s).
Definition set_freelist (s : memst) (p : Z) : memst := mk_memst (mram s) (kmem_lock s) p.
Definition store (f : ram -> ram) : M memst unit := modify (fun s => set_ram s (f (mram s))).

Section kalloc.
Context {img : KernelImage}.

Definition kfree (pa : Z) : M memst unit :=
  if negb (pa mod PGSIZE =? 0) || (pa <? k_end) || (PHYSTOP <=? pa) then panic "kfree"
  else
    (* Fill with junk to catch dangling refs. *)
    store (fun m => memset m pa 1 PGSIZE) ;;;
    acquire kmem_lock set_kmem_lock ;;;
    s <- get ;;
    store (fun m => st64 m pa (freelist s)) ;;;
    modify (fun s => set_freelist s pa) ;;;
    release kmem_lock set_kmem_lock.

Fixpoint freerange_loop (fuel : nat) (p pa_end : Z) : M memst unit :=
  match fuel with
  | O => no_fuel
  | S k =>
      if p + PGSIZE <=? pa_end
      then kfree p ;;; freerange_loop k (p + PGSIZE) pa_end
      else ret tt
  end.
Definition freerange (pa_start pa_end : Z) : M memst unit :=
  freerange_loop (S (Z.to_nat ((pa_end - pa_start) / PGSIZE))) (PGROUNDUP pa_start) pa_end.

Definition kinit : M memst unit :=
  modify (fun s => set_kmem_lock s false) ;;;
  freerange k_end PHYSTOP.

Definition kalloc : M memst Z :=
  acquire kmem_lock set_kmem_lock ;;;
  r <- gets freelist ;;
  when (negb (r =? 0)) (modify (fun s => set_freelist s (ld64 (mram s) r))) ;;;
  release kmem_lock set_kmem_lock ;;;
  when (negb (r =? 0)) (store (fun m => memset m r 5 PGSIZE)) ;;;
  ret r.

(** ** The free list *)

(** A page the allocator may own. *)
Definition page_ok (p : Z) : Prop := p mod PGSIZE = 0 /\ k_end <= p < PHYSTOP.

(** The pages [l] are linked from [head] through memory. *)
Fixpoint flist (m : ram) (head : Z) (l : list Z) : Prop :=
  match l with
  | [] => head = 0
  | p :: l' => head = p /\ page_ok p /\ flist m (ld64 m p) l'
  end.

(** Between two calls: the lock is free, the list is well formed and no page
    is on it twice. *)
Record kmem_inv (s : memst) (l : list Z) : Prop := {
  km_lock : kmem_lock s = false;
  km_list : flist (mram s) (freelist s) l;
  km_nodup : NoDup l
}.

Context {imgok : KernelImageOk img}.

Lemma page_ok_pos p : page_ok p -> 0 < p /\ p + PGSIZE <= PHYSTOP /\ p < 2 ^ 56.
Proof.
  intros [Ha Hr]. pose proof etext_range. unfold PHYSTOP, KERNBASE, PGSIZE in *.
  pose proof (Z.div_mod p 4096). lia.
Qed.

Lemma page_ok_disjoint p q : page_ok p -> page_ok q -> p <> q -> p + PGSIZE <= q \/ q + PGSIZE <= p.
Proof.
  intros [Hp _] [Hq _] Hne. unfold PGSIZE in *.
  pose proof (Z.div_mod p 4096). pose proof (Z.div_mod q 4096). lia.
Qed.

Lemma flist_page_ok m h l : flist m h l -> Forall page_ok l.
Proof.
  revert h. induction l as [|p l IH]; intros h; cbn; [constructor|].
  intros (-> & Hp & Hl). constructor; eauto.
Qed.

(** The list only depends on the link words of its pages. *)
Lemma flist_frame m m' h l :
  (forall p a, p ∈ l -> p <= a < p + 8 -> ld8 m' a = ld8 m a) -> flist m h l -> flist m' h l.
Proof.
  revert h. induction l as [|p l IH]; intros h Hag; cbn; [done|].
  intros (-> & Hp & Hl). split_and!; [done|done|].
  replace (ld64 m' p) with (ld64 m p).
  - apply IH; [|done]. intros q a Hq. apply Hag. by right.
  - symmetry. apply ld64_ext. intros i Hi. apply (Hag p); [by left|lia].
Qed.

(** Writes that stay out of the free pages keep the list. *)
Lemma flist_outside m m' h l (inr : Z -> Prop) :
  (forall a, ~ inr a -> ld8 m' a = ld8 m a) ->
  (forall p a, p ∈ l -> p <= a < p + PGSIZE -> ~ inr a) ->
  flist m h l -> flist m' h l.
Proof.
  intros Hm Hl. apply flist_frame. intros p a Hp Ha. apply Hm, (Hl p); [done|].
  unfold PGSIZE. lia.
Qed.

Lemma kfree_ok s l pa : kmem_inv s l -> page_ok pa -> pa ∉ l ->
  kfree pa s = Ok tt (mk_memst (st64 (memset (mram s) pa 1 PGSIZE) pa (freelist s)) false pa).
Proof.
  intros [Hlk Hl Hnd] [Ha Hr] Hni. unfold kfree.
  replace (pa mod PGSIZE =? 0) with true by (symmetry; by apply Z.eqb_eq).
  destruct (Z.ltb_spec pa k_end); [lia|]. destruct (Z.leb_spec PHYSTOP pa); [lia|]. cbn [negb orb].
  destruct s as [m lk fl]. cbn in Hlk. subst lk. reflexivity.
Qed.

(** [freelist] is always a valid pointer, so it fits the link word. *)
Lemma freelist_range s l : kmem_inv s l -> 0 <= freelist s < 2 ^ 56.
Proof.
  intros [_ Hl _]. destruct l as [|p l]; cbn in Hl; [lia|].
  destruct Hl as (-> & Hp & _). pose proof (page_ok_pos p Hp). lia.
Qed.

Lemma kfree_inv s l pa s' : kmem_inv s l -> page_ok pa -> pa ∉ l ->
  kfree pa s = Ok tt s' ->
  kmem_inv s' (pa :: l) /\ (forall a, ~ pa <= a < pa + PGSIZE -> ld8 (mram s') a = ld8 (mram s) a).
Proof.
  intros Hk Hp Hni H. rewrite (kfree_ok s l) in H by done. simplify_eq.
  pose proof (freelist_range _ _ Hk). destruct Hk as [Hlk Hl Hnd].
  assert (Hout : forall a, ~ pa <= a < pa + PGSIZE ->
    ld8 (st64 (memset (mram s) pa 1 PGSIZE) pa (freelist s)) a = ld8 (mram s) a).
  { intros a Hna. rewrite ld8_st64_ne by (unfold PGSIZE in *; lia).
    rewrite ld8_memset by (unfold PGSIZE; lia).
    destruct (Z.leb_spec pa a), (Z.ltb_spec a (pa + PGSIZE)); cbn; auto; lia. }
  split; [|done]. split; cbn; [done| |by constructor].
  split_and!; [done|done|]. rewrite ld64_st64 by lia.
  apply (flist_outside (mram s) _ _ _ (fun a => pa <= a < pa + PGSIZE)); [done| |done].
  intros q a Hq Ha Hin. assert (page_ok q) as Hqok.
  { apply flist_page_ok in Hl. rewrite Forall_forall in Hl. auto. }
  destruct (page_ok_disjoint pa q Hp Hqok); [congruence|lia|lia].
Qed.

Lemma kalloc_empty s : kmem_inv s [] -> kalloc s = Ok 0 s.
Proof.
  intros [Hlk Hl _]. destruct s as [m lk fl]. cbn in *. subst. reflexivity.
Qed.

Lemma kalloc_cons s p l : kmem_inv s (p :: l) ->
  kalloc s = Ok p (mk_memst (memset (mram s) p 5 PGSIZE) false (ld64 (mram s) p)).
Proof.
  intros [Hlk Hl _]. destruct s as [m lk fl]. cbn in *. destruct Hl as (-> & Hp & _). subst.
  pose proof (page_ok_pos p Hp).
  unfold kalloc, acquire, release, bind, when, gets, get, put, modify, store, ret; cbn.
  destruct (Z.eqb_spec p 0); [lia|]. reflexivity.
Qed.

Lemma kalloc_inv s p l s' : kmem_inv s (p :: l) -> kalloc s = Ok p s' ->
  kmem_inv s' l /\ page_ok p /\ ~ p ∈ l /\
  (forall a, ld8 (mram s') a = if (p <=? a) && (a <? p + PGSIZE) then 5 else ld8 (mram s) a).
Proof.
  intros Hk H. rewrite (kalloc_cons s p l Hk) in H. simplify_eq.
  destruct Hk as [Hlk Hl Hnd]. cbn in Hl. destruct Hl as (_ & Hp & Hl).
  apply NoDup_cons in Hnd as [Hni Hnd].
  assert (Hv : forall a, ld8 (memset (mram s) p 5 PGSIZE) a =
     if (p <=? a) && (a <? p + PGSIZE) then 5 else ld8 (mram s) a).
  { intros a. by rewrite ld8_memset by (unfold PGSIZE; lia). }
  split_and!; [|done|done|done]. split; cbn; [done| |done].
  apply (flist_outside (mram s) _ _ _ (fun a => p <= a < p + PGSIZE)); [| |done].
  - intros a Ha. rewrite Hv. destruct (Z.leb_spec p a), (Z.ltb_spec a (p + PGSIZE)); cbn; auto; lia.
  - intros q a Hq Ha Hin. apply flist_page_ok in Hl. rewrite Forall_forall in Hl.
    destruct (page_ok_disjoint p q Hp (Hl _ Hq)); [congruence|lia|lia].
Qed.

(** ** Booting the allocator *)

(** The [n] pages freed from address [p] upwards, last one on top. *)
Fixpoint pages_up (n : nat) (p : Z) (l : list Z) : list Z :=
  match n with
  | O => l
  | S k => pages_up k (p + PGSIZE) (p :: l)
  end.

Lemma elem_of_pages_up n p l q :
  q ∈ pages_up n p l <-> q ∈ l \/ exists i, 0 <= i < Z.of_nat n /\ q = p + i * PGSIZE.
Proof.
  revert p l. induction n as [|n IH]; intros p l; cbn [pages_up].
  - split; [auto|]. intros [?|(i & ? & _)]; [done|lia].
  - rewrite IH, elem_of_cons. split.
    + intros [[->|?]|(i & ? & ->)]; [|by left|].
      * right. exists 0. lia.
      * right. exists (i + 1). lia.
    + intros [?|(i & ? & ->)]; [auto|]. destruct (decide (i = 0)) as [->|].
      * left; left. lia.
      * right. exists (i - 1). lia.
Qed.

Lemma freerange_loop_spec fuel s l p :
  (Z.to_nat ((PHYSTOP - p) / PGSIZE) < fuel)%nat ->
  kmem_inv s l -> p mod PGSIZE = 0 -> k_end <= p <= PHYSTOP -> (forall q, q ∈ l -> q < p) ->
  exists s', freerange_loop fuel p PHYSTOP s = Ok tt s' /\
    kmem_inv s' (pages_up (Z.to_nat ((PHYSTOP - p) / PGSIZE)) p l).
Proof.
  revert s l p. induction fuel as [|fuel IH]; intros s l p Hf Hk Ha Hr Hlt; [lia|].
  pose proof (Z.div_mod p PGSIZE). cbn [freerange_loop].
  destruct (Z.leb_spec (p + PGSIZE) PHYSTOP) as [Hle|Hgt].
  - assert (Hp : page_ok p) by (split; unfold PGSIZE in *; lia).
    assert (Hni : p ∉ l) by (intros Hin; specialize (Hlt _ Hin); lia).
    pose proof (kfree_ok s l p Hk Hp Hni) as Hkf.
    step_with Hkf. destruct (kfree_inv _ _ _ _ Hk Hp Hni Hkf) as [Hk' _].
    replace (Z.to_nat ((PHYSTOP - p) / PGSIZE)) with
      (S (Z.to_nat ((PHYSTOP - (p + PGSIZE)) / PGSIZE))) in *.
    2:{ unfold PGSIZE in *. replace (PHYSTOP - p) with (PHYSTOP - (p + 4096) + 1 * 4096) by lia.
        rewrite Z_div_plus_full by lia.
        pose proof (Z.div_pos (PHYSTOP - (p + 4096)) 4096). lia. }
    apply IH; [lia|done| |unfold PGSIZE in *; lia|].
    + unfold PGSIZE in *. rewrite <- Ha. replace (p + 4096) with (p + 1 * 4096) by lia.
      apply Z_mod_plus_full.
    + intros q [->|Hq]%elem_of_cons; [|specialize (Hlt _ Hq)]; unfold PGSIZE; lia.
  - rewrite Z.div_small by (unfold PGSIZE in *; lia). by exists s.
Qed.

(** ** A client of the allocator

    [AAlloc] and [AFree p] are the calls the rest of the kernel makes. The
    abstract allocator is a stack of free pages and the list of pages that
    have been handed out. *)

Inductive alloc_op := AAlloc | AFree (p : Z).

Definition alloc_exec (o : alloc_op) : M memst Z :=
  match o with
  | AAlloc => kalloc
  | AFree p => kfree p ;;; ret 0
  end.

Fixpoint alloc_run (ops : list alloc_op) : M memst (list Z) :=
  match ops with
  | [] => ret []
  | o :: ops' => r <- alloc_exec o ;; rs <- alloc_run ops' ;; ret (r :: rs)
  end.

(** One abstract call; [None] when the client frees a page it does not own. *)
Definition alloc_spec (o : alloc_op) (free owned : list Z) : option (Z * list Z * list Z) :=
  match o with
  | AAlloc =>
      match free with
      | [] => Some (0, [], owned)
      | p :: free' => Some (p, free', p :: owned)
      end
  | AFree p => if decide (p ∈ owned) then Some (0, p :: free, list_difference owned [p]) else None
  end.

Fixpoint alloc_spec_run (ops : list alloc_op) (free owned : list Z)
    : option (list Z * list Z * list Z) :=
  match ops with
  | [] => Some ([], free, owned)
  | o :: ops' =>
      match alloc_spec o free owned with
      | None => None
      | Some (r, free1, owned1) =>
          match alloc_spec_run ops' free1 owned1 with
          | None => None
          | Some (rs, free2, owned2) => Some (r :: rs, free2, owned2)
          end
      end
  end.

(** Pages are either free or handed out, never both, never twice. *)
Record alloc_inv (s : memst) (free owned : list Z) : Prop := {
  ai_kmem : kmem_inv s free;
  ai_owned : Forall page_ok owned;
  ai_nodup : NoDup (free ++ owned)
}.

Lemma alloc_exec_spec o s free owned r free1 owned1 :
  alloc_inv s free owned -> alloc_spec o free owned = Some (r, free1, owned1) ->
  exists s1, alloc_exec o s = Ok r s1 /\ alloc_inv s1 free1 owned1.
Proof.
  intros [Hk Ho Hnd] Hs. destruct o as [|p]; cbn in Hs.
  - destruct free as [|q free]; simplify_eq.
    + exists s. split; [by apply kalloc_empty|done].
    + pose proof (kalloc_cons _ _ _ Hk) as E. eexists. split; [exact E|].
      destruct (kalloc_inv _ _ _ _ Hk E) as (Hk1 & Hp & Hni & _).
      split; [done|by constructor|]. by rewrite <- Permutation_middle.
  - case_decide as Hin; simplify_eq.
    apply NoDup_app in Hnd as (Hf & Hd & Hown).
    assert (Hp : page_ok p) by (rewrite Forall_forall in Ho; auto).
    assert (Hni : p ∉ free) by (intros ?; by apply (Hd p)).
    pose proof (kfree_ok s free p Hk Hp Hni) as E. cbn [alloc_exec].
    eexists. split; [by step_with E|].
    destruct (kfree_inv _ _ _ _ Hk Hp Hni E) as [Hk1 _]. split; [done| |].
    + rewrite Forall_forall in *. intros q [Hq _]%list_elem_of_difference. auto.
    + apply NoDup_app. split_and!; [by constructor| |by apply NoDup_list_difference].
      intros q Hq [Hq1 Hq2]%list_elem_of_difference.
      apply elem_of_cons in Hq as [->|Hq]; [apply Hq2; by left|by apply (Hd q)].
Qed.

(** C8. Along any sequence of calls in which the rest of the kernel frees
    only pages it holds, the allocator behaves like a stack of pages: no call
    panics, each [kalloc] returns the page on top of the stack (0 exactly when
    there is none), and no page is ever free and handed out, or handed out
    twice, at the same time. *)
Theorem alloc_run_refines ops s free owned rs free' owned' :
  alloc_inv s free owned -> alloc_spec_run ops free owned = Some (rs, free', owned') ->
  exists s', alloc_run ops s = Ok rs s' /\ alloc_inv s' free' owned'.
Proof.
  revert s free owned rs. induction ops as [|o ops IH]; intros s free owned rs Hi Hs; cbn in Hs.
  - simplify_eq. by exists s.
  - destruct (alloc_spec o free owned) as [[[r f1] o1]|] eqn:E; [|done].
    destruct (alloc_spec_run ops f1 o1) as [[[rs1 f2] o2]|] eqn:E2; [|done]. simplify_eq.
    destruct (alloc_exec_spec _ _ _ _ _ _ _ Hi E) as (s1 & H1 & Hi1).
    destruct (IH _ _ _ _ Hi1 E2) as (s2 & H2 & Hi2).
    exists s2. split; [|done]. cbn [alloc_run]. step_with H1. by step_with H2.
Qed.

(** Every whole page between the end of the kernel and PHYSTOP. *)
Definition free_pages : list Z :=
  pages_up (Z.to_nat ((PHYSTOP - PGROUNDUP k_end) / PGSIZE)) (PGROUNDUP k_end) [].

Lemma PGROUNDUP_end : PGROUNDUP k_end mod PGSIZE = 0 /\
  k_end <= PGROUNDUP k_end < k_end + PGSIZE /\ PGROUNDUP k_end <= PHYSTOP.
Proof.
  pose proof etext_range. pose proof k_end_range.
  destruct (PGROUNDUP_bounds k_end) as [Ha Hb]; [unfold PHYSTOP, KERNBASE, PGSIZE in *; lia|].
  split_and!; try done; try lia. unfold PHYSTOP, KERNBASE, PGSIZE in *. dlia.
Qed.

Lemma elem_of_free_pages p : p ∈ free_pages <-> page_ok p.
Proof.
  pose proof PGROUNDUP_end. unfold free_pages, page_ok. rewrite elem_of_pages_up, elem_of_nil. split.
  - intros [[]|(i & Hi & ->)]. destruct PGROUNDUP_end as [Ha _]. split; [by rewrite Z_mod_plus_full, Ha|].
    unfold PGSIZE, PHYSTOP, KERNBASE in *. dlia.
  - intros [Hpa Hpr]. right. exists ((p - PGROUNDUP k_end) / PGSIZE).
    unfold PGSIZE, PHYSTOP, KERNBASE in *. dlia.
Qed.

Lemma kinit_run s : freelist s = 0 -> exists s', kinit s = Ok tt s' /\ kmem_inv s' free_pages.
Proof.
  intros Hf. destruct PGROUNDUP_end as (Ha & Hb & Hle).
  apply (freerange_loop_spec _ (set_kmem_lock s false) [] (PGROUNDUP k_end)).
  - pose proof (Z.div_le_mono (PHYSTOP - PGROUNDUP k_end) (PHYSTOP - k_end) PGSIZE).
    unfold PGSIZE in *. lia.
  - split; cbn; [done|done|constructor].
  - done.
  - lia.
  - by intros q ?%elem_of_nil.
Qed.

(** After [kinit] the allocator owns every whole page between the end
    of the kernel and PHYSTOP, each exactly once: the loop of [freerange]
    terminates within its fuel and no call of [kfree] panics. *)
Theorem kinit_frees_all_memory s : freelist s = 0 ->
  exists s' l, kinit s = Ok tt s' /\ kmem_inv s' l /\ forall p, p ∈ l <-> page_ok p.
Proof.
  intros Hf. destruct (kinit_run s Hf) as (s' & Hrun & Hk).
  exists s', free_pages. split_and!; [done|done|]. apply elem_of_free_pages.
Qed.

(** [kfree] accepts exactly the page-aligned addresses of allocatable
    memory: every other address panics before anything is written. *)
Theorem kfree_rejects pa s : ~ page_ok pa -> kfree pa s = Panic "kfree".
Proof.
  intros Hn. unfold kfree.
  destruct (Z.eqb_spec (pa mod PGSIZE) 0), (Z.ltb_spec pa k_end), (Z.leb_spec PHYSTOP pa);
    cbn [negb orb]; try done.
  destruct Hn. split; lia.
Qed.
End kalloc.

(** A kernel image that leaves [n] pages free, for examples. *)
Definition demo_img (n : Z) : KernelImage :=
  {| k_end := PHYSTOP - n * PGSIZE - 8; etext := KERNBASE + PGSIZE; trampoline := KERNBASE |}.
Lemma demo_img_ok n : 0 <= n < 100000 -> KernelImageOk (demo_img n).
Proof.
  intros Hn. split; cbn; unfold PHYSTOP, KERNBASE, PGSIZE in *; try lia; done.
Qed.

#[local] Instance img3 : KernelImage := demo_img 3.
#[local] Instance img3_ok : KernelImageOk img3.
Proof. apply demo_img_ok. lia. Qed.

Definition mem0 : memst := mk_memst ∅ false 0.

Lemma kinit_frees_all_memory_witness :
  exists s' l, kinit mem0 = Ok tt s' /\ kmem_inv s' l /\ forall p, p ∈ l <-> page_ok p.
Proof. apply (kinit_frees_all_memory mem0). reflexivity. Defined.

(** Two pages taken, one given back, taken again; then memory runs out. *)
Lemma alloc_run_refines_witness :
  let p := PHYSTOP - PGSIZE in
  let ops := [AAlloc; AAlloc; AFree p; AAlloc; AAlloc; AAlloc] in
  exists s s', alloc_run ops s = Ok [p; p - PGSIZE; 0; p; p - 2 * PGSIZE; 0] s' /\
    alloc_inv s' [] [p - 2 * PGSIZE; p; p - PGSIZE].
Proof.
  destruct (kinit_run mem0) as (s & Hrun & Hk); [reflexivity|].
  exists s. apply (alloc_run_refines _ s (free_pages) []).
  - split; [exact Hk|constructor|]. rewrite app_nil_r. exact (km_nodup _ _ Hk).
  - vm_compute. reflexivity.
Defined.

Lemma kfree_rejects_witness :
  ~ page_ok (PHYSTOP - 3 * PGSIZE - 1) /\ kfree (PHYSTOP - 3 * PGSIZE - 1) mem0 = Panic "kfree".
Proof.
  assert (H : ~ page_ok (PHYSTOP - 3 * PGSIZE - 1)) by (intros [H _]; vm_compute in H; discriminate).
  split; [exact H|apply (kfree_rejects _ mem0 H)].
Defined.
