(* ===== verification/Vm.v ===== *)
(** * Virtual memory (kernel/vm.c)

    The three-level Sv39 page tables as the kernel builds them in physical
    memory, byte by byte, and the routines that read and write user memory
    through them. VmSpec relates them to finite maps from virtual pages to
    page-table entries. *)

From stdpp Require Import base gmap list numbers strings.
From Stdlib Require Import ZArith Lia.
From S2P Require Import Prelude Riscv Mem Spinlock Kalloc.
Open Scope Z_scope.
Open Scope kernel_scope.

Definition NPROC : Z := 64.

Definition load64 (a : Z) : M memst Z := gets (fun s => ld64 (mram s) a).

(** What vm.c reads of the current process, [myproc()]. *)
Record curproc := mk_curproc { cur_sz : Z; cur_pagetable : Z }.

Section vm.
Context {img : KernelImage}.

(** The levels are visited from 2 down to 1; [None] is an early [return 0]. *)
Fixpoint walk_loop (levels : list Z) (pagetable va : Z) (alloc : bool) : M memst (option Z) :=
  match levels with
  | [] => ret (Some pagetable)
  | level :: levels' =>
      let pte := pagetable + 8 * PX level va in
      e <- load64 pte ;;
      if has e PTE_V then walk_loop levels' (PTE2PA e) va alloc
      else if negb alloc then ret None
      else
        p <- kalloc ;;
        if p =? 0 then ret None
        else
          store (fun m => memset m p 0 PGSIZE) ;;;
          store (fun m => st64 m pte (Z.lor (PA2PTE p) PTE_V)) ;;;
          walk_loop levels' p va alloc
  end.

Definition walk (pagetable va : Z) (alloc : bool) : M memst Z :=
  if MAXVA <=? va then panic "walk"
  else
    r <- walk_loop [2; 1] pagetable va alloc ;;
    match r with
    | None => ret 0
    | Some pt => ret (pt + 8 * PX 0 va)
    end.

Definition walkaddr (pagetable va : Z) : M memst Z :=
  if MAXVA <=? va then ret 0
  else
    pte <- walk pagetable va false ;;
    if pte =? 0 then ret 0
    else
      e <- load64 pte ;;
      if negb (has e PTE_V) then ret 0
      else if negb (has e PTE_U) then ret 0
      else ret (PTE2PA e).

Fixpoint mappages_loop (fuel : nat) (pagetable a last pa perm : Z) : M memst Z :=
  match fuel with
  | O => no_fuel
  | S k =>
      pte <- walk pagetable a true ;;
      if pte =? 0 then ret (-1)
      else
        e <- load64 pte ;;
        if has e PTE_V then panic "mappages: remap"
        else
          store (fun m => st64 m pte (Z.lor (Z.lor (PA2PTE pa) perm) PTE_V)) ;;;
          if a =? last then ret 0
          else mappages_loop k pagetable (u64 (a + PGSIZE)) last (u64 (pa + PGSIZE)) perm
  end.

Definition mappages (pagetable va size pa perm : Z) : M memst Z :=
  if negb (va mod PGSIZE =? 0) then panic "mappages: va not aligned"
  else if negb (size mod PGSIZE =? 0) then panic "mappages: size not aligned"
  else if size =? 0 then panic "mappages: size"
  else mappages_loop (Z.to_nat (size / PGSIZE)) pagetable va (u64 (va + size - PGSIZE)) pa perm.

Definition uvmcreate : M memst Z :=
  pagetable <- kalloc ;;
  if pagetable =? 0 then ret 0
  else store (fun m => memset m pagetable 0 PGSIZE) ;;; ret pagetable.

Fixpoint uvmunmap_loop (fuel : nat) (pagetable a lim : Z) (do_free : bool) : M memst unit :=
  if a <? lim then
    match fuel with
    | O => no_fuel
    | S k =>
        let next := uvmunmap_loop k pagetable (u64 (a + PGSIZE)) lim do_free in
        pte <- walk pagetable a false ;;
        if pte =? 0 then next
        else
          e <- load64 pte ;;
          if negb (has e PTE_V) then next
          else
            when do_free (kfree (PTE2PA e)) ;;;
            store (fun m => st64 m pte 0) ;;;
            next
    end
  else ret tt.

Definition uvmunmap (pagetable va npages : Z) (do_free : bool) : M memst unit :=
  if negb (va mod PGSIZE =? 0) then panic "uvmunmap: not aligned"
  else uvmunmap_loop (Z.to_nat npages) pagetable va (u64 (va + npages * PGSIZE)) do_free.

Definition uvmdealloc (pagetable oldsz newsz : Z) : M memst Z :=
  if oldsz <=? newsz then ret oldsz
  else
    when (PGROUNDUP newsz <? PGROUNDUP oldsz)
      (let npages := i32 ((PGROUNDUP oldsz - PGROUNDUP newsz) / PGSIZE) in
       uvmunmap pagetable (PGROUNDUP newsz) (u64 npages) true) ;;;
    ret newsz.

Fixpoint uvmalloc_loop (fuel : nat) (pagetable a oldsz newsz xperm : Z) : M memst Z :=
  if a <? newsz then
    match fuel with
    | O => no_fuel
    | S k =>
        mem <- kalloc ;;
        if mem =? 0 then uvmdealloc pagetable a oldsz ;;; ret 0
        else
          store (fun m => memset m mem 0 PGSIZE) ;;;
          r <- mappages pagetable a PGSIZE mem (Z.lor (Z.lor PTE_R PTE_U) xperm) ;;
          if negb (r =? 0) then kfree mem ;;; uvmdealloc pagetable a oldsz ;;; ret 0
          else uvmalloc_loop k pagetable (u64 (a + PGSIZE)) oldsz newsz xperm
    end
  else ret newsz.

Definition uvmalloc (pagetable oldsz newsz xperm : Z) : M memst Z :=
  if newsz <? oldsz then ret oldsz
  else
    let oldsz := PGROUNDUP oldsz in
    uvmalloc_loop (Z.to_nat ((newsz - oldsz + PGSIZE - 1) / PGSIZE)) pagetable oldsz oldsz newsz xperm.

(** [freewalk] recurses along page-table pointers: the fuel is the number of
    levels below, three for a root page. *)
Fixpoint freewalk_level (fuel : nat) (pagetable : Z) : M memst unit :=
  match fuel with
  | O => no_fuel
  | S k =>
      for_all (seqZ 0 512) (fun i =>
        pte <- load64 (pagetable + 8 * i) ;;
        if has pte PTE_V && (Z.land pte (Z.lor (Z.lor PTE_R PTE_W) PTE_X) =? 0) then
          freewalk_level k (PTE2PA pte) ;;;
          store (fun m => st64 m (pagetable + 8 * i) 0)
        else if has pte PTE_V then panic "freewalk: leaf"
        else ret tt) ;;;
      kfree pagetable
  end.
Definition freewalk (pagetable : Z) : M memst unit := freewalk_level 3 pagetable.

Definition uvmfree (pagetable sz : Z) : M memst unit :=
  when (0 <? sz) (uvmunmap pagetable 0 (PGROUNDUP sz / PGSIZE) true) ;;;
  freewalk pagetable.

(** Returns -1 with [i] through the label [err]. *)
Fixpoint uvmcopy_loop (fuel : nat) (old new i sz : Z) : M memst Z :=
  if i <? sz then
    match fuel with
    | O => no_fuel
    | S k =>
        let next := uvmcopy_loop k old new (u64 (i + PGSIZE)) sz in
        let err := uvmunmap new 0 (i / PGSIZE) true ;;; ret (-1) in
        pte <- walk old i false ;;
        if pte =? 0 then next
        else
          e <- load64 pte ;;
          if negb (has e PTE_V) then next
          else
            let pa := PTE2PA e in
            let flags := PTE_FLAGS e in
            mem <- kalloc ;;
            if mem =? 0 then err
            else
              store (fun m => memmove m mem pa PGSIZE) ;;;
              r <- mappages new i PGSIZE mem flags ;;
              if negb (r =? 0) then kfree mem ;;; err
              else next
    end
  else ret 0.

Definition uvmcopy (old new sz : Z) : M memst Z :=
  uvmcopy_loop (Z.to_nat ((sz + PGSIZE - 1) / PGSIZE)) old new 0 sz.

Definition uvmclear (pagetable va : Z) : M memst unit :=
  pte <- walk pagetable va false ;;
  if pte =? 0 then panic "uvmclear"
  else
    e <- load64 pte ;;
    store (fun m => st64 m pte (Z.land e (u64 (Z.lnot PTE_U)))).

Definition ismapped (pagetable va : Z) : M memst bool :=
  pte <- walk pagetable va false ;;
  if pte =? 0 then ret false
  else e <- load64 pte ;; ret (has e PTE_V).

Definition vmfault (cur : curproc) (pagetable va : Z) : M memst Z :=
  if cur_sz cur <=? va then ret 0
  else
    let va := PGROUNDDOWN va in
    b <- ismapped pagetable va ;;
    if b : bool then ret 0
    else
      mem <- kalloc ;;
      if mem =? 0 then ret 0
      else
        store (fun m => memset m mem 0 PGSIZE) ;;;
        r <- mappages (cur_pagetable cur) va PGSIZE mem (Z.lor (Z.lor PTE_W PTE_U) PTE_R) ;;
        if negb (r =? 0) then kfree mem ;;; ret 0
        else ret mem.

(** The physical page of [va0], faulting it in when it is not there yet. *)
Definition user_page (cur : curproc) (pagetable va0 : Z) : M memst Z :=
  pa0 <- walkaddr pagetable va0 ;;
  if pa0 =? 0 then vmfault cur pagetable va0 else ret pa0.

Fixpoint copyout_loop (fuel : nat) (cur : curproc) (pagetable dstva src len : Z) : M memst Z :=
  if 0 <? len then
    match fuel with
    | O => no_fuel
    | S k =>
        let va0 := PGROUNDDOWN dstva in
        if MAXVA <=? va0 then ret (-1)
        else
          pa0 <- user_page cur pagetable va0 ;;
          if pa0 =? 0 then ret (-1)
          else
            pte <- walk pagetable va0 false ;;
            e <- load64 pte ;;
            if negb (has e PTE_W) then ret (-1)
            else
              let n0 := PGSIZE - (dstva - va0) in
              let n := if len <? n0 then len else n0 in
              store (fun m => memmove m (pa0 + (dstva - va0)) src n) ;;;
              copyout_loop k cur pagetable (u64 (va0 + PGSIZE)) (src + n) (len - n)
    end
  else ret 0.
Definition copyout (cur : curproc) (pagetable dstva src len : Z) : M memst Z :=
  copyout_loop (Z.to_nat (len / PGSIZE) + 2) cur pagetable dstva src len.

Fixpoint copyin_loop (fuel : nat) (cur : curproc) (pagetable dst srcva len : Z) : M memst Z :=
  if 0 <? len then
    match fuel with
    | O => no_fuel
    | S k =>
        let va0 := PGROUNDDOWN srcva in
        pa0 <- user_page cur pagetable va0 ;;
        if pa0 =? 0 then ret (-1)
        else
          let n0 := PGSIZE - (srcva - va0) in
          let n := if len <? n0 then len else n0 in
          store (fun m => memmove m dst (pa0 + (srcva - va0)) n) ;;;
          copyin_loop k cur pagetable (dst + n) (u64 (va0 + PGSIZE)) (len - n)
    end
  else ret 0.
Definition copyin (cur : curproc) (pagetable dst srcva len : Z) : M memst Z :=
  copyin_loop (Z.to_nat (len / PGSIZE) + 2) cur pagetable dst srcva len.

(** The inner loop of [copyinstr] over the [n] bytes of one page: whether a
    NUL was found, and how far it went. *)
Fixpoint copyinstr_page (n : nat) (p dst max : Z) : M memst (bool * Z * Z) :=
  match n with
  | O => ret (false, dst, max)
  | S k =>
      c <- gets (fun s => ld8 (mram s) p) ;;
      if c =? 0 then store (fun m => st8 m dst 0) ;;; ret (true, dst, max)
      else
        store (fun m => st8 m dst c) ;;;
        copyinstr_page k (p + 1) (dst + 1) (max - 1)
  end.

Fixpoint copyinstr_loop (fuel : nat) (pagetable dst srcva max : Z) : M memst Z :=
  if 0 <? max then
    match fuel with
    | O => no_fuel
    | S k =>
        let va0 := PGROUNDDOWN srcva in
        pa0 <- walkaddr pagetable va0 ;;
        if pa0 =? 0 then ret (-1)
        else
          let n0 := PGSIZE - (srcva - va0) in
          let n := if max <? n0 then max else n0 in
          let* (got_null, dst, max) := copyinstr_page (Z.to_nat n) (pa0 + (srcva - va0)) dst max in
          if got_null : bool then ret 0
          else copyinstr_loop k pagetable dst (u64 (va0 + PGSIZE)) max
    end
  else ret (-1).
Definition copyinstr (pagetable dst srcva max : Z) : M memst Z :=
  copyinstr_loop (Z.to_nat (max / PGSIZE) + 2) pagetable dst srcva max.

(** ** The kernel's own page table *)

Definition kvmmap (kpgtbl va pa sz perm : Z) : M memst unit :=
  r <- mappages kpgtbl va sz pa perm ;;
  if negb (r =? 0) then panic "kvmmap" else ret tt.

Definition proc_mapstacks (kpgtbl : Z) : M memst unit :=
  for_all (seqZ 0 NPROC) (fun p =>
    pa <- kalloc ;;
    if pa =? 0 then panic "kalloc"
    else kvmmap kpgtbl (KSTACK p) pa PGSIZE (Z.lor PTE_R PTE_W)).

Definition kvmmake : M memst Z :=
  kpgtbl <- kalloc ;;
  store (fun m => memset m kpgtbl 0 PGSIZE) ;;;
  kvmmap kpgtbl UART0 UART0 PGSIZE (Z.lor PTE_R PTE_W) ;;;
  kvmmap kpgtbl SDHCI0 SDHCI0 PGSIZE (Z.lor PTE_R PTE_W) ;;;
  kvmmap kpgtbl PLIC PLIC 0x4000000 (Z.lor PTE_R PTE_W) ;;;
  kvmmap kpgtbl KERNBASE KERNBASE (etext - KERNBASE) (Z.lor PTE_R PTE_X) ;;;
  kvmmap kpgtbl etext etext (PHYSTOP - etext) (Z.lor PTE_R PTE_W) ;;;
  kvmmap kpgtbl TRAMPOLINE trampoline PGSIZE (Z.lor PTE_R PTE_X) ;;;
  proc_mapstacks kpgtbl ;;;
  ret kpgtbl.

(** [kvminit] stores the table in [kernel_pagetable]; [kvminithart] makes it
    the value of satp. *)
Definition kvminit : M memst Z := kvmmake.
Definition kvminithart (kernel_pagetable : Z) : Z := MAKE_SATP kernel_pagetable.

End vm.
