(* ===== verification/VmSpec.v ===== *)
(** * Page tables as finite maps

    The abstract view of a page table is a map from virtual pages to leaf
    entries. [ptree] says how it is laid out in memory: [T] gives the page
    that holds the table reached by a path of indices from the root. *)

From stdpp Require Import base gmap list numbers strings.
From Stdlib Require Import ZArith Lia.
From S2P Require Import Prelude Riscv Mem Spinlock Kalloc Vm.
Open Scope Z_scope.
Open Scope kernel_scope.

Abbreviation tables := (gmap (list Z) Z).
Abbreviation leafmap := (gmap Z Z).

Definition aligned (a : Z) : Prop := a mod PGSIZE = 0.

(** [m'] agrees with [m] on the whole page at [p]. *)
Definition same_page (m m' : ram) (p : Z) : Prop :=
  forall off, 0 <= off < PGSIZE -> ld8 m' (p + off) = ld8 m (p + off).

Lemma same_page_refl m p : same_page m m p.
Proof. done. Qed.
Lemma same_page_trans m1 m2 m3 p : same_page m1 m2 p -> same_page m2 m3 p -> same_page m1 m3 p.
Proof. intros H1 H2 off Hoff. by rewrite H2, H1. Qed.

Lemma same_page_ld64 m m' p i : same_page m m' p -> 0 <= i < 512 -> ld64 m' (p + 8 * i) = ld64 m (p + 8 * i).
Proof.
  intros H Hi. apply ld64_ext. intros j Hj. rewrite <- Z.add_assoc.
  apply H. unfold PGSIZE. lia.
Qed.

(** Pages that are not the one written to do not change. *)
Lemma aligned_disjoint p q : aligned p -> aligned q -> p <> q -> p + PGSIZE <= q \/ q + PGSIZE <= p.
Proof. unfold aligned, PGSIZE. intros. dlia. Qed.

Lemma same_page_st64 m p q i v : aligned p -> aligned q -> p <> q -> 0 <= i < 512 ->
  same_page m (st64 m (q + 8 * i) v) p.
Proof.
  intros Hp Hq Hne Hi off Hoff. apply ld8_st64_ne.
  destruct (aligned_disjoint p q Hp Hq Hne); unfold PGSIZE in *; lia.
Qed.

Lemma same_page_memset m p q c : aligned p -> aligned q -> p <> q ->
  same_page m (memset m q c PGSIZE) p.
Proof.
  intros Hp Hq Hne off Hoff. rewrite ld8_memset by (unfold PGSIZE; lia).
  destruct (aligned_disjoint p q Hp Hq Hne);
    destruct (Z.leb_spec q (p + off)), (Z.ltb_spec (p + off) (q + PGSIZE)); cbn; auto; lia.
Qed.

(** A page taken with [kalloc] (which fills it with 5) and cleared. *)
Lemma same_page_zalloc m p q : aligned p -> aligned q -> p <> q ->
  same_page m (memset (memset m q 5 PGSIZE) q 0 PGSIZE) p.
Proof.
  intros Hp Hq Hne. apply same_page_trans with (memset m q 5 PGSIZE).
  - exact (same_page_memset m p q 5 Hp Hq Hne).
  - exact (same_page_memset _ p q 0 Hp Hq Hne).
Qed.

(** ** Layout *)

Section layout.
Context {img : KernelImage}.

(** Virtual addresses stop at MAXVA = 2^38: only the lower half of the root
    table is used. *)
Definition head_ok (pi : list Z) : Prop := match pi with i :: _ => i < 256 | [] => True end.

Lemma head_ok_prefix pi rest : head_ok (pi ++ rest) -> head_ok pi.
Proof. by destruct pi. Qed.

Record ptree (m : ram) (root : Z) (T : tables) : Prop := {
  pt_root : T !! [] = Some root;
  pt_page : forall pi p, T !! pi = Some p -> page_ok p;
  pt_inj : forall pi pi' p, T !! pi = Some p -> T !! pi' = Some p -> pi = pi';
  pt_shape : forall pi p, T !! pi = Some p -> (length pi <= 2)%nat /\ Forall (fun i => 0 <= i < 512) pi /\ head_ok pi;
  pt_parent : forall pi i q, T !! (pi ++ [i]) = Some q -> exists p, T !! pi = Some p;
  pt_child : forall pi p i, T !! pi = Some p -> (length pi < 2)%nat -> 0 <= i < 512 ->
    match T !! (pi ++ [i]) with
    | Some q => ld64 m (p + 8 * i) = mkpte q PTE_V
    | None => has (ld64 m (p + 8 * i)) PTE_V = false
    end
}.

(** The entry for [va]: where the third level table is, and what it holds. *)
Definition pte_at (m : ram) (T : tables) (va : Z) : Z :=
  match T !! [PX 2 va; PX 1 va] with
  | Some p => ld64 m (p + 8 * PX 0 va)
  | None => 0
  end.

Definition leaves (m : ram) (T : tables) (L : leafmap) : Prop :=
  forall va e, L !! va = Some e <->
    0 <= va < MAXVA /\ aligned va /\ pte_at m T va = e /\ has e PTE_V = true.

Record vm_inv (s : memst) (l : list Z) (root : Z) (T : tables) (L : leafmap) : Prop := {
  vi_kmem : kmem_inv s l;
  vi_tree : ptree (mram s) root T;
  vi_free : forall pi p, T !! pi = Some p -> ~ p ∈ l;
  vi_leaves : leaves (mram s) T L
}.

(** Everything but the free pages and the tables is left alone. *)
Definition vm_frame (s : memst) (l : list Z) (T : tables) (s' : memst) : Prop :=
  forall p, aligned p -> ~ p ∈ l -> (forall pi, T !! pi <> Some p) -> same_page (mram s) (mram s') p.

(** The pages that hold the tables. *)
Definition tpages (T : tables) : list Z := (map_to_list T).*2.

(** Tables are only added, and come from the free list; no page is lost. *)
Record vm_grows (l : list Z) (T : tables) (l' : list Z) (T' : tables) : Prop := {
  gr_free : forall p, p ∈ l' -> p ∈ l;
  gr_old : forall pi p, T !! pi = Some p -> T' !! pi = Some p;
  gr_new : forall pi p, T' !! pi = Some p -> T !! pi = Some p \/ p ∈ l;
  gr_all : l ++ tpages T ≡ₚ l' ++ tpages T'
}.

Lemma vm_grows_refl l T : vm_grows l T l T.
Proof. by split; auto. Qed.

Lemma vm_grows_trans l1 T1 l2 T2 l3 T3 :
  vm_grows l1 T1 l2 T2 -> vm_grows l2 T2 l3 T3 -> vm_grows l1 T1 l3 T3.
Proof.
  intros [A1 B1 C1 D1] [A2 B2 C2 D2]. split; eauto.
  - intros pi p Hp. destruct (C2 _ _ Hp) as [Hp2|Hp2]; [eauto|]. right. eauto.
  - by rewrite D1.
Qed.

Lemma vm_frame_refl s l T : vm_frame s l T s.
Proof. intros p _ _ _. apply same_page_refl. Qed.

Lemma vm_frame_trans s1 l1 T1 s2 l2 T2 s3 :
  vm_frame s1 l1 T1 s2 -> vm_grows l1 T1 l2 T2 -> vm_frame s2 l2 T2 s3 -> vm_frame s1 l1 T1 s3.
Proof.
  intros H1 [A B C _] H2 p Hp Hl Ht. apply same_page_trans with (mram s2); [auto|].
  apply H2; auto. intros pi Hpi. destruct (C _ _ Hpi); [by apply (Ht pi)|auto].
Qed.

Lemma ptree_same m m' root T :
  (forall pi p, T !! pi = Some p -> (length pi < 2)%nat -> same_page m m' p) ->
  ptree m root T -> ptree m' root T.
Proof.
  intros Hs [H1 H2 H3 H4 H5 H6]. split; auto.
  intros pi p i Hp Hl Hi. rewrite (same_page_ld64 m m') by eauto. by apply H6.
Qed.

Lemma pte_at_same m m' T va :
  (forall p, T !! [PX 2 va; PX 1 va] = Some p -> same_page m m' p) -> pte_at m' T va = pte_at m T va.
Proof.
  intros Hs. unfold pte_at. destruct (T !! _) as [p|]; [|done].
  apply same_page_ld64; [auto|]. by apply PX_range.
Qed.

Lemma leaves_same m m' T T' L :
  (forall va, pte_at m' T' va = pte_at m T va) -> leaves m T L -> leaves m' T' L.
Proof. intros Hs Hl va e. rewrite Hs. apply Hl. Qed.

Lemma page_ok_aligned p : page_ok p -> aligned p.
Proof. by intros [? _]. Qed.

(** Another address space survives any change outside its own tables. *)
Lemma vm_inv_tables_same s s' root T L :
  (forall pi p, T !! pi = Some p -> same_page (mram s) (mram s') p) ->
  ptree (mram s) root T -> leaves (mram s) T L ->
  ptree (mram s') root T /\ leaves (mram s') T L.
Proof.
  intros Hs Ht Hl. split; [eapply ptree_same; eauto|].
  eapply leaves_same; [|exact Hl]. intros va. apply pte_at_same. eauto.
Qed.

Context {imgok : KernelImageOk img}.

Lemma page_ok_pa p : page_ok p -> 0 <= p < 2 ^ 56.
Proof. intros H. pose proof (page_ok_pos p H). lia. Qed.

Lemma mkpte_valid q : page_ok q -> has (mkpte q PTE_V) PTE_V = true /\ PTE2PA (mkpte q PTE_V) = q.
Proof.
  intros Hq. pose proof (page_ok_pa q Hq). split.
  - change PTE_V with (Z.shiftl 1 0) at 2. by rewrite has_mkpte.
  - apply PTE2PA_mkpte; [done|by destruct Hq|]. done.
Qed.

Lemma mkpte_u64 q f : page_ok q -> 0 <= f < 2 ^ 10 -> 0 <= mkpte q f < 2 ^ 64.
Proof. intros Hq Hf. pose proof (mkpte_range q f (page_ok_pa q Hq) Hf). lia. Qed.

Lemma app_snoc_inj {A} (a b : list A) x y : a ++ [x] = b ++ [y] -> a = b /\ x = y.
Proof. intros H. by apply app_inj_tail in H. Qed.

Lemma kmem_inv_same m m' lk fl l : kmem_inv (mk_memst m lk fl) l ->
  (forall p, p ∈ l -> same_page m m' p) -> kmem_inv (mk_memst m' lk fl) l.
Proof.
  intros [Hlk Hl Hnd] Hs. split; [exact Hlk| |exact Hnd].
  apply (flist_frame m); [|exact Hl]. intros p a Hp Ha.
  replace a with (p + (a - p)) by lia. apply (Hs p Hp). unfold PGSIZE; lia.
Qed.

Lemma kmem_inv_page s l p : kmem_inv s l -> p ∈ l -> page_ok p.
Proof.
  intros Hk Hp. pose proof (flist_page_ok _ _ _ (km_list _ _ Hk)) as H.
  rewrite Forall_forall in H. exact (H p Hp).
Qed.

Lemma ld64_memset_zero m q j : 0 <= j < 512 -> ld64 (memset m q 0 PGSIZE) (q + 8 * j) = 0.
Proof.
  intros Hj. apply ld64_zero. intros i Hi. rewrite ld8_memset by (unfold PGSIZE; lia).
  destruct (Z.leb_spec q (q + 8 * j + i)), (Z.ltb_spec (q + 8 * j + i) (q + PGSIZE));
    cbn; try done; unfold PGSIZE in *; lia.
Qed.

(** ** Growing a tree by one table

    [q] is taken from the free list, cleared and linked into entry [i] of the
    table at [p]. *)
Section new_table.
Context (m : ram) (root : Z) (T : tables) (pi : list Z) (p i q : Z).
Context (Ht : ptree m root T) (Hp : T !! pi = Some p) (Hlen : (length pi < 2)%nat).
Context (Hi : 0 <= i < 512) (Hhead : head_ok (pi ++ [i])) (Hnone : T !! (pi ++ [i]) = None).
Context (Hq : page_ok q) (Hfresh : forall pi', T !! pi' <> Some q).
Context (m' : ram) (Hsame : forall r, aligned r -> r <> q -> r <> p -> same_page m m' r).
Context (Hlink : ld64 m' (p + 8 * i) = mkpte q PTE_V).
Context (Hrest : forall j, 0 <= j < 512 -> j <> i -> ld64 m' (p + 8 * j) = ld64 m (p + 8 * j)).
Context (Hzero : forall j, 0 <= j < 512 -> ld64 m' (q + 8 * j) = 0).

Lemma new_table_child pi' p' i' : <[pi ++ [i] := q]> T !! pi' = Some p' -> (length pi' < 2)%nat ->
  0 <= i' < 512 ->
  match <[pi ++ [i] := q]> T !! (pi' ++ [i']) with
  | Some q' => ld64 m' (p' + 8 * i') = mkpte q' PTE_V
  | None => has (ld64 m' (p' + 8 * i')) PTE_V = false
  end.
Proof using Type*.
  intros Hpi' Hl' Hi'. destruct (decide (pi ++ [i] = pi')) as [<-|Hne].
  - rewrite lookup_insert_eq in Hpi'. simplify_eq.
    rewrite lookup_insert_ne by (intros E%(f_equal length); rewrite !length_app in E; cbn in E; lia).
    destruct (T !! ((pi ++ [i]) ++ [i'])) as [r|] eqn:E; [|by rewrite Hzero].
    destruct (pt_parent _ _ _ Ht _ _ _ E). congruence.
  - rewrite lookup_insert_ne in Hpi' by done. pose proof (pt_child _ _ _ Ht _ _ i' Hpi' Hl' Hi') as Hc.
    destruct (decide (pi' = pi)) as [->|Hpine].
    + assert (p' = p) as -> by congruence. destruct (decide (i' = i)) as [->|Hii].
      * by rewrite lookup_insert_eq.
      * rewrite lookup_insert_ne by (intros [_ ?]%app_snoc_inj; congruence). by rewrite Hrest.
    + rewrite lookup_insert_ne by (intros [? _]%app_snoc_inj; congruence).
      assert (same_page m m' p') as Hsp.
      { apply Hsame; [by eapply page_ok_aligned, pt_page| |].
        - intros ->. by apply (Hfresh pi').
        - intros ->. apply Hpine. by eapply pt_inj. }
      by rewrite (same_page_ld64 m m') by done.
Qed.

Lemma new_table_tree : ptree m' root (<[pi ++ [i] := q]> T).
Proof using Type*.
  destruct Ht as [H1 H2 H3 H4 H5 H6]. split; [| | | | |apply new_table_child].
  - rewrite lookup_insert_ne; [done|]. by destruct pi.
  - intros pi' p' [[<- <-]|[_ ?]]%lookup_insert_Some; eauto.
  - intros a b x [[<- <-]|[? Ha]]%lookup_insert_Some [[<- Hx]|[? Hb]]%lookup_insert_Some;
      [done| | |eauto]; exfalso; subst; by eapply Hfresh.
  - intros pi' p' [[<- <-]|[_ ?]]%lookup_insert_Some; [|eauto].
    destruct (H4 _ _ Hp) as (_ & Hf & _). split_and!; [rewrite length_app; cbn; lia| |done].
    apply Forall_app. split; [done|by constructor].
  - intros pi' i' q' [[[-> ->]%app_snoc_inj <-]|[_ Hq']]%lookup_insert_Some.
    + exists p. rewrite lookup_insert_ne; [done|]. intros E%(f_equal length).
      rewrite length_app in E. cbn in E. lia.
    + destruct (H5 _ _ _ Hq') as [x Hx]. destruct (decide (pi ++ [i] = pi')) as [<-|].
      * exists q. by rewrite lookup_insert_eq.
      * exists x. by rewrite lookup_insert_ne.
Qed.

Lemma new_table_pte va : pte_at m' (<[pi ++ [i] := q]> T) va = pte_at m T va.
Proof using Type*.
  unfold pte_at. destruct (decide (pi ++ [i] = [PX 2 va; PX 1 va])) as [E|E].
  - rewrite <- E, lookup_insert_eq, Hnone. apply Hzero. by apply PX_range.
  - rewrite lookup_insert_ne by done. destruct (T !! [_; _]) as [r|] eqn:Er; [|done].
    apply same_page_ld64; [|by apply PX_range].
    apply Hsame; [by eapply page_ok_aligned, pt_page| |].
    + intros ->. by eapply Hfresh.
    + intros ->. pose proof (pt_inj _ _ _ Ht _ _ _ Er Hp) as <-. cbn in Hlen. lia.
Qed.
End new_table.

Definition add_table (m : ram) (q slot : Z) : ram :=
  st64 (memset (memset m q 5 PGSIZE) q 0 PGSIZE) slot (mkpte q PTE_V).

Lemma vm_add_table s l root T L pi p i q :
  vm_inv s (q :: l) root T L -> T !! pi = Some p -> (length pi < 2)%nat -> 0 <= i < 512 ->
  head_ok (pi ++ [i]) -> T !! (pi ++ [i]) = None ->
  forall s', s' = mk_memst (add_table (mram s) q (p + 8 * i)) false (ld64 (mram s) q) ->
  vm_inv s' l root (<[pi ++ [i] := q]> T) L /\ vm_frame s (q :: l) T s' /\
  vm_grows (q :: l) T l (<[pi ++ [i] := q]> T).
Proof.
  intros [Hk Ht Hf Hl] Hp Hlen Hi Hhead Hnone s' Hs'.
  pose proof (kalloc_cons s q l Hk) as Ek. destruct (kalloc_inv _ _ _ _ Hk Ek) as (Hk1 & Hq & Hni & _).
  clear Ek. assert (Hfresh : forall pi', T !! pi' <> Some q) by (intros ? E; apply (Hf _ _ E); by left).
  assert (Hpq : p <> q) by (intros ->; by eapply Hfresh).
  pose proof (page_ok_aligned _ (pt_page _ _ _ Ht _ _ Hp)) as Hap. pose proof (page_ok_aligned _ Hq) as Haq.
  assert (Hsame : forall r, aligned r -> r <> q -> r <> p -> same_page (mram s) (mram s') r).
  { intros r Hr Hrq Hrp. rewrite Hs'; cbn [mram]; unfold add_table.
    apply same_page_trans with (memset (memset (mram s) q 5 PGSIZE) q 0 PGSIZE).
    - by apply same_page_zalloc.
    - by apply same_page_st64. }
  assert (Hlink : ld64 (mram s') (p + 8 * i) = mkpte q PTE_V).
  { rewrite Hs'; cbn [mram]; unfold add_table. apply ld64_st64, mkpte_u64; done. }
  assert (Hrest : forall j, 0 <= j < 512 -> j <> i -> ld64 (mram s') (p + 8 * j) = ld64 (mram s) (p + 8 * j)).
  { intros j Hj Hji. rewrite Hs'; cbn [mram]; unfold add_table. rewrite ld64_st64_ne by lia.
    apply same_page_ld64; [|done]. by apply same_page_zalloc. }
  assert (Hzero : forall j, 0 <= j < 512 -> ld64 (mram s') (q + 8 * j) = 0).
  { intros j Hj. rewrite Hs'; cbn [mram]; unfold add_table. rewrite ld64_st64_ne; [by apply ld64_memset_zero|].
    destruct (aligned_disjoint p q Hap Haq Hpq); unfold PGSIZE in *; lia. }
  split_and!.
  - split.
    + rewrite Hs'. apply (kmem_inv_same (memset (mram s) q 5 PGSIZE)); [exact Hk1|].
      intros r Hr. pose proof (page_ok_aligned _ (kmem_inv_page _ _ _ Hk1 Hr)) as Har.
      apply same_page_trans with (memset (memset (mram s) q 5 PGSIZE) q 0 PGSIZE).
      * apply same_page_memset; [exact Har|exact Haq|intros ->; exact (Hni Hr)].
      * apply same_page_st64; [exact Har|exact Hap| |exact Hi].
        intros ->. apply (Hf _ _ Hp). by right.
    + by eapply new_table_tree.
    + intros pi' p' [[<- <-]|[_ E]]%lookup_insert_Some; [done|].
      intros Hin. apply (Hf _ _ E). by right.
    + eapply leaves_same; [|exact Hl]. intros va. by eapply new_table_pte.
  - intros r Hr Hrl Hrt. apply Hsame; [done| |].
    + intros ->. apply Hrl. by left.
    + intros ->. by eapply Hrt.
  - split.
    + intros ? ?. by right.
    + intros pi' p' E. rewrite lookup_insert_ne; [done|]. congruence.
    + intros pi' p' [[<- <-]|[_ E]]%lookup_insert_Some; [right; by left|by left].
    + unfold tpages. rewrite map_to_list_insert by exact Hnone. cbn. by rewrite Permutation_middle.
Qed.

(** ** [walk] *)

Lemma ptree_none m root T pi rest : ptree m root T -> T !! pi = None -> T !! (pi ++ rest) = None.
Proof.
  intros Ht Hn. induction rest as [|x rest IH] using rev_ind; [by rewrite app_nil_r|].
  rewrite app_assoc. destruct (T !! ((pi ++ rest) ++ [x])) as [q|] eqn:E; [|done].
  destruct (pt_parent _ _ _ Ht _ _ _ E). congruence.
Qed.

(** What a call that may add tables and leaves the mappings [L] does. *)
Record vm_ext (s : memst) (l : list Z) (root : Z) (T : tables) (L : leafmap)
    (s' : memst) (l' : list Z) (T' : tables) : Prop := {
  ex_inv : vm_inv s' l' root T' L;
  ex_frame : vm_frame s l T s';
  ex_grows : vm_grows l T l' T'
}.

Lemma vm_ext_refl s l root T L : vm_inv s l root T L -> vm_ext s l root T L s l T.
Proof. intros H. split; [exact H|apply vm_frame_refl|apply vm_grows_refl]. Qed.

Lemma vm_ext_trans s1 l1 root T1 L L' s2 l2 T2 s3 l3 T3 :
  vm_ext s1 l1 root T1 L s2 l2 T2 -> vm_ext s2 l2 root T2 L' s3 l3 T3 ->
  vm_ext s1 l1 root T1 L' s3 l3 T3.
Proof.
  intros [I1 F1 G1] [I2 F2 G2]. split; [exact I2| |].
  - exact (vm_frame_trans _ _ _ _ _ _ _ F1 G1 F2).
  - exact (vm_grows_trans _ _ _ _ _ _ G1 G2).
Qed.

(** The tables that a call adds are on given paths. *)
Definition adds (T T' : tables) (P : list Z -> Prop) : Prop := forall pi, is_Some (T' !! pi) -> is_Some (T !! pi) \/ P pi.

Lemma adds_refl T P : adds T T P.
Proof. intros pi. by left. Qed.
Lemma adds_trans T1 T2 T3 P : adds T1 T2 P -> adds T2 T3 P -> adds T1 T3 P.
Proof. intros H1 H2 pi [Hp|Hp]%H2; [by apply H1|by right]. Qed.
Lemma adds_mono T T' (P Q : list Z -> Prop) : (forall pi, P pi -> Q pi) -> adds T T' P -> adds T T' Q.
Proof. intros HPQ H pi [Hp|Hp]%H; [by left|right; by apply HPQ]. Qed.

Lemma walk_loop_paths levels pi p va alloc s l root T L :
  Forall (fun lv => 0 <= lv) levels -> vm_inv s l root T L -> T !! pi = Some p ->
  (length pi + length levels <= 2)%nat -> head_ok (pi ++ map (fun lv => PX lv va) levels) ->
  exists s' l' T',
    walk_loop levels p va alloc s = Ok (T' !! (pi ++ map (fun lv => PX lv va) levels)) s' /\
    vm_ext s l root T L s' l' T' /\ (alloc = false -> s' = s /\ l' = l /\ T' = T) /\
    (T' !! (pi ++ map (fun lv => PX lv va) levels) = None -> alloc = true -> l' = []) /\
    adds T T' (fun pi' => pi' `prefix_of` pi ++ map (fun lv => PX lv va) levels).
Proof.
  revert pi p s l T. induction levels as [|lv levels IH]; intros pi p s l T Hlv Hv Hp Hlen Hhead.
  { exists s, l, T. cbn. rewrite app_nil_r, Hp. split_and!; [done|by apply vm_ext_refl|done|done|apply adds_refl]. }
  apply Forall_cons in Hlv as [Hlv0 Hlv]. cbn [length map] in *.
  pose proof (PX_range lv va Hlv0) as Hi. set (i := PX lv va) in *.
  pose proof (pt_child _ _ _ (vi_tree _ _ _ _ _ Hv) _ _ i Hp ltac:(lia) Hi) as Hc.
  rewrite cons_middle, app_assoc in Hhead |- *. cbn [walk_loop]. fold i.
  unfold bind at 1, load64, gets. destruct (T !! (pi ++ [i])) as [q|] eqn:Eq.
  - pose proof (pt_page _ _ _ (vi_tree _ _ _ _ _ Hv) _ _ Eq) as Hq.
    destruct (mkpte_valid q Hq) as [HV HP]. rewrite Hc, HV, HP.
    apply IH; [done|done|done| |done]. rewrite length_app. cbn. lia.
  - rewrite Hc. destruct alloc; cbn [negb].
    2:{ exists s, l, T. rewrite (ptree_none _ _ _ _ _ (vi_tree _ _ _ _ _ Hv) Eq).
        split_and!; [done|by apply vm_ext_refl|done|done|apply adds_refl]. }
    destruct l as [|q l].
    { exists s, [], T. rewrite (ptree_none _ _ _ _ _ (vi_tree _ _ _ _ _ Hv) Eq).
      rewrite (bind_ok _ _ _ _ _ (kalloc_empty s (vi_kmem _ _ _ _ _ Hv))). 
      split_and!; [done|by apply vm_ext_refl|done|done|apply adds_refl]. }
    rewrite (bind_ok _ _ _ _ _ (kalloc_cons s q l (vi_kmem _ _ _ _ _ Hv))).
    destruct (vm_add_table _ _ _ _ _ pi p i q Hv Hp ltac:(lia) Hi (head_ok_prefix _ _ Hhead) Eq _ eq_refl) as (Hv' & Hf & Hg).
    assert (Hq0 : (q =? 0) = false).
    { apply Z.eqb_neq. pose proof (page_ok_pos q (kmem_inv_page _ _ q (vi_kmem _ _ _ _ _ Hv) ltac:(by left))). lia. }
    rewrite Hq0. unfold store, modify, set_ram. unfold bind at 1 2; cbn [mram kmem_lock freelist].
    destruct (IH (pi ++ [i]) q _ l _ Hlv Hv') as (s' & l' & T' & Hrun & He & _ & Hnone & Hadd).
    { by rewrite lookup_insert_eq. } { rewrite length_app. cbn. lia. } { exact Hhead. }
    exists s', l', T'. split_and!; [exact Hrun| |done|exact Hnone|].
    + eapply vm_ext_trans; [|exact He]. split; [exact Hv'|exact Hf|exact Hg].
    + eapply adds_trans; [|exact Hadd]. intros pi' [Ei|Hn]%lookup_insert_is_Some; [right|left; apply Hn].
      rewrite <- Ei. by apply prefix_app_r.
Qed.

(** The address of the entry for [va], when its table exists. *)
Definition slot (T : tables) (va : Z) : option Z :=
  match T !! [PX 2 va; PX 1 va] with
  | Some p => Some (p + 8 * PX 0 va)
  | None => None
  end.

Lemma slot_pos m root T va a : ptree m root T -> slot T va = Some a -> 0 < a.
Proof.
  unfold slot. intros Ht. destruct (T !! _) as [p|] eqn:E; [|done]. intros [= <-].
  pose proof (page_ok_pos p (pt_page _ _ _ Ht _ _ E)). pose proof (PX_range 0 va). lia.
Qed.

Lemma pte_at_slot m T va a : slot T va = Some a -> pte_at m T va = ld64 m a.
Proof. unfold slot, pte_at. destruct (T !! _); [|done]. by intros [= <-]. Qed.

Lemma pte_at_none m T va : slot T va = None -> pte_at m T va = 0.
Proof. unfold slot, pte_at. by destruct (T !! _). Qed.

Lemma walk_paths va alloc s l root T L : 0 <= va < MAXVA -> vm_inv s l root T L ->
  exists s' l' T',
    walk root va alloc s = Ok (default 0 (slot T' va)) s' /\ vm_ext s l root T L s' l' T' /\
    (alloc = false -> s' = s /\ l' = l /\ T' = T) /\ (slot T' va = None -> alloc = true -> l' = []) /\
    adds T T' (fun pi => pi `prefix_of` [PX 2 va; PX 1 va]).
Proof.
  intros Hva Hv. unfold walk. destruct (Z.leb_spec MAXVA va); [lia|].
  destruct (walk_loop_paths [2; 1] [] root va alloc s l root T L) as (s' & l' & T' & Hrun & He & Hna & Hn & Hadd).
  { apply Forall_cons; split; [lia|]. apply Forall_cons; split; [lia|constructor]. } { done. } { apply (pt_root _ _ _ (vi_tree _ _ _ _ _ Hv)). } { cbn. lia. }
  { cbn. rewrite PX_spec by lia. rewrite MAXVA_val in *. change (PXSHIFT 2) with 30. dlia. }
  exists s', l', T'. cbn [app map] in *. step_with Hrun. unfold slot. split_and!; [|done|done| |exact Hadd].
  - by destruct (T' !! _).
  - intros E Ha. apply Hn; [|done]. by destruct (T' !! _).
Qed.

Lemma walk_spec va alloc s l root T L : 0 <= va < MAXVA -> vm_inv s l root T L ->
  exists s' l' T',
    walk root va alloc s = Ok (default 0 (slot T' va)) s' /\ vm_ext s l root T L s' l' T' /\
    (alloc = false -> s' = s /\ l' = l /\ T' = T) /\ (slot T' va = None -> alloc = true -> l' = []).
Proof. intros Hva Hv. destruct (walk_paths va alloc s l root T L Hva Hv) as (s' & l' & T' & H1 & H2 & H3 & H4 & _). by exists s', l', T'. Qed.

Lemma walk_noalloc va s l root T L : 0 <= va < MAXVA -> vm_inv s l root T L ->
  walk root va false s = Ok (default 0 (slot T va)) s.
Proof.
  intros Hva Hv. destruct (walk_spec va false s l root T L Hva Hv) as (s' & l' & T' & Hr & _ & Hs & _).
  destruct (Hs eq_refl) as (-> & -> & ->). exact Hr.
Qed.

Lemma walk_bad va alloc root s : MAXVA <= va -> walk root va alloc s = Panic "walk".
Proof. intros H. unfold walk. by destruct (Z.leb_spec MAXVA va); [|lia]. Qed.

(** Reading the entry of [va] through the map. *)
Lemma leaves_lookup m T L va : leaves m T L -> 0 <= va < MAXVA -> aligned va ->
  L !! va = if has (pte_at m T va) PTE_V then Some (pte_at m T va) else None.
Proof.
  intros Hl Hva Ha. destruct (has (pte_at m T va) PTE_V) eqn:E.
  - apply Hl. done.
  - destruct (L !! va) as [e|] eqn:El; [|done]. apply Hl in El as (_ & _ & <- & He). congruence.
Qed.

(** ** Writing one entry *)

Lemma pte_at_st64 m root T va va' a e : ptree m root T -> slot T va = Some a -> 0 <= e < 2 ^ 64 ->
  0 <= va < MAXVA -> aligned va -> 0 <= va' < MAXVA -> aligned va' ->
  pte_at (st64 m a e) T va' = if decide (va' = va) then e else pte_at m T va'.
Proof.
  intros Ht Hs He Hva Ha Hva' Ha'. case_decide as Hc.
  - subst. rewrite (pte_at_slot _ _ _ _ Hs). by apply ld64_st64.
  - unfold slot in Hs. destruct (T !! [PX 2 va; PX 1 va]) as [p|] eqn:E; [|done].
    injection Hs as <-. unfold pte_at. destruct (T !! [PX 2 va'; PX 1 va']) as [p'|] eqn:E'; [|done].
    pose proof (PX_range 0 va). pose proof (PX_range 0 va'). destruct (decide (p = p')) as [<-|Hne].
    + pose proof (pt_inj _ _ _ Ht _ _ _ E E') as [= E2 E1].
      apply ld64_st64_ne. destruct (decide (PX 0 va = PX 0 va')) as [E0|]; [|lia].
      destruct Hc. by apply PX_inj.
    + apply same_page_ld64; [|lia]. apply same_page_st64; [| |congruence|lia];
        by eapply page_ok_aligned, pt_page.
Qed.

Definition upd_leaf (L : leafmap) (va e : Z) : leafmap :=
  if has e PTE_V then <[va := e]> L else delete va L.

Lemma leaves_st64 m root T L va a e : ptree m root T -> leaves m T L -> slot T va = Some a ->
  0 <= e < 2 ^ 64 -> 0 <= va < MAXVA -> aligned va -> leaves (st64 m a e) T (upd_leaf L va e).
Proof.
  intros Ht Hl Hs He Hva Ha va' e'. unfold upd_leaf.
  destruct (decide (va' = va)) as [->|Hne].
  - rewrite (pte_at_st64 m root T va va a e) by done. rewrite decide_True by done.
    destruct (has e PTE_V) eqn:E.
    + rewrite lookup_insert_eq. split; [by intros [= <-]|by intros (_ & _ & <- & _)].
    + rewrite lookup_delete_eq. split; [done|]. intros (_ & _ & <- & ?). congruence.
  - transitivity (L !! va' = Some e').
    { destruct (has e PTE_V); [by rewrite lookup_insert_ne by done|by rewrite lookup_delete_ne by done]. }
    rewrite (Hl va' e'). split; intros (Hr & Hal & Hp & Hv); split_and!; try done; try lia;
      [rewrite (pte_at_st64 m root T va va' a e)|rewrite (pte_at_st64 m root T va va' a e) in Hp];
      try done; by rewrite decide_False in *.
Qed.

Lemma vm_set_pte s l root T L va a e : vm_inv s l root T L -> slot T va = Some a ->
  0 <= e < 2 ^ 64 -> 0 <= va < MAXVA -> aligned va ->
  vm_ext s l root T (upd_leaf L va e) (set_ram s (st64 (mram s) a e)) l T.
Proof.
  intros [Hk Ht Hf Hl] Hs He Hva Ha. pose proof Hs as Hs'. unfold slot in Hs'.
  destruct (T !! [PX 2 va; PX 1 va]) as [p|] eqn:E; [|done]. injection Hs' as <-.
  pose proof (page_ok_aligned _ (pt_page _ _ _ Ht _ _ E)) as Hap. pose proof (PX_range 0 va).
  assert (Hsame : forall r, aligned r -> r <> p ->
    same_page (mram s) (st64 (mram s) (p + 8 * PX 0 va) e) r).
  { intros r Hr Hne. apply same_page_st64; [exact Hr|exact Hap|exact Hne|lia]. }
  split; [split| |apply vm_grows_refl].
  - destruct s as [m lk fl]. apply (kmem_inv_same m); [exact Hk|]. intros r Hr. apply Hsame.
    + exact (page_ok_aligned _ (kmem_inv_page _ _ _ Hk Hr)).
    + intros ->. exact (Hf _ _ E Hr).
  - apply (ptree_same (mram s)); [|exact Ht]. intros pi r Hr Hlen. apply Hsame.
    + exact (page_ok_aligned _ (pt_page _ _ _ Ht _ _ Hr)).
    + intros ->. pose proof (pt_inj _ _ _ Ht _ _ _ E Hr) as <-. cbn in Hlen. lia.
  - exact Hf.
  - by apply leaves_st64 with root.
  - intros r Hr _ Hrt. apply Hsame; [exact Hr|]. intros ->. exact (Hrt _ E).
Qed.
End layout.
