(* ===== verification/VmOps.v ===== *)
(** * What the routines of kernel/vm.c do to an address space

    Each routine is shown to act on the abstract map from virtual pages to
    page-table entries ([VmSpec]) and on the set of free pages. *)

From stdpp Require Import base gmap list numbers strings.
From Stdlib Require Import ZArith Lia.
From S2P Require Import Prelude Riscv Mem Spinlock Kalloc Vm VmSpec.
Open Scope Z_scope.
Open Scope kernel_scope.

(** [k] pages from [a] mapped to consecutive physical pages from [pa]. *)
Fixpoint map_range (k : nat) (L : leafmap) (a pa perm : Z) : leafmap :=
  match k with
  | O => L
  | S k' => map_range k' (<[a := mkpte pa (Z.lor perm PTE_V)]> L) (a + PGSIZE) (pa + PGSIZE) perm
  end.

Lemma map_range_lookup k L a pa perm va : aligned a -> aligned va ->
  map_range k L a pa perm !! va =
    if (a <=? va) && (va <? a + Z.of_nat k * PGSIZE)
    then Some (mkpte (pa + (va - a)) (Z.lor perm PTE_V)) else L !! va.
Proof.
  revert L a pa. induction k as [|k IH]; intros L a pa Ha Hva; cbn [map_range].
  - destruct (Z.leb_spec a va), (Z.ltb_spec va (a + Z.of_nat 0 * PGSIZE)); cbn; auto; lia.
  - rewrite IH; [|unfold aligned, PGSIZE in *; dlia|done].
    destruct (decide (va = a)) as [->|Hne].
    + rewrite lookup_insert_eq. replace (pa + (a - a)) with pa by lia.
      destruct (Z.leb_spec (a + PGSIZE) a), (Z.leb_spec a a), (Z.ltb_spec a (a + Z.of_nat (S k) * PGSIZE));
        cbn [andb]; auto; unfold PGSIZE in *; lia.
    + rewrite lookup_insert_ne by done.
      destruct (Z.leb_spec (a + PGSIZE) va), (Z.ltb_spec va (a + PGSIZE + Z.of_nat k * PGSIZE)),
        (Z.leb_spec a va), (Z.ltb_spec va (a + Z.of_nat (S k) * PGSIZE)); cbn [andb]; auto;
        try (unfold aligned, PGSIZE in *; exfalso; dlia).
      f_equal; f_equal; lia.
Qed.

Lemma aligned_add a k : aligned a -> aligned (a + k * PGSIZE).
Proof. unfold aligned. by rewrite Z_mod_plus_full. Qed.
Lemma aligned_next a : aligned a -> aligned (a + PGSIZE).
Proof. intros. replace (a + PGSIZE) with (a + 1 * PGSIZE) by lia. by apply aligned_add. Qed.

Lemma has_valid pa perm : 0 <= pa < 2 ^ 56 -> 0 <= perm < 2 ^ 10 ->
  has (mkpte pa (Z.lor perm PTE_V)) PTE_V = true /\ 0 <= Z.lor perm PTE_V < 2 ^ 10.
Proof.
  intros Hpa Hp. assert (0 <= Z.lor perm PTE_V < 2 ^ 10) as Hr by (by apply lor_range).
  split; [|done]. change PTE_V with (Z.shiftl 1 0) at 2. rewrite has_mkpte by done.
  by rewrite Z.lor_spec, orb_true_r.
Qed.

Section ops.
Context {img : KernelImage} {imgok : KernelImageOk img}.

(** ** mappages *)

(** The tables that the pages of [lo, hi) need. *)
Definition on_path (lo hi : Z) (pi : list Z) : Prop := exists va, lo <= va < hi /\ pi `prefix_of` [PX 2 va; PX 1 va].

Lemma on_path_mono lo hi lo' hi' pi : lo' <= lo -> hi <= hi' -> on_path lo hi pi -> on_path lo' hi' pi.
Proof. intros Hl Hh (va & Hva & Hp). exists va. split; [lia|done]. Qed.

Lemma mappages_loop_spec n root a pa perm s l T L :
  vm_inv s l root T L -> aligned a -> 0 <= a -> (0 < n)%nat -> a + Z.of_nat n * PGSIZE <= MAXVA ->
  0 <= pa -> pa + Z.of_nat n * PGSIZE <= 2 ^ 56 -> 0 <= perm < 2 ^ 10 ->
  (forall k, 0 <= k < Z.of_nat n -> L !! (a + k * PGSIZE) = None) ->
  exists r s' l' T' k,
    mappages_loop n root a (a + (Z.of_nat n - 1) * PGSIZE) pa perm s = Ok r s' /\
    vm_ext s l root T (map_range k L a pa perm) s' l' T' /\
    ((r = 0 /\ k = n) \/ (r = -1 /\ (k < n)%nat /\ l' = [])) /\
    adds T T' (on_path a (a + Z.of_nat n * PGSIZE)).
Proof.
  revert a pa s l T L. induction n as [|n IH]; intros a pa s l T L Hv Ha Ha0 Hn Hmax Hpa Hpa2 Hperm Hfree; [lia|].
  cbn [mappages_loop]. assert (Hva : 0 <= a < MAXVA) by (unfold PGSIZE in *; lia).
  destruct (walk_paths a true s l root T L Hva Hv) as (s1 & l1 & T1 & Hw & He1 & _ & Hnone & Hadd1).
  apply (adds_mono _ _ _ (on_path a (a + Z.of_nat (S n) * PGSIZE))) in Hadd1; [|by intros pi Hpi; exists a; split; [unfold PGSIZE; lia|]].
  step_with Hw. destruct (slot T1 a) as [pte|] eqn:Es; cbn [default from_option id].
  2:{ cbn. exists (-1), s1, l1, T1, O. split_and!; [done|exact He1| |exact Hadd1]. right. split_and!; auto with lia. }
  pose proof (ex_inv _ _ _ _ _ _ _ _ He1) as Hv1.
  pose proof (slot_pos _ _ _ _ _ (vi_tree _ _ _ _ _ Hv1) Es) as Hpos.
  destruct (Z.eqb_spec pte 0); [lia|].
  assert (Hnv : has (ld64 (mram s1) pte) PTE_V = false).
  { pose proof (Hfree 0 ltac:(lia)) as Hf0. rewrite Z.mul_0_l, Z.add_0_r in Hf0.
    rewrite (leaves_lookup _ _ _ _ (vi_leaves _ _ _ _ _ Hv1) Hva Ha), (pte_at_slot _ _ _ _ Es) in Hf0.
    by destruct (has _ _). }
  unfold load64 at 1, gets. unfold bind at 1. rewrite Hnv.
  destruct (has_valid pa perm) as [HV HR]; [unfold PGSIZE in *; lia|done|].
  set (e := mkpte pa (Z.lor perm PTE_V)) in *.
  replace (Z.lor (Z.lor (PA2PTE pa) perm) PTE_V) with e by (unfold e, mkpte; apply Z.lor_assoc).
  assert (He : 0 <= e < 2 ^ 64).
  { pose proof (mkpte_range pa (Z.lor perm PTE_V) ltac:(unfold PGSIZE in *; lia) HR). unfold e. lia. }
  pose proof (vm_set_pte _ _ _ _ _ _ _ _ Hv1 Es He Hva Ha) as He2.
  unfold upd_leaf in He2. rewrite HV in He2. pose proof (vm_ext_trans _ _ _ _ _ _ _ _ _ _ _ _ He1 He2) as He12.
  unfold store, modify, bind at 1. destruct (Z.eqb_spec a (a + (Z.of_nat (S n) - 1) * PGSIZE)) as [Hlast|Hlast].
  - assert (n = O) as -> by (unfold PGSIZE in *; lia).
    eexists 0, _, l1, T1, 1%nat. split_and!; [reflexivity|exact He12|by left|exact Hadd1].
  - rewrite (u64_small (a + PGSIZE)), (u64_small (pa + PGSIZE)) by (rewrite MAXVA_val in *; unfold PGSIZE in *; lia).
    replace (a + (Z.of_nat (S n) - 1) * PGSIZE) with (a + PGSIZE + (Z.of_nat n - 1) * PGSIZE) by lia.
    destruct (IH (a + PGSIZE) (pa + PGSIZE) _ _ _ _ (ex_inv _ _ _ _ _ _ _ _ He2))
      as (r & s' & l' & T' & k & Hrun & He3 & Hr & Hadd); try (unfold PGSIZE in *; lia).
    + by apply aligned_next.
    + intros k Hk. rewrite lookup_insert_ne by (unfold PGSIZE; lia).
      replace (a + PGSIZE + k * PGSIZE) with (a + (k + 1) * PGSIZE) by lia. apply Hfree. lia.
    + exists r, s', l', T', (S k). split_and!; [exact Hrun|exact (vm_ext_trans _ _ _ _ _ _ _ _ _ _ _ _ He12 He3)| |].
      2:{ eapply adds_trans; [exact Hadd1|]. eapply adds_mono; [|exact Hadd]. intros pi. apply on_path_mono; unfold PGSIZE; lia. }
      destruct Hr as [[-> ->]|(-> & ? & ->)]; [by left|right; split_and!; auto with lia].
Qed.

(** [mappages] within bounds on unmapped pages: it maps a prefix of the
    range, all of it unless memory runs out. *)
Lemma mappages_paths root va size pa perm s l T L :
  vm_inv s l root T L -> aligned va -> aligned size -> 0 <= va -> 0 < size -> va + size <= MAXVA ->
  0 <= pa -> pa + size <= 2 ^ 56 -> 0 <= perm < 2 ^ 10 ->
  (forall k, 0 <= k < size / PGSIZE -> L !! (va + k * PGSIZE) = None) ->
  exists r s' l' T' k, mappages root va size pa perm s = Ok r s' /\
    vm_ext s l root T (map_range k L va pa perm) s' l' T' /\
    ((r = 0 /\ Z.of_nat k = size / PGSIZE) \/ (r = -1 /\ Z.of_nat k < size / PGSIZE /\ l' = [])) /\
    adds T T' (on_path va (va + size)).
Proof.
  intros Hv Ha Hs Hva Hsz Hmax Hpa Hpa2 Hperm Hfree. unfold mappages. unfold aligned in Ha, Hs.
  rewrite (proj2 (Z.eqb_eq _ _) Ha), (proj2 (Z.eqb_eq _ _) Hs). cbn [negb].
  destruct (Z.eqb_spec size 0) as [|_]; [lia|].
  rewrite u64_small by (rewrite MAXVA_val in Hmax; unfold PGSIZE in *; dlia).
  assert (Hn : 0 < size / PGSIZE /\ size = Z.of_nat (Z.to_nat (size / PGSIZE)) * PGSIZE) by (unfold PGSIZE in *; dlia).
  set (n := Z.to_nat (size / PGSIZE)) in *. assert (Z.of_nat n = size / PGSIZE) as Hnn by lia.
  replace (va + size - PGSIZE) with (va + (Z.of_nat n - 1) * PGSIZE) by lia.
  destruct (mappages_loop_spec n root va pa perm s l T L) as (r & s' & l' & T' & k & Hrun & He & Hr & Hadd);
    try done; try lia.
  { intros k Hk. apply Hfree. lia. }
  exists r, s', l', T', k. split_and!; [exact Hrun|exact He| |replace (va + size) with (va + Z.of_nat n * PGSIZE) by lia; exact Hadd]. destruct Hr as [[-> ->]|(-> & ? & ->)]; [left|right]; split_and!; auto; lia.
Qed.

Lemma mappages_run root va size pa perm s l T L :
  vm_inv s l root T L -> aligned va -> aligned size -> 0 <= va -> 0 < size -> va + size <= MAXVA ->
  0 <= pa -> pa + size <= 2 ^ 56 -> 0 <= perm < 2 ^ 10 ->
  (forall k, 0 <= k < size / PGSIZE -> L !! (va + k * PGSIZE) = None) ->
  exists r s' l' T' k, mappages root va size pa perm s = Ok r s' /\
    vm_ext s l root T (map_range k L va pa perm) s' l' T' /\
    ((r = 0 /\ Z.of_nat k = size / PGSIZE) \/ (r = -1 /\ Z.of_nat k < size / PGSIZE /\ l' = [])).
Proof.
  intros. destruct (mappages_paths root va size pa perm s l T L) as (r & s' & l' & T' & k & Hrun & He & Hr & _); try done.
  by exists r, s', l', T', k.
Qed.

(** ** User address spaces

    Below [lim] every mapped page belongs to the process: it is a page of
    allocatable memory, not free, not a table, and mapped once. *)
Record uvm_inv (s : memst) (l : list Z) (root : Z) (T : tables) (L : leafmap) (lim : Z) : Prop := {
  ui_vm : vm_inv s l root T L;
  ui_lim : 0 <= lim <= MAXVA;
  ui_own : forall va e, L !! va = Some e -> va < lim ->
    page_ok (PTE2PA e) /\ ~ PTE2PA e ∈ l /\ forall pi, T !! pi <> Some (PTE2PA e);
  ui_inj : forall va va' e e', L !! va = Some e -> L !! va' = Some e' -> va < lim -> va' < lim ->
    PTE2PA e = PTE2PA e' -> va = va'
}.

Lemma vm_kfree s l root T L pa : vm_inv s l root T L -> page_ok pa -> ~ pa ∈ l ->
  (forall pi, T !! pi <> Some pa) ->
  exists s1, kfree pa s = Ok tt s1 /\ vm_inv s1 (pa :: l) root T L /\
    forall p, aligned p -> p <> pa -> same_page (mram s) (mram s1) p.
Proof.
  intros [Hk Ht Hf Hl] Hpa Hni Hnt. pose proof (kfree_ok s l pa Hk Hpa Hni) as Hrun.
  destruct (kfree_inv s l pa _ Hk Hpa Hni Hrun) as [Hk1 Hout].
  match type of Hrun with _ = Ok _ ?x => set (s1 := x) in * end. clearbody s1.
  assert (Hsame : forall p, aligned p -> p <> pa -> same_page (mram s) (mram s1) p).
  { intros p Hp Hne off Hoff. apply Hout.
    destruct (aligned_disjoint p pa Hp (page_ok_aligned _ Hpa) Hne); lia. }
  exists s1. split_and!; [exact Hrun| |exact Hsame].
  destruct (vm_inv_tables_same s s1 root T L) as [Ht1 Hl1]; [|exact Ht|exact Hl|].
  { intros pi p Hp. apply Hsame; [exact (page_ok_aligned _ (pt_page _ _ _ Ht _ _ Hp))|].
    intros ->. exact (Hnt _ Hp). }
  split; [exact Hk1|exact Ht1| |exact Hl1].
  intros pi p Hp [->|Hin]%elem_of_cons; [exact (Hnt _ Hp)|exact (Hf _ _ Hp Hin)].
Qed.

(** [n] pages from [a] unmapped, their frames pushed on the free list. *)
Fixpoint unmap_range (n : nat) (L : leafmap) (a : Z) (l : list Z) : leafmap * list Z :=
  match n with
  | O => (L, l)
  | S n' =>
      match L !! a with
      | Some e => unmap_range n' (delete a L) (a + PGSIZE) (PTE2PA e :: l)
      | None => unmap_range n' L (a + PGSIZE) l
      end
  end.

Lemma unmap_range_mono n L a l p : p ∈ l -> p ∈ snd (unmap_range n L a l).
Proof.
  revert L a l. induction n as [|n IH]; intros L a l Hp; cbn; [done|].
  destruct (L !! a); apply IH; [by right|done].
Qed.

(** One page freed and its entry cleared. *)
Lemma unmap_one s l root T L lim va e pte : uvm_inv s l root T L lim -> L !! va = Some e -> va < lim ->
  slot T va = Some pte ->
  exists s1, (kfree (PTE2PA e) ;;; store (fun m => st64 m pte 0)) s = Ok tt s1 /\
    uvm_inv s1 (PTE2PA e :: l) root T (delete va L) lim /\ vm_frame s (PTE2PA e :: l) T s1.
Proof.
  intros [Hv Hlim Hown Hinj] HL Hlt Hs. destruct (Hown _ _ HL Hlt) as (Hok & Hni & Hnt).
  pose proof (vi_leaves _ _ _ _ _ Hv) as Hlv. apply Hlv in HL as HL'. destruct HL' as (Hva & Ha & _).
  destruct (vm_kfree s l root T L (PTE2PA e) Hv Hok Hni Hnt) as (s1 & Hrun & Hv1 & Hsame).
  destruct (vm_set_pte s1 _ root T L va pte 0 Hv1 Hs ltac:(lia) Hva Ha) as [Hv2 Hf2 _].
  exists (set_ram s1 (st64 (mram s1) pte 0)). split_and!; [by step_with Hrun| |].
  - split; [exact Hv2|exact Hlim| |].
    + intros va' e' HL' Hlt'. apply lookup_delete_Some in HL' as [Hne HL'].
      destruct (Hown _ _ HL' Hlt') as (? & Hni' & ?). split_and!; [done| |done].
      intros [E|Hin]%elem_of_cons; [|done]. apply Hne. symmetry. by eapply Hinj.
    + intros va1 va2 e1 e2 [_ H1]%lookup_delete_Some [_ H2]%lookup_delete_Some. by apply Hinj.
  - intros p Hp Hpl Hpt. apply same_page_trans with (mram s1).
    + apply Hsame; [exact Hp|]. intros ->. apply Hpl. by left.
    + apply Hf2; done.
Qed.

(** Reading an entry after [walk]: the map tells whether it is valid. *)
Lemma lookup_slot s l root T L va : vm_inv s l root T L -> 0 <= va < MAXVA -> aligned va ->
  match slot T va with
  | Some pte => pte <> 0 /\ (if has (ld64 (mram s) pte) PTE_V then L !! va = Some (ld64 (mram s) pte)
                             else L !! va = None)
  | None => L !! va = None
  end.
Proof.
  intros Hv Hva Ha. rewrite (leaves_lookup _ _ _ _ (vi_leaves _ _ _ _ _ Hv) Hva Ha).
  destruct (slot T va) as [pte|] eqn:Es.
  - rewrite (pte_at_slot _ _ _ _ Es). pose proof (slot_pos _ _ _ _ _ (vi_tree _ _ _ _ _ Hv) Es).
    split; [lia|]. by destruct (has _ _).
  - by rewrite (pte_at_none _ _ _ Es).
Qed.

Lemma uvmunmap_loop_spec n root a s l T L lim :
  uvm_inv s l root T L lim -> aligned a -> 0 <= a -> a + Z.of_nat n * PGSIZE < lim + PGSIZE ->
  exists s', uvmunmap_loop n root a (a + Z.of_nat n * PGSIZE) true s = Ok tt s' /\
    uvm_inv s' (unmap_range n L a l).2 root T (unmap_range n L a l).1 lim /\
    vm_frame s (unmap_range n L a l).2 T s'.
Proof.
  revert a s l L. induction n as [|n IH]; intros a s l L Hu Ha Ha0 Hlim.
  { exists s. cbn [uvmunmap_loop]. destruct (Z.ltb_spec a (a + Z.of_nat 0 * PGSIZE)); [lia|].
    split_and!; [done|exact Hu|apply vm_frame_refl]. }
  pose proof (ui_vm _ _ _ _ _ _ Hu) as Hv. pose proof (ui_lim _ _ _ _ _ _ Hu) as Hl.
  assert (Hlt : a < lim) by (unfold PGSIZE in *; lia). assert (Hva : 0 <= a < MAXVA) by lia.
  assert (IH' : forall s1 l1 L1, uvm_inv s1 l1 root T L1 lim ->
    exists s', uvmunmap_loop n root (u64 (a + PGSIZE)) (a + Z.of_nat (S n) * PGSIZE) true s1 = Ok tt s' /\
      uvm_inv s' (unmap_range n L1 (a + PGSIZE) l1).2 root T (unmap_range n L1 (a + PGSIZE) l1).1 lim /\
      vm_frame s1 (unmap_range n L1 (a + PGSIZE) l1).2 T s').
  { intros s1 l1 L1 H1. rewrite u64_small by (rewrite MAXVA_val in *; unfold PGSIZE in *; lia).
    replace (a + Z.of_nat (S n) * PGSIZE) with (a + PGSIZE + Z.of_nat n * PGSIZE) by lia.
    apply IH; [exact H1|by apply aligned_next|unfold PGSIZE; lia|lia]. }
  cbn [uvmunmap_loop unmap_range]. destruct (Z.ltb_spec a (a + Z.of_nat (S n) * PGSIZE)); [|unfold PGSIZE in *; lia].
  step_with (walk_noalloc a s l root T L Hva Hv).
  pose proof (lookup_slot s l root T L a Hv Hva Ha) as Hslot.
  destruct (slot T a) as [pte|] eqn:Es; cbn [default from_option id].
  2:{ rewrite Hslot. cbn. by apply IH'. }
  destruct Hslot as [Hpte Hslot]. destruct (Z.eqb_spec pte 0) as [|_]; [done|].
  unfold load64, gets. unfold bind at 1. destruct (has (ld64 (mram s) pte) PTE_V); rewrite Hslot; cbn [negb].
  2:{ by apply IH'. }
  destruct (unmap_one s l root T L lim a _ pte Hu Hslot Hlt Es) as (s1 & Hrun & Hu1 & Hf1).
  cbn [when]. rewrite <- bind_assoc. step_with Hrun.
  destruct (IH' s1 _ _ Hu1) as (s' & Hrun' & Hu' & Hf'). exists s'. split_and!; [exact Hrun'|exact Hu'|].
  intros p Hp Hpl Hpt. apply same_page_trans with (mram s1).
  - apply Hf1; [exact Hp| |exact Hpt]. intros Hin. apply Hpl. by apply unmap_range_mono.
  - by apply Hf'.
Qed.

Lemma unmap_range_lookup n L a l va : aligned a -> aligned va ->
  (unmap_range n L a l).1 !! va =
    if (a <=? va) && (va <? a + Z.of_nat n * PGSIZE) then None else L !! va.
Proof.
  revert L a l. induction n as [|n IH]; intros L a l Ha Hva; cbn [unmap_range].
  - destruct (Z.leb_spec a va), (Z.ltb_spec va (a + Z.of_nat 0 * PGSIZE)); cbn; auto; lia.
  - assert (Hstep : forall L1 l1, L1 !! a = None -> (forall x, x <> a -> L1 !! x = L !! x) ->
      (unmap_range n L1 (a + PGSIZE) l1).1 !! va =
      if (a <=? va) && (va <? a + Z.of_nat (S n) * PGSIZE) then None else L !! va).
    { intros L1 l1 H1 H2. rewrite IH by (done || by apply aligned_next).
      destruct (decide (va = a)) as [->|Hne]; [rewrite H1|rewrite (H2 va Hne)];
        destruct (Z.leb_spec (a + PGSIZE) va), (Z.ltb_spec va (a + PGSIZE + Z.of_nat n * PGSIZE)),
        (Z.leb_spec a va), (Z.ltb_spec va (a + Z.of_nat (S n) * PGSIZE)) || 
        destruct (Z.leb_spec (a + PGSIZE) a), (Z.ltb_spec a (a + PGSIZE + Z.of_nat n * PGSIZE)),
        (Z.leb_spec a a), (Z.ltb_spec a (a + Z.of_nat (S n) * PGSIZE)); cbn [andb]; auto;
        unfold aligned, PGSIZE in *; exfalso; dlia. }
    destruct (L !! a) eqn:E; apply Hstep;
      [apply lookup_delete_eq|intros x Hx; by rewrite lookup_delete_ne|exact E|done].
Qed.

Lemma unmap_range_free n L a l p : aligned a ->
  p ∈ (unmap_range n L a l).2 <->
  p ∈ l \/ exists k e, 0 <= k < Z.of_nat n /\ L !! (a + k * PGSIZE) = Some e /\ p = PTE2PA e.
Proof.
  revert L a l. induction n as [|n IH]; intros L a l Ha; cbn [unmap_range].
  { split; [by left|]. intros [?|(k & e & ? & _)]; [done|lia]. }
  assert (Hsplit : forall L1 l1, (forall x, a < x -> L1 !! x = L !! x) ->
    p ∈ (unmap_range n L1 (a + PGSIZE) l1).2 <->
    p ∈ l1 \/ exists k e, 0 < k < Z.of_nat (S n) /\ L !! (a + k * PGSIZE) = Some e /\ p = PTE2PA e).
  { intros L1 l1 H1. rewrite IH by (by apply aligned_next). f_equiv. split; intros (k & e & Hk & He & ->).
    - exists (k + 1), e. split_and!; [lia|lia| |done]. rewrite <- H1 by (unfold PGSIZE; lia).
      by replace (a + (k + 1) * PGSIZE) with (a + PGSIZE + k * PGSIZE) by lia.
    - exists (k - 1), e. split_and!; [lia|lia| |done]. rewrite H1 by (unfold PGSIZE; lia).
      by replace (a + PGSIZE + (k - 1) * PGSIZE) with (a + k * PGSIZE) by lia. }
  assert (H0 : forall e, L !! (a + 0 * PGSIZE) = Some e <-> L !! a = Some e) by (intros; by rewrite Z.add_0_r).
  destruct (L !! a) as [e|] eqn:E; rewrite Hsplit.
  - rewrite elem_of_cons. split.
    + intros [[->|?]|(k & e' & ? & ? & ->)]; [right; exists 0, e|by left|right; exists k, e'];
        split_and!; auto; try lia; by apply H0.
    + intros [?|(k & e' & Hk & He & ->)]; [auto|]. destruct (decide (k = 0)) as [->|].
      * apply H0 in He. left; left. congruence.
      * right. exists k, e'. split_and!; auto; lia.
  - intros x Hx. rewrite lookup_delete_ne; [done|lia].
  - split; [intros [?|(k & e' & ? & ? & ->)]; [by left|right; exists k, e'; split_and!; auto; lia]|].
    intros [?|(k & e' & Hk & He & ->)]; [auto|]. destruct (decide (k = 0)) as [->|].
    + apply H0 in He. congruence.
    + right. exists k, e'. split_and!; auto; lia.
  - done.
Qed.

(** [uvmunmap] with [do_free] removes exactly the mappings of its
    range (pages never touched are skipped), gives exactly their frames back
    to the allocator, and leaves every other page of memory as it was. *)
Theorem uvmunmap_frees root va npages s l T L lim :
  uvm_inv s l root T L lim -> aligned va -> 0 <= va -> 0 <= npages -> va + npages * PGSIZE < lim + PGSIZE ->
  exists s' l' L', uvmunmap root va npages true s = Ok tt s' /\ uvm_inv s' l' root T L' lim /\
    (forall x, aligned x -> L' !! x = if (va <=? x) && (x <? va + npages * PGSIZE) then None else L !! x) /\
    (forall p, p ∈ l' <-> p ∈ l \/ exists k e, 0 <= k < npages /\ L !! (va + k * PGSIZE) = Some e /\ p = PTE2PA e) /\
    vm_frame s l' T s'.
Proof.
  intros Hu Ha Hva Hn Hlim. unfold uvmunmap. pose proof (ui_lim _ _ _ _ _ _ Hu).
  rewrite (proj2 (Z.eqb_eq _ _) Ha). cbn [negb].
  rewrite u64_small by (rewrite MAXVA_val in *; unfold PGSIZE in *; lia).
  destruct (uvmunmap_loop_spec (Z.to_nat npages) root va s l T L lim) as (s' & Hrun & Hu' & Hf);
    [done|done|done|by rewrite Z2Nat.id|]. rewrite Z2Nat.id in Hrun by done.
  exists s', (unmap_range (Z.to_nat npages) L va l).2, (unmap_range (Z.to_nat npages) L va l).1.
  split_and!; [exact Hrun|exact Hu'| | |exact Hf].
  - intros x Hx. rewrite unmap_range_lookup by done. by rewrite Z2Nat.id.
  - intros p. rewrite unmap_range_free by done. by rewrite Z2Nat.id.
Qed.

(** ** Adding user pages *)

Lemma uvm_inv_ext s l root T L lim s' l' T' : uvm_inv s l root T L lim ->
  vm_ext s l root T L s' l' T' -> uvm_inv s' l' root T' L lim.
Proof.
  intros [Hv Hlim Hown Hinj] [Hv' _ [G1 G2 G3 _]]. split; [exact Hv'|exact Hlim| |exact Hinj].
  intros va e HL Hlt. destruct (Hown va e HL Hlt) as (Hok & Hni & Hnt). split_and!; [exact Hok|auto|].
  intros pi Hpi. destruct (G3 _ _ Hpi); [by eapply Hnt|done].
Qed.

(** [kalloc] pops a page nobody uses; what is stored in it afterwards does
    not matter to the address space. *)
Lemma uvm_take s q l root T L lim m1 : uvm_inv s (q :: l) root T L lim ->
  (forall p, aligned p -> p <> q -> same_page (mram s) m1 p) ->
  page_ok q /\ ~ q ∈ l /\ (forall pi, T !! pi <> Some q) /\
  (forall va e, L !! va = Some e -> va < lim -> PTE2PA e <> q) /\
  uvm_inv (mk_memst m1 false (ld64 (mram s) q)) l root T L lim.
Proof.
  intros [[Hk Ht Hf Hl] Hlim Hown Hinj] Hsame.
  destruct (kalloc_inv _ _ _ _ Hk (kalloc_cons s q l Hk)) as (Hk1 & Hq & Hni & _).
  assert (Hnt : forall pi, T !! pi <> Some q) by (intros pi Hpi; apply (Hf _ _ Hpi); by left).
  destruct (vm_inv_tables_same s (mk_memst m1 false (ld64 (mram s) q)) root T L) as [Ht1 Hl1];
    [|exact Ht|exact Hl|].
  { intros pi p Hp. apply Hsame; [exact (page_ok_aligned _ (pt_page _ _ _ Ht _ _ Hp))|].
    intros ->. exact (Hnt _ Hp). }
  split_and!; [exact Hq|exact Hni|exact Hnt| |].
  { intros va e HL Hlt <-. destruct (Hown _ _ HL Hlt) as (_ & Hn & _). apply Hn. by left. }
  split; [split|exact Hlim| |exact Hinj].
  - apply (kmem_inv_same (memset (mram s) q 5 PGSIZE)); [exact Hk1|]. intros p Hp.
    pose proof (page_ok_aligned _ (kmem_inv_page _ _ _ Hk1 Hp)) as Hap.
    assert (p <> q) as Hne by (intros ->; exact (Hni Hp)). intros off Hoff.
    rewrite (Hsame p Hap Hne off Hoff). symmetry.
    exact (same_page_memset (mram s) p q 5 Hap (page_ok_aligned _ Hq) Hne off Hoff).
  - exact Ht1.
  - intros pi p Hp Hin. apply (Hf _ _ Hp). by right.
  - exact Hl1.
  - intros va e HL Hlt. destruct (Hown _ _ HL Hlt) as (? & Hn & ?). split_and!; [done| |done].
    intros Hin. apply Hn. by right.
Qed.

Lemma PTE2PA_leaf q perm : page_ok q -> 0 <= perm < 2 ^ 10 -> PTE2PA (mkpte q (Z.lor perm PTE_V)) = q.
Proof.
  intros Hq Hp. destruct (has_valid q perm (page_ok_pa q Hq) Hp) as [_ Hr].
  apply PTE2PA_mkpte; [exact (page_ok_pa q Hq)|by destruct Hq|exact Hr].
Qed.

(** A page the process does not have yet becomes its page at [a]. *)
Lemma uvm_insert s l root T L lim q a perm s' l' T' :
  uvm_inv s l root T L lim -> page_ok q -> ~ q ∈ l -> (forall pi, T !! pi <> Some q) ->
  (forall va e, L !! va = Some e -> va < lim -> PTE2PA e <> q) -> 0 <= perm < 2 ^ 10 ->
  vm_ext s l root T (<[a := mkpte q (Z.lor perm PTE_V)]> L) s' l' T' ->
  uvm_inv s' l' root T' (<[a := mkpte q (Z.lor perm PTE_V)]> L) lim.
Proof.
  intros [Hv Hlim Hown Hinj] Hq Hni Hnt Hnew Hperm [Hv' _ [G1 G2 G3 _]].
  pose proof (PTE2PA_leaf q perm Hq Hperm) as Hpa. split; [exact Hv'|exact Hlim| |].
  - intros va e [[<- <-]|[_ HL]]%lookup_insert_Some Hlt.
    + rewrite Hpa. split_and!; [exact Hq|auto|]. intros pi Hpi. destruct (G3 _ _ Hpi); [by eapply Hnt|done].
    + destruct (Hown va e HL Hlt) as (Hok & Hni' & Hnt'). split_and!; [exact Hok|auto|].
      intros pi Hpi. destruct (G3 _ _ Hpi); [by eapply Hnt'|done].
  - intros va va' e e' [[<- <-]|[_ H1]]%lookup_insert_Some [[<- <-]|[_ H2]]%lookup_insert_Some Hlt Hlt' E;
      [done| | |by eapply Hinj]; rewrite Hpa in E; exfalso.
    + by eapply (Hnew va' e').
    + by eapply (Hnew va e).
Qed.

(** The common step of [uvmalloc], [uvmcopy] and [vmfault]: a fresh page,
    already filled, is mapped at [a], or memory for its tables is missing. *)
Lemma map_fresh_paths s q l root T L lim a perm m1 :
  uvm_inv s (q :: l) root T L lim -> aligned a -> 0 <= a < lim -> L !! a = None -> 0 <= perm < 2 ^ 10 ->
  (forall p, aligned p -> p <> q -> same_page (mram s) m1 p) ->
  exists r s' l' T', mappages root a PGSIZE q perm (mk_memst m1 false (ld64 (mram s) q)) = Ok r s' /\
    vm_frame s (q :: l) T s' /\ vm_grows l T l' T' /\ page_ok q /\ same_page m1 (mram s') q /\
    ((r = 0 /\ uvm_inv s' l' root T' (<[a := mkpte q (Z.lor perm PTE_V)]> L) lim) \/
     (r = -1 /\ l' = [] /\ uvm_inv s' l' root T' L lim /\ (forall pi, T' !! pi <> Some q) /\
      (forall va e, L !! va = Some e -> va < lim -> PTE2PA e <> q))) /\
    adds T T' (on_path a (a + PGSIZE)).
Proof.
  intros Hu Ha Hlt HL Hperm Hsame. destruct (uvm_take _ _ _ _ _ _ _ m1 Hu Hsame) as (Hq & Hni & Hnt & Hnew & Hu1).
  set (s1 := mk_memst m1 false (ld64 (mram s) q)) in *.
  pose proof (page_ok_pos q Hq). pose proof (ui_lim _ _ _ _ _ _ Hu).
  destruct (mappages_paths root a PGSIZE q perm s1 l T L (ui_vm _ _ _ _ _ _ Hu1)) as
    (r & s' & l' & T' & k & Hrun & He & Hr & Hadd); try done; try lia.
  { rewrite MAXVA_val in *. unfold aligned, PGSIZE in *. dlia. }
  { unfold PGSIZE, PHYSTOP, KERNBASE in *. lia. }
  { intros j Hj. assert (j = 0) as -> by (unfold PGSIZE in *; dlia). by rewrite Z.add_0_r. }
  pose proof (ex_frame _ _ _ _ _ _ _ _ He) as Hf. pose proof (ex_grows _ _ _ _ _ _ _ _ He) as Hg.
  exists r, s', l', T'. split_and!; [exact Hrun| |exact Hg|exact Hq| | |exact Hadd].
  - intros p Hp Hpl Hpt. apply same_page_trans with m1.
    + apply Hsame; [exact Hp|]. intros ->. apply Hpl. by left.
    + apply (Hf p Hp); [|exact Hpt]. intros Hin. apply Hpl. by right.
  - exact (Hf q (page_ok_aligned _ Hq) Hni Hnt).
  - change (PGSIZE / PGSIZE) with 1 in Hr. destruct Hr as [[-> Hk]|(-> & Hk & ->)].
    + left. split; [done|]. assert (k = 1%nat) as -> by lia. cbn [map_range] in He.
      by apply (uvm_insert s1 l root T L lim q a perm s' l' T').
    + right. assert (k = O) as -> by lia. cbn [map_range] in He.
      split_and!; [done|done|exact (uvm_inv_ext _ _ _ _ _ _ _ _ _ Hu1 He)| |exact Hnew].
      intros pi Hpi. destruct Hg as [_ _ G3 _]. destruct (G3 _ _ Hpi); [by eapply Hnt|done].
Qed.

Lemma map_fresh s q l root T L lim a perm m1 :
  uvm_inv s (q :: l) root T L lim -> aligned a -> 0 <= a < lim -> L !! a = None -> 0 <= perm < 2 ^ 10 ->
  (forall p, aligned p -> p <> q -> same_page (mram s) m1 p) ->
  exists r s' l' T', mappages root a PGSIZE q perm (mk_memst m1 false (ld64 (mram s) q)) = Ok r s' /\
    vm_frame s (q :: l) T s' /\ vm_grows l T l' T' /\ page_ok q /\ same_page m1 (mram s') q /\
    ((r = 0 /\ uvm_inv s' l' root T' (<[a := mkpte q (Z.lor perm PTE_V)]> L) lim) \/
     (r = -1 /\ l' = [] /\ uvm_inv s' l' root T' L lim /\ (forall pi, T' !! pi <> Some q) /\
      (forall va e, L !! va = Some e -> va < lim -> PTE2PA e <> q))).
Proof.
  intros. destruct (map_fresh_paths s q l root T L lim a perm m1) as (r & s' & l' & T' & ? & ? & ? & ? & ? & ? & _); try done.
  exists r, s', l', T'. by split_and!.
Qed.

(** ** uvmdealloc *)

Lemma uvmdealloc_run root oldsz newsz s l T L lim :
  uvm_inv s l root T L lim -> 0 <= newsz -> 0 <= oldsz <= lim ->
  let n := Z.to_nat ((PGROUNDUP oldsz - PGROUNDUP newsz) / PGSIZE) in
  let u := unmap_range (if newsz <? oldsz then n else O) L (PGROUNDUP newsz) l in
  exists s', uvmdealloc root oldsz newsz s = Ok (Z.min oldsz newsz) s' /\
    uvm_inv s' u.2 root T u.1 lim /\ vm_frame s u.2 T s'.
Proof.
  intros Hu Hnew Hold n u. subst u. unfold uvmdealloc.
  destruct (Z.leb_spec oldsz newsz), (Z.ltb_spec newsz oldsz); try lia.
  { exists s. rewrite Z.min_l by lia. split_and!; [done|exact Hu|apply vm_frame_refl]. }
  rewrite Z.min_r by lia. pose proof (ui_lim _ _ _ _ _ _ Hu) as Hlim. rewrite MAXVA_val in Hlim.
  destruct (PGROUNDUP_bounds newsz) as [Ha1 Hb1]; [unfold PGSIZE; lia|].
  destruct (PGROUNDUP_bounds oldsz) as [Ha2 Hb2]; [unfold PGSIZE; lia|].
  destruct (Z.ltb_spec (PGROUNDUP newsz) (PGROUNDUP oldsz)); cbn [when].
  2:{ replace n with O by (subst n; unfold PGSIZE in *; dlia). exists s.
      split_and!; [done|exact Hu|apply vm_frame_refl]. }
  assert (Hn : Z.of_nat n = (PGROUNDUP oldsz - PGROUNDUP newsz) / PGSIZE) by (subst n; unfold PGSIZE in *; dlia).
  assert (Hn2 : Z.of_nat n * PGSIZE = PGROUNDUP oldsz - PGROUNDUP newsz) by (rewrite Hn; unfold PGSIZE in *; dlia).
  unfold uvmunmap. rewrite (proj2 (Z.eqb_eq _ _) Ha1). cbn [negb]. rewrite <- Hn.
  rewrite (u64_small (i32 _)); unfold i32; rewrite signed_small; try (unfold PGSIZE in *; lia).
  rewrite (u64_small (_ + _)), Nat2Z.id by (unfold PGSIZE in *; lia).
  destruct (uvmunmap_loop_spec n root (PGROUNDUP newsz) s l T L lim Hu Ha1) as (s' & Hrun & Hu' & Hf); [lia|lia|].
  exists s'. split_and!; [by step_with Hrun|exact Hu'|exact Hf].
Qed.

(** ** uvmalloc *)

(** The frames [qs] mapped at consecutive pages from [a]. *)
Fixpoint map_pages (L : leafmap) (a : Z) (qs : list Z) (perm : Z) : leafmap :=
  match qs with
  | [] => L
  | q :: qs' => <[a := mkpte q (Z.lor perm PTE_V)]> (map_pages L (a + PGSIZE) qs' perm)
  end.

Lemma map_pages_below L a qs perm va : va < a -> map_pages L a qs perm !! va = L !! va.
Proof.
  revert a. induction qs as [|q qs IH]; intros a Hlt; cbn; [done|].
  rewrite lookup_insert_ne by lia. apply IH. unfold PGSIZE. lia.
Qed.

Lemma map_pages_above L a qs perm va : a + Z.of_nat (length qs) * PGSIZE <= va ->
  map_pages L a qs perm !! va = L !! va.
Proof.
  revert a. induction qs as [|q qs IH]; intros a Hlt; cbn [map_pages length] in *; [done|].
  rewrite lookup_insert_ne by (unfold PGSIZE in *; lia). apply IH. lia.
Qed.

Lemma map_pages_snoc L a qs q perm :
  map_pages L a (qs ++ [q]) perm =
  <[a + Z.of_nat (length qs) * PGSIZE := mkpte q (Z.lor perm PTE_V)]> (map_pages L a qs perm).
Proof.
  revert a. induction qs as [|x qs IH]; intros a; cbn [app map_pages length].
  - by rewrite Z.mul_0_l, Z.add_0_r.
  - rewrite IH, insert_insert_ne by (unfold PGSIZE; lia).
    by replace (a + PGSIZE + Z.of_nat (length qs) * PGSIZE) with (a + Z.of_nat (S (length qs)) * PGSIZE) by lia.
Qed.

(** Unmapping what was mapped gives the map and the frames back. *)
Lemma unmap_map_pages L a qs perm l : Forall page_ok qs -> 0 <= perm < 2 ^ 10 ->
  (forall k, 0 <= k < Z.of_nat (length qs) -> L !! (a + k * PGSIZE) = None) ->
  unmap_range (length qs) (map_pages L a qs perm) a l = (L, rev qs ++ l).
Proof.
  revert a l. induction qs as [|q qs IH]; intros a l Hok Hperm HL; cbn [length unmap_range map_pages]; [done|].
  apply Forall_cons in Hok as [Hq Hok]. rewrite lookup_insert_eq, PTE2PA_leaf by done.
  rewrite delete_insert_eq, delete_id.
  - rewrite IH; [|done|done|].
    + cbn [rev]. by rewrite <- app_assoc.
    + intros k Hk. replace (a + PGSIZE + k * PGSIZE) with (a + (k + 1) * PGSIZE) by lia.
      apply HL. cbn [length]. lia.
  - rewrite map_pages_below by (unfold PGSIZE; lia).
    specialize (HL 0). rewrite Z.mul_0_l, Z.add_0_r in HL. apply HL. cbn [length]. lia.
Qed.

Definition zero_page (m : ram) (q : Z) : Prop := forall off, 0 <= off < PGSIZE -> ld8 m (q + off) = 0.

Lemma zero_page_memset m q : zero_page (memset m q 0 PGSIZE) q.
Proof.
  intros off Hoff. rewrite ld8_memset by (unfold PGSIZE; lia).
  by destruct (Z.leb_spec q (q + off)), (Z.ltb_spec (q + off) (q + PGSIZE)); cbn; try lia.
Qed.

Lemma zero_page_same m m' q : zero_page m q -> same_page m m' q -> zero_page m' q.
Proof. intros Hz Hs off Hoff. rewrite (Hs off Hoff). auto. Qed.

Lemma uvm_kfree s l root T L lim q : uvm_inv s l root T L lim -> page_ok q -> ~ q ∈ l ->
  (forall pi, T !! pi <> Some q) -> (forall va e, L !! va = Some e -> va < lim -> PTE2PA e <> q) ->
  exists s1, kfree q s = Ok tt s1 /\ uvm_inv s1 (q :: l) root T L lim /\ vm_frame s (q :: l) T s1.
Proof.
  intros [Hv Hlim Hown Hinj] Hq Hni Hnt Hnew.
  destruct (vm_kfree s l root T L q Hv Hq Hni Hnt) as (s1 & Hrun & Hv1 & Hsame).
  exists s1. split_and!; [exact Hrun| |].
  - split; [exact Hv1|exact Hlim| |exact Hinj]. intros va e HL Hlt.
    destruct (Hown va e HL Hlt) as (? & Hn & ?). split_and!; [done| |done].
    intros [E|Hin]%elem_of_cons; [by apply (Hnew va e)|done].
  - intros p Hp Hpl _. apply Hsame; [exact Hp|]. intros ->. apply Hpl. by left.
Qed.

Lemma uvmalloc_undo s l root T L lim a qs perm :
  uvm_inv s l root T (map_pages L a qs perm) lim -> aligned a -> 0 <= a ->
  a + Z.of_nat (length qs) * PGSIZE <= lim -> Forall page_ok qs -> 0 <= perm < 2 ^ 10 ->
  (forall k, 0 <= k < Z.of_nat (length qs) -> L !! (a + k * PGSIZE) = None) ->
  exists s' r, uvmdealloc root (a + Z.of_nat (length qs) * PGSIZE) a s = Ok r s' /\
    uvm_inv s' (rev qs ++ l) root T L lim /\ vm_frame s (rev qs ++ l) T s'.
Proof.
  intros Hu Ha Ha0 Hlim Hok Hperm HL. pose proof (ui_lim _ _ _ _ _ _ Hu) as Hl. rewrite MAXVA_val in Hl.
  destruct (uvmdealloc_run root (a + Z.of_nat (length qs) * PGSIZE) a s l T _ lim Hu Ha0) as (s' & Hrun & Hu' & Hf).
  { unfold PGSIZE in *; lia. }
  rewrite !PGROUNDUP_aligned in Hu', Hf; try (by apply aligned_add); try (unfold PGSIZE in *; lia); try exact Ha.
  replace ((a + Z.of_nat (length qs) * PGSIZE - a) / PGSIZE) with (Z.of_nat (length qs)) in * by (unfold PGSIZE; dlia).
  rewrite Nat2Z.id in Hu', Hf.
  assert ((if a <? a + Z.of_nat (length qs) * PGSIZE then length qs else O) = length qs) as E.
  { destruct (Z.ltb_spec a (a + Z.of_nat (length qs) * PGSIZE)); [done|unfold PGSIZE in *; lia]. }
  rewrite E, unmap_map_pages in Hu', Hf by done. eauto.
Qed.

(** The state of [uvmalloc]'s loop: the fresh, cleared pages [qs] have been
    mapped from [base], which was unmapped up to [newsz]. *)
Record growing (s : memst) (l : list Z) (root : Z) (T : tables) (L : leafmap) (lim base newsz perm : Z)
    (qs : list Z) : Prop := {
  gw_inv : uvm_inv s l root T (map_pages L base qs perm) lim;
  gw_base : aligned base /\ 0 <= base;
  gw_perm : 0 <= perm < 2 ^ 10;
  gw_end : base + Z.of_nat (length qs) * PGSIZE < newsz + PGSIZE /\ newsz <= lim;
  gw_none : forall va, base <= va < newsz -> L !! va = None;
  gw_ok : Forall page_ok qs;
  gw_zero : Forall (zero_page (mram s)) qs;
  gw_own : forall q, q ∈ qs -> ~ q ∈ l /\ forall pi, T !! pi <> Some q
}.

Lemma growing_none s l root T L lim base newsz perm qs k :
  growing s l root T L lim base newsz perm qs -> base + Z.of_nat (length qs) * PGSIZE < newsz ->
  0 <= k <= Z.of_nat (length qs) -> L !! (base + k * PGSIZE) = None.
Proof. intros H Hlt Hk. apply (gw_none _ _ _ _ _ _ _ _ _ _ H). unfold PGSIZE in *. lia. Qed.

(** One more page. *)
Lemma growing_step s l root T L lim base newsz perm qs q s' l' T' :
  growing s (q :: l) root T L lim base newsz perm qs ->
  base + Z.of_nat (length qs) * PGSIZE < newsz ->
  uvm_inv s' l' root T' (map_pages L base (qs ++ [q]) perm) lim ->
  vm_frame s (q :: l) T s' -> vm_grows l T l' T' -> page_ok q -> zero_page (mram s') q ->
  ~ q ∈ l -> (forall pi, T !! pi <> Some q) ->
  growing s' l' root T' L lim base newsz perm (qs ++ [q]).
Proof.
  intros [G1 G2 G3 G4 G5 G6 G7 G8] Hlt Hu Hf [Hg1 Hg2 Hg3 _] Hq Hz Hni Hnt.
  split; [exact Hu|exact G2|exact G3| |exact G5| | |].
  - rewrite length_app. cbn [length]. unfold PGSIZE in *. lia.
  - apply Forall_app. split; [exact G6|by constructor].
  - apply Forall_app. split; [|by constructor]. rewrite Forall_forall in *. intros x Hx.
    apply zero_page_same with (mram s); [by apply G7|]. destruct (G8 x Hx) as [Hxl Hxt].
    apply Hf; [by apply page_ok_aligned, G6|exact Hxl|exact Hxt].
  - assert (Hall : forall x, ~ x ∈ l -> (forall pi, T !! pi <> Some x) ->
      ~ x ∈ l' /\ forall pi, T' !! pi <> Some x).
    { intros x Hxl Hxt. split; [auto|]. intros pi Hpi. destruct (Hg3 _ _ Hpi); [by eapply Hxt|done]. }
    intros x [Hx| ->%list_elem_of_singleton]%elem_of_app; [|by apply Hall].
    destruct (G8 x Hx) as [Hxl Hxt]. apply Hall; [|exact Hxt]. intros Hin. apply Hxl. by right.
Qed.

Lemma vm_frame_weaken s l T s' l2 : vm_frame s l T s' -> (forall p, p ∈ l -> p ∈ l2) -> vm_frame s l2 T s'.
Proof. intros Hf Hs p Hp Hl Ht. apply Hf; auto. Qed.

Lemma vm_frame_chain s1 l T s2 l2 T2 s3 :
  vm_frame s1 l T s2 -> vm_frame s2 l2 T2 s3 -> (forall p, p ∈ l2 -> p ∈ l \/ exists pi, T !! pi = Some p) ->
  (forall pi p, T2 !! pi = Some p -> T !! pi = Some p \/ p ∈ l) -> vm_frame s1 l T s3.
Proof.
  intros H1 H2 Hl Ht p Hp Hpl Hpt. apply same_page_trans with (mram s2); [auto|].
  apply H2; [exact Hp| |].
  - intros Hin. destruct (Hl p Hin) as [?|[pi ?]]; [done|by apply (Hpt pi)].
  - intros pi Hpi. destruct (Ht _ _ Hpi); [by apply (Hpt pi)|done].
Qed.

(** Out of memory with [qs] mapped: everything is given back. *)
Lemma growing_undo s0 l0 T0 s l root T L lim base newsz perm qs :
  growing s0 l0 root T0 L lim base newsz perm qs -> base + Z.of_nat (length qs) * PGSIZE < newsz ->
  uvm_inv s l root T (map_pages L base qs perm) lim ->
  exists s' l', (uvmdealloc root (base + Z.of_nat (length qs) * PGSIZE) base ;;; ret 0) s = Ok 0 s' /\
    uvm_inv s' l' root T L lim /\ vm_frame s (qs ++ l) T s' /\ l' ≡ₚ qs ++ l.
Proof.
  intros G Hlt Hu0. destruct (uvmalloc_undo s l root T L lim base qs perm) as (s' & r & Hrun & Hu & Hf);
    [exact Hu0|apply G|apply G| |apply G|apply G| |].
  - pose proof (gw_end _ _ _ _ _ _ _ _ _ _ G). lia.
  - intros k Hk. eapply growing_none; [exact G|done|lia].
  - exists s', (rev qs ++ l). split_and!; [by step_with Hrun|exact Hu| |by rewrite <- Permutation_rev].
    apply (vm_frame_weaken _ _ _ _ _ Hf). intros p Hp. by rewrite <- Permutation_rev in Hp.
Qed.

(** The page is there but not the memory for its page tables. *)
Lemma growing_fail s q l root T L lim base newsz perm qs s1 T1 :
  growing s (q :: l) root T L lim base newsz perm qs -> base + Z.of_nat (length qs) * PGSIZE < newsz ->
  uvm_inv s1 [] root T1 (map_pages L base qs perm) lim -> vm_frame s (q :: l) T s1 -> vm_grows l T [] T1 ->
  page_ok q -> (forall pi, T1 !! pi <> Some q) ->
  (forall va e, map_pages L base qs perm !! va = Some e -> va < lim -> PTE2PA e <> q) ->
  exists s' l',
    (kfree q ;;; uvmdealloc root (base + Z.of_nat (length qs) * PGSIZE) base ;;; ret 0) s1 = Ok 0 s' /\
    uvm_inv s' l' root T1 L lim /\ vm_frame s (qs ++ q :: l) T s' /\
    qs ++ (q :: l) ++ tpages T ≡ₚ l' ++ tpages T1.
Proof.
  intros G Hlt Hu1 Hf Hg Hq Hnt Hnew.
  destruct (uvm_kfree _ _ _ _ _ _ q Hu1 Hq ltac:(by intros ?%elem_of_nil) Hnt Hnew) as (s2 & Hrun & Hu2 & Hf2).
  destruct (growing_undo _ _ _ _ _ _ _ _ _ _ _ _ _ G Hlt Hu2) as (s' & l' & Hrun' & Hu' & Hf' & Hp).
  exists s', l'. split_and!; [by step_with Hrun|exact Hu'| |].
  - intros p Hp' Hpl Hpt. rewrite elem_of_app, elem_of_cons in Hpl.
    assert (Hpt1 : forall pi, T1 !! pi <> Some p).
    { intros pi Hpi. destruct (gr_new _ _ _ _ Hg _ _ Hpi); [by apply (Hpt pi)|auto]. }
    apply same_page_trans with (mram s1); [|apply same_page_trans with (mram s2)].
    + apply Hf; [exact Hp'|rewrite elem_of_cons; auto|exact Hpt].
    + apply Hf2; [exact Hp'|rewrite list_elem_of_singleton; auto|exact Hpt1].
    + apply Hf'; [exact Hp'|rewrite elem_of_app, list_elem_of_singleton; tauto|exact Hpt1].
  - pose proof (gr_all _ _ _ _ Hg) as Hall. cbn in Hall. rewrite Hp, <- app_assoc. cbn. by rewrite Hall.
Qed.

(** [kalloc] followed by clearing the page. *)
Lemma zalloc_run {A} s q l (fail : M memst A) (k : Z -> M memst A) : kmem_inv s (q :: l) ->
  exists m1, (mem <- kalloc ;;
     if mem =? 0 then fail else store (fun m => memset m mem 0 PGSIZE) ;;; k mem) s =
     k q (mk_memst m1 false (ld64 (mram s) q)) /\
   (forall p, aligned p -> p <> q -> same_page (mram s) m1 p) /\ zero_page m1 q /\ page_ok q.
Proof.
  intros Hk. pose proof (kmem_inv_page _ _ q Hk ltac:(by left)) as Hq.
  exists (memset (memset (mram s) q 5 PGSIZE) q 0 PGSIZE). split_and!; [| |apply zero_page_memset|exact Hq].
  - step_with (kalloc_cons s q l Hk).
    destruct (Z.eqb_spec q 0) as [|_]; [pose proof (page_ok_pos q Hq); lia|reflexivity].
  - intros p Hp Hne. apply same_page_zalloc; [exact Hp|exact (page_ok_aligned _ Hq)|exact Hne].
Qed.

(** Either the range is mapped to cleared pages, or nothing has changed but
    page-table pages that stay allocated; no page is lost. *)
Definition grown (s' : memst) (l' : list Z) (T' : tables) (L' L : leafmap) (base newsz perm r : Z)
    (pages : list Z) : Prop :=
  (r = newsz /\ exists qs, L' = map_pages L base qs perm /\ Forall (zero_page (mram s')) qs /\
     newsz <= base + Z.of_nat (length qs) * PGSIZE < newsz + PGSIZE /\
     pages ≡ₚ qs ++ l' ++ tpages T') \/
  (r = 0 /\ L' = L /\ pages ≡ₚ l' ++ tpages T').

Lemma uvmalloc_loop_spec n root newsz xperm s l T L lim base qs :
  let perm := Z.lor (Z.lor PTE_R PTE_U) xperm in
  let a := base + Z.of_nat (length qs) * PGSIZE in
  growing s l root T L lim base newsz perm qs -> newsz <= a + Z.of_nat n * PGSIZE ->
  exists r s' l' T' L', uvmalloc_loop n root a base newsz xperm s = Ok r s' /\
    uvm_inv s' l' root T' L' lim /\ vm_frame s (qs ++ l) T s' /\
    grown s' l' T' L' L base newsz perm r (qs ++ l ++ tpages T).
Proof.
  intros perm. revert s l T qs. induction n as [|n IH]; intros s l T qs a G Hn; cbn [uvmalloc_loop];
    destruct (Z.ltb_spec a newsz) as [Hlt|Hge]; try (unfold PGSIZE in *; lia);
    try (exists newsz, s, l, T, (map_pages L base qs perm);
         split_and!; [done|apply G|apply vm_frame_refl|];
         left; split; [done|]; exists qs; split_and!; [done|apply G|lia|apply G|done]).
  destruct l as [|q l].
  { step_with (kalloc_empty s (vi_kmem _ _ _ _ _ (ui_vm _ _ _ _ _ _ (gw_inv _ _ _ _ _ _ _ _ _ _ G)))).
    destruct (growing_undo _ _ _ _ _ _ _ _ _ _ _ _ _ G Hlt (gw_inv _ _ _ _ _ _ _ _ _ _ G)) as (s' & l' & Hrun & Hu & Hf & Hp).
    exists 0, s', l', T, L. split_and!; [exact Hrun|exact Hu|exact Hf|right]. split_and!; [done|done|].
    by rewrite Hp, app_nil_r. }
  pose proof (gw_inv _ _ _ _ _ _ _ _ _ _ G) as Hu0. pose proof (vi_kmem _ _ _ _ _ (ui_vm _ _ _ _ _ _ Hu0)) as Hk.
  pose proof (gw_base _ _ _ _ _ _ _ _ _ _ G) as [Hba Hb0]. pose proof (gw_end _ _ _ _ _ _ _ _ _ _ G) as [He1 He2].
  pose proof (ui_lim _ _ _ _ _ _ Hu0) as Hlim. rewrite MAXVA_val in Hlim.
  destruct (zalloc_run s q l (uvmdealloc root a base ;;; ret 0) (fun mem =>
      r <- mappages root a PGSIZE mem perm ;;
      if negb (r =? 0) then kfree mem ;;; uvmdealloc root a base ;;; ret 0
      else uvmalloc_loop n root (u64 (a + PGSIZE)) base newsz xperm) Hk) as (m1 & E1 & Hsame & Hz1 & Hq).
  fold perm. rewrite E1. clear E1.
  destruct (uvm_take _ _ _ _ _ _ _ m1 Hu0 Hsame) as (_ & Hni & Hnt & _ & _).
  destruct (map_fresh s q l root T _ lim a perm m1 Hu0) as (r & s1 & l1 & T1 & Hrun & Hf & Hg & _ & Hz & Hr);
    [by apply aligned_add|unfold a, PGSIZE in *; lia| |exact (gw_perm _ _ _ _ _ _ _ _ _ _ G)|exact Hsame|].
  { rewrite map_pages_above by done. apply (gw_none _ _ _ _ _ _ _ _ _ _ G). unfold a, PGSIZE in *; lia. }
  step_with Hrun. destruct Hr as [[-> Hu1]|(-> & -> & Hu1 & Hnt1 & Hnew)].
  - unfold a in Hu1. rewrite <- map_pages_snoc in Hu1.
    assert (G1 : growing s1 l1 root T1 L lim base newsz perm (qs ++ [q])).
    { eapply growing_step; eauto. by apply zero_page_same with m1. }
    rewrite u64_small by (unfold a, PGSIZE in *; lia).
    assert (Ea : a + PGSIZE = base + Z.of_nat (length (qs ++ [q])) * PGSIZE) by (rewrite length_app; cbn [length]; lia).
    cbn [Z.eqb negb]. rewrite Ea.
    destruct (IH s1 l1 T1 (qs ++ [q]) G1) as (r & s' & l' & T' & L' & Hrun' & Hu' & Hf' & Hgr); [rewrite <- Ea; lia|].
    exists r, s', l', T', L'. split_and!; [exact Hrun'|exact Hu'| |].
    + eapply vm_frame_chain; [apply (vm_frame_weaken _ _ _ _ (qs ++ q :: l) Hf)|exact Hf'| |].
      * intros p Hp. apply elem_of_app. by right.
      * intros p Hp. left. rewrite !elem_of_app, list_elem_of_singleton in Hp. rewrite elem_of_app, elem_of_cons.
        destruct Hp as [[?| ->]|Hp]; auto. right; right. by apply Hg.
      * intros pi p Hp. destruct (gr_new _ _ _ _ Hg _ _ Hp); [by left|right]. apply elem_of_app. right. by right.
    + assert (qs ++ (q :: l) ++ tpages T ≡ₚ (qs ++ [q]) ++ l1 ++ tpages T1) as E.
      { rewrite <- (gr_all _ _ _ _ Hg). by rewrite <- !app_assoc. }
      destruct Hgr as [(-> & qs' & ? & ? & ? & Hp)|(-> & -> & Hp)]; [left|right].
      * split; [done|]. exists qs'. split_and!; try done; [lia..|]. by rewrite E.
      * split_and!; [done|done|]. by rewrite E.
  - destruct (growing_fail _ _ _ _ _ _ _ _ _ _ _ _ _ G Hlt Hu1 Hf Hg Hq Hnt1 Hnew) as (s' & l' & Hrun' & Hu' & Hf' & Hp).
    exists 0, s', l', T1, L. split_and!; [exact Hrun'|exact Hu'|exact Hf'|by right].
Qed.

(** Growing a process: [uvmalloc] either maps every page of the new
    range to a fresh, zero-filled page and returns the new size, or returns 0
    with the old mappings restored. No page is lost on either path, and
    memory outside the free pages and the page table is not written. *)
Theorem uvmalloc_correct root oldsz newsz xperm s l T L lim :
  let perm := Z.lor (Z.lor PTE_R PTE_U) xperm in
  uvm_inv s l root T L lim -> 0 <= oldsz <= newsz -> newsz <= lim -> 0 <= xperm < 2 ^ 10 ->
  (forall va, PGROUNDUP oldsz <= va < newsz -> L !! va = None) ->
  exists r s' l' T' L', uvmalloc root oldsz newsz xperm s = Ok r s' /\
    uvm_inv s' l' root T' L' lim /\ vm_frame s l T s' /\
    grown s' l' T' L' L (PGROUNDUP oldsz) newsz perm r (l ++ tpages T).
Proof.
  intros perm Hu Hold Hnew Hx HL. unfold uvmalloc. destruct (Z.ltb_spec newsz oldsz); [lia|].
  pose proof (ui_lim _ _ _ _ _ _ Hu) as Hlim. rewrite MAXVA_val in Hlim.
  destruct (PGROUNDUP_bounds oldsz) as [Ha Hb]; [unfold PGSIZE; lia|].
  set (base := PGROUNDUP oldsz) in *.
  destruct (uvmalloc_loop_spec (Z.to_nat ((newsz - base + PGSIZE - 1) / PGSIZE)) root newsz xperm s l T L lim base [])
    as (r & s' & l' & T' & L' & Hrun & Hu' & Hf & Hg).
  - split; try done; [split; [done|lia]| |cbn; lia|by intros ? ?%elem_of_nil].
    apply lor_range; [lia|done|done].
  - cbn [length]. unfold PGSIZE in *. dlia.
  - cbn [length app] in *. rewrite Z.mul_0_l, Z.add_0_r in Hrun.
    exists r, s', l', T', L'. split_and!; [exact Hrun|exact Hu'|exact Hf|exact Hg].
Qed.

(** [mappages] on an unmapped range below MAXVA maps every page of it
    to the matching physical page with the given permissions and returns 0, or
    returns -1 with only a prefix mapped because no page was left for a page
    table. No other mapping changes, and memory outside the free pages and the
    page table is not written. *)
Theorem mappages_maps_range root va size pa perm s l T L :
  vm_inv s l root T L -> aligned va -> aligned size -> 0 <= va -> 0 < size -> va + size <= MAXVA ->
  0 <= pa -> pa + size <= 2 ^ 56 -> 0 <= perm < 2 ^ 10 ->
  (forall k, 0 <= k < size / PGSIZE -> L !! (va + k * PGSIZE) = None) ->
  exists r s' l' T' L' n, mappages root va size pa perm s = Ok r s' /\ vm_ext s l root T L' s' l' T' /\
    (forall x, aligned x -> L' !! x =
       if (va <=? x) && (x <? va + n) then Some (mkpte (pa + (x - va)) (Z.lor perm PTE_V)) else L !! x) /\
    ((r = 0 /\ n = size) \/ (r = -1 /\ 0 <= n < size /\ l' = [])).
Proof.
  intros Hv Ha Hs Hva Hsz Hmax Hpa Hpa2 Hperm Hfree.
  destruct (mappages_run root va size pa perm s l T L) as (r & s' & l' & T' & k & Hrun & He & Hr); auto.
  exists r, s', l', T', (map_range k L va pa perm), (Z.of_nat k * PGSIZE). split_and!; [exact Hrun|exact He| |].
  - intros x Hx. by apply map_range_lookup.
  - unfold aligned, PGSIZE in *. destruct Hr as [[-> Hk]|(-> & Hk & ->)]; [left|right]; split_and!; auto; dlia.
Qed.

(** ** A fresh address space *)

Lemma empty_tree m q : page_ok q -> zero_page m q -> ptree m q {[ [] := q ]} /\ leaves m {[ [] := q ]} ∅.
Proof.
  intros Hq Hz. split.
  - split.
    + by rewrite lookup_singleton_eq.
    + intros pi p [<- <-]%lookup_singleton_Some. exact Hq.
    + by intros pi pi' p [<- <-]%lookup_singleton_Some [<- _]%lookup_singleton_Some.
    + intros pi p [<- <-]%lookup_singleton_Some. split_and!; [cbn; lia|constructor|done].
    + intros pi i p [E _]%lookup_singleton_Some. by destruct pi.
    + intros pi p i [<- <-]%lookup_singleton_Some _ Hi. rewrite lookup_singleton_ne by done.
      rewrite ld64_zero; [done|]. intros j Hj. rewrite <- Z.add_assoc. apply Hz. unfold PGSIZE. lia.
  - intros va e. rewrite lookup_empty. split; [done|]. intros (_ & _ & Hp & Hv). unfold pte_at in Hp.
    rewrite lookup_singleton_ne in Hp by done. by subst e.
Qed.

Lemma uvmcreate_run s q l lim : kmem_inv s (q :: l) -> 0 <= lim <= MAXVA ->
  exists s', uvmcreate s = Ok q s' /\ uvm_inv s' l q {[ [] := q ]} ∅ lim /\
    forall p, aligned p -> p <> q -> same_page (mram s) (mram s') p.
Proof.
  intros Hk Hlim. destruct (zalloc_run s q l (ret 0) ret Hk) as (m1 & E & Hsame & Hz & Hq).
  exists (mk_memst m1 false (ld64 (mram s) q)). split_and!; [exact E| |exact Hsame].
  destruct (kalloc_inv _ _ _ _ Hk (kalloc_cons s q l Hk)) as (Hk1 & _ & Hni & _).
  destruct (empty_tree m1 q Hq Hz) as [Ht Hl].
  split; [split; [|exact Ht| |exact Hl]|exact Hlim| |]; try by intros *; rewrite lookup_empty.
  - apply (kmem_inv_same (memset (mram s) q 5 PGSIZE)); [exact Hk1|]. intros p Hp.
    pose proof (page_ok_aligned _ (kmem_inv_page _ _ _ Hk1 Hp)) as Hap.
    assert (p <> q) as Hne by (intros ->; exact (Hni Hp)). intros off Hoff.
    rewrite (Hsame p Hap Hne off Hoff). symmetry.
    exact (same_page_memset (mram s) p q 5 Hap (page_ok_aligned _ Hq) Hne off Hoff).
  - intros pi p [<- <-]%lookup_singleton_Some. exact Hni.
Qed.
End ops.

(** ** Examples

    A machine with eight free pages, the first of which is the root of an
    empty user page table. *)
#[export] Instance img8 : KernelImage := demo_img 8.
#[export] Instance img8_ok : KernelImageOk img8.
Proof. apply demo_img_ok. lia. Qed.

Definition demo_root : Z := PHYSTOP - PGSIZE.
Definition demo_free : list Z := tail free_pages.

Lemma demo_space : exists s, uvm_inv s demo_free demo_root {[ [] := demo_root ]} ∅ MAXVA.
Proof.
  destruct (kinit_run mem0) as (s & _ & Hk); [reflexivity|].
  destruct (uvmcreate_run s demo_root demo_free MAXVA) as (s' & _ & Hu & _); [exact Hk|rewrite MAXVA_val; lia|].
  by exists s'.
Qed.

Lemma mappages_maps_range_witness : exists s r s' l' T' L' n,
  mappages demo_root 4096 8192 KERNBASE PTE_R s = Ok r s' /\
  vm_ext s demo_free demo_root {[ [] := demo_root ]} L' s' l' T' /\
  (forall x, aligned x -> L' !! x =
     if (4096 <=? x) && (x <? 4096 + n) then Some (mkpte (KERNBASE + (x - 4096)) (Z.lor PTE_R PTE_V)) else (∅ : leafmap) !! x) /\
  ((r = 0 /\ n = 8192) \/ (r = -1 /\ 0 <= n < 8192 /\ l' = [])).
Proof.
  destruct demo_space as (s & Hu). exists s.
  apply (mappages_maps_range demo_root 4096 8192 KERNBASE PTE_R s demo_free _ ∅);
    [exact (ui_vm _ _ _ _ _ _ Hu)|reflexivity|reflexivity|lia|lia|rewrite MAXVA_val; lia| | |split; [|reflexivity]|];
    [unfold KERNBASE; lia|unfold KERNBASE; lia|vm_compute; congruence|]. intros k _. apply lookup_empty.
Defined.

Lemma uvmunmap_frees_witness : exists s s' l' L',
  uvmunmap demo_root 0 4 true s = Ok tt s' /\ uvm_inv s' l' demo_root {[ [] := demo_root ]} L' MAXVA /\
  (forall x, aligned x -> L' !! x = if (0 <=? x) && (x <? 0 + 4 * PGSIZE) then None else (∅ : leafmap) !! x) /\
  (forall p, p ∈ l' <-> p ∈ demo_free \/ exists k e, 0 <= k < 4 /\ (∅ : leafmap) !! (0 + k * PGSIZE) = Some e /\ p = PTE2PA e) /\
  vm_frame s l' {[ [] := demo_root ]} s'.
Proof.
  destruct demo_space as (s & Hu). exists s.
  apply (uvmunmap_frees demo_root 0 4 s demo_free _ ∅ MAXVA Hu); [reflexivity|lia|lia|rewrite MAXVA_val; unfold PGSIZE; lia].
Defined.

Lemma uvmalloc_correct_witness : exists s r s' l' T' L',
  uvmalloc demo_root 0 10000 PTE_W s = Ok r s' /\ uvm_inv s' l' demo_root T' L' MAXVA /\
  vm_frame s demo_free {[ [] := demo_root ]} s' /\
  grown s' l' T' L' ∅ (PGROUNDUP 0) 10000 (Z.lor (Z.lor PTE_R PTE_U) PTE_W) r
    (demo_free ++ tpages {[ [] := demo_root ]}).
Proof.
  destruct demo_space as (s & Hu). exists s.
  apply (uvmalloc_correct demo_root 0 10000 PTE_W s demo_free _ ∅ MAXVA Hu);
    [lia|rewrite MAXVA_val; lia|vm_compute; intuition congruence|]. intros va _. apply lookup_empty.
Defined.
