(* ===== verification/VmFree.v ===== *)
(** * Tearing an address space down

    [freewalk] and [uvmfree] (kernel/vm.c): every page of a page table goes
    back to the allocator. *)

From stdpp Require Import base gmap list numbers strings.
From Stdlib Require Import ZArith Lia.
From S2P Require Import Prelude Riscv Mem Spinlock Kalloc Vm VmSpec VmOps.
Open Scope Z_scope.
Open Scope kernel_scope.

(** The pages of the subtree at path [pi], [k] levels deep. *)
Fixpoint tree_pages (T : tables) (k : nat) (pi : list Z) : list Z :=
  match T !! pi with
  | None => []
  | Some p =>
      match k with
      | O => [p]
      | S k' => p :: flat_map (fun i => tree_pages T k' (pi ++ [i])) (seqZ 0 512)
      end
  end.

Definition children (T : tables) (k : nat) (pi : list Z) (idx : list Z) : list Z :=
  flat_map (fun i => tree_pages T k (pi ++ [i])) idx.

Lemma elem_of_flat_map {A B} (f : A -> list B) l y : y ∈ flat_map f l <-> exists x, x ∈ l /\ y ∈ f x.
Proof.
  rewrite list_elem_of_In, in_flat_map. by setoid_rewrite <- list_elem_of_In.
Qed.

Lemma elem_of_tree_pages T k pi x : x ∈ tree_pages T k pi -> exists rest, T !! (pi ++ rest) = Some x.
Proof.
  revert pi. induction k as [|k IH]; intros pi; cbn [tree_pages]; destruct (T !! pi) as [p|] eqn:E;
    try by intros ?%elem_of_nil.
  - intros ->%list_elem_of_singleton. exists []. by rewrite app_nil_r.
  - intros [->|Hx]%elem_of_cons; [exists []; by rewrite app_nil_r|].
    apply elem_of_flat_map in Hx as (i & _ & Hx). destruct (IH _ Hx) as [rest Hr].
    exists (i :: rest). by rewrite <- app_assoc in Hr.
Qed.

Section free.
Context {img : KernelImage} {imgok : KernelImageOk img}.
Context (m0 : ram) (root : Z) (T : tables) (Ht : ptree m0 root T).

(** No leaf entry is valid any more. *)
Context (Hleaf : forall pi p i, T !! pi = Some p -> length pi = 2%nat -> 0 <= i < 512 ->
  has (ld64 m0 (p + 8 * i)) PTE_V = false).

Lemma elem_of_children k pi idx x : x ∈ children T k pi idx ->
  exists i rest, i ∈ idx /\ T !! (pi ++ i :: rest) = Some x.
Proof.
  intros (i & Hi & Hx)%elem_of_flat_map. destruct (elem_of_tree_pages _ _ _ _ Hx) as [rest Hr].
  exists i, rest. split; [done|]. by rewrite <- app_assoc in Hr.
Qed.

Lemma children_disjoint k pi i idx x : ~ i ∈ idx -> x ∈ tree_pages T k (pi ++ [i]) -> ~ x ∈ children T k pi idx.
Proof using Ht.
  intros Hi Hx Hin. destruct (elem_of_tree_pages _ _ _ _ Hx) as [r Hr]. rewrite <- app_assoc in Hr.
  destruct (elem_of_children _ _ _ _ Hin) as (j & r' & Hj & Hr').
  pose proof (pt_inj _ _ _ Ht _ _ _ Hr Hr') as E. apply app_inv_head in E. cbn in E. congruence.
Qed.

Lemma self_not_child k pi p idx : T !! pi = Some p -> ~ p ∈ children T k pi idx.
Proof using Ht.
  intros Hp Hin. destruct (elem_of_children _ _ _ _ Hin) as (j & r & _ & Hr).
  pose proof (pt_inj _ _ _ Ht _ _ _ Hp Hr) as E. apply (f_equal length) in E. rewrite length_app in E. cbn in E. lia.
Qed.

(** Interior entries are not leaves. *)
Lemma interior_entry q : page_ok q ->
  (Z.land (mkpte q PTE_V) (Z.lor (Z.lor PTE_R PTE_W) PTE_X) =? 0) = true.
Proof using imgok.
  intros Hq. apply Z.eqb_eq. pose proof (PTE_FLAGS_mkpte q PTE_V (page_ok_pa q Hq) ltac:(done)) as E.
  unfold PTE_FLAGS in E.
  replace (Z.lor (Z.lor PTE_R PTE_W) PTE_X) with (Z.land 1023 14) by done.
  by rewrite Z.land_assoc, E.
Qed.

(** What freeing the pages [ps] does: they are all free afterwards, and
    nothing else (but the page [p], when given) has been written. *)
Record freed (s : memst) (l ps : list Z) (s' : memst) : Prop := {
  fr_list : exists l', kmem_inv s' l' /\ l' ≡ₚ ps ++ l;
  fr_same : forall x, aligned x -> ~ x ∈ ps -> same_page (mram s) (mram s') x
}.

Definition intact (s : memst) (ps : list Z) : Prop := forall x, x ∈ ps -> same_page m0 (mram s) x.

Definition freewalk_body (k : nat) (pagetable i : Z) : M memst unit :=
  pte <- load64 (pagetable + 8 * i) ;;
  if has pte PTE_V && (Z.land pte (Z.lor (Z.lor PTE_R PTE_W) PTE_X) =? 0) then
    freewalk_level k (PTE2PA pte) ;;;
    store (fun m => st64 m (pagetable + 8 * i) 0)
  else if has pte PTE_V then panic "freewalk: leaf"
  else ret tt.

(** The recursive call one level down, as the loop needs it. *)
Definition frees_subtree (k : nat) (pi : list Z) : Prop :=
  forall q s l, T !! pi = Some q -> kmem_inv s l -> intact s (tree_pages T k pi) ->
    (forall x, x ∈ tree_pages T k pi -> ~ x ∈ l) ->
    exists s', freewalk_level (S k) q s = Ok tt s' /\ freed s l (tree_pages T k pi) s'.

(** One entry of the table at [p]. *)
Lemma freewalk_entry k pi p i s l :
  frees_subtree k (pi ++ [i]) -> T !! pi = Some p -> (length pi < 2)%nat -> 0 <= i < 512 ->
  kmem_inv s l -> intact s (tree_pages T k (pi ++ [i])) ->
  ld64 (mram s) (p + 8 * i) = ld64 m0 (p + 8 * i) ->
  (forall x, x ∈ p :: tree_pages T k (pi ++ [i]) -> ~ x ∈ l) ->
  exists s' l', freewalk_body (S k) p i s = Ok tt s' /\ kmem_inv s' l' /\
    l' ≡ₚ tree_pages T k (pi ++ [i]) ++ l /\
    (forall x, aligned x -> x <> p -> ~ x ∈ tree_pages T k (pi ++ [i]) -> same_page (mram s) (mram s') x) /\
    (forall j, 0 <= j < 512 -> j <> i -> ld64 (mram s') (p + 8 * j) = ld64 (mram s) (p + 8 * j)).
Proof using Ht imgok.
  intros Hrec Hp Hlen Hir Hk Hint Hent Hfree. unfold freewalk_body, load64, gets. unfold bind at 1.
  rewrite Hent. pose proof (pt_child _ _ _ Ht _ _ i Hp Hlen Hir) as Hc.
  destruct (T !! (pi ++ [i])) as [q|] eqn:Eq.
  2:{ replace (tree_pages T k (pi ++ [i])) with (@nil Z) by (destruct k; cbn; by rewrite Eq).
      rewrite Hc. exists s, l. cbn [andb app]. split_and!; [done|exact Hk|done| |done].
      intros. apply same_page_refl. }
  pose proof (pt_page _ _ _ Ht _ _ Eq) as Hq. destruct (mkpte_valid q Hq) as [HV HP].
  rewrite Hc, HV, HP, (interior_entry q Hq). cbn [andb].
  destruct (Hrec q s l Eq Hk Hint) as (s1 & Hrun & [(l1 & Hk1 & Hp1) Hs1]).
  { intros x Hx. apply Hfree. by right. }
  step_with Hrun. pose proof (page_ok_aligned _ (pt_page _ _ _ Ht _ _ Hp)) as Hap.
  assert (Hpi : ~ p ∈ tree_pages T k (pi ++ [i])).
  { intros Hin. apply (self_not_child k pi p [i] Hp). apply elem_of_flat_map. exists i. split; [by left|done]. }
  exists (set_ram s1 (st64 (mram s1) (p + 8 * i) 0)), l1.
  split_and!; [reflexivity| |exact Hp1| |].
  - destruct s1 as [m1 lk fl]. apply (kmem_inv_same m1); [exact Hk1|]. intros x Hx.
    apply same_page_st64; [exact (page_ok_aligned _ (kmem_inv_page _ _ _ Hk1 Hx))|exact Hap| |exact Hir].
    intros ->. rewrite Hp1, elem_of_app in Hx. destruct Hx as [Hx|Hx]; [done|].
    apply (Hfree p); [by left|done].
  - intros x Hx Hxp Hxt. apply same_page_trans with (mram s1); [by apply Hs1|].
    apply same_page_st64; [exact Hx|exact Hap|exact Hxp|exact Hir].
  - intros j Hj Hne. cbn [set_ram mram]. rewrite ld64_st64_ne by lia.
    apply same_page_ld64; [|exact Hj]. by apply Hs1.
Qed.

(** The loop over the entries [idx]. *)
Lemma freewalk_entries k pi p idx :
  (forall i, frees_subtree k (pi ++ [i])) -> T !! pi = Some p -> (length pi < 2)%nat ->
  NoDup idx -> Forall (fun i => 0 <= i < 512) idx ->
  forall s l, kmem_inv s l -> intact s (children T k pi idx) ->
    (forall i, i ∈ idx -> ld64 (mram s) (p + 8 * i) = ld64 m0 (p + 8 * i)) ->
    (forall x, x ∈ p :: children T k pi idx -> ~ x ∈ l) ->
    exists s' l', for_all idx (freewalk_body (S k) p) s = Ok tt s' /\
      kmem_inv s' l' /\ l' ≡ₚ children T k pi idx ++ l /\
      (forall x, aligned x -> x <> p -> ~ x ∈ children T k pi idx -> same_page (mram s) (mram s') x).
Proof using Ht imgok.
  intros Hrec Hp Hlen. induction idx as [|i idx IH]; intros Hnd Hr s l Hk Hint Hent Hfree.
  { exists s, l. cbn. split_and!; [done|exact Hk|done|]. intros. apply same_page_refl. }
  apply NoDup_cons in Hnd as [Hi Hnd]. apply Forall_cons in Hr as [Hir Hr].
  change (children T k pi (i :: idx)) with (tree_pages T k (pi ++ [i]) ++ children T k pi idx) in *.
  destruct (freewalk_entry k pi p i s l (Hrec i) Hp Hlen Hir Hk) as (s1 & l1 & Hrun & Hk1 & Hp1 & Hs1 & He1).
  { intros x Hx. apply Hint, elem_of_app. by left. }
  { apply Hent. by left. }
  { intros x [->|Hx]%elem_of_cons; apply Hfree; [by left|right]. apply elem_of_app. by left. }
  cbn [for_all]. step_with Hrun. destruct (IH Hnd Hr s1 l1 Hk1) as (s' & l' & Hrun' & Hk' & Hp' & Hs').
  - intros x Hx. apply same_page_trans with (mram s); [apply Hint, elem_of_app; by right|].
    destruct (elem_of_children _ _ _ _ Hx) as (j & r & _ & Hpath). apply Hs1.
    + exact (page_ok_aligned _ (pt_page _ _ _ Ht _ _ Hpath)).
    + intros ->. by apply (self_not_child k pi p idx Hp).
    + intros Hx'. by apply (children_disjoint k pi i idx x Hi).
  - intros j Hj. rewrite He1; [apply Hent; by right| |congruence]. rewrite Forall_forall in Hr. auto.
  - intros x Hx Hin. rewrite Hp1, elem_of_app in Hin. destruct Hin as [Hin|Hin].
    + apply elem_of_cons in Hx as [->|Hx]; [|by apply (children_disjoint k pi i idx x Hi)].
      apply (self_not_child k pi p [i] Hp), elem_of_flat_map. exists i. split; [by left|done].
    + apply (Hfree x); [|done]. apply elem_of_cons in Hx as [->|Hx]; [by left|right]. apply elem_of_app. by right.
  - exists s', l'. split_and!; [exact Hrun'|exact Hk'| |].
    + rewrite Hp', Hp1. rewrite !app_assoc. f_equiv. apply Permutation_app_comm.
    + intros x Hx Hxp Hxt. rewrite elem_of_app in Hxt. apply same_page_trans with (mram s1); [apply Hs1|apply Hs']; tauto.
Qed.

Lemma freewalk_unfold k p : freewalk_level (S k) p = (for_all (seqZ 0 512) (freewalk_body k p) ;;; kfree p).
Proof. reflexivity. Qed.

(** In a last-level table there is nothing to do. *)
Lemma freewalk_last p idx s :
  (forall i, i ∈ idx -> has (ld64 (mram s) (p + 8 * i)) PTE_V = false) ->
  for_all idx (freewalk_body 0 p) s = Ok tt s.
Proof.
  induction idx as [|i idx IH]; intros H; [done|]. cbn [for_all].
  assert (E : freewalk_body 0 p i s = Ok tt s).
  { unfold freewalk_body, load64, gets. unfold bind at 1. by rewrite (H i ltac:(by left)). }
  step_with E. apply IH. intros j Hj. apply H. by right.
Qed.

(** Freeing the table itself, when everything below it is free. *)
Lemma freewalk_self p ps s l s1 l1 :
  page_ok p -> ~ p ∈ ps -> ~ p ∈ l -> kmem_inv s1 l1 -> l1 ≡ₚ ps ++ l ->
  (forall x, aligned x -> x <> p -> ~ x ∈ ps -> same_page (mram s) (mram s1) x) ->
  exists s', kfree p s1 = Ok tt s' /\ freed s l (p :: ps) s'.
Proof using imgok.
  intros Hp Hps Hpl Hk1 Hp1 Hs1.
  assert (Hni : ~ p ∈ l1) by (rewrite Hp1, elem_of_app; tauto).
  pose proof (kfree_ok s1 l1 p Hk1 Hp Hni) as Hrun.
  destruct (kfree_inv s1 l1 p _ Hk1 Hp Hni Hrun) as [Hk2 Hout].
  match type of Hrun with _ = Ok _ ?x => set (s2 := x) in * end. clearbody s2.
  exists s2. split; [exact Hrun|]. split.
  - exists (p :: l1). split; [exact Hk2|]. cbn. by rewrite Hp1.
  - intros x Hx Hxp. rewrite elem_of_cons in Hxp. apply same_page_trans with (mram s1); [apply Hs1; tauto|].
    intros off Hoff. apply Hout.
    destruct (aligned_disjoint x p Hx (page_ok_aligned _ Hp)); [tauto|lia|lia].
Qed.

Lemma freewalk_level_spec k pi : (length pi + k = 2)%nat -> frees_subtree k pi.
Proof using Ht Hleaf imgok.
  revert pi. induction k as [|k IH]; intros pi Hlen q s l Hq Hk Hint Hfree; rewrite freewalk_unfold;
    cbn [tree_pages] in *; rewrite Hq in *.
  - rewrite (bind_ok _ _ s tt s).
    + apply (freewalk_self q [] s l s l); [exact (pt_page _ _ _ Ht _ _ Hq)|by intros ?%elem_of_nil| |exact Hk|done|].
      * apply Hfree. by left.
      * intros. apply same_page_refl.
    + apply freewalk_last. intros i Hi%elem_of_seqZ.
      rewrite (same_page_ld64 m0 (mram s)); [apply (Hleaf pi); [done|lia|lia]| |lia]. apply Hint. by left.
  - fold (children T k pi (seqZ 0 512)) in *.
    destruct (freewalk_entries k pi q (seqZ 0 512)) with (s := s) (l := l) as (s1 & l1 & Hrun & Hk1 & Hp1 & Hs1);
      auto; try lia.
    + intros i. apply IH. rewrite length_app. cbn. lia.
    + apply NoDup_seqZ.
    + apply Forall_forall. intros i Hi%elem_of_seqZ. lia.
    + intros x Hx. apply Hint. by right.
    + intros i Hi%elem_of_seqZ. apply same_page_ld64; [|lia]. apply Hint. by left.
    + step_with Hrun. apply (freewalk_self q _ s l s1 l1); auto.
      * exact (pt_page _ _ _ Ht _ _ Hq).
      * by apply self_not_child.
      * apply Hfree. by left.
Qed.
End free.

(** The virtual page reached by three indices. *)
Definition va_of (i2 i1 i0 : Z) : Z := i2 * 2 ^ 30 + i1 * 2 ^ 21 + i0 * 2 ^ 12.

Lemma PX_va_of i2 i1 i0 : 0 <= i2 < 256 -> 0 <= i1 < 512 -> 0 <= i0 < 512 ->
  PX 2 (va_of i2 i1 i0) = i2 /\ PX 1 (va_of i2 i1 i0) = i1 /\ PX 0 (va_of i2 i1 i0) = i0 /\
  0 <= va_of i2 i1 i0 < MAXVA /\ aligned (va_of i2 i1 i0).
Proof.
  intros. rewrite !PX_spec by lia. change (PXSHIFT 2) with 30. change (PXSHIFT 1) with 21.
  change (PXSHIFT 0) with 12. rewrite MAXVA_val. unfold va_of, aligned, PGSIZE.
  split_and!; dlia.
Qed.

Section uvmfree.
Context {img : KernelImage} {imgok : KernelImageOk img}.

Lemma tree_pages_complete m root T k pi rest x : ptree m root T -> T !! (pi ++ rest) = Some x ->
  (length rest <= k)%nat -> x ∈ tree_pages T k pi.
Proof.
  intros Ht. revert k pi. induction rest as [|i rest IH]; intros k pi Hx Hlen.
  - rewrite app_nil_r in Hx. destruct k; cbn [tree_pages]; rewrite Hx; by left.
  - destruct k as [|k]; [cbn in Hlen; lia|]. cbn [tree_pages].
    destruct (T !! pi) as [p|] eqn:Ep; [|by rewrite (ptree_none _ _ _ _ _ Ht Ep) in Hx].
    right. apply elem_of_flat_map. exists i. split.
    + destruct (pt_shape _ _ _ Ht _ _ Hx) as (_ & Hf & _). apply Forall_app in Hf as [_ Hf].
      apply Forall_cons in Hf as [Hi _]. apply elem_of_seqZ. lia.
    + apply IH; [by rewrite <- app_assoc|cbn in Hlen; lia].
Qed.

Lemma no_leaves m root T L pi p i : ptree m root T -> leaves m T L -> (forall va, L !! va = None) ->
  T !! pi = Some p -> length pi = 2%nat -> 0 <= i < 512 -> has (ld64 m (p + 8 * i)) PTE_V = false.
Proof.
  intros Ht Hl HL Hp Hlen Hi. destruct pi as [|i2 [|i1 [|]]]; try done.
  destruct (pt_shape _ _ _ Ht _ _ Hp) as (_ & Hf & Hh). cbn in Hh.
  apply Forall_cons in Hf as [H2 Hf]. apply Forall_cons in Hf as [H1 _].
  destruct (PX_va_of i2 i1 i) as (E2 & E1 & E0 & Hva & Ha); [lia|lia|lia|].
  pose proof (leaves_lookup _ _ _ _ Hl Hva Ha) as E. rewrite HL in E. unfold pte_at in E.
  rewrite E2, E1, E0, Hp in E. by destruct (has _ _).
Qed.

(** [freewalk] on a table without leaves frees every page of it. *)
Lemma freewalk_run s l root T L : vm_inv s l root T L -> (forall va, L !! va = None) ->
  exists s' l', freewalk root s = Ok tt s' /\ kmem_inv s' l' /\
    (forall p, p ∈ l' <-> p ∈ l \/ exists pi, T !! pi = Some p) /\
    (forall x, aligned x -> (forall pi, T !! pi <> Some x) -> same_page (mram s) (mram s') x).
Proof.
  intros [Hk Ht Hf Hl] HL.
  assert (Hmem : forall x, x ∈ tree_pages T 2 [] <-> exists pi, T !! pi = Some x).
  { intros x. split; [apply elem_of_tree_pages|]. intros [pi Hpi].
    apply (tree_pages_complete (mram s) root T 2 [] pi); [done|done|]. apply (pt_shape _ _ _ Ht _ _ Hpi). }
  destruct (freewalk_level_spec (mram s) root T Ht) with (k := 2%nat) (pi := @nil Z) (q := root) (s := s) (l := l)
    as (s' & Hrun & [(l' & Hk' & Hp) Hs]); [|done|apply (pt_root _ _ _ Ht)|exact Hk| | |].
  - intros. by eapply no_leaves.
  - intros x _. apply same_page_refl.
  - intros x [pi Hpi]%Hmem. by eapply Hf.
  - exists s', l'. split_and!; [exact Hrun|exact Hk'| |].
    + intros p. rewrite Hp, elem_of_app, Hmem. tauto.
    + intros x Hx Hxt. apply Hs; [exact Hx|]. intros [pi Hpi]%Hmem. by eapply Hxt.
Qed.

(** When all that is mapped lies below [sz], [uvmfree] gives back to
    the allocator exactly the frames of the process and the pages of its page
    table, all three levels of it, and does not panic. *)
Theorem uvmfree_frees_everything root sz s l T L lim :
  uvm_inv s l root T L lim -> 0 <= sz <= lim -> (forall va e, L !! va = Some e -> va < sz) ->
  exists s' l', uvmfree root sz s = Ok tt s' /\ kmem_inv s' l' /\
    forall p, p ∈ l' <-> p ∈ l \/ (exists pi, T !! pi = Some p) \/ exists va e, L !! va = Some e /\ p = PTE2PA e.
Proof.
  intros Hu Hsz HL. unfold uvmfree. pose proof (ui_lim _ _ _ _ _ _ Hu) as Hlim. rewrite MAXVA_val in Hlim.
  pose proof (vi_leaves _ _ _ _ _ (ui_vm _ _ _ _ _ _ Hu)) as Hlv.
  destruct (PGROUNDUP_bounds sz) as [Ha Hb]; [unfold PGSIZE; lia|].
  set (n := Z.to_nat (PGROUNDUP sz / PGSIZE)).
  assert (Hn : Z.of_nat n * PGSIZE = PGROUNDUP sz) by (unfold n, PGSIZE in *; dlia).
  destruct (uvmunmap_loop_spec n root 0 s l T L lim Hu) as (s1 & Hrun & Hu1 & _); [done|lia|lia|].
  assert (Hun : when (0 <? sz) (uvmunmap root 0 (PGROUNDUP sz / PGSIZE) true) s = Ok tt s1).
  { destruct (Z.ltb_spec 0 sz); cbn [when].
    - unfold uvmunmap. change (0 mod PGSIZE =? 0) with true. cbn [negb]. fold n.
      replace (PGROUNDUP sz / PGSIZE) with (Z.of_nat n) by (unfold n, PGSIZE in *; dlia).
      rewrite u64_small by (unfold PGSIZE in *; lia). exact Hrun.
    - assert (n = O) as E by (unfold PGSIZE in *; lia). rewrite E in Hrun. exact Hrun. }
  step_with Hun.
  destruct (freewalk_run s1 _ root T _ (ui_vm _ _ _ _ _ _ Hu1)) as (s' & l' & Hrun' & Hk' & Hl' & _).
  - intros va. destruct (_ !! va) as [e|] eqn:E; [|done].
    apply (vi_leaves _ _ _ _ _ (ui_vm _ _ _ _ _ _ Hu1)) in E as (Hva & Hal & Hp & Hv).
    pose proof (unmap_range_lookup n L 0 l va ltac:(done) Hal) as E2.
    rewrite (proj2 (vi_leaves _ _ _ _ _ (ui_vm _ _ _ _ _ _ Hu1) va e)) in E2 by done.
    destruct (Z.leb_spec 0 va), (Z.ltb_spec va (0 + Z.of_nat n * PGSIZE)); cbn [andb] in E2; try done; try lia.
    symmetry in E2. apply HL in E2. lia.
  - exists s', l'. split_and!; [exact Hrun'|exact Hk'|]. intros p. rewrite Hl', unmap_range_free by done. split.
    + intros [[?|(k & e & _ & He & ->)]|?]; [by left|right; right; by exists (0 + k * PGSIZE), e|right; by left].
    + intros [?|[?|(va & e & He & ->)]]; [by left; left|by right|left; right].
      pose proof (HL va e He). apply Hlv in He as He'. destruct He' as (Hva & Hal & _).
      exists (va / PGSIZE), e. replace (0 + va / PGSIZE * PGSIZE) with va by (unfold aligned, PGSIZE in *; dlia).
      split_and!; [unfold PGSIZE in *; dlia|unfold aligned, PGSIZE in *; dlia|done|done].
Qed.
End uvmfree.

Lemma uvmfree_frees_everything_witness : exists s s' l',
  uvmfree demo_root 8192 s = Ok tt s' /\ kmem_inv s' l' /\
  forall p, p ∈ l' <-> p ∈ demo_free \/ (exists pi, ({[ [] := demo_root ]} : tables) !! pi = Some p) \/
    exists va e, (∅ : leafmap) !! va = Some e /\ p = PTE2PA e.
Proof.
  destruct demo_space as (s & Hu). exists s.
  apply (uvmfree_frees_everything demo_root 8192 s demo_free _ ∅ MAXVA Hu); [rewrite MAXVA_val; lia|].
  intros va e. by rewrite lookup_empty.
Defined.
