(* ===== verification/VmUser.v ===== *)
(** * User memory

    [copyout], [copyin], [copyinstr] and [vmfault] (kernel/vm.c) against the
    memory a process sees. A page below [sz] that [sbrk] has not allocated
    yet reads as zeros in that view, so allocating it is invisible. *)

From stdpp Require Import base gmap list numbers strings.
From Stdlib Require Import ZArith Lia.
From S2P Require Import Prelude Riscv Mem Spinlock Kalloc Vm VmSpec VmOps.
Open Scope Z_scope.
Open Scope kernel_scope.

(** The byte the process sees at [va], [None] when it may not access it. *)
Definition ulog (m : ram) (L : leafmap) (sz va : Z) : option Z :=
  match L !! PGROUNDDOWN va with
  | Some e => if has e PTE_U then Some (ld8 m (PTE2PA e + (va - PGROUNDDOWN va))) else None
  | None => if PGROUNDDOWN va <? sz then Some 0 else None
  end.

(** Whether the process may write at [va]. *)
Definition uwritable (L : leafmap) (sz va : Z) : bool :=
  match L !! PGROUNDDOWN va with
  | Some e => has e PTE_U && has e PTE_W
  | None => PGROUNDDOWN va <? sz
  end.

Lemma PGROUNDDOWN_aligned a : aligned (PGROUNDDOWN a).
Proof. unfold aligned. rewrite PGROUNDDOWN_spec. apply Z.mod_mul. unfold PGSIZE. lia. Qed.

Lemma PGROUNDDOWN_in p off : aligned p -> 0 <= off < PGSIZE -> PGROUNDDOWN (p + off) = p.
Proof. intros Hp Ho. rewrite PGROUNDDOWN_spec. unfold aligned, PGSIZE in *. dlia. Qed.

Section user.
Context {img : KernelImage} {imgok : KernelImageOk img}.

Record user_inv (s : memst) (l : list Z) (root : Z) (T : tables) (L : leafmap) (lim sz : Z) : Prop := {
  us_inv : uvm_inv s l root T L lim;
  us_sz : 0 <= sz <= lim;
  us_user : forall va e, L !! va = Some e -> has e PTE_U = true -> va < lim
}.

(** Pages the allocator, the page table or the process may write. *)
Definition in_use (l : list Z) (T : tables) (L : leafmap) (lim p : Z) : Prop :=
  p ∈ l \/ (exists pi, T !! pi = Some p) \/ exists va e, L !! va = Some e /\ va < lim /\ PTE2PA e = p.

(** What faulting pages in does. *)
Record faulted (s : memst) (l : list Z) (root : Z) (T : tables) (L : leafmap) (lim sz : Z)
    (s' : memst) (l' : list Z) (T' : tables) (L' : leafmap) : Prop := {
  fa_inv : user_inv s' l' root T' L' lim sz;
  fa_frame : vm_frame s l T s';
  fa_log : forall va, ulog (mram s') L' sz va = ulog (mram s) L sz va;
  fa_use : forall p, in_use l' T' L' lim p -> in_use l T L lim p;
  fa_write : forall va, uwritable L' sz va = uwritable L sz va;
  fa_more : L ⊆ L'
}.

Lemma faulted_refl s l root T L lim sz : user_inv s l root T L lim sz -> faulted s l root T L lim sz s l T L.
Proof. intros H. split; [exact H|apply vm_frame_refl|done|done|done|done]. Qed.

(** The process's own pages are not written by growing the page table. *)
Lemma own_same s l root T L lim s' va e : uvm_inv s l root T L lim -> vm_frame s l T s' ->
  L !! va = Some e -> va < lim -> same_page (mram s) (mram s') (PTE2PA e).
Proof.
  intros Hu Hf HL Hlt. destruct (ui_own _ _ _ _ _ _ Hu va e HL Hlt) as (Hok & Hni & Hnt).
  apply Hf; [exact (page_ok_aligned _ Hok)|exact Hni|exact Hnt].
Qed.

Lemma ulog_same s l root T L lim sz s' va : user_inv s l root T L lim sz -> vm_frame s l T s' ->
  ulog (mram s') L sz va = ulog (mram s) L sz va.
Proof.
  intros [Hu _ Hus] Hf. unfold ulog. destruct (L !! PGROUNDDOWN va) as [e|] eqn:E; [|done].
  destruct (has e PTE_U) eqn:EU; [|done]. f_equal.
  apply (own_same s l root T L lim s' (PGROUNDDOWN va) e Hu Hf E (Hus _ _ E EU)).
  rewrite PGROUNDDOWN_spec. unfold PGSIZE. dlia.
Qed.

Lemma in_use_grow l T L lim l' T' : vm_grows l T l' T' -> forall p, in_use l' T' L lim p -> in_use l T L lim p.
Proof.
  intros [G1 G2 G3 _] p [Hp|[[pi Hp]|Hp]]; [left; auto| |right; by right].
  destruct (G3 _ _ Hp) as [?|?]; [right; left; by exists pi|by left].
Qed.

Definition fault_perm : Z := Z.lor (Z.lor PTE_W PTE_U) PTE_R.

(** Mapping a fresh zero page below [sz] does not change what the process
    sees. *)
Lemma faulted_map s q l root T L lim sz va m1 s' l' T' :
  user_inv s (q :: l) root T L lim sz -> aligned va -> 0 <= va < sz -> L !! va = None ->
  page_ok q -> zero_page m1 q -> same_page m1 (mram s') q ->
  vm_frame s (q :: l) T s' -> vm_grows l T l' T' ->
  uvm_inv s' l' root T' (<[va := mkpte q (Z.lor fault_perm PTE_V)]> L) lim ->
  faulted s (q :: l) root T L lim sz s' l' T' (<[va := mkpte q (Z.lor fault_perm PTE_V)]> L).
Proof.
  intros Hus Ha Hva HL Hq Hz Hs Hf Hg Hu'. pose proof (us_sz _ _ _ _ _ _ _ Hus) as Hsz.
  pose proof (PTE2PA_leaf q fault_perm Hq ltac:(done)) as Hpa.
  assert (HU : has (mkpte q (Z.lor fault_perm PTE_V)) PTE_U = true).
  { change PTE_U with (Z.shiftl 1 4). rewrite has_mkpte; [done|exact (page_ok_pa q Hq)|done|lia]. }
  assert (HW : has (mkpte q (Z.lor fault_perm PTE_V)) PTE_W = true).
  { change PTE_W with (Z.shiftl 1 2). rewrite has_mkpte; [done|exact (page_ok_pa q Hq)|done|lia]. }
  split; [split; [exact Hu'|exact Hsz|]|exact Hf| | | |by apply insert_subseteq].
  - intros va' e' [[<- _]|[_ HL']]%lookup_insert_Some HU'; [lia|]. by eapply us_user.
  - intros va'. destruct (decide (PGROUNDDOWN va' = va)) as [E|E].
    + unfold ulog. rewrite E, lookup_insert_eq, HU, Hpa, HL.
      destruct (Z.ltb_spec va sz); [|lia]. f_equal.
      assert (Hoff : 0 <= va' - va < PGSIZE) by (rewrite <- E, PGROUNDDOWN_spec; unfold PGSIZE; dlia).
      by rewrite (Hs _ Hoff), (Hz _ Hoff).
    + rewrite <- (ulog_same s _ root T L lim sz s' va' Hus Hf). unfold ulog. by rewrite lookup_insert_ne.
  - intros p [Hp|[[pi Hp]|(va' & e' & HL' & Hlt & Hp)]].
    + left. right. by apply Hg.
    + destruct (gr_new _ _ _ _ Hg _ _ Hp); [right; left; by exists pi|left; by right].
    + apply lookup_insert_Some in HL' as [[<- <-]|[_ HL']]; [left; rewrite Hpa in Hp; subst; by left|].
      right; right. by exists va', e'.
  - intros va'. unfold uwritable. destruct (decide (va = PGROUNDDOWN va')) as [<-|].
    + rewrite lookup_insert_eq, HU, HW, HL. symmetry. apply Z.ltb_lt. lia.
    + by rewrite lookup_insert_ne.
Qed.

Lemma walkaddr_run s l root T L va : vm_inv s l root T L -> 0 <= va -> aligned va ->
  walkaddr root va s =
    Ok (match L !! va with Some e => if has e PTE_U then PTE2PA e else 0 | None => 0 end) s.
Proof.
  intros Hv Hva Ha. unfold walkaddr. destruct (Z.leb_spec MAXVA va).
  - destruct (L !! va) as [e|] eqn:E; [|done]. apply (vi_leaves _ _ _ _ _ Hv) in E as [? _]. lia.
  - assert (Hr : 0 <= va < MAXVA) by lia. step_with (walk_noalloc va s l root T L Hr Hv).
    pose proof (lookup_slot s l root T L va Hv Hr Ha) as Hs.
    destruct (slot T va) as [pte|]; cbn [default from_option id]; [|by rewrite Hs].
    destruct Hs as [Hp Hs]. destruct (Z.eqb_spec pte 0) as [|_]; [done|].
    unfold load64, gets. unfold bind at 1. destruct (has (ld64 (mram s) pte) PTE_V); rewrite Hs; cbn [negb]; [|done].
    by destruct (has _ PTE_U).
Qed.

Lemma ismapped_run s l root T L va : vm_inv s l root T L -> 0 <= va < MAXVA -> aligned va ->
  ismapped root va s = Ok (match L !! va with Some _ => true | None => false end) s.
Proof.
  intros Hv Hr Ha. unfold ismapped. step_with (walk_noalloc va s l root T L Hr Hv).
  pose proof (lookup_slot s l root T L va Hv Hr Ha) as Hs.
  destruct (slot T va) as [pte|]; cbn [default from_option id]; [|by rewrite Hs].
  destruct Hs as [Hp Hs]. destruct (Z.eqb_spec pte 0) as [|_]; [done|].
  unfold load64, gets, bind, ret. by destruct (has (ld64 (mram s) pte) PTE_V); rewrite Hs.
Qed.

(** How a fault at [va] ends: the page is now mapped for the user, where it
    was one of the process that had no memory yet; or 0, because the address is
    beyond the process, because the page is mapped already, or because memory
    is exhausted. *)
Definition served (L : leafmap) (sz va pa : Z) (l' : list Z) (L' : leafmap) : Prop :=
  (pa = 0 /\ (sz <= va \/ (exists e, L !! PGROUNDDOWN va = Some e) \/ (L !! PGROUNDDOWN va = None /\ (length l' <= 1)%nat))) \/
  (pa <> 0 /\ va < sz /\ L !! PGROUNDDOWN va = None /\
   exists e, L' !! PGROUNDDOWN va = Some e /\ has e PTE_U = true /\ has e PTE_W = true /\ PTE2PA e = pa).

Lemma vmfault_run s l root T L lim sz va : user_inv s l root T L lim sz -> 0 <= va ->
  exists pa s' l' T' L', vmfault (mk_curproc sz root) root va s = Ok pa s' /\
    faulted s l root T L lim sz s' l' T' L' /\ served L sz va pa l' L'.
Proof.
  intros Hus Hva. pose proof (us_inv _ _ _ _ _ _ _ Hus) as Hu. pose proof (ui_vm _ _ _ _ _ _ Hu) as Hv.
  pose proof (us_sz _ _ _ _ _ _ _ Hus). pose proof (ui_lim _ _ _ _ _ _ Hu).
  destruct (PGROUNDDOWN_bounds va Hva) as (Ha & Hb1 & Hb2). unfold served. set (va0 := PGROUNDDOWN va) in *.
  assert (Hrefl : forall P : Prop, P -> faulted s l root T L lim sz s l T L) by (intros; by apply faulted_refl).
  unfold vmfault. cbn [cur_sz cur_pagetable]. destruct (Z.leb_spec sz va).
  { exists 0, s, l, T, L. split_and!; [done|by apply (Hrefl True)|left]. split; [done|by left]. }
  fold va0. step_with (ismapped_run s l root T L va0 Hv ltac:(lia) Ha).
  destruct (L !! va0) as [e|] eqn:E.
  { exists 0, s, l, T, L. split_and!; [done|by apply (Hrefl True)|left]. split; [done|right; left; by exists e]. }
  destruct l as [|q l].
  { step_with (kalloc_empty s (vi_kmem _ _ _ _ _ Hv)). exists 0, s, [], T, L.
    split_and!; [done|by apply (Hrefl True)|left]. split; [done|right; right; cbn; split; [done|lia]]. }
  destruct (zalloc_run s q l (ret 0) (fun mem =>
     r <- mappages root va0 PGSIZE mem (Z.lor (Z.lor PTE_W PTE_U) PTE_R) ;;
     if negb (r =? 0) then kfree mem ;;; ret 0 else ret mem) (vi_kmem _ _ _ _ _ Hv)) as (m1 & E1 & Hsame & Hz & Hq).
  rewrite E1. clear E1.
  destruct (map_fresh s q l root T L lim va0 fault_perm m1 Hu Ha ltac:(lia) E ltac:(done) Hsame)
    as (r & s1 & l1 & T1 & Hrun & Hf & Hg & _ & Hs & Hr).
  fold fault_perm. step_with Hrun. destruct Hr as [[-> Hu1]|(-> & -> & Hu1 & Hnt & Hnew)].
  - exists q, s1, l1, T1, (<[va0 := mkpte q (Z.lor fault_perm PTE_V)]> L). split_and!; [done| |right].
    + eapply faulted_map; eauto. lia.
    + split_and!; [pose proof (page_ok_pos q Hq); lia|done|done|]. exists (mkpte q (Z.lor fault_perm PTE_V)).
      split_and!; [by rewrite lookup_insert_eq| | |by apply PTE2PA_leaf].
      * change PTE_U with (Z.shiftl 1 4). rewrite has_mkpte; [done|exact (page_ok_pa q Hq)|done|lia].
      * change PTE_W with (Z.shiftl 1 2). rewrite has_mkpte; [done|exact (page_ok_pa q Hq)|done|lia].
  - destruct (uvm_kfree _ _ _ _ _ _ q Hu1 Hq ltac:(by intros ?%elem_of_nil) Hnt Hnew) as (s2 & Hrun2 & Hu2 & Hf2).
    cbn [Z.eqb negb]. step_with Hrun2. exists 0, s2, [q], T1, L. split_and!; [done| |left; split; [done|right; right; cbn; split; [done|lia]]].
    assert (Hf12 : vm_frame s (q :: l) T s2).
    { eapply vm_frame_chain; [exact Hf|exact Hf2| |].
      - intros p ->%list_elem_of_singleton. left. by left.
      - intros pi p Hp. destruct (gr_new _ _ _ _ Hg _ _ Hp); [by left|right; by right]. }
    split; [split; [exact Hu2|lia|apply Hus]|exact Hf12| | |done|done].
    + intros va'. by apply (ulog_same s (q :: l) root T L lim sz).
    + intros p [->%list_elem_of_singleton|[[pi Hp]|Hp]]; [left; by left| |right; by right].
      destruct (gr_new _ _ _ _ Hg _ _ Hp); [right; left; by exists pi|left; by right].
Qed.


(** ** Copying *)

(** The page of a copy: it is mapped for the user, or the process may not
    access it, or there was no memory for it. *)
Definition found (s : memst) (L : leafmap) (sz va pa : Z) (l' : list Z) (L' : leafmap) : Prop :=
  (pa = 0 /\ (ulog (mram s) L sz va = None \/ (L !! va = None /\ (length l' <= 1)%nat))) \/
  (pa <> 0 /\ exists e, L' !! va = Some e /\ has e PTE_U = true /\ PTE2PA e = pa).

Lemma PGROUNDDOWN_idem va : aligned va -> PGROUNDDOWN va = va.
Proof. intros Ha. rewrite <- (Z.add_0_r va) at 1. apply PGROUNDDOWN_in; [done|unfold PGSIZE; lia]. Qed.

Lemma user_page_run s l root T L lim sz va : user_inv s l root T L lim sz -> 0 <= va -> aligned va ->
  exists pa s' l' T' L', user_page (mk_curproc sz root) root va s = Ok pa s' /\
    faulted s l root T L lim sz s' l' T' L' /\ found s L sz va pa l' L'.
Proof.
  intros Hus Hva Ha. pose proof (us_inv _ _ _ _ _ _ _ Hus) as Hu. pose proof (ui_vm _ _ _ _ _ _ Hu) as Hv.
  unfold user_page. step_with (walkaddr_run s l root T L va Hv Hva Ha).
  assert ((exists e, L !! va = Some e /\ has e PTE_U = true) \/ ~ exists e, L !! va = Some e /\ has e PTE_U = true) as [(e & E & EU)|Hno].
  { destruct (L !! va) as [e|]; [destruct (has e PTE_U) eqn:EU; [left; by exists e|]|]; right; intros (e' & E' & EU'); congruence. }
  - rewrite E, EU. destruct (ui_own _ _ _ _ _ _ Hu va e E (us_user _ _ _ _ _ _ _ Hus _ _ E EU)) as (Hok & _).
    pose proof (page_ok_pos _ Hok). destruct (Z.eqb_spec (PTE2PA e) 0) as [|_]; [lia|].
    exists (PTE2PA e), s, l, T, L. split_and!; [done|by apply faulted_refl|right].
    split; [lia|]. by exists e.
  - replace (match L !! va with Some e => if has e PTE_U then PTE2PA e else 0 | None => 0 end) with 0
      by (destruct (L !! va) as [e|]; [destruct (has e PTE_U) eqn:EU; [destruct Hno; by exists e|done]|done]).
    cbn [Z.eqb]. destruct (vmfault_run s l root T L lim sz va Hus Hva) as (pa & s' & l' & T' & L' & Hrun & F & Hsv).
    exists pa, s', l', T', L'. split_and!; [exact Hrun|exact F|]. unfold served in Hsv. unfold found, ulog. rewrite (PGROUNDDOWN_idem va Ha) in *.
    destruct Hsv as [(-> & Hr)|(Hpa & _ & _ & e & HL & HU & _ & Hp)]; [left|right; split; [done|by exists e]].
    split; [done|]. destruct Hr as [Hsz|[(e & E)|Hr]]; [left|left|by right].
    + destruct (L !! va) as [e|] eqn:E; [destruct (has e PTE_U) eqn:EU; [destruct Hno; by exists e|done]|].
      by destruct (Z.ltb_spec va sz); [lia|].
    + rewrite E. destruct (has e PTE_U) eqn:EU; [destruct Hno; by exists e|done].
Qed.

(** Kernel memory a copy may read or write: none of the managed pages. *)
Definition kbuf (l : list Z) (T : tables) (L : leafmap) (lim a len : Z) : Prop :=
  forall i, 0 <= i < len -> ~ in_use l T L lim (PGROUNDDOWN (a + i)).

(** Writes that stay out of the managed pages change nothing the process or
    the page table can see. *)
Lemma user_store s l root T L lim sz m' : user_inv s l root T L lim sz ->
  (forall p, in_use l T L lim p -> same_page (mram s) m' p) ->
  user_inv (set_ram s m') l root T L lim sz /\ (forall va, ulog m' L sz va = ulog (mram s) L sz va).
Proof.
  intros [[[Hk Ht Hf Hl] Hlim Hown Hinj] Hsz Hus] Hs.
  destruct (vm_inv_tables_same s (set_ram s m') root T L) as [Ht' Hl']; [|exact Ht|exact Hl|].
  { intros pi p Hp. apply Hs. right; left. by exists pi. }
  split.
  - split; [split; [split|..]|..]; try done.
    destruct s as [m lk fl]. apply (kmem_inv_same m); [exact Hk|]. intros p Hp. apply Hs. by left.
  - intros va. unfold ulog. destruct (L !! PGROUNDDOWN va) as [e|] eqn:E; [|done].
    destruct (has e PTE_U) eqn:EU; [|done]. f_equal. apply Hs.
    + right; right. exists (PGROUNDDOWN va), e. split_and!; [done|by eapply Hus|done].
    + rewrite PGROUNDDOWN_spec. unfold PGSIZE. dlia.
Qed.

Lemma in_use_aligned s l root T L lim sz p : user_inv s l root T L lim sz -> in_use l T L lim p -> aligned p.
Proof.
  intros [[[Hk Ht Hf Hl] Hlim Hown Hinj] Hsz Hus] [Hp|[[pi Hp]|(va & e & HL & Hlt & <-)]].
  - exact (page_ok_aligned _ (kmem_inv_page _ _ _ Hk Hp)).
  - exact (page_ok_aligned _ (pt_page _ _ _ Ht _ _ Hp)).
  - exact (page_ok_aligned _ (proj1 (Hown _ _ HL Hlt))).
Qed.

Lemma memmove_kbuf s l root T L lim sz d a n : user_inv s l root T L lim sz -> 0 <= n ->
  kbuf l T L lim d n -> forall p, in_use l T L lim p -> same_page (mram s) (memmove (mram s) d a n) p.
Proof.
  intros Hus Hn Hk p Hp off Hoff. rewrite ld8_memmove by done.
  destruct (Z.leb_spec d (p + off)), (Z.ltb_spec (p + off) (d + n)); cbn [andb]; try done.
  destruct (Hk (p + off - d)); [lia|]. replace (d + (p + off - d)) with (p + off) by lia.
  rewrite PGROUNDDOWN_in; [done|by eapply in_use_aligned|done].
Qed.

(** Accessibility is a property of the page. *)
Lemma ulog_page m L sz va va' : PGROUNDDOWN va = PGROUNDDOWN va' ->
  ulog m L sz va = None -> ulog m L sz va' = None.
Proof.
  unfold ulog. intros ->. destruct (L !! _) as [e|]; [by destruct (has e PTE_U)|].
  by destruct (_ <? _).
Qed.

Lemma served_ulog s L sz va e m' L' l root T lim s' l' T' :
  faulted s l root T L lim sz s' l' T' L' -> L' !! PGROUNDDOWN va = Some e -> has e PTE_U = true -> m' = mram s' ->
  ulog (mram s) L sz va = Some (ld8 m' (PTE2PA e + (va - PGROUNDDOWN va))).
Proof.
  intros F HL HU ->. rewrite <- (fa_log _ _ _ _ _ _ _ _ _ _ _ F). unfold ulog. by rewrite HL, HU.
Qed.

(** What a copy into kernel memory at [d] does. *)
Record copied (s : memst) (l : list Z) (root : Z) (T : tables) (L : leafmap) (lim sz d len : Z)
    (s' : memst) (l' : list Z) (T' : tables) (L' : leafmap) : Prop := {
  co_inv : user_inv s' l' root T' L' lim sz;
  co_log : forall va, ulog (mram s') L' sz va = ulog (mram s) L sz va;
  co_use : forall p, in_use l' T' L' lim p -> in_use l T L lim p;
  co_rest : forall a, ~ in_use l T L lim (PGROUNDDOWN a) -> ~ d <= a < d + len ->
    ld8 (mram s') a = ld8 (mram s) a;
  co_more : L ⊆ L'
}.

Lemma faulted_copied s l root T L lim sz d len s' l' T' L' : faulted s l root T L lim sz s' l' T' L' ->
  copied s l root T L lim sz d len s' l' T' L'.
Proof.
  intros [F1 F2 F3 F4 _ F6]. split; [exact F1|exact F3|exact F4| |exact F6]. intros a Ha _.
  replace a with (PGROUNDDOWN a + (a - PGROUNDDOWN a)) by lia. apply F2.
  - apply PGROUNDDOWN_aligned.
  - intros Hin. apply Ha. by left.
  - intros pi Hpi. apply Ha. right; left. by exists pi.
  - rewrite PGROUNDDOWN_spec. unfold PGSIZE. dlia.
Qed.

Lemma copied_trans s1 l1 root T1 L1 lim sz d len1 len2 s2 l2 T2 L2 s3 l3 T3 L3 :
  copied s1 l1 root T1 L1 lim sz d len1 s2 l2 T2 L2 ->
  copied s2 l2 root T2 L2 lim sz (d + len1) len2 s3 l3 T3 L3 -> 0 <= len1 -> 0 <= len2 ->
  copied s1 l1 root T1 L1 lim sz d (len1 + len2) s3 l3 T3 L3.
Proof.
  intros [A1 B1 C1 D1 E1] [A2 B2 C2 D2 E2] Hl1 Hl2. split; [exact A2| |by auto| |by etrans].
  - intros va. by rewrite B2, B1.
  - intros a Ha Hr. rewrite D2, D1; [done|done|lia| |lia]. intros Hu. apply Ha. by apply C1.
Qed.

(** One page of [copyin], the page being there. *)
Lemma copyin_step s l root T L lim sz s1 l1 T1 L1 e dst srcva n :
  faulted s l root T L lim sz s1 l1 T1 L1 -> L1 !! PGROUNDDOWN srcva = Some e -> has e PTE_U = true ->
  0 <= n <= PGSIZE - (srcva - PGROUNDDOWN srcva) -> kbuf l T L lim dst n ->
  let s2 := set_ram s1 (memmove (mram s1) dst (PTE2PA e + (srcva - PGROUNDDOWN srcva)) n) in
  copied s l root T L lim sz dst n s2 l1 T1 L1 /\
  forall i, 0 <= i < n -> ulog (mram s) L sz (srcva + i) = Some (ld8 (mram s2) (dst + i)).
Proof.
  intros F HL HU Hn Hk s2. pose proof (fa_inv _ _ _ _ _ _ _ _ _ _ _ F) as Hus1.
  assert (Hk1 : kbuf l1 T1 L1 lim dst n).
  { intros i Hi Hin. apply (Hk i Hi). by apply (fa_use _ _ _ _ _ _ _ _ _ _ _ F). }
  destruct (user_store _ _ _ _ _ _ _ _ Hus1 (memmove_kbuf _ _ _ _ _ _ _ dst
    (PTE2PA e + (srcva - PGROUNDDOWN srcva)) n Hus1 ltac:(lia) Hk1)) as [Hus2 Hlog].
  split.
  - rewrite <- (Z.add_0_l n) at 1. apply copied_trans with s1 l1 T1 L1;
      [by apply faulted_copied| |lia|lia].
    rewrite Z.add_0_r. split; [exact Hus2|exact Hlog|done| |done]. intros a _ Ha. cbn [s2 set_ram mram].
    rewrite ld8_memmove by lia. destruct (Z.leb_spec dst a), (Z.ltb_spec a (dst + n)); cbn [andb]; try done. lia.
  - intros i Hi. assert (Hpg : PGROUNDDOWN (srcva + i) = PGROUNDDOWN srcva).
    { replace (srcva + i) with (PGROUNDDOWN srcva + (srcva - PGROUNDDOWN srcva + i)) by lia.
      apply PGROUNDDOWN_in; [apply PGROUNDDOWN_aligned|]. rewrite PGROUNDDOWN_spec in *. unfold PGSIZE in *. dlia. }
    erewrite (served_ulog s L sz (srcva + i) e (mram s1)); [|exact F|by rewrite Hpg|exact HU|done].
    cbn [s2 set_ram mram]. rewrite ld8_memmove by lia. rewrite Hpg.
    destruct (Z.leb_spec dst (dst + i)), (Z.ltb_spec (dst + i) (dst + n)); cbn [andb]; try lia.
    do 2 f_equal. lia.
Qed.

Lemma copyin_loop_run fuel dst srcva len s l root T L lim sz :
  user_inv s l root T L lim sz -> 0 <= srcva -> 0 <= len -> kbuf l T L lim dst len ->
  (srcva - PGROUNDDOWN srcva) + len <= Z.of_nat fuel * PGSIZE ->
  exists r s' l' T' L', copyin_loop fuel (mk_curproc sz root) root dst srcva len s = Ok r s' /\
    copied s l root T L lim sz dst len s' l' T' L' /\
    ((r = 0 /\ forall i, 0 <= i < len -> ulog (mram s) L sz (srcva + i) = Some (ld8 (mram s') (dst + i))) \/
     (r = -1 /\ exists i, 0 <= i < len /\ (ulog (mram s) L sz (srcva + i) = None \/ (L !! PGROUNDDOWN (srcva + i) = None /\ (length l' <= 1)%nat)))).
Proof.
  revert dst srcva len s l T L.
  induction fuel as [|fuel IH]; intros dst srcva len s l T L Hus Hsrc Hlen Hk Hfuel; cbn [copyin_loop];
    destruct (Z.ltb_spec 0 len);
    try (exists 0, s, l, T, L; split_and!; [done|by apply faulted_copied, faulted_refl|left; split; [done|lia]]).
  { pose proof (PGROUNDDOWN_bounds srcva Hsrc). lia. }
  destruct (PGROUNDDOWN_bounds srcva Hsrc) as (Ha & Hb1 & Hb2). set (va0 := PGROUNDDOWN srcva) in *.
  destruct (user_page_run s l root T L lim sz va0 Hus ltac:(lia) Ha) as (pa & s1 & l1 & T1 & L1 & Hrun & F & Hsv).
  step_with Hrun. destruct Hsv as [[-> Hno]|(Hpa & e & HL & HU & <-)].
  { exists (-1), s1, l1, T1, L1. split_and!; [done|by apply faulted_copied|right]. split; [done|].
    exists 0. split; [lia|]. rewrite Z.add_0_r. fold va0. destruct Hno as [Hno|]; [left|by right]. eapply ulog_page; [|exact Hno].
    by apply PGROUNDDOWN_idem. }
  destruct (Z.eqb_spec (PTE2PA e) 0) as [|_]; [done|].
  set (n := if len <? PGSIZE - (srcva - va0) then len else PGSIZE - (srcva - va0)).
  assert (Hn : 0 < n <= len /\ n <= PGSIZE - (srcva - va0) /\ (n < len -> n = PGSIZE - (srcva - va0)))
    by (unfold n; destruct (Z.ltb_spec len (PGSIZE - (srcva - va0))); lia).
  clearbody n. unfold store, modify. unfold bind at 1.
  destruct (copyin_step s l root T L lim sz s1 l1 T1 L1 e dst srcva n F HL HU ltac:(lia)) as [C Hbytes].
  { intros i Hi. apply Hk. lia. }
  fold va0 in C, Hbytes. set (s2 := set_ram s1 _) in *. clearbody s2.
  assert (Hva0 : 0 <= va0 < MAXVA).
  { apply (vi_leaves _ _ _ _ _ (ui_vm _ _ _ _ _ _ (us_inv _ _ _ _ _ _ _ (fa_inv _ _ _ _ _ _ _ _ _ _ _ F)))) in HL. apply HL. }
  rewrite u64_small by (rewrite MAXVA_val in *; unfold PGSIZE; lia).
  assert (Hnext : aligned (va0 + PGSIZE)) by (by apply aligned_next).
  assert (Hr : PGROUNDDOWN (va0 + PGSIZE) = va0 + PGSIZE).
  { rewrite <- (Z.add_0_r (va0 + PGSIZE)) at 1. apply PGROUNDDOWN_in; [done|unfold PGSIZE; lia]. }
  destruct (IH (dst + n) (va0 + PGSIZE) (len - n) s2 l1 T1 L1) as (r & s' & l' & T' & L' & Hrun' & C' & Hres).
  { apply C. } { unfold PGSIZE; lia. } { lia. }
  { intros i Hi Hin. apply (Hk (n + i)); [lia|]. replace (dst + (n + i)) with (dst + n + i) by lia. by apply C. }
  { rewrite Hr. unfold PGSIZE in *. lia. }
  exists r, s', l', T', L'. split_and!; [exact Hrun'| |].
  { replace len with (n + (len - n)) by lia. eapply copied_trans; [exact C|exact C'|lia|lia]. }
  assert (Hshift : forall i, n <= i < len -> va0 + PGSIZE + (i - n) = srcva + i) by lia.
  destruct Hres as [[-> Hb]|[-> Hno]]; [left|right]; split; [done| |done|].
  - intros i Hi. destruct (Z_lt_le_dec i n) as [Hin|Hin].
    + rewrite (Hbytes i) by lia. f_equal. symmetry. apply (co_rest _ _ _ _ _ _ _ _ _ _ _ _ _ C'); [|lia].
      intros Hu. apply (Hk i Hi). by apply (co_use _ _ _ _ _ _ _ _ _ _ _ _ _ C).
    + rewrite <- (co_log _ _ _ _ _ _ _ _ _ _ _ _ _ C), <- (Hshift i) by lia. rewrite Hb by lia. do 2 f_equal. lia.
  - destruct Hno as (i & Hi & Hno). exists (n + i). split; [lia|].
    rewrite <- (co_log _ _ _ _ _ _ _ _ _ _ _ _ _ C), <- (Hshift (n + i)) by lia. replace (n + i - n) with i by lia.
    destruct Hno as [|[Hno Hl]]; [by left|right]. split; [|done]. eapply lookup_weaken_None; [exact Hno|apply C].
Qed.

(** [copyin] returns 0 with the kernel buffer holding exactly the
    bytes the process sees at [srcva], whatever pages had to be faulted in, or
    -1 when some byte of the range is not accessible to the process (or has no
    memory yet, and memory ran out); what the process sees, and kernel memory outside the buffer,
    does not change. *)
Theorem copyin_reads_user dst srcva len s l root T L lim sz :
  user_inv s l root T L lim sz -> 0 <= srcva -> 0 <= len -> kbuf l T L lim dst len ->
  exists r s' l' T' L', copyin (mk_curproc sz root) root dst srcva len s = Ok r s' /\
    copied s l root T L lim sz dst len s' l' T' L' /\
    ((r = 0 /\ forall i, 0 <= i < len -> ulog (mram s) L sz (srcva + i) = Some (ld8 (mram s') (dst + i))) \/
     (r = -1 /\ exists i, 0 <= i < len /\ (ulog (mram s) L sz (srcva + i) = None \/ (L !! PGROUNDDOWN (srcva + i) = None /\ (length l' <= 1)%nat)))).
Proof.
  intros Hus Hsrc Hlen Hk. apply copyin_loop_run; auto.
  pose proof (PGROUNDDOWN_bounds srcva Hsrc). unfold PGSIZE in *. dlia.
Qed.

(** ** copyout *)

(** Writing into one of the process's own pages. *)
Lemma user_write s l root T L lim sz va0 e m' : user_inv s l root T L lim sz ->
  L !! va0 = Some e -> has e PTE_U = true ->
  (forall p, aligned p -> p <> PTE2PA e -> same_page (mram s) m' p) ->
  user_inv (set_ram s m') l root T L lim sz /\
  forall va, PGROUNDDOWN va <> va0 -> ulog m' L sz va = ulog (mram s) L sz va.
Proof.
  intros Hus HL HU Hs. pose proof Hus as [[[Hk Ht Hf Hl] Hlim Hown Hinj] Hsz Huu].
  destruct (Hown _ _ HL (Huu _ _ HL HU)) as (Hok & Hni & Hnt).
  destruct (vm_inv_tables_same s (set_ram s m') root T L) as [Ht' Hl']; [|exact Ht|exact Hl|].
  { intros pi p Hp. apply Hs; [exact (page_ok_aligned _ (pt_page _ _ _ Ht _ _ Hp))|].
    intros ->. exact (Hnt _ Hp). }
  split.
  - split; [split; [split|..]|..]; try done.
    destruct s as [m lk fl]. apply (kmem_inv_same m); [exact Hk|]. intros p Hp.
    apply Hs; [exact (page_ok_aligned _ (kmem_inv_page _ _ _ Hk Hp))|]. by intros ->.
  - intros va Hne. unfold ulog. destruct (L !! PGROUNDDOWN va) as [e'|] eqn:E; [|done].
    destruct (has e' PTE_U) eqn:EU; [|done]. f_equal. pose proof (Huu _ _ E EU) as Hlt. apply Hs.
    + exact (page_ok_aligned _ (proj1 (Hown _ _ E Hlt))).
    + intros Epa. apply Hne. by eapply Hinj; [| |exact Hlt|exact (Huu _ _ HL HU)|].
    + rewrite PGROUNDDOWN_spec. unfold PGSIZE. dlia.
Qed.

(** The view after [k] bytes from [src] have been written at [d]. *)
Record wrote (s : memst) (l : list Z) (root : Z) (T : tables) (L : leafmap) (lim sz d src k : Z)
    (s' : memst) (l' : list Z) (T' : tables) (L' : leafmap) : Prop := {
  wr_inv : user_inv s' l' root T' L' lim sz;
  wr_log : forall va, ulog (mram s') L' sz va =
    if (d <=? va) && (va <? d + k) then Some (ld8 (mram s) (src + (va - d))) else ulog (mram s) L sz va;
  wr_use : forall p, in_use l' T' L' lim p -> in_use l T L lim p;
  wr_rest : forall a, ~ in_use l T L lim (PGROUNDDOWN a) -> ld8 (mram s') a = ld8 (mram s) a;
  wr_write : forall va, uwritable L' sz va = uwritable L sz va;
  wr_more : L ⊆ L'
}.

Lemma wrote_nothing s l root T L lim sz d src s' l' T' L' : faulted s l root T L lim sz s' l' T' L' ->
  wrote s l root T L lim sz d src 0 s' l' T' L'.
Proof.
  intros F. pose proof (faulted_copied _ _ _ _ _ _ _ 0 0 _ _ _ _ F) as C.
  split; [apply F| |apply F| |apply F|apply F].
  - intros va. destruct (Z.leb_spec d va), (Z.ltb_spec va (d + 0)); cbn [andb]; try lia; apply F.
  - intros a Ha. apply C; [exact Ha|lia].
Qed.

Lemma wrote_trans s1 l1 root T1 L1 lim sz d src k1 k2 s2 l2 T2 L2 s3 l3 T3 L3 :
  wrote s1 l1 root T1 L1 lim sz d src k1 s2 l2 T2 L2 ->
  wrote s2 l2 root T2 L2 lim sz (d + k1) (src + k1) k2 s3 l3 T3 L3 -> 0 <= k1 -> 0 <= k2 ->
  kbuf l1 T1 L1 lim src (k1 + k2) ->
  wrote s1 l1 root T1 L1 lim sz d src (k1 + k2) s3 l3 T3 L3.
Proof.
  intros [A1 B1 C1 D1 E1 F1] [A2 B2 C2 D2 E2 F2] Hk1 Hk2 Hb. split; [exact A2| |by auto| | |by etrans].
  - intros va. rewrite B2, B1.
    destruct (Z.leb_spec (d + k1) va), (Z.ltb_spec va (d + k1 + k2)), (Z.leb_spec d va),
      (Z.ltb_spec va (d + k1)), (Z.ltb_spec va (d + (k1 + k2))); cbn [andb]; try lia; try done.
    replace (src + k1 + (va - (d + k1))) with (src + (va - d)) by lia. f_equal. apply D1. apply Hb. lia.
  - intros a Ha. rewrite D2, D1; [done|done|]. intros Hu. apply Ha. by apply C1.
  - intros va. by rewrite E2, E1.
Qed.

(** One page of [copyout], the page being there and writable. *)
Lemma copyout_step s l root T L lim sz s1 l1 T1 L1 e dstva src n :
  faulted s l root T L lim sz s1 l1 T1 L1 -> L1 !! PGROUNDDOWN dstva = Some e -> has e PTE_U = true ->
  0 <= n <= PGSIZE - (dstva - PGROUNDDOWN dstva) -> kbuf l T L lim src n ->
  let s2 := set_ram s1 (memmove (mram s1) (PTE2PA e + (dstva - PGROUNDDOWN dstva)) src n) in
  wrote s l root T L lim sz dstva src n s2 l1 T1 L1.
Proof.
  intros F HL HU Hn Hk s2. set (va0 := PGROUNDDOWN dstva) in *.
  pose proof (fa_inv _ _ _ _ _ _ _ _ _ _ _ F) as Hus1. pose proof (us_inv _ _ _ _ _ _ _ Hus1) as Hu1.
  pose proof (us_user _ _ _ _ _ _ _ Hus1 _ _ HL HU) as Hlt.
  destruct (ui_own _ _ _ _ _ _ Hu1 _ _ HL Hlt) as (Hok & _).
  assert (Hoff : 0 <= dstva - va0) by (unfold va0; rewrite PGROUNDDOWN_spec; unfold PGSIZE; dlia).
  destruct (user_write s1 l1 root T1 L1 lim sz va0 e (mram s2) Hus1 HL HU) as [Hus2 Hlog].
  { intros p Hp Hne off Hp2. cbn [s2 set_ram mram]. rewrite ld8_memmove by lia.
    destruct (aligned_disjoint p (PTE2PA e) Hp (page_ok_aligned _ Hok) Hne);
    destruct (Z.leb_spec (PTE2PA e + (dstva - va0)) (p + off)),
      (Z.ltb_spec (p + off) (PTE2PA e + (dstva - va0) + n)); cbn [andb]; auto; lia. }
  assert (Hsrc : forall i, 0 <= i < n -> ld8 (mram s1) (src + i) = ld8 (mram s) (src + i)).
  { intros i Hi. apply (co_rest _ _ _ _ _ _ _ _ _ _ _ _ _ (faulted_copied _ _ _ _ _ _ _ 0 0 _ _ _ _ F)); [|lia].
    by apply Hk. }
  split; [exact Hus2| |apply F| |apply F|apply F].
  - intros va. rewrite <- (fa_log _ _ _ _ _ _ _ _ _ _ _ F).
    destruct (decide (PGROUNDDOWN va = va0)) as [E|E].
    + assert (Hva : 0 <= va - va0 < PGSIZE) by (rewrite <- E, PGROUNDDOWN_spec; unfold PGSIZE; dlia).
      unfold ulog. rewrite E, HL, HU. cbn [s2 set_ram mram]. rewrite ld8_memmove by lia.
      destruct (Z.leb_spec dstva va), (Z.ltb_spec va (dstva + n)),
        (Z.leb_spec (PTE2PA e + (dstva - va0)) (PTE2PA e + (va - va0))),
        (Z.ltb_spec (PTE2PA e + (va - va0)) (PTE2PA e + (dstva - va0) + n)); cbn [andb]; try lia; try done.
      f_equal. rewrite <- Hsrc by lia. f_equal. lia.
    + rewrite <- (Hlog va E). destruct (Z.leb_spec dstva va), (Z.ltb_spec va (dstva + n)); cbn [andb]; try done.
      destruct E. replace va with (va0 + (va - va0)) by lia.
      apply PGROUNDDOWN_in; [apply PGROUNDDOWN_aligned|lia].
  - intros a Ha. cbn [s2 set_ram mram]. rewrite ld8_memmove by lia.
    destruct (Z.leb_spec (PTE2PA e + (dstva - va0)) a), (Z.ltb_spec a (PTE2PA e + (dstva - va0) + n)); cbn [andb];
      try (apply (co_rest _ _ _ _ _ _ _ _ _ _ _ _ _ (faulted_copied _ _ _ _ _ _ _ 0 0 _ _ _ _ F)); [exact Ha|lia]).
    destruct Ha. apply (fa_use _ _ _ _ _ _ _ _ _ _ _ F). right; right. exists va0, e. split_and!; [done|done|].
    replace a with (PTE2PA e + (a - PTE2PA e)) by lia. symmetry.
    apply PGROUNDDOWN_in; [exact (page_ok_aligned _ Hok)|lia].
Qed.

Lemma walk_entry s l root T L va e : vm_inv s l root T L -> L !! va = Some e ->
  exists pte, walk root va false s = Ok pte s /\ ld64 (mram s) pte = e.
Proof.
  intros Hv HL. pose proof HL as HL'. apply (vi_leaves _ _ _ _ _ Hv) in HL' as (Hva & Ha & _ & _).
  pose proof (lookup_slot s l root T L va Hv Hva Ha) as Hs.
  rewrite (walk_noalloc va s l root T L Hva Hv). destruct (slot T va) as [pte|]; [|congruence].
  exists pte. split; [done|]. destruct Hs as [_ Hs]. by destruct (has _ _); rewrite HL in Hs; simplify_eq.
Qed.

(** How much of a page a copy takes. *)
Definition chunk (va len : Z) : Z :=
  let n0 := PGSIZE - (va - PGROUNDDOWN va) in if len <? n0 then len else n0.

Lemma chunk_bounds va len : 0 <= va -> 0 < len ->
  0 < chunk va len <= len /\ chunk va len <= PGSIZE - (va - PGROUNDDOWN va) /\
  (chunk va len < len -> chunk va len = PGSIZE - (va - PGROUNDDOWN va)).
Proof.
  intros Hva Hlen. pose proof (PGROUNDDOWN_bounds va Hva). unfold chunk.
  destruct (Z.ltb_spec len (PGSIZE - (va - PGROUNDDOWN va))); lia.
Qed.

(** One iteration of [copyout]: it fails before writing anything, or writes
    one page's worth and goes on. *)
Lemma copyout_iter fuel dstva src len s l root T L lim sz :
  user_inv s l root T L lim sz -> 0 <= dstva -> 0 < len -> kbuf l T L lim src len ->
  exists s' l' T' L',
    let n := chunk dstva len in
    (copyout_loop (S fuel) (mk_curproc sz root) root dstva src len s = Ok (-1) s' /\
     wrote s l root T L lim sz dstva src 0 s' l' T' L' /\
     (uwritable L sz dstva = false \/ (length l' <= 1)%nat)) \/
    (copyout_loop (S fuel) (mk_curproc sz root) root dstva src len s =
       copyout_loop fuel (mk_curproc sz root) root (PGROUNDDOWN dstva + PGSIZE) (src + n) (len - n) s' /\
     wrote s l root T L lim sz dstva src n s' l' T' L').
Proof.
  intros Hus Hdst Hlen Hk. cbn [copyout_loop]. destruct (Z.ltb_spec 0 len); [|lia].
  destruct (PGROUNDDOWN_bounds dstva Hdst) as (Ha & Hb1 & Hb2). pose proof (chunk_bounds dstva len Hdst Hlen) as Hn.
  pose proof (us_sz _ _ _ _ _ _ _ Hus) as Hsz. pose proof (ui_lim _ _ _ _ _ _ (us_inv _ _ _ _ _ _ _ Hus)) as Hlim.
  destruct (Z.leb_spec MAXVA (PGROUNDDOWN dstva)) as [Hmax|Hmax].
  { exists s, l, T, L. left. split_and!; [done|by apply wrote_nothing, faulted_refl|left]. unfold uwritable.
    destruct (L !! PGROUNDDOWN dstva) as [e|] eqn:E; [|apply Z.ltb_ge; lia].
    apply (vi_leaves _ _ _ _ _ (ui_vm _ _ _ _ _ _ (us_inv _ _ _ _ _ _ _ Hus))) in E as [? _]. lia. }
  destruct (user_page_run s l root T L lim sz _ Hus (proj1 Hb1) Ha) as (pa & s1 & l1 & T1 & L1 & Hrun & F & Hsv).
  step_with Hrun. destruct Hsv as [[-> Hno]|(Hpa & e & HL & HU & <-)].
  { exists s1, l1, T1, L1. left. split_and!; [done|by apply wrote_nothing|].
    destruct Hno as [Hno|[_ ?]]; [left|by right]. unfold uwritable. unfold ulog in Hno.
    rewrite (PGROUNDDOWN_idem _ Ha) in Hno. destruct (L !! PGROUNDDOWN dstva) as [e|]; [by destruct (has e PTE_U)|].
    by destruct (_ <? sz). }
  destruct (Z.eqb_spec (PTE2PA e) 0) as [|_]; [done|].
  pose proof (fa_inv _ _ _ _ _ _ _ _ _ _ _ F) as Hus1. pose proof (ui_vm _ _ _ _ _ _ (us_inv _ _ _ _ _ _ _ Hus1)) as Hv1.
  destruct (walk_entry _ _ _ _ _ _ _ Hv1 HL) as (pte & Hw & He). step_with Hw.
  assert (Hload : load64 pte s1 = Ok e s1) by (unfold load64, gets; by rewrite He).
  step_with Hload. destruct (has e PTE_W) eqn:EW; cbn [negb].
  2:{ exists s1, l1, T1, L1. left. split_and!; [done|by apply wrote_nothing|left].
      rewrite <- (fa_write _ _ _ _ _ _ _ _ _ _ _ F). unfold uwritable. by rewrite HL, HU, EW. }
  rewrite u64_small by (rewrite MAXVA_val in *; unfold PGSIZE; lia).
  exists (set_ram s1 (memmove (mram s1) (PTE2PA e + (dstva - PGROUNDDOWN dstva)) src (chunk dstva len))), l1, T1, L1.
  right. split; [reflexivity|].
  apply (copyout_step s l root T L lim sz s1 l1 T1 L1 e dstva src _ F HL HU); [lia|].
  intros i Hi; apply Hk; lia.
Qed.

Lemma wrote_zero s l root T L lim sz d src d' src' s' l' T' L' :
  wrote s l root T L lim sz d src 0 s' l' T' L' -> wrote s l root T L lim sz d' src' 0 s' l' T' L'.
Proof.
  intros [A B C D E F]. split; auto. intros va. rewrite B.
  destruct (Z.leb_spec d va), (Z.ltb_spec va (d + 0)), (Z.leb_spec d' va), (Z.ltb_spec va (d' + 0)); cbn [andb]; auto; lia.
Qed.

Lemma copyout_loop_run fuel dstva src len s l root T L lim sz :
  user_inv s l root T L lim sz -> 0 <= dstva -> 0 <= len -> kbuf l T L lim src len ->
  (dstva - PGROUNDDOWN dstva) + len <= Z.of_nat fuel * PGSIZE ->
  exists r s' l' T' L' k, copyout_loop fuel (mk_curproc sz root) root dstva src len s = Ok r s' /\
    wrote s l root T L lim sz dstva src k s' l' T' L' /\
    ((r = 0 /\ k = len) \/
     (r = -1 /\ 0 <= k < len /\ (uwritable L sz (dstva + k) = false \/ (length l' <= 1)%nat))).
Proof.
  revert dstva src len s l T L.
  induction fuel as [|fuel IH]; intros dstva src len s l T L Hus Hdst Hlen Hk Hfuel;
    (destruct (decide (len = 0)) as [->|Hne];
     [exists 0, s, l, T, L, 0; split_and!; [done|by apply wrote_nothing, faulted_refl|by left]|]);
    destruct (PGROUNDDOWN_bounds dstva Hdst) as (Ha & Hb1 & Hb2); [lia|].
  destruct (chunk_bounds dstva len Hdst ltac:(lia)) as (Hn1 & Hn2 & Hn3).
  destruct (copyout_iter fuel dstva src len s l root T L lim sz Hus Hdst ltac:(lia) Hk)
    as (s1 & l1 & T1 & L1 & [(Hrun & W & Hno)|[Hrun W]]); rewrite Hrun; clear Hrun.
  { exists (-1), s1, l1, T1, L1, 0. split_and!; [done|exact W|right]. rewrite Z.add_0_r. split_and!; [done|lia|lia|done]. }
  set (n := chunk dstva len) in *. clearbody n.
  pose proof (PGROUNDDOWN_idem _ (aligned_next _ Ha)) as Hr.
  destruct (IH (PGROUNDDOWN dstva + PGSIZE) (src + n) (len - n) s1 l1 T1 L1) as (r & s' & l' & T' & L' & k & Hrun & W' & Hres).
  { apply W. } { unfold PGSIZE; lia. } { lia. }
  { intros i Hi Hin. apply (Hk (n + i)); [lia|]. replace (src + (n + i)) with (src + n + i) by lia. by apply W. }
  { rewrite Hr. unfold PGSIZE in *. lia. }
  assert (Hk0 : 0 <= k <= len - n) by (destruct Hres as [[_ ->]|(_ & ? & _)]; lia).
  assert (Hd : n < len -> PGROUNDDOWN dstva + PGSIZE = dstva + n) by lia.
  exists r, s', l', T', L', (n + k). split_and!; [exact Hrun| |].
  - eapply wrote_trans; [exact W| |lia|lia|intros i Hi; apply Hk; lia].
    destruct (Z_lt_le_dec n len) as [Hlt|Hge]; [by rewrite <- (Hd Hlt)|].
    assert (k = 0) as -> by lia. by eapply wrote_zero.
  - destruct Hres as [[-> ->]|(-> & Hkr & Hno)]; [left; split; [done|lia]|right]. split_and!; [done|lia|lia|].
    rewrite (wr_write _ _ _ _ _ _ _ _ _ _ _ _ _ _ W), Hd in Hno by lia. by rewrite Z.add_assoc.
Qed.

(** [copyout] returns 0 after writing all of the kernel buffer where
    the process sees [dstva], or -1 after a prefix that stops exactly at a
    byte the process may not write (or when memory runs out); the rest of what
    the process sees, and all kernel memory, is unchanged. *)
Theorem copyout_writes_user dstva src len s l root T L lim sz :
  user_inv s l root T L lim sz -> 0 <= dstva -> 0 <= len -> kbuf l T L lim src len ->
  exists r s' l' T' L' k, copyout (mk_curproc sz root) root dstva src len s = Ok r s' /\
    wrote s l root T L lim sz dstva src k s' l' T' L' /\
    ((r = 0 /\ k = len) \/
     (r = -1 /\ 0 <= k < len /\ (uwritable L sz (dstva + k) = false \/ (length l' <= 1)%nat))).
Proof.
  intros Hus Hdst Hlen Hk. apply copyout_loop_run; auto.
  pose proof (PGROUNDDOWN_bounds dstva Hdst). unfold PGSIZE in *. dlia.
Qed.

(** Everything below the end of the kernel image is out of the way. *)
Lemma kbuf_image s l root T L lim sz a len : user_inv s l root T L lim sz -> 0 <= a -> a + len <= k_end ->
  kbuf l T L lim a len.
Proof.
  intros [[[Hk Ht Hf Hl] Hlim Hown Hinj] Hsz Hus] Ha Hlen i Hi Hin.
  assert (Hok : page_ok (PGROUNDDOWN (a + i))).
  { destruct Hin as [Hp|[[pi Hp]|(va & e & HL & Hlt & <-)]].
    - exact (kmem_inv_page _ _ _ Hk Hp).
    - exact (pt_page _ _ _ Ht _ _ Hp).
    - exact (proj1 (Hown _ _ HL Hlt)). }
  destruct Hok as [_ Hr]. pose proof (PGROUNDDOWN_bounds (a + i)). lia.
Qed.
End user.

(** ** Examples: an empty process of 10000 bytes, all of it still lazy *)

Lemma demo_user : exists s, user_inv s demo_free demo_root {[ [] := demo_root ]} ∅ MAXVA 10000.
Proof.
  destruct demo_space as (s & Hu). exists s. split; [exact Hu|rewrite MAXVA_val; lia|].
  intros va e. by rewrite lookup_empty.
Qed.


Lemma copyin_reads_user_witness : exists s r s' l' T' L',
  copyin (mk_curproc 10000 demo_root) demo_root KERNBASE 100 5000 s = Ok r s' /\
  copied s demo_free demo_root {[ [] := demo_root ]} ∅ MAXVA 10000 KERNBASE 5000 s' l' T' L' /\
  ((r = 0 /\ forall i, 0 <= i < 5000 -> ulog (mram s) ∅ 10000 (100 + i) = Some (ld8 (mram s') (KERNBASE + i))) \/
   (r = -1 /\ exists i, 0 <= i < 5000 /\ (ulog (mram s) ∅ 10000 (100 + i) = None \/ ((∅ : leafmap) !! PGROUNDDOWN (100 + i) = None /\ (length l' <= 1)%nat)))).
Proof.
  destruct demo_user as (s & Hu). exists s.
  apply (copyin_reads_user KERNBASE 100 5000 s demo_free demo_root _ ∅ MAXVA 10000 Hu); [lia|lia|].
  apply (kbuf_image s _ demo_root _ _ _ 10000); [exact Hu|unfold KERNBASE; lia|vm_compute; congruence].
Defined.

Lemma copyout_writes_user_witness : exists s r s' l' T' L' k,
  copyout (mk_curproc 10000 demo_root) demo_root 100 KERNBASE 5000 s = Ok r s' /\
  wrote s demo_free demo_root {[ [] := demo_root ]} ∅ MAXVA 10000 100 KERNBASE k s' l' T' L' /\
  ((r = 0 /\ k = 5000) \/
   (r = -1 /\ 0 <= k < 5000 /\ (uwritable ∅ 10000 (100 + k) = false \/ (length l' <= 1)%nat))).
Proof.
  destruct demo_user as (s & Hu). exists s.
  apply (copyout_writes_user 100 KERNBASE 5000 s demo_free demo_root _ ∅ MAXVA 10000 Hu); [lia|lia|].
  apply (kbuf_image s _ demo_root _ _ _ 10000); [exact Hu|unfold KERNBASE; lia|vm_compute; congruence].
Defined.
