(* ===== verification/VmFork.v ===== *)
(** * Copying an address space

    [uvmcopy] (kernel/vm.c), the memory side of fork: the child gets its own
    copy of every page the parent has. *)

From stdpp Require Import base gmap list numbers strings.
From Stdlib Require Import ZArith Lia.
From S2P Require Import Prelude Riscv Mem Spinlock Kalloc Vm VmSpec VmOps VmUser.
Open Scope Z_scope.
Open Scope kernel_scope.

Lemma PTE_FLAGS_range e : 0 <= PTE_FLAGS e < 2 ^ 10.
Proof.
  unfold PTE_FLAGS. change 0x3FF with (Z.ones 10). rewrite Z.land_ones by lia. apply Z.mod_pos_bound. lia.
Qed.

Section fork.
Context {img : KernelImage} {imgok : KernelImageOk img}.

(** The copied entry keeps the parent's permissions. *)
Definition copy_pte (q e : Z) : Z := mkpte q (Z.lor (PTE_FLAGS e) PTE_V).

Lemma has_copy q e k : page_ok q -> 0 < k < 10 -> has (copy_pte q e) (Z.shiftl 1 k) = has e (Z.shiftl 1 k).
Proof.
  intros Hq Hk. destruct (has_valid q (PTE_FLAGS e) (page_ok_pa q Hq) (PTE_FLAGS_range e)) as [_ Hr].
  unfold copy_pte. rewrite has_mkpte; [|exact (page_ok_pa q Hq)|exact Hr|lia].
  rewrite has_testbit by lia. rewrite Z.lor_spec. unfold PTE_FLAGS. rewrite Z.land_spec.
  change 0x3FF with (Z.ones 10). rewrite Z.ones_spec_low by lia. rewrite andb_true_r.
  unfold PTE_V. change (Z.shiftl 1 0) with (2 ^ 0). rewrite Z.pow2_bits_false by lia. apply orb_false_r.
Qed.

(** Up to [a], the child maps what the parent maps, to copies. *)
Definition mirrored (m : ram) (L1 L2 : leafmap) (a : Z) : Prop :=
  forall va, aligned va -> 0 <= va < a ->
    match L1 !! va with
    | None => L2 !! va = None
    | Some e => exists q, L2 !! va = Some (copy_pte q e) /\ page_ok q /\
        forall off, 0 <= off < PGSIZE -> ld8 m (q + off) = ld8 m (PTE2PA e + off)
    end.

(** The two address spaces do not share pages. *)
Definition sep (l : list Z) (T1 : tables) (L1 : leafmap) (T2 : tables) (L2 : leafmap) (lim : Z) : Prop :=
  forall p, in_use [] T1 L1 lim p -> ~ in_use l T2 L2 lim p.

(** Memory when the copy starts. *)
Context (m0 : ram).

Definition parent_same (T1 : tables) (L1 : leafmap) (lim : Z) (m : ram) : Prop :=
  forall p, in_use [] T1 L1 lim p -> same_page m0 m p.

Record forking (s : memst) (l : list Z) (r1 : Z) (T1 : tables) (L1 : leafmap)
    (r2 : Z) (T2 : tables) (L2 L20 : leafmap) (lim a : Z) : Prop := {
  fk_parent : uvm_inv s l r1 T1 L1 lim;
  fk_child : uvm_inv s l r2 T2 L2 lim;
  fk_sep : sep l T1 L1 T2 L2 lim;
  fk_mirror : mirrored (mram s) L1 L2 a;
  fk_rest : forall va, ~ 0 <= va < a -> L2 !! va = L20 !! va;
  fk_same : parent_same T1 L1 lim (mram s)
}.

Lemma in_use_own s l root T L lim va e : uvm_inv s l root T L lim -> L !! va = Some e -> va < lim ->
  in_use [] T L lim (PTE2PA e).
Proof. intros _ HL Hlt. right; right. by exists va, e. Qed.

(** The parent is untouched by anything that stays out of its pages. *)
Lemma uvm_inv_keep s l root T L lim s' l' : uvm_inv s l root T L lim -> kmem_inv s' l' ->
  (forall p, in_use [] T L lim p -> same_page (mram s) (mram s') p) ->
  (forall p, p ∈ l' -> ~ in_use [] T L lim p) -> uvm_inv s' l' root T L lim.
Proof.
  intros [[Hk Ht Hf Hl] Hlim Hown Hinj] Hk' Hs Hd.
  destruct (vm_inv_tables_same s s' root T L) as [Ht' Hl']; [|exact Ht|exact Hl|].
  { intros pi p Hp. apply Hs. right; left. by exists pi. }
  split; [split; [exact Hk'|exact Ht'| |exact Hl']|exact Hlim| |exact Hinj].
  - intros pi p Hp Hin. apply (Hd p Hin). right; left. by exists pi.
  - intros va e HL Hlt. destruct (Hown va e HL Hlt) as (Hok & _ & Hnt). split_and!; [exact Hok| |exact Hnt].
    intros Hin. apply (Hd _ Hin). right; right. by exists va, e.
Qed.

Lemma in_use_page s l root T L lim p : uvm_inv s l root T L lim -> in_use [] T L lim p -> aligned p.
Proof.
  intros Hu [?%elem_of_nil|[[pi Hp]|(va & e & HL & Hlt & <-)]]; [done| |].
  - exact (page_ok_aligned _ (pt_page _ _ _ (vi_tree _ _ _ _ _ (ui_vm _ _ _ _ _ _ Hu)) _ _ Hp)).
  - exact (page_ok_aligned _ (proj1 (ui_own _ _ _ _ _ _ Hu _ _ HL Hlt))).
Qed.

(** A step that only touches free pages and the child's pages. *)
Lemma parent_keep s l r1 T1 L1 T2 L2 lim s' l' T2' L2' :
  uvm_inv s l r1 T1 L1 lim -> sep l T1 L1 T2 L2 lim -> kmem_inv s' l' ->
  (forall p, aligned p -> ~ in_use l T2 L2 lim p -> same_page (mram s) (mram s') p) ->
  (forall p, in_use l' T2' L2' lim p -> in_use l T2 L2 lim p) -> parent_same T1 L1 lim (mram s) ->
  uvm_inv s' l' r1 T1 L1 lim /\ sep l' T1 L1 T2' L2' lim /\ parent_same T1 L1 lim (mram s').
Proof.
  intros Hu Hsep Hk' Hf Huse Hm0. split_and!; [|intros p Hp Hin; exact (Hsep p Hp (Huse p Hin))|].
  2:{ intros p Hp. apply same_page_trans with (mram s); [by apply Hm0|].
      apply Hf; [by eapply in_use_page|by apply Hsep]. }
  apply (uvm_inv_keep s l); [exact Hu|exact Hk'| |].
  - intros p Hp. apply Hf; [by eapply in_use_page|by apply Hsep].
  - intros p Hin Hp. apply (Hsep p Hp), Huse. by left.
Qed.

Lemma mirrored_keep m m' L1 L2 a lim : mirrored m L1 L2 a -> a <= lim + PGSIZE ->
  (forall va e, L1 !! va = Some e -> 0 <= va < a -> same_page m m' (PTE2PA e)) ->
  (forall va e, L2 !! va = Some e -> 0 <= va < a -> same_page m m' (PTE2PA e)) -> mirrored m' L1 L2 a.
Proof.
  intros Hm Ha H1 H2 va Hal Hva. specialize (Hm va Hal Hva). destruct (L1 !! va) as [e|] eqn:E; [|exact Hm].
  destruct Hm as (q & HL2 & Hq & Hb). exists q. split_and!; [exact HL2|exact Hq|]. intros off Hoff.
  pose proof (H2 va _ HL2 Hva) as Hs2. unfold copy_pte in Hs2.
  rewrite (PTE2PA_leaf q (PTE_FLAGS e) Hq (PTE_FLAGS_range e)) in Hs2.
  by rewrite (Hs2 off Hoff), (H1 va e E Hva off Hoff), Hb.
Qed.

(** Memory right after [kalloc] and [memmove] of the parent's page. *)
Lemma copy_page m q pa : aligned q -> aligned pa -> q <> pa ->
  (forall p, aligned p -> p <> q -> same_page m (memmove (memset m q 5 PGSIZE) q pa PGSIZE) p) /\
  forall off, 0 <= off < PGSIZE -> ld8 (memmove (memset m q 5 PGSIZE) q pa PGSIZE) (q + off) = ld8 m (pa + off).
Proof.
  intros Hq Hpa Hne. split.
  - intros p Hp Hpq off Hoff. rewrite ld8_memmove by (unfold PGSIZE; lia).
    destruct (aligned_disjoint p q Hp Hq Hpq);
      destruct (Z.leb_spec q (p + off)), (Z.ltb_spec (p + off) (q + PGSIZE)); cbn [andb]; try lia;
      by apply same_page_memset.
  - intros off Hoff. rewrite ld8_memmove by (unfold PGSIZE; lia).
    destruct (Z.leb_spec q (q + off)), (Z.ltb_spec (q + off) (q + PGSIZE)); cbn [andb]; try lia.
    replace (q + off - q) with off by lia. by apply same_page_memset.
Qed.

Lemma forking_page s l r1 T1 L1 r2 T2 L2 L20 lim a va e :
  forking s l r1 T1 L1 r2 T2 L2 L20 lim a -> L1 !! va = Some e -> va < lim ->
  page_ok (PTE2PA e) /\ ~ in_use l T2 L2 lim (PTE2PA e).
Proof.
  intros F HL Hlt. split.
  - apply (ui_own _ _ _ _ _ _ (fk_parent _ _ _ _ _ _ _ _ _ _ _ F) _ _ HL Hlt).
  - apply (fk_sep _ _ _ _ _ _ _ _ _ _ _ F). right; right. by exists va, e.
Qed.

(** The page has been mapped for the child. *)
Lemma forking_step s q l r1 T1 L1 r2 T2 L2 L20 lim a e m1 s1 l1 T2' :
  forking s (q :: l) r1 T1 L1 r2 T2 L2 L20 lim a -> aligned a -> 0 <= a < lim -> L1 !! a = Some e ->
  page_ok q -> same_page m1 (mram s1) q -> vm_frame s (q :: l) T2 s1 -> vm_grows l T2 l1 T2' ->
  (forall off, 0 <= off < PGSIZE -> ld8 m1 (q + off) = ld8 (mram s) (PTE2PA e + off)) ->
  uvm_inv s1 l1 r2 T2' (<[a := copy_pte q e]> L2) lim ->
  forking s1 l1 r1 T1 L1 r2 T2' (<[a := copy_pte q e]> L2) L20 lim (a + PGSIZE).
Proof.
  intros F Ha Hlt HL1 Hq Hq1 Hf Hg Hcopy Hc.
  pose proof (PTE2PA_leaf q (PTE_FLAGS e) Hq (PTE_FLAGS_range e)) as Hpa. fold (copy_pte q e) in Hpa.
  assert (Huse : forall p, in_use l1 T2' (<[a := copy_pte q e]> L2) lim p -> in_use (q :: l) T2 L2 lim p).
  { intros p [Hp|[[pi Hp]|(va & e' & HL & Hv & Hp)]].
    - left; right. by apply Hg.
    - destruct (gr_new _ _ _ _ Hg _ _ Hp); [right; left; by exists pi|left; by right].
    - apply lookup_insert_Some in HL as [[<- <-]|[_ HL]]; [left; rewrite <- Hp, Hpa; by left|].
      right; right. by exists va, e'. }
  assert (Hf' : forall p, aligned p -> ~ in_use (q :: l) T2 L2 lim p -> same_page (mram s) (mram s1) p).
  { intros p Hp Hn. apply Hf; [exact Hp|intros ?; apply Hn; by left|].
    intros pi Hpi. apply Hn. right; left. by exists pi. }
  destruct F as [Fp Fc Fs Fm Fr Fe].
  destruct (parent_keep s (q :: l) r1 T1 L1 T2 L2 lim s1 l1 T2' _ Fp Fs (vi_kmem _ _ _ _ _ (ui_vm _ _ _ _ _ _ Hc)) Hf' Huse Fe)
    as (Hp' & Hs' & He').
  assert (Hpar : forall va e', L1 !! va = Some e' -> va < lim -> same_page (mram s) (mram s1) (PTE2PA e')).
  { intros va e' HL Hv. destruct (ui_own _ _ _ _ _ _ Fp va e' HL Hv) as (Hok & _). apply Hf'; [by apply page_ok_aligned|].
    apply Fs. right; right. by exists va, e'. }
  split; [exact Hp'|exact Hc|exact Hs'| | |exact He'].
  - intros va Hal Hva. destruct (decide (va = a)) as [->|Hne].
    + rewrite HL1. exists q. rewrite lookup_insert_eq. split_and!; [done|done|]. intros off Hoff.
      rewrite (Hq1 off Hoff), (Hcopy off Hoff). symmetry. apply (Hpar a e HL1 (proj2 Hlt) off Hoff).
    + rewrite lookup_insert_ne by done. assert (Hva' : 0 <= va < a) by (unfold aligned, PGSIZE in *; dlia).
      apply (mirrored_keep (mram s) _ L1 L2 a lim Fm); [unfold PGSIZE; lia| | |done|done].
      * intros va' e' HL Hv. apply (Hpar va' e' HL). lia.
      * intros va' e' HL Hv. apply (own_same s (q :: l) r2 T2 L2 lim s1 va' e' Fc Hf HL). lia.
  - intros va Hva. rewrite lookup_insert_ne by (unfold PGSIZE in *; lia). apply Fr. unfold PGSIZE in *; lia.
Qed.

(** Steps that change neither map. *)
Lemma forking_keep s l r1 T1 L1 r2 T2 L2 L20 lim a s' l' T2' :
  forking s l r1 T1 L1 r2 T2 L2 L20 lim a -> a < lim + PGSIZE -> uvm_inv s' l' r2 T2' L2 lim ->
  vm_frame s l T2 s' -> (forall p, p ∈ l' -> p ∈ l) ->
  (forall pi p, T2' !! pi = Some p -> T2 !! pi = Some p \/ p ∈ l) ->
  aligned a -> forking s' l' r1 T1 L1 r2 T2' L2 L20 lim a.
Proof.
  intros [Fp Fc Fs Fm Fr Fe] Ha Hc Hf Hl Ht Hal.
  assert (Hf' : forall p, aligned p -> ~ in_use l T2 L2 lim p -> same_page (mram s) (mram s') p).
  { intros p Hp Hn. apply Hf; [exact Hp|intros ?; apply Hn; by left|].
    intros pi Hpi. apply Hn. right; left. by exists pi. }
  destruct (parent_keep s l r1 T1 L1 T2 L2 lim s' l' T2' L2 Fp Fs (vi_kmem _ _ _ _ _ (ui_vm _ _ _ _ _ _ Hc)) Hf')
    as (Hp' & Hs' & He'); [|exact Fe|].
  { intros p [Hp|[[pi Hp]|Hp]]; [left; auto| |right; by right].
    destruct (Ht _ _ Hp); [right; left; by exists pi|by left]. }
  split; [exact Hp'|exact Hc|exact Hs'| |exact Fr|exact He'].
  intros va Hva1 Hva. specialize (Fm va Hva1 Hva). assert (Hlt : va < lim) by (unfold aligned, PGSIZE in *; dlia).
  destruct (L1 !! va) as [e|] eqn:E; [|exact Fm]. destruct Fm as (q & HL2 & Hq & Hb). exists q.
  split_and!; [exact HL2|exact Hq|]. intros off Hoff.
  pose proof (own_same s l r2 T2 L2 lim s' va _ Fc Hf HL2 Hlt) as Hs2. unfold copy_pte in Hs2.
  rewrite (PTE2PA_leaf q (PTE_FLAGS e) Hq (PTE_FLAGS_range e)) in Hs2. rewrite (Hs2 off Hoff), Hb by done. symmetry.
  destruct (ui_own _ _ _ _ _ _ Fp va e E Hlt) as (Hok & _). apply Hf'; [by apply page_ok_aligned| |done].
  apply Fs. right; right. by exists va, e.
Qed.

(** The label [err]: the child's copies are freed again. *)
Lemma forking_err s l r1 T1 L1 r2 T2 L2 L20 lim a :
  forking s l r1 T1 L1 r2 T2 L2 L20 lim a -> aligned a -> 0 <= a < lim + PGSIZE ->
  (forall va, 0 <= va < a -> L20 !! va = None) ->
  exists s' l', (uvmunmap r2 0 (a / PGSIZE) true ;;; ret (-1)) s = Ok (-1) s' /\
    uvm_inv s' l' r1 T1 L1 lim /\ uvm_inv s' l' r2 T2 L20 lim /\ sep l' T1 L1 T2 L20 lim /\
    parent_same T1 L1 lim (mram s').
Proof.
  intros [Fp Fc Fs Fm Fr Fe] Ha Hlt HL0. pose proof (ui_lim _ _ _ _ _ _ Fc) as Hlim. rewrite MAXVA_val in Hlim.
  set (n := Z.to_nat (a / PGSIZE)). assert (Hn : Z.of_nat n = a / PGSIZE) by (unfold n, PGSIZE in *; dlia).
  assert (Hn2 : Z.of_nat n * PGSIZE = a) by (rewrite Hn; unfold aligned, PGSIZE in *; dlia).
  destruct (uvmunmap_loop_spec n r2 0 s l T2 L2 lim Fc) as (s' & Hrun & Hc & Hf); [done|lia|lia|].
  assert (Hrun' : uvmunmap r2 0 (a / PGSIZE) true s = Ok tt s').
  { unfold uvmunmap. change (0 mod PGSIZE =? 0) with true. cbn [negb]. fold n. rewrite <- Hn.
    rewrite u64_small by (unfold PGSIZE in *; lia). exact Hrun. }
  set (l' := (unmap_range n L2 0 l).2) in *. set (L' := (unmap_range n L2 0 l).1) in *.
  assert (HL' : L' = L20).
  { apply map_eq. intros va. destruct (decide (aligned va)) as [Hal|Hal].
    - unfold L'. rewrite unmap_range_lookup, Z.add_0_l, Hn2 by done.
      destruct (Z.leb_spec 0 va), (Z.ltb_spec va a); cbn [andb]; try (apply Fr; lia). symmetry. apply HL0. lia.
    - assert (L' !! va = None) as ->.
      { destruct (L' !! va) eqn:E; [|done]. by apply (vi_leaves _ _ _ _ _ (ui_vm _ _ _ _ _ _ Hc)) in E as (_ & ? & _). }
      destruct (L20 !! va) as [e|] eqn:E; [|done]. destruct (decide (0 <= va < a)) as [Hr|Hr]; [rewrite HL0 in E; done|].
      rewrite <- Fr in E by done. by apply (vi_leaves _ _ _ _ _ (ui_vm _ _ _ _ _ _ Fc)) in E as (_ & ? & _). }
  assert (Huse : forall p, in_use l' T2 L' lim p -> in_use l T2 L2 lim p).
  { intros p [Hp|[Hp|(va & e & HL & Hv & Hp)]]; [|right; by left|].
    - apply unmap_range_free in Hp as [?|(k & e & Hk & HL & ->)]; [by left| |done].
      right; right. exists (0 + k * PGSIZE), e. split_and!; [done|unfold PGSIZE in *; lia|done].
    - apply (vi_leaves _ _ _ _ _ (ui_vm _ _ _ _ _ _ Hc)) in HL as HL3. destruct HL3 as (_ & Hal & _).
      unfold L' in HL. rewrite unmap_range_lookup in HL by done. destruct (_ && _); [done|]. right; right. by exists va, e. }
  destruct (parent_keep s l r1 T1 L1 T2 L2 lim s' l' T2 L' Fp Fs (vi_kmem _ _ _ _ _ (ui_vm _ _ _ _ _ _ Hc)))
    as (Hp' & Hs' & He'); [|exact Huse|exact Fe|].
  { intros p Hp Hni. apply Hf; [exact Hp| |].
    - intros Hin. apply Hni, Huse. by left.
    - intros pi Hpi. apply Hni. right; left. by exists pi. }
  exists s', l'. split_and!; [by step_with Hrun'|exact Hp'|by rewrite <- HL'|by rewrite <- HL'|exact He'].
Qed.

(** A page the parent does not have is skipped. *)
Lemma forking_skip s l r1 T1 L1 r2 T2 L2 L20 lim a :
  forking s l r1 T1 L1 r2 T2 L2 L20 lim a -> aligned a -> L1 !! a = None -> L20 !! a = None ->
  forking s l r1 T1 L1 r2 T2 L2 L20 lim (a + PGSIZE).
Proof.
  intros [Fp Fc Fs Fm Fr Fe] Ha H1 H0. split; [exact Fp|exact Fc|exact Fs| | |exact Fe].
  - intros va Hal Hva. destruct (decide (va = a)) as [->|Hne].
    + rewrite H1. rewrite Fr by lia. exact H0.
    + apply Fm; [exact Hal|]. unfold aligned, PGSIZE in *. dlia.
  - intros va Hva. apply Fr. unfold PGSIZE in *. lia.
Qed.

(** The body of the loop for a page the parent has: the next iteration with
    the page copied, or the error exit. *)
Lemma uvmcopy_page s l r1 T1 L1 r2 T2 L2 L20 lim a e (next : M memst Z) :
  forking s l r1 T1 L1 r2 T2 L2 L20 lim a -> aligned a -> 0 <= a < lim -> L1 !! a = Some e ->
  (forall va, 0 <= va <= a -> L20 !! va = None) ->
  let err := uvmunmap r2 0 (a / PGSIZE) true ;;; ret (-1) in
  let body :=
    mem <- kalloc ;;
    if mem =? 0 then err
    else
      store (fun m => memmove m mem (PTE2PA e) PGSIZE) ;;;
      r <- mappages r2 a PGSIZE mem (PTE_FLAGS e) ;;
      if negb (r =? 0) then kfree mem ;;; err else next in
  (exists s' l' T2' L2', body s = next s' /\ forking s' l' r1 T1 L1 r2 T2' L2' L20 lim (a + PGSIZE)) \/
  (exists s' l' T2', body s = Ok (-1) s' /\
    uvm_inv s' l' r1 T1 L1 lim /\ uvm_inv s' l' r2 T2' L20 lim /\ sep l' T1 L1 T2' L20 lim /\
    parent_same T1 L1 lim (mram s')).
Proof.
  intros F Ha Hlt HL1 HL0 err body. pose proof (fk_child _ _ _ _ _ _ _ _ _ _ _ F) as Fc.
  pose proof (vi_kmem _ _ _ _ _ (ui_vm _ _ _ _ _ _ Fc)) as Hk.
  assert (HL0' : forall va, 0 <= va < a -> L20 !! va = None) by (intros; apply HL0; lia).
  unfold body. destruct l as [|q l].
  { right. step_with (kalloc_empty s Hk).
    destruct (forking_err _ _ _ _ _ _ _ _ _ _ _ F Ha ltac:(unfold PGSIZE; lia) HL0') as (s' & l' & Hrun & Hp & Hc & Hs & He).
    exists s', l', T2. split_and!; [exact Hrun|exact Hp|exact Hc|exact Hs|exact He]. }
  pose proof (kmem_inv_page _ _ q Hk ltac:(by left)) as Hq. step_with (kalloc_cons s q l Hk).
  destruct (Z.eqb_spec q 0) as [|_]; [pose proof (page_ok_pos q Hq); lia|].
  destruct (forking_page _ _ _ _ _ _ _ _ _ _ _ a e F HL1 ltac:(lia)) as [Hpe Hne].
  destruct (copy_page (mram s) q (PTE2PA e) (page_ok_aligned _ Hq) (page_ok_aligned _ Hpe)) as [Hsame Hcopy].
  { intros E. apply Hne. left. rewrite <- E. by left. }
  assert (Hst : store (fun m => memmove m q (PTE2PA e) PGSIZE)
      (mk_memst (memset (mram s) q 5 PGSIZE) false (ld64 (mram s) q)) =
    Ok tt (mk_memst (memmove (memset (mram s) q 5 PGSIZE) q (PTE2PA e) PGSIZE) false (ld64 (mram s) q))) by reflexivity.
  step_with Hst. clear Hst. set (m1 := memmove _ _ _ _) in *. clearbody m1.
  assert (HL2 : L2 !! a = None) by (rewrite (fk_rest _ _ _ _ _ _ _ _ _ _ _ F) by lia; apply HL0; lia).
  destruct (map_fresh s q l r2 T2 L2 lim a (PTE_FLAGS e) m1 Fc Ha Hlt HL2 (PTE_FLAGS_range e) Hsame)
    as (r & s1 & l1 & T1' & Hrun & Hf & Hg & _ & Hs1 & Hr).
  step_with Hrun. destruct Hr as [[-> Hc1]|(-> & -> & Hc1 & Hnt & Hnew)].
  - left. exists s1, l1, T1', (<[a := copy_pte q e]> L2). split; [done|]. by eapply forking_step.
  - right. destruct (uvm_kfree _ _ _ _ _ _ q Hc1 Hq ltac:(by intros ?%elem_of_nil) Hnt Hnew) as (s2 & Hrun2 & Hc2 & Hf2).
    assert (Hnew2 : forall pi p, T1' !! pi = Some p -> T2 !! pi = Some p \/ p ∈ q :: l).
    { intros pi p Hp. destruct (gr_new _ _ _ _ Hg _ _ Hp); [by left|right; by right]. }
    assert (Hq2 : forall p, p ∈ [q] -> p ∈ q :: l) by (intros p ->%list_elem_of_singleton; by left).
    assert (F2 : forking s2 [q] r1 T1 L1 r2 T1' L2 L20 lim a).
    { apply (forking_keep s (q :: l) r1 T1 L1 r2 T2 L2 L20 lim a); auto; [unfold PGSIZE; lia|].
      eapply vm_frame_chain; [exact Hf|exact Hf2|by auto|exact Hnew2]. }
    cbn [Z.eqb negb]. step_with Hrun2.
    destruct (forking_err _ _ _ _ _ _ _ _ _ _ _ F2 Ha ltac:(unfold PGSIZE; lia) HL0') as (s' & l' & Hrun' & Hp & Hc & Hs & He).
    exists s', l', T1'. split_and!; [exact Hrun'|exact Hp|exact Hc|exact Hs|exact He].
Qed.

Lemma uvmcopy_loop_run n s l r1 T1 L1 r2 T2 L2 L20 lim a sz :
  forking s l r1 T1 L1 r2 T2 L2 L20 lim a -> aligned a -> 0 <= a -> sz <= lim ->
  sz <= a + Z.of_nat n * PGSIZE -> (forall va, 0 <= va < sz + PGSIZE -> L20 !! va = None) ->
  exists r s' l' T2' L2', uvmcopy_loop n r1 r2 a sz s = Ok r s' /\
    uvm_inv s' l' r1 T1 L1 lim /\ uvm_inv s' l' r2 T2' L2' lim /\ sep l' T1 L1 T2' L2' lim /\
    parent_same T1 L1 lim (mram s') /\
    ((r = 0 /\ mirrored (mram s') L1 L2' sz) \/ (r = -1 /\ L2' = L20)).
Proof.
  revert s l T2 L2 a. induction n as [|n IH]; intros s l T2 L2 a F Ha Ha0 Hsz Hn HL0; cbn [uvmcopy_loop];
    destruct (Z.ltb_spec a sz) as [Hlt|Hge]; try lia;
    try (exists 0, s, l, T2, L2; split_and!; [done|apply F|apply F|apply F|apply F|left; split; [done|]];
         intros va Hal Hva; apply (fk_mirror _ _ _ _ _ _ _ _ _ _ _ F); [done|lia]).
  pose proof (fk_parent _ _ _ _ _ _ _ _ _ _ _ F) as Fp. pose proof (ui_vm _ _ _ _ _ _ Fp) as Hv.
  pose proof (ui_lim _ _ _ _ _ _ Fp) as Hlim. rewrite MAXVA_val in Hlim.
  assert (Hva : 0 <= a < MAXVA) by (rewrite MAXVA_val; lia).
  rewrite u64_small by (unfold PGSIZE in *; lia).
  assert (IHn : forall s1 l1 T2' L2', forking s1 l1 r1 T1 L1 r2 T2' L2' L20 lim (a + PGSIZE) ->
    exists r s' l' T2'' L2'', uvmcopy_loop n r1 r2 (a + PGSIZE) sz s1 = Ok r s' /\
      uvm_inv s' l' r1 T1 L1 lim /\ uvm_inv s' l' r2 T2'' L2'' lim /\ sep l' T1 L1 T2'' L2'' lim /\
      parent_same T1 L1 lim (mram s') /\
      ((r = 0 /\ mirrored (mram s') L1 L2'' sz) \/ (r = -1 /\ L2'' = L20))).
  { intros. eapply IH; [done|by apply aligned_next|unfold PGSIZE; lia|done|lia|done]. }
  step_with (walk_noalloc a s l r1 T1 L1 Hva Hv). pose proof (lookup_slot s l r1 T1 L1 a Hv Hva Ha) as Hs.
  assert (Hskip : L1 !! a = None -> forking s l r1 T1 L1 r2 T2 L2 L20 lim (a + PGSIZE)).
  { intros E. apply forking_skip; auto. apply HL0. unfold PGSIZE. lia. }
  destruct (slot T1 a) as [pte|]; cbn [default from_option id]; [|by apply (IHn s l T2 L2), Hskip].
  destruct Hs as [Hp Hs]. destruct (Z.eqb_spec pte 0) as [|_]; [done|].
  assert (Hload : load64 pte s = Ok (ld64 (mram s) pte) s) by done. step_with Hload.
  destruct (has (ld64 (mram s) pte) PTE_V); cbn [negb]; [|by apply (IHn s l T2 L2), Hskip].
  destruct (uvmcopy_page s l r1 T1 L1 r2 T2 L2 L20 lim a _ (uvmcopy_loop n r1 r2 (a + PGSIZE) sz) F Ha ltac:(lia) Hs)
    as [(s1 & l1 & T2' & L2' & Hrun & F1)|(s1 & l1 & T2' & Hrun & Hp1 & Hc1 & Hs1 & He1)].
  { intros va Hr. apply HL0. unfold PGSIZE. lia. }
  - rewrite Hrun. by apply (IHn s1 l1 T2' L2').
  - rewrite Hrun. exists (-1), s1, l1, T2', L20. split_and!; [done|exact Hp1|exact Hc1|exact Hs1|exact He1|by right].
Qed.

End fork.

(** The flags of the copied entry are those of the parent's, which is valid. *)
Lemma copy_flags {img : KernelImage} {imgok : KernelImageOk img} q e : page_ok q -> has e PTE_V = true -> PTE_FLAGS (copy_pte q e) = PTE_FLAGS e.
Proof.
  intros Hq Hv. destruct (has_valid q (PTE_FLAGS e) (page_ok_pa q Hq) (PTE_FLAGS_range e)) as [_ Hr].
  unfold copy_pte. rewrite PTE_FLAGS_mkpte; [|exact (page_ok_pa q Hq)|exact Hr]. apply Z.bits_inj'. intros i Hi. rewrite Z.lor_spec.
  unfold PTE_V in *. rewrite has_testbit in Hv by lia.
  change (Z.shiftl 1 0) with (2 ^ 0). rewrite Z.pow2_bits_eqb by lia. destruct (Z.eqb_spec 0 i) as [<-|]; [|apply orb_false_r].
  rewrite orb_true_r. unfold PTE_FLAGS. rewrite Z.land_spec, Hv. done.
Qed.

(** C10. Fork's memory: [uvmcopy] into an address space with nothing below
    [sz] returns 0 with the child seeing exactly the parent's memory below
    [sz], each page mapped with exactly the flags of the parent's (valid, read,
    write, execute, user and the reserved ones) and no others mapped, in pages
    the two do not share (so later writes of one are invisible to the other);
    or -1 with the child's mappings as they were. The parent is unchanged
    either way. *)
Theorem uvmcopy_copies {img : KernelImage} {imgok : KernelImageOk img} s l r1 T1 L1 r2 T2 L2 lim sz :
  uvm_inv s l r1 T1 L1 lim -> uvm_inv s l r2 T2 L2 lim -> sep l T1 L1 T2 L2 lim -> 0 <= sz <= lim ->
  (forall va, 0 <= va < sz + PGSIZE -> L2 !! va = None) ->
  exists r s' l' T2' L2', uvmcopy r1 r2 sz s = Ok r s' /\
    uvm_inv s' l' r1 T1 L1 lim /\ uvm_inv s' l' r2 T2' L2' lim /\ sep l' T1 L1 T2' L2' lim /\
    (forall p, in_use [] T1 L1 lim p -> same_page (mram s) (mram s') p) /\
    ((r = 0 /\ forall va, 0 <= va < sz -> ulog (mram s') L2' sz va = ulog (mram s') L1 sz va /\
                                        PTE_FLAGS <$> L2' !! PGROUNDDOWN va = PTE_FLAGS <$> L1 !! PGROUNDDOWN va) \/
     (r = -1 /\ L2' = L2)).
Proof.
  intros H1 H2 Hsep Hsz HL2.
  destruct (uvmcopy_loop_run (mram s) (Z.to_nat ((sz + PGSIZE - 1) / PGSIZE)) s l r1 T1 L1 r2 T2 L2 L2 lim 0 sz)
    as (r & s' & l' & T2' & L2' & Hrun & Hp & Hc & Hs & He & Hr); try done; try lia.
  { split; [done|done|done| |done|done]. intros va _ Hva. lia. }
  { unfold PGSIZE in *. dlia. }
  exists r, s', l', T2', L2'. split_and!; [exact Hrun|exact Hp|exact Hc|exact Hs|exact He|].
  destruct Hr as [[-> Hm]|?]; [left|by right]. split; [done|]. intros va Hva.
  destruct (PGROUNDDOWN_bounds va (proj1 Hva)) as (Ha & Hb1 & Hb2).
  specialize (Hm (PGROUNDDOWN va) Ha ltac:(lia)). unfold ulog.
  destruct (L1 !! PGROUNDDOWN va) as [e|] eqn:E; [|by rewrite Hm].
  apply (vi_leaves _ _ _ _ _ (ui_vm _ _ _ _ _ _ H1)) in E as (_ & _ & _ & Hv).
  destruct Hm as (q & HLq & Hq & Hb). rewrite HLq. cbn [fmap option_fmap option_map]. rewrite copy_flags by done. split; [|done].
  change PTE_U with (Z.shiftl 1 4). rewrite !has_copy by (done || lia). unfold copy_pte.
  rewrite (PTE2PA_leaf q (PTE_FLAGS e) Hq (PTE_FLAGS_range e)), Hb by lia. done.
Qed.

(** ** Example: a process with a page of its own, and the empty address space
    of its child *)

(** A new table beside an address space. *)
Lemma new_beside {img : KernelImage} {imgok : KernelImageOk img} s r2 l r1 T1 L1 : uvm_inv s (r2 :: l) r1 T1 L1 MAXVA ->
  exists s', uvm_inv s' l r1 T1 L1 MAXVA /\ uvm_inv s' l r2 {[ [] := r2 ]} ∅ MAXVA /\ sep l T1 L1 {[ [] := r2 ]} ∅ MAXVA.
Proof.
  intros Hu. pose proof (vi_kmem _ _ _ _ _ (ui_vm _ _ _ _ _ _ Hu)) as Hk.
  destruct (uvmcreate_run s r2 l MAXVA Hk) as (s' & _ & Hc & Hsame); [rewrite MAXVA_val; lia|]. exists s'.
  pose proof (km_nodup _ _ Hk) as [Hni _]%NoDup_cons.
  assert (Hno : forall p, in_use [] T1 L1 MAXVA p -> p ∉ r2 :: l).
  { intros p [?%elem_of_nil|[[pi Hp]|(va & e & HL & Hlt & <-)]]; [done| |].
    - exact (vi_free _ _ _ _ _ (ui_vm _ _ _ _ _ _ Hu) _ _ Hp).
    - apply (ui_own _ _ _ _ _ _ Hu _ _ HL Hlt). }
  split_and!; [|exact Hc|].
  - apply (uvm_inv_keep s (r2 :: l)); [exact Hu|exact (vi_kmem _ _ _ _ _ (ui_vm _ _ _ _ _ _ Hc))| |].
    + intros p Hp. apply Hsame; [exact (in_use_page s _ _ _ _ _ p Hu Hp)|]. apply Hno in Hp. set_solver.
    + intros p Hp Hin. apply Hno in Hin. set_solver.
  - intros p Hp [Hin|[[pi Hin]|(va & e & HL & _)]]; [apply Hno in Hp; set_solver| |by rewrite lookup_empty in HL].
    apply lookup_singleton_Some in Hin as [_ <-]. apply Hno in Hp. set_solver.
Qed.

(** Its first page, mapped with every permission. *)
Definition demo_perm : Z := Z.lor (Z.lor PTE_R PTE_W) (Z.lor PTE_X PTE_U).
Definition demo_page : Z := hd 0 demo_free.
Definition demo_leaf : Z := mkpte demo_page (Z.lor demo_perm PTE_V).

Lemma demo_paths (T : tables) : adds {[ [] := demo_root ]} T (on_path 0 (0 + PGSIZE)) -> (size T <= 3)%nat.
Proof.
  intros Ha. rewrite <- size_dom. etrans; [apply (subseteq_size _ ({[ []; [0]; [0; 0] ]} : gset (list Z)))|vm_compute; lia].
  intros pi [[p Hp]|(va & Hva & Hp)]%elem_of_dom%Ha; [apply lookup_singleton_Some in Hp as [<- _]; set_solver|].
  assert (E : PX 2 va = 0 /\ PX 1 va = 0).
  { unfold PX. change (PXSHIFT 2) with 30. change (PXSHIFT 1) with 21. rewrite !Z.shiftr_div_pow2 by lia.
    rewrite !Z.div_small; [done|..]; unfold PGSIZE in *; lia. }
  destruct E as [E1 E2]. rewrite E1, E2 in Hp. destruct Hp as [k Hk].
  destruct pi as [|x [|y [|z pi]]]; simplify_list_eq; set_solver.
Qed.

Lemma demo_parent : exists s r2 l T, uvm_inv s (r2 :: l) demo_root T {[ 0 := demo_leaf ]} MAXVA.
Proof.
  destruct demo_space as (s & Hu). set (l := tail demo_free).
  assert (El : demo_free = demo_page :: l) by (vm_compute; reflexivity). rewrite El in Hu.
  destruct (map_fresh_paths s demo_page l demo_root _ ∅ MAXVA 0 demo_perm (memset (mram s) demo_page 5 PGSIZE) Hu)
    as (r & s' & l' & T' & _ & _ & Hg & _ & _ & Hr & Hadd); [done|rewrite MAXVA_val; lia|apply lookup_empty|by vm_compute| |].
  { intros p Hp Hne. apply same_page_memset; [done| |done]. apply page_ok_aligned, (kmem_inv_page s (demo_page :: l)); [apply Hu|by left]. }
  pose proof (demo_paths T' Hadd) as Hs. pose proof (Permutation_length (gr_all _ _ _ _ Hg)) as Hl.
  rewrite !length_app in Hl. unfold tpages in Hl. rewrite !length_fmap, !length_map_to_list in Hl.
  assert (Hl6 : length l = 6%nat) by (vm_compute; reflexivity). rewrite map_size_singleton in Hl.
  destruct l' as [|r2 l']; [cbn in Hl; lia|]. destruct Hr as [[_ Hu']|(_ & Hnil & _)]; [|done].
  exists s', r2, l', T'. exact Hu'.
Qed.

Lemma uvmcopy_copies_witness : exists s l r2 T1 r s' l' T2' L2',
  uvm_inv s l demo_root T1 {[ 0 := demo_leaf ]} MAXVA /\ uvmcopy demo_root r2 8192 s = Ok r s' /\
  uvm_inv s' l' demo_root T1 {[ 0 := demo_leaf ]} MAXVA /\ uvm_inv s' l' r2 T2' L2' MAXVA /\
  ((r = 0 /\ exists e, L2' !! 0 = Some e /\ PTE_FLAGS e = Z.lor demo_perm PTE_V) \/ (r = -1 /\ L2' = ∅)).
Proof.
  destruct demo_parent as (s & r2 & l & T1 & Hu). destruct (new_beside s r2 l _ _ _ Hu) as (s1 & H1 & H2 & Hs).
  destruct (uvmcopy_copies s1 l demo_root T1 {[ 0 := demo_leaf ]} r2 _ ∅ MAXVA 8192 H1 H2 Hs) as (r & s' & l' & T2' & L2' & Hrun & Hp & Hc & _ & _ & Hr);
    [rewrite MAXVA_val; lia|intros va _; apply lookup_empty|].
  exists s1, l, r2, T1, r, s', l', T2', L2'. split_and!; [exact H1|exact Hrun|exact Hp|exact Hc|].
  destruct Hr as [[-> Hr]|Hr]; [left|by right]. split; [done|]. destruct (Hr 0 ltac:(lia)) as [_ Hf]. change (PGROUNDDOWN 0) with 0 in Hf.
  rewrite lookup_singleton_eq in Hf. destruct (L2' !! 0) as [e|]; [|discriminate Hf]. exists e. split; [done|]. injection Hf as ->. vm_compute. reflexivity.
Defined.
