(* ===== verification/VmKernel.v ===== *)
(** * The kernel's own page table (kernel/vm.c: kvmmap, kvmmake, kvminit)

    From the memory that [kinit] hands out, [kvmmake] builds the table that
    every hart runs on: the devices, the kernel's text and the rest of memory
    at their own addresses, the trampoline, and a stack for every process.
    The tables it needs are counted, so that it is known not to panic. *)

From stdpp Require Import base gmap list numbers strings.
From Stdlib Require Import ZArith Lia.
From S2P Require Import Prelude Riscv Mem Spinlock Kalloc Vm VmSpec VmOps.
Open Scope Z_scope.
Open Scope kernel_scope.

(** ** What the table says *)

(** [size] bytes from [lo] mapped to [pa], over the mappings [f]. *)
Definition region (lo size pa perm : Z) (f : Z -> option Z) (va : Z) : option Z :=
  if (lo <=? va) && (va <? lo + size) then Some (mkpte (pa + (va - lo)) (Z.lor perm PTE_V)) else f va.

(** Stack [n] is the page [qs !! n]; the page below it is not mapped. *)
Definition stacks (qs : list Z) (f : Z -> option Z) (va : Z) : option Z :=
  let d := TRAMPOLINE - va in
  if (0 <? d) && (d mod (2 * PGSIZE) =? 0) then
    match qs !! Z.to_nat (d / (2 * PGSIZE) - 1) with
    | Some q => Some (mkpte q (Z.lor (Z.lor PTE_R PTE_W) PTE_V))
    | None => f va
    end
  else f va.

Definition maps (L : leafmap) (f : Z -> option Z) : Prop := forall va, aligned va -> L !! va = f va.

Section regions.
Context {img : KernelImage}.

Definition devices : Z -> option Z :=
  region PLIC 0x4000000 PLIC (Z.lor PTE_R PTE_W)
    (region SDHCI0 PGSIZE SDHCI0 (Z.lor PTE_R PTE_W)
      (region UART0 PGSIZE UART0 (Z.lor PTE_R PTE_W) (fun _ => None))).
Definition memory_map : Z -> option Z :=
  region etext (PHYSTOP - etext) etext (Z.lor PTE_R PTE_W)
    (region KERNBASE (etext - KERNBASE) KERNBASE (Z.lor PTE_R PTE_X) devices).
Definition kernel_map (qs : list Z) : Z -> option Z :=
  stacks qs (region TRAMPOLINE PGSIZE trampoline (Z.lor PTE_R PTE_X) memory_map).
End regions.

Lemma region_out lo size pa perm f va : va < lo \/ lo + size <= va -> region lo size pa perm f va = f va.
Proof. unfold region. intros H. destruct (Z.leb_spec lo va), (Z.ltb_spec va (lo + size)); cbn; auto; lia. Qed.

(** ** The tables it takes *)

(** The pages of [lo, hi) need no table but those of [paths]. *)
Definition covered (paths : list (list Z)) (lo hi : Z) : Prop := forall pi, on_path lo hi pi -> pi ∈ paths.

(** The tables on the way to a page of the kernel's map: the root, three
    tables of the second level and 291 of the third. *)
Definition kpaths : list (list Z) :=
  [] :: [1] :: [3] :: [255] :: [255; 511] :: [3; 160] :: [3; 161] ::
  map (fun i => [3; i]) (seqZ 256 32) ++ map (fun i => [1; i]) (seqZ 0 256).

Lemma kpaths_length : length kpaths = 295%nat.
Proof. reflexivity. Qed.

Lemma kpaths_distinct : NoDup kpaths.
Proof. apply (bool_decide_unpack _). by vm_compute. Qed.

Lemma prefix_of_two (pi : list Z) a b : pi `prefix_of` [a; b] -> pi = [] \/ pi = [a] \/ pi = [a; b].
Proof.
  intros [k E]. destruct pi as [|x [|y [|z pi]]]; [by left| | |].
  - injection E as -> _. auto.
  - injection E as -> -> _. auto.
  - apply (f_equal length) in E. cbn in E. lia.
Qed.

Lemma covered_by paths lo hi a lo1 hi1 : 0 <= lo -> [] ∈ paths -> [a] ∈ paths -> (forall i, lo1 <= i <= hi1 -> [a; i] ∈ paths) ->
  a * 2 ^ 30 + lo1 * 2 ^ 21 <= lo -> hi <= a * 2 ^ 30 + (hi1 + 1) * 2 ^ 21 -> 0 <= a < 256 -> 0 <= lo1 -> hi1 < 512 -> covered paths lo hi.
Proof.
  intros H0 Hn Ha Hi Hlo Hhi Ha0 H1 H2 pi (va & Hva & Hp).
  assert (E2 : PX 2 va = a) by (rewrite PX_spec by lia; change (PXSHIFT 2) with 30; dlia).
  assert (E1 : lo1 <= PX 1 va <= hi1) by (rewrite PX_spec by lia; change (PXSHIFT 1) with 21; dlia).
  rewrite E2 in Hp. destruct (prefix_of_two _ _ _ Hp) as [-> | [-> | ->]]; [done|done|by apply Hi].
Qed.

Lemma seq_path a lo n i : lo <= i < lo + n -> [a; i] ∈ map (fun i => [a; i]) (seqZ lo n).
Proof. intros Hi. apply list_elem_of_fmap. exists i. split; [done|]. apply elem_of_seqZ. lia. Qed.

Lemma cover_ram lo hi : KERNBASE <= lo -> hi <= PHYSTOP -> covered kpaths lo hi.
Proof.
  intros Hl Hh. unfold PHYSTOP, KERNBASE in *. apply (covered_by _ lo hi 1 0 255); try lia.
  - by left.
  - right. by left.
  - intros i Hi. do 7 right. apply elem_of_app. right. apply seq_path. lia.
Qed.
Lemma cover_plic : covered kpaths PLIC (PLIC + 0x4000000).
Proof.
  apply (covered_by _ _ _ 3 256 287); unfold PLIC; try lia.
  - by left.
  - do 2 right. by left.
  - intros i Hi. do 7 right. apply elem_of_app. left. apply seq_path. lia.
Qed.
Lemma cover_uart : covered kpaths UART0 (UART0 + PGSIZE).
Proof.
  apply (covered_by _ _ _ 3 160 160); unfold UART0, PGSIZE; try lia.
  - by left.
  - do 2 right. by left.
  - intros i Hi. replace i with 160 by lia. do 5 right. by left.
Qed.
Lemma cover_sdhci : covered kpaths SDHCI0 (SDHCI0 + PGSIZE).
Proof.
  apply (covered_by _ _ _ 3 161 161); unfold SDHCI0, PGSIZE; try lia.
  - by left.
  - do 2 right. by left.
  - intros i Hi. replace i with 161 by lia. do 6 right. by left.
Qed.
Lemma cover_top lo hi : TRAMPOLINE - 2 * NPROC * PGSIZE <= lo -> hi <= MAXVA -> covered kpaths lo hi.
Proof.
  unfold TRAMPOLINE. rewrite MAXVA_val. unfold PGSIZE, NPROC. intros Hl Hh. apply (covered_by _ _ _ 255 511 511); try lia.
  - by left.
  - do 3 right. by left.
  - intros i Hi. replace i with 511 by lia. do 4 right. by left.
Qed.

(** ** Building a table *)

(** Memory outside [pages] is left alone. *)
Definition outside (pages : list Z) (s s' : memst) : Prop := forall p, aligned p -> p ∉ pages -> same_page (mram s) (mram s') p.

Section build.
Context {img : KernelImage} {imgok : KernelImageOk img} (paths : list (list Z)) (distinct : NoDup paths) (pages : list Z) (root : Z).

(** Of [pages], some are now stacks [qs] and some are tables of [paths]. *)
Record building (s : memst) (qs l : list Z) (f : Z -> option Z) : Prop := {
  bd_ex : exists T L, vm_inv s l root T L /\ maps L f /\ qs ++ l ++ tpages T ≡ₚ pages /\ forall pi, is_Some (T !! pi) -> pi ∈ paths
}.

Lemma tables_few (T : tables) : (forall pi, is_Some (T !! pi) -> pi ∈ paths) -> (length (tpages T) <= length paths)%nat.
Proof using distinct.
  intros H. unfold tpages. rewrite length_fmap, length_map_to_list, <- size_dom.
  assert (Hs : dom T ⊆ (list_to_set paths : gset (list Z))) by (intros pi Hpi; apply elem_of_list_to_set, H; by apply elem_of_dom).
  etrans; [exact (subseteq_size _ _ Hs)|]. by rewrite (size_list_to_set _ distinct).
Qed.

Lemma building_left s qs l f : building s qs l f -> (length qs + length l + length paths >= length pages)%nat.
Proof using distinct.
  intros [(T & L & _ & _ & Hp & HT)]. pose proof (tables_few T HT). apply Permutation_length in Hp. rewrite !length_app in Hp. lia.
Qed.

(** With more pages than tables on the paths, [mappages] does not fail. *)
Lemma mappages_done s qs l f va pa size perm : building s qs l f -> (length qs + length paths < length pages)%nat ->
  aligned va -> aligned size -> 0 <= va -> 0 < size -> va + size <= MAXVA -> 0 <= pa -> pa + size <= 2 ^ 56 -> 0 <= perm < 2 ^ 10 ->
  covered paths va (va + size) -> (forall x, aligned x -> va <= x < va + size -> f x = None) ->
  exists s' l', mappages root va size pa perm s = Ok 0 s' /\ building s' qs l' (region va size pa perm f) /\ outside pages s s'.
Proof using imgok distinct.
  intros [(T & L & Hv & Hm & Hp & HT)] Hn Ha Hs H0 Hz Hmax Hpa Hpa2 Hperm Hc Hf.
  destruct (mappages_paths root va size pa perm s l T L) as (r & s' & l' & T' & k & E & He & Hr & Hadd); try done.
  { intros i Hi. unfold aligned, PGSIZE in *. assert (Hx : (va + i * 4096) mod 4096 = 0) by dlia. rewrite Hm by done. apply Hf; [done|dlia]. }
  assert (HT' : forall pi, is_Some (T' !! pi) -> pi ∈ paths) by (intros pi [Hpi|Hpi]%Hadd; [by apply HT|by apply Hc]).
  assert (Hp' : qs ++ l' ++ tpages T' ≡ₚ pages) by (rewrite <- Hp; f_equiv; symmetry; apply (gr_all _ _ _ _ (ex_grows _ _ _ _ _ _ _ _ He))).
  destruct Hr as [[-> Hk]|(-> & _ & ->)].
  - exists s', l'. split_and!; [done| |].
    + split. exists T', (map_range k L va pa perm). split_and!; [apply He| |done|done].
      intros x Hx. rewrite map_range_lookup by done. unfold region. replace (Z.of_nat k * PGSIZE) with size by (unfold aligned, PGSIZE in *; dlia).
      by rewrite <- Hm.
    + intros p Hal Hni. apply (ex_frame _ _ _ _ _ _ _ _ He); [done| |].
      * intros Hin. apply Hni. rewrite <- Hp, !elem_of_app. tauto.
      * intros pi Hpi. apply Hni. rewrite <- Hp, !elem_of_app. do 2 right. apply list_elem_of_fmap. exists (pi, p). split; [done|by apply elem_of_map_to_list].
  - exfalso. pose proof (tables_few T' HT'). apply Permutation_length in Hp'. rewrite !length_app in Hp'. cbn in Hp'. lia.
Qed.

Lemma kvmmap_ok s qs l f va pa size perm : building s qs l f -> (length qs + length paths < length pages)%nat ->
  aligned va -> aligned size -> 0 <= va -> 0 < size -> va + size <= MAXVA -> 0 <= pa -> pa + size <= 2 ^ 56 -> 0 <= perm < 2 ^ 10 ->
  covered paths va (va + size) -> (forall x, aligned x -> va <= x < va + size -> f x = None) ->
  exists s' l', kvmmap root va pa size perm s = Ok tt s' /\ building s' qs l' (region va size pa perm f).
Proof using imgok distinct.
  intros Hb Hn Ha Hs H0 Hz Hmax Hpa Hpa2 Hperm Hc Hf. destruct (mappages_done s qs l f va pa size perm) as (s' & l' & E & Hb' & _); try done.
  exists s', l'. unfold kvmmap. by step_with E.
Qed.

Lemma building_ext s qs l f g : (forall va, aligned va -> f va = g va) -> building s qs l f -> building s qs l g.
Proof using. intros Hfg [(T & L & Hv & Hm & H)]. split. exists T, L. split_and!; [done| |apply H..]. intros va Ha. by rewrite Hm, Hfg. Qed.

(** [kalloc] takes a page for a stack. *)
Lemma building_take s qs l f : building s qs l f -> (length qs + length paths < length pages)%nat ->
  exists q l' s', kalloc s = Ok q s' /\ page_ok q /\ building s' (qs ++ [q]) l' f.
Proof using imgok distinct.
  intros Hb Hn. destruct l as [|q l]; [pose proof (building_left _ _ _ _ Hb); cbn in *; lia|]. destruct Hb as [(T & L & Hv & Hm & Hp & HT)].
  pose proof (kalloc_cons s q l (vi_kmem _ _ _ _ _ Hv)) as E. exists q, l. eexists. split; [exact E|].
  pose proof (kmem_inv_page _ _ q (vi_kmem _ _ _ _ _ Hv) ltac:(by left)) as Hq.
  destruct (uvm_take s q l root T L 0 (memset (mram s) q 5 PGSIZE)) as (_ & _ & _ & _ & [Hv' _ _ _]).
  - split; [exact Hv|rewrite MAXVA_val; lia|intros va e HL%(vi_leaves _ _ _ _ _ Hv); lia|intros va va' e e' HL%(vi_leaves _ _ _ _ _ Hv); lia].
  - intros p Ha Hne. apply same_page_memset; [done|by apply page_ok_aligned|done].
  - split; [done|]. split. exists T, L. split_and!; [exact Hv'|done| |done]. rewrite <- Hp, <- app_assoc. done.
Qed.

Lemma stacks_snoc qs q f va : aligned va ->
  region (KSTACK (Z.of_nat (length qs))) PGSIZE q (Z.lor PTE_R PTE_W) (stacks qs f) va = stacks (qs ++ [q]) f va.
Proof using.
  intros Ha. unfold region, stacks, KSTACK. set (n := Z.of_nat (length qs)). set (d := TRAMPOLINE - va).
  assert (Hd : d mod PGSIZE = 0) by (unfold d, aligned, TRAMPOLINE in *; rewrite MAXVA_val; unfold PGSIZE in *; dlia).
  destruct (decide (d = (n + 1) * 2 * PGSIZE)) as [E|Hne].
  - replace (TRAMPOLINE - (n + 1) * 2 * PGSIZE) with va by lia. rewrite Z.leb_refl, (proj2 (Z.ltb_lt va _)) by (unfold PGSIZE; lia). cbn [andb].
    assert (Ed : d / (2 * PGSIZE) - 1 = n /\ d mod (2 * PGSIZE) = 0 /\ 0 < d) by (rewrite E; unfold PGSIZE, n in *; dlia). destruct Ed as (-> & -> & Hpos).
    rewrite (proj2 (Z.ltb_lt _ _) Hpos), Z.eqb_refl. unfold n. rewrite Nat2Z.id, list_lookup_middle by done. by rewrite Z.sub_diag, Z.add_0_r.
  - assert (Hout : (TRAMPOLINE - (n + 1) * 2 * PGSIZE <=? va) && (va <? TRAMPOLINE - (n + 1) * 2 * PGSIZE + PGSIZE) = false).
    { apply andb_false_iff. destruct (Z.leb_spec (TRAMPOLINE - (n + 1) * 2 * PGSIZE) va); [right|by left]. apply Z.ltb_ge. unfold PGSIZE, d in *. dlia. }
    rewrite Hout. destruct (Z.ltb_spec 0 d); [|done]. destruct (Z.eqb_spec (d mod (2 * PGSIZE)) 0) as [Hm|]; [|done]. cbn [andb].
    assert (Hi : Z.to_nat (d / (2 * PGSIZE) - 1) <> length qs) by (unfold PGSIZE, n in *; dlia).
    destruct (decide (Z.to_nat (d / (2 * PGSIZE) - 1) < length qs)%nat) as [Hl|Hl]; [by rewrite lookup_app_l|].
    rewrite (lookup_ge_None_2 qs), lookup_ge_None_2 by (rewrite ?length_app; cbn; lia). done.
Qed.

Lemma stacks_next qs f : f (KSTACK (Z.of_nat (length qs))) = None -> stacks qs f (KSTACK (Z.of_nat (length qs))) = None.
Proof using.
  intros Hf. unfold stacks. destruct (_ && _); [|done]. rewrite lookup_ge_None_2; [done|]. unfold KSTACK, PGSIZE. dlia.
Qed.

End build.

(** ** The whole table *)

Section table.
Context {img : KernelImage} {imgok : KernelImageOk img}.

Lemma proc_mapstacks_ok pages root s l f : building kpaths pages root s [] l f -> (Z.to_nat NPROC + length kpaths < length pages)%nat ->
  (forall va, TRAMPOLINE - 2 * NPROC * PGSIZE <= va < TRAMPOLINE -> f va = None) ->
  exists s' qs l', proc_mapstacks root s = Ok tt s' /\ length qs = Z.to_nat NPROC /\ building kpaths pages root s' qs l' (stacks qs f).
Proof using imgok.
  intros Hb Hn Hf.
  destruct (for_all_inv (fun t s => exists qs l, length qs = Z.to_nat t /\ building kpaths pages root s qs l (stacks qs f)) (fun p =>
    pa <- kalloc ;; if pa =? 0 then panic "kalloc" else kvmmap root (KSTACK p) pa PGSIZE (Z.lor PTE_R PTE_W)) NPROC s) as (s' & E & qs & l' & Hl & Hb').
  - unfold NPROC. lia.
  - exists [], l. split; [done|]. eapply building_ext; [|exact Hb]. intros va Ha. unfold stacks. by destruct (_ && _).
  - intros t s0 Ht (qs & l0 & Hl & Hb0). destruct (building_take _ kpaths_distinct _ _ _ _ _ _ Hb0) as (q & l1 & s1 & E & Hq & Hb1); [lia|]. step_with E.
    pose proof (page_ok_pos q Hq) as (Hpos & _ & H56). rewrite (proj2 (Z.eqb_neq q 0)) by lia. assert (Et : Z.of_nat (length qs) = t) by lia.
    assert (Hlow : TRAMPOLINE - 2 * NPROC * PGSIZE <= KSTACK t /\ KSTACK t + PGSIZE <= TRAMPOLINE) by (unfold KSTACK, PGSIZE in *; lia).
    assert (HM : TRAMPOLINE = 2 ^ 38 - PGSIZE) by done. destruct (KSTACK_spec t (t + 1)) as (Ha & _); [lia|].
    destruct (kvmmap_ok _ kpaths_distinct _ _ s1 (qs ++ [q]) l1 (stacks qs f) (KSTACK t) q PGSIZE (Z.lor PTE_R PTE_W) Hb1) as (s2 & l2 & E2 & Hb2);
      [rewrite length_app; cbn [length]; lia|done|done|unfold PGSIZE, NPROC in *; lia|done|rewrite MAXVA_val; unfold PGSIZE in *; lia|lia| |done| | |].
    + apply page_ok_aligned in Hq. unfold aligned, PGSIZE in *. dlia.
    + apply cover_top; [lia|]. rewrite MAXVA_val. unfold PGSIZE in *. lia.
    + intros x Hx Hr. assert (x = KSTACK t) as -> by (unfold aligned, PGSIZE in *; dlia). rewrite <- Et. apply stacks_next, Hf. rewrite Et. unfold PGSIZE in *. lia.
    + exists s2. split; [exact E2|]. exists (qs ++ [q]), l2. split; [rewrite length_app; cbn [length]; lia|]. eapply building_ext; [|exact Hb2]. intros va Hva. rewrite <- Et. by apply stacks_snoc.
  - exists s', qs, l'. done.
Qed.

(** An empty root. *)
Lemma building_root {A} s root l (k : Z -> M memst A) : kmem_inv s (root :: l) ->
  exists s', (kpgtbl <- kalloc ;; store (fun m => memset m kpgtbl 0 PGSIZE) ;;; k kpgtbl) s = k root s' /\ building kpaths (root :: l) root s' [] l (fun _ => None).
Proof using imgok.
  intros Hk. destruct (uvmcreate_run s root l 0 Hk) as (s1 & E & Hu & _); [rewrite MAXVA_val; lia|].
  pose proof (page_ok_pos root (kmem_inv_page _ _ root Hk ltac:(by left))) as Hpos. exists s1. split.
  - unfold uvmcreate in E. rewrite (bind_ok _ _ _ _ _ (kalloc_cons s root l Hk)), (proj2 (Z.eqb_neq root 0)) in E by lia. injection E as <-.
    step_with (kalloc_cons s root l Hk). reflexivity.
  - split. exists {[ [] := root ]}, ∅. split_and!; [apply Hu| | |].
    + intros va _. apply lookup_empty.
    + unfold tpages. rewrite map_to_list_singleton. cbn. by rewrite Permutation_app_comm.
    + intros pi [p [<- _]%lookup_singleton_Some]. by left.
Qed.

Lemma devices_out va : va < PHYSTOP \/ PLIC + 0x4000000 <= va -> devices va = None.
Proof using. intros H. unfold devices. rewrite !region_out by (unfold PHYSTOP, KERNBASE, UART0, SDHCI0, PLIC, PGSIZE in *; lia). done. Qed.

Lemma kernel_devices s root l (k : M memst Z) : building kpaths (root :: l) root s [] l (fun _ => None) -> (360 <= length (root :: l))%nat ->
  exists s' l', (kvmmap root UART0 UART0 PGSIZE (Z.lor PTE_R PTE_W) ;;;
    kvmmap root SDHCI0 SDHCI0 PGSIZE (Z.lor PTE_R PTE_W) ;;;
    kvmmap root PLIC PLIC 0x4000000 (Z.lor PTE_R PTE_W) ;;; k) s = k s' /\ building kpaths (root :: l) root s' [] l' devices.
Proof using imgok.
  intros Hb Hn. pose proof kpaths_length as HK. cbn [length] in Hn.
  destruct (kvmmap_ok _ kpaths_distinct _ _ _ _ _ _ UART0 UART0 PGSIZE (Z.lor PTE_R PTE_W) Hb) as (s1 & l1 & E1 & Hb1); try done; try (cbn [length]; lia); [apply cover_uart|].
  destruct (kvmmap_ok _ kpaths_distinct _ _ _ _ _ _ SDHCI0 SDHCI0 PGSIZE (Z.lor PTE_R PTE_W) Hb1) as (s2 & l2 & E2 & Hb2); try done; try (cbn [length]; lia); [apply cover_sdhci| |].
  { intros x _ Hx. rewrite !region_out by (unfold UART0, SDHCI0, PGSIZE in *; lia). done. }
  destruct (kvmmap_ok _ kpaths_distinct _ _ _ _ _ _ PLIC PLIC 0x4000000 (Z.lor PTE_R PTE_W) Hb2) as (s3 & l3 & E3 & Hb3); try done; try (cbn [length]; lia); [apply cover_plic| |].
  { intros x _ Hx. rewrite !region_out by (unfold UART0, SDHCI0, PLIC, PGSIZE in *; lia). done. }
  exists s3, l3. split; [|exact Hb3]. step_with E1. step_with E2. by step_with E3.
Qed.

Lemma kernel_memory s root l l0 (k : M memst Z) : building kpaths (root :: l) root s [] l0 devices -> page_ok root -> (360 <= length (root :: l))%nat ->
  exists s' l', (kvmmap root KERNBASE KERNBASE (etext - KERNBASE) (Z.lor PTE_R PTE_X) ;;;
    kvmmap root etext etext (PHYSTOP - etext) (Z.lor PTE_R PTE_W) ;;;
    kvmmap root TRAMPOLINE trampoline PGSIZE (Z.lor PTE_R PTE_X) ;;; k) s = k s' /\
  building kpaths (root :: l) root s' [] l' (region TRAMPOLINE PGSIZE trampoline (Z.lor PTE_R PTE_X) memory_map).
Proof using imgok.
  intros Hb Hq Hn. pose proof kpaths_length as HK. cbn [length] in Hn. pose proof etext_range as He. pose proof etext_aligned as Ha. pose proof trampoline_range as Ht. pose proof (page_ok_pos root Hq) as Hr.
  assert (HP : PHYSTOP = 0x60000000 /\ KERNBASE = 0x40000000) by done. assert (HM : MAXVA = 2 ^ 38 /\ TRAMPOLINE = 2 ^ 38 - 4096 /\ PGSIZE = 4096) by done. destruct Hq as [_ Hq].
  assert (Hs : aligned (etext - KERNBASE) /\ aligned (PHYSTOP - etext)) by (unfold aligned, PGSIZE in *; dlia). destruct Hs as [Hs1 Hs2].
  destruct (kvmmap_ok _ kpaths_distinct _ _ _ _ _ _ KERNBASE KERNBASE (etext - KERNBASE) (Z.lor PTE_R PTE_X) Hb) as (s1 & l1 & E1 & Hb1); try done; try (cbn [length]; lia).
  { apply cover_ram; lia. } { intros x _ Hx. apply devices_out. lia. }
  destruct (kvmmap_ok _ kpaths_distinct _ _ _ _ _ _ etext etext (PHYSTOP - etext) (Z.lor PTE_R PTE_W) Hb1) as (s2 & l2 & E2 & Hb2); try done; try (cbn [length]; lia).
  { apply cover_ram; lia. } { intros x _ Hx. rewrite region_out by lia. apply devices_out. lia. }
  destruct (kvmmap_ok _ kpaths_distinct _ _ _ _ _ _ TRAMPOLINE trampoline PGSIZE (Z.lor PTE_R PTE_X) Hb2) as (s3 & l3 & E3 & Hb3); try done; try (cbn [length]; lia).
  { apply cover_top; [unfold NPROC; lia|lia]. } { intros x _ Hx. rewrite !region_out by lia. apply devices_out. unfold PLIC. lia. }
  exists s3, l3. split; [|exact Hb3]. step_with E1. step_with E2. by step_with E3.
Qed.

(** [kvmmake] needs 359 pages: 295 tables and 64 stacks. *)
Lemma kvmmake_run s root l : kmem_inv s (root :: l) -> (360 <= length (root :: l))%nat ->
  exists s' qs l', kvmmake s = Ok root s' /\ length qs = Z.to_nat NPROC /\ building kpaths (root :: l) root s' qs l' (kernel_map qs).
Proof using imgok.
  intros Hk Hn. pose proof (kmem_inv_page _ _ root Hk ltac:(by left)) as Hq. unfold kvmmake.
  destruct (building_root s root l (fun r => kvmmap r UART0 UART0 PGSIZE (Z.lor PTE_R PTE_W) ;;; kvmmap r SDHCI0 SDHCI0 PGSIZE (Z.lor PTE_R PTE_W) ;;;
    kvmmap r PLIC PLIC 0x4000000 (Z.lor PTE_R PTE_W) ;;; kvmmap r KERNBASE KERNBASE (etext - KERNBASE) (Z.lor PTE_R PTE_X) ;;;
    kvmmap r etext etext (PHYSTOP - etext) (Z.lor PTE_R PTE_W) ;;; kvmmap r TRAMPOLINE trampoline PGSIZE (Z.lor PTE_R PTE_X) ;;;
    proc_mapstacks r ;;; ret r) Hk) as (s1 & -> & Hb1).
  edestruct (kernel_devices s1 root l) as (s2 & l2 & -> & Hb2); [done|done|].
  edestruct (kernel_memory s2 root l l2) as (s3 & l3 & -> & Hb3); [done|done|done|].
  destruct (proc_mapstacks_ok _ _ s3 l3 _ Hb3) as (s4 & qs & l4 & E & Hl & Hb4).
  - rewrite kpaths_length. unfold NPROC in *. lia.
  - assert (HM : TRAMPOLINE = 2 ^ 38 - 4096 /\ PGSIZE = 4096 /\ NPROC = 64 /\ PHYSTOP = 0x60000000 /\ KERNBASE = 0x40000000) by done.
    pose proof etext_range. pose proof k_end_range. intros va Hva. unfold memory_map. rewrite !region_out by lia. apply devices_out. unfold PLIC. lia.
  - exists s4, qs, l4. split; [|done]. by step_with E.
Qed.

(** ** The table of a new process

    Only the trampoline and the trap frame, as [proc_pagetable] maps them. *)
Definition upaths : list (list Z) := [[]; [255]; [255; 511]].
Lemma upaths_distinct : NoDup upaths.
Proof using. apply (bool_decide_unpack _). by vm_compute. Qed.

Definition new_map (tf : Z) : Z -> option Z :=
  region TRAPFRAME PGSIZE tf (Z.lor PTE_R PTE_W) (region TRAMPOLINE PGSIZE trampoline (Z.lor PTE_R PTE_X) (fun _ => None)).

Lemma cover_user lo hi : TRAPFRAME <= lo -> hi <= MAXVA -> covered upaths lo hi.
Proof using.
  unfold TRAPFRAME, TRAMPOLINE. rewrite MAXVA_val. unfold PGSIZE. intros Hl Hh. apply (covered_by _ _ _ 255 511 511); try lia.
  - by left.
  - right. by left.
  - intros i Hi. replace i with 511 by lia. do 2 right. by left.
Qed.

Lemma new_table_run s root l tf : kmem_inv s (root :: l) -> (3 < length (root :: l))%nat -> aligned tf -> 0 <= tf -> tf + PGSIZE <= 2 ^ 56 ->
  exists s1 s2 s3 l', uvmcreate s = Ok root s1 /\ mappages root TRAMPOLINE PGSIZE trampoline (Z.lor PTE_R PTE_X) s1 = Ok 0 s2 /\
    mappages root TRAPFRAME PGSIZE tf (Z.lor PTE_R PTE_W) s2 = Ok 0 s3 /\ building upaths (root :: l) root s3 [] l' (new_map tf) /\ outside (root :: l) s s3.
Proof using imgok.
  intros Hk Hn Ha H0 H56. pose proof etext_range. pose proof trampoline_range. pose proof trampoline_aligned. pose proof k_end_range.
  assert (HM : MAXVA = 2 ^ 38 /\ TRAMPOLINE = 2 ^ 38 - 4096 /\ TRAPFRAME = 2 ^ 38 - 8192 /\ PGSIZE = 4096 /\ PHYSTOP = 0x60000000 /\ KERNBASE = 0x40000000) by done.
  destruct (uvmcreate_run s root l 0 Hk) as (s1 & E1 & Hu & Ho1); [lia|].
  assert (Hb1 : building upaths (root :: l) root s1 [] l (fun _ => None)).
  { split. exists {[ [] := root ]}, ∅. split_and!; [apply Hu|intros va _; apply lookup_empty| |].
    - unfold tpages. rewrite map_to_list_singleton. cbn. by rewrite Permutation_app_comm.
    - intros pi [p [<- _]%lookup_singleton_Some]. by left. }
  destruct (mappages_done _ upaths_distinct _ _ _ _ _ _ TRAMPOLINE trampoline PGSIZE (Z.lor PTE_R PTE_X) Hb1) as (s2 & l2 & E2 & Hb2 & Ho2); try done; try lia; [apply cover_user; lia|].
  destruct (mappages_done _ upaths_distinct _ _ _ _ _ _ TRAPFRAME tf PGSIZE (Z.lor PTE_R PTE_W) Hb2) as (s3 & l3 & E3 & Hb3 & Ho3); try done; try lia.
  { apply cover_user; lia. } { intros x _ Hx. rewrite region_out by lia. done. }
  exists s1, s2, s3, l3. split_and!; [done|done|done|done|]. intros p Hp Hni.
  eapply same_page_trans; [apply Ho1; [done|intros ->; apply Hni; by left]|]. eapply same_page_trans; [by apply Ho2|by apply Ho3].
Qed.

(** The kernel leaves [n] pages of memory free. *)
Definition room (n : Z) : Prop := PGROUNDUP k_end + n * PGSIZE <= PHYSTOP.

Lemma length_pages_up n p l : length (pages_up n p l) = (n + length l)%nat.
Proof using. revert p l. induction n as [|n IH]; intros p l; cbn; [done|]. rewrite IH. cbn. lia. Qed.

Lemma room_pages n : room n -> n <= Z.of_nat (length free_pages).
Proof using. intros Hr. unfold free_pages, room, PGSIZE in *. rewrite length_pages_up. cbn [length]. dlia. Qed.

Lemma kvminit_run s n : freelist s = 0 -> 360 <= n -> room n ->
  exists root s' qs l T L, (kinit ;;; kvminit) s = Ok root s' /\ vm_inv s' l root T L /\ maps L (kernel_map qs) /\
    length qs = Z.to_nat NPROC /\ qs ++ l ++ tpages T ≡ₚ free_pages /\ n - 359 <= Z.of_nat (length l).
Proof using imgok.
  intros Hf Hn Hr%room_pages. destruct (kinit_run s Hf) as (s1 & E & Hk). destruct free_pages as [|root l] eqn:Ep; [cbn in Hr; lia|].
  destruct (kvmmake_run s1 root l Hk) as (s2 & qs & l' & E2 & Hl & Hb); [lia|]. pose proof (building_left _ kpaths_distinct _ _ _ _ _ _ Hb) as Hleft.
  destruct Hb as [(T & L & Hv & Hm & Hp & _)]. exists root, s2, qs, l', T, L. rewrite kpaths_length, Hl in Hleft. change (Z.to_nat NPROC) with 64%nat in *.
  split_and!; [by step_with E|done..|lia].
Qed.

(** ** What an entry of it can be *)

Definition kernel_entry (va e : Z) : Prop := exists pa perm, e = mkpte pa (Z.lor perm PTE_V) /\ aligned pa /\ 0 <= pa < 2 ^ 56 /\
  (perm = Z.lor PTE_R PTE_W /\ (pa < KERNBASE \/ etext <= pa) \/ perm = Z.lor PTE_R PTE_X) /\ (KERNBASE <= va < PHYSTOP -> pa = va).

Lemma region_entry lo size pa perm f va e : aligned va -> aligned lo -> aligned pa -> 0 <= pa -> pa + size <= 2 ^ 56 ->
  perm = Z.lor PTE_R PTE_W /\ (pa + size <= KERNBASE \/ etext <= pa) \/ perm = Z.lor PTE_R PTE_X ->
  (pa = lo \/ PHYSTOP <= lo) -> (f va = Some e -> kernel_entry va e) -> region lo size pa perm f va = Some e -> kernel_entry va e.
Proof using.
  intros Hva Hlo Hpa H0 H56 Hperm Hid Hf. unfold region. destruct (Z.leb_spec lo va), (Z.ltb_spec va (lo + size)); cbn [andb]; try exact Hf.
  intros [= <-]. exists (pa + (va - lo)), perm. split_and!; [done|unfold aligned, PGSIZE in *; dlia|lia|lia| |lia].
  destruct Hperm as [[-> Hr] | ->]; [left; split; [done|lia]|by right].
Qed.

Lemma stacks_entry qs f va e : Forall page_ok qs -> (f va = Some e -> kernel_entry va e) -> 
  (KERNBASE <= va < PHYSTOP -> Z.of_nat (length qs) < 2 ^ 20) -> stacks qs f va = Some e -> kernel_entry va e.
Proof using imgok.
  intros Hq Hf Hn. unfold stacks. destruct (Z.ltb_spec 0 (TRAMPOLINE - va)), (Z.eqb_spec ((TRAMPOLINE - va) mod (2 * PGSIZE)) 0); cbn [andb]; try exact Hf.
  destruct (qs !! _) as [q|] eqn:E; [|exact Hf]. intros [= <-]. rewrite Forall_forall in Hq. pose proof (Hq q (list_elem_of_lookup_2 _ _ _ E)) as Hok.
  pose proof (page_ok_pos q Hok) as (Hp & _ & H56). pose proof etext_range. exists q, (Z.lor PTE_R PTE_W). destruct Hok as [Ha Hk]. split_and!; [done|done|lia|lia|left; split; [done|lia]|].
  intros Hva. exfalso. apply lookup_lt_Some in E. specialize (Hn Hva). assert (HM : TRAMPOLINE = 2 ^ 38 - 4096 /\ PHYSTOP = 0x60000000) by done. unfold PGSIZE in *. dlia.
Qed.

Lemma kernel_map_entry qs va e : Forall page_ok qs -> (length qs <= 64)%nat -> aligned va -> kernel_map qs va = Some e -> kernel_entry va e.
Proof using imgok.
  intros Hq Hl Hva. pose proof etext_range. pose proof k_end_range. pose proof etext_aligned as Ha. pose proof trampoline_aligned as Ht. pose proof trampoline_range.
  assert (HM : TRAMPOLINE = 2 ^ 38 - 4096 /\ PHYSTOP = 0x60000000 /\ KERNBASE = 0x40000000 /\ PGSIZE = 4096) by done.
  assert (HD : UART0 = 0xd4017000 /\ SDHCI0 = 0xd4280000 /\ PLIC = 0xe0000000) by done.
  apply stacks_entry; [done| |lia]. unfold memory_map, devices.
  repeat (apply region_entry; [exact Hva|first [exact Ha|reflexivity]|first [exact Ht|exact Ha|reflexivity]|lia|lia|first [by right|left; split; [done|lia]]|first [by left|right; lia]|]).
  done.
Qed.

Lemma kernel_entry_safe va e : kernel_entry va e -> has e PTE_R = true /\ has e PTE_U = false /\
  (has e PTE_W = true -> has e PTE_X = false /\ (PTE2PA e < KERNBASE \/ etext <= PTE2PA e)) /\ (KERNBASE <= va < PHYSTOP -> PTE2PA e = va).
Proof using.
  intros (pa & perm & -> & Ha & Hpa & Hperm & Hid). assert (Hr : 0 <= Z.lor perm PTE_V < 2 ^ 10) by (destruct Hperm as [[-> _] | ->]; by vm_compute).
  rewrite PTE2PA_mkpte by done. unfold PTE_R, PTE_U, PTE_W, PTE_X in *. rewrite !has_mkpte by (done || lia).
  destruct Hperm as [[-> Hp] | ->]; split_and!; try reflexivity; try exact Hid.
  - intros _. split; [reflexivity|exact Hp].
  - intros HW. by vm_compute in HW.
Qed.

Lemma stacks_low qs f va : (length qs <= 64)%nat -> va < TRAMPOLINE - 128 * PGSIZE \/ TRAMPOLINE <= va -> stacks qs f va = f va.
Proof using.
  intros Hl Hva. unfold stacks. destruct (Z.ltb_spec 0 (TRAMPOLINE - va)); [|done]. destruct (Z.eqb_spec ((TRAMPOLINE - va) mod (2 * PGSIZE)) 0); [|done]. cbn [andb].
  rewrite lookup_ge_None_2; [done|]. unfold PGSIZE in *. dlia.
Qed.

Lemma kernel_map_ram qs va : (length qs <= 64)%nat -> KERNBASE <= va < PHYSTOP -> is_Some (kernel_map qs va).
Proof using imgok.
  intros Hl Hva. pose proof etext_range. pose proof k_end_range.
  assert (HM : TRAMPOLINE = 2 ^ 38 - 4096 /\ PHYSTOP = 0x60000000 /\ KERNBASE = 0x40000000 /\ PGSIZE = 4096) by done.
  unfold kernel_map. rewrite stacks_low, region_out by lia. unfold memory_map, region at 1.
  destruct (Z.leb_spec etext va); [by rewrite (proj2 (Z.ltb_lt _ _)) by lia|]. cbn [andb]. unfold region at 1.
  by rewrite (proj2 (Z.leb_le _ _)), (proj2 (Z.ltb_lt _ _)) by lia.
Qed.

Lemma kernel_map_stack qs p q : qs !! p = Some q -> (length qs <= 64)%nat ->
  kernel_map qs (KSTACK (Z.of_nat p)) = Some (mkpte q (Z.lor (Z.lor PTE_R PTE_W) PTE_V)) /\ kernel_map qs (KSTACK (Z.of_nat p) - PGSIZE) = None.
Proof using imgok.
  intros Hq Hl. pose proof (lookup_lt_Some _ _ _ Hq) as Hp. unfold kernel_map. split.
  - unfold stacks, KSTACK. set (d := TRAMPOLINE - _). assert (Ed : 0 < d /\ d mod (2 * PGSIZE) = 0 /\ d / (2 * PGSIZE) - 1 = Z.of_nat p) by (unfold d, PGSIZE; dlia).
    destruct Ed as (H0 & -> & ->). rewrite (proj2 (Z.ltb_lt _ _) H0), Z.eqb_refl, Nat2Z.id. cbn [andb]. by rewrite Hq.
  - assert (HM : TRAMPOLINE = 2 ^ 38 - 4096 /\ PHYSTOP = 0x60000000 /\ KERNBASE = 0x40000000 /\ PGSIZE = 4096) by done.
    pose proof etext_range. pose proof k_end_range. set (va := KSTACK (Z.of_nat p) - PGSIZE). assert (Hva : PHYSTOP + 2 ^ 36 <= va < TRAMPOLINE) by (unfold va, KSTACK; lia).
    assert (Hodd : (TRAMPOLINE - va) mod (2 * PGSIZE) <> 0) by (unfold va, KSTACK, PGSIZE; dlia). unfold stacks. rewrite (proj2 (Z.eqb_neq _ _) Hodd), andb_false_r.
    unfold memory_map. rewrite !region_out by lia. apply devices_out. unfold PLIC. lia.
Qed.

(** C12. The kernel starts with the address space it means to have. On a
    machine with memory for it (295 pages of tables and 64 stacks) [kinit]
    and [kvminit] return; the table maps exactly the devices, the text, the
    rest of memory, the trampoline and one stack for each process, with an
    unmapped page below every stack, and every page that was free is now a
    stack, a table or still free, and only one of these. *)
Theorem kernel_page_table s : freelist s = 0 -> room 360 ->
  exists root s' qs l T L, (kinit ;;; kvminit) s = Ok root s' /\ vm_inv s' l root T L /\
    (forall va, aligned va -> L !! va = kernel_map qs va) /\
    (forall p q, qs !! p = Some q ->
       L !! KSTACK (Z.of_nat p) = Some (mkpte q (Z.lor (Z.lor PTE_R PTE_W) PTE_V)) /\ L !! (KSTACK (Z.of_nat p) - PGSIZE) = None) /\
    length qs = Z.to_nat NPROC /\ NoDup (qs ++ l ++ tpages T) /\ forall q, q ∈ qs ++ l ++ tpages T <-> page_ok q.
Proof using imgok.
  intros Hf Hr. destruct (kvminit_run s 360 Hf ltac:(lia) Hr) as (root & s' & qs & l & T & L & E & Hv & Hm & Hl & Hp & _). destruct (kinit_run s Hf) as (s1 & _ & Hk).
  exists root, s', qs, l, T, L. split_and!; [done|done|done| |done| |].
  - intros p q Hq. destruct (KSTACK_spec (Z.of_nat p) (Z.of_nat p + 1)) as (Ha & _); [lia|]. destruct (kernel_map_stack qs p q Hq) as [E1 E2]; [rewrite Hl; done|].
    by rewrite !Hm by (unfold aligned, PGSIZE in *; dlia).
  - rewrite Hp. apply Hk.
  - intros q. rewrite Hp. apply elem_of_free_pages.
Qed.

(** C13. The kernel cannot write its own code, and no process can touch the
    kernel's memory. In the table [kvminit] builds no entry is open to user
    mode, no entry is both writable and executable, no writable entry of any
    virtual address leads to a page of the kernel's text, and every address
    of memory is readable at itself, so that the kernel goes on running when
    the table is turned on. *)
Theorem kernel_text_protected s root s' : freelist s = 0 -> room 360 -> (kinit ;;; kvminit) s = Ok root s' ->
  exists l T L, vm_inv s' l root T L /\
    (forall va e, L !! va = Some e -> has e PTE_U = false /\
       (has e PTE_W = true -> has e PTE_X = false /\ (PTE2PA e < KERNBASE \/ etext <= PTE2PA e))) /\
    (forall va, aligned va -> KERNBASE <= va < PHYSTOP -> exists e, L !! va = Some e /\ PTE2PA e = va /\ has e PTE_R = true).
Proof using imgok.
  intros Hf Hr E. destruct (kvminit_run s 360 Hf ltac:(lia) Hr) as (root1 & s1 & qs & l & T & L & E1 & Hv & Hm & Hl & Hp & _). rewrite E in E1. injection E1 as <- <-.
  assert (Hq : Forall page_ok qs) by (apply Forall_forall; intros q Hq; apply elem_of_free_pages; rewrite <- Hp; apply elem_of_app; by left).
  assert (Hl64 : (length qs <= 64)%nat) by (by rewrite Hl). exists l, T, L. split_and!; [done| |].
  - intros va e HL. pose proof (proj1 (vi_leaves _ _ _ _ _ Hv va e) HL) as (_ & Ha & _). rewrite Hm in HL by done.
    apply (kernel_map_entry qs va e Hq Hl64 Ha), kernel_entry_safe in HL. split; apply HL.
  - intros va Ha Hva. destruct (kernel_map_ram qs va Hl64 Hva) as [e He]. exists e. rewrite Hm by done.
    pose proof (kernel_entry_safe _ _ (kernel_map_entry qs va e Hq Hl64 Ha He)) as (HR & _ & _ & Hid). split_and!; [done|by apply Hid|done].
Qed.
End table.

(** ** Example: a kernel that leaves 400 pages *)

Section example.
#[local] Instance img400 : KernelImage := demo_img 400.
#[local] Instance img400_ok : KernelImageOk img400.
Proof. apply demo_img_ok. lia. Qed.

Lemma kernel_page_table_witness : exists root s' qs l T L, (kinit ;;; kvminit) mem0 = Ok root s' /\ vm_inv s' l root T L /\
    (forall va, aligned va -> L !! va = kernel_map qs va) /\
    (forall p q, qs !! p = Some q ->
       L !! KSTACK (Z.of_nat p) = Some (mkpte q (Z.lor (Z.lor PTE_R PTE_W) PTE_V)) /\ L !! (KSTACK (Z.of_nat p) - PGSIZE) = None) /\
    length qs = Z.to_nat NPROC /\ NoDup (qs ++ l ++ tpages T) /\ forall q, q ∈ qs ++ l ++ tpages T <-> page_ok q.
Proof. apply (kernel_page_table mem0); [reflexivity|]. vm_compute. congruence. Defined.

Lemma kernel_text_protected_witness : exists root s' l T L, vm_inv s' l root T L /\
    (forall va e, L !! va = Some e -> has e PTE_U = false /\
       (has e PTE_W = true -> has e PTE_X = false /\ (PTE2PA e < KERNBASE \/ etext <= PTE2PA e))) /\
    (forall va, aligned va -> KERNBASE <= va < PHYSTOP -> exists e, L !! va = Some e /\ PTE2PA e = va /\ has e PTE_R = true).
Proof.
  assert (Hr : room 360) by (vm_compute; congruence). destruct (kvminit_run mem0 360 eq_refl ltac:(lia) Hr) as (root & s' & _ & _ & _ & _ & E & _).
  exists root, s'. exact (kernel_text_protected mem0 root s' eq_refl Hr E).
Defined.
End example.
