(* ===== verification/Bytes.v ===== *)
(** * C structures inside blocks

    A cast of [bp->data] to a structure pointer reads and writes
    little-endian integer fields at byte offsets of the block. *)

From stdpp Require Import base list numbers.
From Stdlib Require Import ZArith Lia.
From S2P Require Import Prelude.
Open Scope Z_scope.

(** The unsigned [n]-byte integer at byte [off], and storing one there. *)
Definition getn (n : nat) (bl : list Z) (off : Z) : Z := le_value (take n (drop (Z.to_nat off) bl)).
Definition putn (n : nat) (bl : list Z) (off v : Z) : list Z := splice bl (Z.to_nat off) (le_bytes n v).

Lemma splice_bytes l n l' : Forall is_byte l -> Forall is_byte l' -> Forall is_byte (splice l n l').
Proof. intros. unfold splice. repeat apply Forall_app_2; auto using Forall_take, Forall_drop. Qed.

Lemma length_putn n bl off v : 0 <= off -> off + Z.of_nat n <= Z.of_nat (length bl) ->
  length (putn n bl off v) = length bl.
Proof. intros. unfold putn. apply length_splice. len. Qed.

Lemma putn_bytes n bl off v : Forall is_byte bl -> Forall is_byte (putn n bl off v).
Proof. intros. apply splice_bytes; [done|apply le_bytes_byte]. Qed.

Lemma take_drop_splice_same {A} (l l' : list A) k : (k + length l' <= length l)%nat ->
  take (length l') (drop k (splice l k l')) = l'.
Proof.
  intros Hk. unfold splice. rewrite drop_app_length' by len. by rewrite take_app_length.
Qed.

Lemma take_drop_splice_other {A} (l l' : list A) k n a : (k + length l' <= length l)%nat ->
  (a + n <= k \/ k + length l' <= a)%nat -> take n (drop a (splice l k l')) = take n (drop a l).
Proof.
  intros Hk Ha. apply list_eq. intros i. destruct (decide (i < n)%nat).
  - rewrite !lookup_take_lt, !lookup_drop by done. apply lookup_splice_old; [done|lia].
  - by rewrite !lookup_take_ge by lia.
Qed.

Lemma getn_putn n bl off v : 0 <= off -> off + Z.of_nat n <= Z.of_nat (length bl) ->
  getn n (putn n bl off v) off = v mod 256 ^ Z.of_nat n.
Proof.
  intros. unfold getn, putn. rewrite <- le_value_bytes. f_equal.
  rewrite <- (length_le_bytes n v) at 1. apply take_drop_splice_same. len.
Qed.

Lemma getn_putn_other n bl off v m off' : 0 <= off -> off + Z.of_nat n <= Z.of_nat (length bl) -> 0 <= off' ->
  off' + Z.of_nat m <= off \/ off + Z.of_nat n <= off' -> getn m (putn n bl off v) off' = getn m bl off'.
Proof. intros. unfold getn, putn. f_equal. apply take_drop_splice_other; len. Qed.

Lemma getn_range n bl off : Forall is_byte bl -> 0 <= getn n bl off < 256 ^ Z.of_nat n.
Proof.
  intros Hb. unfold getn.
  pose proof (le_value_range (take n (drop (Z.to_nat off) bl)) (Forall_take _ _ _ (Forall_drop _ _ _ Hb))) as [H1 H2].
  split; [done|]. eapply Z.lt_le_trans; [exact H2|]. apply Z.pow_le_mono_r; [lia|]. len.
Qed.
