(* ===== verification/Sleeplock.v ===== *)
(** * Sleep locks (kernel/sleeplock.c) *)

From stdpp Require Import base gmap list numbers strings.
From Stdlib Require Import ZArith Lia.
From S2P Require Import Prelude Spinlock.
Open Scope Z_scope.
Open Scope kernel_scope.

(** struct sleeplock; [sl_lk] is the spinlock that protects it. *)
Record sleeplock := mk_sleeplock { sl_locked : bool; sl_lk : bool; sl_pid : Z }.

Definition initsleeplock : sleeplock := mk_sleeplock false false 0.

(** The routines work on a sleep lock inside a component's state, reached
    through [g] and [f]; [mypid] is [myproc()->pid] and [ch] the channel a
    waiter sleeps on. *)
Section sleeplock_c.
Context {S : Type} (g : S -> sleeplock) (f : S -> sleeplock -> S) (mypid : Z) (ch : chan).

Definition set_sl_lk (s : S) (b : bool) : S := f s (mk_sleeplock (sl_locked (g s)) b (sl_pid (g s))).
Definition set_sl_owner (s : S) (b : bool) (pid : Z) : S := f s (mk_sleeplock b (sl_lk (g s)) pid).

(** [while(lk->locked) sleep(lk, &lk->lk);] is one test: a thread that goes
    to sleep gives up [lk->lk] and starts over when it is woken. *)
Definition acquiresleep : M S unit :=
  acquire (fun s => sl_lk (g s)) set_sl_lk ;;;
  lk <- gets g ;;
  if sl_locked lk then
    release (fun s => sl_lk (g s)) set_sl_lk ;;; sleep_on ch
  else
    modify (fun s => set_sl_owner s true mypid) ;;;
    release (fun s => sl_lk (g s)) set_sl_lk.

(** [wakeup(lk)] makes the waiters runnable; they start over. *)
Definition releasesleep : M S unit :=
  acquire (fun s => sl_lk (g s)) set_sl_lk ;;;
  modify (fun s => set_sl_owner s false 0) ;;;
  release (fun s => sl_lk (g s)) set_sl_lk.

Definition holdingsleep : M S bool :=
  acquire (fun s => sl_lk (g s)) set_sl_lk ;;;
  lk <- gets g ;;
  let r := sl_locked lk && (sl_pid lk =? mypid) in
  release (fun s => sl_lk (g s)) set_sl_lk ;;;
  ret r.
End sleeplock_c.

(** What the routines do to a lock that is one well-behaved part of the
    state. *)
Section lens.
Context {S : Type} (g : S -> sleeplock) (f : S -> sleeplock -> S) (mypid : Z) (ch : chan) (s : S).
Context (Hgf : forall x, g (f s x) = x) (Hff : forall x y, f (f s x) y = f s y) (Hfg : f s (g s) = s).
Context (Hlk : sl_lk (g s) = false).

Lemma sl_set_back : f s (mk_sleeplock (sl_locked (g s)) false (sl_pid (g s))) = s.
Proof using Hfg Hlk.
  transitivity (f s (g s)); [|exact Hfg]. f_equal. rewrite <- Hlk. by destruct (g s).
Qed.

Ltac lens := repeat first [rewrite Hgf | rewrite Hff | progress cbn [sl_locked sl_lk sl_pid]].

Lemma acquiresleep_lens : acquiresleep g f mypid ch s =
  if sl_locked (g s) then Sleep ch s else Ok tt (f s (mk_sleeplock true false mypid)).
Proof using Type*.
  unfold acquiresleep, acquire, release, bind, get, gets, put, modify, sleep_on, set_sl_lk, set_sl_owner.
  rewrite Hlk. lens. destruct (sl_locked (g s)) eqn:El; lens; [|done]. rewrite <- El. by rewrite sl_set_back.
Qed.

Lemma releasesleep_lens : releasesleep g f s = Ok tt (f s (mk_sleeplock false false 0)).
Proof using Hgf Hff Hlk.
  unfold releasesleep, acquire, release, bind, get, gets, put, modify, set_sl_lk, set_sl_owner.
  rewrite Hlk. by lens.
Qed.

Lemma holdingsleep_lens : holdingsleep g f mypid s = Ok (sl_locked (g s) && (sl_pid (g s) =? mypid)) s.
Proof using Type*.
  unfold holdingsleep, acquire, release, bind, get, gets, put, ret, set_sl_lk.
  rewrite Hlk. lens. by rewrite sl_set_back.
Qed.
End lens.

(** ** Mutual exclusion among processes

    Each process is outside, waiting or inside. A step is one run of a
    routine up to its return or its [sleep], which is atomic under [lk->lk];
    a waiting process starts over at any time after a wakeup. *)

Inductive slpc := SlOut | SlWait | SlIn.

Record slsys := mk_slsys { sl : sleeplock; pcs : Z -> slpc }.

Definition upd_pc (f : Z -> slpc) (p : Z) (v : slpc) : Z -> slpc :=
  fun q => if Z.eqb q p then v else f q.

Definition id_get (s : sleeplock) : sleeplock := s.
Definition id_set (_ s : sleeplock) : sleeplock := s.

Inductive sl_step (ch : chan) : slsys -> slsys -> Prop :=
  | sl_get s p lk' : pcs s p <> SlIn ->
      acquiresleep id_get id_set p ch (sl s) = Ok tt lk' ->
      sl_step ch s (mk_slsys lk' (upd_pc (pcs s) p SlIn))
  | sl_block s p lk' : pcs s p <> SlIn ->
      acquiresleep id_get id_set p ch (sl s) = Sleep ch lk' ->
      sl_step ch s (mk_slsys lk' (upd_pc (pcs s) p SlWait))
  | sl_put s p lk' : pcs s p = SlIn ->
      releasesleep id_get id_set (sl s) = Ok tt lk' ->
      sl_step ch s (mk_slsys lk' (upd_pc (pcs s) p SlOut)).

Inductive sl_reach (ch : chan) (s0 : slsys) : slsys -> Prop :=
  | slr_refl : sl_reach ch s0 s0
  | slr_step s s' : sl_reach ch s0 s -> sl_step ch s s' -> sl_reach ch s0 s'.

Definition sl_init : slsys := mk_slsys initsleeplock (fun _ => SlOut).

(** The lock says who is inside. *)
Definition sl_inv (s : slsys) : Prop :=
  sl_lk (sl s) = false /\
  (forall p, pcs s p = SlIn -> sl_locked (sl s) = true /\ sl_pid (sl s) = p) /\
  (sl_locked (sl s) = true -> pcs s (sl_pid (sl s)) = SlIn).

Lemma acquiresleep_run p ch lk : sl_lk lk = false ->
  acquiresleep id_get id_set p ch lk =
    if sl_locked lk then Sleep ch lk else Ok tt (mk_sleeplock true false p).
Proof. destruct lk as [l k q]. cbn. intros ->. by destruct l. Qed.

Lemma releasesleep_run lk : sl_lk lk = false ->
  releasesleep id_get id_set lk = Ok tt (mk_sleeplock false false 0).
Proof. destruct lk as [l k q]. cbn. by intros ->. Qed.

Lemma upd_pc_eq f p v : upd_pc f p v p = v.
Proof. unfold upd_pc. by rewrite Z.eqb_refl. Qed.
Lemma upd_pc_ne f p q v : q <> p -> upd_pc f p v q = f q.
Proof. unfold upd_pc. intros. by destruct (Z.eqb_spec q p). Qed.

Lemma sl_inv_step ch s s' : sl_inv s -> sl_step ch s s' -> sl_inv s'.
Proof.
  intros (Hlk & Hin & Hown) Hst. destruct Hst as [s p lk' Hp Hr | s p lk' Hp Hr | s p lk' Hp Hr].
  - rewrite acquiresleep_run in Hr by done. destruct (sl_locked (sl s)) eqn:E; simplify_eq.
    split_and!; [done| |cbn; intros _; apply upd_pc_eq]. cbn. intros q Hq. split; [done|].
    destruct (decide (q = p)) as [->|Hne]; [done|]. rewrite upd_pc_ne in Hq by done.
    by destruct (Hin q Hq).
  - rewrite acquiresleep_run in Hr by done. destruct (sl_locked (sl s)) eqn:E; simplify_eq.
    assert (Hpp : pcs s (sl_pid (sl s)) = SlIn) by auto.
    split_and!; [done| |]; cbn.
    + intros q Hq. destruct (decide (q = p)) as [->|Hne]; [by rewrite upd_pc_eq in Hq|].
      rewrite upd_pc_ne in Hq by done. rewrite E. by apply Hin.
    + intros _. rewrite upd_pc_ne; [done|]. congruence.
  - rewrite releasesleep_run in Hr by done. simplify_eq. destruct (Hin p Hp) as [Hl Hpid].
    split_and!; [done| |done]. cbn. intros q Hq.
    destruct (decide (q = p)) as [->|Hne]; [by rewrite upd_pc_eq in Hq|].
    rewrite upd_pc_ne in Hq by done. destruct (Hin q Hq). congruence.
Qed.

Lemma sl_inv_reach ch s : sl_reach ch sl_init s -> sl_inv s.
Proof.
  induction 1 as [|s s' _ IH Hst]; [|by eapply sl_inv_step].
  split_and!; cbn; [done|done|done].
Qed.

(** Whatever the interleaving of [acquiresleep] and [releasesleep] by
    any number of processes, at most one process is inside a sleep lock, and
    [holdingsleep] returns true for that process and for no other. *)
Theorem sleeplock_mutual_exclusion ch s p q : sl_reach ch sl_init s ->
  pcs s p = SlIn ->
  (pcs s q = SlIn -> p = q) /\
  holdingsleep id_get id_set q (sl s) = Ok (bool_decide (p = q)) (sl s).
Proof.
  intros Hr Hp. destruct (sl_inv_reach ch s Hr) as (Hlk & Hin & _).
  destruct (Hin p Hp) as [Hl Hpid]. split.
  - intros Hq. destruct (Hin q Hq). congruence.
  - destruct (sl s) as [l k o] eqn:E. cbn in *. subst. unfold holdingsleep, acquire, release, bind, gets, get, put, ret; cbn.
    destruct (Z.eqb_spec p q), (bool_decide_reflect (p = q)); congruence || done.
Qed.

Lemma sleeplock_mutual_exclusion_witness :
  let s := mk_slsys (mk_sleeplock true false 3) (upd_pc (upd_pc (fun _ => SlOut) 3 SlIn) 5 SlWait) in
  (pcs s 5 = SlIn -> 3 = 5) /\ holdingsleep id_get id_set 5 (sl s) = Ok (bool_decide (3 = 5)) (sl s).
Proof.
  apply (sleeplock_mutual_exclusion ChLog _ 3 5); [|reflexivity].
  apply (slr_step _ _ (mk_slsys (mk_sleeplock true false 3) (upd_pc (fun _ => SlOut) 3 SlIn))).
  - apply (slr_step _ _ sl_init); [apply slr_refl|].
    apply (sl_get ChLog sl_init 3 (mk_sleeplock true false 3)); [discriminate|reflexivity].
  - apply (sl_block ChLog (mk_slsys (mk_sleeplock true false 3) (upd_pc (fun _ => SlOut) 3 SlIn))
      5 (mk_sleeplock true false 3)); [discriminate|reflexivity].
Defined.
