(* ===== verification/Disk.v ===== *)
(** * Block devices

    What the buffer cache expects of a disk driver, and the two drivers of
    the port that need no hardware: the RAM disk (kernel/ramdisk.c) and the
    stub (kernel/disk_stub.c). *)

From stdpp Require Import base gmap list numbers strings.
From Stdlib Require Import ZArith Lia.
From S2P Require Import Prelude Mem.
Open Scope Z_scope.
Open Scope kernel_scope.

Definition BSIZE : Z := 1024.
Abbreviation block := (list Z).

Definition is_block (bl : block) : Prop := length bl = Z.to_nat BSIZE /\ Forall is_byte bl.

(** [virtio_disk_rw(b, write)]: block number, [b->data] and direction; the
    result is [b->data] afterwards. *)
Class DiskDriver (D : Type) := virtio_disk_rw : Z -> block -> bool -> M D block.

(** The contract: the device is an array of [dsize] blocks, a write replaces
    one of them and a read returns it. *)
Class DiskSpec (D : Type) `{DiskDriver D} := {
  dok : D -> Prop;
  dsize : Z;
  dblock : D -> Z -> block;
  dblock_block : forall d b, dok d -> is_block (dblock d b);
  disk_read : forall d b bl, dok d -> 0 <= b < dsize -> is_block bl ->
    exists d', virtio_disk_rw b bl false d = Ok (dblock d b) d' /\ dok d' /\
      forall b', dblock d' b' = dblock d b';
  disk_write : forall d b bl, dok d -> 0 <= b < dsize -> is_block bl ->
    exists d', virtio_disk_rw b bl true d = Ok bl d' /\ dok d' /\
      forall b', dblock d' b' = if decide (b' = b) then bl else dblock d b'
}.

(** ** kernel/ramdisk.c *)

Definition RAMDISK_SIZE : Z := 8 * 1024 * 1024.
Definition RAMDISK_BLOCKS : Z := RAMDISK_SIZE / BSIZE.

Record ramdisk_st := mk_ramdisk { ramdisk : ram; read_count : Z; write_count : Z }.

Definition ramdisk_init : ramdisk_st := mk_ramdisk ∅ 0 0.

(** The statistics printed every 1000 operations are not modelled. *)
Definition ramdisk_rw (blockno : Z) (data : block) (write : bool) : M ramdisk_st block :=
  if RAMDISK_BLOCKS <=? blockno then panic "ramdisk_rw: block number out of range"
  else
    let offset := u32 (blockno * BSIZE) in
    if write then
      modify (fun r => mk_ramdisk (stn (ramdisk r) offset data) (read_count r) (u64 (write_count r + 1))) ;;;
      ret data
    else
      d <- gets (fun r => ldn (Z.to_nat BSIZE) (ramdisk r) offset) ;;
      modify (fun r => mk_ramdisk (ramdisk r) (u64 (read_count r + 1)) (write_count r)) ;;;
      ret d.

#[export] Instance ramdisk_driver : DiskDriver ramdisk_st := ramdisk_rw.

(** ** kernel/disk_stub.c *)

Definition stub_virtio_disk_rw (blockno : Z) (data : block) (write : bool) : M unit block :=
  panic "virtio_disk_rw: no disk driver available".

(** ** The RAM disk keeps the contract *)

Definition ramdisk_block (r : ramdisk_st) (b : Z) : block := ldn (Z.to_nat BSIZE) (ramdisk r) (b * BSIZE).

Lemma ramdisk_offset b : 0 <= b < RAMDISK_BLOCKS -> u32 (b * BSIZE) = b * BSIZE.
Proof. intros Hb. apply u32_small. change RAMDISK_BLOCKS with 8192 in Hb. unfold BSIZE. lia. Qed.

Lemma ramdisk_block_block r b : is_block (ramdisk_block r b).
Proof. split; [apply length_ldn|apply ldn_byte]. Qed.

Lemma ramdisk_read_ok r b bl : 0 <= b < RAMDISK_BLOCKS ->
  exists r', ramdisk_rw b bl false r = Ok (ramdisk_block r b) r' /\
    forall b', ramdisk_block r' b' = ramdisk_block r b'.
Proof.
  intros Hb. unfold ramdisk_rw. destruct (Z.leb_spec RAMDISK_BLOCKS b); [lia|].
  rewrite ramdisk_offset by done. eexists. split; [reflexivity|done].
Qed.

Lemma ramdisk_write_ok r b bl : 0 <= b < RAMDISK_BLOCKS -> is_block bl ->
  exists r', ramdisk_rw b bl true r = Ok bl r' /\
    forall b', ramdisk_block r' b' = if decide (b' = b) then bl else ramdisk_block r b'.
Proof.
  intros Hb [Hlen Hby]. unfold ramdisk_rw. destruct (Z.leb_spec RAMDISK_BLOCKS b); [lia|].
  rewrite ramdisk_offset by done. eexists. split; [reflexivity|]. intros b'. unfold ramdisk_block. cbn [ramdisk].
  case_decide as E.
  - subst b'. rewrite <- Hlen. by apply ldn_stn_same.
  - apply ldn_stn_other. rewrite Hlen. unfold BSIZE. lia.
Qed.

#[export] Instance ramdisk_spec : DiskSpec ramdisk_st.
Proof.
  refine {| dok := fun _ => True; dsize := RAMDISK_BLOCKS; dblock := ramdisk_block |}.
  - intros d b _. apply ramdisk_block_block.
  - intros d b bl _ Hb _. destruct (ramdisk_read_ok d b bl Hb) as (d' & ? & ?). by exists d'.
  - intros d b bl _ Hb Hbl. destruct (ramdisk_write_ok d b bl Hb Hbl) as (d' & ? & ?). by exists d'.
Defined.

(** Requests a kernel may make, and what an array of blocks answers. *)
Inductive disk_op := DRead (b : Z) | DWrite (b : Z) (bl : block).

Definition op_ok (size : Z) (o : disk_op) : Prop :=
  match o with
  | DRead b => 0 <= b < size
  | DWrite b bl => 0 <= b < size /\ is_block bl
  end.

Definition blank : block := replicate (Z.to_nat BSIZE) 0.

Fixpoint disk_run {D} `{DiskDriver D} (ops : list disk_op) : M D (list block) :=
  match ops with
  | [] => ret []
  | DRead b :: ops' => x <- virtio_disk_rw b blank false ;; xs <- disk_run ops' ;; ret (x :: xs)
  | DWrite b bl :: ops' => x <- virtio_disk_rw b bl true ;; xs <- disk_run ops' ;; ret (x :: xs)
  end.

Fixpoint array_run (ops : list disk_op) (a : Z -> block) : list block * (Z -> block) :=
  match ops with
  | [] => ([], a)
  | DRead b :: ops' => let '(xs, a') := array_run ops' a in (a b :: xs, a')
  | DWrite b bl :: ops' =>
      let '(xs, a') := array_run ops' (fun b' => if decide (b' = b) then bl else a b') in (bl :: xs, a')
  end.

Lemma blank_block : is_block blank.
Proof.
  split; [apply length_replicate|]. apply Forall_replicate. unfold is_byte. lia.
Qed.

Lemma disk_run_spec {D} `{DiskSpec D} ops d a : dok d -> (forall b, dblock d b = a b) ->
  Forall (op_ok dsize) ops ->
  exists d', disk_run ops d = Ok (array_run ops a).1 d' /\ dok d' /\ forall b, dblock d' b = (array_run ops a).2 b.
Proof.
  revert d a. induction ops as [|o ops IH]; intros d a Hd Ha Hops; [by exists d|].
  apply Forall_cons in Hops as [Ho Hops]. destruct o as [b|b bl]; cbn [disk_run array_run].
  - destruct (disk_read d b blank Hd Ho blank_block) as (d1 & Hr & Hd1 & Hb1).
    destruct (IH d1 a Hd1) as (d' & Hr' & Hd' & Hb'); [intros; by rewrite Hb1|done|].
    exists d'. step_with Hr. step_with Hr'. rewrite (Ha b). by destruct (array_run ops a).
  - destruct Ho as [Hb Hbl]. destruct (disk_write d b bl Hd Hb Hbl) as (d1 & Hr & Hd1 & Hb1).
    destruct (IH d1 (fun b' => if decide (b' = b) then bl else a b') Hd1) as (d' & Hr' & Hd' & Hb').
    { intros b'. rewrite Hb1. by rewrite Ha. } { done. }
    exists d'. step_with Hr. step_with Hr'. by destruct (array_run ops _).
Qed.

(** The RAM disk refines an array of 8192 blocks: any sequence of
    in-range reads and writes runs without a panic and returns, request by
    request, what the array returns. *)
Theorem ramdisk_refines_array ops (r : ramdisk_st) : Forall (op_ok RAMDISK_BLOCKS) ops ->
  exists r', disk_run ops r = Ok (array_run ops (ramdisk_block r)).1 r' /\
    forall b, ramdisk_block r' b = (array_run ops (ramdisk_block r)).2 b.
Proof.
  intros Hops. destruct (disk_run_spec (D := ramdisk_st) ops r (ramdisk_block r)) as (r' & ? & _ & ?); [done|done|done|].
  by exists r'.
Qed.

Lemma ramdisk_refines_array_witness :
  let bl := 7 :: replicate 1023 0 in
  let ops := [DWrite 5 bl; DRead 5; DRead 8191] in
  exists r', disk_run ops ramdisk_init = Ok (array_run ops (ramdisk_block ramdisk_init)).1 r' /\
    forall b, ramdisk_block r' b = (array_run ops (ramdisk_block ramdisk_init)).2 b.
Proof.
  apply (ramdisk_refines_array _ ramdisk_init). repeat apply Forall_cons_2; cbn; unfold is_block, RAMDISK_BLOCKS, RAMDISK_SIZE, BSIZE.
  - split; [split; [lia|reflexivity]|]. split; [reflexivity|].
    constructor; [unfold is_byte; lia|]. apply (Forall_replicate is_byte 1023 0). unfold is_byte. lia.
  - split; [lia|reflexivity].
  - split; [lia|reflexivity].
  - constructor.
Defined.
