(* ===== verification/Sdhci.v ===== *)
(** * The SD card driver (kernel/sdhci.c, kernel/sdhci.h)

    The disk driver the kernel is linked with. The host controller is
    hardware: a [Controller] says what its registers answer to accesses of 8,
    16 and 32 bits and what they do, time included, so [sdhci_delay_ms] has no effect
    of its own. Messages on the console are not modelled.

    The theorems show, for every controller, how much of a block the driver
    moves, and, for one that transfers data only for commands marked as
    carrying data, that no read completes. *)

From stdpp Require Import base gmap list numbers strings.
From Stdlib Require Import ZArith Lia.
From S2P Require Import Prelude Riscv Mem Spinlock Bytes Disk.
Open Scope Z_scope.
Open Scope kernel_scope.

(** ** sdhci.h *)

Definition SDHCI_BLOCK_SIZE : Z := 0x04.
Definition SDHCI_BLOCK_COUNT : Z := 0x06.
Definition SDHCI_ARGUMENT : Z := 0x08.
Definition SDHCI_TRANSFER_MODE : Z := 0x0C.
Definition SDHCI_COMMAND : Z := 0x0E.
Definition SDHCI_RESPONSE : Z := 0x10.
Definition SDHCI_BUFFER : Z := 0x20.
Definition SDHCI_PRESENT_STATE : Z := 0x24.
Definition SDHCI_POWER_CONTROL : Z := 0x29.
Definition SDHCI_CLOCK_CONTROL : Z := 0x2C.
Definition SDHCI_TIMEOUT_CONTROL : Z := 0x2E.
Definition SDHCI_SOFTWARE_RESET : Z := 0x2F.
Definition SDHCI_INT_STATUS : Z := 0x30.
Definition SDHCI_INT_ENABLE : Z := 0x34.
Definition SDHCI_SIGNAL_ENABLE : Z := 0x38.

Definition SDHCI_TRNS_READ : Z := 0x10.
Definition SDHCI_CMD_CRC : Z := 0x08.
Definition SDHCI_CMD_INDEX : Z := 0x10.
Definition SDHCI_CMD_DATA : Z := 0x20.
Definition SDHCI_CMD_RESP_NONE : Z := 0x00.
Definition SDHCI_CMD_RESP_LONG : Z := 0x01.
Definition SDHCI_CMD_RESP_SHORT : Z := 0x02.
Definition SDHCI_CMD_INHIBIT : Z := 0x1.
Definition SDHCI_DATA_INHIBIT : Z := 0x2.
Definition SDHCI_SPACE_AVAILABLE : Z := 0x400.
Definition SDHCI_DATA_AVAILABLE : Z := 0x800.
Definition SDHCI_CARD_PRESENT : Z := 0x10000.
Definition SDHCI_POWER_ON : Z := 0x01.
Definition SDHCI_POWER_330 : Z := 0x0E.
Definition SDHCI_DIVIDER_SHIFT : Z := 8.
Definition SDHCI_CLOCK_CARD_EN : Z := 0x4.
Definition SDHCI_CLOCK_INT_STABLE : Z := 0x2.
Definition SDHCI_CLOCK_INT_EN : Z := 0x1.
Definition SDHCI_RESET_ALL : Z := 0x01.
Definition SDHCI_INT_RESPONSE : Z := 0x1.
Definition SDHCI_INT_DATA_END : Z := 0x2.
Definition SDHCI_INT_ERROR_MASK : Z := 0xFFFF8000.

Definition SD_CMD_GO_IDLE_STATE : Z := 0.
Definition SD_CMD_ALL_SEND_CID : Z := 2.
Definition SD_CMD_SEND_RELATIVE_ADDR : Z := 3.
Definition SD_CMD_SELECT_CARD : Z := 7.
Definition SD_CMD_SEND_IF_COND : Z := 8.
Definition SD_CMD_SEND_CSD : Z := 9.
Definition SD_CMD_SET_BLOCKLEN : Z := 16.
Definition SD_CMD_READ_SINGLE_BLOCK : Z := 17.
Definition SD_CMD_WRITE_BLOCK : Z := 24.
Definition SD_CMD_APP_CMD : Z := 55.
Definition SD_ACMD_SD_SEND_OP_COND : Z := 41.
Definition SD_RSP_NONE : Z := 0.
Definition SD_RSP_R1 : Z := 1.
Definition SD_RSP_R2 : Z := 2.
Definition SD_RSP_R3 : Z := 3.
Definition SD_RSP_R6 : Z := 6.
Definition SD_RSP_R7 : Z := 7.
Definition SD_OCR_CCS : Z := 0x40000000.
Definition SD_OCR_BUSY : Z := 0x80000000.
Definition SDHCI_CMD_TIMEOUT : nat := 100.
Definition SDHCI_DATA_TIMEOUT : nat := 1000.

(** ** The controller *)

Inductive width := W8 | W16 | W32.
Class Controller (D : Type) := {
  reg_read : width -> Z -> D -> Z * D;
  reg_write : width -> Z -> Z -> D -> D
}.

(** struct sdcard *)
Record sdcard := mk_sdcard { sd_lock : bool; present : bool; initialized : bool; rca : Z; capacity : Z; high_capacity : bool }.
Record sdst (D : Type) := mk_sdst { sd_dev : D; sd_card : sdcard }.
Arguments mk_sdst {D} _ _.
Arguments sd_dev {D} _.
Arguments sd_card {D} _.

Section sdhci_c.
Context {D : Type} {ctl : Controller D}.
Abbreviation S := (sdst D).
Implicit Types (s : S) (c : sdcard).

Definition set_dev s (d : D) : S := mk_sdst d (sd_card s).
Definition set_card s c : S := mk_sdst (sd_dev s) c.
Definition upd_card (f : sdcard -> sdcard) : M S unit := modify (fun s => set_card s (f (sd_card s))).
Definition set_sd_lock s (b : bool) : S :=
  set_card s (mk_sdcard b (present (sd_card s)) (initialized (sd_card s)) (rca (sd_card s)) (capacity (sd_card s)) (high_capacity (sd_card s))).
Definition sd_locked s : bool := sd_lock (sd_card s).
Definition set_present (b : bool) c : sdcard := mk_sdcard (sd_lock c) b (initialized c) (rca c) (capacity c) (high_capacity c).
Definition set_initialized (b : bool) c : sdcard := mk_sdcard (sd_lock c) (present c) b (rca c) (capacity c) (high_capacity c).
Definition set_rca (v : Z) c : sdcard := mk_sdcard (sd_lock c) (present c) (initialized c) v (capacity c) (high_capacity c).
Definition set_capacity (v : Z) c : sdcard := mk_sdcard (sd_lock c) (present c) (initialized c) (rca c) v (high_capacity c).
Definition set_high_capacity (b : bool) c : sdcard := mk_sdcard (sd_lock c) (present c) (initialized c) (rca c) (capacity c) b.

Definition sdhci_read (w : width) (reg : Z) : M S Z := fun s =>
  let '(v, d) := reg_read w reg (sd_dev s) in Ok v (set_dev s d).
Definition sdhci_write (w : width) (reg v : Z) : M S unit := modify (fun s => set_dev s (reg_write w reg v (sd_dev s))).

(** [true] for 0, [false] for the time-out. *)
Fixpoint wait_loop (count : nat) (reg mask value : Z) : M S bool :=
  match count with
  | O => ret false
  | Datatypes.S k =>
      v <- sdhci_read W32 reg ;;
      if Z.land v mask =? value then ret true else wait_loop k reg mask value
  end.
Definition sdhci_wait_for (reg mask value : Z) (timeout_ms : nat) : M S bool := wait_loop (timeout_ms * 10) reg mask value.

Definition resp_flags (resp_type : Z) : Z :=
  if resp_type =? SD_RSP_NONE then SDHCI_CMD_RESP_NONE
  else if (resp_type =? SD_RSP_R1) || (resp_type =? SD_RSP_R6) || (resp_type =? SD_RSP_R7) then
    Z.lor (Z.lor SDHCI_CMD_RESP_SHORT SDHCI_CMD_CRC) SDHCI_CMD_INDEX
  else if resp_type =? SD_RSP_R2 then Z.lor SDHCI_CMD_RESP_LONG SDHCI_CMD_CRC
  else if resp_type =? SD_RSP_R3 then SDHCI_CMD_RESP_SHORT
  else SDHCI_CMD_RESP_NONE.

Definition read_response (resp_type : Z) : M S (list Z) :=
  if resp_type =? SD_RSP_R2 then
    r0 <- sdhci_read W32 (SDHCI_RESPONSE + 0) ;;
    r1 <- sdhci_read W32 (SDHCI_RESPONSE + 4) ;;
    r2 <- sdhci_read W32 (SDHCI_RESPONSE + 8) ;;
    r3 <- sdhci_read W32 (SDHCI_RESPONSE + 12) ;;
    ret [r0; r1; r2; r3]
  else r0 <- sdhci_read W32 SDHCI_RESPONSE ;; ret [r0].

(** [response] is whether the caller passes an array; the words read are the
    result, [None] for -1. *)
Definition sdhci_send_cmd (cmd arg resp_type : Z) (response : bool) : M S (option (list Z)) :=
  ok <- sdhci_wait_for SDHCI_PRESENT_STATE (Z.lor SDHCI_CMD_INHIBIT SDHCI_DATA_INHIBIT) 0 SDHCI_CMD_TIMEOUT ;;
  if negb ok then ret None
  else
    sdhci_write W32 SDHCI_INT_STATUS 0xFFFFFFFF ;;;
    sdhci_write W32 SDHCI_ARGUMENT arg ;;;
    let cmd_reg := Z.lor (u16 (Z.shiftl cmd 8)) (resp_flags resp_type) in
    sdhci_write W16 SDHCI_COMMAND cmd_reg ;;;
    ok <- sdhci_wait_for SDHCI_INT_STATUS SDHCI_INT_RESPONSE SDHCI_INT_RESPONSE SDHCI_CMD_TIMEOUT ;;
    if negb ok then ret None
    else
      status <- sdhci_read W32 SDHCI_INT_STATUS ;;
      if has status SDHCI_INT_ERROR_MASK then ret None
      else
        r <- (if response && negb (resp_type =? SD_RSP_NONE) then read_response resp_type else ret []) ;;
        sdhci_write W32 SDHCI_INT_STATUS status ;;;
        ret (Some r).

Definition sdhci_send_acmd (acmd arg resp_type : Z) (response : bool) : M S (option (list Z)) :=
  s <- get ;;
  r <- sdhci_send_cmd SD_CMD_APP_CMD (u32 (Z.shiftl (rca (sd_card s)) 16)) SD_RSP_R1 false ;;
  match r with
  | None => ret None
  | Some _ => sdhci_send_cmd acmd arg resp_type response
  end.

(** What is left of the time-out when the loop ends. *)
Fixpoint reset_loop (timeout : nat) (mask : Z) : M S nat :=
  v <- sdhci_read W8 SDHCI_SOFTWARE_RESET ;;
  if has v mask then
    match timeout with
    | O => ret O
    | Datatypes.S k => reset_loop k mask
    end
  else ret timeout.
Definition sdhci_reset (mask : Z) : M S bool :=
  sdhci_write W8 SDHCI_SOFTWARE_RESET mask ;;;
  timeout <- reset_loop 100 mask ;;
  ret (negb (timeout =? 0)%nat).

Definition clock_div (clock_hz : Z) : Z :=
  let base_clock := 50000000 in
  Z.min 256 (if base_clock <=? clock_hz then 1 else base_clock / clock_hz).
Definition sdhci_set_clock (clock_hz : Z) : M S bool :=
  sdhci_write W16 SDHCI_CLOCK_CONTROL 0 ;;;
  let clk := u16 (Z.lor (Z.shiftl (Z.land (clock_div clock_hz) 0xFF) SDHCI_DIVIDER_SHIFT) SDHCI_CLOCK_INT_EN) in
  sdhci_write W16 SDHCI_CLOCK_CONTROL clk ;;;
  ok <- sdhci_wait_for SDHCI_CLOCK_CONTROL SDHCI_CLOCK_INT_STABLE SDHCI_CLOCK_INT_STABLE 10 ;;
  if negb ok then ret false
  else sdhci_write W16 SDHCI_CLOCK_CONTROL (Z.lor clk SDHCI_CLOCK_CARD_EN) ;;; ret true.

(** The loop on ACMD41: whether the card became ready. *)
Fixpoint op_cond_loop (retries : nat) : M S bool :=
  match retries with
  | O => ret false
  | Datatypes.S k =>
      r <- sdhci_send_acmd SD_ACMD_SD_SEND_OP_COND 0x40FF8000 SD_RSP_R3 true ;;
      match r with
      | None => ret false
      | Some response =>
          if has (nthz response 0) SD_OCR_BUSY then
            upd_card (set_high_capacity (has (nthz response 0) SD_OCR_CCS)) ;;;
            ret true
          else op_cond_loop k
      end
  end.

(** [if(sdhci_send_cmd(...) < 0) return -1;] *)
Definition cmd_or_fail (cmd arg resp_type : Z) (response : bool) (k : list Z -> M S bool) : M S bool :=
  r <- sdhci_send_cmd cmd arg resp_type response ;;
  match r with None => ret false | Some response => k response end.

Definition csd_capacity (response : list Z) : Z :=
  let c_size := Z.lor (u32 (Z.shiftl (Z.land (nthz response 1) 0x3F) 16)) (Z.shiftr (nthz response 2) 16) in
  u32 ((c_size + 1) * 1024).

Definition sdhci_card_init : M S bool :=
  cmd_or_fail SD_CMD_GO_IDLE_STATE 0 SD_RSP_NONE false (fun _ =>
  r <- sdhci_send_cmd SD_CMD_SEND_IF_COND 0x1AA SD_RSP_R7 true ;;
  if match r with Some response => negb (Z.land (nthz response 0) 0xFF =? 0xAA) | None => false end then ret false
  else
    ready <- op_cond_loop 100 ;;
    if negb ready then ret false
    else
      cmd_or_fail SD_CMD_ALL_SEND_CID 0 SD_RSP_R2 true (fun _ =>
      cmd_or_fail SD_CMD_SEND_RELATIVE_ADDR 0 SD_RSP_R6 true (fun response =>
      let rca := Z.shiftr (nthz response 0) 16 in
      upd_card (set_rca rca) ;;;
      cmd_or_fail SD_CMD_SEND_CSD (u32 (Z.shiftl rca 16)) SD_RSP_R2 true (fun response =>
      upd_card (fun c => set_capacity (if high_capacity c then csd_capacity response else 0) c) ;;;
      cmd_or_fail SD_CMD_SELECT_CARD (u32 (Z.shiftl rca 16)) SD_RSP_R1 false (fun _ =>
      cmd_or_fail SD_CMD_SET_BLOCKLEN 512 SD_RSP_R1 false (fun _ =>
      sdhci_set_clock 25000000 ;;;
      upd_card (set_initialized true) ;;;
      ret true)))))).

Definition sdhci_init : M S unit :=
  modify (fun s => set_sd_lock s false) ;;;
  upd_card (set_present false) ;;;
  upd_card (set_initialized false) ;;;
  upd_card (set_rca 0) ;;;
  ok <- sdhci_reset SDHCI_RESET_ALL ;;
  if negb ok then ret tt
  else
    present_state <- sdhci_read W32 SDHCI_PRESENT_STATE ;;
    if negb (has present_state SDHCI_CARD_PRESENT) then ret tt
    else
      upd_card (set_present true) ;;;
      sdhci_write W8 SDHCI_POWER_CONTROL (Z.lor SDHCI_POWER_330 SDHCI_POWER_ON) ;;;
      sdhci_write W8 SDHCI_TIMEOUT_CONTROL 0x0E ;;;
      sdhci_write W32 SDHCI_INT_ENABLE 0xFFFFFFFF ;;;
      sdhci_write W32 SDHCI_SIGNAL_ENABLE 0 ;;;
      ok <- sdhci_set_clock 400000 ;;
      if negb ok then ret tt else sdhci_card_init ;;; ret tt.

(** The block's words through the buffer register. *)
Fixpoint pio_read (l : list Z) (data : block) : M S (block * bool) :=
  match l with
  | [] => ret (data, true)
  | i :: l' =>
      ok <- sdhci_wait_for SDHCI_PRESENT_STATE SDHCI_DATA_AVAILABLE SDHCI_DATA_AVAILABLE SDHCI_DATA_TIMEOUT ;;
      if negb ok then ret (data, false)
      else
        w <- sdhci_read W32 SDHCI_BUFFER ;;
        pio_read l' (putn 4 data (4 * i) w)
  end.
Fixpoint pio_write (l : list Z) (data : block) : M S bool :=
  match l with
  | [] => ret true
  | i :: l' =>
      ok <- sdhci_wait_for SDHCI_PRESENT_STATE SDHCI_SPACE_AVAILABLE SDHCI_SPACE_AVAILABLE SDHCI_DATA_TIMEOUT ;;
      if negb ok then ret false
      else
        sdhci_write W32 SDHCI_BUFFER (getn 4 data (4 * i)) ;;;
        pio_write l' data
  end.

(** The wait for the end of the transfer and the check of the status. *)
Definition finish_transfer : M S bool :=
  ok <- sdhci_wait_for SDHCI_INT_STATUS SDHCI_INT_DATA_END SDHCI_INT_DATA_END SDHCI_DATA_TIMEOUT ;;
  if negb ok then ret false
  else
    status <- sdhci_read W32 SDHCI_INT_STATUS ;;
    if has status SDHCI_INT_ERROR_MASK then ret false
    else sdhci_write W32 SDHCI_INT_STATUS status ;;; ret true.

(** [buf] afterwards, and whether 0 is returned. *)
Definition sdhci_read_block (blockno : Z) (buf : block) : M S (block * bool) :=
  s <- get ;;
  if negb (initialized (sd_card s)) then ret (buf, false)
  else
    acquire sd_locked set_sd_lock ;;;
    sdhci_write W16 SDHCI_BLOCK_SIZE 512 ;;;
    sdhci_write W16 SDHCI_BLOCK_COUNT 1 ;;;
    sdhci_write W16 SDHCI_TRANSFER_MODE SDHCI_TRNS_READ ;;;
    r <- sdhci_send_cmd SD_CMD_READ_SINGLE_BLOCK blockno SD_RSP_R1 false ;;
    match r with
    | None => release sd_locked set_sd_lock ;;; ret (buf, false)
    | Some _ =>
        let* (buf, ok) := pio_read (seqZ 0 (512 / 4)) buf in
        ok <- (if ok : bool then finish_transfer else ret false) ;;
        release sd_locked set_sd_lock ;;;
        ret (buf, ok)
    end.

Definition sdhci_write_block (blockno : Z) (buf : block) : M S bool :=
  s <- get ;;
  if negb (initialized (sd_card s)) then ret false
  else
    acquire sd_locked set_sd_lock ;;;
    sdhci_write W16 SDHCI_BLOCK_SIZE 512 ;;;
    sdhci_write W16 SDHCI_BLOCK_COUNT 1 ;;;
    sdhci_write W16 SDHCI_TRANSFER_MODE 0 ;;;
    r <- sdhci_send_cmd SD_CMD_WRITE_BLOCK blockno SD_RSP_R1 false ;;
    match r with
    | None => release sd_locked set_sd_lock ;;; ret false
    | Some _ =>
        ok <- pio_write (seqZ 0 (512 / 4)) buf ;;
        ok <- (if ok : bool then finish_transfer else ret false) ;;
        release sd_locked set_sd_lock ;;;
        ret ok
    end.

(** [virtio_disk_rw], the name the buffer cache calls it by. *)
Definition sd_rw (blockno : Z) (data : block) (write : bool) : M S block :=
  let* (data, ok) := (if write then ok <- sdhci_write_block blockno data ;; ret (data, ok) else sdhci_read_block blockno data) in
  if ok : bool then ret data else panic "sdhci: I/O error".
#[export] Instance sd_driver : DiskDriver S := sd_rw.

(** ** How much of a block the driver moves *)

Lemma drop_putn n bl off v k : 0 <= off -> off + Z.of_nat n <= Z.of_nat k -> (k <= length bl)%nat -> drop k (putn n bl off v) = drop k bl.
Proof.
  intros H1 H2 H3. unfold putn, splice. rewrite drop_app_ge by (rewrite length_take; lia). rewrite length_take, drop_app_ge by (rewrite length_le_bytes; lia).
  rewrite length_le_bytes, drop_drop. f_equal. lia.
Qed.
Lemma pio_read_tail l : Forall (fun i => 0 <= i < 128) l -> forall data s data' ok s', (512 <= length data)%nat ->
  pio_read l data s = Ok (data', ok) s' -> drop 512 data' = drop 512 data.
Proof.
  intros Hl. induction Hl as [|i l Hi Hl IH]; intros data s data' ok s' Hlen H; cbn [pio_read] in H; [by injection H as <- _ _|].
  apply bind_inv in H as ([] & s1 & _ & H); cbn [negb] in H; [|by injection H as <- _ _].
  apply bind_inv in H as (w & s2 & _ & H). apply IH in H; [rewrite H; apply drop_putn; lia|]. rewrite length_putn by lia. done.
Qed.
Lemma pio_words_lt : Forall (fun i => 0 <= i < 128) (seqZ 0 (512 / 4)).
Proof. change (512 / 4) with 128. apply Forall_forall. intros i Hi%elem_of_seqZ. lia. Qed.

Lemma sd_read_tail b data s data' s' : (512 <= length data)%nat -> sd_rw b data false s = Ok data' s' -> drop 512 data' = drop 512 data.
Proof.
  intros Hlen H. unfold sd_rw in H. apply bind_inv in H as ([data1 ok] & s1 & Hr & H). destruct ok; [|discriminate]. injection H as <- _.
  unfold sdhci_read_block in Hr. apply bind_inv in Hr as (s0 & ? & [= <- <-] & Hr). destruct (negb _); [discriminate|].
  do 5 (apply bind_inv in Hr as (? & ? & _ & Hr)). case_match; [|apply bind_inv in Hr as (? & ? & _ & Hr); discriminate].
  apply bind_inv in Hr as ([data2 ok] & s2 & Hp & Hr). apply pio_read_tail in Hp; [|apply pio_words_lt|done].
  apply bind_inv in Hr as (? & ? & _ & Hr). apply bind_inv in Hr as (? & ? & _ & Hr). by injection Hr as <- _ _.
Qed.

Lemma getn_take n bl bl' off k : 0 <= off -> off + Z.of_nat n <= Z.of_nat k -> take k bl = take k bl' -> getn n bl off = getn n bl' off.
Proof.
  intros H1 H2 E. unfold getn. f_equal. rewrite !take_drop_commute. replace (Z.to_nat off + n)%nat with ((Z.to_nat off + n) `min` k)%nat by lia.
  by rewrite <- !take_take, E.
Qed.
Lemma pio_write_head l data data' : Forall (fun i => 0 <= i < 128) l -> take 512 data = take 512 data' -> forall s, pio_write l data s = pio_write l data' s.
Proof.
  intros Hl E. induction Hl as [|i l Hi Hl IH]; intros s; [done|]. cbn [pio_write]. unfold bind. destruct (sdhci_wait_for _ _ _ _ s) as [[] s1| | |]; try done.
  cbn [negb]. rewrite (getn_take 4 data data' (4 * i) 512) by (done || lia). unfold sdhci_write, modify. apply IH.
Qed.

(** The outcome of a write without the buffer, which it does not change. *)
Definition after_write (o : outcome S block) : outcome S unit :=
  match o with Ok _ s => Ok tt s | Panic msg => Panic msg | Sleep c s => Sleep c s | NoFuel => NoFuel end.
Lemma sd_write_head b data data' s : take 512 data = take 512 data' -> after_write (sd_rw b data true s) = after_write (sd_rw b data' true s).
Proof.
  intros E. assert (Ew : sdhci_write_block b data s = sdhci_write_block b data' s).
  { apply bind_ext. intros s0 s1. destruct (negb _); [done|]. do 5 (apply bind_ext; intros ? ?). case_match; [|done].
    unfold bind. by rewrite (pio_write_head _ data data' pio_words_lt E). }
  unfold sd_rw, bind. rewrite Ew. by destruct (sdhci_write_block b data' s) as [[] s1| | |].
Qed.

(** The SD driver moves half of each block, whatever the controller does: a
    read changes at most the first 512 of the buffer's 1024 bytes, and the
    effect of a write depends only on the first 512. So it cannot keep the
    contract of a block device that the buffer cache, the log and the file
    system are built on: no view of the card as an array of blocks satisfies it. *)
Theorem sdhci_moves_half_blocks :
  (forall b data s data' s', length data = Z.to_nat BSIZE -> sd_rw b data false s = Ok data' s' -> drop 512 data' = drop 512 data) /\
  (forall b data data' s, take 512 data = take 512 data' -> after_write (sd_rw b data true s) = after_write (sd_rw b data' true s)) /\
  (forall (spec : DiskSpec S) s, dok s -> ~ 0 < dsize).
Proof.
  split_and!.
  - intros b data s data' s' Hl. apply sd_read_tail. rewrite Hl. vm_compute. lia.
  - intros b data data' s. apply sd_write_head.
  - intros spec s Hs Hsize. set (ones := replicate (Z.to_nat BSIZE) 255).
    assert (Ho : is_block ones) by (split; [apply length_replicate|apply Forall_replicate; unfold is_byte; lia]).
    destruct (disk_write s 0 ones Hs ltac:(lia) Ho) as (s1 & _ & Hs1 & Hb). specialize (Hb 0). rewrite decide_True in Hb by done.
    destruct (disk_read s1 0 blank Hs1 ltac:(lia) blank_block) as (s2 & Hr & _). rewrite Hb in Hr. apply sd_read_tail in Hr; [vm_compute in Hr; discriminate|].
    unfold blank. rewrite length_replicate. vm_compute. lia.
Qed.

(** ** Commands without data

    The SD host controller specification: a command whose Data Present Select
    bit is 0 transfers no data. [idle] are the states with no transfer under
    way: no write that leaves the command register alone starts one, nor does a
    16-bit write to that register without the bit, and as long as there is none,
    the buffer has nothing to read. *)
Definition bytes_of (w : width) : Z := match w with W8 => 1 | W16 => 2 | W32 => 4 end.
Definition starts_none (w : width) (reg v : Z) : Prop :=
  reg + bytes_of w <= SDHCI_COMMAND \/ SDHCI_COMMAND + 2 <= reg \/ w = W16 /\ reg = SDHCI_COMMAND /\ has v SDHCI_CMD_DATA = false.
Record no_data (idle : D -> Prop) : Prop := mk_no_data {
  nd_read w reg d : idle d -> idle (reg_read w reg d).2;
  nd_write w reg v d : idle d -> starts_none w reg v -> idle (reg_write w reg v d);
  nd_avail d : idle d -> Z.land (reg_read W32 SDHCI_PRESENT_STATE d).1 SDHCI_DATA_AVAILABLE = 0 }.

Section no_data.
Context (idle : D -> Prop) (Hnd : no_data idle).

(** [m] returns, with no transfer under way and the driver's own state as before. *)
Definition stays {A} (m : M S A) : Prop := forall s, idle (sd_dev s) -> exists a s', m s = Ok a s' /\ idle (sd_dev s') /\ sd_card s' = sd_card s.

Lemma stays_ret {A} (a : A) : stays (ret a).
Proof. intros s Hs. by exists a, s. Qed.
Lemma stays_bind {A B} (m : M S A) (k : A -> M S B) : stays m -> (forall a, stays (k a)) -> stays (bind m k).
Proof.
  intros Hm Hk s Hs. destruct (Hm s Hs) as (a & s1 & E & H1 & C1). destruct (Hk a s1 H1) as (b & s2 & E2 & H2 & C2).
  exists b, s2. rewrite (bind_ok _ _ _ _ _ E). split_and!; [done|done|congruence].
Qed.
Lemma stays_read w reg : stays (sdhci_read w reg).
Proof.
  intros s Hs. unfold sdhci_read. pose proof (nd_read idle Hnd w reg _ Hs) as Hr. destruct (reg_read w reg (sd_dev s)) as [v d]. by exists v, (set_dev s d).
Qed.
Lemma stays_write w reg v : starts_none w reg v -> stays (sdhci_write w reg v).
Proof. intros Hv s Hs. eexists tt, _. split; [reflexivity|]. split; [by apply (nd_write idle Hnd)|done]. Qed.
Lemma stays_wait reg mask value n : stays (wait_loop n reg mask value).
Proof.
  induction n as [|n IH]; [apply stays_ret|]. cbn [wait_loop]. apply stays_bind; [apply stays_read|]. intros v. case_match; [apply stays_ret|done].
Qed.

(** No command of the driver says that it carries data. *)
Lemma cmd_no_data cmd resp_type : has (Z.lor (u16 (Z.shiftl cmd 8)) (resp_flags resp_type)) SDHCI_CMD_DATA = false.
Proof.
  change SDHCI_CMD_DATA with (Z.shiftl 1 5). rewrite has_testbit by lia. rewrite Z.lor_spec, orb_false_iff. split.
  - unfold u16. rewrite Z.mod_pow2_bits_low by lia. rewrite Z.shiftl_spec_low by lia. done.
  - unfold resp_flags. repeat case_match; done.
Qed.

Lemma stays_send cmd arg resp_type : stays (sdhci_send_cmd cmd arg resp_type false).
Proof.
  unfold sdhci_send_cmd. apply stays_bind; [apply stays_wait|]. intros []; [|apply stays_ret]. cbn [negb].
  apply stays_bind; [by apply stays_write; right; left|]. intros _. apply stays_bind; [by apply stays_write; left|]. intros _.
  apply stays_bind; [apply stays_write; right; right; split_and!; [done|done|apply cmd_no_data]|]. intros _. apply stays_bind; [apply stays_wait|]. intros []; [|apply stays_ret]. cbn [negb].
  apply stays_bind; [apply stays_read|]. intros status. case_match; [apply stays_ret|]. apply stays_bind; [apply stays_ret|]. intros r.
  apply stays_bind; [by apply stays_write; right; left|]. intros _. apply stays_ret.
Qed.

(** The wait for data to read times out. *)
Lemma wait_no_data n s : idle (sd_dev s) -> exists s', wait_loop n SDHCI_PRESENT_STATE SDHCI_DATA_AVAILABLE SDHCI_DATA_AVAILABLE s = Ok false s' /\
  sd_card s' = sd_card s.
Proof.
  revert s. induction n as [|n IH]; intros s Hs; [by exists s|]. cbn [wait_loop]. unfold bind at 1, sdhci_read.
  pose proof (nd_avail idle Hnd _ Hs) as Ha. pose proof (nd_read idle Hnd W32 SDHCI_PRESENT_STATE _ Hs) as Hr.
  destruct (reg_read W32 SDHCI_PRESENT_STATE (sd_dev s)) as [v d]. cbn [fst snd] in *. rewrite Ha. cbn. destruct (IH (set_dev s d) Hr) as (s' & E & C). by exists s'.
Qed.
Lemma read_block_fails b data s : idle (sd_dev s) -> sd_locked s = false -> exists data' s', sdhci_read_block b data s = Ok (data', false) s'.
Proof.
  intros Hs Hl. unfold sdhci_read_block, bind at 1, get at 1. destruct (negb _); [by exists data, s|].
  rewrite (bind_ok _ _ _ tt (set_sd_lock s true)) by (unfold acquire, get, put, bind; by rewrite Hl).
  assert (Hw : forall reg v, reg + 2 <= SDHCI_COMMAND -> stays (sdhci_write W16 reg v)) by (intros; apply stays_write; by left).
  destruct (Hw SDHCI_BLOCK_SIZE 512 ltac:(done) (set_sd_lock s true) Hs) as ([] & s1 & E1 & H1 & C1). rewrite (bind_ok _ _ _ _ _ E1).
  destruct (Hw SDHCI_BLOCK_COUNT 1 ltac:(done) s1 H1) as ([] & s2 & E2 & H2 & C2). rewrite (bind_ok _ _ _ _ _ E2).
  destruct (Hw SDHCI_TRANSFER_MODE SDHCI_TRNS_READ ltac:(done) s2 H2) as ([] & s3 & E3 & H3 & C3). rewrite (bind_ok _ _ _ _ _ E3).
  destruct (stays_send SD_CMD_READ_SINGLE_BLOCK b SD_RSP_R1 s3 H3) as (r & s4 & E4 & H4 & C4). rewrite (bind_ok _ _ _ _ _ E4).
  assert (Hlk : forall s5, sd_card s5 = sd_card s4 -> release sd_locked set_sd_lock s5 = Ok tt (set_sd_lock s5 false)).
  { intros s5 C5. unfold release, get, put, bind, sd_locked. rewrite C5, C4, C3, C2, C1. done. }
  destruct r as [r|]; [|rewrite (bind_ok _ _ _ _ _ (Hlk s4 eq_refl)); eexists _, _; reflexivity].
  replace (seqZ 0 (512 / 4)) with (0 :: seqZ 1 127) by done. cbn [pio_read]. destruct (wait_no_data (SDHCI_DATA_TIMEOUT * 10) s4 H4) as (s5 & E5 & C5).
  change (sdhci_wait_for ?a ?b ?c SDHCI_DATA_TIMEOUT) with (wait_loop (SDHCI_DATA_TIMEOUT * 10) a b c).
  rewrite bind_assoc, (bind_ok _ _ _ _ _ E5). cbn [negb]. rewrite !bind_ret, (bind_ok _ _ _ _ _ (Hlk s5 C5)). eexists _, _. reflexivity.
Qed.
End no_data.

(** C32. No read from the SD card ever completes on a controller that follows the
    specification: the driver never sets the bit of the command register that
    says a command carries data, so the controller transfers none, the wait for
    the first word times out and [virtio_disk_rw] panics. *)
Theorem sdhci_read_panics (idle : D -> Prop) b data s : no_data idle -> idle (sd_dev s) -> sd_locked s = false ->
  sd_rw b data false s = Panic "sdhci: I/O error".
Proof.
  intros Hnd Hs Hl. destruct (read_block_fails idle Hnd b data s Hs Hl) as (data' & s' & E). unfold sd_rw. by rewrite (bind_ok _ _ _ _ _ E).
Qed.
End sdhci_c.

(** A controller that completes commands at once and has data to read after a
    command that carries some. *)
Section example.
#[local] Instance demo_controller : Controller bool := {|
  reg_read := fun _ reg active =>
    (if reg =? SDHCI_INT_STATUS then Z.lor SDHCI_INT_RESPONSE SDHCI_INT_DATA_END
     else if (reg =? SDHCI_PRESENT_STATE) && active then SDHCI_DATA_AVAILABLE else 0, active);
  reg_write := fun _ reg v active => if reg =? SDHCI_COMMAND then has v SDHCI_CMD_DATA else active
|}.
Definition ready_card (active : bool) : sdst bool := mk_sdst active (mk_sdcard false true true 1 1024 true).

Lemma sdhci_read_panics_witness : no_data (fun active : bool => active = false) /\ sd_rw 1 blank false (ready_card false) = Panic "sdhci: I/O error".
Proof.
  assert (H : no_data (fun active : bool => active = false)).
  { split; [done| |by intros d ->]. intros w reg v d Hd Hv. cbn. destruct (Z.eqb_spec reg SDHCI_COMMAND) as [->|]; [|done]. destruct Hv as [Hv|[Hv|(_ & _ & Hv)]]; [destruct w; cbn in Hv; lia|lia|done]. }
  split; [exact H|]. apply (sdhci_read_panics (fun active : bool => active = false) 1 blank (ready_card false) H); reflexivity.
Defined.
End example.
