(* ===== verification/Virtio.v ===== *)
(** * The virtio disk driver (kernel/virtio_disk.c, kernel/virtio.h)

    The driver for the emulated disk of qemu. Driver and device share three
    structures in memory: the table of descriptors, the ring of requests made
    available and the ring of requests used up. The device is hardware: this
    file states what the virtio specification says it may do to the shared
    structures ([dev_allowed]); a device is anything that does no more.

    A pointer handed to the device is the object it points to ([dma]).
    [virtio_disk_rw] is cut where it sleeps and where it has a memory barrier:
    in between, the device and the interrupt handler may run. The queue
    notification and the acknowledgement of an interrupt tell the device to go
    on and have no effect of their own. *)

From stdpp Require Import functions base gmap numbers strings list.
From Stdlib Require Import ZArith Lia.
From S2P Require Import Prelude Riscv Mem Spinlock Kalloc Disk Sdhci.
Open Scope Z_scope.
Open Scope kernel_scope.

(** ** virtio.h *)

Definition VIRTIO_MMIO_MAGIC_VALUE : Z := 0x000.
Definition VIRTIO_MMIO_VERSION : Z := 0x004.
Definition VIRTIO_MMIO_DEVICE_ID : Z := 0x008.
Definition VIRTIO_MMIO_VENDOR_ID : Z := 0x00c.
Definition VIRTIO_MMIO_DEVICE_FEATURES : Z := 0x010.
Definition VIRTIO_MMIO_DRIVER_FEATURES : Z := 0x020.
Definition VIRTIO_MMIO_QUEUE_SEL : Z := 0x030.
Definition VIRTIO_MMIO_QUEUE_NUM_MAX : Z := 0x034.
Definition VIRTIO_MMIO_QUEUE_NUM : Z := 0x038.
Definition VIRTIO_MMIO_QUEUE_READY : Z := 0x044.
Definition VIRTIO_MMIO_STATUS : Z := 0x070.
Definition VIRTIO_MMIO_QUEUE_DESC_LOW : Z := 0x080.
Definition VIRTIO_MMIO_QUEUE_DESC_HIGH : Z := 0x084.
Definition VIRTIO_MMIO_DRIVER_DESC_LOW : Z := 0x090.
Definition VIRTIO_MMIO_DRIVER_DESC_HIGH : Z := 0x094.
Definition VIRTIO_MMIO_DEVICE_DESC_LOW : Z := 0x0a0.
Definition VIRTIO_MMIO_DEVICE_DESC_HIGH : Z := 0x0a4.

Definition VIRTIO_CONFIG_S_ACKNOWLEDGE : Z := 1.
Definition VIRTIO_CONFIG_S_DRIVER : Z := 2.
Definition VIRTIO_CONFIG_S_DRIVER_OK : Z := 4.
Definition VIRTIO_CONFIG_S_FEATURES_OK : Z := 8.

Definition VIRTIO_BLK_F_RO : Z := 5.
Definition VIRTIO_BLK_F_SCSI : Z := 7.
Definition VIRTIO_BLK_F_CONFIG_WCE : Z := 11.
Definition VIRTIO_BLK_F_MQ : Z := 12.
Definition VIRTIO_F_ANY_LAYOUT : Z := 27.
Definition VIRTIO_RING_F_INDIRECT_DESC : Z := 28.
Definition VIRTIO_RING_F_EVENT_IDX : Z := 29.

Definition NUM : Z := 8.
Definition VRING_DESC_F_NEXT : Z := 1.
Definition VRING_DESC_F_WRITE : Z := 2.
Definition VIRTIO_BLK_T_IN : Z := 0.
Definition VIRTIO_BLK_T_OUT : Z := 1.

(** What an address in a descriptor points to: nothing, [disk.ops[i]], the
    data of buffer [b], [disk.info[i].status]. *)
Inductive dma := DNull | DOps (i : Z) | DData (b : nat) | DStatus (i : Z).

Record virtq_desc := mk_desc { d_addr : dma; d_len : Z; d_flags : Z; d_next : Z }.
Record virtio_blk_req := mk_req { r_type : Z; r_reserved : Z; r_sector : Z }.
Definition desc0 : virtq_desc := mk_desc DNull 0 0 0.
Definition sizeof_req : Z := 16.

(** ** The state

    [disk] is the driver's struct disk with the structures it shares: [av_idx]
    and [av_ring] are [avail->idx] and [avail->ring], [us_idx] and [us_ring]
    are [used->idx] and the [id]s of [used->ring]. *)
Record disk := mk_disk {
  desc : Z -> virtq_desc;
  av_idx : Z; av_ring : Z -> Z;
  us_idx : Z; us_ring : Z -> Z;
  free : Z -> bool; used_idx : Z;
  info_b : Z -> option nat; info_status : Z -> Z;
  ops : Z -> virtio_blk_req;
  vdisk_lock : bool }.

(** The fields of struct buf the driver uses. *)
Record vbuf := mk_vbuf { vb_blockno : Z; vb_disk : Z; vb_data : block }.
Definition set_vb_disk (v : Z) (b : vbuf) : vbuf := mk_vbuf (vb_blockno b) v (vb_data b).
Definition set_vb_data (d : block) (b : vbuf) : vbuf := mk_vbuf (vb_blockno b) (vb_disk b) d.

(** What the device keeps: the next entry of the available ring it will
    look at, the requests it has taken and not finished, and its sectors of
    512 bytes. *)
Record vdev := mk_vdev { dv_last : Z; dv_pend : list Z; dv_media : Z -> list Z }.

(** The machine as the driver sees it; [v_asleep] is the channel a process
    sleeps on. *)
Record vst := mk_vst { vd : disk; vbufs : nat -> vbuf; v_asleep : nat -> option chan; v_dev : vdev }.

Definition set_vd (s : vst) (d : disk) : vst := mk_vst d (vbufs s) (v_asleep s) (v_dev s).
Definition updd (f : disk -> disk) : M vst unit := modify (fun s => set_vd s (f (vd s))).
Definition updb (b : nat) (f : vbuf -> vbuf) : M vst unit :=
  modify (fun s => mk_vst (vd s) (<[b := f (vbufs s b)]> (vbufs s)) (v_asleep s) (v_dev s)).
Definition wakeup (c : chan) : M vst unit :=
  modify (fun s => mk_vst (vd s) (vbufs s) (fun t => if decide (v_asleep s t = Some c) then None else v_asleep s t) (v_dev s)).

Definition set_desc (i : Z) (x : virtq_desc) (d : disk) : disk :=
  mk_disk (<[i := x]> (desc d)) (av_idx d) (av_ring d) (us_idx d) (us_ring d) (free d) (used_idx d) (info_b d) (info_status d) (ops d) (vdisk_lock d).
Definition set_avail (i : Z) (r : Z -> Z) (d : disk) : disk :=
  mk_disk (desc d) i r (us_idx d) (us_ring d) (free d) (used_idx d) (info_b d) (info_status d) (ops d) (vdisk_lock d).
Definition set_used (i : Z) (r : Z -> Z) (d : disk) : disk :=
  mk_disk (desc d) (av_idx d) (av_ring d) i r (free d) (used_idx d) (info_b d) (info_status d) (ops d) (vdisk_lock d).
Definition set_free (i : Z) (b : bool) (d : disk) : disk :=
  mk_disk (desc d) (av_idx d) (av_ring d) (us_idx d) (us_ring d) (<[i := b]> (free d)) (used_idx d) (info_b d) (info_status d) (ops d) (vdisk_lock d).
Definition set_used_idx (i : Z) (d : disk) : disk :=
  mk_disk (desc d) (av_idx d) (av_ring d) (us_idx d) (us_ring d) (free d) i (info_b d) (info_status d) (ops d) (vdisk_lock d).
Definition set_info_b (i : Z) (b : option nat) (d : disk) : disk :=
  mk_disk (desc d) (av_idx d) (av_ring d) (us_idx d) (us_ring d) (free d) (used_idx d) (<[i := b]> (info_b d)) (info_status d) (ops d) (vdisk_lock d).
Definition set_status (i v : Z) (d : disk) : disk :=
  mk_disk (desc d) (av_idx d) (av_ring d) (us_idx d) (us_ring d) (free d) (used_idx d) (info_b d) (<[i := v]> (info_status d)) (ops d) (vdisk_lock d).
Definition set_ops (i : Z) (r : virtio_blk_req) (d : disk) : disk :=
  mk_disk (desc d) (av_idx d) (av_ring d) (us_idx d) (us_ring d) (free d) (used_idx d) (info_b d) (info_status d) (<[i := r]> (ops d)) (vdisk_lock d).
Definition set_vdisk_lock (d : disk) (b : bool) : disk :=
  mk_disk (desc d) (av_idx d) (av_ring d) (us_idx d) (us_ring d) (free d) (used_idx d) (info_b d) (info_status d) (ops d) b.

Definition lock_vd : M vst unit := acquire (fun s => vdisk_lock (vd s)) (fun s b => set_vd s (set_vdisk_lock (vd s) b)).
Definition unlock_vd : M vst unit := release (fun s => vdisk_lock (vd s)) (fun s b => set_vd s (set_vdisk_lock (vd s) b)).

(** ** virtio_disk.c *)

Definition alloc_desc : M vst Z :=
  r <- for_each (seqZ 0 NUM) (fun i =>
         s <- get ;;
         if free (vd s) i then updd (set_free i false) ;;; ret (Some i) else ret None) ;;
  ret (default (-1) r).

Definition free_desc (i : Z) : M vst unit :=
  if NUM <=? i then panic "free_desc 1"
  else
    s <- get ;;
    if free (vd s) i then panic "free_desc 2"
    else
      updd (set_desc i desc0) ;;;
      updd (set_free i true) ;;;
      wakeup ChDiskFree.

Fixpoint free_chain_loop (fuel : nat) (i : Z) : M vst unit :=
  match fuel with
  | O => no_fuel
  | S fuel' =>
      s <- get ;;
      let flag := d_flags (desc (vd s) i) in
      let nxt := d_next (desc (vd s) i) in
      free_desc i ;;;
      if has flag VRING_DESC_F_NEXT then free_chain_loop fuel' nxt else ret tt
  end.
(** A chain that frees more than [NUM] descriptors frees one twice and
    panics. *)
Definition free_chain (i : Z) : M vst unit := free_chain_loop (S (Z.to_nat NUM)) i.

Fixpoint alloc3_loop (n : nat) (idx : list Z) : M vst (option (list Z)) :=
  match n with
  | O => ret (Some idx)
  | S n' =>
      i <- alloc_desc ;;
      if i <? 0 then for_all idx free_desc ;;; ret None
      else alloc3_loop n' (idx ++ [i])
  end.
Definition alloc3_desc : M vst (option (list Z)) := alloc3_loop 3 [].

(** The loop that allocates, from the lock on: it ends with the lock held, or
    asleep with the lock given up, to start over. *)
Definition rw_alloc : M vst (list Z) :=
  lock_vd ;;;
  r <- alloc3_desc ;;
  match r with
  | Some idx => ret idx
  | None => unlock_vd ;;; sleep_on ChDiskFree
  end.

(** The three descriptors, the book-keeping and the entry of the available
    ring. *)
Definition rw_fill (b : nat) (write : bool) (idx : list Z) : M vst Z :=
  s <- get ;;
  let sector := u32 (vb_blockno (vbufs s b) * (BSIZE / 512)) in
  let i0 := nthz idx 0 in
  let i1 := nthz idx 1 in
  let i2 := nthz idx 2 in
  updd (set_ops i0 (mk_req (if write then VIRTIO_BLK_T_OUT else VIRTIO_BLK_T_IN) 0 sector)) ;;;
  updd (set_desc i0 (mk_desc (DOps i0) sizeof_req VRING_DESC_F_NEXT (u16 i1))) ;;;
  updd (set_desc i1 (mk_desc (DData b) BSIZE (Z.lor (if write then 0 else VRING_DESC_F_WRITE) VRING_DESC_F_NEXT) (u16 i2))) ;;;
  updd (set_status i0 0xff) ;;;
  updd (set_desc i2 (mk_desc (DStatus i0) 1 VRING_DESC_F_WRITE 0)) ;;;
  updb b (set_vb_disk 1) ;;;
  updd (set_info_b i0 (Some b)) ;;;
  updd (fun d => set_avail (av_idx d) (<[av_idx d mod NUM := u16 i0]> (av_ring d)) d) ;;;
  ret i0.
Definition rw_prepare (b : nat) (write : bool) : M vst Z :=
  idx <- rw_alloc ;; rw_fill b write idx.

Definition rw_publish : M vst unit := updd (fun d => set_avail (u16 (av_idx d + 1)) (av_ring d) d).

(** The loop that waits, with the lock held, and what follows it. *)
Definition rw_finish (b : nat) (i0 : Z) : M vst unit :=
  s <- get ;;
  if vb_disk (vbufs s b) =? 1 then unlock_vd ;;; sleep_on (ChDiskBuf b)
  else
    updd (set_info_b i0 None) ;;;
    free_chain i0 ;;;
    unlock_vd.

Definition virtio_rw (b : nat) (write : bool) : M vst unit :=
  i0 <- rw_prepare b write ;;
  rw_publish ;;;
  rw_finish b i0.

(** One round of the loop of the interrupt handler. *)
Definition intr_entry : M vst unit :=
  s <- get ;;
  let id := us_ring (vd s) (used_idx (vd s) mod NUM) in
  if negb (info_status (vd s) id =? 0) then panic "virtio_disk_intr status"
  else
    match info_b (vd s) id with
    | None => panic "null pointer"
    | Some b =>
        updb b (set_vb_disk 0) ;;;
        wakeup (ChDiskBuf b) ;;;
        updd (fun d => set_used_idx (u16 (used_idx d + 1)) d)
    end.

Fixpoint intr_loop (fuel : nat) : M vst unit :=
  match fuel with
  | O => no_fuel
  | S fuel' =>
      s <- get ;;
      if used_idx (vd s) =? us_idx (vd s) then ret tt
      else intr_entry ;;; intr_loop fuel'
  end.
Definition virtio_disk_intr (fuel : nat) : M vst unit :=
  lock_vd ;;;
  intr_loop fuel ;;;
  unlock_vd.

(** ** What the device may do *)

(** The request whose chain starts at [h]: its header, the buffer with its
    length and direction, and the status byte. *)
Record request := mk_request { q_req : virtio_blk_req; q_buf : nat; q_len : Z; q_write : bool; q_status : Z }.
Definition decode (d : disk) (h : Z) : option request :=
  let x := desc d h in
  let y := desc d (d_next x) in
  let z := desc d (d_next y) in
  match d_addr x, d_addr y, d_addr z with
  | DOps o, DData b, DStatus k =>
      if has (d_flags x) VRING_DESC_F_NEXT && has (d_flags y) VRING_DESC_F_NEXT && negb (has (d_flags z) VRING_DESC_F_NEXT) &&
         negb (has (d_flags x) VRING_DESC_F_WRITE) && has (d_flags z) VRING_DESC_F_WRITE &&
         (d_len x =? sizeof_req) && (d_len z =? 1)
      then Some (mk_request (ops d o) b (d_len y) (has (d_flags y) VRING_DESC_F_WRITE) k)
      else None
  | _, _, _ => None
  end.

Definition sectors (m : Z -> list Z) (sec n : Z) : list Z := concat (map m (seqZ sec n)).
Definition put_sectors (m : Z -> list Z) (sec n : Z) (data : list Z) : Z -> list Z := fun x =>
  if (sec <=? x) && (x <? sec + n) then take 512 (drop (Z.to_nat (512 * (x - sec))) data) else m x.

(** The device takes the next available request. *)
Definition dev_fetch (s : vst) : vst :=
  let v := v_dev s in
  mk_vst (vd s) (vbufs s) (v_asleep s)
    (mk_vdev (u16 (dv_last v + 1)) (dv_pend v ++ [av_ring (vd s) (dv_last v mod NUM)]) (dv_media v)).

Definition moved (q : request) (s : vst) : (nat -> vbuf) * (Z -> list Z) :=
  let n := q_len q / 512 in
  let m := dv_media (v_dev s) in
  if q_write q then (<[q_buf q := set_vb_data (sectors m (r_sector (q_req q)) n) (vbufs s (q_buf q))]> (vbufs s), m)
  else (vbufs s, put_sectors m (r_sector (q_req q)) n (vb_data (vbufs s (q_buf q)))).

(** The device is done with a request it has taken: it writes the status, and
    the used ring grows. *)
Definition dev_used (h : Z) (q : request) (st : Z) (moved : (nat -> vbuf) * (Z -> list Z)) (s : vst) : vst :=
  let v := v_dev s in
  let d := set_status (q_status q) st (vd s) in
  mk_vst (set_used (u16 (us_idx d + 1)) (<[us_idx d mod NUM := h]> (us_ring d)) d)
    (fst moved) (v_asleep s)
    (mk_vdev (dv_last v) (filter (fun x => x <> h) (dv_pend v)) (snd moved)).

(** It succeeds: the data moves, the status is 0. Or it fails: the status is
    another byte, and what was to be written, the data of the buffer or the
    sectors of the disk, may be anything. *)
Definition dev_finish (h : Z) (q : request) (s : vst) : vst := dev_used h q 0 (moved q s) s.
Definition spoiled (q : request) (s : vst) (m : (nat -> vbuf) * (Z -> list Z)) : Prop :=
  if q_write q then exists data, length data = length (vb_data (vbufs s (q_buf q))) /\ m = (<[q_buf q := set_vb_data data (vbufs s (q_buf q))]> (vbufs s), dv_media (v_dev s))
  else m.1 = vbufs s /\ (forall x, length (m.2 x) = length (dv_media (v_dev s) x)) /\
    forall x, ~ r_sector (q_req q) <= x < r_sector (q_req q) + q_len q / 512 -> m.2 x = dv_media (v_dev s) x.

(** A request is one the device understands: it reads the buffer for OUT and
    writes it for IN, whole sectors. After any other the device may do
    anything. *)
Definition good_request (q : request) : bool :=
  (r_type (q_req q) =? (if q_write q then VIRTIO_BLK_T_IN else VIRTIO_BLK_T_OUT)) && (q_len q mod 512 =? 0).
Inductive dev_succeeds (s : vst) : vst -> Prop :=
  | dev_fetches : dv_last (v_dev s) <> av_idx (vd s) -> dev_succeeds s (dev_fetch s)
  | dev_finishes h q : h ∈ dv_pend (v_dev s) -> decode (vd s) h = Some q -> good_request q = true -> dev_succeeds s (dev_finish h q s)
  | dev_confused h s' : h ∈ dv_pend (v_dev s) -> (forall q, decode (vd s) h = Some q -> good_request q = false) -> dev_succeeds s s'.
Inductive dev_allowed (s : vst) : vst -> Prop :=
  | dev_does s' : dev_succeeds s s' -> dev_allowed s s'
  | dev_fails h q st m : h ∈ dv_pend (v_dev s) -> decode (vd s) h = Some q -> good_request q = true -> 0 < st < 256 -> spoiled q s m ->
      dev_allowed s (dev_used h q st m s).

(** A device; one that is [reliable] reports no error. *)
Class VirtioDevice := {
  dev_step : vst -> vst -> Prop;
  reliable : bool;
  dev_spec : forall s s', dev_step s s' -> if reliable then dev_succeeds s s' else dev_allowed s s' }.

(** ** virtio_disk_init

    The registers of the device are those of a [Controller]. The three pages
    of the queue are zeroed, which is the initial value of the structures in
    them. *)
Section init.
Context {D : Type} {ctl : Controller D} {img : KernelImage}.

Record vinit := mk_vinit { vi_dev : D; vi_mem : memst; vi_disk : disk; vi_pages : list Z }.

Definition rd (reg : Z) : M vinit Z := fun s =>
  let '(v, d) := reg_read W32 reg (vi_dev s) in Ok v (mk_vinit d (vi_mem s) (vi_disk s) (vi_pages s)).
Definition wr (reg v : Z) : M vinit unit :=
  modify (fun s => mk_vinit (reg_write W32 reg (u32 v) (vi_dev s)) (vi_mem s) (vi_disk s) (vi_pages s)).
Definition in_mem {A} (m : M memst A) : M vinit A :=
  zoom vi_mem (fun s x => mk_vinit (vi_dev s) x (vi_disk s) (vi_pages s)) m.

Definition disk0 : disk :=
  mk_disk (fun _ => desc0) 0 (fun _ => 0) 0 (fun _ => 0) (fun _ => false) 0 (fun _ => None) (fun _ => 0) (fun _ => mk_req 0 0 0) false.
Definition clear_bit (k x : Z) : Z := Z.land x (u64 (Z.lnot (Z.shiftl 1 k))).
Definition negotiated (features : Z) : Z :=
  foldl (fun x k => clear_bit k x) features
    [VIRTIO_BLK_F_RO; VIRTIO_BLK_F_SCSI; VIRTIO_BLK_F_CONFIG_WCE; VIRTIO_BLK_F_MQ; VIRTIO_F_ANY_LAYOUT;
     VIRTIO_RING_F_EVENT_IDX; VIRTIO_RING_F_INDIRECT_DESC].
Definition set_vi_free (i : Z) : M vinit unit :=
  modify (fun s => mk_vinit (vi_dev s) (vi_mem s) (set_free i true (vi_disk s)) (vi_pages s)).

Definition virtio_disk_init : M vinit unit :=
  magic <- rd VIRTIO_MMIO_MAGIC_VALUE ;;
  version <- (if magic =? 0x74726976 then rd VIRTIO_MMIO_VERSION else ret 0) ;;
  device <- (if version =? 2 then rd VIRTIO_MMIO_DEVICE_ID else ret 0) ;;
  vendor <- (if device =? 2 then rd VIRTIO_MMIO_VENDOR_ID else ret 0) ;;
  if negb (vendor =? 0x554d4551) then panic "could not find virtio disk"
  else
    wr VIRTIO_MMIO_STATUS 0 ;;;
    let status := VIRTIO_CONFIG_S_ACKNOWLEDGE in
    wr VIRTIO_MMIO_STATUS status ;;;
    let status := Z.lor status VIRTIO_CONFIG_S_DRIVER in
    wr VIRTIO_MMIO_STATUS status ;;;
    features <- rd VIRTIO_MMIO_DEVICE_FEATURES ;;
    wr VIRTIO_MMIO_DRIVER_FEATURES (negotiated features) ;;;
    let status := Z.lor status VIRTIO_CONFIG_S_FEATURES_OK in
    wr VIRTIO_MMIO_STATUS status ;;;
    status <- rd VIRTIO_MMIO_STATUS ;;
    if negb (has status VIRTIO_CONFIG_S_FEATURES_OK) then panic "virtio disk FEATURES_OK unset"
    else
      wr VIRTIO_MMIO_QUEUE_SEL 0 ;;;
      ready <- rd VIRTIO_MMIO_QUEUE_READY ;;
      if negb (ready =? 0) then panic "virtio disk should not be ready"
      else
        max <- rd VIRTIO_MMIO_QUEUE_NUM_MAX ;;
        if max =? 0 then panic "virtio disk has no queue 0"
        else if max <? NUM then panic "virtio disk max queue too short"
        else
          desc <- in_mem kalloc ;;
          avail <- in_mem kalloc ;;
          used <- in_mem kalloc ;;
          if (desc =? 0) || (avail =? 0) || (used =? 0) then panic "virtio disk kalloc"
          else
            in_mem (store (fun m => memset m desc 0 PGSIZE)) ;;;
            in_mem (store (fun m => memset m avail 0 PGSIZE)) ;;;
            in_mem (store (fun m => memset m used 0 PGSIZE)) ;;;
            modify (fun s => mk_vinit (vi_dev s) (vi_mem s) disk0 [desc; avail; used]) ;;;
            wr VIRTIO_MMIO_QUEUE_NUM NUM ;;;
            wr VIRTIO_MMIO_QUEUE_DESC_LOW desc ;;;
            wr VIRTIO_MMIO_QUEUE_DESC_HIGH (Z.shiftr desc 32) ;;;
            wr VIRTIO_MMIO_DRIVER_DESC_LOW avail ;;;
            wr VIRTIO_MMIO_DRIVER_DESC_HIGH (Z.shiftr avail 32) ;;;
            wr VIRTIO_MMIO_DEVICE_DESC_LOW used ;;;
            wr VIRTIO_MMIO_DEVICE_DESC_HIGH (Z.shiftr used 32) ;;;
            wr VIRTIO_MMIO_QUEUE_READY 1 ;;;
            for_all (seqZ 0 NUM) set_vi_free ;;;
            wr VIRTIO_MMIO_STATUS (Z.lor status VIRTIO_CONFIG_S_DRIVER_OK).
End init.
