(* ===== verification/VirtioSpec.v ===== *)
(** * The virtio driver is a disk

    Any number of processes use the disk at once, the device finishes their
    requests in any order, and the interrupt handler runs whenever the lock is
    free. The driver then refines a disk that serves one request at a time,
    atomically; no descriptor has two users, nothing panics unless the device
    reports an error, and no process sleeps through the event it waits for. *)

From stdpp Require Import functions base gmap numbers strings list.
From Stdlib Require Import ZArith Lia.
From S2P Require Import Prelude Riscv Mem Spinlock Kalloc Disk Sdhci Virtio.
Open Scope Z_scope.
Open Scope kernel_scope.

Lemma fn_ins {K A} `{EqDecision K} (f : K -> A) i x j : <[i := x]> f j = if decide (i = j) then x else f j.
Proof. reflexivity. Qed.

(** ** Rings indexed by 16-bit counters *)

Record ring (r : Z -> Z) (from to : Z) (l : list Z) : Prop := {
  rg_from : 0 <= from < 2 ^ 16;
  rg_to : to = u16 (from + Z.of_nat (length l));
  rg_len : Z.of_nat (length l) <= NUM;
  rg_at : forall k x, l !! k = Some x -> r ((from + Z.of_nat k) mod NUM) = x }.

Ltac ring_arith := unfold u16, NUM in *; change (2 ^ 16) with 65536 in *; dlia.

Lemma ring_pop r from to x l : ring r from to (x :: l) -> r (from mod NUM) = x /\ ring r (u16 (from + 1)) to l.
Proof.
  intros [H1 H2 H3 H4]. cbn [length] in *. split; [rewrite <- (H4 O x eq_refl); f_equal; f_equal; lia|].
  split; [ring_arith|ring_arith|lia|]. intros k y Hk. rewrite <- (H4 (S k) y Hk). f_equal. ring_arith.
Qed.

Lemma ring_nil r from to l : ring r from to l -> (from = to <-> l = []).
Proof. intros [H1 H2 H3 H4]. split; [|intros ->; cbn [length] in *; ring_arith]. intros E. destruct l; [done|]. cbn [length] in *. ring_arith. Qed.

(** The entry after the last one can be overwritten, and then made the last. *)
Lemma ring_set r from to l x : ring r from to l -> Z.of_nat (length l) < NUM -> ring (<[to mod NUM := x]> r) from to l.
Proof.
  intros [H1 H2 H3 H4] Hl. split; try done. intros k y Hk. rewrite fn_ins. case_decide as E; [|by apply H4].
  apply lookup_lt_Some in Hk. ring_arith.
Qed.

Lemma ring_grow r from to l x : ring r from to l -> Z.of_nat (length l) < NUM -> r (to mod NUM) = x -> ring r from (u16 (to + 1)) (l ++ [x]).
Proof.
  intros [H1 H2 H3 H4] Hl Hx. split; [done|rewrite length_app; cbn [length]; ring_arith|rewrite length_app; cbn [length]; lia|].
  intros k y Hk. apply lookup_app_Some in Hk as [Hk|[Hk1 Hk2]]; [by apply H4|].
  apply list_lookup_singleton_Some in Hk2 as [Hk2 <-]. rewrite <- Hx. f_equal. assert (k = length l) as -> by lia. ring_arith.
Qed.

Lemma ring_push r from to l x : ring r from to l -> Z.of_nat (length l) < NUM -> ring (<[to mod NUM := x]> r) from (u16 (to + 1)) (l ++ [x]).
Proof. intros H Hl. apply ring_grow; [by apply ring_set|done|apply fn_lookup_insert]. Qed.

Lemma short_heads l : NoDup l -> Forall (fun h => 0 <= h < NUM) l -> Z.of_nat (length l) <= NUM.
Proof.
  intros Hn Hl. assert (Hs : l ⊆+ seqZ 0 NUM).
  { apply NoDup_submseteq; [done|]. intros x Hx. pose proof (proj1 (List.Forall_forall _ _) Hl x (proj1 (list_elem_of_In _ _) Hx)) as Hr; cbn beta in Hr. apply elem_of_seqZ. lia. }
  apply submseteq_length in Hs. rewrite length_seqZ in Hs. unfold NUM in *. lia.
Qed.

(** ** Descriptors *)

Definition frees (s : vst) : list Z := List.filter (free (vd s)) (seqZ 0 NUM).
Definition nfree (s : vst) : nat := length (frees s).
Definition take_desc (i : Z) (s : vst) : vst := set_vd s (set_free i false (vd s)).

Lemma alloc_each l s : for_each l (fun i => s <- get ;; if free (vd s) i then updd (set_free i false) ;;; ret (Some i) else ret None) s =
  match List.filter (free (vd s)) l with i :: _ => Ok (Some i) (take_desc i s) | [] => Ok None s end.
Proof.
  induction l as [|i l IH]; [done|]. cbn [for_each List.filter]. unfold bind at 1 2, get at 1. cbn beta iota.
  destruct (free (vd s) i); [done|]. exact IH.
Qed.

Lemma alloc_desc_run s : alloc_desc s = match frees s with i :: _ => Ok i (take_desc i s) | [] => Ok (-1) s end.
Proof. unfold alloc_desc. unfold bind at 1. rewrite alloc_each. unfold frees. by destruct (List.filter _ _). Qed.

Lemma filter_head (f : Z -> bool) L i l : NoDup L -> List.filter f L = i :: l -> List.filter (<[i := false]> f) L = l.
Proof.
  intros Hn. induction Hn as [|x L Hx Hn IH]; [done|]. cbn [List.filter]. destruct (f x) eqn:Ex.
  - intros [= <- <-]. rewrite fn_lookup_insert. apply List.filter_ext_in. intros y Hy%list_elem_of_In. rewrite fn_ins, decide_False; [done|]. by intros ->.
  - intros E. rewrite fn_ins. rewrite (IH E). by case_decide; [|rewrite Ex].
Qed.

Lemma frees_spec s i : i ∈ frees s <-> 0 <= i < NUM /\ free (vd s) i = true.
Proof. unfold frees. rewrite list_elem_of_In, List.filter_In, <- list_elem_of_In, elem_of_seqZ. unfold NUM. split; intros [? ?]; (split; [lia|done]). Qed.

Lemma NoDup_frees s : NoDup (frees s).
Proof. unfold frees. apply NoDup_ListNoDup, List.NoDup_filter, NoDup_ListNoDup, NoDup_seqZ. Qed.

Lemma frees_take s i l : frees s = i :: l -> frees (take_desc i s) = l.
Proof. apply filter_head, NoDup_seqZ. Qed.

Definition woken (c : chan) (a : nat -> option chan) : nat -> option chan := fun t => if decide (a t = Some c) then None else a t.
Definition drop_desc (i : Z) (s : vst) : vst :=
  mk_vst (set_free i true (set_desc i desc0 (vd s))) (vbufs s) (woken ChDiskFree (v_asleep s)) (v_dev s).

Lemma free_desc_run i s : i < NUM -> free (vd s) i = false -> free_desc i s = Ok tt (drop_desc i s).
Proof. intros Hi Hf. unfold free_desc. destruct (Z.leb_spec NUM i); [lia|]. unfold bind, get. by rewrite Hf. Qed.

(** What [alloc3_desc] leaves alone when it fails; [l] are the descriptors it
    holds on the way. *)
Definition rest (d : disk) := (av_idx d, av_ring d, us_idx d, us_ring d, used_idx d, info_b d, info_status d, ops d, vdisk_lock d).
Record cleaned (l : list Z) (s s' : vst) : Prop := {
  cl_free : forall i, free (vd s') i = if bool_decide (i ∈ l) then false else free (vd s) i;
  cl_held : forall i, i ∈ l -> free (vd s) i = true;
  cl_desc : forall i, free (vd s) i = false -> desc (vd s') i = desc (vd s) i;
  cl_rest : rest (vd s') = rest (vd s);
  cl_bufs : vbufs s' = vbufs s;
  cl_dev : v_dev s' = v_dev s;
  cl_asleep : forall t c, v_asleep s' t = Some c -> v_asleep s t = Some c }.

Lemma cleaned_refl s : cleaned [] s s.
Proof. split; try done. by intros i Hi%elem_of_nil. Qed.

Lemma woken_asleep c a t c' : woken c a t = Some c' -> a t = Some c' /\ c' <> c.
Proof. unfold woken. case_decide as E; [done|]. intros H. split; [done|]. intros ->. by rewrite H in E. Qed.

Lemma cleaned_take l s s' i : cleaned l s s' -> free (vd s') i = true -> cleaned (i :: l) s (take_desc i s').
Proof.
  intros [C1 C2 C3 C4 C5 C6 C7] Hi. split; try done.
  - intros j. cbn. rewrite fn_ins, C1. case_decide as E; [subst; by rewrite bool_decide_true by (by left)|].
    by rewrite (bool_decide_ext (j ∈ i :: l) (j ∈ l)) by (rewrite elem_of_cons; naive_solver).
  - intros j [->|Hj]%elem_of_cons; [|by apply C2]. rewrite C1 in Hi. by case_bool_decide.
Qed.

Lemma cleaned_drop l s s' i : cleaned (i :: l) s s' -> i ∉ l -> cleaned l s (drop_desc i s').
Proof.
  intros [C1 C2 C3 C4 C5 C6 C7] Hi. assert (Hfi : free (vd s) i = true) by (apply C2; by left). split; try done.
  - intros j. cbn. rewrite fn_ins. case_decide as E; [subst; by rewrite bool_decide_false|]. rewrite C1.
    by rewrite (bool_decide_ext (j ∈ i :: l) (j ∈ l)) by (rewrite elem_of_cons; naive_solver).
  - intros j Hj. apply C2. by right.
  - intros j Hj. cbn. rewrite fn_ins, decide_False by congruence. by apply C3.
  - intros t c [H _]%woken_asleep. by apply C7.
Qed.

Lemma drop_all l s s' : Forall (fun i => i < NUM) l -> NoDup l -> cleaned l s s' -> exists s'', for_all l free_desc s' = Ok tt s'' /\ cleaned [] s s''.
Proof.
  intros Hl. revert s'. induction Hl as [|i l Hi Hl IH]; intros s' Hn Hc; [by exists s'|]. apply NoDup_cons in Hn as [Hi' Hn]. cbn [for_all].
  assert (F : free (vd s') i = false) by (rewrite (cl_free _ _ _ Hc), bool_decide_true; [done|by left]).
  rewrite (bind_ok _ _ _ _ _ (free_desc_run i s' Hi F)). apply IH; [done|]. by apply cleaned_drop.
Qed.

(** One round of the loop of [alloc3_desc]. *)
Lemma alloc3_round n got s s' : cleaned got s s' -> NoDup got -> Forall (fun i => i < NUM) got ->
  match frees s' with
  | i :: l => alloc3_loop (S n) got s' = alloc3_loop n (got ++ [i]) (take_desc i s')
  | [] => exists s'', alloc3_loop (S n) got s' = Ok None s'' /\ cleaned [] s s''
  end.
Proof.
  intros Hc Hn Hl. pose proof (alloc_desc_run s') as R. destruct (frees s') as [|i l] eqn:E; cbn [alloc3_loop].
  - destruct (drop_all got s s' Hl Hn Hc) as (s'' & D & Hc'). exists s''. split; [|done]. step_with R. cbn -[for_all]. by step_with D.
  - assert (Hi : i ∈ frees s') by (rewrite E; by left). apply frees_spec in Hi as [Hi _]. step_with R.
    destruct (Z.ltb_spec i 0); [lia|reflexivity].
Qed.

Lemma frees_cons s i l : frees s = i :: l -> (0 <= i < NUM /\ free (vd s) i = true) /\ i ∉ l /\ frees (take_desc i s) = l.
Proof.
  intros E. pose proof (NoDup_frees s) as Hn. rewrite E in Hn. apply NoDup_cons in Hn as [Hn _].
  split; [apply frees_spec; rewrite E; by left|]. split; [done|by apply frees_take].
Qed.

Lemma alloc3_run s : match frees s with
  | i :: j :: k :: _ => alloc3_desc s = Ok (Some [i; j; k]) (take_desc k (take_desc j (take_desc i s)))
  | _ => exists s', alloc3_desc s = Ok None s' /\ cleaned [] s s'
  end.
Proof.
  unfold alloc3_desc. pose proof (cleaned_refl s) as C0. pose proof (alloc3_round 2 [] s s C0 ltac:(constructor) ltac:(constructor)) as R.
  destruct (frees s) as [|i l] eqn:E; [done|]. destruct (frees_cons s i l E) as ((Hi & Fi) & Ni & E1). rewrite R. cbn [app]. clear R.
  assert (C1 : cleaned [i] s (take_desc i s)) by by apply cleaned_take.
  pose proof (alloc3_round 1 [i] s _ C1 ltac:(repeat constructor; by intros ?%elem_of_nil) ltac:(repeat constructor; lia)) as R. rewrite E1 in R.
  destruct l as [|j l]; [done|]. destruct (frees_cons _ j l E1) as ((Hj & Fj) & Nj & E2). rewrite R. cbn [app]. clear R.
  assert (i <> j) by (intros ->; apply Ni; by left).
  assert (C2 : cleaned [i; j] s (take_desc j (take_desc i s))).
  { pose proof (cleaned_take _ _ _ j C1 Fj) as [D1 D2 D3 D4 D5 D6 D7]. split; try done.
    - intros x. rewrite D1. by rewrite (bool_decide_ext (x ∈ [j; i]) (x ∈ [i; j])) by (rewrite !elem_of_cons; naive_solver).
    - intros x Hx. apply D2. rewrite !elem_of_cons in *. naive_solver. }
  pose proof (alloc3_round 0 [i; j] s _ C2) as R. rewrite E2 in R.
  assert (N2 : NoDup [i; j]) by (repeat constructor; rewrite ?elem_of_cons, ?elem_of_nil; naive_solver).
  destruct l as [|k l]; [apply R; [done|repeat constructor; lia]|]. rewrite R; [done|done|repeat constructor; lia].
Qed.

(** ** The segments of [virtio_disk_rw] *)

Definition filled (b : nat) (w : bool) (i j k : Z) (s : vst) : vst :=
  let d := vd s in
  mk_vst (mk_disk
      (<[k := mk_desc (DStatus i) 1 VRING_DESC_F_WRITE 0]>
        (<[j := mk_desc (DData b) BSIZE (if w then 1 else 3) k]>
          (<[i := mk_desc (DOps i) sizeof_req VRING_DESC_F_NEXT j]> (desc d))))
      (av_idx d) (<[av_idx d mod NUM := i]> (av_ring d)) (us_idx d) (us_ring d)
      (<[k := false]> (<[j := false]> (<[i := false]> (free d)))) (used_idx d)
      (<[i := Some b]> (info_b d)) (<[i := 255]> (info_status d))
      (<[i := mk_req (if w then VIRTIO_BLK_T_OUT else VIRTIO_BLK_T_IN) 0 (u32 (vb_blockno (vbufs s b) * (BSIZE / 512)))]> (ops d)) true)
    (<[b := set_vb_disk 1 (vbufs s b)]> (vbufs s)) (v_asleep s) (v_dev s).

Lemma u16_desc i : 0 <= i < NUM -> u16 i = i.
Proof. intros. unfold u16, NUM in *. apply Z.mod_small. lia. Qed.

Lemma prepare_run b w s : vdisk_lock (vd s) = false ->
  match frees s with
  | i :: j :: k :: _ => rw_prepare b w s = Ok i (filled b w i j k s)
  | _ => exists s', rw_prepare b w s = Sleep ChDiskFree s' /\ cleaned [] s s'
  end.
Proof.
  intros Hl. set (s0 := set_vd s (set_vdisk_lock (vd s) true)). pose proof (alloc3_run s0) as R.
  assert (L : lock_vd s = Ok tt s0) by (unfold lock_vd, acquire, bind, get; by rewrite Hl).
  assert (Hgo : rw_prepare b w s = bind (r <- alloc3_desc ;; match r with Some idx => ret idx | None => unlock_vd ;;; sleep_on ChDiskFree end) (rw_fill b w) s0).
  { unfold rw_prepare, rw_alloc. rewrite bind_assoc. by rewrite (bind_ok _ _ _ _ _ L). }
  assert (Hfail : (exists s1, alloc3_desc s0 = Ok None s1 /\ cleaned [] s0 s1) -> exists s', rw_prepare b w s = Sleep ChDiskFree s' /\ cleaned [] s s').
  { intros (s1 & E & Hc). exists (set_vd s1 (set_vdisk_lock (vd s1) false)). rewrite Hgo, bind_assoc. rewrite (bind_ok _ _ _ _ _ E). split.
    - assert (Hk : vdisk_lock (vd s1) = true) by (pose proof (cl_rest _ _ _ Hc) as H; unfold rest in H; by inversion H).
      unfold bind, unlock_vd, release, get, bind. by rewrite Hk.
    - destruct Hc as [C1 C2 C3 C4 C5 C6 C7]. split; try done. unfold rest in *. cbn in *. rewrite Hl. by inversion C4. }
  change (frees s0) with (frees s) in R. pose proof (frees_cons s) as F.
  destruct (frees s) as [|i [|j [|k l]]] eqn:E; [by apply Hfail|by apply Hfail|by apply Hfail|]. clear Hfail.
  destruct (F i (j :: k :: l) eq_refl) as ((Hi & _) & _ & E1). destruct (frees_cons _ _ _ E1) as ((Hj & _) & _ & E2). destruct (frees_cons _ _ _ E2) as ((Hk & _) & _).
  rewrite Hgo, bind_assoc, (bind_ok _ _ _ _ _ R), bind_ret. unfold rw_fill, updd, updb, bind, get, modify, ret. cbn [nthz lookup default].
  change (nthz [i; j; k] 0) with i. change (nthz [i; j; k] 1) with j. change (nthz [i; j; k] 2) with k.
  rewrite !u16_desc by done. unfold filled. by destruct w.
Qed.

Record chain (d : disk) (bufs : nat -> vbuf) (b : nat) (w : bool) (i j k : Z) : Prop := {
  ch_i : desc d i = mk_desc (DOps i) sizeof_req VRING_DESC_F_NEXT j;
  ch_j : desc d j = mk_desc (DData b) BSIZE (if w then 1 else 3) k;
  ch_k : desc d k = mk_desc (DStatus i) 1 VRING_DESC_F_WRITE 0;
  ch_ops : ops d i = mk_req (if w then VIRTIO_BLK_T_OUT else VIRTIO_BLK_T_IN) 0 (vb_blockno (bufs b) * 2);
  ch_b : info_b d i = Some b;
  ch_ij : i <> j; ch_ik : i <> k; ch_jk : j <> k }.

Definition finished (i j k : Z) (s : vst) : vst :=
  let d := vd s in
  mk_vst (mk_disk (<[k := desc0]> (<[j := desc0]> (<[i := desc0]> (desc d)))) (av_idx d) (av_ring d) (us_idx d) (us_ring d)
      (<[k := true]> (<[j := true]> (<[i := true]> (free d)))) (used_idx d) (<[i := None]> (info_b d)) (info_status d) (ops d) false)
    (vbufs s) (woken ChDiskFree (woken ChDiskFree (woken ChDiskFree (v_asleep s)))) (v_dev s).

(** [free_chain] frees the three descriptors of a request. *)
Lemma free_chain_run s d bufs b w i j k : chain d bufs b w i j k -> desc (vd s) = desc d ->
  i < NUM -> j < NUM -> k < NUM -> free (vd s) i = false -> free (vd s) j = false -> free (vd s) k = false ->
  free_chain i s = Ok tt (drop_desc k (drop_desc j (drop_desc i s))).
Proof.
  intros [C1 C2 C3 _ _ N1 N2 N3] Ed Hi Hj Hk Fi Fj Fk. rewrite <- Ed in C1, C2, C3. unfold free_chain. change (S (Z.to_nat NUM)) with (S (S (S 6))). cbn [free_chain_loop].
  unfold bind at 1, get. rewrite (bind_ok _ _ _ _ _ (free_desc_run i s Hi Fi)). rewrite C1. cbn [d_flags d_next]. change (has VRING_DESC_F_NEXT VRING_DESC_F_NEXT) with true. cbv iota.
  assert (D1 : desc (vd (drop_desc i s)) j = desc (vd s) j) by (cbn; by rewrite fn_lookup_insert_ne).
  assert (D2 : desc (vd (drop_desc j (drop_desc i s))) k = desc (vd s) k) by (cbn; by rewrite !fn_lookup_insert_ne).
  assert (E1 : free_desc j (drop_desc i s) = Ok tt (drop_desc j (drop_desc i s))) by (apply free_desc_run; [done|]; cbn; by rewrite fn_lookup_insert_ne).
  assert (E2 : free_desc k (drop_desc j (drop_desc i s)) = Ok tt (drop_desc k (drop_desc j (drop_desc i s)))) by (apply free_desc_run; [done|]; cbn; by rewrite !fn_lookup_insert_ne).
  unfold bind at 1, get. rewrite (bind_ok _ _ _ _ _ E1). rewrite D1, C2. cbn [d_flags d_next].
  replace (has (if w then 1 else 3) VRING_DESC_F_NEXT) with true by by destruct w. cbv iota.
  unfold bind at 1, get. rewrite (bind_ok _ _ _ _ _ E2). by rewrite D2, C3.
Qed.

Lemma finish_run s b w i j k : vdisk_lock (vd s) = true -> vb_disk (vbufs s b) <> 1 -> chain (vd s) (vbufs s) b w i j k ->
  i < NUM -> j < NUM -> k < NUM -> free (vd s) i = false -> free (vd s) j = false -> free (vd s) k = false ->
  rw_finish b i s = Ok tt (finished i j k s).
Proof.
  intros Hl Hd Hc Hi Hj Hk Fi Fj Fk. unfold rw_finish. unfold bind at 1, get. destruct (Z.eqb_spec (vb_disk (vbufs s b)) 1) as [|_]; [done|].
  unfold bind at 1, updd, modify. set (s1 := set_vd s _).
  rewrite (bind_ok _ _ _ _ _ (free_chain_run s1 _ _ b w i j k Hc eq_refl Hi Hj Hk Fi Fj Fk)).
  unfold unlock_vd, release, bind, get. cbn. by rewrite Hl.
Qed.

(** ** The system

    Where a process is in [virtio_disk_rw]: not in it; before the allocation;
    before the available index is advanced, and before the test of [b->disk],
    both with the lock; waiting for [b->disk]. *)
Inductive vpc := VIdle | VAlloc (b : nat) (w : bool) | VPublish (b : nat) (w : bool) (i : Z) | VTest (b : nat) (w : bool) (i : Z) | VWait (b : nat) (w : bool) (i : Z).
(** [v_intr]: the interrupt handler is running, with the lock. *)
Record vsys := mk_vsys { vm : vst; v_pc : nat -> vpc; v_intr : bool }.

Definition buf_of (p : vpc) : option nat := match p with VIdle => None | VAlloc b _ | VPublish b _ _ | VTest b _ _ | VWait b _ _ => Some b end.
Definition req_of (p : vpc) : option (nat * bool * Z) := match p with VPublish b w i | VTest b w i | VWait b w i => Some (b, w, i) | _ => None end.
Definition published (p : vpc) : option (nat * bool * Z) := match p with VTest b w i | VWait b w i => Some (b, w, i) | _ => None end.
Definition crit (p : vpc) : bool := match p with VPublish _ _ _ | VTest _ _ _ => true | _ => false end.

(** The caller has filled in the buffer, which it owns. *)
Definition given (b : nat) (n : Z) (data : block) (s : vst) : vst :=
  mk_vst (vd s) (<[b := mk_vbuf n (vb_disk (vbufs s b)) data]> (vbufs s)) (v_asleep s) (v_dev s).
Definition sleeps (t : nat) (c : chan) (s : vst) : vst := mk_vst (vd s) (vbufs s) (<[t := Some c]> (v_asleep s)) (v_dev s).

(** What a process that waits does when it runs. *)
Definition resume (p : vpc) : option (M vst unit) :=
  match p with
  | VTest b _ i => Some (rw_finish b i)
  | VWait b _ i => Some (lock_vd ;;; rw_finish b i)
  | _ => None
  end.
Definition can_resume (s : vsys) (t : nat) : Prop :=
  match v_pc s t with VWait _ _ _ => v_asleep (vm s) t = None /\ vdisk_lock (vd (vm s)) = false | _ => True end.

Inductive event := ECall (t b : nat) (w : bool) (n : Z) (data : block) | EReturn (t b : nat) (data : block).

Section system.
Context {dv : VirtioDevice}.
Implicit Types (s : vsys) (m : vst) (t : nat).

(** What the callers see: a call, with the buffer they pass, and a return, with
    what the buffer then holds. *)
Inductive vstep s : option event -> vsys -> Prop :=
  | v_call t b w n data : v_pc s t = VIdle -> (forall t', buf_of (v_pc s t') <> Some b) -> 0 <= n < 2 ^ 31 -> length data = Z.to_nat BSIZE ->
      vstep s (Some (ECall t b w n data)) (mk_vsys (given b n data (vm s)) (<[t := VAlloc b w]> (v_pc s)) (v_intr s))
  | v_prepared t b w i m : v_pc s t = VAlloc b w -> v_asleep (vm s) t = None -> vdisk_lock (vd (vm s)) = false ->
      rw_prepare b w (vm s) = Ok i m -> vstep s None (mk_vsys m (<[t := VPublish b w i]> (v_pc s)) (v_intr s))
  | v_full t b w c m : v_pc s t = VAlloc b w -> v_asleep (vm s) t = None -> vdisk_lock (vd (vm s)) = false ->
      rw_prepare b w (vm s) = Sleep c m -> vstep s None (mk_vsys (sleeps t c m) (v_pc s) (v_intr s))
  | v_published t b w i m : v_pc s t = VPublish b w i -> rw_publish (vm s) = Ok tt m ->
      vstep s None (mk_vsys m (<[t := VTest b w i]> (v_pc s)) (v_intr s))
  | v_done t b w i r m : published (v_pc s t) = Some (b, w, i) -> resume (v_pc s t) = Some r -> can_resume s t -> r (vm s) = Ok tt m ->
      vstep s (Some (EReturn t b (vb_data (vbufs m b)))) (mk_vsys m (<[t := VIdle]> (v_pc s)) (v_intr s))
  | v_waits t b w i r c m : published (v_pc s t) = Some (b, w, i) -> resume (v_pc s t) = Some r -> can_resume s t -> r (vm s) = Sleep c m ->
      vstep s None (mk_vsys (sleeps t c m) (<[t := VWait b w i]> (v_pc s)) (v_intr s))
  | v_intr_enter m : vdisk_lock (vd (vm s)) = false -> lock_vd (vm s) = Ok tt m -> vstep s None (mk_vsys m (v_pc s) true)
  | v_intr_entry m : v_intr s = true -> used_idx (vd (vm s)) <> us_idx (vd (vm s)) -> intr_entry (vm s) = Ok tt m -> vstep s None (mk_vsys m (v_pc s) true)
  | v_intr_leave m : v_intr s = true -> used_idx (vd (vm s)) = us_idx (vd (vm s)) -> unlock_vd (vm s) = Ok tt m -> vstep s None (mk_vsys m (v_pc s) false)
  | v_device m : dev_step (vm s) m -> vstep s None (mk_vsys m (v_pc s) (v_intr s)).

Definition seen (e : option event) : list event := match e with Some x => [x] | None => [] end.
Inductive vrun (s0 : vsys) : list event -> vsys -> Prop :=
  | vr_refl : vrun s0 [] s0
  | vr_step tr s e s' : vrun s0 tr s -> vstep s e s' -> vrun s0 (tr ++ seen e) s'.

(** The state [virtio_disk_init] leaves. *)
Record vstart s : Prop := {
  vs_free : forall i, 0 <= i < NUM -> free (vd (vm s)) i = true;
  vs_idx : av_idx (vd (vm s)) = 0 /\ us_idx (vd (vm s)) = 0 /\ used_idx (vd (vm s)) = 0;
  vs_lock : vdisk_lock (vd (vm s)) = false /\ v_intr s = false;
  vs_idle : forall t, v_pc s t = VIdle /\ v_asleep (vm s) t = None;
  vs_dev : dv_last (v_dev (vm s)) = 0 /\ dv_pend (v_dev (vm s)) = [];
  vs_media : forall x, length (dv_media (v_dev (vm s)) x) = 512%nat;
  vs_bufs : forall b, length (vb_data (vbufs (vm s) b)) = Z.to_nat BSIZE /\ 0 <= vb_blockno (vbufs (vm s) b) < 2 ^ 31 }.

(** ** The invariant *)

Record locks_ok s : Prop := {
  lk_crit : forall t, crit (v_pc s t) = true -> vdisk_lock (vd (vm s)) = true /\ v_intr s = false;
  lk_one : forall t t', crit (v_pc s t) = true -> crit (v_pc s t') = true -> t = t';
  lk_intr : v_intr s = true -> vdisk_lock (vd (vm s)) = true }.

Record own_ok s (own : Z -> option nat) : Prop := {
  ow_free : forall i, 0 <= i < NUM -> (free (vd (vm s)) i = true <-> own i = None);
  ow_range : forall i t, own i = Some t -> 0 <= i < NUM;
  ow_req : forall t b w i, req_of (v_pc s t) = Some (b, w, i) ->
    exists j k, chain (vd (vm s)) (vbufs (vm s)) b w i j k /\ own i = Some t /\ own j = Some t /\ own k = Some t /\
      forall x, own x = Some t -> x = i \/ x = j \/ x = k;
  ow_has : forall x t, own x = Some t -> exists b w i, req_of (v_pc s t) = Some (b, w, i) }.

Abbreviation pend s := (dv_pend (v_dev (vm s))).
Abbreviation status s i := (info_status (vd (vm s)) i).
Abbreviation disk_flag s b := (vb_disk (vbufs (vm s) b)).

Record queue_ok s (aq uq : list Z) : Prop := {
  q_av : ring (av_ring (vd (vm s))) (dv_last (v_dev (vm s))) (av_idx (vd (vm s))) aq;
  q_us : ring (us_ring (vd (vm s))) (used_idx (vd (vm s))) (us_idx (vd (vm s))) uq;
  q_nodup : NoDup (aq ++ pend s ++ uq);
  q_in : forall h, h ∈ aq ++ pend s ++ uq -> exists t b w, published (v_pc s t) = Some (b, w, h);
  q_req : forall t b w i, published (v_pc s t) = Some (b, w, i) ->
    (disk_flag s b = 1 /\ status s i = 255 /\ i ∈ aq ++ pend s) \/
    (disk_flag s b = 1 /\ (reliable = true -> status s i = 0) /\ i ∈ uq) \/
    (disk_flag s b = 0 /\ status s i = 0 /\ i ∉ aq ++ pend s ++ uq);
  q_pub : forall t b w i, v_pc s t = VPublish b w i ->
    disk_flag s b = 1 /\ status s i = 255 /\ i ∉ aq ++ pend s ++ uq /\ av_ring (vd (vm s)) (av_idx (vd (vm s)) mod NUM) = i }.

Definition waits_for s t (c : chan) : Prop :=
  (exists b w, v_pc s t = VAlloc b w /\ c = ChDiskFree /\ (nfree (vm s) < 3)%nat) \/
  (exists b w i, v_pc s t = VWait b w i /\ c = ChDiskBuf b /\ disk_flag s b = 1).

Record data_ok s : Prop := {
  da_sleep : forall t c, v_asleep (vm s) t = Some c -> waits_for s t c;
  da_buf : forall t t' b, buf_of (v_pc s t) = Some b -> buf_of (v_pc s t') = Some b -> t = t';
  da_data : forall b, length (vb_data (vbufs (vm s) b)) = Z.to_nat BSIZE /\ 0 <= vb_blockno (vbufs (vm s) b) < 2 ^ 31;
  da_media : forall x, length (dv_media (v_dev (vm s)) x) = 512%nat }.

Record vinv s (own : Z -> option nat) (aq uq : list Z) : Prop := {
  vi_locks : locks_ok s; vi_own : own_ok s own; vi_queue : queue_ok s aq uq; vi_data : data_ok s }.

Lemma chain_frame d d' bufs bufs' b w i j k : chain d bufs b w i j k ->
  (forall x, x = i \/ x = j \/ x = k -> desc d' x = desc d x) -> ops d' i = ops d i -> info_b d' i = info_b d i ->
  vb_blockno (bufs' b) = vb_blockno (bufs b) -> chain d' bufs' b w i j k.
Proof using.
  intros [C1 C2 C3 C4 C5 C6 C7 C8] Hd Ho Hi Hb. split; try done; rewrite ?Ho, ?Hi, ?Hb, ?(Hd i), ?(Hd j), ?(Hd k) by auto; done.
Qed.

Lemma req_buf p b w i : req_of p = Some (b, w, i) -> buf_of p = Some b.
Proof using. by destruct p; intros [=]; subst. Qed.
Lemma published_req p b w i : published p = Some (b, w, i) -> req_of p = Some (b, w, i).
Proof using. by destruct p. Qed.

Lemma own_frame s s' own : own_ok s own ->
  (forall i, free (vd (vm s')) i = free (vd (vm s)) i) -> (forall i, free (vd (vm s)) i = false -> desc (vd (vm s')) i = desc (vd (vm s)) i) ->
  ops (vd (vm s')) = ops (vd (vm s)) -> info_b (vd (vm s')) = info_b (vd (vm s)) ->
  (forall b, vb_blockno (vbufs (vm s') b) = vb_blockno (vbufs (vm s) b) \/ forall t, buf_of (v_pc s t) <> Some b) ->
  (forall t, req_of (v_pc s' t) = req_of (v_pc s t)) -> own_ok s' own.
Proof using.
  intros [O1 O2 O3 O4] Hf Hd Ho Hi Hb Hp. split.
  - intros i Hr. by rewrite Hf, O1.
  - done.
  - intros t b w i H. rewrite Hp in H. destruct (O3 t b w i H) as (j & k & Hc & Ei & Ej & Ek & Hxs). exists j, k. split; [|done].
    assert (Hn : forall x, own x = Some t -> free (vd (vm s)) x = false).
    { intros x Hx. destruct (free (vd (vm s)) x) eqn:E; [|done]. apply O1 in E; [|by eapply O2]. congruence. }
    eapply chain_frame; [exact Hc|..]; [|by rewrite Ho|by rewrite Hi|].
    + intros x [->|[->| ->]]; by apply Hd, Hn.
    + destruct (Hb b) as [E|E]; [done|]. exfalso. by eapply E, req_buf.
  - intros x t Hx. rewrite Hp. by apply (O4 x).
Qed.

Lemma queue_frame s s' aq uq : queue_ok s aq uq ->
  av_idx (vd (vm s')) = av_idx (vd (vm s)) -> av_ring (vd (vm s')) = av_ring (vd (vm s)) ->
  us_idx (vd (vm s')) = us_idx (vd (vm s)) -> us_ring (vd (vm s')) = us_ring (vd (vm s)) -> used_idx (vd (vm s')) = used_idx (vd (vm s)) ->
  info_status (vd (vm s')) = info_status (vd (vm s)) -> v_dev (vm s') = v_dev (vm s) -> (forall b, disk_flag s' b = disk_flag s b) ->
  (forall t, published (v_pc s' t) = published (v_pc s t)) -> (forall t b w i, v_pc s' t = VPublish b w i -> v_pc s t = VPublish b w i) ->
  queue_ok s' aq uq.
Proof using.
  intros [Q1 Q2 Q3 Q4 Q5 Q6] E1 E2 E3 E4 E5 E6 E7 Hf Hp Hv. split; rewrite ?E1, ?E2, ?E3, ?E4, ?E5, ?E6, ?E7; try done.
  - intros h Hh. destruct (Q4 h Hh) as (t & b & w & H). exists t, b, w. by rewrite Hp.
  - intros t b w i H. rewrite Hp in H. rewrite Hf. by apply (Q5 t b w i).
  - intros t b w i H. rewrite Hf. by apply (Q6 t b w i), Hv.
Qed.

(** A sleeper goes on waiting when neither its place nor its event moves. *)
Lemma waits_frame s s' t c : waits_for s t c -> v_pc s' t = v_pc s t -> (nfree (vm s') <= nfree (vm s))%nat ->
  (forall b, disk_flag s b = 1 -> disk_flag s' b = 1) -> waits_for s' t c.
Proof using.
  intros [(b & w & H1 & H2 & H3)|(b & w & i & H1 & H2 & H3)] Hp Hn Hf; [left|right]; rewrite Hp.
  - exists b, w. split_and!; [done|done|lia].
  - exists b, w, i. split_and!; [done|done|by apply Hf].
Qed.

(** A process that moves keeps its buffer to itself. *)
Lemma buf_upd (pc : nat -> vpc) t p : (forall t1 t2 b, buf_of (pc t1) = Some b -> buf_of (pc t2) = Some b -> t1 = t2) ->
  buf_of p = buf_of (pc t) \/ buf_of p = None ->
  forall t1 t2 b, buf_of (<[t := p]> pc t1) = Some b -> buf_of (<[t := p]> pc t2) = Some b -> t1 = t2.
Proof using.
  intros H Hp t1 t2 b. rewrite !fn_ins. destruct Hp as [E|E]; repeat case_decide; rewrite ?E; intros; subst; by first [done|eapply H].
Qed.

Lemma nfree_mono m m' : (forall i, free (vd m') i = true -> free (vd m) i = true) -> (nfree m' <= nfree m)%nat.
Proof using.
  intros H. unfold nfree, frees. induction (seqZ 0 NUM) as [|i l IH]; [done|]. cbn [List.filter].
  destruct (free (vd m') i) eqn:E'; [rewrite (H i E'); cbn [length]; lia|]. destruct (free (vd m) i); cbn [length]; lia.
Qed.

(** A step that only the driver notices: requests in progress keep their
    status, buffers and disk their contents. *)
Record quiet (own : Z -> option nat) m m' : Prop := {
  qt_status : forall x t, own x = Some t -> info_status (vd m') x = info_status (vd m) x;
  qt_bufs : forall b, vb_blockno (vbufs m' b) = vb_blockno (vbufs m b) /\ vb_data (vbufs m' b) = vb_data (vbufs m b);
  qt_dev : v_dev m' = v_dev m }.

Section inv.
Context (s : vsys) (own : Z -> option nat) (aq uq : list Z) (I : vinv s own aq uq).

Lemma own_unique t t' b w b' w' i : req_of (v_pc s t) = Some (b, w, i) -> req_of (v_pc s t') = Some (b', w', i) -> t = t'.
Proof using I.
  intros H H'. destruct (ow_req _ _ (vi_own _ _ _ _ I) _ _ _ _ H) as (? & ? & _ & E & _). destruct (ow_req _ _ (vi_own _ _ _ _ I) _ _ _ _ H') as (? & ? & _ & E' & _). congruence.
Qed.

Lemma heads_range h : h ∈ aq ++ pend s ++ uq -> 0 <= h < NUM.
Proof using I.
  intros Hh. destruct (q_in _ _ _ (vi_queue _ _ _ _ I) h Hh) as (t & b & w & H%published_req).
  destruct (ow_req _ _ (vi_own _ _ _ _ I) _ _ _ _ H) as (? & ? & _ & E & _). by eapply ow_range; [apply I|].
Qed.

Lemma heads_short i : 0 <= i < NUM -> i ∉ aq ++ pend s ++ uq -> Z.of_nat (length (aq ++ pend s ++ uq)) < NUM.
Proof using I.
  intros Hi Hn. pose proof (short_heads (i :: aq ++ pend s ++ uq)) as H. cbn [length] in H. enough (Z.of_nat (S (length (aq ++ pend s ++ uq))) <= NUM) by lia.
  apply H; [constructor; [done|]; apply (q_nodup _ _ _ (vi_queue _ _ _ _ I))|]. constructor; [done|]. apply list.Forall_forall. apply heads_range.
Qed.

Lemma owned_false x t : own x = Some t -> free (vd (vm s)) x = false.
Proof using I.
  intros Hx. destruct (free (vd (vm s)) x) eqn:E; [|done]. apply (ow_free _ _ (vi_own _ _ _ _ I)) in E; [congruence|]. by eapply ow_range; [apply I|].
Qed.

Lemma call_inv t b w n data : v_pc s t = VIdle -> (forall t', buf_of (v_pc s t') <> Some b) -> 0 <= n < 2 ^ 31 -> length data = Z.to_nat BSIZE ->
  vinv (mk_vsys (given b n data (vm s)) (<[t := VAlloc b w]> (v_pc s)) (v_intr s)) own aq uq.
Proof using I.
  intros Hp Hb Hn Hd. destruct I as [[L1 L2 L3] O Q [D1 D2 D3 D4]].
  assert (Hpc : forall t', t' <> t -> (<[t := VAlloc b w]> (v_pc s)) t' = v_pc s t') by (intros t' Ht; by rewrite fn_lookup_insert_ne).
  split.
  - split; cbn [vm v_pc v_intr]; [| |done].
    + intros t'. rewrite fn_ins. case_decide; [done|]. apply L1.
    + intros t1 t2. rewrite !fn_ins. case_decide; [done|]. case_decide; [done|]. apply L2.
  - apply (own_frame s); try done; cbn [vm v_pc given vbufs].
    + intros b'. rewrite fn_ins. case_decide as E; [subst; by right|by left].
    + intros t'. rewrite fn_ins. case_decide as E; [|done]. by rewrite <- E, Hp.
  - apply (queue_frame s); try done; cbn [vm v_pc given vbufs].
    + intros b'. rewrite fn_ins. case_decide as E; [by subst|done].
    + intros t'. rewrite fn_ins. case_decide as E; [|done]. by rewrite <- E, Hp.
    + intros t' b' w' i. rewrite fn_ins. by case_decide.
  - split; cbn [vm v_pc given vbufs v_asleep v_dev]; [| | |done].
    + intros t' c Hs. specialize (D1 t' c Hs). apply (waits_frame s); [done| |done|].
      * cbn. rewrite fn_ins. case_decide as E; [|done]. subst t'. destruct D1 as [(? & ? & ? & _)|(? & ? & ? & ? & _)]; congruence.
      * intros b'. cbn. rewrite fn_ins. by case_decide as E; [subst|].
    + intros t1 t2 b'. rewrite !fn_ins. repeat case_decide; cbn; intros; simplify_eq; first [done|by exfalso; eapply Hb|by eapply D2].
    + intros b'. rewrite fn_ins. by case_decide.
Qed.

(** Three descriptors that were free get an owner. *)
Definition given3 (i j k : Z) (o : option nat) : Z -> option nat := <[k := o]> (<[j := o]> (<[i := o]> own)).

Lemma filled_own t b w i j k : v_pc s t = VAlloc b w -> i <> j -> i <> k -> j <> k ->
  (forall x, x = i \/ x = j \/ x = k -> 0 <= x < NUM /\ own x = None) ->
  own_ok (mk_vsys (filled b w i j k (vm s)) (<[t := VPublish b w i]> (v_pc s)) (v_intr s)) (given3 i j k (Some t)).
Proof using I.
  intros Hp Hij Hik Hjk Hx. destruct I as [_ [O1 O2 O3 O4] _ [_ D2 D3 _]].
  destruct (Hx i) as [Ri Fi]; [auto|]. destruct (Hx j) as [Rj Fj]; [auto|]. destruct (Hx k) as [Rk Fk]; [auto|]. split; cbn [vm v_pc].
  - intros x Hr. unfold given3. cbn [filled vd free]. rewrite !fn_ins. repeat case_decide; try (split; congruence). by apply O1.
  - intros x t'. unfold given3. rewrite !fn_ins. repeat case_decide; try (intros; congruence || (subst; done)). apply O2.
  - intros t' b' w' i'. rewrite fn_ins. case_decide as E.
    + intros [= <- <- <-]. subst t'. exists j, k. unfold given3. split.
      2:{ rewrite !fn_ins. split_and!; [by repeat case_decide..|]. intros x. rewrite !fn_ins. repeat case_decide; auto. intros Hox. destruct (O4 x t Hox) as (? & ? & ? & H'). by rewrite Hp in H'. }
      split; try done; cbn [filled vd desc ops info_b]; rewrite ?fn_ins; repeat case_decide; try congruence.
      f_equal. cbn [filled vbufs]. rewrite ?fn_lookup_insert. cbn [set_vb_disk vb_blockno]. apply u32_small. specialize (D3 b). change (BSIZE / 512) with 2. lia.
    + intros H. destruct (O3 t' b' w' i' H) as (j' & k' & Hc & Ei & Ej & Ek & Ho). exists j', k'.
      assert (Hne : forall x, own x = Some t' -> x <> i /\ x <> j /\ x <> k) by (intros x Hx'; split_and!; intros ->; congruence).
      split.
      * eapply chain_frame; [exact Hc|..]; cbn [filled vd desc ops info_b vbufs].
        -- intros x Hx'. assert (own x = Some t') as (N1 & N2 & N3)%Hne by (destruct Hx' as [->|[->| ->]]; done). by rewrite !fn_lookup_insert_ne.
        -- apply fn_lookup_insert_ne. by apply not_eq_sym, (Hne i').
        -- apply fn_lookup_insert_ne. by apply not_eq_sym, (Hne i').
        -- rewrite fn_ins. case_decide as Eb; [by subst|done].
      * unfold given3. destruct (Hne i' Ei) as (? & ? & ?), (Hne j' Ej) as (? & ? & ?), (Hne k' Ek) as (? & ? & ?). split_and!; [by rewrite !fn_lookup_insert_ne..|].
        intros x. rewrite !fn_ins. repeat case_decide; [congruence..|]. apply Ho.
  - intros x t'. unfold given3. rewrite !fn_ins. intros H. destruct (decide (t = t')) as [E|E]; [by exists b, w, i|].
    apply (O4 x). repeat case_decide; congruence.
Qed.

Lemma no_crit t : vdisk_lock (vd (vm s)) = false -> crit (v_pc s t) = false.
Proof using I. intros Hl. destruct (crit (v_pc s t)) eqn:E; [|done]. destruct (lk_crit _ (vi_locks _ _ _ _ I) t E). congruence. Qed.

Lemma no_intr : vdisk_lock (vd (vm s)) = false -> v_intr s = false.
Proof using I. intros Hl. destruct (v_intr s) eqn:E; [|done]. pose proof (lk_intr _ (vi_locks _ _ _ _ I) E). congruence. Qed.

Lemma prepared_inv t b w i m : v_pc s t = VAlloc b w -> v_asleep (vm s) t = None -> vdisk_lock (vd (vm s)) = false -> rw_prepare b w (vm s) = Ok i m ->
  exists own', vinv (mk_vsys m (<[t := VPublish b w i]> (v_pc s)) (v_intr s)) own' aq uq /\ quiet own (vm s) m.
Proof using I.
  intros Hp Ha Hl Hr. pose proof (prepare_run b w (vm s) Hl) as R. pose proof (frees_cons (vm s)) as F.
  destruct (frees (vm s)) as [|i' [|j [|k l]]]; [by destruct R as (? & ? & _); congruence..|]. rewrite R in Hr. injection Hr as <- <-. rename i' into i.
  destruct (F i (j :: k :: l) eq_refl) as ((Ri & Fi) & Ni & E1). destruct (frees_cons _ _ _ E1) as ((Rj & Fj) & Nj & E2). destruct (frees_cons _ _ _ E2) as ((Rk & Fk) & _).
  apply not_elem_of_cons in Ni as [Hij [Hik _]%not_elem_of_cons]. apply not_elem_of_cons in Nj as [Hjk _].
  cbn [take_desc set_vd vd set_free free] in Fj, Fk. rewrite fn_lookup_insert_ne in Fj by done. rewrite !fn_lookup_insert_ne in Fk by done.
  assert (Hx : forall x, x = i \/ x = j \/ x = k -> 0 <= x < NUM /\ own x = None).
  { intros x Hx. assert (Hf : 0 <= x < NUM /\ free (vd (vm s)) x = true) by (destruct Hx as [->|[->| ->]]; done).
    destruct Hf as [Hr Hf]. split; [done|]. by apply (ow_free _ _ (vi_own _ _ _ _ I)). }
  assert (Hni : i ∉ aq ++ pend s ++ uq).
  { intros Hi. destruct (q_in _ _ _ (vi_queue _ _ _ _ I) i Hi) as (t' & b' & w' & H%published_req).
    destruct (ow_req _ _ (vi_own _ _ _ _ I) _ _ _ _ H) as (? & ? & _ & E & _). destruct (Hx i) as [_ ?]; [by left|]. congruence. }
  pose proof (heads_short i Ri Hni) as Hs. rewrite length_app in Hs.
  exists (given3 i j k (Some t)). split.
  2:{ split; cbn; [|intros b'; rewrite fn_ins; by case_decide; [subst|]|done]. intros x t' Hx'. rewrite fn_ins. case_decide; [|done]. subst x. destruct (Hx i) as [_ ?]; [by left|]. congruence. }
  split; [|by apply filled_own| |]; destruct I as [[L1 L2 L3] [O1 O2 O3 O4] [Q1 Q2 Q3 Q4 Q5 Q6] [D1 D2 D3 D4]].
  - split; cbn [vm v_pc v_intr filled vd vdisk_lock].
    + intros t' _. split; [done|by apply no_intr].
    + intros t1 t2. rewrite !fn_ins. repeat case_decide; intros; subst; try done; by (rewrite no_crit in * by done).
    + done.
  - split; cbn [vm v_pc filled vd av_ring av_idx us_ring us_idx used_idx v_dev info_status vbufs]; [apply ring_set; [done|lia]|done|done| | |].
    + intros h Hh. destruct (Q4 h Hh) as (t' & b' & w' & H). exists t', b', w'. rewrite fn_ins. case_decide as E; [|done]. subst t'. by rewrite Hp in H.
    + intros t' b' w' i'. rewrite !fn_ins. case_decide as E; [done|]. intros H. pose proof (published_req _ _ _ _ H) as H'.
      rewrite (decide_False (P := b = b')).
      2:{ intros <-. apply E, (D2 _ _ b); [by rewrite Hp|by eapply req_buf]. }
      rewrite (decide_False (P := i = i')).
      2:{ intros <-. destruct (O3 _ _ _ _ H') as (? & ? & _ & Ei & _). destruct (Hx i) as [_ ?]; [by left|]. congruence. }
      by apply (Q5 t' b' w').
    + intros t' b' w' i'. rewrite !fn_ins. case_decide as E; [|intros H; pose proof (no_crit t' Hl) as Hc; by rewrite H in Hc].
      intros [= <- <- <-]. repeat case_decide; try done.
  - split; cbn [vm v_pc filled vbufs v_asleep v_dev]; [| | |done].
    + intros t' c Hs'. apply (waits_frame s); [by apply D1| | |]; cbn [vm v_pc filled vbufs].
      * rewrite fn_ins. case_decide; [|done]. subst. congruence.
      * apply nfree_mono. intros x. cbn. rewrite !fn_ins. by repeat case_decide.
      * intros b'. rewrite fn_ins. by case_decide.
    + apply buf_upd; [done|]. left. by rewrite Hp.
    + intros b'. rewrite fn_ins. case_decide; [subst|done]. apply D3.
Qed.

Lemma full_inv t b w c m : v_pc s t = VAlloc b w -> vdisk_lock (vd (vm s)) = false -> rw_prepare b w (vm s) = Sleep c m ->
  vinv (mk_vsys (sleeps t c m) (v_pc s) (v_intr s)) own aq uq /\ quiet own (vm s) m.
Proof using I.
  intros Hp Hl Hr. pose proof (prepare_run b w (vm s) Hl) as R.
  assert (Hm : c = ChDiskFree /\ cleaned [] (vm s) m /\ (nfree (vm s) < 3)%nat).
  { unfold nfree. destruct (frees (vm s)) as [|i' [|j [|k l]]]; try congruence; destruct R as (s' & R & Hc); rewrite R in Hr; injection Hr as <- <-; (split_and!; [done|done|cbn; lia]). }
  destruct Hm as (-> & [C1 C2 C3 C4 C5 C6 C7] & Hn). assert (Hf : forall i, free (vd m) i = free (vd (vm s)) i) by (intros i; by rewrite C1).
  unfold rest in C4. simplify_eq C4. intros E1 E2 E3 E4 E5 E6 E7 E8 E9. destruct I as [[L1 L2 L3] O Q [D1 D2 D3 D4]].
  split; [|split; [by rewrite E7|by rewrite C5|done]]. split.
  - split; cbn [vm v_pc v_intr sleeps vd]; rewrite ?E9; done.
  - apply (own_frame s); try done. cbn. rewrite C5. by left.
  - apply (queue_frame s); try done. cbn. by rewrite C5.
  - split; cbn [vm v_pc sleeps vbufs v_dev v_asleep]; rewrite ?C5, ?C6; try done.
    intros t' c. rewrite fn_ins. assert (Hnf : (nfree (sleeps t ChDiskFree m) <= nfree (vm s))%nat) by (apply nfree_mono; intros i; cbn; by rewrite Hf).
    case_decide as E; [intros [= <-]; subst t'; left; exists b, w; split_and!; [done|done|cbn [vm]; lia]|].
    intros Ha%C7. apply (waits_frame s); [by apply D1|done|done|]. cbn. by rewrite C5.
Qed.

Lemma published_inv t b w i m : v_pc s t = VPublish b w i -> rw_publish (vm s) = Ok tt m ->
  vinv (mk_vsys m (<[t := VTest b w i]> (v_pc s)) (v_intr s)) own (aq ++ [i]) uq.
Proof using I.
  intros Hp [= <-]. destruct (ow_req _ _ (vi_own _ _ _ _ I) t b w i) as (j & k & _ & Ei & _); [by rewrite Hp|].
  pose proof (ow_range _ _ (vi_own _ _ _ _ I) _ _ Ei) as Ri. destruct (q_pub _ _ _ (vi_queue _ _ _ _ I) _ _ _ _ Hp) as (P1 & P2 & P3 & P4).
  pose proof (heads_short i Ri P3) as Hs. rewrite length_app in Hs. pose proof own_unique as Hu.
  destruct I as [[L1 L2 L3] O [Q1 Q2 Q3 Q4 Q5 Q6] [D1 D2 D3 D4]].
  assert (Hin : forall h, h ∈ (aq ++ [i]) ++ pend s ++ uq <-> h = i \/ h ∈ aq ++ pend s ++ uq) by (intros h; rewrite !elem_of_app, list_elem_of_singleton; tauto).
  assert (Hin1 : forall h, h ∈ (aq ++ [i]) ++ pend s <-> h = i \/ h ∈ aq ++ pend s) by (intros h; rewrite !elem_of_app, list_elem_of_singleton; tauto).
  split.
  - split; cbn [vm v_pc v_intr set_vd vd set_avail vdisk_lock]; [| |done].
    + intros t'. rewrite fn_ins. case_decide as E; [intros _; apply (L1 t); by rewrite Hp|apply L1].
    + intros t1 t2. rewrite !fn_ins. repeat case_decide; intros; subst; try done; first [by apply L2|apply L2; [done|by rewrite Hp]|apply L2; [by rewrite Hp|done]].
  - apply (own_frame s); try done; [by left|]. cbn. intros t'. rewrite fn_ins. case_decide as E; [|done]. by rewrite <- E, Hp.
  - split; cbn [vm v_pc set_vd vd set_avail av_ring av_idx us_ring us_idx used_idx v_dev info_status vbufs]; [apply ring_grow; [done|lia|done]|done| | | |].
    + rewrite <- app_assoc. cbn [app]. apply (NoDup_Permutation_proper _ (i :: aq ++ pend s ++ uq)); [symmetry; apply Permutation_middle|]. by constructor.
    + intros h [->|Hh]%Hin; [exists t, b, w; by rewrite fn_lookup_insert|]. destruct (Q4 h Hh) as (t' & b' & w' & H). exists t', b', w'. rewrite fn_ins. case_decide as E; [|done]. subst t'. by rewrite Hp in H.
    + intros t' b' w' i'. rewrite fn_ins. case_decide as E.
      * intros [= <- <- <-]. left. split_and!; [done|done|]. apply Hin1. by left.
      * intros H. destruct (Q5 t' b' w' i' H) as [(A1 & A2 & A3)|[A|(A1 & A2 & A3)]]; [left|right; by left|right; right]; (split_and!; [done|done|]).
        -- apply Hin1. by right.
        -- intros [->|Hh]%Hin; [|done]. apply E. by eapply Hu; [rewrite Hp|apply published_req].
    + intros t' b' w' i'. rewrite fn_ins. case_decide as E; [done|]. intros H. exfalso. apply E, L2; [by rewrite Hp|by rewrite H].
  - split; cbn [vm v_pc set_vd vbufs v_dev v_asleep]; try done.
    + intros t' c Ha. specialize (D1 t' c Ha). apply (waits_frame s); [done| |done|done]. cbn. rewrite fn_ins. case_decide; [|done]. subst t'.
      destruct D1 as [(? & ? & ? & _)|(? & ? & ? & ? & _)]; congruence.
    + apply buf_upd; [done|]. left. by rewrite Hp.
Qed.

(** A process that goes on holds the lock and tests [b->disk]. *)
Definition with_lock (m : vst) : vst := set_vd m (set_vdisk_lock (vd m) true).
Lemma resume_run t b w i r : published (v_pc s t) = Some (b, w, i) -> resume (v_pc s t) = Some r -> can_resume s t ->
  r (vm s) = rw_finish b i (with_lock (vm s)) /\ v_intr s = false /\ (forall t', crit (v_pc s t') = true -> t' = t).
Proof using I.
  intros Hp Hr Hc. unfold can_resume in Hc. destruct I as [[L1 L2 L3] _ _ _]. pose proof no_intr as Hni. pose proof no_crit as Hnc.
  destruct (v_pc s t) as [| | |b' w' i'|b' w' i'] eqn:E; try done; cbn in Hp, Hr; simplify_eq.
  - destruct (L1 t) as [Hl Hi]; [by rewrite E|]. split_and!; [|done|intros t' Ht; apply L2; [done|by rewrite E]].
    f_equal. unfold with_lock. destruct (vm s) as [d ? ? ?]. cbn in *. unfold set_vd. f_equal. cbn. destruct d. cbn in *. by subst.
  - destruct Hc as [_ Hl]. split_and!; [|by apply Hni|intros t' Ht; by rewrite (Hnc t' Hl) in Ht].
    unfold bind, lock_vd, acquire, bind, get. by rewrite Hl.
Qed.

Lemma finished_own t b w i j k : req_of (v_pc s t) = Some (b, w, i) -> chain (vd (vm s)) (vbufs (vm s)) b w i j k ->
  own i = Some t -> own j = Some t -> own k = Some t -> (forall x, own x = Some t -> x = i \/ x = j \/ x = k) ->
  own_ok (mk_vsys (finished i j k (vm s)) (<[t := VIdle]> (v_pc s)) (v_intr s)) (given3 i j k None).
Proof using I.
  intros Hp Hc Ei Ej Ek Ho. destruct I as [_ [O1 O2 O3 O4] _ _]. split; cbn [vm v_pc].
  - intros x Hr. unfold given3. cbn [finished vd free]. rewrite !fn_ins. repeat case_decide; try done. by apply O1.
  - intros x t'. unfold given3. rewrite !fn_ins. repeat case_decide; try done. apply O2.
  - intros t' b' w' i'. rewrite fn_ins. case_decide as E; [done|]. intros H. destruct (O3 t' b' w' i' H) as (j' & k' & Hc' & Ei' & Ej' & Ek' & Ho'). exists j', k'.
    assert (Hne : forall x, own x = Some t' -> x <> i /\ x <> j /\ x <> k) by (intros x Hx'; split_and!; intros ->; congruence). split.
    + eapply chain_frame; [exact Hc'|..]; cbn [finished vd desc ops info_b vbufs]; [|done| |done].
      * intros x Hx'. assert (own x = Some t') as (N1 & N2 & N3)%Hne by (destruct Hx' as [->|[->| ->]]; done). by rewrite !fn_lookup_insert_ne.
      * apply fn_lookup_insert_ne. by apply not_eq_sym, (Hne i').
    + unfold given3. destruct (Hne i' Ei') as (? & ? & ?), (Hne j' Ej') as (? & ? & ?), (Hne k' Ek') as (? & ? & ?). split_and!; [by rewrite !fn_lookup_insert_ne..|].
      intros x. rewrite !fn_ins. repeat case_decide; [done..|]. apply Ho'.
  - intros x t'. unfold given3. rewrite !fn_ins. intros H. repeat case_decide; try done.
    + subst t'. exfalso. destruct (Ho x H) as [->|[->| ->]]; done.
    + by apply (O4 x).
Qed.

Lemma done_inv t b w i r m : published (v_pc s t) = Some (b, w, i) -> resume (v_pc s t) = Some r -> can_resume s t -> r (vm s) = Ok tt m ->
  exists own', vinv (mk_vsys m (<[t := VIdle]> (v_pc s)) (v_intr s)) own' aq uq /\ status s i = 0 /\ quiet own (vm s) m.
Proof using I.
  intros Hp Hr Hc Hm. destruct (resume_run t b w i r Hp Hr Hc) as (R & Hi & Hcr). rewrite R in Hm. pose proof (published_req _ _ _ _ Hp) as Hq.
  destruct (ow_req _ _ (vi_own _ _ _ _ I) _ _ _ _ Hq) as (j & k & Hch & Ei & Ej & Ek & Ho). pose proof (ow_range _ _ (vi_own _ _ _ _ I)) as Hrg.
  assert (Hd : disk_flag s b <> 1).
  { intros Hd. unfold rw_finish, bind, get in Hm. cbn [with_lock set_vd vbufs] in Hm. by rewrite Hd in Hm. }
  rewrite (finish_run (with_lock (vm s)) b w i j k) in Hm; [|first [done|by eapply chain_frame|by eapply Hrg|by eapply owned_false]..]. injection Hm as <-.
  destruct (q_req _ _ _ (vi_queue _ _ _ _ I) _ _ _ _ Hp) as [(? & _)|[(? & _)|(Hd0 & Hs0 & Hni)]]; [done|done|].
  exists (given3 i j k None). split; [|done]. split; [|by apply (finished_own t b w)| |]; destruct I as [[L1 L2 L3] _ [Q1 Q2 Q3 Q4 Q5 Q6] [D1 D2 D3 D4]].
  - split; cbn [vm v_pc v_intr]; [| |by rewrite Hi].
    + intros t'. rewrite fn_ins. case_decide as E; [done|]. intros Ht. exfalso. by apply E, eq_sym, Hcr.
    + intros t1 t2. rewrite !fn_ins. repeat case_decide; try done. apply L2.
  - split; cbn [vm v_pc finished vd av_ring av_idx us_ring us_idx used_idx v_dev info_status vbufs]; try done.
    + intros h Hh. destruct (Q4 h Hh) as (t' & b' & w' & H). exists t', b', w'. rewrite fn_ins. case_decide as E; [|done]. subst t'. exfalso. rewrite Hp in H. by simplify_eq.
    + intros t' b' w' i'. rewrite fn_ins. case_decide; [done|]. apply Q5.
    + intros t' b' w' i'. rewrite fn_ins. case_decide; [done|]. apply Q6.
  - split; cbn [vm v_pc finished vbufs v_dev v_asleep]; try done.
    + intros t' c [[[Ha Hne]%woken_asleep _]%woken_asleep _]%woken_asleep. specialize (D1 t' c Ha). destruct D1 as [(? & ? & _ & ? & _)|(b' & w' & i' & H1 & H2 & H3)]; [done|].
      right. exists b', w', i'. cbn [v_pc vm]. rewrite fn_ins. split_and!; [|done|done]. case_decide as E; [|done]. subst t'. rewrite H1 in Hp. cbn in Hp. by simplify_eq.
    + apply buf_upd; [done|by right].
Qed.

Lemma waits_inv t b w i r c m : published (v_pc s t) = Some (b, w, i) -> resume (v_pc s t) = Some r -> can_resume s t -> r (vm s) = Sleep c m ->
  vinv (mk_vsys (sleeps t c m) (<[t := VWait b w i]> (v_pc s)) (v_intr s)) own aq uq /\ quiet own (vm s) m.
Proof using I.
  intros Hp Hr Hc Hm. destruct (resume_run t b w i r Hp Hr Hc) as (R & Hi & Hcr). rewrite R in Hm. pose proof (published_req _ _ _ _ Hp) as Hq.
  assert (Hd : disk_flag s b = 1).
  { destruct (decide (disk_flag s b = 1)) as [|Hd]; [done|]. exfalso. destruct (ow_req _ _ (vi_own _ _ _ _ I) _ _ _ _ Hq) as (j & k & Hch & Ei & Ej & Ek & Ho).
    rewrite (finish_run (with_lock (vm s)) b w i j k) in Hm; [done|first [done|by eapply chain_frame|by eapply (ow_range _ _ (vi_own _ _ _ _ I))|by eapply owned_false]..]. }
  unfold rw_finish, bind, get in Hm. cbn [with_lock set_vd vbufs] in Hm. rewrite Hd in Hm. cbn in Hm. injection Hm as <- <-.
  split; [|done]. destruct I as [[L1 L2 L3] O Q [D1 D2 D3 D4]]. split.
  - split; cbn [vm v_pc v_intr]; [| |by rewrite Hi].
    + intros t'. rewrite fn_ins. case_decide as E; [done|]. intros Ht. exfalso. by apply E, eq_sym, Hcr.
    + intros t1 t2. rewrite !fn_ins. repeat case_decide; try done. apply L2.
  - apply (own_frame s); try done; [by left|]. intros t'. cbn. rewrite fn_ins. case_decide as E; [|done]. by rewrite <- E, Hq.
  - apply (queue_frame s); try done; intros t'; cbn.
    + rewrite fn_ins. case_decide as E; [|done]. by rewrite <- E, Hp.
    + intros b' w' i'. rewrite fn_ins. by case_decide.
  - split; cbn [vm v_pc sleeps set_vd vbufs v_dev v_asleep]; try done.
    + intros t' c. rewrite fn_ins. case_decide as E.
      * intros [= <-]. right. exists b, w, i. cbn. subst t'. by rewrite fn_lookup_insert.
      * intros Ha. apply (waits_frame s); [by apply D1| |done|done]. cbn. by rewrite fn_lookup_insert_ne.
    + apply buf_upd; [done|]. left. symmetry. by eapply req_buf.
Qed.
End inv.
End system.
