(* ===== verification/VirtioDisk.v ===== *)
(** * The virtio driver refines an atomic disk

    The steps of the interrupt handler and of the device keep the invariant of
    VirtioSpec; the refinement, and what every reachable state guarantees. *)

From stdpp Require Import functions base gmap numbers strings list.
From Stdlib Require Import ZArith Lia.
From S2P Require Import Prelude Riscv Mem Spinlock Kalloc Disk Sdhci Virtio VirtioSpec.
Open Scope Z_scope.
Open Scope kernel_scope.

Abbreviation pend s := (dv_pend (v_dev (vm s))).
Abbreviation status s i := (info_status (vd (vm s)) i).
Abbreviation disk_flag s b := (vb_disk (vbufs (vm s) b)).

Section steps.
Context {dv : VirtioDevice} (s : vsys) (own : Z -> option nat) (aq uq : list Z) (I : vinv s own aq uq).
Implicit Types (m : vst) (t : nat).

Lemma intr_enter_inv m : vdisk_lock (vd (vm s)) = false -> lock_vd (vm s) = Ok tt m -> vinv (mk_vsys m (v_pc s) true) own aq uq.
Proof using I.
  intros Hl Hm. unfold lock_vd, acquire, bind, get, put in Hm. rewrite Hl in Hm. injection Hm as <-. pose proof (fun t => no_crit s own aq uq I t Hl) as Hn.
  destruct I as [[L1 L2 L3] O Q [D1 D2 D3 D4]]. split.
  - split; cbn [v_pc v_intr]; [intros t Ht; by rewrite Hn in Ht|done|done].
  - apply (own_frame s); try done. by left.
  - by apply (queue_frame s).
  - by split.
Qed.

Lemma intr_leave_inv m : v_intr s = true -> unlock_vd (vm s) = Ok tt m -> vinv (mk_vsys m (v_pc s) false) own aq uq.
Proof using I.
  intros Hi Hm. destruct I as [[L1 L2 L3] O Q [D1 D2 D3 D4]]. unfold unlock_vd, release, bind, get, put in Hm. rewrite (L3 Hi) in Hm. injection Hm as <-. split.
  - split; cbn [v_pc v_intr]; [|done|done]. intros t Ht. destruct (L1 t Ht). congruence.
  - apply (own_frame s); try done. by left.
  - by apply (queue_frame s).
  - by split.
Qed.

(** The next entry of the used ring is a request the device is done with. *)
Lemma next_used : used_idx (vd (vm s)) <> us_idx (vd (vm s)) ->
  exists h uq' t b w, uq = h :: uq' /\ us_ring (vd (vm s)) (used_idx (vd (vm s)) mod NUM) = h /\
    ring (us_ring (vd (vm s))) (u16 (used_idx (vd (vm s)) + 1)) (us_idx (vd (vm s))) uq' /\
    published (v_pc s t) = Some (b, w, h) /\ (reliable = true -> status s h = 0) /\ info_b (vd (vm s)) h = Some b.
Proof using I.
  intros Hne. destruct (vi_queue _ _ _ _ I) as [Q1 Q2 Q3 Q4 Q5 Q6]. destruct uq as [|h uq'] eqn:E; [by exfalso; apply Hne, (ring_nil _ _ _ _ Q2)|].
  destruct (ring_pop _ _ _ _ _ Q2) as [H1 H2]. destruct (Q4 h) as (t & b & w & H); [rewrite !elem_of_app; right; right; by left|].
  exists h, uq', t, b, w. split_and!; try done.
  - destruct (Q5 _ _ _ _ H) as [(_ & _ & Hin)|[(_ & ? & _)|(_ & ? & _)]]; [|done|done]. exfalso. rewrite app_assoc in Q3. apply NoDup_app in Q3 as (_ & Q3 & _). eapply Q3; [exact Hin|by left].
  - destruct (ow_req _ _ (vi_own _ _ _ _ I) t b w h (published_req _ _ _ _ H)) as (j & k & Hc & _). apply Hc.
Qed.

(** The handler panics only when the device reported an error. *)
Lemma intr_entry_run : used_idx (vd (vm s)) <> us_idx (vd (vm s)) -> (exists m, intr_entry (vm s) = Ok tt m) \/
  intr_entry (vm s) = Panic "virtio_disk_intr status" /\ reliable = false.
Proof using I.
  intros Hne. destruct (next_used Hne) as (h & uq' & t & b & w & _ & E1 & _ & _ & E2 & E3). unfold intr_entry, get, bind. cbn zeta.
  rewrite E1. destruct (Z.eqb_spec (status s h) 0) as [E0|E0]; cbn [negb]; [left; rewrite E3; cbn; eauto|right; split; [done|by destruct reliable; [destruct E0; apply E2|]]].
Qed.

Lemma intr_entry_inv m : v_intr s = true -> used_idx (vd (vm s)) <> us_idx (vd (vm s)) -> intr_entry (vm s) = Ok tt m ->
  exists uq', vinv (mk_vsys m (v_pc s) true) own aq uq' /\ quiet own (vm s) m.
Proof using I.
  intros Hi Hne Hm. destruct (next_used Hne) as (h & uq' & t & b & w & -> & E1 & Hr & Hp & E2 & E3).
  unfold intr_entry in Hm. unfold bind at 1, get in Hm. rewrite E1, E3 in Hm. destruct (Z.eqb_spec (status s h) 0) as [E0|]; cbn in Hm; [injection Hm as <-|discriminate]. exists uq'. split; [|split; [done| |done]; intros b'; cbn; rewrite fn_ins; by case_decide; [subst|]].
  pose proof (own_unique s own aq (h :: uq') I) as Hu. destruct I as [[L1 L2 L3] O [Q1 Q2 Q3 Q4 Q5 Q6] [D1 D2 D3 D4]].
  assert (Q3' : h ∉ aq ++ pend s ++ uq' /\ NoDup (aq ++ pend s ++ uq')).
  { assert (Hn : NoDup (h :: aq ++ pend s ++ uq')) by (eapply NoDup_Permutation_proper; [|exact Q3]; rewrite !app_assoc; apply Permutation_middle). by apply NoDup_cons in Hn. }
  destruct Q3' as [Hnh Q3']. assert (Hno : forall t', crit (v_pc s t') = false).
  { intros t'. destruct (crit (v_pc s t')) eqn:E; [|done]. destruct (L1 t' E). congruence. }
  assert (Hb : forall t' b' w' i', published (v_pc s t') = Some (b', w', i') -> b' = b <-> i' = h).
  { intros t' b' w' i' H. pose proof (published_req _ _ _ _ H) as H1. pose proof (published_req _ _ _ _ Hp) as H2. split; intros ->.
    - assert (t' = t) as -> by (eapply D2; by eapply req_buf). congruence.
    - assert (t' = t) as -> by (by eapply Hu). congruence. }
  split.
  - split; cbn; [intros t' Ht; by rewrite Hno in Ht|done|intros _; by apply L3].
  - apply (own_frame s); try done. intros b'. left. cbn. rewrite fn_ins. by case_decide; [subst|].
  - split; cbn; try done.
    + intros h' Hh'. apply Q4. rewrite !elem_of_app in *. rewrite elem_of_cons. tauto.
    + intros t' b' w' i' H. specialize (Hb _ _ _ _ H). rewrite fn_ins. case_decide as E; cbn.
      * right; right. assert (i' = h) as -> by (by apply Hb). done.
      * assert (i' <> h) by (intros ->; by apply E, eq_sym, Hb). rewrite !elem_of_app.
        destruct (Q5 _ _ _ _ H) as [A|[(A1 & A2 & [?|A3]%elem_of_cons)|(A1 & A2 & A3)]]; [left; by rewrite elem_of_app in A|done|by right; left|right; right].
        split_and!; [done|done|]. rewrite !elem_of_app, elem_of_cons in A3. tauto.
    + intros t' b' w' i' H. specialize (Hno t'). by rewrite H in Hno.
  - split; cbn; try done.
    + intros t' c [Ha Hc]%woken_asleep. destruct (D1 t' c Ha) as [(b' & w' & H1 & H2 & H3)|(b' & w' & i' & H1 & H2 & H3)].
      * left. by exists b', w'.
      * right. exists b', w', i'. cbn. split_and!; [done|done|]. rewrite fn_ins. case_decide as E; [|done]. subst. done.
    + intros b'. rewrite fn_ins. case_decide; [subst|]; apply D3.
Qed.

(** ** The device *)

Lemma fetch_inv : dv_last (v_dev (vm s)) <> av_idx (vd (vm s)) -> exists aq', vinv (mk_vsys (dev_fetch (vm s)) (v_pc s) (v_intr s)) own aq' uq.
Proof using I.
  intros Hne. destruct I as [L O [Q1 Q2 Q3 Q4 Q5 Q6] D]. destruct aq as [|h aq'] eqn:E; [by exfalso; apply Hne, (ring_nil _ _ _ _ Q1)|].
  destruct (ring_pop _ _ _ _ _ Q1) as [H1 H2]. exists aq'. split; [by destruct L|by apply (own_frame s); try done; left| |by destruct D].
  assert (Hin : forall x, x ∈ aq' ++ (pend s ++ [h]) ++ uq <-> x ∈ (h :: aq') ++ pend s ++ uq) by (intros x; rewrite !elem_of_app, !elem_of_cons, elem_of_nil; tauto).
  assert (Hin' : forall x, x ∈ aq' ++ (pend s ++ [h]) <-> x ∈ (h :: aq') ++ pend s) by (intros x; rewrite !elem_of_app, !elem_of_cons, elem_of_nil; tauto).
  split; cbn; rewrite ?H1; try done.
  - eapply NoDup_Permutation_proper; [|exact Q3]. cbn. rewrite <- app_assoc. cbn. rewrite !app_assoc. symmetry. rewrite <- app_assoc. rewrite app_assoc. by rewrite <- Permutation_middle.
  - intros x Hx%Hin. by apply Q4.
  - intros t b w i H. rewrite Hin, Hin'. by apply (Q5 t b w).
  - intros t b w i H. rewrite Hin. by apply (Q6 t b w).
Qed.

(** The chain of a request in the queue is what the device decodes. *)
Definition the_request (b : nat) (w : bool) (h : Z) : request :=
  mk_request (mk_req (if w then VIRTIO_BLK_T_OUT else VIRTIO_BLK_T_IN) 0 (vb_blockno (vbufs (vm s) b) * 2)) b BSIZE (negb w) h.

Lemma decode_pending h : h ∈ pend s -> exists t b w, published (v_pc s t) = Some (b, w, h) /\ disk_flag s b = 1 /\ status s h = 255 /\
  decode (vd (vm s)) h = Some (the_request b w h) /\ good_request (the_request b w h) = true.
Proof using I.
  intros Hh. destruct (vi_queue _ _ _ _ I) as [_ _ Q3 Q4 Q5 _]. destruct (Q4 h) as (t & b & w & H); [rewrite !elem_of_app; tauto|].
  exists t, b, w. split; [done|].
  destruct (ow_req _ _ (vi_own _ _ _ _ I) t b w h (published_req _ _ _ _ H)) as (j & k & [C1 C2 C3 C4 C5 _ _ _] & _).
  assert (Hq : disk_flag s b = 1 /\ status s h = 255).
  { destruct (Q5 _ _ _ _ H) as [(? & ? & _)|[(_ & _ & Hu)|(_ & _ & Hn)]]; [done| |].
    - exfalso. apply NoDup_app in Q3 as (_ & _ & Q3). apply NoDup_app in Q3 as (_ & Q3 & _). by eapply Q3.
    - exfalso. apply Hn. rewrite !elem_of_app. tauto. }
  destruct Hq. split_and!; [done|done| |by destruct w]. unfold decode. rewrite C1. cbn [d_addr d_next d_flags d_len]. rewrite C2. cbn [d_addr d_next d_flags d_len].
  rewrite C3. cbn [d_addr d_next d_flags d_len]. rewrite C4. by destruct w.
Qed.

Lemma sectors_2 (x : Z -> list Z) n : sectors x n 2 = x n ++ x (n + 1).
Proof using. unfold sectors. change (seqZ n 2) with [0 + n; 1 + n]. cbn [map concat]. rewrite app_nil_r. by rewrite Z.add_0_l, (Z.add_comm 1). Qed.
Lemma length_sectors (x : Z -> list Z) n : (forall y, length (x y) = 512%nat) -> length (sectors x n 2) = Z.to_nat BSIZE.
Proof using. intros H. rewrite sectors_2. by rewrite length_app, !H. Qed.

Lemma filter_rm (h : Z) l : NoDup l -> h ∈ l -> l ≡ₚ h :: filter (fun x => x <> h) l.
Proof using.
  intros Hn [l' E]%elem_of_Permutation. rewrite E in Hn. apply NoDup_cons in Hn as [Hh Hn]. rewrite E at 1. f_equiv. rewrite E. rewrite filter_cons_False by naive_solver.
  clear -Hh. induction l' as [|x l' IH]; [done|]. apply not_elem_of_cons in Hh as [Hx Hh]. rewrite filter_cons_True by done. f_equiv. by apply IH.
Qed.

Lemma perm_move (h : Z) a p p' u : p ≡ₚ h :: p' -> a ++ p' ++ u ++ [h] ≡ₚ a ++ p ++ u.
Proof using. intros ->. f_equiv. rewrite app_assoc, (Permutation_app_comm (p' ++ u)). done. Qed.

Lemma put_sectors_length (x : Z -> list Z) n data y : (forall y, length (x y) = 512%nat) -> length data = Z.to_nat BSIZE ->
  length (put_sectors x n 2 data y) = 512%nat.
Proof using.
  intros Hx Hd. unfold put_sectors. destruct ((n <=? y) && (y <? n + 2)) eqn:E; [|done]. apply andb_true_iff in E as [E1%Z.leb_le E2%Z.ltb_lt].
  change (Z.to_nat BSIZE) with 1024%nat in Hd. rewrite length_take, length_drop, Hd. lia.
Qed.

(** What a finished request may have changed. *)
Record tame (x : (nat -> vbuf) * (Z -> list Z)) : Prop := {
  tm_bufs : forall b, vb_disk (x.1 b) = vb_disk (vbufs (vm s) b) /\ vb_blockno (x.1 b) = vb_blockno (vbufs (vm s) b);
  tm_data : forall b, length (vb_data (x.1 b)) = Z.to_nat BSIZE;
  tm_media : forall n, length (x.2 n) = 512%nat }.

Lemma moved_tame b w h : tame (moved (the_request b w h) (vm s)).
Proof using I.
  destruct (vi_data _ _ _ _ I) as [D1 D2 D3 D4]. unfold moved. cbn. split; destruct w; cbn; try done.
  - intros b'. rewrite fn_ins. by case_decide; [subst|].
  - intros b'. apply D3.
  - intros b'. rewrite fn_ins. case_decide; [|apply D3]. by apply length_sectors.
  - intros n. apply put_sectors_length; [done|apply D3].
Qed.
Lemma spoiled_tame b w h x : spoiled (the_request b w h) (vm s) x -> tame x.
Proof using I.
  destruct (vi_data _ _ _ _ I) as [D1 D2 D3 D4]. unfold spoiled. cbn [q_write the_request q_buf]. destruct w; cbn [negb].
  - intros (E1 & E2 & _). rewrite (surjective_pairing x), E1. split; cbn; [done|intros b'; apply D3|intros n; by rewrite E2].
  - intros (data & Hl & ->). split; cbn; [| |done]; intros b'; rewrite fn_ins; case_decide; subst; try done; [|apply D3]. cbn. rewrite Hl. apply D3.
Qed.

Lemma finish_inv h t b w st x : h ∈ pend s -> published (v_pc s t) = Some (b, w, h) -> disk_flag s b = 1 -> status s h = 255 -> (reliable = true -> st = 0) -> tame x ->
  vinv (mk_vsys (dev_used h (the_request b w h) st x (vm s)) (v_pc s) (v_intr s)) own aq (uq ++ [h]).
Proof using I.
  intros Hh Hp Hf Hs Hst [Hbuf Hdata Hmedia]. pose proof (own_unique s own aq uq I) as Hu. pose proof (heads_range s own aq uq I) as Hr.
  destruct I as [L O [Q1 Q2 Q3 Q4 Q5 Q6] [D1 D2 D3 D4]].
  pose proof Q3 as (_ & _ & (Np & _ & Nu)%NoDup_app)%NoDup_app.
  assert (Hpu : h ∉ uq) by (apply NoDup_app in Q3 as (_ & _ & (_ & Q3 & _)%NoDup_app); by apply Q3).
  pose proof (filter_rm h (pend s) Np Hh) as Hperm. set (pend' := filter (fun x => x <> h) (pend s)) in *.
  assert (Hlen : Z.of_nat (length uq) < NUM).
  { pose proof (short_heads (h :: uq)) as Hl. cbn [length] in Hl. enough (Z.of_nat (S (length uq)) <= NUM) by lia. apply Hl; [by constructor|].
    apply list.Forall_forall. intros y Hy. apply Hr. rewrite !elem_of_app. apply elem_of_cons in Hy as [->|Hy]; tauto. }
  assert (Hin : forall y, y ∈ aq ++ pend' ++ uq ++ [h] <-> y ∈ aq ++ pend s ++ uq).
  { intros y. by rewrite (perm_move h aq (pend s) pend' uq Hperm). }
  assert (Hin' : forall y, y <> h -> y ∈ aq ++ pend s -> y ∈ aq ++ pend').
  { intros y Hy. unfold pend'. rewrite !elem_of_app, list_elem_of_filter. tauto. }
  split.
  - by destruct L.
  - apply (own_frame s); try done. intros b'. left. by destruct (Hbuf b').
  - split; cbn [vm v_pc v_intr dev_used vd set_used set_status av_ring av_idx us_ring us_idx used_idx v_dev dv_last dv_pend dv_media info_status vbufs v_asleep q_status the_request]; fold pend'.
    + done.
    + by apply ring_push.
    + eapply NoDup_Permutation_proper; [|exact Q3]. by apply perm_move.
    + intros y Hy%Hin. by apply Q4.
    + intros t' b' w' i' H. destruct (Hbuf b') as [-> _]. rewrite fn_ins, Hin. case_decide as E.
      * subst i'. right; left. assert (t' = t) as -> by (eapply Hu; by apply published_req). rewrite Hp in H. injection H as -> _. split_and!; [done|done|]. rewrite elem_of_app. right. by left.
      * destruct (Q5 _ _ _ _ H) as [(A1 & A2 & A3)|[(A1 & A2 & A3)|A]]; [left|right; left|by right; right]; (split_and!; [done|done|]); [by apply Hin'|rewrite elem_of_app; by left].
    + intros t' b' w' i' H. destruct (Hbuf b') as [-> _]. rewrite fn_ins, Hin. destruct (Q6 _ _ _ _ H) as (A1 & A2 & A3 & A4). rewrite decide_False; [done|].
      intros ->. apply A3. rewrite !elem_of_app. tauto.
  - split; cbn.
    + intros t' c Ha. apply (waits_frame s); [by apply D1|done|done|]. intros b'. cbn. by destruct (Hbuf b') as [-> _].
    + done.
    + intros b'. destruct (Hbuf b') as [_ ->]. split; [apply Hdata|apply D3].
    + exact Hmedia.
Qed.

Lemma succeeds_inv m : dev_succeeds (vm s) m -> exists aq' uq', vinv (mk_vsys m (v_pc s) (v_intr s)) own aq' uq'.
Proof using I.
  intros [Hne|h q Hh Hd Hg|h s' Hh Hd].
  - destruct (fetch_inv Hne) as (aq' & H). by exists aq', uq.
  - destruct (decode_pending h Hh) as (t & b & w & Hp & Hf & Hs & Hd' & _). rewrite Hd in Hd'. injection Hd' as ->. exists aq, (uq ++ [h]). by apply (finish_inv h t); try done; apply moved_tame.
  - destruct (decode_pending h Hh) as (t & b & w & _ & _ & _ & Hd' & Hg). by rewrite (Hd _ Hd') in Hg.
Qed.
Lemma device_inv m : dev_step (vm s) m -> exists aq' uq', vinv (mk_vsys m (v_pc s) (v_intr s)) own aq' uq'.
Proof using I.
  intros Ha%dev_spec. destruct reliable eqn:Hrel; [by apply succeeds_inv|]. destruct Ha as [m Ha|h q st x Hh Hd Hg _ Hx]; [by apply succeeds_inv|].
  destruct (decode_pending h Hh) as (t & b & w & Hp & Hf & Hs & Hd' & _). rewrite Hd in Hd'. injection Hd' as ->. exists aq, (uq ++ [h]). apply (finish_inv h t); try done; [congruence|by eapply spoiled_tame].
Qed.
End steps.

(** ** The abstract disk

    A process calls with a buffer, at some moment the whole transfer happens,
    later the call returns. *)
Inductive phase := Idle | Called (b : nat) (w : bool) | Served (b : nat).
Definition holds (p : phase) : option nat := match p with Idle => None | Called b _ | Served b => Some b end.
Record adisk := mk_adisk { ad_phase : nat -> phase; ad_bufs : nat -> Z * block; ad_blocks : Z -> block }.

Definition served (b : nat) (w : bool) (a : adisk) : (nat -> Z * block) * (Z -> block) :=
  let '(n, data) := ad_bufs a b in
  if w then (ad_bufs a, <[n := data]> (ad_blocks a)) else (<[b := (n, ad_blocks a n)]> (ad_bufs a), ad_blocks a).

Inductive ad_step (a : adisk) : option event -> adisk -> Prop :=
  | ad_call t b w n data : ad_phase a t = Idle -> (forall t', holds (ad_phase a t') <> Some b) ->
      ad_step a (Some (ECall t b w n data)) (mk_adisk (<[t := Called b w]> (ad_phase a)) (<[b := (n, data)]> (ad_bufs a)) (ad_blocks a))
  | ad_serve t b w : ad_phase a t = Called b w ->
      ad_step a None (mk_adisk (<[t := Served b]> (ad_phase a)) (fst (served b w a)) (snd (served b w a)))
  | ad_return t b : ad_phase a t = Served b ->
      ad_step a (Some (EReturn t b (snd (ad_bufs a b)))) (mk_adisk (<[t := Idle]> (ad_phase a)) (ad_bufs a) (ad_blocks a)).

Inductive ad_run (a0 : adisk) : list event -> adisk -> Prop :=
  | ar_refl : ad_run a0 [] a0
  | ar_step tr a e a' : ad_run a0 tr a -> ad_step a e a' -> ad_run a0 (tr ++ seen e) a'.

Definition phase_of (s : vsys) (t : nat) : phase :=
  match v_pc s t with
  | VIdle => Idle
  | VAlloc b w | VPublish b w _ => Called b w
  | VTest b w i | VWait b w i => if status s i =? 0 then Served b else Called b w
  end.

Record refines (s : vsys) (a : adisk) : Prop := {
  rf_phase : forall t, ad_phase a t = phase_of s t;
  rf_bufs : forall b, ad_bufs a b = (vb_blockno (vbufs (vm s) b), vb_data (vbufs (vm s) b));
  rf_blocks : forall n, ad_blocks a n = sectors (dv_media (v_dev (vm s))) (n * 2) 2 }.

Section refinement.
Context {dv : VirtioDevice}.
Implicit Types (s : vsys) (a : adisk).

Lemma vstep_inv s own aq uq e s' : vinv s own aq uq -> vstep s e s' -> exists own' aq' uq', vinv s' own' aq' uq'.
Proof using.
  intros I H. destruct H.
  - exists own, aq, uq. by apply call_inv.
  - edestruct prepared_inv as (own' & H' & _); [exact I|eassumption..|]. by exists own', aq, uq.
  - exists own, aq, uq. by eapply (full_inv s).
  - exists own, (aq ++ [i]), uq. by eapply published_inv.
  - edestruct done_inv as (own' & H' & _); [exact I|eassumption..|]. by exists own', aq, uq.
  - exists own, aq, uq. by eapply (waits_inv s).
  - exists own, aq, uq. by apply (intr_enter_inv s).
  - edestruct intr_entry_inv as (uq' & H' & _); [exact I|eassumption..|]. by exists own, aq, uq'.
  - exists own, aq, uq. by apply (intr_leave_inv s).
  - edestruct device_inv as (aq' & uq' & H'); [exact I|eassumption|]. by exists own, aq', uq'.
Qed.

Lemma vstart_inv s : vstart s -> vinv s (fun _ => None) [] [].
Proof using.
  intros [V1 (V2 & V3 & V4) (V5 & V6) V7 (V8 & V9) V10 V11]. assert (Hp : forall t, v_pc s t = VIdle) by (intros t; apply V7). split.
  - split; [intros t; by rewrite Hp|intros t t'; by rewrite Hp|by rewrite V6].
  - split; try done; [intros i Hi; by rewrite V1|intros t b w i; by rewrite Hp].
  - split; rewrite ?V2, ?V3, ?V4, ?V8, ?V9; try (intros t b w i; by rewrite Hp).
    + split; try done. 
    + split; try done.
    + constructor.
    + by intros h Hh%elem_of_nil.
  - split; try done; [|intros t t' b; by rewrite Hp]. intros t c. destruct (V7 t) as [_ ->]. done.
Qed.

Lemma vrun_inv s0 tr s : vstart s0 -> vrun s0 tr s -> exists own aq uq, vinv s own aq uq.
Proof using.
  intros H0 H. induction H as [|tr s e s' _ (own & aq & uq & I) Hs]; [exists (fun _ => None), [], []; by apply vstart_inv|by eapply vstep_inv].
Qed.

(** ** The simulation *)

Lemma phase_same s s' own aq uq t : vinv s own aq uq -> quiet own (vm s) (vm s') -> v_pc s' t = v_pc s t -> phase_of s' t = phase_of s t.
Proof using.
  intros I [Hs _ _] Hp. unfold phase_of. rewrite Hp. pose proof (ow_req _ _ (vi_own _ _ _ _ I) t) as O.
  destruct (v_pc s t) as [| | |b w i|b w i]; try done; destruct (O b w i eq_refl) as (? & ? & _ & E & _); by rewrite (Hs i t E).
Qed.

Lemma holds_phase s t : holds (phase_of s t) = buf_of (v_pc s t).
Proof using. unfold phase_of. destruct (v_pc s t); try done; by case_match. Qed.

Lemma refines_quiet s s' a own aq uq : vinv s own aq uq -> refines s a -> quiet own (vm s) (vm s') -> (forall t, phase_of s' t = phase_of s t) -> refines s' a.
Proof using.
  intros I [R1 R2 R3] Q Hp. split; [intros t; by rewrite Hp|intros b; destruct (qt_bufs _ _ _ Q b) as [-> ->]; done|intros n; by rewrite (qt_dev _ _ _ Q)].
Qed.

Lemma put_blocks x n data k : length data = Z.to_nat BSIZE ->
  sectors (put_sectors x (n * 2) 2 data) (k * 2) 2 = if decide (n = k) then data else sectors x (k * 2) 2.
Proof using.
  intros Hd. change (Z.to_nat BSIZE) with 1024%nat in Hd. rewrite !sectors_2. unfold put_sectors. case_decide as E.
  - subst k. rewrite (proj2 (andb_true_iff _ _)) by (split; [apply Z.leb_le|apply Z.ltb_lt]; lia). rewrite (proj2 (andb_true_iff _ _)) by (split; [apply Z.leb_le|apply Z.ltb_lt]; lia).
    replace (512 * (n * 2 - n * 2)) with 0 by lia. replace (512 * (n * 2 + 1 - n * 2)) with 512 by lia. change (Z.to_nat 0) with 0%nat. rewrite drop_0.
    rewrite (take_ge (drop _ data)) by (rewrite length_drop; lia). apply take_drop.
  - rewrite !(proj2 (andb_false_iff _ _)); [done|rewrite Z.leb_gt, Z.ltb_ge; lia..].
Qed.

Lemma device_sim s a own aq uq m : vinv s own aq uq -> refines s a -> dev_succeeds (vm s) m ->
  refines (mk_vsys m (v_pc s) (v_intr s)) a \/ exists a', ad_step a None a' /\ refines (mk_vsys m (v_pc s) (v_intr s)) a'.
Proof using.
  intros I [R1 R2 R3] [Hne|h q Hh Hd Hg|h s' Hh Hd]; [left; by split| |].
  2:{ destruct (decode_pending s own aq uq I h Hh) as (t & b & w & _ & _ & _ & Hd' & Hg). by rewrite (Hd _ Hd') in Hg. }
  destruct (decode_pending s own aq uq I h Hh) as (t & b & w & Hp & Hf & Hs & Hd' & _). rewrite Hd in Hd'. injection Hd' as ->. right.
  assert (Hph : ad_phase a t = Called b w).
  { rewrite R1. unfold phase_of. destruct (v_pc s t); try done; cbn in Hp; injection Hp as -> -> ->; by rewrite Hs. }
  eexists. split; [exact (ad_serve a t b w Hph)|]. destruct (da_data _ (vi_data _ _ _ _ I) b) as [Hlen _]. split; cbn [ad_phase ad_bufs ad_blocks].
  - intros t'. rewrite fn_ins. unfold phase_of. unfold dev_finish. cbn [v_pc vm dev_used vd set_used set_status info_status q_status the_request]. case_decide as E.
    + subst t'. destruct (v_pc s t); try done; cbn in Hp; injection Hp as -> -> ->; by rewrite fn_lookup_insert.
    + rewrite R1. unfold phase_of. pose proof (own_unique s own aq uq I t t' b w) as Hu. pose proof (published_req _ _ _ _ Hp) as Hq.
      destruct (v_pc s t') as [| | |b' w' i|b' w' i] eqn:E'; try done; rewrite fn_lookup_insert_ne; try done; intros <-; by apply E, (Hu b' w' h).
  - intros b'. unfold served. unfold dev_finish. cbn [vm dev_used vbufs]. unfold moved. rewrite (R2 b). destruct w; cbn; [apply R2|]. rewrite !fn_ins. case_decide; [subst; by rewrite R3|apply R2].
  - intros n. unfold served. unfold dev_finish. cbn [vm dev_used v_dev dv_media]. unfold moved. rewrite (R2 b). destruct w; cbn; [|apply R3].
    change (BSIZE / 512) with 2. rewrite fn_ins, put_blocks by done. case_decide; [done|apply R3].
Qed.

Lemma vstep_sim s a own aq uq e s' : reliable = true -> vinv s own aq uq -> refines s a -> vstep s e s' ->
  (e = None /\ refines s' a) \/ exists a', ad_step a e a' /\ refines s' a'.
Proof using.
  intros Hrel I R H. pose proof R as [R1 R2 R3]. destruct H as [t b w n data Hp Hb Hn Hd|t b w i m Hp Ha Hl Hm|t b w c m Hp Ha Hl Hm|t b w i m Hp Hm|t b w i r m Hp Hr Hc Hm|t b w i r c m Hp Hr Hc Hm|m Hl Hm|m Hi Hne Hm|m Hi He Hm|m Hm].
  - right. eexists. split; [apply (ad_call a t b w n data)|].
    + rewrite R1. unfold phase_of. by rewrite Hp.
    + intros t'. rewrite R1, holds_phase. apply Hb.
    + split; cbn; [|intros b'; rewrite !fn_ins; by case_decide|done]. intros t'. unfold phase_of. cbn. rewrite !fn_ins. case_decide; [done|apply R1].
  - left. split; [done|]. destruct (prepared_inv s own aq uq I t b w i m) as (own' & _ & Q); try done. apply (refines_quiet s _ a own aq uq); try done.
    intros t'. destruct (decide (t = t')) as [<-|E]; [unfold phase_of; cbn; by rewrite fn_lookup_insert, Hp|]. eapply phase_same; [done|done|]. cbn. by rewrite fn_lookup_insert_ne.
  - left. split; [done|]. destruct (full_inv s own aq uq I t b w c m) as [_ Q]; try done. assert (Q' : quiet own (vm s) (sleeps t c m)) by by destruct Q.
    apply (refines_quiet s _ a own aq uq); try done. intros t'. by eapply phase_same.
  - left. split; [done|]. injection Hm as <-. apply (refines_quiet s _ a own aq uq); try done.
    intros t'. destruct (decide (t = t')) as [<-|E]; [|eapply phase_same; [done|done|]; cbn; by rewrite fn_lookup_insert_ne].
    unfold phase_of. cbn. rewrite fn_lookup_insert, Hp. by destruct (q_pub _ _ _ (vi_queue _ _ _ _ I) _ _ _ _ Hp) as (_ & -> & _).
  - right. destruct (done_inv s own aq uq I t b w i r m) as (own' & _ & Hs & Q); try done. destruct (qt_bufs _ _ _ Q b) as [_ Eb].
    assert (Hph : ad_phase a t = Served b) by (rewrite R1; unfold phase_of; destruct (v_pc s t); try done; cbn in Hp; injection Hp as -> -> ->; by rewrite Hs).
    eexists. split; [rewrite Eb; pose proof (ad_return a t b Hph) as Hst; rewrite R2 in Hst; exact Hst|].
    split; cbn; [|intros b'; rewrite R2; by destruct (qt_bufs _ _ _ Q b') as [-> ->]|intros n; by rewrite (qt_dev _ _ _ Q)].
    intros t'. rewrite fn_ins. case_decide as E; [unfold phase_of; cbn; by rewrite E, fn_lookup_insert|]. rewrite R1. symmetry. eapply phase_same; [done|done|]. cbn. by rewrite fn_lookup_insert_ne.
  - left. split; [done|]. destruct (waits_inv s own aq uq I t b w i r c m) as [_ Q]; try done. assert (Q' : quiet own (vm s) (sleeps t c m)) by by destruct Q.
    apply (refines_quiet s _ a own aq uq); try done. intros t'. destruct (decide (t = t')) as [<-|E]; [|eapply phase_same; [done|done|]; cbn; by rewrite fn_lookup_insert_ne].
    destruct (ow_req _ _ (vi_own _ _ _ _ I) t b w i (published_req _ _ _ _ Hp)) as (? & ? & _ & Ei & _). pose proof (qt_status _ _ _ Q i t Ei) as Es.
    unfold phase_of. cbn. rewrite fn_lookup_insert, Es. destruct (v_pc s t); try done; cbn in Hp; by injection Hp as -> -> ->.
  - left. split; [done|]. unfold lock_vd, acquire, bind, get, put in Hm. rewrite Hl in Hm. by injection Hm as <-.
  - left. split; [done|]. destruct (intr_entry_inv s own aq uq I m) as (uq' & _ & Q); try done. apply (refines_quiet s _ a own aq uq); try done. intros t'. by eapply phase_same.
  - left. split; [done|]. unfold unlock_vd, release, bind, get, put in Hm. rewrite (lk_intr _ (vi_locks _ _ _ _ I) Hi) in Hm. by injection Hm as <-.
  - apply dev_spec in Hm. rewrite Hrel in Hm. destruct (device_sim s a own aq uq m I R Hm); [by left|by right].
Qed.

(** C19. The virtio driver refines a disk that serves requests one at a time:
    for any number of processes, whatever the order in which the device takes
    and finishes requests and the interrupt handler runs, the calls and returns
    the processes see (with the data they pass and get) are those of a disk on
    which each request happens atomically, once, between its call and its
    return. The device is one that reports no error (the driver panics on an
    error). *)
Theorem virtio_refines_disk s0 a0 tr s : reliable = true -> vstart s0 -> refines s0 a0 -> vrun s0 tr s -> exists a, ad_run a0 tr a /\ refines s a.
Proof using.
  intros Hrel H0 R0 H. induction H as [|tr s e s' Hrun IH Hs]; [exists a0; split; [constructor|done]|]. destruct IH as (a & Ha & R).
  destruct (vrun_inv s0 tr s H0 Hrun) as (own & aq & uq & I). destruct (vstep_sim s a own aq uq e s' Hrel I R Hs) as [[-> R']|(a' & Hst & R')].
  - exists a. cbn. by rewrite app_nil_r.
  - exists a'. split; [by eapply ar_step|done].
Qed.

(** ** What every reachable state guarantees *)

(** Descriptors have one user: each that is not free is one of the three of a
    request in progress, whose chain is as the device expects it. *)
Definition desc_typed s (x : Z) : Prop :=
  free (vd (vm s)) x = true \/
  exists t b w i j k, req_of (v_pc s t) = Some (b, w, i) /\ chain (vd (vm s)) (vbufs (vm s)) b w i j k /\ (x = i \/ x = j \/ x = k) /\
    forall t' b' w' i' j' k', req_of (v_pc s t') = Some (b', w', i') -> chain (vd (vm s)) (vbufs (vm s)) b' w' i' j' k' -> x = i' \/ x = j' \/ x = k' -> t' = t.

Lemma chain_next d bufs b w i j k b' w' j' k' : chain d bufs b w i j k -> chain d bufs b' w' i j' k' -> j' = j /\ k' = k.
Proof using. intros [C1 C2 _ _ _ _ _ _] [C1' C2' _ _ _ _ _ _]. rewrite C1 in C1'. injection C1' as ->. rewrite C2 in C2'. by injection C2' as _ _ ->. Qed.

(** C27. The descriptor table is well typed in every reachable state: each
    descriptor is free, or it is the header, the data or the status descriptor
    of exactly one request in progress, with the address, length, direction and
    link the device expects of it. *)
Theorem virtio_descriptors_typed s0 tr s x : vstart s0 -> vrun s0 tr s -> 0 <= x < NUM -> desc_typed s x.
Proof using.
  intros H0 H Hx. destruct (vrun_inv s0 tr s H0 H) as (own & aq & uq & I). pose proof (vi_own _ _ _ _ I) as [O1 O2 O3 O4]. unfold desc_typed.
  destruct (own x) as [t|] eqn:E; [right|left; by apply O1]. destruct (O4 x t E) as (b & w & i & Hq). destruct (O3 t b w i Hq) as (j & k & Hc & _ & _ & _ & Hin).
  exists t, b, w, i, j, k. split_and!; [done|done|by apply Hin|]. intros t' b' w' i' j' k' Hq' Hc' Hx'. destruct (O3 t' b' w' i' Hq') as (j2 & k2 & Hc2 & Ei & Ej & Ek & _).
  destruct (chain_next _ _ _ _ _ _ _ _ _ _ _ Hc' Hc2) as [-> ->]. destruct Hx' as [->|[->| ->]]; congruence.
Qed.

(** Nothing panics but the interrupt handler, on an error that the device
    reported; and a process sleeps only while what it waits for has not
    happened and is still to come. *)
Record vsafe s : Prop := {
  sf_alloc : forall t b w, v_pc s t = VAlloc b w -> vdisk_lock (vd (vm s)) = false ->
    (exists i m, rw_prepare b w (vm s) = Ok i m) \/ (exists m, rw_prepare b w (vm s) = Sleep ChDiskFree m);
  sf_resume : forall t b w i r, published (v_pc s t) = Some (b, w, i) -> resume (v_pc s t) = Some r -> can_resume s t ->
    (exists m, r (vm s) = Ok tt m) \/ (exists m, r (vm s) = Sleep (ChDiskBuf b) m);
  sf_intr : v_intr s = true -> if used_idx (vd (vm s)) =? us_idx (vd (vm s)) then exists m, unlock_vd (vm s) = Ok tt m
    else (exists m, intr_entry (vm s) = Ok tt m) \/ intr_entry (vm s) = Panic "virtio_disk_intr status" /\ reliable = false;
  sf_free : forall t, v_asleep (vm s) t = Some ChDiskFree -> (nfree (vm s) < 3)%nat /\ exists t', req_of (v_pc s t') <> None;
  sf_buf : forall t b, v_asleep (vm s) t = Some (ChDiskBuf b) -> disk_flag s b = 1 /\
    (dv_last (v_dev (vm s)) <> av_idx (vd (vm s)) \/ pend s <> [] \/ used_idx (vd (vm s)) <> us_idx (vd (vm s)));
  sf_chan : forall t c, v_asleep (vm s) t = Some c -> c = ChDiskFree \/ exists b, c = ChDiskBuf b }.

Lemma full_user s own aq uq : vinv s own aq uq -> (nfree (vm s) < 3)%nat -> exists t', req_of (v_pc s t') <> None.
Proof using.
  intros I Hn. pose proof (vi_own _ _ _ _ I) as [O1 O2 O3 O4].
  assert (Hx : exists x, 0 <= x < NUM /\ own x <> None).
  { destruct (decide (Exists (fun x => own x <> None) (seqZ 0 NUM))) as [H|H].
    - apply Exists_exists in H as (x & Hx%elem_of_seqZ & Ho). exists x. split; [lia|done].
    - exfalso. assert (E : frees (vm s) = seqZ 0 NUM).
      { apply List.forallb_filter_id, List.forallb_forall. intros x Hx%list_elem_of_In. apply O1; [apply elem_of_seqZ in Hx; lia|].
        destruct (own x) eqn:E; [|done]. exfalso. apply H, Exists_exists. exists x. by rewrite E. }
      unfold nfree in Hn. rewrite E, length_seqZ in Hn. change (Z.to_nat NUM) with 8%nat in Hn. lia. }
  destruct Hx as (x & Hr & Ho). destruct (own x) as [t|] eqn:E; [|done]. destruct (O4 x t E) as (b & w & i & H). exists t. by rewrite H.
Qed.

Lemma inv_safe s own aq uq : vinv s own aq uq -> vsafe s.
Proof using.
  intros I. pose proof (vi_queue _ _ _ _ I) as [Q1 Q2 Q3 Q4 Q5 Q6]. pose proof (da_sleep _ (vi_data _ _ _ _ I)) as D1. split.
  - intros t b w Hp Hl. pose proof (prepare_run b w (vm s) Hl) as R. destruct (frees (vm s)) as [|i [|j [|k l]]]; [by right; destruct R as (m & R & _); exists m..|]. left. eauto.
  - intros t b w i r Hp Hr Hc. destruct (resume_run s own aq uq I t b w i r Hp Hr Hc) as (R & _). rewrite R. pose proof (published_req _ _ _ _ Hp) as Hq.
    destruct (decide (disk_flag s b = 1)) as [E|E].
    + right. unfold rw_finish, bind, get. cbn [with_lock set_vd vbufs]. rewrite E. cbn. eauto.
    + left. destruct (ow_req _ _ (vi_own _ _ _ _ I) _ _ _ _ Hq) as (j & k & Hch & Ei & Ej & Ek & _). pose proof (ow_range _ _ (vi_own _ _ _ _ I)) as Hrg. pose proof (owned_false s own aq uq I) as Hof.
      exists (finished i j k (with_lock (vm s))). apply (finish_run _ b w); first [done|by eapply chain_frame|by eapply Hrg|by eapply Hof].
  - intros Hi. destruct (Z.eqb_spec (used_idx (vd (vm s))) (us_idx (vd (vm s)))); [|by eapply intr_entry_run].
    unfold unlock_vd, release, bind, get, put. rewrite (lk_intr _ (vi_locks _ _ _ _ I) Hi). eauto.
  - intros t Ha. destruct (D1 t _ Ha) as [(b & w & _ & _ & Hn)|(b & w & i & _ & ? & _)]; [|done]. split; [done|by eapply full_user].
  - intros t b Ha. destruct (D1 t _ Ha) as [(b' & w & _ & ? & _)|(b' & w & i & Hp & Hb & Hf)]; [done|]. injection Hb as <-. split; [done|].
    destruct (Q5 t b w i) as [(_ & _ & [Hin|Hin]%elem_of_app)|[(_ & _ & Hin)|(? & _)]]; [by rewrite Hp| | | |congruence].
    + left. intros E. apply (ring_nil _ _ _ _ Q1) in E. subst aq. by apply elem_of_nil in Hin.
    + right; left. intros E. rewrite E in Hin. by apply elem_of_nil in Hin.
    + right; right. intros E. apply (ring_nil _ _ _ _ Q2) in E. subst uq. by apply elem_of_nil in Hin.
  - intros t c Ha. destruct (D1 t _ Ha) as [(b & w & _ & -> & _)|(b & w & i & _ & -> & _)]; eauto.
Qed.

(** C28. The virtio driver loses no wakeup, and panics only on an error of the
    device. In every reachable state, for any device, allocation and completion
    return or sleep, and the interrupt handler returns, or it panics because the
    device reported an error, which a reliable device never does; a process
    asleep for descriptors sees fewer than three free ones and another request
    in progress; one asleep for its buffer still has the request with the device
    or in the used ring. *)
Theorem virtio_no_panic_no_lost_wakeup s0 tr s : vstart s0 -> vrun s0 tr s -> vsafe s.
Proof using. intros H0 H. destruct (vrun_inv s0 tr s H0 H) as (own & aq & uq & I). by eapply inv_safe. Qed.
End refinement.

(** ** A device and a run *)

(** It takes requests as they come and finishes the oldest. *)
Definition simple_device (s : vst) : option vst :=
  match dv_pend (v_dev s) with
  | h :: _ => match decode (vd s) h with
              | Some q => if good_request q then Some (dev_finish h q s) else None
              | None => None
              end
  | [] => if dv_last (v_dev s) =? av_idx (vd s) then None else Some (dev_fetch s)
  end.
#[export] Instance simple_virtio : VirtioDevice.
Proof.
  refine {| dev_step s s' := simple_device s = Some s'; reliable := true |}. intros s s'. unfold simple_device. destruct (dv_pend (v_dev s)) as [|h l] eqn:E.
  - destruct (Z.eqb_spec (dv_last (v_dev s)) (av_idx (vd s))); [done|]. intros [= <-]. by constructor.
  - destruct (decode (vd s) h) as [q|] eqn:Eq; [|done]. destruct (good_request q) eqn:Eg; [|done]. intros [= <-]. apply dev_finishes; [rewrite E; by left|done|done].
Defined.

Definition demo_media (x : Z) : list Z := replicate 512 (x mod 256).
Definition demo_start : vsys :=
  mk_vsys (mk_vst (mk_disk (fun _ => desc0) 0 (fun _ => 0) 0 (fun _ => 0) (fun _ => true) 0 (fun _ => None) (fun _ => 0) (fun _ => mk_req 0 0 0) false)
    (fun _ => mk_vbuf 0 0 blank) (fun _ => None) (mk_vdev 0 [] demo_media)) (fun _ => VIdle) false.
Definition demo_abs : adisk := mk_adisk (fun _ => Idle) (fun _ => (0, blank)) (fun n => sectors demo_media (n * 2) 2).

(** The state a segment ends in. *)
Definition result {A} (m : M vst A) (s : vst) : vst := match m s with Ok _ s' | Sleep _ s' => s' | _ => s end.
Definition returned {A} (m : M vst A) (s : vst) : option A := match m s with Ok a _ => Some a | _ => None end.
Definition sleeping (m : M vst unit) (s : vst) : option chan := match m s with Sleep c _ => Some c | _ => None end.
Lemma result_ok {A} (m : M vst A) s a : returned m s = Some a -> m s = Ok a (result m s).
Proof. unfold returned, result. by destruct (m s); intros [=]; subst. Qed.
Lemma result_sleep m s c : sleeping m s = Some c -> m s = Sleep c (result m s).
Proof. unfold sleeping, result. by destruct (m s); intros [=]; subst. Qed.

Definition moves (t : nat) (p : vpc) (m : vst) (s : vsys) : vsys := mk_vsys m (<[t := p]> (v_pc s)) (v_intr s).
Definition serves (s : vsys) : vsys := mk_vsys (default (vm s) (simple_device (vm s))) (v_pc s) (v_intr s).

(** A read of block 5 by a process that goes to sleep before the interrupt. *)
Definition demo_1 : vsys := moves 0 (VAlloc 0 false) (given 0 5 blank (vm demo_start)) demo_start.
Definition demo_2 : vsys := moves 0 (VPublish 0 false 0) (result (rw_prepare 0 false) (vm demo_1)) demo_1.
Definition demo_3 : vsys := moves 0 (VTest 0 false 0) (result rw_publish (vm demo_2)) demo_2.
Definition demo_4 : vsys := moves 0 (VWait 0 false 0) (sleeps 0 (ChDiskBuf 0) (result (rw_finish 0 0) (vm demo_3))) demo_3.
Definition demo_6 : vsys := serves (serves demo_4).
Definition demo_7 : vsys := mk_vsys (result lock_vd (vm demo_6)) (v_pc demo_6) true.
Definition demo_8 : vsys := mk_vsys (result intr_entry (vm demo_7)) (v_pc demo_7) true.
Definition demo_9 : vsys := mk_vsys (result unlock_vd (vm demo_8)) (v_pc demo_8) false.
Definition demo_10 : vsys := moves 0 VIdle (result (lock_vd ;;; rw_finish 0 0) (vm demo_9)) demo_9.
Definition demo_trace : list event := [ECall 0 0 false 5 blank; EReturn 0 0 (replicate 512 10 ++ replicate 512 11)].

Lemma demo_vstart : vstart demo_start.
Proof. by split. Qed.

Lemma serves_step s : (match simple_device (vm s) with Some _ => true | None => false end) = true -> vstep s None (serves s).
Proof. intros H. apply v_device. cbn. by destruct (simple_device (vm s)). Qed.

Lemma demo_calls : vrun demo_start [ECall 0 0 false 5 blank] demo_4.
Proof.
  assert (R1 : vrun demo_start [ECall 0 0 false 5 blank] demo_1).
  { apply (vr_step _ [] demo_start (Some (ECall 0 0 false 5 blank)) demo_1); [constructor|]. by apply v_call. }
  assert (R2 : vrun demo_start ([ECall 0 0 false 5 blank] ++ seen None) demo_2).
  { eapply vr_step; [exact R1|]. apply v_prepared; [by vm_compute|by vm_compute|by vm_compute|].
    apply result_ok. by vm_compute. }
  assert (R3 : vrun demo_start ([ECall 0 0 false 5 blank] ++ seen None) demo_3).
  { eapply (vr_step _ _ _ None); [exact R2|]. apply v_published; [by vm_compute|]. by apply result_ok. }
  eapply (vr_step _ _ _ None) in R3; [exact R3|]. apply (v_waits _ 0 0 false 0 (rw_finish 0 0)); [by vm_compute|by vm_compute|done|]. apply result_sleep. by vm_compute.
Qed.

Lemma vdemo_run : vrun demo_start demo_trace demo_10.
Proof.
  pose proof demo_calls as R. eapply (vr_step _ _ _ None) in R; [|apply serves_step; by vm_compute]. eapply (vr_step _ _ _ None) in R; [|apply serves_step; by vm_compute].
  fold demo_6 in R. eapply (vr_step _ _ _ None demo_7) in R; [|apply v_intr_enter; [by vm_compute|apply result_ok; by vm_compute]].
  eapply (vr_step _ _ _ None demo_8) in R; [|apply v_intr_entry; [done|by vm_compute|apply result_ok; by vm_compute]].
  eapply (vr_step _ _ _ None demo_9) in R; [|apply v_intr_leave; [done|by vm_compute|apply result_ok; by vm_compute]].
  cbn [seen app] in R. change demo_trace with ([ECall 0 0 false 5 blank] ++ seen (Some (EReturn 0 0 (replicate 512 10 ++ replicate 512 11)))).
  set (m := result (lock_vd ;;; rw_finish 0 0) (vm demo_9)) in *. assert (E : vb_data (vbufs m 0) = replicate 512 10 ++ replicate 512 11) by by vm_compute.
  rewrite <- E. apply (vr_step _ _ demo_9); [exact R|].
  assert (P1 : v_asleep (vm demo_9) 0 = None) by by vm_compute. assert (P2 : vdisk_lock (vd (vm demo_9)) = false) by by vm_compute.
  assert (P3 : returned (lock_vd ;;; rw_finish 0 0) (vm demo_9) = Some tt) by by vm_compute.
  refine (v_done demo_9 0 0 false 0 (lock_vd ;;; rw_finish 0 0) m _ _ (conj P1 P2) (result_ok _ _ _ P3)); reflexivity.
Qed.

Lemma virtio_refines_disk_witness : exists a, ad_run demo_abs demo_trace a /\ refines demo_10 a.
Proof. apply (virtio_refines_disk demo_start demo_abs demo_trace demo_10); [reflexivity|exact demo_vstart|by split|exact vdemo_run]. Defined.

Lemma virtio_descriptors_typed_witness : desc_typed demo_10 3.
Proof. apply (virtio_descriptors_typed demo_start demo_trace demo_10 3); [exact demo_vstart|exact vdemo_run|unfold NUM; lia]. Defined.

Lemma virtio_no_panic_no_lost_wakeup_witness : v_asleep (vm demo_4) 0 = Some (ChDiskBuf 0) /\ vsafe demo_4.
Proof. split; [by vm_compute|]. apply (virtio_no_panic_no_lost_wakeup demo_start [ECall 0 0 false 5 blank] demo_4); [exact demo_vstart|exact demo_calls]. Defined.
