(* ===== verification/Bio.v ===== *)
(** * The buffer cache (kernel/bio.c)

    The buffers and the list head are cells of an array, linked through
    [b_prev] and [b_next] as in the source; the head is cell [NBUF]. *)

From stdpp Require Import base gmap list numbers strings.
From Stdlib Require Import ZArith Lia.
From S2P Require Import Prelude Mem Spinlock Sleeplock Disk.
Open Scope Z_scope.
Open Scope kernel_scope.

Definition MAXOPBLOCKS : Z := 10.
Definition LOGBLOCKS : Z := MAXOPBLOCKS * 3.
Definition NBUF : nat := Z.to_nat (MAXOPBLOCKS * 3).

(** struct buf *)
Record buf := mk_buf {
  b_valid : bool; b_dev : Z; b_blockno : Z; b_lock : sleeplock; b_refcnt : Z;
  b_prev : nat; b_next : nat; b_data : block }.

Definition set_valid (b : buf) (v : bool) : buf :=
  mk_buf v (b_dev b) (b_blockno b) (b_lock b) (b_refcnt b) (b_prev b) (b_next b) (b_data b).
Definition set_lock (b : buf) (l : sleeplock) : buf :=
  mk_buf (b_valid b) (b_dev b) (b_blockno b) l (b_refcnt b) (b_prev b) (b_next b) (b_data b).
Definition set_refcnt (b : buf) (r : Z) : buf :=
  mk_buf (b_valid b) (b_dev b) (b_blockno b) (b_lock b) r (b_prev b) (b_next b) (b_data b).
Definition set_prev (b : buf) (p : nat) : buf :=
  mk_buf (b_valid b) (b_dev b) (b_blockno b) (b_lock b) (b_refcnt b) p (b_next b) (b_data b).
Definition set_next (b : buf) (n : nat) : buf :=
  mk_buf (b_valid b) (b_dev b) (b_blockno b) (b_lock b) (b_refcnt b) (b_prev b) n (b_data b).
Definition set_data (b : buf) (d : block) : buf :=
  mk_buf (b_valid b) (b_dev b) (b_blockno b) (b_lock b) (b_refcnt b) (b_prev b) (b_next b) d.
(** The fields [bget] sets when it recycles a buffer. *)
Definition recycle (b : buf) (dev blockno : Z) : buf :=
  mk_buf false dev blockno (b_lock b) 1 (b_prev b) (b_next b) (b_data b).

(** A buffer of zeroed static memory. *)
Definition buf0 : buf := mk_buf false 0 0 initsleeplock 0 0 0 blank.

(** bcache, the device below it, and the device states that a power failure
    could have exposed: one after each write, latest first. *)
Record bio (D : Type) := mk_bio { bc_lock : bool; bc_buf : list buf; bdisk : D; bhist : list D }.
Arguments mk_bio {D} _ _ _ _.
Arguments bc_lock {D} _.
Arguments bc_buf {D} _.
Arguments bdisk {D} _.
Arguments bhist {D} _.

Section bio_c.
Context {D : Type} {drv : DiskDriver D}.
Context (mypid : Z).

Definition set_bc_lock (s : bio D) (b : bool) : bio D := mk_bio b (bc_buf s) (bdisk s) (bhist s).
Definition set_bufs (s : bio D) (l : list buf) : bio D := mk_bio (bc_lock s) l (bdisk s) (bhist s).

Definition head : nat := NBUF.
Definition getb (s : bio D) (i : nat) : buf := default buf0 (bc_buf s !! i).
Definition setb (s : bio D) (i : nat) (b : buf) : bio D := set_bufs s (<[i := b]> (bc_buf s)).
Definition updb (i : nat) (f : buf -> buf) : M (bio D) unit := modify (fun s => setb s i (f (getb s i))).

Definition buf_sl (i : nat) (s : bio D) : sleeplock := b_lock (getb s i).
Definition set_buf_sl (i : nat) (s : bio D) (l : sleeplock) : bio D := setb s i (set_lock (getb s i) l).

(** The driver works on the device only. A completed write adds a state to
    the history. *)
Definition rw (i : nat) (write : bool) : M (bio D) unit := fun s =>
  match virtio_disk_rw (b_blockno (getb s i)) (b_data (getb s i)) write (bdisk s) with
  | Ok data d =>
      let s' := setb s i (set_data (getb s i) data) in
      Ok tt (mk_bio (bc_lock s') (bc_buf s') d (if write then d :: bhist s else bhist s))
  | Panic msg => Panic msg
  | Sleep c d => Sleep c (mk_bio (bc_lock s) (bc_buf s) d (bhist s))
  | NoFuel => NoFuel
  end.

Definition binit : M (bio D) unit :=
  modify (fun s => set_bc_lock s false) ;;;
  updb head (fun b => set_prev b head) ;;;
  updb head (fun b => set_next b head) ;;;
  for_all (seq 0 NBUF) (fun i =>
    s <- get ;;
    let first := b_next (getb s head) in
    updb i (fun b => set_next b first) ;;;
    updb i (fun b => set_prev b head) ;;;
    updb i (fun b => set_lock b initsleeplock) ;;;
    updb first (fun b => set_prev b i) ;;;
    updb head (fun b => set_next b i)).

(** [for(b = bcache.head.next; b != &bcache.head; b = b->next)] *)
Fixpoint scan_next (fuel : nat) (s : bio D) (p : buf -> bool) (i : nat) : option (option nat) :=
  match fuel with
  | O => None
  | S k => if (i =? head)%nat then Some None
           else if p (getb s i) then Some (Some i)
           else scan_next k s p (b_next (getb s i))
  end.
(** [for(b = bcache.head.prev; b != &bcache.head; b = b->prev)] *)
Fixpoint scan_prev (fuel : nat) (s : bio D) (p : buf -> bool) (i : nat) : option (option nat) :=
  match fuel with
  | O => None
  | S k => if (i =? head)%nat then Some None
           else if p (getb s i) then Some (Some i)
           else scan_prev k s p (b_prev (getb s i))
  end.

Definition bget (dev blockno : Z) : M (bio D) nat :=
  acquire bc_lock set_bc_lock ;;;
  s <- get ;;
  match scan_next (S NBUF) s (fun b => (b_dev b =? dev) && (b_blockno b =? blockno)) (b_next (getb s head)) with
  | None => no_fuel
  | Some (Some i) =>
      updb i (fun b => set_refcnt b (u32 (b_refcnt b + 1))) ;;;
      release bc_lock set_bc_lock ;;;
      acquiresleep (buf_sl i) (set_buf_sl i) mypid (ChBuf i) ;;;
      ret i
  | Some None =>
      match scan_prev (S NBUF) s (fun b => b_refcnt b =? 0) (b_prev (getb s head)) with
      | None => no_fuel
      | Some (Some i) =>
          updb i (fun b => recycle b dev blockno) ;;;
          release bc_lock set_bc_lock ;;;
          acquiresleep (buf_sl i) (set_buf_sl i) mypid (ChBuf i) ;;;
          ret i
      | Some None => panic "bget: no buffers"
      end
  end.

Definition bread (dev blockno : Z) : M (bio D) nat :=
  b <- bget dev blockno ;;
  s <- get ;;
  when (negb (b_valid (getb s b))) (
    rw b false ;;;
    updb b (fun b => set_valid b true)) ;;;
  ret b.

Definition bwrite (b : nat) : M (bio D) unit :=
  h <- holdingsleep (buf_sl b) (set_buf_sl b) mypid ;;
  if negb h then panic "bwrite" else rw b true.

Definition brelse (b : nat) : M (bio D) unit :=
  h <- holdingsleep (buf_sl b) (set_buf_sl b) mypid ;;
  if negb h then panic "brelse"
  else
    releasesleep (buf_sl b) (set_buf_sl b) ;;;
    acquire bc_lock set_bc_lock ;;;
    updb b (fun b => set_refcnt b (u32 (b_refcnt b - 1))) ;;;
    s <- get ;;
    when (b_refcnt (getb s b) =? 0) (
      (* no one is waiting for it. *)
      s <- get ;; updb (b_next (getb s b)) (fun n => set_prev n (b_prev (getb s b))) ;;;
      s <- get ;; updb (b_prev (getb s b)) (fun p => set_next p (b_next (getb s b))) ;;;
      s <- get ;; updb b (fun b => set_next b (b_next (getb s head))) ;;;
      updb b (fun b => set_prev b head) ;;;
      s <- get ;; updb (b_next (getb s head)) (fun n => set_prev n b) ;;;
      updb head (fun h => set_next h b)) ;;;
    release bc_lock set_bc_lock.

Definition bpin (b : nat) : M (bio D) unit :=
  acquire bc_lock set_bc_lock ;;;
  updb b (fun b => set_refcnt b (u32 (b_refcnt b + 1))) ;;;
  release bc_lock set_bc_lock.

Definition bunpin (b : nat) : M (bio D) unit :=
  acquire bc_lock set_bc_lock ;;;
  updb b (fun b => set_refcnt b (u32 (b_refcnt b - 1))) ;;;
  release bc_lock set_bc_lock.

End bio_c.
