(* ===== verification/BioSpec.v ===== *)
(** * The buffer cache refines an LRU list

    The ring of [b_prev]/[b_next] pointers represents a list of buffers, most
    recently used first; the routines of bio.c act on that list and on one
    buffer at a time. *)

From stdpp Require Import base gmap list numbers strings.
From Stdlib Require Import ZArith Lia.
From S2P Require Import Prelude Mem Spinlock Sleeplock Disk Bio.
Open Scope Z_scope.
Open Scope kernel_scope.

(** ** Doubly linked rings *)

Section ring.
Local Open Scope nat_scope.

Definition fset (f : nat -> nat) (k v : nat) : nat -> nat := fun i => if i =? k then v else f i.

Lemma fset_eq f k v : fset f k v k = v.
Proof. unfold fset. by rewrite Nat.eqb_refl. Qed.
Lemma fset_ne f k v i : i <> k -> fset f k v i = f i.
Proof. unfold fset. intros. by destruct (Nat.eqb_spec i k). Qed.

(** From [x] through [l] to [last]. *)
Fixpoint linked (nx pv : nat -> nat) (x : nat) (l : list nat) (last : nat) : Prop :=
  match l with
  | [] => nx x = last /\ pv last = x
  | y :: l' => nx x = y /\ pv y = x /\ linked nx pv y l' last
  end.

Lemma linked_ext nx nx' pv pv' x l last :
  (forall i, i ∈ x :: l -> nx' i = nx i) -> (forall i, i ∈ l ++ [last] -> pv' i = pv i) ->
  linked nx pv x l last -> linked nx' pv' x l last.
Proof.
  revert x. induction l as [|y l IH]; intros x Hn Hp; cbn [linked].
  - intros [H1 H2]. split; [rewrite Hn by (by left)|rewrite Hp by (by left)]; done.
  - intros (H1 & H2 & Hl). split_and!; [by rewrite Hn by (by left)|by rewrite Hp by (by left)|].
    apply IH; [| |exact Hl].
    + intros i Hi. apply Hn. by right.
    + intros i Hi. apply Hp. by right.
Qed.

Lemma linked_app nx pv x l1 b l2 last :
  linked nx pv x (l1 ++ b :: l2) last <-> linked nx pv x l1 b /\ linked nx pv b l2 last.
Proof.
  revert x. induction l1 as [|y l1 IH]; intros x; cbn [linked app]; [tauto|]. rewrite IH. tauto.
Qed.

Lemma linked_last nx pv x l last : linked nx pv x l last -> pv last = List.last l x.
Proof.
  revert x. induction l as [|y l IH]; intros x; cbn [linked]; [by intros [_ ?]|].
  intros (_ & _ & Hl). rewrite (IH y Hl). clear. revert y. induction l as [|z l IH]; intros y; [done|]. cbn in *. destruct l; done.
Qed.

Lemma linked_first nx pv x l last : linked nx pv x l last -> nx x = hd last l.
Proof. destruct l; cbn; [by intros [? _]|by intros (? & _)]. Qed.

Lemma last_elem (l : list nat) x : List.last l x ∈ x :: l.
Proof.
  revert x. induction l as [|y l IH]; intros x; [by left|].
  destruct l as [|z l]; [right; by left|]. change (List.last (y :: z :: l) x) with (List.last (z :: l) x).
  specialize (IH x). apply elem_of_cons in IH as [->|IH]; [by left|]. right. by right.
Qed.

Lemma last_cons (l : list nat) x y : List.last (y :: l) x = List.last l y.
Proof. revert y. induction l as [|z l IH]; intros y; [done|]. cbn in *. destruct l; done. Qed.

(** Pointing the end of a chain somewhere else. *)
Lemma linked_retarget nx pv x l b t : linked nx pv x l b -> NoDup (x :: l) -> t ∉ l ->
  linked (fset nx (List.last l x) t) (fset pv t (List.last l x)) x l t.
Proof.
  revert x. induction l as [|y l IH]; intros x Hl Hnd Ht.
  - cbn [linked]. by rewrite !fset_eq.
  - cbn [linked] in Hl. destruct Hl as (Hnx & Hpv & Hl). rewrite last_cons. cbn [linked].
    apply NoDup_cons in Hnd as [Hx Hnd]. apply not_elem_of_cons in Ht as [Hty Ht].
    split_and!; [| |by apply IH].
    + rewrite fset_ne; [done|]. intros ->. apply Hx. apply last_elem.
    + by rewrite fset_ne.
Qed.

Definition unlink_nx (nx pv : nat -> nat) (b : nat) := fset nx (pv b) (nx b).
Definition unlink_pv (nx pv : nat -> nat) (b : nat) := fset pv (nx b) (pv b).

Lemma linked_unlink nx pv h l1 b l2 : linked nx pv h (l1 ++ b :: l2) h -> NoDup (h :: l1 ++ b :: l2) ->
  linked (unlink_nx nx pv b) (unlink_pv nx pv b) h (l1 ++ l2) h.
Proof.
  intros Hl Hnd. apply linked_app in Hl as [H1 H2].
  unfold unlink_nx, unlink_pv. rewrite (linked_last _ _ _ _ _ H1), (linked_first _ _ _ _ _ H2).
  apply NoDup_cons in Hnd as [Hh Hnd]. apply NoDup_app in Hnd as (Hn1 & Hd & Hn2).
  apply NoDup_cons in Hn2 as [Hb2 Hn2]. rewrite elem_of_app, elem_of_cons in Hh.
  assert (Hnd1 : NoDup (h :: l1)) by (constructor; tauto).
  destruct l2 as [|n l2]; cbn [hd].
  - rewrite app_nil_r. apply linked_retarget with b; [done|done|tauto].
  - apply linked_app. split.
    + apply linked_retarget with b; [done|done|]. intros Hin. apply (Hd _ Hin). right. by left.
    + cbn [linked] in H2. destruct H2 as (_ & _ & H2). apply NoDup_cons in Hn2 as [Hn Hn2].
      eapply linked_ext; [| |exact H2].
      * intros i Hi. apply fset_ne. intros ->. pose proof (last_elem l1 h) as Hlast.
        apply elem_of_cons in Hlast as [E|Hlast].
        { rewrite E in Hi. apply Hh. right. by right. }
        { apply (Hd _ Hlast). by right. }
      * intros i Hi. apply fset_ne. intros ->. apply elem_of_app in Hi as [Hi|Hi%list_elem_of_singleton]; [done|].
        subst. apply Hh. right. right. by left.
Qed.

Definition link_nx (nx pv : nat -> nat) (h b : nat) := fset (fset nx b (nx h)) h b.
Definition link_pv (nx pv : nat -> nat) (h b : nat) := fset (fset pv b h) (nx h) b.

Lemma linked_push nx pv h b l : linked nx pv h l h -> NoDup (h :: b :: l) ->
  linked (link_nx nx pv h b) (link_pv nx pv h b) h (b :: l) h.
Proof.
  intros Hl Hnd. unfold link_nx, link_pv. rewrite (linked_first _ _ _ _ _ Hl).
  apply NoDup_cons in Hnd as [Hh Hnd]. apply NoDup_cons in Hnd as [Hb Hnd]. rewrite elem_of_cons in Hh.
  cbn [linked]. rewrite fset_eq. split; [done|].
  destruct l as [|y l]; cbn [hd linked] in *.
  - assert (b <> h) by (intros ->; apply Hh; by left).
    split_and!; repeat first [rewrite fset_eq|rewrite fset_ne by done]; done.
  - rewrite elem_of_cons in Hb, Hh.
    assert (b <> h /\ b <> y /\ y <> h) as (? & ? & ?) by (split_and!; intros ->; tauto).
    split_and!; try (repeat first [rewrite fset_eq|rewrite fset_ne by done]; done).
    destruct Hl as (_ & _ & Hl). apply NoDup_cons in Hnd as [Hy Hnd]. eapply linked_ext; [| |exact Hl].
    + intros i Hi. apply elem_of_cons in Hi. rewrite !fset_ne; [done|intros ->; tauto|intros ->; tauto].
    + intros i Hi. rewrite elem_of_app, list_elem_of_singleton in Hi.
      rewrite !fset_ne; [done|intros ->; tauto|intros ->]. destruct Hi; [tauto|]. subst. tauto.
Qed.
End ring.

Section cache.
Context {D : Type} `{DiskSpec D}.
Context (mypid : Z).
Implicit Types (s : bio D) (b : buf) (i j : nat) (l : list nat).

Definition nxs (s : bio D) (i : nat) : nat := b_next (getb s i).
Definition pvs (s : bio D) (i : nat) : nat := b_prev (getb s i).

Record buf_ok (b : buf) : Prop := {
  bo_ref : 0 <= b_refcnt b < 2 ^ 32;
  bo_lk : sl_lk (b_lock b) = false;
  bo_held : sl_locked (b_lock b) = true -> 0 < b_refcnt b;
  bo_data : is_block (b_data b)
}.

(** Between two calls: the list [l] of all buffers, most recent first, is
    what the pointers represent, and no block is cached twice. *)
Record cache_inv (s : bio D) (l : list nat) : Prop := {
  ci_lock : bc_lock s = false;
  ci_len : length (bc_buf s) = S NBUF;
  ci_ring : linked (nxs s) (pvs s) head l head;
  ci_perm : l ≡ₚ seq 0 NBUF;
  ci_uniq : forall i j, (i < NBUF)%nat -> (j < NBUF)%nat -> b_dev (getb s i) <> 0 ->
    b_dev (getb s i) = b_dev (getb s j) -> b_blockno (getb s i) = b_blockno (getb s j) -> i = j;
  ci_buf : forall i, (i < NBUF)%nat -> buf_ok (getb s i);
  ci_disk : dok (bdisk s)
}.

Lemma cache_elem s l i : cache_inv s l -> i ∈ l <-> (i < NBUF)%nat.
Proof. intros Hc. rewrite (ci_perm _ _ Hc), elem_of_seq. lia. Qed.

Lemma cache_nodup s l : cache_inv s l -> NoDup (head :: l).
Proof.
  intros Hc. apply NoDup_cons. split.
  - rewrite (cache_elem s l _ Hc). unfold head. lia.
  - rewrite (ci_perm _ _ Hc). apply NoDup_seq.
Qed.

Lemma getb_setb s i b j : length (bc_buf s) = S NBUF -> (i <= NBUF)%nat ->
  getb (setb s i b) j = if decide (j = i) then b else getb s j.
Proof.
  intros Hlen Hi. unfold getb, setb, set_bufs. cbn [bc_buf]. case_decide as E.
  - subst. by rewrite list_lookup_insert_eq by lia.
  - by rewrite list_lookup_insert_ne.
Qed.

Lemma setb_setb s i b b' : setb (setb s i b) i b' = setb s i b'.
Proof. unfold setb, set_bufs. cbn. by rewrite list_insert_insert_eq. Qed.

Lemma setb_getb s i : setb s i (getb s i) = s.
Proof.
  destruct s as [lk bs d hs]. unfold setb, set_bufs, getb. cbn. f_equal.
  destruct (bs !! i) as [b|] eqn:E; cbn; [by apply list_insert_id|].
  apply list_insert_ge. by apply lookup_ge_None.
Qed.

(** Changing a buffer in a way its neighbours and its identity do not see. *)
Lemma cache_inv_upd s l i b : cache_inv s l -> (i < NBUF)%nat ->
  b_prev b = b_prev (getb s i) -> b_next b = b_next (getb s i) ->
  (b_dev b = b_dev (getb s i) /\ b_blockno b = b_blockno (getb s i) \/
   forall j, (j < NBUF)%nat -> j <> i -> b_dev (getb s j) <> b_dev b \/ b_blockno (getb s j) <> b_blockno b) ->
  buf_ok b -> cache_inv (setb s i b) l.
Proof.
  intros [H1 H2 H3 H4 H5 H6 H7] Hi Hp Hn Hid Hb.
  assert (Hg : forall j, getb (setb s i b) j = if decide (j = i) then b else getb s j).
  { intros j. apply getb_setb; [done|lia]. }
  split; [exact H1| | |exact H4| | |exact H7].
  - unfold setb, set_bufs. cbn. by rewrite length_insert.
  - eapply linked_ext; [| |exact H3].
    + intros j _. unfold nxs. rewrite Hg. case_decide; congruence.
    + intros j _. unfold pvs. rewrite Hg. case_decide; congruence.
  - intros j k Hj Hk. rewrite !Hg. repeat case_decide; subst; try done; intros Hdev Ed Eb.
    + destruct Hid as [[E1 E2]|Hid]; [apply H5; congruence || lia|]. destruct (Hid k Hk); congruence.
    + destruct Hid as [[E1 E2]|Hid]; [apply H5; congruence || lia|]. destruct (Hid j Hj); congruence.
    + by apply H5.
  - intros j Hj. rewrite Hg. case_decide; auto.
Qed.

(** *** The sleep lock of a buffer *)

Definition grab (b : buf) : buf := set_lock b (mk_sleeplock true false mypid).
Definition drop_lock (b : buf) : buf := set_lock b (mk_sleeplock false false 0).
Definition held_by_me (b : buf) : Prop := sl_locked (b_lock b) = true /\ sl_pid (b_lock b) = mypid.

Lemma set_lock_same b : set_lock b (b_lock b) = b.
Proof. by destruct b. Qed.

Lemma buf_lens s i : length (bc_buf s) = S NBUF -> (i < NBUF)%nat ->
  (forall lk, buf_sl i (set_buf_sl i s lk) = lk) /\
  (forall lk lk', set_buf_sl i (set_buf_sl i s lk) lk' = set_buf_sl i s lk') /\
  set_buf_sl i s (buf_sl i s) = s.
Proof.
  intros Hlen Hi. unfold buf_sl, set_buf_sl.
  split_and!; intros; rewrite ?getb_setb, ?decide_True by (lia || done).
  - done.
  - rewrite setb_setb. by destruct (getb s i).
  - by rewrite set_lock_same, setb_getb.
Qed.

Lemma acquiresleep_buf s i : length (bc_buf s) = S NBUF -> (i < NBUF)%nat -> sl_lk (b_lock (getb s i)) = false ->
  acquiresleep (buf_sl i) (set_buf_sl i) mypid (ChBuf i) s =
    if sl_locked (b_lock (getb s i)) then Sleep (ChBuf i) s else Ok tt (setb s i (grab (getb s i))).
Proof. intros Hlen Hi Hlk. destruct (buf_lens s i Hlen Hi) as (H1 & H2 & H3). exact (acquiresleep_lens (buf_sl i) (set_buf_sl i) mypid (ChBuf i) s H1 H2 H3 Hlk). Qed.

Lemma releasesleep_buf s i : length (bc_buf s) = S NBUF -> (i < NBUF)%nat -> sl_lk (b_lock (getb s i)) = false ->
  releasesleep (buf_sl i) (set_buf_sl i) s = Ok tt (setb s i (drop_lock (getb s i))).
Proof. intros Hlen Hi Hlk. destruct (buf_lens s i Hlen Hi) as (H1 & H2 & _). exact (releasesleep_lens (buf_sl i) (set_buf_sl i) s H1 H2 Hlk). Qed.

Lemma holdingsleep_buf s i : length (bc_buf s) = S NBUF -> (i < NBUF)%nat -> sl_lk (b_lock (getb s i)) = false ->
  held_by_me (getb s i) -> holdingsleep (buf_sl i) (set_buf_sl i) mypid s = Ok true s.
Proof.
  intros Hlen Hi Hlk [Hl Hp]. destruct (buf_lens s i Hlen Hi) as (H1 & H2 & H3).
  rewrite (holdingsleep_lens (buf_sl i) (set_buf_sl i) mypid s H1 H2 H3 Hlk). unfold buf_sl. by rewrite Hl, Hp, Z.eqb_refl.
Qed.

(** *** The two scans of bget *)

Lemma scan_next_find s p x l fuel : linked (nxs s) (pvs s) x l head -> head ∉ l -> (length l < fuel)%nat ->
  scan_next fuel s p (nxs s x) = Some (List.find (fun i => p (getb s i)) l).
Proof.
  revert x fuel. induction l as [|y l IH]; intros x fuel Hl Hh Hf; (destruct fuel as [|fuel]; [cbn in Hf; lia|]);
    cbn [scan_next linked List.find] in *.
  - destruct Hl as [-> _]. by rewrite Nat.eqb_refl.
  - destruct Hl as (-> & _ & Hl). apply not_elem_of_cons in Hh as [Hh1 Hh].
    destruct (Nat.eqb_spec y head) as [->|_]; [done|]. destruct (p (getb s y)); [done|].
    apply IH; [done|done|cbn in Hf; lia].
Qed.

Lemma linked_snoc nx pv x l z last : linked nx pv x (l ++ [z]) last <-> linked nx pv x l z /\ nx z = last /\ pv last = z.
Proof. by rewrite linked_app. Qed.

Lemma scan_prev_find s p x l fuel : linked (nxs s) (pvs s) head l x -> head ∉ l -> (length l < fuel)%nat ->
  scan_prev fuel s p (pvs s x) = Some (List.find (fun i => p (getb s i)) (rev l)).
Proof.
  revert x fuel. induction l as [|y l IH] using rev_ind; intros x fuel Hl Hh Hf;
    (destruct fuel as [|fuel]; [cbn in Hf; lia|]).
  - cbn in *. destruct Hl as [_ ->]. by rewrite Nat.eqb_refl.
  - apply linked_snoc in Hl as (Hl & _ & ->). rewrite rev_unit. cbn [scan_prev List.find].
    rewrite not_elem_of_app, not_elem_of_cons in Hh. destruct Hh as (Hh & Hh1 & _).
    destruct (Nat.eqb_spec y head) as [->|_]; [done|]. destruct (p (getb s y)); [done|].
    apply IH; [done|done|]. rewrite length_app in Hf. cbn in Hf. lia.
Qed.

(** *** bget *)

Definition cached s (dev bno : Z) i : Prop :=
  (i < NBUF)%nat /\ b_dev (getb s i) = dev /\ b_blockno (getb s i) = bno.

Definition match_buf (dev bno : Z) (b : buf) : bool := (b_dev b =? dev) && (b_blockno b =? bno).

Lemma match_buf_true dev bno b : match_buf dev bno b = true <-> b_dev b = dev /\ b_blockno b = bno.
Proof. unfold match_buf. rewrite andb_true_iff, !Z.eqb_eq. done. Qed.

(** The block is found, if it is cached at all. *)
Lemma find_cached s l dev bno i : cache_inv s l -> dev <> 0 -> cached s dev bno i ->
  List.find (fun i => match_buf dev bno (getb s i)) l = Some i.
Proof.
  intros Hc Hdev (Hi & Hd & Hb). destruct (List.find _ l) as [j|] eqn:E.
  - apply find_some in E as [Hj%list_elem_of_In Hm]. apply match_buf_true in Hm as [Hd' Hb'].
    apply (cache_elem s l j Hc) in Hj. f_equal. apply (ci_uniq _ _ Hc); congruence || done.
  - apply find_none with (x := i) in E; [|by apply list_elem_of_In, (cache_elem s l i Hc)].
    by rewrite (proj2 (match_buf_true dev bno _) (conj Hd Hb)) in E.
Qed.

Lemma find_uncached s l dev bno : cache_inv s l -> (forall i, ~ cached s dev bno i) ->
  List.find (fun i => match_buf dev bno (getb s i)) l = None.
Proof.
  intros Hc Hn. destruct (List.find _ l) as [j|] eqn:E; [|done].
  apply find_some in E as [Hj%list_elem_of_In Hm]. apply match_buf_true in Hm as [Hd Hb].
  destruct (Hn j). split_and!; [by apply (cache_elem s l j Hc)|done|done].
Qed.

(** The buffer to recycle: the least recently used one without users. *)
Definition victim s l : option nat := List.find (fun i => b_refcnt (getb s i) =? 0) (rev l).

Lemma victim_some s l i : cache_inv s l -> victim s l = Some i -> (i < NBUF)%nat /\ b_refcnt (getb s i) = 0.
Proof.
  intros Hc [Hi%list_elem_of_In Hr]%find_some. split; [|by apply Z.eqb_eq].
  apply (cache_elem s l i Hc). by rewrite <- Permutation_rev in Hi.
Qed.

Lemma bget_run s l dev bno : cache_inv s l ->
  bget mypid dev bno s =
    match List.find (fun i => match_buf dev bno (getb s i)) l with
    | Some i =>
        (acquiresleep (buf_sl i) (set_buf_sl i) mypid (ChBuf i) ;;; ret i)
          (setb s i (set_refcnt (getb s i) (u32 (b_refcnt (getb s i) + 1))))
    | None =>
        match victim s l with
        | Some i => (acquiresleep (buf_sl i) (set_buf_sl i) mypid (ChBuf i) ;;; ret i)
                      (setb s i (recycle (getb s i) dev bno))
        | None => Panic "bget: no buffers"
        end
    end.
Proof.
  intros Hc. destruct Hc as [H1 H2 H3 H4 H5 H6 H7] eqn:EHc. pose proof (cache_nodup s l Hc) as [Hh _]%NoDup_cons.
  assert (Hl : (length l < S NBUF)%nat) by (rewrite H4, length_seq; lia).
  unfold bget, acquire. unfold bind at 1 2 3, get. rewrite H1. unfold put.
  pose proof (scan_next_find s (match_buf dev bno) head l (S NBUF) H3 Hh Hl) as E1.
  pose proof (scan_prev_find s (fun b => b_refcnt b =? 0) head l (S NBUF) H3 Hh Hl) as E2.
  assert (Eb : forall i, getb (set_bc_lock s true) i = getb s i) by done.
  assert (En : forall p k x, scan_next k (set_bc_lock s true) p x = scan_next k s p x).
  { intros p k. induction k as [|k IH]; intros x; [done|]. cbn [scan_next]. rewrite Eb. by rewrite IH. }
  assert (Ep : forall p k x, scan_prev k (set_bc_lock s true) p x = scan_prev k s p x).
  { intros p k. induction k as [|k IH]; intros x; [done|]. cbn [scan_prev]. rewrite Eb. by rewrite IH. }
  fold (match_buf dev bno) in *. rewrite En, Ep, !Eb. unfold nxs, pvs in E1, E2. rewrite E1.
  assert (Elk : forall i b, set_bc_lock (setb (set_bc_lock s true) i b) false = setb s i b).
  { intros. destruct s as [lk bs d hs]. cbn in H1. by subst lk. }
  destruct (List.find (fun i => match_buf dev bno (getb s i)) l) as [i|].
  - unfold updb, modify, release. unfold bind at 1 2 3, get, put. cbn [bc_lock setb set_bufs set_bc_lock].
    change (mk_bio true _ (bdisk s) (bhist s)) with (setb (set_bc_lock s true) i (set_refcnt (getb s i) (u32 (b_refcnt (getb s i) + 1)))).
    by rewrite Elk.
  - rewrite E2. fold (victim s l). destruct (victim s l) as [i|]; [|done].
    unfold updb, modify, release. unfold bind at 1 2 3, get, put. cbn [bc_lock setb set_bufs set_bc_lock].
    change (mk_bio true _ (bdisk s) (bhist s)) with (setb (set_bc_lock s true) i (recycle (getb s i) dev bno)).
    by rewrite Elk.
Qed.

(** *** bread *)

(** What block [bno] of device [dev] holds: the cached copy if there is one. *)
Definition view s (dev bno : Z) : block :=
  match List.find (fun i => match_buf dev bno (getb s i) && b_valid (getb s i)) (seq 0 NBUF) with
  | Some i => b_data (getb s i)
  | None => dblock (bdisk s) bno
  end.

Lemma view_cached s l dev bno i : cache_inv s l -> dev <> 0 -> cached s dev bno i ->
  view s dev bno = if b_valid (getb s i) then b_data (getb s i) else dblock (bdisk s) bno.
Proof.
  intros Hc Hdev (Hi & Hd & Hb). unfold view. destruct (List.find _ _) as [j|] eqn:E.
  - apply find_some in E as [Hj%list_elem_of_In [Hm Hv]%andb_true_iff]. apply elem_of_seq in Hj.
    apply match_buf_true in Hm as [Hd' Hb']. assert (j = i) as ->; [|by rewrite Hv].
    apply (ci_uniq _ _ Hc); congruence || lia.
  - apply find_none with (x := i) in E; [|apply list_elem_of_In, elem_of_seq; lia].
    rewrite (proj2 (match_buf_true dev bno _) (conj Hd Hb)) in E. cbn in E. by rewrite E.
Qed.

Lemma view_uncached s dev bno : (forall i, ~ cached s dev bno i) -> view s dev bno = dblock (bdisk s) bno.
Proof.
  intros Hn. unfold view. destruct (List.find _ _) as [j|] eqn:E; [|done].
  apply find_some in E as [Hj%list_elem_of_In [Hm Hv]%andb_true_iff]. apply elem_of_seq in Hj.
  apply match_buf_true in Hm as [Hd Hb]. destruct (Hn j). split_and!; [lia|done|done].
Qed.

Lemma cached_dec s dev bno : {i | cached s dev bno i} + {forall i, ~ cached s dev bno i}.
Proof.
  destruct (List.find (fun i => match_buf dev bno (getb s i)) (seq 0 NBUF)) as [i|] eqn:E.
  - left. exists i. apply find_some in E as [Hi%list_elem_of_In Hm]. apply elem_of_seq in Hi.
    apply match_buf_true in Hm as [Hd Hb]. split_and!; [lia|done|done].
  - right. intros i (Hi & Hd & Hb). apply find_none with (x := i) in E; [|apply list_elem_of_In, elem_of_seq; lia].
    by rewrite (proj2 (match_buf_true dev bno _) (conj Hd Hb)) in E.
Qed.

(** Buffers nobody uses hold nothing the device does not hold. *)
Definition clean s : Prop := forall i, (i < NBUF)%nat -> b_refcnt (getb s i) = 0 -> b_valid (getb s i) = true ->
  b_data (getb s i) = dblock (bdisk s) (b_blockno (getb s i)).

(** A buffer as [bread] returns it. *)
Record locked_buf (b : buf) (dev bno : Z) (data : block) : Prop := {
  lb_valid : b_valid b = true;
  lb_dev : b_dev b = dev;
  lb_bno : b_blockno b = bno;
  lb_lock : b_lock b = mk_sleeplock true false mypid;
  lb_data : b_data b = data
}.

Definition set_disk s (d : D) (h : list D) : bio D := mk_bio (bc_lock s) (bc_buf s) d h.

Lemma cache_inv_disk s l d h : cache_inv s l -> dok d -> cache_inv (set_disk s d h) l.
Proof. intros [H1 H2 H3 H4 H5 H6 H7] Hd. split; done. Qed.

(** Reading the block into a buffer that has just been locked. *)
Lemma fill_run s l i dev bno : cache_inv s l -> (i < NBUF)%nat -> 0 <= bno < dsize ->
  b_dev (getb s i) = dev -> b_blockno (getb s i) = bno -> b_lock (getb s i) = mk_sleeplock true false mypid ->
  exists s', (s0 <- get ;; when (negb (b_valid (getb s0 i))) (rw i false ;;; updb i (fun b => set_valid b true)) ;;; ret i) s
      = Ok i s' /\
    cache_inv s' l /\ (forall j, j <> i -> getb s' j = getb s j) /\ bhist s' = bhist s /\
    (forall k, dblock (bdisk s') k = dblock (bdisk s) k) /\ b_refcnt (getb s' i) = b_refcnt (getb s i) /\
    locked_buf (getb s' i) dev bno (if b_valid (getb s i) then b_data (getb s i) else dblock (bdisk s) bno).
Proof.
  intros Hc Hi Hbno Hdev Hb Hlk. unfold bind at 1, get. destruct (b_valid (getb s i)) eqn:Ev; cbn [negb when].
  { exists s. split_and!; try done. }
  pose proof (ci_buf _ _ Hc i Hi) as [R1 R2 R3 R4]. pose proof (ci_len _ _ Hc) as Hlen.
  destruct (disk_read (bdisk s) bno (b_data (getb s i)) (ci_disk _ _ Hc) Hbno R4) as (d' & Hr & Hd' & Hsame).
  set (b1 := set_data (getb s i) (dblock (bdisk s) bno)). set (b2 := set_valid b1 true).
  exists (set_disk (setb s i b2) d' (bhist s)).
  assert (Erw : rw i false s = Ok tt (set_disk (setb s i b1) d' (bhist s))) by (unfold rw; by rewrite Hb, Hr).
  assert (G : forall j, getb (set_disk (setb s i b2) d' (bhist s)) j = if decide (j = i) then b2 else getb s j).
  { intros j. apply (getb_setb s i b2 j); [done|lia]. }
  split_and!.
  - rewrite bind_assoc. step_with Erw. unfold updb, modify, bind, ret.
    assert (Eg : getb (set_disk (setb s i b1) d' (bhist s)) i = b1).
    { transitivity (getb (setb s i b1) i); [done|]. rewrite getb_setb by (done || lia). by rewrite decide_True. }
    rewrite Eg. unfold setb, set_disk, set_bufs. cbn [bc_buf bc_lock bdisk bhist]. by rewrite list_insert_insert_eq.
  - apply cache_inv_disk; [|done]. apply cache_inv_upd; try done; [by left|].
    split; cbn; [apply R1|apply R2|apply R3|]. apply dblock_block, Hc.
  - intros j Hj. rewrite G. by rewrite decide_False.
  - done.
  - intros k. cbn. apply Hsame.
  - rewrite G, decide_True by done. done.
  - rewrite G, decide_True by done. by split.
Qed.

(** What [bread] does: buffer [i] is locked and holds the block; no other
    buffer changes. *)
Record fetched s l (dev bno : Z) s' i : Prop := {
  fe_inv : cache_inv s' l;
  fe_idx : (i < NBUF)%nat;
  fe_others : forall j, j <> i -> getb s' j = getb s j;
  fe_hist : bhist s' = bhist s;
  fe_disk : forall k, dblock (bdisk s') k = dblock (bdisk s) k;
  fe_buf : locked_buf (getb s' i) dev bno (view s dev bno);
  fe_ref : cached s dev bno i /\ b_refcnt (getb s' i) = b_refcnt (getb s i) + 1 \/
           (forall j, ~ cached s dev bno j) /\ b_refcnt (getb s i) = 0 /\ b_refcnt (getb s' i) = 1
}.

Lemma grab_ok b : buf_ok b -> 0 < b_refcnt b -> buf_ok (grab b).
Proof. intros [R1 R2 R3 R4] Hr. by split. Qed.

Lemma bread_hit s l dev bno i : cache_inv s l -> dev <> 0 -> 0 <= bno < dsize -> cached s dev bno i ->
  sl_locked (b_lock (getb s i)) = false -> b_refcnt (getb s i) + 1 < 2 ^ 32 ->
  exists s', bread mypid dev bno s = Ok i s' /\ fetched s l dev bno s' i.
Proof.
  intros Hc Hdev Hbno Hca Hlk Hr. pose proof Hca as (Hi & Hd & Hb). pose proof (ci_len _ _ Hc) as Hlen.
  pose proof (ci_buf _ _ Hc i Hi) as [R1 R2 R3 R4].
  unfold bread. unfold bind at 1. rewrite (bget_run s l dev bno Hc), (find_cached s l dev bno i Hc Hdev Hca).
  rewrite u32_small by lia. set (b1 := set_refcnt (getb s i) (b_refcnt (getb s i) + 1)).
  assert (E1 : getb (setb s i b1) i = b1) by (rewrite getb_setb by (done || lia); by rewrite decide_True).
  assert (Hlen1 : length (bc_buf (setb s i b1)) = S NBUF) by (cbn; by rewrite length_insert).
  assert (Eacq : acquiresleep (buf_sl i) (set_buf_sl i) mypid (ChBuf i) (setb s i b1) = Ok tt (setb s i (grab b1))).
  { rewrite (acquiresleep_buf _ _ Hlen1 Hi), E1 by (by rewrite E1). cbn [b1 set_refcnt b_lock]. by rewrite Hlk, setb_setb. }
  step_with Eacq. unfold ret at 1.
  assert (G : forall j, getb (setb s i (grab b1)) j = if decide (j = i) then grab b1 else getb s j).
  { intros j. apply getb_setb; [done|lia]. }
  assert (C1 : cache_inv (setb s i (grab b1)) l).
  { apply cache_inv_upd; try done; [by left|]. apply grab_ok; [|cbn; lia]. split; cbn; try done; lia. }
  assert (Gi : getb (setb s i (grab b1)) i = grab b1) by (rewrite G; by rewrite decide_True).
  destruct (fill_run _ l i dev bno C1 Hi Hbno) as (s' & Hrun & C' & Ho & Hh & Hdk & Href & Hlb);
    try (rewrite Gi; done).
  exists s'. split; [exact Hrun|]. rewrite Gi in Hlb, Href.
  split; [done|done| |done|done| |left; split; [done|exact Href]].
  - intros j Hj. rewrite Ho by done. rewrite G. by rewrite decide_False.
  - rewrite (view_cached s l dev bno i Hc Hdev Hca). exact Hlb.
Qed.

Lemma bread_miss s l dev bno i : cache_inv s l -> 0 <= bno < dsize -> (forall j, ~ cached s dev bno j) ->
  victim s l = Some i -> exists s', bread mypid dev bno s = Ok i s' /\ fetched s l dev bno s' i.
Proof.
  intros Hc Hbno Hn Hv. destruct (victim_some s l i Hc Hv) as [Hi Hr0]. pose proof (ci_len _ _ Hc) as Hlen.
  pose proof (ci_buf _ _ Hc i Hi) as [R1 R2 R3 R4].
  assert (Hlk : sl_locked (b_lock (getb s i)) = false).
  { destruct (sl_locked _); [|done]. specialize (R3 eq_refl). lia. }
  unfold bread. unfold bind at 1. rewrite (bget_run s l dev bno Hc), (find_uncached s l dev bno Hc Hn), Hv.
  set (b1 := recycle (getb s i) dev bno).
  assert (E1 : getb (setb s i b1) i = b1) by (rewrite getb_setb by (done || lia); by rewrite decide_True).
  assert (Hlen1 : length (bc_buf (setb s i b1)) = S NBUF) by (cbn; by rewrite length_insert).
  assert (Eacq : acquiresleep (buf_sl i) (set_buf_sl i) mypid (ChBuf i) (setb s i b1) = Ok tt (setb s i (grab b1))).
  { rewrite (acquiresleep_buf _ _ Hlen1 Hi), E1 by (by rewrite E1). cbn [b1 recycle b_lock]. by rewrite Hlk, setb_setb. }
  step_with Eacq. unfold ret at 1.
  assert (G : forall j, getb (setb s i (grab b1)) j = if decide (j = i) then grab b1 else getb s j).
  { intros j. apply getb_setb; [done|lia]. }
  assert (C1 : cache_inv (setb s i (grab b1)) l).
  { apply cache_inv_upd; try done.
    right. intros j Hj Hji. cbn. destruct (decide (b_dev (getb s j) = dev)); [|by left].
    destruct (decide (b_blockno (getb s j) = bno)); [|by right]. destruct (Hn j). by split_and!. }
  assert (Gi : getb (setb s i (grab b1)) i = grab b1) by (rewrite G; by rewrite decide_True).
  destruct (fill_run _ l i dev bno C1 Hi Hbno) as (s' & Hrun & C' & Ho & Hh & Hdk & Href & Hlb);
    try (rewrite Gi; done).
  exists s'. split; [exact Hrun|]. rewrite Gi in Hlb, Href.
  split; [done|done| |done|done| |right; split_and!; [done|done|exact Href]].
  - intros j Hj. rewrite Ho by done. rewrite G. by rewrite decide_False.
  - rewrite (view_uncached s dev bno Hn). exact Hlb.
Qed.

(** Fetching a block changes no block's contents. *)
Lemma fetched_view s l dev bno s' i dev' bno' : cache_inv s l -> clean s -> fetched s l dev bno s' i ->
  dev <> 0 -> dev' <> 0 -> view s' dev' bno' = view s dev' bno'.
Proof.
  intros Hc Hcl [F1 F2 F3 F4 F5 [B1 B2 B3 B4 B5] F7] Hdev Hdev'.
  destruct (decide (dev' = dev /\ bno' = bno)) as [[-> ->]|Hne].
  { rewrite (view_cached s' l dev bno i F1 Hdev); [|by split_and!]. by rewrite B1. }
  assert (Hnot : ~ cached s' dev' bno' i) by (intros (_ & Hd & Hb); apply Hne; split; congruence).
  destruct (cached_dec s' dev' bno') as [[j Hj]|Hn'].
  - assert (j <> i) as Hji by (intros ->; done). rewrite (view_cached s' l dev' bno' j F1 Hdev' Hj).
    destruct Hj as (Hj1 & Hj2 & Hj3). rewrite F3 in Hj2, Hj3 |- * by done.
    rewrite (view_cached s l dev' bno' j Hc Hdev') by (by split_and!). by rewrite F5.
  - rewrite view_uncached, F5 by done. destruct (cached_dec s dev' bno') as [[j Hj]|Hn].
    + assert (j = i) as ->.
      { destruct (decide (j = i)); [done|]. destruct (Hn' j). destruct Hj as (? & ? & ?). rewrite <- F3 in * by done. by split_and!. }
      rewrite (view_cached s l dev' bno' i Hc Hdev' Hj). destruct Hj as (_ & Hd & Hb).
      destruct (b_valid (getb s i)) eqn:Ev; [|done]. destruct F7 as [[(_ & Hd2 & Hb2) _]|(_ & Hr & _)].
      * destruct Hne. split; congruence.
      * rewrite (Hcl i F2 Hr Ev). by rewrite Hb.
    + by rewrite view_uncached.
Qed.

Lemma fetched_clean s l dev bno s' i : clean s -> fetched s l dev bno s' i -> cache_inv s l -> clean s'.
Proof.
  intros Hcl [F1 F2 F3 F4 F5 F6 F7] Hc j Hj Hr Hv. destruct (decide (j = i)) as [->|Hne].
  - destruct F7 as [[_ E]|(_ & _ & E)]; [|lia]. pose proof (bo_ref _ (ci_buf _ _ Hc i F2)). lia.
  - rewrite F3 in * by done. rewrite F5. by apply Hcl.
Qed.

(** *** Moving a buffer to the front *)

(** A buffer without its links. *)
Definition core (b : buf) : buf := set_prev (set_next b 0) 0.

Lemma core_set_prev b p : core (set_prev b p) = core b. Proof. done. Qed.
Lemma core_set_next b n : core (set_next b n) = core b. Proof. done. Qed.

Definition put_prev s i p : bio D := setb s i (set_prev (getb s i) p).
Definition put_next s i n : bio D := setb s i (set_next (getb s i) n).

Lemma put_links s i v : length (bc_buf s) = S NBUF -> (i <= NBUF)%nat ->
  (forall k, nxs (put_prev s i v) k = nxs s k) /\ (forall k, pvs (put_prev s i v) k = fset (pvs s) i v k) /\
  (forall k, nxs (put_next s i v) k = fset (nxs s) i v k) /\ (forall k, pvs (put_next s i v) k = pvs s k) /\
  (forall k, core (getb (put_prev s i v) k) = core (getb s k)) /\
  (forall k, core (getb (put_next s i v) k) = core (getb s k)).
Proof.
  intros Hlen Hi. unfold nxs, pvs, put_prev, put_next, fset.
  split_and!; intros k; rewrite getb_setb by done; case_decide; subst; rewrite ?Nat.eqb_refl; try done;
    by destruct (Nat.eqb_spec k i).
Qed.

Lemma put_len s i v : length (bc_buf (put_prev s i v)) = length (bc_buf s) /\
  length (bc_buf (put_next s i v)) = length (bc_buf s).
Proof. cbn. by rewrite !length_insert. Qed.

(** The six assignments of [brelse]. *)
Definition move_front (b : nat) s : bio D :=
  let t1 := put_prev s (nxs s b) (pvs s b) in
  let t2 := put_next t1 (pvs t1 b) (nxs t1 b) in
  let t3 := put_next t2 b (nxs t2 head) in
  let t4 := put_prev t3 b head in
  let t5 := put_prev t4 (nxs t4 head) b in
  put_next t5 head b.

Lemma linked_nbr nx pv x l last i : linked nx pv x l last -> i ∈ l ->
  nx i ∈ l ++ [last] /\ pv i ∈ x :: l.
Proof.
  intros Hl Hi. apply list_elem_of_split in Hi as (l1 & l2 & ->). apply linked_app in Hl as [H1 H2]. split.
  - rewrite (linked_first _ _ _ _ _ H2). destruct l2 as [|y l2]; cbn [hd].
    + apply elem_of_app. right. by left.
    + rewrite <- app_assoc. apply elem_of_app. right. right. by left.
  - rewrite (linked_last _ _ _ _ _ H1). pose proof (last_elem l1 x) as Hl.
    apply elem_of_cons in Hl as [->|Hl]; [by left|]. right. apply elem_of_app. by left.
Qed.

Lemma move_front_spec s l i : length (bc_buf s) = S NBUF -> linked (nxs s) (pvs s) head l head ->
  l ≡ₚ seq 0 NBUF -> i ∈ l ->
  exists l', linked (nxs (move_front i s)) (pvs (move_front i s)) head l' head /\ l' = i :: List.remove Nat.eq_dec i l /\
    l' ≡ₚ l /\
    (forall k, core (getb (move_front i s) k) = core (getb s k)) /\ length (bc_buf (move_front i s)) = S NBUF /\
    bc_lock (move_front i s) = bc_lock s /\ bdisk (move_front i s) = bdisk s /\ bhist (move_front i s) = bhist s.
Proof.
  intros Hlen Hl Hperm Hi.
  assert (Hnd : NoDup (head :: l)).
  { apply NoDup_cons. rewrite Hperm. split; [rewrite elem_of_seq; unfold head; lia|apply NoDup_seq]. }
  assert (Hrange : forall k, k ∈ head :: l -> (k <= NBUF)%nat).
  { intros k. rewrite elem_of_cons, Hperm, elem_of_seq. unfold head. lia. }
  destruct (linked_nbr _ _ _ _ _ _ Hl Hi) as [Hnx Hpv].
  assert (Hne_h : i <> head) by (intros ->; apply NoDup_cons in Hnd; tauto).
  apply list_elem_of_split in Hi as (l1 & l2 & ->).
  assert (Hrm : List.remove Nat.eq_dec i (l1 ++ i :: l2) = l1 ++ l2).
  { apply NoDup_cons in Hnd as [_ Hnd]. rewrite remove_app. cbn. destruct (Nat.eq_dec i i); [|done].
    apply NoDup_app in Hnd as (_ & Hd & [Hn2 _]%NoDup_cons).
    rewrite !notin_remove; [done| |]; rewrite <- list_elem_of_In; [done|]. intros Hin. apply (Hd i Hin). by left. }
  pose proof (linked_unlink _ _ _ _ _ _ Hl Hnd) as Hun.
  assert (Hnd2 : NoDup (head :: i :: l1 ++ l2)) by (by rewrite Permutation_middle).
  pose proof (linked_push _ _ _ _ _ Hun Hnd2) as Hpush.
  assert (Hnxi : nxs s i <> i).
  { apply linked_app in Hl as [_ H2]. rewrite (linked_first _ _ _ _ _ H2). destruct l2 as [|y l2]; cbn [hd]; [done|].
    intros ->. apply NoDup_cons in Hnd2 as [_ [Hni _]%NoDup_cons]. apply Hni, elem_of_app. right. by left. }
  assert (R1 : (nxs s i <= NBUF)%nat).
  { apply Hrange. rewrite elem_of_app, list_elem_of_singleton in Hnx. rewrite elem_of_cons. tauto. }
  assert (R2 : (pvs s i <= NBUF)%nat) by (by apply Hrange).
  assert (Rh : (head <= NBUF)%nat) by done. assert (Ri : (i <= NBUF)%nat) by (apply Hrange; right; apply elem_of_app; right; by left).
  exists (i :: l1 ++ l2). unfold move_front.
  set (t1 := put_prev s (nxs s i) (pvs s i)).
  destruct (put_links s (nxs s i) (pvs s i) Hlen R1) as (N1 & P1 & _ & _ & K1 & _). fold t1 in N1, P1, K1.
  assert (Ep1 : pvs t1 i = pvs s i) by (rewrite P1; by apply fset_ne).
  assert (L1 : length (bc_buf t1) = S NBUF) by (unfold t1; by rewrite (proj1 (put_len _ _ _))).
  rewrite Ep1, N1. set (t2 := put_next t1 (pvs s i) (nxs s i)).
  destruct (put_links t1 (pvs s i) (nxs s i) L1 R2) as (_ & _ & N2 & P2 & _ & K2). fold t2 in N2, P2, K2.
  assert (L2 : length (bc_buf t2) = S NBUF) by (unfold t2; by rewrite (proj2 (put_len _ _ _))).
  assert (Ri' : (nxs t2 head <= NBUF)%nat).
  { rewrite N2. unfold fset. case_match; [done|]. rewrite N1, (linked_first _ _ _ _ _ Hl). apply Hrange.
    destruct (l1 ++ i :: l2) as [|z lz] eqn:Ez; cbn [hd]; [by destruct l1|]. right. by left. }
  set (t3 := put_next t2 i (nxs t2 head)).
  destruct (put_links t2 i (nxs t2 head) L2 Ri) as (_ & _ & N3 & P3 & _ & K3). fold t3 in N3, P3, K3.
  assert (L3 : length (bc_buf t3) = S NBUF) by (unfold t3; by rewrite (proj2 (put_len _ _ _))).
  set (t4 := put_prev t3 i head).
  destruct (put_links t3 i head L3 Ri) as (N4 & P4 & _ & _ & K4 & _). fold t4 in N4, P4, K4.
  assert (L4 : length (bc_buf t4) = S NBUF) by (unfold t4; by rewrite (proj1 (put_len _ _ _))).
  assert (E4 : nxs t4 head = nxs t2 head) by (rewrite N4, N3; by apply fset_ne). rewrite E4.
  set (t5 := put_prev t4 (nxs t2 head) i).
  destruct (put_links t4 (nxs t2 head) i L4 Ri') as (N5 & P5 & _ & _ & K5 & _). fold t5 in N5, P5, K5.
  assert (L5 : length (bc_buf t5) = S NBUF) by (unfold t5; by rewrite (proj1 (put_len _ _ _))).
  destruct (put_links t5 head i L5 Rh) as (_ & _ & N6 & P6 & _ & K6).
  split_and!; [| |by rewrite Permutation_middle| | |done|done|done].
  - eapply linked_ext; [| |exact Hpush].
    + intros k _. rewrite N6. unfold link_nx, fset. rewrite N5, N4, N3. unfold fset.
      assert (Eh : nxs t2 head = unlink_nx (nxs s) (pvs s) i head) by (rewrite N2; unfold unlink_nx, fset; by rewrite N1).
      rewrite Eh. case_match; [done|]. case_match; [done|]. rewrite N2. unfold unlink_nx, fset. by rewrite N1.
    + intros k _. rewrite P6, P5. unfold link_pv, fset. rewrite P4. unfold fset.
      assert (Eh : nxs t2 head = unlink_nx (nxs s) (pvs s) i head) by (rewrite N2; unfold unlink_nx, fset; by rewrite N1).
      rewrite Eh. case_match; [done|]. case_match; [done|]. rewrite P3, P2, P1. done.
  - by rewrite Hrm.
  - intros k. by rewrite K6, K5, K4, K3, K2, K1.
  - by rewrite (proj2 (put_len _ _ _)).
Qed.

(** *** brelse *)

Lemma core_fields b b' : core b = core b' ->
  b_valid b = b_valid b' /\ b_dev b = b_dev b' /\ b_blockno b = b_blockno b' /\ b_lock b = b_lock b' /\
  b_refcnt b = b_refcnt b' /\ b_data b = b_data b'.
Proof. destruct b, b'. cbn. intros [=]. by subst. Qed.

Lemma buf_ok_core b b' : core b = core b' -> buf_ok b -> buf_ok b'.
Proof.
  intros (E1 & E2 & E3 & E4 & E5 & E6)%core_fields [R1 R2 R3 R4].
  split; rewrite <- ?E4, <- ?E5, <- ?E6; done.
Qed.

Lemma cache_inv_core s s' l l' : cache_inv s l -> (forall k, core (getb s' k) = core (getb s k)) ->
  length (bc_buf s') = S NBUF -> bc_lock s' = false -> bdisk s' = bdisk s ->
  linked (nxs s') (pvs s') head l' head -> l' ≡ₚ l -> cache_inv s' l'.
Proof.
  intros [H1 H2 H3 H4 H5 H6 H7] Hk Hlen Hlk Hd Hl Hp. split; [done|done|done|by rewrite Hp| | |congruence].
  - intros i j Hi Hj. destruct (core_fields _ _ (Hk i)) as (_ & E1 & E2 & _).
    destruct (core_fields _ _ (Hk j)) as (_ & E3 & E4 & _). rewrite E1, E2, E3, E4. by apply H5.
  - intros i Hi. apply (buf_ok_core (getb s i)); [by rewrite Hk|by apply H6].
Qed.

Definition rel_buf (b : buf) : buf := set_refcnt (drop_lock b) (b_refcnt b - 1).

Record released s l s' l' i : Prop := {
  re_inv : cache_inv s' l';
  re_others : forall k, k <> i -> core (getb s' k) = core (getb s k);
  re_buf : core (getb s' i) = core (rel_buf (getb s i));
  re_disk : bdisk s' = bdisk s;
  re_hist : bhist s' = bhist s;
  re_lru : l' = if decide (b_refcnt (getb s i) = 1) then i :: List.remove Nat.eq_dec i l else l
}.

Lemma brelse_run s l i : cache_inv s l -> (i < NBUF)%nat -> held_by_me (getb s i) ->
  exists s' l', brelse mypid i s = Ok tt s' /\ released s l s' l' i.
Proof.
  intros Hc Hi Hh. destruct s as [lk bs d hs]. assert (lk = false) as -> by apply (ci_lock _ _ Hc).
  set (s := mk_bio false bs d hs) in *.
  pose proof (ci_len _ _ Hc) as Hlen. pose proof (ci_buf _ _ Hc i Hi) as Hb. pose proof Hb as [R1 R2 R3 R4]. specialize (R3 (proj1 Hh)).
  unfold brelse. step_with (holdingsleep_buf s i Hlen Hi R2 Hh). cbn [negb].
  step_with (releasesleep_buf s i Hlen Hi R2). set (s1 := setb s i (drop_lock (getb s i))).
  assert (Hlk1 : bc_lock s1 = false) by apply Hc.
  unfold acquire. unfold bind at 1 2, get, put. rewrite Hlk1.
  assert (Hlen1 : length (bc_buf s1) = S NBUF) by (cbn; by rewrite length_insert).
  assert (G1 : getb s1 i = drop_lock (getb s i)) by (unfold s1; rewrite getb_setb by (done || lia); by rewrite decide_True).
  set (s2 := setb s i (rel_buf (getb s i))).
  assert (E2 : updb i (fun b => set_refcnt b (u32 (b_refcnt b - 1))) (set_bc_lock s1 true) = Ok tt (set_bc_lock s2 true)).
  { unfold updb, modify. change (getb (set_bc_lock s1 true) i) with (getb s1 i). rewrite G1. cbn [b_refcnt drop_lock set_lock].
    rewrite u32_small by lia. unfold s1, s2, setb, set_bc_lock, set_bufs. cbn [bc_buf bc_lock bdisk bhist].
    by rewrite list_insert_insert_eq. }
  step_with E2. unfold bind at 1.
  assert (G2 : getb s2 i = rel_buf (getb s i)) by (unfold s2; rewrite getb_setb by (done || lia); by rewrite decide_True).
  change (getb (set_bc_lock s2 true) i) with (getb s2 i). rewrite G2. cbn [b_refcnt rel_buf set_refcnt].
  assert (C2 : cache_inv s2 l).
  { apply cache_inv_upd; try done; [by left|]. split; cbn; try done; lia. }
  assert (O2 : forall k, k <> i -> getb s2 k = getb s k).
  { intros k Hk. unfold s2. rewrite getb_setb by (done || lia). by rewrite decide_False. }
  destruct (Z.eqb_spec (b_refcnt (getb s i) - 1) 0) as [E|E]; cbn [when].
  - destruct (move_front_spec s2 l i) as (l' & Hl' & El' & Hp' & Hk' & Hlen' & _ & Hd' & Hh').
    { apply C2. } { apply C2. } { apply C2. } { by apply (cache_elem s2 l i C2). }
    exists (move_front i s2), l'. split.
    + reflexivity.
    + split.
      * eapply cache_inv_core; [exact C2|exact Hk'|exact Hlen'|apply Hc|exact Hd'|exact Hl'|exact Hp'].
      * intros k Hk. rewrite Hk'. by rewrite O2.
      * rewrite Hk'. by rewrite G2.
      * exact Hd'.
      * exact Hh'.
      * rewrite decide_True by lia. exact El'.
  - exists s2, l. split.
    + reflexivity.
    + split; [done| |by rewrite G2|done|done|by rewrite decide_False by lia].
      intros k Hk. by rewrite O2.
Qed.

(** *** bwrite, bpin, bunpin, and writes to [b->data] *)

Lemma bwrite_run s l i : cache_inv s l -> (i < NBUF)%nat -> held_by_me (getb s i) ->
  0 <= b_blockno (getb s i) < dsize ->
  exists d', bwrite mypid i s = Ok tt (set_disk s d' (d' :: bhist s)) /\ dok d' /\
    forall k, dblock d' k = if decide (k = b_blockno (getb s i)) then b_data (getb s i) else dblock (bdisk s) k.
Proof.
  intros Hc Hi Hh Hb. pose proof (ci_buf _ _ Hc i Hi) as [R1 R2 R3 R4]. unfold bwrite.
  step_with (holdingsleep_buf s i (ci_len _ _ Hc) Hi R2 Hh). cbn [negb].
  destruct (disk_write (bdisk s) _ _ (ci_disk _ _ Hc) Hb R4) as (d' & Hr & Hd' & Hk').
  exists d'. split_and!; [|done|done]. unfold rw. rewrite Hr.
  replace (set_data (getb s i) (b_data (getb s i))) with (getb s i) by (by destruct (getb s i)).
  by rewrite setb_getb.
Qed.

Lemma bref_run s l i (f : buf -> buf) : cache_inv s l ->
  (acquire bc_lock set_bc_lock ;;; updb i f ;;; release bc_lock set_bc_lock) s = Ok tt (setb s i (f (getb s i))).
Proof.
  intros Hc. destruct s as [lk bs d hs]. assert (lk = false) as -> by apply (ci_lock _ _ Hc). reflexivity.
Qed.

Lemma bpin_run s l i : cache_inv s l -> (i < NBUF)%nat -> b_refcnt (getb s i) + 1 < 2 ^ 32 ->
  bpin i s = Ok tt (setb s i (set_refcnt (getb s i) (b_refcnt (getb s i) + 1))) /\
  cache_inv (setb s i (set_refcnt (getb s i) (b_refcnt (getb s i) + 1))) l.
Proof.
  intros Hc Hi Hr. pose proof (ci_buf _ _ Hc i Hi) as [R1 R2 R3 R4]. split.
  - unfold bpin. rewrite (bref_run s l) by done. by rewrite u32_small by lia.
  - apply cache_inv_upd; try done; [by left|]. split; cbn; try done; lia.
Qed.

Lemma bunpin_run s l i : cache_inv s l -> (i < NBUF)%nat -> 1 < b_refcnt (getb s i) ->
  bunpin i s = Ok tt (setb s i (set_refcnt (getb s i) (b_refcnt (getb s i) - 1))) /\
  cache_inv (setb s i (set_refcnt (getb s i) (b_refcnt (getb s i) - 1))) l.
Proof.
  intros Hc Hi Hr. pose proof (ci_buf _ _ Hc i Hi) as [R1 R2 R3 R4]. split.
  - unfold bunpin. rewrite (bref_run s l) by done. by rewrite u32_small by lia.
  - apply cache_inv_upd; try done; [by left|]. split; cbn; try done; lia.
Qed.

Lemma set_data_inv s l i data : cache_inv s l -> (i < NBUF)%nat -> is_block data ->
  cache_inv (setb s i (set_data (getb s i) data)) l.
Proof.
  intros Hc Hi Hd. pose proof (ci_buf _ _ Hc i Hi) as [R1 R2 R3 R4].
  apply cache_inv_upd; [done..|by left|by split].
Qed.

(** Contents only depend on the cores. *)
Lemma cached_core s s' dev bno i : core (getb s' i) = core (getb s i) -> cached s' dev bno i <-> cached s dev bno i.
Proof. intros (_ & E1 & E2 & _)%core_fields. unfold cached. by rewrite E1, E2. Qed.

Lemma view_core s s' dev bno :
  (forall k, (k < NBUF)%nat -> b_valid (getb s' k) = b_valid (getb s k) /\ b_dev (getb s' k) = b_dev (getb s k) /\
     b_blockno (getb s' k) = b_blockno (getb s k) /\ b_data (getb s' k) = b_data (getb s k)) ->
  dblock (bdisk s') bno = dblock (bdisk s) bno -> view s' dev bno = view s dev bno.
Proof.
  intros Hk Hd. unfold view.
  assert (E : forall ks, (forall k, k ∈ ks -> (k < NBUF)%nat) ->
    List.find (fun i => match_buf dev bno (getb s' i) && b_valid (getb s' i)) ks =
    List.find (fun i => match_buf dev bno (getb s i) && b_valid (getb s i)) ks).
  { induction ks as [|k ks IH]; intros Hks; [done|]. cbn [List.find].
    destruct (Hk k (Hks k ltac:(by left))) as (E1 & E2 & E3 & _). unfold match_buf. rewrite E1, E2, E3.
    destruct (_ && _); [done|]. apply IH. intros x Hx. apply Hks. by right. }
  rewrite E by (intros k [? ?]%elem_of_seq; lia). destruct (List.find _ _) as [j|] eqn:Ef; [|done].
  apply find_some in Ef as [Hj%list_elem_of_In _]. apply elem_of_seq in Hj. destruct (Hk j ltac:(lia)) as (_ & _ & _ & ->). done.
Qed.

Lemma released_view s l s' l' i dev bno : released s l s' l' i -> view s' dev bno = view s dev bno.
Proof.
  intros [_ R2 R3 R4 _ _]. apply view_core; [|by rewrite R4]. intros k Hk.
  destruct (decide (k = i)) as [->|Hne].
  - apply core_fields in R3 as (E1 & E2 & E3 & _ & _ & E6). by split_and!.
  - specialize (R2 k Hne). apply core_fields in R2 as (E1 & E2 & E3 & _ & _ & E6). by split_and!.
Qed.

Lemma released_clean s l s' l' i : released s l s' l' i -> clean s ->
  (b_refcnt (getb s i) = 1 -> b_valid (getb s i) = true ->
     b_data (getb s i) = dblock (bdisk s) (b_blockno (getb s i))) -> clean s'.
Proof.
  intros [_ R2 R3 R4 _ _] Hcl Hi k Hk Hr Hv. rewrite R4. destruct (decide (k = i)) as [->|Hne].
  - apply core_fields in R3 as (E1 & E2 & E3 & _ & E5 & E6). rewrite E3, E6. cbn in *. rewrite E5 in Hr. cbn in Hr.
    apply Hi; [lia|congruence].
  - specialize (R2 k Hne). apply core_fields in R2 as (E1 & E2 & E3 & _ & E5 & E6). rewrite E3, E6. apply Hcl; congruence.
Qed.

(** *** binit *)

Lemma binit_inv (d : D) h : dok d ->
  exists s', binit (mk_bio false (replicate (S NBUF) buf0) d h) = Ok tt s' /\ cache_inv s' (rev (seq 0 NBUF)) /\
    clean s' /\ bdisk s' = d /\ bhist s' = h /\ (forall dev bno i, dev <> 0 -> ~ cached s' dev bno i) /\
    forall i, (i < NBUF)%nat -> b_refcnt (getb s' i) = 0 /\ sl_locked (b_lock (getb s' i)) = false /\ b_valid (getb s' i) = false.
Proof.
  intros Hd. eexists. split; [vm_compute; reflexivity|].
  match goal with |- cache_inv ?s _ /\ _ => set (s' := s) end.
  assert (Hall : Forall (fun b => exists p n, b = set_prev (set_next buf0 n) p) (bc_buf s')).
  { repeat (apply Forall_cons; split; [eexists _, _; reflexivity|]). apply Forall_nil; done. }
  assert (Hget : forall i, exists p n, getb s' i = set_prev (set_next buf0 n) p).
  { intros i. unfold getb. destruct (bc_buf s' !! i) as [b|] eqn:E; [|by exists 0%nat, 0%nat].
    by apply (Forall_lookup_1 _ _ _ _ Hall E). }
  split_and!; try done.
  - split; try done.
    + by rewrite <- Permutation_rev.
    + intros i j _ _ Hdev. destruct (Hget i) as (p & n & E). by rewrite E in Hdev.
    + intros i _. destruct (Hget i) as (p & n & ->). split; [cbn; lia|done|done|apply blank_block].
  - intros i _ _ Hv. destruct (Hget i) as (p & n & E). by rewrite E in Hv.
  - intros dev bno i Hdev (_ & Hd' & _). destruct (Hget i) as (p & n & E). rewrite E in Hd'. by subst.
  - intros i _. by destruct (Hget i) as (p & n & ->).
Qed.

(** *** The cache as a client sees it *)

(** The block can be had without waiting: its buffer is unlocked, or there is
    a buffer to recycle. *)
Definition available s (dev bno : Z) : Prop :=
  (exists i, cached s dev bno i /\ sl_locked (b_lock (getb s i)) = false /\ b_refcnt (getb s i) + 1 < 2 ^ 32) \/
  (forall i, ~ cached s dev bno i) /\ exists i, (i < NBUF)%nat /\ b_refcnt (getb s i) = 0.

Lemma victim_exists s l i : cache_inv s l -> (i < NBUF)%nat -> b_refcnt (getb s i) = 0 -> exists j, victim s l = Some j.
Proof.
  intros Hc Hi Hr. unfold victim. destruct (List.find _ _) as [j|] eqn:E; [by exists j|].
  apply find_none with (x := i) in E; [by rewrite Hr in E|].
  apply list_elem_of_In. rewrite <- Permutation_rev. by apply (cache_elem s l i Hc).
Qed.

Lemma bread_run s l dev bno : cache_inv s l -> dev <> 0 -> 0 <= bno < dsize -> available s dev bno ->
  exists s' i, bread mypid dev bno s = Ok i s' /\ fetched s l dev bno s' i.
Proof.
  intros Hc Hdev Hb [(i & Hi & Hlk & Hr)|[Hn (i & Hi & Hr)]].
  - destruct (bread_hit s l dev bno i Hc Hdev Hb Hi Hlk Hr) as (s' & ? & ?). by exists s', i.
  - destruct (victim_exists s l i Hc Hi Hr) as [j Hj].
    destruct (bread_miss s l dev bno j Hc Hb Hn Hj) as (s' & ? & ?). by exists s', j.
Qed.

(** [bread] of a block that is available (its buffer unlocked, or some
    buffer unused) returns a locked buffer with the current contents of that
    block, leaves the contents of every block and every other buffer as they
    were, and writes nothing to the device. *)
Theorem bread_returns_block s l dev bno :
  cache_inv s l -> clean s -> dev <> 0 -> 0 <= bno < dsize -> available s dev bno ->
  exists s' i, bread mypid dev bno s = Ok i s' /\ cache_inv s' l /\ clean s' /\
    locked_buf (getb s' i) dev bno (view s dev bno) /\
    (forall dev' bno', dev' <> 0 -> view s' dev' bno' = view s dev' bno') /\
    (forall j, j <> i -> getb s' j = getb s j) /\ bhist s' = bhist s.
Proof.
  intros Hc Hcl Hdev Hb Hav. destruct (bread_run s l dev bno Hc Hdev Hb Hav) as (s' & i & Hr & Hf).
  exists s', i. pose proof (fetched_view s l dev bno s' i) as Hv. pose proof (fetched_clean s l dev bno s' i Hcl Hf Hc).
  destruct Hf as [F1 F2 F3 F4 F5 F6 F7] eqn:E. split_and!; try done. intros dev' bno' Hd'. by apply Hv.
Qed.

(** [bread] runs out of buffers exactly when the block is not cached and
    every one of the [NBUF] buffers is in use. *)
Theorem bread_panics_iff s l dev bno : cache_inv s l -> dev <> 0 -> 0 <= bno < dsize ->
  bread mypid dev bno s = Panic "bget: no buffers" <->
  (forall i, ~ cached s dev bno i) /\ forall i, (i < NBUF)%nat -> b_refcnt (getb s i) <> 0.
Proof.
  intros Hc Hdev Hb. split.
  - intros Hp. assert (Hn : forall i, ~ cached s dev bno i).
    { intros i Hi. revert Hp. unfold bread. unfold bind at 1.
      rewrite (bget_run s l dev bno Hc), (find_cached s l dev bno i Hc Hdev Hi).
      destruct Hi as (Hi & Hd & Hbn). pose proof (ci_buf _ _ Hc i Hi) as [R1 R2 R3 R4].
      set (b1 := set_refcnt _ _). pose proof (ci_len _ _ Hc) as Hlen.
      assert (E1 : getb (setb s i b1) i = b1) by (rewrite getb_setb by (done || lia); by rewrite decide_True).
      assert (Hlen1 : length (bc_buf (setb s i b1)) = S NBUF) by (cbn; by rewrite length_insert).
      unfold bind at 1. rewrite (acquiresleep_buf _ _ Hlen1 Hi), E1 by (by rewrite E1).
      destruct (sl_locked (b_lock b1)); [done|]. unfold ret at 1, bind at 1, get at 1. rewrite setb_setb.
      assert (E2 : getb (setb s i (grab b1)) i = grab b1) by (rewrite getb_setb by (done || lia); by rewrite decide_True).
      destruct (negb _); cbn [when]; [|done]. unfold bind at 1 2, rw. rewrite !E2.
      destruct (disk_read (bdisk s) bno (b_data (getb s i)) (ci_disk _ _ Hc) Hb R4) as (d' & Hr & _).
      cbn [bdisk setb set_bufs b_blockno b_data grab set_lock b1 set_refcnt]. by rewrite Hbn, Hr. }
    split; [done|]. intros i Hi Hr. destruct (victim_exists s l i Hc Hi Hr) as [j Hj].
    destruct (bread_miss s l dev bno j Hc Hb Hn Hj) as (s' & Hr' & _). congruence.
  - intros [Hn Hall]. unfold bread. unfold bind at 1.
    rewrite (bget_run s l dev bno Hc), (find_uncached s l dev bno Hc Hn).
    destruct (victim s l) as [j|] eqn:Ev; [|done]. apply (victim_some s l j Hc) in Ev as [Hj Hr]. by destruct (Hall j).
Qed.

(** One use of a block, and what it does to an abstract LRU cache. *)
Definition use_block (k : Z * Z) : M (bio D) block :=
  i <- bread mypid k.1 k.2 ;;
  s <- get ;;
  brelse mypid i ;;;
  ret (b_data (getb s i)).

Definition lru_use (c : list (Z * Z)) (k : Z * Z) : list (Z * Z) :=
  k :: (if decide (k ∈ c) then filter (fun x => x <> k) c else removelast c).

Fixpoint use_blocks (ks : list (Z * Z)) : M (bio D) (list block) :=
  match ks with
  | [] => ret []
  | k :: ks => x <- use_block k ;; xs <- use_blocks ks ;; ret (x :: xs)
  end.

Definition key s i : Z * Z := (b_dev (getb s i), b_blockno (getb s i)).
Definition keys s l : list (Z * Z) := map (key s) l.
Definition idle s : Prop := forall i, (i < NBUF)%nat -> b_refcnt (getb s i) = 0.

Lemma keys_remove_hit s l i k : (forall j, j ∈ l -> key s j = k <-> j = i) ->
  map (key s) (List.remove Nat.eq_dec i l) = filter (fun x => x <> k) (keys s l).
Proof.
  induction l as [|j l IH]; intros Hk; [done|]. cbn [List.remove keys map]. rewrite filter_cons.
  specialize (IH (fun x Hx => Hk x (list_elem_of_further _ _ _ Hx))). pose proof (Hk j ltac:(by left)) as Hj.
  destruct (Nat.eq_dec i j) as [->|Hne].
  - rewrite decide_False by tauto. exact IH.
  - rewrite decide_True by (intros E; apply Hne; symmetry; by apply Hj). cbn [map]. by rewrite IH.
Qed.

Lemma remove_last i l : NoDup (l ++ [i]) -> List.remove Nat.eq_dec i (l ++ [i]) = l.
Proof.
  intros [_ [Hd _]]%NoDup_app. rewrite remove_app. cbn. rewrite decide_True_pi || destruct (Nat.eq_dec i i); [|done].
  rewrite app_nil_r. apply notin_remove. intros Hi%list_elem_of_In. apply (Hd i Hi). by left.
Qed.

Lemma victim_idle s l i : cache_inv s l -> idle s -> victim s l = Some i -> exists l0, l = l0 ++ [i].
Proof.
  intros Hc Hid. unfold victim. destruct l as [|x l0 _] using rev_ind; [done|]. rewrite rev_unit. cbn [List.find].
  rewrite Hid by (apply (cache_elem _ _ x Hc), elem_of_app; right; by left). cbn. intros [= ->]. by exists l0.
Qed.

Lemma idle_view s l dev bno : cache_inv s l -> idle s -> clean s -> dev <> 0 -> view s dev bno = dblock (bdisk s) bno.
Proof.
  intros Hc Hid Hcl Hdev. destruct (cached_dec s dev bno) as [[i Hi]|Hn]; [|by apply view_uncached].
  rewrite (view_cached s l dev bno i Hc Hdev Hi). destruct Hi as (Hi & _ & Hb).
  destruct (b_valid (getb s i)) eqn:Ev; [|done]. rewrite (Hcl i Hi (Hid i Hi) Ev). by rewrite Hb.
Qed.

(** The buffer [bread] picks when nothing is in use, and what moving it to
    the front does to the keys. *)
Lemma bread_lru s l dev bno : cache_inv s l -> idle s -> dev <> 0 -> 0 <= bno < dsize ->
  exists s' i, bread mypid dev bno s = Ok i s' /\ fetched s l dev bno s' i /\
    (dev, bno) :: map (key s) (List.remove Nat.eq_dec i l) = lru_use (keys s l) (dev, bno).
Proof.
  intros Hc Hid Hdev Hb. pose proof (cache_nodup s l Hc) as [_ Hnd]%NoDup_cons. unfold lru_use.
  destruct (cached_dec s dev bno) as [[i Hi]|Hn].
  - pose proof Hi as (Hi1 & Hi2 & Hi3). pose proof (ci_buf _ _ Hc i Hi1) as [R1 R2 R3 R4].
    assert (Hlk : sl_locked (b_lock (getb s i)) = false).
    { destruct (sl_locked _); [|done]. rewrite (Hid i Hi1) in R3. specialize (R3 eq_refl). lia. }
    destruct (bread_hit s l dev bno i Hc Hdev Hb Hi Hlk) as (s' & Hr & Hf); [rewrite (Hid i Hi1); lia|].
    exists s', i. split_and!; [done|done|]. f_equal. rewrite decide_True.
    + apply keys_remove_hit. intros j Hj%(cache_elem s l j Hc). unfold key. split; [|intros ->; by rewrite Hi2, Hi3].
      intros [= E1 E2]. apply (ci_uniq _ _ Hc); congruence || done.
    + apply list_elem_of_fmap. exists i. unfold key. rewrite Hi2, Hi3. by rewrite (cache_elem s l i Hc).
  - destruct (victim_exists s l 0 Hc ltac:(unfold NBUF, MAXOPBLOCKS; lia) (Hid 0%nat ltac:(unfold NBUF, MAXOPBLOCKS; lia))) as [i Hv].
    destruct (bread_miss s l dev bno i Hc Hb Hn Hv) as (s' & Hr & Hf). exists s', i. split_and!; [done|done|]. f_equal.
    destruct (victim_idle s l i Hc Hid Hv) as [l0 ->]. rewrite decide_False.
    + rewrite remove_last by done. unfold keys. rewrite map_app. cbn [map]. by rewrite removelast_last.
    + intros (j & E & Hj)%list_elem_of_fmap. apply (Hn j). unfold key in E. injection E as E1 E2.
      split_and!; [by apply (cache_elem _ _ j Hc)|done|done].
Qed.

Lemma use_block_run s l dev bno : cache_inv s l -> idle s -> clean s -> dev <> 0 -> 0 <= bno < dsize ->
  exists s' l', use_block (dev, bno) s = Ok (dblock (bdisk s) bno) s' /\ cache_inv s' l' /\ idle s' /\ clean s' /\
    keys s' l' = lru_use (keys s l) (dev, bno) /\ forall k, dblock (bdisk s') k = dblock (bdisk s) k.
Proof.
  intros Hc Hid Hcl Hdev Hb. destruct (bread_lru s l dev bno Hc Hid Hdev Hb) as (s1 & i & Hr & Hf & Hk).
  pose proof (fetched_clean s l dev bno s1 i Hcl Hf Hc) as Hcl1. destruct Hf as [F1 F2 F3 F4 F5 [B1 B2 B3 B4 B5] F7].
  assert (Href : b_refcnt (getb s1 i) = 1) by (destruct F7 as [[_ ->]|(_ & _ & ->)]; [rewrite Hid|]; done).
  destruct (brelse_run s1 l i F1 F2) as (s' & l' & Hr' & Hrel); [unfold held_by_me; by rewrite B4|].
  exists s', l'. pose proof (released_clean _ _ _ _ _ Hrel Hcl1) as Hcl'.
  pose proof (idle_view s l dev bno Hc Hid Hcl Hdev) as Hv. rewrite Hv in B5.
  destruct Hrel as [R1 R2 R3 R4 R5 R6]. split_and!.
  - unfold use_block. cbn [fst snd]. step_with Hr. unfold bind at 1, get. step_with Hr'. by rewrite B5.
  - done.
  - intros j Hj. destruct (decide (j = i)) as [->|Hne].
    + apply core_fields in R3 as (_ & _ & _ & _ & -> & _). cbn. lia.
    + specialize (R2 j Hne). apply core_fields in R2 as (_ & _ & _ & _ & -> & _). rewrite F3 by done. by apply Hid.
  - apply Hcl'. intros _ _. by rewrite B5, B3, F5.
  - rewrite <- Hk, R6, decide_True by done. unfold keys. cbn [map]. f_equal.
    + unfold key. apply core_fields in R3 as (_ & -> & -> & _). cbn. by rewrite B2, B3.
    + apply map_ext_in. intros j [Hj Hne]%in_remove. unfold key.
      specialize (R2 j Hne). apply core_fields in R2 as (_ & -> & -> & _). by rewrite F3.
  - intros k. by rewrite R4.
Qed.

(** C3. The cache is an LRU cache of [NBUF] blocks: whatever sequence of
    blocks is read and released, the blocks it holds, in the order of the
    list, are those of the abstract LRU policy, and every read returns the
    device's contents. *)
Theorem bcache_refines_lru ks s l : cache_inv s l -> idle s -> clean s ->
  Forall (fun k => k.1 <> 0 /\ 0 <= k.2 < dsize) ks ->
  exists s' l', use_blocks ks s = Ok (map (fun k => dblock (bdisk s) k.2) ks) s' /\ cache_inv s' l' /\
    keys s' l' = foldl lru_use (keys s l) ks.
Proof.
  revert s l. induction ks as [|[dev bno] ks IH]; intros s l Hc Hid Hcl Hks; cbn [use_blocks map foldl].
  - by exists s, l.
  - apply Forall_cons in Hks as [[Hdev Hb] Hks]. cbn in Hdev, Hb.
    destruct (use_block_run s l dev bno Hc Hid Hcl Hdev Hb) as (s1 & l1 & Hr & Hc1 & Hid1 & Hcl1 & Hk1 & Hd1).
    destruct (IH s1 l1 Hc1 Hid1 Hcl1 Hks) as (s' & l' & Hr' & Hc' & Hk'). exists s', l'.
    split_and!; [|done|by rewrite Hk', Hk1]. step_with Hr. step_with Hr'. unfold ret. do 2 f_equal.
    apply map_ext. intros k. apply Hd1.
Qed.
End cache.

(** The cache over the RAM disk, as [binit] leaves it. *)
Definition bio0 : bio ramdisk_st := mk_bio false (replicate (S NBUF) buf0) ramdisk_init [].
Definition binit0 : bio ramdisk_st := match binit bio0 with Ok _ s => s | _ => bio0 end.

Lemma binit0_ok : cache_inv binit0 (rev (seq 0 NBUF)) /\ clean binit0 /\ idle binit0 /\
  forall dev bno i, dev <> 0 -> ~ cached binit0 dev bno i.
Proof.
  assert (Hd : dok ramdisk_init) by exact I.
  destruct (binit_inv ramdisk_init [] Hd) as (s' & Hr & Hc & Hcl & _ & _ & Hn & Hi). unfold binit0, bio0.
  rewrite Hr. split_and!; [done|done|intros i Hlt; by apply Hi|done].
Qed.

Lemma bno5 : 0 <= 5 < dsize.
Proof. by vm_compute. Qed.

Lemma buf_0 : (0 < NBUF)%nat.
Proof. unfold NBUF, MAXOPBLOCKS. lia. Qed.

Lemma bread_returns_block_witness : exists s' i, bread 1 1 5 binit0 = Ok i s' /\ b_data (getb s' i) = view binit0 1 5.
Proof.
  destruct binit0_ok as (Hc & Hcl & Hid & Hn).
  destruct (bread_returns_block 1 binit0 (rev (seq 0 NBUF)) 1 5 Hc Hcl ltac:(lia) bno5) as (s' & i & Hr & _ & _ & [_ _ _ _ Hd] & _).
  - right. split; [intros i; by apply Hn|]. exists 0%nat. split; [exact buf_0|exact (Hid _ buf_0)].
  - exists s', i. split; [exact Hr|exact Hd].
Defined.

Lemma bread_panics_iff_witness : bread 1 1 5 binit0 <> Panic "bget: no buffers".
Proof.
  destruct binit0_ok as (Hc & _ & Hid & _). intros Hp.
  destruct (proj1 (bread_panics_iff 1 binit0 (rev (seq 0 NBUF)) 1 5 Hc ltac:(lia) bno5) Hp) as [_ Hall].
  exact (Hall 0%nat buf_0 (Hid _ buf_0)).
Defined.

Lemma bcache_refines_lru_witness : exists s' l' xs, use_blocks 1 [(1, 5); (1, 6); (1, 5)] binit0 = Ok xs s' /\
  firstn 3 (keys s' l') = [(1, 5); (1, 6); (0, 0)].
Proof.
  destruct binit0_ok as (Hc & Hcl & Hid & _).
  destruct (bcache_refines_lru 1 [(1, 5); (1, 6); (1, 5)] binit0 (rev (seq 0 NBUF)) Hc Hid Hcl) as (s' & l' & Hr & _ & Hk).
  - repeat apply Forall_cons_2; by vm_compute.
  - exists s', l'. eexists. split; [exact Hr|]. rewrite Hk. by vm_compute.
Defined.
