(* ===== verification/Cache.v ===== *)
(** * What the buffer cache promises its clients

    The clients of kernel/bio.c (the log and the file system) see one device.
    A state is described by the set of pinned blocks, the set of blocks whose
    buffers this thread has locked, the contents of every block and the
    contents of the device. Each operation has one lemma in these terms. *)

From stdpp Require Import base gmap list numbers strings sets.
From Stdlib Require Import ZArith Lia.
From S2P Require Import Prelude Mem Spinlock Sleeplock Disk Bio BioSpec.
Open Scope Z_scope.
Open Scope kernel_scope.

Section client.
Context {D : Type} {drv : DiskDriver D} {spec : DiskSpec D}.
Context (mypid dev : Z) (dev_ok : dev <> 0).
Implicit Types (s : bio D) (b : Z) (i j : nat) (l : list nat) (P H : gset Z).

Definition one (A : Prop) `{Decision A} : Z := if decide A then 1 else 0.

(** Contents of a block: what [bread] would show. *)
Definition cv s b : block := view s dev b.

Record cst s P H : Prop := {
  cs_inv : exists l, cache_inv s l;
  cs_in : forall b, b ∈ P ∪ H -> exists i, cached s dev b i /\ b_valid (getb s i) = true;
  cs_ref : forall i, (i < NBUF)%nat -> b_refcnt (getb s i) =
    one (b_dev (getb s i) = dev /\ b_blockno (getb s i) ∈ P) + one (b_dev (getb s i) = dev /\ b_blockno (getb s i) ∈ H);
  cs_held : forall b i, cached s dev b i -> b ∈ H -> held_by_me mypid (getb s i);
  cs_free : forall i, (i < NBUF)%nat -> ~ (b_dev (getb s i) = dev /\ b_blockno (getb s i) ∈ H) ->
    sl_locked (b_lock (getb s i)) = false;
  cs_dev : forall i, (i < NBUF)%nat -> b_dev (getb s i) = dev \/ b_valid (getb s i) = false;
  cs_clean : clean s
}.

Lemma one_true (A : Prop) `{Decision A} : A -> one A = 1.
Proof. intros. unfold one. by rewrite decide_True. Qed.
Lemma one_false (A : Prop) `{Decision A} : ~ A -> one A = 0.
Proof. intros. unfold one. by rewrite decide_False. Qed.
Lemma one_range (A : Prop) `{Decision A} : 0 <= one A <= 1.
Proof. unfold one. case_decide; lia. Qed.
Lemma one_iff (A B : Prop) `{Decision A, Decision B} : (A <-> B) -> one A = one B.
Proof. intros E. unfold one. do 2 case_decide; tauto. Qed.

(** Fewer blocks in use than buffers: some buffer is unused. *)
Lemma cst_room s P H : cst s P H -> (size (P ∪ H) < NBUF)%nat ->
  exists i, (i < NBUF)%nat /\ b_refcnt (getb s i) = 0.
Proof.
  intros [[l Hc] Hin Href _ _ _ _] Hsz.
  destruct (List.find (fun i => b_refcnt (getb s i) =? 0) (seq 0 NBUF)) as [i|] eqn:E.
  { apply find_some in E as [Hi%list_elem_of_In Hr]. apply elem_of_seq in Hi. exists i. split; [lia|by apply Z.eqb_eq]. }
  exfalso. assert (Hused : forall i, (i < NBUF)%nat -> b_dev (getb s i) = dev /\ b_blockno (getb s i) ∈ P ∪ H).
  { intros i Hi. apply find_none with (x := i) in E; [|apply list_elem_of_In, elem_of_seq; lia].
    apply Z.eqb_neq in E. rewrite (Href i Hi) in E. unfold one in E. do 2 case_decide; try lia; (split; [tauto|]; apply elem_of_union; tauto). }
  set (ks := map (fun i => b_blockno (getb s i)) (seq 0 NBUF)).
  assert (Hnd : NoDup ks).
  { unfold ks. apply NoDup_fmap_2_strong; [|apply NoDup_seq]. intros i j Hi Hj Ek.
    apply elem_of_seq in Hi, Hj. destruct (Hused i ltac:(lia)) as [Hd _], (Hused j ltac:(lia)) as [Hd' _].
    apply (ci_uniq _ _ Hc); congruence || lia. }
  assert (Hsub : list_to_set ks ⊆ P ∪ H).
  { intros k Hk. apply elem_of_list_to_set, list_elem_of_fmap in Hk as (i & -> & Hi). apply elem_of_seq in Hi.
    apply Hused. lia. }
  apply subseteq_size in Hsub. rewrite size_list_to_set in Hsub by done. unfold ks in Hsub.
  rewrite length_map, length_seq in Hsub. lia.
Qed.

Lemma cst_uncached_not_held s P H b : cst s P H -> (forall i, ~ cached s dev b i) -> b ∉ P ∪ H.
Proof. intros Hc Hn Hb. destruct (cs_in _ _ _ Hc b Hb) as (i & Hi & _). by apply (Hn i). Qed.

Lemma cst_available s P H b : cst s P H -> b ∉ H -> b ∈ P \/ (size (P ∪ H) < NBUF)%nat -> available s dev b.
Proof.
  intros Hc Hb Hr. destruct (cached_dec s dev b) as [[i Hi]|Hn].
  - left. exists i. pose proof Hi as (Hlt & Hd & Hbn). split_and!; [done|apply (cs_free _ _ _ Hc i Hlt)|].
    + intros [_ Hin]. by rewrite Hbn in Hin.
    + rewrite (cs_ref _ _ _ Hc i Hlt). pose proof (one_range (b_dev (getb s i) = dev /\ b_blockno (getb s i) ∈ P)).
      pose proof (one_range (b_dev (getb s i) = dev /\ b_blockno (getb s i) ∈ H)). lia.
  - right. split; [done|]. destruct Hr as [HP|Hsz]; [|by apply (cst_room s P H)].
    destruct (cst_uncached_not_held s P H b Hc Hn). by apply elem_of_union_l.
Qed.

(** One buffer, which now holds block [b], has changed; block [b] may have
    changed status, and the device contents of block [b]. *)
Lemma cst_change s s' l' P H P' H' i b : cst s P H -> cache_inv s' l' -> (i < NBUF)%nat ->
  (forall j, j <> i -> core (getb s' j) = core (getb s j)) ->
  b_dev (getb s' i) = dev -> b_blockno (getb s' i) = b ->
  (forall b', b' <> b -> b' ∈ P' <-> b' ∈ P) -> (forall b', b' <> b -> b' ∈ H' <-> b' ∈ H) ->
  (b_dev (getb s i) = dev -> b_blockno (getb s i) <> b -> b_blockno (getb s i) ∉ P ∪ H) ->
  b_refcnt (getb s' i) = one (b ∈ P') + one (b ∈ H') ->
  (b ∈ P' ∪ H' -> b_valid (getb s' i) = true) ->
  (if decide (b ∈ H') then held_by_me mypid (getb s' i) else sl_locked (b_lock (getb s' i)) = false) ->
  (forall k, k <> b -> dblock (bdisk s') k = dblock (bdisk s) k) ->
  (b ∉ P' ∪ H' -> b_valid (getb s' i) = true -> b_data (getb s' i) = dblock (bdisk s') b) ->
  cst s' P' H'.
Proof.
  intros [[l Hc] Hin Href Hheld Hfree Hdev Hcl] Hc' Hi Ho Ed Eb HP HH Hold Hr Hv Hlk Hdk Hclb.
  assert (Hkey : forall j, (j < NBUF)%nat -> j <> i -> b_dev (getb s' j) = dev -> b_blockno (getb s' j) <> b).
  { intros j Hj Hne Hd Hb. apply Hne, (ci_uniq _ _ Hc'); congruence || done. }
  assert (Hoth : forall j, (j < NBUF)%nat -> j <> i ->
    b_valid (getb s' j) = b_valid (getb s j) /\ b_dev (getb s' j) = b_dev (getb s j) /\
    b_blockno (getb s' j) = b_blockno (getb s j) /\ b_lock (getb s' j) = b_lock (getb s j) /\
    b_refcnt (getb s' j) = b_refcnt (getb s j) /\ b_data (getb s' j) = b_data (getb s j)).
  { intros j Hj Hne. by apply core_fields, Ho. }
  assert (Hsel : forall j (Q Q' : gset Z), (forall b', b' <> b -> b' ∈ Q' <-> b' ∈ Q) -> (j < NBUF)%nat -> j <> i ->
    b_dev (getb s' j) = dev /\ b_blockno (getb s' j) ∈ Q' <-> b_dev (getb s j) = dev /\ b_blockno (getb s j) ∈ Q).
  { intros j Q Q' HQ Hj Hne. pose proof (Hkey j Hj Hne) as Hk. destruct (Hoth j Hj Hne) as (_ & E1 & E2 & _).
    rewrite E1, E2 in *. split; intros [? ?]; (split; [done|]); apply HQ; auto. }
  split.
  - by exists l'.
  - intros b' Hb'. destruct (decide (b' = b)) as [->|Hne].
    + exists i. split; [by split_and!|by apply Hv].
    + assert (b' ∈ P ∪ H) as Hb2 by (rewrite elem_of_union, HP, HH in Hb' by done; by apply elem_of_union).
      destruct (Hin b' Hb2) as (j & (Hj1 & Hj2 & Hj3) & Hj4). assert (j <> i) as Hji.
      { intros ->. apply (Hold Hj2); congruence. }
      destruct (Hoth j Hj1 Hji) as (E0 & E1 & E2 & _). exists j. split; [split_and!|]; congruence || done.
  - intros j Hj. destruct (decide (j = i)) as [->|Hne].
    + rewrite Hr. rewrite Ed, Eb. f_equal; apply one_iff; tauto.
    + destruct (Hoth j Hj Hne) as (_ & _ & _ & _ & -> & _). rewrite (Href j Hj).
      f_equal; apply one_iff; symmetry; by apply Hsel.
  - intros b' j (Hj1 & Hj2 & Hj3) Hb'. destruct (decide (j = i)) as [->|Hne].
    + rewrite Eb in Hj3. subst b'. by rewrite decide_True in Hlk.
    + destruct (Hoth j Hj1 Hne) as (_ & E1 & E2 & E3 & _). unfold held_by_me. rewrite E3.
      apply (Hheld b' j); [split_and!; congruence || done|]. apply HH; [|done].
      intros ->. by apply (Hkey j Hj1 Hne).
  - intros j Hj Hnot. destruct (decide (j = i)) as [->|Hne].
    + rewrite decide_False in Hlk; [done|]. intros Hb. apply Hnot. by rewrite Ed, Eb.
    + destruct (Hoth j Hj Hne) as (_ & _ & _ & -> & _). apply Hfree; [done|]. by rewrite <- (Hsel j H H').
  - intros j Hj. destruct (decide (j = i)) as [->|Hne]; [by left|].
    destruct (Hoth j Hj Hne) as (-> & -> & _). by apply Hdev.
  - intros j Hj Hr0 Hvj. destruct (decide (j = i)) as [->|Hne].
    + rewrite Eb. apply Hclb; [|done]. rewrite Hr in Hr0. pose proof (one_range (b ∈ P')). pose proof (one_range (b ∈ H')).
      intros Hb. apply elem_of_union in Hb as [Hb|Hb]; rewrite (one_true _ Hb) in Hr0; lia.
    + pose proof (Hkey j Hj Hne) as Hk. destruct (Hoth j Hj Hne) as (E0 & E1 & E2 & E3 & E4 & E5).
      rewrite E5, Hdk, E2; [apply Hcl; congruence|]. apply Hk. rewrite E1. destruct (Hdev j Hj); congruence.
Qed.

Definition same_disk s s' : Prop := (forall k, dblock (bdisk s') k = dblock (bdisk s) k) /\ bhist s' = bhist s.
Definition same_cv s s' : Prop := forall k, cv s' k = cv s k.

(** Buffer [i] is locked by this thread and holds block [b]. *)
Definition at_buf s b i : Prop := cached s dev b i.

Lemma cv_at s P H b i : cst s P H -> b ∈ P ∪ H -> at_buf s b i -> cv s b = b_data (getb s i).
Proof.
  intros [[l Hc] Hin _ _ _ _ _] Hb Hi. destruct (Hin b Hb) as (j & Hj & Hv).
  unfold cv. rewrite (view_cached s l dev b j Hc dev_ok Hj), Hv. destruct Hi as (? & ? & ?), Hj as (? & ? & ?).
  assert (j = i) as -> by (apply (ci_uniq _ _ Hc); congruence || done). done.
Qed.

Lemma cv_block s P H b : cst s P H -> is_block (cv s b).
Proof.
  intros [[l Hc] _ _ _ _ _ _]. unfold cv, view. destruct (List.find _ _) as [j|] eqn:E.
  - apply find_some in E as [Hj%list_elem_of_In _]. apply elem_of_seq in Hj. apply (ci_buf _ _ Hc j). lia.
  - apply dblock_block, Hc.
Qed.

Lemma cst_refs s P H b i : cst s P H -> at_buf s b i -> b_refcnt (getb s i) = one (b ∈ P) + one (b ∈ H).
Proof.
  intros Hs (Hi & Hd & Hb). rewrite (cs_ref _ _ _ Hs i Hi), Hd, Hb. f_equal; apply one_iff; tauto.
Qed.

Lemma bread_cst s P H b : cst s P H -> 0 <= b < dsize -> b ∉ H -> b ∈ P \/ (size (P ∪ H) < NBUF)%nat ->
  exists i s', bread mypid dev b s = Ok i s' /\ cst s' P ({[b]} ∪ H) /\ same_cv s s' /\ same_disk s s' /\ at_buf s' b i /\
    (forall k j, k ∈ P ∪ H -> at_buf s k j -> at_buf s' k j).
Proof.
  intros Hs Hb HbH Hroom. pose proof (cst_available s P H b Hs HbH Hroom) as Hav.
  pose proof Hs as [[l Hc] _ Href _ _ _ Hcl].
  destruct (bread_run mypid s l dev b Hc dev_ok Hb Hav) as (s' & i & Hr & Hf).
  pose proof (fun k => fetched_view mypid s l dev b s' i dev k Hc Hcl Hf dev_ok dev_ok) as Hview.
  destruct Hf as [F1 F2 F3 F4 F5 [B1 B2 B3 B4 B5] F7]. exists i, s'. split_and!; [done| |done|done|by split_and!|].
  2: { intros k j Hk Hj. destruct (decide (j = i)) as [->|Hne].
    - destruct F7 as [[(_ & _ & Hbi) _]|(_ & Hr0 & _)].
      + destruct Hj as (_ & _ & Hkj). split_and!; congruence.
      + rewrite (cst_refs s P H k i Hs Hj) in Hr0. pose proof (one_range (k ∈ P)). pose proof (one_range (k ∈ H)).
        apply elem_of_union in Hk as [Hk|Hk]; rewrite (one_true _ Hk) in Hr0; lia.
    - unfold at_buf, cached in *. by rewrite F3. }
  apply (cst_change s s' l P H P ({[b]} ∪ H) i b); try done.
  - intros j Hj. by rewrite F3.
  - intros b' Hne. uni.
  - intros Hd Hne. destruct F7 as [[(_ & _ & ?) _]|(_ & Hr0 & _)]; [done|].
    rewrite (Href i F2) in Hr0. unfold one in Hr0. do 2 case_decide; try lia. intros [?|?]%elem_of_union; tauto.
  - rewrite (one_true (b ∈ {[b]} ∪ H)) by uni. destruct F7 as [[Hca ->]|(Hn & _ & ->)].
    + rewrite (cst_refs s P H b i Hs Hca), (one_false (b ∈ H)) by done. lia.
    + rewrite one_false; [lia|]. intros HP. apply (cst_uncached_not_held s P H b Hs Hn). uni.
  - rewrite decide_True by uni. unfold held_by_me. by rewrite B4.
  - intros Hn. destruct Hn. apply elem_of_union_r, elem_of_union_l, elem_of_singleton. done.
Qed.

Lemma set_data_cst s P H b i data : cst s P H -> b ∈ H -> at_buf s b i -> is_block data ->
  let s' := setb s i (set_data (getb s i) data) in
  cst s' P H /\ (forall k, cv s' k = if decide (k = b) then data else cv s k) /\ same_disk s s' /\ (forall k j, at_buf s' k j <-> at_buf s k j).
Proof.
  intros Hs HbH Hat Hdata s'. pose proof Hat as (Hi & Hd & Hb). pose proof Hs as [[l Hc] Hin _ Hheld _ _ _].
  pose proof (set_data_inv s l i data Hc Hi Hdata) as Hc'. fold s' in Hc'.
  assert (G : forall j, getb s' j = if decide (j = i) then set_data (getb s i) data else getb s j).
  { intros j. apply getb_setb; [apply Hc|lia]. }
  assert (Hval : b_valid (getb s i) = true).
  { destruct (Hin b ltac:(by apply elem_of_union_r)) as (j & (? & ? & ?) & Hv). assert (j = i) as <-; [|done].
    apply (ci_uniq _ _ Hc); congruence || done. }
  assert (Hat' : forall k j, at_buf s' k j <-> at_buf s k j).
  { intros k j. unfold at_buf, cached. rewrite G. case_decide; [subst; done|done]. }
  assert (Gi : getb s' i = set_data (getb s i) data) by (rewrite G; by rewrite decide_True).
  assert (Hs' : cst s' P H).
  { apply (cst_change s s' l P H P H i b); try done; rewrite ?Gi; try done.
    - intros j Hj. by rewrite G, decide_False.
    - apply (cst_refs s P H b i Hs Hat).
    - rewrite decide_True by done. by apply (Hheld b i).
    - intros Hn. destruct Hn. by apply elem_of_union_r. }
  split_and!; [done| |done|done]. intros k. case_decide as E.
  - subst k. rewrite (cv_at s' P H b i Hs'), Gi; [done|by apply elem_of_union_r|by apply Hat'].
  - unfold cv. destruct (cached_dec s dev k) as [[j Hj]|Hn].
    + assert (j <> i) as Hji by (intros ->; destruct Hj as (_ & _ & Hj); congruence).
      rewrite (view_cached s l dev k j Hc dev_ok Hj), (view_cached s' l dev k j Hc' dev_ok) by (by apply Hat').
      by rewrite G, decide_False.
    + rewrite !view_uncached; [done|done|]. intros j Hj. by apply (Hn j), Hat'.
Qed.

Lemma valid_at s P H b i : cst s P H -> b ∈ P ∪ H -> at_buf s b i -> b_valid (getb s i) = true.
Proof.
  intros [[l Hc] Hin _ _ _ _ _] Hb (? & ? & ?). destruct (Hin b Hb) as (j & (? & ? & ?) & Hv).
  assert (j = i) as <-; [|done]. apply (ci_uniq _ _ Hc); congruence || done.
Qed.

Lemma bwrite_cst s P H b i : cst s P H -> 0 <= b < dsize -> b ∈ H -> at_buf s b i ->
  exists s', bwrite mypid i s = Ok tt s' /\ cst s' P H /\ same_cv s s' /\
    (forall k, dblock (bdisk s') k = if decide (k = b) then cv s b else dblock (bdisk s) k) /\
    bhist s' = bdisk s' :: bhist s /\ (forall k j, at_buf s' k j <-> at_buf s k j) /\ dok (bdisk s').
Proof.
  intros Hs Hb HbH Hat. pose proof Hat as (Hi & Hd & Hbn). pose proof Hs as [[l Hc] Hin _ Hheld _ _ _].
  destruct (bwrite_run mypid s l i Hc Hi (Hheld b i Hat HbH)) as (d' & Hr & Hd' & Hk); [by rewrite Hbn|].
  assert (HbU : b ∈ P ∪ H) by uni. rewrite Hbn, <- (cv_at s P H b i Hs HbU Hat) in Hk.
  exists (set_disk s d' (d' :: bhist s)). pose proof (cache_inv_disk s l d' (d' :: bhist s) Hc Hd') as Hc'.
  split_and!; [done| | |done|done|done|done].
  - apply (cst_change s _ l P H P H i b); try done.
    + apply (cst_refs s P H b i Hs Hat).
    + intros _. apply (valid_at s P H b i Hs HbU Hat).
    + rewrite decide_True by done. by apply (Hheld b i).
    + intros k Hne. cbn. by rewrite Hk, decide_False.
  - intros k. unfold cv. destruct (cached_dec s dev k) as [[j Hj]|Hn].
    + rewrite (view_cached s l dev k j Hc dev_ok Hj), (view_cached _ l dev k j Hc' dev_ok Hj). cbn.
      change (getb (set_disk s d' (d' :: bhist s)) j) with (getb s j).
      destruct (b_valid (getb s j)) eqn:Ev; [done|]. rewrite Hk. case_decide; [|done]. subst k.
      rewrite (valid_at s P H b j Hs HbU Hj) in Ev. done.
    + rewrite !view_uncached by done. cbn. rewrite Hk. case_decide; [|done]. subst k. by destruct (Hn i).
Qed.

Lemma brelse_cst s P H b i : cst s P H -> b ∈ H -> at_buf s b i -> b ∈ P \/ cv s b = dblock (bdisk s) b ->
  exists s', brelse mypid i s = Ok tt s' /\ cst s' P (H ∖ {[b]}) /\ same_cv s s' /\ same_disk s s' /\
    (forall k j, at_buf s' k j <-> at_buf s k j).
Proof.
  intros Hs HbH Hat Hcl. pose proof Hat as (Hi & Hd & Hbn). pose proof Hs as [[l Hc] Hin _ Hheld _ _ _].
  destruct (brelse_run mypid s l i Hc Hi (Hheld b i Hat HbH)) as (s' & l' & Hr & Hrel).
  pose proof (fun k => released_view s l s' l' i dev k Hrel) as Hview.
  destruct Hrel as [R1 R2 R3 R4 R5 _]. exists s'. apply core_fields in R3 as (E0 & E1 & E2 & E3 & E4 & E5). cbn in *.
  assert (HbU : b ∈ P ∪ H) by uni.
  split_and!; [done| |done|split; [by rewrite R4|done]|].
  - apply (cst_change s s' l' P H P (H ∖ {[b]}) i b); try done; try congruence.
    + intros b' Hne. uni.
    + rewrite E4, (cst_refs s P H b i Hs Hat), (one_true (b ∈ H)), (one_false (b ∈ H ∖ {[b]})) by (done || uni). lia.
    + intros _. rewrite E0. apply (valid_at s P H b i Hs HbU Hat).
    + rewrite decide_False by uni. by rewrite E3.
    + intros Hn _. rewrite E5, R4, <- (cv_at s P H b i Hs HbU Hat). destruct Hcl as [HP|Hcl]; [|done]. uni.
  - intros k j. unfold at_buf, cached. destruct (decide (j = i)) as [->|Hne]; [by rewrite E1, E2|].
    specialize (R2 j Hne). apply core_fields in R2 as (_ & -> & -> & _). done.
Qed.

Lemma ref_cst s P P' H b i r : cst s P H -> b ∈ H -> at_buf s b i -> (forall b', b' <> b -> b' ∈ P' <-> b' ∈ P) ->
  r = one (b ∈ P') + 1 -> (forall l, cache_inv s l -> cache_inv (setb s i (set_refcnt (getb s i) r)) l) ->
  let s' := setb s i (set_refcnt (getb s i) r) in
  cst s' P' H /\ same_cv s s' /\ same_disk s s' /\ (forall k j, at_buf s' k j <-> at_buf s k j).
Proof.
  intros Hs HbH Hat HP Hr Hinv s'. pose proof Hat as (Hi & Hd & Hbn). pose proof Hs as [[l Hc] Hin _ Hheld _ _ _].
  assert (G : forall j, getb s' j = if decide (j = i) then set_refcnt (getb s i) r else getb s j).
  { intros j. apply getb_setb; [apply Hc|lia]. }
  assert (Gi : getb s' i = set_refcnt (getb s i) r) by (rewrite G; by rewrite decide_True).
  assert (HbU : b ∈ P ∪ H) by uni. split_and!.
  - apply (cst_change s s' l P H P' H i b); rewrite ?Gi; try done.
    + by apply Hinv.
    + intros j Hj. by rewrite G, decide_False.
    + rewrite (one_true (b ∈ H)) by done. exact Hr.
    + intros _. apply (valid_at s P H b i Hs HbU Hat).
    + rewrite decide_True by done. by apply (Hheld b i).
    + uni.
  - intros k. apply view_core; [|done]. intros j _. rewrite G. destruct (decide (j = i)) as [->|?]; by split_and!.
  - done.
  - intros k j. unfold at_buf, cached. rewrite G. by destruct (decide (j = i)) as [->|?].
Qed.

Lemma bpin_cst s P H b i : cst s P H -> b ∈ H -> b ∉ P -> at_buf s b i ->
  exists s', bpin i s = Ok tt s' /\ cst s' ({[b]} ∪ P) H /\ same_cv s s' /\ same_disk s s' /\
    (forall k j, at_buf s' k j <-> at_buf s k j).
Proof.
  intros Hs HbH HbP Hat. pose proof Hs as [[l Hc] _ _ _ _ _ _]. pose proof Hat as (Hi & _ & _).
  pose proof (cst_refs s P H b i Hs Hat) as Hr. rewrite (one_true (b ∈ H)), (one_false (b ∈ P)) in Hr by done.
  destruct (bpin_run s l i Hc Hi) as [Hrun _]; [lia|]. eexists. split; [exact Hrun|].
  apply (ref_cst s P _ H b i); try done.
  - intros b' Hne. uni.
  - rewrite Hr, one_true by uni. lia.
  - intros l2 Hc2. destruct (bpin_run s l2 i Hc2 Hi) as [_ Hc']; [lia|]. exact Hc'.
Qed.

Lemma bunpin_cst s P H b i : cst s P H -> b ∈ H -> b ∈ P -> at_buf s b i ->
  exists s', bunpin i s = Ok tt s' /\ cst s' (P ∖ {[b]}) H /\ same_cv s s' /\ same_disk s s' /\
    (forall k j, at_buf s' k j <-> at_buf s k j).
Proof.
  intros Hs HbH HbP Hat. pose proof Hs as [[l Hc] _ _ _ _ _ _]. pose proof Hat as (Hi & _ & _).
  pose proof (cst_refs s P H b i Hs Hat) as Hr. rewrite (one_true (b ∈ H)), (one_true (b ∈ P)) in Hr by done.
  destruct (bunpin_run s l i Hc Hi) as [Hrun _]; [lia|]. eexists. split; [exact Hrun|].
  apply (ref_cst s P _ H b i); try done.
  - intros b' Hne. uni.
  - rewrite Hr, one_false by uni. lia.
  - intros l2 Hc2. destruct (bunpin_run s l2 i Hc2 Hi) as [_ Hc']; [lia|]. exact Hc'.
Qed.

(** The cache after [binit]: nothing in use, nothing cached. *)
Lemma binit_cst (d : D) h : dok d ->
  exists s', binit (mk_bio false (replicate (S NBUF) buf0) d h) = Ok tt s' /\ cst s' ∅ ∅ /\ bdisk s' = d /\ bhist s' = h.
Proof.
  intros Hd. destruct (binit_inv d h Hd) as (s' & Hr & Hc & Hcl & Hdk & Hh & Hn & Hi). exists s'. split_and!; [exact Hr| |exact Hdk|exact Hh]. clear Hr.
  split; [by eexists|intros b Hb; uni| | |intros i Hlt _; by apply Hi|intros i Hlt; right; by apply Hi|done].
  - intros i Hlt. rewrite !one_false by uni. by apply Hi.
  - intros b i _ Hb. uni.
Qed.
End client.
