(* ===== verification/Log.v ===== *)
(** * The redo log (kernel/log.c)

    The log works on the buffer cache of [Bio]. Sleeping in [begin_op] is the
    outcome [Sleep ChLog]; the thread runs the loop again when it is woken. *)

From stdpp Require Import base gmap list numbers strings.
From Stdlib Require Import ZArith Lia.
From S2P Require Import Prelude Mem Spinlock Bytes Sleeplock Disk Bio.
Open Scope Z_scope.
Open Scope kernel_scope.

(** struct log, with struct logheader's two fields, and the cache below. *)
Record logst (D : Type) := mk_log {
  lg_lock : bool; lg_start : Z; lg_outstanding : Z; lg_committing : bool; lg_dev : Z;
  lh_n : Z; lh_block : list Z; lbio : bio D }.
Arguments mk_log {D} _ _ _ _ _ _ _ _.
Arguments lg_lock {D} _.
Arguments lg_start {D} _.
Arguments lg_outstanding {D} _.
Arguments lg_committing {D} _.
Arguments lg_dev {D} _.
Arguments lh_n {D} _.
Arguments lh_block {D} _.
Arguments lbio {D} _.

Section log_c.
Context {D : Type} {drv : DiskDriver D}.
Context (mypid : Z).
Implicit Types (s : logst D).

Definition set_lg_lock s (v : bool) : logst D :=
  mk_log v (lg_start s) (lg_outstanding s) (lg_committing s) (lg_dev s) (lh_n s) (lh_block s) (lbio s).
Definition set_start_dev s (v d : Z) : logst D :=
  mk_log (lg_lock s) v (lg_outstanding s) (lg_committing s) d (lh_n s) (lh_block s) (lbio s).
Definition set_outstanding s (v : Z) : logst D :=
  mk_log (lg_lock s) (lg_start s) v (lg_committing s) (lg_dev s) (lh_n s) (lh_block s) (lbio s).
Definition set_committing s (v : bool) : logst D :=
  mk_log (lg_lock s) (lg_start s) (lg_outstanding s) v (lg_dev s) (lh_n s) (lh_block s) (lbio s).
Definition set_lh_n s (v : Z) : logst D :=
  mk_log (lg_lock s) (lg_start s) (lg_outstanding s) (lg_committing s) (lg_dev s) v (lh_block s) (lbio s).
Definition set_lh_block s (v : list Z) : logst D :=
  mk_log (lg_lock s) (lg_start s) (lg_outstanding s) (lg_committing s) (lg_dev s) (lh_n s) v (lbio s).
Definition set_lbio s (v : bio D) : logst D :=
  mk_log (lg_lock s) (lg_start s) (lg_outstanding s) (lg_committing s) (lg_dev s) (lh_n s) (lh_block s) v.

(** Running a routine of the cache. *)
Definition cache {A} (m : M (bio D) A) : M (logst D) A := zoom lbio set_lbio m.

(** [b->data] of a buffer, and assigning it. *)
Definition buf_data (i : nat) : M (logst D) block := gets (fun s => b_data (getb (lbio s) i)).
Definition set_buf_data (i : nat) (data : block) : M (logst D) unit := cache (updb i (fun b => set_data b data)).

(** struct logheader inside a block: [n], then [block[LOGBLOCKS]], all int. *)
Definition lh_read_n (bl : block) : Z := i32 (getn 4 bl 0).
Definition lh_read_block (bl : block) (i : Z) : Z := i32 (getn 4 bl (4 + 4 * i)).
Definition lh_write_n (bl : block) (n : Z) : block := putn 4 bl 0 n.
Definition lh_write_block (bl : block) (i b : Z) : block := putn 4 bl (4 + 4 * i) b.

(** [for(i = 0; i < n; i++)] *)
Definition upto (n : Z) : list Z := seqZ 0 n.

(** Copying committed blocks to their home location. [recovering] only
    decides about a message on the console and about unpinning. *)
Definition install_trans (recovering : bool) : M (logst D) unit :=
  s <- get ;;
  for_all (upto (lh_n s)) (fun tail =>
    lbuf <- cache (bread mypid (lg_dev s) (u32 (lg_start s + tail + 1))) ;;
    dbuf <- cache (bread mypid (lg_dev s) (u32 (nthz (lh_block s) tail))) ;;
    data <- buf_data lbuf ;;
    set_buf_data dbuf data ;;;
    cache (bwrite mypid dbuf) ;;;
    when (negb recovering) (cache (bunpin dbuf)) ;;;
    cache (brelse mypid lbuf) ;;;
    cache (brelse mypid dbuf)).

(** The array of the in-memory header has [LOGBLOCKS] elements; a larger
    index is undefined behaviour in C and ends the model's run. *)
Definition set_lh_at (i b : Z) : M (logst D) unit :=
  s <- get ;;
  if i <? LOGBLOCKS then put (set_lh_block s (setz (lh_block s) i b)) else no_fuel.

Definition read_head : M (logst D) unit :=
  s <- get ;;
  buf <- cache (bread mypid (lg_dev s) (u32 (lg_start s))) ;;
  lh <- buf_data buf ;;
  modify (fun s => set_lh_n s (lh_read_n lh)) ;;;
  for_all (upto (lh_read_n lh)) (fun i => set_lh_at i (lh_read_block lh i)) ;;;
  cache (brelse mypid buf).

Definition write_head : M (logst D) unit :=
  s <- get ;;
  buf <- cache (bread mypid (lg_dev s) (u32 (lg_start s))) ;;
  hb <- buf_data buf ;;
  set_buf_data buf (lh_write_n hb (lh_n s)) ;;;
  for_all (upto (lh_n s)) (fun i =>
    hb <- buf_data buf ;;
    set_buf_data buf (lh_write_block hb i (nthz (lh_block s) i))) ;;;
  cache (bwrite mypid buf) ;;;
  cache (brelse mypid buf).

Definition recover_from_log : M (logst D) unit :=
  read_head ;;;
  install_trans true ;;;
  modify (fun s => set_lh_n s 0) ;;;
  write_head.

Definition sizeof_logheader : Z := 4 + 4 * LOGBLOCKS.

Definition initlog (dev logstart : Z) : M (logst D) unit :=
  if BSIZE <=? sizeof_logheader then panic "initlog: too big logheader"
  else
    modify (fun s => set_lg_lock s false) ;;;
    modify (fun s => set_start_dev s (i32 logstart) dev) ;;;
    recover_from_log.

Definition begin_op : M (logst D) unit :=
  acquire lg_lock set_lg_lock ;;;
  s <- get ;;
  if lg_committing s then
    release lg_lock set_lg_lock ;;; sleep_on ChLog
  else if LOGBLOCKS <? lh_n s + (lg_outstanding s + 1) * MAXOPBLOCKS then
    release lg_lock set_lg_lock ;;; sleep_on ChLog
  else
    modify (fun s => set_outstanding s (lg_outstanding s + 1)) ;;;
    release lg_lock set_lg_lock.

Definition write_log : M (logst D) unit :=
  s <- get ;;
  for_all (upto (lh_n s)) (fun tail =>
    to <- cache (bread mypid (lg_dev s) (u32 (lg_start s + tail + 1))) ;;
    from <- cache (bread mypid (lg_dev s) (u32 (nthz (lh_block s) tail))) ;;
    data <- buf_data from ;;
    set_buf_data to data ;;;
    cache (bwrite mypid to) ;;;
    cache (brelse mypid from) ;;;
    cache (brelse mypid to)).

Definition commit : M (logst D) unit :=
  s <- get ;;
  when (0 <? lh_n s) (
    write_log ;;;
    write_head ;;;
    install_trans false ;;;
    modify (fun s => set_lh_n s 0) ;;;
    write_head).

(** [wakeup(&log)] makes sleepers runnable; it changes nothing here. *)
Definition end_op : M (logst D) unit :=
  acquire lg_lock set_lg_lock ;;;
  modify (fun s => set_outstanding s (lg_outstanding s - 1)) ;;;
  s <- get ;;
  if lg_committing s then panic "log.committing"
  else
    let do_commit := lg_outstanding s =? 0 in
    when do_commit (modify (fun s => set_committing s true)) ;;;
    release lg_lock set_lg_lock ;;;
    when do_commit (
      commit ;;;
      acquire lg_lock set_lg_lock ;;;
      modify (fun s => set_committing s false) ;;;
      release lg_lock set_lg_lock).

(** The absorption scan: the first index that records [blockno], or [n]. *)
Fixpoint lh_find (l : list Z) (n : nat) (blockno : Z) : nat :=
  match n with
  | O => O
  | S n' => match l with
            | [] => O
            | b :: l' => if u32 b =? blockno then O else S (lh_find l' n' blockno)
            end
  end.

Definition log_write (b : nat) : M (logst D) unit :=
  acquire lg_lock set_lg_lock ;;;
  s <- get ;;
  if LOGBLOCKS <=? lh_n s then panic "too big a transaction"
  else if lg_outstanding s <? 1 then panic "log_write outside of trans"
  else
    let blockno := b_blockno (getb (lbio s) b) in
    let i := Z.of_nat (lh_find (lh_block s) (Z.to_nat (lh_n s)) blockno) in
    modify (fun s => set_lh_block s (setz (lh_block s) i (i32 blockno))) ;;;
    when (i =? lh_n s) (
      cache (bpin b) ;;;
      modify (fun s => set_lh_n s (lh_n s + 1))) ;;;
    release lg_lock set_lg_lock.

End log_c.
