(* ===== verification/LogSpec.v ===== *)
(** * Crash safety of the log

    [recovered start d] is what the file system blocks of a device hold once
    recovery has run on it. Every device state that a power failure can
    expose while [commit] or recovery runs recovers to the contents before
    the transaction or to the contents after it. *)

From stdpp Require Import base gmap list numbers strings sets.
From Stdlib Require Import ZArith Lia.
From S2P Require Import Prelude Mem Spinlock Bytes Sleeplock Disk Bio BioSpec Cache Log.
Open Scope Z_scope.
Open Scope kernel_scope.

(** ** The header block *)

Lemma seqZ_snoc n : 0 <= n -> seqZ 0 (n + 1) = seqZ 0 n ++ [n].
Proof. intros. by rewrite (seqZ_app 0 n 1) by lia. Qed.

Lemma elem_take {A} (x : A) n l : x ∈ take n l -> x ∈ l.
Proof. intros Hx. rewrite <- (take_drop n l). apply elem_of_app. by left. Qed.
Lemma elem_drop {A} (x : A) n l : x ∈ drop n l -> x ∈ l.
Proof. intros Hx. rewrite <- (take_drop n l). apply elem_of_app. by right. Qed.

Definition header_blocks (bl : block) : list Z := map (lh_read_block bl) (upto (lh_read_n bl)).

(** The header [write_head] stores. *)
Fixpoint put_blocks (bl : block) (i : Z) (bs : list Z) : block :=
  match bs with
  | [] => bl
  | b :: bs' => put_blocks (lh_write_block bl i b) (i + 1) bs'
  end.
Definition make_header (bl : block) (bs : list Z) : block :=
  put_blocks (lh_write_n bl (Z.of_nat (length bs))) 0 bs.

Lemma is_block_putn n bl off v : is_block bl -> 0 <= off -> off + Z.of_nat n <= BSIZE -> is_block (putn n bl off v).
Proof.
  intros [Hl Hb] H1 H2. split; [|by apply putn_bytes]. rewrite length_putn; [done|done|]. rewrite Hl. unfold BSIZE in *. lia.
Qed.

Lemma block_len bl : is_block bl -> Z.of_nat (length bl) = BSIZE.
Proof. intros [-> _]. done. Qed.

Lemma put_blocks_spec bs bl i : is_block bl -> 0 <= i -> i + Z.of_nat (length bs) <= LOGBLOCKS ->
  Forall (fun b => 0 <= b < 2 ^ 31) bs ->
  is_block (put_blocks bl i bs) /\ lh_read_n (put_blocks bl i bs) = lh_read_n bl /\
  (forall j, 0 <= j < i -> lh_read_block (put_blocks bl i bs) j = lh_read_block bl j) /\
  forall k b, bs !! k = Some b -> lh_read_block (put_blocks bl i bs) (i + Z.of_nat k) = b.
Proof.
  revert bl i. induction bs as [|b bs IH]; intros bl i Hbl Hi Hlen Hbs; cbn [put_blocks].
  { split_and!; done. }
  apply Forall_cons in Hbs as [Hb Hbs]. cbn [length] in Hlen. unfold LOGBLOCKS, MAXOPBLOCKS in *.
  pose proof (block_len bl Hbl) as Hl. unfold BSIZE in Hl.
  destruct (IH (lh_write_block bl i b) (i + 1)) as (I1 & I2 & I3 & I4); [|lia|lia|done|].
  { apply is_block_putn; [done|lia|unfold BSIZE; lia]. }
  split_and!; [done| | |].
  - rewrite I2. unfold lh_read_n, lh_write_block. f_equal. apply getn_putn_other; lia.
  - intros j Hj. rewrite I3 by lia. unfold lh_read_block, lh_write_block. f_equal. apply getn_putn_other; lia.
  - intros [|k] b' Hk.
    + cbn in Hk. injection Hk as <-. rewrite Z.add_0_r, I3 by lia. unfold lh_read_block, lh_write_block.
      rewrite getn_putn by lia. rewrite Z.mod_small by lia. apply signed_small; lia.
    + cbn in Hk. replace (i + Z.of_nat (S k)) with (i + 1 + Z.of_nat k) by lia. by apply I4.
Qed.

Lemma make_header_spec bl bs : is_block bl -> Z.of_nat (length bs) <= LOGBLOCKS -> Forall (fun b => 0 <= b < 2 ^ 31) bs ->
  is_block (make_header bl bs) /\ lh_read_n (make_header bl bs) = Z.of_nat (length bs) /\ header_blocks (make_header bl bs) = bs.
Proof.
  intros Hbl Hlen Hbs. pose proof (block_len bl Hbl) as Hl. unfold BSIZE in Hl. unfold LOGBLOCKS, MAXOPBLOCKS in *.
  assert (Hb1 : is_block (lh_write_n bl (Z.of_nat (length bs)))) by (apply is_block_putn; [done|lia|unfold BSIZE; lia]).
  destruct (put_blocks_spec bs _ 0 Hb1 ltac:(lia) Hlen Hbs) as (I1 & I2 & _ & I4).
  assert (En : lh_read_n (make_header bl bs) = Z.of_nat (length bs)).
  { unfold make_header. rewrite I2. unfold lh_read_n, lh_write_n. rewrite getn_putn by lia.
    rewrite Z.mod_small by lia. apply signed_small; lia. }
  split_and!; [done|done|]. unfold header_blocks, upto. rewrite En. apply list_eq. intros k.
  destruct (bs !! k) as [b|] eqn:E.
  - pose proof (lookup_lt_Some _ _ _ E). rewrite list_lookup_fmap. rewrite lookup_seqZ_lt by lia. cbn. f_equal. by apply I4.
  - apply lookup_ge_None in E. apply lookup_ge_None. rewrite length_map, length_seqZ. lia.
Qed.

(** ** Recovered contents *)
Section recovered.
Context {D : Type} {drv : DiskDriver D} {spec : DiskSpec D}.
Context (start : Z).

Definition in_log (b : Z) : Prop := start <= b <= start + LOGBLOCKS.
#[local] Instance in_log_dec b : Decision (in_log b) := _.

(** The blocks a header may name: distinct, and outside the log. *)
Record good_blocks (bs : list Z) : Prop := {
  gb_nodup : NoDup bs;
  gb_len : Z.of_nat (length bs) <= LOGBLOCKS;
  gb_in : forall b, b ∈ bs -> 0 <= b < dsize /\ ~ in_log b
}.

Definition overlay (d : D) (bs : list Z) (k : Z) : block :=
  match list_find (fun b => b = k) bs with
  | Some (t, _) => dblock d (start + 1 + Z.of_nat t)
  | None => dblock d k
  end.
Definition recovered (d : D) (k : Z) : block := overlay d (header_blocks (dblock d start)) k.

(** A device that recovers to contents [f]. *)
Record stable (f : Z -> block) (d : D) : Prop := {
  st_ok : dok d;
  st_n : 0 <= lh_read_n (dblock d start) <= LOGBLOCKS;
  st_good : good_blocks (header_blocks (dblock d start));
  st_rec : forall k, ~ in_log k -> recovered d k = f k
}.

Lemma list_find_nodup (bs : list Z) t b : NoDup bs -> bs !! t = Some b -> list_find (fun x => x = b) bs = Some (t, b).
Proof.
  intros Hnd Ht. apply list_find_Some. split_and!; [done|done|].
  intros j y Hj Hlt ->. pose proof (NoDup_lookup _ _ _ _ Hnd Ht Hj). lia.
Qed.

Lemma list_find_not_in (bs : list Z) b : b ∉ bs -> list_find (fun x => x = b) bs = None.
Proof. intros Hb. apply list_find_None, Forall_forall. by intros x Hx ->. Qed.

Lemma overlay_in d bs t b : NoDup bs -> bs !! t = Some b -> overlay d bs b = dblock d (start + 1 + Z.of_nat t).
Proof. intros Hnd Ht. unfold overlay. by rewrite (list_find_nodup bs t b Hnd Ht). Qed.

Lemma overlay_out d bs b : b ∉ bs -> overlay d bs b = dblock d b.
Proof. intros Hb. unfold overlay. by rewrite list_find_not_in. Qed.

Lemma start_in_log : in_log start.
Proof. unfold in_log, LOGBLOCKS, MAXOPBLOCKS. lia. Qed.

Lemma header_empty bl : lh_read_n bl = 0 -> header_blocks bl = [].
Proof. unfold header_blocks, upto. by intros ->. Qed.

(** An empty log: the device is what it recovers to. *)
Lemma stable_clear f d : dok d -> lh_read_n (dblock d start) = 0 -> (forall k, ~ in_log k -> dblock d k = f k) -> stable f d.
Proof.
  intros Hd Hn Hf. pose proof (header_empty _ Hn) as He. split.
  - done.
  - rewrite Hn. unfold LOGBLOCKS, MAXOPBLOCKS. lia.
  - rewrite He. split; [apply NoDup_nil; done| |by intros b ?%not_elem_of_nil]. cbn. unfold LOGBLOCKS, MAXOPBLOCKS. lia.
  - intros k Hk. unfold recovered. rewrite He, overlay_out by apply not_elem_of_nil. by apply Hf.
Qed.

(** A committed log: its blocks replace those the header names. *)
Lemma stable_commit f d bs : dok d -> lh_read_n (dblock d start) = Z.of_nat (length bs) -> header_blocks (dblock d start) = bs ->
  good_blocks bs -> (forall t b, bs !! t = Some b -> dblock d (start + 1 + Z.of_nat t) = f b) ->
  (forall k, ~ in_log k -> k ∉ bs -> dblock d k = f k) -> stable f d.
Proof.
  intros Hd Hn He Hg Hlog Hrest. split; [done| |by rewrite He|].
  - rewrite Hn. pose proof (gb_len _ Hg). lia.
  - intros k Hk. unfold recovered. rewrite He. destruct (decide (k ∈ bs)) as [Hin|Hout].
    + apply list_elem_of_lookup in Hin as [t Ht]. rewrite (overlay_in d bs t k (gb_nodup _ Hg) Ht). by apply Hlog.
    + rewrite overlay_out by done. by apply Hrest.
Qed.

(** Installing any of the named blocks does not change what is recovered. *)
Lemma stable_same f d d' : stable f d -> dok d' -> (forall k, in_log k -> dblock d' k = dblock d k) ->
  (forall k, ~ in_log k -> k ∉ header_blocks (dblock d start) -> dblock d' k = dblock d k) -> stable f d'.
Proof.
  intros [S1 S2 S3 S4] Hd Hlog Hrest. pose proof (Hlog start start_in_log) as E.
  split; [done|by rewrite E|by rewrite E|]. intros k Hk. rewrite <- (S4 k Hk). unfold recovered. rewrite E.
  destruct (decide (k ∈ header_blocks (dblock d start))) as [Hin|Hout].
  - apply list_elem_of_lookup in Hin as [t Ht]. rewrite !(overlay_in _ _ t k (gb_nodup _ S3) Ht). apply Hlog.
    pose proof (lookup_lt_Some _ _ _ Ht). pose proof (gb_len _ S3). unfold in_log. lia.
  - rewrite !overlay_out by done. by apply Hrest.
Qed.

Lemma stable_header_len f d : stable f d -> lh_read_n (dblock d start) = Z.of_nat (length (header_blocks (dblock d start))).
Proof. intros [_ S2 _ _]. unfold header_blocks, upto. rewrite length_map, length_seqZ. lia. Qed.

Lemma stable_ext f g d : (forall k, ~ in_log k -> f k = g k) -> stable f d -> stable g d.
Proof. intros E [S1 S2 S3 S4]. split; [done..|]. intros k Hk. by rewrite <- E, S4. Qed.
End recovered.

(** ** The routines of log.c *)

Lemma held_one b : ({[b]} ∪ ∅ : gset Z) ∖ {[b]} = ∅.
Proof. set_solver. Qed.
Lemma held_two b c : b <> c -> ({[b]} ∪ ({[c]} ∪ ∅) : gset Z) ∖ {[b]} ∖ {[c]} = ∅.
Proof. set_solver. Qed.
Lemma held_two' b c : b <> c -> ({[b]} ∪ ({[c]} ∪ ∅) : gset Z) ∖ {[c]} ∖ {[b]} = ∅.
Proof. set_solver. Qed.

Section runs.
Context {D : Type} {drv : DiskDriver D} {spec : DiskSpec D}.
Context (mypid dev start : Z) (dev_ok : dev <> 0).
Context (start_ok : 0 <= start) (fits : start + LOGBLOCKS < dsize) (small : dsize <= 2 ^ 31).
Implicit Types (s : logst D) (b : Z) (i j : nat) (P : gset Z) (bs : list Z).

Notation cst := (cst mypid dev).
Notation cv := (cv dev).
Notation at_buf := (at_buf dev).
Notation in_log := (in_log start).
Notation stable := (stable start).

(** The in-memory log between calls: the blocks of the transaction. *)
Record lst s bs : Prop := {
  ls_lock : lg_lock s = false;
  ls_start : lg_start s = start;
  ls_dev : lg_dev s = dev;
  ls_n : lh_n s = Z.of_nat (length bs);
  ls_arr : length (lh_block s) = Z.to_nat LOGBLOCKS;
  ls_blocks : take (length bs) (lh_block s) = bs
}.

Lemma set_lbio_twice s x y : set_lbio (set_lbio s x) y = set_lbio s y.
Proof. done. Qed.
Lemma set_lbio_same s : set_lbio s (lbio s) = s.
Proof. by destruct s. Qed.

Lemma lst_lbio s bs x : lst s bs -> lst (set_lbio s x) bs.
Proof. intros [? ? ? ? ? ?]. by split. Qed.

Lemma cache_ok {A} (m : M (bio D) A) s a x : m (lbio s) = Ok a x -> cache m s = Ok a (set_lbio s x).
Proof. unfold cache, zoom. by intros ->. Qed.

Lemma cache_step {A} (m : M (bio D) A) s x a y : m x = Ok a y -> cache m (set_lbio s x) = Ok a (set_lbio s y).
Proof. intros E. by rewrite (cache_ok m (set_lbio s x) a y E). Qed.

Lemma lst_nth s bs t b : lst s bs -> bs !! t = Some b -> nthz (lh_block s) (Z.of_nat t) = b.
Proof.
  intros Hl Ht. unfold nthz. rewrite Nat2Z.id. rewrite <- (ls_blocks _ _ Hl) in Ht.
  apply lookup_take_Some in Ht as [-> _]. done.
Qed.

Lemma cv_clean x P H b : cst x P H -> b ∉ P ∪ H -> cv x b = dblock (bdisk x) b.
Proof.
  intros Hs Hb. pose proof Hs as [[l Hc] _ _ _ _ _ Hcl]. unfold cv. destruct (cached_dec x dev b) as [[i Hi]|Hn].
  - rewrite (view_cached x l dev b i Hc dev_ok Hi). destruct (b_valid (getb x i)) eqn:Ev; [|done].
    pose proof (cst_refs mypid dev x P H b i Hs Hi) as Hr. rewrite !one_false in Hr by uni.
    destruct Hi as (Hi & _ & Hbn). rewrite (Hcl i Hi Hr Ev). by rewrite Hbn.
  - by apply view_uncached.
Qed.

Lemma set_buf_data_run s i data :
  set_buf_data i data s = Ok tt (set_lbio s (setb (lbio s) i (set_data (getb (lbio s) i) data))).
Proof. done. Qed.

(** The loop that fills the header block. *)
Lemma fill_header s bs0 buf bs (i0 : Z) data : length (bc_buf (lbio s)) = S NBUF -> (buf < NBUF)%nat ->
  b_data (getb (lbio s) buf) = data -> (forall k b, bs !! k = Some b -> nthz bs0 (i0 + Z.of_nat k) = b) ->
  for_all (seqZ i0 (Z.of_nat (length bs))) (fun i : Z =>
    hb <- buf_data buf ;; set_buf_data buf (lh_write_block hb i (nthz bs0 i))) s =
  Ok tt (set_lbio s (setb (lbio s) buf (set_data (getb (lbio s) buf) (put_blocks data i0 bs)))).
Proof.
  revert s i0 data. induction bs as [|b bs IH]; intros s i0 data Hlen Hbuf Hdata Hbs; cbn [put_blocks].
  - rewrite seqZ_nil by (cbn; lia). cbn [for_all]. unfold ret. do 2 f_equal. subst data.
    replace (set_data (getb (lbio s) buf) (b_data (getb (lbio s) buf))) with (getb (lbio s) buf) by (by destruct (getb (lbio s) buf)).
    by rewrite setb_getb, set_lbio_same.
  - rewrite seqZ_cons by (cbn; lia). cbn [for_all]. replace (Z.pred (Z.of_nat (length (b :: bs)))) with (Z.of_nat (length bs)) by (cbn [length]; lia).
    unfold bind at 1. unfold bind at 1. unfold buf_data at 1, gets. rewrite set_buf_data_run, Hdata.
    pose proof (Hbs 0%nat b eq_refl) as Hb. rewrite Z.add_0_r in Hb. rewrite Hb.
    set (s1 := set_lbio s _).
    assert (G : getb (lbio s1) buf = set_data (getb (lbio s) buf) (lh_write_block data i0 b)).
    { unfold s1. cbn. rewrite getb_setb by (done || lia). by rewrite decide_True. }
    replace (Z.succ i0) with (i0 + 1) by lia. rewrite (IH s1 (i0 + 1) (lh_write_block data i0 b)).
    + rewrite G. unfold s1. cbn [lbio set_lbio]. by rewrite set_lbio_twice, setb_setb.
    + unfold s1. cbn. by rewrite length_insert.
    + done.
    + by rewrite G.
    + intros k b' Hk. rewrite <- (Hbs (S k) b' Hk). f_equal. lia.
Qed.

(** One write: the history gains the device as it now is. *)
Definition one_write (x x' : bio D) : Prop :=
  exists d, bhist x' = d :: bhist x /\ dok d /\ forall k, dblock d k = dblock (bdisk x') k.

Lemma write_head_run s bs P : lst s bs -> cst (lbio s) P ∅ -> start ∉ P -> (size P < NBUF)%nat ->
  Z.of_nat (length bs) <= LOGBLOCKS -> Forall (fun b => 0 <= b < 2 ^ 31) bs ->
  let h := make_header (cv (lbio s) start) bs in
  exists x, write_head mypid s = Ok tt (set_lbio s x) /\ cst x P ∅ /\
    (forall k, cv x k = if decide (k = start) then h else cv (lbio s) k) /\
    (forall k, dblock (bdisk x) k = if decide (k = start) then h else dblock (bdisk (lbio s)) k) /\
    one_write (lbio s) x.
Proof.
  intros Hl Hs Hst Hsz Hlen Hbs h. unfold LOGBLOCKS, MAXOPBLOCKS in *.
  destruct (bread_cst mypid dev dev_ok (lbio s) P ∅ start Hs) as (i & x1 & R1 & S1 & C1 & D1 & A1 & _);
    [lia|apply not_elem_of_empty|right; by rewrite union_empty_r_L|].
  assert (Hh1 : start ∈ {[start]} ∪ (∅ : gset Z)) by uni.
  pose proof (cv_at mypid dev dev_ok x1 P _ start i S1 ltac:(uni) A1) as Ed. rewrite C1 in Ed.
  destruct (make_header_spec (cv (lbio s) start) bs) as (Hblk & _ & _); [eapply cv_block; done|done|done|].
  destruct (set_data_cst mypid dev dev_ok x1 P _ start i h S1 Hh1 A1 Hblk) as (S2 & C2 & D2 & A2).
  set (x2 := setb x1 i (set_data (getb x1 i) h)) in *.
  destruct (bwrite_cst mypid dev dev_ok x2 P _ start i S2) as (x3 & R3 & S3 & C3 & D3 & B3 & A3 & O3); [lia|done|by apply A2|].
  destruct (brelse_cst mypid dev dev_ok x3 P _ start i S3 Hh1) as (x4 & R4 & S4 & C4 & D4 & A4); [by apply A3, A2| |].
  { right. rewrite D3, C3, decide_True by done. done. }
  exists x4. rewrite held_one in S4. destruct D4 as [D4 B4], D2 as [D2 B2], D1 as [D1 B1].
  split_and!; [|done| | |].
  - pose proof A1 as (Hi & _ & _). pose proof (cs_inv _ _ _ _ _ S1) as [l1 Hc1]. pose proof (ci_len _ _ Hc1) as Hlen1.
    unfold write_head. unfold bind at 1, get. rewrite (ls_start _ _ Hl), (ls_dev _ _ Hl), u32_small by lia.
    step_with (cache_ok _ _ _ _ R1). unfold bind at 1, buf_data at 1, gets. cbn [lbio set_lbio]. rewrite <- Ed.
    unfold bind at 1. rewrite set_buf_data_run. cbn [lbio set_lbio]. rewrite set_lbio_twice.
    rewrite (ls_n _ _ Hl). unfold upto.
    erewrite bind_ok; [|apply (fill_header _ (lh_block s) i bs 0 (lh_write_n (cv (lbio s) start) (Z.of_nat (length bs))))].
    + cbn [lbio set_lbio]. rewrite set_lbio_twice. rewrite getb_setb, decide_True by (done || lia).
      rewrite setb_setb. change (set_data (set_data _ _) _) with (set_data (getb x1 i) h).
      fold x2. step_with (cache_ok (bwrite mypid i) (set_lbio s x2) _ _ R3). rewrite set_lbio_twice.
      rewrite (cache_ok (brelse mypid i) (set_lbio s x3) _ _ R4). done.
    + cbn. by rewrite length_insert.
    + done.
    + cbn [lbio set_lbio]. rewrite getb_setb, decide_True by (done || lia). done.
    + intros k b Hk. by apply (lst_nth s bs).
  - intros k. rewrite C4, C3, C2, C1. done.
  - intros k. rewrite D4, D3, D2, D1. case_decide; [|done]. rewrite C2, decide_True by done. done.
  - exists (bdisk x3). split_and!; [by rewrite B4, B3, B2, B1|done|by intros k; rewrite D4].
Qed.

(** What copying block [a] to block [b] on the device does. *)
Record copied (x x' : bio D) (a b : Z) : Prop := {
  cp_cv : forall k, cv x' k = if decide (k = b) then cv x a else cv x k;
  cp_disk : forall k, dblock (bdisk x') k = if decide (k = b) then cv x a else dblock (bdisk x) k;
  cp_hist : one_write x x'
}.

(** One turn of the loop of [write_log]: [b] to log block [L]. *)
Lemma write_log_iter s P L b : cst (lbio s) P ∅ -> L ∉ P -> b ∈ P -> 0 <= L < dsize -> 0 <= b < dsize -> (size P < NBUF)%nat ->
  exists x, (to <- cache (bread mypid dev L) ;; from <- cache (bread mypid dev b) ;; data <- buf_data from ;;
     set_buf_data to data ;;; cache (bwrite mypid to) ;;; cache (brelse mypid from) ;;; cache (brelse mypid to)) s =
    Ok tt (set_lbio s x) /\ cst x P ∅ /\ copied (lbio s) x b L.
Proof.
  intros Hs HL HbP HLr Hbr Hsz. assert (HLb : b <> L) by (intros ->; done).
  destruct (bread_cst mypid dev dev_ok (lbio s) P ∅ L Hs) as (i & x1 & R1 & S1 & C1 & [D1 B1] & A1 & _);
    [done|apply not_elem_of_empty|right; by rewrite union_empty_r_L|].
  destruct (bread_cst mypid dev dev_ok x1 P _ b S1) as (j & x2 & R2 & S2 & C2 & [D2 B2] & A2 & K2); [done|uni|by left|].
  assert (A1' : at_buf x2 L i) by (apply K2; [uni|done]).
  pose proof (cv_at mypid dev dev_ok x2 P _ b j S2 ltac:(uni) A2) as Ed. rewrite C2, C1 in Ed.
  assert (Hblk : is_block (cv (lbio s) b)) by (eapply cv_block; done).
  destruct (set_data_cst mypid dev dev_ok x2 P _ L i (cv (lbio s) b) S2 ltac:(uni) A1' Hblk) as (S3 & C3 & [D3 B3] & A3).
  set (x3 := setb x2 i (set_data (getb x2 i) (cv (lbio s) b))) in *.
  destruct (bwrite_cst mypid dev dev_ok x3 P _ L i S3 HLr ltac:(uni)) as (x4 & R4 & S4 & C4 & D4 & B4 & A4 & O4); [by apply A3|].
  destruct (brelse_cst mypid dev dev_ok x4 P _ b j S4 ltac:(uni)) as (x5 & R5 & S5 & C5 & [D5 B5] & A5);
    [by apply A4, A3|by left|].
  assert (E4 : cv x4 L = dblock (bdisk x4) L) by (rewrite D4, decide_True by done; apply C4).
  destruct (brelse_cst mypid dev dev_ok x5 P _ L i S5 ltac:(uni)) as (x6 & R6 & S6 & C6 & [D6 B6] & A6);
    [by apply A5, A4, A3|right; by rewrite C5, D5|].
  rewrite held_two in S6 by done. exists x6. split_and!; [|done|split].
  - step_with (cache_ok _ _ _ _ R1). step_with (cache_step _ s _ _ _ R2).
    unfold bind at 1, buf_data, gets. cbn [lbio set_lbio]. rewrite <- Ed. unfold bind at 1. rewrite set_buf_data_run.
    cbn [lbio set_lbio]. rewrite set_lbio_twice. fold x3.
    step_with (cache_step _ s _ _ _ R4). step_with (cache_step _ s _ _ _ R5). exact (cache_step _ s _ _ _ R6).
  - intros k. rewrite C6, C5, C4, C3, C2, C1. done.
  - intros k. rewrite D6, D5, D4, D3, D2, D1. case_decide; [|done]. by rewrite C3, decide_True.
  - exists (bdisk x4). split_and!; [by rewrite B6, B5, B4, B3, B2, B1|done|intros k; by rewrite D6, D5].
Qed.

(** One turn of the loop of [install_trans]: log block [L] to [b]. *)
Lemma install_iter s P recovering L b : cst (lbio s) P ∅ -> L ∉ P -> L <> b ->
  (if recovering : bool then b ∉ P /\ (size P + 1 < NBUF)%nat else b ∈ P /\ (size P < NBUF)%nat) -> 0 <= L < dsize -> 0 <= b < dsize ->
  exists x, (lbuf <- cache (bread mypid dev L) ;; dbuf <- cache (bread mypid dev b) ;; data <- buf_data lbuf ;;
     set_buf_data dbuf data ;;; cache (bwrite mypid dbuf) ;;; when (negb recovering) (cache (bunpin dbuf)) ;;;
     cache (brelse mypid lbuf) ;;; cache (brelse mypid dbuf)) s =
    Ok tt (set_lbio s x) /\ cst x (P ∖ {[b]}) ∅ /\ copied (lbio s) x L b.
Proof.
  intros Hs HL HLb HbP HLr Hbr.
  assert (Hsz : (size P < NBUF)%nat) by (destruct recovering; lia).
  destruct (bread_cst mypid dev dev_ok (lbio s) P ∅ L Hs) as (i & x1 & R1 & S1 & C1 & [D1 B1] & A1 & _);
    [done|apply not_elem_of_empty|right; by rewrite union_empty_r_L|].
  destruct (bread_cst mypid dev dev_ok x1 P _ b S1) as (j & x2 & R2 & S2 & C2 & [D2 B2] & A2 & K2); [done|uni| |].
  { destruct recovering; [right|left; tauto]. rewrite union_empty_r_L, size_union, size_singleton; [lia|]. set_solver. }
  assert (A1' : at_buf x2 L i) by (apply K2; [uni|done]).
  pose proof (cv_at mypid dev dev_ok x2 P _ L i S2 ltac:(uni) A1') as Ed. rewrite C2, C1 in Ed.
  assert (Hblk : is_block (cv (lbio s) L)) by (eapply cv_block; done).
  destruct (set_data_cst mypid dev dev_ok x2 P _ b j (cv (lbio s) L) S2 ltac:(uni) A2 Hblk) as (S3 & C3 & [D3 B3] & A3).
  set (x3 := setb x2 j (set_data (getb x2 j) (cv (lbio s) L))) in *.
  destruct (bwrite_cst mypid dev dev_ok x3 P _ b j S3 Hbr ltac:(uni)) as (x4 & R4 & S4 & C4 & D4 & B4 & A4 & O4); [by apply A3|].
  assert (exists x5, (when (negb recovering) (cache (bunpin j))) (set_lbio s x4) = Ok tt (set_lbio s x5) /\
    cst x5 (P ∖ {[b]}) ({[b]} ∪ ({[L]} ∪ ∅)) /\ same_cv dev x4 x5 /\ same_disk x4 x5 /\ forall k j, at_buf x5 k j <-> at_buf x4 k j)
    as (x5 & R5 & S5 & C5 & [D5 B5] & A5).
  { destruct recovering; cbn [negb when].
    - exists x4. replace (P ∖ {[b]}) with P by set_solver. done.
    - destruct (bunpin_cst mypid dev dev_ok x4 P _ b j S4 ltac:(uni) ltac:(tauto)) as (x5 & R5 & ?); [by apply A4, A3|].
      exists x5. split; [|done]. by apply (cache_ok (bunpin j) (set_lbio s x4)). }
  assert (EL : cv x5 L = dblock (bdisk x5) L).
  { rewrite C5, C4, C3, decide_False, C2, C1 by done. rewrite D5, D4, decide_False, D3, D2, D1 by done.
    apply (cv_clean _ P ∅); [done|uni]. }
  destruct (brelse_cst mypid dev dev_ok x5 _ _ L i S5 ltac:(uni)) as (x6 & R6 & S6 & C6 & [D6 B6] & A6);
    [by apply A5, A4, A3|by right|].
  destruct (brelse_cst mypid dev dev_ok x6 _ _ b j S6 ltac:(uni)) as (x7 & R7 & S7 & C7 & [D7 B7] & A7);
    [by apply A6, A5, A4, A3| |].
  { right. rewrite C6, D6, C5, D5, D4, decide_True by done. apply C4. }
  rewrite held_two' in S7 by done. exists x7. split_and!; [|done|split].
  - step_with (cache_ok _ _ _ _ R1). step_with (cache_step _ s _ _ _ R2).
    unfold bind at 1, buf_data, gets. cbn [lbio set_lbio]. rewrite <- Ed. unfold bind at 1. rewrite set_buf_data_run.
    cbn [lbio set_lbio]. rewrite set_lbio_twice. fold x3.
    step_with (cache_step _ s _ _ _ R4). step_with R5. step_with (cache_step _ s _ _ _ R6). exact (cache_step _ s _ _ _ R7).
  - intros k. rewrite C7, C6, C5, C4, C3, C2, C1. done.
  - intros k. rewrite D7, D6, D5, D4, D3, D2, D1. case_decide; [|done]. by rewrite C3, decide_True.
  - exists (bdisk x4). split_and!; [by rewrite B7, B6, B5, B4, B3, B2, B1|done|intros k; by rewrite D7, D6, D5].
Qed.

Lemma good_small bs : good_blocks start bs -> Forall (fun b => 0 <= b < 2 ^ 31) bs.
Proof. intros Hg. apply Forall_forall. intros b Hb. destruct (gb_in _ _ Hg b Hb). lia. Qed.

Lemma log_block_range bs (t : nat) b : good_blocks start bs -> bs !! t = Some b ->
  in_log (start + Z.of_nat t + 1) /\ 0 <= start + Z.of_nat t + 1 < dsize.
Proof.
  intros Hg Ht. pose proof (lookup_lt_Some _ _ _ Ht). pose proof (gb_len _ _ Hg). unfold LogSpec.in_log. lia.
Qed.

Definition pinned (bs : list Z) : gset Z := list_to_set bs.

Lemma pinned_log bs k : good_blocks start bs -> in_log k -> k ∉ pinned bs.
Proof. intros Hg Hk Hin. apply elem_of_list_to_set in Hin. by destruct (gb_in _ _ Hg k Hin). Qed.

Lemma size_pinned bs : NoDup bs -> size (pinned bs) = length bs.
Proof. intros. by apply size_list_to_set. Qed.

Lemma write_log_run s bs : lst s bs -> good_blocks start bs -> cst (lbio s) (pinned bs) ∅ -> (length bs < NBUF)%nat ->
  let d0 := bdisk (lbio s) in lh_read_n (dblock d0 start) = 0 ->
  exists x hs, write_log mypid s = Ok tt (set_lbio s x) /\ cst x (pinned bs) ∅ /\
    (forall k, ~ in_log k -> cv x k = cv (lbio s) k /\ dblock (bdisk x) k = dblock d0 k) /\
    dblock (bdisk x) start = dblock d0 start /\
    (forall t b, bs !! t = Some b -> dblock (bdisk x) (start + 1 + Z.of_nat t) = cv (lbio s) b) /\
    bhist x = hs ++ bhist (lbio s) /\ Forall (stable (dblock d0)) hs.
Proof.
  intros Hl Hg Hs Hsz d0 Hn0.
  set (I := fun (t : Z) s' => exists x hs, s' = set_lbio s x /\ cst x (pinned bs) ∅ /\
    (forall k, ~ in_log k -> cv x k = cv (lbio s) k /\ dblock (bdisk x) k = dblock d0 k) /\
    dblock (bdisk x) start = dblock d0 start /\
    (forall u b, bs !! u = Some b -> Z.of_nat u < t -> dblock (bdisk x) (start + 1 + Z.of_nat u) = cv (lbio s) b) /\
    bhist x = hs ++ bhist (lbio s) /\ Forall (stable (dblock d0)) hs).
  unfold write_log, bind at 1, get. rewrite (ls_n _ _ Hl), (ls_start _ _ Hl), (ls_dev _ _ Hl). unfold upto.
  match goal with |- context [for_all (seqZ 0 ?m) ?bd s] => destruct (for_all_inv I bd m s) as (s' & Hrun & HI) end.
  - lia.
  - exists (lbio s), []. split_and!; try done; [by rewrite set_lbio_same|intros; lia].
  - intros t s1 Ht (x & hs & -> & Sx & Kx & Hx & Wx & Bx & Fx).
    destruct (lookup_lt_is_Some_2 bs (Z.to_nat t)) as [b Hb]; [lia|].
    destruct (log_block_range bs _ b Hg Hb) as [HLl HLr]. rewrite Z2Nat.id in HLl, HLr by lia.
    destruct (gb_in _ _ Hg b ltac:(by eapply list_elem_of_lookup_2)) as [Hbr Hbl].
    pose proof (lst_nth s bs _ b Hl Hb) as Hnth. rewrite Z2Nat.id in Hnth by lia. rewrite Hnth, !u32_small by lia.
    destruct (write_log_iter (set_lbio s x) (pinned bs) (start + t + 1) b) as (x' & R & S' & [C' D' (d & B' & O' & E')]);
      [done|by apply pinned_log|apply elem_of_list_to_set; by eapply list_elem_of_lookup_2|done|done| |].
    { rewrite size_pinned; [done|apply Hg]. }
    exists (set_lbio s x'). split; [exact R|]. cbn [lbio set_lbio] in *.
    assert (K' : forall k, ~ in_log k -> dblock (bdisk x') k = dblock d0 k).
    { intros k Hk. rewrite D', decide_False by (intros ->; done). by apply Kx. }
    assert (Hs' : dblock (bdisk x') start = dblock d0 start) by (rewrite D', decide_False by lia; done).
    exists x', (d :: hs). split_and!; [done|done| |done| |by rewrite B', Bx|].
    + intros k Hk. split; [|by apply K']. rewrite C', decide_False by (intros ->; done). by apply Kx.
    + intros u b' Hu Hut. rewrite D'. case_decide as Eu.
      * assert (Z.to_nat t = u) as Et by lia. rewrite Et in Hb. simplify_eq. by apply Kx.
      * apply Wx; [done|lia].
    + apply Forall_cons. split; [|done]. apply stable_clear; [done|by rewrite E', Hs'|]. intros k Hk. by rewrite E', K'.
  - destruct HI as (x & hs & -> & Sx & Kx & Hx & Wx & Bx & Fx). exists x, hs. split_and!; try done.
    intros t b Ht. apply Wx; [done|]. apply lookup_lt_Some in Ht. lia.
Qed.

Lemma pinned_drop bs t b : NoDup bs -> bs !! t = Some b -> pinned (drop t bs) ∖ {[b]} = pinned (drop (S t) bs).
Proof.
  intros Hnd Ht. rewrite (drop_S _ _ _ Ht). unfold pinned. cbn [list_to_set].
  assert (Hn : b ∉ (list_to_set (drop (S t) bs) : gset Z)).
  { intros Hin%elem_of_list_to_set. rewrite <- (take_drop t bs), (drop_S _ _ _ Ht) in Hnd.
    apply NoDup_app in Hnd as (_ & _ & Hnd). apply NoDup_cons in Hnd as [Hnd _]. done. }
  set_solver.
Qed.

Lemma pinned_from bs t b : NoDup bs -> (false = false -> length bs < NBUF)%nat -> bs !! t = Some b ->
  b ∈ pinned (drop t bs) /\ (size (pinned (drop t bs)) < NBUF)%nat.
Proof.
  intros Hnd Hsz Ht. split.
  - apply elem_of_list_to_set. rewrite (drop_S _ _ _ Ht). by left.
  - specialize (Hsz eq_refl). rewrite <- (take_drop t bs) in Hnd. apply NoDup_app in Hnd as (_ & _ & Hnd).
    rewrite size_pinned, length_drop by done. lia.
Qed.

Lemma install_run s bs recovering f : lst s bs -> good_blocks start bs ->
  cst (lbio s) (if recovering : bool then ∅ else pinned bs) ∅ -> (recovering = false -> length bs < NBUF)%nat ->
  let d0 := bdisk (lbio s) in stable f d0 -> header_blocks (dblock d0 start) = bs ->
  exists x hs, install_trans mypid recovering s = Ok tt (set_lbio s x) /\ cst x ∅ ∅ /\
    (forall k, ~ in_log k -> dblock (bdisk x) k = f k) /\ (forall k, in_log k -> dblock (bdisk x) k = dblock d0 k) /\
    bhist x = hs ++ bhist (lbio s) /\ Forall (stable f) hs.
Proof.
  intros Hl Hg Hs Hsz d0 Hst Hhd. set (Pt := fun t : Z => if recovering then ∅ else pinned (drop (Z.to_nat t) bs)).
  assert (Hrec : forall t b, bs !! t = Some b -> dblock d0 (start + 1 + Z.of_nat t) = f b).
  { intros t b Ht. destruct (gb_in _ _ Hg b ltac:(by eapply list_elem_of_lookup_2)) as [_ Hbl].
    rewrite <- (st_rec _ _ _ Hst b Hbl). unfold recovered. rewrite Hhd. symmetry. by apply overlay_in; [apply Hg|]. }
  set (I := fun (t : Z) s' => exists x hs, s' = set_lbio s x /\ cst x (Pt t) ∅ /\
    (forall k, ~ in_log k -> dblock (bdisk x) k = if decide (k ∈ take (Z.to_nat t) bs) then f k else dblock d0 k) /\
    (forall k, in_log k -> dblock (bdisk x) k = dblock d0 k) /\
    bhist x = hs ++ bhist (lbio s) /\ Forall (stable f) hs).
  unfold install_trans, bind at 1, get. rewrite (ls_n _ _ Hl), (ls_start _ _ Hl), (ls_dev _ _ Hl). unfold upto.
  match goal with |- context [for_all (seqZ 0 ?m) ?bd s] => destruct (for_all_inv I bd m s) as (s' & Hrun & HI) end.
  - lia.
  - exists (lbio s), []. split_and!; [by rewrite set_lbio_same|exact Hs| |done|done|by apply Forall_nil_2].
    intros k Hk. rewrite decide_False; [done|]. apply not_elem_of_nil.
  - intros t s1 Ht (x & hs & -> & Sx & Kx & Lx & Bx & Fx).
    destruct (lookup_lt_is_Some_2 bs (Z.to_nat t)) as [b Hb]; [lia|].
    destruct (log_block_range bs _ b Hg Hb) as [HLl HLr]. rewrite Z2Nat.id in HLl, HLr by lia.
    destruct (gb_in _ _ Hg b ltac:(by eapply list_elem_of_lookup_2)) as [Hbr Hbl].
    pose proof (lst_nth s bs _ b Hl Hb) as Hnth. rewrite Z2Nat.id in Hnth by lia. rewrite Hnth, !u32_small by lia.
    assert (HLP : start + t + 1 ∉ Pt t).
    { unfold Pt. destruct recovering; [apply not_elem_of_empty|]. intros Hin%elem_of_list_to_set%elem_drop.
      by destruct (gb_in _ _ Hg _ Hin). }
    destruct (install_iter (set_lbio s x) (Pt t) recovering (start + t + 1) b) as (x' & R & S' & [C' D' (d & B' & O' & E')]);
      [done|done|by intros E; rewrite E in HLl| |done|done|].
    { unfold Pt. destruct recovering; [split; [apply not_elem_of_empty|rewrite size_empty; unfold NBUF, MAXOPBLOCKS; lia]|].
      apply pinned_from; [apply Hg|done|done]. }
    exists (set_lbio s x'). split; [exact R|]. cbn [lbio set_lbio] in *.
    assert (Hdata : cv x (start + t + 1) = f b).
    { rewrite (cv_clean x (Pt t) ∅) by (done || uni). rewrite Lx by done. rewrite <- (Hrec _ b Hb). f_equal. lia. }
    rewrite Hdata in D'.
    assert (L' : forall k, in_log k -> dblock (bdisk x') k = dblock d0 k).
    { intros k Hk. rewrite D', decide_False by (intros ->; done). by apply Lx. }
    exists x', (d :: hs). split_and!; [done| | |done|by rewrite B', Bx|].
    + unfold Pt in *. replace (Z.to_nat (t + 1)) with (S (Z.to_nat t)) by lia.
      destruct recovering; [by replace (∅ ∖ {[b]}) with (∅ : gset Z) in S' by set_solver|].
      by rewrite (pinned_drop bs _ b (gb_nodup _ _ Hg) Hb) in S'.
    + intros k Hk. rewrite D', Kx by done. replace (Z.to_nat (t + 1)) with (S (Z.to_nat t)) by lia.
      rewrite (take_S_r _ _ _ Hb). destruct (decide (k = b)) as [->|Hkb].
      * rewrite decide_True; [done|]. apply elem_of_app. right. by left.
      * apply decide_ext. rewrite elem_of_app, list_elem_of_singleton. tauto.
    + apply Forall_cons. split; [|done]. apply (stable_same _ f d0); [done|done|intros k Hk; by rewrite E', L'|].
      intros k Hk Hnot. rewrite Hhd in Hnot. rewrite E', D', decide_False, Kx, decide_False; [done| |done|].
      * intros Hin%elem_take. by apply Hnot.
      * intros ->. apply Hnot. by eapply list_elem_of_lookup_2.
  - destruct HI as (x & hs & -> & Sx & Kx & Lx & Bx & Fx). exists x, hs. split_and!; try done.
    + unfold Pt in Sx. rewrite Nat2Z.id, drop_all in Sx. by destruct recovering.
    + intros k Hk. rewrite Kx, Nat2Z.id, take_ge by done. case_decide as Hin; [done|].
      rewrite <- (st_rec _ _ _ Hst k Hk). unfold recovered. by rewrite Hhd, overlay_out.
Qed.

Lemma cst_dok x P H : cst x P H -> dok (bdisk x).
Proof. intros [[l Hc] _ _ _ _ _ _]. apply Hc. Qed.

Lemma lst_clear s bs x : lst s bs -> lst (set_lh_n (set_lbio s x) 0) [].
Proof. intros [? ? ? ? ? ?]. by split. Qed.

Lemma empty_lt_NBUF : (size (∅ : gset Z) < NBUF)%nat.
Proof. rewrite size_empty. unfold NBUF, MAXOPBLOCKS. lia. Qed.

(** Erasing the transaction, from a state whose blocks are all installed. *)
Lemma clear_run s bs f x : lst s bs -> cst x ∅ ∅ -> (forall k, ~ in_log k -> dblock (bdisk x) k = f k) ->
  exists x' hs, write_head mypid (set_lh_n (set_lbio s x) 0) = Ok tt (set_lh_n (set_lbio s x') 0) /\ cst x' ∅ ∅ /\
    lh_read_n (dblock (bdisk x') start) = 0 /\ (forall k, ~ in_log k -> dblock (bdisk x') k = f k) /\
    bhist x' = hs ++ bhist x /\ Forall (stable f) hs.
Proof.
  intros Hl Hs Hf. destruct (write_head_run _ [] ∅ (lst_clear s bs x Hl) Hs) as (x' & R & S' & C' & D' & (d & B' & O' & E')).
  { apply not_elem_of_empty. }
  { apply empty_lt_NBUF. }
  { cbn. unfold LOGBLOCKS, MAXOPBLOCKS. lia. }
  { by apply Forall_nil_2. }
  cbn [lbio set_lbio set_lh_n] in *.
  destruct (make_header_spec (cv x start) []) as (_ & Hn & _); [eapply cv_block; done|cbn; unfold LOGBLOCKS, MAXOPBLOCKS; lia|by apply Forall_nil_2|].
  assert (Hx : lh_read_n (dblock (bdisk x') start) = 0) by (by rewrite D', decide_True).
  assert (Hk : forall k, ~ in_log k -> dblock (bdisk x') k = f k).
  { intros k Hk. rewrite D', decide_False; [by apply Hf|]. intros ->. apply Hk, start_in_log. }
  exists x', [d]. split_and!; [exact R|done|done|done|exact B'|]. apply Forall_singleton.
  apply stable_clear; [done|by rewrite E'|]. intros k Hk'. by rewrite E', Hk.
Qed.

(** The device has the contents [f], and no transaction is in its log. *)
Record settled s (f : Z -> block) : Prop := {
  se_log : lst s [];
  se_cst : cst (lbio s) ∅ ∅;
  se_header : lh_read_n (dblock (bdisk (lbio s)) start) = 0;
  se_disk : forall k, ~ in_log k -> dblock (bdisk (lbio s)) k = f k
}.

Lemma settled_cv s f k : settled s f -> ~ in_log k -> cv (lbio s) k = f k.
Proof. intros [H1 H2 H3 H4] Hk. rewrite (cv_clean _ ∅ ∅) by (done || uni). by apply H4. Qed.

Lemma commit_run s bs : lst s bs -> good_blocks start bs -> cst (lbio s) (pinned bs) ∅ -> (length bs < NBUF)%nat ->
  lh_read_n (dblock (bdisk (lbio s)) start) = 0 ->
  exists s' before after, commit mypid s = Ok tt s' /\ settled s' (cv (lbio s)) /\
    lg_outstanding s' = lg_outstanding s /\ lg_committing s' = lg_committing s /\
    bhist (lbio s') = after ++ before ++ bhist (lbio s) /\
    Forall (stable (dblock (bdisk (lbio s)))) before /\ Forall (stable (cv (lbio s))) after.
Proof.
  intros Hl Hg Hs Hsz Hn. set (f := cv (lbio s)). unfold commit, bind at 1, get. rewrite (ls_n _ _ Hl).
  destruct (Z.ltb_spec 0 (Z.of_nat (length bs))) as [Hpos|Hz]; cbn [when].
  2: { destruct bs; [|cbn in Hz; lia]. exists s, [], []. split_and!; try done. split; try done.
    intros k Hk. unfold f. symmetry. apply (cv_clean _ (pinned []) ∅); [done|]. unfold pinned. cbn. uni. }
  destruct (write_log_run s bs Hl Hg Hs Hsz Hn) as (x1 & h1 & R1 & S1 & K1 & H1 & W1 & B1 & F1).
  assert (Hfd : forall k, ~ in_log k -> k ∉ bs -> dblock (bdisk (lbio s)) k = f k).
  { intros k Hk Hnot. unfold f. symmetry. apply (cv_clean _ (pinned bs) ∅); [done|].
    rewrite union_empty_r_L. unfold pinned. by rewrite elem_of_list_to_set. }
  destruct (write_head_run (set_lbio s x1) bs (pinned bs)) as (x2 & R2 & S2 & _ & D2 & (d2 & B2 & O2 & E2)).
  { by apply lst_lbio. } { done. } { apply pinned_log; [done|apply start_in_log]. }
  { rewrite size_pinned; [done|apply Hg]. } { apply Hg. } { by apply good_small. }
  cbn [lbio set_lbio] in *. rewrite set_lbio_twice in R2.
  destruct (make_header_spec (cv x1 start) bs) as (_ & Hhn & Hhb); [eapply cv_block; done|apply Hg|by apply good_small|].
  assert (Hst2 : stable f (bdisk x2)).
  { assert (Eh : dblock (bdisk x2) start = make_header (cv x1 start) bs) by (by rewrite D2, decide_True).
    apply (stable_commit _ _ _ bs); [by apply (cst_dok x2 _ _ S2)|by rewrite Eh|by rewrite Eh|done| |].
    - intros t b Ht. rewrite D2, decide_False by lia. by apply W1.
    - intros k Hk Hnot. rewrite D2, decide_False by (intros ->; apply Hk, start_in_log). rewrite (proj2 (K1 k Hk)). by apply Hfd. }
  destruct (install_run (set_lbio s x2) bs false f) as (x3 & h3 & R3 & S3 & K3 & L3 & B3 & F3).
  { by apply lst_lbio. } { done. } { done. } { done. } { done. } { cbn [lbio set_lbio]. by rewrite D2, decide_True. }
  cbn [lbio set_lbio] in *. rewrite set_lbio_twice in R3.
  destruct (clear_run s bs f x3 Hl S3 K3) as (x4 & h4 & R4 & S4 & N4 & K4 & B4 & F4).
  exists (set_lh_n (set_lbio s x4) 0), h1, (h4 ++ h3 ++ [d2]). split_and!; try done.
  - step_with R1. step_with R2. step_with R3. unfold modify. exact R4.
  - split; [by apply (lst_clear s bs)|done|done|done].
  - cbn. rewrite B4, B3, B2, B1, <- !app_assoc. done.
  - repeat apply Forall_app_2; try done. apply Forall_singleton. apply (stable_same _ f (bdisk x2)); try done; intros; by rewrite E2.
Qed.

(** *** Recovery *)

Lemma read_loop s lh n : 0 <= n <= LOGBLOCKS -> length (lh_block s) = Z.to_nat LOGBLOCKS ->
  exists arr, for_all (upto n) (fun i : Z => set_lh_at i (lh_read_block lh i)) s = Ok tt (set_lh_block s arr) /\
    length arr = Z.to_nat LOGBLOCKS /\ take (Z.to_nat n) arr = map (lh_read_block lh) (upto n).
Proof.
  intros Hn Hlen. set (I := fun (t : Z) s' => exists arr, s' = set_lh_block s arr /\ length arr = Z.to_nat LOGBLOCKS /\
    take (Z.to_nat t) arr = map (lh_read_block lh) (upto t)).
  destruct (for_all_inv I (fun i : Z => set_lh_at i (lh_read_block lh i)) n s) as (s' & Hr & (arr & -> & ? & ?)); [lia| | |by exists arr].
  - exists (lh_block s). split_and!; [by destruct s|done|done].
  - intros t s1 Ht (arr & -> & Ha & Hb). unfold set_lh_at, bind, get.
    destruct (Z.ltb_spec t LOGBLOCKS); [|lia]. eexists. split; [reflexivity|]. exists (setz arr t (lh_read_block lh t)).
    unfold setz. split_and!; [done|by rewrite length_insert|]. unfold upto in *. rewrite seqZ_snoc, map_app, <- Hb by lia.
    replace (Z.to_nat (t + 1)) with (S (Z.to_nat t)) by lia.
    rewrite (take_S_r _ _ (lh_read_block lh t)) by (apply list_lookup_insert_eq; lia). f_equal. apply take_insert_ge. lia.
Qed.

(** What a kernel sees when it starts on device [d]: empty memory. *)
Record fresh s : Prop := {
  fr_lock : lg_lock s = false;
  fr_arr : length (lh_block s) = Z.to_nat LOGBLOCKS;
  fr_cst : cst (lbio s) ∅ ∅
}.

(** The operations under way are not touched. *)
Definition same_ops s s' : Prop := lg_outstanding s' = lg_outstanding s /\ lg_committing s' = lg_committing s.

Lemma read_head_run s f : fresh s -> lg_start s = start -> lg_dev s = dev -> stable f (bdisk (lbio s)) ->
  exists s', read_head mypid s = Ok tt s' /\ lst s' (header_blocks (dblock (bdisk (lbio s)) start)) /\
    cst (lbio s') ∅ ∅ /\ same_disk (lbio s) (lbio s') /\ same_ops s s'.
Proof.
  intros [F1 F2 F3] Est Edev Hst. destruct (bread_cst mypid dev dev_ok (lbio s) ∅ ∅ start F3) as (i & x1 & R1 & S1 & C1 & [D1 B1] & A1 & _).
  { unfold LOGBLOCKS, MAXOPBLOCKS in *. lia. } { apply not_elem_of_empty. } { right. rewrite union_empty_r_L. apply empty_lt_NBUF. }
  pose proof (cv_at mypid dev dev_ok x1 ∅ _ start i S1 ltac:(uni) A1) as Ed. rewrite C1 in Ed.
  rewrite (cv_clean _ ∅ ∅) in Ed by (done || uni).
  destruct (brelse_cst mypid dev dev_ok x1 ∅ _ start i S1 ltac:(uni) A1) as (x2 & R2 & S2 & C2 & [D2 B2] & A2).
  { right. rewrite C1, D1. apply (cv_clean _ ∅ ∅); [done|uni]. }
  rewrite held_one in S2. set (h := dblock (bdisk (lbio s)) start) in *.
  set (s1 := set_lh_n (set_lbio s x1) (lh_read_n h)).
  destruct (read_loop s1 h (lh_read_n h)) as (arr & Hr & Ha1 & Ha2); [apply Hst|done|].
  exists (set_lbio (set_lh_block s1 arr) x2). split_and!; [| |done| |done].
  - unfold read_head, bind at 1, get. rewrite Est, Edev, u32_small by (unfold LOGBLOCKS, MAXOPBLOCKS in *; lia).
    step_with (cache_ok _ _ _ _ R1). unfold bind at 1, buf_data at 1, gets. cbn [lbio set_lbio]. rewrite <- Ed.
    unfold bind at 1, modify at 1. fold s1. step_with Hr. apply (cache_ok _ (set_lh_block s1 arr)). exact R2.
  - pose proof (stable_header_len _ _ _ Hst) as Hln. fold h in Hln. split; cbn; try done.
    rewrite Hln, Nat2Z.id in Ha2. unfold header_blocks at 2. by rewrite Hln.
  - split; [intros k; cbn; by rewrite D2, D1|cbn; congruence].
Qed.

Lemma recover_run s f : fresh s -> lg_start s = start -> lg_dev s = dev -> stable f (bdisk (lbio s)) ->
  exists s' hs, recover_from_log mypid s = Ok tt s' /\ settled s' f /\
    bhist (lbio s') = hs ++ bhist (lbio s) /\ Forall (stable f) hs /\ same_ops s s'.
Proof.
  intros Hf Est Edev Hst. destruct (read_head_run s f Hf Est Edev Hst) as (s1 & R1 & L1 & S1 & [D1 B1] & O1).
  set (bs := header_blocks _) in *.
  assert (Hst1 : stable f (bdisk (lbio s1))).
  { apply (stable_same _ f (bdisk (lbio s))); [done|by apply (cst_dok _ _ _ S1)|intros; by rewrite D1|intros; by rewrite D1]. }
  destruct (install_run s1 bs true f L1 (st_good _ _ _ Hst) S1) as (x2 & h2 & R2 & S2 & K2 & _ & B2 & F2); [done|done|by rewrite D1|].
  destruct (clear_run s1 bs f x2 L1 S2 K2) as (x3 & h3 & R3 & S3 & N3 & K3 & B3 & F3).
  exists (set_lh_n (set_lbio s1 x3) 0), (h3 ++ h2). split_and!.
  - unfold recover_from_log. step_with R1. step_with R2. exact R3.
  - split; [by apply (lst_clear s1 bs)|done|done|done].
  - cbn. by rewrite B3, B2, B1, <- app_assoc.
  - by apply Forall_app_2.
  - exact O1.
Qed.

Lemma initlog_run s f : fresh s -> stable f (bdisk (lbio s)) ->
  exists s' hs, initlog mypid dev start s = Ok tt s' /\ settled s' f /\
    bhist (lbio s') = hs ++ bhist (lbio s) /\ Forall (stable f) hs /\ same_ops s s'.
Proof.
  intros [F1 F2 F3] Hst. unfold initlog. unfold bind at 1 2, modify at 1 2. cbn [Z.leb].
  replace (BSIZE <=? sizeof_logheader) with false by (by vm_compute).
  unfold i32. rewrite signed_small by (unfold LOGBLOCKS, MAXOPBLOCKS in *; lia).
  destruct (recover_run (set_start_dev (set_lg_lock s false) start dev) f) as (s' & hs & ?); try done. by exists s', hs.
Qed.
End runs.
