(* ===== verification/LogSafe.v ===== *)
(** * What the log guarantees to system calls

    Atomicity of a transaction across power failures, the capacity of the log
    and the reservation discipline of [begin_op]. *)

From stdpp Require Import base gmap list numbers strings sets.
From Stdlib Require Import ZArith Lia.
From S2P Require Import Prelude Mem Spinlock Bytes Sleeplock Disk Bio BioSpec Cache Log LogSpec.
Open Scope Z_scope.
Open Scope kernel_scope.

Section safe.
Context {D : Type} {drv : DiskDriver D} {spec : DiskSpec D}.
Context (mypid dev start : Z) (dev_ok : dev <> 0).
Context (start_ok : 0 <= start) (fits : start + LOGBLOCKS < dsize) (small : dsize <= 2 ^ 31).
Implicit Types (s : logst D) (bs : list Z).

(** A kernel that starts on device [d]: [binit], then [initlog]. *)
Definition reboot (pid : Z) (d : D) : outcome (logst D) unit :=
  match binit (mk_bio false (replicate (S NBUF) buf0) d []) with
  | Ok _ x => initlog pid dev start (mk_log false 0 0 false 0 0 (replicate (Z.to_nat LOGBLOCKS) 0) x)
  | Panic msg => Panic msg
  | Sleep _ _ | NoFuel => NoFuel
  end.

Lemma reboot_run pid f d : stable start f d ->
  exists s' hs, reboot pid d = Ok tt s' /\ settled pid dev start s' f /\ bhist (lbio s') = hs /\ Forall (stable start f) hs /\
    lg_outstanding s' = 0 /\ lg_committing s' = false.
Proof.
  intros Hst. destruct (binit_cst pid dev d [] (st_ok _ _ _ Hst)) as (x & Hr & Hc & Hd & Hh). unfold reboot. rewrite Hr.
  destruct (initlog_run pid dev start dev_ok start_ok fits small
    (mk_log false 0 0 false 0 0 (replicate (Z.to_nat LOGBLOCKS) 0) x) f) as (s' & hs & Hi & Hs & Hb & Hf & Ho & Hm).
  - split; [done|apply length_replicate|done].
  - cbn [lbio]. by rewrite Hd.
  - exists s', hs. split_and!; [exact Hi|done| |done|done|done]. rewrite Hb. cbn [lbio]. by rewrite Hh, app_nil_r.
Qed.

(** The in-memory state when the last outstanding operation ends: the
    transaction [bs], its blocks pinned, an empty log on the device. *)
Record ready s bs : Prop := {
  rd_log : lst dev start s bs;
  rd_good : good_blocks start bs;
  rd_cst : cst mypid dev (lbio s) (pinned bs) ∅;
  rd_empty : lh_read_n (dblock (bdisk (lbio s)) start) = 0;
  rd_idle : lg_committing s = false
}.

Lemma end_op_run s bs : ready s bs -> (length bs < NBUF)%nat -> lg_outstanding s = 1 ->
  exists s' before after, end_op mypid s = Ok tt s' /\ settled mypid dev start s' (cv dev (lbio s)) /\
    lg_outstanding s' = 0 /\ lg_committing s' = false /\ bhist (lbio s') = after ++ before ++ bhist (lbio s) /\
    Forall (stable start (dblock (bdisk (lbio s)))) before /\ Forall (stable start (cv dev (lbio s))) after.
Proof.
  intros [Hl Hg Hc He Hi] Hsz Ho. set (s1 := set_committing (set_outstanding s 0) true).
  assert (Hl1 : lst dev start s1 bs) by (destruct Hl; by split).
  destruct (commit_run mypid dev start dev_ok start_ok fits small s1 bs Hl1 Hg Hc Hsz He)
    as (s2 & before & after & R & [Q1 Q2 Q3 Q4] & O2 & C2 & B & F1 & F2).
  exists (set_committing s2 false), before, after. split_and!; [|destruct Q1; by split|done|done|done|done|done].
  destruct s as [lk st out com dv n arr x]. cbn in Ho, Hi. pose proof (ls_lock _ _ _ _ Hl) as E. cbn in E. subst.
  transitivity ((commit mypid ;;; acquire lg_lock set_lg_lock ;;; modify (fun s => set_committing s false) ;;;
    release lg_lock set_lg_lock) s1); [reflexivity|].
  step_with R. pose proof (ls_lock _ _ _ _ Q1) as E2. destruct s2. cbn in E2. by subst.
Qed.

(** C1. A transaction of fewer than NBUF blocks (at most 29; the cache must have
    a buffer left beside them) is atomic across power failures: when the last
    operation ends, [end_op] installs its blocks, and whenever the power fails
    while it runs, the next kernel's recovery leaves on the device either all
    blocks as they were before the transaction or all blocks as after it;
    once a failure would recover to the new contents, every later one does. *)
Theorem log_crash_atomic s bs pid : ready s bs -> (length bs < NBUF)%nat -> lg_outstanding s = 1 ->
  exists s' before after, end_op mypid s = Ok tt s' /\ settled mypid dev start s' (cv dev (lbio s)) /\
    bhist (lbio s') = after ++ before ++ bhist (lbio s) /\
    (forall d, d ∈ before -> exists s2, reboot pid d = Ok tt s2 /\ settled pid dev start s2 (dblock (bdisk (lbio s)))) /\
    (forall d, d ∈ after -> exists s2, reboot pid d = Ok tt s2 /\ settled pid dev start s2 (cv dev (lbio s))).
Proof.
  intros Hr Hsz Ho. destruct (end_op_run s bs Hr Hsz Ho) as (s' & before & after & R & Q & _ & _ & B & F1 & F2).
  exists s', before, after. split_and!; [exact R|done|done| |]; intros d Hd.
  - destruct (reboot_run pid _ d (proj1 (Forall_forall _ _) F1 d Hd)) as (s2 & hs & R2 & Q2 & _).
    exists s2. exact (conj R2 Q2).
  - destruct (reboot_run pid _ d (proj1 (Forall_forall _ _) F2 d Hd)) as (s2 & hs & R2 & Q2 & _).
    exists s2. exact (conj R2 Q2).
Qed.

(** Recovery survives failures of its own: on a device that recovers to
    contents [f], recovery ends with exactly those contents and an empty log,
    and after a failure at any point of it a second recovery does too. *)
Theorem recovery_idempotent f d pid pid2 : stable start f d ->
  exists s', reboot pid d = Ok tt s' /\ settled pid dev start s' f /\
    forall d', d' ∈ bhist (lbio s') -> exists s2, reboot pid2 d' = Ok tt s2 /\ settled pid2 dev start s2 f.
Proof.
  intros Hst. destruct (reboot_run pid f d Hst) as (s' & hs & R & Q & <- & F & _). exists s'. split; [exact R|split; [exact Q|]].
  clear R. intros d' Hd'. destruct (reboot_run pid2 f d' (proj1 (Forall_forall _ _) F d' Hd')) as (s2 & ? & R2 & Q2 & _).
  exists s2. exact (conj R2 Q2).
Qed.

(** ** log_write *)

Lemma lh_find_in bs arr b : Forall (fun b => 0 <= b < 2 ^ 31) bs -> take (length bs) arr = bs -> b ∈ bs ->
  exists t, lh_find arr (length bs) b = t /\ bs !! t = Some b.
Proof.
  revert arr. induction bs as [|a bs IH]; intros arr Hbs Ht Hb; [by apply not_elem_of_nil in Hb|].
  apply Forall_cons in Hbs as [Ha Hbs]. destruct arr as [|a' arr]; [done|]. cbn [take length] in Ht. injection Ht as -> Ht.
  cbn [lh_find length]. rewrite u32_small by lia. destruct (Z.eqb_spec a b) as [->|Hne]; [by exists 0%nat|].
  apply elem_of_cons in Hb as [->|Hb]; [done|]. destruct (IH arr Hbs Ht Hb) as (t & Hf & Hl).
  exists (S t). split; [by rewrite Hf|done].
Qed.

Lemma lh_find_out bs arr b : Forall (fun b => 0 <= b < 2 ^ 31) bs -> take (length bs) arr = bs -> b ∉ bs ->
  lh_find arr (length bs) b = length bs.
Proof.
  revert arr. induction bs as [|a bs IH]; intros arr Hbs Ht Hb; [by destruct arr|].
  apply Forall_cons in Hbs as [Ha Hbs]. destruct arr as [|a' arr]; [done|]. cbn [take length] in Ht. injection Ht as -> Ht.
  apply not_elem_of_cons in Hb as [Hne Hb].
  cbn [lh_find length]. rewrite u32_small by lia. destruct (Z.eqb_spec a b) as [->|_]; [done|]. f_equal. by apply IH.
Qed.

(** A block already in the transaction is absorbed. *)
Lemma log_write_absorb s bs b i : lst dev start s bs -> good_blocks start bs -> Z.of_nat (length bs) < LOGBLOCKS ->
  1 <= lg_outstanding s -> b ∈ bs -> b_blockno (getb (lbio s) i) = b -> log_write i s = Ok tt s.
Proof.
  intros [L1 L2 L3 L4 L5 L6] Hg Hlen Ho Hb Ei. pose proof (good_small start small bs Hg) as Hsm.
  destruct (lh_find_in bs (lh_block s) b Hsm L6 Hb) as (t & Hf & Ht).
  assert (Hb31 : 0 <= b < 2 ^ 31) by exact (proj1 (Forall_forall _ _) Hsm b Hb).
  destruct s as [lk st out com dv n arr x]. cbn in *. subst lk st dv n.
  unfold log_write, acquire, release. unfold bind at 1 2 3, get, put. cbn.
  destruct (Z.leb_spec LOGBLOCKS (Z.of_nat (length bs))); [lia|]. destruct (Z.ltb_spec out 1); [lia|].
  rewrite Ei, Nat2Z.id, Hf. unfold modify, bind, when, setz, i32. cbn. rewrite signed_small by lia.
  pose proof (lookup_lt_Some _ _ _ Ht). destruct (Z.eqb_spec (Z.of_nat t) (Z.of_nat (length bs))); [lia|].
  unfold ret. cbn. rewrite Nat2Z.id, list_insert_id; [done|]. rewrite <- L6 in Ht. by apply lookup_take_Some in Ht as [Ht _].
Qed.

Lemma log_write_new s bs b i H : lst dev start s bs -> good_blocks start bs -> cst mypid dev (lbio s) (pinned bs) H ->
  Z.of_nat (length bs) < LOGBLOCKS -> 1 <= lg_outstanding s -> b ∉ bs -> b ∈ H -> at_buf dev (lbio s) b i -> 0 <= b < dsize ->
  exists s', log_write i s = Ok tt s' /\ lst dev start s' (bs ++ [b]) /\ cst mypid dev (lbio s') (pinned (bs ++ [b])) H /\
    same_cv dev (lbio s) (lbio s') /\ same_disk (lbio s) (lbio s') /\
    (forall k j, at_buf dev (lbio s') k j <-> at_buf dev (lbio s) k j) /\
    lg_outstanding s' = lg_outstanding s /\ lg_committing s' = lg_committing s.
Proof.
  intros Hl Hg Hc Hlen Ho Hb HbH Hat Hbr. pose proof (good_small start small bs Hg) as Hsm.
  destruct (bpin_cst mypid dev dev_ok (lbio s) (pinned bs) H b i Hc HbH) as (x' & R & C' & V' & D' & A').
  { unfold pinned. by rewrite elem_of_list_to_set. } { done. }
  pose proof Hl as [L1 L2 L3 L4 L5 L6]. pose proof Hat as (_ & _ & Ei).
  set (s0 := set_lh_block (set_lg_lock s true) (setz (lh_block s) (Z.of_nat (length bs)) b)).
  exists (set_lg_lock (set_lh_n (set_lbio s0 x') (lh_n s + 1)) false).
  split_and!; try done.
  - unfold log_write, acquire, release. unfold bind at 1 2 3, get, put. rewrite L1. cbn [lh_n set_lg_lock lg_outstanding lh_block lbio].
    rewrite L4. destruct (Z.leb_spec LOGBLOCKS (Z.of_nat (length bs))); [lia|]. destruct (Z.ltb_spec (lg_outstanding s) 1); [lia|].
    rewrite Ei, Nat2Z.id, (lh_find_out bs _ b Hsm L6 Hb), Z.eqb_refl. cbn [when]. unfold i32. rewrite signed_small by lia.
    unfold bind at 1, modify at 1. cbn [set_lh_block lh_block set_lg_lock]. fold s0.
    unfold bind at 1 2. rewrite (cache_ok (bpin i) s0 tt x') by exact R. by rewrite <- L4.
  - split; cbn; try done.
    + rewrite L4, length_app. cbn. lia.
    + unfold setz. by rewrite length_insert.
    + unfold setz. rewrite Nat2Z.id, length_app. cbn [length]. rewrite Nat.add_1_r, (take_S_r _ _ b), take_insert_ge, L6; [done|lia|].
      apply list_lookup_insert_eq. lia.
  - cbn [lbio set_lg_lock set_lh_n set_lbio]. unfold pinned in *. rewrite list_to_set_app_L. cbn [list_to_set].
    rewrite union_empty_r_L. by rewrite (union_comm_L (list_to_set bs)).
Qed.

(** The typical use: read a block, record it, release it. *)
Definition log_blocks (bs : list Z) : M (logst D) unit :=
  for_all bs (fun b =>
    i <- cache (bread mypid dev b) ;;
    log_write i ;;;
    cache (brelse mypid i)).

Lemma good_prefix bs bs' : good_blocks start (bs ++ bs') -> good_blocks start bs.
Proof.
  intros [G1 G2 G3]. split.
  - by apply NoDup_app in G1 as [G1 _].
  - rewrite length_app in G2. lia.
  - intros b Hb. apply G3, elem_of_app. by left.
Qed.

Lemma log_block_run s bs b : ready s bs -> good_blocks start (bs ++ [b]) -> 1 <= lg_outstanding s ->
  exists s', (i <- cache (bread mypid dev b) ;; log_write i ;;; cache (brelse mypid i)) s = Ok tt s' /\ ready s' (bs ++ [b]) /\
    lg_outstanding s' = lg_outstanding s /\ same_cv dev (lbio s) (lbio s') /\ same_disk (lbio s) (lbio s').
Proof.
  intros [Hl Hg Hc He Hi] Hg' Ho. pose proof (gb_in _ _ Hg' b ltac:(apply elem_of_app; right; by left)) as [Hbr Hbl].
  pose proof (gb_nodup _ _ Hg') as (_ & Hb & _)%NoDup_app. pose proof (gb_len _ _ Hg') as Hlen. rewrite length_app in Hlen. cbn in Hlen.
  assert (Hnot : b ∉ bs) by (intros Hin; apply (Hb b Hin); by left).
  destruct (bread_cst mypid dev dev_ok (lbio s) (pinned bs) ∅ b Hc) as (i & x1 & R1 & S1 & C1 & [D1 B1] & A1 & _); [done|apply not_elem_of_empty| |].
  { right. rewrite union_empty_r_L, size_pinned by apply Hg. unfold NBUF, LOGBLOCKS in *. lia. }
  destruct (log_write_new (set_lbio s x1) bs b i _ ltac:(by apply lst_lbio) Hg S1 ltac:(lia) Ho Hnot ltac:(uni) A1 Hbr)
    as (s2 & R2 & L2 & S2 & C2 & [D2 B2] & A2 & O2 & M2).
  destruct (brelse_cst mypid dev dev_ok (lbio s2) (pinned (bs ++ [b])) _ b i S2 ltac:(uni)) as (x3 & R3 & S3 & C3 & [D3 B3] & _).
  { by apply A2. } { left. unfold pinned. apply elem_of_list_to_set, elem_of_app. right. by left. }
  rewrite held_one in S3. exists (set_lbio s2 x3). split_and!.
  - step_with (cache_ok _ _ _ _ R1). step_with R2. by apply cache_ok.
  - split; [by apply lst_lbio|done|done| |by rewrite <- Hi]. cbn [lbio set_lbio]. by rewrite D3, D2, D1.
  - done.
  - intros k. cbn [lbio set_lbio]. rewrite C3, C2. apply C1.
  - split; cbn [lbio set_lbio]; [intros k; rewrite D3, D2; apply D1|rewrite B3, B2; apply B1].
Qed.

Lemma log_blocks_run s bs bs' : ready s bs -> good_blocks start (bs ++ bs') -> 1 <= lg_outstanding s ->
  exists s', log_blocks bs' s = Ok tt s' /\ ready s' (bs ++ bs') /\ lg_outstanding s' = lg_outstanding s /\
    same_cv dev (lbio s) (lbio s') /\ same_disk (lbio s) (lbio s').
Proof.
  revert s bs. induction bs' as [|b bs' IH]; intros s bs Hr Hg Ho.
  - exists s. rewrite app_nil_r. split_and!; try done.
  - replace (bs ++ b :: bs') with ((bs ++ [b]) ++ bs') in * by (by rewrite <- app_assoc).
    destruct (log_block_run s bs b Hr (good_prefix _ _ Hg) Ho) as (s1 & R1 & Hr1 & O1 & C1 & [D1 B1]).
    destruct (IH s1 (bs ++ [b]) Hr1 Hg ltac:(lia)) as (s2 & R2 & Hr2 & O2 & C2 & [D2 B2]).
    exists s2. split_and!; [|done|lia|intros k; by rewrite C2|split; [intros k; by rewrite D2|congruence]].
    unfold log_blocks in *. cbn [for_all]. step_with R1. exact R2.
Qed.

(** With every buffer pinned there is none left for the first log block. *)
Lemma full_cache x bs : cst mypid dev x (pinned bs) ∅ -> NoDup bs -> length bs = NBUF ->
  forall j, (j < NBUF)%nat -> b_dev (getb x j) = dev /\ b_blockno (getb x j) ∈ bs.
Proof.
  intros Hc Hnd Hlen j Hj. destruct (decide (b_dev (getb x j) = dev /\ b_blockno (getb x j) ∈ bs)) as [|Hno]; [done|]. exfalso.
  set (ks := map (fun i => b_blockno (getb x i)) (List.remove Nat.eq_dec j (seq 0 NBUF))).
  assert (Hincl : incl bs ks).
  { intros b Hb%list_elem_of_In. destruct (cs_in _ _ _ _ _ Hc b) as (i & (Hi1 & Hi2 & Hi3) & _).
    { rewrite union_empty_r_L. by apply elem_of_list_to_set. }
    apply in_map_iff. exists i. split; [done|]. apply in_in_remove; [intros ->; apply Hno; by rewrite Hi3|].
    apply in_seq. lia. }
  apply NoDup_incl_length in Hincl; [|by apply NoDup_ListNoDup]. unfold ks in Hincl. rewrite length_map in Hincl.
  pose proof (remove_length_lt Nat.eq_dec (seq 0 NBUF) j ltac:(apply in_seq; lia)) as Hlt. rewrite length_seq in Hlt. lia.
Qed.

Lemma commit_full_panics s bs : lst dev start s bs -> good_blocks start bs -> cst mypid dev (lbio s) (pinned bs) ∅ ->
  length bs = NBUF -> commit mypid s = Panic "bget: no buffers".
Proof.
  intros Hl Hg Hc Hlen. pose proof (full_cache _ bs Hc (gb_nodup _ _ Hg) Hlen) as Hfull.
  pose proof (cs_inv _ _ _ _ _ Hc) as [l Hci]. unfold LOGBLOCKS, MAXOPBLOCKS in *.
  assert (Hp : bread mypid dev (start + 1) (lbio s) = Panic "bget: no buffers").
  { apply (bread_panics_iff mypid (lbio s) l dev (start + 1) Hci dev_ok); [lia|]. split.
    - intros j (Hj1 & _ & Hj3). destruct (Hfull j Hj1) as [_ Hb]. rewrite Hj3 in Hb. destruct (gb_in _ _ Hg _ Hb) as [_ Hb2].
      apply Hb2. unfold in_log, LOGBLOCKS, MAXOPBLOCKS. lia.
    - intros j Hj. destruct (Hfull j Hj) as [Hd Hb]. rewrite (cs_ref _ _ _ _ _ Hc j Hj).
      rewrite one_true; [match goal with |- _ + @one ?A ?d <> _ => pose proof (@one_range A d) end; lia|].
      split; [done|]. by apply elem_of_list_to_set. }
  unfold commit, bind at 1, get. rewrite (ls_n _ _ _ _ Hl), Hlen. cbn [when NBUF].
  replace (0 <? Z.of_nat NBUF) with true by (by vm_compute). cbn [when].
  unfold bind at 1, write_log, bind at 1, get. rewrite (ls_n _ _ _ _ Hl), Hlen, (ls_start _ _ _ _ Hl), (ls_dev _ _ _ _ Hl).
  unfold upto. rewrite seqZ_cons by (vm_compute; done). cbn [for_all].
  rewrite Z.add_0_r, u32_small by lia. unfold bind at 1 2, cache at 1, zoom. by rewrite Hp.
Qed.

Lemma begin_op_run s bs : lst dev start s bs -> lg_committing s = false ->
  Z.of_nat (length bs) + (lg_outstanding s + 1) * MAXOPBLOCKS <= LOGBLOCKS ->
  begin_op s = Ok tt (set_outstanding s (lg_outstanding s + 1)).
Proof.
  intros [L1 L2 L3 L4 L5 L6] Hc Hn. destruct s as [lk st out com dv n arr x]. cbn in *. subst.
  unfold begin_op, acquire, release, bind, get, put, modify. cbn. destruct (Z.ltb_spec LOGBLOCKS (Z.of_nat (length bs) + (out + 1) * MAXOPBLOCKS)); [lia|]. done.
Qed.

Lemma settled_ready s f : settled mypid dev start s f -> lg_committing s = false -> ready s [].
Proof.
  intros [S1 S2 S3 S4] Hc. split; try done. split; [by apply NoDup_nil|cbn; unfold LOGBLOCKS, MAXOPBLOCKS; lia|].
  by intros b ?%not_elem_of_nil.
Qed.

Lemma end_op_more s bs : ready s bs -> 1 < lg_outstanding s ->
  end_op mypid s = Ok tt (set_outstanding s (lg_outstanding s - 1)).
Proof.
  intros [[L1 L2 L3 L4 L5 L6] _ _ _ Hi] Ho. destruct s as [lk st out com dv n arr x]. cbn in *. subst.
  unfold end_op, acquire, release, bind, get, put, modify. cbn. destruct (Z.eqb_spec (out - 1) 0); [lia|]. done.
Qed.

Lemma ready_outstanding s bs n : ready s bs -> ready (set_outstanding s n) bs.
Proof. intros [[L1 L2 L3 L4 L5 L6] H2 H3 H4 H5]. split; try done; by split. Qed.

(** C40. The log admits transactions that it cannot commit: three concurrent
    operations, each within its reservation of [MAXOPBLOCKS] blocks, can
    together modify [LOGBLOCKS] = [NBUF] distinct blocks; every buffer is then
    pinned, and the commit in the last [end_op] panics in [bget]. *)
Theorem log_full_transaction_panics s f bs :
  settled mypid dev start s f -> lg_outstanding s = 0 -> lg_committing s = false ->
  good_blocks start bs -> length bs = NBUF ->
  (begin_op ;;; begin_op ;;; begin_op ;;; log_blocks bs ;;;
   end_op mypid ;;; end_op mypid ;;; end_op mypid) s = Panic "bget: no buffers".
Proof.
  intros Hs Ho Hc Hg Hlen. pose proof (settled_ready s f Hs Hc) as Hr.
  assert (Hb : forall n, 0 <= n < 3 -> begin_op (set_outstanding s n) = Ok tt (set_outstanding s (n + 1))).
  { intros n Hn. apply (begin_op_run (set_outstanding s n) []); [by apply ready_outstanding|done|].
    cbn. unfold LOGBLOCKS, MAXOPBLOCKS. lia. }
  replace s with (set_outstanding s 0) by (destruct s; cbn in *; by subst).
  step_with (Hb 0 ltac:(lia)). step_with (Hb 1 ltac:(lia)). step_with (Hb 2 ltac:(lia)).
  destruct (log_blocks_run (set_outstanding s 3) [] bs ltac:(by apply ready_outstanding) Hg ltac:(cbn; lia)) as (s1 & R1 & Hr1 & O1 & _).
  step_with R1. cbn in O1. cbn [app] in Hr1.
  step_with (end_op_more s1 bs Hr1 ltac:(lia)). rewrite O1.
  step_with (end_op_more _ bs (ready_outstanding _ _ 2 Hr1) ltac:(cbn; lia)). cbn [lg_outstanding set_outstanding].
  set (s2 := set_committing (set_outstanding s1 0) true).
  destruct Hr1 as [[L1 L2 L3 L4 L5 L6] Hg1 Hc1 _ Hi1].
  assert (Hp : commit mypid s2 = Panic "bget: no buffers") by (apply (commit_full_panics s2 bs); [by split|done|done|done]).
  transitivity ((commit mypid ;;; acquire lg_lock set_lg_lock ;;; modify (fun s => set_committing s false) ;;;
    release lg_lock set_lg_lock) s2); [|unfold bind at 1; by rewrite Hp].
  clear Hp. destruct s1 as [lk st out com dv n arr x]. cbn in L1, Hi1. by subst.
Qed.

(** ** Log space *)

(** A routine that only uses the cache leaves the log's own fields alone. *)
Definition only_cache {A} (m : M (logst D) A) : Prop := forall s a s', m s = Ok a s' -> s' = set_lbio s (lbio s').

Lemma only_cache_ret {A} (a : A) : only_cache (ret a).
Proof. intros s a' s' [= _ <-]. by destruct s. Qed.
Lemma only_cache_cache {A} (m : M (bio D) A) : only_cache (cache m).
Proof. intros s a s'. unfold cache, zoom. destruct (m (lbio s)); try done. by intros [= _ <-]. Qed.
Lemma only_cache_gets {A} (g : logst D -> A) : only_cache (gets g).
Proof. intros s a s' [= _ <-]. by destruct s. Qed.
Lemma only_cache_bind {A B} (m : M (logst D) A) (k : A -> M (logst D) B) :
  only_cache m -> (forall a, only_cache (k a)) -> only_cache (bind m k).
Proof.
  intros Hm Hk s b s' (a & s1 & H1 & H2)%bind_inv. rewrite (Hk a _ _ _ H2), (Hm _ _ _ H1). by rewrite set_lbio_twice.
Qed.
Lemma only_cache_for {A} (l : list A) (body : A -> M (logst D) unit) :
  (forall a, only_cache (body a)) -> only_cache (for_all l body).
Proof. intros Hb. induction l as [|a l IH]; [apply only_cache_ret|]. by apply only_cache_bind. Qed.

Lemma write_head_only : only_cache (write_head mypid).
Proof.
  unfold write_head. apply only_cache_bind; [apply (only_cache_gets id)|intros s].
  repeat first [apply only_cache_bind; [|intros ?]|apply only_cache_for; intros ?|apply only_cache_cache|apply only_cache_gets].
Qed.

Lemma write_log_only : only_cache (write_log mypid).
Proof.
  unfold write_log. apply only_cache_bind; [apply (only_cache_gets id)|intros s].
  repeat first [apply only_cache_bind; [|intros ?]|apply only_cache_for; intros ?|apply only_cache_cache|apply only_cache_gets].
Qed.
Lemma install_trans_only r : only_cache (install_trans mypid r).
Proof.
  unfold install_trans. apply only_cache_bind; [apply (only_cache_gets id)|intros s].
  repeat first [apply only_cache_bind; [|intros ?]|apply only_cache_for; intros ?|apply only_cache_cache|apply only_cache_gets].
  destruct r; [apply only_cache_ret|apply only_cache_cache].
Qed.

(** A commit that returns leaves an empty in-memory log. *)
Lemma commit_empties s s' : 0 <= lh_n s -> commit mypid s = Ok tt s' ->
  lh_n s' = 0 /\ lg_outstanding s' = lg_outstanding s /\ lg_committing s' = lg_committing s.
Proof.
  intros Hn. unfold commit, bind at 1, get. destruct (Z.ltb_spec 0 (lh_n s)) as [Hlt|Hge]; cbn [when].
  - intros (a1 & s1 & H1 & H2)%bind_inv. apply bind_inv in H2 as (a2 & s2 & H2 & H3). apply bind_inv in H3 as (a3 & s3 & H3 & H4).
    unfold bind, modify in H4. apply write_log_only in H1. apply write_head_only in H2, H4. apply install_trans_only in H3.
    rewrite H4, H3, H2, H1. done.
  - intros [= <-]. split_and!; [lia|done|done].
Qed.

(** Operations in progress, each with the number of blocks it may still
    write: an operation begins, writes, uses the cache, or ends. *)
Inductive log_step : logst D * list nat -> logst D * list nat -> Prop :=
  | step_begin s s' q : begin_op s = Ok tt s' -> log_step (s, q) (s', Z.to_nat MAXOPBLOCKS :: q)
  | step_write s s' q k r i : q !! k = Some (S r) -> log_write i s = Ok tt s' -> log_step (s, q) (s', <[k := r]> q)
  | step_cache s x q : log_step (s, q) (set_lbio s x, q)
  | step_end s s' q k r : q !! k = Some r -> end_op mypid s = Ok tt s' -> log_step (s, q) (s', delete k q).

Fixpoint total (q : list nat) : nat := match q with [] => 0 | r :: q => r + total q end%nat.

Record reserved (c : logst D * list nat) : Prop := {
  rv_commit : lg_committing c.1 = false;
  rv_out : lg_outstanding c.1 = Z.of_nat (length c.2);
  rv_n : 0 <= lh_n c.1;
  rv_max : forall r, r ∈ c.2 -> (r <= Z.to_nat MAXOPBLOCKS)%nat;
  rv_space : lh_n c.1 + Z.of_nat (total c.2) <= LOGBLOCKS
}.

Lemma total_max q : (forall r, r ∈ q -> (r <= Z.to_nat MAXOPBLOCKS)%nat) ->
  Z.of_nat (total q) <= Z.of_nat (length q) * MAXOPBLOCKS.
Proof.
  induction q as [|r q IH]; intros Hq; cbn [total length]; [lia|].
  pose proof (Hq r ltac:(by left)). specialize (IH (fun x Hx => Hq x (list_elem_of_further _ _ _ Hx))).
  unfold MAXOPBLOCKS in *. cbn in *. lia.
Qed.

Lemma total_lookup q k r : q !! k = Some r -> (total q = r + total (delete k q))%nat.
Proof. revert k. induction q as [|x q IH]; intros [|k] Hk; try done; cbn in Hk |- *; [by simplify_eq|]. rewrite (IH k Hk). unfold delete. lia. Qed.
Lemma total_insert q k r r' : q !! k = Some r -> (total (<[k := r']> q) + r = total q + r')%nat.
Proof.
  revert k. induction q as [|x q IH]; intros [|k] Hk; try done.
  - cbn in *. simplify_eq. lia.
  - change (<[S k := r']> (x :: q)) with (x :: <[k := r']> q). cbn [total]. specialize (IH k Hk). lia.
Qed.

Lemma log_write_inv i s s' : log_write i s = Ok tt s' ->
  lh_n s <= lh_n s' <= lh_n s + 1 /\ lg_outstanding s' = lg_outstanding s /\ lg_committing s' = lg_committing s.
Proof.
  intros Hw. unfold log_write in Hw. apply bind_inv in Hw as ([] & s1 & H1 & H2).
  assert (s1 = set_lg_lock s true) as -> by (unfold acquire, bind, get, put in H1; destruct (lg_lock s); [done|congruence]).
  unfold bind at 1, get in H2. cbn [lh_n set_lg_lock lg_outstanding] in H2.
  destruct (LOGBLOCKS <=? lh_n s); [done|]. destruct (lg_outstanding s <? 1); [done|]. unfold bind at 1, modify at 1 in H2.
  apply bind_inv in H2 as ([] & s2 & H2 & H3). unfold release, bind, get, put in H3.
  destruct (lg_lock s2); [|done]. injection H3 as <-. cbn.
  destruct (_ =? lh_n s) in H2; cbn [when] in H2.
  - apply bind_inv in H2 as ([] & s3 & H2 & H3). injection H3 as <-. apply only_cache_cache in H2. rewrite H2. cbn. split_and!; lia || done.
  - injection H2 as <-. cbn. split_and!; lia || done.
Qed.

Lemma begin_op_inv s s' : begin_op s = Ok tt s' ->
  lh_n s + (lg_outstanding s + 1) * MAXOPBLOCKS <= LOGBLOCKS /\
  lh_n s' = lh_n s /\ lg_outstanding s' = lg_outstanding s + 1 /\ lg_committing s' = false.
Proof.
  unfold begin_op, acquire, release, bind, get, put, modify, sleep_on, panic. destruct s as [lk st out com dv n arr x]. cbn.
  destruct lk; [done|]. cbn. destruct com; [done|]. destruct (Z.ltb_spec LOGBLOCKS (n + (out + 1) * MAXOPBLOCKS)); [done|].
  intros [= <-]. by split_and!.
Qed.

Lemma end_op_inv s s' : 0 <= lh_n s -> end_op mypid s = Ok tt s' ->
  0 <= lh_n s' <= lh_n s /\ lg_outstanding s' = lg_outstanding s - 1 /\ lg_committing s' = false.
Proof.
  intros Hn He. destruct s as [lk st out com dv n arr x]. cbn in Hn |- *.
  destruct lk; [done|]. destruct com; [done|]. destruct (out - 1 =? 0) eqn:Eo.
  - assert (E : end_op mypid (mk_log false st out false dv n arr x) = (commit mypid ;;; acquire lg_lock set_lg_lock ;;;
      modify (fun s => set_committing s false) ;;; release lg_lock set_lg_lock) (mk_log false st (out - 1) true dv n arr x)).
    { unfold end_op, acquire, release, bind, get, put, modify, when. cbn -[commit]. by rewrite Eo. }
    rewrite E in He. apply bind_inv in He as ([] & s1 & Ec & He). apply commit_empties in Ec as (E1 & E2 & E3); [|done].
    revert He. cbn in E2, E3. unfold acquire, release, bind, get, put, modify, panic. destruct (lg_lock s1); [done|].
    intros [= <-]. cbn. split_and!; lia || done.
  - assert (E : end_op mypid (mk_log false st out false dv n arr x) = Ok tt (mk_log false st (out - 1) false dv n arr x)).
    { unfold end_op, acquire, release, bind, get, put, modify, when. cbn -[commit]. by rewrite Eo. }
    rewrite E in He. injection He as <-. cbn. split_and!; lia || done.
Qed.

Lemma reserved_step c c' : log_step c c' -> reserved c -> reserved c'.
Proof.
  intros Hst [I1 I2 I3 Im I4]. destruct Hst as [s s' q Hb|s s' q k r i Hk Hw|s x q|s s' q k r Hk He]; cbn in *.
  - apply begin_op_inv in Hb as (B1 & B2 & B3 & B4). pose proof (total_max q Im).
    split; cbn; [done|lia|lia| |unfold LOGBLOCKS, MAXOPBLOCKS in *; lia]. intros r [->|Hr]%elem_of_cons; [lia|by apply Im].
  - apply log_write_inv in Hw as (W1 & W2 & W3). pose proof (total_insert q k (S r) r Hk).
    split; cbn; [congruence|rewrite length_insert; congruence|lia| |lia].
    intros r' [j Hj]%list_elem_of_lookup. destruct (decide (j = k)) as [->|Hne].
    + rewrite list_lookup_insert_eq in Hj by (by eapply lookup_lt_Some). simplify_eq.
      pose proof (Im (S r') ltac:(by eapply list_elem_of_lookup_2)). lia.
    + rewrite list_lookup_insert_ne in Hj by done. apply Im. by eapply list_elem_of_lookup_2.
  - by split.
  - apply end_op_inv in He as (E1 & E2 & E3); [|done]. pose proof (total_lookup q k r Hk).
    pose proof (lookup_lt_Some _ _ _ Hk). split; cbn; [done|rewrite length_delete by (by eexists); lia|lia| |lia].
    intros r' Hr'. apply Im. rewrite delete_take_drop in Hr'.
    apply elem_of_app in Hr' as [Hr'%elem_take|Hr'%elem_drop]; done.
Qed.

(** C36. The reservation of [begin_op] is sound: however operations
    interleave, as long as each writes at most [MAXOPBLOCKS] blocks, an
    operation that may still write finds room in the log header, and
    [log_write] does not panic. *)
Theorem log_space_reserved s0 s q k r i :
  lg_outstanding s0 = 0 -> lh_n s0 = 0 -> lg_committing s0 = false -> rtc log_step (s0, []) (s, q) -> q !! k = Some (S r) ->
  0 <= lh_n s < LOGBLOCKS /\
  log_write i s <> Panic "too big a transaction" /\ log_write i s <> Panic "log_write outside of trans".
Proof.
  intros Ho Hn Hc Hreach Hk.
  assert (Hgen : forall c c', rtc log_step c c' -> reserved c -> reserved c').
  { induction 1 as [|c1 c2 c3 Hs _ IH]; [done|]. intros Hc1. by apply IH, (reserved_step c1). }
  assert (Hres : reserved (s, q)).
  { apply (Hgen _ _ Hreach).
    split; cbn; [done|done|lia|by intros r' ?%not_elem_of_nil|rewrite Hn; unfold LOGBLOCKS, MAXOPBLOCKS; lia]. }
  destruct Hres as [I1 I2 I3 _ I4]. cbn in *. rewrite (total_lookup q k (S r) Hk) in I4. pose proof (lookup_lt_Some _ _ _ Hk).
  split; [lia|]. unfold log_write, acquire, release, bind, get, put, panic. destruct (lg_lock s); [done|]. cbn.
  destruct (Z.leb_spec LOGBLOCKS (lh_n s)); [lia|]. destruct (Z.ltb_spec (lg_outstanding s) 1); [lia|].
  unfold modify, when. cbn. destruct (_ =? lh_n s); cbn.
  - unfold cache, zoom, bpin, acquire, release, updb, modify, bind, get, put, panic. cbn. destruct (bc_lock (lbio s)); cbn; done.
  - done.
Qed.
End safe.

(** ** The log over the RAM disk, with the layout mkfs uses *)

Lemma ram_fits : 2 + LOGBLOCKS < dsize.
Proof. by vm_compute. Qed.
Lemma ram_small : dsize <= 2 ^ 31.
Proof. by vm_compute. Qed.
Lemma ram_header : lh_read_n (dblock ramdisk_init 2) = 0.
Proof. by vm_compute. Qed.

Definition demo_log : logst ramdisk_st :=
  mk_log false 2 0 false 1 0 (replicate (Z.to_nat LOGBLOCKS) 0) binit0.

Lemma demo_settled : settled 1 1 2 demo_log (dblock ramdisk_init).
Proof.
  assert (Hd : dok ramdisk_init) by exact I.
  destruct (binit_cst 1 1 ramdisk_init [] Hd) as (x & Hr & Hc & Hdk & _).
  assert (E : binit0 = x) by (unfold binit0, bio0; by rewrite Hr).
  split; cbn [lbio demo_log]; rewrite ?E, ?Hdk; [by split|done|apply ram_header|done].
Qed.

Lemma demo_good n : (n <= 30)%nat -> good_blocks 2 (seqZ 50 (Z.of_nat n)).
Proof.
  intros Hn. split.
  - apply NoDup_seqZ.
  - rewrite length_seqZ. unfold LOGBLOCKS, MAXOPBLOCKS. lia.
  - intros b Hb%elem_of_seqZ. unfold in_log, LOGBLOCKS, MAXOPBLOCKS.
    assert (dsize = 8192) as -> by (by vm_compute). lia.
Qed.

Lemma log_crash_atomic_witness : exists s s', end_op 1 s = Ok tt s' /\ settled 1 1 2 s' (cv 1 (lbio s)).
Proof.
  destruct (log_blocks_run 1 1 2 ltac:(lia) ram_small (set_outstanding demo_log 1) [] (seqZ 50 3)) as (s & _ & Hr & Ho & _).
  - apply ready_outstanding. by apply (settled_ready 1 1 2 demo_log _ demo_settled).
  - apply (demo_good 3). lia.
  - cbn. lia.
  - destruct (log_crash_atomic 1 1 2 ltac:(lia) ltac:(lia) ram_fits ram_small s _ 7 Hr) as (s' & _ & _ & R & Q & _).
    + rewrite length_app, length_seqZ. unfold NBUF, MAXOPBLOCKS. cbn. lia.
    + by rewrite Ho.
    + exists s, s'. exact (conj R Q).
Defined.

Lemma recovery_idempotent_witness : exists s', reboot 1 2 1 ramdisk_init = Ok tt s' /\ settled 1 1 2 s' (dblock ramdisk_init).
Proof.
  assert (Hst : stable 2 (dblock ramdisk_init) ramdisk_init) by (apply stable_clear; [exact I|exact ram_header|done]).
  destruct (recovery_idempotent 1 2 ltac:(lia) ltac:(lia) ram_fits ram_small _ ramdisk_init 1 1 Hst) as (s' & R & Q & _).
  exists s'. exact (conj R Q).
Defined.

Lemma log_full_transaction_panics_witness :
  (begin_op ;;; begin_op ;;; begin_op ;;; log_blocks 1 1 (seqZ 50 30) ;;; end_op 1 ;;; end_op 1 ;;; end_op 1) demo_log =
  Panic "bget: no buffers".
Proof.
  apply (log_full_transaction_panics 1 1 2 ltac:(lia) ltac:(lia) ram_fits ram_small demo_log _ _ demo_settled);
    [reflexivity|reflexivity|apply (demo_good 30); lia|reflexivity].
Defined.

Lemma log_space_reserved_witness : log_write 0 (set_outstanding demo_log 1) <> Panic "too big a transaction".
Proof.
  apply (log_space_reserved 1 demo_log (set_outstanding demo_log 1) [10%nat] 0 9 0); [reflexivity|reflexivity|reflexivity| |reflexivity].
  apply rtc_once. apply (step_begin 1 demo_log _ []).
  apply (begin_op_run 1 2 demo_log []); [apply demo_settled|reflexivity|]. cbn. unfold LOGBLOCKS, MAXOPBLOCKS. lia.
Defined.
