(* ===== verification/BlockIO.v ===== *)
(** * The interface between the file system and the layers below

    The file system uses the buffer cache and the log only through these
    operations. [BlockSpec] is what it relies on; [LogIO] discharges it for
    the cache and the log of this kernel. *)

From stdpp Require Import base gmap list numbers strings sets.
From Stdlib Require Import ZArith Lia.
From S2P Require Import Prelude Disk Bio.
Open Scope Z_scope.
Open Scope kernel_scope.

(** [H] is the type of [struct buf*]. *)
Class BlockIO (S H : Type) := {
  io_bread : Z -> Z -> M S H;           (* bread(dev, blockno) *)
  io_data : H -> M S block;             (* bp->data *)
  io_set_data : H -> block -> M S unit; (* an assignment to bp->data *)
  io_brelse : H -> M S unit;
  io_log_write : H -> M S unit;
  io_begin_op : M S unit;
  io_end_op : M S unit;
  io_initlog : Z -> Z -> M S unit       (* initlog(dev, sb->logstart) *)
}.

(** Copies between kernel buffers and the memory of the current process:
    [either_copyout] and [either_copyin] for user addresses. A copy may fail
    after part of it; [u_copyin] returns the bytes copied and whether they are
    all. *)
Class UserMem (U : Type) := {
  u_copyout : Z -> list Z -> M U bool;
  u_copyin : Z -> Z -> M U (list Z * bool)
}.

(** What clients know about a state inside a transaction: the blocks the
    transaction has recorded ([P]), the buffers this thread holds ([L]), the
    contents of every block ([io_get]) and what is on the device ([io_dur]). *)
Class BlockSpec (S H : Type) `{BlockIO S H} := {
  io_dev : Z;
  io_nblocks : Z;
  io_home : Z -> Prop;                  (* blocks outside the log *)
  io_ok : S -> gset Z -> gset Z -> Prop;
  io_get : S -> Z -> block;
  io_dur : S -> Z -> block;
  io_at : S -> H -> Z -> Prop;
  io_block : forall s P L b, io_ok s P L -> is_block (io_get s b);
  io_clean : forall s P L b, io_ok s P L -> b ∉ P ∪ L -> io_get s b = io_dur s b;
  io_bread_ok : forall s P L b, io_ok s P L -> 0 <= b < io_nblocks -> b ∉ L ->
    b ∈ P \/ (size (P ∪ L) < NBUF)%nat ->
    exists h s', io_bread io_dev b s = Ok h s' /\ io_ok s' P ({[b]} ∪ L) /\ io_at s' h b /\
      (forall k, io_get s' k = io_get s k) /\ (forall k, io_dur s' k = io_dur s k) /\
      (forall h' k, k ∈ P ∪ L -> io_at s h' k -> io_at s' h' k);
  io_data_ok : forall s P L h b, io_ok s P L -> b ∈ L -> io_at s h b -> io_data h s = Ok (io_get s b) s;
  io_set_data_ok : forall s P L h b bl, io_ok s P L -> b ∈ L -> io_at s h b -> is_block bl ->
    exists s', io_set_data h bl s = Ok tt s' /\ io_ok s' P L /\
      (forall k, io_get s' k = if decide (k = b) then bl else io_get s k) /\ (forall k, io_dur s' k = io_dur s k) /\
      (forall h' k, io_at s h' k -> io_at s' h' k);
  io_log_write_ok : forall s P L h b, io_ok s P L -> b ∈ L -> io_at s h b -> 0 <= b < io_nblocks -> io_home b ->
    Z.of_nat (size P) < LOGBLOCKS ->
    exists s', io_log_write h s = Ok tt s' /\ io_ok s' ({[b]} ∪ P) L /\
      (forall k, io_get s' k = io_get s k) /\ (forall k, io_dur s' k = io_dur s k) /\
      (forall h' k, io_at s h' k -> io_at s' h' k);
  io_brelse_ok : forall s P L h b, io_ok s P L -> b ∈ L -> io_at s h b -> b ∈ P \/ io_get s b = io_dur s b ->
    exists s', io_brelse h s = Ok tt s' /\ io_ok s' P (L ∖ {[b]}) /\
      (forall k, io_get s' k = io_get s k) /\ (forall k, io_dur s' k = io_dur s k) /\
      (forall h' k, io_at s h' k -> io_at s' h' k)
}.
