(* ===== verification/LogIO.v ===== *)
(** * The buffer cache and the log implement the file system's interface *)

From stdpp Require Import base gmap list numbers strings sets.
From Stdlib Require Import ZArith Lia.
From S2P Require Import Prelude Mem Spinlock Bytes Sleeplock Disk Bio BioSpec Cache Log LogSpec LogSafe BlockIO.
Open Scope Z_scope.
Open Scope kernel_scope.

Section log_io.
Context {D : Type} {drv : DiskDriver D} {spec : DiskSpec D}.
Context (mypid dev start : Z) (dev_ok : dev <> 0).
Context (start_ok : 0 <= start) (fits : start + LOGBLOCKS < dsize) (small : dsize <= 2 ^ 31).

(** The calls fs.c makes, on the state of log.c. *)
Definition log_io : BlockIO (logst D) nat := {|
  io_bread := fun dv b => cache (bread mypid dv b);
  io_data := buf_data;
  io_set_data := set_buf_data;
  io_brelse := fun i => cache (brelse mypid i);
  io_log_write := log_write;
  io_begin_op := begin_op;
  io_end_op := end_op mypid;
  io_initlog := initlog mypid
|}.

(** Inside a transaction that has recorded the blocks [P]. *)
Definition in_trans (s : logst D) (P L : gset Z) : Prop :=
  exists bs, lst dev start s bs /\ good_blocks start bs /\ P = pinned bs /\ cst mypid dev (lbio s) P L /\
    1 <= lg_outstanding s /\ lg_committing s = false /\ lh_read_n (dblock (bdisk (lbio s)) start) = 0.

Lemma ready_in_trans s bs : ready mypid dev start s bs -> 1 <= lg_outstanding s -> in_trans s (pinned bs) ∅.
Proof. intros [H1 H2 H3 H4 H5] Ho. by exists bs. Qed.

Lemma in_trans_bio s P L x L' : in_trans s P L -> cst mypid dev x P L' -> (forall k, dblock (bdisk x) k = dblock (bdisk (lbio s)) k) ->
  in_trans (set_lbio s x) P L'.
Proof.
  intros (bs & Hl & Hg & -> & Hc & Ho & Hcm & Hn) Hx Hd. exists bs. split_and!; try done; [by apply lst_lbio|].
  cbn [lbio set_lbio]. by rewrite Hd.
Qed.

Lemma log_write_ok s P L i b : in_trans s P L -> b ∈ L -> at_buf dev (lbio s) b i -> 0 <= b < dsize -> ~ in_log start b ->
  Z.of_nat (size P) < LOGBLOCKS ->
  exists s', log_write i s = Ok tt s' /\ in_trans s' ({[b]} ∪ P) L /\ same_cv dev (lbio s) (lbio s') /\
    same_disk (lbio s) (lbio s') /\ (forall k j, at_buf dev (lbio s') k j <-> at_buf dev (lbio s) k j).
Proof.
  intros (bs & Hl & Hg & -> & Hc & Ho & Hcm & Hn) HbL Hat Hb Hh Hsz. rewrite size_pinned in Hsz by apply Hg.
  pose proof Hat as (_ & _ & Ei). destruct (decide (b ∈ bs)) as [Hin|Hout].
  - exists s. rewrite (log_write_absorb dev start small s bs b i Hl Hg Hsz Ho Hin Ei). split_and!; try done.
    replace ({[b]} ∪ pinned bs) with (pinned bs); [by exists bs|]. unfold pinned.
    assert (b ∈ (list_to_set bs : gset Z)) by (by apply elem_of_list_to_set). set_solver.
  - destruct (log_write_new mypid dev start dev_ok small s bs b i L Hl Hg Hc Hsz Ho Hout HbL Hat Hb)
      as (s' & R & L' & C' & V' & [D' B'] & A' & O' & M').
    exists s'. split_and!; try done. exists (bs ++ [b]). split_and!.
    + done.
    + split.
      * apply NoDup_app. split_and!; [apply Hg| |apply NoDup_singleton]. intros x Hx ->%list_elem_of_singleton. done.
      * rewrite length_app. cbn. lia.
      * intros x [Hx| ->%list_elem_of_singleton]%elem_of_app; [by apply (gb_in _ _ Hg)|done].
    + unfold pinned. rewrite list_to_set_app_L. cbn [list_to_set]. rewrite union_empty_r_L. by rewrite union_comm_L.
    + unfold pinned in *. rewrite list_to_set_app_L in C'. cbn [list_to_set] in C'. rewrite union_empty_r_L, union_comm_L in C'. done.
    + lia.
    + congruence.
    + by rewrite D'.
Qed.

Definition log_io_spec : @BlockSpec (logst D) nat log_io.
Proof.
  refine (@Build_BlockSpec _ _ log_io dev dsize (fun b => ~ in_log start b) in_trans
    (fun s b => cv dev (lbio s) b) (fun s b => dblock (bdisk (lbio s)) b) (fun s i b => at_buf dev (lbio s) b i) _ _ _ _ _ _ _).
  - intros s P L b (bs & _ & _ & _ & Hc & _). by eapply cv_block.
  - intros s P L b (bs & _ & _ & _ & Hc & _) Hb. by apply (cv_clean mypid dev dev_ok _ P L).
  - intros s P L b Ht Hb HL Hroom. pose proof Ht as (bs & _ & _ & _ & Hc & _).
    destruct (bread_cst mypid dev dev_ok (lbio s) P L b Hc Hb HL Hroom) as (i & x & R & C' & V & [Dk _] & A & K).
    exists i, (set_lbio s x). split_and!; try done; [by apply cache_ok|by apply (in_trans_bio s P L)|].
    intros h' k Hk. by apply K.
  - intros s P L i b (bs & _ & _ & _ & Hc & _) HL Hat. cbn. unfold buf_data, gets. f_equal.
    symmetry. apply (cv_at mypid dev dev_ok _ P L); [done|uni|done].
  - intros s P L i b bl Ht HL Hat Hbl. pose proof Ht as (bs & _ & _ & _ & Hc & _).
    destruct (set_data_cst mypid dev dev_ok (lbio s) P L b i bl Hc HL Hat Hbl) as (C' & V & [Dk _] & A).
    eexists. split; [reflexivity|]. split_and!; [by apply (in_trans_bio s P L)|done|done|]. intros h' k. apply A.
  - intros s P L i b Ht HL Hat Hb Hh Hsz. destruct (log_write_ok s P L i b Ht HL Hat Hb Hh Hsz) as (s' & R & T & V & [Dk _] & A).
    exists s'. split_and!; try done. intros h' k. apply A.
  - intros s P L i b Ht HL Hat Hcl. pose proof Ht as (bs & _ & _ & _ & Hc & _).
    destruct (brelse_cst mypid dev dev_ok (lbio s) P L b i Hc HL Hat Hcl) as (x & R & C' & V & [Dk _] & A).
    exists (set_lbio s x). split_and!; try done; [by apply cache_ok|by apply (in_trans_bio s P L)|]. intros h' k. apply A.
Defined.
End log_io.
