(* ===== verification/Fs.v ===== *)
(** * The file system (kernel/fs.c)

    The code runs over the operations of [BlockIO]. In-memory inodes are
    cells of the table; an inode pointer is an index. [printf] has no effect
    on this state. *)

From stdpp Require Import base gmap list numbers strings.
From Stdlib Require Import ZArith Lia.
From S2P Require Import Prelude Mem Spinlock Bytes Sleeplock Disk Bio BlockIO.
Open Scope Z_scope.
Open Scope kernel_scope.

Definition NINODE : nat := 50.
Definition ROOTDEV : Z := 1.
Definition ROOTINO : Z := 1.
Definition FSMAGIC : Z := 0x10203040.
Definition NDIRECT : Z := 12.
Definition NINDIRECT : Z := BSIZE / 4.
Definition MAXFILE : Z := NDIRECT + NINDIRECT.
Definition DIRSIZ : Z := 14.
Definition T_DIR : Z := 1.
Definition T_FILE : Z := 2.
Definition T_DEVICE : Z := 3.

(** struct superblock *)
Record superblock := mk_sb {
  sb_magic : Z; sb_size : Z; sb_nblocks : Z; sb_ninodes : Z;
  sb_nlog : Z; sb_logstart : Z; sb_inodestart : Z; sb_bmapstart : Z }.

(** struct dinode: 64 bytes *)
Record dinode := mk_dinode {
  di_type : Z; di_major : Z; di_minor : Z; di_nlink : Z; di_size : Z; di_addrs : list Z }.
Definition sizeof_dinode : Z := 64.

(** struct inode *)
Record inode := mk_inode {
  i_dev : Z; i_inum : Z; i_ref : Z; i_lock : sleeplock; i_valid : bool; i_d : dinode }.
Definition dinode0 : dinode := mk_dinode 0 0 0 0 0 (replicate (Z.to_nat (NDIRECT + 1)) 0).
Definition inode0 : inode := mk_inode 0 0 0 initsleeplock false dinode0.

Definition set_i_ref (ip : inode) (r : Z) : inode := mk_inode (i_dev ip) (i_inum ip) r (i_lock ip) (i_valid ip) (i_d ip).
Definition set_i_lock (ip : inode) (l : sleeplock) : inode := mk_inode (i_dev ip) (i_inum ip) (i_ref ip) l (i_valid ip) (i_d ip).
Definition set_i_valid (ip : inode) (v : bool) : inode := mk_inode (i_dev ip) (i_inum ip) (i_ref ip) (i_lock ip) v (i_d ip).
Definition set_i_d (ip : inode) (d : dinode) : inode := mk_inode (i_dev ip) (i_inum ip) (i_ref ip) (i_lock ip) (i_valid ip) d.
Definition set_d_type (d : dinode) (t : Z) : dinode := mk_dinode t (di_major d) (di_minor d) (di_nlink d) (di_size d) (di_addrs d).
Definition set_d_size (d : dinode) (n : Z) : dinode := mk_dinode (di_type d) (di_major d) (di_minor d) (di_nlink d) n (di_addrs d).
Definition set_d_nlink (d : dinode) (n : Z) : dinode := mk_dinode (di_type d) (di_major d) (di_minor d) n (di_size d) (di_addrs d).
Definition set_d_addr (d : dinode) (i a : Z) : dinode :=
  mk_dinode (di_type d) (di_major d) (di_minor d) (di_nlink d) (di_size d) (setz (di_addrs d) i a).

Definition IPB : Z := BSIZE / sizeof_dinode.
Definition BPB : Z := BSIZE * 8.
Definition IBLOCK (i : Z) (sb : superblock) : Z := u32 (i / IPB + sb_inodestart sb).
Definition BBLOCK (b : Z) (sb : superblock) : Z := u32 (b / BPB + sb_bmapstart sb).

(** The superblock in block 1. *)
Definition decode_sb (bl : block) : superblock :=
  mk_sb (getn 4 bl 0) (getn 4 bl 4) (getn 4 bl 8) (getn 4 bl 12)
        (getn 4 bl 16) (getn 4 bl 20) (getn 4 bl 24) (getn 4 bl 28).

(** [(struct dinode* )bp->data + i] *)
Definition read_dinode (bl : block) (i : Z) : dinode :=
  let o := sizeof_dinode * i in
  mk_dinode (i16 (getn 2 bl o)) (i16 (getn 2 bl (o + 2))) (i16 (getn 2 bl (o + 4))) (i16 (getn 2 bl (o + 6)))
    (getn 4 bl (o + 8)) (map (fun k => getn 4 bl (o + 12 + 4 * k)) (seqZ 0 (NDIRECT + 1))).

Fixpoint put_addrs (bl : block) (o : Z) (l : list Z) : block :=
  match l with
  | [] => bl
  | a :: l' => put_addrs (putn 4 bl o a) (o + 4) l'
  end.
Definition write_dinode (bl : block) (i : Z) (d : dinode) : block :=
  let o := sizeof_dinode * i in
  let bl := putn 2 bl o (di_type d) in
  let bl := putn 2 bl (o + 2) (di_major d) in
  let bl := putn 2 bl (o + 4) (di_minor d) in
  let bl := putn 2 bl (o + 6) (di_nlink d) in
  let bl := putn 4 bl (o + 8) (di_size d) in
  put_addrs bl (o + 12) (di_addrs d).

(** The bit [bi] of a bitmap block. *)
Definition bit_of (bl : block) (bi : Z) : bool := has (nthz bl (bi / 8)) (Z.shiftl 1 (bi mod 8)).
Definition set_bit (bl : block) (bi : Z) : block :=
  setz bl (bi / 8) (u8 (Z.lor (nthz bl (bi / 8)) (Z.shiftl 1 (bi mod 8)))).
Definition clear_bit (bl : block) (bi : Z) : block :=
  setz bl (bi / 8) (u8 (Z.land (nthz bl (bi / 8)) (Z.lnot (Z.shiftl 1 (bi mod 8))))).

(** The [j]th entry of an indirect block. *)
Definition get_addr (bl : block) (j : Z) : Z := getn 4 bl (4 * j).
Definition put_addr (bl : block) (j a : Z) : block := putn 4 bl (4 * j) a.

Record fsst (S U : Type) := mk_fs {
  fs_io : S; fs_um : U; it_lock : bool; it_inode : list inode; fs_sb : superblock }.
Arguments mk_fs {S U} _ _ _ _ _.
Arguments fs_io {S U} _.
Arguments fs_um {S U} _.
Arguments it_lock {S U} _.
Arguments it_inode {S U} _.
Arguments fs_sb {S U} _.

(** struct stat, as [stati] fills it. *)
Record stat := mk_stat { st_dev : Z; st_ino : Z; st_type : Z; st_nlink : Z; st_size : Z }.

(** Source or destination of file data: the address of a user buffer, or a
    kernel object (for a source, its bytes). *)
Inductive loc := User (va : Z) | Kernel (bytes : list Z).
Definition loc_add (l : loc) (m : Z) : loc :=
  match l with User va => User (u64 (va + m)) | Kernel bytes => Kernel (drop (Z.to_nat m) bytes) end.

Section fs_c.
Context {S H U : Type} {io : BlockIO S H} {um : UserMem U}.
Context (mypid : Z).
Notation FS := (fsst S U).
Implicit Types (s : FS) (ip : nat).

Definition set_io s (x : S) : FS := mk_fs x (fs_um s) (it_lock s) (it_inode s) (fs_sb s).
Definition set_um s (x : U) : FS := mk_fs (fs_io s) x (it_lock s) (it_inode s) (fs_sb s).
Definition set_it_lock s (b : bool) : FS := mk_fs (fs_io s) (fs_um s) b (it_inode s) (fs_sb s).
Definition set_inodes s (l : list inode) : FS := mk_fs (fs_io s) (fs_um s) (it_lock s) l (fs_sb s).
Definition set_sb s (b : superblock) : FS := mk_fs (fs_io s) (fs_um s) (it_lock s) (it_inode s) b.

Definition blk {A} (m : M S A) : M FS A := zoom fs_io set_io m.
Definition usr {A} (m : M U A) : M FS A := zoom fs_um set_um m.

Definition geti s ip : inode := default inode0 (it_inode s !! ip).
Definition seti s ip (x : inode) : FS := set_inodes s (<[ip := x]> (it_inode s)).
Definition updi ip (f : inode -> inode) : M FS unit := modify (fun s => seti s ip (f (geti s ip))).
Definition updd ip (f : dinode -> dinode) : M FS unit := updi ip (fun x => set_i_d x (f (i_d x))).
Definition ino_sl ip s : sleeplock := i_lock (geti s ip).
Definition set_ino_sl ip s (l : sleeplock) : FS := seti s ip (set_i_lock (geti s ip) l).

Definition readsb (dev : Z) : M FS unit :=
  bp <- blk (io_bread dev 1) ;;
  d <- blk (io_data bp) ;;
  modify (fun s => set_sb s (decode_sb d)) ;;;
  blk (io_brelse bp).

Definition bzero (dev bno : Z) : M FS unit :=
  bp <- blk (io_bread dev bno) ;;
  blk (io_set_data bp (replicate (Z.to_nat BSIZE) 0)) ;;;
  blk (io_log_write bp) ;;;
  blk (io_brelse bp).

(** The inner loop of [balloc]: the first clear bit. *)
Definition free_bit (d : block) (b size : Z) : option Z :=
  List.find (fun bi => negb (bit_of d bi)) (seqZ 0 (Z.min BPB (size - b))).

Definition balloc (dev : Z) : M FS Z :=
  s <- get ;;
  let sb := fs_sb s in
  r <- for_each (map (fun k => k * BPB) (seqZ 0 ((sb_size sb + BPB - 1) / BPB))) (fun b =>
    bp <- blk (io_bread dev (BBLOCK b sb)) ;;
    d <- blk (io_data bp) ;;
    match free_bit d b (sb_size sb) with
    | Some bi =>
        blk (io_set_data bp (set_bit d bi)) ;;;
        blk (io_log_write bp) ;;;
        blk (io_brelse bp) ;;;
        bzero dev (b + bi) ;;;
        ret (Some (b + bi))
    | None => blk (io_brelse bp) ;;; ret None
    end) ;;
  match r with
  | Some b => ret b
  | None => ret 0 (* "balloc: out of blocks" *)
  end.

Definition bfree (dev b : Z) : M FS unit :=
  s <- get ;;
  bp <- blk (io_bread dev (BBLOCK b (fs_sb s))) ;;
  d <- blk (io_data bp) ;;
  let bi := b mod BPB in
  if negb (bit_of d bi) then panic "freeing free block"
  else
    blk (io_set_data bp (clear_bit d bi)) ;;;
    blk (io_log_write bp) ;;;
    blk (io_brelse bp).

Definition iinit : M FS unit :=
  modify (fun s => set_it_lock s false) ;;;
  for_all (seq 0 NINODE) (fun i => updi i (fun x => set_i_lock x initsleeplock)).

(** The scan of [iget]: the entry in use for this inode, else the first
    unused one. *)
Definition iget (dev inum : Z) : M FS nat :=
  acquire it_lock set_it_lock ;;;
  s <- get ;;
  match List.find (fun i => (0 <? i_ref (geti s i)) && (i_dev (geti s i) =? dev) && (i_inum (geti s i) =? inum)) (seq 0 NINODE) with
  | Some ip =>
      updi ip (fun x => set_i_ref x (i_ref x + 1)) ;;;
      release it_lock set_it_lock ;;;
      ret ip
  | None =>
      match List.find (fun i => i_ref (geti s i) =? 0) (seq 0 NINODE) with
      | None => panic "iget: no inodes"
      | Some ip =>
          updi ip (fun x => mk_inode dev inum 1 (i_lock x) false (i_d x)) ;;;
          release it_lock set_it_lock ;;;
          ret ip
      end
  end.

Definition ialloc (dev type : Z) : M FS (option nat) :=
  s <- get ;;
  let sb := fs_sb s in
  for_each (seqZ 1 (sb_ninodes sb - 1)) (fun inum =>
    bp <- blk (io_bread dev (IBLOCK inum sb)) ;;
    d <- blk (io_data bp) ;;
    if di_type (read_dinode d (inum mod IPB)) =? 0 then
      blk (io_set_data bp (write_dinode d (inum mod IPB) (set_d_type dinode0 type))) ;;;
      blk (io_log_write bp) ;;;
      blk (io_brelse bp) ;;;
      ip <- iget dev inum ;;
      ret (Some ip)
    else
      blk (io_brelse bp) ;;; ret None).

Definition iupdate ip : M FS unit :=
  s <- get ;;
  let i := geti s ip in
  bp <- blk (io_bread (i_dev i) (IBLOCK (i_inum i) (fs_sb s))) ;;
  d <- blk (io_data bp) ;;
  blk (io_set_data bp (write_dinode d (i_inum i mod IPB) (i_d i))) ;;;
  blk (io_log_write bp) ;;;
  blk (io_brelse bp).

Definition idup ip : M FS nat :=
  acquire it_lock set_it_lock ;;;
  updi ip (fun x => set_i_ref x (i_ref x + 1)) ;;;
  release it_lock set_it_lock ;;;
  ret ip.

Definition ilock ip : M FS unit :=
  s <- get ;;
  if i_ref (geti s ip) <? 1 then panic "ilock"
  else
    acquiresleep (ino_sl ip) (set_ino_sl ip) mypid (ChInode ip) ;;;
    s <- get ;;
    let i := geti s ip in
    when (negb (i_valid i)) (
      bp <- blk (io_bread (i_dev i) (IBLOCK (i_inum i) (fs_sb s))) ;;
      d <- blk (io_data bp) ;;
      updi ip (fun x => set_i_d x (read_dinode d (i_inum i mod IPB))) ;;;
      blk (io_brelse bp) ;;;
      updi ip (fun x => set_i_valid x true) ;;;
      s <- get ;;
      when (di_type (i_d (geti s ip)) =? 0) (panic "ilock: no type")).

Definition iunlock ip : M FS unit :=
  h <- holdingsleep (ino_sl ip) (set_ino_sl ip) mypid ;;
  s <- get ;;
  if negb h || (i_ref (geti s ip) <? 1) then panic "iunlock"
  else releasesleep (ino_sl ip) (set_ino_sl ip).

Definition bmap ip (bn : Z) : M FS Z :=
  s <- get ;;
  let dev := i_dev (geti s ip) in
  if bn <? NDIRECT then
    let addr := nthz (di_addrs (i_d (geti s ip))) bn in
    if addr =? 0 then
      addr <- balloc dev ;;
      if addr =? 0 then ret 0
      else updd ip (fun d => set_d_addr d bn addr) ;;; ret addr
    else ret addr
  else
    let bn := bn - NDIRECT in
    if bn <? NINDIRECT then
      let addr := nthz (di_addrs (i_d (geti s ip))) NDIRECT in
      ind <- (if addr =? 0 then
                addr <- balloc dev ;;
                if addr =? 0 then ret 0
                else updd ip (fun d => set_d_addr d NDIRECT addr) ;;; ret addr
              else ret addr) ;;
      if ind =? 0 then ret 0
      else
        bp <- blk (io_bread dev ind) ;;
        a <- blk (io_data bp) ;;
        addr <- (if get_addr a bn =? 0 then
                   addr <- balloc dev ;;
                   when (negb (addr =? 0)) (
                     blk (io_set_data bp (put_addr a bn addr)) ;;;
                     blk (io_log_write bp)) ;;;
                   ret addr
                 else ret (get_addr a bn)) ;;
        blk (io_brelse bp) ;;;
        ret addr
    else panic "bmap: out of range".

Definition itrunc ip : M FS unit :=
  for_all (seqZ 0 NDIRECT) (fun i =>
    s <- get ;;
    let a := nthz (di_addrs (i_d (geti s ip))) i in
    when (negb (a =? 0)) (
      bfree (i_dev (geti s ip)) a ;;;
      updd ip (fun d => set_d_addr d i 0))) ;;;
  s <- get ;;
  let ind := nthz (di_addrs (i_d (geti s ip))) NDIRECT in
  let dev := i_dev (geti s ip) in
  when (negb (ind =? 0)) (
    bp <- blk (io_bread dev ind) ;;
    for_all (seqZ 0 NINDIRECT) (fun j =>
      a <- blk (io_data bp) ;;
      when (negb (get_addr a j =? 0)) (bfree dev (get_addr a j))) ;;;
    blk (io_brelse bp) ;;;
    bfree dev ind ;;;
    updd ip (fun d => set_d_addr d NDIRECT 0)) ;;;
  updd ip (fun d => set_d_size d 0) ;;;
  iupdate ip.

Definition iput ip : M FS unit :=
  acquire it_lock set_it_lock ;;;
  s <- get ;;
  let i := geti s ip in
  when ((i_ref i =? 1) && i_valid i && (di_nlink (i_d i) =? 0)) (
    acquiresleep (ino_sl ip) (set_ino_sl ip) mypid (ChInode ip) ;;;
    release it_lock set_it_lock ;;;
    itrunc ip ;;;
    updd ip (fun d => set_d_type d 0) ;;;
    iupdate ip ;;;
    updi ip (fun x => set_i_valid x false) ;;;
    releasesleep (ino_sl ip) (set_ino_sl ip) ;;;
    acquire it_lock set_it_lock) ;;;
  updi ip (fun x => set_i_ref x (i_ref x - 1)) ;;;
  release it_lock set_it_lock.

Definition iunlockput ip : M FS unit := iunlock ip ;;; iput ip.

Definition ireclaim (dev : Z) : M FS unit :=
  s <- get ;;
  let sb := fs_sb s in
  for_all (seqZ 1 (sb_ninodes sb - 1)) (fun inum =>
    bp <- blk (io_bread dev (IBLOCK inum sb)) ;;
    d <- blk (io_data bp) ;;
    let dip := read_dinode d (inum mod IPB) in
    ip <- (if negb (di_type dip =? 0) && (di_nlink dip =? 0) then ip <- iget dev inum ;; ret (Some ip) else ret None) ;;
    blk (io_brelse bp) ;;;
    match ip with
    | Some ip =>
        blk io_begin_op ;;;
        ilock ip ;;;
        iunlock ip ;;;
        iput ip ;;;
        blk io_end_op
    | None => ret tt
    end).

Definition fsinit (dev : Z) : M FS unit :=
  readsb dev ;;;
  s <- get ;;
  if negb (sb_magic (fs_sb s) =? FSMAGIC) then panic "invalid file system"
  else
    blk (io_initlog dev (sb_logstart (fs_sb s))) ;;;
    ireclaim dev.

Definition stati ip : M FS stat :=
  gets (fun s => let i := geti s ip in
    mk_stat (i_dev i) (i_inum i) (di_type (i_d i)) (di_nlink (i_d i)) (di_size (i_d i))).

(** [either_copyout] of file data: the bytes that reach a kernel destination
    are part of the result of [readi]. *)
Definition fs_copyout (dst : loc) (bytes : list Z) : M FS bool :=
  match dst with User va => usr (u_copyout va bytes) | Kernel _ => ret true end.
Definition fs_copyin (src : loc) (m : Z) : M FS (list Z * bool) :=
  match src with User va => usr (u_copyin va m) | Kernel bytes => ret (take (Z.to_nat m) bytes, true) end.

(** The loop of [readi]: [tot] bytes done so far, [acc] the bytes read. It
    returns [tot] ([-1] after a failed copy) and the bytes. *)
Fixpoint readi_loop (fuel : nat) ip (dst : loc) (off n tot : Z) (acc : list Z) : M FS (Z * list Z) :=
  if tot <? n then
    match fuel with
    | O => no_fuel
    | Datatypes.S k =>
        addr <- bmap ip (off / BSIZE) ;;
        if addr =? 0 then ret (tot, acc)
        else
          s <- get ;;
          bp <- blk (io_bread (i_dev (geti s ip)) addr) ;;
          d <- blk (io_data bp) ;;
          let m := Z.min (n - tot) (BSIZE - off mod BSIZE) in
          let chunk := take (Z.to_nat m) (drop (Z.to_nat (off mod BSIZE)) d) in
          ok <- fs_copyout dst chunk ;;
          blk (io_brelse bp) ;;;
          if ok then readi_loop k ip (loc_add dst m) (off + m) n (tot + m) (acc ++ chunk)
          else ret (-1, acc)
    end
  else ret (tot, acc).

Definition readi ip (dst : loc) (off n : Z) : M FS (Z * list Z) :=
  s <- get ;;
  let size := di_size (i_d (geti s ip)) in
  if (size <? off) || (u32 (off + n) <? off) then ret (0, [])
  else
    let n := if size <? u32 (off + n) then u32 (size - off) else n in
    readi_loop (Z.to_nat (n / BSIZE + 2)) ip dst off n 0 [].

(** The loop of [writei]: the bytes written and the offset reached. *)
Fixpoint writei_loop (fuel : nat) ip (src : loc) (off n tot : Z) : M FS (Z * Z) :=
  if tot <? n then
    match fuel with
    | O => no_fuel
    | Datatypes.S k =>
        addr <- bmap ip (off / BSIZE) ;;
        if addr =? 0 then ret (tot, off)
        else
          s <- get ;;
          bp <- blk (io_bread (i_dev (geti s ip)) addr) ;;
          d <- blk (io_data bp) ;;
          let m := Z.min (n - tot) (BSIZE - off mod BSIZE) in
          c <- fs_copyin src m ;;
          let '(bytes, ok) := c in
          blk (io_set_data bp (splice d (Z.to_nat (off mod BSIZE)) bytes)) ;;;
          if negb ok then blk (io_brelse bp) ;;; ret (tot, off)
          else
            blk (io_log_write bp) ;;;
            blk (io_brelse bp) ;;;
            writei_loop k ip (loc_add src m) (off + m) n (tot + m)
    end
  else ret (tot, off).

Definition writei ip (src : loc) (off n : Z) : M FS Z :=
  s <- get ;;
  if (di_size (i_d (geti s ip)) <? off) || (u32 (off + n) <? off) then ret (-1)
  else if MAXFILE * BSIZE <? u32 (off + n) then ret (-1)
  else
    r <- writei_loop (Z.to_nat (n / BSIZE + 2)) ip src off n 0 ;;
    let '(tot, off) := r in
    s <- get ;;
    when (di_size (i_d (geti s ip)) <? off) (updd ip (fun d => set_d_size d off)) ;;;
    iupdate ip ;;;
    ret tot.

(** struct dirent: a 16-bit inode number and a NUL-padded name. *)
Definition sizeof_dirent : Z := 16.
Definition de_inum (bytes : list Z) : Z := getn 2 bytes 0.
Definition de_name (bytes : list Z) : list Z := drop 2 bytes.
Definition strncpy_name (name : list Z) : list Z :=
  take (Z.to_nat DIRSIZ) (name ++ replicate (Z.to_nat DIRSIZ) 0).
Definition mk_dirent (inum : Z) (name : list Z) : list Z := le_bytes 2 inum ++ strncpy_name name.

Definition namecmp (s t : list Z) : Z := strncmp_list (Z.to_nat DIRSIZ) s t.

(** The offsets a directory scan visits: 0, 16, ... below the size. *)
Definition dir_offsets (size : Z) : list Z :=
  map (fun k => k * sizeof_dirent) (seqZ 0 ((size + sizeof_dirent - 1) / sizeof_dirent)).

(** The entry and its offset. *)
Definition dirlookup dp (name : list Z) : M FS (option (nat * Z)) :=
  s <- get ;;
  if negb (di_type (i_d (geti s dp)) =? T_DIR) then panic "dirlookup not DIR"
  else
    for_each (dir_offsets (di_size (i_d (geti s dp)))) (fun off =>
      r <- readi dp (Kernel []) off sizeof_dirent ;;
      let '(n, de) := r in
      if negb (n =? sizeof_dirent) then panic "dirlookup read"
      else if de_inum de =? 0 then ret None
      else if namecmp name (de_name de) =? 0 then
        s <- get ;;
        ip <- iget (i_dev (geti s dp)) (de_inum de) ;;
        ret (Some (ip, off))
      else ret None).

Definition dirlink dp (name : list Z) (inum : Z) : M FS Z :=
  r <- dirlookup dp name ;;
  match r with
  | Some (ip, _) => iput ip ;;; ret (-1)
  | None =>
      s <- get ;;
      let size := di_size (i_d (geti s dp)) in
      r <- for_each (dir_offsets size) (fun off =>
        r <- readi dp (Kernel []) off sizeof_dirent ;;
        let '(n, de) := r in
        if negb (n =? sizeof_dirent) then panic "dirlink read"
        else if de_inum de =? 0 then ret (Some off) else ret None) ;;
      let off := match r with
                 | Some off => off
                 | None => (size + sizeof_dirent - 1) / sizeof_dirent * sizeof_dirent
                 end in
      n <- writei dp (Kernel (mk_dirent (u16 inum) name)) off sizeof_dirent ;;
      if negb (n =? sizeof_dirent) then ret (-1) else ret 0
  end.

End fs_c.

(** ** Paths *)

Definition SLASH : Z := 47.

(** [while( *path == '/') path++;] *)
Fixpoint skip_slashes (path : list Z) : list Z :=
  match path with c :: path' => if c =? SLASH then skip_slashes path' else path | [] => [] end.

(** The element up to the next slash, and what follows it. *)
Fixpoint take_elem (path : list Z) : list Z * list Z :=
  match path with
  | [] => ([], [])
  | c :: path' => if c =? SLASH then ([], path) else let '(e, rest) := take_elem path' in (c :: e, rest)
  end.

(** The rest of the path and the element, of which only DIRSIZ bytes are kept. *)
Definition skipelem (path : list Z) : option (list Z * list Z) :=
  match skip_slashes path with
  | [] => None
  | path =>
      let '(e, rest) := take_elem path in
      Some (skip_slashes rest, take (Z.to_nat DIRSIZ) e)
  end.

Section names.
Context {S H U : Type} {io : BlockIO S H} {um : UserMem U}.
Context (mypid : Z).
Notation FS := (fsst S U).

(** The loop of [namex]. [name] is the caller's buffer: the last element
    copied into it. *)
Fixpoint namex_loop (fuel : nat) (ip : nat) (path : list Z) (nameiparent : bool) (name : list Z) : M FS (option nat * list Z) :=
  match fuel with
  | O => no_fuel
  | Datatypes.S k =>
      match skipelem path with
      | None =>
          if nameiparent then iput mypid ip ;;; ret (None, name)
          else ret (Some ip, name)
      | Some (path, name) =>
          ilock mypid ip ;;;
          s <- get ;;
          if negb (di_type (i_d (geti s ip)) =? T_DIR) then iunlockput mypid ip ;;; ret (None, name)
          else if nameiparent && match path with [] => true | _ => false end then
            iunlock mypid ip ;;; ret (Some ip, name)
          else
            r <- dirlookup ip name ;;
            match r with
            | None => iunlockput mypid ip ;;; ret (None, name)
            | Some (next, _) => iunlockput mypid ip ;;; namex_loop k next path nameiparent name
            end
      end
  end.

Definition namex (cwd : nat) (path : list Z) (nameiparent : bool) : M FS (option nat * list Z) :=
  ip <- (match path with
         | c :: _ => if c =? SLASH then iget ROOTDEV ROOTINO else idup cwd
         | [] => idup cwd
         end) ;;
  namex_loop (Datatypes.S (length path)) ip path nameiparent [].

Definition namei (cwd : nat) (path : list Z) : M FS (option nat) :=
  r <- namex cwd path false ;; ret r.1.
Definition nameiparent (cwd : nat) (path : list Z) : M FS (option nat * list Z) := namex cwd path true.
End names.
