(* ===== verification/FsSpec.v ===== *)
(** * On-disk structures of the file system

    Bitmaps, disk inodes and path names: what the encodings of fs.c mean,
    and the block allocator on top of any [BlockSpec]. *)

From stdpp Require Import base gmap list numbers strings sets.
From Stdlib Require Import ZArith Lia.
From S2P Require Import Prelude Mem Spinlock Bytes Sleeplock Disk Bio BlockIO Fs.
Open Scope Z_scope.
Open Scope kernel_scope.

(** ** Bits of a block *)

Lemma testbit_one i k : 0 <= i -> 0 <= k -> Z.testbit (Z.shiftl 1 i) k = (k =? i).
Proof.
  intros Hi Hk. rewrite Z.shiftl_spec by lia. destruct (Z.eqb_spec k i) as [->|Hne]; [by rewrite Z.sub_diag|].
  destruct (decide (i < k)); [apply Z.bits_above_log2; cbn; lia|apply Z.testbit_neg_r; lia].
Qed.

Lemma testbit_u8 x i : 0 <= i < 8 -> Z.testbit (u8 x) i = Z.testbit x i.
Proof. intros Hi. unfold u8. apply Z.mod_pow2_bits_low. lia. Qed.

Lemma bit_of_testbit bl bi : 0 <= bi -> bit_of bl bi = Z.testbit (nthz bl (bi / 8)) (bi mod 8).
Proof. intros. unfold bit_of. apply has_testbit. apply Z.mod_pos_bound. lia. Qed.

Lemma set_bit_spec bl bi bj : is_block bl -> 0 <= bi < BPB -> 0 <= bj -> bit_of (set_bit bl bi) bj = (bj =? bi) || bit_of bl bj.
Proof.
  intros [Hl _] Hbi Hbj. unfold BPB, BSIZE in *. rewrite !bit_of_testbit by lia. unfold set_bit.
  rewrite nthz_setz by dlia. destruct (Z.eqb_spec (bj / 8) (bi / 8)) as [E|E].
  - rewrite testbit_u8 by dlia. rewrite Z.lor_spec, testbit_one by dlia. rewrite E. rewrite orb_comm. f_equal.
    destruct (Z.eqb_spec (bj mod 8) (bi mod 8)), (Z.eqb_spec bj bi); try done; dlia.
  - destruct (Z.eqb_spec bj bi); [congruence|done].
Qed.

Lemma clear_bit_spec bl bi bj : is_block bl -> 0 <= bi < BPB -> 0 <= bj -> bit_of (clear_bit bl bi) bj = negb (bj =? bi) && bit_of bl bj.
Proof.
  intros [Hl _] Hbi Hbj. unfold BPB, BSIZE in *. rewrite !bit_of_testbit by lia. unfold clear_bit.
  rewrite nthz_setz by dlia. destruct (Z.eqb_spec (bj / 8) (bi / 8)) as [E|E].
  - rewrite testbit_u8 by dlia. rewrite Z.land_spec, Z.lnot_spec, testbit_one by dlia. rewrite E. rewrite andb_comm. f_equal. f_equal.
    destruct (Z.eqb_spec (bj mod 8) (bi mod 8)), (Z.eqb_spec bj bi); try done; dlia.
  - destruct (Z.eqb_spec bj bi); [congruence|done].
Qed.

Lemma setz_block bl i v : is_block bl -> is_byte v -> is_block (setz bl i v).
Proof.
  intros [Hl Hb] Hv. unfold setz. split; [by rewrite length_insert|]. by apply Forall_insert.
Qed.
Lemma u8_is_byte x : is_byte (u8 x).
Proof. unfold is_byte, u8. apply Z.mod_pos_bound. lia. Qed.

(** ** Disk inodes *)

Record dinode_ok (d : dinode) : Prop := {
  dk_type : - 2 ^ 15 <= di_type d < 2 ^ 15;
  dk_major : - 2 ^ 15 <= di_major d < 2 ^ 15;
  dk_minor : - 2 ^ 15 <= di_minor d < 2 ^ 15;
  dk_nlink : - 2 ^ 15 <= di_nlink d < 2 ^ 15;
  dk_size : 0 <= di_size d < 2 ^ 32;
  dk_len : length (di_addrs d) = Z.to_nat (NDIRECT + 1);
  dk_addrs : Forall (fun a => 0 <= a < 2 ^ 32) (di_addrs d)
}.

Lemma i16_putn bl o v : is_block bl -> 0 <= o -> o + 2 <= BSIZE -> - 2 ^ 15 <= v < 2 ^ 15 -> i16 (getn 2 (putn 2 bl o v) o) = v.
Proof.
  intros [Hl _] H1 H2 Hv. unfold BSIZE in *. rewrite getn_putn by lia. change (256 ^ Z.of_nat 2) with (2 ^ 16). unfold i16, signed.
  rewrite Zmod_mod. apply (signed_small 16); lia.
Qed.

Lemma put_addrs_spec l bl o : is_block bl -> 0 <= o -> o + 4 * Z.of_nat (length l) <= BSIZE -> Forall (fun a => 0 <= a < 2 ^ 32) l ->
  is_block (put_addrs bl o l) /\
  (forall m o', 0 <= o' -> o' + Z.of_nat m <= o \/ o + 4 * Z.of_nat (length l) <= o' -> getn m (put_addrs bl o l) o' = getn m bl o') /\
  forall k a, l !! k = Some a -> getn 4 (put_addrs bl o l) (o + 4 * Z.of_nat k) = a.
Proof.
  revert bl o. induction l as [|a l IH]; intros bl o Hbl Ho Hlen Hl; cbn [put_addrs].
  { split_and!; [done|done|]. by intros [|k]. }
  apply Forall_cons in Hl as [Ha Hl]. cbn [length] in Hlen. pose proof Hbl as [Hbl1 Hbl2]. unfold BSIZE in *.
  assert (Hbl' : is_block (putn 4 bl o a)).
  { split; [rewrite length_putn; [done|lia|lia]|by apply putn_bytes]. }
  destruct (IH (putn 4 bl o a) (o + 4) Hbl' ltac:(lia) ltac:(lia) Hl) as (I1 & I2 & I3). split_and!; [done| |].
  - intros m o' Ho' Hd. rewrite I2 by (cbn [length] in Hd; lia). apply getn_putn_other; cbn [length] in Hd; lia.
  - intros [|k] a' Hk.
    + cbn in Hk. injection Hk as <-. rewrite I2 by lia. rewrite Z.add_0_r, getn_putn by lia. by apply Z.mod_small.
    + cbn in Hk. rewrite <- (I3 k a' Hk). f_equal. lia.
Qed.

Lemma putn_block n bl o v : is_block bl -> 0 <= o -> o + Z.of_nat n <= BSIZE -> is_block (putn n bl o v).
Proof.
  intros [Hl Hb] H1 H2. unfold BSIZE in *. split; [rewrite length_putn; [done|lia|lia]|by apply putn_bytes].
Qed.

(** The five scalar fields of a disk inode at offset [o]. *)
Definition put_fields (bl : block) (o : Z) (d : dinode) : block :=
  putn 4 (putn 2 (putn 2 (putn 2 (putn 2 bl o (di_type d)) (o + 2) (di_major d)) (o + 4) (di_minor d)) (o + 6) (di_nlink d))
    (o + 8) (di_size d).

Lemma put_fields_block bl o d : is_block bl -> 0 <= o -> o + 64 <= BSIZE -> is_block (put_fields bl o d).
Proof. intros Hb H1 H2. unfold put_fields. repeat apply putn_block; lia || done. Qed.

Lemma put_fields_other bl o d m o' : is_block bl -> 0 <= o -> o + 64 <= BSIZE -> 0 <= o' ->
  o' + Z.of_nat m <= o \/ o + 12 <= o' -> getn m (put_fields bl o d) o' = getn m bl o'.
Proof.
  intros [Hl _] H1 H2 H3 H4. unfold put_fields, BSIZE in *.
  rewrite !getn_putn_other; repeat rewrite length_putn; lia || done.
Qed.

Lemma put_fields_read bl o d : is_block bl -> 0 <= o -> o + 64 <= BSIZE -> dinode_ok d ->
  i16 (getn 2 (put_fields bl o d) o) = di_type d /\ i16 (getn 2 (put_fields bl o d) (o + 2)) = di_major d /\
  i16 (getn 2 (put_fields bl o d) (o + 4)) = di_minor d /\ i16 (getn 2 (put_fields bl o d) (o + 6)) = di_nlink d /\
  getn 4 (put_fields bl o d) (o + 8) = di_size d.
Proof.
  intros Hb H1 H2 [D1 D2 D3 D4 D5 D6 D7]. unfold put_fields. pose proof Hb as [Hl _]. unfold BSIZE in *.
  assert (Hp : forall n bl o v, is_block bl -> 0 <= o -> o + Z.of_nat n <= 1024 -> Z.of_nat (length (putn n bl o v)) = 1024).
  { intros n bl0 o0 v Hbl0 Ho0 Hn0. pose proof (proj1 (putn_block n bl0 o0 v Hbl0 Ho0 Hn0)) as E. unfold BSIZE in E. rewrite E. lia. }
  pose proof (putn_block 2 bl o (di_type d) Hb ltac:(lia) ltac:(unfold BSIZE; lia)) as B1.
  pose proof (putn_block 2 _ (o + 2) (di_major d) B1 ltac:(lia) ltac:(unfold BSIZE; lia)) as B2.
  pose proof (putn_block 2 _ (o + 4) (di_minor d) B2 ltac:(lia) ltac:(unfold BSIZE; lia)) as B3.
  pose proof (putn_block 2 _ (o + 6) (di_nlink d) B3 ltac:(lia) ltac:(unfold BSIZE; lia)) as B4.
  split_and!.
  all: repeat (rewrite getn_putn_other by (rewrite ?Hp by (done || lia); lia)).
  1-4: apply i16_putn; [done|lia|unfold BSIZE; lia|lia].
  rewrite getn_putn by (rewrite ?Hp by (done || lia); lia). by apply Z.mod_small.
Qed.

Lemma write_dinode_eq bl i d : write_dinode bl i d = put_addrs (put_fields bl (sizeof_dinode * i) d) (sizeof_dinode * i + 12) (di_addrs d).
Proof. reflexivity. Qed.

Section dinode_slot.
Context (bl : block) (i : Z) (d : dinode) (Hb : is_block bl) (Hi : 0 <= i < IPB) (Hd : dinode_ok d).

Local Lemma slot_bounds : 0 <= sizeof_dinode * i /\ sizeof_dinode * i + 64 <= BSIZE.
Proof using Hi. unfold IPB, sizeof_dinode, BSIZE in *. change (1024 / 64) with 16 in Hi. lia. Qed.

Local Lemma addrs_facts :
  is_block (write_dinode bl i d) /\
  (forall m o', 0 <= o' -> o' + Z.of_nat m <= sizeof_dinode * i + 12 \/ sizeof_dinode * i + 64 <= o' ->
     getn m (write_dinode bl i d) o' = getn m (put_fields bl (sizeof_dinode * i) d) o') /\
  forall k a, di_addrs d !! k = Some a -> getn 4 (write_dinode bl i d) (sizeof_dinode * i + 12 + 4 * Z.of_nat k) = a.
Proof using Hb Hi Hd.
  pose proof slot_bounds as [S1 S2]. rewrite write_dinode_eq.
  assert (Hlen : 4 * Z.of_nat (length (di_addrs d)) = 52) by (rewrite (dk_len d Hd); done).
  destruct (put_addrs_spec (di_addrs d) (put_fields bl (sizeof_dinode * i) d) (sizeof_dinode * i + 12)) as (P1 & P2 & P3);
    [by apply put_fields_block|lia|lia|apply (dk_addrs d Hd)|].
  split_and!; [done| |done]. intros m o' Ho' Hm. apply P2; lia.
Qed.

Lemma write_dinode_block : is_block (write_dinode bl i d).
Proof using Hb Hi Hd. apply addrs_facts. Qed.

Lemma read_write_dinode : read_dinode (write_dinode bl i d) i = d.
Proof using Hb Hi Hd.
  pose proof slot_bounds as [S1 S2]. destruct addrs_facts as (_ & P2 & P3).
  destruct (put_fields_read bl (sizeof_dinode * i) d Hb S1 S2 Hd) as (F1 & F2 & F3 & F4 & F5).
  unfold read_dinode. rewrite !P2 by lia. rewrite F1, F2, F3, F4, F5.
  assert (map (fun k => getn 4 (write_dinode bl i d) (sizeof_dinode * i + 12 + 4 * k)) (seqZ 0 (NDIRECT + 1)) = di_addrs d) as ->.
  { apply list_eq. intros k. rewrite list_lookup_fmap. destruct (di_addrs d !! k) as [a|] eqn:E.
    - pose proof (lookup_lt_Some _ _ _ E) as Hk. rewrite (dk_len d Hd) in Hk. rewrite lookup_seqZ_lt by (unfold NDIRECT in *; lia).
      cbn [fmap option_fmap option_map]. f_equal. rewrite <- (P3 k a E). f_equal; lia.
    - apply lookup_ge_None in E. rewrite (dk_len d Hd) in E. rewrite lookup_seqZ_ge by (unfold NDIRECT in *; lia). done. }
  by destruct d.
Qed.

Lemma read_write_dinode_other j : 0 <= j < IPB -> j <> i -> read_dinode (write_dinode bl i d) j = read_dinode bl j.
Proof using Hb Hi Hd.
  intros Hj Hne. pose proof slot_bounds as [S1 S2]. destruct addrs_facts as (_ & P2 & _).
  assert (G : forall m o', 0 <= o' -> sizeof_dinode * j <= o' -> o' + Z.of_nat m <= sizeof_dinode * j + 64 ->
    getn m (write_dinode bl i d) o' = getn m bl o').
  { intros m o' H1 H2 H3. unfold sizeof_dinode in *. rewrite P2 by lia. apply put_fields_other; try done; lia. }
  unfold read_dinode. rewrite !G by (unfold sizeof_dinode; lia). f_equal. apply map_ext_in. intros k Hk.
  apply list_elem_of_In, elem_of_seqZ in Hk. unfold NDIRECT in Hk. apply G; unfold sizeof_dinode; lia.
Qed.
End dinode_slot.
