(* ===== verification/FsAlloc.v ===== *)
(** * The block allocator of fs.c over the block interface *)

From stdpp Require Import base gmap list numbers strings sets.
From Stdlib Require Import ZArith Lia.
From S2P Require Import Prelude Mem Spinlock Bytes Sleeplock Disk Bio BioSpec Cache Log LogSpec LogSafe BlockIO LogIO Fs FsSpec.
Open Scope Z_scope.
Open Scope kernel_scope.

(** Block [b] is marked in use in the free map. *)
Definition used (g : Z -> block) (sb : superblock) (b : Z) : bool := bit_of (g (BBLOCK b sb)) (b mod BPB).
Definition bmap_end (sb : superblock) : Z := sb_bmapstart sb + (sb_size sb + BPB - 1) / BPB.
Definition zero_block : block := replicate (Z.to_nat BSIZE) 0.

Lemma zero_block_ok : is_block zero_block.
Proof. split; [apply length_replicate|]. apply Forall_replicate. unfold is_byte. lia. Qed.

Lemma find_seqZ p a n : 
  match List.find p (seqZ a n) with
  | Some i => a <= i < a + n /\ p i = true /\ forall j, a <= j < i -> p j = false
  | None => forall j, a <= j < a + n -> p j = false
  end.
Proof.
  destruct (decide (0 <= n)) as [Hn|Hn]; [|rewrite seqZ_nil by lia; intros j; lia].
  revert a. pattern n. apply natlike_ind; [| |done].
  - intros a j. lia.
  - intros m Hm IH a. rewrite seqZ_cons by lia. cbn [List.find]. destruct (p a) eqn:Ea.
    + split_and!; [lia..|done|]. intros j. lia.
    + rewrite Z.pred_succ. specialize (IH (Z.succ a)). destruct (List.find p (seqZ (Z.succ a) m)) as [i|].
      * destruct IH as (I1 & I2 & I3). split_and!; [lia..|done|]. intros j Hj. destruct (decide (j = a)) as [->|]; [done|]. apply I3. lia.
      * intros j Hj. destruct (decide (j = a)) as [->|]; [done|]. apply IH. lia.
Qed.

Lemma free_bit_spec d b size :
  match free_bit d b size with
  | Some bi => 0 <= bi < BPB /\ b + bi < size /\ bit_of d bi = false /\ forall j, 0 <= j < bi -> bit_of d j = true
  | None => forall j, 0 <= j < BPB -> b + j < size -> bit_of d j = true
  end.
Proof.
  unfold free_bit. pose proof (find_seqZ (fun bi => negb (bit_of d bi)) 0 (Z.min BPB (size - b))) as F.
  destruct (List.find _ _) as [bi|].
  - destruct F as (F1 & F2 & F3). split_and!; [lia..|by destruct (bit_of d bi)|].
    intros j Hj. specialize (F3 j Hj). by destruct (bit_of d j).
  - intros j Hj1 Hj2. specialize (F j ltac:(lia)). by destruct (bit_of d j).
Qed.

Lemma remove_added (b : Z) (L : gset Z) : b ∉ L -> ({[b]} ∪ L) ∖ {[b]} = L.
Proof. set_solver. Qed.

Lemma size_add_le (b : Z) (X : gset Z) : (size ({[b]} ∪ X) <= Datatypes.S (size X))%nat.
Proof.
  destruct (decide (b ∈ X)) as [Hb|Hb].
  - replace ({[b]} ∪ X) with X by set_solver. lia.
  - rewrite size_union by set_solver. rewrite size_singleton. lia.
Qed.

Section over_blocks.
Context {S H U : Type} {io : BlockIO S H} {spec : BlockSpec S H}.
Notation FS := (fsst S U).
Implicit Types (s : FS) (x : S) (P L : gset Z).

Lemma blk_ok {A} (m : M S A) s a x : m (fs_io s) = Ok a x -> blk m s = Ok a (set_io s x).
Proof. intros E. unfold blk, zoom. by rewrite E. Qed.

(** The handles of the buffers in [L] stay good, and nothing reaches the
    device. *)
Definition keeps_at x x' L : Prop := (forall h k, k ∈ L -> io_at x h k -> io_at x' h k) /\ forall k, io_dur x' k = io_dur x k.
Lemma keeps_at_trans x1 x2 x3 L : keeps_at x1 x2 L -> keeps_at x2 x3 L -> keeps_at x1 x3 L.
Proof. intros [H1 D1] [H2 D2]. split; [auto|]. intros k. by rewrite D2, D1. Qed.

(** One block opened by [bread]: its data, and the two ways it is let go:
    unchanged, or rewritten and recorded in the log. *)
Lemma open_block x P L b : io_ok x P L -> 0 <= b < io_nblocks -> b ∉ L -> b ∈ P \/ (size (P ∪ L) < NBUF)%nat ->
  exists h x1, io_bread io_dev b x = Ok h x1 /\ io_data h x1 = Ok (io_get x b) x1 /\
    io_ok x1 P ({[b]} ∪ L) /\ io_at x1 h b /\ (forall k, io_get x1 k = io_get x k) /\ (forall k, io_dur x1 k = io_dur x k) /\ keeps_at x x1 L /\
    (exists x2, io_brelse h x1 = Ok tt x2 /\ io_ok x2 P L /\ (forall k, io_get x2 k = io_get x k) /\ keeps_at x x2 L).
Proof.
  intros Hok Hb HL Hroom. destruct (io_bread_ok x P L b Hok Hb HL Hroom) as (h & x1 & E1 & Hok1 & Hat & Hg & Hd & Hk).
  exists h, x1. assert (Hin : b ∈ {[b]} ∪ L) by uni.
  assert (Hk1 : keeps_at x x1 L) by (split; [intros h' k HkL; apply Hk; uni|done]).
  destruct (io_brelse_ok x1 P ({[b]} ∪ L) h b Hok1 Hin Hat) as (x2 & E2 & Hok2 & Hg2 & Hd2 & Hk2).
  { destruct (decide (b ∈ P)) as [HP|HP]; [by left|right]. rewrite Hg, Hd. apply (io_clean x P L); [done|uni]. }
  rewrite (remove_added b L HL) in Hok2.
  split_and!; [done|rewrite (io_data_ok x1 P _ h b Hok1 Hin Hat), Hg; done|done..|].
  exists x2. split_and!; [done|done|intros k; by rewrite Hg2, Hg|]. split; [intros h' k HkL Ha; by apply Hk2, Hk1|]. intros k. by rewrite Hd2.
Qed.

(** Rewriting an open block through the log. *)
Lemma rewrite_block x P L h b bl : io_ok x P ({[b]} ∪ L) -> io_at x h b -> 0 <= b < io_nblocks -> io_home b -> b ∉ L ->
  Z.of_nat (size P) < LOGBLOCKS -> is_block bl ->
  exists x1 x2 x3, io_set_data h bl x = Ok tt x1 /\ io_log_write h x1 = Ok tt x2 /\ io_brelse h x2 = Ok tt x3 /\
    io_ok x3 ({[b]} ∪ P) L /\ (forall k, io_get x3 k = if decide (k = b) then bl else io_get x k) /\
    keeps_at x x3 L.
Proof.
  intros Hok Hat Hb Hh HL Hsz Hbl. assert (Hin : b ∈ {[b]} ∪ L) by uni.
  destruct (io_set_data_ok x P _ h b bl Hok Hin Hat Hbl) as (x1 & E1 & Hok1 & Hg1 & Hd1 & Ha1).
  destruct (io_log_write_ok x1 P _ h b Hok1 Hin (Ha1 _ _ Hat) Hb Hh Hsz) as (x2 & E2 & Hok2 & Hg2 & Hd2 & Ha2).
  destruct (io_brelse_ok x2 _ _ h b Hok2 Hin (Ha2 _ _ (Ha1 _ _ Hat))) as (x3 & E3 & Hok3 & Hg3 & Hd3 & Ha3); [left; uni|].
  rewrite (remove_added b L HL) in Hok3.
  exists x1, x2, x3. split_and!; [done..|intros k; by rewrite Hg3, Hg2, Hg1|]. split; [intros h' k _ Ha; by apply Ha3, Ha2, Ha1|]. intros k. by rewrite Hd3, Hd2.
Qed.

(** [bzero] on a block: zeroed in the transaction. *)
Lemma bzero_ok s P L b : io_ok (fs_io s) P L -> 0 <= b < io_nblocks -> io_home b -> b ∉ L ->
  b ∈ P \/ (size (P ∪ L) < NBUF)%nat -> Z.of_nat (size P) < LOGBLOCKS ->
  exists x, bzero io_dev b s = Ok tt (set_io s x) /\ io_ok x ({[b]} ∪ P) L /\
    (forall k, io_get x k = if decide (k = b) then zero_block else io_get (fs_io s) k) /\ keeps_at (fs_io s) x L.
Proof.
  intros Hok Hb Hh HL Hroom Hsz.
  destruct (open_block _ P L b Hok Hb HL Hroom) as (h & x1 & E1 & _ & Hok1 & Hat & Hg & _ & Hk1 & _).
  destruct (rewrite_block x1 P L h b zero_block Hok1 Hat Hb Hh HL Hsz zero_block_ok) as (x2 & x3 & x4 & E2 & E3 & E4 & Hok4 & Hg4 & Hk4).
  exists x4. split_and!; [|done| |by eapply keeps_at_trans].
  - unfold bzero. step_with (blk_ok _ _ _ _ E1). step_with (blk_ok (io_set_data h zero_block) (set_io s x1) _ _ E2).
    step_with (blk_ok (io_log_write h) (set_io s x2) _ _ E3). exact (blk_ok (io_brelse h) (set_io s x3) _ _ E4).
  - intros k. rewrite Hg4. case_decide; [done|]. apply Hg.
Qed.

(** Where the free map of the file system is, and that the blocks it calls
    free are data blocks. *)
Record bitmap_layout (sb : superblock) : Prop := {
  bl_size : 0 <= sb_size sb <= io_nblocks;
  bl_start : 0 <= sb_bmapstart sb;
  bl_end : bmap_end sb <= io_nblocks;
  bl_width : io_nblocks <= 2 ^ 32;
  bl_home : forall b, sb_bmapstart sb <= b < bmap_end sb -> io_home b
}.
Definition metadata_used (g : Z -> block) (sb : superblock) : Prop :=
  forall b, 0 <= b < sb_size sb -> used g sb b = false -> 0 < b /\ bmap_end sb <= b /\ io_home b.
(** Buffers held across a call of [balloc] or [bfree] are blocks of files. *)
Definition held_files (g : Z -> block) (sb : superblock) L : Prop :=
  forall b, b ∈ L -> bmap_end sb <= b /\ used g sb b = true.

Lemma BBLOCK_range sb b : bitmap_layout sb -> 0 <= b < sb_size sb ->
  BBLOCK b sb = b / BPB + sb_bmapstart sb /\ sb_bmapstart sb <= BBLOCK b sb < bmap_end sb.
Proof.
  intros [L1 L2 L3 L4 _] Hb. unfold bmap_end, BPB, BSIZE in *.
  assert (E : BBLOCK b sb = b / (1024 * 8) + sb_bmapstart sb).
  { unfold BBLOCK, BPB, BSIZE, u32. apply Z.mod_small. dlia. }
  rewrite E. split; [done|]. dlia.
Qed.

(** The state after a block was taken from the free map and zeroed. *)
Definition taken s P L b s' : Prop :=
  exists x, s' = set_io s x /\ io_ok x ({[b]} ∪ ({[BBLOCK b (fs_sb s)]} ∪ P)) L /\ keeps_at (fs_io s) x L /\
    forall k, io_get x k = if decide (k = b) then zero_block
      else if decide (k = BBLOCK b (fs_sb s)) then set_bit (io_get (fs_io s) k) (b mod BPB) else io_get (fs_io s) k.

Definition balloc_step (dev : Z) (sb : superblock) (b : Z) : M FS (option Z) :=
  bp <- blk (io_bread dev (BBLOCK b sb)) ;;
  d <- blk (io_data bp) ;;
  match free_bit d b (sb_size sb) with
  | Some bi =>
      blk (io_set_data bp (set_bit d bi)) ;;;
      blk (io_log_write bp) ;;;
      blk (io_brelse bp) ;;;
      bzero dev (b + bi) ;;;
      ret (Some (b + bi))
  | None => blk (io_brelse bp) ;;; ret None
  end.

Context (sb : superblock) (Hlay : bitmap_layout sb).

Lemma block_of_bit k j : 0 <= j < BPB -> (k * BPB + j) / BPB = k /\ (k * BPB + j) mod BPB = j.
Proof using.
  intros Hj. unfold BPB, BSIZE in *. rewrite Z.add_comm. rewrite Z.div_add, Z.mod_add by lia.
  rewrite Z.div_small, Z.mod_small by lia. lia.
Qed.

(** A clear bit of an open bitmap block is set and the block it stands for
    zeroed. *)
Lemma take_block s P L h x1 b : fs_sb s = sb -> io_ok x1 P ({[BBLOCK b sb]} ∪ L) -> io_at x1 h (BBLOCK b sb) ->
  (forall i, io_get x1 i = io_get (fs_io s) i) -> keeps_at (fs_io s) x1 L ->
  metadata_used (io_get (fs_io s)) sb -> held_files (io_get (fs_io s)) sb L ->
  (size (P ∪ L) + 2 <= NBUF)%nat -> Z.of_nat (size P) + 2 <= LOGBLOCKS -> 0 <= b < sb_size sb ->
  used (io_get (fs_io s)) sb b = false ->
  exists s', (blk (io_set_data h (set_bit (io_get (fs_io s) (BBLOCK b sb)) (b mod BPB))) ;;;
              blk (io_log_write h) ;;; blk (io_brelse h) ;;; bzero io_dev b ;;; ret (Some b)) (set_io s x1) = Ok (Some b) s' /\
    taken s P L b s'.
Proof using Hlay.
  intros Hsb Hok1 Hat Hg1 Hk1 Hmeta Hheld Hroom Hlog Hb Hfree. set (g := io_get (fs_io s)) in *. set (B := BBLOCK b sb) in *.
  destruct (BBLOCK_range sb b Hlay Hb) as [_ HB]. fold B in HB. destruct (Hmeta b Hb Hfree) as (Hb0 & Hbe & Hbh).
  assert (HBL : B ∉ L) by (intros HL; destruct (Hheld B HL); lia).
  assert (HbL : b ∉ L) by (intros HL; destruct (Hheld b HL) as [_ E]; rewrite E in Hfree; discriminate Hfree).
  destruct Hlay as [L1 L2 L3 L4 L5].
  assert (Hbl : is_block (set_bit (g B) (b mod BPB))).
  { apply setz_block; [|apply u8_is_byte]. unfold g. rewrite <- Hg1. by apply (io_block x1 P _ B Hok1). }
  destruct (rewrite_block x1 P L h B _ Hok1 Hat ltac:(lia) (L5 B HB) HBL ltac:(lia) Hbl)
    as (x2 & x3 & x4 & E2 & E3 & E4 & Hok4 & Hg4 & Hk4).
  pose proof (size_add_le B P). pose proof (size_add_le B (P ∪ L)).
  destruct (bzero_ok (set_io s x4) ({[B]} ∪ P) L b Hok4 ltac:(lia) Hbh HbL) as (x5 & E5 & Hok5 & Hg5 & Hk5);
    [right; rewrite <- union_assoc_L; lia|lia|].
  exists (set_io s x5). split.
  - step_with (blk_ok _ (set_io s x1) _ _ E2). step_with (blk_ok (io_log_write h) (set_io s x2) _ _ E3).
    step_with (blk_ok (io_brelse h) (set_io s x3) _ _ E4). step_with E5. reflexivity.
  - exists x5. rewrite Hsb. fold B. split_and!; [done|done|exact (keeps_at_trans _ _ _ _ (keeps_at_trans _ _ _ _ Hk1 Hk4) Hk5)|]. intros k. rewrite Hg5. case_decide; [done|].
    cbn [fs_io set_io]. rewrite Hg4. case_decide as Hk; [by rewrite Hk|apply Hg1].
Qed.

(** What one bitmap block gives. *)
Lemma balloc_step_ok s P L k : fs_sb s = sb -> io_ok (fs_io s) P L ->
  metadata_used (io_get (fs_io s)) sb -> held_files (io_get (fs_io s)) sb L ->
  (size (P ∪ L) + 2 <= NBUF)%nat -> Z.of_nat (size P) + 2 <= LOGBLOCKS -> 0 <= k -> k * BPB < sb_size sb ->
  (exists b s', balloc_step io_dev sb (k * BPB) s = Ok (Some b) s' /\ k * BPB <= b < sb_size sb /\
     used (io_get (fs_io s)) sb b = false /\ (forall b', k * BPB <= b' < b -> used (io_get (fs_io s)) sb b' = true) /\ taken s P L b s') \/
  (exists x, balloc_step io_dev sb (k * BPB) s = Ok None (set_io s x) /\ io_ok x P L /\
     (forall i, io_get x i = io_get (fs_io s) i) /\ keeps_at (fs_io s) x L /\
     (forall b', k * BPB <= b' < (k + 1) * BPB -> b' < sb_size sb -> used (io_get (fs_io s)) sb b' = true)).
Proof using Hlay.
  intros Hsb Hok Hmeta Hheld Hroom Hlog Hk Hks. set (g := io_get (fs_io s)). set (B := BBLOCK (k * BPB) sb).
  assert (HBPB : BPB = 8192) by reflexivity.
  destruct (BBLOCK_range sb (k * BPB) Hlay ltac:(lia)) as [_ HB]. fold B in HB.
  assert (HBj : forall j, 0 <= j < BPB -> used g sb (k * BPB + j) = bit_of (g B) j).
  { intros j Hj. unfold used, B, BBLOCK. destruct (block_of_bit k j Hj) as [-> ->]. by rewrite Z.div_mul by lia. }
  assert (HBL : B ∉ L) by (intros HL; destruct (Hheld B HL); lia).
  assert (HBn : 0 <= B < io_nblocks) by (pose proof (bl_start sb Hlay); pose proof (bl_end sb Hlay); lia).
  destruct (open_block _ P L B Hok HBn HBL ltac:(right; lia)) as (h & x1 & E1 & E2 & Hok1 & Hat & Hg1 & _ & Hk1 & x2 & E3 & Hok2 & Hg2 & Hk2).
  unfold balloc_step. fold B. step_with (blk_ok _ _ _ _ E1). step_with (blk_ok (io_data h) (set_io s x1) _ _ E2). fold g.
  pose proof (free_bit_spec (g B) (k * BPB) (sb_size sb)) as F. destruct (free_bit (g B) (k * BPB) (sb_size sb)) as [bi|].
  - left. destruct F as (F1 & F2 & F3 & F4). 
    destruct (block_of_bit k bi F1) as [Ed Em].
    assert (EB : BBLOCK (k * BPB + bi) sb = B) by (unfold B, BBLOCK; by rewrite Ed, Z.div_mul by lia).
    destruct (take_block s P L h x1 (k * BPB + bi)) as (s' & Er & Ht); rewrite ?EB; try done; [lia|by rewrite HBj|].
    exists (k * BPB + bi), s'. rewrite EB, Em in Er. split_and!; [exact Er|lia|lia|by rewrite HBj| |done].
    intros b' Hb'. replace b' with (k * BPB + (b' - k * BPB)) by lia. rewrite HBj by lia. apply F4. lia.
  - right. exists x2. step_with (blk_ok (io_brelse h) (set_io s x1) _ _ E3). split_and!; [done|done|done|done|].
    intros b' Hb' Hb2. replace b' with (k * BPB + (b' - k * BPB)) by lia. rewrite HBj by lia. apply F; lia.
Qed.

Lemma taken_same s x P L b s' : (forall i, io_get x i = io_get (fs_io s) i) -> keeps_at (fs_io s) x L -> taken (set_io s x) P L b s' -> taken s P L b s'.
Proof using.
  intros Hx Hk (y & -> & Hok & Hky & Hg). exists y. split_and!; [done|done|by eapply keeps_at_trans|]. intros k. rewrite Hg. cbn [fs_io set_io fs_sb].
  by repeat case_decide; rewrite ?Hx.
Qed.

Lemma used_ext g g' (b : Z) : (forall i, g' i = g i) -> used g' sb b = used g sb b.
Proof using. intros E. unfold used. by rewrite E. Qed.

(** The scan over the bitmap blocks [k], [k+1], .. *)
Lemma balloc_scan n s P L k : fs_sb s = sb -> io_ok (fs_io s) P L ->
  metadata_used (io_get (fs_io s)) sb -> held_files (io_get (fs_io s)) sb L ->
  (size (P ∪ L) + 2 <= NBUF)%nat -> Z.of_nat (size P) + 2 <= LOGBLOCKS -> 0 <= k ->
  k + Z.of_nat n = (sb_size sb + BPB - 1) / BPB ->
  (exists b s', for_each (map (fun k => k * BPB) (seqZ k (Z.of_nat n))) (balloc_step io_dev sb) s = Ok (Some b) s' /\
     k * BPB <= b < sb_size sb /\ used (io_get (fs_io s)) sb b = false /\
     (forall b', k * BPB <= b' < b -> used (io_get (fs_io s)) sb b' = true) /\ taken s P L b s') \/
  (exists x, for_each (map (fun k => k * BPB) (seqZ k (Z.of_nat n))) (balloc_step io_dev sb) s = Ok None (set_io s x) /\ io_ok x P L /\
     (forall i, io_get x i = io_get (fs_io s) i) /\ keeps_at (fs_io s) x L /\
     (forall b', k * BPB <= b' < sb_size sb -> used (io_get (fs_io s)) sb b' = true)).
Proof using Hlay.
  revert s k. induction n as [|n IH]; intros s k Hsb Hok Hmeta Hheld Hroom Hlog Hk Hn.
  { right. exists (fs_io s). rewrite seqZ_nil by lia. split_and!; [by destruct s|done|done|by split|].
    intros b' Hb'. unfold BPB, BSIZE in *. dlia. }
  rewrite seqZ_cons by lia. cbn [map for_each].
  assert (Hks : k * BPB < sb_size sb) by (unfold BPB, BSIZE in *; dlia).
  assert (k * BPB <= Z.succ k * BPB /\ (k + 1) * BPB = Z.succ k * BPB) as [Hk1 Hk2] by (unfold BPB, BSIZE; lia).
  destruct (balloc_step_ok s P L k Hsb Hok Hmeta Hheld Hroom Hlog Hk Hks)
    as [(b & s' & E & Hb & Hf & Hall & Ht)|(x & E & Hokx & Hgx & Hkx & Hall)].
  { left. exists b, s'. step_with E. done. }
  step_with E. replace (Z.pred (Z.of_nat (Datatypes.S n))) with (Z.of_nat n) by lia.
  assert (Hu : forall b', used (io_get x) sb b' = used (io_get (fs_io s)) sb b') by (intros; by apply used_ext).
  destruct (IH (set_io s x) (Z.succ k)) as [(b & s' & E' & Hb & Hf & Hall' & Ht)|(y & E' & Hoky & Hgy & Hky & Hall')];
    try done; try lia; cbn [fs_io set_io fs_sb] in *.
  - intros b Hb Hf. rewrite Hu in Hf. by apply Hmeta.
  - intros b Hb. rewrite Hu. by apply Hheld.
  - left. exists b, s'. rewrite Hu in Hf. split_and!; [done|lia|lia|done| |by apply (taken_same s x)].
    intros b' Hb'. destruct (decide (b' < (k + 1) * BPB)); [apply Hall; lia|]. rewrite <- Hu. apply Hall'. lia.
  - right. exists y. split_and!; [done|done|intros i; by rewrite Hgy, Hgx|by eapply keeps_at_trans|].
    intros b' Hb'. destruct (decide (b' < (k + 1) * BPB)); [apply Hall; lia|]. rewrite <- Hu. apply Hall'. lia.
Qed.

Lemma BBLOCK_inj b b' : 0 <= b < sb_size sb -> 0 <= b' < sb_size sb -> BBLOCK b sb = BBLOCK b' sb -> b mod BPB = b' mod BPB -> b = b'.
Proof using Hlay.
  intros Hb Hb' E Em. destruct (BBLOCK_range sb b Hlay Hb) as [E1 _], (BBLOCK_range sb b' Hlay Hb') as [E2 _].
  rewrite (Z.div_mod b BPB), (Z.div_mod b' BPB) by (unfold BPB, BSIZE; lia). rewrite Em. do 2 f_equal. lia.
Qed.

(** How setting or clearing the bit of [b] changes the map. *)
Lemma used_update (g g' : Z -> block) b (v : bool) : 0 <= b < sb_size sb -> is_block (g (BBLOCK b sb)) ->
  (forall b', 0 <= b' < sb_size sb -> g' (BBLOCK b' sb) = if decide (BBLOCK b' sb = BBLOCK b sb)
     then (if v then set_bit else clear_bit) (g (BBLOCK b sb)) (b mod BPB) else g (BBLOCK b' sb)) ->
  forall b', 0 <= b' < sb_size sb -> used g' sb b' = if b' =? b then v else used g sb b'.
Proof using Hlay.
  intros Hb Hbl Hg b' Hb'. unfold used. rewrite Hg by done.
  assert (0 <= b mod BPB < BPB /\ 0 <= b' mod BPB) as [Hm Hm'] by (unfold BPB, BSIZE; dlia).
  destruct (decide (BBLOCK b' sb = BBLOCK b sb)) as [E|E].
  - rewrite E. assert ((b' mod BPB =? b mod BPB) = (b' =? b)) as Eq.
    { destruct (Z.eqb_spec b' b) as [->|]; [apply Z.eqb_refl|]. apply Z.eqb_neq. intros Em. by apply (BBLOCK_inj b' b) in E. }
    destruct v; [rewrite set_bit_spec by done|rewrite clear_bit_spec by done]; rewrite Eq; by destruct (b' =? b).
  - destruct (Z.eqb_spec b' b) as [->|]; done.
Qed.

Lemma balloc_unfold s : fs_sb s = sb -> balloc io_dev s =
  (r <- for_each (map (fun k => k * BPB) (seqZ 0 ((sb_size sb + BPB - 1) / BPB))) (balloc_step io_dev sb) ;;
   match r with Some b => ret b | None => ret 0 end) s.
Proof using. clear Hlay. intros <-. reflexivity. Qed.

(** [balloc] in a transaction with room for two more blocks returns the
    first block the free map does not mark (0, changing nothing, when there
    is none): that block is then marked and zero, every other mark is as
    before, no block outside the free map changes, and the in-memory inodes
    and the superblock are untouched. *)
Theorem balloc_first_free s P L : fs_sb s = sb -> io_ok (fs_io s) P L ->
  metadata_used (io_get (fs_io s)) sb -> held_files (io_get (fs_io s)) sb L ->
  (size (P ∪ L) + 2 <= NBUF)%nat -> Z.of_nat (size P) + 2 <= LOGBLOCKS ->
  exists r x, balloc io_dev s = Ok r (set_io s x) /\ keeps_at (fs_io s) x L /\
   ((r = 0 /\ io_ok x P L /\ (forall b, 0 <= b < sb_size sb -> used (io_get (fs_io s)) sb b = true) /\
     (forall k, io_get x k = io_get (fs_io s) k)) \/
    (0 < r < sb_size sb /\ io_ok x ({[r]} ∪ ({[BBLOCK r sb]} ∪ P)) L /\
     used (io_get (fs_io s)) sb r = false /\ (forall b, 0 <= b < r -> used (io_get (fs_io s)) sb b = true) /\
     io_get x r = zero_block /\
     (forall b, 0 <= b < sb_size sb -> used (io_get x) sb b = if b =? r then true else used (io_get (fs_io s)) sb b) /\
     (forall k, k <> r -> ~ (sb_bmapstart sb <= k < bmap_end sb) -> io_get x k = io_get (fs_io s) k))).
Proof using Hlay.
  intros Hsb Hok Hmeta Hheld Hroom Hlog. set (g := io_get (fs_io s)) in *.
  pose proof (bl_size sb Hlay) as Hsz.
  assert (Hn : 0 <= (sb_size sb + BPB - 1) / BPB) by (unfold BPB, BSIZE; dlia).
  pose proof (balloc_scan (Z.to_nat ((sb_size sb + BPB - 1) / BPB)) s P L 0 Hsb Hok Hmeta Hheld Hroom Hlog ltac:(lia) ltac:(lia)) as Sc.
  rewrite Z2Nat.id in Sc by done. rewrite (balloc_unfold s Hsb).
  destruct Sc as [(b & s' & E & Hb & Hf & Hall & x & -> & Hokx & Hkx & Hgx)|(x & E & Hokx & Hgx & Hkx & Hall)]; step_with E.
  - rewrite Hsb in *. destruct (Hmeta b ltac:(lia) Hf) as (Hb0 & Hbe & Hbh). exists b, x. split_and!; [done|done|]. right.
    destruct (BBLOCK_range sb b Hlay ltac:(lia)) as [_ HB].
    split_and!; [lia|lia|done|done|intros b'; apply Hall|by rewrite Hgx, decide_True| |].
    + apply used_update; [lia|by apply (io_block _ P L)|]. intros b' Hb'. rewrite Hgx.
      destruct (BBLOCK_range sb b' Hlay Hb') as [_ HB']. rewrite decide_False by lia. case_decide as Eq; [by rewrite Eq|done].
    + intros k Hk1 Hk2. rewrite Hgx. rewrite decide_False by done. rewrite decide_False; [done|]. intros ->. lia.
  - exists 0, x. split_and!; [done|done|]. left. split_and!; try done.
Qed.

(** [bfree] clears the mark of a block in use and changes nothing else;
    freeing a block that is already free panics. *)
Theorem bfree_clears_mark s P L b : fs_sb s = sb -> io_ok (fs_io s) P L -> held_files (io_get (fs_io s)) sb L ->
  (size (P ∪ L) < NBUF)%nat -> Z.of_nat (size P) < LOGBLOCKS -> 0 <= b < sb_size sb ->
  if used (io_get (fs_io s)) sb b
  then exists x, bfree io_dev b s = Ok tt (set_io s x) /\ io_ok x ({[BBLOCK b sb]} ∪ P) L /\
     (forall b', 0 <= b' < sb_size sb -> used (io_get x) sb b' = if b' =? b then false else used (io_get (fs_io s)) sb b') /\
     (forall k, k <> BBLOCK b sb -> io_get x k = io_get (fs_io s) k) /\ keeps_at (fs_io s) x L
  else bfree io_dev b s = Panic "freeing free block".
Proof using Hlay.
  intros Hsb Hok Hheld Hroom Hlog Hb. destruct (BBLOCK_range sb b Hlay Hb) as [_ HB].
  assert (HBL : BBLOCK b sb ∉ L) by (intros HL; destruct (Hheld _ HL); lia).
  assert (HBn : 0 <= BBLOCK b sb < io_nblocks) by (pose proof (bl_start sb Hlay); pose proof (bl_end sb Hlay); lia).
  destruct (open_block _ P L _ Hok HBn HBL ltac:(right; lia)) as (h & x1 & E1 & E2 & Hok1 & Hat & Hg1 & _ & Hk1 & _).
  pose proof (io_block _ P L (BBLOCK b sb) Hok) as Hblk.
  destruct (used (io_get (fs_io s)) sb b) eqn:Hu; unfold used in Hu.
  - destruct (rewrite_block x1 P L h _ (clear_bit (io_get (fs_io s) (BBLOCK b sb)) (b mod BPB)) Hok1 Hat HBn (bl_home sb Hlay _ HB) HBL Hlog)
      as (x2 & x3 & x4 & E3 & E4 & E5 & Hok4 & Hg4 & Hk4); [apply setz_block; [done|apply u8_is_byte]|].
    exists x4. unfold bfree, bind at 1, get. rewrite Hsb. step_with (blk_ok _ s _ _ E1). step_with (blk_ok (io_data h) (set_io s x1) _ _ E2).
    rewrite Hu. cbn [negb]. step_with (blk_ok _ (set_io s x1) _ _ E3). step_with (blk_ok (io_log_write h) (set_io s x2) _ _ E4).
    split_and!; [exact (blk_ok (io_brelse h) (set_io s x3) _ _ E5)|done| | |by eapply keeps_at_trans].
    + apply used_update; [done|done|]. intros b' Hb'. rewrite Hg4. case_decide; [done|apply Hg1].
    + intros k Hk. rewrite Hg4, decide_False by done. apply Hg1.
  - unfold bfree, bind at 1, get. rewrite Hsb. step_with (blk_ok _ s _ _ E1). step_with (blk_ok (io_data h) (set_io s x1) _ _ E2).
    by rewrite Hu.
Qed.
End over_blocks.

(** ** On the log, the cache and the RAM disk *)

#[local] Instance demo_io : BlockIO (logst ramdisk_st) nat := log_io 1.
#[local] Instance demo_spec : BlockSpec (logst ramdisk_st) nat := log_io_spec 1 1 2 ltac:(lia) ltac:(lia) ram_fits ram_small.

(** A file system of 200 blocks whose first 47 are metadata. *)
Definition demo_sb : superblock := mk_sb FSMAGIC 200 153 200 31 2 33 46.
Definition demo_map : block := replicate 5 255 ++ [127] ++ replicate 1018 0.

Lemma demo_map_block : is_block demo_map.
Proof.
  split; [reflexivity|]. unfold demo_map, is_byte. repeat apply Forall_app_2; [apply Forall_replicate; lia| |apply Forall_replicate; lia].
  constructor; [lia|constructor].
Qed.

Lemma demo_trans : exists x : logst ramdisk_st, io_ok x {[46]} ∅ /\ io_get x 46 = demo_map.
Proof.
  assert (H0 : io_ok (set_outstanding demo_log 1) ∅ ∅).
  { apply (ready_in_trans 1 1 2 (set_outstanding demo_log 1) []); [|cbn; lia].
    apply ready_outstanding. exact (settled_ready 1 1 2 demo_log _ demo_settled eq_refl). }
  assert (Hn : (io_nblocks : Z) = 8192) by (by vm_compute).
  destruct (open_block _ ∅ ∅ 46 H0) as (h & x1 & _ & _ & H1 & Hat & _); [rewrite Hn; lia|set_solver|right; vm_compute; lia|].
  destruct (rewrite_block x1 ∅ ∅ h 46 demo_map H1 Hat) as (x2 & x3 & x4 & _ & _ & _ & H4 & Hg & _);
    [rewrite Hn; lia|cbn; unfold in_log, LOGBLOCKS, MAXOPBLOCKS; lia|set_solver|by vm_compute|apply demo_map_block|].
  exists x4. split; [by rewrite union_empty_r_L in H4|]. by rewrite Hg, decide_True.
Qed.

Lemma demo_layout : bitmap_layout demo_sb.
Proof.
  assert (Hn : (io_nblocks : Z) = 8192) by (by vm_compute).
  split; [cbn [sb_size demo_sb]; lia|cbn; lia|rewrite Hn; by vm_compute|rewrite Hn; lia|].
  intros b Hb. change (bmap_end demo_sb) with 47 in Hb. cbn in *. unfold in_log, LOGBLOCKS, MAXOPBLOCKS. lia.
Qed.

Lemma demo_used x : io_get x 46 = demo_map -> forall b, 0 <= b < 200 -> used (io_get (x : logst ramdisk_st)) demo_sb b = (b <? 47).
Proof.
  intros Hg b Hb. assert (E : BBLOCK b demo_sb = 46).
  { unfold BBLOCK, BPB, BSIZE. cbn [sb_bmapstart demo_sb]. rewrite Z.div_small by lia. reflexivity. }
  unfold used. rewrite E, Hg. rewrite Z.mod_small by (unfold BPB, BSIZE; lia).
  assert (Hall : forallb (fun b => Bool.eqb (bit_of demo_map b) (b <? 47)) (seqZ 0 200) = true) by (vm_compute; reflexivity).
  rewrite forallb_forall in Hall. apply eqb_prop, Hall, list_elem_of_In, elem_of_seqZ. lia.
Qed.

Lemma demo_metadata x : io_get (x : logst ramdisk_st) 46 = demo_map -> metadata_used (io_get x) demo_sb.
Proof.
  intros Hg b Hb Hf. cbn [sb_size demo_sb] in Hb. rewrite (demo_used x Hg b Hb) in Hf. change (bmap_end demo_sb) with 47.
  split_and!; [lia|lia|]. cbn. unfold in_log, LOGBLOCKS, MAXOPBLOCKS. lia.
Qed.

Lemma balloc_first_free_witness : exists x x' : logst ramdisk_st,
  balloc io_dev (mk_fs x tt false [] demo_sb) = Ok 47 (mk_fs x' tt false [] demo_sb) /\ io_get x' 47 = zero_block.
Proof.
  destruct demo_trans as (x & Hok & Hg). exists x.
  destruct (balloc_first_free demo_sb demo_layout (mk_fs x tt false [] demo_sb) {[46]} ∅ eq_refl Hok (demo_metadata x Hg))
    as (r & x' & E & _ & [(-> & _ & Hall & _)|(Hr & _ & Hf & Hall & Hz & _)]).
  - intros b Hb. set_solver.
  - rewrite union_empty_r_L, size_singleton. vm_compute. lia.
  - rewrite size_singleton. unfold LOGBLOCKS, MAXOPBLOCKS. lia.
  - exfalso. specialize (Hall 100 ltac:(cbn; lia)). cbn [fs_io] in Hall. rewrite (demo_used x Hg) in Hall by lia. discriminate Hall.
  - cbn [fs_io sb_size demo_sb] in *. rewrite (demo_used x Hg) in Hf by lia.
    assert (r = 47) as ->.
    { destruct (decide (r = 47)); [done|]. specialize (Hall 47 ltac:(lia)). rewrite (demo_used x Hg) in Hall by lia. discriminate Hall. }
    exists x'. split; [exact E|exact Hz].
Defined.

Lemma bfree_clears_mark_witness : exists x : logst ramdisk_st,
  bfree io_dev 100 (mk_fs x tt false [] demo_sb) = Panic "freeing free block".
Proof.
  destruct demo_trans as (x & Hok & Hg). exists x.
  pose proof (bfree_clears_mark demo_sb demo_layout (mk_fs x tt false [] demo_sb) {[46]} ∅ 100 eq_refl Hok) as B.
  cbn [fs_io] in B. rewrite (demo_used x Hg) in B by lia. apply B.
  - intros b Hb. set_solver.
  - rewrite union_empty_r_L, size_singleton. vm_compute. lia.
  - rewrite size_singleton. unfold LOGBLOCKS, MAXOPBLOCKS. lia.
  - cbn. lia.
Defined.
