(* ===== verification/FsInode.v ===== *)
(** * Inodes between memory and disk, and path names *)

From stdpp Require Import base gmap list numbers strings sets.
From Stdlib Require Import ZArith Lia.
From S2P Require Import Prelude Mem Spinlock Bytes Sleeplock Disk Bio BioSpec Cache Log LogSpec LogSafe BlockIO LogIO Fs FsSpec FsAlloc.
Open Scope Z_scope.
Open Scope kernel_scope.

(** ** Paths *)

(** The parts of a path between slashes. *)
Fixpoint split_path (path : list Z) : list (list Z) :=
  match path with
  | [] => [[]]
  | c :: path' =>
      if c =? SLASH then [] :: split_path path'
      else match split_path path' with e :: es => (c :: e) :: es | [] => [[c]] end
  end.
Definition elements (path : list Z) : list (list Z) := filter (fun e => e <> []) (split_path path).

(** The elements [namex] sees: [skipelem] until it returns 0. *)
Fixpoint skip_all (fuel : nat) (path : list Z) : list (list Z) :=
  match fuel with
  | O => []
  | Datatypes.S k => match skipelem path with Some (rest, e) => e :: skip_all k rest | None => [] end
  end.

Lemma split_path_nonnil path : split_path path <> [].
Proof. destruct path as [|c path]; cbn; [done|]. destruct (c =? SLASH); [done|]. by destruct (split_path path). Qed.

Lemma elements_slashes path : elements (skip_slashes path) = elements path.
Proof.
  induction path as [|c path IH]; [done|]. cbn [skip_slashes]. destruct (c =? SLASH) eqn:E; [|done].
  rewrite IH. unfold elements. cbn [split_path]. rewrite E. reflexivity.
Qed.

Lemma take_elem_split path e rest : take_elem path = (e, rest) ->
  exists es, split_path path = e :: es /\ (forall x, rest = x :: tl rest -> x = SLASH) /\
    filter (fun e => e <> []) es = elements (skip_slashes rest) /\ (length rest <= length path)%nat /\ (e = [] -> rest = path).
Proof.
  revert e rest. induction path as [|c path IH]; intros e rest; cbn [take_elem split_path].
  { intros [= <- <-]. exists []. done. }
  destruct (Z.eqb_spec c SLASH) as [->|Hne].
  - intros [= <- <-]. exists (split_path path). split_and!; [done|by intros x [= <-]| |done|done].
    rewrite elements_slashes. unfold elements. cbn [split_path]. rewrite Z.eqb_refl. reflexivity.
  - destruct (take_elem path) as [e' rest'] eqn:E. intros [= <- <-].
    destruct (IH e' rest' eq_refl) as (es & -> & H2 & H3 & H4 & _). exists es. split_and!; [done|done|done|cbn; lia|done].
Qed.

Lemma skip_slashes_length path : (length (skip_slashes path) <= length path)%nat.
Proof. induction path as [|c path IH]; cbn; [lia|]. destruct (c =? SLASH); cbn; lia. Qed.
Lemma skip_slashes_head path c rest : skip_slashes path = c :: rest -> c <> SLASH.
Proof. induction path as [|d path IH]; cbn; [done|]. destruct (Z.eqb_spec d SLASH); [done|]. by intros [= -> ->]. Qed.

Lemma skip_all_elements fuel path : (length path < fuel)%nat -> skip_all fuel path = map (take (Z.to_nat DIRSIZ)) (elements path).
Proof.
  revert path. induction fuel as [|fuel IH]; intros path Hf; [lia|]. cbn [skip_all]. rewrite <- (elements_slashes path).
  pose proof (skip_slashes_length path) as Hl. unfold skipelem. destruct (skip_slashes path) as [|c p] eqn:E; [done|].
  apply skip_slashes_head in E. destruct (take_elem (c :: p)) as [e rest] eqn:Et.
  destruct (take_elem_split _ _ _ Et) as (es & Es & _ & Hes & Hlen & He).
  assert (Hne : e <> []).
  { cbn [take_elem] in Et. destruct (Z.eqb_spec c SLASH); [done|]. destruct (take_elem p). by injection Et as <- <-. }
  unfold elements. rewrite Es, filter_cons_True by done. cbn [map]. f_equal. rewrite Hes.
  rewrite elements_slashes. rewrite IH; [by rewrite elements_slashes|].
  pose proof (skip_slashes_length rest). assert (length rest < length (c :: p))%nat; [|lia].
  cbn [take_elem] in Et. destruct (Z.eqb_spec c SLASH); [done|]. destruct (take_elem p) as [e' r'] eqn:Ep. injection Et as <- <-.
  destruct (take_elem_split _ _ _ Ep) as (_ & _ & _ & _ & Hlen' & _). cbn. lia.
Qed.

(** [skipelem], called until it returns 0, yields exactly the non-empty
    parts of the path between slashes, in order, each cut to DIRSIZ bytes,
    and it gets there in at most one step per byte. *)
Theorem skipelem_splits path :
  skip_all (Datatypes.S (length path)) path = map (take (Z.to_nat DIRSIZ)) (elements path).
Proof. apply skip_all_elements. lia. Qed.

(** ** Inodes *)

Definition inode_at (g : Z -> block) (sb : superblock) (inum : Z) : dinode := read_dinode (g (IBLOCK inum sb)) (inum mod IPB).

Section inodes.
Context {S H U : Type} {io : BlockIO S H} {spec : BlockSpec S H} {um : UserMem U} (mypid : Z).
Notation FS := (fsst S U).
Implicit Types (s : FS) (x : S) (P L : gset Z) (ip : nat) (inum : Z).
Context (sb : superblock).

(** The inode blocks are on the device, outside the log. *)
Definition inodes_ok : Prop := forall inum, 0 <= inum < sb_ninodes sb ->
  0 <= inum / IPB + sb_inodestart sb < io_nblocks /\ io_nblocks <= 2 ^ 32 /\ io_home (inum / IPB + sb_inodestart sb).

Lemma IBLOCK_range inum : inodes_ok -> 0 <= inum < sb_ninodes sb ->
  IBLOCK inum sb = inum / IPB + sb_inodestart sb /\ 0 <= IBLOCK inum sb < io_nblocks /\ io_home (IBLOCK inum sb).
Proof.
  intros Hl Hi. destruct (Hl inum Hi) as (H1 & H2 & H3).
  assert (E : IBLOCK inum sb = inum / IPB + sb_inodestart sb) by (unfold IBLOCK, u32; apply Z.mod_small; lia).
  rewrite E. done.
Qed.

Lemma slot_range inum : 0 <= inum mod IPB < IPB.
Proof. apply Z.mod_pos_bound. by vm_compute. Qed.

Lemma geti_seti s ip i : (ip < length (it_inode s))%nat -> geti (seti s ip i) ip = i.
Proof. intros Hl. unfold geti, seti. cbn. by rewrite list_lookup_insert_eq. Qed.
Lemma seti_seti s ip i j : seti (seti s ip i) ip j = seti s ip j.
Proof. unfold seti, set_inodes. cbn. by rewrite list_insert_insert_eq. Qed.
Lemma seti_geti s ip : (ip < length (it_inode s))%nat -> seti s ip (geti s ip) = s.
Proof.
  intros Hl. unfold geti, seti, set_inodes. destruct s as [a b c l d]. cbn in *. f_equal.
  destruct (lookup_lt_is_Some_2 l ip Hl) as [v E]. rewrite E. cbn. by apply list_insert_id.
Qed.
Lemma seti_set_io s ip i x : seti (set_io s x) ip i = set_io (seti s ip i) x.
Proof. done. Qed.

(** [iupdate] replaces the disk inode and leaves the others of its block. *)
Lemma iupdate_ok s P L ip : inodes_ok -> fs_sb s = sb -> io_ok (fs_io s) P L ->
  i_dev (geti s ip) = io_dev -> 0 <= i_inum (geti s ip) < sb_ninodes sb -> dinode_ok (i_d (geti s ip)) ->
  IBLOCK (i_inum (geti s ip)) sb ∉ L -> (size (P ∪ L) < NBUF)%nat -> Z.of_nat (size P) < LOGBLOCKS ->
  exists x, iupdate ip s = Ok tt (set_io s x) /\ io_ok x ({[IBLOCK (i_inum (geti s ip)) sb]} ∪ P) L /\
    (forall inum, 0 <= inum < sb_ninodes sb -> inode_at (io_get x) sb inum =
       if inum =? i_inum (geti s ip) then i_d (geti s ip) else inode_at (io_get (fs_io s)) sb inum) /\
    (forall k, k <> IBLOCK (i_inum (geti s ip)) sb -> io_get x k = io_get (fs_io s) k).
Proof.
  intros Hlay Hsb Hok Hdev Hi Hd HL Hroom Hlog. set (i := geti s ip) in *. set (B := IBLOCK (i_inum i) sb) in *.
  destruct (IBLOCK_range (i_inum i) Hlay Hi) as (EB & HB & HBh). fold B in EB, HB, HBh.
  destruct (open_block _ P L B Hok HB HL ltac:(right; lia)) as (h & x1 & E1 & E2 & Hok1 & Hat & Hg1 & _ & _).
  pose proof (io_block _ P L B Hok) as Hblk. pose proof (slot_range (i_inum i)) as Hs.
  destruct (rewrite_block x1 P L h B (write_dinode (io_get (fs_io s) B) (i_inum i mod IPB) (i_d i)) Hok1 Hat HB HBh HL Hlog)
    as (x2 & x3 & x4 & E3 & E4 & E5 & Hok4 & Hg4 & _); [by apply write_dinode_block|].
  exists x4. split_and!; [|done| |intros k Hk; rewrite Hg4, decide_False by done; apply Hg1].
  - unfold iupdate, bind at 1, get. fold i. rewrite Hsb, Hdev. fold B. step_with (blk_ok _ s _ _ E1).
    step_with (blk_ok (io_data h) (set_io s x1) _ _ E2). step_with (blk_ok _ (set_io s x1) _ _ E3).
    step_with (blk_ok (io_log_write h) (set_io s x2) _ _ E4). exact (blk_ok (io_brelse h) (set_io s x3) _ _ E5).
  - intros j Hj. unfold inode_at. rewrite Hg4. destruct (IBLOCK_range j Hlay Hj) as (EBj & _ & _). pose proof (slot_range j) as Hsj.
    destruct (Z.eqb_spec j (i_inum i)) as [->|Hne]; [rewrite decide_True by done; by apply read_write_dinode|].
    destruct (decide (IBLOCK j sb = B)) as [E|E]; [|by rewrite Hg1]. rewrite read_write_dinode_other; [by rewrite E|done..|].
    intros Em. apply Hne. rewrite (Z.div_mod j IPB), (Z.div_mod (i_inum i) IPB), Em by (by vm_compute). do 2 f_equal. lia.
Qed.

Lemma ino_lens s ip : (ip < length (it_inode s))%nat ->
  (forall l, ino_sl ip (set_ino_sl ip s l) = l) /\ (forall l l', set_ino_sl ip (set_ino_sl ip s l) l' = set_ino_sl ip s l') /\
  set_ino_sl ip s (ino_sl ip s) = s.
Proof.
  intros Hl. unfold ino_sl, set_ino_sl. split_and!.
  - intros l. by rewrite geti_seti.
  - intros l l'. rewrite geti_seti by done. by rewrite seti_seti.
  - rewrite <- (seti_geti s ip Hl) at 4. f_equal. by destruct (geti s ip).
Qed.

(** The in-memory inode after [ilock] read it from disk. *)
Definition loaded (i : inode) (d : dinode) : inode := mk_inode (i_dev i) (i_inum i) (i_ref i) (mk_sleeplock true false mypid) true d.

(** [ilock] of an inode that is not in memory yet. *)
Lemma ilock_ok s P L ip : inodes_ok -> fs_sb s = sb -> io_ok (fs_io s) P L -> (ip < length (it_inode s))%nat ->
  1 <= i_ref (geti s ip) -> i_lock (geti s ip) = initsleeplock -> i_valid (geti s ip) = false ->
  i_dev (geti s ip) = io_dev -> 0 <= i_inum (geti s ip) < sb_ninodes sb ->
  IBLOCK (i_inum (geti s ip)) sb ∉ L -> (size (P ∪ L) < NBUF)%nat ->
  let d := inode_at (io_get (fs_io s)) sb (i_inum (geti s ip)) in
  if di_type d =? 0 then ilock mypid ip s = Panic "ilock: no type"
  else exists x, ilock mypid ip s = Ok tt (set_io (seti s ip (loaded (geti s ip) d)) x) /\ io_ok x P L /\
    (forall k, io_get x k = io_get (fs_io s) k).
Proof.
  intros Hlay Hsb Hok Hlen Href Hlk Hval Hdev Hi HL Hroom. set (i := geti s ip) in *. set (B := IBLOCK (i_inum i) sb) in *. intros d.
  destruct (IBLOCK_range (i_inum i) Hlay Hi) as (_ & HB & _). fold B in HB.
  destruct (open_block _ P L B Hok HB HL ltac:(right; lia)) as (h & x1 & E1 & E2 & Hok1 & Hat & Hg1 & _ & _ & x2 & E3 & Hok2 & Hg2 & _).
  destruct (ino_lens s ip Hlen) as (G1 & G2 & G3).
  pose proof (acquiresleep_lens (ino_sl ip) (set_ino_sl ip) mypid (ChInode ip) s G1 G2 G3) as Ea.
  assert (Hino : ino_sl ip s = initsleeplock) by exact Hlk. rewrite Hino in Ea. specialize (Ea eq_refl). cbn [sl_locked initsleeplock] in Ea.
  set (i1 := set_i_lock i (mk_sleeplock true false mypid)). set (s1 := seti s ip i1). change (set_ino_sl ip s (mk_sleeplock true false mypid)) with s1 in Ea.
  assert (Eg : geti s1 ip = i1) by (by apply geti_seti).
  assert (Hl1 : (ip < length (it_inode s1))%nat) by (cbn; by rewrite length_insert).
  set (i2 := set_i_d i1 d). set (i3 := set_i_valid i2 true).
  assert (Et : ilock mypid ip s = (if di_type d =? 0 then panic "ilock: no type" else ret tt) (set_io (seti s ip i3) x2)).
  { unfold ilock, bind at 1, get. fold i. destruct (Z.ltb_spec (i_ref i) 1); [lia|]. step_with Ea. unfold bind at 1, get. cbn beta iota.
    rewrite Eg. change (fs_sb s1) with (fs_sb s). rewrite Hsb. cbn [i1 set_i_lock i_valid i_dev i_inum]. rewrite Hval, Hdev. cbn [negb when].
    fold B. step_with (blk_ok _ s1 _ _ E1). step_with (blk_ok (io_data h) (set_io s1 x1) _ _ E2).
    assert (Eu : updi ip (fun y => set_i_d y (read_dinode (io_get (fs_io s) B) (i_inum i mod IPB))) (set_io s1 x1) = Ok tt (set_io (seti s ip i2) x1)).
    { unfold updi, modify. change (geti (set_io s1 x1) ip) with (geti s1 ip). rewrite Eg, seti_set_io. unfold s1. rewrite seti_seti. done. }
    step_with Eu. step_with (blk_ok (io_brelse h) (set_io (seti s ip i2) x1) _ _ E3).
    assert (Eu2 : updi ip (fun y => set_i_valid y true) (set_io (seti s ip i2) x2) = Ok tt (set_io (seti s ip i3) x2)).
    { unfold updi, modify. change (geti (set_io (seti s ip i2) x2) ip) with (geti (seti s ip i2) ip). rewrite geti_seti by done.
      rewrite seti_set_io, seti_seti. done. }
    change (set_io (set_io (seti s ip i2) x1) x2) with (set_io (seti s ip i2) x2). step_with Eu2. unfold bind at 1. cbn beta iota.
    change (geti (set_io (seti s ip i3) x2) ip) with (geti (seti s ip i3) ip). rewrite geti_seti by done. cbn [i3 i2 set_i_valid set_i_d i_d].
    by destruct (di_type d =? 0). }
  rewrite Et. destruct (di_type d =? 0); [done|]. exists x2. split_and!; [done|done|]. done.
Qed.

(** The entry of inode [ip] is reused, which keeps its number: its copy of the
    inode is dropped and its lock is free. *)
Definition dropped (junk : dinode) (i : inode) : inode := mk_inode (i_dev i) (i_inum i) (i_ref i) initsleeplock false junk.

(** What [iupdate] wrote is what [ilock] reads once the in-memory copy was
    dropped, field by field; the other inodes that share the block, and every
    other block, are as they were. *)
Theorem inode_survives s P L ip junk : inodes_ok -> fs_sb s = sb -> io_ok (fs_io s) P L -> (ip < length (it_inode s))%nat ->
  1 <= i_ref (geti s ip) -> i_dev (geti s ip) = io_dev -> 0 <= i_inum (geti s ip) < sb_ninodes sb ->
  dinode_ok (i_d (geti s ip)) -> di_type (i_d (geti s ip)) <> 0 ->
  IBLOCK (i_inum (geti s ip)) sb ∉ L -> (size (P ∪ L) + 1 < NBUF)%nat -> Z.of_nat (size P) < LOGBLOCKS ->
  exists s', (iupdate ip ;;; updi ip (dropped junk) ;;; ilock mypid ip) s = Ok tt s' /\
    geti s' ip = loaded (geti s ip) (i_d (geti s ip)) /\
    (forall inum, 0 <= inum < sb_ninodes sb -> inum <> i_inum (geti s ip) ->
       inode_at (io_get (fs_io s')) sb inum = inode_at (io_get (fs_io s)) sb inum) /\
    (forall k, k <> IBLOCK (i_inum (geti s ip)) sb -> io_get (fs_io s') k = io_get (fs_io s) k).
Proof.
  intros Hlay Hsb Hok Hlen Href Hdev Hi Hd Ht HL Hroom Hlog. set (i := geti s ip) in *.
  destruct (iupdate_ok s P L ip Hlay Hsb Hok Hdev Hi Hd HL ltac:(lia) Hlog) as (x & E1 & Hok1 & Hin & Hot). fold i in E1, Hok1, Hin, Hot.
  set (s2 := set_io (seti s ip (dropped junk i)) x).
  assert (E2 : updi ip (dropped junk) (set_io s x) = Ok tt s2) by reflexivity.
  assert (G2 : geti s2 ip = dropped junk i) by (by apply (geti_seti s)).
  pose proof (ilock_ok s2 _ L ip Hlay Hsb Hok1 ltac:(cbn; by rewrite length_insert)) as El. rewrite G2 in El. cbn [dropped i_ref i_lock i_valid i_dev i_inum] in El.
  specialize (El Href eq_refl eq_refl Hdev Hi HL). pose proof (size_add_le (IBLOCK (i_inum i) sb) (P ∪ L)).
  rewrite <- union_assoc_L in El. specialize (El ltac:(lia)). cbn zeta in El. change (fs_io s2) with x in El. rewrite (Hin _ Hi), Z.eqb_refl in El.
  destruct (Z.eqb_spec (di_type (i_d i)) 0); [done|]. destruct El as (x' & E3 & _ & Hg3).
  eexists. split; [step_with E1; step_with E2; exact E3|].
  assert (Gx : forall (t : FS) y j, geti (set_io t y) j = geti t j) by done. rewrite Gx, geti_seti by (cbn; by rewrite length_insert).
  split_and!; [done| |].
  - intros j Hj Hne. transitivity (inode_at (io_get x) sb j); [unfold inode_at; cbn; by rewrite Hg3|]. rewrite Hin by done.
    by destruct (Z.eqb_spec j (i_inum i)).
  - intros k Hk. cbn. rewrite Hg3. by apply Hot.
Qed.
End inodes.

#[local] Existing Instance demo_io.
#[local] Existing Instance demo_spec.

Lemma demo_inodes : inodes_ok demo_sb.
Proof.
  assert (Hn : (io_nblocks : Z) = 8192) by (by vm_compute). intros inum Hi. rewrite Hn. cbn [sb_ninodes sb_inodestart demo_sb] in *.
  change IPB with 16. split_and!; [dlia|dlia|lia|]. cbn. unfold in_log, LOGBLOCKS, MAXOPBLOCKS. dlia.
Qed.

Definition demo_dinode : dinode := mk_dinode T_FILE 0 0 1 3 (70 :: replicate 12 0).
Lemma demo_dinode_ok : dinode_ok demo_dinode.
Proof.
  split; cbn [demo_dinode di_type di_major di_minor di_nlink di_size di_addrs]; unfold T_FILE; [lia..|reflexivity|]. constructor; [lia|]. apply (Forall_replicate _ 12). lia.
Qed.

Lemma inode_survives_witness : exists (x : logst ramdisk_st) s',
  let s := mk_fs x tt false [mk_inode 1 5 1 initsleeplock true demo_dinode] demo_sb in
  (iupdate 0 ;;; updi 0 (dropped dinode0) ;;; ilock 7 0) s = Ok tt s' /\ i_d (geti s' 0) = demo_dinode.
Proof.
  destruct demo_trans as (x & Hok & _). exists x.
  destruct (inode_survives 7 demo_sb (mk_fs x tt false [mk_inode 1 5 1 initsleeplock true demo_dinode] demo_sb) {[46]} ∅ 0 dinode0
    demo_inodes eq_refl Hok) as (s' & E & Hi & _); [cbn; lia|cbn; lia|reflexivity|cbn; lia|apply demo_dinode_ok|done|set_solver|vm_compute; lia|by vm_compute|].
  exists s'. split; [exact E|]. rewrite Hi. reflexivity.
Defined.
