(* ===== verification/ProcEnv.v ===== *)
(** * What kernel services expect of the running process

    Pipes, files, the console and the system calls use the process they run
    for through these operations: copies to and from its memory, sleeping
    and waking on channels, its kill flag, and the page allocator. *)

From stdpp Require Import base gmap list numbers strings.
From Stdlib Require Import ZArith Lia.
From S2P Require Import Prelude Disk BlockIO.
Open Scope Z_scope.
Open Scope kernel_scope.

Class ProcEnv (U : Type) := {
  pe_mem :: UserMem U;
  wakeup : chan -> M U unit;
  killed : M U bool;              (* killed(myproc()) *)
  park : chan -> U -> U;          (* sleep(): the caller is now asleep on the channel *)
  kalloc_page : M U Z;
  kfree_page : Z -> M U unit
}.

(** What the users of these operations rely on. [asleep u c]: some process is
    asleep on channel [c]. [user_byte u a]: the byte the process sees at
    address [a], where it may be accessed; [resident u a]: memory is there for
    it. In a [steady] state nobody holds the lock of a process; in a [running]
    one this hart runs a process besides, in a well-formed address space.
    Copies are of at most a block, and may fail where the process may not
    access its memory or when memory runs out. *)
Class ProcSpec (U : Type) `{ProcEnv U} := {
  asleep : U -> chan -> Prop;
  user_byte : U -> Z -> option Z;
  resident : U -> Z -> Prop;
  is_page : Z -> Prop;
  steady : U -> Prop;
  running : U -> Prop;
  user_byte_range : forall u a b, user_byte u a = Some b -> is_byte b;
  running_steady : forall u, running u -> steady u;
  wakeup_ok : forall u c, steady u -> exists u', wakeup c u = Ok tt u' /\ steady u' /\ (running u -> running u') /\
    ~ asleep u' c /\ (forall c', asleep u' c' -> asleep u c') /\
    (forall a, user_byte u' a = user_byte u a) /\ (forall a, resident u a -> resident u' a);
  park_ok : forall u c, running u -> forall c', asleep (park c u) c' <-> c' = c \/ asleep u c';
  killed_ok : forall u, running u -> exists b u', killed u = Ok b u' /\ running u' /\ (forall c, asleep u' c <-> asleep u c) /\
    (forall a, user_byte u' a = user_byte u a) /\ (forall a, resident u a -> resident u' a);
  copyin_ok : forall u a n, running u -> 0 <= a -> 0 <= n -> a + n < 2 ^ 64 ->
    exists bs ok u', u_copyin a n u = Ok (bs, ok) u' /\ running u' /\
    (forall c, asleep u' c <-> asleep u c) /\ (forall a, user_byte u' a = user_byte u a) /\ (forall a, resident u a -> resident u' a) /\
    if ok : bool then mapM (user_byte u) (seqZ a n) = Some bs
    else mapM (user_byte u) (seqZ a n) = None \/ exists x, a <= x < a + n /\ ~ resident u x;
  copyout_ok : forall u a bs, running u -> 0 <= a -> a + Z.of_nat (length bs) < 2 ^ 64 -> Z.of_nat (length bs) <= BSIZE -> Forall is_byte bs ->
    exists ok k u', u_copyout a bs u = Ok ok u' /\ running u' /\
    (forall c, asleep u' c <-> asleep u c) /\ 0 <= k <= Z.of_nat (length bs) /\ ok = (k =? Z.of_nat (length bs)) /\
    (forall x, user_byte u' x = if (a <=? x) && (x <? a + k) then bs !! Z.to_nat (x - a) else user_byte u x) /\
    (forall x, resident u x -> resident u' x);
  kfree_ok : forall u pa, running u -> is_page pa -> exists u', kfree_page pa u = Ok tt u' /\ forall c, asleep u' c <-> asleep u c
}.

(** ** A concrete process

    A flat memory, the channels processes sleep on, and the answers [killed]
    will give. It shows that the interface can be implemented; the theorems
    about clients are evaluated on it. *)
Record flat := mk_flat { fl_mem : gmap Z Z; fl_asleep : list chan; fl_kills : list bool }.

Definition flat_byte (u : flat) (a : Z) : option Z := u8 <$> fl_mem u !! a.

Fixpoint flat_put (m : gmap Z Z) (a : Z) (bs : list Z) : gmap Z Z * bool :=
  match bs with
  | [] => (m, true)
  | b :: bs' => match m !! a with Some _ => flat_put (<[a := b]> m) (a + 1) bs' | None => (m, false) end
  end.

Definition flat_mem : UserMem flat := {|
  u_copyout := fun a bs u => let '(m, ok) := flat_put (fl_mem u) a bs in Ok ok (mk_flat m (fl_asleep u) (fl_kills u));
  u_copyin := fun a n u => match mapM (flat_byte u) (seqZ a n) with Some bs => Ok (bs, true) u | None => Ok ([], false) u end
|}.
Definition flat_env : ProcEnv flat := {|
  pe_mem := flat_mem;
  wakeup := fun c u => Ok tt (mk_flat (fl_mem u) (filter (fun c' => c' <> c) (fl_asleep u)) (fl_kills u));
  killed := fun u => Ok (hd false (fl_kills u)) (mk_flat (fl_mem u) (fl_asleep u) (tl (fl_kills u)));
  park := fun c u => mk_flat (fl_mem u) (c :: fl_asleep u) (fl_kills u);
  kalloc_page := ret 0;
  kfree_page := fun _ => ret tt
|}.

Lemma flat_put_spec bs m a : Forall is_byte bs -> exists k, 0 <= k <= Z.of_nat (length bs) /\
  snd (flat_put m a bs) = (k =? Z.of_nat (length bs)) /\
  forall x, u8 <$> fst (flat_put m a bs) !! x = if (a <=? x) && (x <? a + k) then bs !! Z.to_nat (x - a) else u8 <$> m !! x.
Proof.
  revert m a. induction bs as [|b bs IH]; intros m a Hb; cbn [flat_put].
  { exists 0. cbn. split_and!; [lia..|done|]. intros x. by destruct (Z.leb_spec a x), (Z.ltb_spec x (a + 0)); cbn; try lia. }
  apply Forall_cons in Hb as [Hb0 Hb]. destruct (m !! a) eqn:E; cycle 1.
  { exists 0. cbn [length fst snd]. split_and!; [lia..|symmetry; apply Z.eqb_neq; lia|].
    intros x. by destruct (Z.leb_spec a x), (Z.ltb_spec x (a + 0)); cbn; try lia. }
  destruct (IH (<[a := b]> m) (a + 1) Hb) as (k & Hk & Hs & Hx). exists (k + 1). cbn [length]. split_and!; [lia..| |].
  - rewrite Hs. destruct (Z.eqb_spec k (Z.of_nat (length bs))), (Z.eqb_spec (k + 1) (Z.of_nat (S (length bs)))); lia || done.
  - intros x. rewrite Hx. destruct (decide (x = a)) as [->|Hne].
    + replace (a + 1 <=? a) with false by lia. replace (a <=? a) with true by lia. replace (a <? a + (k + 1)) with true by lia. cbn [andb].
      rewrite lookup_insert_eq, Z.sub_diag. change (Some (u8 b) = Some b). f_equal. unfold u8. apply Z.mod_small. exact Hb0.
    + rewrite lookup_insert_ne by done. destruct (Z.leb_spec (a + 1) x), (Z.leb_spec a x), (Z.ltb_spec x (a + 1 + k)), (Z.ltb_spec x (a + (k + 1)));
        cbn [andb]; try lia; try done. by replace (Z.to_nat (x - a)) with (S (Z.to_nat (x - (a + 1)))) by lia.
Qed.

Definition flat_spec : @ProcSpec flat flat_env.
Proof.
  refine {| asleep := fun u c => c ∈ fl_asleep u; user_byte := flat_byte; resident := fun _ _ => True; is_page := fun _ => True;
    steady := fun _ => True; running := fun _ => True |}.
  - intros u a b. unfold flat_byte. destruct (fl_mem u !! a); [|done]. intros [= <-]. unfold is_byte, u8. apply Z.mod_pos_bound. lia.
  - done.
  - intros u c _. eexists. split; [reflexivity|]. cbn. split_and!; [done..| |intros c'|done|done]; rewrite list_elem_of_filter; tauto.
  - intros u c _ c'. cbn. apply elem_of_cons.
  - intros u _. eexists _, _. split; [reflexivity|done].
  - intros u a n _ _ Hn _. cbn. destruct (mapM (flat_byte u) (seqZ a n)) as [bs|] eqn:E; eexists _, _, _; (split; [reflexivity|]); [done|].
    split_and!; [done..|by left].
  - intros u a bs _ _ _ _ Hb. cbn. destruct (flat_put_spec bs (fl_mem u) a Hb) as (k & Hk & Hs & Hx).
    destruct (flat_put (fl_mem u) a bs) as [m ok]. eexists ok, k, _. split; [reflexivity|]. done.
  - intros u pa _ _. by exists u.
Defined.
