(* ===== verification/FsOwn.v ===== *)
(** * What the blocks of a file system mean

    A block of the data area belongs to one slot of one inode: a direct
    block, the indirect block, or an entry of the indirect block. The slots
    give the bytes of a file. [fs_wf] is the consistency a file system has
    between operations. *)

From stdpp Require Import base gmap list numbers strings sets.
From Stdlib Require Import ZArith Lia.
From S2P Require Import Prelude Mem Bytes Disk Bio BlockIO Fs FsSpec FsAlloc FsInode.
Open Scope Z_scope.

(** Slots: 0 .. NDIRECT-1 the direct blocks, NDIRECT the indirect block, then
    its entries. *)
Definition NSLOTS : Z := NDIRECT + 1 + NINDIRECT.
Definition slot_addr (g : Z -> block) (d : dinode) (k : Z) : Z :=
  if k <=? NDIRECT then nthz (di_addrs d) k
  else let ind := nthz (di_addrs d) NDIRECT in
       if ind =? 0 then 0 else get_addr (g ind) (k - NDIRECT - 1).
(** The slot of block [bn] of a file. *)
Definition file_slot (bn : Z) : Z := if bn <? NDIRECT then bn else bn + 1.

(** Byte [o] of a file; a block that is not there reads as zeros. *)
Definition file_byte (g : Z -> block) (d : dinode) (o : Z) : Z :=
  let a := slot_addr g d (file_slot (o / BSIZE)) in
  if a =? 0 then 0 else nthz (g a) (o mod BSIZE).
Definition contents (g : Z -> block) (d : dinode) : list Z := map (file_byte g d) (seqZ 0 (di_size d)).

Definition upd {A} (D : Z -> A) (i : Z) (d : A) : Z -> A := fun j => if j =? i then d else D j.

Lemma upd_same {A} (D : Z -> A) i d : upd D i d i = d.
Proof. unfold upd. by rewrite Z.eqb_refl. Qed.
Lemma upd_other {A} (D : Z -> A) i d j : j <> i -> upd D i d j = D j.
Proof. intros. unfold upd. by destruct (Z.eqb_spec j i). Qed.

Lemma file_slot_range bn : 0 <= bn < MAXFILE -> 0 <= file_slot bn < NSLOTS /\ file_slot bn <> NDIRECT.
Proof. unfold file_slot, NSLOTS, MAXFILE, NDIRECT. destruct (Z.ltb_spec bn 12); lia. Qed.
Lemma file_slot_inj a b : file_slot a = file_slot b -> a = b.
Proof. unfold file_slot, NDIRECT. destruct (Z.ltb_spec a 12), (Z.ltb_spec b 12); lia. Qed.

(** ** Ownership of blocks

    [A i k] is the block in slot [k] of inode [i], or 0; [u] the marks of the
    free map. No block is in two slots, and the marked blocks of the data
    area are exactly those in slots. *)
Section owners.
Context (lo hi n : Z) (lo_pos : 0 < lo).
Implicit Types (A : Z -> Z -> Z) (u : Z -> bool).

Definition in_slots (i k : Z) : Prop := 0 <= i < n /\ 0 <= k < NSLOTS.

Record owners_ok A u : Prop := {
  ow_range : forall i k, in_slots i k -> A i k <> 0 -> lo <= A i k < hi /\ u (A i k) = true;
  ow_inj : forall i k j l, in_slots i k -> in_slots j l -> A i k <> 0 -> A i k = A j l -> i = j /\ k = l;
  ow_noleak : forall b, lo <= b < hi -> u b = true -> exists i k, in_slots i k /\ A i k = b
}.

Lemma owners_ext A u A' u' : (forall i k, in_slots i k -> A' i k = A i k) -> (forall b, lo <= b < hi -> u' b = u b) ->
  owners_ok A u -> owners_ok A' u'.
Proof using lo_pos.
  intros HA Hu [W1 W2 W3]. split.
  - intros i k Hs Hne. rewrite HA in * by done. destruct (W1 i k Hs Hne) as [Hr E]. by rewrite Hu.
  - intros i k j l Hs Ht. rewrite !HA by done. by apply W2.
  - intros b Hb. rewrite Hu by done. intros Hub. destruct (W3 b Hb Hub) as (i & k & Hs & E). exists i, k. by rewrite HA.
Qed.

(** A free block is put into an empty slot. *)
Lemma owners_alloc A u A' u' i0 k0 b : owners_ok A u -> in_slots i0 k0 -> A i0 k0 = 0 -> lo <= b < hi -> u b = false ->
  (forall i k, in_slots i k -> A' i k = if (i =? i0) && (k =? k0) then b else A i k) ->
  (forall x, lo <= x < hi -> u' x = if x =? b then true else u x) -> owners_ok A' u'.
Proof using lo_pos.
  intros [W1 W2 W3] Hs0 H0 Hb Hf HA Hu.
  assert (Hfresh : forall i k, in_slots i k -> A i k <> b).
  { intros i k Hs E. destruct (W1 i k Hs ltac:(lia)) as [_ E']. rewrite E, Hf in E'. discriminate. }
  split.
  - intros i k Hs. rewrite HA by done. destruct (_ && _).
    + intros _. split; [done|]. rewrite Hu, Z.eqb_refl by done. done.
    + intros Hne. destruct (W1 i k Hs Hne) as [Hr E]. rewrite Hu by done. split; [done|]. by destruct (_ =? _).
  - intros i k j l Hs Ht. rewrite !HA by done.
    destruct (Z.eqb_spec i i0), (Z.eqb_spec k k0), (Z.eqb_spec j i0), (Z.eqb_spec l k0); cbn [andb]; intros Hne E;
      first [split; congruence | by apply W2 | destruct (Hfresh j l Ht); congruence | destruct (Hfresh i k Hs); congruence].
  - intros x Hx. rewrite Hu by done. destruct (Z.eqb_spec x b) as [->|Hne].
    + intros _. exists i0, k0. split; [done|]. by rewrite HA, !Z.eqb_refl by done.
    + intros Hux. destruct (W3 x Hx Hux) as (i & k & Hs & E). exists i, k. split; [done|]. rewrite HA by done.
      destruct (Z.eqb_spec i i0), (Z.eqb_spec k k0); cbn [andb]; try done. subst. lia.
Qed.

(** A slot is emptied and its block freed. *)
Lemma owners_free A u A' u' i0 k0 b : owners_ok A u -> in_slots i0 k0 -> A i0 k0 = b -> b <> 0 ->
  (forall i k, in_slots i k -> A' i k = if (i =? i0) && (k =? k0) then 0 else A i k) ->
  (forall x, lo <= x < hi -> u' x = if x =? b then false else u x) -> owners_ok A' u'.
Proof using lo_pos.
  intros [W1 W2 W3] Hs0 H0 Hb HA Hu.
  assert (Hother : forall i k, in_slots i k -> A' i k <> 0 -> A' i k = A i k /\ A i k <> b).
  { intros i k Hs. rewrite HA by done. destruct (Z.eqb_spec i i0), (Z.eqb_spec k k0); cbn [andb]; try done; intros Hne; split; try done;
      intros E; destruct (W2 i k i0 k0 Hs Hs0 Hne ltac:(congruence)); done. }
  split.
  - intros i k Hs Hne. destruct (Hother i k Hs Hne) as [E Hnb]. rewrite E in *. destruct (W1 i k Hs Hne) as [Hr Hut].
    rewrite Hu by done. split; [done|]. by destruct (Z.eqb_spec (A i k) b).
  - intros i k j l Hs Ht Hne E. destruct (Hother i k Hs Hne) as [E1 _]. destruct (Hother j l Ht ltac:(congruence)) as [E2 _].
    apply W2; congruence || done.
  - intros x Hx. rewrite Hu by done. destruct (Z.eqb_spec x b) as [->|Hne]; [done|]. intros Hux.
    destruct (W3 x Hx Hux) as (i & k & Hs & E). exists i, k. split; [done|]. rewrite HA by done.
    destruct (Z.eqb_spec i i0), (Z.eqb_spec k k0); cbn [andb]; try done. subst. done.
Qed.
End owners.

(** ** Slots of an inode under updates *)

Lemma get_addr_zero j : 0 <= j < NINDIRECT -> get_addr zero_block j = 0.
Proof.
  intros Hj. unfold get_addr, getn, zero_block. unfold NINDIRECT, BSIZE in *. change (1024 / 4) with 256 in Hj.
  rewrite drop_replicate, take_replicate. rewrite Nat.min_l by lia. reflexivity.
Qed.

Lemma get_put_addr bl i j a : is_block bl -> 0 <= i < NINDIRECT -> 0 <= j < NINDIRECT -> 0 <= a < 2 ^ 32 ->
  get_addr (put_addr bl i a) j = if j =? i then a else get_addr bl j.
Proof.
  intros [Hl _] Hi Hj Ha. unfold get_addr, put_addr. unfold NINDIRECT, BSIZE in *. change (1024 / 4) with 256 in *.
  destruct (Z.eqb_spec j i) as [->|Hne].
  - rewrite getn_putn by lia. by apply Z.mod_small.
  - apply getn_putn_other; lia.
Qed.

Lemma get_addr_range bl j : is_block bl -> 0 <= get_addr bl j < 2 ^ 32.
Proof. intros [_ Hb]. by apply (getn_range 4). Qed.

Lemma put_addr_block bl i a : is_block bl -> 0 <= i < NINDIRECT -> is_block (put_addr bl i a).
Proof. intros Hb Hi. apply putn_block; [done|lia|]. unfold NINDIRECT, BSIZE in *. change (1024 / 4) with 256 in *. lia. Qed.

(** Only the indirect block of an inode matters for its slots. *)
Lemma slot_addr_ext g g' d k : (nthz (di_addrs d) NDIRECT <> 0 -> g' (nthz (di_addrs d) NDIRECT) = g (nthz (di_addrs d) NDIRECT)) ->
  slot_addr g' d k = slot_addr g d k.
Proof.
  intros Hg. unfold slot_addr. destruct (k <=? NDIRECT); [done|]. cbn zeta. destruct (Z.eqb_spec (nthz (di_addrs d) NDIRECT) 0); [done|]. by rewrite Hg.
Qed.

Lemma slot_addr_low g d k : k <= NDIRECT -> slot_addr g d k = nthz (di_addrs d) k.
Proof. intros. unfold slot_addr. by rewrite (proj2 (Z.leb_le _ _)). Qed.

Lemma slot_addr_set_direct g d i a k : 0 <= i < NDIRECT -> 0 <= k -> length (di_addrs d) = Z.to_nat (NDIRECT + 1) ->
  slot_addr g (set_d_addr d i a) k = if k =? i then a else slot_addr g d k.
Proof.
  intros Hi Hk Hl. unfold slot_addr, set_d_addr. cbn [di_addrs]. unfold NDIRECT in *. rewrite !nthz_setz by lia.
  destruct (Z.leb_spec k 12), (Z.eqb_spec k i); try done; [lia|]. by destruct (Z.eqb_spec 12 i); [lia|].
Qed.

(** A zeroed indirect block is attached: its entries are empty, as they were. *)
Lemma slot_addr_set_indirect g d a k : 0 <= k < NSLOTS -> length (di_addrs d) = Z.to_nat (NDIRECT + 1) ->
  nthz (di_addrs d) NDIRECT = 0 -> g a = zero_block ->
  slot_addr g (set_d_addr d NDIRECT a) k = if k =? NDIRECT then a else slot_addr g d k.
Proof.
  intros Hk Hl H0 Hz. unfold slot_addr, set_d_addr. cbn [di_addrs]. unfold NSLOTS, NDIRECT in *. rewrite H0, !nthz_setz by lia. cbn zeta.
  destruct (Z.leb_spec k 12), (Z.eqb_spec k 12); try done; [lia|]. change (12 =? 12) with true. cbn match.
  change (0 =? 0) with true. cbn match. destruct (a =? 0); [done|]. rewrite Hz. apply get_addr_zero. lia.
Qed.

(** An entry of the indirect block is set. *)
Lemma slot_addr_set_entry g g' d j a k : is_block (g (nthz (di_addrs d) NDIRECT)) -> nthz (di_addrs d) NDIRECT <> 0 ->
  0 <= j < NINDIRECT -> 0 <= k < NSLOTS -> 0 <= a < 2 ^ 32 ->
  g' (nthz (di_addrs d) NDIRECT) = put_addr (g (nthz (di_addrs d) NDIRECT)) j a ->
  slot_addr g' d k = if k =? NDIRECT + 1 + j then a else slot_addr g d k.
Proof.
  intros Hb H0 Hj Hk Ha Hg. unfold slot_addr, NSLOTS, NDIRECT in *. destruct (Z.leb_spec k 12), (Z.eqb_spec k (12 + 1 + j)); try done; [lia| |].
  all: cbn zeta; destruct (Z.eqb_spec (nthz (di_addrs d) 12) 0); [done|]; rewrite Hg, get_put_addr by lia || done.
  - by destruct (Z.eqb_spec (k - 12 - 1) j); [|lia].
  - by destruct (Z.eqb_spec (k - 12 - 1) j); [lia|].
Qed.

(** ** Consistency of a file system

    [D i] is disk inode [i], or the copy in memory of an inode that is being
    changed. *)
Section wf.
Context (sb : superblock).
Implicit Types (g : Z -> block) (D : Z -> dinode).

Definition in_bitmap (b : Z) : Prop := sb_bmapstart sb <= b < bmap_end sb.

Record fs_wf g D : Prop := {
  wf_dinode : forall i, 0 <= i < sb_ninodes sb -> dinode_ok (D i);
  wf_owners : owners_ok (bmap_end sb) (sb_size sb) (sb_ninodes sb) (fun i => slot_addr g (D i)) (used g sb);
  wf_meta : forall b, 0 <= b < sb_size sb -> used g sb b = false -> bmap_end sb <= b;
  wf_size : forall i, 0 <= i < sb_ninodes sb -> di_size (D i) <= MAXFILE * BSIZE;
  wf_dense : forall i bn, 0 <= i < sb_ninodes sb -> 0 <= bn -> bn * BSIZE < di_size (D i) -> slot_addr g (D i) (file_slot bn) <> 0
}.

Context (end_pos : 0 < bmap_end sb).

(** A block of a file: in the data area, and in no other slot. *)
Lemma wf_file_block g D i bn : fs_wf g D -> 0 <= i < sb_ninodes sb -> 0 <= bn < MAXFILE -> slot_addr g (D i) (file_slot bn) <> 0 ->
  bmap_end sb <= slot_addr g (D i) (file_slot bn) < sb_size sb /\ used g sb (slot_addr g (D i) (file_slot bn)) = true.
Proof using. intros W Hi Hb Hne. destruct (file_slot_range bn Hb) as [Hr _]. by apply (ow_range _ _ _ _ _ (wf_owners g D W)). Qed.

Lemma wf_indirect g D i : fs_wf g D -> 0 <= i < sb_ninodes sb -> nthz (di_addrs (D i)) NDIRECT <> 0 ->
  bmap_end sb <= nthz (di_addrs (D i)) NDIRECT < sb_size sb /\ used g sb (nthz (di_addrs (D i)) NDIRECT) = true.
Proof using.
  intros W Hi Hne. rewrite <- (slot_addr_low g (D i) NDIRECT) in * by lia. apply (ow_range _ _ _ _ _ (wf_owners g D W)); [|done].
  split; [done|]. unfold NSLOTS, NDIRECT, NINDIRECT, BSIZE. change (1024 / 4) with 256. lia.
Qed.

(** Blocks of files are not indirect blocks. *)
Lemma wf_file_indirect g D i bn j : fs_wf g D -> 0 <= i < sb_ninodes sb -> 0 <= j < sb_ninodes sb -> 0 <= bn < MAXFILE ->
  slot_addr g (D i) (file_slot bn) <> 0 -> slot_addr g (D i) (file_slot bn) <> nthz (di_addrs (D j)) NDIRECT.
Proof using.
  intros W Hi Hj Hb Hne E. destruct (file_slot_range bn Hb) as [Hr Hni]. rewrite <- (slot_addr_low g (D j) NDIRECT) in E by lia.
  destruct (ow_inj _ _ _ _ _ (wf_owners g D W) i (file_slot bn) j NDIRECT) as [_ Ek]; done.
Qed.

Lemma wf_file_inj g D i bn j bm : fs_wf g D -> 0 <= i < sb_ninodes sb -> 0 <= j < sb_ninodes sb -> 0 <= bn < MAXFILE -> 0 <= bm < MAXFILE ->
  slot_addr g (D i) (file_slot bn) <> 0 -> slot_addr g (D i) (file_slot bn) = slot_addr g (D j) (file_slot bm) -> i = j /\ bn = bm.
Proof using.
  intros W Hi Hj Hb Hm Hne E. destruct (file_slot_range bn Hb) as [Hr _], (file_slot_range bm Hm) as [Hr' _].
  destruct (ow_inj _ _ _ _ _ (wf_owners g D W) i (file_slot bn) j (file_slot bm)) as [-> Ek]; try done. by apply file_slot_inj in Ek.
Qed.

(** Consistency is about slots, marks and sizes only. *)
Lemma wf_cong g D g' D' : fs_wf g D ->
  (forall i k, 0 <= i < sb_ninodes sb -> 0 <= k < NSLOTS -> slot_addr g' (D' i) k = slot_addr g (D i) k) ->
  (forall b, 0 <= b < sb_size sb -> used g' sb b = used g sb b) ->
  (forall i, 0 <= i < sb_ninodes sb -> dinode_ok (D' i) /\ di_size (D' i) <= MAXFILE * BSIZE) ->
  (forall i bn, 0 <= i < sb_ninodes sb -> 0 <= bn -> bn * BSIZE < di_size (D' i) -> slot_addr g (D i) (file_slot bn) <> 0) -> fs_wf g' D'.
Proof using end_pos.
  intros [W1 W2 W3 W4 W5] Hs Hu Hd Hn. split.
  - intros i Hi. by apply Hd.
  - eapply (owners_ext _ _ _ end_pos); [| |exact W2]; [intros i k [Hi Hk]; by apply Hs|]. intros b Hb. apply Hu. lia.
  - intros b Hb. rewrite Hu by done. by apply W3.
  - intros i Hi. by apply Hd.
  - intros i bn Hi Hb Hsz. destruct (Hd i Hi) as [_ Hmax]. unfold BSIZE in *. rewrite Hs; [by apply Hn|done|]. apply file_slot_range. lia.
Qed.

(** Contents of blocks that are neither bitmap nor indirect blocks. *)
Lemma wf_blocks g g' D : fs_wf g D ->
  (forall i k, 0 <= i < sb_ninodes sb -> 0 <= k < NSLOTS -> slot_addr g' (D i) k = slot_addr g (D i) k) ->
  (forall b, 0 <= b < sb_size sb -> used g' sb b = used g sb b) -> fs_wf g' D.
Proof using end_pos. intros W Hs Hu. apply (wf_cong g D); try done; [|apply (wf_dense g D W)]. intros i Hi. split; [by apply (wf_dinode g D W)|by apply (wf_size g D W)]. Qed.

Lemma wf_inodes g D D' : (forall i, D' i = D i) -> fs_wf g D -> fs_wf g D'.
Proof using end_pos.
  intros E W. apply (wf_cong g D); try done; intros; rewrite ?E in *; try done; [|by apply (wf_dense g D W)].
  split; [by apply (wf_dinode g D W)|by apply (wf_size g D W)].
Qed.

(** A byte of a file depends on the block in its slot. *)
Lemma file_byte_eq g g' d d' o : slot_addr g' d' (file_slot (o / BSIZE)) = slot_addr g d (file_slot (o / BSIZE)) ->
  (slot_addr g d (file_slot (o / BSIZE)) <> 0 ->
   g' (slot_addr g d (file_slot (o / BSIZE))) = g (slot_addr g d (file_slot (o / BSIZE)))) ->
  file_byte g' d' o = file_byte g d o.
Proof using.
  intros E Hg. unfold file_byte. rewrite E. cbn zeta. destruct (Z.eqb_spec (slot_addr g d (file_slot (o / BSIZE))) 0); [done|]. by rewrite Hg.
Qed.

Lemma block_index o : 0 <= o < MAXFILE * BSIZE -> 0 <= o / BSIZE < MAXFILE.
Proof using. unfold BSIZE. intros Ho. split; [dlia|]. apply Z.div_lt_upper_bound; lia. Qed.

(** The free block [r] goes into the empty slot [k0] of inode [i0]. *)
Section attach.
Context (g g' : Z -> block) (D : Z -> dinode) (i0 k0 r : Z) (d' : dinode).
Context (W : fs_wf g D) (Hi0 : 0 <= i0 < sb_ninodes sb) (Hk0 : 0 <= k0 < NSLOTS) (Hempty : slot_addr g (D i0) k0 = 0).
Context (Hr : 0 <= r < sb_size sb) (Hfree : used g sb r = false).
Context (Hd : dinode_ok d') (Hsize : di_size d' = di_size (D i0)).
Context (Hslots : forall i k, 0 <= i < sb_ninodes sb -> 0 <= k < NSLOTS ->
  slot_addr g' (upd D i0 d' i) k = if (i =? i0) && (k =? k0) then r else slot_addr g (D i) k).
Context (Hused : forall b, 0 <= b < sb_size sb -> used g' sb b = if b =? r then true else used g sb b).
Context (Hkeep : forall i bn, 0 <= i < sb_ninodes sb -> 0 <= bn < MAXFILE -> slot_addr g (D i) (file_slot bn) <> 0 ->
  g' (slot_addr g (D i) (file_slot bn)) = g (slot_addr g (D i) (file_slot bn))).
Context (Hzero : k0 <> NDIRECT -> g' r = zero_block).

Lemma upd_size i : di_size (upd D i0 d' i) = di_size (D i).
Proof using Hsize. unfold upd. by destruct (Z.eqb_spec i i0) as [->|]. Qed.

Lemma attach_wf : fs_wf g' (upd D i0 d').
Proof using All.
  split.
  - intros i Hi. unfold upd. destruct (i =? i0); [done|by apply (wf_dinode g D W)].
  - eapply (owners_alloc (bmap_end sb) (sb_size sb) _ end_pos); [apply (wf_owners g D W)|done|done| |done| |].
    + split; [by apply (wf_meta g D W)|lia].
    + intros i k [Hi Hk]. by apply Hslots.
    + intros x Hx. apply Hused. lia.
  - intros b Hb. rewrite Hused by done. destruct (b =? r); [done|]. by apply (wf_meta g D W).
  - intros i Hi. rewrite upd_size. by apply (wf_size g D W).
  - intros i bn Hi Hb Hs. rewrite upd_size in Hs. pose proof (wf_size g D W i Hi). unfold BSIZE in *.
    assert (Hbn : 0 <= bn < MAXFILE) by lia. destruct (file_slot_range bn Hbn) as [Hs1 _].
    rewrite Hslots by done. destruct (_ && _); [|by apply (wf_dense g D W)].
    pose proof (wf_meta g D W r Hr Hfree). lia.
Qed.

Lemma attach_bytes i o : 0 <= i < sb_ninodes sb -> 0 <= o < MAXFILE * BSIZE -> file_byte g' (upd D i0 d' i) o = file_byte g (D i) o.
Proof using All.
  intros Hi Ho. pose proof (block_index o Ho) as Hb. destruct (file_slot_range _ Hb) as [Hs Hni].
  destruct (decide (i = i0 /\ file_slot (o / BSIZE) = k0)) as [[-> Ek]|Hne].
  - unfold file_byte. rewrite Hslots, Ek, Hempty, !Z.eqb_refl by done. cbn [andb]. cbn zeta. change (0 =? 0) with true. cbn match.
    destruct (r =? 0); [done|]. rewrite Hzero by congruence. unfold nthz, zero_block.
    rewrite lookup_replicate_2 by (unfold BSIZE in *; dlia). done.
  - apply file_byte_eq; [|by apply Hkeep]. rewrite Hslots by done.
    destruct (Z.eqb_spec i i0), (Z.eqb_spec (file_slot (o / BSIZE)) k0); cbn [andb]; done || (exfalso; by apply Hne).
Qed.
End attach.

(** A block of a file gets new contents. *)
Section rewrite_data.
Context (g g' : Z -> block) (D : Z -> dinode) (i0 bn0 : Z) (bl : block).
Context (W : fs_wf g D) (Hi0 : 0 <= i0 < sb_ninodes sb) (Hb0 : 0 <= bn0 < MAXFILE) (Hne0 : slot_addr g (D i0) (file_slot bn0) <> 0).
Context (Hg : forall k, g' k = if decide (k = slot_addr g (D i0) (file_slot bn0)) then bl else g k).
Context (Hlow : forall b, 0 <= b < sb_size sb -> BBLOCK b sb < bmap_end sb).

Lemma data_slots i k : 0 <= i < sb_ninodes sb -> slot_addr g' (D i) k = slot_addr g (D i) k.
Proof using W Hi0 Hb0 Hne0 Hg.
  intros Hi. apply slot_addr_ext. intros Hne. rewrite Hg, decide_False; [done|]. apply not_eq_sym. by apply (wf_file_indirect g D).
Qed.

Lemma data_wf : fs_wf g' D.
Proof using All.
  apply (wf_blocks g); [done|intros; by apply data_slots|]. intros b Hb. unfold used. rewrite Hg, decide_False; [done|].
  destruct (wf_file_block g D i0 bn0 W Hi0 Hb0 Hne0). specialize (Hlow b Hb). lia.
Qed.

Lemma data_byte i o : 0 <= i < sb_ninodes sb -> 0 <= o < MAXFILE * BSIZE ->
  file_byte g' (D i) o = if (i =? i0) && (o / BSIZE =? bn0) then nthz bl (o mod BSIZE) else file_byte g (D i) o.
Proof using W Hi0 Hb0 Hne0 Hg.
  intros Hi Ho. pose proof (block_index o Ho) as Hb. destruct (decide (i = i0 /\ o / BSIZE = bn0)) as [[-> E]|Hn].
  - unfold file_byte. rewrite data_slots, E, !Z.eqb_refl by done. cbn [andb]. cbn zeta.
    destruct (Z.eqb_spec (slot_addr g (D i0) (file_slot bn0)) 0); [done|]. by rewrite Hg, decide_True.
  - destruct (Z.eqb_spec i i0), (Z.eqb_spec (o / BSIZE) bn0); cbn [andb]; try (exfalso; by apply Hn).
    all: apply file_byte_eq; [by apply data_slots|]; intros Hne; rewrite Hg, decide_False; [done|]; intros E;
      destruct (wf_file_inj g D i (o / BSIZE) i0 bn0 W Hi Hi0 Hb Hb0 Hne E); congruence.
Qed.
End rewrite_data.
End wf.
