(* ===== verification/FsMap.v ===== *)
(** * bmap: from the blocks of a file to the blocks of the disk *)

From stdpp Require Import base gmap list numbers strings sets.
From Stdlib Require Import ZArith Lia.
From S2P Require Import Prelude Mem Spinlock Bytes Sleeplock Disk Bio BlockIO Fs FsSpec FsAlloc FsInode FsOwn.
Open Scope Z_scope.
Open Scope kernel_scope.

Lemma set_d_addr_ok d i a : dinode_ok d -> 0 <= a < 2 ^ 32 -> dinode_ok (set_d_addr d i a).
Proof.
  intros [K1 K2 K3 K4 K5 K6 K7] Ha. split; cbn; try done; unfold setz; [by rewrite length_insert|by apply Forall_insert].
Qed.

(** The fields [bmap] does not touch. *)
Definition same_meta (d d' : dinode) : Prop :=
  di_type d' = di_type d /\ di_major d' = di_major d /\ di_minor d' = di_minor d /\ di_nlink d' = di_nlink d /\ di_size d' = di_size d.

Section bmap.
Context {S H U : Type} {io : BlockIO S H} {spec : BlockSpec S H}.
Notation FS := (fsst S U).
Implicit Types (s : FS) (x : S) (P L : gset Z).
Context (sb : superblock).

(** Metadata, then the data area; every part is outside the log. *)
Record fs_layout : Prop := {
  ly_bitmap : bitmap_layout sb;
  ly_inodes : inodes_ok sb;
  ly_order : forall i, 0 <= i < sb_ninodes sb -> i / IPB + sb_inodestart sb < sb_bmapstart sb;
  ly_pos : 0 < bmap_end sb;
  ly_data : forall b, bmap_end sb <= b < sb_size sb -> io_home b
}.

Context (ip : nat) (D : Z -> dinode).

Definition G s : Z -> block := io_get (fs_io s).
Definition inum s : Z := i_inum (geti s ip).
Definition din s : dinode := i_d (geti s ip).
(** All inodes, with the copy of [ip] in memory. *)
Definition V s : Z -> dinode := upd D (inum s) (din s).
Definition A s (k : Z) : Z := slot_addr (G s) (din s) k.

(** A consistent file system in which [ip] is an inode in memory. *)
Record here s P L : Prop := {
  h_sb : fs_sb s = sb;
  h_ok : io_ok (fs_io s) P L;
  h_len : (ip < length (it_inode s))%nat;
  h_dev : i_dev (geti s ip) = io_dev;
  h_inum : 0 <= inum s < sb_ninodes sb;
  h_wf : fs_wf sb (G s) (V s)
}.

(** What a step that adds blocks in slots [N] to the inode does. *)
Record grown (N : Z -> Prop) s s' : Prop := {
  gr_state : exists d x, s' = set_io (seti s ip (set_i_d (geti s ip) d)) x /\ same_meta (din s) d;
  gr_slots : forall k, 0 <= k < NSLOTS -> A s' k = A s k \/ A s k = 0 /\ N k;
  gr_bytes : forall i o, 0 <= i < sb_ninodes sb -> 0 <= o < MAXFILE * BSIZE -> file_byte (G s') (V s' i) o = file_byte (G s) (V s i) o;
  gr_low : forall k, k < sb_bmapstart sb -> G s' k = G s k
}.

(** The blocks a step may add to the transaction. *)
Definition logged (N : Z -> Prop) s' P P' : Prop :=
  P ⊆ P' /\ forall b, b ∈ P' -> b ∈ P \/ in_bitmap sb b \/ exists k, N k /\ A s' k = b /\ b <> 0.
Definition full (g : Z -> block) : Prop := forall b, 0 <= b < sb_size sb -> used g sb b = true.

Context (ly : fs_layout).

Lemma V_self s : V s (inum s) = din s.
Proof using. apply upd_same. Qed.

Lemma din_ok s P L : here s P L -> dinode_ok (din s).
Proof using. intros [_ _ _ _ Hi W]. rewrite <- V_self. by apply (wf_dinode sb (G s) (V s) W). Qed.

Lemma addrs_len s P L : here s P L -> length (di_addrs (din s)) = Z.to_nat (NDIRECT + 1).
Proof using. intros Hh. by apply dk_len, (din_ok s P L). Qed.

Lemma metadata s P L : here s P L -> metadata_used (G s) sb.
Proof using ly.
  intros Hh b Hb Hf. pose proof (wf_meta _ _ _ (h_wf _ _ _ Hh) b Hb Hf). pose proof (ly_pos ly).
  split_and!; [lia|done|]. apply (ly_data ly). lia.
Qed.

Lemma seti_geti_d s d : (ip < length (it_inode s))%nat -> geti (seti s ip (set_i_d (geti s ip) d)) ip = set_i_d (geti s ip) d.
Proof using. apply geti_seti. Qed.

(** Only block contents changed. *)
Lemma here_io s P L P' L' x : here s P L -> io_ok x P' L' -> (forall k, io_get x k = G s k) -> here (set_io s x) P' L'.
Proof using.
  intros [H1 H2 H3 H4 H5 H6] Hok Hg. split; try done. change (V (set_io s x)) with (V s).
  destruct H6 as [W1 W2 W3 W4 W5]. assert (Hu : forall b, used (io_get x) sb b = used (G s) sb b) by (intros; by apply used_ext).
  assert (Ha : forall i k, slot_addr (io_get x) (V s i) k = slot_addr (G s) (V s i) k) by (intros; apply slot_addr_ext; intros; apply Hg).
  split; try done.
  - destruct W2 as [O1 O2 O3]. split; intros *; change (G (set_io s x)) with (io_get x); rewrite ?Ha, ?Hu; eauto.
    intros Hb Hub. destruct (O3 _ Hb Hub) as (i & k & Hs & E). exists i, k. by rewrite Ha.
  - intros b Hb. change (G (set_io s x)) with (io_get x). rewrite Hu. by apply W3.
  - intros i bn. change (G (set_io s x)) with (io_get x). rewrite Ha. apply W5.
Qed.

Lemma grown_io N s x : (forall k, io_get x k = G s k) -> (ip < length (it_inode s))%nat -> grown N s (set_io s x).
Proof using.
  intros Hg Hl. split.
  - exists (din s), x. split; [|done]. unfold din. replace (set_i_d (geti s ip) (i_d (geti s ip))) with (geti s ip) by (by destruct (geti s ip)).
    by rewrite seti_geti.
  - intros k Hk. left. apply slot_addr_ext. intros _. apply Hg.
  - intros i o Hi Ho. apply file_byte_eq; [|intros _; apply Hg]. apply slot_addr_ext. intros _. apply Hg.
  - intros k _. apply Hg.
Qed.

Lemma grown_trans N s1 s2 s3 : (ip < length (it_inode s1))%nat -> grown N s1 s2 -> grown N s2 s3 -> grown N s1 s3.
Proof using.
  intros Hl [(d2 & x2 & E2 & M2) S2 B2 L2] [(d3 & x3 & E3 & M3) S3 B3 L3].
  assert (Eg : geti s2 ip = set_i_d (geti s1 ip) d2) by (subst s2; by apply seti_geti_d).
  split.
  - exists d3, x3. rewrite Eg in E3. split.
    + rewrite E3, E2. unfold seti, set_inodes, set_io. cbn. by rewrite list_insert_insert_eq.
    + unfold din in *. rewrite Eg in M3. cbn in M3. unfold same_meta in *. intuition congruence.
  - intros k Hk. destruct (S2 k Hk) as [Ea|[Ea Hn]], (S3 k Hk) as [Eb|[Eb Hn']]; rewrite ?Ea in *; auto.
    all: right; split; [congruence|done].
  - intros i o Hi Ho. rewrite B3, B2; done.
  - intros k Hk. rewrite L3, L2; done.
Qed.

(** A block fresh from [balloc]. *)
Record fresh s P L r x : Prop := {
  fr_range : 0 < r < sb_size sb;
  fr_ok : io_ok x ({[r]} ∪ ({[BBLOCK r sb]} ∪ P)) L;
  fr_free : used (G s) sb r = false;
  fr_zero : io_get x r = zero_block;
  fr_used : forall b, 0 <= b < sb_size sb -> used (io_get x) sb b = if b =? r then true else used (G s) sb b;
  fr_other : forall k, k <> r -> ~ in_bitmap sb k -> io_get x k = G s k
}.

Lemma balloc_here s P L : here s P L -> held_files (G s) sb L -> (size (P ∪ L) + 2 <= NBUF)%nat -> Z.of_nat (size P) + 2 <= LOGBLOCKS ->
  exists r x, balloc io_dev s = Ok r (set_io s x) /\ keeps_at (fs_io s) x L /\
    ((r = 0 /\ io_ok x P L /\ full (G s) /\ forall k, io_get x k = G s k) \/ fresh s P L r x).
Proof using ly.
  intros Hh Hheld Hroom Hlog.
  destruct (balloc_first_free sb (ly_bitmap ly) s P L (h_sb _ _ _ Hh) (h_ok _ _ _ Hh) (metadata s P L Hh) Hheld Hroom Hlog)
    as (r & x & E & Hk & [(-> & H1 & H2 & H3)|(H1 & H2 & H3 & _ & H4 & H5 & H6)]).
  - exists 0, x. split_and!; [done|done|]. by left.
  - exists r, x. split_and!; [done|done|]. by right.
Qed.

Lemma fresh_kept s P L r x b : fresh s P L r x -> bmap_end sb <= b < sb_size sb -> used (G s) sb b = true -> io_get x b = G s b.
Proof using.
  intros F Hb Hu. apply (fr_other _ _ _ _ _ F); [|unfold in_bitmap; lia]. intros ->. by rewrite (fr_free _ _ _ _ _ F) in Hu.
Qed.

Lemma fresh_slots s P L P0 L0 r x i k : here s P0 L0 -> fresh s P L r x -> 0 <= i < sb_ninodes sb ->
  slot_addr (io_get x) (V s i) k = slot_addr (G s) (V s i) k.
Proof using.
  intros Hh F Hi. apply slot_addr_ext. intros Hne. destruct (wf_indirect sb _ _ i (h_wf _ _ _ Hh) Hi Hne) as [Hr Hu]. by eapply fresh_kept.
Qed.

Lemma fresh_low s P L r x k : fresh s P L r x -> fs_wf sb (G s) (V s) -> k < sb_bmapstart sb -> io_get x k = G s k.
Proof using ly.
  intros F W Hk. pose proof (bl_size _ (ly_bitmap ly)). pose proof (fr_range _ _ _ _ _ F).
  apply (fr_other _ _ _ _ _ F); [|unfold in_bitmap; lia].
  pose proof (wf_meta _ _ _ W r ltac:(lia) (fr_free _ _ _ _ _ F)). unfold bmap_end, BPB, BSIZE in *.
  assert (0 <= (sb_size sb + 1024 * 8 - 1) / (1024 * 8)) by dlia. lia.
Qed.

Lemma bitmap_of r : 0 <= r < sb_size sb -> in_bitmap sb (BBLOCK r sb).
Proof using ly. intros Hr. apply (BBLOCK_range sb r (ly_bitmap ly) Hr). Qed.

(** The in-memory inode gets the fresh block [r] in slot [k0]; [g'] is the
    file system with the new contents [y] of the blocks. *)
Lemma grow_slot (N : Z -> Prop) s P L P' L' r x y d k0 : here s P L -> fresh s P L r x -> 0 <= k0 < NSLOTS -> A s k0 = 0 -> N k0 ->
  dinode_ok d -> same_meta (din s) d -> io_ok y P' L' ->
  (forall i k, 0 <= i < sb_ninodes sb -> 0 <= k < NSLOTS ->
     slot_addr (io_get y) (upd (V s) (inum s) d i) k = if (i =? inum s) && (k =? k0) then r else slot_addr (G s) (V s i) k) ->
  (forall b, b <> nthz (di_addrs (din s)) NDIRECT \/ nthz (di_addrs (din s)) NDIRECT = 0 -> io_get y b = io_get x b) ->
  let s' := set_io (seti s ip (set_i_d (geti s ip) d)) y in
  here s' P' L' /\ grown N s s' /\ A s' k0 = r.
Proof using ly.
  intros Hh F Hk0 H0 HN Hd Hm Hok Hsl Hy s'. pose proof Hh as [E1 E2 E3 E4 E5 W]. pose proof F as [R1 R2 R3 R4 R5 R6].
  assert (Eg : geti s' ip = set_i_d (geti s ip) d) by (by apply seti_geti_d).
  assert (Ei : inum s' = inum s) by (unfold inum; by rewrite Eg).
  assert (Ed : din s' = d) by (unfold din; by rewrite Eg).
  assert (EV : forall i, V s' i = upd (V s) (inum s) d i).
  { intros i. unfold V. rewrite Ei, Ed. unfold upd. by destruct (i =? inum s). }
  pose proof (wf_meta _ _ _ W r ltac:(lia) R3) as Hrd. pose proof (bl_size _ (ly_bitmap ly)) as Hbs. pose proof (bl_start _ (ly_bitmap ly)) as Hbst.
  assert (HI : nthz (di_addrs (din s)) NDIRECT <> 0 ->
    bmap_end sb <= nthz (di_addrs (din s)) NDIRECT < sb_size sb /\ used (G s) sb (nthz (di_addrs (din s)) NDIRECT) = true).
  { rewrite <- V_self. by apply (wf_indirect sb _ _ _ W). }
  assert (Hyr : io_get y r = zero_block).
  { rewrite Hy; [done|]. destruct (decide (nthz (di_addrs (din s)) NDIRECT = 0)) as [|Hne]; [by right|left]. intros Er.
    destruct (HI Hne) as [_ Hu]. rewrite <- Er, R3 in Hu. done. }
  assert (Hbit : forall b, b < bmap_end sb -> io_get y b = io_get x b).
  { intros b Hb. apply Hy. destruct (decide (nthz (di_addrs (din s)) NDIRECT = 0)) as [|Hne]; [by right|left]. destruct (HI Hne). lia. }
  assert (Husd : forall b, 0 <= b < sb_size sb -> used (io_get y) sb b = if b =? r then true else used (G s) sb b).
  { intros b Hb. rewrite <- R5 by done. unfold used. rewrite Hbit; [done|]. apply bitmap_of. done. }
  assert (Hkeep : forall i bn, 0 <= i < sb_ninodes sb -> 0 <= bn < MAXFILE -> slot_addr (G s) (V s i) (file_slot bn) <> 0 ->
    io_get y (slot_addr (G s) (V s i) (file_slot bn)) = G s (slot_addr (G s) (V s i) (file_slot bn))).
  { intros i bn Hi Hb Hne. destruct (wf_file_block sb _ _ i bn W Hi Hb Hne) as [Hr Hu]. rewrite Hy; [by eapply fresh_kept|].
    left. rewrite <- V_self. by apply (wf_file_indirect sb _ _ _ _ _ W). }
  assert (Hemp : slot_addr (G s) (V s (inum s)) k0 = 0) by (by rewrite V_self).
  assert (Hsz : di_size d = di_size (V s (inum s))) by (rewrite V_self; apply Hm).
  split_and!.
  - split; [done|done|cbn; by rewrite length_insert|by rewrite Eg|by rewrite Ei|].
    apply (wf_inodes sb (ly_pos ly) _ (upd (V s) (inum s) d)); [done|].
    apply (attach_wf sb (ly_pos ly) (G s) (io_get y) (V s) (inum s) k0 r d W); try done; lia.
  - split.
    + by exists d, y.
    + intros k Hk. unfold A. rewrite Ed. change (G s') with (io_get y). rewrite <- (upd_same (V s) (inum s) d), Hsl by done.
      rewrite Z.eqb_refl, V_self. destruct (Z.eqb_spec k k0) as [->|]; [right|left]; done.
    + intros i o Hi Ho. rewrite EV. apply (attach_bytes sb (ly_pos ly) (G s) (io_get y) (V s) (inum s) k0 r d W); try done; lia.
    + intros k Hk. change (G s' k) with (io_get y k). rewrite Hbit; [by eapply fresh_low|]. pose proof (bitmap_of r ltac:(lia)). unfold in_bitmap in *. lia.
  - unfold A. rewrite Ed. change (G s') with (io_get y). rewrite <- (upd_same (V s) (inum s) d), Hsl by done. by rewrite !Z.eqb_refl.
Qed.

(** Slot [j] of the inode itself: a direct block or the indirect block. *)
Definition alloc_slot (j : Z) : M FS Z :=
  addr <- balloc io_dev ;;
  if addr =? 0 then ret 0 else updd ip (fun d => set_d_addr d j addr) ;;; ret addr.

Lemma alloc_slot_ok (N : Z -> Prop) s P j : here s P ∅ -> 0 <= j <= NDIRECT -> A s j = 0 -> N j ->
  (size P + 2 <= NBUF)%nat -> Z.of_nat (size P) + 2 <= LOGBLOCKS ->
  exists r s' P', alloc_slot j s = Ok r s' /\ here s' P' ∅ /\ grown N s s' /\ logged N s' P P' /\ A s' j = r /\ (size P' <= size P + 2)%nat /\
    (r = 0 -> full (G s') /\ P' = P).
Proof using ly.
  intros Hh Hj H0 HN Hroom Hlog. assert (Hns : NSLOTS = 269) by reflexivity. assert (Hnd : NDIRECT = 12) by reflexivity.
  destruct (balloc_here s P ∅ Hh) as (r & x & E & _ & [(-> & Hok & Hfull & Hg)|F]); [by intros b Hb%elem_of_empty|by rewrite union_empty_r_L|done| |].
  - exists 0, (set_io s x), P. unfold alloc_slot. step_with E. cbn [Z.eqb].
    assert (Hgr : grown N s (set_io s x)) by (apply grown_io; [done|apply (h_len _ _ _ Hh)]).
    split_and!; [done|by apply (here_io s P ∅)|done|split; [done|by left]| |lia|intros _; split; [|done]].
    + unfold A. rewrite (slot_addr_ext (G s)); [done|]. intros _. apply Hg.
    + intros b Hb. change (G (set_io s x)) with (io_get x). rewrite (used_ext sb (G s)) by done. by apply Hfull.
  - pose proof F as [R1 R2 R3 R4 R5 R6]. set (d := set_d_addr (din s) j r). pose proof (bl_size _ (ly_bitmap ly)). pose proof (bl_width _ (ly_bitmap ly)).
    assert (Hl : length (di_addrs (din s)) = Z.to_nat (NDIRECT + 1)) by (by eapply addrs_len).
    set (P' := {[r]} ∪ ({[BBLOCK r sb]} ∪ P)).
    destruct (grow_slot N s P ∅ P' ∅ r x x d j Hh F) as (Hh' & Hgr & HA); try done.
    + lia.
    + apply set_d_addr_ok; [by eapply din_ok|lia].
    + intros i k Hi Hk. destruct (Z.eqb_spec i (inum s)) as [->|Hne]; cbn [andb].
      * rewrite upd_same, V_self. unfold d. assert (Hs : slot_addr (io_get x) (din s) k = slot_addr (G s) (din s) k).
        { rewrite <- V_self. eapply fresh_slots; [exact Hh|done|apply (h_inum _ _ _ Hh)]. }
        destruct (decide (j = NDIRECT)) as [->|].
        -- rewrite slot_addr_set_indirect, Hs; [done|done|done| |done]. rewrite <- H0. unfold A. by rewrite slot_addr_low by lia.
        -- rewrite slot_addr_set_direct, Hs; [done|lia..|done].
      * rewrite upd_other by done. eapply fresh_slots; done.
    + eexists r, _, P'. unfold alloc_slot. step_with E. destruct (Z.eqb_spec r 0); [lia|].
      split_and!; [reflexivity|done|done| |done| |lia].
      * split; [set_solver|]. intros b [->%elem_of_singleton|[->%elem_of_singleton|Hb]%elem_of_union]%elem_of_union; [right; right|right; left|by left].
        -- exists j. split_and!; [done|done|lia].
        -- apply bitmap_of. lia.
      * unfold P'. pose proof (size_add_le r ({[BBLOCK r sb]} ∪ P)). pose proof (size_add_le (BBLOCK r sb) P). lia.
Qed.

(** Entry [bn] of the indirect block [ind]. *)
Definition map_entry (ind bn : Z) : M FS Z :=
  bp <- blk (io_bread io_dev ind) ;;
  a <- blk (io_data bp) ;;
  addr <- (if get_addr a bn =? 0 then
             addr <- balloc io_dev ;;
             when (negb (addr =? 0)) (
               blk (io_set_data bp (put_addr a bn addr)) ;;;
               blk (io_log_write bp)) ;;;
             ret addr
           else ret (get_addr a bn)) ;;
  blk (io_brelse bp) ;;;
  ret addr.

Lemma bmap_unfold s bn : i_dev (geti s ip) = io_dev -> bmap ip bn s =
  (if bn <? NDIRECT then if A s bn =? 0 then alloc_slot bn s else ret (A s bn) s
   else if bn - NDIRECT <? NINDIRECT then
     (ind <- (if A s NDIRECT =? 0 then alloc_slot NDIRECT else ret (A s NDIRECT)) ;;
      if ind =? 0 then ret 0 else map_entry ind (bn - NDIRECT)) s
   else panic "bmap: out of range" s).
Proof using.
  intros Hdev. unfold bmap, alloc_slot, map_entry, A. unfold bind at 1, get. rewrite Hdev.
  rewrite (slot_addr_low _ _ NDIRECT) by lia. destruct (Z.ltb_spec bn NDIRECT); [|by destruct (_ <? _)].
  rewrite slot_addr_low by lia. by destruct (_ =? 0).
Qed.

(** An entry that is there, over any block interface. *)
Lemma map_entry_present s P L ind bn : io_ok (fs_io s) P L -> 0 <= ind < io_nblocks -> ind ∉ L -> ind ∈ P \/ (size (P ∪ L) < NBUF)%nat ->
  get_addr (G s ind) bn <> 0 ->
  exists x, map_entry ind bn s = Ok (get_addr (G s ind) bn) (set_io s x) /\ io_ok x P L /\ (forall k, io_get x k = G s k) /\ keeps_at (fs_io s) x L.
Proof using.
  intros Hok Hi HL Hroom Hne. destruct (open_block _ P L ind Hok Hi HL Hroom) as (h & x1 & E1 & E2 & _ & _ & _ & _ & _ & x2 & E3 & H3).
  exists x2. split; [|done]. unfold map_entry. step_with (blk_ok _ _ _ _ E1). step_with (blk_ok (io_data h) (set_io s x1) _ _ E2). fold (G s).
  destruct (Z.eqb_spec (get_addr (G s ind) bn) 0); [done|]. unfold bind at 1, ret at 1. by step_with (blk_ok (io_brelse h) (set_io s x1) _ _ E3).
Qed.

Lemma held_indirect s P L : here s P L -> A s NDIRECT <> 0 -> bmap_end sb <= A s NDIRECT < sb_size sb /\ used (G s) sb (A s NDIRECT) = true.
Proof using.
  intros Hh. unfold A. rewrite slot_addr_low by lia. rewrite <- V_self. apply (wf_indirect _ _ _ _ (h_wf _ _ _ Hh)), (h_inum _ _ _ Hh).
Qed.

Lemma entry_slot s bn : 0 <= bn -> A s NDIRECT <> 0 -> A s (NDIRECT + 1 + bn) = get_addr (G s (A s NDIRECT)) bn.
Proof using.
  intros Hb Hi. unfold A in *. rewrite (slot_addr_low _ _ NDIRECT) in * by lia. unfold slot_addr.
  destruct (Z.leb_spec (NDIRECT + 1 + bn) NDIRECT); [lia|]. cbn zeta. destruct (Z.eqb_spec (nthz (di_addrs (din s)) NDIRECT) 0); [done|].
  do 2 f_equal. lia.
Qed.

Lemma set_io_same s x : (ip < length (it_inode s))%nat -> set_io (seti s ip (set_i_d (geti s ip) (din s))) x = set_io s x.
Proof using.
  intros Hl. unfold din. replace (set_i_d (geti s ip) (i_d (geti s ip))) with (geti s ip) by (by destruct (geti s ip)). by rewrite seti_geti.
Qed.

(** The indirect block is open and its entry is empty. *)
Lemma map_entry_open s P bn : here s P ∅ -> A s NDIRECT <> 0 -> 0 <= bn -> A s (NDIRECT + 1 + bn) = 0 -> (size P < NBUF)%nat ->
  exists h x1, map_entry (A s NDIRECT) bn s =
      (addr <- balloc io_dev ;;
       when (negb (addr =? 0)) (blk (io_set_data h (put_addr (G s (A s NDIRECT)) bn addr)) ;;; blk (io_log_write h)) ;;;
       blk (io_brelse h) ;;; ret addr) (set_io s x1) /\
    here (set_io s x1) P ({[A s NDIRECT]} ∪ ∅) /\ io_at x1 h (A s NDIRECT) /\ (forall k, io_get x1 k = G s k) /\
    (forall k, io_dur x1 k = io_dur (fs_io s) k) /\ held_files (G (set_io s x1)) sb ({[A s NDIRECT]} ∪ ∅).
Proof using ly.
  intros Hh Hind Hbn H0 Hroom. set (ind := A s NDIRECT) in *. destruct (held_indirect s P ∅ Hh Hind) as [Hir Hiu]. fold ind in Hir, Hiu.
  pose proof (bl_size _ (ly_bitmap ly)) as Hbs. pose proof (ly_pos ly) as Hpos.
  destruct (open_block _ P ∅ ind (h_ok _ _ _ Hh) ltac:(lia) ltac:(set_solver) ltac:(right; rewrite union_empty_r_L; lia))
    as (h & x1 & E1 & E2 & Hok1 & Hat & Hg1 & Hd1 & _).
  rewrite (entry_slot s) in H0 by (done || lia). fold ind in H0. exists h, x1. split_and!; try done.
  - unfold map_entry. step_with (blk_ok _ _ _ _ E1). step_with (blk_ok (io_data h) (set_io s x1) _ _ E2). fold (G s). rewrite H0. cbn [Z.eqb].
    rewrite bind_assoc. apply bind_ext. intros a s2. by rewrite bind_assoc.
  - by apply (here_io s P ∅).
  - intros b [->%elem_of_singleton|[]%elem_of_empty]%elem_of_union. split; [lia|].
    change (G (set_io s x1)) with (io_get x1). by rewrite (used_ext sb (G s)).
Qed.

(** A fresh block is recorded in the open indirect block. *)
Lemma entry_attach (N : Z -> Prop) s P bn h r x : here s P ({[A s NDIRECT]} ∪ ∅) -> A s NDIRECT <> 0 -> 0 <= bn < NINDIRECT ->
  A s (NDIRECT + 1 + bn) = 0 -> N (NDIRECT + 1 + bn) -> Z.of_nat (size P) + 3 <= LOGBLOCKS ->
  fresh s P ({[A s NDIRECT]} ∪ ∅) r x -> io_at x h (A s NDIRECT) ->
  let P' := {[A s NDIRECT]} ∪ ({[r]} ∪ ({[BBLOCK r sb]} ∪ P)) in
  exists y, (blk (io_set_data h (put_addr (G s (A s NDIRECT)) bn r)) ;;; blk (io_log_write h) ;;; blk (io_brelse h) ;;; ret r) (set_io s x) = Ok r (set_io s y) /\
    here (set_io s y) P' ∅ /\ grown N s (set_io s y) /\ A (set_io s y) (NDIRECT + 1 + bn) = r /\ A (set_io s y) NDIRECT = A s NDIRECT.
Proof using ly.
  intros Hh Hind Hbn H0 HN Hlog F Hat P'. set (ind := A s NDIRECT) in *. pose proof F as [R1 R2 R3 R4 R5 R6].
  destruct (held_indirect s _ _ Hh Hind) as [Hir Hiu]. fold ind in Hir, Hiu. pose proof (bl_size _ (ly_bitmap ly)). pose proof (bl_width _ (ly_bitmap ly)).
  pose proof (ly_pos ly). pose proof (size_add_le r ({[BBLOCK r sb]} ∪ P)). pose proof (size_add_le (BBLOCK r sb) P).
  assert (Hbi : is_block (G s ind)) by apply (io_block _ _ _ ind (h_ok _ _ _ Hh)).
  destruct (rewrite_block x _ ∅ h ind (put_addr (G s ind) bn r) R2 Hat) as (y1 & y2 & y & E1 & E2 & E3 & Hok & Hg & _);
    [lia|apply (ly_data ly); lia|set_solver|lia|by apply put_addr_block|].
  assert (Ei : nthz (di_addrs (din s)) NDIRECT = ind) by (unfold ind, A; by rewrite slot_addr_low by lia).
  assert (Hk0 : 0 <= NDIRECT + 1 + bn < NSLOTS) by (unfold NSLOTS, NDIRECT; lia).
  assert (Hrun : (blk (io_set_data h (put_addr (G s ind) bn r)) ;;; blk (io_log_write h) ;;; blk (io_brelse h) ;;; ret r) (set_io s x) = Ok r (set_io s y)).
  { step_with (blk_ok _ (set_io s x) _ _ E1). step_with (blk_ok (io_log_write h) (set_io s y1) _ _ E2). by step_with (blk_ok (io_brelse h) (set_io s y2) _ _ E3). }
  destruct (grow_slot N s P _ P' ∅ r x y (din s) (NDIRECT + 1 + bn) Hh F) as (Hh' & Hgr & HA); try done.
  - by eapply din_ok.
  - intros i k Hi Hk. destruct (Z.eqb_spec i (inum s)) as [->|Hne]; cbn [andb].
    + rewrite upd_same, V_self. apply slot_addr_set_entry; rewrite ?Ei; try done; [lia|]. by rewrite Hg, decide_True.
    + rewrite upd_other by done. rewrite <- (fresh_slots s P _ _ _ r x i k Hh F Hi). apply slot_addr_ext. intros Hne'. rewrite Hg, decide_False; [done|].
      intros E. rewrite <- Ei, <- V_self in E. rewrite <- !(slot_addr_low (G s) _ NDIRECT) in E, Hne' by lia.
      destruct (ow_inj _ _ _ _ _ (wf_owners _ _ _ (h_wf _ _ _ Hh)) i NDIRECT (inum s) NDIRECT) as [-> _]; try done; split; try done. apply (h_inum _ _ _ Hh).
  - intros b [Hb|Hb]; rewrite Ei in Hb; [|done]. by rewrite Hg, decide_False.
  - rewrite set_io_same in Hh', Hgr, HA by apply (h_len _ _ _ Hh). exists y. split_and!; [done..|].
    unfold A at 1. rewrite slot_addr_low by lia. exact Ei.
Qed.

Lemma map_entry_new (N : Z -> Prop) s P bn : here s P ∅ -> A s NDIRECT <> 0 -> 0 <= bn < NINDIRECT -> A s (NDIRECT + 1 + bn) = 0 ->
  N NDIRECT -> N (NDIRECT + 1 + bn) -> (size P + 3 <= NBUF)%nat -> Z.of_nat (size P) + 3 <= LOGBLOCKS ->
  exists r s' P', map_entry (A s NDIRECT) bn s = Ok r s' /\ here s' P' ∅ /\ grown N s s' /\ logged N s' P P' /\
    A s' (NDIRECT + 1 + bn) = r /\ (r = 0 -> full (G s')).
Proof using ly.
  intros Hh Hind Hbn H0 HN1 HN2 Hroom Hlog.
  destruct (map_entry_open s P bn Hh Hind ltac:(lia) H0 ltac:(lia)) as (h & x1 & Em & Hh1 & Hat & Hg1 & Hd1 & Hheld).
  set (ind := A s NDIRECT) in *. set (s1 := set_io s x1) in *. assert (Hin : ind ∈ {[ind]} ∪ (∅ : gset Z)) by set_solver.
  pose proof (size_add_le ind P) as Hsz. pose proof (h_len _ _ _ Hh) as Hlen.
  destruct (balloc_here s1 P _ Hh1 Hheld ltac:(rewrite union_empty_r_L, union_comm_L; lia) ltac:(lia)) as (r & x2 & Eb & Hk & [(-> & Hok2 & Hfull & Hg2)|F]).
  - destruct (io_brelse_ok x2 P _ h ind Hok2 Hin (proj1 Hk _ _ Hin Hat)) as (x3 & E4 & Hok3 & Hg3 & _).
    { destruct (decide (ind ∈ P)); [by left|right]. rewrite Hg2, (proj2 Hk). change (G s1 ind) with (io_get x1 ind). rewrite Hg1. cbn [s1 fs_io set_io].
      rewrite Hd1. apply (io_clean _ P ∅ _ (h_ok _ _ _ Hh)). set_solver. }
    rewrite (remove_added ind ∅) in Hok3 by set_solver.
    assert (Hg : forall k, io_get x3 k = G s k) by (intros k; rewrite Hg3, Hg2; apply Hg1).
    exists 0, (set_io s x3), P. split_and!; [|by apply (here_io s P ∅)|by apply grown_io|by split; [|left]| |].
    + rewrite Em. step_with Eb. cbn [Z.eqb negb when]. unfold bind at 1, ret at 1. by step_with (blk_ok (io_brelse h) (set_io s1 x2) _ _ E4).
    + rewrite <- H0. apply slot_addr_ext. intros _. apply Hg.
    + intros _ b Hb. change (G (set_io s x3)) with (io_get x3). rewrite (used_ext sb (G s1)); [by apply Hfull|]. intros i. rewrite Hg. symmetry. apply Hg1.
  - assert (HA1 : forall k, A s1 k = A s k) by (intros k; apply slot_addr_ext; intros _; apply Hg1).
    destruct (entry_attach N s1 P bn h r x2) as (y & Er & Hh' & Hgr & HA & HI); rewrite ?HA1; try done.
    { by apply (proj1 Hk). }
    rewrite HA1 in Er, Hh', HI. fold ind in Er, Hh', HI. change (G s1 ind) with (io_get x1 ind) in Er. rewrite Hg1 in Er.
    pose proof (fr_range _ _ _ _ _ F) as Hr. eexists r, _, _. split_and!; [|exact Hh'| | |exact HA|lia].
    + rewrite Em. step_with Eb. destruct (Z.eqb_spec r 0); [lia|]. cbn [negb when]. rewrite bind_assoc. exact Er.
    + eapply grown_trans; [done| |exact Hgr]. by apply grown_io.
    + split; [set_solver|]. intros b. rewrite !elem_of_union, !elem_of_singleton. intros [->|[->|[->|Hb]]]; [right; right|right; right|right; left|by left].
      * exists NDIRECT. by split_and!.
      * exists (NDIRECT + 1 + bn). split_and!; [done..|lia].
      * apply bitmap_of. lia.
Qed.

(** A block that is there: over any block interface, nothing changes. *)
Lemma bmap_present s P L bn : here s P L -> 0 < bmap_end sb -> sb_size sb <= io_nblocks -> 0 <= bn < MAXFILE -> A s (file_slot bn) <> 0 ->
  A s NDIRECT ∉ L -> (size (P ∪ L) < NBUF)%nat ->
  exists x, bmap ip bn s = Ok (A s (file_slot bn)) (set_io s x) /\ io_ok x P L /\ (forall k, io_get x k = G s k) /\ keeps_at (fs_io s) x L.
Proof using.
  intros Hh Hpos Hn Hbn Hne HL Hroom. rewrite bmap_unfold by apply (h_dev _ _ _ Hh). unfold file_slot in *. destruct (Z.ltb_spec bn NDIRECT).
  - destruct (Z.eqb_spec (A s bn) 0); [done|]. exists (fs_io s). split_and!; [by destruct s|apply (h_ok _ _ _ Hh)|done|by split].
  - unfold MAXFILE in Hbn. destruct (Z.ltb_spec (bn - NDIRECT) NINDIRECT); [|lia].
    assert (Hind : A s NDIRECT <> 0).
    { intros E. apply Hne. unfold A in *. rewrite slot_addr_low in E by lia. unfold slot_addr. rewrite E. destruct (Z.leb_spec (bn + 1) NDIRECT); [lia|done]. }
    destruct (Z.eqb_spec (A s NDIRECT) 0); [done|]. unfold bind at 1, ret at 1. cbn beta iota. destruct (Z.eqb_spec (A s NDIRECT) 0); [done|].
    replace (bn + 1) with (NDIRECT + 1 + (bn - NDIRECT)) in * by lia. rewrite entry_slot in * by (done || lia).
    destruct (held_indirect s P L Hh Hind) as [Hir _]. apply (map_entry_present s P L); auto; [apply (h_ok _ _ _ Hh)|lia].
Qed.

(** The slots [bmap] may fill for block [bn] of a file. *)
Definition slots_of (bn k : Z) : Prop := k = file_slot bn \/ NDIRECT <= bn /\ k = NDIRECT.

Lemma slots_of_range bn k : 0 <= bn < MAXFILE -> slots_of bn k -> 0 <= k < NSLOTS.
Proof using. intros Hb [->|[_ ->]]; [by apply file_slot_range|done]. Qed.

Lemma grown_mono (N N' : Z -> Prop) s s' : (forall k, N k -> N' k) -> grown N s s' -> grown N' s s'.
Proof using. intros HN [G1 G2 G3 G4]. split; try done. intros k Hk. destruct (G2 k Hk) as [|[? ?]]; auto. Qed.
Lemma logged_mono (N N' : Z -> Prop) s' P P' : (forall k, N k -> N' k) -> logged N s' P P' -> logged N' s' P P'.
Proof using. intros HN [L1 L2]. split; [done|]. intros b Hb. destruct (L2 b Hb) as [|[|(k & ? & ?)]]; [by left|by right; left|]. right; right. exists k. auto. Qed.

(** The indirect block, allocated when it is not there. *)
Lemma indirect_ok s P : here s P ∅ -> (size P + 2 <= NBUF)%nat -> Z.of_nat (size P) + 2 <= LOGBLOCKS ->
  exists s1 P1, (if A s NDIRECT =? 0 then alloc_slot NDIRECT else ret (A s NDIRECT)) s = Ok (A s1 NDIRECT) s1 /\ here s1 P1 ∅ /\
    grown (fun k => k = NDIRECT) s s1 /\ logged (fun k => k = NDIRECT) s1 P P1 /\ (size P1 <= size P + 2)%nat /\ (A s1 NDIRECT = 0 -> full (G s1)).
Proof using ly.
  intros Hh Hroom Hlog. destruct (Z.eqb_spec (A s NDIRECT) 0) as [E0|Hne].
  - destruct (alloc_slot_ok (fun k => k = NDIRECT) s P NDIRECT Hh ltac:(unfold NDIRECT; lia) E0 eq_refl) as (r & s1 & P1 & E & Hh1 & Hg & Hl & HA & Hs & Hf); [lia|lia|].
    exists s1, P1. rewrite HA. split_and!; try done. intros Hr0. by apply Hf.
  - exists s, P. split_and!; try done; [|by split; [|left]|lia]. replace s with (set_io s (fs_io s)) at 2 by (by destruct s).
    apply grown_io; [done|apply (h_len _ _ _ Hh)].
Qed.

(** Blocks reached through the indirect block. *)
Lemma bmap_indirect s P bn : here s P ∅ -> 0 <= bn < NINDIRECT -> A s (NDIRECT + 1 + bn) = 0 ->
  (size P + 5 <= NBUF)%nat -> Z.of_nat (size P) + 5 <= LOGBLOCKS ->
  let N k := k = NDIRECT + 1 + bn \/ k = NDIRECT in
  exists s' P', (ind <- (if A s NDIRECT =? 0 then alloc_slot NDIRECT else ret (A s NDIRECT)) ;;
                 if ind =? 0 then ret 0 else map_entry ind bn) s = Ok (A s' (NDIRECT + 1 + bn)) s' /\
    here s' P' ∅ /\ grown N s s' /\ logged N s' P P' /\ (A s' (NDIRECT + 1 + bn) = 0 -> full (G s')).
Proof using ly.
  intros Hh Hbn H0 Hroom Hlog N. assert (Hk0 : 0 <= NDIRECT + 1 + bn < NSLOTS) by (unfold NSLOTS, NDIRECT; lia).
  destruct (indirect_ok s P Hh ltac:(lia) ltac:(lia)) as (s1 & P1 & E1 & Hh1 & Hg1 & Hl1 & Hs1 & Hf1). step_with E1.
  assert (HA1 : A s1 (NDIRECT + 1 + bn) = 0) by (destruct (gr_slots _ _ _ Hg1 _ Hk0) as [E|[_ E]]; [congruence|lia]).
  apply (grown_mono _ N) in Hg1; [|by right]. apply (logged_mono _ N) in Hl1; [|by right].
  destruct (Z.eqb_spec (A s1 NDIRECT) 0) as [Ez|Hnz].
  { exists s1, P1. rewrite HA1. split_and!; try done. intros _. by apply Hf1. }
  destruct (map_entry_new N s1 P1 bn Hh1 Hnz Hbn HA1) as (r & s2 & P2 & E2 & Hh2 & Hg2 & Hl2 & HA2 & Hf2); [by right|by left|lia|lia|].
  exists s2, P2. rewrite HA2. split_and!; try done; [eapply grown_trans; [apply (h_len _ _ _ Hh)|done..]|].
  destruct Hl1 as [I1 L1], Hl2 as [I2 L2]. split; [set_solver|]. intros b Hb. destruct (L2 b Hb) as [Hb2|]; [|auto].
  destruct (L1 b Hb2) as [|[|(k & Hk & E & Hne)]]; [auto..|]. right; right. exists k. split_and!; [done| |done].
  assert (Hkr : 0 <= k < NSLOTS) by (destruct Hk as [->| ->]; [done|done]). destruct (gr_slots _ _ _ Hg2 k Hkr) as [E'|[E' _]]; congruence.
Qed.

(** [bmap] returns the block in the slot of the file block, allocating it (and
    the indirect block) when it is not there; no byte of any file changes. It
    returns 0 only when no block is free. *)
Lemma bmap_ok s P bn : here s P ∅ -> 0 <= bn < MAXFILE -> (size P + 5 <= NBUF)%nat -> Z.of_nat (size P) + 5 <= LOGBLOCKS ->
  exists s' P', bmap ip bn s = Ok (A s' (file_slot bn)) s' /\ here s' P' ∅ /\ grown (slots_of bn) s s' /\ logged (slots_of bn) s' P P' /\
    (A s' (file_slot bn) = 0 -> full (G s')).
Proof using ly.
  intros Hh Hbn Hroom Hlog. pose proof (h_len _ _ _ Hh) as Hlen. pose proof (bl_size _ (ly_bitmap ly)) as Hbs. pose proof (ly_pos ly) as Hpos.
  destruct (decide (A s (file_slot bn) = 0)) as [H0|Hne]; cycle 1.
  { destruct (bmap_present s P ∅ bn Hh Hpos ltac:(lia) Hbn Hne ltac:(set_solver) ltac:(rewrite union_empty_r_L; lia)) as (x & E & Hok & Hg & _).
    assert (HA : A (set_io s x) (file_slot bn) = A s (file_slot bn)) by (apply slot_addr_ext; intros _; apply Hg).
    exists (set_io s x), P. rewrite HA. split_and!; [done|by apply (here_io s P ∅)|by apply grown_io|by split; [|left]|done]. }
  rewrite bmap_unfold by apply (h_dev _ _ _ Hh). destruct (Z.ltb_spec bn NDIRECT) as [Hd|Hd].
  - assert (Efs : file_slot bn = bn) by (unfold file_slot; destruct (Z.ltb_spec bn NDIRECT); lia). rewrite Efs in *. rewrite H0. cbn [Z.eqb].
    destruct (alloc_slot_ok (slots_of bn) s P bn Hh ltac:(lia) H0) as (r & s' & P' & E & Hh' & Hg & Hl & HA & _ & Hf); [by left|lia|lia|].
    exists s', P'. rewrite HA. split_and!; try done. intros Hr0. by apply Hf.
  - unfold MAXFILE in Hbn. destruct (Z.ltb_spec (bn - NDIRECT) NINDIRECT); [|lia].
    assert (Efs : file_slot bn = NDIRECT + 1 + (bn - NDIRECT)) by (unfold file_slot; destruct (Z.ltb_spec bn NDIRECT); lia).
    rewrite Efs in *. destruct (bmap_indirect s P (bn - NDIRECT) Hh ltac:(lia) H0 Hroom Hlog) as (s' & P' & E & Hh' & Hg & Hl & Hf).
    assert (HN : forall k, k = NDIRECT + 1 + (bn - NDIRECT) \/ k = NDIRECT -> slots_of bn k) by (intros k [->| ->]; [left|right]; done).
    exists s', P'. split_and!; [done|done|exact (grown_mono _ _ _ _ HN Hg)|exact (logged_mono _ _ _ _ _ HN Hl)|done].
Qed.
End bmap.
