(* ===== verification/FsFile.v ===== *)
(** * Reading and writing files: readi and writei *)

From stdpp Require Import base gmap list numbers strings sets.
From Stdlib Require Import ZArith Lia.
From S2P Require Import Prelude Mem Spinlock Bytes Sleeplock Disk Bio BlockIO Fs FsSpec FsAlloc FsInode FsOwn FsMap ProcEnv.
Open Scope Z_scope.
Open Scope kernel_scope.

(** ** Slices of a file *)

Definition slice (g : Z -> block) (d : dinode) (off n : Z) : list Z := map (file_byte g d) (seqZ off n).

Lemma length_slice g d off n : 0 <= n -> length (slice g d off n) = Z.to_nat n.
Proof. intros. unfold slice. by rewrite length_map, length_seqZ. Qed.

Lemma lookup_slice g d off n i : 0 <= i < n -> slice g d off n !! Z.to_nat i = Some (file_byte g d (off + i)).
Proof. intros Hi. unfold slice. rewrite list_lookup_fmap, lookup_seqZ_lt by lia. cbn. do 2 f_equal. lia. Qed.

Lemma slice_app g d off n m : 0 <= n -> 0 <= m -> slice g d off (n + m) = slice g d off n ++ slice g d (off + n) m.
Proof. intros. unfold slice. rewrite <- map_app. by rewrite seqZ_app. Qed.

Lemma slice_contents g d off n : 0 <= off -> 0 <= n -> off + n <= di_size d ->
  slice g d off n = take (Z.to_nat n) (drop (Z.to_nat off) (contents g d)).
Proof.
  intros Ho Hn Hs. unfold contents. fold (slice g d 0 (di_size d)).
  replace (di_size d) with (off + (n + (di_size d - off - n))) by lia. rewrite slice_app by lia.
  rewrite drop_app_length' by (rewrite length_slice; lia). rewrite slice_app by lia. rewrite take_app_length' by (rewrite length_slice; lia). done.
Qed.

Lemma length_contents g d : length (contents g d) = Z.to_nat (di_size d).
Proof. unfold contents. by rewrite length_map, length_seqZ. Qed.

Lemma lookup_contents g d q : contents g d !! q = if decide (Z.of_nat q < di_size d) then Some (file_byte g d (Z.of_nat q)) else None.
Proof. unfold contents. rewrite list_lookup_fmap. case_decide; [by rewrite lookup_seqZ_lt by lia|by rewrite lookup_seqZ_ge by lia]. Qed.

(** The part of one block that a step of [readi] copies. *)
Lemma chunk_slice g d off m a : is_block (g a) -> a <> 0 -> slot_addr g d (file_slot (off / BSIZE)) = a -> 0 <= off -> 0 <= m ->
  off mod BSIZE + m <= BSIZE -> take (Z.to_nat m) (drop (Z.to_nat (off mod BSIZE)) (g a)) = slice g d off m.
Proof.
  intros [Hl _] Ha Es Ho Hm Hfit. unfold BSIZE in *. apply list_eq. intros i. destruct (decide (i < Z.to_nat m)%nat) as [Hi|Hi].
  - rewrite lookup_take_lt, lookup_drop by done. replace i with (Z.to_nat (Z.of_nat i)) at 2 by lia. rewrite lookup_slice by lia.
    unfold file_byte, BSIZE.
    assert ((off + Z.of_nat i) / 1024 = off / 1024 /\ (off + Z.of_nat i) mod 1024 = off mod 1024 + Z.of_nat i) as [-> ->] by dlia.
    cbn zeta. rewrite Es. destruct (Z.eqb_spec a 0); [done|]. unfold nthz.
    replace (Z.to_nat (off mod 1024 + Z.of_nat i)) with (Z.to_nat (off mod 1024) + i)%nat by dlia.
    destruct (lookup_lt_is_Some_2 (g a) (Z.to_nat (off mod 1024) + i)) as [v E]; [dlia|]. by rewrite E.
  - rewrite lookup_take_ge by lia. symmetry. apply lookup_ge_None. rewrite length_slice; lia.
Qed.

(** How many blocks the bytes [off .. off+n-1] lie in. *)
Definition span (off n : Z) : Z := if n <=? 0 then 0 else (off + n - 1) / BSIZE - off / BSIZE + 1.

Lemma span_step off n m : 0 <= off -> 0 < n -> m = Z.min n (BSIZE - off mod BSIZE) -> 0 < m <= n /\ span (off + m) (n - m) <= span off n - 1 /\ 1 <= span off n.
Proof.
  unfold span, BSIZE. intros Ho Hn ->. destruct (Z.leb_spec n 0); [lia|].
  destruct (Z.leb_spec (n - Z.min n (1024 - off mod 1024)) 0); split_and!; dlia.
Qed.

Lemma byte_range g d o : (forall b, is_block (g b)) -> is_byte (file_byte g d o).
Proof.
  intros Hb. unfold file_byte. cbn zeta. destruct (_ =? 0); [unfold is_byte; lia|]. unfold nthz.
  destruct (g _ !! Z.to_nat (o mod BSIZE)) as [v|] eqn:E; cbn; [|unfold is_byte; lia].
  destruct (Hb (slot_addr g d (file_slot (o / BSIZE)))) as [_ Hf]. rewrite Forall_lookup in Hf. by apply Hf in E.
Qed.

Section files.
Context {S H U : Type} {io : BlockIO S H} {spec : BlockSpec S H} {env : ProcEnv U} {penv : ProcSpec U}.
Notation FS := (fsst S U).
Implicit Types (s : FS) (x : S) (u : U) (P L : gset Z).
Context (sb : superblock) (ip : nat) (D : Z -> dinode).
Notation here := (here sb ip D).
Notation din := (din ip).
Notation V := (V ip D).
Notation A := (A ip).

(** ** readi *)

(** The bytes [bs] were copied to [dst]: all of them, or a prefix of them when
    the copy failed. *)
Definition copied (dst : loc) u u' (bs : list Z) (ok : bool) : Prop :=
  match dst with
  | Kernel _ => u' = u /\ ok = true
  | User va => running u' /\ (forall c, asleep u' c <-> asleep u c) /\ exists k, 0 <= k <= Z.of_nat (length bs) /\ ok = (k =? Z.of_nat (length bs)) /\
      forall a, user_byte u' a = if (va <=? a) && (a <? va + k) then bs !! Z.to_nat (a - va) else user_byte u a
  end.
(** There is room for [n] bytes at [dst], in the address space of the running
    process or in the kernel. *)
Definition dst_fits u (dst : loc) (n : Z) : Prop :=
  match dst with User va => running u /\ 0 <= va /\ va + n < 2 ^ 64 | Kernel _ => True end.

Lemma fs_copyout_ok s dst bs : dst_fits (fs_um s) dst (Z.of_nat (length bs)) -> Z.of_nat (length bs) <= BSIZE -> Forall is_byte bs -> exists ok u', fs_copyout dst bs s = Ok ok (set_um s u') /\ copied dst (fs_um s) u' bs ok.
Proof.
  intros Hd Hlen Hb. destruct dst as [va|]; cbn.
  - destruct Hd as (Hr & Hva & Hfit).
    destruct (copyout_ok (fs_um s) va bs Hr Hva Hfit Hlen Hb) as (ok & k & u' & E & Hr' & Ha & Hk & Hok & Hu & _). exists ok, u'. unfold usr, zoom. rewrite E.
    split; [done|]. split_and!; [done|done|]. by exists k.
  - exists true, (fs_um s). split; [by destruct s|done].
Qed.

(** Two copies in a row are one. *)
Lemma copied_app dst u1 u2 u3 bs bs' m ok : copied dst u1 u2 bs true -> m = Z.of_nat (length bs) ->
  dst_fits u1 dst (Z.of_nat (length bs + length bs')) -> copied (loc_add dst m) u2 u3 bs' ok -> copied dst u1 u3 (bs ++ bs') ok.
Proof.
  intros C1 -> Hf C2. destruct dst as [va|]; cbn in *; [|destruct C1, C2; by subst].
  destruct C1 as [_ [A1 (k1 & K1 & E1 & B1)]], C2 as [R2 [A2 (k2 & K2 & E2 & B2)]], Hf as [_ Hf]. symmetry in E1. apply Z.eqb_eq in E1.
  split; [done|]. split; [intros c; by rewrite A2|]. exists (Z.of_nat (length bs) + k2). rewrite length_app.
  assert (Hw : u64 (va + Z.of_nat (length bs)) = va + Z.of_nat (length bs)) by (apply u64_small; lia). rewrite Hw in B2.
  split_and!; [lia|lia|destruct (Z.eqb_spec k2 (Z.of_nat (length bs'))), (Z.eqb_spec (Z.of_nat (length bs) + k2) (Z.of_nat (length bs + length bs'))); lia || done|].
  intros a. rewrite B2, B1.
  destruct (Z.leb_spec (va + Z.of_nat (length bs)) a), (Z.ltb_spec a (va + Z.of_nat (length bs) + k2)), (Z.leb_spec va a),
    (Z.ltb_spec a (va + k1)), (Z.ltb_spec a (va + (Z.of_nat (length bs) + k2))); cbn [andb]; try lia; try done.
  - rewrite lookup_app_r by lia. f_equal. lia.
  - rewrite lookup_app_l by lia. done.
Qed.

Lemma copied_nil dst u n : dst_fits u dst n -> copied dst u u [] true.
Proof.
  intros Hd. destruct dst; cbn; [|done]. split; [apply Hd|]. split; [done|]. exists 0. split_and!; [done|lia|done|]. intros a.
  destruct (Z.leb_spec va a), (Z.ltb_spec a (va + 0)); cbn [andb]; done || lia.
Qed.

Lemma here_um s P L u : here s P L -> here (set_um s u) P L.
Proof. by intros [H1 H2 H3 H4 H5 H6]. Qed.

Lemma copied_fail dst u u' bs bs' : copied dst u u' bs false -> copied dst u u' (bs ++ bs') false.
Proof.
  destruct dst as [va|]; cbn; [|by intros [_ ?]]. intros (Hr & Ha & k & Hk & Ek & Hu). symmetry in Ek. apply Z.eqb_neq in Ek.
  split; [done|]. split; [done|]. exists k. rewrite length_app. split_and!; [lia|lia|symmetry; apply Z.eqb_neq; lia|]. intros a. rewrite Hu.
  destruct (Z.leb_spec va a), (Z.ltb_spec a (va + k)); cbn [andb]; try done. by rewrite lookup_app_l by lia.
Qed.

Lemma slice_bytes s P L off n : here s P L -> Forall is_byte (slice (G s) (din s) off n).
Proof.
  intros Hh. unfold slice. apply Forall_forall. intros b (o & -> & _)%list_elem_of_fmap. apply byte_range.
  intros k. apply (io_block _ P L k (h_ok _ _ _ _ _ _ Hh)).
Qed.

(** One block of the file is read and copied out. *)
Definition read_chunk (dst : loc) (off m : Z) : M FS (option (bool * list Z)) :=
  addr <- bmap ip (off / BSIZE) ;;
  if addr =? 0 then ret None
  else
    s <- get ;;
    bp <- blk (io_bread (i_dev (geti s ip)) addr) ;;
    d <- blk (io_data bp) ;;
    let chunk := take (Z.to_nat m) (drop (Z.to_nat (off mod BSIZE)) d) in
    ok <- fs_copyout dst chunk ;;
    blk (io_brelse bp) ;;;
    ret (Some (ok, chunk)).

Lemma readi_loop_unfold fuel dst off n tot acc s : tot < n -> readi_loop (Datatypes.S fuel) ip dst off n tot acc s =
  (let m := Z.min (n - tot) (BSIZE - off mod BSIZE) in
   r <- read_chunk dst off m ;;
   match r with
   | None => ret (tot, acc)
   | Some (ok, chunk) => if ok : bool then readi_loop fuel ip (loc_add dst m) (off + m) n (tot + m) (acc ++ chunk) else ret (-1, acc)
   end) s.
Proof.
  intros Hlt. cbn [readi_loop]. destruct (Z.ltb_spec tot n); [|lia]. cbn zeta. unfold read_chunk. rewrite bind_assoc. apply bind_ext. intros addr s1.
  destruct (addr =? 0); [done|]. rewrite !bind_assoc. apply bind_ext. intros s2 s3. rewrite !bind_assoc. apply bind_ext. intros bp s4.
  rewrite !bind_assoc. apply bind_ext. intros d s5. rewrite !bind_assoc. apply bind_ext. intros ok s6. rewrite !bind_assoc. apply bind_ext. done.
Qed.

Context (end_pos : 0 < bmap_end sb) (on_disk : sb_size sb <= io_nblocks).

Lemma here_dense s P L o : here s P L -> 0 <= o < di_size (din s) -> A s (file_slot (o / BSIZE)) <> 0 /\ 0 <= o / BSIZE < MAXFILE.
Proof using.
  intros Hh Ho. pose proof (h_wf _ _ _ _ _ _ Hh) as W. pose proof (h_inum _ _ _ _ _ _ Hh) as Hi. unfold A, FsMap.A. rewrite <- (V_self ip D).
  pose proof (wf_size _ _ _ W _ Hi) as Hm. rewrite V_self in Hm. unfold BSIZE in *. split; [|split; [dlia|apply Z.div_lt_upper_bound; lia]].
  apply (wf_dense _ _ _ W); [done|dlia|]. rewrite V_self. unfold BSIZE. dlia.
Qed.

Lemma read_chunk_ok s P dst off m : here s P ∅ -> (size P < NBUF)%nat -> 0 <= off -> 0 < m -> off mod BSIZE + m <= BSIZE -> off + m <= di_size (din s) -> dst_fits (fs_um s) dst m ->
  exists ok x u', read_chunk dst off m s = Ok (Some (ok, slice (G s) (din s) off m)) (set_um (set_io s x) u') /\ io_ok x P ∅ /\
    (forall k, io_get x k = G s k) /\ copied dst (fs_um s) u' (slice (G s) (din s) off m) ok.
Proof using end_pos on_disk.
  intros Hh Hroom Ho Hm Hfit Hsz Hdst. destruct (here_dense s P ∅ off Hh ltac:(lia)) as [Hne Hbn].
  destruct (bmap_present sb ip D s P ∅ _ Hh end_pos on_disk Hbn Hne ltac:(set_solver) ltac:(rewrite union_empty_r_L; lia)) as (x1 & E1 & Hok1 & Hg1 & _).
  set (a := A s (file_slot (off / BSIZE))) in *. pose proof (h_wf _ _ _ _ _ _ Hh) as W. pose proof (h_inum _ _ _ _ _ _ Hh) as Hi.
  assert (Ha : bmap_end sb <= a < sb_size sb).
  { unfold a, FsMap.A in *. rewrite <- (V_self ip D) in *. by apply (wf_file_block _ _ _ _ _ W). }
  destruct (open_block _ P ∅ a Hok1 ltac:(lia) ltac:(set_solver) ltac:(right; rewrite union_empty_r_L; lia)) as (h & x2 & E2 & E3 & _ & _ & Hg2 & _ & _ & x3 & E4 & Hok3 & Hg3 & _).
  assert (Ec : take (Z.to_nat m) (drop (Z.to_nat (off mod BSIZE)) (io_get x1 a)) = slice (G s) (din s) off m).
  { rewrite Hg1. apply chunk_slice; try done; [|lia]. apply (io_block _ P ∅ a (h_ok _ _ _ _ _ _ Hh)). }
  destruct (fs_copyout_ok (set_io s x2) dst (slice (G s) (din s) off m)) as (ok & u' & E5 & Hc);
    [rewrite length_slice, Z2Nat.id by lia; exact Hdst|rewrite length_slice by lia; unfold BSIZE in *; dlia|by eapply slice_bytes|].
  exists ok, x3, u'. split_and!; [|done|intros k; by rewrite Hg3|done].
  unfold read_chunk. step_with E1. destruct (Z.eqb_spec a 0); [done|]. unfold bind at 1, get. cbn beta iota.
  change (i_dev (geti (set_io s x1) ip)) with (i_dev (geti s ip)). rewrite (h_dev _ _ _ _ _ _ Hh).
  step_with (blk_ok _ (set_io s x1) _ _ E2). step_with (blk_ok (io_data h) (set_io s x2) _ _ E3). rewrite Ec. step_with E5.
  by step_with (blk_ok (io_brelse h) (set_um (set_io s x2) u') _ _ E4).
Qed.

Lemma readi_loop_ok fuel dst off n tot acc s P : here s P ∅ -> (size P < NBUF)%nat -> 0 <= off -> 0 <= tot <= n ->
  off + (n - tot) <= di_size (din s) -> dst_fits (fs_um s) dst (n - tot) -> span off (n - tot) <= Z.of_nat fuel ->
  exists ok acc' x u', readi_loop fuel ip dst off n tot acc s = Ok (if ok : bool then n else -1, acc') (set_um (set_io s x) u') /\ io_ok x P ∅ /\
    (forall k, io_get x k = G s k) /\ copied dst (fs_um s) u' (slice (G s) (din s) off (n - tot)) ok /\
    (ok = true -> acc' = acc ++ slice (G s) (din s) off (n - tot)).
Proof using end_pos on_disk.
  revert dst off tot acc s. induction fuel as [|fuel IH]; intros dst off tot acc s Hh Hroom Ho Htot Hsz Hdst Hsp.
  all: destruct (decide (tot = n)) as [->|Hne];
    [exists true, acc, (fs_io s), (fs_um s); rewrite Z.sub_diag in *; cbn [readi_loop]; rewrite Z.ltb_irrefl;
     split_and!; [by destruct s|apply (h_ok _ _ _ _ _ _ Hh)|done|by eapply copied_nil|intros _; by rewrite app_nil_r]|].
  { pose proof (span_step off (n - tot) _ Ho ltac:(lia) eq_refl). lia. }
  rewrite readi_loop_unfold by lia. cbn zeta. set (m := Z.min (n - tot) (BSIZE - off mod BSIZE)).
  destruct (span_step off (n - tot) m Ho ltac:(lia) eq_refl) as (Hm & Hs1 & Hs2).
  assert (Hdm : dst_fits (fs_um s) dst m) by (destruct dst; cbn in *; [|done]; split_and!; [apply Hdst|lia|lia]).
  destruct (read_chunk_ok s P dst off m Hh Hroom Ho ltac:(lia) ltac:(lia) ltac:(lia) Hdm) as (ok & x & u & E & Hok & Hg & Hc). step_with E.
  assert (Esl : slice (G s) (din s) off (n - tot) = slice (G s) (din s) off m ++ slice (G s) (din s) (off + m) (n - (tot + m))).
  { rewrite <- slice_app by lia. f_equal. lia. }
  destruct ok.
  - set (s1 := set_um (set_io s x) u). assert (Hh1 : here s1 P ∅) by (apply here_um; by apply (here_io sb ip D s P ∅)).
    assert (Hsl : forall o k, slice (G s1) (din s1) o k = slice (G s) (din s) o k).
    { intros o k. unfold slice. apply map_ext. intros b. apply file_byte_eq; [apply slot_addr_ext|]; intros _; apply Hg. }
    destruct (IH (loc_add dst m) (off + m) (tot + m) (acc ++ slice (G s) (din s) off m) s1 Hh1 Hroom) as (ok' & acc' & x' & u' & E' & Hok' & Hg' & Hc' & Hacc);
      [lia|lia|change (din s1) with (din s); lia| |replace (n - (tot + m)) with (n - tot - m) by lia; lia|].
    { destruct dst as [va|]; cbn in *; [|done]. split; [apply Hc|]. rewrite u64_small by (pose proof (Z.pow_pos_nonneg 2 64); lia). lia. }
    rewrite Hsl in Hc', Hacc.
    exists ok', acc', x', u'. split_and!; [exact E'|done|intros k; rewrite Hg'; apply Hg| |].
    + rewrite Esl. apply (copied_app dst _ u _ _ _ m); [exact Hc|rewrite length_slice; lia| |exact Hc']. rewrite !length_slice by lia.
      by replace (Z.of_nat (Z.to_nat m + Z.to_nat (n - (tot + m)))) with (n - tot) by lia.
    + intros Hk. rewrite (Hacc Hk), Esl. by rewrite app_assoc.
  - exists false, acc, x, u. split_and!; [done|done|done| |done]. rewrite Esl. by apply copied_fail.
Qed.

(** How many bytes [readi] finds: none past the end of the file, or when
    [off + n] does not fit 32 bits. *)
Definition read_len (size off n : Z) : Z := if (size <? off) || (2 ^ 32 <=? off + n) then 0 else Z.min n (size - off).

Lemma readi_ok s P dst off n : here s P ∅ -> (size P < NBUF)%nat -> 0 <= off < 2 ^ 32 -> 0 <= n < 2 ^ 32 -> dst_fits (fs_um s) dst n ->
  let m := read_len (di_size (din s)) off n in
  exists ok bs x u', readi ip dst off n s = Ok (if ok : bool then m else -1, bs) (set_um (set_io s x) u') /\ io_ok x P ∅ /\
    (forall k, io_get x k = G s k) /\ copied dst (fs_um s) u' (slice (G s) (din s) off m) ok /\ (ok = true -> bs = slice (G s) (din s) off m).
Proof using end_pos on_disk.
  intros Hh Hroom Ho Hn Hdst m. pose proof (dk_size _ (din_ok sb ip D s P ∅ Hh)) as Hsz.
  assert (Hwrap : (u32 (off + n) <? off) = (2 ^ 32 <=? off + n)).
  { unfold u32. destruct (Z.leb_spec (2 ^ 32) (off + n)).
    - apply Z.ltb_lt. rewrite <- (Z_mod_plus_full _ (-1)), Z.mod_small; lia.
    - apply Z.ltb_ge. rewrite Z.mod_small; lia. }
  unfold readi. unfold bind at 1, get. fold (din s). rewrite Hwrap. unfold m, read_len in *.
  destruct ((di_size (din s) <? off) || (2 ^ 32 <=? off + n)) eqn:Eb.
  { exists true, [], (fs_io s), (fs_um s). split_and!; [by destruct s|apply (h_ok _ _ _ _ _ _ Hh)|done|by eapply copied_nil|done]. }
  apply orb_false_elim in Eb as [E1%Z.ltb_ge E2%Z.leb_gt]. rewrite (u32_small (off + n)) by lia. cbn zeta.
  assert (En : (if di_size (din s) <? off + n then u32 (di_size (din s) - off) else n) = Z.min n (di_size (din s) - off)).
  { destruct (Z.ltb_spec (di_size (din s)) (off + n)); [rewrite u32_small|]; lia. }
  rewrite En. set (k := Z.min n (di_size (din s) - off)).
  destruct (readi_loop_ok (Z.to_nat (k / BSIZE + 2)) dst off k 0 [] s P Hh Hroom ltac:(lia) ltac:(lia) ltac:(lia)) as (ok & bs & x & u' & E & Hok & Hg & Hc & Hb).
  { destruct dst; cbn in *; [|done]. split; [apply Hdst|lia]. }
  { unfold span, BSIZE. destruct (Z.leb_spec (k - 0) 0); [lia|]. assert (0 <= k / 1024) by dlia. rewrite Z2Nat.id by lia. dlia. }
  rewrite Z.sub_0_r in Hc, Hb. by exists ok, bs, x, u'.
Qed.

(** C26. [readi] reads the file: it returns the bytes of the file from [off] on,
    at most [n] of them and none past its end, and has put exactly these
    bytes where the caller asked; or it returns -1 after the copy to the
    user failed, with a proper prefix of them delivered. Every block keeps
    its contents, so a read changes no file, and the loop ends. *)
Theorem readi_reads s P dst off n : here s P ∅ -> (size P < NBUF)%nat -> 0 <= off < 2 ^ 32 -> 0 <= n < 2 ^ 32 -> dst_fits (fs_um s) dst n ->
  exists (ok : bool) bs s', let m := read_len (di_size (din s)) off n in
    let want := take (Z.to_nat m) (drop (Z.to_nat off) (contents (G s) (din s))) in
    readi ip dst off n s = Ok (if ok then m else -1, bs) s' /\ (ok = true -> bs = want) /\ copied dst (fs_um s) (fs_um s') want ok /\
    Z.of_nat (length want) = m /\ here s' P ∅ /\ forall k, G s' k = G s k.
Proof using end_pos on_disk.
  intros Hh Hroom Ho Hn Hdst. destruct (readi_ok s P dst off n Hh Hroom Ho Hn Hdst) as (ok & bs & x & u' & E & Hok & Hg & Hc & Hb).
  exists ok, bs, (set_um (set_io s x) u'). cbn zeta. set (m := read_len (di_size (din s)) off n) in *.
  assert (Hm : slice (G s) (din s) off m = take (Z.to_nat m) (drop (Z.to_nat off) (contents (G s) (din s))) /\ 0 <= m).
  { unfold m, read_len. destruct ((di_size (din s) <? off) || (2 ^ 32 <=? off + n)) eqn:Eb; [done|]. apply orb_false_elim in Eb as [E1%Z.ltb_ge E2%Z.leb_gt].
    split; [apply slice_contents|]; lia. }
  destruct Hm as [Hm Hm0]. rewrite <- Hm. split_and!; [done|done|done|rewrite length_slice; lia| |done].
  apply here_um. by apply (here_io sb ip D s P ∅).
Qed.
End files.

(** ** writei *)

Section writes.
Context {S H U : Type} {io : BlockIO S H} {spec : BlockSpec S H} {env : ProcEnv U} {penv : ProcSpec U}.
Notation FS := (fsst S U).
Implicit Types (s : FS) (x : S) (u : U) (P Q : gset Z).
Context (sb : superblock) (ip : nat) (D : Z -> dinode).
Notation here := (here sb ip D).
Notation din := (din ip).
Notation inum := (inum ip).
Notation V := (V ip D).
Notation A := (A ip).

(** The bytes [bs] are at [src], where they can be read: in the kernel, or in
    memory that the running process has. *)
Definition src_has u (src : loc) (bs : list Z) : Prop :=
  Forall is_byte bs /\
  match src with
  | User va => running u /\ (forall a, va <= a < va + Z.of_nat (length bs) -> resident u a) /\ mapM (user_byte u) (seqZ va (Z.of_nat (length bs))) = Some bs /\ 0 <= va /\ va + Z.of_nat (length bs) < 2 ^ 64
  | Kernel l => take (length bs) l = bs
  end.

Lemma mapM_seqZ_app (f : Z -> option Z) a n m l1 l2 : 0 <= n -> 0 <= m -> length l1 = Z.to_nat n -> mapM f (seqZ a (n + m)) = Some (l1 ++ l2) ->
  mapM f (seqZ a n) = Some l1 /\ mapM f (seqZ (a + n) m) = Some l2.
Proof.
  intros Hn Hm Hl. rewrite seqZ_app by lia. rewrite !mapM_Some. intros HF.
  apply Forall2_app_inv in HF; [done|]. by rewrite length_seqZ, Hl.
Qed.

(** The process still runs and sees the same memory. *)
Definition same_user u u' : Prop :=
  (running u -> running u') /\ (forall a, user_byte u' a = user_byte u a) /\ (forall a, resident u a -> resident u' a).
Lemma same_user_refl u : same_user u u.
Proof. done. Qed.
Lemma same_user_trans u1 u2 u3 : same_user u1 u2 -> same_user u2 u3 -> same_user u1 u3.
Proof. intros (A1 & B1 & C1) (A2 & B2 & C2). split_and!; [auto|intros a; by rewrite B2|auto]. Qed.
Lemma src_has_same u u' src bs : same_user u u' -> src_has u src bs -> src_has u' src bs.
Proof.
  intros (A1 & B1 & C1) [Hf Hs]. split; [done|]. destruct src; [|done]. destruct Hs as (Hr & Hm & Hs & Hva). split_and!; try apply Hva; [auto|auto|].
  rewrite <- Hs. by apply mapM_ext.
Qed.

Lemma fs_copyin_ok s src b1 b2 m : src_has (fs_um s) src (b1 ++ b2) -> m = Z.of_nat (length b1) ->
  exists u', fs_copyin src m s = Ok (b1, true) (set_um s u') /\ same_user (fs_um s) u' /\ src_has u' (loc_add src m) b2.
Proof.
  intros [Hf Hs] ->. apply Forall_app in Hf as [Hf1 Hf2]. destruct src as [va|l]; cbn in *.
  - destruct Hs as (Hr & Hm & Hs & Hva & Hfit). rewrite length_app, Nat2Z.inj_add in *. apply mapM_seqZ_app in Hs as [Hs1 Hs2]; [|lia..].
    destruct (copyin_ok (fs_um s) va (Z.of_nat (length b1)) Hr Hva ltac:(lia) ltac:(lia)) as (bs & ok & u' & E & Hr' & _ & Hu & Hres & Hb).
    destruct ok; [|destruct Hb as [Hb|(x & Hx & Hn)]; [congruence|destruct Hn; apply Hm; lia]].
    rewrite Hs1 in Hb. injection Hb as <-. exists u'. unfold usr, zoom. rewrite E. split_and!; [done|done|].
    split; [done|]. rewrite u64_small by lia. split_and!; [done|intros a Ha; apply Hres, Hm; lia| |lia|lia]. rewrite <- Hs2. apply mapM_ext. done.
  - exists (fs_um s). rewrite Nat2Z.id. rewrite length_app in Hs.
    assert (take (length b1) l = b1 /\ take (length b2) (drop (length b1) l) = b2) as [-> E2].
    { rewrite take_drop_commute. rewrite Hs. split; [|by rewrite drop_app_length].
      rewrite <- (Nat.min_l (length b1) (length b1 + length b2)) by lia. rewrite <- take_take, Hs. by rewrite take_app_length. }
    split_and!; [by destruct s|done|]. by split.
Qed.

(** [b] was written at [off]; nothing else is visible. *)
Record wrote (off : Z) (b : list Z) s s' : Prop := {
  wr_state : exists d, it_inode s' = <[ip := set_i_d (geti s ip) d]> (it_inode s) /\ same_meta (din s) d;
  wr_lock : it_lock s' = it_lock s;
  wr_bytes : forall i o, 0 <= i < sb_ninodes sb -> 0 <= o < MAXFILE * BSIZE -> file_byte (G s') (V s' i) o =
    if (i =? inum s) && ((off <=? o) && (o <? off + Z.of_nat (length b))) then nthz b (o - off) else file_byte (G s) (V s i) o;
  wr_kept : forall k, 0 <= k < NSLOTS -> A s k <> 0 -> A s' k = A s k;
  wr_dense : forall o, off <= o < off + Z.of_nat (length b) -> A s' (file_slot (o / BSIZE)) <> 0;
  wr_low : forall k, k < sb_bmapstart sb -> G s' k = G s k;
  wr_user : same_user (fs_um s) (fs_um s')
}.

Lemma wrote_inum off b s s' : (ip < length (it_inode s))%nat -> wrote off b s s' -> inum s' = inum s /\ same_meta (din s) (din s').
Proof.
  intros Hl [(d & E & Hm) _ _ _ _ _ _]. unfold FsMap.inum, FsMap.din, geti in *. rewrite E, list_lookup_insert_eq by done. done.
Qed.

Lemma wrote_then off b1 b2 s1 s2 s3 P : here s1 P ∅ -> wrote off b1 s1 s2 -> wrote (off + Z.of_nat (length b1)) b2 s2 s3 ->
  off + Z.of_nat (length b1 + length b2) <= MAXFILE * BSIZE -> 0 <= off -> wrote off (b1 ++ b2) s1 s3.
Proof.
  intros Hh W1 W2 Hfit Ho. pose proof (h_len _ _ _ _ _ _ Hh) as Hl. destruct (wrote_inum _ _ _ _ Hl W1) as [Ei _].
  destruct W1 as [(d2 & E2 & M2) K2 B2 S2 N2 L2 U2], W2 as [(d3 & E3 & M3) K3 B3 S3 N3 L3 U3]. split.
  - exists d3. unfold FsMap.din in *. assert (Eg : geti s2 ip = set_i_d (geti s1 ip) d2) by (unfold geti; by rewrite E2, list_lookup_insert_eq).
    rewrite Eg in E3, M3. rewrite E3, E2. rewrite list_insert_insert_eq. split; [done|]. cbn in M3. unfold same_meta in *. intuition congruence.
  - congruence.
  - intros i o Hi Hor. rewrite B3, B2, Ei by done. rewrite length_app, Nat2Z.inj_add. unfold nthz.
    destruct (Z.eqb_spec i (inum s1)); cbn [andb]; [|done].
    destruct (Z.leb_spec (off + Z.of_nat (length b1)) o), (Z.ltb_spec o (off + Z.of_nat (length b1) + Z.of_nat (length b2))), (Z.leb_spec off o),
      (Z.ltb_spec o (off + Z.of_nat (length b1))), (Z.ltb_spec o (off + (Z.of_nat (length b1) + Z.of_nat (length b2)))); cbn [andb]; try lia; try done.
    + rewrite lookup_app_r by lia. do 2 f_equal. lia.
    + rewrite lookup_app_l by lia. done.
  - intros k Hk Hne. rewrite S3; [by apply S2|done|]. by rewrite S2.
  - intros o Hor. rewrite length_app, Nat2Z.inj_add in Hor. destruct (decide (o < off + Z.of_nat (length b1))) as [Hin|Hout]; [|apply N3; lia].
    pose proof (N2 o ltac:(lia)) as Hne. rewrite S3; [done| |done]. apply file_slot_range, block_index. lia.
  - intros k Hk. rewrite L3, L2; done.
  - by apply (same_user_trans _ (fs_um s2)).
Qed.

Lemma same_table s : (ip < length (it_inode s))%nat -> it_inode s = <[ip := set_i_d (geti s ip) (din s)]> (it_inode s).
Proof.
  intros Hl. unfold FsMap.din. replace (set_i_d (geti s ip) (i_d (geti s ip))) with (geti s ip) by (by destruct (geti s ip)).
  unfold geti. destruct (lookup_lt_is_Some_2 (it_inode s) ip Hl) as [v E]. rewrite E. cbn. symmetry. by apply list_insert_id.
Qed.

Lemma wrote_nil off s : (ip < length (it_inode s))%nat -> wrote off [] s s.
Proof.
  intros Hl. split; try done.
  - exists (din s). split; [by apply same_table|done].
  - intros i o Hi Ho. destruct (Z.leb_spec off o), (Z.ltb_spec o (off + Z.of_nat (length (@nil Z)))); cbn [andb length] in *; rewrite ?andb_false_r; done || lia.
  - cbn. lia.
Qed.

(** Growing the inode writes nothing. *)
Lemma grown_wrote N off s s' P : here s P ∅ -> grown sb ip D N s s' -> wrote off [] s s'.
Proof.
  intros Hh [(d & x & E & Hm) Hs Hb Hlow]. split; subst s'; try done.
  - by exists d.
  - intros i o Hi Ho. rewrite Hb by done.
    destruct (Z.leb_spec off o), (Z.ltb_spec o (off + Z.of_nat (length (@nil Z)))); cbn [andb length] in *; rewrite ?andb_false_r; done || lia.
  - intros k Hk Hne. destruct (Hs k Hk) as [|[? _]]; [done|congruence].
  - cbn. lia.
Qed.

Context (ly : fs_layout sb).

Lemma low_bitmap b : 0 <= b < sb_size sb -> BBLOCK b sb < bmap_end sb.
Proof using ly. intros Hb. by apply (BBLOCK_range sb b (ly_bitmap sb ly)). Qed.

(** The block of [off] is there: [b] is copied into it and logged. *)
Definition store_chunk (addr off m : Z) (src : loc) : M FS (option bool) :=
  s <- get ;;
  bp <- blk (io_bread (i_dev (geti s ip)) addr) ;;
  d <- blk (io_data bp) ;;
  c <- fs_copyin src m ;;
  let '(bytes, ok) := c in
  blk (io_set_data bp (splice d (Z.to_nat (off mod BSIZE)) bytes)) ;;;
  if negb ok then blk (io_brelse bp) ;;; ret (Some false)
  else
    blk (io_log_write bp) ;;;
    blk (io_brelse bp) ;;;
    ret (Some true).

Lemma nthz_splice l p b q : (p + length b <= length l)%nat -> 0 <= q ->
  nthz (splice l p b) q = if (Z.of_nat p <=? q) && (q <? Z.of_nat (p + length b)) then nthz b (q - Z.of_nat p) else nthz l q.
Proof using.
  intros Hl Hq. unfold nthz. destruct (Z.leb_spec (Z.of_nat p) q), (Z.ltb_spec q (Z.of_nat (p + length b))); cbn [andb].
  - rewrite lookup_splice_new by lia. do 2 f_equal. lia.
  - by rewrite lookup_splice_old by lia.
  - by rewrite lookup_splice_old by lia.
  - by rewrite lookup_splice_old by lia.
Qed.

Lemma bmap_end_start : sb_bmapstart sb <= bmap_end sb.
Proof using ly. clear D. pose proof (bl_size _ (ly_bitmap sb ly)). unfold bmap_end, BPB, BSIZE. dlia. Qed.

Lemma chunk_bytes (i i0 o off m : Z) (g : Z -> block) (d : dinode) b : (length b = Z.to_nat m) -> 0 <= off -> 0 <= o -> 0 < m -> off mod BSIZE + m <= BSIZE ->
  let a := slot_addr g d (file_slot (off / BSIZE)) in a <> 0 -> is_block (g a) -> forall old, (i = i0 -> old = file_byte g d o) ->
  (if (i =? i0) && (o / BSIZE =? off / BSIZE) then nthz (splice (g a) (Z.to_nat (off mod BSIZE)) b) (o mod BSIZE) else old) =
  (if (i =? i0) && ((off <=? o) && (o <? off + m)) then nthz b (o - off) else old).
Proof using.
  clear D ly. intros Hl Ho Hoo Hm Hfit a Ha [Hbl _] old Hold. unfold BSIZE in *. destruct (Z.eqb_spec i i0) as [Ei|]; cbn [andb]; [|done].
  destruct (Z.eqb_spec (o / 1024) (off / 1024)) as [E|E].
  - rewrite nthz_splice by (rewrite ?Hbl; dlia).
    destruct (Z.leb_spec (Z.of_nat (Z.to_nat (off mod 1024))) (o mod 1024)), (Z.ltb_spec (o mod 1024) (Z.of_nat (Z.to_nat (off mod 1024) + length b))),
      (Z.leb_spec off o), (Z.ltb_spec o (off + m)); cbn [andb]; try dlia; try (f_equal; dlia).
    all: rewrite Hold by done; unfold file_byte, BSIZE; rewrite E; fold a; cbn zeta; destruct (Z.eqb_spec a 0); done.
  - destruct (Z.leb_spec off o), (Z.ltb_spec o (off + m)); cbn [andb]; try done. dlia.
Qed.

Lemma store_chunk_ok s P off m src b1 b2 : here s P ∅ -> (size P < NBUF)%nat -> Z.of_nat (size P) < LOGBLOCKS ->
  A s (file_slot (off / BSIZE)) <> 0 -> 0 <= off -> off + m <= MAXFILE * BSIZE -> 0 < m -> off mod BSIZE + m <= BSIZE ->
  src_has (fs_um s) src (b1 ++ b2) -> m = Z.of_nat (length b1) ->
  exists s', store_chunk (A s (file_slot (off / BSIZE))) off m src s = Ok (Some true) s' /\ here s' ({[A s (file_slot (off / BSIZE))]} ∪ P) ∅ /\
    wrote off b1 s s' /\ src_has (fs_um s') (loc_add src m) b2 /\ forall k, 0 <= k -> A s' k = A s k.
Proof using ly.
  intros Hh Hroom Hlog Hne Ho Hmax Hm Hfit Hsrc Em. set (a := A s (file_slot (off / BSIZE))) in *.
  pose proof (h_wf _ _ _ _ _ _ Hh) as W. pose proof (h_inum _ _ _ _ _ _ Hh) as Hi. pose proof (bl_size _ (ly_bitmap sb ly)) as Hbs. pose proof (ly_pos sb ly) as Hpos.
  assert (Hbn : 0 <= off / BSIZE < MAXFILE) by (apply block_index; lia).
  assert (Ea : a = slot_addr (G s) (V s (inum s)) (file_slot (off / BSIZE))) by (by rewrite V_self).
  assert (Ha : bmap_end sb <= a < sb_size sb) by (rewrite Ea in *; by apply (wf_file_block _ _ _ _ _ W)).
  destruct (open_block _ P ∅ a (h_ok _ _ _ _ _ _ Hh) ltac:(lia) ltac:(set_solver) ltac:(right; rewrite union_empty_r_L; lia))
    as (h & x1 & E1 & E2 & Hok1 & Hat & Hg1 & _).
  destruct (fs_copyin_ok (set_io s x1) src b1 b2 m Hsrc Em) as (u & E3 & Hu & Hsrc2).
  assert (Hblk : is_block (G s a)) by apply (io_block _ P ∅ a (h_ok _ _ _ _ _ _ Hh)). destruct Hsrc as [Hby _]. apply Forall_app in Hby as [Hb1 _].
  assert (Hfit' : (Z.to_nat (off mod BSIZE) + length b1 <= length (G s a))%nat) by (destruct Hblk as [-> _]; unfold BSIZE in *; dlia).
  set (bl := splice (G s a) (Z.to_nat (off mod BSIZE)) b1).
  destruct (rewrite_block x1 P ∅ h a bl Hok1 Hat) as (x2 & x3 & x4 & E4 & E5 & E6 & Hok4 & Hg4 & _);
    [lia|apply (ly_data sb ly); lia|set_solver|done|split; [unfold bl; rewrite length_splice by done; apply Hblk|apply splice_bytes; [apply Hblk|done]]|].
  set (s' := set_um (set_io s x4) u).
  assert (Hg : forall k, G s' k = if decide (k = slot_addr (G s) (V s (inum s)) (file_slot (off / BSIZE))) then bl else G s k).
  { intros k. rewrite <- Ea. change (G s' k) with (io_get x4 k). rewrite Hg4. case_decide; [done|apply Hg1]. }
  rewrite Ea in Hne. pose proof (data_slots sb (G s) (G s') (V s) (inum s) (off / BSIZE) bl W Hi Hbn Hne Hg) as Hsl.
  assert (HA : forall k, A s' k = A s k) by (intros k; pose proof (Hsl (inum s) k Hi) as E; rewrite V_self in E; exact E).
  exists s'. split_and!; [| | |done|done].
  - unfold store_chunk. unfold bind at 1, get. rewrite (h_dev _ _ _ _ _ _ Hh). step_with (blk_ok _ _ _ _ E1).
    step_with (blk_ok (io_data h) (set_io s x1) _ _ E2). step_with E3. fold (G s). fold bl.
    step_with (blk_ok _ (set_um (set_io s x1) u) _ _ E4). cbn [negb]. step_with (blk_ok (io_log_write h) (set_io (set_um (set_io s x1) u) x2) _ _ E5).
    by step_with (blk_ok (io_brelse h) (set_io (set_um (set_io s x1) u) x3) _ _ E6).
  - pose proof Hh as [h1 h2 h3 h4 h5 h6]. split; try done.
    apply (data_wf sb Hpos (G s) (G s') (V s) (inum s) (off / BSIZE) bl W Hi Hbn Hne Hg). apply low_bitmap.
  - split; try done.
    + exists (din s). split; [exact (same_table s (h_len _ _ _ _ _ _ Hh))|done].
    + intros i o Hi' Ho'. change (V s') with (V s). rewrite (data_byte sb (G s) (G s') (V s) (inum s) (off / BSIZE) bl W Hi Hbn Hne Hg) by done.
      rewrite <- Em. unfold bl. rewrite Ea. apply chunk_bytes; try done; [lia|lia|by rewrite <- Ea|by intros ->].
    + intros o Hor. rewrite HA. replace (o / BSIZE) with (off / BSIZE); [by fold a; rewrite Ea|]. unfold BSIZE in *. dlia.
    + intros k Hk. rewrite Hg, decide_False; [done|]. rewrite <- Ea. pose proof (low_bitmap a). pose proof bmap_end_start. lia.
Qed.

(** [Q] bounds the transaction, but for the indirect block. *)
Definition tracked s P Q : Prop :=
  (forall b, b ∈ P -> b ∈ Q \/ b = A s NDIRECT /\ b <> 0) /\ forall b, in_bitmap sb b -> b ∈ Q.

Lemma tracked_size s P Q : tracked s P Q -> (size P <= Datatypes.S (size Q))%nat.
Proof using.
  clear ly D. intros [H1 _]. etransitivity; [|apply (size_add_le (A s NDIRECT) Q)]. apply subseteq_size. intros b Hb.
  destruct (H1 b Hb) as [|[-> _]]; set_solver.
Qed.

Lemma tracked_bmap s s' P P' Q bn : tracked s P Q -> grown sb ip D (slots_of bn) s s' -> logged sb ip (slots_of bn) s' P P' ->
  tracked s' P' ({[A s' (file_slot bn)]} ∪ Q).
Proof using.
  clear ly. intros [T1 T2] Hg [_ Hl]. split; [|intros b Hb; apply elem_of_union_r; auto]. intros b Hb.
  destruct (Hl b Hb) as [Hp|[Hp|(k & [->|[_ ->]] & <- & Hne)]].
  - destruct (T1 b Hp) as [|[-> Hne]]; [left; set_solver|]. right. split; [|done].
    destruct (gr_slots _ _ _ _ _ _ Hg NDIRECT) as [E|[E _]]; [done|done|congruence].
  - left. apply elem_of_union_r. auto.
  - left. apply elem_of_union_l. by apply elem_of_singleton.
  - by right.
Qed.

Lemma tracked_store s s' P Q a : tracked s P Q -> a ∈ Q -> (forall k, 0 <= k -> A s' k = A s k) -> tracked s' ({[a]} ∪ P) Q.
Proof using.
  clear ly. intros [T1 T2] Ha HA. split; [|done]. rewrite HA by done. intros b [->%elem_of_singleton|Hb]%elem_of_union; auto.
Qed.

Lemma writei_loop_unfold fuel src off n tot s : tot < n -> writei_loop (Datatypes.S fuel) ip src off n tot s =
  (let m := Z.min (n - tot) (BSIZE - off mod BSIZE) in
   addr <- bmap ip (off / BSIZE) ;;
   if addr =? 0 then ret (tot, off)
   else
     r <- store_chunk addr off m src ;;
     match r with
     | Some true => writei_loop fuel ip (loc_add src m) (off + m) n (tot + m)
     | _ => ret (tot, off)
     end) s.
Proof using.
  clear ly D. intros Hlt. cbn [writei_loop]. destruct (Z.ltb_spec tot n); [|lia]. cbn zeta. apply bind_ext. intros addr s1.
  destruct (addr =? 0); [done|]. unfold store_chunk. rewrite !bind_assoc. apply bind_ext. intros s2 s3. rewrite !bind_assoc. apply bind_ext. intros bp s4.
  rewrite !bind_assoc. apply bind_ext. intros d s5. rewrite !bind_assoc. apply bind_ext. intros [bytes ok] s6. rewrite !bind_assoc. apply bind_ext. intros [] s7.
  destruct ok; cbn [negb]; rewrite !bind_assoc; apply bind_ext; intros [] s8; [|done]. rewrite !bind_assoc. apply bind_ext. done.
Qed.

Lemma writei_loop_ok fuel src off n tot bs s P Q : here s P ∅ -> tracked s P Q -> Z.of_nat (size Q) + span off (n - tot) + 5 <= LOGBLOCKS ->
  0 <= off -> 0 <= tot <= n -> off + (n - tot) <= MAXFILE * BSIZE -> src_has (fs_um s) src bs -> Z.of_nat (length bs) = n - tot ->
  span off (n - tot) <= Z.of_nat fuel ->
  exists r s' P' Q', writei_loop fuel ip src off n tot s = Ok (tot + r, off + r) s' /\ 0 <= r <= n - tot /\
    (r < n - tot -> full sb (G s') /\ (r = 0 \/ (off + r) mod BSIZE = 0)) /\
    here s' P' ∅ /\ tracked s' P' Q' /\ Q ⊆ Q' /\ Z.of_nat (size Q') <= Z.of_nat (size Q) + span off (n - tot) /\ wrote off (take (Z.to_nat r) bs) s s'.
Proof using ly.
  revert src off tot bs s P Q. induction fuel as [|fuel IH]; intros src off tot bs s P Q Hh HQ Hroom Ho Htot Hmax Hsrc Hlen Hsp.
  all: destruct (decide (tot = n)) as [->|Hne];
    [exists 0, s, P, Q; rewrite Z.sub_diag in *; cbn [writei_loop]; rewrite Z.ltb_irrefl, !Z.add_0_r;
     split_and!; try done; try lia; by apply wrote_nil, (h_len _ _ _ _ _ _ Hh)|].
  { pose proof (span_step off (n - tot) _ Ho ltac:(lia) eq_refl). lia. }
  rewrite writei_loop_unfold by lia. cbn zeta. set (m := Z.min (n - tot) (BSIZE - off mod BSIZE)).
  destruct (span_step off (n - tot) m Ho ltac:(lia) eq_refl) as (Hm & Hs1 & Hs2). pose proof (tracked_size _ _ _ HQ) as HPQ.
  assert (Hbn : 0 <= off / BSIZE < MAXFILE) by (apply block_index; lia). assert (HNB : LOGBLOCKS = Z.of_nat NBUF) by reflexivity.
  destruct (bmap_ok sb ip D ly s P (off / BSIZE) Hh Hbn ltac:(lia) ltac:(lia)) as (s1 & P1 & E1 & Hh1 & Hg1 & Hl1 & Hf1). step_with E1.
  pose proof (tracked_bmap _ _ _ _ _ _ HQ Hg1 Hl1) as HQ1. pose proof (grown_wrote _ off _ _ _ Hh Hg1) as Hw1.
  set (a := A s1 (file_slot (off / BSIZE))) in *. pose proof (size_add_le a Q) as HsQ. pose proof (h_len _ _ _ _ _ _ Hh) as Hl.
  destruct (Z.eqb_spec a 0) as [Ea|Hna].
  { exists 0, s1, P1, ({[a]} ∪ Q). rewrite !Z.add_0_r. split_and!; try done; [lia|intros _; split; [by apply Hf1|by left]|set_solver|lia]. }
  pose proof (tracked_size _ _ _ HQ1) as HPQ1. set (b1 := take (Z.to_nat m) bs). set (b2 := drop (Z.to_nat m) bs).
  assert (Hb12 : bs = b1 ++ b2) by (symmetry; apply take_drop). assert (Hb1 : m = Z.of_nat (length b1)) by (unfold b1; rewrite length_take; lia).
  assert (Hsrc1 : src_has (fs_um s1) src (b1 ++ b2)).
  { rewrite <- Hb12. eapply src_has_same; [apply (wr_user _ _ _ _ Hw1)|done]. }
  destruct (store_chunk_ok s1 P1 off m src b1 b2 Hh1 ltac:(lia) ltac:(lia) Hna Ho ltac:(lia) ltac:(lia) ltac:(lia) Hsrc1 Hb1) as (s2 & E2 & Hh2 & Hw2 & Hsrc2 & HA2).
  fold a in E2, Hh2. step_with E2.
  assert (HQ2 : tracked s2 ({[a]} ∪ P1) ({[a]} ∪ Q)) by (apply (tracked_store s1); [done|set_solver|done]).
  assert (Hw : wrote off b1 s s2).
  { change b1 with ([] ++ b1). eapply wrote_then; [exact Hh|exact Hw1| | |done]; cbn [length]; [by rewrite Z.add_0_r|lia]. }
  replace (n - (tot + m)) with (n - tot - m) in * by lia.
  destruct (IH (loc_add src m) (off + m) (tot + m) b2 s2 ({[a]} ∪ P1) ({[a]} ∪ Q) Hh2 HQ2) as (r & s' & P' & Q' & E & Hr & Hf & Hh' & HQ' & Hsub & HsQ' & Hw3);
    try lia; try done.
  { replace (n - (tot + m)) with (n - tot - m) by lia. lia. }
  { unfold b2. rewrite length_drop. lia. }
  { replace (n - (tot + m)) with (n - tot - m) by lia. lia. }
  replace (n - (tot + m)) with (n - tot - m) in * by lia.
  exists (m + r), s', P', Q'. split_and!; [rewrite E; do 2 f_equal; lia|lia|lia| |done|done|set_solver|lia|].
  { intros Hlt. destruct (Hf ltac:(lia)) as [Hf' Hcut]. split; [done|right]. rewrite Z.add_assoc. destruct Hcut as [->|]; [|done].
    rewrite Z.add_0_r. unfold m, BSIZE in *. dlia. }
  rewrite Hb12, take_app_ge by lia. replace (Z.to_nat (m + r) - length b1)%nat with (Z.to_nat r) by lia.
  rewrite Hb1 in Hw3. eapply wrote_then; [exact Hh|exact Hw|exact Hw3| |done]. rewrite length_take. lia.
Qed.

(** The blocks of the free map. *)
Definition bitmap_set : gset Z := list_to_set (seqZ (sb_bmapstart sb) (bmap_end sb - sb_bmapstart sb)).
Lemma elem_of_bitmap_set b : b ∈ bitmap_set <-> in_bitmap sb b.
Proof using. clear ly D. unfold bitmap_set, in_bitmap. rewrite elem_of_list_to_set, elem_of_seqZ. lia. Qed.
Lemma size_bitmap_set : Z.of_nat (size bitmap_set) = bmap_end sb - sb_bmapstart sb.
Proof using ly.
  unfold bitmap_set. rewrite size_list_to_set by apply NoDup_seqZ. rewrite length_seqZ. pose proof bmap_end_start. lia.
Qed.
Lemma tracked_start s P : tracked s P (P ∪ bitmap_set).
Proof using. clear ly D. split; [intros b Hb; left; set_solver|]. intros b Hb%elem_of_bitmap_set. set_solver. Qed.
Lemma size_start P : Z.of_nat (size (P ∪ bitmap_set)) <= Z.of_nat (size P) + (bmap_end sb - sb_bmapstart sb).
Proof using ly.
  rewrite <- size_bitmap_set. rewrite (size_union_alt P bitmap_set). pose proof (subseteq_size (bitmap_set ∖ P) bitmap_set ltac:(set_solver)). lia.
Qed.

(** The size of the inode is raised to [n]. *)
Lemma here_size s P n : here s P ∅ -> 0 <= n <= MAXFILE * BSIZE -> (forall o, 0 <= o < n -> A s (file_slot (o / BSIZE)) <> 0) ->
  here (seti s ip (set_i_d (geti s ip) (set_d_size (din s) n))) P ∅.
Proof using ly.
  intros [H1 H2 H3 H4 H5 W] Hn Hd. set (s' := seti _ _ _). assert (Eg : geti s' ip = set_i_d (geti s ip) (set_d_size (din s) n)) by (by apply geti_seti).
  assert (Ei : inum s' = inum s) by (unfold FsMap.inum; by rewrite Eg). assert (Ed : din s' = set_d_size (din s) n) by (unfold FsMap.din at 1; by rewrite Eg).
  assert (EV : forall i, V s' i = if i =? inum s then set_d_size (din s) n else V s i).
  { intros i. unfold FsMap.V. rewrite Ei, Ed. unfold upd. by destruct (i =? inum s). }
  assert (HM : MAXFILE * BSIZE < 2 ^ 32) by (by vm_compute).
  split; [done|done|cbn; by rewrite length_insert|by rewrite Eg|by rewrite Ei|]. apply (wf_cong sb (ly_pos sb ly) (G s) (V s)); try done.
  - intros i k Hi Hk. rewrite EV. destruct (Z.eqb_spec i (inum s)) as [->|]; [|done]. by rewrite V_self.
  - intros i Hi. rewrite EV. destruct (Z.eqb_spec i (inum s)) as [->|]; [|split; [by apply (wf_dinode _ _ _ W)|by apply (wf_size _ _ _ W)]].
    pose proof (wf_dinode _ _ _ W _ Hi) as [K1 K2 K3 K4 K5 K6 K7]. rewrite V_self in *. split; [split; try done; cbn; lia|cbn; lia].
  - intros i bn Hi Hbn Hs. rewrite EV in Hs. destruct (Z.eqb_spec i (inum s)) as [->|]; [|by apply (wf_dense _ _ _ W)]. rewrite V_self.
    cbn in Hs. specialize (Hd (bn * BSIZE) ltac:(unfold BSIZE in *; lia)). by rewrite Z.div_mul in Hd by (unfold BSIZE; lia).
Qed.

(** [iupdate] at the end of an operation: the disk inode is the one in memory. *)
Lemma here_iupdate s P : here s P ∅ -> (size P < NBUF)%nat ->
  exists s' P', iupdate ip s = Ok tt s' /\ here s' P' ∅ /\ P' = {[IBLOCK (inum s) sb]} ∪ P /\ it_inode s' = it_inode s /\ it_lock s' = it_lock s /\ fs_um s' = fs_um s /\
    (forall j, 0 <= j < sb_ninodes sb -> inode_at (G s') sb j = if j =? inum s then din s else inode_at (G s) sb j) /\
    (forall k, sb_bmapstart sb <= k -> G s' k = G s k).
Proof using ly.
  intros Hh Hroom. pose proof Hh as [H1 H2 H3 H4 H5 W]. assert (HNB : LOGBLOCKS = Z.of_nat NBUF) by reflexivity.
  destruct (iupdate_ok sb s P ∅ ip (ly_inodes sb ly) H1 H2 H4 H5 (din_ok sb ip D s P ∅ Hh)) as (x & E & Hok & Hin & Hot);
    [set_solver|rewrite union_empty_r_L; lia|lia|].
  destruct (IBLOCK_range sb (inum s) (ly_inodes sb ly) H5) as (EB & _). pose proof (ly_order sb ly _ H5) as Hlow.
  assert (Hg : forall k, sb_bmapstart sb <= k -> io_get x k = G s k) by (intros k Hk; apply Hot; fold (inum s); lia).
  exists (set_io s x), ({[IBLOCK (inum s) sb]} ∪ P). split_and!; try done. split; try done.
  change (V (set_io s x)) with (V s). apply (wf_blocks sb (ly_pos sb ly) (G s)); [done| |].
  - intros i k Hi Hk. apply slot_addr_ext. intros Hne. destruct (wf_indirect sb _ _ i W Hi Hne) as [Hr _]. apply Hg. pose proof bmap_end_start. lia.
  - intros b Hb. unfold used. change (G (set_io s x)) with (io_get x). rewrite Hg; [done|]. by apply (BBLOCK_range sb b (ly_bitmap sb ly)).
Qed.

(** The contents of a file after a write at [off], which is at most its size. *)
Lemma contents_wrote s s' off b i (d' : dinode) n : wrote off b s s' -> 0 <= i < sb_ninodes sb -> 0 <= n <= MAXFILE * BSIZE ->
  di_addrs d' = di_addrs (V s' i) -> di_size d' = n -> 0 <= di_size (V s i) ->
  (if i =? inum s then 0 <= off <= di_size (V s i) /\ n = Z.max (di_size (V s i)) (off + Z.of_nat (length b)) else n = di_size (V s i)) ->
  contents (G s') d' = if i =? inum s then splice (contents (G s) (V s i)) (Z.to_nat off) b else contents (G s) (V s i).
Proof using.
  clear ly. intros Hw Hi Hn Ha En Hsz Hcase. apply list_eq. intros q. pose proof length_contents as Hlen.
  pose proof (lookup_contents (G s) (V s i)) as Hold.
  assert (Hq : contents (G s') d' !! q = if decide (Z.of_nat q < n) then Some (file_byte (G s') (V s' i) (Z.of_nat q)) else None).
  { rewrite lookup_contents, En. case_decide; [|done]. unfold file_byte, slot_addr. by rewrite Ha. }
  rewrite Hq. destruct (Z.eqb_spec i (inum s)) as [Ei|Hne].
  - destruct Hcase as [Hoff ->]. unfold splice. case_decide as Hlt.
    + rewrite (wr_bytes _ _ _ _ Hw) by (done || lia). destruct (Z.eqb_spec i (inum s)); [|done]. cbn [andb].
      destruct (Z.leb_spec off (Z.of_nat q)), (Z.ltb_spec (Z.of_nat q) (off + Z.of_nat (length b))); cbn [andb].
      * rewrite lookup_app_r by (rewrite length_take, Hlen; lia). rewrite length_take, Hlen. rewrite lookup_app_l by lia. unfold nthz.
        replace (Z.to_nat (Z.of_nat q - off)) with (q - Z.to_nat off `min` Z.to_nat (di_size (V s i)))%nat by lia.
        destruct (lookup_lt_is_Some_2 b (q - Z.to_nat off `min` Z.to_nat (di_size (V s i)))) as [v E]; [lia|]. by rewrite E.
      * rewrite lookup_app_r by (rewrite length_take, Hlen; lia). rewrite length_take, Hlen. rewrite lookup_app_r by lia. rewrite lookup_drop, Hold.
        rewrite decide_True by lia. do 2 f_equal. lia.
      * rewrite lookup_app_l by (rewrite length_take, Hlen; lia). rewrite lookup_take_lt by lia. rewrite Hold. by rewrite decide_True by lia.
      * lia.
    + symmetry. apply lookup_ge_None. rewrite !length_app, length_take, length_drop, Hlen. lia.
  - rewrite Hold, <- Hcase. case_decide; [|done]. rewrite (wr_bytes _ _ _ _ Hw) by (done || lia). by destruct (Z.eqb_spec i (inum s)).
Qed.

(** What a write leaves: [r] bytes of [bs] are in the file at [off], the size
    covers them, the inode is on disk, and other files are as they were. *)
Record written (off r : Z) (bs : list Z) s s' : Prop := {
  wn_contents : contents (G s') (din s') = splice (contents (G s) (din s)) (Z.to_nat off) (take (Z.to_nat r) bs);
  wn_meta : di_type (din s') = di_type (din s) /\ di_nlink (din s') = di_nlink (din s) /\ di_size (din s') = Z.max (di_size (din s)) (off + r);
  wn_inum : inum s' = inum s;
  wn_table : forall j, j <> ip -> geti s' j = geti s j;
  wn_entry : geti s' ip = set_i_d (geti s ip) (din s');
  wn_lock : it_lock s' = it_lock s;
  wn_others : forall j, 0 <= j < sb_ninodes sb -> j <> inum s -> contents (G s') (D j) = contents (G s) (D j);
  wn_disk : forall j, 0 <= j < sb_ninodes sb -> inode_at (G s') sb j = if j =? inum s then din s' else inode_at (G s) sb j;
  wn_user : same_user (fs_um s) (fs_um s')
}.

(** The end of [writei]: the size is raised and the inode written. *)
Definition write_end (off : Z) : M FS unit :=
  s <- get ;;
  when (di_size (i_d (geti s ip)) <? off) (updd ip (fun d => set_d_size d off)) ;;;
  iupdate ip.

Lemma set_size_ok s s1 P P1 off b : here s P ∅ -> here s1 P1 ∅ -> wrote off b s s1 -> 0 <= off <= di_size (din s) ->
  off + Z.of_nat (length b) <= MAXFILE * BSIZE ->
  exists d2, let s2 := seti s1 ip (set_i_d (geti s ip) d2) in
    when (di_size (i_d (geti s1 ip)) <? off + Z.of_nat (length b)) (updd ip (fun d => set_d_size d (off + Z.of_nat (length b)))) s1 = Ok tt s2 /\ here s2 P1 ∅ /\
    di_addrs d2 = di_addrs (din s1) /\ di_type d2 = di_type (din s) /\ di_nlink d2 = di_nlink (din s) /\
    di_size d2 = Z.max (di_size (din s)) (off + Z.of_nat (length b)).
Proof using ly.
  intros Hh Hh1 Hw Hoff Hmax. destruct (wrote_inum _ _ _ _ (h_len _ _ _ _ _ _ Hh) Hw) as [Ei (M1 & M2 & M3 & M4 & M5)].
  assert (Eg : geti s1 ip = set_i_d (geti s ip) (din s1)).
  { destruct Hw as [(d & E & _) _ _ _ _ _ _]. unfold FsMap.din, geti. rewrite E, list_lookup_insert_eq; [done|apply (h_len _ _ _ _ _ _ Hh)]. }
  fold (din s1). rewrite M5. destruct (Z.ltb_spec (di_size (din s)) (off + Z.of_nat (length b))).
  - exists (set_d_size (din s1) (off + Z.of_nat (length b))). cbn zeta.
    assert (Es : set_i_d (geti s ip) (set_d_size (din s1) (off + Z.of_nat (length b))) = set_i_d (geti s1 ip) (set_d_size (din s1) (off + Z.of_nat (length b)))) by (by rewrite Eg).
    rewrite Es. split_and!; try done; [|cbn; lia]. apply here_size; [done|lia|]. intros o Ho.
    destruct (decide (o < off)) as [Hlo|]; [|apply (wr_dense _ _ _ _ Hw); lia]. by destruct (here_dense sb ip D s1 P1 ∅ o Hh1 ltac:(lia)).
  - exists (din s1). cbn zeta. rewrite <- Eg, seti_geti by apply (h_len _ _ _ _ _ _ Hh1). split_and!; try done. lia.
Qed.

Lemma write_end_ok s s1 P P1 off b bs r : here s P ∅ -> here s1 P1 ∅ -> wrote off b s s1 -> 0 <= off <= di_size (din s) ->
  off + Z.of_nat (length b) <= MAXFILE * BSIZE -> b = take (Z.to_nat r) bs -> r = Z.of_nat (length b) -> (size P1 < NBUF)%nat ->
  exists s' , write_end (off + r) s1 = Ok tt s' /\ here s' ({[IBLOCK (inum s) sb]} ∪ P1) ∅ /\ written off r bs s s' /\ (full sb (G s1) -> full sb (G s')).
Proof using ly.
  intros Hh Hh1 Hw Hoff Hmax Hb Hr Hroom. destruct (wrote_inum _ _ _ _ (h_len _ _ _ _ _ _ Hh) Hw) as [Ei _].
  destruct (set_size_ok s s1 P P1 off b Hh Hh1 Hw Hoff Hmax) as (d2 & E2 & Hh2 & D1 & D2 & D3 & D4). set (s2 := seti s1 ip (set_i_d (geti s ip) d2)) in *.
  pose proof (h_len _ _ _ _ _ _ Hh1) as Hl1. assert (Eg2 : geti s2 ip = set_i_d (geti s ip) d2) by (by apply geti_seti).
  destruct (here_iupdate s2 P1 Hh2 Hroom) as (s3 & P3 & E3 & Hh3 & -> & T1 & T2 & T3 & Hin & Hg).
  assert (Ei2 : inum s2 = inum s) by (unfold FsMap.inum; by rewrite Eg2). rewrite Ei2 in *.
  assert (Ed2 : din s2 = d2) by (unfold FsMap.din; by rewrite Eg2). rewrite Ed2 in *.
  assert (Eg3 : geti s3 ip = set_i_d (geti s ip) d2) by (rewrite <- Eg2; unfold geti; by rewrite T1).
  assert (Ed3 : din s3 = d2) by (unfold FsMap.din; by rewrite Eg3). pose proof bmap_end_start as Hbe. pose proof (bl_start _ (ly_bitmap sb ly)) as Hb0.
  pose proof (h_wf _ _ _ _ _ _ Hh1) as W1.
  (* blocks of files are untouched by iupdate *)
  assert (Hc : forall j d, 0 <= j < sb_ninodes sb -> di_addrs d = di_addrs (V s1 j) -> di_size d <= MAXFILE * BSIZE -> contents (G s3) d = contents (G s1) d).
  { intros j d Hj Ha Hds. apply list_eq. intros q. rewrite !lookup_contents. case_decide as Hq; [|done]. f_equal.
    assert (Hsl : forall g k, slot_addr g d k = slot_addr g (V s1 j) k) by (intros g k; unfold slot_addr; by rewrite Ha).
    assert (Hsl3 : forall k, slot_addr (G s3) d k = slot_addr (G s1) d k).
    { intros k. apply slot_addr_ext. intros Hne. rewrite Ha in *. destruct (wf_indirect sb _ _ j W1 Hj Hne) as [Hrg _]. apply Hg. lia. }
    apply file_byte_eq; [apply Hsl3|]. rewrite Hsl. intros Hne.
    destruct (wf_file_block sb _ _ j (Z.of_nat q / BSIZE) W1 Hj ltac:(apply block_index; lia) Hne) as [Hrg _]. apply Hg. lia. }
  assert (Hsz : forall j, 0 <= j < sb_ninodes sb -> 0 <= di_size (V s j) /\ di_size (V s j) <= MAXFILE * BSIZE).
  { intros j Hj. split; [apply (dk_size _ (wf_dinode _ _ _ (h_wf _ _ _ _ _ _ Hh) j Hj))|apply (wf_size _ _ _ (h_wf _ _ _ _ _ _ Hh) j Hj)]. }
  pose proof (h_inum _ _ _ _ _ _ Hh) as Hi.
  assert (EV1 : V s1 (inum s) = din s1) by (rewrite <- Ei; apply V_self).
  assert (Hlow : forall j, 0 <= j < sb_ninodes sb -> IBLOCK j sb < sb_bmapstart sb).
  { intros j Hj. destruct (IBLOCK_range sb j (ly_inodes sb ly) Hj) as (-> & _). by apply (ly_order sb ly). }
  exists s3. split_and!; [|done| |].
  - unfold write_end. unfold bind at 1, get. rewrite Hr. step_with E2. exact E3.
  - rewrite Hr. destruct (Hsz (inum s) Hi) as [Hs0 Hs1]. rewrite V_self in Hs0, Hs1.
    split; rewrite ?Ed3, ?Eg3; try done.
    + rewrite (Hc (inum s)) by (rewrite ?EV1; done || lia).
      pose proof (contents_wrote s s1 off b (inum s) d2 (di_size d2) Hw Hi) as C. rewrite V_self, Z.eqb_refl in C. rewrite C; try done; [by rewrite <- Hr, <- Hb|lia|by rewrite EV1].
    + unfold FsMap.inum at 1. by rewrite Eg3.
    + intros j Hj. destruct Hw as [(d & E & _) _ _ _ _ _ _]. unfold geti. rewrite T1. cbn. rewrite list_lookup_insert_ne by done. rewrite E.
      by rewrite list_lookup_insert_ne by done.
    + rewrite T2. apply (wr_lock _ _ _ _ Hw).
    + intros j Hj Hne. assert (EVj : V s j = D j) by (by apply upd_other). assert (EV1j : V s1 j = D j) by (apply upd_other; by rewrite Ei).
      destruct (Hsz j Hj) as [Hj0 Hj1]. rewrite EVj in Hj0, Hj1. rewrite (Hc j) by (rewrite ?EV1j; done).
      pose proof (contents_wrote s s1 off b j (D j) (di_size (D j)) Hw Hj) as C. rewrite EVj, EV1j in C. destruct (Z.eqb_spec j (inum s)); [done|]. by apply C.
    + intros j Hj. rewrite Hin by done. destruct (j =? inum s); [done|]. unfold inode_at. change (G s2) with (G s1). by rewrite (wr_low _ _ _ _ Hw) by auto.
    + rewrite T3. apply (wr_user _ _ _ _ Hw).
  - intros Hf c Hc'. unfold used. rewrite Hg; [by apply Hf|]. by apply (BBLOCK_range sb c (ly_bitmap sb ly)).
Qed.

Lemma writei_ok s P src off n bs : here s P ∅ -> 0 <= off <= di_size (din s) -> 0 <= n -> off + n <= MAXFILE * BSIZE ->
  src_has (fs_um s) src bs -> Z.of_nat (length bs) = n ->
  Z.of_nat (size P) + (bmap_end sb - sb_bmapstart sb) + span off n + 5 <= LOGBLOCKS ->
  exists r s' P', writei ip src off n s = Ok r s' /\ 0 <= r <= n /\
    (r < n -> full sb (G s') /\ (r = 0 \/ (off + r) mod BSIZE = 0)) /\ here s' P' ∅ /\ written off r bs s s' /\
    Z.of_nat (size P') <= Z.of_nat (size P) + (bmap_end sb - sb_bmapstart sb) + span off n + 2.
Proof using ly.
  intros Hh Hoff Hn Hmax Hsrc Hlen Hroom. assert (HM : MAXFILE * BSIZE = 274432) by reflexivity. pose proof (size_start P) as HsP.
  destruct (writei_loop_ok (Z.to_nat (n / BSIZE + 2)) src off n 0 bs s P (P ∪ bitmap_set) Hh (tracked_start s P)) as (r & s1 & P1 & Q1 & E1 & Hr & Hf & Hh1 & HQ1 & _ & Hs1 & Hw);
    rewrite ?Z.sub_0_r in *; try lia; try done.
  { unfold span, BSIZE. destruct (Z.leb_spec n 0); [lia|]. assert (0 <= n / 1024) by dlia. rewrite Z2Nat.id by lia. dlia. }
  pose proof (tracked_size _ _ _ HQ1) as HP1. assert (HNB : LOGBLOCKS = Z.of_nat NBUF) by reflexivity.
  assert (Hlr : r = Z.of_nat (length (take (Z.to_nat r) bs))) by (rewrite length_take; lia).
  destruct (write_end_ok s s1 P P1 off _ bs r Hh Hh1 Hw Hoff ltac:(lia) eq_refl Hlr ltac:(lia)) as (s' & E2 & Hh' & Hwn & Hff).
  exists r, s', ({[IBLOCK (inum s) sb]} ∪ P1). split_and!; try done; try lia; [|intros Hlt; destruct (Hf Hlt); auto|pose proof (size_add_le (IBLOCK (inum s) sb) P1); lia].
  unfold writei. unfold bind at 1, get. fold (din s). destruct (Z.ltb_spec (di_size (din s)) off); [lia|].
  rewrite u32_small by lia. destruct (Z.ltb_spec (off + n) off); [lia|]. cbn [orb]. destruct (Z.ltb_spec (MAXFILE * BSIZE) (off + n)); [lia|].
  step_with E1. transitivity ((write_end (off + r) ;;; ret r) s1); [|by step_with E2].
  unfold write_end. rewrite bind_assoc. apply bind_ext. intros s2 s3. by rewrite bind_assoc.
Qed.

Lemma writei_refuses s src off n : 0 <= off < 2 ^ 32 -> 0 <= n < 2 ^ 32 ->
  (di_size (din s) <? off) || (MAXFILE * BSIZE <? off + n) = true -> writei ip src off n s = Ok (-1) s.
Proof using.
  clear ly D. intros Hoff Hn Hr. change (MAXFILE * BSIZE) with 274432 in *. unfold writei. unfold bind at 1, get. fold (din s).
  change (MAXFILE * BSIZE) with 274432. destruct (Z.ltb_spec (di_size (din s)) off); [done|]. cbn [orb] in *. apply Z.ltb_lt in Hr.
  destruct (decide (off + n < 2 ^ 32)) as [Hs|Hs].
  - rewrite u32_small by lia. destruct (Z.ltb_spec (off + n) off); [done|]. by destruct (Z.ltb_spec 274432 (off + n)); [|lia].
  - assert (u32 (off + n) < off) by (unfold u32; rewrite <- (Z_mod_plus_full _ (-1)), Z.mod_small; lia). by destruct (Z.ltb_spec (u32 (off + n)) off); [|lia].
Qed.

End writes.
