(* ===== verification/FsDir.v ===== *)
(** * Directories: dirlookup and dirlink *)

From stdpp Require Import base gmap list numbers strings sets.
From Stdlib Require Import ZArith Lia.
From S2P Require Import Prelude Mem Spinlock Bytes Sleeplock Disk Bio BlockIO Fs FsSpec FsAlloc FsInode ProcEnv FsOwn FsMap FsFile.
Open Scope Z_scope.
Open Scope kernel_scope.

(** ** Names *)

(** The name in a buffer: the bytes before the first NUL, at most [k]. *)
Fixpoint cname (k : nat) (l : list Z) : list Z :=
  match k, l with
  | Datatypes.S k', c :: l' => if c =? 0 then [] else c :: cname k' l'
  | _, _ => []
  end.
Definition dname : list Z -> list Z := cname (Z.to_nat DIRSIZ).

Lemma strncmp_zero k p q : strncmp_list k p q = 0 <-> cname k p = cname k q.
Proof.
  assert (Hhd : forall k l, cname (Datatypes.S k) l = if default 0 (hd_error l) =? 0 then [] else default 0 (hd_error l) :: cname k (tail l)).
  { clear. intros k [|c l]; [done|]. reflexivity. }
  revert p q. induction k as [|k IH]; intros p q; [done|]. cbn [strncmp_list]. rewrite !Hhd. set (a := default 0 (hd_error p)). set (b := default 0 (hd_error q)).
  destruct (Z.eqb_spec a 0) as [Ha|Ha]; cbn [negb andb].
  - rewrite Ha. destruct (Z.eqb_spec b 0) as [->|]; [done|]. split; [lia|done].
  - destruct (Z.eqb_spec a b) as [<-|Hne].
    + destruct (Z.eqb_spec a 0); [done|]. rewrite IH. split; [by intros ->|congruence].
    + destruct (Z.eqb_spec b 0); (split; [lia|]); [done|congruence].
Qed.

Lemma namecmp_zero s t : namecmp s t = 0 <-> dname s = dname t.
Proof. apply strncmp_zero. Qed.

Lemma namecmp_eq s t : (namecmp s t =? 0) = bool_decide (dname s = dname t).
Proof. destruct (Z.eqb_spec (namecmp s t) 0) as [E|E]; rewrite namecmp_zero in E; by case_bool_decide. Qed.

Lemma cname_pad k l n : (k <= n)%nat -> cname k (take n (l ++ replicate n 0)) = cname k l.
Proof.
  revert l n. induction k as [|k IH]; intros l n Hk; [done|]. destruct n as [|n]; [lia|]. destruct l as [|c l]; cbn [app take cname]; [done|].
  destruct (c =? 0); [done|]. f_equal. rewrite <- (IH l n) by lia. f_equal.
  destruct (decide (n <= length l)%nat); [by rewrite !take_app_le by done|]. rewrite !take_app_ge by lia. f_equal.
  rewrite !take_replicate. f_equal. lia.
Qed.

Lemma dname_pad name : dname (strncpy_name name) = dname name.
Proof. by apply cname_pad. Qed.

(** ** Entries *)

(** Entry [k] of a directory with contents [c]. *)
Definition dirent (c : list Z) (k : Z) : list Z := take 16 (drop (Z.to_nat (16 * k)) c).
Definition is_entry (c name : list Z) (k : Z) : bool :=
  negb (de_inum (dirent c k) =? 0) && bool_decide (dname name = dname (de_name (dirent c k))).
Definition dir_find (c name : list Z) : option Z := List.find (is_entry c name) (seqZ 0 (Z.of_nat (length c) / 16)).
(** The directory as a function from names to inode numbers. *)
Definition dir_lookup (c name : list Z) : option Z := (fun k => de_inum (dirent c k)) <$> dir_find c name.

Lemma dirent_mk inum name : length (strncpy_name name) = 14%nat /\ length (mk_dirent inum name) = 16%nat.
Proof.
  assert (E : length (strncpy_name name) = 14%nat) by (unfold strncpy_name, DIRSIZ; rewrite length_take, length_app, length_replicate; lia).
  split; [done|]. unfold mk_dirent. by rewrite length_app, length_le_bytes, E.
Qed.

Lemma de_inum_mk inum name : de_inum (mk_dirent inum name) = inum mod 2 ^ 16.
Proof.
  unfold de_inum, getn, mk_dirent. change (Z.to_nat 0) with 0%nat. rewrite drop_0. rewrite take_app_le by (by rewrite length_le_bytes).
  rewrite take_ge by (by rewrite length_le_bytes). by rewrite le_value_bytes.
Qed.

Lemma de_name_mk inum name : de_name (mk_dirent inum name) = strncpy_name name.
Proof. unfold de_name, mk_dirent. apply drop_app_length'. by rewrite length_le_bytes. Qed.

(** Replacing or appending entry [k] of a directory. *)
Lemma dirent_splice c k j e : length e = 16%nat -> 0 <= k -> 0 <= j -> 16 * k <= Z.of_nat (length c) -> Z.of_nat (length c) mod 16 = 0 ->
  dirent (splice c (Z.to_nat (16 * k)) e) j = if j =? k then e else dirent c j.
Proof.
  intros He Hk Hj Hle Hmod. unfold dirent. destruct (Z.eqb_spec j k) as [->|Hne].
  - unfold splice. rewrite drop_app_length' by (rewrite length_take; lia). rewrite <- He. apply take_app_length.
  - apply list_eq. intros i. destruct (decide (i < 16)%nat) as [Hi|Hi]; [|by rewrite !lookup_take_ge by lia].
    rewrite !lookup_take_lt, !lookup_drop by done. unfold splice.
    destruct (decide (Z.to_nat (16 * j) + i < Z.to_nat (16 * k))%nat) as [Hlt|Hge].
    + rewrite lookup_app_l by (rewrite length_take; lia). by rewrite lookup_take_lt by lia.
    + rewrite lookup_app_r by (rewrite length_take; lia). rewrite length_take, Nat.min_l by lia. rewrite lookup_app_r by lia.
      rewrite lookup_drop. f_equal. lia.
Qed.

Lemma length_dir_splice (c e : list Z) k : length e = 16%nat -> 0 <= k -> 16 * k <= Z.of_nat (length c) -> Z.of_nat (length c) mod 16 = 0 ->
  Z.of_nat (length (splice c (Z.to_nat (16 * k)) e)) = Z.max (Z.of_nat (length c)) (16 * (k + 1)).
Proof. intros He Hk Hle Hmod. unfold splice. rewrite !length_app, length_take, length_drop. dlia. Qed.

(** The directory after an entry that was free is set. *)
Lemma dir_lookup_link c k inum name name' : 0 <= k -> 16 * k <= Z.of_nat (length c) -> Z.of_nat (length c) mod 16 = 0 ->
  (16 * k < Z.of_nat (length c) -> de_inum (dirent c k) = 0) -> inum mod 2 ^ 16 <> 0 -> dir_find c name = None ->
  dir_lookup (splice c (Z.to_nat (16 * k)) (mk_dirent inum name)) name' =
    if bool_decide (dname name' = dname name) then Some (inum mod 2 ^ 16) else dir_lookup c name'.
Proof.
  intros Hk Hle Hmod Hfree Hin Hnone. set (c' := splice _ _ _). destruct (dirent_mk inum name) as [_ Hl].
  assert (HE : forall j, 0 <= j -> dirent c' j = if j =? k then mk_dirent inum name else dirent c j) by (intros; by apply dirent_splice).
  assert (Hlen : Z.of_nat (length c') / 16 = Z.max (Z.of_nat (length c) / 16) (k + 1)).
  { unfold c'. rewrite length_dir_splice by done. dlia. }
  assert (HI : forall nm j, 0 <= j -> is_entry c' nm j = if j =? k then bool_decide (dname nm = dname name) else is_entry c nm j).
  { intros nm j Hj. unfold is_entry. rewrite HE by done. destruct (j =? k); [|done]. rewrite de_inum_mk, de_name_mk, dname_pad.
    destruct (Z.eqb_spec (inum mod 2 ^ 16) 0); done. }
  assert (Hold : forall nm, k < Z.of_nat (length c) / 16 -> is_entry c nm k = false).
  { intros nm Hlt. unfold is_entry. rewrite Hfree by dlia. done. }
  unfold dir_lookup, dir_find in *. rewrite Hlen.
  pose proof (find_seqZ (is_entry c' name') 0 (Z.max (Z.of_nat (length c) / 16) (k + 1))) as F.
  pose proof (find_seqZ (is_entry c name') 0 (Z.of_nat (length c) / 16)) as F0.
  pose proof (find_seqZ (is_entry c name) 0 (Z.of_nat (length c) / 16)) as Fn. rewrite Hnone in Fn.
  assert (Hn0 : 0 <= Z.of_nat (length c) / 16 /\ k <= Z.of_nat (length c) / 16) by dlia.
  assert (Hsame : dname name' = dname name -> forall j, is_entry c name' j = is_entry c name j) by (intros E j; unfold is_entry; by rewrite E).
  destruct (List.find (is_entry c' name') _) as [j|]; cbn [fmap option_fmap option_map].
  - destruct F as (Hj & Ej & Hbefore). rewrite HI in Ej by lia. rewrite HE by lia. destruct (Z.eqb_spec j k) as [->|Hne].
    + rewrite Ej, de_inum_mk. done.
    + case_bool_decide as En; [rewrite (Hsame En), Fn in Ej; [done|]; destruct (decide (j < Z.of_nat (length c) / 16)); lia|].
      destruct (List.find (is_entry c name') _) as [j0|]; cbn.
      * destruct F0 as (Hj0 & Ej0 & Hb0). assert (j0 = j) as Ejj; [|by rewrite Ejj].
        destruct (decide (j0 < j)) as [Hlt|]; [|destruct (decide (j < j0)) as [Hlt|]; [|lia]].
        -- specialize (Hbefore j0 ltac:(lia)). rewrite HI in Hbefore by lia. destruct (Z.eqb_spec j0 k) as [Ek|]; [|congruence]. rewrite Ek, Hold in Ej0 by lia. done.
        -- rewrite Hb0 in Ej by lia. done.
      * rewrite F0 in Ej by lia. done.
  - specialize (F k ltac:(lia)) as Fk. rewrite HI, Z.eqb_refl in Fk by lia. rewrite Fk.
    destruct (List.find (is_entry c name') _) as [j0|]; [|done]. destruct F0 as (Hj0 & Ej0 & _). specialize (F j0 ltac:(lia)). rewrite HI in F by lia.
    destruct (Z.eqb_spec j0 k) as [Ek|]; [rewrite Ek, Hold in Ej0 by lia|congruence]. done.
Qed.

(** ** dirlookup and dirlink *)

Section dirs.
Context {S H U : Type} {io : BlockIO S H} {spec : BlockSpec S H} {env : ProcEnv U} {penv : ProcSpec U} (mypid : Z).
Notation FS := (fsst S U).
Implicit Types (s : FS) (x : S) (P Q : gset Z) (name : list Z).
Context (sb : superblock) (dp : nat) (D : Z -> dinode).
Notation here := (here sb dp D).
Notation din := (din dp).
Notation dir s := (contents (G s) (din s)).

(** A directory: whole entries. *)
Definition is_dir s : Prop := di_type (din s) = T_DIR /\ di_size (din s) mod 16 = 0.

Context (end_pos : 0 < bmap_end sb) (on_disk : sb_size sb <= io_nblocks).

Lemma dir_offsets_eq size : 0 <= size -> size mod 16 = 0 -> dir_offsets size = map (fun k => k * sizeof_dirent) (seqZ 0 (size / 16)).
Proof using. clear. intros H0 Hm. unfold dir_offsets, sizeof_dirent. do 2 f_equal. dlia. Qed.

Lemma set_um_same s : set_um s (fs_um s) = s.
Proof using. by destruct s. Qed.

(** Reading entry [k]. *)
Lemma read_entry s P k : here s P ∅ -> is_dir s -> (size P < NBUF)%nat -> 0 <= k < di_size (din s) / 16 ->
  exists x, readi dp (Kernel []) (k * sizeof_dirent) sizeof_dirent s = Ok (16, dirent (dir s) k) (set_io s x) /\ io_ok x P ∅ /\ forall b, io_get x b = G s b.
Proof using end_pos on_disk penv.
  intros Hh [_ Hm] Hroom Hk. unfold sizeof_dirent. pose proof (dk_size _ (din_ok sb dp D s P ∅ Hh)) as Hsz.
  pose proof (wf_size _ _ _ (h_wf _ _ _ _ _ _ Hh) _ (h_inum _ _ _ _ _ _ Hh)) as Hmax. rewrite V_self in Hmax. change (MAXFILE * BSIZE) with 274432 in Hmax.
  assert (Hfit : 0 <= k * 16 /\ k * 16 + 16 <= di_size (din s)) by dlia.
  destruct (readi_ok sb dp D end_pos on_disk s P (Kernel []) (k * 16) 16 Hh Hroom ltac:(lia) ltac:(lia) I) as (ok & bs & x & u' & E & Hok & Hg & Hc & Hb).
  cbn in Hc. destruct Hc as [-> ->]. specialize (Hb eq_refl).
  assert (Em : read_len (di_size (din s)) (k * 16) 16 = 16).
  { unfold read_len. destruct (Z.ltb_spec (di_size (din s)) (k * 16)), (Z.leb_spec (2 ^ 32) (k * 16 + 16)); cbn [orb]; lia. }
  rewrite Em in *. exists x. split_and!; [|done|done]. rewrite E. change (fs_um s) with (fs_um (set_io s x)). rewrite set_um_same. do 2 f_equal. rewrite Hb.
  rewrite slice_contents by lia. unfold dirent. by rewrite (Z.mul_comm k 16).
Qed.

(** A scan over the entries that acts on the first one [p] holds of. *)
Lemma scan_entries {R} s P (body : Z -> M FS (option R)) (p : Z -> bool) (act : Z -> M FS R) (n : nat) a x :
  io_ok x P ∅ -> (forall b, io_get x b = G s b) -> 0 <= a ->
  (forall k x, a <= k < a + Z.of_nat n -> io_ok x P ∅ -> (forall b, io_get x b = G s b) ->
     exists y, body (k * sizeof_dirent) (set_io s x) = (if p k then (v <- act k ;; ret (Some v)) (set_io s y) else Ok None (set_io s y)) /\
       io_ok y P ∅ /\ forall b, io_get y b = G s b) ->
  exists y, for_each (map (fun k => k * sizeof_dirent) (seqZ a (Z.of_nat n))) body (set_io s x) =
      (match List.find p (seqZ a (Z.of_nat n)) with Some k => (v <- act k ;; ret (Some v)) (set_io s y) | None => Ok None (set_io s y) end) /\
    io_ok y P ∅ /\ forall b, io_get y b = G s b.
Proof using.
  revert a x. induction n as [|n IH]; intros a x Hok Hg Ha Hb; [by exists x|].
  rewrite seqZ_cons by lia. replace (Z.pred (Z.of_nat (Datatypes.S n))) with (Z.of_nat n) by lia. cbn [map for_each List.find].
  destruct (Hb a x ltac:(lia) Hok Hg) as (y & E & Hoky & Hgy). unfold bind at 1. rewrite E. destruct (p a).
  - exists y. split_and!; [|done|done]. unfold bind. by destruct (act a (set_io s y)).
  - apply (IH (Z.succ a) y Hoky Hgy ltac:(lia)). intros k z Hk. apply Hb. lia.
Qed.

Lemma here_same s P x : here s P ∅ -> io_ok x P ∅ -> (forall b, io_get x b = G s b) -> here (set_io s x) P ∅ /\ dir (set_io s x) = dir s.
Proof using.
  intros Hh Hok Hg. split; [by apply (here_io sb dp D s P ∅)|]. apply map_ext. intros o. apply file_byte_eq; [apply slot_addr_ext|]; intros _; apply Hg.
Qed.

Lemma length_dir s P : here s P ∅ -> Z.of_nat (length (dir s)) = di_size (din s).
Proof using. intros Hh. rewrite length_contents. pose proof (dk_size _ (din_ok sb dp D s P ∅ Hh)). lia. Qed.

Lemma dirlookup_ok s P name : here s P ∅ -> is_dir s -> (size P < NBUF)%nat ->
  exists x, dirlookup dp name s = (match dir_find (dir s) name with
      | Some k => (v <- (ip <- iget io_dev (de_inum (dirent (dir s) k)) ;; ret (ip, k * 16)) ;; ret (Some v)) (set_io s x)
      | None => Ok None (set_io s x)
      end) /\ io_ok x P ∅ /\ forall b, io_get x b = G s b.
Proof using end_pos on_disk penv.
  intros Hh Hd Hroom. pose proof Hd as [Ht Hm]. pose proof (dk_size _ (din_ok sb dp D s P ∅ Hh)) as Hsz. assert (Hn : 0 <= di_size (din s) / 16) by dlia.
  unfold dirlookup. unfold bind at 1, get. fold (din s). rewrite Ht, Z.eqb_refl. cbn [negb]. rewrite dir_offsets_eq by (done || lia).
  unfold dir_find. rewrite (length_dir s P Hh).
  destruct (scan_entries s P (fun off => r <- readi dp (Kernel []) off sizeof_dirent ;;
      let '(n, de) := r in
      if negb (n =? sizeof_dirent) then panic "dirlookup read"
      else if de_inum de =? 0 then ret None
      else if namecmp name (de_name de) =? 0 then
        s <- get ;; ip <- iget (i_dev (geti s dp)) (de_inum de) ;; ret (Some (ip, off))
      else ret None) (is_entry (dir s) name) (fun k => ip <- iget io_dev (de_inum (dirent (dir s) k)) ;; ret (ip, k * 16)) (Z.to_nat (di_size (din s) / 16)) 0 (fs_io s))
    as (y & E & Hok & Hg); [apply (h_ok _ _ _ _ _ _ Hh)|done|lia| |].
  - intros k x Hk Hok Hg. destruct (here_same s P x Hh Hok Hg) as [Hhx Edir].
    destruct (read_entry (set_io s x) P k Hhx Hd Hroom ltac:(change (din (set_io s x)) with (din s); lia)) as (y & E & Hoky & Hgy).
    exists y. split_and!; [|done|intros b; rewrite Hgy; apply Hg]. step_with E. cbn [Z.eqb Pos.eqb negb sizeof_dirent]. rewrite Edir. unfold is_entry.
    change (16 =? sizeof_dirent) with true. cbn [negb]. destruct (de_inum (dirent (dir s) k) =? 0); [done|]. cbn [negb andb].
    rewrite <- (namecmp_eq name). destruct (namecmp name (de_name (dirent (dir s) k)) =? 0); [|done].
    unfold bind at 1, get. change (geti (set_io (set_io s x) y) dp) with (geti s dp). rewrite (h_dev _ _ _ _ _ _ Hh). rewrite bind_assoc. done.
  - rewrite Z2Nat.id in E by done. exists y. split_and!; [|done|done]. replace (set_io s (fs_io s)) with s in E by (by destruct s). exact E.
Qed.

(** The offset [dirlink] writes at: the first free entry, else the end. *)
Definition free_entry (c : list Z) : Z :=
  match List.find (fun k => de_inum (dirent c k) =? 0) (seqZ 0 (Z.of_nat (length c) / 16)) with
  | Some k => k
  | None => Z.of_nat (length c) / 16
  end.

Lemma free_entry_spec c : 0 <= free_entry c <= Z.of_nat (length c) / 16 /\
  (16 * free_entry c < Z.of_nat (length c) -> Z.of_nat (length c) mod 16 = 0 -> de_inum (dirent c (free_entry c)) = 0).
Proof using.
  clear. unfold free_entry. pose proof (find_seqZ (fun k => de_inum (dirent c k) =? 0) 0 (Z.of_nat (length c) / 16)) as F.
  assert (0 <= Z.of_nat (length c) / 16) by dlia. destruct (List.find _ _) as [k|].
  - destruct F as (F1 & F2 & _). split; [lia|]. intros _ _. lia.
  - split; [lia|]. dlia.
Qed.

Lemma dirlink_scan s P name inum : here s P ∅ -> is_dir s -> (size P < NBUF)%nat -> dir_find (dir s) name = None ->
  exists x, dirlink mypid dp name inum s =
      (n <- writei dp (Kernel (mk_dirent (u16 inum) name)) (free_entry (dir s) * 16) sizeof_dirent ;;
       if negb (n =? sizeof_dirent) then ret (-1) else ret 0) (set_io s x) /\ io_ok x P ∅ /\ forall b, io_get x b = G s b.
Proof using end_pos on_disk penv.
  intros Hh Hd Hroom Hnone. pose proof Hd as [Ht Hm]. pose proof (dk_size _ (din_ok sb dp D s P ∅ Hh)) as Hsz. assert (Hn : 0 <= di_size (din s) / 16) by dlia.
  destruct (dirlookup_ok s P name Hh Hd Hroom) as (x1 & E1 & Hok1 & Hg1). rewrite Hnone in E1.
  destruct (scan_entries s P (fun off => r <- readi dp (Kernel []) off sizeof_dirent ;;
        let '(n, de) := r in
        if negb (n =? sizeof_dirent) then panic "dirlink read"
        else if de_inum de =? 0 then ret (Some off) else ret None)
      (fun k => de_inum (dirent (dir s) k) =? 0) (fun k => ret (k * 16)) (Z.to_nat (di_size (din s) / 16)) 0 x1 Hok1 Hg1 ltac:(lia)) as (y & E2 & Hok2 & Hg2).
  { intros k x Hk Hok Hg. destruct (here_same s P x Hh Hok Hg) as [Hhx Edir].
    destruct (read_entry (set_io s x) P k Hhx Hd Hroom ltac:(change (din (set_io s x)) with (din s); lia)) as (y & E & Hoky & Hgy).
    exists y. split_and!; [|done|intros b; rewrite Hgy; apply Hg]. step_with E. change (16 =? sizeof_dirent) with true. cbn [negb]. rewrite Edir.
    by destruct (de_inum (dirent (dir s) k) =? 0). }
  rewrite Z2Nat.id in E2 by done.
  assert (Eoff : (di_size (din s) + sizeof_dirent - 1) / sizeof_dirent * sizeof_dirent = di_size (din s) / 16 * 16) by (unfold sizeof_dirent; dlia).
  exists y. split_and!; [|done|done]. unfold dirlink. step_with E1. unfold bind at 1, get. fold (din (set_io s x1)). change (din (set_io s x1)) with (din s).
  rewrite dir_offsets_eq by (done || lia). unfold free_entry. rewrite (length_dir s P Hh).
  destruct (List.find _ (seqZ 0 (di_size (din s) / 16))) as [k|]; cbv beta zeta; unfold bind at 1; rewrite E2; [done|].
  cbn beta iota. by rewrite Eoff.
Qed.
End dirs.

Section links.
Context {S H U : Type} {io : BlockIO S H} {spec : BlockSpec S H} {env : ProcEnv U} {penv : ProcSpec U} (mypid : Z).
Notation FS := (fsst S U).
Implicit Types (s : FS) (x : S) (P Q : gset Z) (name : list Z).
Context (sb : superblock) (dp : nat) (D : Z -> dinode) (ly : fs_layout sb).
Notation here := (here sb dp D).
Notation din := (din dp).
Notation inum := (inum dp).
Notation dir s := (contents (G s) (din s)).

Lemma mk_dirent_bytes i name : Forall is_byte name -> Forall is_byte (mk_dirent i name).
Proof using.
  clear. intros Hn. unfold mk_dirent, strncpy_name. apply Forall_app_2; [apply le_bytes_byte|]. apply Forall_take, Forall_app_2; [done|].
  apply Forall_replicate. unfold is_byte. lia.
Qed.

Lemma splice_nil {A} (l : list A) n : splice l n [] = l.
Proof using. clear. unfold splice. cbn. rewrite Nat.add_0_r. apply take_drop. Qed.

(** C25. [dirlink] adds a name to a directory. For a name that is not there and
    a 16-bit inode number, it returns 0 with exactly that name added, bound to
    that inode, in the first free entry or at the end, and every other name
    as before; or it returns -1 with the directory unchanged, and then the
    disk or the directory is full. In both cases no other file or inode
    changes and the file system stays consistent. *)
Theorem dirlink_adds_name s P name i : here s P ∅ -> is_dir dp s -> dir_find (dir s) name = None -> Forall is_byte name -> 0 < i < 2 ^ 16 ->
  Z.of_nat (size P) + (bmap_end sb - sb_bmapstart sb) + 6 <= LOGBLOCKS ->
  exists r s' P', dirlink mypid dp name i s = Ok r s' /\ here s' P' ∅ /\ is_dir dp s' /\
    (forall j, 0 <= j < sb_ninodes sb -> j <> inum s -> contents (G s') (D j) = contents (G s) (D j) /\ inode_at (G s') sb j = inode_at (G s) sb j) /\
    ((r = 0 /\ forall name', dir_lookup (dir s') name' = if bool_decide (dname name' = dname name) then Some i else dir_lookup (dir s) name') \/
     (r = -1 /\ dir s' = dir s /\ (full sb (G s') \/ di_size (din s) = MAXFILE * BSIZE))).
Proof using ly penv.
  intros Hh Hd Hnone Hnb Hi Hroom. pose proof (bl_size _ (ly_bitmap sb ly)) as Hbs. pose proof (bl_start _ (ly_bitmap sb ly)) as Hb0.
  assert (HNB : LOGBLOCKS = Z.of_nat NBUF) by reflexivity. pose proof (bmap_end_start sb ly) as Hbe. pose proof Hd as [Ht Hm].
  destruct (dirlink_scan mypid sb dp D (ly_pos sb ly) (proj2 Hbs) s P name i Hh Hd ltac:(lia) Hnone) as (x & E & Hok & Hg).
  destruct (here_same sb dp D s P x Hh Hok Hg) as [Hhx Edir]. set (s1 := set_io s x) in *. set (k := free_entry (dir s)) in *.
  destruct (free_entry_spec (dir s)) as [Hk Hfree]. fold k in Hk, Hfree. pose proof (length_dir sb dp D s P Hh) as Hlen. rewrite Hlen in *.
  pose proof (wf_size _ _ _ (h_wf _ _ _ _ _ _ Hh) _ (h_inum _ _ _ _ _ _ Hh)) as Hmax. rewrite V_self in Hmax. change (MAXFILE * BSIZE) with 274432 in *.
  pose proof (dk_size _ (din_ok sb dp D s P ∅ Hh)) as Hsz.
  assert (Hothers : forall j, contents (G s1) (D j) = contents (G s) (D j) /\ inode_at (G s1) sb j = inode_at (G s) sb j).
  { intros j. split; [|unfold inode_at; change (G s1) with (io_get x); by rewrite Hg]. apply map_ext. intros o. apply file_byte_eq; [apply slot_addr_ext|]; intros _; apply Hg. }
  destruct (decide (k * 16 + 16 <= 274432)) as [Hfit|Hbig]; cycle 1.
  { exists (-1), s1, P. split_and!; [|done|done|intros; apply Hothers|right; split_and!; [done|done|right; dlia]].
    assert (Ew : writei dp (Kernel (mk_dirent (u16 i) name)) (k * 16) sizeof_dirent s1 = Ok (-1) s1).
    { apply writei_refuses; unfold sizeof_dirent; [dlia|lia|]. change (MAXFILE * BSIZE) with 274432. rewrite (proj2 (Z.ltb_lt 274432 _)) by lia. apply orb_true_r. }
    rewrite E. by step_with Ew. }
  destruct (dirent_mk (u16 i) name) as [_ Hel].
  destruct (writei_ok sb dp D ly s1 P (Kernel (mk_dirent (u16 i) name)) (k * 16) 16 (mk_dirent (u16 i) name) Hhx) as (r & s' & P' & Ew & Hr & Hf & Hh' & Hw & _).
  { change (din s1) with (din s). dlia. }
  { lia. }
  { change (MAXFILE * BSIZE) with 274432. lia. }
  { split; [by apply mk_dirent_bytes|]. rewrite Hel. apply take_ge. by rewrite Hel. }
  { by rewrite Hel. }
  { unfold span, BSIZE. cbn [Z.leb Z.compare]. assert ((k * 16 + 16 - 1) / 1024 = k * 16 / 1024) by dlia. lia. }
  destruct Hw as [W1 (W2 & _ & W4) W5 _ _ _ W6 W7 _]. change (din s1) with (din s) in *. change (inum s1) with (inum s) in *.
  exists (if r =? 16 then 0 else -1), s', P'. split_and!; [|done| | |].
  - rewrite E. unfold bind at 1. unfold sizeof_dirent. rewrite Ew. by destruct (r =? 16).
  - split; [congruence|]. rewrite W4. assert (r = 0 \/ r = 16) as [->| ->]; [|dlia|dlia].
    destruct (decide (r < 16)) as [Hlt|]; [|right; lia]. left. destruct (Hf Hlt) as [_ [->|Hmod]]; [done|]. unfold BSIZE in *. dlia.
  - intros j Hj Hne. destruct (Hothers j) as [O1 O2]. rewrite W6, W7 by done. destruct (Z.eqb_spec j (inum s)); [done|]. by rewrite O1, O2.
  - destruct (Z.eqb_spec r 16) as [->|Hne].
    + left. split; [done|]. intros name'. rewrite W1, Edir. rewrite take_ge by (rewrite Hel; lia). rewrite Z.mul_comm.
      assert (Eu : u16 i mod 2 ^ 16 = i) by (unfold u16; rewrite Zmod_mod; apply Z.mod_small; lia).
      rewrite dir_lookup_link; try done; [by rewrite Eu|lia|dlia|by rewrite Hlen|intros Hlt; apply Hfree; lia|lia].
    + right. assert (r = 0) as ->.
      { destruct (Hf ltac:(lia)) as [_ [->|Hmod]]; [done|]. unfold BSIZE in *. dlia. }
      split_and!; [done|rewrite W1, Edir; apply splice_nil|]. left. by destruct (Hf ltac:(lia)).
Qed.
End links.
