(* ===== verification/FsPath.v ===== *)
(** * Path names: the inode cache and namei

    The table of inodes in memory between two operations of a process, and
    what the walk along a path does with it: a path is resolved through the
    directories on the disk, and the only trace is the reference that is
    returned. *)

From stdpp Require Import base gmap list numbers strings sets.
From Stdlib Require Import ZArith Lia.
From S2P Require Import Prelude Mem Spinlock Bytes Sleeplock Disk Bio BlockIO Fs FsSpec FsAlloc FsInode ProcEnv FsOwn FsMap FsFile FsDir.
Open Scope Z_scope.
Open Scope kernel_scope.

#[local] Opaque NINODE.

Lemma size_image (f : nat -> Z) (l : list nat) : (forall j k, j ∈ l -> k ∈ l -> f j = f k -> j = k) -> NoDup l -> size (list_to_set (f <$> l) : gset Z) = length l.
Proof. intros Hf Hl. rewrite size_list_to_set; [apply length_fmap|]. by apply NoDup_fmap_2_strong. Qed.

Lemma find_ext_in {A} (f g : A -> bool) l : (forall x, In x l -> f x = g x) -> List.find f l = List.find g l.
Proof. induction l as [|x l IH]; intros E; cbn; [done|]. rewrite <- (E x) by (by left). destruct (f x); [done|]. apply IH. intros y Hy. apply E. by right. Qed.

Section icache.
Context {S H U : Type} {io : BlockIO S H} {spec : BlockSpec S H} {env : ProcEnv U} {penv : ProcSpec U} (mypid : Z).
Notation FS := (fsst S U).
Implicit Types (s : FS) (x : S) (P L : gset Z) (j k : nat) (i : Z).
Context (sb : superblock).

(** Entry [j] stands for inode [i]. *)
Definition refers s j i : Prop := (j < NINODE)%nat /\ 0 < i_ref (geti s j) /\ i_inum (geti s j) = i.
(** The references to inode [i]. *)
Definition refs s i : Z :=
  match List.find (fun j => (0 <? i_ref (geti s j)) && (i_inum (geti s j) =? i)) (seq 0 NINODE) with
  | Some j => i_ref (geti s j)
  | None => 0
  end.
Definition live s : gset Z := list_to_set ((fun j => i_inum (geti s j)) <$> List.filter (fun j => 0 <? i_ref (geti s j)) (seq 0 NINODE)).

Definition disk s : Z -> dinode := inode_at (G s) sb.

(** The table when this process has locked entry [lk], or none: every entry in
    use is for an inode of its own, and its copy, if it has one, is the inode
    on disk. *)
Record icache s P (lk : option nat) : Prop := {
  ic_sb : fs_sb s = sb;
  ic_ok : io_ok (fs_io s) P ∅;
  ic_lock : it_lock s = false;
  ic_len : length (it_inode s) = NINODE;
  ic_wf : fs_wf sb (G s) (disk s);
  ic_ref : forall j, (j < NINODE)%nat -> 0 <= i_ref (geti s j);
  ic_sl : forall j, (j < NINODE)%nat -> i_lock (geti s j) = if decide (lk = Some j) then mk_sleeplock true false mypid else initsleeplock;
  ic_ent : forall j, (j < NINODE)%nat -> 0 < i_ref (geti s j) -> i_dev (geti s j) = io_dev /\ 0 <= i_inum (geti s j) < sb_ninodes sb /\
    (i_valid (geti s j) = true -> i_d (geti s j) = disk s (i_inum (geti s j)));
  ic_uniq : forall j k i, refers s j i -> refers s k i -> j = k;
  ic_held : forall j, lk = Some j -> 0 < i_ref (geti s j) /\ i_valid (geti s j) = true
}.

Lemma find_refers s i : match List.find (fun j => (0 <? i_ref (geti s j)) && (i_inum (geti s j) =? i)) (seq 0 NINODE) with
  | Some j => refers s j i | None => forall j, ~ refers s j i end.
Proof using.
  destruct (List.find _ _) as [j|] eqn:E.
  - apply find_some in E as [Hj%list_elem_of_In%elem_of_seq [Hr%Z.ltb_lt Hi%Z.eqb_eq]%andb_true_iff]. split_and!; [lia|done|done].
  - intros j (Hj & Hr & Hi). apply find_none with (x := j) in E; [|apply list_elem_of_In, elem_of_seq; lia].
    by rewrite (proj2 (Z.ltb_lt _ _) Hr), (proj2 (Z.eqb_eq _ _) Hi) in E.
Qed.

Lemma refs_at s P lk j i : icache s P lk -> refers s j i -> refs s i = i_ref (geti s j).
Proof using.
  intros Hc Hr. unfold refs. pose proof (find_refers s i) as F. destruct (List.find _ _) as [k|]; [|by destruct (F j)]. by rewrite (ic_uniq _ _ _ Hc j k i Hr F).
Qed.
Lemma refs_none s i : (forall j, ~ refers s j i) -> refs s i = 0.
Proof using. intros Hn. unfold refs. pose proof (find_refers s i) as F. destruct (List.find _ _) as [k|]; [by destruct (Hn k)|done]. Qed.
Lemma refs_pos s i : 0 < refs s i -> exists j, refers s j i.
Proof using. unfold refs. pose proof (find_refers s i) as F. destruct (List.find _ _) as [k|]; [by exists k|lia]. Qed.
Lemma refs_nonneg s i : 0 <= refs s i.
Proof using. unfold refs. pose proof (find_refers s i) as F. destruct (List.find _ _) as [k|]; [destruct F as (_ & ? & _); lia|lia]. Qed.

Lemma refers_refs s j i : refers s j i -> 0 < refs s i.
Proof using.
  intros Hr. unfold refs. pose proof (find_refers s i) as F. destruct (List.find _ _) as [k|]; [by destruct F as (_ & ? & _)|by destruct (F j)].
Qed.

Lemma in_use s j : j ∈ List.filter (fun j => 0 <? i_ref (geti s j)) (seq 0 NINODE) <-> (j < NINODE)%nat /\ 0 < i_ref (geti s j).
Proof using.
  rewrite list_elem_of_In, filter_In, Z.ltb_lt. split; intros [Hj Hr]; (split; [|done]).
  - apply list_elem_of_In, elem_of_seq in Hj. lia.
  - apply list_elem_of_In, elem_of_seq. lia.
Qed.

Lemma elem_of_live s i : i ∈ live s <-> 0 < refs s i.
Proof using.
  unfold live. rewrite (elem_of_list_to_set (C := gset Z)). split.
  - intros (j & -> & [Hj Hr]%in_use)%list_elem_of_fmap. by apply (refers_refs s j).
  - intros (j & Hj & Hr & Hi)%refs_pos. apply list_elem_of_fmap. exists j. split; [done|]. by apply in_use.
Qed.

(** While inodes in use are fewer than entries, one is free. *)
Lemma free_entry_exists s P lk : icache s P lk -> (size (live s) < NINODE)%nat -> exists j, (j < NINODE)%nat /\ i_ref (geti s j) = 0.
Proof using.
  intros Hc Hs. destruct (List.find (fun j => i_ref (geti s j) =? 0) (seq 0 NINODE)) as [j|] eqn:E.
  - apply find_some in E as [Hj%list_elem_of_In%elem_of_seq Hr%Z.eqb_eq]. exists j. split; [lia|done].
  - exfalso. assert (Hall : forall j, (j < NINODE)%nat -> 0 < i_ref (geti s j)).
    { intros j Hj. apply find_none with (x := j) in E; [|apply list_elem_of_In, elem_of_seq; lia]. apply Z.eqb_neq in E. pose proof (ic_ref _ _ _ Hc j Hj). lia. }
    assert (Ef : List.filter (fun j => 0 <? i_ref (geti s j)) (seq 0 NINODE) = seq 0 NINODE).
    { apply forallb_filter_id, forallb_forall. intros j Hj%list_elem_of_In%elem_of_seq. apply Z.ltb_lt, Hall. lia. }
    unfold live in Hs. rewrite Ef, size_image, length_seq in Hs; [lia| |apply NoDup_seq].
    intros j k Hj%elem_of_seq Hk%elem_of_seq E'. apply (ic_uniq _ _ _ Hc j k (i_inum (geti s j))); split_and!; try done; try lia; apply Hall; lia.
Qed.

(** ** One entry changes *)

Lemma geti_other s j k y : j <> k -> geti (seti s k y) j = geti s j.
Proof using. intros Hne. unfold geti, seti. cbn. by rewrite list_lookup_insert_ne by done. Qed.

Definition same_but k s s' : Prop := forall j, j <> k -> geti s' j = geti s j.
Lemma same_refers k s s' j i : same_but k s s' -> j <> k -> refers s' j i <-> refers s j i.
Proof using. intros E Hne. unfold refers. by rewrite E. Qed.

Lemma refs_other s P lk s' P' lk' k i : icache s P lk -> icache s' P' lk' -> same_but k s s' -> ~ refers s' k i ->
  refs s' i = if decide (refers s k i) then 0 else refs s i.
Proof using.
  intros Hc Hc' E Hn. destruct (decide (refers s k i)) as [Hr|Hn0].
  { apply refs_none. intros j Hj. destruct (decide (j = k)) as [->|Hne]; [done|]. apply (same_refers k s s' j i E Hne) in Hj. apply Hne. by apply (ic_uniq _ _ _ Hc j k i). }
  destruct (decide (0 < refs s i)) as [(j & Hj)%refs_pos|Hz].
  - assert (Hne : j <> k) by (intros ->; done). rewrite (refs_at s P lk j i Hc Hj). rewrite (refs_at s' P' lk' j i Hc'); [by rewrite E|]. by apply (same_refers k s s').
  - rewrite (refs_none s' i); [pose proof (refs_nonneg s i); lia|]. intros j Hj. destruct (decide (j = k)) as [->|Hne]; [done|].
    apply (same_refers k s s' j i E Hne), refers_refs in Hj. lia.
Qed.

Context (end_pos : 0 < bmap_end sb).

Lemma wf_ext (g g' : Z -> block) (D D' : Z -> dinode) : (forall b, g' b = g b) -> (forall i, D' i = D i) -> fs_wf sb g D -> fs_wf sb g' D'.
Proof using end_pos.
  intros Hg HD W. apply (wf_inodes sb end_pos g' D); [done|]. apply (wf_blocks sb end_pos g); [done|intros; apply slot_addr_ext; intros _; apply Hg|intros; by apply used_ext].
Qed.

Lemma set_entry s P lk lk' k y x : icache s P lk -> (k < NINODE)%nat -> io_ok x P ∅ -> (forall b, io_get x b = G s b) -> 0 <= i_ref y ->
  i_lock y = (if decide (lk' = Some k) then mk_sleeplock true false mypid else initsleeplock) -> (forall j, j <> k -> lk' = Some j <-> lk = Some j) ->
  (0 < i_ref y -> i_dev y = io_dev /\ 0 <= i_inum y < sb_ninodes sb /\ (i_valid y = true -> i_d y = disk s (i_inum y))) ->
  (0 < i_ref y -> forall j, j <> k -> ~ refers s j (i_inum y)) -> (lk' = Some k -> 0 < i_ref y /\ i_valid y = true) ->
  let s' := set_io (seti s k y) x in
  icache s' P lk' /\ geti s' k = y /\ same_but k s s' /\
  (forall i, refs s' i = if decide (0 < i_ref y /\ i_inum y = i) then i_ref y else if decide (refers s k i) then 0 else refs s i).
Proof using end_pos.
  intros Hc Hk Hok Hg Hr Hl Hlk Hent Hun Hh s'. pose proof Hc as [C1 C2 C3 C4 C5 C6 C7 C8 C9 C10]. assert (Hlen : (k < length (it_inode s))%nat) by lia.
  assert (Gk : geti s' k = y) by (unfold s'; apply (geti_seti s); done). assert (Go : same_but k s s') by (intros j Hj; apply (geti_other s); done).
  assert (Hd : forall i, disk s' i = disk s i) by (intros i; unfold disk, inode_at; f_equal; apply Hg).
  assert (Hc' : icache s' P lk').
  { split; [done|done|done|unfold s'; cbn; by rewrite length_insert| | | | | |].
    - by apply (wf_ext (G s) _ (disk s)).
    - intros j Hj. destruct (decide (j = k)) as [->|]; [by rewrite Gk|by rewrite Go; [apply C6|]].
    - intros j Hj. destruct (decide (j = k)) as [->|Hne]; [by rewrite Gk|]. rewrite Go, C7 by done. pose proof (Hlk j Hne). by destruct (decide (lk = Some j)), (decide (lk' = Some j)); naive_solver.
    - intros j Hj. destruct (decide (j = k)) as [->|]; [by rewrite Gk, Hd|]. rewrite Go, Hd by done. by apply C8.
    - intros j j' i Hj Hj'. destruct (decide (j = k)) as [->|Hne], (decide (j' = k)) as [->|Hne']; [done| | |].
      + exfalso. destruct Hj as (_ & Hp & <-). rewrite Gk in Hp, Hj'. apply (Hun Hp j' Hne'). by apply (same_refers k s s').
      + exfalso. destruct Hj' as (_ & Hp & <-). rewrite Gk in Hp, Hj. apply (Hun Hp j Hne). by apply (same_refers k s s').
      + apply (C9 j j' i); by apply (same_refers k s s').
    - intros j Ej. destruct (decide (j = k)) as [->|Hne]; [rewrite Gk; by apply Hh|]. rewrite Go by done. apply C10. by apply Hlk. }
  split_and!; [done|done|done|]. intros i. destruct (decide (0 < i_ref y /\ i_inum y = i)) as [[Hp Hi]|Hn].
  - rewrite (refs_at s' P lk' k i Hc'); [by rewrite Gk|]. unfold refers. by rewrite Gk.
  - apply (refs_other s P lk s' P lk' k i Hc Hc' Go). unfold refers. rewrite Gk. naive_solver.
Qed.

(** ** The operations on the table *)

Definition one i : Z -> Z := fun i' => if decide (i' = i) then 1 else 0.

(** What an operation leaves: the disk as it is, [f i] more references to
    inode [i], and every reference that still counts where it was. *)
Record kept s s' (f : Z -> Z) : Prop := {
  kp_disk : forall b, G s' b = G s b;
  kp_um : fs_um s' = fs_um s;
  kp_refs : forall i, refs s' i = refs s i + f i;
  kp_ptr : forall j i, refers s j i -> 0 < refs s' i -> refers s' j i
}.

Lemma kept_trans s s1 s2 f g : kept s s1 f -> kept s1 s2 g -> (forall i, 0 <= f i) -> kept s s2 (fun i => f i + g i).
Proof using.
  intros [A1 A2 A3 A4] [B1 B2 B3 B4] Hf. split.
  - intros b. by rewrite B1.
  - congruence.
  - intros i. rewrite B3, A3. lia.
  - intros j i Hj Hp. apply B4; [|done]. apply A4; [done|]. rewrite A3. pose proof (refers_refs s j i Hj). specialize (Hf i). lia.
Qed.

Lemma kept_ext s s' f g : (forall i, g i = f i) -> kept s s' f -> kept s s' g.
Proof using. intros E [A1 A2 A3 A4]. split; try done. intros i. by rewrite E. Qed.

Lemma table_only s k y : it_lock s = false -> set_it_lock (seti (set_it_lock s true) k y) false = set_io (seti s k y) (fs_io s).
Proof using. destruct s. cbn. intros ->. done. Qed.

(** The reference counter of an entry in use goes up or down. *)
Lemma count_ok s P lk k i n : icache s P lk -> refers s k i -> 0 <= i_ref (geti s k) + n -> (lk = Some k -> 0 < i_ref (geti s k) + n) ->
  let s' := set_io (seti s k (set_i_ref (geti s k) (i_ref (geti s k) + n))) (fs_io s) in
  icache s' P lk /\ geti s' k = set_i_ref (geti s k) (i_ref (geti s k) + n) /\ kept s s' (fun i' => if decide (i' = i) then n else 0).
Proof using end_pos.
  intros Hc (Hk & Hr & Hi) Hn Hlk s'. pose proof Hc as [C1 C2 C3 C4 C5 C6 C7 C8 C9 C10]. destruct (C8 k Hk Hr) as (E1 & E2 & E3).
  destruct (set_entry s P lk lk k (set_i_ref (geti s k) (i_ref (geti s k) + n)) (fs_io s) Hc Hk C2 ltac:(done)) as (Hc' & Gk & Go & Hrefs); [done|by apply C7|done|done| | |].
  - intros _ j Hj Hrj. apply Hj. apply (C9 j k i); [|done]. cbn in Hrj. by rewrite Hi in Hrj.
  - intros El. split; [by apply Hlk|by apply C10].
  - fold s' in Hc', Gk, Go, Hrefs. split_and!; [done|done|]. assert (Hk' : refers s k i) by done. pose proof (refs_at s P lk k i Hc Hk') as ER. cbn [set_i_ref i_ref i_inum] in Hrefs. split; [done|done| |].
    + intros i'. rewrite Hrefs. destruct (decide (i' = i)) as [->|Hne].
      * destruct (decide (0 < i_ref (geti s k) + n /\ i_inum (geti s k) = i)) as [|Hn']; [lia|]. rewrite decide_True by done. destruct (decide (0 < i_ref (geti s k) + n)); [naive_solver|lia].
      * rewrite decide_False by naive_solver. rewrite decide_False; [lia|]. intros (_ & _ & ?). congruence.
    + intros j i' Hj Hp. destruct (decide (j = k)) as [->|Hne]; [|by apply (same_refers k s s')]. assert (i' = i) as -> by (destruct Hj as (_ & _ & <-); done).
      rewrite Hrefs in Hp. unfold refers. rewrite Gk. cbn. destruct (decide (0 < i_ref (geti s k) + n /\ i_inum (geti s k) = i)) as [[? ?]|]; [done|].
      rewrite decide_True in Hp by done. lia.
Qed.

Lemma acquire_it s : it_lock s = false -> acquire it_lock set_it_lock s = Ok tt (set_it_lock s true).
Proof using. intros E. unfold acquire, bind, get, put. by rewrite E. Qed.
Lemma release_it s : it_lock s = true -> release it_lock set_it_lock s = Ok tt (set_it_lock s false).
Proof using. intros E. unfold release, bind, get, put. by rewrite E. Qed.

Lemma iget_ok s P lk i : icache s P lk -> 0 <= i < sb_ninodes sb -> 0 < refs s i \/ (size (live s) < NINODE)%nat ->
  exists k s', iget io_dev i s = Ok k s' /\ icache s' P lk /\ refers s' k i /\ kept s s' (one i).
Proof using end_pos.
  intros Hc Hi Hroom. pose proof Hc as [C1 C2 C3 C4 C5 C6 C7 C8 C9 C10]. unfold iget. step_with (acquire_it s C3). unfold bind at 1, get.
  assert (Ef : List.find (fun j => (0 <? i_ref (geti s j)) && (i_dev (geti s j) =? io_dev) && (i_inum (geti s j) =? i)) (seq 0 NINODE) =
               List.find (fun j => (0 <? i_ref (geti s j)) && (i_inum (geti s j) =? i)) (seq 0 NINODE)).
  { apply find_ext_in. intros j Hj%list_elem_of_In%elem_of_seq. destruct (Z.ltb_spec 0 (i_ref (geti s j))) as [Hr|]; [|done]. destruct (C8 j ltac:(lia) Hr) as (-> & _). by rewrite Z.eqb_refl. }
  change (geti (set_it_lock s true)) with (geti s). rewrite Ef. clear Ef. pose proof (find_refers s i) as F. destruct (List.find (fun j => _ && _) _) as [k|].
  - destruct (count_ok s P lk k i 1 Hc F) as (Hc' & Gk & Hkept); [pose proof (proj1 (proj2 F)); lia|pose proof (proj1 (proj2 F)); lia|].
    eexists k, _. split; [unfold bind, updi, modify; change (geti (set_it_lock s true) k) with (geti s k); rewrite release_it by done; by rewrite table_only|]. split_and!; [done| |done].
    destruct F as (F1 & F2 & F3). unfold refers. rewrite Gk. cbn. split_and!; [done|lia|done].
  - pose proof (refs_none s i F) as R0. destruct Hroom as [Hp|Hroom]; [lia|]. destruct (free_entry_exists s P lk Hc Hroom) as (j0 & Hj0 & Hz0).
    destruct (List.find (fun j => i_ref (geti s j) =? 0) (seq 0 NINODE)) as [k|] eqn:Ek.
    2: { apply find_none with (x := j0) in Ek; [|apply list_elem_of_In, elem_of_seq; lia]. by rewrite Hz0 in Ek. }
    apply find_some in Ek as [Hk%list_elem_of_In%elem_of_seq Hz%Z.eqb_eq]. assert (Hk' : (k < NINODE)%nat) by lia.
    assert (Hnlk : lk <> Some k) by (intros El; destruct (C10 k El); lia).
    destruct (set_entry s P lk lk k (mk_inode io_dev i 1 (i_lock (geti s k)) false (i_d (geti s k))) (fs_io s) Hc Hk' C2 ltac:(done)) as (Hc' & Gk & Go & Hrefs);
      [cbn; lia|by apply C7|done|done|intros _ j _; apply F|done|].
    eexists k, _. split; [unfold bind, updi, modify; change (geti (set_it_lock s true) k) with (geti s k); rewrite release_it by done; by rewrite table_only|]. split_and!; [done| |].
    + unfold refers. rewrite Gk. cbn. split_and!; [done|lia|done].
    + assert (Hnk : forall i', ~ refers s k i') by (intros i' (_ & ? & _); lia). split; [done|done| |].
      * intros i'. rewrite Hrefs. cbn. unfold one. destruct (decide (i' = i)) as [->|Hne].
        -- rewrite decide_True by (split; [lia|done]). lia.
        -- rewrite decide_False by naive_solver. rewrite decide_False by apply Hnk. lia.
      * intros j i' Hj _. destruct (decide (j = k)) as [->|Hne]; [by destruct (Hnk i')|]. by apply (same_refers k s _ j i' Go).
Qed.

(** [ilock]: the copy is read when there is none. *)
Lemma ilock_cached s P k i (ly : inodes_ok sb) : icache s P None -> refers s k i -> (size P < NBUF)%nat -> di_type (disk s i) <> 0 ->
  exists s', ilock mypid k s = Ok tt s' /\ icache s' P (Some k) /\ kept s s' (fun _ => 0) /\ refers s' k i /\ i_d (geti s' k) = disk s i.
Proof using end_pos.
  intros Hc (Hk & Hr & Hi) Hroom Ht. pose proof Hc as [C1 C2 C3 C4 C5 C6 C7 C8 C9 C10]. destruct (C8 k Hk Hr) as (E1 & E2 & E3). pose proof (C7 k Hk) as Hl. rewrite decide_False in Hl by done.
  assert (Hlen : (k < length (it_inode s))%nat) by lia. set (y := loaded mypid (geti s k) (disk s i)).
  assert (Hx : exists x, ilock mypid k s = Ok tt (set_io (seti s k y) x) /\ io_ok x P ∅ /\ (forall b, io_get x b = G s b)).
  { destruct (i_valid (geti s k)) eqn:Hv.
    - exists (fs_io s). split_and!; [|done|done]. destruct (ino_lens s k Hlen) as (G1 & G2 & G3).
      pose proof (acquiresleep_lens (ino_sl k) (set_ino_sl k) mypid (ChInode k) s G1 G2 G3) as Ea. assert (Hino : ino_sl k s = initsleeplock) by exact Hl. rewrite Hino in Ea.
      specialize (Ea eq_refl). cbn [sl_locked initsleeplock] in Ea. unfold ilock, bind at 1, get. destruct (Z.ltb_spec (i_ref (geti s k)) 1); [lia|]. step_with Ea. unfold bind at 1.
      assert (Eg : geti (set_ino_sl k s (mk_sleeplock true false mypid)) k = set_i_lock (geti s k) (mk_sleeplock true false mypid)) by (by apply geti_seti).
      rewrite Eg. cbn [set_i_lock i_valid]. rewrite Hv. cbn [negb when]. unfold ret. f_equal. unfold set_ino_sl, y, loaded, set_i_lock. rewrite <- Hi, <- (E3 eq_refl), Hv. by destruct s.
    - pose proof (ilock_ok mypid sb s P ∅ k ly C1 C2 Hlen ltac:(lia) Hl Hv E1 E2 ltac:(apply not_elem_of_empty) ltac:(by rewrite union_empty_r_L)) as E. cbn zeta in E. rewrite Hi in E.
      fold (G s) in E. fold (disk s i) in E. destruct (Z.eqb_spec (di_type (disk s i)) 0); [done|]. exact E. }
  destruct Hx as (x & Ex & Hok & Hg). exists (set_io (seti s k y) x). split; [done|].
  destruct (set_entry s P None (Some k) k y x Hc Hk Hok Hg) as (Hc' & Gk & Go & Hrefs); [cbn; lia|by rewrite decide_True|intros j Hj; split; [congruence|done]| | |done|].
  - intros _. cbn. rewrite Hi. by rewrite Hi in E2.
  - intros _ j Hj Hrj. apply Hj. cbn in Hrj. apply (C9 j k (i_inum (geti s k))); done.
  - assert (Hk' : refers s k i) by done. pose proof (refs_at s P None k i Hc Hk') as ER. split_and!; [done| |unfold refers; by rewrite Gk|by rewrite Gk]. split; [done|done| |].
    + intros i'. rewrite Hrefs. cbn. rewrite Z.add_0_r. destruct (decide (0 < i_ref (geti s k) /\ i_inum (geti s k) = i')) as [[_ <-]|Hn]; [by rewrite <- ER, Hi|].
      rewrite decide_False; [done|]. intros (_ & ? & ?). by apply Hn.
    + intros j i' Hj _. destruct (decide (j = k)) as [->|Hne]; [|by apply (same_refers k s _ j i' Go)]. unfold refers in *. by rewrite Gk.
Qed.

Lemma iunlock_cached s P k i : icache s P (Some k) -> refers s k i ->
  exists s', iunlock mypid k s = Ok tt s' /\ icache s' P None /\ kept s s' (fun _ => 0) /\ refers s' k i.
Proof using end_pos.
  intros Hc (Hk & Hr & Hi). pose proof Hc as [C1 C2 C3 C4 C5 C6 C7 C8 C9 C10]. pose proof (C7 k Hk) as Hl. rewrite decide_True in Hl by done.
  assert (Hlen : (k < length (it_inode s))%nat) by lia. destruct (ino_lens s k Hlen) as (G1 & G2 & G3). assert (Hino : ino_sl k s = mk_sleeplock true false mypid) by exact Hl.
  exists (set_io (seti s k (set_i_lock (geti s k) initsleeplock)) (fs_io s)). split.
  - unfold iunlock. rewrite (bind_ok _ _ _ _ _ (holdingsleep_lens (ino_sl k) (set_ino_sl k) mypid s G1 G2 G3 ltac:(by rewrite Hino))). unfold bind, get. rewrite Hino. cbn [sl_locked sl_pid].
    rewrite Z.eqb_refl. cbn [andb negb orb]. destruct (Z.ltb_spec (i_ref (geti s k)) 1); [lia|].
    rewrite (releasesleep_lens (ino_sl k) (set_ino_sl k) s G1 G2 ltac:(by rewrite Hino)). unfold set_ino_sl, initsleeplock. by destruct s.
  - destruct (set_entry s P (Some k) None k (set_i_lock (geti s k) initsleeplock) (fs_io s) Hc Hk C2 ltac:(done)) as (Hc' & Gk & Go & Hrefs);
      [cbn; lia|done|intros j Hj; split; [done|congruence]|by apply C8| |done|].
    + intros _ j Hj Hrj. apply Hj. cbn in Hrj. apply (C9 j k (i_inum (geti s k))); done.
    + assert (Hk' : refers s k i) by done. pose proof (refs_at s P _ k i Hc Hk') as ER. split_and!; [done| |unfold refers; by rewrite Gk]. split; [done|done| |].
      * intros i'. rewrite Hrefs. cbn. rewrite Z.add_0_r. destruct (decide (0 < i_ref (geti s k) /\ i_inum (geti s k) = i')) as [[_ <-]|Hn]; [by rewrite <- ER, Hi|].
        rewrite decide_False; [done|]. intros (_ & ? & ?). by apply Hn.
      * intros j i' Hj _. destruct (decide (j = k)) as [->|Hne]; [|by apply (same_refers k s _ j i' Go)]. unfold refers in *. by rewrite Gk.
Qed.

(** [iput] of an inode that has a name: one reference less. *)
Lemma iput_named s P k i : icache s P None -> refers s k i -> di_nlink (disk s i) <> 0 ->
  exists s', iput mypid k s = Ok tt s' /\ icache s' P None /\ kept s s' (fun i' => - one i i').
Proof using end_pos.
  intros Hc Hk Hn. pose proof Hk as (Hk1 & Hk2 & Hk3). pose proof Hc as [C1 C2 C3 C4 C5 C6 C7 C8 C9 C10]. destruct (C8 k Hk1 Hk2) as (_ & _ & E3).
  destruct (count_ok s P None k i (-1) Hc Hk ltac:(lia) ltac:(done)) as (Hc' & _ & Hkept). eexists. split_and!; [|exact Hc'|eapply kept_ext; [|exact Hkept]; intros i'; unfold one; by case_decide].
  unfold iput. step_with (acquire_it s C3). unfold bind at 1, get. change (geti (set_it_lock s true) k) with (geti s k).
  assert (Eb : ((i_ref (geti s k) =? 1) && i_valid (geti s k) && (di_nlink (i_d (geti s k)) =? 0)) = false).
  { destruct (i_valid (geti s k)) eqn:Hv; [|by rewrite andb_false_r]. rewrite (E3 eq_refl), Hk3. rewrite (proj2 (Z.eqb_neq _ _) Hn). apply andb_false_r. }
  rewrite Eb. cbn [when]. unfold bind, ret, updi, modify. change (geti (set_it_lock s true) k) with (geti s k). rewrite release_it by done. by rewrite table_only.
Qed.

Lemma iunlockput_named s P k i : icache s P (Some k) -> refers s k i -> di_nlink (disk s i) <> 0 ->
  exists s', iunlockput mypid k s = Ok tt s' /\ icache s' P None /\ kept s s' (fun i' => - one i i').
Proof using end_pos.
  intros Hc Hk Hn. destruct (iunlock_cached s P k i Hc Hk) as (s1 & E1 & Hc1 & Hk1 & Hr1).
  assert (Hd : disk s1 i = disk s i) by (unfold disk, inode_at; f_equal; apply (kp_disk _ _ _ Hk1)).
  destruct (iput_named s1 P k i Hc1 Hr1 ltac:(by rewrite Hd)) as (s2 & E2 & Hc2 & Hk2). exists s2. unfold iunlockput. step_with E1. split_and!; [done|done|].
  eapply kept_ext; [|apply (kept_trans _ _ _ _ _ Hk1 Hk2); done]. intros i'. cbn beta. lia.
Qed.

Lemma io_moved s P lk x : icache s P lk -> io_ok x P ∅ -> (forall b, io_get x b = G s b) -> icache (set_io s x) P lk /\ kept s (set_io s x) (fun _ => 0).
Proof using end_pos.
  intros [C1 C2 C3 C4 C5 C6 C7 C8 C9 C10] Hok Hg. assert (Hd : forall i, disk (set_io s x) i = disk s i) by (intros i; unfold disk, inode_at; f_equal; apply Hg). split.
  - split; try done; [by apply (wf_ext (G s) _ (disk s))|]. intros j Hj Hr. rewrite Hd. by apply C8.
  - split; try done. intros i. rewrite Z.add_0_r. done.
Qed.

(** A locked inode is there for the operations on files and directories. *)
Lemma locked_here s P k i : icache s P (Some k) -> refers s k i -> here sb k (disk s) s P ∅ /\ din k s = disk s i.
Proof using end_pos.
  intros Hc (Hk & Hr & Hi). pose proof Hc as [C1 C2 C3 C4 C5 C6 C7 C8 C9 C10]. destruct (C8 k Hk Hr) as (E1 & E2 & E3). destruct (C10 k eq_refl) as [_ Hv]. specialize (E3 Hv).
  assert (Ed : din k s = disk s i) by (unfold din; by rewrite E3, Hi). split; [|done]. split; [done|done|lia|done|done|]. apply (wf_inodes sb end_pos (G s) (disk s)); [|done].
  intros i'. unfold V, upd. rewrite Ed. unfold inum. rewrite Hi. by destruct (Z.eqb_spec i' i) as [->|].
Qed.

(** ** Paths *)

(** The walk on the disk [g] from inode [i] along [names]. *)
Fixpoint resolve (g : Z -> block) (i : Z) (names : list (list Z)) : option Z :=
  match names with
  | [] => Some i
  | n :: names' =>
      if di_type (inode_at g sb i) =? T_DIR then
        match dir_lookup (contents g (inode_at g sb i)) n with
        | Some i' => resolve g i' names'
        | None => None
        end
      else None
  end.

(** Inodes with a name: those the root and every directory among them list are
    of the kind, so they are allocated, and directories are whole entries. *)
Record tree (g : Z -> block) (named : Z -> Prop) : Prop := {
  tr_inode : forall i, named i -> 0 <= i < sb_ninodes sb /\ di_type (inode_at g sb i) <> 0 /\ di_nlink (inode_at g sb i) <> 0;
  tr_dir : forall i, named i -> di_type (inode_at g sb i) = T_DIR -> di_size (inode_at g sb i) mod 16 = 0;
  tr_entry : forall i n i', named i -> di_type (inode_at g sb i) = T_DIR -> dir_lookup (contents g (inode_at g sb i)) n = Some i' -> named i'
}.

Lemma resolve_ext g g' i names : (forall b, g' b = g b) -> resolve g' i names = resolve g i names.
Proof using.
  intros Hg. revert i. induction names as [|n names IH]; intros i; cbn [resolve]; [done|]. assert (Ei : inode_at g' sb i = inode_at g sb i) by (unfold inode_at; by rewrite Hg).
  rewrite Ei. assert (Ec : contents g' (inode_at g sb i) = contents g (inode_at g sb i)).
  { apply map_ext. intros o. apply file_byte_eq; [apply slot_addr_ext; intros _; apply Hg|]. intros _. apply Hg. }
  rewrite Ec. destruct (_ =? T_DIR); [|done]. destruct (dir_lookup _ n); [apply IH|done].
Qed.

Context (on_disk : sb_size sb <= io_nblocks) (ly : inodes_ok sb) (named : Z -> Prop).

(** [dirlookup] in a locked directory. *)
Lemma dirlookup_cached s P k i n : icache s P (Some k) -> refers s k i -> tree (G s) named -> named i -> di_type (disk s i) = T_DIR -> (size P < NBUF)%nat ->
  (size (live s) < NINODE)%nat ->
  match dir_lookup (contents (G s) (disk s i)) n with
  | Some i' => exists k' off s', dirlookup k n s = Ok (Some (k', off)) s' /\ icache s' P (Some k) /\ refers s' k' i' /\ kept s s' (one i')
  | None => exists s', dirlookup k n s = Ok None s' /\ icache s' P (Some k) /\ kept s s' (fun _ => 0)
  end.
Proof using end_pos on_disk penv.
  intros Hc Hk [T1 T2 T3] Hn Ht Hroom Hlive. destruct (locked_here s P k i Hc Hk) as [Hh Ed].
  destruct (dirlookup_ok sb k (disk s) end_pos on_disk s P n Hh) as (x & E & Hok & Hg); [split; rewrite Ed; [done|by apply T2]|done|]. rewrite Ed in E.
  destruct (io_moved s P (Some k) x Hc Hok Hg) as [Hc1 Hk1]. set (s1 := set_io s x) in *. pose proof (T3 i n) as Ht3. unfold dir_lookup in *. fold (disk s i) in Ht3.
  destruct (dir_find (contents (G s) (disk s i)) n) as [q|]; cbn [fmap option_fmap option_map] in *; [|by exists s1].
  set (i' := de_inum (dirent (contents (G s) (disk s i)) q)) in *. destruct (T1 i' (Ht3 i' Hn Ht eq_refl)) as (Hr & _ & _).
  destruct (iget_ok s1 P (Some k) i' Hc1 Hr) as (k' & s2 & E2 & Hc2 & Hr2 & Hk2).
  { right. assert (Hl : live s1 = live s) by done. by rewrite Hl. }
  exists k', (q * 16), s2. split_and!; [rewrite E; unfold bind, ret; by rewrite E2|done|done|]. eapply kept_ext; [|apply (kept_trans _ _ _ _ _ Hk1 Hk2); done]. intros j. cbn beta. lia.
Qed.

Lemma skipelem_shorter path rest e : skipelem path = Some (rest, e) -> (length rest < length path)%nat.
Proof using.
  clear. unfold skipelem. pose proof (skip_slashes_length path) as Hl. destruct (skip_slashes path) as [|c p] eqn:E; [done|]. apply skip_slashes_head in E.
  destruct (take_elem (c :: p)) as [e' r] eqn:Et. intros [= <- _]. pose proof (skip_slashes_length r) as Hr.
  assert (length r < length (c :: p))%nat; [|lia]. cbn [take_elem] in Et. destruct (Z.eqb_spec c SLASH); [done|]. destruct (take_elem p) as [e2 r2] eqn:Ep. injection Et as <- <-.
  destruct (take_elem_split _ _ _ Ep) as (_ & _ & _ & _ & Hlen & _). cbn. lia.
Qed.

Lemma one_pos i i' : 0 <= one i i'.
Proof using. clear. unfold one. case_decide; lia. Qed.

Lemma live_one s0 s i : kept s0 s (one i) -> (size (live s) <= size (live s0) + 1)%nat.
Proof using.
  clear. intros Hk. assert (Hsub : live s ⊆ live s0 ∪ {[i]}).
  { intros j Hj%elem_of_live. rewrite (kp_refs _ _ _ Hk) in Hj. unfold one in Hj. apply elem_of_union. destruct (decide (j = i)) as [->|]; [right; by apply elem_of_singleton|left].
    apply elem_of_live. lia. }
  apply subseteq_size in Hsub. pose proof (size_union_alt (live s0) {[i]}) as E. pose proof (subseteq_size ({[i]} ∖ live s0) {[i]} ltac:(apply subseteq_difference_l; done)) as E2.
  rewrite size_singleton in E2. lia.
Qed.

Lemma kept_disk s s' f : kept s s' f -> (forall i, disk s' i = disk s i) /\ forall T, tree (G s) T -> tree (G s') T.
Proof using.
  clear. intros Hk. pose proof (kp_disk _ _ _ Hk) as Hg. assert (Hi : forall i, inode_at (G s') sb i = inode_at (G s) sb i) by (intros i; unfold inode_at; by rewrite Hg).
  split; [exact Hi|]. intros T [T1 T2 T3]. split; intros i; rewrite ?Hi; [apply T1|apply T2|]. intros n i' Hn Ht Hl. apply (T3 i n i' Hn Ht). rewrite <- Hl. f_equal.
  apply map_ext. intros o. apply file_byte_eq; [apply slot_addr_ext; intros _; symmetry; apply Hg|]. intros _. symmetry. apply Hg.
Qed.

(** The walk of [namex], holding one reference at a time. *)
Lemma namex_loop_ok fuel s0 s P k i path name : (length path < fuel)%nat -> icache s P None -> refers s k i -> kept s0 s (one i) -> tree (G s) named -> named i ->
  (size P < NBUF)%nat -> (size (live s0) + 2 <= NINODE)%nat ->
  exists r nm s', namex_loop mypid fuel k path false name s = Ok (r, nm) s' /\ icache s' P None /\
    match resolve (G s0) i (skip_all fuel path) with
    | Some i' => exists k', r = Some k' /\ refers s' k' i' /\ kept s0 s' (one i')
    | None => r = None /\ kept s0 s' (fun _ => 0)
    end.
Proof using end_pos on_disk ly penv.
  revert s k i path name. induction fuel as [|fuel IH]; intros s k i path name Hf Hc Hk Hkept Htree Hn Hroom Hlive; [lia|]. cbn [namex_loop skip_all].
  destruct (skipelem path) as [[rest e]|] eqn:Es; [|exists (Some k), name, s; split_and!; [done|done|by exists k]]. pose proof (skipelem_shorter _ _ _ Es) as Hsh.
  destruct (tr_inode _ _ Htree i Hn) as (Hir & Hty & Hnl). destruct (ilock_cached s P k i ly Hc Hk Hroom Hty) as (s1 & E1 & Hc1 & Hk1 & Hr1 & Hd1).
  destruct (kept_disk _ _ _ Hk1) as [Hdisk Htr]. specialize (Htr named Htree). assert (H01 : kept s0 s1 (one i)) by (eapply kept_ext; [|apply (kept_trans _ _ _ _ _ Hkept Hk1), one_pos]; intros; cbn beta; lia).
  step_with E1. unfold bind at 1, get. rewrite Hd1. cbn [resolve]. destruct (kept_disk _ _ _ H01) as [Hdisk0 _]. fold (disk s0 i). rewrite <- (Hdisk i), (Hdisk0 i).
  assert (Hgive : forall s2, icache s2 P (Some k) -> kept s1 s2 (fun _ => 0) -> exists s', iunlockput mypid k s2 = Ok tt s' /\ icache s' P None /\ kept s0 s' (fun _ => 0)).
  { intros s2 Hc2 Hk2. assert (Hr2 : refers s2 k i) by (apply (kp_ptr _ _ _ Hk2); [done|]; rewrite (kp_refs _ _ _ Hk2); pose proof (refers_refs s1 k i Hr1); lia).
    destruct (kept_disk _ _ _ Hk2) as [Hdisk2 _]. destruct (iunlockput_named s2 P k i Hc2 Hr2) as (s3 & E3 & Hc3 & Hk3); [by rewrite Hdisk2, Hdisk|]. exists s3. split_and!; [done|done|].
    eapply kept_ext; [|apply (kept_trans _ _ _ _ _ (kept_trans _ _ _ _ _ H01 Hk2 (one_pos i)) Hk3)]; intros i'; cbn beta; pose proof (one_pos i i'); lia. }
  destruct (Z.eqb_spec (di_type (disk s0 i)) T_DIR) as [Edir|]; cbn [negb andb].
  2: { destruct (Hgive s1 Hc1) as (s2 & E2 & Hc2 & Hk2); [split; try done; intros; lia|]. step_with E2. by exists None, e, s2. }
  assert (Hl1 : (size (live s1) < NINODE)%nat) by (pose proof (live_one s0 s1 i H01); lia).
  pose proof (dirlookup_cached s1 P k i e Hc1 Hr1 Htr Hn ltac:(by rewrite Hdisk0) Hroom Hl1) as Hdl.
  assert (Ec : contents (G s1) (disk s1 i) = contents (G s0) (disk s0 i)).
  { rewrite Hdisk0. apply map_ext. intros o. apply file_byte_eq; [apply slot_addr_ext; intros _; apply (kp_disk _ _ _ H01)|]. intros _. apply (kp_disk _ _ _ H01). }
  rewrite Ec in Hdl. destruct (dir_lookup (contents (G s0) (disk s0 i)) e) as [i'|] eqn:El.
  - destruct Hdl as (k' & off & s2 & E2 & Hc2 & Hr2 & Hk2). step_with E2.
    assert (Hrk : refers s2 k i) by (apply (kp_ptr _ _ _ Hk2); [done|]; rewrite (kp_refs _ _ _ Hk2); pose proof (refers_refs s1 k i Hr1); pose proof (one_pos i' i); lia).
    destruct (kept_disk _ _ _ Hk2) as [Hdisk2 Htr2]. destruct (iunlockput_named s2 P k i Hc2 Hrk) as (s3 & E3 & Hc3 & Hk3); [by rewrite Hdisk2, Hdisk|]. step_with E3.
    assert (H03 : kept s0 s3 (one i')).
    { eapply kept_ext; [|apply (kept_trans _ _ _ _ _ (kept_trans _ _ _ _ _ H01 Hk2 (one_pos i)) Hk3)]; intros j; cbn beta; pose proof (one_pos i j); pose proof (one_pos i' j); lia. }
    assert (Hr3 : refers s3 k' i') by (apply (kp_ptr _ _ _ Hk3); [done|]; rewrite (kp_refs _ _ _ H03); pose proof (refs_nonneg s0 i'); unfold one; rewrite decide_True by done; lia).
    destruct (kept_disk _ _ _ Hk3) as [_ Htr3]. apply (IH s3 k' i' rest e); [lia|done|done|done|by apply Htr3, Htr2| |done|done].
    apply (tr_entry _ _ Htr i e i' Hn); [change (di_type (disk s1 i) = T_DIR); by rewrite Hdisk0|by rewrite <- El, <- Ec].
  - destruct Hdl as (s2 & E2 & Hc2 & Hk2). step_with E2. destruct (Hgive s2 Hc2 Hk2) as (s3 & E3 & Hc3 & Hk3). step_with E3. by exists None, e, s3.
Qed.

Lemma idup_ok s P k i : icache s P None -> refers s k i -> exists s', idup k s = Ok k s' /\ icache s' P None /\ refers s' k i /\ kept s s' (one i).
Proof using end_pos.
  intros Hc Hk. pose proof Hk as (H1 & H2 & H3). destruct (count_ok s P None k i 1 Hc Hk ltac:(lia) ltac:(done)) as (Hc' & Gk & Hkept). eexists. split_and!; [|exact Hc'| |exact Hkept].
  - unfold idup. step_with (acquire_it s (ic_lock _ _ _ Hc)). unfold bind, updi, modify. change (geti (set_it_lock s true) k) with (geti s k). rewrite release_it by done.
    by rewrite table_only by apply (ic_lock _ _ _ Hc).
  - unfold refers. rewrite Gk. cbn. split_and!; [done|lia|done].
Qed.

(** Where a path starts. *)
Definition path_start (path : list Z) (cwd : Z) : Z := match path with c :: _ => if c =? SLASH then ROOTINO else cwd | [] => cwd end.

(** The walk can start: at the root, or at the current directory. *)
Definition can_start s (path : list Z) (cwd : nat) (start : Z) : Prop := hd_error path = Some SLASH \/ refers s cwd start /\ named start.

Lemma namei_ok s P cwd start path : io_dev = ROOTDEV -> icache s P None -> can_start s path cwd start -> tree (G s) named -> named ROOTINO ->
  (size P < NBUF)%nat -> (size (live s) + 2 <= NINODE)%nat ->
  exists r s', namei mypid cwd path s = Ok r s' /\ icache s' P None /\
    match resolve (G s) (path_start path start) (map (take (Z.to_nat DIRSIZ)) (elements path)) with
    | Some i => exists k, r = Some k /\ refers s' k i /\ kept s s' (one i)
    | None => r = None /\ kept s s' (fun _ => 0)
    end.
Proof using end_pos on_disk ly penv.
  intros Hdev Hc Hcwd Htree Hroot Hroom Hlive. set (i := path_start path start).
  assert (H1 : exists k s1, (match path with c :: _ => if c =? SLASH then iget ROOTDEV ROOTINO else idup cwd | [] => idup cwd end) s = Ok k s1 /\
    icache s1 P None /\ refers s1 k i /\ kept s s1 (one i) /\ named i).
  { assert (Hdup : hd_error path <> Some SLASH -> exists k s1, idup cwd s = Ok k s1 /\ icache s1 P None /\ refers s1 k start /\ kept s s1 (one start) /\ named start).
    { intros Hns. destruct Hcwd as [?|[Hr Hs]]; [done|]. destruct (idup_ok s P cwd start Hc Hr) as (s1 & E1 & Hc1 & Hr1 & Hk1). by exists cwd, s1. }
    unfold i, path_start. destruct path as [|c path']; [by apply Hdup|]. destruct (Z.eqb_spec c SLASH) as [->|Hne]; [|apply Hdup; cbn; congruence].
    rewrite <- Hdev. destruct (tr_inode _ _ Htree ROOTINO Hroot) as (Hr & _).
    destruct (iget_ok s P None ROOTINO Hc Hr ltac:(right; lia)) as (k & s1 & E1 & Hc1 & Hr1 & Hk1). by exists k, s1. }
  destruct H1 as (k & s1 & E1 & Hc1 & Hr1 & Hk1 & Hn). destruct (kept_disk _ _ _ Hk1) as [_ Htr].
  destruct (namex_loop_ok (Datatypes.S (length path)) s s1 P k i path [] ltac:(lia) Hc1 Hr1 Hk1 (Htr named Htree) Hn Hroom Hlive) as (r & nm & s' & E2 & Hc' & Hw).
  exists r, s'. rewrite skip_all_elements in Hw by lia. split_and!; [|done|done]. unfold namei, namex. unfold bind at 1. step_with E1. by rewrite E2.
Qed.

(** C21. [namei] resolves a path. It walks from the root for a path that starts
    with a slash and from the current directory otherwise, through the
    directories on the disk, one for each non-empty part of the path cut to
    DIRSIZ bytes, and returns an entry of the inode table for the inode at the
    end of the walk, with one reference more than before; or 0 when a part is
    not a directory or has no such name. The disk does not change, every other
    reference counter is as it was, no lock is held, and the entries others
    refer to are still theirs. At most two entries of the table have to be
    free, however long the path is. *)
Theorem namei_resolves s P cwd start path : io_dev = ROOTDEV -> icache s P None -> can_start s path cwd start -> tree (G s) named -> named ROOTINO ->
  (size P < NBUF)%nat -> (size (live s) + 2 <= NINODE)%nat ->
  exists r s', namei mypid cwd path s = Ok r s' /\ icache s' P None /\
    match resolve (G s) (path_start path start) (map (take (Z.to_nat DIRSIZ)) (elements path)) with
    | Some i => exists k, r = Some k /\ refers s' k i /\ kept s s' (one i)
    | None => r = None /\ kept s s' (fun _ => 0)
    end.
Proof using end_pos on_disk ly penv. apply namei_ok. Qed.
End icache.
