(* ===== verification/FsTrunc.v ===== *)
(** * Giving a file's blocks back: itrunc *)

From stdpp Require Import base gmap list numbers strings sets.
From Stdlib Require Import ZArith Lia.
From S2P Require Import Prelude Mem Spinlock Bytes Sleeplock Disk Bio BlockIO Fs FsSpec FsAlloc FsInode ProcEnv FsOwn FsMap FsFile.
Open Scope Z_scope.
Open Scope kernel_scope.

Section trunc.
Context {S H U : Type} {io : BlockIO S H} {spec : BlockSpec S H}.
Notation FS := (fsst S U).
Implicit Types (s : FS) (x : S) (P L : gset Z).
Context (sb : superblock) (ip : nat) (D : Z -> dinode) (ly : fs_layout sb).
Notation here := (here sb ip D).
Notation din := (din ip).
Notation inum := (inum ip).
Notation V := (V ip D).
Notation A := (A ip).

(** While [itrunc] runs on a consistent file system [s0]: the slots [m] of the
    inode have been freed, the free map says so, nothing else has changed. *)
Section progress.
Context (s0 : FS) (P0 : gset Z) (Hh0 : here s0 P0 ∅).

Record freed (m : Z -> bool) (x : S) P L : Prop := {
  fd_ok : io_ok x P L;
  fd_own : owners_ok (bmap_end sb) (sb_size sb) (sb_ninodes sb)
    (fun i k => if (i =? inum s0) && m k then 0 else slot_addr (G s0) (V s0 i) k) (used (io_get x) sb);
  fd_meta : forall b, 0 <= b < sb_size sb -> used (io_get x) sb b = false -> bmap_end sb <= b;
  fd_blocks : forall k, ~ in_bitmap sb k -> io_get x k = G s0 k;
  fd_in : P0 ⊆ P;
  fd_log : forall b, b ∈ P -> b ∈ P0 \/ in_bitmap sb b;
  fd_dur : forall k, io_dur x k = io_dur (fs_io s0) k
}.

Lemma freed_size m x P L : freed m x P L -> Z.of_nat (size P) <= Z.of_nat (size P0) + (bmap_end sb - sb_bmapstart sb).
Proof using ly.
  intros F. pose proof (size_start sb ly P0) as Hs. assert (Hin : P ⊆ P0 ∪ bitmap_set sb); [|pose proof (subseteq_size _ _ Hin); lia].
  intros b Hb. apply elem_of_union. destruct (fd_log _ _ _ _ F b Hb); [by left|right]. by apply elem_of_bitmap_set.
Qed.

Lemma freed_start L x : io_ok x P0 L -> (forall k, io_get x k = G s0 k) -> (forall k, io_dur x k = io_dur (fs_io s0) k) -> freed (fun _ => false) x P0 L.
Proof using Hh0 ly.
  intros Hok Hg Hdu. pose proof (h_wf _ _ _ _ _ _ Hh0) as [_ W2 W3 _ _].
  assert (Hu : forall b, used (io_get x) sb b = used (G s0) sb b) by (intros; by apply used_ext). split; [done| | |intros; apply Hg|done|by left|done].
  - eapply (owners_ext _ _ _ (ly_pos sb ly)); [| |exact W2]; [intros i k _; by rewrite andb_false_r|intros; apply Hu].
  - intros b Hb. rewrite Hu. by apply W3.
Qed.

Lemma freed_ext m m' x P L : (forall k, 0 <= k < NSLOTS -> m' k = m k \/ A s0 k = 0) -> freed m x P L -> freed m' x P L.
Proof using Hh0 ly.
  intros Hm [F1 F2 F3 F4 Fi F5 F6]. split; try done. eapply (owners_ext _ _ _ (ly_pos sb ly)); [| |exact F2]; [|done]. intros i k [Hi Hk].
  destruct (Z.eqb_spec i (inum s0)) as [->|]; cbn [andb]; [|done]. rewrite V_self. destruct (Hm k Hk) as [->|E]; [done|]. unfold FsMap.A in E. rewrite E.
  by destruct (m' k), (m k).
Qed.

Lemma freed_io m x x' P L L' : freed m x P L -> io_ok x' P L' -> (forall k, io_get x' k = io_get x k) -> (forall k, io_dur x' k = io_dur x k) ->
  freed m x' P L'.
Proof using ly.
  intros [K1 K2 K3 K4 K5 K6 K7] Hok Hg Hd. assert (Hu : forall b, used (io_get x') sb b = used (io_get x) sb b) by (intros; by apply used_ext).
  split; [done| | |intros; rewrite Hg; by apply K4|done|done|intros; by rewrite Hd].
  - eapply (owners_ext _ _ _ (ly_pos sb ly)); [| |exact K2]; done.
  - intros b Hb. rewrite Hu. by apply K3.
Qed.

(** [bfree] of the block in slot [k]. *)
Lemma free_slot m s P L k : fs_sb s = sb -> freed m (fs_io s) P L -> 0 <= k < NSLOTS -> m k = false -> A s0 k <> 0 -> held_files (io_get (fs_io s)) sb L ->
  Z.of_nat (size P0) + (bmap_end sb - sb_bmapstart sb) + Z.of_nat (size L) < LOGBLOCKS ->
  exists x P', bfree io_dev (A s0 k) s = Ok tt (set_io s x) /\ freed (fun j => m j || (j =? k)) x P' L /\ keeps_at (fs_io s) x L.
Proof using Hh0 ly.
  intros Hsb F Hk Hmk Hne Hheld Hroom. pose proof (freed_size _ _ _ _ F) as HsP. pose proof F as [F1 F2 F3 F4 Fi F5 F6]. assert (HNB : LOGBLOCKS = Z.of_nat NBUF) by reflexivity.
  pose proof (h_inum _ _ _ _ _ _ Hh0) as Hi. pose proof (bl_size _ (ly_bitmap sb ly)) as Hbs. pose proof (bl_start _ (ly_bitmap sb ly)) as Hbst.
  assert (Hs : in_slots (sb_ninodes sb) (inum s0) k) by done.
  assert (Ea : (if (inum s0 =? inum s0) && m k then 0 else slot_addr (G s0) (V s0 (inum s0)) k) = A s0 k) by (by rewrite Z.eqb_refl, Hmk, V_self).
  destruct (ow_range _ _ _ _ _ F2 (inum s0) k Hs) as [Hr Hu]; rewrite Ea in *; [done|]. pose proof (bmap_end_start sb ly) as Hbe. pose proof (ly_pos sb ly) as Hpos.
  pose proof (size_union_alt P L) as Hun. pose proof (subseteq_size (L ∖ P) L ltac:(set_solver)) as Hun2.
  pose proof (bfree_clears_mark sb (ly_bitmap sb ly) s P L (A s0 k) Hsb F1 Hheld ltac:(lia) ltac:(lia) ltac:(lia)) as B. rewrite Hu in B.
  destruct B as (x & E & Hok & Hus & Hg & Hk'). assert (Har : 0 <= A s0 k < sb_size sb) by lia. destruct (BBLOCK_range sb (A s0 k) (ly_bitmap sb ly) Har) as [_ HB].
  exists x, ({[BBLOCK (A s0 k) sb]} ∪ P). split_and!; [done| |done]. split; [done| | | |set_solver| |intros j; by rewrite (proj2 Hk')].
  - eapply (owners_free _ _ _ (ly_pos sb ly) _ _ _ _ (inum s0) k (A s0 k)); [exact F2|done|done|done| |intros; apply Hus; lia].
    intros i j [Hi' Hj]. destruct (Z.eqb_spec i (inum s0)), (Z.eqb_spec j k), (m j); cbn [andb orb]; done.
  - intros b Hb. rewrite Hus by done. destruct (Z.eqb_spec b (A s0 k)) as [->|]; [lia|by apply F3].
  - intros j Hj. rewrite Hg; [by apply F4|]. intros ->. by apply Hj.
  - intros b [->%elem_of_singleton|Hb]%elem_of_union; [by right|by apply F5].
Qed.

Context (Hroom : Z.of_nat (size P0) + (bmap_end sb - sb_bmapstart sb) + 2 <= LOGBLOCKS).

(** The inode in memory with its first [t] addresses cleared. *)
Definition cleared (t : Z) (d : dinode) : Prop :=
  length (di_addrs d) = Z.to_nat (NDIRECT + 1) /\ same_meta (din s0) d /\
  forall k, 0 <= k <= NDIRECT -> nthz (di_addrs d) k = if k <? t then 0 else nthz (di_addrs (din s0)) k.
Definition with_d (d : dinode) (x : S) : FS := set_io (seti s0 ip (set_i_d (geti s0 ip) d)) x.

Lemma geti_with_d d x : geti (with_d d x) ip = set_i_d (geti s0 ip) d.
Proof using Hh0. apply geti_seti, (h_len _ _ _ _ _ _ Hh0). Qed.

Lemma updd_with_d f d x : updd ip f (with_d d x) = Ok tt (with_d (f d) x).
Proof using Hh0.
  unfold updd, updi, modify. rewrite geti_with_d. unfold with_d. rewrite seti_set_io, seti_seti. done.
Qed.

Lemma no_held g : held_files g sb ∅.
Proof using. clear. intros b Hb%elem_of_empty. done. Qed.

(** The loop over the direct blocks. *)
Lemma direct_loop : exists d x P, for_all (seqZ 0 NDIRECT) (fun i =>
    s <- get ;;
    let a := nthz (di_addrs (i_d (geti s ip))) i in
    when (negb (a =? 0)) (bfree (i_dev (geti s ip)) a ;;; updd ip (fun d => set_d_addr d i 0))) s0 = Ok tt (with_d d x) /\
  freed (fun k => k <? NDIRECT) x P ∅ /\ cleared NDIRECT d.
Proof using Hh0 Hroom ly.
  destruct (for_all_inv (fun t s => exists d x P, s = with_d d x /\ freed (fun k => k <? t) x P ∅ /\ cleared t d) (fun i =>
    s <- get ;;
    let a := nthz (di_addrs (i_d (geti s ip))) i in
    when (negb (a =? 0)) (bfree (i_dev (geti s ip)) a ;;; updd ip (fun d => set_d_addr d i 0))) NDIRECT s0) as (s & E & d & x & P & -> & F & C).
  - done.
  - exists (din s0), (fs_io s0), P0. split_and!.
    + unfold with_d. rewrite set_io_same by apply (h_len _ _ _ _ _ _ Hh0). by destruct s0.
    + apply (freed_ext (fun _ => false)); [|apply freed_start; [apply (h_ok _ _ _ _ _ _ Hh0)|done|done]]. intros k Hk. left. destruct (Z.ltb_spec k 0); [lia|done].
    + split_and!; [by eapply addrs_len|done|]. intros k Hk. by destruct (Z.ltb_spec k 0); [lia|].
  - intros t s Ht (d & x & P & -> & F & Hl & Hm & Hk). unfold bind at 1, get. cbn zeta. rewrite geti_with_d. cbn [set_i_d i_d i_dev].
    rewrite Hk by lia. destruct (Z.ltb_spec t t); [lia|]. rewrite (h_dev _ _ _ _ _ _ Hh0).
    assert (EA : A s0 t = nthz (di_addrs (din s0)) t) by (unfold FsMap.A; apply slot_addr_low; lia). rewrite <- EA.
    destruct (Z.eqb_spec (A s0 t) 0) as [E0|Hne]; cbn [negb when].
    + exists (with_d d x). split; [done|]. exists d, x, P. split_and!; [done| |split_and!; [done|done|]].
      * apply (freed_ext (fun k => k <? t)); [|done]. intros k _. destruct (decide (k = t)) as [->|]; [by right|left].
        destruct (Z.ltb_spec k (t + 1)), (Z.ltb_spec k t); done || lia.
      * intros k Hkr. rewrite Hk by done. destruct (Z.ltb_spec k (t + 1)), (Z.ltb_spec k t); try done; try lia. replace k with t by lia. congruence.
    + destruct (free_slot (fun k => k <? t) (with_d d x) P ∅ t) as (y & P' & E & F' & _);
        [apply (h_sb _ _ _ _ _ _ Hh0)|done|unfold NSLOTS, NDIRECT in *; assert (0 <= NINDIRECT) by done; lia|apply Z.ltb_irrefl|done|apply no_held|rewrite size_empty; lia|].
      step_with E. change (set_io (with_d d x) y) with (with_d d y). rewrite updd_with_d. eexists. split; [done|]. eexists _, y, P'. split_and!; [done| |split_and!; [|done|]].
      * apply (freed_ext (fun j => (j <? t) || (j =? t))); [|done]. intros k _. left.
           destruct (Z.ltb_spec k (t + 1)), (Z.ltb_spec k t), (Z.eqb_spec k t); done || lia.
      * cbn. unfold setz. by rewrite length_insert.
      * intros k Hkr. cbn. rewrite nthz_setz by (rewrite ?Hl; lia). destruct (Z.eqb_spec k t) as [->|]; [by destruct (Z.ltb_spec t (t + 1)); [|lia]|].
           rewrite Hk by done. destruct (Z.ltb_spec k (t + 1)), (Z.ltb_spec k t); done || lia.
  - by exists d, x, P.
Qed.

Lemma slots_bound : NSLOTS = NDIRECT + 1 + NINDIRECT /\ NDIRECT = 12 /\ NINDIRECT = 256.
Proof using. clear. by vm_compute. Qed.

(** The slots freed when [j] entries of the indirect block have been done. *)
Definition upto (j k : Z) : bool := (k <? NDIRECT) || ((NDIRECT <? k) && (k <? NDIRECT + 1 + j)).

(** The indirect block is still marked while its entries are freed. *)
Lemma indirect_held j x P L : A s0 NDIRECT <> 0 -> freed (upto j) x P L ->
  bmap_end sb <= A s0 NDIRECT < sb_size sb /\ held_files (io_get x) sb ({[A s0 NDIRECT]} ∪ ∅).
Proof using Hh0 ly.
  intros Hne F. pose proof (h_inum _ _ _ _ _ _ Hh0) as Hi.
  assert (Hs : in_slots (sb_ninodes sb) (inum s0) NDIRECT) by (split; [done|destruct slots_bound as (-> & -> & ->); lia]).
  assert (Eu : upto j NDIRECT = false) by (unfold upto; rewrite Z.ltb_irrefl; done).
  pose proof (ow_range _ _ _ _ _ (fd_own _ _ _ _ F) (inum s0) NDIRECT Hs) as R. cbn beta in R. rewrite Z.eqb_refl, Eu, V_self in R. cbn [andb] in R.
  destruct (R Hne) as [Hr Hu]. fold (A s0 NDIRECT) in *. split; [exact Hr|].
  intros b [->%elem_of_singleton|[]%elem_of_empty]%elem_of_union. split; [apply Hr|exact Hu].
Qed.

(** The loop over the entries of the indirect block. *)
Lemma entry_loop s h P : fs_sb s = sb -> A s0 NDIRECT <> 0 -> freed (upto 0) (fs_io s) P ({[A s0 NDIRECT]} ∪ ∅) -> io_at (fs_io s) h (A s0 NDIRECT) ->
  exists x P', for_all (seqZ 0 NINDIRECT) (fun j =>
      a <- blk (io_data h) ;; when (negb (get_addr a j =? 0)) (bfree io_dev (get_addr a j))) s = Ok tt (set_io s x) /\
    freed (upto NINDIRECT) x P' ({[A s0 NDIRECT]} ∪ ∅) /\ io_at x h (A s0 NDIRECT).
Proof using Hh0 Hroom ly.
  intros Hsb Hne F0 Hat0. set (ind := A s0 NDIRECT) in *. assert (Hin : ind ∈ {[ind]} ∪ (∅ : gset Z)) by set_solver.
  destruct (for_all_inv (fun j s' => exists x P', s' = set_io s x /\ freed (upto j) x P' ({[ind]} ∪ ∅) /\ io_at x h ind) (fun j =>
      a <- blk (io_data h) ;; when (negb (get_addr a j =? 0)) (bfree io_dev (get_addr a j))) NINDIRECT s) as (s' & E & x & P' & -> & F & Hat); [done| | |by exists x, P'].
  { exists (fs_io s), P. split_and!; [by destruct s|done|done]. }
  intros t s' Ht (x & P' & -> & F & Hat). destruct (indirect_held t x P' _ Hne F) as [Hir Hheld]. fold ind in Hir, Hheld.
  assert (Hg : io_get x ind = G s0 ind) by (apply (fd_blocks _ _ _ _ F); unfold in_bitmap; lia).
  pose proof (io_data_ok x P' _ h ind (fd_ok _ _ _ _ F) Hin Hat) as Ed. rewrite Hg in Ed.
  step_with (blk_ok (io_data h) (set_io s x) _ _ Ed). pose proof (entry_slot ip s0 t ltac:(lia) Hne) as EA. fold ind in EA. rewrite <- EA.
  assert (Hup : forall k, upto (t + 1) k = upto t k || (k =? NDIRECT + 1 + t)).
  { intros k. unfold upto. destruct (Z.ltb_spec k NDIRECT), (Z.ltb_spec NDIRECT k), (Z.ltb_spec k (NDIRECT + 1 + (t + 1))), (Z.ltb_spec k (NDIRECT + 1 + t)),
      (Z.eqb_spec k (NDIRECT + 1 + t)); cbn [andb orb]; done || lia. }
  destruct (Z.eqb_spec (A s0 (NDIRECT + 1 + t)) 0) as [E0|Hnz]; cbn [negb when].
  - exists (set_io s x). split; [done|]. exists x, P'. split_and!; [done| |done]. apply (freed_ext (upto t)); [|done]. intros k _. rewrite Hup.
    destruct (Z.eqb_spec k (NDIRECT + 1 + t)) as [->|]; [by right|left; apply orb_false_r].
  - destruct (free_slot (upto t) (set_io s x) P' ({[ind]} ∪ ∅) (NDIRECT + 1 + t)) as (y & P2 & E & F' & Hk);
      [done|done|pose proof slots_bound; lia| |done|done|rewrite union_empty_r_L, size_singleton; lia|].
    { unfold upto. destruct (Z.ltb_spec (NDIRECT + 1 + t) NDIRECT), (Z.ltb_spec NDIRECT (NDIRECT + 1 + t)), (Z.ltb_spec (NDIRECT + 1 + t) (NDIRECT + 1 + t)); cbn [andb orb]; done || lia. }
    exists (set_io s y). split; [exact E|]. exists y, P2. split_and!; [done| |by apply (proj1 Hk)].
    apply (freed_ext (fun j => upto t j || (j =? NDIRECT + 1 + t))); [|done]. intros k _. left. apply Hup.
Qed.

(** The indirect block is freed with its entries. *)
Lemma indirect_freed d x P : A s0 NDIRECT <> 0 -> freed (fun k => k <? NDIRECT) x P ∅ ->
  exists y P', (bp <- blk (io_bread io_dev (A s0 NDIRECT)) ;;
      for_all (seqZ 0 NINDIRECT) (fun j =>
        a <- blk (io_data bp) ;; when (negb (get_addr a j =? 0)) (bfree io_dev (get_addr a j))) ;;;
      blk (io_brelse bp) ;;; bfree io_dev (A s0 NDIRECT)) (with_d d x) = Ok tt (with_d d y) /\
    freed (fun _ => true) y P' ∅.
Proof using Hh0 Hroom ly.
  intros Hne F. pose proof (bmap_end_start sb ly) as Hbe. assert (HNB : LOGBLOCKS = Z.of_nat NBUF) by reflexivity. pose proof slots_bound as HN.
  assert (F0 : freed (upto 0) x P ∅).
  { apply (freed_ext (fun k => k <? NDIRECT)); [|done]. intros k _. left. unfold upto.
    destruct (Z.ltb_spec k NDIRECT), (Z.ltb_spec NDIRECT k), (Z.ltb_spec k (NDIRECT + 1 + 0)); cbn [andb orb]; done || lia. }
  pose proof (freed_size _ _ _ _ F0) as Hsz. pose proof (bl_size _ (ly_bitmap sb ly)) as Hbs. pose proof (ly_pos sb ly) as Hpos.
  destruct (indirect_held 0 x P ∅ Hne F0) as [Hir _]. set (ind := A s0 NDIRECT) in *.
  destruct (open_block x P ∅ ind (fd_ok _ _ _ _ F0)) as (h & x1 & E1 & _ & Hok1 & Hat1 & Hg1 & Hd1 & _);
    [lia|apply not_elem_of_empty|right; rewrite union_empty_r_L; lia|].
  step_with (blk_ok _ (with_d d x) _ _ E1).
  assert (F1 : freed (upto 0) x1 P ({[ind]} ∪ ∅)).
  { by apply (freed_io _ x x1 P ∅). }
  destruct (entry_loop (with_d d x1) h P (h_sb _ _ _ _ _ _ Hh0) Hne F1 Hat1) as (x2 & P2 & E2 & F2 & Hat2). step_with E2.
  change (set_io (with_d d x1) x2) with (with_d d x2). pose proof F2 as [K1 K2 K3 K4 K5 K6 K7].
  assert (Hin : ind ∈ {[ind]} ∪ (∅ : gset Z)) by apply elem_of_union_l, elem_of_singleton, eq_refl.
  destruct (io_brelse_ok x2 P2 _ h ind K1 Hin Hat2) as (x3 & E3 & Hok3 & Hg3 & Hd3 & _).
  { destruct (decide (ind ∈ P2)) as [|Hni]; [by left|right]. rewrite K4, K7 by (unfold in_bitmap; lia).
    apply (io_clean (fs_io s0) P0 ∅); [apply (h_ok _ _ _ _ _ _ Hh0)|rewrite union_empty_r_L; intros Hb; by apply Hni, K5]. }
  step_with (blk_ok _ (with_d d x2) _ _ E3). change (set_io (with_d d x2) x3) with (with_d d x3).
  rewrite remove_added in Hok3 by apply not_elem_of_empty.
  assert (F3 : freed (upto NINDIRECT) x3 P2 ∅).
  { by apply (freed_io _ x2 x3 P2 ({[ind]} ∪ ∅)). }
  destruct (free_slot (upto NINDIRECT) (with_d d x3) P2 ∅ NDIRECT) as (y & P3 & E4 & F4 & _);
    [apply (h_sb _ _ _ _ _ _ Hh0)|done|lia|unfold upto; by rewrite Z.ltb_irrefl|done|apply no_held|rewrite size_empty; lia|].
  exists y, P3. split; [exact E4|]. apply (freed_ext (fun j => upto NINDIRECT j || (j =? NDIRECT))); [|done]. intros k Hk. left. unfold upto.
  destruct (Z.ltb_spec k NDIRECT), (Z.ltb_spec NDIRECT k), (Z.ltb_spec k (NDIRECT + 1 + NINDIRECT)), (Z.eqb_spec k NDIRECT); cbn [andb orb]; done || lia.
Qed.

(** Nothing is left in the slots of an inode whose addresses are all zero. *)
Lemma cleared_slots d g k : cleared (NDIRECT + 1) d -> 0 <= k -> slot_addr g d k = 0.
Proof using.
  clear P0 Hh0 Hroom. intros (_ & _ & Hc) Hk. assert (Hz : forall j, 0 <= j <= NDIRECT -> nthz (di_addrs d) j = 0).
  { intros j Hj. rewrite Hc by done. by destruct (Z.ltb_spec j (NDIRECT + 1)); [|lia]. }
  unfold slot_addr. destruct (Z.leb_spec k NDIRECT); [by apply Hz|]. cbn zeta. by rewrite Hz.
Qed.

Lemma cleared_ok d : cleared (NDIRECT + 1) d -> dinode_ok (set_d_size d 0).
Proof using Hh0.
  intros (Hl & (M1 & M2 & M3 & M4 & _) & Hc). destruct (din_ok sb ip D s0 P0 ∅ Hh0) as [K1 K2 K3 K4 _ _ _].
  split; cbn; rewrite ?M1, ?M2, ?M3, ?M4; try done. apply Forall_forall. intros a [j Hj]%list_elem_of_lookup.
  pose proof (lookup_lt_Some _ _ _ Hj) as Hlt. specialize (Hc (Z.of_nat j) ltac:(lia)). unfold nthz in Hc.
  rewrite Nat2Z.id, Hj in Hc. cbn in Hc. destruct (Z.ltb_spec (Z.of_nat j) (NDIRECT + 1)); [subst a; done|lia].
Qed.

(** The slots of the other inodes. *)
Lemma freed_slots m x P L i k : freed m x P L -> 0 <= i < sb_ninodes sb -> slot_addr (io_get x) (V s0 i) k = slot_addr (G s0) (V s0 i) k.
Proof using Hh0 ly.
  intros F Hi. apply slot_addr_ext. intros Hne. destruct (wf_indirect sb _ _ i (h_wf _ _ _ _ _ _ Hh0) Hi Hne) as [Hr _].
  apply (fd_blocks _ _ _ _ F). unfold in_bitmap. lia.
Qed.

Lemma freed_here d x P : freed (fun _ => true) x P ∅ -> cleared (NDIRECT + 1) d -> here (with_d (set_d_size d 0) x) P ∅.
Proof using Hh0 ly.
  intros F C. pose proof F as [F1 F2 F3 F4 _ _ _]. destruct Hh0 as [H1 H2 H3 H4 H5 W]. set (s := with_d _ x).
  assert (Eg : geti s ip = set_i_d (geti s0 ip) (set_d_size d 0)) by apply geti_with_d.
  assert (Ei : inum s = inum s0) by (unfold FsMap.inum; by rewrite Eg).
  assert (EV : forall i, V s i = if i =? inum s0 then set_d_size d 0 else V s0 i).
  { intros i. unfold FsMap.V, FsMap.din. rewrite Ei, Eg. unfold upd. by destruct (i =? inum s0). }
  split; [done|done|unfold s; cbn; by rewrite length_insert|by rewrite Eg|by rewrite Ei|]. split.
  - intros i Hi. rewrite EV. destruct (Z.eqb_spec i (inum s0)); [by apply cleared_ok|by apply (wf_dinode _ _ _ W)].
  - eapply (owners_ext _ _ _ (ly_pos sb ly)); [|done|exact F2]. intros i k [Hi Hk]. cbn beta. rewrite EV, andb_true_r. destruct (Z.eqb_spec i (inum s0)).
    + apply (cleared_slots d); [done|lia].
    + by apply (freed_slots (fun _ => true) x P ∅).
  - exact F3.
  - intros i Hi. rewrite EV. destruct (Z.eqb_spec i (inum s0)); [done|by apply (wf_size _ _ _ W)].
  - intros i bn Hi Hbn. rewrite EV. destruct (Z.eqb_spec i (inum s0)) as [->|]; [cbn [set_d_size di_size]; unfold BSIZE; lia|]. intros Hsz.
    change (G s) with (io_get x). rewrite (freed_slots (fun _ => true) x P ∅) by done. by apply (wf_dense _ _ _ W).
Qed.

(** The free map after: a block is in use when it was and was not the file's. *)
Lemma freed_used x P b : freed (fun _ => true) x P ∅ -> 0 < b < sb_size sb ->
  used (io_get x) sb b = true <-> used (G s0) sb b = true /\ forall k, 0 <= k < NSLOTS -> A s0 k <> b.
Proof using Hh0 ly.
  intros F Hb. pose proof F as [_ F2 F3 _ _ _ _]. destruct (h_wf _ _ _ _ _ _ Hh0) as [_ W2 W3 _ _]. pose proof (h_inum _ _ _ _ _ _ Hh0) as Hi. pose proof (ly_pos sb ly) as Hpos.
  destruct (decide (b < bmap_end sb)) as [Hlow|Hhigh].
  - assert (U1 : used (io_get x) sb b = true) by (apply not_false_is_true; intros E; specialize (F3 b ltac:(lia) E); lia).
    assert (U2 : used (G s0) sb b = true) by (apply not_false_is_true; intros E; specialize (W3 b ltac:(lia) E); lia).
    split; [|done]. intros _. split; [done|]. intros k Hk. destruct (decide (A s0 k = 0)) as [->|Hne]; [lia|].
    pose proof (ow_range _ _ _ _ _ W2 (inum s0) k (conj Hi Hk)) as R. cbn beta in R. rewrite V_self in R. destruct (R Hne) as [Hr _]. fold (A s0 k) in Hr. lia.
  - split.
    + intros Hu. destruct (ow_noleak _ _ _ _ _ F2 b ltac:(lia) Hu) as (i & k & [Hi' Hk] & E). cbn beta in E. rewrite andb_true_r in E.
      destruct (Z.eqb_spec i (inum s0)) as [->|Hne]; [lia|]. destruct (ow_range _ _ _ _ _ W2 i k (conj Hi' Hk)) as [_ Hus]; [cbn beta; rewrite E; lia|]. cbn beta in Hus. rewrite E in Hus. split; [done|].
      intros j Hj EA. destruct (ow_inj _ _ _ _ _ W2 i k (inum s0) j) as [? _]; [done|done|cbn beta; rewrite E; lia| |done]. cbn beta. rewrite E, V_self. by rewrite <- EA.
    + intros [Hu Hno]. destruct (ow_noleak _ _ _ _ _ W2 b ltac:(lia) Hu) as (i & k & [Hi' Hk] & E). cbn beta in E. destruct (Z.eqb_spec i (inum s0)) as [->|Hne].
      * rewrite V_self in E. by destruct (Hno k Hk).
      * pose proof (ow_range _ _ _ _ _ F2 i k (conj Hi' Hk)) as R. cbn beta in R. rewrite (proj2 (Z.eqb_neq _ _) Hne) in R. cbn [andb] in R. rewrite E in R. apply R. lia.
Qed.

(** The body of [itrunc] up to the update of the inode. *)
Lemma itrunc_unfold : exists d x P, itrunc ip s0 = iupdate ip (with_d (set_d_size d 0) x) /\
  freed (fun _ => true) x P ∅ /\ cleared (NDIRECT + 1) d.
Proof using Hh0 Hroom ly.
  destruct direct_loop as (d & x & P & E & F & C). pose proof C as (Hl & Hm & Hc). unfold itrunc. step_with E. unfold bind at 1, get. cbn zeta.
  rewrite geti_with_d. cbn [set_i_d i_d i_dev]. rewrite Hc by (assert (0 <= NDIRECT) by done; lia). rewrite Z.ltb_irrefl, (h_dev _ _ _ _ _ _ Hh0).
  assert (EA : A s0 NDIRECT = nthz (di_addrs (din s0)) NDIRECT) by (unfold FsMap.A; apply slot_addr_low; lia). rewrite <- EA.
  destruct (Z.eqb_spec (A s0 NDIRECT) 0) as [E0|Hne]; cbn [negb when].
  - exists d, x, P. split_and!; [unfold bind at 1, ret; unfold bind; by rewrite updd_with_d| |split_and!; [done|done|]].
    + apply (freed_ext (fun k => k <? NDIRECT)); [|done]. intros k Hk. destruct (Z.ltb_spec k NDIRECT); [by left|right].
      unfold FsMap.A, slot_addr in *. destruct (Z.leb_spec k NDIRECT); [by replace k with NDIRECT by lia|]. cbn zeta. by rewrite <- EA, E0.
    + intros k Hk. rewrite Hc by done. destruct (Z.ltb_spec k NDIRECT), (Z.ltb_spec k (NDIRECT + 1)); try done; try lia. replace k with NDIRECT by lia. congruence.
  - destruct (indirect_freed d x P Hne F) as (y & P' & E2 & F2). exists (set_d_addr d NDIRECT 0), y, P'. split_and!; [|done|split_and!; [|done|]].
    + transitivity ((updd ip (fun d => set_d_addr d NDIRECT 0) ;;; updd ip (fun d => set_d_size d 0) ;;; iupdate ip) (with_d d y)).
      * revert E2. unfold bind. destruct (blk (io_bread io_dev (A s0 NDIRECT)) (with_d d x)) as [h s1|?|?|]; try done.
        destruct (for_all _ _ s1) as [[] s2|?|?|]; try done. destruct (blk (io_brelse h) s2) as [[] s3|?|?|]; try done. by intros ->.
      * unfold bind at 1. rewrite updd_with_d. unfold bind. by rewrite updd_with_d.
    + cbn. unfold setz. by rewrite length_insert.
    + intros k Hk. cbn. rewrite nthz_setz by (rewrite ?Hl; done || lia). destruct (Z.eqb_spec k NDIRECT) as [->|]; [by destruct (Z.ltb_spec NDIRECT (NDIRECT + 1)); [|lia]|].
      rewrite Hc by done. destruct (Z.ltb_spec k NDIRECT), (Z.ltb_spec k (NDIRECT + 1)); done || lia.
Qed.
End progress.

(** What [itrunc] leaves of the inode and of the rest of the disk. *)
Record truncated s s' : Prop := {
  tr_empty : di_size (din s') = 0 /\ forall k, 0 <= k < NSLOTS -> A s' k = 0;
  tr_meta : di_type (din s') = di_type (din s) /\ di_major (din s') = di_major (din s) /\ di_minor (din s') = di_minor (din s) /\ di_nlink (din s') = di_nlink (din s);
  tr_table : it_inode s' = <[ip := set_i_d (geti s ip) (din s')]> (it_inode s) /\ it_lock s' = it_lock s /\ fs_um s' = fs_um s;
  tr_disk : forall j, 0 <= j < sb_ninodes sb -> inode_at (G s') sb j = if j =? inum s then din s' else inode_at (G s) sb j;
  tr_used : forall b, 0 < b < sb_size sb -> used (G s') sb b = true <-> used (G s) sb b = true /\ forall k, 0 <= k < NSLOTS -> A s k <> b;
  tr_others : forall j, 0 <= j < sb_ninodes sb -> j <> inum s -> contents (G s') (D j) = contents (G s) (D j)
}.

Lemma V_other s i : i <> inum s -> V s i = D i.
Proof using. intros. unfold FsMap.V. by rewrite upd_other. Qed.

(** The blocks of the other files are not in the free map. *)
Lemma other_contents s P j g : here s P ∅ -> 0 <= j < sb_ninodes sb -> j <> inum s -> (forall k, bmap_end sb <= k -> g k = G s k) ->
  contents g (D j) = contents (G s) (D j).
Proof using ly.
  intros Hh Hj Hne Hg. pose proof (h_wf _ _ _ _ _ _ Hh) as W. pose proof (V_other s j Hne) as EV. apply map_ext_in. intros o Ho%list_elem_of_In%elem_of_seqZ.
  pose proof (wf_size _ _ _ W j Hj) as Hsz. rewrite EV in Hsz.
  assert (Hbn : 0 <= o / BSIZE < MAXFILE) by (assert (0 < BSIZE) by done; split; [apply Z.div_pos; lia|apply Z.div_lt_upper_bound; lia]).
  apply file_byte_eq.
  - apply slot_addr_ext. intros Hn. apply Hg. rewrite <- EV in *. by apply (wf_indirect sb _ _ j W Hj).
  - intros Hn. apply Hg. rewrite <- EV in *. by apply (wf_file_block sb _ _ j (o / BSIZE) W Hj).
Qed.

(** C24. [itrunc] empties a file: its size is 0 and it has no blocks, its other
    fields are as they were, and the inode on disk says so. Exactly the blocks
    that were its own, direct, indirect and listed in the indirect block, are
    free again; every other file and inode is as it was, and the file system
    is consistent. The transaction has grown by no more than the free map and
    the inode's block, so that a transaction that has room for these never
    overflows whatever the length of the file. *)
Theorem itrunc_frees s P : here s P ∅ -> Z.of_nat (size P) + (bmap_end sb - sb_bmapstart sb) + 2 <= LOGBLOCKS ->
  exists s' P', itrunc ip s = Ok tt s' /\ here s' P' ∅ /\ truncated s s' /\ Z.of_nat (size P') <= Z.of_nat (size P) + (bmap_end sb - sb_bmapstart sb) + 1.
Proof using ly.
  intros Hh Hroom. destruct (itrunc_unfold s P Hh Hroom) as (d & x & P1 & E & F & C). assert (HNB : LOGBLOCKS = Z.of_nat NBUF) by reflexivity.
  pose proof (freed_here s P Hh d x P1 F C) as Hh1. pose proof (freed_size s P _ _ _ _ F) as HsP. pose proof (geti_with_d s P Hh (set_d_size d 0) x) as Eg.
  set (s1 := with_d s (set_d_size d 0) x) in *. assert (Ei : inum s1 = inum s) by (unfold FsMap.inum; by rewrite Eg).
  assert (Ed : din s1 = set_d_size d 0) by (unfold FsMap.din; by rewrite Eg).
  destruct (here_iupdate sb ip D ly s1 P1 Hh1 ltac:(lia)) as (s' & P' & E2 & Hh' & -> & Ht & Hl & Hum & Hdisk & Hg).
  assert (Ei' : inum s' = inum s) by (unfold FsMap.inum, geti; rewrite Ht; exact Ei).
  assert (Ed' : din s' = set_d_size d 0) by (unfold FsMap.din, geti; rewrite Ht; exact Ed).
  pose proof (bmap_end_start sb ly) as Hbe. assert (Hg' : forall k, bmap_end sb <= k -> G s' k = G s k).
  { intros k Hk. rewrite Hg by lia. apply (fd_blocks _ _ _ _ _ _ F). unfold in_bitmap. lia. }
  exists s', ({[IBLOCK (inum s1) sb]} ∪ P1). split_and!; [by rewrite E|done| |pose proof (size_union_alt {[IBLOCK (inum s1) sb]} P1) as Hsu;
    pose proof (subseteq_size (P1 ∖ {[IBLOCK (inum s1) sb]}) P1 ltac:(clear; set_solver)) as Hs2; rewrite size_singleton in Hsu; lia].
  split.
  - split; [by rewrite Ed'|]. intros k Hk. unfold FsMap.A. rewrite Ed'. exact (cleared_slots s d (G s') k C (proj1 Hk)).
  - destruct C as (_ & (M1 & M2 & M3 & M4 & _) & _). by rewrite Ed'.
  - rewrite Ht, Hl, Hum, Ed'. done.
  - intros j Hj. rewrite Hdisk, Ei, Ed, Ed' by done. destruct (Z.eqb_spec j (inum s)); [done|]. unfold inode_at. f_equal. apply (fd_blocks _ _ _ _ _ _ F).
    unfold in_bitmap. pose proof (ly_order sb ly _ Hj). destruct (IBLOCK_range sb j (ly_inodes sb ly) Hj) as (EB & _). lia.
  - intros b Hb. rewrite <- (freed_used s P Hh x P1 b F Hb). unfold used. rewrite Hg; [done|]. by apply (BBLOCK_range sb b (ly_bitmap sb ly)); lia.
  - intros j Hj Hne. by apply (other_contents s P).
Qed.
End trunc.
