(* ===== verification/FsDemo.v ===== *)
(** * The file system theorems at work

    A small file system on the log, the block cache and the RAM disk: one
    inode in memory, with one block. The theorems on files, directories and
    [itrunc] are applied to it. *)

From stdpp Require Import base gmap list numbers strings sets.
From Stdlib Require Import ZArith Lia.
From S2P Require Import Prelude Mem Spinlock Bytes Sleeplock Disk Bio BioSpec Cache Log LogSpec LogSafe BlockIO LogIO Fs FsSpec FsAlloc FsInode ProcEnv FsOwn FsMap FsFile FsDir FsTrunc.
Open Scope Z_scope.
Open Scope kernel_scope.

#[local] Existing Instance demo_io.
#[local] Existing Instance demo_spec.
#[local] Existing Instance flat_env.
#[local] Existing Instance flat_spec.

(** Block 47 is the data of inode 5; blocks 0 to 46 are metadata. *)
Definition one_map : block := replicate 6 255 ++ replicate 1018 0.
Definition one_inode (type size : Z) : dinode := mk_dinode type 0 0 1 size (47 :: replicate 12 0).
Definition one_fs (x : logst ramdisk_st) (u : flat) (d : dinode) : fsst (logst ramdisk_st) flat :=
  mk_fs x u false [mk_inode 1 5 1 initsleeplock true d] demo_sb.
Definition no_files (_ : Z) : dinode := dinode0.

Lemma demo_fs_layout : fs_layout demo_sb.
Proof.
  split; [apply demo_layout|apply demo_inodes| |by vm_compute|].
  - intros i Hi. cbn [sb_ninodes sb_inodestart sb_bmapstart demo_sb] in *. change IPB with 16. assert (i / 16 < 13) by (apply Z.div_lt_upper_bound; lia). lia.
  - intros b Hb. change (bmap_end demo_sb) with 47 in Hb. cbn in *. unfold in_log, LOGBLOCKS, MAXOPBLOCKS. lia.
Qed.

(** A block rewritten in a transaction. *)
Lemma demo_write (x : logst ramdisk_st) P b bl : io_ok x P ∅ -> 33 <= b < 200 -> (size P < 25)%nat -> is_block bl ->
  exists x', io_ok x' ({[b]} ∪ P) ∅ /\ forall k, io_get x' k = if decide (k = b) then bl else io_get x k.
Proof.
  intros Hok Hb HP Hbl. assert (Hn : (io_nblocks : Z) = 8192) by (by vm_compute). assert (HNB : NBUF = 30%nat) by reflexivity. assert (HLB : LOGBLOCKS = 30) by reflexivity.
  destruct (open_block x P ∅ b Hok) as (h & x1 & _ & _ & H1 & Hat & Hg1 & _); [lia|apply not_elem_of_empty|right; rewrite union_empty_r_L; lia|].
  destruct (rewrite_block x1 P ∅ h b bl H1 Hat) as (x2 & x3 & x4 & _ & _ & _ & H4 & Hg & _);
    [lia|cbn; unfold in_log; lia|apply not_elem_of_empty|lia|done|].
  exists x4. split; [done|]. intros k. by rewrite Hg, Hg1.
Qed.

Lemma one_state bl : is_block bl -> exists x : logst ramdisk_st, io_ok x ({[46]} ∪ ({[47]} ∪ {[46]})) ∅ /\ io_get x 46 = one_map /\ io_get x 47 = bl.
Proof.
  intros Hbl. destruct demo_trans as (x & Hok & _). destruct (demo_write x {[46]} 47 bl Hok) as (x1 & H1 & Hg1); [lia|rewrite size_singleton; lia|done|].
  destruct (demo_write x1 ({[47]} ∪ {[46]}) 46 one_map H1) as (x2 & H2 & Hg2); [lia|rewrite size_union by set_solver; rewrite !size_singleton; lia| |].
  { split; [reflexivity|]. apply Forall_app_2; apply Forall_replicate; unfold is_byte; lia. }
  exists x2. split_and!; [done|by rewrite Hg2, decide_True|]. rewrite Hg2, decide_False, Hg1, decide_True by done. done.
Qed.

Lemma one_used x b : io_get x 46 = one_map -> 0 <= b < 200 -> used (io_get (x : logst ramdisk_st)) demo_sb b = (b <? 48).
Proof.
  intros Hg Hb. assert (E : BBLOCK b demo_sb = 46).
  { unfold BBLOCK, BPB, BSIZE. cbn [sb_bmapstart demo_sb]. rewrite Z.div_small by lia. reflexivity. }
  unfold used. rewrite E, Hg. rewrite Z.mod_small by (unfold BPB, BSIZE; lia).
  assert (Hall : forallb (fun b => Bool.eqb (bit_of one_map b) (b <? 48)) (seqZ 0 200) = true) by (vm_compute; reflexivity).
  rewrite forallb_forall in Hall. apply eqb_prop, Hall, list_elem_of_In, elem_of_seqZ. lia.
Qed.

Lemma one_slot g type size k : 0 <= k < NSLOTS -> slot_addr g (one_inode type size) k = if k =? 0 then 47 else 0.
Proof.
  intros Hk. unfold slot_addr. destruct (Z.leb_spec k NDIRECT) as [H|H]; [|by destruct (Z.eqb_spec k 0); [unfold NDIRECT in *; lia|]].
  assert (Hall : forallb (fun k => nthz (di_addrs (one_inode type size)) k =? if k =? 0 then 47 else 0) (seqZ 0 (NDIRECT + 1)) = true) by reflexivity.
  rewrite forallb_forall in Hall. apply Z.eqb_eq, Hall, list_elem_of_In, elem_of_seqZ. lia.
Qed.

Lemma none_slot g k : 0 <= k -> slot_addr g dinode0 k = 0.
Proof.
  intros Hk. unfold slot_addr. destruct (Z.leb_spec k NDIRECT) as [H|H]; [|done]. unfold nthz. cbn [dinode0 di_addrs].
  destruct (decide (Z.to_nat k < Z.to_nat (NDIRECT + 1))%nat); [by rewrite lookup_replicate_2|]. unfold NDIRECT in *. lia.
Qed.

Section one.
Context (type size : Z) (Htype : - 2 ^ 15 <= type < 2 ^ 15) (Hsize : 0 <= size <= 1024).
Context (x : logst ramdisk_st) (P : gset Z) (u : flat) (Hok : io_ok x P ∅) (Hmap : io_get x 46 = one_map).
Notation s := (one_fs x u (one_inode type size)).

Lemma one_inode_ok : dinode_ok (one_inode type size).
Proof using Htype Hsize. split; cbn [one_inode di_type di_major di_minor di_nlink di_size di_addrs]; [lia..|reflexivity|]. constructor; [lia|]. apply (Forall_replicate _ 12). lia. Qed.

Lemma one_here : here demo_sb 0 no_files s P ∅.
Proof using All.
  assert (EV : forall i, V 0 no_files s i = if i =? 5 then one_inode type size else dinode0) by done.
  assert (ES : forall i k, 0 <= k < NSLOTS -> slot_addr (G s) (V 0 no_files s i) k = if (i =? 5) && (k =? 0) then 47 else 0).
  { intros i k Hk. rewrite EV. destruct (i =? 5); cbn [andb]; [by apply one_slot|apply none_slot; lia]. }
  split; [done|done|cbn; lia|reflexivity|by vm_compute|]. split.
  - intros i Hi. rewrite EV. destruct (i =? 5); [apply one_inode_ok|]. split; cbn [dinode0 di_type di_major di_minor di_nlink di_size di_addrs]; [lia..|reflexivity|].
    apply Forall_replicate. lia.
  - change (bmap_end demo_sb) with 47. cbn [sb_size sb_ninodes demo_sb]. split.
    + intros i k [_ Hk]. rewrite ES by done. destruct (_ && _); [|done]. intros _. split; [lia|]. by apply (one_used x 47 Hmap).
    + intros i k j l [_ Hk] [_ Hl]. rewrite !ES by done. destruct (Z.eqb_spec i 5), (Z.eqb_spec k 0), (Z.eqb_spec j 5), (Z.eqb_spec l 0); cbn [andb]; try done; intros; lia.
    + intros b Hb Hu. change (G s) with (io_get x) in Hu. rewrite (one_used x b Hmap) in Hu by lia. apply Z.ltb_lt in Hu. exists 5, 0. split; [by vm_compute|]. rewrite ES by by vm_compute. cbn. lia.
  - intros b Hb Hu. cbn [sb_size demo_sb] in Hb. change (G s) with (io_get x) in Hu. rewrite (one_used x b Hmap Hb) in Hu. apply Z.ltb_ge in Hu. change (bmap_end demo_sb) with 47. lia.
  - intros i Hi. rewrite EV. change (MAXFILE * BSIZE) with 274432. destruct (i =? 5); cbn; lia.
  - intros i bn Hi Hbn. rewrite EV. destruct (i =? 5); cbn [one_inode dinode0 di_size]; unfold BSIZE; [|lia]. intros Hs. assert (bn = 0) as -> by lia.
    change (file_slot 0) with 0. by rewrite one_slot.
Qed.

Lemma one_contents bl : is_block bl -> io_get x 47 = bl -> contents (G s) (one_inode type size) = take (Z.to_nat size) bl.
Proof using Hsize.
  intros [Hl _] Hg. apply list_eq. intros i. unfold contents. rewrite list_lookup_fmap. cbn [one_inode di_size]. destruct (decide (i < Z.to_nat size)%nat) as [Hi|Hi].
  - rewrite lookup_seqZ_lt by lia. cbn [fmap option_fmap option_map]. rewrite lookup_take_lt by done. rewrite Z.add_0_l.
    unfold file_byte. unfold BSIZE in *. destruct (decide (Z.of_nat i < 1024)); [|lia]. rewrite Z.div_small, Z.mod_small by lia. change (file_slot 0) with 0.
    rewrite one_slot by by vm_compute. cbn [Z.eqb]. change (G s 47) with (io_get x 47). rewrite Hg. unfold nthz. rewrite Nat2Z.id.
    destruct (lookup_lt_is_Some_2 bl i) as [b Hb]; [lia|]. by rewrite Hb.
  - rewrite lookup_seqZ_ge by lia. rewrite lookup_take_ge by lia. done.
Qed.
End one.

(** ** Reading, writing, linking and truncating *)

Definition one_set : gset Z := {[46]} ∪ ({[47]} ∪ {[46]}).
Definition hi_block : block := [104; 105] ++ replicate 1022 0.
Definition dot_block : block := [5; 0; 46] ++ replicate 1021 0.
Definition demo_user : flat := mk_flat (list_to_map [(100, 1); (101, 2); (102, 3)]) [] [].

Lemma hi_block_ok : is_block hi_block.
Proof. split; [reflexivity|]. apply Forall_app_2; [by repeat constructor|]. apply Forall_replicate. unfold is_byte. lia. Qed.
Lemma dot_block_ok : is_block dot_block.
Proof. split; [reflexivity|]. apply Forall_app_2; [by repeat constructor|]. apply Forall_replicate. unfold is_byte. lia. Qed.

Lemma readi_reads_witness : exists x s', readi 0 (Kernel []) 0 9 (one_fs x demo_user (one_inode T_FILE 2)) = Ok (2, [104; 105]) s'.
Proof.
  destruct (one_state hi_block hi_block_ok) as (x & Hok & Hm & Hd). exists x. set (s := one_fs x demo_user (one_inode T_FILE 2)).
  assert (Hh : here demo_sb 0 no_files s one_set ∅) by (apply one_here; [done|lia|done|done]).
  destruct (readi_reads demo_sb 0 no_files (ly_pos _ demo_fs_layout) (proj2 (bl_size _ demo_layout)) s one_set (Kernel []) 0 9 Hh)
    as (ok & bs & s' & E & Hbs & [_ Hk] & _); [vm_compute; lia|lia|lia|done|].
  pose proof (one_contents T_FILE 2 ltac:(lia) x demo_user hi_block hi_block_ok Hd) as Hc. fold s in Hc.
  change (din 0 s) with (one_inode T_FILE 2) in *. rewrite Hc in Hbs.
  subst ok. rewrite (Hbs eq_refl) in E. exists s'. exact E.
Defined.


Lemma dirlink_adds_name_witness : exists x r s', dirlink 7 0 [97] 9 (one_fs x demo_user (one_inode T_DIR 16)) = Ok r s' /\
  (r = 0 -> dir_lookup (contents (G s') (din 0 s')) [97] = Some 9 /\ dir_lookup (contents (G s') (din 0 s')) [46] = Some 5).
Proof.
  destruct (one_state dot_block dot_block_ok) as (x & Hok & Hm & Hd). exists x. set (s := one_fs x demo_user (one_inode T_DIR 16)).
  assert (Hh : here demo_sb 0 no_files s one_set ∅) by (apply one_here; [done|lia|done|done]).
  pose proof (one_contents T_DIR 16 ltac:(lia) x demo_user dot_block dot_block_ok Hd) as Hc. fold s in Hc.
  destruct (dirlink_adds_name 7 demo_sb 0 no_files demo_fs_layout s one_set [97] 9 Hh) as (r & s' & P' & E & _ & _ & _ & Hr);
    [done|change (din 0 s) with (one_inode T_DIR 16); rewrite Hc; by vm_compute|by repeat constructor|lia|by vm_compute|].
  exists r, s'. split; [exact E|]. intros ->. destruct Hr as [[_ Hr]|[? _]]; [|discriminate]. rewrite !Hr. split; [by vm_compute|].
  change (din 0 s) with (one_inode T_DIR 16). rewrite Hc. by vm_compute.
Defined.

Lemma itrunc_frees_witness : exists x s', itrunc 0 (one_fs x demo_user (one_inode T_FILE 2)) = Ok tt s' /\ used (G s') demo_sb 47 = false.
Proof.
  destruct (one_state hi_block hi_block_ok) as (x & Hok & Hm & Hd). exists x. set (s := one_fs x demo_user (one_inode T_FILE 2)).
  assert (Hh : here demo_sb 0 no_files s one_set ∅) by (apply one_here; [done|lia|done|done]).
  destruct (itrunc_frees demo_sb 0 no_files demo_fs_layout s one_set Hh) as (s' & P' & E & _ & T & _); [by vm_compute|].
  exists s'. split; [exact E|]. apply not_true_is_false. intros Hu. apply (tr_used _ _ _ _ _ T 47) in Hu as [_ Hn]; [|cbn; lia].
  apply (Hn 0); [by vm_compute|]. unfold A. change (din 0 s) with (one_inode T_FILE 2). by rewrite one_slot.
Defined.
