(* ===== verification/Mkfs.v ===== *)
(** * The program that makes a file system image (mkfs/mkfs.c)

    It runs on the build machine, which is taken to be little-endian. The image is a
    regular file, here a list of blocks: every access is a whole block at a
    multiple of the block size. A failed [assert] and [die] end the program
    and are panics. The messages it prints are left out. *)

From stdpp Require Import base gmap list numbers strings.
From Stdlib Require Import ZArith Lia.
From S2P Require Import Prelude Mem Spinlock Bytes Sleeplock Disk Bio BlockIO Fs.
Open Scope Z_scope.
Open Scope kernel_scope.

Definition NINODES : Z := 200.
Definition FSSIZE : Z := 2000.
Definition nbitmap : Z := FSSIZE / BPB + 1.
Definition ninodeblocks : Z := NINODES / IPB + 1.
Definition nlog : Z := LOGBLOCKS + 1.
Definition nmeta : Z := 2 + nlog + ninodeblocks + nbitmap.
Definition nblocks : Z := FSSIZE - nmeta.

(** The files of the build machine: whether the image can be created and its
    sectors written, and for the name of a file what the successive calls of
    [read] return before the first that is not positive. *)
Record host := mk_host {
  h_create : list Z -> bool;
  h_write : Z -> bool;
  h_open : list Z -> option (list (list Z)) }.

(** The globals. *)
Record mkst := mk_mkst { fsimg : list block; m_sb : superblock; freeinode : Z; freeblock : Z }.
Definition mkst0 : mkst := mk_mkst [] (mk_sb 0 0 0 0 0 0 0 0) 1 0.
Definition set_fsimg (s : mkst) (l : list block) : mkst := mk_mkst l (m_sb s) (freeinode s) (freeblock s).
Definition set_m_sb (s : mkst) (b : superblock) : mkst := mk_mkst (fsimg s) b (freeinode s) (freeblock s).
Definition set_freeinode (s : mkst) (n : Z) : mkst := mk_mkst (fsimg s) (m_sb s) n (freeblock s).
Definition set_freeblock (s : mkst) (n : Z) : mkst := mk_mkst (fsimg s) (m_sb s) (freeinode s) n.

(** The bytes of [y] are stored one by one and read back as a whole. *)
Definition xshort (x : Z) : Z := getn 2 [u8 x; u8 (Z.shiftr x 8)] 0.
Definition xint (x : Z) : Z := getn 4 [u8 x; u8 (Z.shiftr x 8); u8 (Z.shiftr x 16); u8 (Z.shiftr x 24)] 0.

(** The superblock in memory, as bytes. *)
Definition encode_sb (bl : block) (b : superblock) : block :=
  putn 4 (putn 4 (putn 4 (putn 4 (putn 4 (putn 4 (putn 4 (putn 4 bl
    0 (sb_magic b)) 4 (sb_size b)) 8 (sb_nblocks b)) 12 (sb_ninodes b))
    16 (sb_nlog b)) 20 (sb_logstart b)) 24 (sb_inodestart b)) 28 (sb_bmapstart b).

Definition zeroes : block := replicate (Z.to_nat BSIZE) 0.

Definition die {A} (msg : string) : M mkst A := panic msg.
Definition assert (c : bool) : M mkst unit := if c then ret tt else panic "assertion failed".

Section mkfs.
Context (h : host).

(** A write past the end of the file leaves a hole that reads as zeros. *)
Definition wsect (sec : Z) (buf : block) : M mkst unit :=
  let off := u32 (sec * BSIZE) in
  if negb (h_write h off) then die "write"
  else modify (fun s =>
    let i := Z.to_nat (off / BSIZE) in
    set_fsimg s (<[i := buf]> (fsimg s ++ replicate (S i - length (fsimg s)) zeroes))).

Definition rsect (sec : Z) : M mkst block :=
  let off := u32 (sec * BSIZE) in
  s <- get ;;
  match fsimg s !! Z.to_nat (off / BSIZE) with
  | Some bl => ret bl
  | None => die "read"
  end.

Definition winode (inum : Z) (ip : dinode) : M mkst unit :=
  s <- get ;;
  let bn := IBLOCK inum (m_sb s) in
  buf <- rsect bn ;;
  wsect bn (write_dinode buf (inum mod IPB) ip).

Definition rinode (inum : Z) : M mkst dinode :=
  s <- get ;;
  let bn := IBLOCK inum (m_sb s) in
  buf <- rsect bn ;;
  ret (read_dinode buf (inum mod IPB)).

Definition ialloc (type : Z) : M mkst Z :=
  s <- get ;;
  let inum := freeinode s in
  modify (fun s => set_freeinode s (u32 (inum + 1))) ;;;
  winode inum (mk_dinode (i16 (xshort type)) 0 0 (i16 (xshort 1)) (xint 0) (replicate (Z.to_nat (NDIRECT + 1)) 0)) ;;;
  ret inum.

Definition balloc (used : Z) : M mkst unit :=
  assert (used <? BPB) ;;;
  s <- get ;;
  wsect (sb_bmapstart (m_sb s)) (foldl set_bit zeroes (seqZ 0 used)).

(** [freeblock++] *)
Definition newblock : M mkst Z :=
  s <- get ;;
  modify (fun s => set_freeblock s (u32 (freeblock s + 1))) ;;;
  ret (freeblock s).

(** The block number of block [fbn] of the file, allocated when there is none. *)
Definition iappend_block (din : dinode) (fbn : Z) : M mkst (dinode * Z) :=
  if fbn <? NDIRECT then
    din <- (if xint (nthz (di_addrs din) fbn) =? 0 then b <- newblock ;; ret (set_d_addr din fbn (xint b)) else ret din) ;;
    ret (din, xint (nthz (di_addrs din) fbn))
  else
    din <- (if xint (nthz (di_addrs din) NDIRECT) =? 0 then b <- newblock ;; ret (set_d_addr din NDIRECT (xint b)) else ret din) ;;
    indirect <- rsect (xint (nthz (di_addrs din) NDIRECT)) ;;
    indirect <- (if get_addr indirect (fbn - NDIRECT) =? 0 then
                   b <- newblock ;;
                   let indirect := put_addr indirect (fbn - NDIRECT) (xint b) in
                   wsect (xint (nthz (di_addrs din) NDIRECT)) indirect ;;;
                   ret indirect
                 else ret indirect) ;;
    ret (din, xint (get_addr indirect (fbn - NDIRECT))).

Fixpoint iappend_loop (fuel : nat) (din : dinode) (off : Z) (p : list Z) (n : Z) : M mkst (dinode * Z) :=
  match fuel with
  | O => no_fuel
  | S fuel' =>
      if n <=? 0 then ret (din, off)
      else
        let fbn := off / BSIZE in
        assert (fbn <? MAXFILE) ;;;
        r <- iappend_block din fbn ;;
        let '(din, x) := r in
        let n1 := Z.min n (u32 ((fbn + 1) * BSIZE - off)) in
        buf <- rsect x ;;
        wsect x (splice buf (Z.to_nat (off - fbn * BSIZE)) (take (Z.to_nat n1) p)) ;;;
        iappend_loop fuel' din (u32 (off + n1)) (drop (Z.to_nat n1) p) (n - n1)
  end.

Definition iappend (inum : Z) (xp : list Z) (n : Z) : M mkst unit :=
  din <- rinode inum ;;
  r <- iappend_loop (S (Z.to_nat n)) din (xint (di_size din)) xp n ;;
  let '(din, off) := r in
  winode inum (set_d_size din (xint off)).

(** The name of a file in the image. *)
Definition c_slash : Z := 47.
Definition c_under : Z := 95.
Definition user_dir : list Z := [117; 115; 101; 114; 47].
Definition skip_user (arg : list Z) : list Z := if bool_decide (take 5 arg = user_dir) then drop 5 arg else arg.
Definition skip_under (name : list Z) : list Z := if nthz name 0 =? c_under then drop 1 name else name.

(** One round of the loop over the arguments. *)
Definition add_file (rootino : Z) (arg : list Z) : M mkst unit :=
  let shortname := skip_user arg in
  assert (negb (bool_decide (c_slash ∈ shortname))) ;;;
  match h_open h arg with
  | None => die "open"
  | Some reads =>
      let shortname := skip_under shortname in
      assert (Z.of_nat (length shortname) <=? DIRSIZ) ;;;
      inum <- ialloc T_FILE ;;
      iappend rootino (mk_dirent (xshort inum) shortname) sizeof_dirent ;;;
      for_all reads (fun buf => iappend inum buf (Z.of_nat (length buf)))
  end.

(** The size of the root directory is rounded up. *)
Definition fix_root (rootino : Z) : M mkst unit :=
  din <- rinode rootino ;;
  let off := xint (di_size din) in
  let off := u32 ((off / BSIZE + 1) * BSIZE) in
  winode rootino (set_d_size din (xint off)).

Definition mkfs_sb : superblock :=
  mk_sb FSMAGIC (xint FSSIZE) (xint nblocks) (xint NINODES) (xint nlog) (xint 2) (xint (2 + nlog)) (xint (2 + nlog + ninodeblocks)).

Definition main (argv : list (list Z)) : M mkst unit :=
  match argv with
  | [] => panic "Usage: mkfs fs.img files..."
  | image :: files =>
      assert (BSIZE mod sizeof_dinode =? 0) ;;;
      assert (BSIZE mod sizeof_dirent =? 0) ;;;
      (if negb (h_create h image) then die "open"
       else
         modify (fun s => set_freeblock (set_m_sb s mkfs_sb) nmeta) ;;;
         for_all (seqZ 0 FSSIZE) (fun i => wsect i zeroes) ;;;
         wsect 1 (encode_sb zeroes mkfs_sb) ;;;
         rootino <- ialloc T_DIR ;;
         assert (rootino =? ROOTINO) ;;;
         iappend rootino (mk_dirent (xshort rootino) [46]) sizeof_dirent ;;;
         iappend rootino (mk_dirent (xshort rootino) [46; 46]) sizeof_dirent ;;;
         for_all files (add_file rootino) ;;;
         fix_root rootino ;;;
         s <- get ;;
         balloc (freeblock s))
  end.
End mkfs.
