(* ===== verification/MkfsSpec.v ===== *)
(** * The image mkfs makes

    The image is a consistent file system whose root directory lists the files
    given, each with the bytes read from it. While the program runs, the free
    map is still the counter [freeblock]: the image is looked at as if the map
    for the counter were already in place. *)

From stdpp Require Import base gmap list numbers strings sets.
From Stdlib Require Import ZArith Lia.
From S2P Require Import Prelude Mem Spinlock Bytes Sleeplock Disk Bio BlockIO Fs FsSpec FsAlloc FsInode ProcEnv FsOwn FsMap FsFile FsDir Mkfs.
Open Scope Z_scope.
Open Scope kernel_scope.

(** ** Byte order, the superblock and the free map *)

Lemma xint_id x : 0 <= x < 2 ^ 32 -> xint x = x.
Proof.
  intros Hx. transitivity (le_value (le_bytes 4 x)); [|rewrite le_value_bytes; by apply Z.mod_small].
  unfold xint, getn, u8. rewrite !Z.shiftr_div_pow2 by lia. cbn [le_bytes]. rewrite !Z.div_div by lia. done.
Qed.
Lemma xshort_id x : 0 <= x < 2 ^ 16 -> xshort x = x.
Proof.
  intros Hx. transitivity (le_value (le_bytes 2 x)); [|rewrite le_value_bytes; by apply Z.mod_small].
  unfold xshort, getn, u8. by rewrite !Z.shiftr_div_pow2 by lia.
Qed.

Lemma mkfs_sb_eq : mkfs_sb = mk_sb FSMAGIC 2000 1953 200 31 2 33 46.
Proof. by vm_compute. Qed.
Lemma mkfs_end : bmap_end mkfs_sb = 47.
Proof. by vm_compute. Qed.

Lemma zeroes_block : is_block zeroes.
Proof. split; [reflexivity|]. apply Forall_replicate. unfold is_byte. lia. Qed.

Lemma set_bit_block bl b : is_block bl -> is_block (set_bit bl b).
Proof. intros Hb. apply setz_block; [done|apply u8_is_byte]. Qed.

Lemma set_bits l bl b : is_block bl -> Forall (fun i => 0 <= i < BPB) l -> 0 <= b ->
  is_block (foldl set_bit bl l) /\ bit_of (foldl set_bit bl l) b = bool_decide (b ∈ l) || bit_of bl b.
Proof.
  intros Hb Hl H0. revert bl Hb. induction l as [|i l IH]; intros bl Hb; cbn [foldl]; [done|]. apply Forall_cons in Hl as [Hi Hl].
  destruct (IH Hl (set_bit bl i) (set_bit_block bl i Hb)) as [H1 ->]. split; [done|]. rewrite set_bit_spec by done.
  destruct (Z.eqb_spec b i) as [->|Hne].
  - rewrite (bool_decide_true (i ∈ i :: l)) by (by left). cbn. by rewrite orb_true_r.
  - cbn [orb]. f_equal. apply bool_decide_ext. rewrite elem_of_cons. naive_solver.
Qed.

Definition free_map (fb : Z) : block := foldl set_bit zeroes (seqZ 0 fb).

Lemma free_map_spec fb b : 0 <= fb <= FSSIZE -> 0 <= b < FSSIZE -> is_block (free_map fb) /\ bit_of (free_map fb) b = (b <? fb).
Proof.
  intros Hfb Hb. unfold FSSIZE in *. destruct (set_bits (seqZ 0 fb) zeroes b zeroes_block) as [H1 H2]; [|lia|].
  - apply Forall_forall. intros i Hi%elem_of_seqZ. unfold BPB, BSIZE. lia.
  - split; [done|]. unfold free_map. rewrite H2. assert (E : bit_of zeroes b = false).
    { unfold bit_of, nthz. assert (Hz : zeroes !! Z.to_nat (b / 8) = Some 0) by (apply lookup_replicate_2; unfold BSIZE; dlia). rewrite Hz.
      cbn. unfold has. by rewrite Z.land_0_l. }
    rewrite E, orb_false_r. apply eq_true_iff_eq. rewrite bool_decide_eq_true, Z.ltb_lt, elem_of_seqZ. lia.
Qed.

(** ** The image *)

(** Block [b] of the image, and the image with the map for [freeblock]. *)
Definition raw (s : mkst) (b : Z) : block := if 0 <=? b then default zeroes (fsimg s !! Z.to_nat b) else zeroes.
Definition vg (s : mkst) (b : Z) : block := if b =? 46 then free_map (freeblock s) else raw s b.

Record image (s : mkst) (D : Z -> dinode) : Prop := {
  im_sb : m_sb s = mkfs_sb;
  im_len : Z.of_nat (length (fsimg s)) = FSSIZE;
  im_blocks : Forall is_block (fsimg s);
  im_fb : 47 <= freeblock s <= FSSIZE;
  im_zero : forall b, freeblock s <= b < FSSIZE -> raw s b = zeroes;
  im_wf : fs_wf mkfs_sb (vg s) D
}.

Lemma raw_block s D b : image s D -> is_block (raw s b).
Proof.
  intros Hi. unfold raw. destruct (0 <=? b); [|apply zeroes_block]. destruct (fsimg s !! Z.to_nat b) eqn:E; [|apply zeroes_block].
  apply (Forall_lookup_1 _ _ _ _ (im_blocks s D Hi) E).
Qed.

Lemma used_vg s b : 0 <= freeblock s <= FSSIZE -> 0 <= b < FSSIZE -> used (vg s) mkfs_sb b = (b <? freeblock s).
Proof.
  intros Hf Hb. unfold used. assert (E : BBLOCK b mkfs_sb = 46).
  { unfold BBLOCK. rewrite mkfs_sb_eq. unfold BPB, BSIZE, FSSIZE in *. cbn [sb_bmapstart]. by rewrite Z.div_small by lia. }
  rewrite E. unfold vg. cbn [Z.eqb Pos.eqb]. rewrite Z.mod_small by (unfold BPB, BSIZE, FSSIZE in *; lia). by apply free_map_spec.
Qed.

Definition put_block (s : mkst) (b : Z) (bl : block) : mkst := set_fsimg s (<[Z.to_nat b := bl]> (fsimg s)).

Lemma raw_put s b bl k : 0 <= b < Z.of_nat (length (fsimg s)) -> raw (put_block s b bl) k = if k =? b then bl else raw s k.
Proof.
  intros Hb. unfold raw, put_block. cbn [set_fsimg fsimg]. destruct (Z.leb_spec 0 k) as [Hk|Hk]; [|destruct (Z.eqb_spec k b); [lia|done]].
  destruct (Z.eqb_spec k b) as [->|Hne]; [rewrite list_lookup_insert_eq by lia; done|]. by rewrite list_lookup_insert_ne by lia.
Qed.

Lemma vg_high s b : b <> 46 -> vg s b = raw s b.
Proof. intros. unfold vg. by destruct (Z.eqb_spec b 46). Qed.

Lemma image_ext s D D' : (forall i, D' i = D i) -> image s D -> image s D'.
Proof. intros E [I1 I2 I3 I4 I5 I6]. split; try done. apply (wf_inodes mkfs_sb ltac:(by rewrite mkfs_end) _ D); done. Qed.

(** An indirect block has been allocated before. *)
Lemma indirect_below s D i : image s D -> 0 <= i < NINODES -> nthz (di_addrs (D i)) NDIRECT < freeblock s.
Proof.
  intros [I1 I2 I3 I4 I5 I6] Hi. destruct (decide (nthz (di_addrs (D i)) NDIRECT = 0)) as [->|Hne]; [lia|].
  destruct (wf_indirect mkfs_sb _ _ i I6 Hi Hne) as [Hr Hu]. rewrite mkfs_end in Hr. change (sb_size mkfs_sb) with FSSIZE in Hr.
  rewrite used_vg in Hu by lia. by apply Z.ltb_lt.
Qed.

(** A new block goes into an empty slot. *)
Lemma image_attach s s' D i0 k0 d' : image s D -> freeblock s < FSSIZE -> 0 <= i0 < NINODES -> 0 <= k0 < NSLOTS -> slot_addr (vg s) (D i0) k0 = 0 ->
  dinode_ok d' -> di_size d' = di_size (D i0) -> m_sb s' = m_sb s -> length (fsimg s') = length (fsimg s) -> Forall is_block (fsimg s') ->
  freeblock s' = freeblock s + 1 -> (forall b, b <> nthz (di_addrs (D i0)) NDIRECT \/ b = 0 -> raw s' b = raw s b) ->
  (forall i k, 0 <= i < NINODES -> 0 <= k < NSLOTS ->
    slot_addr (vg s') (upd D i0 d' i) k = if (i =? i0) && (k =? k0) then freeblock s else slot_addr (vg s) (D i) k) ->
  image s' (upd D i0 d') /\
  forall i o, 0 <= i < NINODES -> 0 <= o < MAXFILE * BSIZE -> file_byte (vg s') (upd D i0 d' i) o = file_byte (vg s) (D i) o.
Proof.
  intros Hi Hroom Hi0 Hk0 H0 Hd Hsz Esb Elen Hbl Efb Hraw Hslots. pose proof (indirect_below s D i0 Hi Hi0) as Hind. pose proof Hi as [I1 I2 I3 I4 I5 W].
  assert (Hend : 0 < bmap_end mkfs_sb) by (by rewrite mkfs_end). assert (Hn : freeblock s <> nthz (di_addrs (D i0)) NDIRECT \/ freeblock s = 0) by lia.
  assert (Hused : forall b, 0 <= b < sb_size mkfs_sb -> used (vg s') mkfs_sb b = if b =? freeblock s then true else used (vg s) mkfs_sb b).
  { intros b Hb. change (sb_size mkfs_sb) with FSSIZE in Hb. rewrite !used_vg by lia. rewrite Efb.
    destruct (Z.eqb_spec b (freeblock s)), (Z.ltb_spec b (freeblock s + 1)), (Z.ltb_spec b (freeblock s)); done || lia. }
  assert (Hkeep : forall i bn, 0 <= i < sb_ninodes mkfs_sb -> 0 <= bn < MAXFILE -> slot_addr (vg s) (D i) (file_slot bn) <> 0 ->
    vg s' (slot_addr (vg s) (D i) (file_slot bn)) = vg s (slot_addr (vg s) (D i) (file_slot bn))).
  { intros i bn Hi' Hbn Hne. destruct (wf_file_block mkfs_sb _ _ i bn W Hi' Hbn Hne) as [Hr _]. rewrite mkfs_end in Hr. rewrite !vg_high by lia. apply Hraw. left.
    by apply (wf_file_indirect mkfs_sb (vg s) D). }
  assert (Hz : vg s' (freeblock s) = zero_block) by (rewrite vg_high by lia; rewrite Hraw by done; apply I5; lia).
  assert (Hfree : used (vg s) mkfs_sb (freeblock s) = false) by (rewrite used_vg by lia; apply Z.ltb_irrefl).
  split.
  - split; [congruence|congruence|done|lia| |].
    + intros b Hb. rewrite Hraw by lia. apply I5. lia.
    + apply (attach_wf mkfs_sb Hend (vg s) (vg s') D i0 k0 (freeblock s)); try done. change (sb_size mkfs_sb) with FSSIZE. lia.
  - apply (attach_bytes mkfs_sb Hend (vg s) (vg s') D i0 k0 (freeblock s)); try done. change (sb_size mkfs_sb) with FSSIZE. lia.
Qed.

Section ops.
Context (h : host) (Hw : forall o, h_write h o = true).

Lemma sector_offset b : 0 <= b < FSSIZE -> u32 (b * BSIZE) / BSIZE = b.
Proof. intros Hb. unfold u32, FSSIZE, BSIZE in *. rewrite Z.mod_small by lia. apply Z.div_mul. lia. Qed.

Lemma wsect_ok s b bl : Z.of_nat (length (fsimg s)) = FSSIZE -> 0 <= b < FSSIZE -> wsect h b bl s = Ok tt (put_block s b bl).
Proof using Hw.
  intros Hl Hb. unfold wsect. cbn zeta. rewrite Hw. cbn [negb]. unfold modify, put_block. rewrite sector_offset by done.
  rewrite (proj2 (Nat.sub_0_le _ _)) by lia. by rewrite app_nil_r.
Qed.

Lemma rsect_ok s b : Z.of_nat (length (fsimg s)) = FSSIZE -> 0 <= b < FSSIZE -> rsect b s = Ok (raw s b) s.
Proof using.
  intros Hl Hb. unfold rsect, bind, get. cbn zeta. rewrite sector_offset by done. unfold raw. rewrite (proj2 (Z.leb_le 0 b)) by lia.
  by destruct (lookup_lt_is_Some_2 (fsimg s) (Z.to_nat b)) as [bl ->]; [lia|].
Qed.

Lemma IBLOCK_mkfs i : 0 <= i < NINODES -> 33 <= IBLOCK i mkfs_sb < 46.
Proof using.
  intros Hi. unfold IBLOCK, u32. rewrite mkfs_sb_eq. change IPB with 16. cbn [sb_inodestart]. unfold NINODES in *.
  assert (0 <= i / 16 <= 12) by dlia. rewrite Z.mod_small by lia. lia.
Qed.

Lemma rinode_ok s i : m_sb s = mkfs_sb -> Z.of_nat (length (fsimg s)) = FSSIZE -> 0 <= i < NINODES ->
  rinode i s = Ok (inode_at (raw s) mkfs_sb i) s.
Proof using.
  intros Hsb Hl Hi. unfold rinode, bind at 1, get. cbn zeta. rewrite Hsb. pose proof (IBLOCK_mkfs i Hi).
  step_with (rsect_ok s (IBLOCK i mkfs_sb) Hl ltac:(unfold FSSIZE; lia)). done.
Qed.

Lemma winode_ok s i d : m_sb s = mkfs_sb -> Z.of_nat (length (fsimg s)) = FSSIZE -> 0 <= i < NINODES ->
  winode h i d s = Ok tt (put_block s (IBLOCK i mkfs_sb) (write_dinode (raw s (IBLOCK i mkfs_sb)) (i mod IPB) d)).
Proof using Hw.
  intros Hsb Hl Hi. unfold winode, bind at 1, get. cbn zeta. rewrite Hsb. pose proof (IBLOCK_mkfs i Hi).
  step_with (rsect_ok s (IBLOCK i mkfs_sb) Hl ltac:(unfold FSSIZE; lia)). apply wsect_ok; [done|unfold FSSIZE; lia].
Qed.

(** ** Appending to a file *)

Section append.
Context (D : Z -> dinode) (i0 : Z) (Hi0 : 0 <= i0 < NINODES).

(** Blocks have been added to inode [i0], at most [n] of them. *)
Record extends (n : Z) (s : mkst) (din : dinode) (s' : mkst) (din' : dinode) : Prop := {
  ex_image : image s' (upd D i0 din');
  ex_meta : same_meta din din';
  ex_fi : freeinode s' = freeinode s;
  ex_fb : freeblock s <= freeblock s' <= freeblock s + n;
  ex_low : forall b, b < 47 -> raw s' b = raw s b;
  ex_bytes : forall i o, 0 <= i < NINODES -> 0 <= o < MAXFILE * BSIZE -> file_byte (vg s') (upd D i0 din' i) o = file_byte (vg s) (upd D i0 din i) o;
  ex_slots : forall k, 0 <= k < NSLOTS -> slot_addr (vg s) din k <> 0 -> slot_addr (vg s') din' k = slot_addr (vg s) din k
}.

Lemma extends_refl s din : image s (upd D i0 din) -> extends 0 s din s din.
Proof using. clear Hw. intros Hi. split; try done. lia. Qed.

Lemma extends_trans n m s din s1 din1 s2 din2 : extends n s din s1 din1 -> extends m s1 din1 s2 din2 -> extends (n + m) s din s2 din2.
Proof using.
  clear Hw. intros [A1 (A2 & A3 & A4 & A5 & A6) A7 A8 A9 A10 A11] [B1 (B2 & B3 & B4 & B5 & B6) B7 B8 B9 B10 B11]. split; [done|split_and!; congruence|congruence|lia| | |].
  - intros b Hb. by rewrite B9, A9.
  - intros i o Hi Ho. by rewrite B10, A10.
  - intros k Hk Hne. rewrite B11; [by apply A11|done|]. by rewrite A11.
Qed.

Lemma extends_le n m s din s' din' : n <= m -> extends n s din s' din' -> extends m s din s' din'.
Proof using. clear Hw. intros Hnm [A1 A2 A3 A4 A5 A6 A7]. split; try done. lia. Qed.

Lemma upd_upd (d d' : dinode) i : upd (upd D i0 d) i0 d' i = upd D i0 d' i.
Proof using. clear. unfold upd. by destruct (i =? i0). Qed.

Definition counted (s : mkst) : mkst := set_freeblock s (freeblock s + 1).
Lemma newblock_ok s : freeblock s < FSSIZE -> 0 <= freeblock s -> newblock s = Ok (freeblock s) (counted s).
Proof using. clear. intros H H0. unfold newblock, counted, bind, get, modify, ret, u32. rewrite Z.mod_small; [done|]. unfold FSSIZE in *. lia. Qed.

(** A new block in a slot of the inode itself. *)
Lemma alloc_addr s din k : image s (upd D i0 din) -> freeblock s < FSSIZE -> 0 <= k <= NDIRECT -> nthz (di_addrs din) k = 0 ->
  extends 1 s din (counted s) (set_d_addr din k (freeblock s)) /\ slot_addr (vg (counted s)) (set_d_addr din k (freeblock s)) k = freeblock s.
Proof using Hi0.
  clear Hw. intros Hi Hroom Hk H0. pose proof Hi as [I1 I2 I3 I4 I5 W]. pose proof (wf_dinode _ _ _ W i0 Hi0) as Hd. rewrite upd_same in Hd.
  assert (Hk' : 0 <= k < NSLOTS) by (unfold NSLOTS, NDIRECT, NINDIRECT, BSIZE in *; change (1024 / 4) with 256; lia).
  assert (Hfb : 0 <= freeblock s < 2 ^ 32) by (unfold FSSIZE in *; lia).
  assert (Hsame : forall i j, 0 <= i < NINODES -> slot_addr (vg (counted s)) (upd D i0 din i) j = slot_addr (vg s) (upd D i0 din i) j).
  { intros i j Hi'. apply slot_addr_ext. intros Hne. destruct (wf_indirect mkfs_sb _ _ i W Hi' Hne) as [Hr _]. rewrite mkfs_end in Hr. by rewrite !vg_high by lia. }
  assert (Hset : forall j, 0 <= j < NSLOTS -> slot_addr (vg (counted s)) (set_d_addr din k (freeblock s)) j = if j =? k then freeblock s else slot_addr (vg s) din j).
  { intros j Hj. pose proof (Hsame i0 j Hi0) as E. rewrite upd_same in E. destruct (decide (k = NDIRECT)) as [->|].
    - rewrite slot_addr_set_indirect, E; [done|done|apply (dk_len _ Hd)|done|]. rewrite vg_high by lia. apply I5. lia.
    - rewrite slot_addr_set_direct, E; [done|lia|lia|apply (dk_len _ Hd)]. }
  destruct (image_attach s (counted s) (upd D i0 din) i0 k (set_d_addr din k (freeblock s)) Hi Hroom Hi0 Hk') as [Him Hby]; try done.
  - rewrite upd_same, slot_addr_low by lia. done.
  - by apply set_d_addr_ok.
  - by rewrite upd_same.
  - intros i j Hi' Hj. rewrite upd_upd. unfold upd at 1. destruct (Z.eqb_spec i i0) as [->|Hne]; cbn [andb]; [rewrite upd_same; by apply Hset|].
    rewrite <- (Hsame i j Hi'). unfold upd. by destruct (Z.eqb_spec i i0).
  - split; [|rewrite Hset, Z.eqb_refl; done]. split; try done.
    + apply (image_ext _ _ _ (fun i => eq_sym (upd_upd din _ i)) Him).
    + cbn. lia.
    + intros i o Hi' Ho. rewrite <- (upd_upd din). by apply Hby.
    + intros j Hj Hne. rewrite Hset by done. destruct (Z.eqb_spec j k) as [->|]; [|done]. rewrite slot_addr_low in Hne by lia. done.
Qed.

Lemma entry_of g d j : 0 <= j -> nthz (di_addrs d) NDIRECT <> 0 -> slot_addr g d (NDIRECT + 1 + j) = get_addr (g (nthz (di_addrs d) NDIRECT)) j.
Proof using.
  clear. intros Hj Hne. unfold slot_addr. destruct (Z.leb_spec (NDIRECT + 1 + j) NDIRECT); [unfold NDIRECT in *; lia|]. cbn zeta.
  destruct (Z.eqb_spec (nthz (di_addrs d) NDIRECT) 0); [done|]. f_equal. lia.
Qed.

(** A new block in an entry of the indirect block. *)
Lemma alloc_entry s din j : image s (upd D i0 din) -> freeblock s < FSSIZE -> nthz (di_addrs din) NDIRECT <> 0 -> 0 <= j < NINDIRECT ->
  let ind := nthz (di_addrs din) NDIRECT in
  get_addr (raw s ind) j = 0 ->
  let s' := put_block (counted s) ind (put_addr (raw s ind) j (freeblock s)) in
  extends 1 s din s' din /\ slot_addr (vg s') din (NDIRECT + 1 + j) = freeblock s.
Proof using Hi0.
  clear Hw. cbn zeta. intros Hi Hroom Hne Hj H0. set (ind := nthz (di_addrs din) NDIRECT) in *. set (s' := put_block _ _ _). pose proof Hi as [I1 I2 I3 I4 I5 W].
  pose proof (wf_dinode _ _ _ W i0 Hi0) as Hd. pose proof (wf_indirect mkfs_sb _ _ i0 W Hi0) as Hr. rewrite upd_same in Hd, Hr. destruct (Hr Hne) as [Hir _]. clear Hr.
  fold ind in Hir. rewrite mkfs_end in Hir. change (sb_size mkfs_sb) with FSSIZE in Hir. assert (Hfb : 0 <= freeblock s < 2 ^ 32) by (unfold FSSIZE in *; lia).
  assert (Hraw : forall b, raw s' b = if b =? ind then put_addr (raw s ind) j (freeblock s) else raw s b) by (intros b; unfold s'; rewrite raw_put; [done|cbn; lia]).
  assert (Hk : 0 <= NDIRECT + 1 + j < NSLOTS) by (unfold NSLOTS, NDIRECT in *; lia).
  assert (Hset : forall k, 0 <= k < NSLOTS -> slot_addr (vg s') din k = if k =? NDIRECT + 1 + j then freeblock s else slot_addr (vg s) din k).
  { intros k Hk'. apply slot_addr_set_entry; try done; fold ind; rewrite !vg_high by lia; [by eapply raw_block|]. by rewrite Hraw, Z.eqb_refl. }
  assert (Hoth : forall i k, 0 <= i < NINODES -> i <> i0 -> slot_addr (vg s') (upd D i0 din i) k = slot_addr (vg s) (upd D i0 din i) k).
  { intros i k Hi' Hni. apply slot_addr_ext. intros Hne'. destruct (wf_indirect mkfs_sb _ _ i W Hi' Hne') as [Hr _]. rewrite mkfs_end in Hr. rewrite !vg_high by lia. rewrite Hraw.
    destruct (Z.eqb_spec (nthz (di_addrs (upd D i0 din i)) NDIRECT) ind) as [E|]; [|done]. exfalso. apply Hni.
    assert (Hin : forall x, 0 <= x < NINODES -> in_slots (sb_ninodes mkfs_sb) x NDIRECT) by (intros x Hx; split; [done|by vm_compute]).
    destruct (ow_inj _ _ _ _ _ (wf_owners _ _ _ W) i NDIRECT i0 NDIRECT (Hin i Hi') (Hin i0 Hi0)) as [? _]; [by rewrite slot_addr_low by lia| |done].
    rewrite !slot_addr_low by lia. rewrite upd_same. done. }
  destruct (image_attach s s' (upd D i0 din) i0 (NDIRECT + 1 + j) din Hi Hroom Hi0 Hk) as [Him Hby]; try done; rewrite ?upd_same; try done.
  - rewrite entry_of by (lia || done). by rewrite vg_high by (fold ind; lia).
  - cbn. by rewrite length_insert.
  - cbn. apply Forall_insert; [done|]. apply put_addr_block; [by eapply raw_block|done].
  - intros b Hb. rewrite Hraw. destruct (Z.eqb_spec b ind); [|done]. fold ind in Hb. lia.
  - intros i k Hi' Hk'. rewrite upd_upd. destruct (Z.eqb_spec i i0) as [->|Hni]; cbn [andb]; [rewrite !upd_same; by apply Hset|by apply Hoth].
  - split; [|rewrite Hset, Z.eqb_refl; done]. split; try done.
    + apply (image_ext _ _ _ (fun i => eq_sym (upd_upd din _ i)) Him).
    + cbn. lia.
    + intros b Hb. rewrite Hraw. destruct (Z.eqb_spec b ind); [lia|done].
    + intros i o Hi' Ho. rewrite <- (Hby i o Hi' Ho). by rewrite upd_upd.
    + intros k Hk' Hnz. rewrite Hset by done. destruct (Z.eqb_spec k (NDIRECT + 1 + j)) as [->|]; [|done]. exfalso. apply Hnz. rewrite entry_of by (lia || done). by rewrite vg_high by (fold ind; lia).
Qed.

(** The block of the file that takes the next bytes. *)
Definition missing (s : mkst) (din : dinode) (fbn : Z) : Z :=
  (if slot_addr (vg s) din (file_slot fbn) =? 0 then 1 else 0) + (if (NDIRECT <=? fbn) && (nthz (di_addrs din) NDIRECT =? 0) then 1 else 0).

Lemma addr_range s din k : image s (upd D i0 din) -> 0 <= nthz (di_addrs din) k < 2 ^ 32.
Proof using Hi0.
  clear Hw. intros Hi. pose proof (dk_addrs _ (wf_dinode _ _ _ (im_wf _ _ Hi) i0 Hi0)) as Hd. rewrite upd_same in Hd. unfold nthz.
  destruct (di_addrs din !! Z.to_nat k) eqn:E; [|cbn; lia]. by apply (Forall_lookup_1 _ _ _ _ Hd E).
Qed.

Lemma ensure_addr s din k : image s (upd D i0 din) -> 0 <= k <= NDIRECT -> freeblock s + (if nthz (di_addrs din) k =? 0 then 1 else 0) <= FSSIZE ->
  exists din' s', (if xint (nthz (di_addrs din) k) =? 0 then b <- newblock ;; ret (set_d_addr din k (xint b)) else ret din) s = Ok din' s' /\
    extends (if nthz (di_addrs din) k =? 0 then 1 else 0) s din s' din' /\ nthz (di_addrs din') k <> 0.
Proof using Hi0.
  clear Hw. intros Hi Hk. pose proof (im_fb _ _ Hi) as Hfb. assert (HF : FSSIZE < 2 ^ 32) by done. rewrite xint_id by (by eapply addr_range).
  destruct (Z.eqb_spec (nthz (di_addrs din) k) 0) as [E0|Hne]; intros Hroom; [|exists din, s; split_and!; [done|by apply extends_refl|done]].
  destruct (alloc_addr s din k Hi ltac:(lia) Hk E0) as [He Hs]. exists (set_d_addr din k (freeblock s)), (counted s).
  unfold bind. rewrite newblock_ok by lia. unfold ret. rewrite xint_id by lia. split_and!; [done|done|]. rewrite slot_addr_low in Hs by lia. lia.
Qed.

Lemma iappend_block_ok s din fbn : image s (upd D i0 din) -> 0 <= fbn < MAXFILE -> freeblock s + missing s din fbn <= FSSIZE ->
  exists din' s', iappend_block h din fbn s = Ok (din', slot_addr (vg s') din' (file_slot fbn)) s' /\
    extends (missing s din fbn) s din s' din' /\ slot_addr (vg s') din' (file_slot fbn) <> 0.
Proof using Hi0 Hw.
  intros Hi Hfbn. pose proof (im_fb _ _ Hi) as Hfb. assert (HF : FSSIZE < 2 ^ 32) by done. unfold missing, file_slot, iappend_block.
  destruct (Z.ltb_spec fbn NDIRECT) as [Hd|Hind].
  - rewrite slot_addr_low by lia. rewrite (proj2 (Z.leb_gt NDIRECT fbn)) by lia. cbn [andb]. rewrite Z.add_0_r. intros Hroom.
    destruct (ensure_addr s din fbn Hi ltac:(lia) Hroom) as (din' & s' & E & He & Hne). exists din', s'. step_with E. rewrite slot_addr_low by lia.
    split_and!; [|done|done]. unfold ret. rewrite xint_id; [done|]. exact (addr_range s' din' fbn (ex_image _ _ _ _ _ He)).
  - rewrite (proj2 (Z.leb_le NDIRECT fbn)) by lia. cbn [andb]. intros Hroom.
    destruct (ensure_addr s din NDIRECT Hi) as (din1 & s1 & E & He & Hne); [unfold NDIRECT; lia|destruct (slot_addr _ _ _ =? 0); lia|]. step_with E.
    pose proof (ex_image _ _ _ _ _ He) as Hi1. pose proof (addr_range s1 din1 NDIRECT Hi1) as Hr. pose proof Hi1 as [I1 I2 I3 I4 I5 W].
    pose proof (wf_indirect mkfs_sb _ _ i0 W Hi0) as Hir. rewrite upd_same in Hir. destruct (Hir Hne) as [Hir' _]. clear Hir. rewrite mkfs_end in Hir'. change (sb_size mkfs_sb) with FSSIZE in Hir'.
    rewrite xint_id by done. set (ind := nthz (di_addrs din1) NDIRECT) in *. step_with (rsect_ok s1 ind I2 ltac:(lia)). set (j := fbn - NDIRECT).
    assert (Hj : 0 <= j < NINDIRECT) by (unfold MAXFILE in *; lia). replace (fbn + 1) with (NDIRECT + 1 + j) in * by lia.
    assert (Es : slot_addr (vg s1) din1 (NDIRECT + 1 + j) = get_addr (raw s1 ind) j) by (rewrite entry_of by (lia || done); by rewrite vg_high by (fold ind; lia)).
    assert (Hk : 0 <= NDIRECT + 1 + j < NSLOTS) by (unfold NSLOTS, NDIRECT in *; lia). pose proof (ex_slots _ _ _ _ _ He _ Hk) as Hsl. pose proof (ex_fb _ _ _ _ _ He) as Hfb1.
    destruct (Z.eqb_spec (get_addr (raw s1 ind) j) 0) as [E0|Hnz].
    + destruct (Z.eqb_spec (slot_addr (vg s) din (NDIRECT + 1 + j)) 0) as [_|Hb]; [|specialize (Hsl Hb); congruence].
      destruct (alloc_entry s1 din1 j Hi1 ltac:(lia) Hne Hj E0) as [He2 Hs2]. fold ind in He2, Hs2. set (s2 := put_block _ _ _) in *. exists din1, s2.
      unfold bind. rewrite newblock_ok by lia. cbn zeta. rewrite (xint_id (freeblock s1)) by lia. rewrite wsect_ok by (done || lia). fold s2. unfold ret.
      assert (Eg : get_addr (put_addr (raw s1 ind) j (freeblock s1)) j = freeblock s1) by (rewrite get_put_addr, Z.eqb_refl; [done|by eapply raw_block|done|done|lia]).
      rewrite Eg, Hs2, xint_id by lia. split_and!; [done| |lia]. rewrite Z.add_comm. by eapply extends_trans.
    + exists din1, s1. unfold bind, ret. rewrite Es, xint_id by (apply get_addr_range; by eapply raw_block). split_and!; [done| |done].
      eapply extends_le; [|exact He]. destruct (_ =? 0), (_ =? 0); lia.
Qed.

(** The blocks a file of [n] bytes needs. *)
Definition need (n : Z) : Z := (n + BSIZE - 1) / BSIZE + (if NDIRECT * BSIZE <? n then 1 else 0).
Definition dense (s : mkst) (din : dinode) (off : Z) : Prop := forall o, 0 <= o < off -> slot_addr (vg s) din (file_slot (o / BSIZE)) <> 0.

Lemma need_mono n m : 0 <= n <= m -> need n <= need m.
Proof using. clear. intros H. unfold need, NDIRECT, BSIZE. destruct (Z.ltb_spec (12 * 1024) n), (Z.ltb_spec (12 * 1024) m); dlia. Qed.

Lemma missing_need s din off n : dense s din off -> 0 <= off -> 0 < n -> off + n <= (off / BSIZE + 1) * BSIZE ->
  missing s din (off / BSIZE) <= need (off + n) - need off.
Proof using.
  clear. intros Hd H0 Hn Hend. assert (Hi : forall bn, NDIRECT <= bn -> slot_addr (vg s) din (file_slot bn) <> 0 -> nthz (di_addrs din) NDIRECT <> 0).
  { intros bn Hbn Hs E. apply Hs. unfold file_slot. rewrite (proj2 (Z.ltb_ge bn NDIRECT)) by lia. unfold slot_addr.
    rewrite (proj2 (Z.leb_gt (bn + 1) NDIRECT)) by lia. cbn zeta. by rewrite E. }
  unfold missing. destruct (decide (off mod BSIZE = 0)) as [Ha|Ha].
  - assert (E : need (off + n) - need off = 1 + (if off =? NDIRECT * BSIZE then 1 else 0)).
    { unfold need, NDIRECT, BSIZE in *. destruct (Z.ltb_spec (12 * 1024) (off + n)), (Z.ltb_spec (12 * 1024) off), (Z.eqb_spec off (12 * 1024)); dlia. }
    rewrite E. assert (E2 : (if (NDIRECT <=? off / BSIZE) && (nthz (di_addrs din) NDIRECT =? 0) then 1 else 0) <= if off =? NDIRECT * BSIZE then 1 else 0).
    { destruct (Z.eqb_spec off (NDIRECT * BSIZE)); [by destruct (_ && _)|]. destruct (Z.leb_spec NDIRECT (off / BSIZE)) as [Hge|]; [|done]. cbn [andb].
      destruct (Z.eqb_spec (nthz (di_addrs din) NDIRECT) 0) as [Ez|]; [|done]. exfalso. unfold NDIRECT, BSIZE in *. apply (Hi ((off - 1) / 1024)); [dlia|apply Hd; dlia|done]. }
    destruct (slot_addr _ _ _ =? 0); lia.
  - assert (Hs : slot_addr (vg s) din (file_slot (off / BSIZE)) <> 0).
    { replace (off / BSIZE) with ((off - 1) / BSIZE) by (unfold BSIZE in *; dlia). apply Hd. unfold BSIZE in *. dlia. }
    rewrite (proj2 (Z.eqb_neq _ _) Hs). assert (E2 : ((NDIRECT <=? off / BSIZE) && (nthz (di_addrs din) NDIRECT =? 0)) = false).
    { destruct (Z.leb_spec NDIRECT (off / BSIZE)) as [Hge|]; [|done]. cbn [andb]. apply Z.eqb_neq. by apply (Hi (off / BSIZE)). }
    rewrite E2. pose proof (need_mono off (off + n)). lia.
Qed.

(** New contents for a block of the file. *)
Lemma store_ok s din fbn bl : image s (upd D i0 din) -> 0 <= fbn < MAXFILE -> slot_addr (vg s) din (file_slot fbn) <> 0 -> is_block bl ->
  let x := slot_addr (vg s) din (file_slot fbn) in
  let s' := put_block s x bl in
  47 <= x < FSSIZE /\ image s' (upd D i0 din) /\ (forall b, b < 47 -> raw s' b = raw s b) /\ (forall k, slot_addr (vg s') din k = slot_addr (vg s) din k) /\
  (forall i o, 0 <= i < NINODES -> 0 <= o < MAXFILE * BSIZE -> file_byte (vg s') (upd D i0 din i) o =
    if (i =? i0) && (o / BSIZE =? fbn) then nthz bl (o mod BSIZE) else file_byte (vg s) (upd D i0 din i) o).
Proof using Hi0.
  clear Hw. cbn zeta. intros Hi Hfbn Hne Hbl. set (x := slot_addr (vg s) din (file_slot fbn)) in *. set (s' := put_block s x bl). pose proof Hi as [I1 I2 I3 I4 I5 W].
  assert (Hend : 0 < bmap_end mkfs_sb) by (by rewrite mkfs_end). pose proof (wf_file_block mkfs_sb _ _ i0 fbn W Hi0 Hfbn) as Hr. rewrite upd_same in Hr. fold x in Hr.
  destruct (Hr Hne) as [Hx Hux]. clear Hr. rewrite mkfs_end in Hx. change (sb_size mkfs_sb) with FSSIZE in Hx. rewrite used_vg in Hux by lia. apply Z.ltb_lt in Hux.
  assert (Hraw : forall b, raw s' b = if b =? x then bl else raw s b) by (intros b; apply raw_put; lia).
  assert (Hg : forall k, vg s' k = if decide (k = slot_addr (vg s) (upd D i0 din i0) (file_slot fbn)) then bl else vg s k).
  { intros k. rewrite upd_same. fold x. unfold vg. cbn [s' put_block set_fsimg freeblock]. rewrite Hraw. destruct (decide (k = x)) as [->|].
    - destruct (Z.eqb_spec x 46); [lia|]. by rewrite Z.eqb_refl.
    - destruct (Z.eqb_spec k x); done. }
  assert (Hne' : slot_addr (vg s) (upd D i0 din i0) (file_slot fbn) <> 0) by (by rewrite upd_same).
  assert (Hlow : forall b, 0 <= b < sb_size mkfs_sb -> BBLOCK b mkfs_sb < bmap_end mkfs_sb).
  { intros b Hb. change (sb_size mkfs_sb) with 2000 in Hb. rewrite mkfs_end. unfold BBLOCK. rewrite mkfs_sb_eq. unfold BPB, BSIZE. cbn [sb_bmapstart]. by rewrite Z.div_small by lia. }
  split_and!; [lia|lia| | | |].
  - split; [done|cbn; by rewrite length_insert|cbn; by apply Forall_insert|done| |].
    + intros b Hb. rewrite Hraw. destruct (Z.eqb_spec b x); [cbn in Hb; lia|]. by apply I5.
    + by apply (data_wf mkfs_sb Hend (vg s) (vg s') (upd D i0 din) i0 fbn bl W Hi0 Hfbn Hne' Hg Hlow).
  - intros b Hb. rewrite Hraw. destruct (Z.eqb_spec b x); [lia|done].
  - intros k. pose proof (data_slots mkfs_sb (vg s) (vg s') (upd D i0 din) i0 fbn bl W Hi0 Hfbn Hne' Hg i0 k Hi0) as E. by rewrite upd_same in E.
  - by apply (data_byte mkfs_sb (vg s) (vg s') (upd D i0 din) i0 fbn bl W Hi0 Hfbn Hne' Hg).
Qed.

(** The bytes [p] have been appended at [off]. *)
Record appended (off : Z) (p : list Z) (s : mkst) (din : dinode) (s' : mkst) (din' : dinode) : Prop := {
  ap_image : image s' (upd D i0 din');
  ap_meta : same_meta din din';
  ap_fi : freeinode s' = freeinode s;
  ap_fb : freeblock s <= freeblock s' <= freeblock s + (need (off + Z.of_nat (length p)) - need off);
  ap_low : forall b, b < 47 -> raw s' b = raw s b;
  ap_dense : dense s' din' (off + Z.of_nat (length p));
  ap_bytes : forall i o, 0 <= i < NINODES -> 0 <= o < MAXFILE * BSIZE -> file_byte (vg s') (upd D i0 din' i) o =
    if (i =? i0) && (off <=? o) && (o <? off + Z.of_nat (length p)) then nthz p (o - off) else file_byte (vg s) (upd D i0 din i) o
}.

Lemma appended_nil off s din : 0 <= off -> image s (upd D i0 din) -> dense s din off -> appended off [] s din s din.
Proof using.
  clear. intros H0 Hi Hd. split; try done; cbn [length Z.of_nat]; rewrite ?Z.add_0_r; [lia|done|]. intros i o _ _.
  destruct (Z.leb_spec off o), (Z.ltb_spec o off); rewrite ?andb_false_r; try done; try lia.
Qed.

Lemma appended_app off p q s din s1 din1 s2 din2 : 0 <= off -> appended off p s din s1 din1 -> appended (off + Z.of_nat (length p)) q s1 din1 s2 din2 ->
  appended off (p ++ q) s din s2 din2.
Proof using.
  clear. intros H0 [A1 (A2 & A3 & A4 & A5 & A6) A7 A8 A9 A10 A11] [B1 (B2 & B3 & B4 & B5 & B6) B7 B8 B9 B10 B11].
  assert (El : Z.of_nat (length (p ++ q)) = Z.of_nat (length p) + Z.of_nat (length q)) by (rewrite length_app; lia).
  split; [done|split_and!; congruence|congruence|rewrite El, Z.add_assoc; lia| |by rewrite El, Z.add_assoc|].
  - intros b Hb. by rewrite B9, A9.
  - intros i o Hi Ho. rewrite B11, A11, El by done. unfold nthz.
    destruct (i =? i0); cbn [andb]; [|done]. destruct (Z.leb_spec off o); cbn [andb]; [|by destruct (Z.leb_spec (off + Z.of_nat (length p)) o); [lia|]].
    destruct (Z.leb_spec (off + Z.of_nat (length p)) o), (Z.ltb_spec o (off + Z.of_nat (length p) + Z.of_nat (length q))),
      (Z.ltb_spec o (off + Z.of_nat (length p))), (Z.ltb_spec o (off + (Z.of_nat (length p) + Z.of_nat (length q)))); cbn [andb]; try done; try lia.
    + rewrite lookup_app_r by lia. do 2 f_equal. lia.
    + by rewrite lookup_app_l by lia.
Qed.

(** One round: the part [q] that fits into the block of [off]. *)
Lemma round_ok s din off q : image s (upd D i0 din) -> dense s din off -> 0 <= off -> 0 < Z.of_nat (length q) ->
  off + Z.of_nat (length q) <= (off / BSIZE + 1) * BSIZE -> off / BSIZE < MAXFILE -> Forall is_byte q ->
  freeblock s + (need (off + Z.of_nat (length q)) - need off) <= FSSIZE ->
  exists din' s' x bl s'', iappend_block h din (off / BSIZE) s = Ok (din', x) s' /\ rsect x s' = Ok bl s' /\
    wsect h x (splice bl (Z.to_nat (off - off / BSIZE * BSIZE)) q) s' = Ok tt s'' /\ appended off q s din s'' din'.
Proof using Hi0 Hw.
  intros Hi Hd H0 Hq Hend Hmax Hby Hroom. set (fbn := off / BSIZE) in *. pose proof (missing_need s din off _ Hd H0 Hq Hend) as Hm. fold fbn in Hm.
  assert (Hfbn : 0 <= fbn < MAXFILE) by (unfold fbn, BSIZE in *; dlia).
  destruct (iappend_block_ok s din fbn Hi Hfbn ltac:(lia)) as (din' & s1 & E1 & He & Hne). pose proof He as [X1 X2 X3 X4 X5 X6 X7].
  set (x := slot_addr (vg s1) din' (file_slot fbn)) in *. set (k := Z.to_nat (off - fbn * BSIZE)).
  assert (Hk : Z.of_nat k = off - fbn * BSIZE) by (unfold k, fbn, BSIZE in *; dlia).
  pose proof (raw_block s1 _ x X1) as [Hl Hb]. assert (Hfit : (k + length q <= length (raw s1 x))%nat) by (rewrite Hl; unfold BSIZE in *; lia).
  assert (Hsp : is_block (splice (raw s1 x) k q)) by (split; [by rewrite length_splice|by apply splice_bytes]).
  destruct (store_ok s1 din' fbn (splice (raw s1 x) k q) X1 Hfbn Hne Hsp) as (Hx & S1 & S2 & S3 & S4). fold x in Hx, S1, S2, S3, S4.
  exists din', s1, x, (raw s1 x), (put_block s1 x (splice (raw s1 x) k q)). set (s2 := put_block _ _ _) in *. pose proof (im_len _ _ X1) as HL.
  split_and!; [done|by apply rsect_ok; [|lia]|by apply wsect_ok; [|lia]|]. split; [done|done|done|cbn; lia| | |].
  - intros b Hb'. by rewrite S2, X5.
  - intros o Ho. rewrite S3. destruct (decide (o < off)) as [Hlt|Hge].
    + assert (Hs : 0 <= file_slot (o / BSIZE) < NSLOTS) by (apply file_slot_range; unfold fbn, BSIZE in *; dlia). rewrite X7; [apply Hd; lia|done|apply Hd; lia].
    + replace (o / BSIZE) with fbn; [done|]. unfold fbn, BSIZE in *. dlia.
  - intros i o Hi' Ho. rewrite S4 by done. destruct (Z.eqb_spec i i0) as [->|]; cbn [andb]; [|by apply X6]. pose proof (Z.div_mod o BSIZE ltac:(done)) as Edm.
    destruct (Z.eqb_spec (o / BSIZE) fbn) as [Eo|Hne'].
    + assert (Ef : file_byte (vg s1) (upd D i0 din' i0) o = nthz (raw s1 x) (o mod BSIZE)).
      { unfold file_byte. rewrite upd_same, Eo. fold x. cbn zeta. destruct (Z.eqb_spec x 0); [done|]. by rewrite vg_high by lia. }
      rewrite X6 in Ef by done. rewrite Ef, nthz_splice by (done || (unfold BSIZE; dlia)). pose proof (Z.mod_pos_bound o BSIZE ltac:(done)) as Hmod.
      replace (o mod BSIZE - Z.of_nat k) with (o - off) by lia.
      destruct (Z.leb_spec (Z.of_nat k) (o mod BSIZE)), (Z.ltb_spec (o mod BSIZE) (Z.of_nat (k + length q))), (Z.leb_spec off o), (Z.ltb_spec o (off + Z.of_nat (length q)));
        cbn [andb]; try done; exfalso; lia.
    + rewrite X6 by done. destruct (Z.leb_spec off o), (Z.ltb_spec o (off + Z.of_nat (length q))); cbn [andb]; try done. exfalso. apply Hne'. unfold fbn, BSIZE in *. dlia.
Qed.

Lemma iappend_loop_ok fuel s din off p : image s (upd D i0 din) -> dense s din off -> 0 <= off -> off + Z.of_nat (length p) <= MAXFILE * BSIZE -> Forall is_byte p ->
  (length p < fuel)%nat -> freeblock s + (need (off + Z.of_nat (length p)) - need off) <= FSSIZE ->
  exists din' s', iappend_loop h fuel din off p (Z.of_nat (length p)) s = Ok (din', off + Z.of_nat (length p)) s' /\ appended off p s din s' din'.
Proof using Hi0 Hw.
  revert s din off p. induction fuel as [|fuel IH]; intros s din off p Hi Hd H0 Hmax Hby Hfuel Hroom; [lia|]. cbn [iappend_loop].
  destruct (Z.leb_spec (Z.of_nat (length p)) 0) as [Hz|Hp].
  { destruct p; [|cbn in Hz; lia]. exists din, s. rewrite Z.add_0_r. split; [done|]. by apply appended_nil. }
  assert (HM : MAXFILE * BSIZE < 2 ^ 32) by (by vm_compute). set (fbn := off / BSIZE). set (n1 := Z.min (Z.of_nat (length p)) ((fbn + 1) * BSIZE - off)).
  assert (Hf : fbn * BSIZE <= off < (fbn + 1) * BSIZE) by (unfold fbn, BSIZE in *; dlia). assert (Hfbn : fbn < MAXFILE) by (unfold BSIZE in *; lia).
  assert (Eu : u32 ((fbn + 1) * BSIZE - off) = (fbn + 1) * BSIZE - off) by (unfold u32; apply Z.mod_small; unfold BSIZE in *; lia). rewrite Eu. fold n1.
  set (q := take (Z.to_nat n1) p). assert (Hq : Z.of_nat (length q) = n1) by (unfold q; rewrite length_take; lia).
  assert (Hpq : p = q ++ drop (Z.to_nat n1) p) by (symmetry; apply take_drop). set (r := drop (Z.to_nat n1) p) in *.
  assert (Hlr : Z.of_nat (length r) = Z.of_nat (length p) - n1) by (unfold r; rewrite length_drop; lia).
  rewrite Hpq in Hby. apply Forall_app in Hby as [Hbq Hbr]. pose proof (need_mono (off + n1) (off + Z.of_nat (length p)) ltac:(lia)) as Hnm.
  destruct (round_ok s din off q Hi Hd H0) as (din1 & s1 & x & bl & s2 & E1 & E2 & E3 & Ha); rewrite ?Hq; try (done || lia).
  unfold assert. rewrite (proj2 (Z.ltb_lt fbn MAXFILE)) by done. unfold bind at 1, ret at 1. fold fbn in E1, E3. step_with E1. cbn zeta. step_with E2. step_with E3.
  assert (Eo : u32 (off + n1) = off + n1) by (unfold u32; apply Z.mod_small; lia). rewrite Eo, <- Hlr.
  pose proof Ha as [A1 A2 A3 A4 A5 A6 A7]. rewrite Hq in A4, A6.
  destruct (IH s2 din1 (off + n1) r A1 A6) as (din2 & s3 & E4 & Hb); [lia|lia|done|lia|rewrite Hlr; replace (off + n1 + _) with (off + Z.of_nat (length p)) by lia; lia|].
  exists din2, s3. rewrite E4. split; [do 2 f_equal; lia|]. rewrite Hpq. rewrite <- Hq in Hb. by eapply appended_app.
Qed.
End append.

(** ** The image between two steps of main *)

Definition ino (s : mkst) (i : Z) : dinode := inode_at (raw s) mkfs_sb i.
Definition content (s : mkst) (i : Z) : list Z := contents (vg s) (ino s i).

Record built (s : mkst) : Prop := {
  bt_image : image s (ino s);
  bt_fi : 1 <= freeinode s <= NINODES;
  bt_unused : forall i, freeinode s <= i < NINODES -> ino s i = dinode0;
  bt_super : raw s 1 = encode_sb zeroes mkfs_sb;
  bt_log : forall b, b = 0 \/ 2 <= b < 33 -> raw s b = zeroes;
  bt_tail : forall i o, 0 <= i < NINODES -> di_size (ino s i) <= o < MAXFILE * BSIZE -> file_byte (vg s) (ino s i) o = 0
}.

Lemma image_cong s D D' : (forall i, 0 <= i < NINODES -> D' i = D i) -> image s D -> image s D'.
Proof using.
  clear. intros E [I1 I2 I3 I4 I5 W]. split; try done. assert (Hend : 0 < bmap_end mkfs_sb) by (by rewrite mkfs_end).
  apply (wf_cong mkfs_sb Hend (vg s) D); try done; intros i *; change (sb_ninodes mkfs_sb) with NINODES.
  - intros Hi Hk. by rewrite E.
  - intros Hi. rewrite E by done. split; [by apply (wf_dinode _ _ _ W)|by apply (wf_size _ _ _ W)].
  - intros Hi. rewrite E by done. by apply (wf_dense _ _ _ W).
Qed.

(** The blocks of inodes are not blocks of files. *)
Definition put_inode (s : mkst) (i : Z) (d : dinode) : mkst := put_block s (IBLOCK i mkfs_sb) (write_dinode (raw s (IBLOCK i mkfs_sb)) (i mod IPB) d).

Lemma put_inode_raw s D i d b : image s D -> 0 <= i < NINODES -> b < 33 \/ 46 <= b -> raw (put_inode s i d) b = raw s b.
Proof using.
  clear. intros Hi Hr Hb. pose proof (IBLOCK_mkfs i Hr). pose proof (im_len _ _ Hi). unfold put_inode. rewrite raw_put by (unfold FSSIZE in *; lia).
  destruct (Z.eqb_spec b (IBLOCK i mkfs_sb)); [lia|done].
Qed.

Lemma put_inode_ino s D i d j : image s D -> 0 <= i < NINODES -> dinode_ok d -> 0 <= j < NINODES -> ino (put_inode s i d) j = if j =? i then d else ino s j.
Proof using.
  clear. intros Hi Hr Hd Hj. pose proof (IBLOCK_mkfs i Hr). pose proof (im_len _ _ Hi). unfold ino, inode_at, put_inode.
  rewrite raw_put by (unfold FSSIZE in *; lia). assert (Hm : forall x, 0 <= x -> 0 <= x mod IPB < IPB) by (intros; by apply Z.mod_pos_bound).
  pose proof (raw_block s D (IBLOCK i mkfs_sb) Hi) as Hbl. destruct (Z.eqb_spec j i) as [->|Hne].
  - rewrite Z.eqb_refl. apply read_write_dinode; [done|apply Hm; lia|done].
  - destruct (Z.eqb_spec (IBLOCK j mkfs_sb) (IBLOCK i mkfs_sb)) as [E|]; [|done]. rewrite E. apply read_write_dinode_other; [done|apply Hm; lia|done|apply Hm; lia|].
    intros Em. apply Hne. unfold IBLOCK, u32 in E. rewrite mkfs_sb_eq in E. change IPB with 16 in *. cbn [sb_inodestart] in E. unfold NINODES in *.
    assert (0 <= j / 16 < 13 /\ 0 <= i / 16 < 13) by dlia. rewrite !Z.mod_small in E by lia. dlia.
Qed.

Lemma put_inode_slots s D i d j k : image s D -> 0 <= i < NINODES -> 0 <= j < NINODES -> slot_addr (vg (put_inode s i d)) (D j) k = slot_addr (vg s) (D j) k.
Proof using.
  clear. intros Hi Hr Hj. apply slot_addr_ext. intros Hne. destruct (wf_indirect mkfs_sb _ _ j (im_wf _ _ Hi) Hj Hne) as [Hb _]. rewrite mkfs_end in Hb.
  rewrite !vg_high by lia. apply (put_inode_raw s D); [done|done|lia].
Qed.

Lemma put_inode_byte s D i d j o : image s D -> 0 <= i < NINODES -> 0 <= j < NINODES -> 0 <= o < MAXFILE * BSIZE ->
  file_byte (vg (put_inode s i d)) (D j) o = file_byte (vg s) (D j) o.
Proof using.
  clear. intros Hi Hr Hj Ho. apply file_byte_eq; [by apply put_inode_slots|]. intros Hne.
  destruct (wf_file_block mkfs_sb _ _ j (o / BSIZE) (im_wf _ _ Hi) Hj (block_index o Ho) Hne) as [Hb _]. rewrite mkfs_end in Hb.
  rewrite !vg_high by lia. apply (put_inode_raw s D); [done|done|lia].
Qed.

Lemma put_inode_image s D i d : image s D -> 0 <= i < NINODES -> dinode_ok d -> image (put_inode s i d) D.
Proof using.
  clear. intros Hi Hr Hd. pose proof Hi as [I1 I2 I3 I4 I5 W]. pose proof (IBLOCK_mkfs i Hr).
  split; [done|unfold put_inode, put_block; cbn; by rewrite length_insert| |done| |].
  - unfold put_inode, put_block. cbn. apply Forall_insert; [done|]. apply write_dinode_block; [by eapply raw_block|by apply Z.mod_pos_bound|done].
  - intros b Hb. cbn in Hb. rewrite (put_inode_raw s D) by (done || lia). by apply I5.
  - apply (wf_blocks mkfs_sb ltac:(by rewrite mkfs_end) (vg s)); [done|intros; by apply put_inode_slots|]. intros b Hb. change (sb_size mkfs_sb) with FSSIZE in Hb.
    rewrite !used_vg by (done || (change (freeblock (put_inode s i d)) with (freeblock s); lia)). done.
Qed.

(** The size is raised over bytes that are there. *)
Lemma image_size s D i din n : image s (upd D i din) -> 0 <= i < NINODES -> 0 <= n <= MAXFILE * BSIZE -> dense s din n -> image s (upd D i (set_d_size din n)).
Proof using.
  clear. intros [I1 I2 I3 I4 I5 W] Hi Hn Hd. split; try done. assert (Hend : 0 < bmap_end mkfs_sb) by (by rewrite mkfs_end).
  assert (HM : MAXFILE * BSIZE < 2 ^ 32) by (by vm_compute).
  assert (Hu : forall j, upd D i (set_d_size din n) j = if j =? i then set_d_size din n else upd D i din j) by (intros j; unfold upd; by destruct (j =? i)).
  apply (wf_cong mkfs_sb Hend (vg s) (upd D i din)); try done; intros j *.
  - intros Hj Hk. rewrite Hu. destruct (Z.eqb_spec j i) as [->|]; [by rewrite upd_same|done].
  - intros Hj. rewrite Hu. destruct (Z.eqb_spec j i) as [->|]; [|split; [by apply (wf_dinode _ _ _ W)|by apply (wf_size _ _ _ W)]].
    pose proof (wf_dinode _ _ _ W i Hi) as [K1 K2 K3 K4 K5 K6 K7]. rewrite upd_same in *. split; [split; try done; cbn; lia|cbn; lia].
  - intros Hj Hb. rewrite Hu. destruct (Z.eqb_spec j i) as [->|]; [|by apply (wf_dense _ _ _ W)]. rewrite upd_same. cbn [set_d_size di_size]. intros Hs.
    specialize (Hd (bn * BSIZE)). rewrite Z.div_mul in Hd by done. apply Hd. unfold BSIZE in *. lia.
Qed.

Lemma wf_is_dense s D i : image s D -> 0 <= i < NINODES -> dense s (D i) (di_size (D i)).
Proof using. clear. intros Hi Hr o Ho. apply (wf_dense _ _ _ (im_wf _ _ Hi) i _ Hr); unfold BSIZE in *; dlia. Qed.

Lemma content_append g g' d d' p : 0 <= di_size d -> di_size d' = di_size d + Z.of_nat (length p) ->
  (forall o, 0 <= o < di_size d' -> file_byte g' d' o = if di_size d <=? o then nthz p (o - di_size d) else file_byte g d o) ->
  contents g' d' = contents g d ++ p.
Proof using.
  clear. intros H0 Hs Hb. apply list_eq. intros q. rewrite lookup_contents. assert (Hl : length (contents g d) = Z.to_nat (di_size d)) by apply length_contents.
  destruct (decide (Z.of_nat q < di_size d)) as [Hq|Hq].
  - rewrite lookup_app_l by lia. rewrite lookup_contents. rewrite !decide_True by lia. rewrite Hb by lia. by rewrite (proj2 (Z.leb_gt _ _)) by lia.
  - rewrite lookup_app_r by lia. destruct (decide (Z.of_nat q < di_size d')) as [Hq'|Hq'].
    + rewrite Hb by lia. rewrite (proj2 (Z.leb_le _ _)) by lia. unfold nthz. replace (Z.to_nat (Z.of_nat q - di_size d)) with (q - length (contents g d))%nat by lia.
      destruct (lookup_lt_is_Some_2 p (q - length (contents g d))) as [b ->]; [lia|done].
    + symmetry. apply lookup_ge_None_2. lia.
Qed.

(** What [iappend] does. *)
Record iappended (i : Z) (p : list Z) (s s' : mkst) : Prop := {
  ia_built : built s';
  ia_fi : freeinode s' = freeinode s;
  ia_fb : freeblock s <= freeblock s' <= freeblock s + (need (di_size (ino s i) + Z.of_nat (length p)) - need (di_size (ino s i)));
  ia_other : forall j, 0 <= j < NINODES -> j <> i -> ino s' j = ino s j /\ content s' j = content s j;
  ia_this : content s' i = content s i ++ p;
  ia_size : di_size (ino s' i) = di_size (ino s i) + Z.of_nat (length p);
  ia_meta : di_type (ino s' i) = di_type (ino s i) /\ di_nlink (ino s' i) = di_nlink (ino s i)
}.

Lemma ino_low s s' i : (forall b, b < 47 -> raw s' b = raw s b) -> 0 <= i < NINODES -> ino s' i = ino s i.
Proof using. clear. intros Hr Hi. unfold ino, inode_at. pose proof (IBLOCK_mkfs i Hi). by rewrite Hr by lia. Qed.

(** The new size is written: the append is complete. *)
Lemma append_done s i p s1 din : built s -> 0 <= i < freeinode s -> di_size (ino s i) + Z.of_nat (length p) <= MAXFILE * BSIZE ->
  appended (ino s) i (di_size (ino s i)) p s (ino s i) s1 din ->
  iappended i p s (put_inode s1 i (set_d_size din (di_size (ino s i) + Z.of_nat (length p)))).
Proof using.
  clear. intros B Hi Hmax A. pose proof B as [Him Hfi Hun Hsup Hlog Htail]. assert (Hr : 0 <= i < NINODES) by lia.
  set (size := di_size (ino s i)) in *. pose proof (dk_size _ (wf_dinode _ _ _ (im_wf _ _ Him) i Hr)) as Hsz. fold size in Hsz.
  pose proof A as [A1 (A2 & A3 & A4 & A5 & A6) A7 A8 A9 A10 A11]. set (n := size + Z.of_nat (length p)) in *. set (s2 := put_inode s1 i (set_d_size din n)).
  pose proof (image_size s1 (ino s) i din n A1 Hr ltac:(lia) A10) as I2. pose proof (wf_dinode _ _ _ (im_wf _ _ I2) i Hr) as Hd. rewrite upd_same in Hd.
  assert (Hino : forall j, 0 <= j < NINODES -> ino s2 j = upd (ino s) i (set_d_size din n) j).
  { intros j Hj. unfold s2. rewrite (put_inode_ino s1 _ i _ j A1 Hr Hd Hj). unfold upd. destruct (j =? i); [done|]. by apply ino_low. }
  assert (Hbyte : forall j o, 0 <= j < NINODES -> 0 <= o < MAXFILE * BSIZE -> file_byte (vg s2) (ino s2 j) o =
    if (j =? i) && (size <=? o) && (o <? n) then nthz p (o - size) else file_byte (vg s) (ino s j) o).
  { intros j o Hj Ho. rewrite Hino by done. unfold s2. rewrite (put_inode_byte s1 _ i _ j o I2 Hr Hj Ho). specialize (A11 j o Hj Ho). unfold upd in A11 |- *.
    destruct (Z.eqb_spec j i) as [->|]; exact A11. }
  pose proof (Hino i Hr) as Ei. rewrite upd_same in Ei. assert (Eo : forall j, 0 <= j < NINODES -> j <> i -> ino s2 j = ino s j) by (intros j Hj Hne; rewrite Hino by done; by apply upd_other).
  assert (Hraw : forall b, b < 33 \/ 46 <= b < 47 -> raw s2 b = raw s b) by (intros b Hb; unfold s2; rewrite (put_inode_raw s1 _ i _ b A1 Hr) by lia; apply A9; lia).
  split; [split| | | | | |].
  - apply (image_cong s2 (upd (ino s) i (set_d_size din n)) _ Hino). by apply put_inode_image.
  - change (freeinode s2) with (freeinode s1). lia.
  - intros j Hj. change (freeinode s2) with (freeinode s1) in Hj. rewrite Eo by lia. apply Hun. lia.
  - rewrite Hraw by lia. done.
  - intros b Hb. rewrite Hraw by lia. by apply Hlog.
  - intros j o Hj Ho. assert (Hs0 : 0 <= di_size (ino s j)) by (apply (dk_size _ (wf_dinode _ _ _ (im_wf _ _ Him) j Hj))). destruct (Z.eqb_spec j i) as [->|Hne].
    + rewrite Ei in Ho. cbn [set_d_size di_size] in Ho. rewrite Hbyte by (done || lia). rewrite (proj2 (Z.ltb_ge o n)), andb_false_r by lia. apply Htail; [done|fold size; lia].
    + rewrite Eo in Ho by done. rewrite Hbyte by (done || lia). rewrite (proj2 (Z.eqb_neq j i) Hne). cbn [andb]. by apply Htail.
  - done.
  - exact A8.
  - intros j Hj Hne. split; [by apply Eo|]. unfold content, contents. rewrite (Eo j Hj Hne). apply map_ext_in. intros o Ho%list_elem_of_In%elem_of_seqZ.
    pose proof (wf_size _ _ _ (im_wf _ _ Him) j Hj). pose proof (Hbyte j o Hj ltac:(lia)) as Hb. by rewrite (Eo j Hj Hne), (proj2 (Z.eqb_neq j i) Hne) in Hb.
  - apply (content_append (vg s) (vg s2) (ino s i) (ino s2 i) p); [lia|by rewrite Ei|]. intros o Ho. rewrite Ei in Ho. cbn [set_d_size di_size] in Ho.
    rewrite Hbyte by (done || lia). fold size. rewrite Z.eqb_refl. cbn [andb]. rewrite (proj2 (Z.ltb_lt o n)), andb_true_r by lia. done.
  - rewrite Ei. done.
  - rewrite Ei. cbn. by split.
Qed.

Lemma iappend_ok s i p : built s -> 0 <= i < freeinode s -> di_size (ino s i) + Z.of_nat (length p) <= MAXFILE * BSIZE -> Forall is_byte p ->
  freeblock s + (need (di_size (ino s i) + Z.of_nat (length p)) - need (di_size (ino s i))) <= FSSIZE ->
  exists s', iappend h i p (Z.of_nat (length p)) s = Ok tt s' /\ iappended i p s s'.
Proof using Hw.
  intros B Hi Hmax Hby Hroom. pose proof (bt_image _ B) as Him. pose proof (bt_fi _ B) as Hfi. assert (Hr : 0 <= i < NINODES) by lia. assert (HM : MAXFILE * BSIZE < 2 ^ 32) by (by vm_compute).
  set (size := di_size (ino s i)) in *. pose proof (dk_size _ (wf_dinode _ _ _ (im_wf _ _ Him) i Hr)) as Hsz. fold size in Hsz.
  assert (Hi1 : image s (upd (ino s) i (ino s i))) by (apply (image_ext s (ino s)); [|done]; intros j; unfold upd; by destruct (Z.eqb_spec j i) as [->|]).
  destruct (iappend_loop_ok (ino s) i Hr (Datatypes.S (length p)) s (ino s i) size p Hi1 (wf_is_dense s (ino s) i Him Hr)) as (din & s1 & E & A); [lia|done|done|lia|done|].
  pose proof (ap_image _ _ _ _ _ _ _ _ A) as A1.
  unfold iappend. step_with (rinode_ok s i (im_sb _ _ Him) (im_len _ _ Him) Hr). fold (ino s i). fold size. rewrite xint_id by lia. rewrite Nat2Z.id. step_with E.
  rewrite xint_id by lia. rewrite (winode_ok s1 i _ (im_sb _ _ A1) (im_len _ _ A1) Hr). eexists. split; [done|]. by apply append_done.
Qed.
End ops.
