(* ===== verification/MkfsImage.v ===== *)
(** * What mkfs leaves on the disk

    The run of [main] as a whole: the empty image, a file per argument, the
    root directory, the free map; and what the kernel then finds there. *)

From stdpp Require Import base gmap list numbers strings sets.
From Stdlib Require Import ZArith Lia.
From S2P Require Import Prelude Mem Spinlock Bytes Sleeplock Disk Bio BlockIO Fs FsSpec FsAlloc FsInode ProcEnv FsOwn FsMap FsFile FsDir FsPath Mkfs MkfsSpec.
Open Scope Z_scope.
Open Scope kernel_scope.

(** ** Directories as lists of entries *)

(** The inode of a name in a list of names and inodes. *)
Definition listing (l : list (list Z * Z)) (name : list Z) : option Z := snd <$> List.find (fun e => bool_decide (dname name = dname (fst e))) l.
Definition entries (l : list (list Z * Z)) : list Z := concat (map (fun e => mk_dirent (snd e) (fst e)) l).

Lemma find_app {A} (f : A -> bool) l l' : List.find f (l ++ l') = match List.find f l with Some x => Some x | None => List.find f l' end.
Proof. induction l as [|x l IH]; cbn; [done|]. by destruct (f x). Qed.

Lemma length_entries l : length (entries l) = (16 * length l)%nat.
Proof. induction l as [|e l IH]; cbn [entries map concat length]; [done|]. rewrite length_app. destruct (dirent_mk (snd e) (fst e)) as [_ ->]. unfold entries in IH. lia. Qed.

Lemma entries_app l l' : entries (l ++ l') = entries l ++ entries l'.
Proof. unfold entries. by rewrite map_app, concat_app. Qed.

Lemma dir_find_none c name : dir_lookup c name = None -> dir_find c name = None.
Proof. unfold dir_lookup. by destruct (dir_find c name). Qed.

(** The directory made of the entries in order, for names that differ. *)
Lemma dir_lookup_entries l name : NoDup (map (fun e => dname (fst e)) l) -> Forall (fun e => 0 < snd e < 2 ^ 16) l -> dir_lookup (entries l) name = listing l name.
Proof.
  revert name. induction l as [|[n i] l IH] using rev_ind; intros name Hnd Hr; [done|]. rewrite map_app in Hnd. apply NoDup_app in Hnd as (Hnd & Hdis & _).
  apply Forall_app in Hr as [Hr [Hi _]%Forall_cons]. cbn in Hi. rewrite entries_app. cbn [entries map concat fst snd]. rewrite app_nil_r.
  set (c := entries l) in *. pose proof (length_entries l) as Hlen. fold c in Hlen. set (k := Z.of_nat (length l)).
  assert (E : c ++ mk_dirent i n = splice c (Z.to_nat (16 * k)) (mk_dirent i n)).
  { unfold splice. rewrite take_ge, drop_ge, app_nil_r by lia. done. }
  assert (Hl : listing l n = None).
  { unfold listing. destruct (List.find _ l) as [[n' i']|] eqn:Ef; [|done]. exfalso. apply find_some in Ef as [Hin%list_elem_of_In Heq%bool_decide_eq_true].
    apply (Hdis (dname n')); [apply list_elem_of_fmap; by exists (n', i')|cbn in Heq |- *; rewrite Heq; by left]. }
  rewrite E, dir_lookup_link; [|lia|lia|rewrite Hlen; dlia|lia|rewrite Z.mod_small; lia|apply dir_find_none; by rewrite (IH n Hnd Hr)].
  rewrite (IH name Hnd Hr). unfold listing. rewrite find_app. cbn [List.find fst]. rewrite Z.mod_small by lia. case_bool_decide as En.
  - unfold listing in Hl. rewrite (find_ext_in _ (fun e => bool_decide (dname n = dname (fst e)))) by (intros; by rewrite En). by destruct (List.find _ l).
  - by destruct (List.find _ l).
Qed.

(** Zeros behind the entries are free entries. *)
Lemma dir_lookup_zeros c m name : Z.of_nat (length c) mod 16 = 0 -> dir_lookup (c ++ replicate (16 * m) 0) name = dir_lookup c name.
Proof.
  intros Hm. set (c' := c ++ _). set (k := Z.of_nat (length c) / 16). assert (Hk : 0 <= k) by (unfold k; dlia).
  assert (Hlen : Z.of_nat (length c') / 16 = k + Z.of_nat m) by (unfold c', k; rewrite length_app, length_replicate; dlia).
  assert (He : forall j, 0 <= j < k -> dirent c' j = dirent c j).
  { intros j Hj. unfold dirent, c'. rewrite drop_app_le by (unfold k in *; dlia). rewrite take_app_le; [done|]. rewrite length_drop. unfold k in *. dlia. }
  assert (Hz : forall j, k <= j -> de_inum (dirent c' j) = 0).
  { intros j Hj. unfold dirent, c'. rewrite drop_app_ge by (unfold k in *; dlia). rewrite drop_replicate, take_replicate. unfold de_inum, getn. rewrite drop_0, take_replicate.
    generalize (Nat.min 2 (Nat.min 16 (16 * m - (Z.to_nat (16 * j) - length c)))). intros q. induction q; cbn; lia. }
  unfold dir_lookup, dir_find. rewrite Hlen. fold k. rewrite seqZ_app by lia. rewrite find_app. rewrite (find_ext_in (is_entry c' name) (is_entry c name)).
  - destruct (List.find (is_entry c name) _) as [j|] eqn:Ef.
    + apply find_some in Ef as [Hj%list_elem_of_In%elem_of_seqZ _]. cbn. by rewrite He by lia.
    + destruct (List.find _ (seqZ (0 + k) _)) as [j|] eqn:Ef'; [|done]. apply find_some in Ef' as [Hj%list_elem_of_In%elem_of_seqZ Hi]. unfold is_entry in Hi.
      by rewrite Hz in Hi by lia.
  - intros j Hj%list_elem_of_In%elem_of_seqZ. unfold is_entry. by rewrite He by lia.
Qed.

(** ** The steps of main *)

Section run.
Context (h : host) (Hw : forall o, h_write h o = true).

Lemma zero_inode j : 0 <= j < IPB -> read_dinode zeroes j = dinode0.
Proof using.
  clear. intros Hj. assert (E : map (read_dinode zeroes) (seqZ 0 IPB) = replicate (Z.to_nat IPB) dinode0) by (by vm_compute).
  pose proof (f_equal (fun l => l !! Z.to_nat j) E) as El. cbn beta in El. rewrite list_lookup_fmap, lookup_seqZ_lt in El by lia.
  rewrite lookup_replicate_2 in El by lia. rewrite Z.add_0_l, Z2Nat.id in El by lia. exact (Some_inj _ _ El).
Qed.

Lemma zero_slots g d k : di_addrs d = replicate (Z.to_nat (NDIRECT + 1)) 0 -> slot_addr g d k = 0.
Proof using.
  clear. intros E. assert (Hz : forall j, nthz (di_addrs d) j = 0).
  { intros j. rewrite E. unfold nthz. destruct (decide (Z.to_nat j < Z.to_nat (NDIRECT + 1))%nat); [by rewrite lookup_replicate_2|]. rewrite lookup_ge_None_2; [done|rewrite length_replicate; lia]. }
  unfold slot_addr. destruct (k <=? NDIRECT); [done|]. cbn zeta. by rewrite Hz.
Qed.

Lemma zero_byte g d o : di_addrs d = replicate (Z.to_nat (NDIRECT + 1)) 0 -> file_byte g d o = 0.
Proof using. clear. intros E. unfold file_byte. by rewrite zero_slots. Qed.

(** The image after the superblock is written. *)
Definition start : mkst := mk_mkst (<[1%nat := encode_sb zeroes mkfs_sb]> (replicate (Z.to_nat FSSIZE) zeroes)) mkfs_sb 1 nmeta.

Lemma start_run s : fsimg s = [] ->
  (for_all (seqZ 0 FSSIZE) (fun i => wsect h i zeroes) ;;; wsect h 1 (encode_sb zeroes mkfs_sb)) s =
    Ok tt (set_fsimg s (<[1%nat := encode_sb zeroes mkfs_sb]> (replicate (Z.to_nat FSSIZE) zeroes))).
Proof using Hw.
  intros Hs. destruct (for_all_inv (fun t s' => s' = set_fsimg s (replicate (Z.to_nat t) zeroes)) (fun i => wsect h i zeroes) FSSIZE s) as (s' & E & ->); [done|by destruct s; cbn in *; subst| |].
  - intros t s' Ht ->. unfold wsect. rewrite Hw. cbn [negb]. unfold modify. rewrite sector_offset by done. eexists. split; [done|]. cbn [set_fsimg fsimg]. unfold set_fsimg. cbn. f_equal.
    rewrite length_replicate. replace (Datatypes.S (Z.to_nat t) - Z.to_nat t)%nat with 1%nat by lia. cbn [replicate]. rewrite insert_app_r_alt by (rewrite length_replicate; lia).
    rewrite length_replicate, Nat.sub_diag. cbn. rewrite <- replicate_S_end. f_equal. lia.
  - step_with E. unfold wsect. rewrite Hw. cbn [negb]. unfold modify. change (Z.to_nat (u32 (1 * BSIZE) / BSIZE)) with 1%nat. cbn [set_fsimg fsimg]. rewrite length_replicate.
    change (2 - Z.to_nat FSSIZE)%nat with 0%nat. by rewrite app_nil_r.
Qed.

Lemma encode_sb_block bl b : is_block bl -> is_block (encode_sb bl b).
Proof using. clear. intros Hb. unfold encode_sb. repeat (apply putn_block; [|lia|unfold BSIZE; lia]). done. Qed.

Lemma start_raw b : raw start b = if b =? 1 then encode_sb zeroes mkfs_sb else zeroes.
Proof using.
  clear. unfold raw, start. cbn [fsimg]. destruct (Z.leb_spec 0 b); [|by destruct (Z.eqb_spec b 1); [lia|]].
  destruct (Z.eqb_spec b 1) as [->|Hne]; [by rewrite list_lookup_insert_eq by (rewrite length_replicate; unfold FSSIZE; lia)|].
  rewrite list_lookup_insert_ne by lia. destruct (replicate _ _ !! _) eqn:E; [|done]. by apply lookup_replicate in E as [-> _].
Qed.

Lemma start_ino i : 0 <= i < NINODES -> ino start i = dinode0.
Proof using.
  clear. intros Hi. unfold ino, inode_at. pose proof (IBLOCK_mkfs i Hi). rewrite start_raw. destruct (Z.eqb_spec (IBLOCK i mkfs_sb) 1); [lia|].
  apply zero_inode. by apply Z.mod_pos_bound.
Qed.

Lemma start_built : built start.
Proof using.
  clear. assert (HS : forall i k, 0 <= i < NINODES -> slot_addr (vg start) (ino start i) k = 0) by (intros; rewrite start_ino by done; by apply zero_slots).
  assert (Hn : freeblock start = 47) by (by vm_compute).
  split; [split|done|intros; apply start_ino; cbn in *; lia|by rewrite start_raw|intros b Hb; rewrite start_raw; by destruct (Z.eqb_spec b 1); [lia|]|].
  - done.
  - cbn [start fsimg]. rewrite length_insert, length_replicate. done.
  - cbn [start fsimg]. apply Forall_insert; [apply Forall_replicate, zeroes_block|apply encode_sb_block, zeroes_block].
  - rewrite Hn. by vm_compute.
  - intros b Hb. rewrite Hn in Hb. rewrite start_raw. by destruct (Z.eqb_spec b 1); [lia|].
  - split; rewrite ?mkfs_end; change (sb_ninodes mkfs_sb) with NINODES; change (sb_size mkfs_sb) with FSSIZE.
    + intros i Hi. rewrite start_ino by done. split; cbn [dinode0 di_type di_major di_minor di_nlink di_size di_addrs]; [lia..|reflexivity|]. apply Forall_replicate. lia.
    + split.
      * intros i k [Hi Hk]. by rewrite HS.
      * intros i k j l [Hi Hk] _. by rewrite HS.
      * intros b Hb. rewrite used_vg by (rewrite ?Hn; unfold FSSIZE in *; lia). rewrite Hn. intros Hu%Z.ltb_lt. lia.
    + intros b Hb. rewrite used_vg by (rewrite ?Hn; unfold FSSIZE in *; lia). rewrite Hn. intros Hu%Z.ltb_ge. lia.
    + intros i Hi. rewrite start_ino by done. by vm_compute.
    + intros i bn Hi Hb. rewrite start_ino by done. cbn. unfold BSIZE. lia.
  - intros i o Hi Ho. rewrite start_ino by done. by apply zero_byte.
Qed.

Definition new_inode (type : Z) : dinode := mk_dinode type 0 0 1 0 (replicate (Z.to_nat (NDIRECT + 1)) 0).

(** What [ialloc] does. *)
Record ialloced (type : Z) (s s' : mkst) : Prop := {
  il_built : built s';
  il_fi : freeinode s' = freeinode s + 1;
  il_fb : freeblock s' = freeblock s;
  il_new : ino s' (freeinode s) = new_inode type;
  il_other : forall j, 0 <= j < NINODES -> j <> freeinode s -> ino s' j = ino s j /\ content s' j = content s j
}.

Lemma new_inode_ok type : type = T_DIR \/ type = T_FILE -> dinode_ok (new_inode type).
Proof using.
  clear. intros Ht. split; cbn [new_inode di_type di_major di_minor di_nlink di_size di_addrs]; [destruct Ht as [-> | ->]; by vm_compute|lia..|reflexivity|].
  apply Forall_replicate. lia.
Qed.

Lemma ialloc_ok s type : built s -> freeinode s < NINODES -> type = T_DIR \/ type = T_FILE ->
  exists s', ialloc h type s = Ok (freeinode s) s' /\ ialloced type s s'.
Proof using Hw.
  intros [Him Hfi Hun Hsup Hlog Htail] Hlt Ht. set (i := freeinode s) in *. assert (Hi : 0 <= i < NINODES) by lia. pose proof (new_inode_ok type Ht) as Hd.
  set (s1 := set_freeinode s (i + 1)). assert (Him1 : image s1 (ino s)) by (destruct Him; split; done).
  assert (Him2 : image s1 (upd (ino s) i (new_inode type))).
  { destruct Him1 as [I1 I2 I3 I4 I5 W]. split; try done. apply (wf_cong mkfs_sb ltac:(by rewrite mkfs_end) (vg s1) (ino s)); try done; intros j *; unfold upd;
      (destruct (Z.eqb_spec j i) as [->|]; [|intros Hj; try done]).
    - intros _ Hk. rewrite Hun by lia. by rewrite !zero_slots.
    - intros _. split; [done|by vm_compute].
    - split; [by apply (wf_dinode _ _ _ W)|by apply (wf_size _ _ _ W)].
    - cbn. unfold BSIZE. lia.
    - by apply (wf_dense _ _ _ W). }
  set (s2 := put_inode s1 i (new_inode type)). exists s2.
  assert (Hino : forall j, 0 <= j < NINODES -> ino s2 j = upd (ino s) i (new_inode type) j).
  { intros j Hj. unfold s2. rewrite (put_inode_ino s1 _ i _ j Him1 Hi Hd Hj). unfold upd. by destruct (j =? i). }
  assert (Hb : forall j o, 0 <= j < NINODES -> j <> i -> 0 <= o < MAXFILE * BSIZE -> file_byte (vg s2) (ino s2 j) o = file_byte (vg s) (ino s j) o).
  { intros j o Hj Hne Ho. rewrite Hino, upd_other by done. apply (put_inode_byte s1 (ino s) i _ j o Him1 Hi Hj Ho). }
  assert (Hraw : forall b, b < 33 \/ 46 <= b -> raw s2 b = raw s b) by (intros b Hb'; apply (put_inode_raw s1 _ i _ b Him1 Hi Hb')).
  split.
  - unfold ialloc, bind at 1, get. cbn zeta. fold i. unfold bind at 1, modify. assert (Eu : u32 (i + 1) = i + 1) by (unfold u32, NINODES in *; apply Z.mod_small; lia). rewrite Eu. fold s1.
    assert (Ed : mk_dinode (i16 (xshort type)) 0 0 (i16 (xshort 1)) (xint 0) (replicate (Z.to_nat (NDIRECT + 1)) 0) = new_inode type) by (destruct Ht as [-> | ->]; by vm_compute).
    rewrite Ed. step_with (winode_ok h Hw s1 i (new_inode type) (im_sb _ _ Him1) (im_len _ _ Him1) Hi). done.
  - split; [split| | | |].
    + apply (image_cong s2 (upd (ino s) i (new_inode type)) _ Hino). by apply put_inode_image.
    + cbn. lia.
    + intros j Hj. cbn in Hj. rewrite Hino, upd_other by lia. apply Hun. lia.
    + by rewrite Hraw by lia.
    + intros b Hb'. rewrite Hraw by lia. by apply Hlog.
    + intros j o Hj. destruct (decide (j = i)) as [->|Hne]; [rewrite Hino, upd_same by done; intros; by apply zero_byte|].
      rewrite (Hino j), upd_other by done. intros Ho. pose proof (dk_size _ (wf_dinode _ _ _ (im_wf _ _ Him) j Hj)). specialize (Hb j o Hj Hne ltac:(lia)).
      rewrite Hino, upd_other in Hb by done. rewrite Hb. by apply Htail.
    + done.
    + done.
    + rewrite Hino by done. apply upd_same.
    + intros j Hj Hne. assert (Ej : ino s2 j = ino s j) by (rewrite Hino by done; by apply upd_other). split; [done|]. unfold content, contents. rewrite Ej. apply map_ext_in.
      intros o Ho%list_elem_of_In%elem_of_seqZ. pose proof (wf_size _ _ _ (im_wf _ _ Him) j Hj). specialize (Hb j o Hj Hne ltac:(lia)). by rewrite Ej in Hb.
Qed.

(** The bytes of a file arrive in pieces. *)
Lemma iappended_trans i p q s s1 s2 : 0 <= i < NINODES -> iappended i p s s1 -> iappended i q s1 s2 -> iappended i (p ++ q) s s2.
Proof using.
  clear. intros Hi [A1 A2 A3 A4 A5 A6 [A7 A8]] [B1 B2 B3 B4 B5 B6 [B7 B8]]. rewrite A6 in *.
  assert (El : Z.of_nat (length (p ++ q)) = Z.of_nat (length p) + Z.of_nat (length q)) by (rewrite length_app; lia).
  split; [done|congruence|rewrite El, Z.add_assoc; lia| |by rewrite B5, A5, app_assoc|lia|split; congruence].
  intros j Hj Hne. destruct (A4 j Hj Hne) as [<- <-]. by apply B4.
Qed.

Lemma iappended_nil i s : built s -> iappended i [] s s.
Proof using. clear. intros B. split; try done; rewrite ?Z.add_0_r, ?app_nil_r; try done. lia. Qed.

Lemma reads_ok rs i s : built s -> 0 <= i < freeinode s -> di_size (ino s i) + Z.of_nat (length (concat rs)) <= MAXFILE * BSIZE -> Forall is_byte (concat rs) ->
  freeblock s + (need (di_size (ino s i) + Z.of_nat (length (concat rs))) - need (di_size (ino s i))) <= FSSIZE ->
  exists s', for_all rs (fun buf => iappend h i buf (Z.of_nat (length buf))) s = Ok tt s' /\ iappended i (concat rs) s s'.
Proof using Hw.
  revert s. induction rs as [|r rs IH]; intros s B Hi Hmax Hby Hroom; [exists s; split; [done|by apply iappended_nil]|]. cbn [concat] in *.
  rewrite length_app, Nat2Z.inj_add, Z.add_assoc in Hmax, Hroom. apply Forall_app in Hby as [Hb1 Hb2]. pose proof (bt_fi _ B) as Hfi. assert (Hin : 0 <= i < NINODES) by lia.
  pose proof (dk_size _ (wf_dinode _ _ _ (im_wf _ _ (bt_image _ B)) i Hin)) as Hsz.
  pose proof (need_mono (di_size (ino s i) + Z.of_nat (length r)) (di_size (ino s i) + Z.of_nat (length r) + Z.of_nat (length (concat rs))) ltac:(lia)) as Hn.
  destruct (iappend_ok h Hw s i r B Hi ltac:(lia) Hb1 ltac:(lia)) as (s1 & E1 & A). pose proof A as [A1 A2 A3 A4 A5 A6 A7].
  destruct (IH s1 A1) as (s2 & E2 & A'); [by rewrite A2|rewrite A6; lia|done|rewrite A6; lia|]. exists s2. cbn [for_all]. step_with E1. split; [done|]. by eapply iappended_trans.
Qed.

(** The root directory is rounded up over zeros of its last block. *)
Lemma fix_root_ok s : built s -> 1 < freeinode s -> di_size (ino s 1) mod BSIZE <> 0 -> di_size (ino s 1) < MAXFILE * BSIZE ->
  exists s', fix_root h 1 s = Ok tt s' /\ iappended 1 (replicate (Z.to_nat (BSIZE - di_size (ino s 1) mod BSIZE)) 0) s s'.
Proof using Hw.
  intros B Hf Hmod Hlt. pose proof B as [Him Hfi Hun Hsup Hlog Htail]. set (size := di_size (ino s 1)) in *. assert (Hi : 0 <= 1 < NINODES) by (unfold NINODES; lia).
  pose proof (dk_size _ (wf_dinode _ _ _ (im_wf _ _ Him) 1 Hi)) as Hsz. fold size in Hsz. set (n := (size / BSIZE + 1) * BSIZE). set (z := replicate _ 0).
  assert (Hn : n = size + Z.of_nat (length z) /\ n <= MAXFILE * BSIZE /\ size < n).
  { unfold z, n. rewrite length_replicate. change (MAXFILE * BSIZE) with 274432 in *. unfold BSIZE in *. dlia. }
  assert (HM : MAXFILE * BSIZE < 2 ^ 32) by (by vm_compute).
  assert (Hd : dense s (ino s 1) n).
  { intros o Ho. destruct (decide (o < size)) as [Hos|Hos]; [by apply (wf_is_dense s (ino s) 1 Him Hi); fold size; lia|].
    replace (o / BSIZE) with ((size - 1) / BSIZE) by (unfold n, BSIZE in *; dlia). apply (wf_is_dense s (ino s) 1 Him Hi). fold size. unfold BSIZE in *. dlia. }
  assert (Hup : forall j, upd (ino s) 1 (ino s 1) j = ino s j) by (intros j; unfold upd; by destruct (Z.eqb_spec j 1) as [->|]).
  assert (A : appended (ino s) 1 size z s (ino s 1) s (ino s 1)).
  { pose proof (need_mono size n ltac:(lia)) as Hneed. split; try done; rewrite <- ?(proj1 Hn); [by apply (image_ext _ _ _ Hup)|lia|done|]. intros j o Hj Ho. rewrite !Hup.
    destruct (Z.eqb_spec j 1) as [->|]; cbn [andb]; [|done]. destruct (Z.leb_spec size o), (Z.ltb_spec o n); cbn [andb]; try done.
    rewrite Htail by (done || (fold size; lia)). unfold nthz, z. rewrite lookup_replicate_2; [done|]. unfold n, BSIZE in *. dlia. }
  eexists. split; [|apply (append_done s 1 z s (ino s 1)); [done|lia|fold size; lia|done]]. fold size. rewrite <- (proj1 Hn).
  unfold fix_root. step_with (rinode_ok s 1 (im_sb _ _ Him) (im_len _ _ Him) Hi). fold (ino s 1). fold size. rewrite (xint_id size) by lia. fold n.
  assert (Eu : u32 n = n) by (unfold u32; apply Z.mod_small; lia). rewrite Eu, xint_id by lia. apply (winode_ok h Hw s 1 _ (im_sb _ _ Him) (im_len _ _ Him) Hi).
Qed.

(** ** The files on the image *)

(** The files put so far, as names and bytes; the root directory lists them in
    order, numbered from 2. *)
Fixpoint numbered (i : Z) (names : list (list Z)) : list (list Z * Z) :=
  match names with [] => [] | n :: names' => (n, i) :: numbered (i + 1) names' end.
Definition root_list (names : list (list Z)) : list (list Z * Z) := ([46], 1) :: ([46; 46], 1) :: numbered 2 names.
Definition blocks_of (l : list (list Z * list Z)) : Z := foldr (fun f a => need (Z.of_nat (length (snd f))) + a) 0 l.
Definition cost (l : list (list Z * list Z)) : Z := need (16 * (2 + Z.of_nat (length l))) + blocks_of l.

Lemma numbered_app i l l' : numbered i (l ++ l') = numbered i l ++ numbered (i + Z.of_nat (length l)) l'.
Proof using.
  clear. revert i. induction l as [|n l IH]; intros i; cbn [app numbered length]; [by rewrite Z.add_0_r|]. rewrite IH. do 3 f_equal. lia.
Qed.
Lemma length_root_list names : length (root_list names) = (2 + length names)%nat.
Proof using. clear. unfold root_list. cbn [length]. do 2 f_equal. generalize 2. induction names as [|n l IH]; intros i; cbn; [done|]. by rewrite IH. Qed.
Lemma root_list_snoc names n : root_list (names ++ [n]) = root_list names ++ [(n, 2 + Z.of_nat (length names))].
Proof using. clear. unfold root_list. by rewrite numbered_app. Qed.
Lemma blocks_of_app l l' : blocks_of (l ++ l') = blocks_of l + blocks_of l'.
Proof using. clear. unfold blocks_of. induction l as [|f l IH]; cbn [app foldr]; [done|]. rewrite IH. lia. Qed.
Lemma need_pos n : 0 <= n -> 0 <= need n.
Proof using. clear. intros Hn. pose proof (need_mono 0 n ltac:(lia)). exact H. Qed.
Lemma blocks_of_pos l : 0 <= blocks_of l.
Proof using. clear. induction l as [|f l IH]; cbn; [lia|]. pose proof (need_pos (Z.of_nat (length (snd f))) ltac:(lia)). unfold blocks_of in IH. lia. Qed.

Record holds (s : mkst) (l : list (list Z * list Z)) : Prop := {
  ho_built : built s;
  ho_fi : freeinode s = 2 + Z.of_nat (length l);
  ho_root : content s 1 = entries (root_list (map fst l));
  ho_root_meta : di_type (ino s 1) = T_DIR /\ di_nlink (ino s 1) = 1;
  ho_files : forall k n d, l !! k = Some (n, d) -> content s (2 + Z.of_nat k) = d /\ di_type (ino s (2 + Z.of_nat k)) = T_FILE /\ di_nlink (ino s (2 + Z.of_nat k)) = 1;
  ho_fb : 47 <= freeblock s <= 47 + cost l
}.

Lemma content_size s i : built s -> 0 <= i < NINODES -> di_size (ino s i) = Z.of_nat (length (content s i)).
Proof using. clear. intros B Hi. unfold content. rewrite length_contents. pose proof (dk_size _ (wf_dinode _ _ _ (im_wf _ _ (bt_image _ B)) i Hi)). lia. Qed.

(** An argument of mkfs that is put under [name] with the bytes of [reads]. *)
Record good_arg (arg name : list Z) (data : list Z) : Prop := {
  ga_slash : c_slash ∉ skip_user arg;
  ga_name : name = skip_under (skip_user arg);
  ga_len : Z.of_nat (length name) <= DIRSIZ;
  ga_bytes : Forall is_byte name /\ Forall is_byte data;
  ga_size : Z.of_nat (length data) <= MAXFILE * BSIZE;
  ga_open : exists reads, h_open h arg = Some reads /\ data = concat reads
}.

Lemma add_file_ok s l arg name data : holds s l -> good_arg arg name data -> 2 + Z.of_nat (length l) < NINODES -> 47 + cost (l ++ [(name, data)]) <= FSSIZE ->
  exists s', add_file h 1 arg s = Ok tt s' /\ holds s' (l ++ [(name, data)]).
Proof using Hw.
  intros [B Hfi Hroot Hrm Hfiles Hfb] [G1 G2 G3 [G4 G4'] G5 (rs & Hop & Hdata)] Hlt Hcost. set (i := freeinode s) in *.
  assert (Hi1 : 0 <= 1 < NINODES) by (unfold NINODES; lia). assert (Hi : 0 <= i < NINODES) by lia.
  set (L := Z.of_nat (length l)) in *. assert (EL : Z.of_nat (length (l ++ [(name, data)])) = L + 1) by (rewrite length_app; cbn; lia).
  unfold cost in Hcost, Hfb. rewrite EL, blocks_of_app in Hcost. fold L in Hfb. cbn [blocks_of foldr snd] in Hcost. pose proof (need_mono (16 * (2 + L)) (16 * (2 + (L + 1))) ltac:(lia)) as Hn1.
  destruct (ialloc_ok s T_FILE B ltac:(lia) ltac:(by right)) as (s1 & E1 & [I1 I2 I3 I4 I5]). fold i in E1, I2, I4, I5.
  assert (Hne : 1 <> i) by lia. destruct (I5 1 Hi1 Hne) as [J1 J2].
  assert (Hs1 : di_size (ino s1 1) = 16 * (2 + L)).
  { rewrite content_size, J2, Hroot, length_entries, length_root_list, length_map by done. unfold L. lia. }
  assert (El : Z.of_nat (length (mk_dirent i name)) = 16) by (destruct (dirent_mk i name) as [_ ->]; done).
  destruct (iappend_ok h Hw s1 1 (mk_dirent i name) I1) as (s2 & E2 & [A1 A2 A3 A4 A5 A6 A7]);
    [lia|rewrite Hs1, El; change (MAXFILE * BSIZE) with 274432; unfold NINODES in *; lia|by apply mk_dirent_bytes|rewrite Hs1, El, I3; replace (16 * (2 + L) + 16) with (16 * (2 + (L + 1))) by lia;
      pose proof (need_pos (Z.of_nat (length data)) ltac:(lia)); pose proof (blocks_of_pos l); lia|].
  rewrite Hs1, El in A3. replace (16 * (2 + L) + 16) with (16 * (2 + (L + 1))) in A3 by lia. destruct (A4 i Hi ltac:(lia)) as [K1 K2]. rewrite I4 in K1.
  assert (Hz : di_size (ino s2 i) = 0) by (rewrite K1; done).
  destruct (reads_ok rs i s2 A1) as (s3 & E3 & [C1 C2 C3 C4 C5 C6 C7]); [lia|rewrite Hz, <- Hdata; lia|by rewrite <- Hdata|rewrite Hz, <- Hdata, Z.add_0_l; change (need 0) with 0; lia|].
  rewrite Hz, <- Hdata, Z.add_0_l in C3. change (need 0) with 0 in C3.
  exists s3. split.
  - unfold add_file. cbn zeta. rewrite (bool_decide_false _ G1). unfold assert at 1. cbn [negb]. unfold bind at 1, ret at 1. rewrite Hop, <- G2.
    unfold assert. rewrite (proj2 (Z.leb_le _ _)) by done. unfold bind at 1, ret at 1. step_with E1. rewrite xshort_id by (unfold NINODES in *; lia).
    rewrite El in E2. step_with E2. exact E3.
  - destruct (C4 1 Hi1 ltac:(lia)) as [M1 M2]. split; [done|rewrite EL; lia| | | |].
    + rewrite M2, A5, J2, Hroot, map_app. cbn [map fst]. rewrite root_list_snoc, entries_app, length_map. cbn [entries map concat snd fst]. rewrite app_nil_r. fold L. by rewrite <- Hfi.
    + rewrite M1, (proj1 A7), (proj2 A7), J1. done.
    + intros k n d Hk. destruct (decide (k < length l)%nat) as [Hkl|Hkl].
      * rewrite lookup_app_l in Hk by done. assert (Hj : 0 <= 2 + Z.of_nat k < NINODES) by lia. destruct (C4 (2 + Z.of_nat k) Hj ltac:(lia)) as [-> ->].
        destruct (A4 (2 + Z.of_nat k) Hj ltac:(lia)) as [-> ->]. destruct (I5 (2 + Z.of_nat k) Hj ltac:(lia)) as [-> ->]. by apply (Hfiles k n d).
      * rewrite lookup_app_r in Hk by lia. destruct (k - length l)%nat as [|q] eqn:Eq; [|done]. cbn in Hk. injection Hk as -> ->.
        replace (2 + Z.of_nat k) with i by lia. rewrite C5, K2, (proj1 C7), (proj2 C7), K1, <- Hdata. split; [|done].
        assert (Hc : content s1 i = []) by (apply nil_length_inv; pose proof (content_size s1 i I1 Hi) as Hcs; rewrite I4 in Hcs; cbn in Hcs; lia). by rewrite Hc.
    + unfold cost. rewrite EL, blocks_of_app. cbn [blocks_of foldr snd]. pose proof (need_pos (Z.of_nat (length data)) ltac:(lia)). lia.
Qed.

Lemma cost_prefix l l' : cost l <= cost (l ++ l').
Proof using.
  clear. unfold cost. rewrite blocks_of_app, length_app. pose proof (blocks_of_pos l').
  pose proof (need_mono (16 * (2 + Z.of_nat (length l))) (16 * (2 + Z.of_nat (length l + length l'))) ltac:(lia)). lia.
Qed.

Lemma add_files_ok args fs s l : holds s l -> Forall2 (fun arg f => good_arg arg (fst f) (snd f)) args fs ->
  2 + Z.of_nat (length (l ++ fs)) <= NINODES -> 47 + cost (l ++ fs) <= FSSIZE ->
  exists s', for_all args (add_file h 1) s = Ok tt s' /\ holds s' (l ++ fs).
Proof using Hw.
  intros Hh HF. revert s l Hh. induction HF as [|arg [name data] args fs Hg HF IH]; intros s l Hh Hn Hc; [exists s; by rewrite app_nil_r|]. cbn [fst snd] in Hg.
  assert (Es : l ++ (name, data) :: fs = (l ++ [(name, data)]) ++ fs) by (by rewrite <- app_assoc). rewrite Es in Hn, Hc |- *.
  pose proof (cost_prefix (l ++ [(name, data)]) fs). destruct (add_file_ok s l arg name data Hh Hg) as (s1 & E1 & Hh1); [rewrite !length_app in Hn; cbn in Hn; lia|lia|].
  destruct (IH s1 (l ++ [(name, data)]) Hh1 Hn Hc) as (s2 & E2 & Hh2). exists s2. split; [|done]. cbn [for_all]. by step_with E1.
Qed.

(** The root directory with its own two entries. *)
Lemma root_ok : exists s0 s1 s, ialloc h T_DIR start = Ok 1 s0 /\ iappend h 1 (mk_dirent (xshort 1) [46]) sizeof_dirent s0 = Ok tt s1 /\
  iappend h 1 (mk_dirent (xshort 1) [46; 46]) sizeof_dirent s1 = Ok tt s /\ holds s [].
Proof using Hw.
  destruct (ialloc_ok start T_DIR start_built ltac:(done) ltac:(by left)) as (s0 & E0 & [I1 I2 I3 I4 I5]). change (freeinode start) with 1 in *.
  assert (Hi : 0 <= 1 < NINODES) by done. assert (El : forall n, Z.of_nat (length (mk_dirent (xshort 1) n)) = sizeof_dirent) by (intros n; by destruct (dirent_mk (xshort 1) n) as [_ ->]).
  assert (Hz : di_size (ino s0 1) = 0) by (by rewrite I4). assert (Hc : content s0 1 = []) by (apply nil_length_inv; pose proof (content_size s0 1 I1 Hi); lia).
  assert (Hn : freeblock start = 47 /\ need 0 = 0 /\ need 16 = 1 /\ need 32 = 1 /\ 274432 = MAXFILE * BSIZE /\ FSSIZE = 2000 /\ sizeof_dirent = 16) by (by vm_compute).
  destruct (iappend_ok h Hw s0 1 (mk_dirent (xshort 1) [46]) I1) as (s1 & E1 & [A1 A2 A3 A4 A5 A6 A7]);
    [lia|rewrite Hz, El; lia|apply mk_dirent_bytes; by repeat constructor|rewrite Hz, El, I3; change (0 + sizeof_dirent) with 16; lia|].
  rewrite Hz, El in A3, A6. change (0 + sizeof_dirent) with 16 in *.
  destruct (iappend_ok h Hw s1 1 (mk_dirent (xshort 1) [46; 46]) A1) as (s2 & E2 & [B1 B2 B3 B4 B5 B6 B7]);
    [lia|rewrite A6, El; lia|apply mk_dirent_bytes; by repeat constructor|rewrite A6, El; change (16 + sizeof_dirent) with 32; lia|].
  rewrite A6, El in B3. change (16 + sizeof_dirent) with 32 in B3. rewrite El in E1, E2. exists s0, s1, s2. split_and!; try done. split; [done|cbn; lia| | |done|].
  - rewrite B5, A5, Hc. done.
  - rewrite (proj1 B7), (proj2 B7), (proj1 A7), (proj2 A7), I4. done.
  - change (cost []) with 1. lia.
Qed.

(** What is on the image when mkfs is done. *)
Record mkfs_image (g : Z -> block) (l : list (list Z * list Z)) : Prop := {
  md_blocks : forall b, is_block (g b);
  md_super : decode_sb (g 1) = mkfs_sb;
  md_log : forall b, 2 <= b < 2 + sb_nlog mkfs_sb -> g b = zeroes;
  md_wf : fs_wf mkfs_sb g (inode_at g mkfs_sb);
  md_root : di_type (inode_at g mkfs_sb ROOTINO) = T_DIR /\ di_nlink (inode_at g mkfs_sb ROOTINO) = 1 /\ di_size (inode_at g mkfs_sb ROOTINO) mod 16 = 0;
  md_names : forall name, dir_lookup (contents g (inode_at g mkfs_sb ROOTINO)) name = listing (root_list (map fst l)) name;
  md_files : forall k n d, l !! k = Some (n, d) -> contents g (inode_at g mkfs_sb (2 + Z.of_nat k)) = d /\
    di_type (inode_at g mkfs_sb (2 + Z.of_nat k)) = T_FILE /\ di_nlink (inode_at g mkfs_sb (2 + Z.of_nat k)) = 1;
  md_free : forall i, 2 + Z.of_nat (length l) <= i < NINODES -> inode_at g mkfs_sb i = dinode0
}.

Lemma root_names names : map (fun e => dname (fst e)) (root_list names) = map dname ([46] :: [46; 46] :: names).
Proof using. clear. unfold root_list. cbn [map fst]. do 2 f_equal. generalize 2. induction names as [|n l IH]; intros i; cbn; [done|]. by rewrite IH. Qed.

Lemma numbered_range i names : 0 < i -> i + Z.of_nat (length names) < 2 ^ 16 -> Forall (fun e => 0 < snd e < 2 ^ 16) (numbered i names).
Proof using.
  clear. revert i. induction names as [|n l IH]; intros i Hi Hl; cbn [numbered length] in *; [done|]. constructor; [cbn; lia|]. apply IH; lia.
Qed.

Lemma root_numbers names : Z.of_nat (length names) < 2 ^ 15 -> Forall (fun e => 0 < snd e < 2 ^ 16) (root_list names).
Proof using. clear. intros Hn. unfold root_list. constructor; [cbn; lia|]. constructor; [cbn; lia|]. apply numbered_range; lia. Qed.

(** [balloc] puts the free map in place. *)
Lemma balloc_image s : image s (ino s) -> exists s', balloc h (freeblock s) s = Ok tt s' /\ forall b, raw s' b = vg s b.
Proof using Hw.
  intros Hi. pose proof Hi as [I1 I2 I3 I4 I5 W]. exists (put_block s 46 (free_map (freeblock s))). split.
  - unfold balloc, assert. rewrite (proj2 (Z.ltb_lt _ _)) by (unfold BPB, BSIZE, FSSIZE in *; lia). unfold bind at 1, ret at 1. unfold bind at 1, get. rewrite I1.
    change (sb_bmapstart mkfs_sb) with 46. apply (wsect_ok h Hw); [done|unfold FSSIZE; lia].
  - intros b. rewrite raw_put by (rewrite I2; done). done.
Qed.

(** The image is made when the files, the root directory and the map are there. *)
Lemma image_complete s l z g : holds s l -> NoDup (map dname ([46] :: [46; 46] :: map fst l)) -> 2 + Z.of_nat (length l) <= NINODES ->
  (exists s', iappended 1 (replicate (16 * z) 0) s s' /\ forall b, g b = vg s' b) -> mkfs_image g l.
Proof using.
  clear. intros [B Hfi Hroot Hrm Hfiles Hfb] Hnd Hn (s' & [A1 A2 A3 A4 A5 A6 A7] & Hg). assert (Hi1 : 0 <= 1 < NINODES) by done. pose proof A1 as [Him _ _ Hsup Hlog _].
  assert (Hino : forall i, 0 <= i < NINODES -> inode_at g mkfs_sb i = ino s' i) by (intros i Hi; unfold ino, inode_at; pose proof (IBLOCK_mkfs i Hi); by rewrite Hg, vg_high by lia).
  assert (Hc : forall i, 0 <= i < NINODES -> contents g (inode_at g mkfs_sb i) = content s' i).
  { intros i Hi. rewrite Hino by done. apply map_ext. intros o. apply file_byte_eq; [apply slot_addr_ext; intros _; apply Hg|]. intros _. apply Hg. }
  assert (Hl : forall k n d, l !! k = Some (n, d) -> 0 <= 2 + Z.of_nat k < NINODES /\ 2 + Z.of_nat k <> 1) by (intros k n d Hk%lookup_lt_Some; lia).
  split; unfold ROOTINO.
  - intros b. rewrite Hg. unfold vg. destruct (b =? 46); [|by apply (raw_block s' (ino s'))]. apply (free_map_spec _ 0); [pose proof (im_fb _ _ Him); lia|done].
  - rewrite Hg, vg_high, Hsup by done. by vm_compute.
  - intros b Hb. change (sb_nlog mkfs_sb) with 31 in Hb. rewrite Hg, vg_high by lia. apply Hlog. lia.
  - pose proof (im_wf _ _ (image_cong s' (ino s') (inode_at g mkfs_sb) Hino Him)) as W.
    apply (wf_blocks mkfs_sb ltac:(by rewrite mkfs_end) (vg s')); [done|intros; apply slot_addr_ext; intros _; apply Hg|intros; by apply used_ext].
  - rewrite Hino by done. rewrite (proj1 A7), (proj2 A7), A6, length_replicate, content_size, Hroot, length_entries by done. split_and!; [apply Hrm|apply Hrm|dlia].
  - intros name. rewrite Hc, A5, Hroot by done. rewrite dir_lookup_zeros by (rewrite length_entries; dlia). apply dir_lookup_entries; [by rewrite root_names|].
    apply root_numbers. rewrite length_map. unfold NINODES in *. lia.
  - intros k n d Hk. destruct (Hl k n d Hk) as [Hr Hne]. rewrite Hc, Hino by done. destruct (A4 _ Hr Hne) as [-> ->]. by apply (Hfiles k n d).
  - intros i Hi. rewrite Hino by lia. apply (bt_unused _ A1). lia.
Qed.
End run.

Lemma main_ok h image args files : (forall o, h_write h o = true) -> h_create h image = true ->
  Forall2 (fun arg f => good_arg h arg (fst f) (snd f)) args files -> NoDup (map dname ([46] :: [46; 46] :: map fst files)) ->
  2 + Z.of_nat (length files) <= NINODES -> 47 + cost files <= FSSIZE -> (2 + Z.of_nat (length files)) mod 64 <> 0 ->
  exists s, main h (image :: args) mkst0 = Ok tt s /\ mkfs_image (raw s) files.
Proof.
  intros Hw Hc HF Hnd Hn Hcost Hmod. destruct (root_ok h Hw) as (s0 & s1 & s2 & E0 & E1 & E2 & Hh). destruct (add_files_ok h Hw args files s2 [] Hh HF Hn Hcost) as (s3 & E3 & Hh3).
  cbn [app] in Hh3. pose proof Hh3 as [B Hfi Hroot Hrm Hfiles Hfb]. assert (Hi1 : 0 <= 1 < NINODES) by done.
  assert (Hs : di_size (ino s3 1) = 16 * (2 + Z.of_nat (length files))) by (rewrite content_size, Hroot, length_entries, length_root_list, length_map by done; lia).
  destruct (fix_root_ok h Hw s3 B) as (s4 & E4 & A); [lia|rewrite Hs; unfold BSIZE; dlia|rewrite Hs; change (MAXFILE * BSIZE) with 274432; unfold NINODES in *; lia|].
  destruct (balloc_image h Hw s4 (bt_image _ (ia_built _ _ _ _ A))) as (s5 & E5 & Hg). exists s5. split.
  - unfold main, assert. change (BSIZE mod sizeof_dinode =? 0) with true. change (BSIZE mod sizeof_dirent =? 0) with true. unfold bind at 1, ret at 1. unfold bind at 1, ret at 1.
    rewrite Hc. cbn [negb]. unfold bind at 1, modify. pose proof (start_run h Hw (set_freeblock (set_m_sb mkst0 mkfs_sb) nmeta) eq_refl) as E. fold start in E.
    apply bind_inv in E as ([] & s' & F1 & F2). step_with F1. step_with F2.
    change (set_fsimg _ _) with start. step_with E0. change (1 =? ROOTINO) with true. unfold bind at 1, ret at 1.
    step_with E1. step_with E2. step_with E3. step_with E4. exact E5.
  - apply (image_complete s3 files (Z.to_nat ((BSIZE - di_size (ino s3 1) mod BSIZE) / 16)) (raw s5) Hh3 Hnd Hn). exists s4. split; [|done].
    replace (16 * Z.to_nat _)%nat with (Z.to_nat (BSIZE - di_size (ino s3 1) mod BSIZE)); [done|]. rewrite Hs. unfold BSIZE. dlia.
Qed.

(** C22. mkfs makes a file system. For files with names that differ, fit into
    an entry and are not "." or "..", and with sizes for which the disk has
    room, a run of mkfs succeeds, and on the image the superblock is the one
    the kernel expects, the log is empty, the free map, inodes and blocks are
    consistent, the root directory lists ".", ".." and exactly the given
    names, the file listed under each name has the bytes that were read from
    the host file, and no other inode is in use. The number of entries of the root directory must not
    be a multiple of 64. *)
Theorem mkfs_makes_file_system h image args files : (forall o, h_write h o = true) -> h_create h image = true ->
  Forall2 (fun arg f => good_arg h arg (fst f) (snd f)) args files -> NoDup (map dname ([46] :: [46; 46] :: map fst files)) ->
  2 + Z.of_nat (length files) <= NINODES -> 47 + cost files <= FSSIZE -> (2 + Z.of_nat (length files)) mod 64 <> 0 ->
  exists s, main h (image :: args) mkst0 = Ok tt s /\ mkfs_image (raw s) files.
Proof. apply main_ok. Qed.

(** ** A run *)

(** Two files, one under user/ with a leading underscore and read in two
    pieces, and one that is empty. *)
Definition demo_host : host := mk_host (fun _ => true) (fun _ => true)
  (fun arg => if bool_decide (arg = [98]) then Some [] else Some [[104; 105]; [33]]).
Definition demo_args : list (list Z) := [user_dir ++ [95; 97]; [98]].
Definition demo_files : list (list Z * list Z) := [([97], [104; 105; 33]); ([98], [])].

Lemma demo_args_good : Forall2 (fun arg f => good_arg demo_host arg (fst f) (snd f)) demo_args demo_files.
Proof.
  constructor; [|constructor; [|constructor]]; split; try (by vm_compute); try (by repeat constructor); cbn [fst snd].
  - cbv [skip_user demo_args]. rewrite bool_decide_true by done. apply not_elem_of_cons. split; [done|]. apply not_elem_of_cons. split; [done|apply not_elem_of_nil].
  - exists [[104; 105]; [33]]. split; [by vm_compute|done].
  - apply not_elem_of_cons. split; [done|apply not_elem_of_nil].
  - exists []. split; [by vm_compute|done].
Qed.

Lemma demo_names : NoDup (map dname ([46] :: [46; 46] :: map fst demo_files)).
Proof. apply (bool_decide_unpack _). by vm_compute. Qed.

Lemma mkfs_makes_file_system_witness : exists s, main demo_host ([102] :: demo_args) mkst0 = Ok tt s /\
  contents (raw s) (inode_at (raw s) mkfs_sb 2) = [104; 105; 33] /\ dir_lookup (contents (raw s) (inode_at (raw s) mkfs_sb 1)) [98] = Some 3.
Proof.
  destruct (mkfs_makes_file_system demo_host [102] demo_args demo_files ltac:(done) eq_refl demo_args_good demo_names) as (s & E & I);
    [by vm_compute|by vm_compute|by vm_compute|]. exists s. split; [exact E|]. split.
  - exact (proj1 (md_files _ _ I 0 [97] [104; 105; 33] eq_refl)).
  - change 1 with ROOTINO. rewrite (md_names _ _ I). by vm_compute.
Defined.

(** With 62 files the root directory has 64 entries, which fill its block, and
    is given a size of two blocks; the second does not exist. *)
Definition full_host : host := mk_host (fun _ => true) (fun _ => true) (fun _ => Some []).
Definition full_args : list (list Z) := map (fun i => [i]) (seqZ 100 62).

Lemma mkfs_root_hole_run : match main full_host ([102] :: full_args) mkst0 with
  | Ok _ s => let d := inode_at (raw s) mkfs_sb ROOTINO in (di_size d =? 2048) && (nthz (di_addrs d) 0 =? 47) && (nthz (di_addrs d) 1 =? 0)
  | _ => false
  end = true.
Proof. by vm_compute. Qed.

(** When the entries of the root directory fill whole blocks, mkfs rounds
    its size up by one block more, which is not allocated. With 62 files the
    root directory is 2048 bytes long and has one block, and the image is not a
    consistent file system. *)
Theorem mkfs_root_hole : exists s, main full_host ([102] :: full_args) mkst0 = Ok tt s /\ ~ fs_wf mkfs_sb (raw s) (inode_at (raw s) mkfs_sb).
Proof.
  pose proof mkfs_root_hole_run as R. destruct (main full_host ([102] :: full_args) mkst0) as [[] s|?|?|]; try discriminate R. exists s. split; [reflexivity|]. intros W.
  cbn zeta in R. apply andb_true_iff in R as [[Hs%Z.eqb_eq _]%andb_true_iff Ha%Z.eqb_eq].
  apply (wf_dense _ _ _ W ROOTINO 1); [by vm_compute|lia|rewrite Hs; unfold BSIZE; lia|]. by rewrite slot_addr_low.
Qed.
