(* ===== verification/MkfsBoot.v ===== *)
(** * From mkfs to a running kernel

    A kernel that starts on a disk with the image finds the files mkfs put
    there: [fsinit] leaves the image alone, [namei] resolves the name, and
    [readi] returns the bytes. *)

From stdpp Require Import base gmap list numbers strings sets.
From Stdlib Require Import ZArith Lia.
From S2P Require Import Prelude Mem Spinlock Bytes Sleeplock Disk Bio BioSpec Cache Log LogSpec LogSafe BlockIO LogIO Fs FsSpec FsAlloc FsInode ProcEnv FsOwn FsMap FsFile FsDir FsPath Mkfs MkfsSpec MkfsImage.
Open Scope Z_scope.
Open Scope kernel_scope.

(** ** The image in the blocks outside the log *)

Section agree.
Context (g g' : Z -> block) (files : list (list Z * list Z)) (Himg : mkfs_image g files) (Hg : forall b, 33 <= b < FSSIZE -> g' b = g b).

Lemma agree_inode i : 0 <= i < NINODES -> inode_at g' mkfs_sb i = inode_at g mkfs_sb i.
Proof using Hg. intros Hi. pose proof (IBLOCK_mkfs i Hi). unfold inode_at. by rewrite Hg by (unfold FSSIZE; lia). Qed.

Lemma agree_slots i k : 0 <= i < NINODES -> slot_addr g' (inode_at g mkfs_sb i) k = slot_addr g (inode_at g mkfs_sb i) k.
Proof using Himg Hg.
  intros Hi. apply slot_addr_ext. intros Hne. destruct (wf_indirect mkfs_sb _ _ i (md_wf _ _ Himg) Hi Hne) as [Hr _]. rewrite mkfs_end in Hr. apply Hg. change FSSIZE with (sb_size mkfs_sb). lia.
Qed.

Lemma agree_wf : fs_wf mkfs_sb g' (inode_at g' mkfs_sb).
Proof using Himg Hg.
  pose proof (md_wf _ _ Himg) as W. assert (Hend : 0 < bmap_end mkfs_sb) by (by rewrite mkfs_end).
  apply (wf_cong mkfs_sb Hend g (inode_at g mkfs_sb)); [done| | | |]; change (sb_ninodes mkfs_sb) with NINODES; change (sb_size mkfs_sb) with FSSIZE.
  - intros i k Hi _. rewrite agree_inode by done. by apply agree_slots.
  - intros b Hb. unfold used. assert (E : BBLOCK b mkfs_sb = 46); [|by rewrite E, Hg].
    unfold BBLOCK. rewrite mkfs_sb_eq. unfold BPB, BSIZE, FSSIZE in *. cbn [sb_bmapstart]. by rewrite Z.div_small by lia.
  - intros i Hi. rewrite agree_inode by done. split; [by apply (wf_dinode _ _ _ W)|by apply (wf_size _ _ _ W)].
  - intros i bn Hi. rewrite agree_inode by done. by apply (wf_dense _ _ _ W).
Qed.

Lemma agree_contents i : 0 <= i < NINODES -> contents g' (inode_at g' mkfs_sb i) = contents g (inode_at g mkfs_sb i).
Proof using Himg Hg.
  intros Hi. rewrite agree_inode by done. apply map_ext_in. intros o Ho%list_elem_of_In%elem_of_seqZ. pose proof (wf_size _ _ _ (md_wf _ _ Himg) i Hi) as Hs.
  apply file_byte_eq; [by apply agree_slots|]. intros Hne. destruct (wf_file_block mkfs_sb _ _ i (o / BSIZE) (md_wf _ _ Himg) Hi ltac:(apply block_index; lia) Hne) as [Hr _].
  rewrite mkfs_end in Hr. apply Hg. change FSSIZE with (sb_size mkfs_sb). lia.
Qed.

(** The inodes mkfs made are the ones with a name. *)
Definition made_inode (i : Z) : Prop := 1 <= i < 2 + Z.of_nat (length files).

Lemma listing_range l i0 names n i : listing (l ++ numbered i0 names) n = Some i -> (forall e, e ∈ l -> snd e = 1) -> i = 1 \/ i0 <= i < i0 + Z.of_nat (length names).
Proof using.
  clear. unfold listing. intros E Hl. destruct (List.find _ _) as [e|] eqn:Ef; [|done]. injection E as <-. apply find_some in Ef as [Hin%list_elem_of_In _].
  apply elem_of_app in Hin as [Hin|Hin]; [left; by apply Hl|right]. clear Hl. revert i0 Hin. induction names as [|m names IH]; intros i0 Hin; cbn [numbered length] in *; [by apply not_elem_of_nil in Hin|].
  apply elem_of_cons in Hin as [->|Hin]; [cbn; lia|]. apply IH in Hin. lia.
Qed.

Lemma agree_tree : 2 + Z.of_nat (length files) <= NINODES -> tree mkfs_sb g' made_inode.
Proof using Himg Hg.
  intros Hn. pose proof Himg as [_ _ _ W Hroot Hnames Hfiles _]. unfold ROOTINO in *.
  assert (Hcase : forall i, made_inode i -> 0 <= i < NINODES /\ (i = 1 \/ exists k n d, i = 2 + Z.of_nat k /\ files !! k = Some (n, d))).
  { intros i [H1 H2]. split; [lia|]. destruct (decide (i = 1)) as [|Hne]; [by left|right]. destruct (lookup_lt_is_Some_2 files (Z.to_nat (i - 2))) as [[n d] E]; [lia|].
    exists (Z.to_nat (i - 2)), n, d. split; [lia|done]. }
  split.
  - intros i Hi. destruct (Hcase i Hi) as (Hr & [->|(k & n & d & -> & Hk)]); rewrite agree_inode by done; change (sb_ninodes mkfs_sb) with NINODES.
    + destruct Hroot as (-> & -> & _). done.
    + destruct (Hfiles k n d Hk) as (_ & -> & ->). done.
  - intros i Hi. destruct (Hcase i Hi) as (Hr & [->|(k & n & d & -> & Hk)]); rewrite agree_inode by done; [intros _; apply Hroot|]. by destruct (Hfiles k n d Hk) as (_ & -> & _).
  - intros i n i' Hi. destruct (Hcase i Hi) as (Hr & [->|(k & m & d & -> & Hk)]).
    + intros _. rewrite agree_contents, Hnames by done. intros E. change (root_list (map fst files)) with ([([46], 1); ([46; 46], 1)] ++ numbered 2 (map fst files)) in E.
      apply listing_range in E; [|intros e [->|[->|[]%not_elem_of_nil]%elem_of_cons]%elem_of_cons; done]. rewrite length_map in E. unfold made_inode. lia.
    + rewrite agree_inode by done. by destruct (Hfiles k m d Hk) as (_ & -> & _).
Qed.
End agree.

(** ** The kernel starts on the image *)

(** A name that can be looked up by a path of one element. *)
Record path_name (n : list Z) : Prop := { pn_some : n <> []; pn_slash : SLASH ∉ n; pn_len : Z.of_nat (length n) <= DIRSIZ }.

Lemma one_element n : path_name n -> map (take (Z.to_nat DIRSIZ)) (elements (SLASH :: n)) = [n].
Proof.
  intros [H1 H2 H3]. assert (E : split_path n = [n]).
  { clear H1 H3. induction n as [|c n IH]; cbn [split_path]; [done|]. apply not_elem_of_cons in H2 as [Hc Hn]. destruct (Z.eqb_spec c SLASH); [congruence|]. by rewrite (IH Hn). }
  unfold elements. cbn [split_path]. rewrite Z.eqb_refl, E. rewrite filter_cons_False by naive_solver. rewrite filter_cons_True by done. rewrite filter_nil. cbn [map]. f_equal. apply take_ge. lia.
Qed.

Lemma listing_file (names : list (list Z)) k n : NoDup (map dname ([46] :: [46; 46] :: names)) -> names !! k = Some n -> listing (root_list names) n = Some (2 + Z.of_nat k).
Proof.
  intros Hnd Hk. change (map dname ([46] :: [46; 46] :: names)) with (dname [46] :: dname [46; 46] :: map dname names) in Hnd.
  apply NoDup_cons in Hnd as [Hd1 Hnd]. apply NoDup_cons in Hnd as [Hd2 Hnd]. assert (Hin : dname n ∈ map dname names) by (apply list_elem_of_fmap; exists n; split; [done|by eapply list_elem_of_lookup_2]).
  unfold root_list, listing. cbn [List.find fst]. rewrite bool_decide_false by (intros E; apply Hd1; right; by rewrite <- E). rewrite bool_decide_false by (intros E; apply Hd2; by rewrite <- E).
  clear Hd1 Hd2 Hin. generalize 2 as i0. revert k Hk. induction names as [|m names IH]; intros k Hk i0; [done|]. cbn [map] in Hnd. apply NoDup_cons in Hnd as [Hm Hnd]. cbn [numbered List.find fst].
  destruct k as [|k]; cbn in Hk.
  - injection Hk as ->. rewrite bool_decide_true by done. cbn. f_equal. lia.
  - rewrite bool_decide_false; [rewrite (IH Hnd k Hk (i0 + 1)); f_equal; lia|]. intros E. apply Hm. rewrite <- E. apply list_elem_of_fmap. exists n. split; [done|by eapply list_elem_of_lookup_2].
Qed.

Section boot.
Context {D U : Type} {drv : DiskDriver D} {dspec : DiskSpec D} {env : ProcEnv U} {penv : ProcSpec U}.
Context (pid : Z) (big : FSSIZE <= dsize) (small : dsize <= 2 ^ 31).

Lemma log_fits : 2 + LOGBLOCKS < dsize.
Proof using big. unfold LOGBLOCKS, MAXOPBLOCKS, FSSIZE in *. lia. Qed.

#[local] Instance boot_io : BlockIO (logst D) nat := log_io pid.
#[local] Instance boot_spec : BlockSpec (logst D) nat := log_io_spec pid 1 2 ltac:(lia) ltac:(lia) log_fits small.

Lemma boot_layout : inodes_ok mkfs_sb.
Proof using.
  intros i Hi. change (sb_ninodes mkfs_sb) with 200 in Hi. change (sb_inodestart mkfs_sb) with 33. change IPB with 16. cbn [io_nblocks boot_spec log_io_spec io_home].
  assert (0 <= i / 16 <= 12) by dlia. unfold FSSIZE, in_log, LOGBLOCKS, MAXOPBLOCKS in *. split_and!; lia.
Qed.

Lemma boot_on_disk : sb_size mkfs_sb <= io_nblocks.
Proof using. exact big. Qed.

(** The file system state of a kernel that has started: an empty inode table. *)
Definition boot_fs (x : logst D) (u : U) : fsst (logst D) U := mk_fs x u false (replicate NINODE inode0) mkfs_sb.

(** What [main] and the first process do to the file system before it is used,
    from memory that is still zero. *)
Definition start_fs : M (fsst (logst D) U) unit := blk (cache binit) ;;; iinit ;;; fsinit pid ROOTDEV.
Definition cold (d : D) (u : U) : fsst (logst D) U :=
  mk_fs (mk_log false 0 0 false 0 0 (replicate (Z.to_nat LOGBLOCKS) 0) (mk_bio false (replicate (S NBUF) buf0) d [])) u false (replicate NINODE inode0) (mk_sb 0 0 0 0 0 0 0 0).

Lemma geti_boot x u j : (j < NINODE)%nat -> geti (boot_fs x u) j = inode0.
Proof using. intros Hj. unfold geti, boot_fs. cbn [it_inode]. by rewrite lookup_replicate_2. Qed.

Lemma empty_log d : dok d -> dblock d 2 = zeroes -> stable 2 (dblock d) d.
Proof using.
  clear. intros Hd Hz. assert (Hh : lh_read_n zeroes = 0 /\ header_blocks zeroes = []) by (by vm_compute). destruct Hh as [Hn Hb].
  split; rewrite ?Hz, ?Hn, ?Hb; [done|by vm_compute| |].
  - split; [by apply NoDup_nil|by vm_compute|]. intros b Hin. by apply not_elem_of_nil in Hin.
  - intros k _. unfold recovered. by rewrite Hz, Hb.
Qed.

(** Reading one block and releasing it. *)
Lemma read_block x b : cst pid 1 x ∅ ∅ -> 0 <= b < dsize -> exists i x1 x2, bread pid 1 b x = Ok i x1 /\ b_data (getb x1 i) = dblock (bdisk x) b /\
  brelse pid i x1 = Ok tt x2 /\ cst pid 1 x2 ∅ ∅ /\ forall k, dblock (bdisk x2) k = dblock (bdisk x) k.
Proof using.
  clear. intros Hc Hb. assert (Hdev : 1 <> 0) by lia. destruct (bread_cst pid 1 Hdev x ∅ ∅ b Hc Hb) as (i & x1 & R1 & S1 & C1 & [D1 _] & A1 & _);
    [apply not_elem_of_empty|right; rewrite union_empty_r_L, size_empty; vm_compute; lia|].
  pose proof (cv_at pid 1 Hdev x1 ∅ _ b i S1 ltac:(uni) A1) as Ed. rewrite C1 in Ed. rewrite (cv_clean pid 1 Hdev x ∅ ∅) in Ed by (done || uni).
  destruct (brelse_cst pid 1 Hdev x1 ∅ _ b i S1 ltac:(uni) A1) as (x2 & R2 & S2 & _ & [D2 _] & _); [right; rewrite C1, D1; apply (cv_clean pid 1 Hdev x ∅ ∅); [done|uni]|].
  exists i, x1, x2. split_and!; [done|done|done| |intros k; by rewrite D2, D1]. replace (_ ∖ _) with (∅ : gset Z) in S2 by set_solver. done.
Qed.

Lemma iinit_boot x u sb : iinit (mk_fs (S := logst D) (U := U) x u false (replicate NINODE inode0) sb) = Ok tt (mk_fs x u false (replicate NINODE inode0) sb).
Proof using. clear. vm_compute. reflexivity. Qed.

(** The same for the file system, which has not started yet. *)
Definition raw_fs (lg : logst D) (u : U) (sb : superblock) : fsst (logst D) U := mk_fs lg u false (replicate NINODE inode0) sb.
Lemma fs_read_block lg u sb b : cst pid 1 (lbio lg) ∅ ∅ -> 0 <= b < dsize -> exists i x1 x2, blk (io_bread ROOTDEV b) (raw_fs lg u sb) = Ok i (raw_fs (set_lbio lg x1) u sb) /\
  (forall sb', blk (io_data i) (raw_fs (set_lbio lg x1) u sb') = Ok (dblock (bdisk (lbio lg)) b) (raw_fs (set_lbio lg x1) u sb')) /\
  (forall sb', blk (io_brelse i) (raw_fs (set_lbio lg x1) u sb') = Ok tt (raw_fs (set_lbio lg x2) u sb')) /\
  cst pid 1 x2 ∅ ∅ /\ forall k, dblock (bdisk x2) k = dblock (bdisk (lbio lg)) k.
Proof using.
  intros Hc Hb. destruct (read_block (lbio lg) b Hc Hb) as (i & x1 & x2 & R1 & Ed & R2 & Hc2 & D2). exists i, x1, x2. split_and!; [| | |done|done].
  - exact (blk_ok (io_bread ROOTDEV b) (raw_fs lg u sb) _ _ (cache_ok _ lg _ _ R1)).
  - intros sb'. rewrite <- Ed. reflexivity.
  - intros sb'. exact (blk_ok (io_brelse i) (raw_fs (set_lbio lg x1) u sb') _ _ (cache_ok _ (set_lbio lg x1) _ _ R2)).
Qed.

Lemma readsb_run lg u sb : cst pid 1 (lbio lg) ∅ ∅ -> exists x, readsb ROOTDEV (raw_fs lg u sb) = Ok tt (raw_fs (set_lbio lg x) u (decode_sb (dblock (bdisk (lbio lg)) 1))) /\
  cst pid 1 x ∅ ∅ /\ forall k, dblock (bdisk x) k = dblock (bdisk (lbio lg)) k.
Proof using big.
  intros Hc. destruct (fs_read_block lg u sb 1 Hc) as (i & x1 & x2 & R1 & Rd & R2 & Hc2 & D2); [unfold FSSIZE in *; lia|]. exists x2. split_and!; [|done|done].
  unfold readsb. step_with R1. step_with (Rd sb). unfold bind at 1, modify. apply R2.
Qed.

(** No inode of the image is in use without a name: [ireclaim] only reads. *)
Lemma ireclaim_run lg u : cst pid 1 (lbio lg) ∅ ∅ ->
  (forall i, 1 <= i < NINODES -> let dip := inode_at (dblock (bdisk (lbio lg))) mkfs_sb i in di_type dip = 0 \/ di_nlink dip <> 0) ->
  exists x, ireclaim pid ROOTDEV (boot_fs lg u) = Ok tt (boot_fs (set_lbio lg x) u) /\ cst pid 1 x ∅ ∅ /\ forall k, dblock (bdisk x) k = dblock (bdisk (lbio lg)) k.
Proof using big.
  intros Hc Hno. unfold ireclaim, bind at 1, get. cbn [fs_sb boot_fs]. change (sb_ninodes mkfs_sb - 1) with (NINODES - 1).
  assert (Hl : Forall (fun i => 1 <= i < NINODES) (seqZ 1 (NINODES - 1))) by (apply Forall_forall; intros i Hi%elem_of_seqZ; lia). revert lg Hc Hno.
  induction Hl as [|i l Hi _ IH]; intros lg Hc Hno; [exists (lbio lg); split_and!; [by destruct lg|done|done]|].
  assert (Hr : 0 <= i < NINODES) by lia. pose proof (IBLOCK_mkfs i Hr). destruct (fs_read_block lg u mkfs_sb (IBLOCK i mkfs_sb) Hc) as (h & x1 & x2 & R1 & Rd & R2 & Hc2 & D2); [unfold FSSIZE in *; lia|].
  destruct (IH (set_lbio lg x2) Hc2) as (x3 & E3 & Hc3 & D3); [intros j Hj; cbn [lbio set_lbio]; unfold inode_at; rewrite D2; by apply Hno|]. exists x3. split_and!; [|done|intros k; rewrite D3; apply D2].
  cbn [for_all]. unfold bind at 1. step_with R1. step_with (Rd mkfs_sb). pose proof (Hno i Hi) as Hd. cbn zeta in Hd. fold (inode_at (dblock (bdisk (lbio lg))) mkfs_sb i).
  replace (negb (di_type _ =? 0) && (di_nlink _ =? 0)) with false; [|destruct Hd as [->|Hd%Z.eqb_neq]; [done|by rewrite Hd, andb_false_r]].
  unfold bind at 1, ret at 1. step_with (R2 mkfs_sb). unfold ret at 1. exact E3.
Qed.

Section image.
Context (g : Z -> block) (files : list (list Z * list Z)) (Himg : mkfs_image g files) (Hn : 2 + Z.of_nat (length files) <= NINODES).
Context (d : D) (Hd : dok d) (Hdisk : forall b, 0 <= b < FSSIZE -> dblock d b = g b).

Lemma no_orphans d' i : (forall b, 33 <= b < FSSIZE -> d' b = g b) -> 1 <= i < NINODES -> let dip := inode_at d' mkfs_sb i in di_type dip = 0 \/ di_nlink dip <> 0.
Proof using Himg.
  intros Hg Hi. cbn zeta. rewrite (agree_inode g d' Hg i) by lia. destruct (decide (i = 1)) as [->|Hne]; [right; pose proof (md_root _ _ Himg) as (_ & Hr & _); unfold ROOTINO in Hr; by rewrite Hr|].
  destruct (decide (i < 2 + Z.of_nat (length files))) as [Hlt|Hge]; [|left; by rewrite (md_free _ _ Himg i) by lia].
  destruct (lookup_lt_is_Some_2 files (Z.to_nat (i - 2))) as [[n data] E]; [lia|]. destruct (md_files _ _ Himg _ _ _ E) as (_ & _ & Hl). replace (2 + Z.of_nat (Z.to_nat (i - 2))) with i in Hl by lia. right. by rewrite Hl.
Qed.

(** The kernel starts, and no block outside the log changes. *)
Lemma boot_run u : exists lg, start_fs (cold d u) = Ok tt (boot_fs lg u) /\ settled pid 1 2 lg (dblock d) /\ lg_outstanding lg = 0 /\ lg_committing lg = false.
Proof using Himg Hd Hdisk big small.
  assert (Hz : dblock d 2 = zeroes) by (rewrite Hdisk by (unfold FSSIZE; lia); by apply (md_log _ _ Himg)). pose proof (empty_log d Hd Hz) as Hst.
  destruct (binit_cst pid 1 d [] Hd) as (x0 & R0 & C0 & D0 & _). set (lg0 := mk_log false 0 0 false 0 0 (replicate (Z.to_nat LOGBLOCKS) 0) x0).
  destruct (readsb_run lg0 u (mk_sb 0 0 0 0 0 0 0 0) C0) as (x1 & R1 & C1 & D1). change (lbio lg0) with x0 in D1, R1. rewrite D0 in D1, R1. rewrite (Hdisk 1), (md_super _ _ Himg) in R1 by (unfold FSSIZE; lia).
  destruct (initlog_run pid 1 2 ltac:(lia) ltac:(lia) log_fits small (set_lbio lg0 x1) (dblock d)) as (lg & hs & R2 & Hs & _ & _ & O2 & M2); [split; [done|apply length_replicate|done]| |].
  { cbn [lbio set_lbio]. apply (stable_same 2 (dblock d) d); [done|by apply (cst_dok _ _ _ _ _ C1)|intros; by rewrite D1|intros; by rewrite D1]. }
  destruct (ireclaim_run lg u (se_cst _ _ _ _ _ Hs)) as (x3 & R3 & C3 & D3).
  { intros i Hi. apply no_orphans; [|done]. intros b Hb. rewrite (se_disk _ _ _ _ _ Hs) by (unfold in_log, LOGBLOCKS, MAXOPBLOCKS; lia). apply Hdisk. lia. }
  exists (set_lbio lg x3). split_and!; [|destruct Hs as [S1 S2 S3 S4]; split; [by apply lst_lbio|done|cbn [lbio set_lbio]; by rewrite D3|intros k Hk; cbn [lbio set_lbio]; rewrite D3; by apply S4]|exact O2|exact M2].
  unfold start_fs. step_with (blk_ok (cache binit) (cold d u) _ _ (cache_ok _ (fs_io (cold d u)) _ _ R0)). step_with (iinit_boot lg0 u (mk_sb 0 0 0 0 0 0 0 0)). unfold fsinit. step_with R1.
  unfold bind at 1, get. cbn [fs_sb raw_fs]. change (negb (sb_magic mkfs_sb =? FSMAGIC)) with false. cbn iota. change (sb_logstart mkfs_sb) with 2.
  step_with (blk_ok (io_initlog ROOTDEV 2) (raw_fs (set_lbio lg0 x1) u mkfs_sb) _ _ R2). exact R3.
Qed.

(** In a transaction, the file system is the one on the image. *)
Lemma boot_trans lg u : settled pid 1 2 lg (dblock d) -> lg_outstanding lg = 0 -> lg_committing lg = false ->
  let s := boot_fs (set_outstanding lg 1) u in
  blk io_begin_op (boot_fs lg u) = Ok tt s /\ icache pid mkfs_sb s ∅ None /\ (forall b, 33 <= b < FSSIZE -> G s b = g b) /\ (size (live s) + 2 <= NINODE)%nat.
Proof using Himg Hdisk big.
  intros Hs Ho Hc s. assert (Hg : forall b, 33 <= b < FSSIZE -> G s b = g b).
  { intros b Hb. rewrite <- Hdisk by lia. apply (settled_cv pid 1 2 ltac:(lia) lg _ b Hs). unfold in_log, LOGBLOCKS, MAXOPBLOCKS. lia. }
  assert (Hr : forall j, (j < NINODE)%nat -> i_ref (geti s j) = 0) by (intros j Hj; unfold s; by rewrite geti_boot).
  split_and!; [|split|done|].
  - apply (blk_ok io_begin_op (boot_fs lg u)). cbn [boot_fs fs_io]. change (io_begin_op lg) with (begin_op lg). rewrite (begin_op_run 1 2 lg []); [by rewrite Ho|apply Hs|done|].
    rewrite Ho. by vm_compute.
  - done.
  - apply (ready_in_trans pid 1 2 (set_outstanding lg 1) []); [|cbn; lia]. apply ready_outstanding. by apply (settled_ready pid 1 2 lg (dblock d)).
  - done.
  - apply length_replicate.
  - by apply (agree_wf g (G s) files).
  - intros j Hj. rewrite Hr by done. lia.
  - intros j Hj. unfold s. rewrite geti_boot by done. done.
  - intros j Hj. rewrite Hr by done. lia.
  - intros j k i (Hj & Hp & _). rewrite Hr in Hp by done. lia.
  - done.
  - assert (E : live s = ∅); [|rewrite E, size_empty; unfold NINODE; lia]. apply elem_of_equiv_empty_L. intros i (j & Hj & Hp & _)%elem_of_live%refs_pos. rewrite Hr in Hp by done. lia.
Qed.

(** In a transaction: open the file of a path and read [n] bytes of it. *)
Definition open_and_read (path : list Z) (n : Z) : M (fsst (logst D) U) (Z * list Z) :=
  blk io_begin_op ;;;
  r <- namei pid 0 path ;;
  match r with
  | Some ip => ilock pid ip ;;; readi ip (Kernel []) 0 n
  | None => ret (-1, [])
  end.

Lemma boot_finds s k n data : icache pid mkfs_sb s ∅ None -> (forall b, 33 <= b < FSSIZE -> G s b = g b) -> (size (live s) + 2 <= NINODE)%nat ->
  NoDup (map dname ([46] :: [46; 46] :: map fst files)) -> files !! k = Some (n, data) -> path_name n ->
  exists ip s', namei pid 0 (SLASH :: n) s = Ok (Some ip) s' /\ icache pid mkfs_sb s' ∅ None /\ refers s' ip (2 + Z.of_nat k) /\ forall b, G s' b = G s b.
Proof using Himg Hn big penv.
  intros Hc Hg Hl Hnd Hk Hp. assert (Hend : 0 < bmap_end mkfs_sb) by (by rewrite mkfs_end).
  pose proof (agree_tree g (G s) files Himg Hg Hn) as Ht. assert (Hroot : made_inode files ROOTINO) by (unfold made_inode, ROOTINO; lia).
  destruct (namei_ok pid mkfs_sb Hend boot_on_disk boot_layout (made_inode files) s ∅ 0 0 (SLASH :: n) eq_refl Hc ltac:(by left) Ht Hroot) as (r & s' & E & Hc' & Hr);
    [rewrite size_empty; vm_compute; lia|done|]. rewrite (one_element n Hp) in Hr. cbn [path_start resolve] in Hr. rewrite Z.eqb_refl in Hr. unfold ROOTINO in Hr.
  assert (H1 : 0 <= 1 < NINODES) by done. rewrite (agree_inode g (G s) Hg 1 H1) in Hr. pose proof (md_root _ _ Himg) as (Htype & _). unfold ROOTINO in Htype. rewrite Htype, Z.eqb_refl in Hr.
  rewrite <- (agree_inode g (G s) Hg 1 H1), (agree_contents g (G s) files Himg Hg 1 H1) in Hr. pose proof (md_names _ _ Himg n) as Hname. unfold ROOTINO in Hname. rewrite Hname in Hr.
  rewrite (listing_file (map fst files) k n Hnd) in Hr by (rewrite list_lookup_fmap, Hk; done). destruct Hr as (ip & -> & Hri & Hkept). exists ip, s'. split_and!; [done|done|done|apply (kp_disk _ _ _ Hkept)].
Qed.

(** C23. A kernel reads what mkfs wrote. On any device that holds the image mkfs
    made, the kernel starts ([binit], [iinit] and [fsinit]: it reads the
    superblock, recovers from the log and looks for orphaned inodes) and changes
    no block outside the log, and for every file that was given to mkfs, looking
    up its name in the root directory, locking the inode and reading as many
    bytes as the file had returns exactly the bytes mkfs read from the host. *)
Theorem kernel_reads_mkfs_image (u : U) : NoDup (map dname ([46] :: [46; 46] :: map fst files)) -> Forall (fun f => path_name (fst f)) files ->
  exists s, start_fs (cold d u) = Ok tt s /\ (forall b, ~ in_log 2 b -> dblock (bdisk (lbio (fs_io s))) b = dblock d b) /\ forall k n data, files !! k = Some (n, data) ->
    exists s', open_and_read (SLASH :: n) (Z.of_nat (length data)) s = Ok (Z.of_nat (length data), data) s'.
Proof using Himg Hn Hd Hdisk big small penv.
  intros Hnd Hpn. destruct (boot_run u) as (lg & E & Hs & Ho & Hcm). exists (boot_fs lg u). split; [exact E|]. split; [exact (se_disk _ _ _ _ _ Hs)|]. intros k n data Hk. destruct (boot_trans lg u Hs Ho Hcm) as (E0 & Hc & Hg & Hl).
  set (s := boot_fs (set_outstanding lg 1) u) in *. assert (Hend : 0 < bmap_end mkfs_sb) by (by rewrite mkfs_end).
  destruct (boot_finds s k n data Hc Hg Hl Hnd Hk (Forall_lookup_1 _ _ _ _ Hpn Hk)) as (ip & s1 & E1 & Hc1 & Hr1 & Hg1). set (i := 2 + Z.of_nat k) in *.
  assert (Hg1' : forall b, 33 <= b < FSSIZE -> G s1 b = g b) by (intros b Hb; rewrite Hg1; by apply Hg). pose proof (lookup_lt_Some _ _ _ Hk) as Hlt. assert (Hi : 0 <= i < NINODES) by lia.
  destruct (md_files _ _ Himg k n data Hk) as (Hcont & Htype & _). fold i in Hcont, Htype.
  assert (H0 : (size (∅ : gset Z) < NBUF)%nat) by (rewrite size_empty; vm_compute; lia).
  destruct (ilock_cached pid mkfs_sb Hend s1 ∅ ip i boot_layout Hc1 Hr1 H0) as (s2 & E2 & Hc2 & Hk2 & Hr2 & _); [unfold disk; rewrite (agree_inode g (G s1) Hg1' i Hi), Htype; done|].
  destruct (locked_here pid mkfs_sb Hend s2 ∅ ip i Hc2 Hr2) as [Hh Ed]. assert (Hg2 : forall b, 33 <= b < FSSIZE -> G s2 b = g b) by (intros b Hb; rewrite (kp_disk _ _ _ Hk2); by apply Hg1').
  pose proof (agree_contents g (G s2) files Himg Hg2 i Hi) as Hcn. rewrite Hcont in Hcn. fold (disk mkfs_sb s2 i) in Hcn. rewrite <- Ed in Hcn.
  pose proof (wf_size _ _ _ (ic_wf _ _ _ _ _ Hc2) i Hi) as Hmax. pose proof (dk_size _ (wf_dinode _ _ _ (ic_wf _ _ _ _ _ Hc2) i Hi)) as Hpos. rewrite <- Ed in Hmax, Hpos.
  assert (Hlen : di_size (din ip s2) = Z.of_nat (length data)) by (rewrite <- Hcn, length_contents; lia). assert (HM : MAXFILE * BSIZE < 2 ^ 32) by (by vm_compute).
  destruct (readi_ok mkfs_sb ip (disk mkfs_sb s2) Hend boot_on_disk s2 ∅ (Kernel []) 0 (Z.of_nat (length data)) Hh H0 ltac:(lia) ltac:(lia) I) as (ok & bs & x & u' & E3 & _ & _ & [_ ->] & Hbs).
  eexists. unfold open_and_read. step_with E0. step_with E1. step_with E2. rewrite E3, (Hbs eq_refl). unfold read_len. rewrite Hlen, (proj2 (Z.ltb_ge _ 0)), (proj2 (Z.leb_gt _ _)) by lia.
  cbn [orb]. rewrite Z.sub_0_r, Z.min_id, slice_contents, Hcn by lia. rewrite Nat2Z.id, drop_0, take_ge by lia. reflexivity.
Qed.
End image.
End boot.

(** ** On the RAM disk *)

(** A device with given blocks. *)
Lemma disk_holds {D : Type} {drv : DiskDriver D} {dspec : DiskSpec D} (d0 : D) (g : Z -> block) (n : nat) : dok d0 -> Z.of_nat n <= dsize ->
  (forall b, 0 <= b < Z.of_nat n -> is_block (g b)) -> exists d, dok d /\ forall b, 0 <= b < Z.of_nat n -> dblock d b = g b.
Proof.
  intros H0. induction n as [|n IH]; intros Hs Hg; [exists d0; split; [done|lia]|]. destruct IH as (d & Hd & Hb); [lia|intros; apply Hg; lia|].
  destruct (disk_write d (Z.of_nat n) (g (Z.of_nat n)) Hd ltac:(lia) ltac:(apply Hg; lia)) as (d' & _ & Hd' & E). exists d'. split; [done|]. intros b Hb'. rewrite E.
  destruct (decide (b = Z.of_nat n)) as [->|Hne]; [done|]. apply Hb. lia.
Qed.

Lemma ram_big : FSSIZE <= dsize (D := ramdisk_st).
Proof. by vm_compute. Qed.

Lemma demo_image : exists (g : Z -> block) (d : ramdisk_st), mkfs_image g demo_files /\ dok d /\ forall b, 0 <= b < FSSIZE -> dblock d b = g b.
Proof.
  destruct (main_ok demo_host [102] demo_args demo_files ltac:(done) eq_refl demo_args_good demo_names) as (s & E & Him); [by vm_compute|by vm_compute|by vm_compute|].
  destruct (disk_holds ramdisk_init (raw s) (Z.to_nat FSSIZE)) as (d & Hd & Hb); [exact I|exact ram_big|intros b Hb; apply (md_blocks _ _ Him)|].
  exists (raw s), d. split_and!; [exact Him|exact Hd|]. intros b Hr. apply Hb. done.
Qed.

#[local] Existing Instance flat_env.
#[local] Existing Instance flat_spec.

Lemma demo_path_names : Forall (fun f => path_name (fst f)) demo_files.
Proof.
  assert (H1 : forall c, c <> SLASH -> path_name [c]).
  { intros c Hc. split; [done| |by vm_compute]. apply not_elem_of_cons. split; [congruence|apply not_elem_of_nil]. }
  constructor; [by apply H1|]. constructor; [by apply H1|constructor].
Qed.

Lemma kernel_reads_mkfs_image_witness : exists (d : ramdisk_st) s s', start_fs 7 (cold d (mk_flat ∅ [] [])) = Ok tt s /\
  open_and_read 7 [SLASH; 97] 3 s = Ok (3, [104; 105; 33]) s'.
Proof.
  destruct demo_image as (g & d & Hi & Hd & Hb). exists d.
  destruct (kernel_reads_mkfs_image 7 ram_big ram_small g demo_files Hi ltac:(by vm_compute) d Hd Hb (mk_flat ∅ [] []) demo_names demo_path_names) as (s & E & _ & H).
  destruct (H 0%nat [97] [104; 105; 33] eq_refl) as (s' & E'). exists s, s'. exact (conj E E').
Defined.

Lemma namei_resolves_witness : exists (x : logst ramdisk_st) r s', namei (io := log_io 7) 7 0 [SLASH; 46; 46; SLASH; 98; SLASH] (boot_fs x (mk_flat ∅ [] [])) = Ok (Some r) s'.
Proof.
  destruct demo_image as (g & d & Hi & Hd & Hb). destruct (boot_run 7 ram_big ram_small g demo_files Hi d Hd Hb (mk_flat ∅ [] [])) as (lg & _ & Hs & Ho & Hc).
  destruct (boot_trans 7 ram_big ram_small g demo_files Hi d Hb lg (mk_flat ∅ [] []) Hs Ho Hc) as (_ & Hic & Hg & Hl). set (s := boot_fs (set_outstanding lg 1) (mk_flat ∅ [] [])) in *.
  set (g' := FsMap.G s) in *. assert (Hend : 0 < bmap_end mkfs_sb) by (by rewrite mkfs_end). assert (Hn : 2 + Z.of_nat (length demo_files) <= NINODES) by (by vm_compute).
  destruct (namei_resolves 7 mkfs_sb Hend (boot_on_disk 7 ram_big ram_small) (boot_layout 7 ram_big ram_small) (made_inode demo_files) s ∅ 0 0 [SLASH; 46; 46; SLASH; 98; SLASH] eq_refl Hic
    ltac:(by left) (agree_tree g g' demo_files Hi Hg Hn)) as (r & s' & E & _ & Hr).
  - by vm_compute.
  - rewrite size_empty. vm_compute. lia.
  - exact Hl.
  - fold g' in Hr. exists (set_outstanding lg 1). assert (H1 : 0 <= 1 < NINODES) by done.
    assert (Hlk : forall n, dir_lookup (contents g' (inode_at g' mkfs_sb 1)) n = listing (root_list (map fst demo_files)) n).
    { intros n. rewrite (agree_contents g g' demo_files Hi Hg 1 H1). apply (md_names _ _ Hi). }
    assert (Ht : di_type (inode_at g' mkfs_sb 1) = T_DIR) by (rewrite (agree_inode g g' Hg 1 H1); apply (md_root _ _ Hi)).
    change (map (take (Z.to_nat DIRSIZ)) (elements [SLASH; 46; 46; SLASH; 98; SLASH])) with [[46; 46]; [98]] in Hr.
    change (path_start [SLASH; 46; 46; SLASH; 98; SLASH] 0) with 1 in Hr. cbn [resolve] in Hr. rewrite Ht, Z.eqb_refl, !Hlk in Hr.
    change (listing (root_list (map fst demo_files)) [46; 46]) with (Some 1) in Hr. cbv beta iota in Hr. rewrite Ht, Z.eqb_refl, !Hlk in Hr.
    change (listing (root_list (map fst demo_files)) [98]) with (Some 3) in Hr. cbv beta iota in Hr. destruct Hr as (k & -> & _). exists k, s'. exact E.
Defined.
