(* ===== verification/Pipe.v ===== *)
(** * Pipes (kernel/pipe.c)

    A pipe is found by the address of its page. [pipewrite] and [piperead]
    run in segments that end by returning or by going to sleep; a segment
    that sleeps leaves the loop index it resumes with. *)

From stdpp Require Import base gmap list numbers strings.
From Stdlib Require Import ZArith Lia.
From S2P Require Import Prelude Spinlock BlockIO ProcEnv.
Open Scope Z_scope.
Open Scope kernel_scope.

Definition PIPESIZE : Z := 512.

(** struct pipe *)
Record pipe := mk_pipe {
  pi_lock : bool; pi_data : list Z; nread : Z; nwrite : Z; readopen : bool; writeopen : bool }.
Definition set_pi_lock (p : pipe) (l : bool) : pipe := mk_pipe l (pi_data p) (nread p) (nwrite p) (readopen p) (writeopen p).
Definition set_readopen (p : pipe) (v : bool) : pipe := mk_pipe (pi_lock p) (pi_data p) (nread p) (nwrite p) v (writeopen p).
Definition set_writeopen (p : pipe) (v : bool) : pipe := mk_pipe (pi_lock p) (pi_data p) (nread p) (nwrite p) (readopen p) v.
(** [pi->data[pi->nwrite++ % PIPESIZE] = ch] *)
Definition push_byte (p : pipe) (c : Z) : pipe :=
  mk_pipe (pi_lock p) (setz (pi_data p) (nwrite p mod PIPESIZE) c) (nread p) (u32 (nwrite p + 1)) (readopen p) (writeopen p).
Definition head_byte (p : pipe) : Z := nthz (pi_data p) (nread p mod PIPESIZE).
Definition drop_byte (p : pipe) : pipe :=
  mk_pipe (pi_lock p) (pi_data p) (u32 (nread p + 1)) (nwrite p) (readopen p) (writeopen p).
Definition pipe0 : pipe := mk_pipe false (replicate (Z.to_nat PIPESIZE) 0) 0 0 false false.

Record pipest (U : Type) := mk_pipest { pip_env : U; pip_tab : gmap Z pipe }.
Arguments mk_pipest {U} _ _.
Arguments pip_env {U} _.
Arguments pip_tab {U} _.

(** How a segment ends: a return value, or the loop index at the [sleep]. *)
Inductive segment := Done (r : Z) | Waits (i : Z).

Section pipe_c.
Context {U : Type} {env : ProcEnv U}.
Notation PS := (pipest U).
Implicit Types (s : PS) (pi addr n i : Z).

Definition set_env s (u : U) : PS := mk_pipest u (pip_tab s).
Definition in_env {A} (m : M U A) : M PS A := zoom pip_env set_env m.
Definition getp s pi : pipe := default pipe0 (pip_tab s !! pi).
Definition setp s pi (p : pipe) : PS := mk_pipest (pip_env s) (<[pi := p]> (pip_tab s)).
Definition updp pi (f : pipe -> pipe) : M PS unit := modify (fun s => setp s pi (f (getp s pi))).
Definition plock pi s : bool := pi_lock (getp s pi).
Definition set_plock pi s (b : bool) : PS := setp s pi (set_pi_lock (getp s pi) b).

(** The initialisation of the page in [pipealloc]: the bytes of [data] are
    the page's. *)
Definition pipe_init (data : list Z) : pipe := mk_pipe false data 0 0 true true.

Definition pipeclose pi (writable : bool) : M PS unit :=
  acquire (plock pi) (set_plock pi) ;;;
  (if writable then
     updp pi (fun p => set_writeopen p false) ;;;
     in_env (wakeup (ChPipeR pi))
   else
     updp pi (fun p => set_readopen p false) ;;;
     in_env (wakeup (ChPipeW pi))) ;;;
  s <- get ;;
  if negb (readopen (getp s pi)) && negb (writeopen (getp s pi)) then
    release (plock pi) (set_plock pi) ;;;
    in_env (kfree_page pi)
  else
    release (plock pi) (set_plock pi).

(** [sleep(chan, &pi->lock)] up to the point where the process is asleep. *)
Definition pipe_sleep pi (c : chan) (i : Z) : M PS segment :=
  release (plock pi) (set_plock pi) ;;;
  modify (fun s => set_env s (park c (pip_env s))) ;;;
  ret (Waits i).

Fixpoint pipewrite_loop (fuel : nat) pi addr n i : M PS segment :=
  match fuel with
  | O => no_fuel
  | S f =>
      if i <? n then
        s <- get ;;
        k <- (if readopen (getp s pi) then in_env killed else ret true) ;;
        if k then release (plock pi) (set_plock pi) ;;; ret (Done (-1))
        else if nwrite (getp s pi) =? u32 (nread (getp s pi) + PIPESIZE) then
          in_env (wakeup (ChPipeR pi)) ;;;
          pipe_sleep pi (ChPipeW pi) i
        else
          r <- in_env (u_copyin (u64 (addr + i)) 1) ;;
          if snd r then
            updp pi (fun p => push_byte p (nthz (fst r) 0)) ;;;
            pipewrite_loop f pi addr n (i + 1)
          else
            in_env (wakeup (ChPipeR pi)) ;;;
            release (plock pi) (set_plock pi) ;;; ret (Done i)
      else
        in_env (wakeup (ChPipeR pi)) ;;;
        release (plock pi) (set_plock pi) ;;; ret (Done i)
  end.

(** From the start ([i = 0]), or from the return of [sleep], which holds the
    lock again. *)
Definition pipewrite_from pi addr n i : M PS segment :=
  acquire (plock pi) (set_plock pi) ;;;
  pipewrite_loop (S (Z.to_nat (n - i))) pi addr n i.

Definition pipewrite pi addr n : M PS Z :=
  g <- pipewrite_from pi addr n 0 ;;
  match g with Done r => ret r | Waits _ => sleep_on (ChPipeW pi) end.

Fixpoint piperead_loop (fuel : nat) pi addr n i : M PS Z :=
  match fuel with
  | O => no_fuel
  | S f =>
      if i <? n then
        s <- get ;;
        if nread (getp s pi) =? nwrite (getp s pi) then ret i
        else
          ok <- in_env (u_copyout (u64 (addr + i)) [head_byte (getp s pi)]) ;;
          if ok : bool then
            updp pi drop_byte ;;;
            piperead_loop f pi addr n (i + 1)
          else ret (if i =? 0 then -1 else i)
      else ret i
  end.

Definition piperead_from pi addr n : M PS segment :=
  acquire (plock pi) (set_plock pi) ;;;
  s <- get ;;
  if (nread (getp s pi) =? nwrite (getp s pi)) && writeopen (getp s pi) then
    k <- in_env killed ;;
    if k : bool then release (plock pi) (set_plock pi) ;;; ret (Done (-1))
    else pipe_sleep pi (ChPipeR pi) 0
  else
    i <- piperead_loop (S (Z.to_nat n)) pi addr n 0 ;;
    in_env (wakeup (ChPipeW pi)) ;;;
    release (plock pi) (set_plock pi) ;;;
    ret (Done i).

Definition piperead pi addr n : M PS Z :=
  g <- piperead_from pi addr n ;;
  match g with Done r => ret r | Waits _ => sleep_on (ChPipeR pi) end.
End pipe_c.
