(* ===== verification/PipeSpec.v ===== *)
(** * Pipes are bounded FIFO queues *)

From stdpp Require Import base gmap list numbers strings.
From Stdlib Require Import ZArith Lia.
From S2P Require Import Prelude Spinlock Disk BlockIO ProcEnv Pipe.
Open Scope Z_scope.
Open Scope kernel_scope.

(** The bytes between the counters, which wrap at 2^32. *)
Definition qlen (p : pipe) : Z := u32 (nwrite p - nread p).
Definition slot (p : pipe) (k : Z) : Z := nthz (pi_data p) (u32 (nread p + k) mod PIPESIZE).
Definition queue (p : pipe) : list Z := map (slot p) (seqZ 0 (qlen p)).

Record pipe_wf (p : pipe) : Prop := {
  wf_data : length (pi_data p) = Z.to_nat PIPESIZE;
  wf_nread : 0 <= nread p < 2 ^ 32;
  wf_nwrite : 0 <= nwrite p < 2 ^ 32;
  wf_qlen : qlen p <= PIPESIZE;
  wf_bytes : Forall is_byte (pi_data p)
}.

Ltac pipe_arith := unfold qlen, u32, PIPESIZE in *; change (2 ^ 32) with 4294967296 in *; dlia.

Lemma qlen_nonneg p : 0 <= qlen p.
Proof. unfold qlen. apply u32_range. Qed.

Lemma length_queue p : Z.of_nat (length (queue p)) = qlen p.
Proof. unfold queue. rewrite length_map, length_seqZ. pose proof (qlen_nonneg p). lia. Qed.

Lemma full_iff p : pipe_wf p -> (nwrite p =? u32 (nread p + PIPESIZE)) = (qlen p =? PIPESIZE).
Proof.
  intros [_ H1 H2 H3 _]. destruct (Z.eqb_spec (qlen p) PIPESIZE), (Z.eqb_spec (nwrite p) (u32 (nread p + PIPESIZE))); try done; exfalso; pipe_arith.
Qed.

Lemma empty_iff p : pipe_wf p -> (nread p =? nwrite p) = (qlen p =? 0).
Proof.
  intros [_ H1 H2 H3 _]. destruct (Z.eqb_spec (qlen p) 0), (Z.eqb_spec (nread p) (nwrite p)); try done; exfalso; pipe_arith.
Qed.

Lemma slot_mod p k : u32 (nread p + k) mod PIPESIZE = (nread p + k) mod PIPESIZE.
Proof. unfold u32, PIPESIZE. change (2 ^ 32) with (512 * 8388608). rewrite Z.rem_mul_r by lia. rewrite Z.mul_comm, Z.mod_add, Z.mod_mod by lia. done. Qed.

Lemma push_qlen p c : pipe_wf p -> qlen p < PIPESIZE -> qlen (push_byte p c) = qlen p + 1.
Proof. intros [_ H1 H2 H3 _] Hlt. unfold push_byte. unfold qlen in *; cbn [nwrite nread]. pipe_arith. Qed.

Lemma push_wf p c : pipe_wf p -> qlen p < PIPESIZE -> is_byte c -> pipe_wf (push_byte p c).
Proof.
  intros Hwf Hlt Hc. pose proof (push_qlen p c Hwf Hlt) as E. destruct Hwf as [H0 H1 H2 H3 H4]. split; cbn [push_byte pi_data nread nwrite].
  - unfold setz. by rewrite length_insert.
  - done.
  - apply u32_range.
  - lia.
  - by apply Forall_insert.
Qed.

Lemma nwrite_mod p : pipe_wf p -> nwrite p mod PIPESIZE = (nread p + qlen p) mod PIPESIZE.
Proof. intros [_ H1 H2 H3 _]. pipe_arith. Qed.

Lemma push_slot p c k : pipe_wf p -> qlen p < PIPESIZE -> 0 <= k <= qlen p ->
  slot (push_byte p c) k = if k =? qlen p then c else slot p k.
Proof.
  intros Hwf Hlt Hk. unfold slot. cbn [push_byte pi_data nread]. rewrite !slot_mod. rewrite nwrite_mod by done.
  rewrite nthz_setz by (rewrite ?(wf_data p Hwf); unfold PIPESIZE; dlia).
  destruct (Z.eqb_spec k (qlen p)) as [->|Hne]; [by rewrite Z.eqb_refl|].
  destruct (Z.eqb_spec ((nread p + k) mod PIPESIZE) ((nread p + qlen p) mod PIPESIZE)) as [E|]; [|done].
  exfalso. unfold PIPESIZE in *. dlia.
Qed.

Lemma push_queue p c : pipe_wf p -> qlen p < PIPESIZE -> queue (push_byte p c) = queue p ++ [c].
Proof.
  intros Hwf Hlt. pose proof (push_qlen p c Hwf Hlt) as E. pose proof (qlen_nonneg p). unfold queue. rewrite E.
  rewrite seqZ_app by lia. rewrite map_app. f_equal.
  - apply map_ext_in. intros k Hk%list_elem_of_In%elem_of_seqZ. rewrite push_slot by (done || lia).
    destruct (Z.eqb_spec k (qlen p)); [lia|done].
  - change (seqZ (0 + qlen p) 1) with [0 + (0 + qlen p)]. cbn [map]. f_equal. rewrite push_slot by (done || lia).
    replace (0 + (0 + qlen p)) with (qlen p) by lia. by rewrite Z.eqb_refl.
Qed.

Lemma drop_qlen p : pipe_wf p -> 0 < qlen p -> qlen (drop_byte p) = qlen p - 1.
Proof. intros [_ H1 H2 H3 _] Hlt. unfold drop_byte. unfold qlen in *; cbn [nwrite nread]. pipe_arith. Qed.

Lemma drop_wf p : pipe_wf p -> 0 < qlen p -> pipe_wf (drop_byte p).
Proof.
  intros Hwf Hlt. pose proof (drop_qlen p Hwf Hlt) as E. destruct Hwf as [H0 H1 H2 H3 H4]. split; [done|apply u32_range|done|lia|done].
Qed.

Lemma drop_queue p : pipe_wf p -> 0 < qlen p -> queue p = head_byte p :: queue (drop_byte p).
Proof.
  intros Hwf Hlt. unfold queue. rewrite drop_qlen by done. rewrite seqZ_cons by lia. cbn [map]. f_equal.
  - unfold slot. rewrite slot_mod. unfold head_byte. by rewrite Z.add_0_r.
  - replace (Z.succ 0) with (1 + 0) by lia. replace (Z.pred (qlen p)) with (qlen p - 1) by lia.
    rewrite <- fmap_add_seqZ. change (Z.add 1 <$> seqZ 0 (qlen p - 1)) with (map (Z.add 1) (seqZ 0 (qlen p - 1))). rewrite map_map. apply map_ext. intros k. unfold slot. rewrite !slot_mod. cbn [drop_byte nread pi_data].
    f_equal. unfold u32, PIPESIZE. change (2 ^ 32) with 4294967296. dlia.
Qed.

Section pipe_spec.
Context {U : Type} {env : ProcEnv U} {spec : ProcSpec U}.
Notation PS := (pipest U).
Implicit Types (s : PS) (pi addr n i k : Z).

Lemma getp_setp s pi p : getp (setp s pi p) pi = p.
Proof. unfold getp, setp. cbn. by rewrite lookup_insert_eq. Qed.
Lemma setp_setp s pi p q : setp (setp s pi p) pi q = setp s pi q.
Proof. unfold setp. cbn. by rewrite insert_insert_eq. Qed.

Lemma env_ok {A} (m : M U A) s a u : m (pip_env s) = Ok a u -> in_env m s = Ok a (set_env s u).
Proof. intros E. unfold in_env, zoom. by rewrite E. Qed.

(** [s'] differs from [s] in pipe [pi] and in the environment only; the
    locks and the flags are the same. *)
Record keeps (pi : Z) (s s' : PS) : Prop := {
  kp_flags : readopen (getp s' pi) = readopen (getp s pi) /\ writeopen (getp s' pi) = writeopen (getp s pi);
  kp_lock : plock pi s' = plock pi s;
  kp_tab : forall q, q <> pi -> pip_tab s' !! q = pip_tab s !! q
}.
(** What the process sees is the same, and no memory has gone. *)
Definition same_mem (u u' : U) : Prop := (forall a, user_byte u' a = user_byte u a) /\ (forall a, resident u a -> resident u' a).

Lemma same_mem_trans u1 u2 u3 : same_mem u1 u2 -> same_mem u2 u3 -> same_mem u1 u3.
Proof. intros [A1 B1] [A2 B2]. split; [intros a; by rewrite A2|auto]. Qed.

Lemma keeps_refl pi s : keeps pi s s.
Proof. by split. Qed.
Lemma keeps_trans pi s1 s2 s3 : keeps pi s1 s2 -> keeps pi s2 s3 -> keeps pi s1 s3.
Proof.
  intros [[F1 G1] L1 T1] [[F2 G2] L2 T2]. split; [split; congruence|congruence|]. intros q Hq. by rewrite T2, T1.
Qed.
Lemma keeps_env pi s u : keeps pi s (set_env s u).
Proof. by split. Qed.
Lemma keeps_upd pi s p : readopen p = readopen (getp s pi) -> writeopen p = writeopen (getp s pi) -> pi_lock p = plock pi s ->
  keeps pi s (setp s pi p).
Proof.
  intros H1 H2 H3. split; [split; by rewrite getp_setp|unfold plock; by rewrite getp_setp|].
  intros q Hq. cbn. by rewrite lookup_insert_ne.
Qed.

(** The end of a segment: wake the other side, unlock. *)
Definition unlock pi s : PS := set_plock pi s false.

Lemma release_ok pi s : plock pi s = true -> release (plock pi) (set_plock pi) s = Ok tt (unlock pi s).
Proof. intros E. unfold release, get, bind. by rewrite E. Qed.
Lemma acquire_ok pi s : plock pi s = false -> acquire (plock pi) (set_plock pi) s = Ok tt (set_plock pi s true).
Proof. intros E. unfold acquire, get, bind. by rewrite E. Qed.

Lemma plock_set pi s b : plock pi (set_plock pi s b) = b.
Proof. unfold plock, set_plock. by rewrite getp_setp. Qed.
Lemma wf_set_lock p b : pipe_wf (set_pi_lock p b) <-> pipe_wf p.
Proof. split; intros []; by split. Qed.
Lemma queue_set_lock p b : queue (set_pi_lock p b) = queue p.
Proof. done. Qed.

(** Progress of a writer inside the critical section: the bytes at
    [addr+i .. addr+k) have been appended to the queue. *)
Record wrote pi addr (i k : Z) (s s' : PS) : Prop := {
  wr_range : i <= k;
  wr_bytes : exists bs, mapM (user_byte (pip_env s)) (seqZ (addr + i) (k - i)) = Some bs /\
    queue (getp s' pi) = queue (getp s pi) ++ bs;
  wr_nread : nread (getp s' pi) = nread (getp s pi);
  wr_wf : pipe_wf (getp s' pi);
  wr_keeps : keeps pi s s'
}.

Lemma wrote_env pi addr i k s s' u : wrote pi addr i k s s' -> wrote pi addr i k s (set_env s' u).
Proof. intros [H1 H2 Hnr H3 H4]. split; try done. by apply (keeps_trans pi s s'), keeps_env. Qed.

Lemma mapM_seqZ_snoc (f : Z -> option Z) a n l b : 0 <= n -> mapM f (seqZ a n) = Some l -> f (a + n) = Some b ->
  mapM f (seqZ a (n + 1)) = Some (l ++ [b]).
Proof.
  intros Hn Hl Hb. rewrite seqZ_app by lia. apply mapM_Some. apply Forall2_app; [by apply mapM_Some|].
  change (seqZ (a + n) 1) with [0 + (a + n)]. repeat constructor. by rewrite Z.add_0_l.
Qed.

Lemma wrote_push pi addr i k s s' b : wrote pi addr i k s s' -> user_byte (pip_env s) (addr + k) = Some b ->
  qlen (getp s' pi) < PIPESIZE -> wrote pi addr i (k + 1) s (setp s' pi (push_byte (getp s' pi) b)).
Proof.
  intros [H1 (bs & H2 & Hq) Hnr H3 H4] Hb Hlt. split; [lia| |by rewrite getp_setp| |].
  - exists (bs ++ [b]). split.
    + replace (k + 1 - i) with (k - i + 1) by lia. apply mapM_seqZ_snoc; [lia|done|]. by replace (addr + i + (k - i)) with (addr + k) by lia.
    + rewrite getp_setp, push_queue by done. by rewrite Hq, app_assoc.
  - rewrite getp_setp. apply push_wf; [done..|]. by eapply user_byte_range.
  - eapply keeps_trans; [exact H4|]. by apply keeps_upd.
Qed.

Definition unreadable (u : U) (a : Z) : Prop := user_byte u a = None \/ ~ resident u a.

(** How a writer's segment that started at [s] ends. *)
Definition write_end pi addr n (s s' : PS) (g : segment) (i k : Z) : Prop :=
  match g with
  | Waits k' => k' = k /\ k < n /\ qlen (getp s' pi) = PIPESIZE /\ readopen (getp s pi) = true /\
      ~ asleep (pip_env s') (ChPipeR pi) /\ asleep (pip_env s') (ChPipeW pi) /\
      (forall c, asleep (pip_env s') c -> c = ChPipeW pi \/ asleep (pip_env s) c)
  | Done r => (forall c, asleep (pip_env s') c -> asleep (pip_env s) c) /\
      ((r = k /\ ~ asleep (pip_env s') (ChPipeR pi) /\ (k = n \/ unreadable (pip_env s) (addr + k))) \/
       (r = -1 /\ k < n /\ (readopen (getp s pi) = false /\ k = i \/ readopen (getp s pi) = true /\ exists u u', killed u = Ok true u')))
  end.

Lemma unlock_wrote pi addr i k s s' : wrote pi addr i k s s' -> plock pi s = true ->
  pipe_wf (getp (unlock pi s') pi) /\ queue (getp (unlock pi s') pi) = queue (getp s' pi) /\ plock pi (unlock pi s') = false.
Proof.
  intros Hw _. unfold unlock, set_plock, plock. rewrite !getp_setp. split_and!; [by apply wf_set_lock, (wr_wf _ _ _ _ _ _ Hw)|done|done].
Qed.

(** A state inside the loop: nothing has been woken or put to sleep yet. *)
Record writing pi addr (i k : Z) (s s' : PS) : Prop := {
  wg_wrote : wrote pi addr i k s s';
  wg_lock : plock pi s' = true;
  wg_asleep : forall c, asleep (pip_env s') c <-> asleep (pip_env s) c;
  wg_mem : same_mem (pip_env s) (pip_env s');
  wg_run : running (pip_env s');
  wg_first : readopen (getp s pi) = false -> k = i
}.

Lemma writing_env pi addr i k s s' u : writing pi addr i k s s' -> running u -> same_mem (pip_env s') u ->
  (forall c, asleep u c <-> asleep (pip_env s') c) -> writing pi addr i k s (set_env s' u).
Proof.
  intros [H1 H2 H3 Hs Hr H4] Hru Hm Ha. split; [by apply wrote_env|done|intros c; cbn; by rewrite Ha|by apply (same_mem_trans _ (pip_env s'))|done|done].
Qed.

(** The segment ends by waking the readers. *)
Lemma write_return pi addr n i k s s' : writing pi addr i k s s' -> k = n \/ unreadable (pip_env s) (addr + k) ->
  exists s2, (in_env (wakeup (ChPipeR pi)) ;;; release (plock pi) (set_plock pi) ;;; ret (Done k)) s' = Ok (Done k) (unlock pi s2) /\
    wrote pi addr i k s s2 /\ write_end pi addr n s s2 (Done k) i k.
Proof.
  intros [H1 H2 H3 Hs Hr H4] Hend. destruct (wakeup_ok (pip_env s') (ChPipeR pi) (running_steady _ Hr)) as (u & E & _ & _ & Hn & Ha & _).
  exists (set_env s' u). step_with (env_ok _ _ _ _ E). step_with (release_ok pi (set_env s' u) H2).
  split_and!; [done|by apply wrote_env|]. split; [intros c Hc; apply H3, Ha, Hc|]. by left.
Qed.

Lemma write_sleeps pi addr n i k s s' : writing pi addr i k s s' -> k < n -> readopen (getp s pi) = true ->
  qlen (getp s' pi) = PIPESIZE ->
  exists s2, (in_env (wakeup (ChPipeR pi)) ;;; pipe_sleep pi (ChPipeW pi) k) s' = Ok (Waits k) (unlock pi s2) /\
    wrote pi addr i k s s2 /\ write_end pi addr n s s2 (Waits k) i k.
Proof.
  intros [H1 H2 H3 Hs Hr H4] Hk Ho Hf. destruct (wakeup_ok (pip_env s') (ChPipeR pi) (running_steady _ Hr)) as (u & E & _ & Hru & Hn & Ha & _).
  pose proof (park_ok u (ChPipeW pi) (Hru Hr)) as Hp. exists (set_env s' (park (ChPipeW pi) u)).
  step_with (env_ok _ _ _ _ E). unfold pipe_sleep. step_with (release_ok pi (set_env s' u) H2).
  split_and!; [done|by apply wrote_env|].
  split_and!; [done|done|done|done|intros [Hc|Hc]%Hp; [discriminate Hc|by apply Hn]|apply Hp; by left|].
  intros c [Hc|Hc]%Hp; [by left|]. right. apply H3, Ha, Hc.
Qed.

Lemma copyin_byte u a : running u -> 0 <= a -> a + 1 < 2 ^ 64 ->
  exists r u', u_copyin a 1 u = Ok r u' /\ running u' /\ (forall c, asleep u' c <-> asleep u c) /\ same_mem u u' /\
  if snd r then user_byte u a = Some (nthz (fst r) 0) else unreadable u a.
Proof.
  intros Hr Ha0 Ha1. destruct (copyin_ok u a 1 Hr Ha0 ltac:(lia) Ha1) as (bs & ok & u' & E & Hr' & Ha & Hm & Hs & Hok).
  exists (bs, ok), u'. split_and!; try done.
  change (seqZ a 1) with [0 + a] in Hok. rewrite Z.add_0_l in Hok. cbn [mapM] in Hok. cbn [fst snd]. unfold unreadable.
  destruct ok; [destruct (user_byte u a) as [b|]; cbn in Hok; [by injection Hok as <-|done]|].
  destruct Hok as [Hok|(x & Hx & Hn)]; [left; by destruct (user_byte u a)|right]. by replace a with x by lia.
Qed.

Lemma pipewrite_loop_ok fuel pi addr n i k s s' : writing pi addr i k s s' -> k <= n -> 0 <= k -> 0 <= addr -> addr + n < 2 ^ 64 ->
  n - k < Z.of_nat fuel ->
  exists g k' s2, pipewrite_loop fuel pi addr n k s' = Ok g (unlock pi s2) /\ k <= k' <= n /\ wrote pi addr i k' s s2 /\
    write_end pi addr n s s2 g i k'.
Proof.
  revert k s'. induction fuel as [|fuel IH]; intros k s' Hw Hkn Hk0 Ha Hover Hfuel; [lia|]. cbn [pipewrite_loop].
  pose proof Hw as [Hwr Hl Has Hmem Hrun Hfirst]. pose proof (wr_keeps _ _ _ _ _ _ Hwr) as [[Hro _] _ _].
  destruct (Z.ltb_spec k n) as [Hlt|Hge].
  2:{ destruct (write_return pi addr n i k s s' Hw) as (s2 & E & W & Z0); [left; lia|]. exists (Done k), k, s2. split_and!; [exact E|lia..|done|done]. }
  unfold get, bind at 1. cbn beta iota. rewrite Hro. destruct (readopen (getp s pi)) eqn:Hopen; cycle 1.
  { rewrite bind_ret. cbn iota. step_with (release_ok pi s' Hl). exists (Done (-1)), k, s'. split_and!; [done|lia..|done|].
    split; [intros c; apply Has|]. right. split_and!; [done|done|left]. split; [done|by apply Hfirst]. }
  destruct (killed_ok (pip_env s') Hrun) as (b & u & Eb & Hur & Hba & Hbm). step_with (env_ok _ _ _ _ Eb).
  assert (Hw1 : writing pi addr i k s (set_env s' u)) by (by apply writing_env).
  destruct b.
  { step_with (release_ok pi (set_env s' u) Hl). exists (Done (-1)), k, (set_env s' u). split_and!; [done|lia..|apply (wg_wrote _ _ _ _ _ _ Hw1)|].
    split; [intros c; apply (wg_asleep _ _ _ _ _ _ Hw1)|]. right. split_and!; [done|done|]. right. split; [done|by exists (pip_env s'), u]. }
  rewrite full_iff by apply (wr_wf _ _ _ _ _ _ Hwr). destruct (Z.eqb_spec (qlen (getp s' pi)) PIPESIZE) as [Hf|Hf].
  { destruct (write_sleeps pi addr n i k s (set_env s' u) Hw1 Hlt Hopen Hf) as (s2 & E & W & Z0).
    exists (Waits k), k, s2. split_and!; [exact E|lia..|done|done]. }
  rewrite u64_small by lia. destruct (copyin_byte u (addr + k) Hur ltac:(lia) ltac:(lia)) as (r & u2 & Er & Hur2 & Hra & Hrm & Hrb).
  step_with (env_ok _ (set_env s' u) _ _ Er).
  assert (Hw2 : writing pi addr i k s (set_env s' u2)) by (by apply (writing_env pi addr i k s (set_env s' u))).
  destruct (wg_mem _ _ _ _ _ _ Hw1) as [M1 M2]. cbn [set_env pip_env] in M1, M2. unfold unreadable in Hrb. rewrite M1 in Hrb.
  destruct (snd r).
  - assert (Hq : qlen (getp s' pi) < PIPESIZE) by (pose proof (wf_qlen _ (wr_wf _ _ _ _ _ _ Hwr)); lia).
    destruct (IH (k + 1) (setp (set_env s' u2) pi (push_byte (getp s' pi) (nthz (fst r) 0)))) as (g & k' & s2 & E & Hk' & W & Z0); try lia.
    { split; [by apply (wrote_push pi addr i k s (set_env s' u2)); [apply Hw2|..]| |apply Hw2|apply Hw2|apply Hw2|congruence].
      unfold plock. rewrite getp_setp. exact Hl. }
    exists g, k', s2. split_and!; [exact E|lia..|done|done].
  - destruct (write_return pi addr n i k s (set_env s' u2) Hw2) as (s2 & E & W & Z0); [right; destruct Hrb; [by left|right; auto]|].
    exists (Done k), k, s2. split_and!; [exact E|lia..|done|done].
Qed.

Definition pipe_ready s pi : Prop := pipe_wf (getp s pi) /\ plock pi s = false.

Lemma writing_start pi addr i s : pipe_ready s pi -> running (pip_env s) -> writing pi addr i i (set_plock pi s true) (set_plock pi s true).
Proof.
  intros [Hwf Hl] Hr. split; [|apply plock_set|done|done|done|done]. split; [lia| |done| |apply keeps_refl].
  - exists []. rewrite Z.sub_diag. by rewrite app_nil_r.
  - unfold set_plock. rewrite getp_setp. by apply wf_set_lock.
Qed.

Lemma keeps_locks pi s b s' b' : keeps pi (set_plock pi s b) s' -> plock pi s = b' -> keeps pi s (set_plock pi s' b').
Proof.
  intros [[F G] L T] <-. unfold set_plock in F, G. rewrite getp_setp in F, G. split.
  - unfold set_plock. rewrite getp_setp. by split.
  - apply plock_set.
  - intros q Hq. cbn. rewrite lookup_insert_ne by done. rewrite T by done. cbn. by rewrite lookup_insert_ne.
Qed.

(** A segment of [pipewrite], on every branch. *)
Lemma pipewrite_from_ok pi addr n i s : pipe_ready s pi -> running (pip_env s) -> 0 <= i <= n -> 0 <= addr -> addr + n < 2 ^ 64 ->
  exists g k s' bs, pipewrite_from pi addr n i s = Ok g s' /\ i <= k <= n /\ pipe_ready s' pi /\ keeps pi s s' /\
    mapM (user_byte (pip_env s)) (seqZ (addr + i) (k - i)) = Some bs /\ queue (getp s' pi) = queue (getp s pi) ++ bs /\
    nread (getp s' pi) = nread (getp s pi) /\ write_end pi addr n s s' g i k.
Proof.
  intros Hr Hru Hi Ha Hover. pose proof (writing_start pi addr i s Hr Hru) as Hw. destruct Hr as [Hwf Hl].
  destruct (pipewrite_loop_ok (S (Z.to_nat (n - i))) pi addr n i i _ _ Hw ltac:(lia) ltac:(lia) Ha Hover ltac:(lia))
    as (g & k & s2 & E & Hk & [W1 (bs & W2 & W3) Wn W4 W5] & He).
  exists g, k, (unlock pi s2), bs. unfold pipewrite_from. step_with (acquire_ok pi s Hl).
  unfold write_end in *. unfold unlock, set_plock, pipe_ready, plock in *. rewrite ?getp_setp in *.
  split_and!; [exact E|lia|lia|by apply wf_set_lock|done|by apply (keeps_locks pi s true)|exact W2|exact W3|exact Wn|exact He].
Qed.

(** Progress of a reader: [i] bytes have moved from the queue to the memory
    at [addr]. *)
Record took pi addr (i : Z) (s s' : PS) : Prop := {
  tk_bytes : exists bs, Z.of_nat (length bs) = i /\ queue (getp s pi) = bs ++ queue (getp s' pi) /\
    (forall x, user_byte (pip_env s') x = if (addr <=? x) && (x <? addr + i) then bs !! Z.to_nat (x - addr) else user_byte (pip_env s) x);
  tk_nwrite : nwrite (getp s' pi) = nwrite (getp s pi);
  tk_wf : pipe_wf (getp s' pi);
  tk_keeps : keeps pi s s';
  tk_asleep : forall c, asleep (pip_env s') c <-> asleep (pip_env s) c;
  tk_run : running (pip_env s')
}.

Lemma took_byte pi addr i s s' u : took pi addr i s s' -> 0 < qlen (getp s' pi) -> running u ->
  (forall c, asleep u c <-> asleep (pip_env s') c) ->
  (forall x, user_byte u x = if x =? addr + i then Some (head_byte (getp s' pi)) else user_byte (pip_env s') x) ->
  took pi addr (i + 1) s (setp (set_env s' u) pi (drop_byte (getp s' pi))).
Proof.
  intros [(bs & B1 & B2 & B3) Hnw Hwf Hk Ha _] Hq Hur Hua Hum. split.
  - exists (bs ++ [head_byte (getp s' pi)]). rewrite length_app. cbn [length]. split_and!; [lia| |].
    + rewrite B2, getp_setp, <- app_assoc. cbn. by rewrite <- drop_queue.
    + intros x. cbn [setp set_env pip_env]. rewrite Hum. destruct (Z.eqb_spec x (addr + i)) as [->|Hne].
      * replace (addr <=? addr + i) with true by lia. replace (addr + i <? addr + (i + 1)) with true by lia. cbn [andb].
        rewrite lookup_app_r by lia. replace (Z.to_nat (addr + i - addr) - length bs)%nat with 0%nat by lia. done.
      * rewrite B3. destruct (Z.leb_spec addr x), (Z.ltb_spec x (addr + i)), (Z.ltb_spec x (addr + (i + 1))); cbn [andb]; try done; try lia.
        by rewrite lookup_app_l by lia.
  - by rewrite getp_setp.
  - rewrite getp_setp. by apply drop_wf.
  - eapply keeps_trans; [exact Hk|]. eapply keeps_trans; [apply (keeps_env pi s' u)|]. by apply keeps_upd.
  - intros c. cbn. by rewrite Hua.
  - exact Hur.
Qed.

(** How the copy loop of a reader stops. *)
Definition read_stop (n i r : Z) (q : list Z) : Prop :=
  (r = i /\ (i = n \/ q = [])) \/ (r = (if i =? 0 then -1 else i) /\ i < n /\ q <> []).
Lemma head_byte_ok p : pipe_wf p -> is_byte (head_byte p).
Proof.
  intros [H0 _ _ _ Hb]. unfold head_byte, nthz. destruct (pi_data p !! _) as [c|] eqn:E; cbn; [|unfold is_byte; lia].
  by apply (Forall_lookup_1 _ _ _ _ Hb E).
Qed.

Lemma copyout_byte u a c : running u -> 0 <= a -> a + 1 < 2 ^ 64 -> is_byte c ->
  exists ok u', u_copyout a [c] u = Ok ok u' /\ running u' /\ (forall c, asleep u' c <-> asleep u c) /\
  forall x, user_byte u' x = if (x =? a) && ok then Some c else user_byte u x.
Proof.
  intros Hr Ha0 Ha1 Hc. destruct (copyout_ok u a [c] Hr Ha0) as (ok & k & u' & E & Hr' & Ha & Hk & -> & Hm & _);
    [cbn; lia|cbn; unfold BSIZE; lia|by constructor|]. cbn in Hk.
  exists (k =? 1), u'. split_and!; [exact E|done|done|]. intros x. rewrite Hm.
  destruct (Z.leb_spec a x), (Z.ltb_spec x (a + k)), (Z.eqb_spec x a), (Z.eqb_spec k 1); cbn [andb]; try lia; try done.
  by replace (Z.to_nat (x - a)) with 0%nat by lia.
Qed.

Lemma queue_nil p : pipe_wf p -> (nread p =? nwrite p) = true <-> queue p = [].
Proof.
  intros Hwf. rewrite empty_iff by done. rewrite Z.eqb_eq. rewrite <- length_queue. destruct (queue p); cbn; split; intros; [done|done|lia|done].
Qed.

Lemma piperead_loop_ok fuel pi addr n i s s' : took pi addr i s s' -> i <= n -> 0 <= i -> 0 <= addr -> addr + n < 2 ^ 64 ->
  n - i < Z.of_nat fuel ->
  exists r j s2, piperead_loop fuel pi addr n i s' = Ok r s2 /\ i <= j <= n /\ took pi addr j s s2 /\
    read_stop n j r (queue (getp s2 pi)).
Proof.
  revert i s'. induction fuel as [|fuel IH]; intros i s' Ht Hin Hi0 Ha Hover Hf; [lia|]. cbn [piperead_loop].
  pose proof (tk_wf _ _ _ _ _ Ht) as Hwf.
  destruct (Z.ltb_spec i n) as [Hlt|]; [|exists i, i, s'; split_and!; [done|lia..|done|]; left; split; [done|left; lia]].
  unfold get, bind at 1. cbn beta iota. destruct (nread (getp s' pi) =? nwrite (getp s' pi)) eqn:En.
  { exists i, i, s'. split_and!; [done|lia..|done|]. left. split; [done|]. right. by apply queue_nil. }
  assert (Hq : queue (getp s' pi) <> []) by (intros E; apply queue_nil in E; [congruence|done]).
  rewrite empty_iff in En by done. apply Z.eqb_neq in En. pose proof (qlen_nonneg (getp s' pi)) as Hql.
  rewrite u64_small by lia.
  destruct (copyout_byte (pip_env s') (addr + i) _ (tk_run _ _ _ _ _ Ht) ltac:(lia) ltac:(lia) (head_byte_ok _ Hwf)) as (ok & u & E & Hur & Hua & Hum).
  step_with (env_ok _ _ _ _ E). destruct ok.
  - assert (Ht' : took pi addr (i + 1) s (setp (set_env s' u) pi (drop_byte (getp s' pi)))).
    { apply took_byte; [done|lia|done|done|]. intros x. rewrite Hum, andb_true_r. done. }
    destruct (IH (i + 1) _ Ht') as (r & j & s2 & R & Hj & T2 & S2); try lia.
    exists r, j, s2. split_and!; [exact R|lia..|done|done].
  - exists (if i =? 0 then -1 else i), i, (set_env s' u). split_and!; [done|lia..| |].
    + destruct Ht as [(bs & B1 & B2 & B3) Hnw H2 H3 H4 _]. split; [|done|done| | |done].
      * exists bs. split_and!; [done|done|]. intros x. cbn. rewrite Hum, andb_false_r. apply B3.
      * by apply (keeps_trans pi s s'), keeps_env.
      * intros c. cbn. by rewrite Hua.
    + right. done.
Qed.

(** How a reader's segment ends; [i] bytes were taken. *)
Definition read_end pi (n : Z) (s s' : PS) (g : segment) (i : Z) : Prop :=
  match g with
  | Waits _ => i = 0 /\ queue (getp s' pi) = [] /\ writeopen (getp s pi) = true /\ asleep (pip_env s') (ChPipeR pi) /\
      (forall c, asleep (pip_env s') c -> c = ChPipeR pi \/ asleep (pip_env s) c)
  | Done r => (forall c, asleep (pip_env s') c -> asleep (pip_env s) c) /\
      ((~ asleep (pip_env s') (ChPipeW pi) /\ read_stop n i r (queue (getp s' pi)) /\ (queue (getp s pi) = [] -> writeopen (getp s pi) = false)) \/
       (r = -1 /\ i = 0 /\ queue (getp s' pi) = [] /\ writeopen (getp s pi) = true /\ exists u u', killed u = Ok true u'))
  end.

Lemma took_start pi addr s : pipe_ready s pi -> running (pip_env s) -> took pi addr 0 (set_plock pi s true) (set_plock pi s true).
Proof.
  intros [Hwf Hl] Hr. split; [|done|unfold set_plock; rewrite getp_setp; by apply wf_set_lock|apply keeps_refl|done|done].
  exists []. split_and!; [done|done|]. intros x. destruct (Z.leb_spec addr x), (Z.ltb_spec x (addr + 0)); cbn [andb]; done || lia.
Qed.

(** A segment of [piperead], on every branch. *)
Lemma piperead_from_ok pi addr n s : pipe_ready s pi -> running (pip_env s) -> 0 <= n -> 0 <= addr -> addr + n < 2 ^ 64 ->
  exists g i s' bs, piperead_from pi addr n s = Ok g s' /\ 0 <= i <= n /\ pipe_ready s' pi /\ keeps pi s s' /\
    Z.of_nat (length bs) = i /\ queue (getp s pi) = bs ++ queue (getp s' pi) /\ nwrite (getp s' pi) = nwrite (getp s pi) /\
    (i = 0 \/ forall x, user_byte (pip_env s') x = if (addr <=? x) && (x <? addr + i) then bs !! Z.to_nat (x - addr) else user_byte (pip_env s) x) /\
    read_end pi n s s' g i.
Proof.
  intros Hr Hru Hn Ha Hover. pose proof (took_start pi addr s Hr Hru) as Ht. destruct Hr as [Hwf Hl].
  set (s0 := set_plock pi s true) in *. assert (Hwf0 : pipe_wf (getp s0 pi)) by apply (tk_wf _ _ _ _ _ Ht).
  assert (E0 : getp s0 pi = set_pi_lock (getp s pi) true) by apply getp_setp.
  assert (Q0 : queue (getp s0 pi) = queue (getp s pi)) by (by rewrite E0).
  assert (W0 : writeopen (getp s0 pi) = writeopen (getp s pi)) by (by rewrite E0).
  assert (Hend : forall s2 i, took pi addr i s0 s2 -> pipe_ready (unlock pi s2) pi /\ keeps pi s (unlock pi s2) /\ queue (getp (unlock pi s2) pi) = queue (getp s2 pi) /\
    nwrite (getp (unlock pi s2) pi) = nwrite (getp s pi)).
  { intros s2 i [_ Tn T2 T3 _ _]. rewrite E0 in Tn. unfold unlock, set_plock, pipe_ready, plock in *. rewrite !getp_setp.
    split_and!; [by apply wf_set_lock|done|by apply (keeps_locks pi s true)|done|done]. }
  unfold piperead_from. step_with (acquire_ok pi s Hl). fold s0. unfold get, bind at 1. cbn beta iota.
  destruct ((nread (getp s0 pi) =? nwrite (getp s0 pi)) && writeopen (getp s0 pi)) eqn:Ew.
  - apply andb_true_iff in Ew as [Eq Ew]. apply queue_nil in Eq; [|done]. rewrite W0 in Ew.
    destruct (killed_ok (pip_env s0) Hru) as (b & u & Eb & Hur & Hba & Hbm & _). step_with (env_ok _ _ _ _ Eb).
    assert (Hu : took pi addr 0 s0 (set_env s0 u)).
    { destruct Ht as [(bs & B1 & B2 & B3) Tn T2 T3 T4 _]. split; [|done|done|apply keeps_env|done|done]. exists bs. split_and!; [done|done|]. intros x. cbn. rewrite Hbm. apply B3. }
    destruct (Hend _ _ Hu) as (R & K & Q & Nw). destruct b.
    + step_with (release_ok pi (set_env s0 u) (plock_set pi s true)). exists (Done (-1)), 0, (unlock pi (set_env s0 u)), [].
      split_and!; [done|lia|lia|exact R|exact K|done|rewrite Q; exact (eq_sym Q0)|exact Nw|by left|].
      split; [intros c; apply Hba|]. right. split_and!; [done|done|by rewrite Q|done|by exists (pip_env s0), u].
    + unfold pipe_sleep. step_with (release_ok pi (set_env s0 u) (plock_set pi s true)).
      pose proof (park_ok u (ChPipeR pi) Hur) as Hp.
      exists (Waits 0), 0, (set_env (unlock pi (set_env s0 u)) (park (ChPipeR pi) u)), [].
      split_and!; [done|lia|lia|by destruct R|by destruct K|done|etrans; [exact (eq_sym Q0)|exact (eq_sym Q)]|exact Nw|by left|].
      split_and!; [done|exact (eq_trans Q Eq)|done|apply Hp; by left|]. intros c [Hc|Hc]%Hp; [by left|right]. by apply Hba.
  - destruct (piperead_loop_ok (S (Z.to_nat n)) pi addr n 0 s0 s0 Ht) as (r & i & s2 & E & Hi & T2 & St); try lia.
    step_with E.
    destruct (wakeup_ok (pip_env s2) (ChPipeW pi) (running_steady _ (tk_run _ _ _ _ _ T2))) as (u & Eu & _ & _ & Hnu & Hau & Hmu & _). step_with (env_ok _ _ _ _ Eu).
    assert (Hl2 : plock pi s2 = true) by (rewrite (kp_lock _ _ _ (tk_keeps _ _ _ _ _ T2)); apply plock_set).
    step_with (release_ok pi (set_env s2 u) Hl2). destruct (Hend _ _ T2) as (R & K & Q & Nw). destruct T2 as [(bs & B1 & B2 & B3) Tn T2 T3 T4 _].
    exists (Done r), i, (unlock pi (set_env s2 u)), bs. split_and!; [done|lia|lia|by destruct R|by destruct K|done|rewrite <- Q0, B2; f_equal; exact (eq_sym Q)|exact Nw|right; intros x; cbn; rewrite Hmu; apply B3|].
    split; [intros c Hc; apply T4, Hau, Hc|]. left. split_and!; [done|by rewrite <- Q in St|].
    intros E3. rewrite W0 in Ew. rewrite <- Q0 in E3. apply queue_nil in E3; [|done]. rewrite E3 in Ew. done.
Qed.

(** [pipeclose] up to the release of the lock: the end is closed, and those
    who wait for the other are awake. *)
Definition close_end (p : pipe) (w : bool) : pipe := if w then set_writeopen p false else set_readopen p false.
Definition other_end (w : bool) pi : chan := if w then ChPipeR pi else ChPipeW pi.

Lemma close_wf p w : pipe_wf p -> pipe_wf (close_end p w).
Proof. intros []. by destruct w; split. Qed.
Lemma close_queue p w : queue (close_end p w) = queue p.
Proof. by destruct w. Qed.

Lemma pipeclose_run pi (w : bool) s : pipe_ready s pi -> steady (pip_env s) ->
  exists u, let p := close_end (getp s pi) w in
    pipeclose pi w s = (if negb (readopen p) && negb (writeopen p) then in_env (kfree_page pi) else ret tt) (setp (set_env s u) pi p) /\
    (running (pip_env s) -> running u) /\ (forall c, asleep u c -> asleep (pip_env s) c) /\ ~ asleep u (other_end w pi).
Proof.
  intros [Hwf Hl] Hs. destruct (wakeup_ok (pip_env s) (other_end w pi) Hs) as (u & E & _ & Hr & Hn & Ha & _).
  exists u. cbn zeta. split_and!; [|done..]. set (p := close_end (getp s pi) w).
  unfold pipeclose. step_with (acquire_ok pi s Hl). set (s0 := set_plock pi s true).
  assert (E0 : getp s0 pi = set_pi_lock (getp s pi) true) by apply getp_setp.
  assert (Ein : (if w then updp pi (fun p => set_writeopen p false) ;;; in_env (wakeup (ChPipeR pi))
     else updp pi (fun p => set_readopen p false) ;;; in_env (wakeup (ChPipeW pi))) s0 = Ok tt (setp (set_env s u) pi (set_pi_lock p true))).
  { destruct w; unfold updp, modify, bind, in_env, zoom; rewrite E0; cbn [setp s0 set_plock pip_env]; cbn in E; rewrite E;
      unfold set_env, s0, set_plock, setp; cbn [pip_env pip_tab]; by rewrite insert_insert_eq. }
  step_with Ein. unfold get, bind at 1. cbn beta iota. rewrite getp_setp.
  assert (Eo : set_plock pi (setp (set_env s u) pi (set_pi_lock p true)) false = setp (set_env s u) pi p).
  { unfold set_plock. rewrite getp_setp, setp_setp. f_equal. unfold plock in Hl. unfold p. destruct w, (getp s pi); cbn in *; by subst. }
  assert (Hlk : plock pi (setp (set_env s u) pi (set_pi_lock p true)) = true) by (unfold plock; by rewrite getp_setp).
  cbn [readopen writeopen set_pi_lock]. destruct (negb (readopen p) && negb (writeopen p)).
  - step_with (release_ok _ _ Hlk). unfold unlock. by rewrite Eo.
  - rewrite (release_ok _ _ Hlk). unfold unlock. by rewrite Eo.
Qed.

(** [pipeclose] of one end while the other is open. *)
Lemma pipeclose_ok pi (w : bool) s : pipe_ready s pi -> steady (pip_env s) -> (if w then readopen (getp s pi) else writeopen (getp s pi)) = true ->
  exists u p, pipeclose pi w s = Ok tt (setp (set_env s u) pi p) /\ pipe_wf p /\ pi_lock p = false /\ queue p = queue (getp s pi) /\
    (forall c, asleep u c -> asleep (pip_env s) c) /\
    readopen p = w && readopen (getp s pi) /\ writeopen p = negb w && writeopen (getp s pi) /\ ~ asleep u (other_end w pi).
Proof.
  intros Hr Hs Ho. destruct (pipeclose_run pi w s Hr Hs) as (u & E & _ & Ha & Hn). destruct Hr as [Hwf Hl]. cbn zeta in E.
  exists u, (close_end (getp s pi) w). rewrite E. unfold plock in Hl.
  split_and!; [|by apply close_wf|destruct w; exact Hl|apply close_queue|done|by destruct w|by destruct w|done].
  destruct w; cbn; rewrite Ho; cbn [negb]; rewrite ?andb_false_r; done.
Qed.

(** And of any end: the last one frees the page. *)
Lemma pipeclose_total pi (w : bool) s : pipe_ready s pi -> running (pip_env s) -> is_page pi -> exists s', pipeclose pi w s = Ok tt s'.
Proof.
  intros Hr Hru Hp. destruct (pipeclose_run pi w s Hr (running_steady _ Hru)) as (u & E & Hu & _ & _). cbn zeta in E. rewrite E.
  destruct (negb _ && negb _); [|by eexists]. destruct (kfree_ok u pi (Hu Hru) Hp) as (u' & E' & _).
  exists (set_env (setp (set_env s u) pi (close_end (getp s pi) w)) u'). by apply env_ok.
Qed.

(** ** Runs of a pipe

    Any threads run segments of the two operations, close ends, and the rest
    of the kernel runs without putting anyone to sleep on this pipe, switching
    between processes as it likes. [W] and
    [R] are the bytes writers have handed over and readers have received;
    [kd] records that a writer was killed in the middle of a call. *)
Definition accepted pi addr i s s' : list Z :=
  default [] (mapM (user_byte (pip_env s)) (seqZ (addr + i) (u32 (nwrite (getp s' pi) - nwrite (getp s pi))))).
Definition delivered pi addr s s' : list Z :=
  default [] (mapM (user_byte (pip_env s')) (seqZ addr (u32 (nread (getp s' pi) - nread (getp s pi))))).
Definition cut_short pi s (g : segment) : bool :=
  match g with Done r => (r =? -1) && readopen (getp s pi) | Waits _ => false end.

Inductive pipe_run pi (s0 : PS) : list Z -> list Z -> bool -> PS -> Prop :=
  | run_start : pipe_run pi s0 [] [] false s0
  | run_write W R kd s addr n i g s' : pipe_run pi s0 W R kd s -> running (pip_env s) -> 0 <= i <= n -> 0 <= addr -> addr + n < 2 ^ 64 ->
      pipewrite_from pi addr n i s = Ok g s' ->
      pipe_run pi s0 (W ++ accepted pi addr i s s') R (kd || cut_short pi s g) s'
  | run_read W R kd s addr n g s' : pipe_run pi s0 W R kd s -> running (pip_env s) -> 0 <= n -> 0 <= addr -> addr + n < 2 ^ 64 ->
      piperead_from pi addr n s = Ok g s' ->
      pipe_run pi s0 W (R ++ delivered pi addr s s') kd s'
  | run_close W R kd s w s' : pipe_run pi s0 W R kd s -> steady (pip_env s) -> (if w : bool then readopen (getp s pi) else writeopen (getp s pi)) = true ->
      pipeclose pi w s = Ok tt s' -> pipe_run pi s0 W R kd s'
  | run_other W R kd s u : pipe_run pi s0 W R kd s ->
      (forall c, c = ChPipeR pi \/ c = ChPipeW pi -> asleep u c -> asleep (pip_env s) c) ->
      pipe_run pi s0 W R kd (set_env s u).


Lemma accepted_bytes pi addr i k s s' bs : pipe_wf (getp s pi) -> pipe_wf (getp s' pi) -> i <= k ->
  nread (getp s' pi) = nread (getp s pi) -> queue (getp s' pi) = queue (getp s pi) ++ bs ->
  mapM (user_byte (pip_env s)) (seqZ (addr + i) (k - i)) = Some bs -> accepted pi addr i s s' = bs.
Proof.
  intros Hwf Hwf' Hk Hn Hq Hbs. unfold accepted.
  assert (Hlen : Z.of_nat (length bs) = k - i) by (apply length_mapM in Hbs; rewrite length_seqZ in Hbs; lia).
  pose proof (length_queue (getp s' pi)) as L'. rewrite Hq, length_app, Nat2Z.inj_add, length_queue in L'.
  assert (u32 (nwrite (getp s' pi) - nwrite (getp s pi)) = k - i) as ->; [|by rewrite Hbs].
  destruct Hwf as [_ H1 H2 H3 _], Hwf' as [_ H1' H2' H3' _]. unfold qlen in *. rewrite Hn in *. pipe_arith.
Qed.

Lemma mapM_user_bytes (f : Z -> option Z) a bs : (forall j b, bs !! j = Some b -> f (a + Z.of_nat j) = Some b) ->
  mapM f (seqZ a (Z.of_nat (length bs))) = Some bs.
Proof.
  intros Hf. apply mapM_Some, Forall2_same_length_lookup. rewrite length_seqZ. split; [lia|].
  intros j x b Hx Hb. apply lookup_seqZ in Hx as [-> _]. by apply Hf.
Qed.

Lemma delivered_bytes pi addr i s s' bs : pipe_wf (getp s pi) -> pipe_wf (getp s' pi) ->
  nwrite (getp s' pi) = nwrite (getp s pi) -> Z.of_nat (length bs) = i -> queue (getp s pi) = bs ++ queue (getp s' pi) ->
  (i = 0 \/ forall x, user_byte (pip_env s') x = if (addr <=? x) && (x <? addr + i) then bs !! Z.to_nat (x - addr) else user_byte (pip_env s) x) ->
  delivered pi addr s s' = bs.
Proof.
  intros Hwf Hwf' Hn Hlen Hq Hm. unfold delivered.
  pose proof (length_queue (getp s pi)) as L'. rewrite Hq, length_app, Nat2Z.inj_add, length_queue in L'.
  assert (u32 (nread (getp s' pi) - nread (getp s pi)) = Z.of_nat (length bs)) as ->.
  { destruct Hwf as [_ H1 H2 H3 _], Hwf' as [_ H1' H2' H3' _]. unfold qlen in *. rewrite Hn in *. pipe_arith. }
  destruct Hm as [Hi|Hm]; [destruct bs; [done|cbn in Hlen; lia]|].
  rewrite mapM_user_bytes; [done|]. intros j b Hj. pose proof (lookup_lt_Some _ _ _ Hj). rewrite Hm.
  replace (addr <=? addr + Z.of_nat j) with true by lia. replace (addr + Z.of_nat j <? addr + i) with true by lia. cbn [andb].
  by replace (Z.to_nat (addr + Z.of_nat j - addr)) with j by lia.
Qed.

(** Nobody sleeps without a reason. *)
Definition justified pi s : Prop :=
  (asleep (pip_env s) (ChPipeR pi) -> queue (getp s pi) = [] /\ writeopen (getp s pi) = true) /\
  (asleep (pip_env s) (ChPipeW pi) -> qlen (getp s pi) = PIPESIZE /\ readopen (getp s pi) = true).

Lemma full_no_more (l bs : list Z) : Z.of_nat (length l) = PIPESIZE -> Z.of_nat (length (l ++ bs)) <= PIPESIZE -> bs = [].
Proof. intros H1 H2. rewrite length_app in H2. destruct bs; [done|]. cbn in H2. lia. Qed.

Lemma write_justified pi addr n i k s s' bs g : justified pi s -> keeps pi s s' -> pipe_wf (getp s' pi) ->
  queue (getp s' pi) = queue (getp s pi) ++ bs -> mapM (user_byte (pip_env s)) (seqZ (addr + i) (k - i)) = Some bs ->
  write_end pi addr n s s' g i k -> cut_short pi s g = false -> 0 <= k -> justified pi s'.
Proof.
  intros [JR JW] [[Fr Fw] _ _] Hwf Hq Hbs He Hcut Hk. pose proof (wf_qlen _ Hwf) as Hmax. rewrite <- length_queue, Hq in Hmax.
  assert (Kw : asleep (pip_env s) (ChPipeW pi) -> qlen (getp s' pi) = PIPESIZE /\ readopen (getp s' pi) = true).
  { intros Hc. destruct (JW Hc) as [E1 E2]. rewrite <- length_queue in E1. rewrite (full_no_more _ _ E1 Hmax), app_nil_r in Hq.
    rewrite <- length_queue, Hq, Fr. done. }
  destruct g as [r|k']; cbn in He.
  - destruct He as [Ha [(-> & Hn & _)|(-> & Hkn & Hrs)]]; [split; [by intros Hc|intros Hc; apply Kw, Ha, Hc]|].
    cbn in Hcut. destruct Hrs as [[Hc ->]|[Hc _]]; [|congruence].
    rewrite Z.sub_diag in Hbs. injection Hbs as <-. rewrite app_nil_r in Hq. split.
    + intros Hs. rewrite Hq, Fw. apply JR, Ha, Hs.
    + intros Hs. apply Kw, Ha, Hs.
  - destruct He as (-> & Hkn & Hf & Ho & HR & HW & Ha). split; [by intros Hc|]. intros _. by rewrite Fr.
Qed.

Lemma read_justified pi n i s s' bs g : justified pi s -> keeps pi s s' -> pipe_wf (getp s pi) ->
  queue (getp s pi) = bs ++ queue (getp s' pi) -> Z.of_nat (length bs) = i -> read_end pi n s s' g i -> justified pi s'.
Proof.
  intros [JR JW] [[Fr Fw] _ _] Hwf Hq Hlen He.
  assert (Kr : asleep (pip_env s) (ChPipeR pi) -> queue (getp s' pi) = [] /\ writeopen (getp s' pi) = true).
  { intros Hc. destruct (JR Hc) as [E1 E2]. rewrite E1 in Hq. symmetry in Hq. apply app_nil in Hq as [_ ->]. by rewrite Fw. }
  assert (Kw : i = 0 -> asleep (pip_env s) (ChPipeW pi) -> qlen (getp s' pi) = PIPESIZE /\ readopen (getp s' pi) = true).
  { intros -> Hc. destruct bs; [|cbn in Hlen; lia]. rewrite <- length_queue. cbn in Hq. rewrite <- Hq, length_queue, Fr. by apply JW. }
  destruct g as [r|k']; cbn in He.
  - destruct He as [Ha [(HW & _)|(-> & Hi & _)]].
    + split; [intros Hs; apply Kr, Ha, Hs|by intros Hs].
    + split; [intros Hs; apply Kr, Ha, Hs|intros Hs; apply Kw; [done|apply Ha, Hs]].
  - destruct He as (Hi & Hq' & Ho & HR & Ha). split; [intros _; by rewrite Fw|].
    intros Hs. destruct (Ha _ Hs) as [Hs'|Hs']; [discriminate Hs'|by apply Kw].
Qed.

Lemma fresh_ready pi data s : getp s pi = pipe_init data -> length data = Z.to_nat PIPESIZE -> Forall is_byte data -> pipe_ready s pi.
Proof. intros E Hl Hb. unfold pipe_ready, plock. rewrite E. split; [split; cbn; lia || done|done]. Qed.

Record pipe_inv pi (W R : list Z) (kd : bool) s : Prop := {
  pv_ready : pipe_ready s pi;
  pv_bytes : W = R ++ queue (getp s pi);
  pv_sleep : kd = false -> justified pi s
}.

Lemma pipe_run_inv pi data s0 W R kd s : getp s0 pi = pipe_init data -> length data = Z.to_nat PIPESIZE -> Forall is_byte data ->
  ~ asleep (pip_env s0) (ChPipeR pi) -> ~ asleep (pip_env s0) (ChPipeW pi) ->
  pipe_run pi s0 W R kd s -> pipe_inv pi W R kd s.
Proof.
  intros E Hl Hb NR NW Hrun. induction Hrun as [|W R kd s addr n i g s' _ [Hr Hq Hj] Hru Hi Ha Ho Hw|W R kd s addr n g s' _ [Hr Hq Hj] Hru Hn Ha Ho Hw|W R kd s w s' _ [Hr Hq Hj] Hru Hopen Hc|W R kd s u _ [Hr Hq Hj] Hu].
  - split; [by eapply fresh_ready|rewrite E; reflexivity|by split].
  - destruct (pipewrite_from_ok pi addr n i s Hr Hru Hi Ha Ho) as (g' & k & s2 & bs & R2 & Hk & Hr2 & Hkp & Hbs & Hq2 & Hnr & He).
    rewrite Hw in R2. injection R2 as <- <-. split; [done| |].
    + rewrite (accepted_bytes pi addr i k s s' bs); [|apply Hr|apply Hr2|lia|done..]. by rewrite Hq, Hq2, app_assoc.
    + intros [Hkd Hcut]%orb_false_elim. eapply write_justified; [by apply Hj|done|apply Hr2|done..|lia].
  - destruct (piperead_from_ok pi addr n s Hr Hru Hn Ha Ho) as (g' & i & s2 & bs & R2 & Hi & Hr2 & Hkp & Hlen & Hq2 & Hnw & Hm & He).
    rewrite Hw in R2. injection R2 as <- <-. split; [done| |].
    + rewrite (delivered_bytes pi addr i s s' bs); [|apply Hr|apply Hr2|done..]. by rewrite Hq, Hq2, app_assoc.
    + intros Hkd. eapply read_justified; [by apply Hj|done|apply Hr|done..].
  - destruct (pipeclose_ok pi w s Hr Hru Hopen) as (u & p & R2 & Hwf & Hlk & Hqp & Ha & Hro & Hwo & Hns). rewrite Hc in R2. injection R2 as ->.
    split; [unfold pipe_ready, plock; by rewrite getp_setp|by rewrite getp_setp, Hqp|]. intros Hkd. destruct (Hj Hkd) as [JR JW].
    unfold justified. rewrite getp_setp. cbn [setp set_env pip_env]. rewrite <- length_queue, Hqp, length_queue, Hro, Hwo. destruct w; cbn in *.
    + split; [done|]. intros Hs. split; [|done]. apply JW, Ha, Hs.
    + split; [|done]. intros Hs. split; [|done]. apply JR, Ha, Hs.
  - split; [done|done|]. intros Hkd. destruct (Hj Hkd) as [JR JW]. split; intros Hs; [apply JR|apply JW]; (apply Hu; [auto|exact Hs]).
Qed.
(** C14. Whatever segments of [pipewrite], [piperead] and [pipeclose] the
    threads of the system run on a pipe, and in whatever order, the bytes
    writers handed over are the bytes readers received followed by the bytes
    in the buffer, of which there are at most PIPESIZE, also when the 32-bit
    counters wrap; and every further segment ends: a running process that
    writes, reads or closes an end (the last one too, which frees the page)
    meets no panic and no endless loop. *)
Theorem pipe_fifo pi data s0 W R kd s :
  getp s0 pi = pipe_init data -> length data = Z.to_nat PIPESIZE -> Forall is_byte data -> is_page pi ->
  ~ asleep (pip_env s0) (ChPipeR pi) -> ~ asleep (pip_env s0) (ChPipeW pi) -> pipe_run pi s0 W R kd s ->
  W = R ++ queue (getp s pi) /\ Z.of_nat (length (queue (getp s pi))) <= PIPESIZE /\
  (running (pip_env s) ->
   (forall addr n i, 0 <= i <= n -> 0 <= addr -> addr + n < 2 ^ 64 -> exists g s', pipewrite_from pi addr n i s = Ok g s') /\
   (forall addr n, 0 <= n -> 0 <= addr -> addr + n < 2 ^ 64 -> exists g s', piperead_from pi addr n s = Ok g s') /\
   (forall w, exists s', pipeclose pi w s = Ok tt s')).
Proof.
  intros E Hl Hb Hp NR NW Hrun. destruct (pipe_run_inv pi data s0 W R kd s E Hl Hb NR NW Hrun) as [Hr Hq _].
  split_and!; [done|rewrite length_queue; apply (wf_qlen _ (proj1 Hr))|]. intros Hru. split_and!.
  - intros addr n i Hi Ha Ho. destruct (pipewrite_from_ok pi addr n i s Hr Hru Hi Ha Ho) as (g & k & s' & bs & Hw & _). by exists g, s'.
  - intros addr n Hn Ha Ho. destruct (piperead_from_ok pi addr n s Hr Hru Hn Ha Ho) as (g & i & s' & bs & Hw & _). by exists g, s'.
  - intros w. by apply pipeclose_total.
Qed.

(** No wakeup of a pipe is lost: as long as no writer was killed in the
    middle of a call, a process asleep in [piperead] has nothing to read and
    may still get something, and one asleep in [pipewrite] has no room and
    may still get some. *)
Theorem pipe_no_lost_wakeup pi data s0 W R s :
  getp s0 pi = pipe_init data -> length data = Z.to_nat PIPESIZE -> Forall is_byte data ->
  ~ asleep (pip_env s0) (ChPipeR pi) -> ~ asleep (pip_env s0) (ChPipeW pi) -> pipe_run pi s0 W R false s ->
  (asleep (pip_env s) (ChPipeR pi) -> W = R /\ writeopen (getp s pi) = true) /\
  (asleep (pip_env s) (ChPipeW pi) -> Z.of_nat (length W - length R) = PIPESIZE /\ readopen (getp s pi) = true).
Proof.
  intros E Hl Hb NR NW Hrun. destruct (pipe_run_inv pi data s0 W R false s E Hl Hb NR NW Hrun) as [Hr Hq Hj].
  destruct (Hj eq_refl) as [JR JW]. split; intros Hs.
  - destruct (JR Hs) as [Hn Ho]. rewrite Hn, app_nil_r in Hq. done.
  - destruct (JW Hs) as [Hf Ho]. split; [|done]. rewrite Hq, length_app. rewrite <- length_queue in Hf. lia.
Qed.
End pipe_spec.

(** ** Evaluation *)

#[local] Existing Instance flat_env.
#[local] Existing Instance flat_spec.

Definition demo_bytes : gmap Z Z := list_to_map (zip (seqZ 100 8) [72; 101; 108; 108; 111; 33; 0; 0]).
Definition demo_pipe (kills : list bool) : pipest flat :=
  mk_pipest (mk_flat demo_bytes [] kills) {[ 7 := pipe_init (replicate (Z.to_nat PIPESIZE) 0) ]}.

Lemma demo_data : Forall is_byte (replicate (Z.to_nat PIPESIZE) 0).
Proof. apply Forall_replicate. unfold is_byte. lia. Qed.

(** The state a routine that returns leaves. *)
Definition after {S A} (d : S) (o : outcome S A) : S := match o with Ok _ s => s | _ => d end.
Definition demo_p1 : pipest flat := after (demo_pipe []) (piperead_from 7 200 2 (demo_pipe [])).
Definition demo_p2 : pipest flat := after (demo_pipe []) (pipewrite_from 7 100 3 0 demo_p1).
Definition demo_p3 : pipest flat := after (demo_pipe []) (piperead_from 7 106 2 demo_p2).

(** A reader sleeps, a writer hands over three bytes, a reader gets two. *)
Lemma demo_run : pipe_run 7 (demo_pipe []) [72; 101; 108] [72; 101] false demo_p3.
Proof.
  change [72; 101; 108] with ([] ++ accepted 7 100 0 demo_p1 demo_p2).
  change [72; 101] with (([] ++ delivered 7 200 (demo_pipe []) demo_p1) ++ delivered 7 106 demo_p2 demo_p3).
  apply (run_read 7 _ _ _ _ demo_p2 106 2 (Done 2)); [|exact I|lia..|vm_compute; reflexivity].
  change false with (false || cut_short 7 demo_p1 (Done 3)).
  apply (run_write 7 _ _ _ _ demo_p1 100 3 0 (Done 3)); [|exact I|lia..|vm_compute; reflexivity].
  apply (run_read 7 _ _ _ _ (demo_pipe []) 200 2 (Waits 0)); [constructor|exact I|lia..|vm_compute; reflexivity].
Qed.

Lemma pipe_fifo_witness : [72; 101; 108] = [72; 101] ++ queue (getp demo_p3 7).
Proof.
  apply (pipe_fifo 7 (replicate (Z.to_nat PIPESIZE) 0) (demo_pipe []) _ _ false); [reflexivity|reflexivity|apply demo_data|exact I| | |apply demo_run];
    intros Hs; inversion Hs.
Defined.

(** The reader of the empty pipe sleeps. *)
Lemma demo_sleeps : pipe_run 7 (demo_pipe []) [] [] false demo_p1.
Proof.
  refine (run_read 7 (demo_pipe []) [] [] false (demo_pipe []) 200 2 (Waits 0) demo_p1 _ _ _ _ _ _); [constructor|exact I|lia..|vm_compute; reflexivity].
Qed.

Lemma pipe_no_lost_wakeup_witness :
  asleep (pip_env demo_p1) (ChPipeR 7) /\ ([] : list Z) = [] /\ writeopen (getp demo_p1 7) = true.
Proof.
  split; [vm_compute; constructor|].
  apply (pipe_no_lost_wakeup 7 (replicate (Z.to_nat PIPESIZE) 0) (demo_pipe [])); [reflexivity|reflexivity|apply demo_data| | |apply demo_sleeps|vm_compute; constructor];
    intros Hs; inversion Hs.
Defined.

(** A writer that is killed after its first byte returns without waking the
    reader that waits for it. *)
Definition demo_k1 : pipest flat := after (demo_pipe []) (piperead_from 7 200 2 (demo_pipe [false; false; true])).
Definition demo_k2 : pipest flat := after (demo_pipe []) (pipewrite_from 7 100 3 0 demo_k1).
Theorem killed_writer_strands_reader :
  pipe_run 7 (demo_pipe [false; false; true]) [72] [] true demo_k2 /\
  asleep (pip_env demo_k2) (ChPipeR 7) /\ queue (getp demo_k2 7) = [72] /\ writeopen (getp demo_k2 7) = true.
Proof.
  split_and!; [|vm_compute; constructor|reflexivity|reflexivity].
  refine (run_write 7 (demo_pipe [false; false; true]) [] [] false demo_k1 100 3 0 (Done (-1)) demo_k2 _ _ _ _ _ _); [|exact I|lia..|vm_compute; reflexivity].
  refine (run_read 7 (demo_pipe [false; false; true]) [] [] false (demo_pipe [false; false; true]) 200 2 (Waits 0) demo_k1 _ _ _ _ _ _);
    [constructor|exact I|lia..|vm_compute; reflexivity].
Qed.
