(* ===== verification/Printf.v ===== *)
(** * Formatted output (kernel/printf.c, user/printf.c)

    The bytes printed, as lists. A format is the bytes of the C string, and
    an argument is a 64-bit register value or a string ([None] for the null
    pointer). *)

From stdpp Require Import base list numbers strings.
From Stdlib Require Import ZArith Lia.
From S2P Require Import Prelude.
Open Scope Z_scope.

Definition digits_lower : list Z := [48; 49; 50; 51; 52; 53; 54; 55; 56; 57; 97; 98; 99; 100; 101; 102].
Definition digits_upper : list Z := [48; 49; 50; 51; 52; 53; 54; 55; 56; 57; 65; 66; 67; 68; 69; 70].

Inductive arg := Word (w : Z) | Str (s : option (list Z)).

(** The bytes of a string literal, and a line of text. *)
Definition str (s : string) : list Z := map (fun c => Z.of_N (Ascii.N_of_ascii c)) (String.list_ascii_of_string s).
Definition line (s : string) : list Z := str s ++ [10].

Definition BACKSPACE : Z := 0x100.
(** [consputc]: the bytes sent to the uart. *)
Definition consputc (c : Z) : list Z := if c =? BACKSPACE then [8; 32; 8] else [u8 c].

Section printing.
Context (digits : list Z).

(** [do { buf[i++] = digits[x % base]; } while((x /= base) != 0);] with what
    is in [buf] already. The unsigned [x] has at most 64 digits in any base. *)
Fixpoint digit_loop (fuel : nat) (x base : Z) (buf : list Z) : list Z :=
  match fuel with
  | O => buf
  | S k =>
      let buf := buf ++ [nthz digits (x mod base)] in
      if x / base =? 0 then buf else digit_loop k (x / base) base buf
  end.

(** [buf] when [printint] prints it, from the last element to the first. *)
Definition printint_buf (xx base : Z) (sign : bool) : list Z :=
  let neg := sign && (xx <? 0) in
  let x := if neg then u64 (- xx) else u64 xx in
  let buf := digit_loop 64 x base [] in
  if neg then buf ++ [45] else buf.
Definition printint (xx base : Z) (sign : bool) : list Z := rev (printint_buf xx base sign).

(** [for (i = 0; i < 16; i++, x <<= 4) putc(digits[x >> 60]);] *)
Fixpoint ptr_loop (n : nat) (x : Z) : list Z :=
  match n with
  | O => []
  | S k => nthz digits (Z.shiftr x 60) :: ptr_loop k (u64 (Z.shiftl x 4))
  end.
Definition printptr (x : Z) : list Z := [48; 120] ++ ptr_loop 16 x.

(** What a conversion prints: an integer of a width, base and signedness. *)
Inductive conv := CInt (width base : Z) (sign : bool) | CPtr | CChar | CStr | CPercent | CUnknown.

(** The chain of tests on [c0], [c1], [c2]: the conversion and how many
    characters after [c0] it uses. *)
Definition conversion (c0 c1 c2 : Z) : conv * nat :=
  let d := 100 in let l := 108 in let u := 117 in let x := 120 in
  if c0 =? d then (CInt 32 10 true, 0%nat)
  else if (c0 =? l) && (c1 =? d) then (CInt 64 10 true, 1%nat)
  else if (c0 =? l) && (c1 =? l) && (c2 =? d) then (CInt 64 10 true, 2%nat)
  else if c0 =? u then (CInt 32 10 false, 0%nat)
  else if (c0 =? l) && (c1 =? u) then (CInt 64 10 false, 1%nat)
  else if (c0 =? l) && (c1 =? l) && (c2 =? u) then (CInt 64 10 false, 2%nat)
  else if c0 =? x then (CInt 32 16 false, 0%nat)
  else if (c0 =? l) && (c1 =? x) then (CInt 64 16 false, 1%nat)
  else if (c0 =? l) && (c1 =? l) && (c2 =? x) then (CInt 64 16 false, 2%nat)
  else if c0 =? 112 then (CPtr, 0%nat)
  else if c0 =? 99 then (CChar, 0%nat)
  else if c0 =? 115 then (CStr, 0%nat)
  else if c0 =? 37 then (CPercent, 0%nat)
  else (CUnknown, 0%nat).

Definition word (a : arg) : Z := match a with Word w => w | Str _ => 0 end.
Definition text (a : arg) : list Z :=
  match a with Str (Some s) => s | _ => [40; 110; 117; 108; 108; 41] (* "(null)" *) end.

(** [va_arg(ap, int)], [va_arg(ap, uint32)] or [va_arg(ap, uint64)] as the
    [long long] parameter. *)
Definition int_arg (width : Z) (sign : bool) (w : Z) : Z :=
  if width =? 64 then i64 w else if sign then i32 w else u32 w.

Section put.
Context (put : Z -> list Z).
Definition put_all (l : list Z) : list Z := concat (map put l).

(** One conversion: its output and the arguments that are left. *)
Definition convert (c : conv) (c0 : Z) (args : list arg) : list Z * list arg :=
  let a := hd (Word 0) args in
  match c with
  | CInt width base sign => (put_all (printint (int_arg width sign (word a)) base sign), tl args)
  | CPtr => (put_all (printptr (u64 (word a))), tl args)
  | CChar => (put (u32 (word a)), tl args)
  | CStr => (put_all (text a), tl args)
  | CPercent => (put 37, args)
  | CUnknown => (put 37 ++ put c0, args)
  end.

(** The loop of the kernel's [printf] at the rest of the format. *)
Fixpoint kprintf_loop (fuel : nat) (fmt : list Z) (args : list arg) : list Z :=
  match fuel, fmt with
  | S k, cx :: fmt =>
      if negb (cx =? 37) then put cx ++ kprintf_loop k fmt args
      else
        match fmt with
        | [] => []
        | c0 :: fmt =>
            let c1 := hd 0 fmt in
            let c2 := hd 0 (tl fmt) in
            let '(c, n) := conversion c0 c1 c2 in
            let '(out, args) := convert c c0 args in
            out ++ kprintf_loop k (drop n fmt) args
        end
  | _, _ => []
  end.

(** The loop of the user's [vprintf]: [state] is 0 or '%', and [skip] the
    increments of [i] inside the body. *)
Fixpoint vprintf_loop (fmt : list Z) (state : Z) (skip : nat) (args : list arg) : list Z :=
  match fmt with
  | [] => []
  | c0 :: fmt =>
      match skip with
      | S k => vprintf_loop fmt state k args
      | O =>
          if state =? 0 then
            if c0 =? 37 then vprintf_loop fmt 37 0 args
            else put c0 ++ vprintf_loop fmt 0 0 args
          else
            let c1 := hd 0 fmt in
            let c2 := hd 0 (tl fmt) in
            let '(c, n) := conversion c0 c1 c2 in
            let '(out, args) := convert c c0 args in
            out ++ vprintf_loop fmt 0 n args
      end
  end.
End put.
End printing.

(** The two routines: the kernel prints on the console, a program writes
    bytes to a descriptor. *)
Definition kernel_printf (fmt : list Z) (args : list arg) : list Z := kprintf_loop digits_lower consputc (S (length fmt)) fmt args.
Definition vprintf (fmt : list Z) (args : list arg) : list Z := vprintf_loop digits_upper (fun c => [u8 c]) fmt 0 0 args.

(** ** Integers *)

Section digits.
Context (digits : list Z) (base : Z) (base_ok : 2 <= base).

(** The value of digits, least significant first. *)
Fixpoint value (ds : list Z) : Z := match ds with [] => 0 | d :: ds => d + base * value ds end.

(** The loop produces the base-[base] digits of [x], at least one, without a
    leading zero, and its fuel is enough for a number below [base^k]. *)
Lemma digit_loop_spec fuel k x buf : (0 < k <= fuel)%nat -> 0 <= x < base ^ Z.of_nat k ->
  exists ds, digit_loop digits fuel x base buf = buf ++ map (nthz digits) ds /\ value ds = x /\
    (1 <= length ds <= k)%nat /\ Forall (fun d => 0 <= d < base) ds /\ (x <> 0 -> last ds <> Some 0).
Proof using base_ok.
  revert k x buf. induction fuel as [|fuel IH]; intros k x buf Hk Hx; [lia|]. cbn [digit_loop].
  pose proof (Z.mod_pos_bound x base ltac:(lia)) as Hm. pose proof (Z.div_mod x base ltac:(lia)) as Hdm.
  destruct (Z.eqb_spec (x / base) 0) as [Hz|Hz].
  - exists [x mod base]. cbn. split_and!; [done|lia|lia|lia|constructor; [done|constructor]|]. intros Hne [= E]. lia.
  - assert (Hk1 : (1 < k)%nat).
    { destruct (decide (k = 1%nat)) as [->|]; [|lia]. exfalso. apply Hz. apply Z.div_small. rewrite Z.pow_1_r in Hx. lia. }
    destruct (IH (k - 1)%nat (x / base) (buf ++ [nthz digits (x mod base)])) as (ds & E & Hv & Hl & Hd & Hlast); [lia| |].
    { split; [apply Z.div_pos; lia|]. apply Z.div_lt_upper_bound; [lia|]. rewrite <- Z.pow_succ_r by lia.
      replace (Z.succ (Z.of_nat (k - 1))) with (Z.of_nat k) by lia. lia. }
    exists (x mod base :: ds). rewrite E. cbn [map value length]. split_and!; [by rewrite <- app_assoc|lia|lia|lia|by constructor|].
    intros _. destruct ds; [cbn in Hl; lia|]. by apply Hlast.
Qed.
End digits.

(** [printint]'s buffer: a numeral and a sign. *)
Lemma printint_buf_spec digits xx base sign : base = 10 \/ base = 16 -> - 2 ^ 63 <= xx < 2 ^ 63 ->
  exists ds, printint_buf digits xx base sign = map (nthz digits) ds ++ (if sign && (xx <? 0) then [45] else []) /\
    value base ds = (if sign && (xx <? 0) then - xx else u64 xx) /\ (1 <= length ds <= (if sign && (xx <? 0)%Z then 19 else 20))%nat /\
    Forall (fun d => 0 <= d < base) ds.
Proof.
  intros Hb Hx. unfold printint_buf. set (neg := sign && (xx <? 0)).
  assert (Hneg : neg = true -> xx < 0) by (unfold neg; intros [_ E]%andb_true_iff; lia).
  set (x := if neg then u64 (- xx) else u64 xx).
  assert (Ex : x = if neg then - xx else u64 xx) by (unfold x; destruct neg; [apply u64_small; lia|done]).
  destruct (digit_loop_spec digits base ltac:(lia) 64 (if neg then 19 else 20)%nat x []) as (ds & E & Hv & Hl & Hd & _).
  - destruct neg; lia.
  - rewrite Ex. pose proof (u64_range xx). destruct neg; [specialize (Hneg eq_refl)|]; destruct Hb as [-> | ->]; cbn; lia.
  - exists ds. rewrite E. cbn [app]. destruct neg; rewrite ?app_nil_r; (split_and!; [done|congruence|lia|lia|done]).
Qed.

(** [printint] never writes past its buffer of 20 bytes, whatever 64-bit
    number it prints, in base 10 or 16, signed or not. *)
Theorem printint_fits digits xx base sign : base = 10 \/ base = 16 -> - 2 ^ 63 <= xx < 2 ^ 63 ->
  (1 <= length (printint_buf digits xx base sign) <= 20)%nat.
Proof.
  intros Hb Hx. destruct (printint_buf_spec digits xx base sign Hb Hx) as (ds & -> & _ & Hl & _).
  rewrite length_app, length_map. destruct (sign && (xx <? 0)); cbn; lia.
Qed.

Lemma printint_fits_witness : length (printint_buf digits_lower (- 2 ^ 63) 10 true) = 20%nat /\
  (1 <= length (printint_buf digits_lower (- 2 ^ 63) 10 true) <= 20)%nat.
Proof. split; [vm_compute; reflexivity|]. apply (printint_fits digits_lower (- 2 ^ 63) 10 true); [by left|lia]. Defined.

(** ** The two format loops *)

Lemma vprintf_skip digits put n fmt state args : vprintf_loop digits put fmt state n args = vprintf_loop digits put (drop n fmt) state 0 args.
Proof. revert fmt. induction n as [|n IH]; intros [|c fmt]; try done. cbn [vprintf_loop drop]. apply IH. Qed.

Lemma kprintf_vprintf digits put fuel fmt args : (length fmt < fuel)%nat ->
  kprintf_loop digits put fuel fmt args = vprintf_loop digits put fmt 0 0 args.
Proof.
  revert fmt args. induction fuel as [|fuel IH]; intros fmt args Hf; [lia|]. destruct fmt as [|cx fmt]; [done|]. cbn [length] in Hf.
  cbn [kprintf_loop vprintf_loop]. change (0 =? 0) with true. cbn iota. destruct (Z.eqb_spec cx 37) as [->|Hne]; cbn [negb].
  - destruct fmt as [|c0 fmt]; [done|]. cbn [length] in Hf. cbn [vprintf_loop]. change (37 =? 0) with false. cbn iota.
    destruct (conversion c0 (hd 0 fmt) (hd 0 (tl fmt))) as [c n]. destruct (convert digits put c c0 args) as [out args'].
    f_equal. rewrite vprintf_skip. apply IH. rewrite length_drop. lia.
  - f_equal. apply IH. lia.
Qed.

(** The kernel's [printf] and the library's [vprintf], two different
    loops over the format, interpret every format and argument list alike:
    with the same digits and the same output of one character they print the
    same bytes, also on truncated and unknown conversions. *)
Theorem printf_loops_agree digits put fmt args :
  kprintf_loop digits put (S (length fmt)) fmt args = vprintf_loop digits put fmt 0 0 args.
Proof. apply kprintf_vprintf. lia. Qed.
