(* ===== verification/Proc.v ===== *)
(** * Processes (kernel/proc.c, kernel/proc.h)

    The process table over the memory of [Kalloc] and the page tables of
    [Vm]. A process pointer is an index into the table; [me] is the process
    running on this hart, if any. A trap frame is a page of memory, read and written
    at the byte offsets of proc.h. Operations that also use open files are in
    [Kernel]. *)

From stdpp Require Import base gmap list numbers strings.
From Stdlib Require Import ZArith Lia.
From S2P Require Import Prelude Riscv Mem Spinlock Kalloc Vm BlockIO ProcEnv Printf.
Open Scope Z_scope.
Open Scope kernel_scope.

Definition NOFILE : nat := 16.

Inductive procstate := UNUSED | USED | SLEEPING | RUNNABLE | RUNNING | ZOMBIE.
#[export] Instance procstate_eq_dec : EqDecision procstate.
Proof. solve_decision. Defined.

(** struct proc *)
Record proc := mk_proc {
  p_lock : bool; p_state : procstate; p_chan : option chan; p_killed : bool; p_xstate : Z; p_pid : Z;
  p_parent : option nat; p_kstack : Z; p_sz : Z; p_pagetable : Z; p_trapframe : Z; p_context : list Z; (* ra, sp, s0 .. s11 *)
  p_ofile : list (option nat); p_cwd : option nat; p_name : list Z }.

Definition set_p_lock (p : proc) (v : bool) : proc :=
  mk_proc v (p_state p) (p_chan p) (p_killed p) (p_xstate p) (p_pid p) (p_parent p) (p_kstack p) (p_sz p) (p_pagetable p) (p_trapframe p) (p_context p) (p_ofile p) (p_cwd p) (p_name p).
Definition set_p_state (v : procstate) (p : proc) : proc :=
  mk_proc (p_lock p) v (p_chan p) (p_killed p) (p_xstate p) (p_pid p) (p_parent p) (p_kstack p) (p_sz p) (p_pagetable p) (p_trapframe p) (p_context p) (p_ofile p) (p_cwd p) (p_name p).
Definition set_p_chan (v : option chan) (p : proc) : proc :=
  mk_proc (p_lock p) (p_state p) v (p_killed p) (p_xstate p) (p_pid p) (p_parent p) (p_kstack p) (p_sz p) (p_pagetable p) (p_trapframe p) (p_context p) (p_ofile p) (p_cwd p) (p_name p).
Definition set_p_killed (v : bool) (p : proc) : proc :=
  mk_proc (p_lock p) (p_state p) (p_chan p) v (p_xstate p) (p_pid p) (p_parent p) (p_kstack p) (p_sz p) (p_pagetable p) (p_trapframe p) (p_context p) (p_ofile p) (p_cwd p) (p_name p).
Definition set_p_xstate (v : Z) (p : proc) : proc :=
  mk_proc (p_lock p) (p_state p) (p_chan p) (p_killed p) v (p_pid p) (p_parent p) (p_kstack p) (p_sz p) (p_pagetable p) (p_trapframe p) (p_context p) (p_ofile p) (p_cwd p) (p_name p).
Definition set_p_pid (v : Z) (p : proc) : proc :=
  mk_proc (p_lock p) (p_state p) (p_chan p) (p_killed p) (p_xstate p) v (p_parent p) (p_kstack p) (p_sz p) (p_pagetable p) (p_trapframe p) (p_context p) (p_ofile p) (p_cwd p) (p_name p).
Definition set_p_parent (v : option nat) (p : proc) : proc :=
  mk_proc (p_lock p) (p_state p) (p_chan p) (p_killed p) (p_xstate p) (p_pid p) v (p_kstack p) (p_sz p) (p_pagetable p) (p_trapframe p) (p_context p) (p_ofile p) (p_cwd p) (p_name p).
Definition set_p_kstack (v : Z) (p : proc) : proc :=
  mk_proc (p_lock p) (p_state p) (p_chan p) (p_killed p) (p_xstate p) (p_pid p) (p_parent p) v (p_sz p) (p_pagetable p) (p_trapframe p) (p_context p) (p_ofile p) (p_cwd p) (p_name p).
Definition set_p_sz (v : Z) (p : proc) : proc :=
  mk_proc (p_lock p) (p_state p) (p_chan p) (p_killed p) (p_xstate p) (p_pid p) (p_parent p) (p_kstack p) v (p_pagetable p) (p_trapframe p) (p_context p) (p_ofile p) (p_cwd p) (p_name p).
Definition set_p_pagetable (v : Z) (p : proc) : proc :=
  mk_proc (p_lock p) (p_state p) (p_chan p) (p_killed p) (p_xstate p) (p_pid p) (p_parent p) (p_kstack p) (p_sz p) v (p_trapframe p) (p_context p) (p_ofile p) (p_cwd p) (p_name p).
Definition set_p_trapframe (v : Z) (p : proc) : proc :=
  mk_proc (p_lock p) (p_state p) (p_chan p) (p_killed p) (p_xstate p) (p_pid p) (p_parent p) (p_kstack p) (p_sz p) (p_pagetable p) v (p_context p) (p_ofile p) (p_cwd p) (p_name p).
Definition set_p_context (v : list Z) (p : proc) : proc :=
  mk_proc (p_lock p) (p_state p) (p_chan p) (p_killed p) (p_xstate p) (p_pid p) (p_parent p) (p_kstack p) (p_sz p) (p_pagetable p) (p_trapframe p) v (p_ofile p) (p_cwd p) (p_name p).
Definition set_p_ofile (v : list (option nat)) (p : proc) : proc :=
  mk_proc (p_lock p) (p_state p) (p_chan p) (p_killed p) (p_xstate p) (p_pid p) (p_parent p) (p_kstack p) (p_sz p) (p_pagetable p) (p_trapframe p) (p_context p) v (p_cwd p) (p_name p).
Definition set_p_cwd (v : option nat) (p : proc) : proc :=
  mk_proc (p_lock p) (p_state p) (p_chan p) (p_killed p) (p_xstate p) (p_pid p) (p_parent p) (p_kstack p) (p_sz p) (p_pagetable p) (p_trapframe p) (p_context p) (p_ofile p) v (p_name p).
Definition set_p_name (v : list Z) (p : proc) : proc :=
  mk_proc (p_lock p) (p_state p) (p_chan p) (p_killed p) (p_xstate p) (p_pid p) (p_parent p) (p_kstack p) (p_sz p) (p_pagetable p) (p_trapframe p) (p_context p) (p_ofile p) (p_cwd p) v.
Definition proc0 : proc :=
  mk_proc false UNUSED None false 0 0 None 0 0 0 0 (replicate 14 0) (replicate NOFILE None) None (replicate 16 0).

Record pst := mk_pst {
  ps_mem : memst; ps_proc : list proc; pid_lock : bool; wait_lock : bool; nextpid : Z; initproc : option nat; me : option nat }.
Definition set_mem (s : pst) (v : memst) : pst := mk_pst v (ps_proc s) (pid_lock s) (wait_lock s) (nextpid s) (initproc s) (me s).
Definition set_proc (s : pst) (v : list proc) : pst := mk_pst (ps_mem s) v (pid_lock s) (wait_lock s) (nextpid s) (initproc s) (me s).
Definition set_pid_lock (s : pst) (v : bool) : pst := mk_pst (ps_mem s) (ps_proc s) v (wait_lock s) (nextpid s) (initproc s) (me s).
Definition set_wait_lock (s : pst) (v : bool) : pst := mk_pst (ps_mem s) (ps_proc s) (pid_lock s) v (nextpid s) (initproc s) (me s).
Definition set_nextpid (s : pst) (v : Z) : pst := mk_pst (ps_mem s) (ps_proc s) (pid_lock s) (wait_lock s) v (initproc s) (me s).
Definition set_initproc (s : pst) (v : option nat) : pst := mk_pst (ps_mem s) (ps_proc s) (pid_lock s) (wait_lock s) (nextpid s) v (me s).
Definition set_me (s : pst) (v : option nat) : pst := mk_pst (ps_mem s) (ps_proc s) (pid_lock s) (wait_lock s) (nextpid s) (initproc s) v.

Section proc_c.
Context {img : KernelImage}.
Implicit Types (s : pst) (p q : nat).

Definition mem {A} (m : M memst A) : M pst A := zoom ps_mem set_mem m.
Definition getproc s p : proc := default proc0 (ps_proc s !! p).
Definition setproc s p (x : proc) : pst := set_proc s (<[p := x]> (ps_proc s)).
Definition updproc p (f : proc -> proc) : M pst unit := modify (fun s => setproc s p (f (getproc s p))).
Definition plk p s : bool := p_lock (getproc s p).
Definition set_plk p s (b : bool) : pst := setproc s p (set_p_lock (getproc s p) b).
Definition acquire_proc p : M pst unit := acquire (plk p) (set_plk p).
Definition release_proc p : M pst unit := release (plk p) (set_plk p).
(** [myproc()], in a process *)
Definition mine s : nat := default 0%nat (me s).
Definition nproc : nat := Z.to_nat NPROC.
Definition all_procs : list nat := seq 0 nproc.

Definition procinit : M pst unit :=
  modify (fun s => set_pid_lock s false) ;;;
  modify (fun s => set_wait_lock s false) ;;;
  for_all all_procs (fun p =>
    modify (fun s => set_plk p s false) ;;;
    updproc p (set_p_state UNUSED) ;;;
    updproc p (set_p_kstack (KSTACK (Z.of_nat p)))).

Definition allocpid : M pst Z :=
  acquire pid_lock set_pid_lock ;;;
  pid <- gets nextpid ;;
  modify (fun s => set_nextpid s (i32 (pid + 1))) ;;;
  release pid_lock set_pid_lock ;;;
  ret pid.

(** The page table of process [p]: its trap frame is the page of [p]. *)
Definition proc_pagetable p : M pst Z :=
  pagetable <- mem uvmcreate ;;
  if pagetable =? 0 then ret 0
  else
    r <- mem (mappages pagetable TRAMPOLINE PGSIZE trampoline (Z.lor PTE_R PTE_X)) ;;
    if r <? 0 then mem (uvmfree pagetable 0) ;;; ret 0
    else
      tf <- gets (fun s => p_trapframe (getproc s p)) ;;
      r <- mem (mappages pagetable TRAPFRAME PGSIZE tf (Z.lor PTE_R PTE_W)) ;;
      if r <? 0 then
        mem (uvmunmap pagetable TRAMPOLINE 1 false) ;;;
        mem (uvmfree pagetable 0) ;;;
        ret 0
      else ret pagetable.

Definition proc_freepagetable (pagetable sz : Z) : M pst unit :=
  mem (uvmunmap pagetable TRAMPOLINE 1 false) ;;;
  mem (uvmunmap pagetable TRAPFRAME 1 false) ;;;
  mem (uvmfree pagetable sz).

(** [p->name[0] = 0] *)
Definition clear_name (x : proc) : proc := set_p_name (setz (p_name x) 0 0) x.

Definition freeproc p : M pst unit :=
  s <- get ;;
  when (negb (p_trapframe (getproc s p) =? 0)) (mem (kfree (p_trapframe (getproc s p)))) ;;;
  updproc p (set_p_trapframe 0) ;;;
  s <- get ;;
  when (negb (p_pagetable (getproc s p) =? 0)) (proc_freepagetable (p_pagetable (getproc s p)) (p_sz (getproc s p))) ;;;
  updproc p (set_p_pagetable 0) ;;;
  updproc p (set_p_sz 0) ;;;
  updproc p (set_p_pid 0) ;;;
  updproc p (set_p_parent None) ;;;
  updproc p clear_name ;;;
  updproc p (set_p_chan None) ;;;
  updproc p (set_p_killed false) ;;;
  updproc p (set_p_xstate 0) ;;;
  updproc p (set_p_state UNUSED).

(** The scan for an UNUSED entry: it returns with that entry locked. *)
Definition find_unused : M pst (option nat) :=
  for_each all_procs (fun p =>
    acquire_proc p ;;;
    s <- get ;;
    if decide (p_state (getproc s p) = UNUSED) then ret (Some p)
    else release_proc p ;;; ret None).

(** [forkret] is the address new processes start at. *)
Definition allocproc (forkret : Z) : M pst (option nat) :=
  r <- find_unused ;;
  match r with
  | None => ret None
  | Some p =>
      pid <- allocpid ;;
      updproc p (set_p_pid pid) ;;;
      updproc p (set_p_state USED) ;;;
      tf <- mem kalloc ;;
      updproc p (set_p_trapframe tf) ;;;
      if tf =? 0 then freeproc p ;;; release_proc p ;;; ret None
      else
        pt <- proc_pagetable p ;;
        updproc p (set_p_pagetable pt) ;;;
        if pt =? 0 then freeproc p ;;; release_proc p ;;; ret None
        else
          s <- get ;;
          updproc p (set_p_context (forkret :: u64 (p_kstack (getproc s p) + PGSIZE) :: replicate 12 0)) ;;;
          ret (Some p)
  end.

Definition growproc (n : Z) : M pst Z :=
  p <- gets mine ;;
  s <- get ;;
  let sz := p_sz (getproc s p) in
  let pagetable := p_pagetable (getproc s p) in
  if 0 <? n then
    if TRAPFRAME <? u64 (sz + n) then ret (-1)
    else
      sz1 <- mem (uvmalloc pagetable sz (u64 (sz + n)) PTE_W) ;;
      if sz1 =? 0 then ret (-1)
      else updproc p (set_p_sz sz1) ;;; ret 0
  else if n <? 0 then
    sz1 <- mem (uvmdealloc pagetable sz (u64 (sz + n))) ;;
    updproc p (set_p_sz sz1) ;;; ret 0
  else updproc p (set_p_sz sz) ;;; ret 0.

Definition wakeup_procs (c : chan) : M pst unit :=
  for_all all_procs (fun p =>
    m <- gets me ;;
    if decide (Some p = m) then ret tt
    else
      acquire_proc p ;;;
      s <- get ;;
      when (bool_decide (p_state (getproc s p) = SLEEPING /\ p_chan (getproc s p) = Some c))
        (updproc p (set_p_state RUNNABLE)) ;;;
      release_proc p).

Definition kkill (pid : Z) : M pst Z :=
  r <- for_each all_procs (fun p =>
    acquire_proc p ;;;
    s <- get ;;
    if p_pid (getproc s p) =? pid then
      updproc p (set_p_killed true) ;;;
      when (bool_decide (p_state (getproc s p) = SLEEPING)) (updproc p (set_p_state RUNNABLE)) ;;;
      release_proc p ;;;
      ret (Some 0)
    else release_proc p ;;; ret None) ;;
  match r with Some v => ret v | None => ret (-1) end.

Definition setkilled p : M pst unit :=
  acquire_proc p ;;;
  updproc p (set_p_killed true) ;;;
  release_proc p.

Definition proc_killed p : M pst bool :=
  acquire_proc p ;;;
  k <- gets (fun s => p_killed (getproc s p)) ;;
  release_proc p ;;;
  ret k.

(** Waits for [initproc] sleep on its own entry. *)
Definition reparent p : M pst unit :=
  for_all all_procs (fun pp =>
    s <- get ;;
    when (bool_decide (p_parent (getproc s pp) = Some p))
      (updproc pp (set_p_parent (initproc s)) ;;;
       match initproc s with Some i => wakeup_procs (ChProc i) | None => ret tt end)).

(** [sched()]: its checks on the entry; those on [noff] and on interrupts
    are about the hart state of [Spinlock]. The switch to the scheduler is
    [scheduler_return]. *)
Definition sched : M pst unit :=
  s <- get ;;
  if negb (plk (mine s) s) then panic "sched p->lock"
  else if decide (p_state (getproc s (mine s)) = RUNNING) then panic "sched RUNNING"
  else ret tt.

(** One iteration of the scheduler's loop, up to the switch to the process
    ([true]: it runs now, holding its lock), and from the switch back. *)
Definition scheduler_visit p : M pst bool :=
  acquire_proc p ;;;
  s <- get ;;
  if decide (p_state (getproc s p) = RUNNABLE) then
    updproc p (set_p_state RUNNING) ;;;
    modify (fun s => set_me s (Some p)) ;;;
    ret true
  else release_proc p ;;; ret false.
Definition scheduler_return : M pst unit :=
  p <- gets mine ;;
  modify (fun s => set_me s None) ;;;
  release_proc p.

(** [yield()] before and after the switch. *)
Definition yield_out : M pst unit :=
  p <- gets mine ;;
  acquire_proc p ;;;
  updproc p (set_p_state RUNNABLE) ;;;
  sched ;;;
  scheduler_return.
Definition yield_back : M pst unit := p <- gets mine ;; release_proc p.

(** [sleep(chan, lk)] before the switch, given the release of [lk], and after
    it, given its acquisition. *)
Definition sleep_out (c : chan) (rel : M pst unit) : M pst unit :=
  p <- gets mine ;;
  acquire_proc p ;;;
  rel ;;;
  updproc p (set_p_chan (Some c)) ;;;
  updproc p (set_p_state SLEEPING) ;;;
  sched ;;;
  scheduler_return.
Definition sleep_back (acq : M pst unit) : M pst unit :=
  p <- gets mine ;;
  updproc p (set_p_chan None) ;;;
  release_proc p ;;;
  acq.

(** The bytes of a name before its NUL. *)
Fixpoint cstr_name (l : list Z) : list Z :=
  match l with c :: l' => if c =? 0 then [] else c :: cstr_name l' | [] => [] end.
(** [procdump]: what it prints. *)
Definition state_name (st : procstate) : list Z :=
  match st with
  | UNUSED => [117; 110; 117; 115; 101; 100]
  | USED => [117; 115; 101; 100]
  | SLEEPING => [115; 108; 101; 101; 112; 32]
  | RUNNABLE => [114; 117; 110; 98; 108; 101]
  | RUNNING => [114; 117; 110; 32; 32; 32]
  | ZOMBIE => [122; 111; 109; 98; 105; 101]
  end.
(** "%d %s %s" *)
Definition dump_format : list Z := [37; 100; 32; 37; 115; 32; 37; 115].
Definition procdump s : list Z :=
  kernel_printf [10] [] ++
  concat (map (fun p =>
    let x := getproc s p in
    if decide (p_state x = UNUSED) then []
    else kernel_printf dump_format [Word (p_pid x); Str (Some (state_name (p_state x))); Str (Some (cstr_name (p_name x)))] ++ kernel_printf [10] [])
    all_procs).

(** ** Copies between a process and kernel objects

    [kbuf] is the address of the kernel object copied from or to. *)
Context (kbuf : Z).

Definition cur_of s : curproc := mk_curproc (p_sz (getproc s (mine s))) (p_pagetable (getproc s (mine s))).

Definition proc_copyout (va : Z) (bytes : list Z) : M pst bool :=
  s <- get ;;
  mem (store (fun m => stn m kbuf bytes)) ;;;
  r <- mem (copyout (cur_of s) (p_pagetable (getproc s (mine s))) va kbuf (Z.of_nat (length bytes))) ;;
  ret (r =? 0).

(** The bytes that were copied, page by page as [copyin] goes. *)
Fixpoint proc_copyin_loop (fuel : nat) (va n : Z) (acc : list Z) : M pst (list Z * bool) :=
  if 0 <? n then
    match fuel with
    | O => no_fuel
    | S k =>
        s <- get ;;
        let m := Z.min n (PGSIZE - va mod PGSIZE) in
        r <- mem (copyin (cur_of s) (p_pagetable (getproc s (mine s))) kbuf va m) ;;
        if r =? 0 then
          bytes <- gets (fun s => ldn (Z.to_nat m) (mram (ps_mem s)) kbuf) ;;
          proc_copyin_loop k (u64 (va + m)) (n - m) (acc ++ bytes)
        else ret (acc, false)
    end
  else ret (acc, true).
Definition proc_copyin (va n : Z) : M pst (list Z * bool) := proc_copyin_loop (Z.to_nat (n / PGSIZE) + 2) va n [].

(** The scan of [kwait] over the table: the value to return, or whether the
    process has children. *)
Fixpoint kwait_scan (l : list nat) (addr : Z) (havekids : bool) : M pst (Z + bool) :=
  match l with
  | [] => ret (inr havekids)
  | pp :: l' =>
      s <- get ;;
      if decide (p_parent (getproc s pp) = Some (mine s)) then
        acquire_proc pp ;;;
        s <- get ;;
        if decide (p_state (getproc s pp) = ZOMBIE) then
          ok <- (if addr =? 0 then ret true else proc_copyout addr (le_bytes 4 (p_xstate (getproc s pp)))) ;;
          if ok : bool then
            freeproc pp ;;;
            release_proc pp ;;;
            release wait_lock set_wait_lock ;;;
            ret (inl (p_pid (getproc s pp)))
          else
            release_proc pp ;;;
            release wait_lock set_wait_lock ;;;
            ret (inl (-1))
        else
          release_proc pp ;;;
          kwait_scan l' addr true
      else kwait_scan l' addr havekids
  end.

(** One round of [kwait]: a return value, or [None] when the process is now
    asleep on its own entry; it starts over when it is woken. *)
Definition kwait_round (addr : Z) : M pst (option Z) :=
  acquire wait_lock set_wait_lock ;;;
  r <- kwait_scan all_procs addr false ;;
  match r with
  | inl v => ret (Some v)
  | inr havekids =>
      s <- get ;;
      k <- (if havekids then proc_killed (mine s) else ret true) ;;
      if k : bool then release wait_lock set_wait_lock ;;; ret (Some (-1))
      else sleep_out (ChProc (mine s)) (release wait_lock set_wait_lock) ;;; ret None
  end.

Definition kwait (addr : Z) : M pst Z :=
  p <- gets mine ;;
  r <- kwait_round addr ;;
  match r with Some v => ret v | None => sleep_on (ChProc p) end.

(** The processes of this kernel as the interface of [ProcEnv]. *)
Definition park_me (c : chan) s : pst :=
  let p := mine s in
  let s := setproc s p (set_p_chan (Some c) (getproc s p)) in
  set_me (setproc s p (set_p_state SLEEPING (getproc s p))) None.

Definition proc_mem : UserMem pst := {| u_copyout := proc_copyout; u_copyin := proc_copyin |}.
Definition proc_env : ProcEnv pst := {|
  pe_mem := proc_mem;
  wakeup := wakeup_procs;
  killed := p <- gets mine ;; proc_killed p;
  park := park_me;
  kalloc_page := mem kalloc;
  kfree_page := fun pa => mem (kfree pa)
|}.
End proc_c.
