(* ===== verification/ProcInv.v ===== *)
(** * The process table: pids, kill, and the scheduler

    An invariant of the process table (kernel/proc.c) along every sequence of
    its operations from boot: pids are unique, entries not in use have pid 0,
    the process of this hart is RUNNING. From it follow what [kkill] does and that
    the scheduler's loop reaches every runnable process. *)

From stdpp Require Import base gmap list numbers strings.
From Stdlib Require Import ZArith Lia.
From S2P Require Import Prelude Riscv Mem Spinlock Kalloc Vm BlockIO ProcEnv Proc.
Open Scope Z_scope.
Open Scope kernel_scope.

Create HintDb keeps.

Section table.
Context {img : KernelImage}.
Implicit Types (s : pst) (p q : nat).

Definition in_table s p : Prop := (p < length (ps_proc s))%nat.
#[local] Instance in_table_dec s p : Decision (in_table s p).
Proof. unfold in_table. apply _. Defined.

Lemma getproc_setproc s p x : in_table s p -> getproc (setproc s p x) p = x.
Proof. intros Hl. unfold getproc, setproc. cbn. by rewrite list_lookup_insert_eq. Qed.
Lemma getproc_other s p q x : q <> p -> getproc (setproc s p x) q = getproc s q.
Proof. intros Hne. unfold getproc, setproc. cbn. by rewrite list_lookup_insert_ne. Qed.
Lemma setproc_setproc s p x y : setproc (setproc s p x) p y = setproc s p y.
Proof. unfold setproc, set_proc. cbn. by rewrite list_insert_insert_eq. Qed.
Lemma setproc_getproc s p : in_table s p -> setproc s p (getproc s p) = s.
Proof.
  intros Hl. unfold getproc, setproc, set_proc. destruct s as [a l c d e f g]. cbn in *. f_equal.
  destruct (lookup_lt_is_Some_2 l p Hl) as [v E]. rewrite E. cbn. by apply list_insert_id.
Qed.
Lemma in_table_setproc s p q x : in_table (setproc s q x) p <-> in_table s p.
Proof. unfold in_table, setproc. cbn. by rewrite length_insert. Qed.

(** Consecutive updates of an entry are one. *)
Lemma updproc_bind {A} p f (m : M pst A) s : (updproc p f ;;; m) s = m (setproc s p (f (getproc s p))).
Proof. reflexivity. Qed.

Definition relock (b : bool) (x : proc) : proc := set_p_lock x b.
Lemma acquire_proc_ok s p : plk p s = false -> acquire_proc p s = Ok tt (set_plk p s true).
Proof. intros E. unfold acquire_proc, acquire, get, bind. by rewrite E. Qed.
Lemma release_proc_ok s p : plk p s = true -> release_proc p s = Ok tt (set_plk p s false).
Proof. intros E. unfold release_proc, release, get, bind. by rewrite E. Qed.

Lemma plk_set s p b : in_table s p -> plk p (set_plk p s b) = b.
Proof. intros Hl. unfold plk, set_plk. by rewrite getproc_setproc. Qed.
Lemma plk_back s p : in_table s p -> plk p s = false -> set_plk p (set_plk p s true) false = s.
Proof.
  intros Hl Hk. unfold set_plk. rewrite getproc_setproc, setproc_setproc by done.
  transitivity (setproc s p (getproc s p)); [|by apply setproc_getproc]. f_equal. unfold plk in Hk. destruct (getproc s p). cbn in *. by rewrite Hk.
Qed.

(** All the entries are there and nobody holds their locks. *)
Definition quiet s : Prop := length (ps_proc s) = nproc /\ forall p, (p < nproc)%nat -> plk p s = false.

Lemma all_procs_lt : Forall (fun p => (p < nproc)%nat) all_procs.
Proof. apply Forall_forall. intros p Hp%list_elem_of_In. unfold all_procs in Hp. apply in_seq in Hp. lia. Qed.

(** ** kill *)

Definition kill_entry (x : proc) : proc :=
  let x := set_p_killed true x in if decide (p_state x = SLEEPING) then set_p_state RUNNABLE x else x.

Lemma kill_scan pid l s : quiet s -> Forall (fun p => (p < nproc)%nat) l ->
  for_each l (fun p =>
    acquire_proc p ;;;
    s <- get ;;
    if p_pid (getproc s p) =? pid then
      updproc p (set_p_killed true) ;;;
      when (bool_decide (p_state (getproc s p) = SLEEPING)) (updproc p (set_p_state RUNNABLE)) ;;;
      release_proc p ;;;
      ret (Some 0)
    else release_proc p ;;; ret None) s =
  match List.find (fun p => p_pid (getproc s p) =? pid) l with
  | Some p => Ok (Some 0) (setproc s p (kill_entry (getproc s p)))
  | None => Ok None s
  end.
Proof.
  intros [Hlen Hlk]. induction l as [|p l IH]; intros Hl; [done|]. apply Forall_cons in Hl as [Hp Hl]. cbn [for_each List.find].
  assert (Hin : in_table s p) by (unfold in_table; lia).
  unfold bind at 1. step_with (acquire_proc_ok s p (Hlk p Hp)). unfold bind at 1, get. cbn beta iota.
  assert (Eg : getproc (set_plk p s true) p = set_p_lock (getproc s p) true) by (by apply getproc_setproc).
  rewrite Eg. cbn [set_p_lock p_pid p_state]. destruct (p_pid (getproc s p) =? pid).
  - rewrite updproc_bind, Eg. unfold set_plk. rewrite setproc_setproc.
    set (x1 := set_p_killed true (set_p_lock (getproc s p) true)).
    assert (Hk : forall x, p_lock x = true -> release_proc p (setproc s p x) = Ok tt (setproc s p (set_p_lock x false))).
    { intros x Hx. rewrite release_proc_ok by (unfold plk; by rewrite getproc_setproc). unfold set_plk. by rewrite getproc_setproc, setproc_setproc. }
    specialize (Hlk p Hp). unfold plk in Hlk. unfold kill_entry. cbn [set_p_killed p_state].
    destruct (decide (p_state (getproc s p) = SLEEPING)) as [Es|Es].
    + rewrite bool_decide_true by done. cbn [when]. rewrite updproc_bind, getproc_setproc by done. rewrite setproc_setproc.
      step_with (Hk (set_p_state RUNNABLE x1) eq_refl). unfold ret. do 2 f_equal. unfold x1. destruct (getproc s p). cbn in *. by rewrite Hlk.
    + rewrite bool_decide_false by done. cbn [when]. rewrite bind_ret. step_with (Hk x1 eq_refl). unfold ret. do 2 f_equal.
      unfold x1. destruct (getproc s p). cbn in *. by rewrite Hlk.
  - step_with (release_proc_ok (set_plk p s true) p (plk_set s p true Hin)). rewrite (plk_back s p Hin (Hlk p Hp)). cbn. by apply IH.
Qed.

Lemma kkill_run pid s : quiet s -> kkill pid s =
  match List.find (fun p => p_pid (getproc s p) =? pid) all_procs with
  | Some p => Ok 0 (setproc s p (kill_entry (getproc s p)))
  | None => Ok (-1) s
  end.
Proof.
  intros Hq. unfold kkill, bind at 1.
  rewrite (kill_scan pid all_procs s Hq) by apply all_procs_lt.
  by destruct (List.find _ _).
Qed.

(** ** Identities: what an operation may do to pids

    [R1]: pids and the set of entries in use stay. [R2]: in addition the
    process running on this hart stays, no running process is stopped and
    every runnable process stays so ([ready]). *)
Record R1 s s' : Prop := mk_R1 {
  R1_len : length (ps_proc s') = length (ps_proc s);
  R1_next : nextpid s' = nextpid s;
  R1_pid p : p_pid (getproc s' p) = p_pid (getproc s p);
  R1_use p : p_state (getproc s' p) = UNUSED <-> p_state (getproc s p) = UNUSED }.
Definition ready s s' : Prop := forall p, p_state (getproc s p) = RUNNABLE -> p_state (getproc s' p) = RUNNABLE.
Record R2 s s' : Prop := mk_R2 {
  R2_ids : R1 s s';
  R2_me : me s' = me s;
  R2_run p : p_state (getproc s p) = RUNNING -> p_state (getproc s' p) = RUNNING;
  R2_ready p : p_state (getproc s p) = RUNNABLE -> p_state (getproc s' p) = RUNNABLE }.

#[local] Instance R1_pre : PreOrder R1.
Proof.
  split; [intros s; by split|]. intros s1 s2 s3 [] []. split; try congruence. intros p. etransitivity; eauto.
Qed.
#[local] Instance R2_pre : PreOrder R2.
Proof. split; [intros s; by split|]. intros s1 s2 s3 [] []. split; [by etransitivity|congruence|eauto|eauto]. Qed.

Definition keeps {A} (m : M pst A) : Prop := forall s a s', m s = Ok a s' -> R2 s s'.

Lemma keeps_ret {A} (a : A) : keeps (ret a).
Proof. by intros s b s' [= _ <-]. Qed.
Lemma keeps_get : keeps get.
Proof. by intros s b s' [= _ <-]. Qed.
Lemma keeps_gets {A} (f : pst -> A) : keeps (gets f).
Proof. by intros s b s' [= _ <-]. Qed.
Lemma keeps_panic {A} msg : keeps (panic (A := A) msg).
Proof. by intros s a s'. Qed.
Lemma keeps_bind {A B} (m : M pst A) (k : A -> M pst B) : keeps m -> (forall a, keeps (k a)) -> keeps (bind m k).
Proof. intros Hm Hk s b s' H. bind_inv H. etransitivity; [by eapply Hm|by eapply Hk]. Qed.
Lemma keeps_when c (m : M pst unit) : keeps m -> keeps (when c m).
Proof. intros Hm. destruct c; [done|apply keeps_ret]. Qed.
Lemma keeps_for_all {A} (l : list A) body : (forall x, keeps (body x)) -> keeps (for_all l body).
Proof. intros Hb. induction l; [apply keeps_ret|by apply keeps_bind]. Qed.
Lemma keeps_for_each {A R} (l : list A) (body : A -> M pst (option R)) : (forall x, keeps (body x)) -> keeps (for_each l body).
Proof. intros Hb. induction l as [|x l IH]; [apply keeps_ret|]. apply keeps_bind; [done|]. intros [v|]; [apply keeps_ret|done]. Qed.
Lemma keeps_mem {A} (m : M memst A) : keeps (mem m).
Proof. intros s a s'. unfold mem, zoom. by destruct (m (ps_mem s)); intros [= _ <-]. Qed.

Lemma getproc_upd s p q x : getproc (setproc s p x) q = if decide (q = p /\ in_table s p) then x else getproc s q.
Proof.
  case_decide as E; [destruct E as [-> Hl]; by apply getproc_setproc|].
  destruct (decide (q = p)) as [->|]; [|by apply getproc_other]. unfold getproc, setproc. cbn. rewrite list_insert_ge; [done|].
  unfold in_table in E. destruct (decide (length (ps_proc s) <= p)%nat); [done|]. destruct E. split; [done|lia].
Qed.

(** An update of an entry that keeps its pid. *)
Lemma R1_setproc s p x : p_pid x = p_pid (getproc s p) -> (p_state x = UNUSED <-> p_state (getproc s p) = UNUSED) -> R1 s (setproc s p x).
Proof.
  intros Hp Hu. split; [unfold setproc; cbn; by rewrite length_insert|done| |]; intros q; rewrite getproc_upd; case_decide as E; try done; by destruct E as [-> _].
Qed.
Lemma R2_setproc s p x : p_pid x = p_pid (getproc s p) -> p_state x = p_state (getproc s p) -> R2 s (setproc s p x).
Proof.
  intros Hp Hu. split; [apply R1_setproc; [done|by rewrite Hu]|done| |]; intros q Hq; rewrite getproc_upd; case_decide as E; try done; destruct E as [-> _]; by rewrite Hu.
Qed.
Lemma keeps_updproc p f : (forall x, p_pid (f x) = p_pid x) -> (forall x, p_state (f x) = p_state x) -> keeps (updproc p f).
Proof. intros Hp Hs s a s' [= _ <-]. by apply R2_setproc. Qed.

Lemma keeps_lock g f : (forall s b, R2 s (f s b)) -> keeps (acquire g f) /\ keeps (release g f).
Proof.
  intros Hf. split; intros s a s'; unfold acquire, release, get, put, panic, bind; destruct (g s); try discriminate; intros [= _ <-]; apply Hf.
Qed.
Lemma keeps_acquire_proc p : keeps (acquire_proc p).
Proof. apply keeps_lock. intros s b. by apply R2_setproc. Qed.
Lemma keeps_release_proc p : keeps (release_proc p).
Proof. apply (keeps_lock (plk p)). intros s b. by apply R2_setproc. Qed.
Lemma keeps_acquire_wait : keeps (acquire wait_lock set_wait_lock).
Proof. apply keeps_lock. by intros s b. Qed.
Lemma keeps_release_wait : keeps (release wait_lock set_wait_lock).
Proof. apply (keeps_lock wait_lock). by intros s b. Qed.

(** A sleeper made runnable. *)
Lemma R2_wake s p : p_state (getproc s p) = SLEEPING -> R2 s (setproc s p (set_p_state RUNNABLE (getproc s p))).
Proof.
  intros Hs. split; [apply R1_setproc; [done|by rewrite Hs]|done| |]; intros q Hq; rewrite getproc_upd; case_decide as E; try done; destruct E as [-> _]; congruence.
Qed.

Lemma keeps_get_bind {A} (k : pst -> M pst A) : (forall s a s', k s s = Ok a s' -> R2 s s') -> keeps (bind get k).
Proof. intros H s a s'. apply H. Qed.
Lemma keeps_wake {A} p (b : pst -> bool) (k : M pst A) : (forall s, b s = true -> p_state (getproc s p) = SLEEPING) -> keeps k ->
  keeps (s <- get ;; when (b s) (updproc p (set_p_state RUNNABLE)) ;;; k).
Proof.
  intros Hb Hk. apply keeps_get_bind. intros s a s' H. specialize (Hb s). destruct (b s); [|exact (Hk _ _ _ H)].
  cbn [when] in H. rewrite updproc_bind in H. etransitivity; [by apply R2_wake, Hb|exact (Hk _ _ _ H)].
Qed.

#[local] Hint Resolve keeps_ret keeps_get keeps_gets keeps_panic keeps_mem keeps_acquire_proc keeps_release_proc keeps_acquire_wait keeps_release_wait : keeps.
#[local] Hint Extern 3 (keeps (updproc _ _)) => apply keeps_updproc; by intros [] : keeps.
Ltac keep :=
  repeat first
    [ solve [ eauto 2 with keeps ] | apply keeps_when | apply keeps_for_all | apply keeps_for_each
    | apply keeps_bind | progress intros | case_decide | case_match | progress cbn beta iota ].

Lemma keeps_wakeup c : keeps (wakeup_procs c).
Proof.
  apply keeps_for_all. intros p. apply keeps_bind; [keep|]. intros m. case_decide; [keep|]. apply keeps_bind; [keep|]. intros _.
  apply keeps_wake; [|keep]. by intros s [Hs _]%bool_decide_eq_true.
Qed.

Lemma keeps_kkill pid : keeps (kkill pid).
Proof.
  apply keeps_bind; [|intros []; keep]. apply keeps_for_each. intros p. apply keeps_bind; [keep|]. intros _. apply keeps_get_bind.
  intros s a s'. destruct (_ =? pid); [|apply (keeps_bind (release_proc p)); keep].
  rewrite updproc_bind. set (s1 := setproc s p _). assert (H1 : R2 s s1) by (by apply R2_setproc).
  destruct (bool_decide (p_state (getproc s p) = SLEEPING)) eqn:E; cbn [when]; intros Hr.
  - apply bool_decide_eq_true in E. rewrite updproc_bind in Hr. set (s2 := setproc s1 p _) in Hr.
    assert (H2 : R2 s1 s2).
    { apply R2_wake. unfold s1. rewrite getproc_upd. by case_decide. }
    transitivity s1; [done|]. transitivity s2; [done|]. revert Hr. apply (keeps_bind (release_proc p)); keep.
  - transitivity s1; [done|]. revert Hr. apply (keeps_bind (ret tt)); keep.
Qed.

Lemma keeps_setkilled p : keeps (setkilled p).
Proof. unfold setkilled. keep. Qed.
Lemma keeps_killed p : keeps (proc_killed p).
Proof. unfold proc_killed. keep. Qed.
#[local] Hint Resolve keeps_wakeup keeps_kkill keeps_setkilled keeps_killed : keeps.
Lemma keeps_reparent p : keeps (reparent p).
Proof. unfold reparent. keep. Qed.
Lemma keeps_pagetable p : keeps (proc_pagetable p).
Proof. unfold proc_pagetable. keep. Qed.
Lemma keeps_copyout kbuf va bytes : keeps (proc_copyout kbuf va bytes).
Proof. unfold proc_copyout. keep. Qed.
#[local] Hint Resolve keeps_reparent keeps_pagetable keeps_copyout : keeps.

(** ** The invariant of the table *)

Record pids_ok s : Prop := mk_pids {
  pk_len : length (ps_proc s) = nproc;
  pk_next : 1 <= nextpid s;
  pk_unused p : (p < nproc)%nat -> p_state (getproc s p) = UNUSED -> p_pid (getproc s p) = 0;
  pk_used p : (p < nproc)%nat -> p_state (getproc s p) <> UNUSED -> 0 < p_pid (getproc s p) < nextpid s;
  pk_unique p q : (p < nproc)%nat -> (q < nproc)%nat -> p_state (getproc s p) <> UNUSED ->
    p_pid (getproc s p) = p_pid (getproc s q) -> p = q }.
(** [W] are processes that wait for a processor. *)
Section inv.
Context (W : nat -> Prop).
Record table_inv s : Prop := mk_table_inv {
  ti_pids : pids_ok s;
  ti_me p : me s = Some p -> (p < nproc)%nat /\ p_state (getproc s p) = RUNNING;
  ti_ready p : W p -> p_state (getproc s p) = RUNNABLE }.

Lemma pids_ok_R1 s s' : R1 s s' -> pids_ok s -> pids_ok s'.
Proof.
  intros [Hl Hn Hp Hu] [Kl Kn K0 K1 K2]. split; [congruence|congruence| | |].
  - intros p Hlt E. rewrite Hp. by apply K0, Hu.
  - intros p Hlt E. rewrite Hp, Hn. apply K1; [done|]. by rewrite <- Hu.
  - intros p q Hlt Hlt' E Eq. rewrite !Hp in Eq. apply K2; try done. by rewrite <- Hu.
Qed.
Lemma inv_R2 s s' : R2 s s' -> table_inv s -> table_inv s'.
Proof.
  intros [H1 Hm Hr Hw] [Hp Hi Hq]. split; [by apply (pids_ok_R1 s)| |intros p Hp'; by apply Hw, Hq].
  intros p. rewrite Hm. intros E. destruct (Hi p E). split; [done|by apply Hr].
Qed.
Lemma inv_R1 s s' : R1 s s' -> ready s s' -> me s' = None -> table_inv s -> table_inv s'.
Proof. intros H1 Hw Hm [Hp Hi Hq]. split; [by apply (pids_ok_R1 s)| |intros p Hp'; by apply Hw, Hq]. intros p. by rewrite Hm. Qed.

(** *** Freeing an entry *)

Definition freed (x : proc) : proc :=
  set_p_state UNUSED (set_p_xstate 0 (set_p_killed false (set_p_chan None (clear_name (set_p_parent None
    (set_p_pid 0 (set_p_sz 0 (set_p_pagetable 0 (set_p_trapframe 0 x))))))))).

Lemma mem_frame {A} (m : M memst A) s a s' : mem m s = Ok a s' -> exists v, s' = set_mem s v.
Proof. unfold mem, zoom. destruct (m (ps_mem s)); try discriminate. intros [= _ <-]. eauto. Qed.
Lemma set_mem_twice s v w : set_mem (set_mem s v) w = set_mem s w.
Proof. reflexivity. Qed.
Lemma set_mem_self s : set_mem s (ps_mem s) = s.
Proof. by destruct s. Qed.
Lemma freepagetable_frame pt sz s a s' : proc_freepagetable pt sz s = Ok a s' -> exists v, s' = set_mem s v.
Proof.
  intros H. unfold proc_freepagetable in H. bind_inv H. bind_inv H1. apply mem_frame in H0 as [v0 ->]. apply mem_frame in H as [v1 ->].
  apply mem_frame in H2 as [v2 ->]. by exists v2.
Qed.
Lemma when_frame c (m : M pst unit) s a s' : (forall s a s', m s = Ok a s' -> exists v, s' = set_mem s v) ->
  when c m s = Ok a s' -> exists v, s' = set_mem s v.
Proof. intros Hm. destruct c; [apply Hm|]. intros [= _ <-]. exists (ps_mem s). by rewrite set_mem_self. Qed.

Lemma freeproc_run p s a s' : in_table s p -> freeproc p s = Ok a s' -> exists v, s' = setproc (set_mem s v) p (freed (getproc s p)).
Proof.
  intros Hin H. unfold freeproc in H. apply bind_inv in H as (s0 & ? & [= <- <-] & H). bind_inv H.
  apply (when_frame _ _ _ _ _ (fun s a s' => mem_frame _ s a s')) in H0 as [v ->]. rewrite updproc_bind in H1.
  apply bind_inv in H1 as (s1 & ? & [= <- <-] & H). bind_inv H.
  apply (when_frame _ _ _ _ _ (fun s a s' => freepagetable_frame _ _ s a s')) in H0 as [w ->].
  exists w. repeat (rewrite updproc_bind in H1). injection H1 as _ <-.
  rewrite !setproc_setproc. change (set_mem (setproc (set_mem s v) p ?x) w) with (setproc (set_mem s w) p x).
  rewrite !setproc_setproc. f_equal. rewrite !getproc_upd. repeat (rewrite decide_True by (split; [done|by repeat rewrite in_table_setproc])). done.
Qed.

Definition idle (st : procstate) : Prop := st <> RUNNING /\ st <> RUNNABLE.
Lemma inv_freed s p v x : table_inv s -> (p < nproc)%nat -> idle (p_state (getproc s p)) -> p_pid x = 0 -> p_state x = UNUSED ->
  table_inv (setproc (set_mem s v) p x).
Proof.
  intros [[Kl Kn K0 K1 K2] Hm Hw] Hp [Hr Hrb] Hx Hu. assert (Hg : forall q, getproc (setproc (set_mem s v) p x) q = if decide (q = p) then x else getproc s q).
  { intros q. rewrite getproc_upd. destruct (decide (q = p)) as [->|]; [|by rewrite decide_False by tauto].
    rewrite decide_True; [done|]. unfold in_table. cbn. split; [done|lia]. }
  split; [split| |].
  - unfold setproc. cbn. by rewrite length_insert.
  - done.
  - intros q Hq. rewrite Hg. case_decide; [done|by apply K0].
  - intros q Hq. rewrite Hg. case_decide; [done|by apply K1].
  - intros q r Hq Hr'. rewrite !Hg. repeat case_decide; subst; try done; [|by apply K2]. intros Hne E. destruct (K1 q Hq Hne). lia.
  - intros q E. destruct (Hm q E) as [Hq Eq]. rewrite Hg. case_decide; [subst; congruence|done].
  - intros q E%Hw. rewrite Hg. case_decide; [subst; congruence|done].
Qed.
Lemma inv_freeproc p s a s' : table_inv s -> (p < nproc)%nat -> idle (p_state (getproc s p)) -> freeproc p s = Ok a s' -> table_inv s'.
Proof.
  intros Hi Hp Hr H. apply freeproc_run in H as [v ->]; [|unfold in_table; by rewrite (pk_len s (ti_pids s Hi))]. by apply inv_freed.
Qed.

(** *** Taking an entry *)

Lemma find_unused_some s p s' : find_unused s = Ok (Some p) s' -> (p < nproc)%nat /\ R2 s s' /\ p_state (getproc s' p) = UNUSED.
Proof.
  unfold find_unused. intros H. pose proof all_procs_lt as Hl.
  revert s H. induction Hl as [|q l Hq Hl IH]; intros s H; [done|]. cbn [for_each] in H. bind_inv H. bind_inv H0.
  apply keeps_acquire_proc in H. apply bind_inv in H2 as (s3 & ? & [= <- <-] & H2). case_decide as E.
  - injection H2 as <- <-. injection H1 as <- <-. done.
  - bind_inv H2. apply keeps_release_proc in H0. injection H3 as <- <-. destruct (IH _ H1) as (? & ? & ?). split_and!; [done| |done].
    by do 2 (etransitivity; [eassumption|]).
Qed.
Lemma find_unused_none s s' : find_unused s = Ok None s' -> R2 s s'.
Proof. apply (keeps_for_each (R := nat)). intros p. keep. Qed.

Lemma allocpid_run s pid s' : allocpid s = Ok pid s' -> pid = nextpid s /\ s' = set_nextpid s (i32 (nextpid s + 1)).
Proof.
  unfold allocpid, acquire, release, get, gets, put, modify, ret, panic, bind. destruct (pid_lock s) eqn:E; [discriminate|]. cbn.
  intros [= <- <-]. destruct s. cbn in *. by rewrite E.
Qed.

Lemma inv_taken s p x : table_inv s -> (p < nproc)%nat -> nextpid s < 2 ^ 31 - 1 -> p_state (getproc s p) = UNUSED ->
  p_pid x = nextpid s -> p_state x <> UNUSED -> table_inv (setproc (set_nextpid s (i32 (nextpid s + 1))) p x).
Proof.
  intros [[Kl Kn K0 K1 K2] Hm Hw] Hp Hmax Hun Hx Hu.
  assert (Hg : forall q, getproc (setproc (set_nextpid s (i32 (nextpid s + 1))) p x) q = if decide (q = p) then x else getproc s q).
  { intros q. rewrite getproc_upd. destruct (decide (q = p)) as [->|]; [|by rewrite decide_False by tauto].
    rewrite decide_True; [done|]. unfold in_table. cbn. split; [done|lia]. }
  assert (En : i32 (nextpid s + 1) = nextpid s + 1) by (apply signed_small; lia).
  set (s' := setproc _ p x) in *. assert (Hn : nextpid s' = nextpid s + 1) by done.
  split; [split| |]; rewrite ?Hn; [unfold s', setproc; cbn; by rewrite length_insert|lia| | | | |].
  - intros q Hq. rewrite Hg. case_decide; [done|by apply K0].
  - intros q Hq. rewrite Hg. case_decide; [lia|]. intros Hne. specialize (K1 q Hq Hne). lia.
  - intros q r Hq Hr. rewrite !Hg. destruct (decide (q = p)), (decide (r = p)); subst; try done; intros Hne E.
    + destruct (decide (p_state (getproc s r) = UNUSED)) as [E0|E0]; [specialize (K0 r Hr E0); lia|specialize (K1 r Hr E0); lia].
    + specialize (K1 q Hq Hne). lia.
    + by apply K2.
  - intros q E. destruct (Hm q E) as [Hq Eq]. rewrite Hg. case_decide; [subst; congruence|done].
  - intros q E%Hw. rewrite Hg. case_decide; [subst; congruence|done].
Qed.

Lemma inv_keeps {A} (m : M pst A) s a s' : keeps m -> table_inv s -> m s = Ok a s' -> table_inv s'.
Proof. intros Hm Hi H. eapply inv_R2; [by eapply Hm|done]. Qed.

(** The failure path of [allocproc] and of [kfork]. *)
Lemma inv_drop {A} p (b : A) s a s' : table_inv s -> (p < nproc)%nat -> idle (p_state (getproc s p)) ->
  (freeproc p ;;; release_proc p ;;; ret b) s = Ok a s' -> table_inv s'.
Proof.
  intros Hi Hp Hr H. bind_inv H. apply (inv_freeproc p) in H0; [|done..]. revert H0 H1. apply inv_keeps. keep.
Qed.

(** Memory routines and updates of other fields leave the states alone. *)
Definition same_field {B} (g : proc -> B) s s' : Prop := forall p, g (getproc s' p) = g (getproc s p).
Lemma mem_fields {A B} (g : proc -> B) (m : M memst A) s a s' : mem m s = Ok a s' -> same_field g s s'.
Proof. by intros [v ->]%mem_frame. Qed.
Lemma pagetable_fields {B} (g : proc -> B) p s a s' : proc_pagetable p s = Ok a s' -> same_field g s s'.
Proof.
  unfold proc_pagetable. intros H. repeat (bind_inv H || case_match || (injection H as _ <-) ||
    match goal with
    | E : bind _ _ _ = Ok _ _ |- _ => bind_inv E
    | E : mem _ _ = Ok _ _ |- _ => apply (mem_fields g) in E
    | E : gets _ _ = Ok _ _ |- _ => injection E as <- <-
    | E : ret _ _ = Ok _ _ |- _ => injection E as <- <-
    end); intros q; repeat match goal with E : same_field _ _ _ |- _ => specialize (E q) end; congruence.
Qed.
Lemma upd_field {B} (g : proc -> B) s p q f : (forall x, g (f x) = g x) -> g (getproc (setproc s p (f (getproc s p))) q) = g (getproc s q).
Proof. intros Hf. rewrite getproc_upd. case_decide as E; [|done]. destruct E as [-> _]. apply Hf. Qed.

Lemma inv_allocproc fr s r s' : table_inv s -> nextpid s < 2 ^ 31 - 1 -> allocproc fr s = Ok r s' -> table_inv s'.
Proof.
  intros Hi Hmax H. unfold allocproc in H. bind_inv H. destruct a as [p|].
  2:{ injection H1 as _ <-. apply (inv_R2 s); [|done]. by apply find_unused_none. }
  apply find_unused_some in H0 as (Hp & HR & Hun). bind_inv H1. apply allocpid_run in H as [-> ->]. rewrite 2!updproc_bind in H0.
  rewrite setproc_setproc in H0. set (s1 := setproc _ p _) in H0.
  assert (Hlen : length (ps_proc s0) = nproc) by (rewrite (R1_len _ _ (R2_ids _ _ HR)); apply (pk_len s (ti_pids s Hi))).
  assert (Hin : in_table (set_nextpid s0 (i32 (nextpid s0 + 1))) p) by (unfold in_table; cbn; lia).
  assert (Hi1 : table_inv s1).
  { apply inv_taken; [by apply (inv_R2 s)|done| |done| |]; [by rewrite (R1_next _ _ (R2_ids _ _ HR))| |done]. by rewrite getproc_setproc. }
  assert (Hs1 : p_state (getproc s1 p) = USED) by (unfold s1; by rewrite getproc_setproc).
  clearbody s1. clear Hin Hlen Hun HR Hmax Hi s. bind_inv H0. pose proof (mem_fields p_state _ _ _ _ H p) as Hs. apply inv_keeps in H; [|keep|done].
  rewrite updproc_bind in H1. set (s2 := setproc s p _) in H1. assert (Hi2 : table_inv s2) by (apply (inv_R2 s); [by apply R2_setproc|done]).
  assert (Hs2 : p_state (getproc s2 p) = USED) by (unfold s2; rewrite (upd_field p_state s p p (set_p_trapframe a)) by (by intros []); congruence). case_match.
  { revert H1. apply inv_drop; [done..|unfold idle; by rewrite Hs2]. }
  bind_inv H1. pose proof (pagetable_fields p_state _ _ _ _ H2 p) as Hs3. apply inv_keeps in H2; [|keep|done].
  rewrite updproc_bind in H3. set (s4 := setproc s3 p _) in H3. assert (Hi4 : table_inv s4) by (apply (inv_R2 s3); [by apply R2_setproc|done]).
  case_match; [|revert H3; apply inv_keeps; [keep|done]]. revert H3. apply inv_drop; [done..|]. unfold s4.
  rewrite (upd_field p_state s3 p p (set_p_pagetable a0)) by (by intros []). unfold idle. by rewrite Hs3, Hs2.
Qed.

(** *** Leaving the processor *)

Lemma keeps_sched : keeps sched.
Proof. unfold sched. keep. Qed.
#[local] Hint Resolve keeps_sched : keeps.

Lemma return_run s a s' : scheduler_return s = Ok a s' -> R1 s s' /\ ready s s' /\ me s' = None.
Proof.
  unfold scheduler_return. intros H. apply bind_inv in H as (q & s1 & [= <- <-] & H). apply bind_inv in H as (u & s1 & [= _ <-] & H).
  apply keeps_release_proc in H as [H Hm _ Hw]. split; [|split; [exact Hw|exact Hm]]. transitivity (set_me s None); [by split|done].
Qed.

(** The running process changes state and switches to the scheduler. *)
Lemma inv_switch {A} p st (k : M pst A) s a s' : keeps k -> st <> UNUSED -> table_inv s -> me s = Some p ->
  (updproc p (set_p_state st) ;;; k ;;; sched ;;; scheduler_return) s = Ok a s' -> table_inv s'.
Proof.
  intros Hk Hst Hi Hme H. destruct (ti_me s Hi p Hme) as [Hp Hr]. rewrite updproc_bind in H. bind_inv H. apply Hk in H0 as [H0 _ _ W0]. bind_inv H1.
  apply keeps_sched in H as [H _ _ W1]. apply return_run in H2 as (H2 & W2 & Hn). apply (inv_R1 s); [| |done..].
  - transitivity (setproc s p (set_p_state st (getproc s p))); [|by do 2 (etransitivity; [eassumption|])].
    apply R1_setproc; [done|]. rewrite Hr. cbn. by split.
  - intros q Hq. apply W2, W1, W0. rewrite getproc_upd. case_decide as E; [|done]. destruct E as [-> _]. congruence.
Qed.
Lemma me_keeps {A} (m : M pst A) s a s' : keeps m -> m s = Ok a s' -> me s' = me s.
Proof. intros Hm H. apply (R2_me _ _ (Hm _ _ _ H)). Qed.

Lemma inv_sleep_out c rel s a s' p : keeps rel -> table_inv s -> me s = Some p -> sleep_out c rel s = Ok a s' -> table_inv s'.
Proof.
  intros Hrel Hi Hme H. unfold sleep_out in H. apply bind_inv in H as (q & s1 & [= <- <-] & H).
  unfold mine in H. rewrite Hme in H. cbn [default from_option id] in H.
  apply bind_inv in H as (? & s1 & H1 & H). apply keeps_acquire_proc in H1. apply bind_inv in H as (? & s2 & H2 & H). apply Hrel in H2.
  rewrite updproc_bind in H. set (s3 := setproc s2 p _) in H. assert (H3 : R2 s s3).
  { transitivity s2; [by transitivity s1|]. by apply R2_setproc. }
  revert H. apply (inv_switch p SLEEPING (ret tt)); [keep|done|by apply (inv_R2 s)|]. by rewrite (R2_me _ _ H3).
Qed.

Lemma inv_yield_out s a s' p : table_inv s -> me s = Some p -> yield_out s = Ok a s' -> table_inv s'.
Proof.
  intros Hi Hme H. unfold yield_out in H. apply bind_inv in H as (q & s1 & [= <- <-] & H).
  unfold mine in H. rewrite Hme in H. cbn [default from_option id] in H.
  apply bind_inv in H as (? & s1 & H1 & H). apply keeps_acquire_proc in H1.
  revert H. apply (inv_switch p RUNNABLE (ret tt)); [keep|done|by apply (inv_R2 s)|]. by rewrite (R2_me _ _ H1).
Qed.

(** The end of [kexit]: the switch it does not come back from. *)
Definition exit_out p (status : Z) : M pst unit :=
  acquire_proc p ;;;
  updproc p (set_p_xstate status) ;;;
  updproc p (set_p_state ZOMBIE) ;;;
  release wait_lock set_wait_lock ;;;
  sched ;;;
  scheduler_return.
Lemma inv_exit_out p status s a s' : table_inv s -> me s = Some p -> exit_out p status s = Ok a s' -> table_inv s'.
Proof.
  intros Hi Hme H. unfold exit_out in H. apply bind_inv in H as (? & s1 & H1 & H). apply keeps_acquire_proc in H1. rewrite updproc_bind in H.
  set (s2 := setproc s1 p _) in H. assert (H2 : R2 s s2) by (transitivity s1; [done|by apply R2_setproc]).
  revert H. apply (inv_switch p ZOMBIE (release wait_lock set_wait_lock)); [keep|done|by apply (inv_R2 s)|]. by rewrite (R2_me _ _ H2).
Qed.

(** *** Waiting *)

Lemma copyout_states kbuf va bytes s a s' : proc_copyout kbuf va bytes s = Ok a s' -> same_field p_state s s'.
Proof.
  unfold proc_copyout. intros H. apply bind_inv in H as (s0 & ? & [= <- <-] & H). apply bind_inv in H as (? & s1 & H1 & H).
  apply bind_inv in H as (? & s2 & H2 & H). injection H as _ <-. apply (mem_fields p_state) in H1, H2. intros p. by rewrite H2.
Qed.
Lemma inv_wait_scan kbuf addr l b s r s' : Forall (fun p => (p < nproc)%nat) l -> table_inv s ->
  kwait_scan kbuf l addr b s = Ok r s' -> table_inv s' /\ me s' = me s.
Proof.
  intros Hl. revert b s. induction Hl as [|q l Hq Hl IH]; intros b s Hi H; cbn [kwait_scan] in H; [by injection H as _ <-|].
  apply bind_inv in H as (s0 & ? & [= <- <-] & H). case_decide as Ep; [|by apply (IH b)].
  apply bind_inv in H as (? & s1 & H1 & H). apply keeps_acquire_proc in H1. assert (Hi1 : table_inv s1) by (by apply (inv_R2 s)).
  rewrite <- (R2_me _ _ H1). apply bind_inv in H as (s0 & ? & [= <- <-] & H). clear H1 Ep Hi s. case_decide as Ez.
  2:{ apply bind_inv in H as (? & s2 & H2 & H). apply keeps_release_proc in H2. rewrite <- (R2_me _ _ H2). by apply (IH true); [apply (inv_R2 s1)|]. }
  apply bind_inv in H as (ok & s2 & H2 & H).
  assert (H3 : R2 s1 s2 /\ same_field p_state s1 s2).
  { destruct (addr =? 0); [by injection H2 as _ <-|]. split; [by apply keeps_copyout in H2|by apply copyout_states in H2]. }
  destruct H3 as [H3 Hs]. assert (Hi2 : table_inv s2) by (by apply (inv_R2 s1)). rewrite <- (R2_me _ _ H3). specialize (Hs q).
  destruct ok.
  - apply bind_inv in H as (? & s3 & H4 & H). assert (Hm : me s3 = me s2).
    { apply freeproc_run in H4 as [v ->]; [done|]. unfold in_table. by rewrite (pk_len s2 (ti_pids s2 Hi2)). }
    apply inv_freeproc in H4; [|done..|unfold idle; by rewrite Hs, Ez]. rewrite <- Hm. split; [revert H; apply inv_keeps; [keep|done]|].
    revert H. apply me_keeps. keep.
  - split; [revert H; apply inv_keeps; [keep|done]|]. revert H. apply me_keeps. keep.
Qed.

Lemma inv_wait kbuf addr s r s' p : table_inv s -> me s = Some p -> kwait_round kbuf addr s = Ok r s' -> table_inv s'.
Proof.
  intros Hi Hme H. unfold kwait_round in H. apply bind_inv in H as (? & s1 & H1 & H). apply keeps_acquire_wait in H1.
  apply bind_inv in H as (v & s2 & H2 & H). apply inv_wait_scan in H2 as [Hi2 Hm]; [|apply all_procs_lt|by apply (inv_R2 s)].
  rewrite (R2_me _ _ H1), Hme in Hm. clear H1 Hi Hme s1 s. destruct v as [v|b]; [by injection H as _ <-|].
  apply bind_inv in H as (s0 & ? & [= <- <-] & H). apply bind_inv in H as (k & s3 & H3 & H).
  assert (HR : R2 s2 s3) by (revert H3; destruct b; [apply keeps_killed|apply (keeps_ret true)]).
  assert (Hi3 : table_inv s3) by (by apply (inv_R2 s2)). rewrite <- (R2_me _ _ HR) in Hm. destruct k; [revert H; apply inv_keeps; [keep|done]|].
  apply bind_inv in H as (? & s4 & H4 & H). injection H as _ <-. apply (inv_sleep_out _ _ _ _ _ p) in H4; [done|keep|done..].
Qed.

(** *** The scheduler picks a process *)

Lemma inv_visit p s b s' : table_inv s -> (p < nproc)%nat -> ~ W p -> me s = None -> scheduler_visit p s = Ok b s' -> table_inv s'.
Proof.
  intros Hi Hp Hw Hm H. unfold scheduler_visit in H. apply bind_inv in H as (? & s1 & H1 & H). apply keeps_acquire_proc in H1.
  assert (Hi1 : table_inv s1) by (by apply (inv_R2 s)). apply bind_inv in H as (s0 & ? & [= <- <-] & H).
  case_decide as E; [|revert H; apply inv_keeps; [keep|done]]. rewrite updproc_bind in H. injection H as _ <-.
  assert (Hin : in_table s1 p) by (unfold in_table; by rewrite (pk_len s1 (ti_pids s1 Hi1))).
  set (s2 := setproc s1 p (set_p_state RUNNING (getproc s1 p))). assert (H2 : pids_ok s2).
  { apply (pids_ok_R1 s1); [|apply Hi1]. apply R1_setproc; [done|]. by rewrite E. }
  split; [by apply (pids_ok_R1 s2); [split|]| |].
  - intros q [= <-]. split; [done|]. change (p_state (getproc s2 p) = RUNNING). unfold s2. by rewrite getproc_setproc.
  - intros q Hq. change (p_state (getproc s2 q) = RUNNABLE). unfold s2. rewrite getproc_other by (by intros ->). by apply (ti_ready s1 Hi1).
Qed.
End inv.

(** ** Executions

    The steps the kernel takes on the table: each is a routine of proc.c, or
    the part of it between two switches, that returned. [forkret] and [kbuf]
    are the addresses of the kernel those routines use. *)
Inductive kernel_step (forkret kbuf : Z) : pst -> pst -> Prop :=
| step_allocproc s r s' : nextpid s < 2 ^ 31 - 1 -> allocproc forkret s = Ok r s' -> kernel_step forkret kbuf s s'
| step_undo s s' p : (p < nproc)%nat -> p_state (getproc s p) = USED -> (* a fork that failed *)
    (freeproc p ;;; release_proc p) s = Ok tt s' -> kernel_step forkret kbuf s s'
| step_fields s s' p f : (forall x, p_pid (f x) = p_pid x) -> (forall x, p_state (f x) = p_state x) -> (* sz, files, name, parent *)
    updproc p f s = Ok tt s' -> kernel_step forkret kbuf s s'
| step_ready s s' p : p_state (getproc s p) = USED -> (* the end of fork *)
    (acquire_proc p ;;; updproc p (set_p_state RUNNABLE) ;;; release_proc p) s = Ok tt s' -> kernel_step forkret kbuf s s'
| step_lock s s' p : acquire_proc p s = Ok tt s' \/ release_proc p s = Ok tt s' -> kernel_step forkret kbuf s s'
| step_wakeup s s' c : wakeup_procs c s = Ok tt s' -> kernel_step forkret kbuf s s'
| step_kill s s' pid r : kkill pid s = Ok r s' -> kernel_step forkret kbuf s s'
| step_setkilled s s' p : setkilled p s = Ok tt s' -> kernel_step forkret kbuf s s'
| step_reparent s s' p : reparent p s = Ok tt s' -> kernel_step forkret kbuf s s'
| step_wait s s' p addr r : me s = Some p -> kwait_round kbuf addr s = Ok r s' -> kernel_step forkret kbuf s s'
| step_sleep s s' p c : me s = Some p -> sleep_out c (ret tt) s = Ok tt s' -> kernel_step forkret kbuf s s'
| step_yield s s' p : me s = Some p -> yield_out s = Ok tt s' -> kernel_step forkret kbuf s s'
| step_exit s s' p status : me s = Some p -> exit_out p status s = Ok tt s' -> kernel_step forkret kbuf s s'.

Inductive proc_step (forkret kbuf : Z) : pst -> pst -> Prop :=
| step_kernel s s' : kernel_step forkret kbuf s s' -> proc_step forkret kbuf s s'
| step_visit s s' p b : (p < nproc)%nat -> me s = None -> scheduler_visit p s = Ok b s' -> proc_step forkret kbuf s s'.

(** The table at boot: [procinit] on zeroed memory. *)
Definition table_boot (m : memst) : pst := mk_pst m (replicate nproc proc0) false false 1 None None.
Definition reached (forkret kbuf : Z) s : Prop :=
  exists m s0, procinit (table_boot m) = Ok tt s0 /\ rtc (proc_step forkret kbuf) s0 s.

Lemma boot_entry m p : getproc (table_boot m) p = proc0.
Proof. unfold getproc. destruct (ps_proc (table_boot m) !! p) as [x|] eqn:E; [|done]. by apply lookup_replicate in E as [-> _]. Qed.
Definition init_entry p : M pst unit :=
  modify (fun s => set_plk p s false) ;;; updproc p (set_p_state UNUSED) ;;; updproc p (set_p_kstack (KSTACK (Z.of_nat p))).
Lemma init_entry_R2 q s a s' : (forall p, p_state (getproc s p) = UNUSED) -> init_entry q s = Ok a s' ->
  R2 s s' /\ forall p, p_state (getproc s' p) = UNUSED.
Proof.
  intros Hall H. unfold init_entry in H. apply bind_inv in H as (? & s2 & [= _ <-] & H). rewrite updproc_bind in H. injection H as _ <-.
  set (s1 := set_plk q s false). assert (H1 : R2 s s1) by (by apply R2_setproc).
  assert (Hs1 : forall p, p_state (getproc s1 p) = UNUSED).
  { intros p. unfold s1, set_plk. rewrite getproc_upd. case_decide; [cbn|]; apply Hall. }
  set (s2 := setproc s1 q (set_p_state UNUSED (getproc s1 q))). assert (H2 : R2 s1 s2) by (apply R2_setproc; [done|by rewrite Hs1]).
  split; [transitivity s1; [done|]; transitivity s2; [done|by apply R2_setproc]|].
  intros p. rewrite (upd_field p_state s2 q p (set_p_kstack (KSTACK (Z.of_nat q)))) by (by intros []). unfold s2. rewrite getproc_upd. case_decide; [done|apply Hs1].
Qed.
Lemma init_loop l : forall s a s', (forall p, p_state (getproc s p) = UNUSED) -> for_all l init_entry s = Ok a s' -> R2 s s'.
Proof.
  induction l as [|q l IH]; intros s a s' Hall H; [by injection H as _ <-|]. cbn [for_all] in H. apply bind_inv in H as (? & s1 & H1 & H).
  apply init_entry_R2 in H1 as [H1 Hall1]; [|done]. transitivity s1; [done|by apply (IH s1 a)].
Qed.
Lemma procinit_loop s : procinit s = for_all all_procs init_entry (set_wait_lock (set_pid_lock s false) false).
Proof. reflexivity. Qed.
Lemma table_boot_inv m : table_inv (fun _ => False) (table_boot m).
Proof.
  pose proof (boot_entry m) as Hg. split; [|done..].
  split; [apply length_replicate|cbn; lia| | |]; intros p; rewrite ?Hg; done.
Qed.
Lemma boot_unlock m : set_wait_lock (set_pid_lock (table_boot m) false) false = table_boot m.
Proof. reflexivity. Qed.
Lemma boot_R2 m s : procinit (table_boot m) = Ok tt s -> R2 (table_boot m) s.
Proof. rewrite procinit_loop, boot_unlock. intros H%init_loop; [done|]. intros p. by rewrite boot_entry. Qed.
Lemma boot_inv m s : procinit (table_boot m) = Ok tt s -> table_inv (fun _ => False) s.
Proof. intros H%boot_R2. apply (inv_R2 _ _ _ H), table_boot_inv. Qed.

Lemma step_inv W forkret kbuf s s' : table_inv W s -> kernel_step forkret kbuf s s' -> table_inv W s'.
Proof.
  intros Hi Hs. destruct Hs.
  - by eapply inv_allocproc.
  - apply (inv_drop W p tt s tt); [done..|unfold idle; by rewrite H0|]. unfold bind in *. destruct (freeproc p s); try discriminate. by rewrite H1.
  - revert H1. apply inv_keeps; [by apply keeps_updproc|done].
  - revert H0. intros E. apply bind_inv in E as (? & s1 & H1 & E). rewrite updproc_bind in E. pose proof (keeps_acquire_proc _ _ _ _ H1) as HR.
    assert (Hs1 : p_state (getproc s1 p) = USED). { unfold acquire_proc, acquire, get, put, bind, panic in H1. destruct (plk p s); [discriminate|]. injection H1 as _ <-. unfold set_plk. rewrite getproc_upd. by case_decide. }
    revert E. apply inv_keeps; [keep|]. apply (inv_R2 W s1); [|by apply (inv_R2 W s)]. split; [apply R1_setproc; [done|by rewrite Hs1]|done| |];
      intros q Hq; rewrite getproc_upd; case_decide as E'; try done; destruct E' as [-> _]; congruence.
  - destruct H as [E|E]; revert E; apply inv_keeps; (keep || done).
  - revert H. apply inv_keeps; [keep|done].
  - revert H. apply inv_keeps; [keep|done].
  - revert H. apply inv_keeps; [keep|done].
  - revert H. apply inv_keeps; [keep|done].
  - by eapply inv_wait.
  - eapply inv_sleep_out; [|done..]. keep.
  - by eapply inv_yield_out.
  - by eapply inv_exit_out.
Qed.
Lemma reached_inv forkret kbuf s : reached forkret kbuf s -> table_inv (fun _ => False) s.
Proof.
  intros (m & s0 & Hb & Hr). apply boot_inv in Hb. induction Hr as [|a b c Hs Hr IH]; [done|]. apply IH. destruct Hs.
  - by eapply step_inv.
  - by eapply inv_visit; eauto.
Qed.

(** ** Kill *)

Lemma find_first (f : nat -> bool) n : forall a p, (a <= p < a + n)%nat -> (forall q, (a <= q < p)%nat -> f q = false) -> f p = true ->
  List.find f (seq a n) = Some p.
Proof.
  induction n as [|n IH]; intros a p Hp Hf Ht; [lia|]. cbn [seq List.find]. destruct (decide (a = p)) as [->|]; [by rewrite Ht|].
  rewrite Hf by lia. apply IH; [lia| |done]. intros q Hq. apply Hf. lia.
Qed.
Lemma find_nobody (f : nat -> bool) n : (forall q, (q < n)%nat -> f q = false) -> List.find f (seq 0 n) = None.
Proof.
  intros Hf. destruct (List.find f (seq 0 n)) as [p|] eqn:E; [|done]. apply find_some in E as [Hp%in_seq Ht]. rewrite Hf in Ht; [done|lia].
Qed.

Lemma find_unused_run s : quiet s -> find_unused s =
  match List.find (fun p => bool_decide (p_state (getproc s p) = UNUSED)) all_procs with
  | Some p => Ok (Some p) (set_plk p s true)
  | None => Ok None s
  end.
Proof.
  intros [Hlen Hlk]. unfold find_unused. generalize all_procs_lt. induction all_procs as [|p l IH]; intros Hl; [done|].
  apply Forall_cons in Hl as [Hp Hl]. assert (Hin : in_table s p) by (unfold in_table; lia). cbn [for_each List.find].
  unfold bind at 1. step_with (acquire_proc_ok s p (Hlk p Hp)). unfold bind at 1, get. cbn beta iota.
  assert (Eg : getproc (set_plk p s true) p = set_p_lock (getproc s p) true) by (by apply getproc_setproc).
  rewrite Eg. cbn [set_p_lock p_state]. case_decide as E; [by rewrite bool_decide_true|]. rewrite bool_decide_false by done.
  step_with (release_proc_ok (set_plk p s true) p (plk_set s p true Hin)). rewrite (plk_back s p Hin (Hlk p Hp)). by apply IH.
Qed.

(** C29. A pid names one process. In every state the kernel reaches from boot
    (with pids below 2^31 - 1), when no entry is locked, [kkill] of the pid of a
    process in the table marks exactly that process killed, makes it runnable if
    it sleeps, changes nothing else and returns 0; and [kkill] of a pid other
    than 0 that no entry has returns -1 and changes nothing. *)
Theorem kkill_by_pid forkret kbuf s : reached forkret kbuf s -> quiet s ->
  (forall p, (p < nproc)%nat -> p_state (getproc s p) <> UNUSED ->
    kkill (p_pid (getproc s p)) s = Ok 0 (setproc s p (kill_entry (getproc s p)))) /\
  (forall pid, pid <> 0 -> (forall p, (p < nproc)%nat -> p_state (getproc s p) <> UNUSED -> p_pid (getproc s p) <> pid) -> kkill pid s = Ok (-1) s).
Proof.
  intros Hr Hq. destruct (reached_inv _ _ _ Hr) as [[Kl Kn K0 K1 K2] _ _]. split.
  - intros p Hp Hu. rewrite (kkill_run _ s Hq). unfold all_procs. rewrite (find_first _ nproc 0 p); [done|lia| |lia].
    intros q Hlt. apply Z.eqb_neq. intros E. assert (p = q) by (apply K2; [lia..|done|done]). lia.
  - intros pid H0 Hnone. rewrite (kkill_run _ s Hq). unfold all_procs. rewrite find_nobody; [done|]. intros q Hlt. apply Z.eqb_neq.
    destruct (decide (p_state (getproc s q) = UNUSED)) as [E|E]; [rewrite (K0 q Hlt E); congruence|by apply Hnone].
Qed.

Lemma quiet_setproc s p x : quiet s -> p_lock x = false -> quiet (setproc s p x).
Proof.
  intros [Hl Hk] Hx. split; [unfold setproc; cbn; by rewrite length_insert|]. intros q Hq. unfold plk. rewrite getproc_upd.
  case_decide; [done|by apply Hk].
Qed.

(** A process made by [allocproc] keeps the [killed] flag its entry had. *)
Lemma allocproc_killed fr s q s' p : quiet s -> (p < nproc)%nat -> p_state (getproc s p) = UNUSED ->
  (forall q, (q < p)%nat -> p_state (getproc s q) <> UNUSED) -> allocproc fr s = Ok (Some q) s' ->
  q = p /\ p_killed (getproc s' p) = p_killed (getproc s p).
Proof.
  intros Hq Hp Hu Hfirst H. unfold allocproc in H. rewrite (bind_ok _ _ s (Some p) (set_plk p s true)) in H.
  2:{ rewrite (find_unused_run s Hq). unfold all_procs. rewrite (find_first _ nproc 0 p); [done|lia| |by apply bool_decide_eq_true].
    intros q0 Hlt. apply bool_decide_eq_false, Hfirst. lia. }
  pose proof (upd_field p_killed s p p (fun x => set_p_lock x true) ltac:(by intros [])) as F0.
  change (setproc s p (set_p_lock (getproc s p) true)) with (set_plk p s true) in F0.
  apply bind_inv in H as (pid & s1 & [-> ->]%allocpid_run & H). rewrite 2!updproc_bind in H.
  set (s1 := set_nextpid _ _) in H. change (p_killed (getproc s1 p) = p_killed (getproc s p)) in F0. clearbody s1.
  pose proof (upd_field p_killed s1 p p (set_p_pid (nextpid (set_plk p s true))) ltac:(by intros [])) as F1. set (s2 := setproc s1 p _) in *.
  pose proof (upd_field p_killed s2 p p (set_p_state USED) ltac:(by intros [])) as F2. set (s3 := setproc s2 p _) in *.
  apply bind_inv in H as (tf & s4 & F3%(mem_fields p_killed) & H). specialize (F3 p). rewrite updproc_bind in H.
  pose proof (upd_field p_killed s4 p p (set_p_trapframe tf) ltac:(by intros [])) as F4. set (s5 := setproc s4 p _) in *.
  destruct (tf =? 0). { bind_inv H. bind_inv H1. discriminate. }
  apply bind_inv in H as (pt & s6 & F5%(pagetable_fields p_killed) & H). specialize (F5 p). rewrite updproc_bind in H.
  pose proof (upd_field p_killed s6 p p (set_p_pagetable pt) ltac:(by intros [])) as F6. set (s7 := setproc s6 p _) in *.
  destruct (pt =? 0). { bind_inv H. bind_inv H1. discriminate. }
  apply bind_inv in H as (s8 & ? & [= <- <-] & H). rewrite updproc_bind in H. injection H as <- <-. split; [done|].
  rewrite (upd_field p_killed s7 p p) by (by intros []). congruence.
Qed.

(** What [kkill] of pid 0 does: entries that are not in use have pid 0, so it
    finds the first of them, marks it killed and returns 0 as if it had killed a
    process. [allocproc] gives out that same entry next and does not clear
    the mark, so the next process created starts its life killed. *)
Theorem kill_zero_marks_next_process forkret kbuf s p : reached forkret kbuf s -> quiet s ->
  (p < nproc)%nat -> p_state (getproc s p) = UNUSED -> (forall q, (q < p)%nat -> p_state (getproc s q) <> UNUSED) ->
  exists s', kkill 0 s = Ok 0 s' /\ p_killed (getproc s' p) = true /\ p_state (getproc s' p) = UNUSED /\
    forall q s'', allocproc forkret s' = Ok (Some q) s'' -> q = p /\ p_killed (getproc s'' p) = true.
Proof.
  intros Hr Hq Hp Hu Hfirst. destruct (reached_inv _ _ _ Hr) as [[Kl Kn K0 K1 K2] _ _].
  assert (Hin : in_table s p) by (unfold in_table; lia). exists (setproc s p (kill_entry (getproc s p))).
  assert (Ek : kill_entry (getproc s p) = set_p_killed true (getproc s p)) by (unfold kill_entry; cbn; by rewrite Hu).
  rewrite Ek. assert (Eg := getproc_setproc s p (set_p_killed true (getproc s p)) Hin). split_and!.
  - rewrite (kkill_run _ s Hq). unfold all_procs. rewrite (find_first _ nproc 0 p); [by rewrite Ek|lia| |by rewrite (K0 p Hp Hu)].
    intros q Hlt. apply Z.eqb_neq. specialize (K1 q ltac:(lia) (Hfirst q ltac:(lia))). lia.
  - by rewrite Eg.
  - by rewrite Eg.
  - intros q s'' H. apply (allocproc_killed _ _ _ _ p) in H as [-> ->]; [by rewrite Eg| |done|by rewrite Eg|].
    + apply quiet_setproc; [done|]. cbn. by apply Hq.
    + intros q' Hlt. rewrite getproc_other by lia. by apply Hfirst.
Qed.

(** ** The scheduler

    An execution between the scheduler and the processes it runs: [i] is the
    entry its loop looks at next, [n] the visits it has made and [chosen] the
    processes it switched to. Between two visits the kernel takes any steps. *)
Inductive sched_run (forkret kbuf : Z) : nat -> nat -> list nat -> pst -> pst -> Prop :=
| run_none i s : sched_run forkret kbuf i 0 [] s s
| run_kernel i n l s s1 s' : kernel_step forkret kbuf s s1 -> sched_run forkret kbuf i n l s1 s' -> sched_run forkret kbuf i n l s s'
| run_visit i n l s b s1 s' : me s = None -> scheduler_visit i s = Ok b s1 ->
    sched_run forkret kbuf (next_pos nproc i) n l s1 s' -> sched_run forkret kbuf i (S n) (if b then i :: l else l) s s'.

Lemma visit_runnable s p b s' : in_table s p -> p_state (getproc s p) = RUNNABLE -> scheduler_visit p s = Ok b s' -> b = true.
Proof.
  intros Hin Hr H. unfold scheduler_visit in H. apply bind_inv in H as (? & s1 & H1 & H). apply keeps_acquire_proc in H1 as [_ _ _ Hw].
  apply bind_inv in H as (s0 & ? & [= <- <-] & H). rewrite decide_True in H by (by apply Hw). rewrite updproc_bind in H. by injection H.
Qed.

Lemma sched_chooses forkret kbuf q i n l s s' : sched_run forkret kbuf i n l s s' -> (i < nproc)%nat -> (q < nproc)%nat ->
  table_inv (eq q) s -> (steps_to nproc i q < n)%nat -> q ∈ l.
Proof.
  intros Hrun Hi Hq. revert Hi. induction Hrun as [|i n l s s1 s' Hs Hrun IH|i n l s b s1 s' Hm Hv Hrun IH]; intros Hi Hinv Hn; [lia| |].
  - apply IH; [done| |done]. by apply (step_inv _ forkret kbuf s).
  - destruct (decide (i = q)) as [->|Hne].
    + apply visit_runnable in Hv as ->; [left| |]; [unfold in_table; by rewrite (pk_len s (ti_pids _ s Hinv))|by apply (ti_ready _ s Hinv)].
    + destruct (steps_to_next nproc i q Hi Hq Hne) as [Hlt Hu]. assert (q ∈ l); [|destruct b; [by right|done]].
      apply IH; [done| |lia]. apply (inv_visit _ i s b); [done..|congruence|done|done].
Qed.

Lemma visit_run s p : quiet s -> (p < nproc)%nat -> exists s',
  scheduler_visit p s = Ok (bool_decide (p_state (getproc s p) = RUNNABLE)) s'.
Proof.
  intros [Hl Hk] Hp. assert (Hin : in_table s p) by (unfold in_table; lia). unfold scheduler_visit.
  step_with (acquire_proc_ok s p (Hk p Hp)). unfold bind at 1, get. cbn beta iota.
  assert (Eg : getproc (set_plk p s true) p = set_p_lock (getproc s p) true) by (by apply getproc_setproc).
  rewrite Eg. cbn [set_p_lock p_state]. case_decide as E; [rewrite bool_decide_true by done|rewrite bool_decide_false by done].
  - rewrite updproc_bind. eexists. reflexivity.
  - step_with (release_proc_ok (set_plk p s true) p (plk_set s p true Hin)). eexists. reflexivity.
Qed.

(** C18. The scheduler starves nobody. A visit to an entry returns when no
    entry is locked, and it switches exactly when the process is runnable. In
    any execution from a state the kernel reaches, whatever the kernel does in
    between, a process that is runnable is switched to within NPROC visits of
    the scheduler's loop, wherever the loop stands. *)
Theorem scheduler_fair forkret kbuf s : reached forkret kbuf s ->
  (forall p, quiet s -> (p < nproc)%nat -> exists s', scheduler_visit p s = Ok (bool_decide (p_state (getproc s p) = RUNNABLE)) s') /\
  (forall q i n l s', (q < nproc)%nat -> p_state (getproc s q) = RUNNABLE -> (i < nproc)%nat ->
    sched_run forkret kbuf i n l s s' -> (nproc <= n)%nat -> q ∈ l).
Proof.
  intros Hr. split; [intros p Hq Hp; by apply visit_run|]. intros q i n l s' Hq Hs Hi Hrun Hn.
  destruct (reached_inv _ _ _ Hr) as [Hp Hm _]. apply (sched_chooses forkret kbuf q i n l s s'); [done..| |].
  - split; [done|done|]. by intros p <-.
  - pose proof (steps_to_lt nproc i q Hi Hq). lia.
Qed.
End table.

(** ** Examples: boot, one process made and ready to run *)

Section examples.
#[local] Instance img4 : KernelImage := demo_img 4.

Definition quietb (s : pst) : bool := bool_decide (length (ps_proc s) = nproc) && forallb (fun p => negb (plk p s)) all_procs.
Lemma quietb_spec s : quietb s = true -> quiet s.
Proof.
  unfold quietb. intros [Hl%bool_decide_eq_true Hf]%andb_true_iff. split; [done|]. intros p Hp.
  assert (Hin : In p all_procs) by (apply in_seq; lia). apply (proj1 (forallb_forall _ _) Hf), negb_true_iff in Hin. done.
Qed.

Definition after {A} (o : outcome pst A) (k : pst -> bool) : bool := match o with Ok _ s => k s | _ => false end.
Definition make_ready (p : nat) : M pst unit := acquire_proc p ;;; updproc p (set_p_state RUNNABLE) ;;; release_proc p.
Definition demo_check (o : outcome memst unit) : bool :=
  match o with
  | Ok _ m =>
      after (procinit (table_boot m)) (fun s0 =>
      after (allocproc 4096 s0) (fun s1 =>
      after (release_proc 0 s1) (fun s2 =>
      bool_decide (p_state (getproc s2 0) = USED) && after (make_ready 0 s2) (fun s3 =>
      quietb s3 && bool_decide (p_state (getproc s3 0) = RUNNABLE) && bool_decide (p_state (getproc s3 1) = UNUSED) &&
      bool_decide (me s3 = None) && (p_pid (getproc s3 0) =? 1)))))
  | _ => false
  end.
Lemma after_inv {A} (o : outcome pst A) k : after o k = true -> exists a s, o = Ok a s /\ k s = true.
Proof. destruct o; try discriminate. cbn. eauto. Qed.

Lemma demo_check_reached o : demo_check o = true -> exists s, reached 4096 0 s /\ quiet s /\ p_state (getproc s 0) = RUNNABLE /\ p_state (getproc s 1) = UNUSED /\
  me s = None /\ p_pid (getproc s 0) = 1.
Proof.
  unfold demo_check. destruct o as [? m| | |]; try discriminate. intros H.
  apply after_inv in H as ([] & s0 & E0 & H). apply after_inv in H as (r & s1 & E1 & H). apply after_inv in H as ([] & s2 & E2 & H).
  apply andb_true_iff in H as [Hu%bool_decide_eq_true H]. apply after_inv in H as ([] & s3 & E3 & H).
  rewrite !andb_true_iff, !bool_decide_eq_true, Z.eqb_eq in H. destruct H as ((((Hq & H0) & H1) & Hm) & Hp). exists s3.
  split; [|split_and!; [by apply quietb_spec|done..]]. exists m, s0. split; [done|].
  assert (Hn : nextpid s0 = 1).
  { apply boot_R2 in E0 as [E _ _ _]. by rewrite (R1_next _ _ E). }
  eapply rtc_l; [apply step_kernel; apply (step_allocproc 4096 0 s0 r s1); [rewrite Hn; lia|exact E1]|].
  eapply rtc_l; [apply step_kernel; apply (step_lock 4096 0 s1 s2 0); by right|].
  eapply rtc_l; [apply step_kernel; apply (step_ready 4096 0 s2 s3 0); [exact Hu|exact E3]|]. apply rtc_refl.
Qed.
Lemma demo_reached : exists s, reached 4096 0 s /\ quiet s /\ p_state (getproc s 0) = RUNNABLE /\ p_state (getproc s 1) = UNUSED /\
  me s = None /\ p_pid (getproc s 0) = 1.
Proof. apply (demo_check_reached (kinit mem0)). vm_compute. reflexivity. Qed.

Lemma kkill_by_pid_witness : exists s, kkill 1 s = Ok 0 (setproc s 0 (kill_entry (getproc s 0))) /\ kkill 0 s <> Ok (-1) s.
Proof.
  destruct demo_reached as (s & Hr & Hq & H0 & H1 & Hm & Hp). exists s. destruct (kkill_by_pid 4096 0 s Hr Hq) as [Hk _].
  specialize (Hk 0%nat). rewrite Hp in Hk. split; [apply Hk; [vm_compute; lia|by rewrite H0]|].
  rewrite (kkill_run 0 s Hq). destruct (List.find _ _) eqn:E; [done|]. intros _.
  assert (Hin : In 1%nat all_procs) by (apply in_seq; vm_compute; lia). apply (find_none _ _ E) in Hin. apply Z.eqb_neq in Hin. apply Hin.
  apply (pk_unused s (ti_pids _ s (reached_inv _ _ _ Hr))); [vm_compute; lia|done].
Defined.

Lemma kill_zero_marks_next_process_witness : exists s s', kkill 0 s = Ok 0 s' /\ p_killed (getproc s' 1) = true /\ p_state (getproc s' 1) = UNUSED /\
  forall q s'', allocproc 4096 s' = Ok (Some q) s'' -> q = 1%nat /\ p_killed (getproc s'' 1) = true.
Proof.
  destruct demo_reached as (s & Hr & Hq & H0 & H1 & Hm & Hp). exists s. apply (kill_zero_marks_next_process 4096 0 s 1 Hr Hq); [vm_compute; lia|done|].
  intros q Hlt. replace q with 0%nat by lia. by rewrite H0.
Defined.

Lemma scheduler_fair_witness : exists s, (exists s', scheduler_visit 0 s = Ok true s') /\
  forall l s', sched_run 4096 0 5 nproc l s s' -> 0%nat ∈ l.
Proof.
  destruct demo_reached as (s & Hr & Hq & H0 & H1 & Hm & Hp). exists s. destruct (scheduler_fair 4096 0 s Hr) as [Hv Hf]. split.
  - destruct (Hv 0%nat Hq) as [s' E]; [vm_compute; lia|]. rewrite bool_decide_true in E by done. by exists s'.
  - intros l s' Hrun. apply (Hf 0%nat 5%nat nproc l s'); [vm_compute; lia|done|vm_compute; lia|done|lia].
Defined.
End examples.
