(* ===== verification/ProcUser.v ===== *)
(** * The processes of this kernel meet the interface of [ProcEnv]

    [proc_env] of [Proc] with the table and the page tables of this kernel
    satisfies the laws that pipes, files and the console are proved against:
    [wakeup] and [sleep] on the table, [copyin] and [copyout] on what the
    process sees through its page table. *)

From stdpp Require Import base gmap list numbers strings.
From Stdlib Require Import ZArith Lia.
From S2P Require Import Prelude Riscv Mem Spinlock Kalloc Vm VmSpec VmOps VmUser Disk BlockIO ProcEnv Proc.
Open Scope Z_scope.
Open Scope kernel_scope.

Section proc_user.
Context {img : KernelImage} {imgok : KernelImageOk img}.
Implicit Types (s : pst) (p q : nat) (c : chan).

(** ** States *)

Definition asleep_on s c : Prop := exists p, (p < nproc)%nat /\ p_state (getproc s p) = SLEEPING /\ p_chan (getproc s p) = Some c.

Record steady_table s : Prop := {
  st_len : length (ps_proc s) = nproc;
  st_locks : forall p, plk p s = false;
  st_me : forall p, me s = Some p -> (p < nproc)%nat /\ p_state (getproc s p) <> SLEEPING
}.

(** This hart runs a process, in an address space of its own. *)
Definition in_process s : Prop :=
  steady_table s /\ is_Some (me s) /\
  exists l T L lim, user_inv (ps_mem s) l (p_pagetable (getproc s (mine s))) T L lim (p_sz (getproc s (mine s))).

(** The page table entry for [a], and the byte there. *)
Definition pte_of s (a : Z) : Z :=
  match walk (p_pagetable (getproc s (mine s))) (PGROUNDDOWN a) false (ps_mem s) with
  | Ok pte _ => if pte =? 0 then 0 else ld64 (mram (ps_mem s)) pte
  | _ => 0
  end.
Definition proc_byte s (a : Z) : option Z :=
  if a <? 0 then None
  else if has (pte_of s a) PTE_V then
    if has (pte_of s a) PTE_U then Some (ld8 (mram (ps_mem s)) (PTE2PA (pte_of s a) + (a - PGROUNDDOWN a))) else None
  else if PGROUNDDOWN a <? p_sz (getproc s (mine s)) then Some 0 else None.
Definition backed s (a : Z) : Prop := 0 <= a /\ has (pte_of s a) PTE_V = true.

Lemma pte_of_leaf s l T L a : vm_inv (ps_mem s) l (p_pagetable (getproc s (mine s))) T L -> 0 <= a ->
  L !! PGROUNDDOWN a = if has (pte_of s a) PTE_V then Some (pte_of s a) else None.
Proof.
  intros Hv Ha. destruct (PGROUNDDOWN_bounds a Ha) as (Hal & Hb & _). unfold pte_of.
  destruct (Z.leb_spec MAXVA (PGROUNDDOWN a)) as [Hm|Hm].
  - rewrite walk_bad by done. destruct (L !! PGROUNDDOWN a) as [e|] eqn:E; [|done]. apply (vi_leaves _ _ _ _ _ Hv) in E as [? _]. lia.
  - rewrite (walk_noalloc (PGROUNDDOWN a) _ _ _ _ _ ltac:(lia) Hv). pose proof (lookup_slot _ _ _ _ _ (PGROUNDDOWN a) Hv ltac:(lia) Hal) as Hs.
    destruct (slot T (PGROUNDDOWN a)) as [pte|]; cbn [default from_option id]; [|done].
    destruct Hs as [Hp Hs]. destruct (Z.eqb_spec pte 0) as [|_]; [done|]. by destruct (has _ PTE_V).
Qed.

Lemma proc_byte_ulog s l T L lim a : 0 <= a ->
  user_inv (ps_mem s) l (p_pagetable (getproc s (mine s))) T L lim (p_sz (getproc s (mine s))) ->
  proc_byte s a = ulog (mram (ps_mem s)) L (p_sz (getproc s (mine s))) a.
Proof.
  intros Ha Hu. pose proof (pte_of_leaf s l T L a (ui_vm _ _ _ _ _ _ (us_inv _ _ _ _ _ _ _ Hu)) Ha) as E.
  unfold proc_byte, ulog. rewrite E. destruct (Z.ltb_spec a 0); [lia|]. by destruct (has (pte_of s a) PTE_V).
Qed.

Lemma backed_leaf s l T L lim a : user_inv (ps_mem s) l (p_pagetable (getproc s (mine s))) T L lim (p_sz (getproc s (mine s))) ->
  backed s a <-> 0 <= a /\ is_Some (L !! PGROUNDDOWN a).
Proof.
  intros Hu. unfold backed. split; intros [Ha H]; (split; [done|]);
    rewrite (pte_of_leaf s l T L a (ui_vm _ _ _ _ _ _ (us_inv _ _ _ _ _ _ _ Hu)) Ha) in *.
  - rewrite H. by eexists.
  - destruct (has _ _); [done|by destruct H].
Qed.

(** Where only entries of the table change that are not looked at, the
    process sees the same. *)
Lemma pte_of_same s s' a : ps_mem s' = ps_mem s -> p_pagetable (getproc s' (mine s')) = p_pagetable (getproc s (mine s)) -> pte_of s' a = pte_of s a.
Proof. intros E1 E2. unfold pte_of. by rewrite E1, E2. Qed.

Record same_view s s' : Prop := {
  sv_mem : ps_mem s' = ps_mem s;
  sv_me : me s' = me s;
  sv_entry : p_pagetable (getproc s' (mine s')) = p_pagetable (getproc s (mine s)) /\ p_sz (getproc s' (mine s')) = p_sz (getproc s (mine s))
}.

Lemma same_view_byte s s' a : same_view s s' -> proc_byte s' a = proc_byte s a.
Proof. intros [E1 E2 [E3 E4]]. unfold proc_byte. rewrite (pte_of_same s s' a E1 E3), E1, E4. done. Qed.
Lemma same_view_backed s s' a : same_view s s' -> backed s a -> backed s' a.
Proof. intros [E1 E2 [E3 E4]] [Ha Hb]. split; [done|]. by rewrite (pte_of_same s s' a E1 E3). Qed.
Lemma same_view_process s s' : same_view s s' -> steady_table s' -> in_process s -> in_process s'.
Proof.
  intros [E1 E2 [E3 E4]] Hs (_ & Hme & Hu). split_and!; [done|by rewrite E2|]. by rewrite E1, E3, E4.
Qed.

(** ** The table *)

Lemma getproc_set s p x q : (p < length (ps_proc s))%nat -> getproc (setproc s p x) q = if decide (q = p) then x else getproc s q.
Proof.
  intros Hl. unfold getproc, setproc. cbn. case_decide as E; [subst; by rewrite list_lookup_insert_eq|by rewrite list_lookup_insert_ne].
Qed.
Lemma setproc_twice s p x y : setproc (setproc s p x) p y = setproc s p y.
Proof. unfold setproc, set_proc. cbn. by rewrite list_insert_insert_eq. Qed.
Lemma setproc_self s p : (p < length (ps_proc s))%nat -> setproc s p (getproc s p) = s.
Proof.
  intros Hl. destruct s as [m pr a b d e f]. unfold setproc, getproc, set_proc. cbn in *. destruct (lookup_lt_is_Some_2 pr p Hl) as [x E].
  rewrite E. cbn. by rewrite list_insert_id.
Qed.

Lemma take_entry_ok s p : plk p s = false -> acquire_proc p s = Ok tt (setproc s p (set_p_lock (getproc s p) true)).
Proof. intros E. unfold acquire_proc, acquire, get, bind. by rewrite E. Qed.
Lemma drop_entry_ok s p : plk p s = true -> release_proc p s = Ok tt (setproc s p (set_p_lock (getproc s p) false)).
Proof. intros E. unfold release_proc, release, get, bind. by rewrite E. Qed.

(** What [wakeup] does to an entry. *)
Definition woken c (x : proc) : proc := if decide (p_state x = SLEEPING /\ p_chan x = Some c) then set_p_state RUNNABLE x else x.

Definition wake_entry c p : M pst unit :=
  m <- gets me ;;
  if decide (Some p = m) then ret tt
  else
    acquire_proc p ;;;
    s <- get ;;
    when (bool_decide (p_state (getproc s p) = SLEEPING /\ p_chan (getproc s p) = Some c))
      (updproc p (set_p_state RUNNABLE)) ;;;
    release_proc p.

Lemma wake_entry_ok c p s : (p < length (ps_proc s))%nat -> plk p s = false ->
  wake_entry c p s = Ok tt (if decide (Some p = me s) then s else setproc s p (woken c (getproc s p))).
Proof.
  intros Hl Hk. unfold wake_entry, gets, bind at 1. case_decide; [done|].
  step_with (take_entry_ok s p Hk). set (x := getproc s p) in *. set (s1 := setproc s p (set_p_lock x true)).
  assert (E1 : getproc s1 p = set_p_lock x true) by (unfold s1; by rewrite getproc_set, decide_True).
  assert (Hl1 : (p < length (ps_proc s1))%nat) by (cbn; by rewrite length_insert).
  unfold get, bind at 1. cbn beta iota. rewrite E1. cbn [p_state p_chan set_p_lock].
  unfold woken. destruct (decide (p_state x = SLEEPING /\ p_chan x = Some c)) as [Hd|Hd].
  - rewrite bool_decide_eq_true_2 by done. cbn [when]. unfold updproc, modify, bind at 1. rewrite E1.
    rewrite drop_entry_ok by (unfold plk; by rewrite getproc_set, decide_True).
    rewrite getproc_set, decide_True by done. unfold s1. rewrite !setproc_twice. do 2 f_equal.
    unfold plk in Hk. fold x in Hk. destruct x; cbn in *. by subst.
  - rewrite bool_decide_eq_false_2 by done. cbn [when]. unfold ret, bind at 1.
    rewrite drop_entry_ok by (unfold plk; by rewrite E1). rewrite E1. unfold s1. rewrite setproc_twice. do 2 f_equal.
    unfold plk in Hk. fold x in Hk. destruct x; cbn in *. by subst.
Qed.

(** The table after [wakeup]: the entries of [ps] that slept on [c] are runnable. *)
Record awake c (ps : list nat) s s' : Prop := {
  aw_mem : ps_mem s' = ps_mem s;
  aw_me : me s' = me s;
  aw_len : length (ps_proc s') = length (ps_proc s);
  aw_entry : forall q, getproc s' q = if decide (q ∈ ps /\ Some q <> me s) then woken c (getproc s q) else getproc s q
}.

Lemma woken_lock c x : p_lock (woken c x) = p_lock x.
Proof. unfold woken. by case_decide. Qed.

Lemma wakeup_awake c ps s : NoDup ps -> Forall (fun p => (p < length (ps_proc s))%nat) ps -> (forall p, plk p s = false) ->
  exists s', for_all ps (wake_entry c) s = Ok tt s' /\ awake c ps s s'.
Proof.
  revert s. induction ps as [|p ps IH]; intros s Hn Hl Hk; cbn [for_all].
  { exists s. split; [done|]. by split. }
  apply NoDup_cons in Hn as [Hni Hn]. apply Forall_cons in Hl as [Hp Hl]. step_with (wake_entry_ok c p s Hp (Hk p)).
  set (s1 := if decide (Some p = me s) then s else setproc s p (woken c (getproc s p))).
  assert (Hg : forall q, getproc s1 q = if decide (q = p /\ Some q <> me s) then woken c (getproc s q) else getproc s q).
  { intros q. unfold s1. destruct (decide (Some p = me s)) as [Em|Em].
    - rewrite decide_False; [done|]. intros [-> Hne]. done.
    - rewrite getproc_set by done. destruct (decide (q = p)) as [->|Hq]; [by rewrite decide_True|by rewrite decide_False by tauto]. }
  assert (Hlen : length (ps_proc s1) = length (ps_proc s)) by (unfold s1; case_decide; [done|apply length_insert]).
  assert (Hme : me s1 = me s) by (unfold s1; by case_decide).
  destruct (IH s1 Hn) as (s' & E & [A1 A2 A3 A4]).
  - by rewrite Hlen.
  - intros q. unfold plk. rewrite Hg. case_decide; [rewrite woken_lock|]; apply Hk.
  - exists s'. split; [exact E|]. split; [rewrite A1; unfold s1; by case_decide|congruence|congruence|].
    intros q. rewrite A4, Hme, !Hg. destruct (decide (q ∈ p :: ps /\ Some q <> me s)) as [[Hin Hq]|Hno].
    + apply elem_of_cons in Hin as [->|Hin].
      * rewrite (decide_False (P := p ∈ ps /\ _)) by tauto. by rewrite decide_True.
      * rewrite (decide_True (P := q ∈ ps /\ _)) by done. rewrite decide_False; [done|]. intros [-> _]. done.
    + rewrite (decide_False (P := q ∈ ps /\ _)) by (intros [? ?]; apply Hno; split; [by right|done]).
      rewrite decide_False; [done|]. intros [-> ?]. apply Hno. split; [by left|done].
Qed.

Lemma wakeup_procs_ok c s : steady_table s -> exists s', wakeup_procs c s = Ok tt s' /\ awake c all_procs s s'.
Proof.
  intros [Hl Hk _]. apply wakeup_awake; [apply NoDup_seq| |done]. apply Forall_forall. intros p Hp%elem_of_seq. rewrite Hl. lia.
Qed.

Lemma awake_facts c s s' : steady_table s -> awake c all_procs s s' ->
  steady_table s' /\ same_view s s' /\ ~ asleep_on s' c /\ forall c', asleep_on s' c' -> asleep_on s c'.
Proof.
  intros [Hl Hk Hm] [A1 A2 A3 A4].
  assert (Hmine : forall p, me s = Some p -> getproc s' p = getproc s p) by (intros p E; rewrite A4, decide_False; [done|]; intros [_ Hn]; congruence).
  assert (Hall : forall p, (p < nproc)%nat -> p ∈ all_procs) by (intros p Hp; apply elem_of_seq; lia).
  assert (Hw : forall x, p_state (woken c x) = SLEEPING -> p_state x = SLEEPING /\ p_chan (woken c x) = p_chan x /\ p_chan x <> Some c).
  { intros x. unfold woken. case_decide as Hd; [by intros|]. intros Hs. split_and!; [done|done|]. intros Hc. by apply Hd. }
  split_and!.
  - split; [congruence| |].
    + intros p. unfold plk. rewrite A4. case_decide; [rewrite woken_lock|]; apply Hk.
    + intros p Hp. rewrite A2 in Hp. rewrite (Hmine p Hp). by apply Hm.
  - split; [done|done|]. unfold mine. rewrite A2, A4. case_decide; [|done]. unfold woken. by case_decide.
  - intros (p & Hp & Hs & Hc). rewrite A4 in Hs, Hc. destruct (decide (p ∈ all_procs /\ Some p <> me s)) as [_|Hno].
    + apply Hw in Hs as (_ & E & Hne). congruence.
    + destruct (decide (Some p = me s)) as [E|E]; [by apply (Hm p)|]. apply Hno. auto.
  - intros c' (p & Hp & Hs & Hc). exists p. split; [done|]. rewrite A4 in Hs, Hc. case_decide; [|done]. apply Hw in Hs as (? & E & _). split; [done|congruence].
Qed.

(** [killed(myproc())] *)
Lemma proc_killed_ok s p : steady_table s -> (p < nproc)%nat -> proc_killed p s = Ok (p_killed (getproc s p)) s.
Proof.
  intros [Hl Hk _] Hp. unfold proc_killed. step_with (take_entry_ok s p (Hk p)).
  assert (E1 : getproc (setproc s p (set_p_lock (getproc s p) true)) p = set_p_lock (getproc s p) true) by (rewrite getproc_set, decide_True by lia; done).
  unfold gets, bind at 1. cbn beta iota. rewrite E1. unfold bind. rewrite drop_entry_ok by (unfold plk; by rewrite E1). rewrite E1, setproc_twice.
  replace (set_p_lock (set_p_lock (getproc s p) true) false) with (getproc s p); [rewrite setproc_self by lia; done|].
  specialize (Hk p). unfold plk in Hk. destruct (getproc s p); cbn in *. by subst.
Qed.

Lemma park_asleep c s : in_process s -> forall c', asleep_on (park_me c s) c' <-> c' = c \/ asleep_on s c'.
Proof.
  intros ([Hl Hk Hm] & [p Ep] & _) c'. destruct (Hm p Ep) as [Hp Hns].
  assert (Hg : forall q, getproc (park_me c s) q = if decide (q = p) then set_p_state SLEEPING (set_p_chan (Some c) (getproc s p)) else getproc s q).
  { intros q. unfold park_me, mine. rewrite Ep. cbn [default from_option id]. set (s1 := setproc s p _).
    change (getproc (set_me (setproc s1 p (set_p_state SLEEPING (getproc s1 p))) None) q) with (getproc (setproc s1 p (set_p_state SLEEPING (getproc s1 p))) q).
    rewrite getproc_set by (cbn; rewrite length_insert; lia). unfold s1. rewrite !getproc_set by lia. rewrite (decide_True (P := p = p)) by done. by case_decide. }
  unfold asleep_on. setoid_rewrite Hg. split.
  - intros (q & Hq & Hs & Hc). case_decide as E; [cbn in Hc; left; congruence|right; by exists q].
  - intros [->|(q & Hq & Hs & Hc)]; [exists p; by rewrite decide_True|]. exists q. rewrite decide_False; [done|]. intros ->. done.
Qed.

(** ** Copies *)

Lemma asleep_mem s m c : asleep_on (set_mem s m) c <-> asleep_on s c.
Proof. done. Qed.
Lemma steady_mem s m : steady_table s -> steady_table (set_mem s m).
Proof. by intros [H1 H2 H3]. Qed.

(** The process sees [s'] as [s]: it sees the same bytes in at least the
    pages it had. *)
Record user_keeps s s' : Prop := {
  su_mem : s' = set_mem s (ps_mem s');
  su_run : in_process s';
  su_byte : forall a, proc_byte s' a = proc_byte s a;
  su_back : forall a, backed s a -> backed s' a
}.

Lemma user_keeps_refl s : in_process s -> user_keeps s s.
Proof. intros H. split; [by destruct s|done..]. Qed.
Lemma user_keeps_trans s1 s2 s3 : user_keeps s1 s2 -> user_keeps s2 s3 -> user_keeps s1 s3.
Proof.
  intros [A1 B1 C1 D1] [A2 B2 C2 D2]. split; [by rewrite A2, A1|done|intros a; by rewrite C2|auto].
Qed.

Lemma proc_byte_neg s a : a < 0 -> proc_byte s a = None.
Proof. intros Ha. unfold proc_byte. by destruct (Z.ltb_spec a 0); [|lia]. Qed.

(** A step of the memory that keeps what the process sees. *)
Lemma user_keeps_mem s l T L lim m l' T' L' : in_process s ->
  user_inv (ps_mem s) l (p_pagetable (getproc s (mine s))) T L lim (p_sz (getproc s (mine s))) ->
  user_inv m l' (p_pagetable (getproc s (mine s))) T' L' lim (p_sz (getproc s (mine s))) -> L ⊆ L' ->
  (forall va, ulog (mram m) L' (p_sz (getproc s (mine s))) va = ulog (mram (ps_mem s)) L (p_sz (getproc s (mine s))) va) ->
  user_keeps s (set_mem s m).
Proof.
  intros (Hst & Hme & _) Hu Hu' Hsub Hlog. split; [done| | |].
  - split_and!; [by apply steady_mem|done|]. by exists l', T', L', lim.
  - intros a. destruct (Z_lt_le_dec a 0); [by rewrite !proc_byte_neg|].
    rewrite (proc_byte_ulog (set_mem s m) l' T' L' lim a), (proc_byte_ulog s l T L lim a) by done. apply Hlog.
  - intros a. rewrite (backed_leaf s l T L lim a Hu), (backed_leaf (set_mem s m) l' T' L' lim a Hu'). intros [Ha [e He]].
    split; [done|]. exists e. by eapply lookup_weaken.
Qed.

Context (kbuf : Z) (kbuf_ok : 0 <= kbuf /\ kbuf + PGSIZE <= k_end).

Lemma mem_ok {A} (m : M memst A) s a x : m (ps_mem s) = Ok a x -> mem m s = Ok a (set_mem s x).
Proof using. intros E. unfold mem, zoom. by rewrite E. Qed.

(** One page of [copyin]. *)
Lemma copyin_page s a n : in_process s -> 0 <= a -> 0 <= n <= PGSIZE ->
  exists r s', mem (copyin (cur_of s) (p_pagetable (getproc s (mine s))) kbuf a n) s = Ok r s' /\ user_keeps s s' /\
    ((r = 0 /\ mapM (proc_byte s) (seqZ a n) = Some (ldn (Z.to_nat n) (mram (ps_mem s')) kbuf)) \/
     (r = -1 /\ exists x, a <= x < a + n /\ (proc_byte s x = None \/ ~ backed s x))).
Proof using kbuf_ok imgok.
  intros Hp Ha Hn. pose proof Hp as (_ & _ & l & T & L & lim & Hu).
  destruct (copyin_reads_user kbuf a n (ps_mem s) l _ T L lim _ Hu Ha ltac:(lia)) as (r & m & l' & T' & L' & E & C & Hr).
  { apply (kbuf_image (ps_mem s) _ (p_pagetable (getproc s (mine s))) _ _ _ (p_sz (getproc s (mine s)))); [exact Hu|lia|lia]. }
  exists r, (set_mem s m). split_and!; [by apply mem_ok| |].
  - eapply user_keeps_mem; [exact Hp|exact Hu|apply C|apply C|apply C].
  - destruct Hr as [[-> Hb]|(-> & i & Hi & Hno)]; [left|right]; (split; [done|]).
    + apply mapM_Some, Forall2_same_length_lookup. rewrite length_seqZ, length_ldn. split; [done|].
      intros j x b Hx Hl. apply lookup_seqZ in Hx as [-> Hj]. rewrite lookup_ldn in Hl by lia. injection Hl as <-.
      rewrite (proc_byte_ulog s l T L lim) by (done || lia). by rewrite Hb by lia.
    + exists (a + i). split; [lia|]. rewrite (proc_byte_ulog s l T L lim) by (done || lia). destruct Hno as [|[Hno _]]; [by left|right].
      rewrite (backed_leaf s l T L lim _ Hu), Hno. intros [_ [? ?]]. done.
Qed.

Lemma mapM_same s s' a n : user_keeps s s' -> mapM (proc_byte s') (seqZ a n) = mapM (proc_byte s) (seqZ a n).
Proof using. intros H. apply mapM_ext. apply H. Qed.

Lemma mapM_app_seq (f : Z -> option Z) a n m l1 l2 : 0 <= n -> 0 <= m -> mapM f (seqZ a n) = Some l1 -> mapM f (seqZ (a + n) m) = Some l2 ->
  mapM f (seqZ a (n + m)) = Some (l1 ++ l2).
Proof using. intros Hn Hm H1 H2. rewrite seqZ_app by lia. apply mapM_Some. apply Forall2_app; by apply mapM_Some. Qed.

Lemma proc_copyin_ok fuel a n acc s : in_process s -> 0 <= a -> 0 <= n -> a + n < 2 ^ 64 -> (0 < n -> a mod PGSIZE + n <= Z.of_nat fuel * PGSIZE) ->
  exists bs ok s', proc_copyin_loop kbuf fuel a n acc s = Ok (acc ++ bs, ok) s' /\ user_keeps s s' /\
    if ok : bool then mapM (proc_byte s) (seqZ a n) = Some bs
    else exists x, a <= x < a + n /\ (proc_byte s x = None \/ ~ backed s x).
Proof using kbuf_ok imgok.
  revert a n acc s. induction fuel as [|fuel IH]; intros a n acc s Hp Ha Hn Hover Hf; cbn [proc_copyin_loop];
    (destruct (Z.ltb_spec 0 n) as [Hpos|Hz]; [|assert (n = 0) as -> by lia; exists [], true, s; rewrite app_nil_r; split_and!; [done|by apply user_keeps_refl|done]]).
  { specialize (Hf Hpos). exfalso. unfold PGSIZE in *. dlia. }
  unfold get, bind at 1. cbn beta iota zeta. set (m := Z.min n (PGSIZE - a mod PGSIZE)).
  assert (Hm : 0 < m <= n /\ m <= PGSIZE) by (unfold m, PGSIZE; dlia).
  destruct (copyin_page s a m Hp Ha ltac:(lia)) as (r & s1 & E & Hs1 & Hr). step_with E.
  destruct Hr as [[-> Hb]|(-> & x & Hx & Hno)]; cbn [Z.eqb].
  - unfold gets, bind at 1. cbn beta iota. rewrite u64_small by lia. set (b1 := ldn _ _ _) in *.
    destruct (IH (a + m) (n - m) (acc ++ b1) s1) as (bs & ok & s' & E' & Hs' & Hok); [apply Hs1|lia|lia|lia| |].
    { specialize (Hf Hpos). intros Hrest. unfold m, PGSIZE in *. replace ((a + Z.min n (4096 - a mod 4096)) mod 4096) with 0 by dlia. lia. }
    exists (b1 ++ bs), ok, s'. rewrite app_assoc. split_and!; [exact E'|by eapply user_keeps_trans|]. destruct ok.
    + replace n with (m + (n - m)) by lia. rewrite (mapM_same s s1) in Hok by done. apply mapM_app_seq; [lia|lia|done|done].
    + destruct Hok as (x & Hx & Hno). exists x. split; [lia|]. destruct Hno as [Hno|Hno]; [left; by rewrite <- (su_byte _ _ Hs1)|right].
      intros Hbk. apply Hno. by apply (su_back _ _ Hs1).
  - exists [], false, s1. rewrite app_nil_r. split_and!; [done|done|]. exists x. split; [lia|done].
Qed.

Lemma mapM_none (f : Z -> option Z) a n x : a <= x < a + n -> f x = None -> mapM f (seqZ a n) = None.
Proof using.
  intros Hx Hf. destruct (mapM f (seqZ a n)) as [bs|] eqn:E; [|done]. apply mapM_Some in E.
  destruct (Forall2_lookup_l _ _ _ (Z.to_nat (x - a)) x E) as (y & _ & Hy); [|congruence]. rewrite lookup_seqZ_lt by lia. f_equal. lia.
Qed.

(** [copyout] of at most a page. *)
Lemma proc_copyout_ok a bs s : in_process s -> 0 <= a -> Z.of_nat (length bs) <= PGSIZE -> Forall is_byte bs ->
  exists k s', proc_copyout kbuf a bs s = Ok (k =? Z.of_nat (length bs)) s' /\ s' = set_mem s (ps_mem s') /\ in_process s' /\ 0 <= k <= Z.of_nat (length bs) /\
    (forall x, proc_byte s' x = if (a <=? x) && (x <? a + k) then bs !! Z.to_nat (x - a) else proc_byte s x) /\ (forall x, backed s x -> backed s' x).
Proof using kbuf_ok imgok.
  intros Hp Ha Hlen Hb. pose proof Hp as (Hst & Hme & l & T & L & lim & Hu). set (n := Z.of_nat (length bs)) in *.
  set (root := p_pagetable (getproc s (mine s))) in *. set (sz := p_sz (getproc s (mine s))) in *.
  assert (Hkb : forall m, user_inv m l root T L lim sz -> VmUser.kbuf l T L lim kbuf n) by (intros m Hm; apply (kbuf_image m _ root _ _ _ sz); [exact Hm|lia|lia]).
  set (m1 := set_ram (ps_mem s) (stn (mram (ps_mem s)) kbuf bs)).
  destruct (user_store (ps_mem s) l root T L lim sz (mram m1) Hu) as [Hu1 Hlog1].
  { intros p Hin off Hoff. cbn [m1 set_ram mram]. rewrite ld8_stn. destruct (Z.leb_spec kbuf (p + off)), (Z.ltb_spec (p + off) (kbuf + Z.of_nat (length bs))); cbn [andb]; try done.
    destruct (Hkb _ Hu (p + off - kbuf)); [lia|]. replace (kbuf + (p + off - kbuf)) with (p + off) by lia.
    rewrite PGROUNDDOWN_in; [done|by eapply in_use_aligned|done]. }
  change (set_ram (ps_mem s) (mram m1)) with m1 in Hu1.
  destruct (copyout_writes_user a kbuf n m1 l root T L lim sz Hu1 Ha ltac:(lia) (Hkb _ Hu1)) as (r & m2 & l' & T' & L' & k & E & W & Hr).
  assert (Hk : 0 <= k <= n /\ (r =? 0) = (k =? n)) by (destruct Hr as [[-> ->]|(-> & ? & _)]; [rewrite Z.eqb_refl; lia|split; [lia|symmetry; apply Z.eqb_neq; lia]]).
  exists k, (set_mem s m2). split_and!; [|done| |lia|lia| |].
  - unfold proc_copyout, get, bind at 1. step_with (mem_ok (store (fun m => stn m kbuf bs)) s tt m1 eq_refl).
    step_with (mem_ok _ (set_mem s m1) _ _ E). destruct Hk as [_ ->]. done.
  - split_and!; [by apply steady_mem|done|]. exists l', T', L', lim. apply W.
  - intros x. destruct (Z_lt_le_dec x 0) as [Hx|Hx].
    { rewrite !proc_byte_neg by done. destruct (Z.leb_spec a x); [lia|done]. }
    rewrite (proc_byte_ulog (set_mem s m2) l' T' L' lim x Hx (wr_inv _ _ _ _ _ _ _ _ _ _ _ _ _ _ W)), (proc_byte_ulog s l T L lim x Hx Hu).
    change (ulog (mram m2) L' sz x = if (a <=? x) && (x <? a + k) then bs !! Z.to_nat (x - a) else ulog (mram (ps_mem s)) L sz x).
    rewrite (wr_log _ _ _ _ _ _ _ _ _ _ _ _ _ _ W), <- Hlog1. destruct (Z.leb_spec a x), (Z.ltb_spec x (a + k)); cbn [andb]; try done.
    assert (Eb : bs !! Z.to_nat (x - a) = ldn (length bs) (stn (mram (ps_mem s)) kbuf bs) kbuf !! Z.to_nat (x - a)) by (by rewrite ldn_stn_same).
    rewrite Eb, lookup_ldn by lia. do 2 f_equal. lia.
  - intros x. rewrite (backed_leaf s l T L lim x Hu), (backed_leaf (set_mem s m2) l' T' L' lim x (wr_inv _ _ _ _ _ _ _ _ _ _ _ _ _ _ W)).
    intros [Hx [e He]]. split; [done|]. exists e. eapply lookup_weaken; [exact He|apply W].
Qed.

Lemma kfree_total pa m : kmem_lock m = false -> page_ok pa -> exists m', kfree pa m = Ok tt m'.
Proof using.
  intros Hl [Ha Hr]. unfold kfree. replace (pa mod PGSIZE =? 0) with true by (symmetry; by apply Z.eqb_eq).
  destruct (Z.ltb_spec pa k_end); [lia|]. destruct (Z.leb_spec PHYSTOP pa); [lia|]. cbn [negb orb].
  destruct m as [r lk fl]. cbn in Hl. subst lk. eexists. reflexivity.
Qed.


(** ** The interface *)
#[local] Existing Instance proc_env.

Definition proc_spec : @ProcSpec pst (proc_env kbuf).
Proof using kbuf_ok imgok.
  refine {| asleep := asleep_on; user_byte := proc_byte; resident := backed; is_page := page_ok; steady := steady_table; running := in_process |}.
  - intros s a b. unfold proc_byte. destruct (a <? 0); [done|]. destruct (has _ PTE_V); [destruct (has _ PTE_U); [|done]|destruct (_ <? _); [|done]];
      intros [= <-]; [apply ld8_range|unfold is_byte; lia].
  - by intros s [Hs _].
  - intros s c Hs. destruct (wakeup_procs_ok c s Hs) as (s' & E & Hw). destruct (awake_facts c s s' Hs Hw) as (Hs' & Hv & Hn & Ha). exists s'.
    split_and!; [exact E|done|by apply same_view_process|done|done|intros a; by apply same_view_byte|intros a; by apply same_view_backed].
  - intros s c. apply park_asleep.
  - intros s (Hs & [p Ep] & Hu). exists (p_killed (getproc s p)), s. cbn. unfold gets, bind, mine. rewrite Ep. cbn [default from_option id].
    rewrite (proc_killed_ok s p Hs); [|by apply (st_me s Hs)]. by split_and!.
  - intros s a n Hp Ha Hn Ho. cbn. unfold proc_copyin.
    destruct (proc_copyin_ok (Z.to_nat (n / PGSIZE) + 2) a n [] s Hp Ha Hn Ho) as (bs & ok & s' & E & [S1 S2 S3 S4] & Hok); [unfold PGSIZE; dlia|].
    exists bs, ok, s'. split_and!; [exact E|done|intros c; by rewrite S1|done|done|]. destruct ok; [done|]. destruct Hok as (x & Hx & [Hno|Hno]); [left; by eapply mapM_none|right; by exists x].
  - intros s a bs Hp Ha Ho Hl Hb. destruct (proc_copyout_ok a bs s Hp Ha) as (k & s' & E & S1 & S2 & Hk & Hx & Hbk); [unfold BSIZE, PGSIZE in *; lia|done|].
    exists (k =? Z.of_nat (length bs)), k, s'. split_and!; try done; try lia. intros c. by rewrite S1.
  - intros s pa (_ & _ & l & T & L & lim & Hu) Hpa. destruct (kfree_total pa (ps_mem s)) as (m & E); [apply Hu|done|].
    exists (set_mem s m). split; [by apply (mem_ok (kfree pa) s)|done].
Defined.
End proc_user.

(** ** Example: a process of 10000 bytes that has touched none of them *)

Definition user_proc : proc := set_p_state RUNNING (set_p_pid 3 (set_p_sz 10000 (set_p_pagetable demo_root proc0))).
Definition user_state (m : memst) : pst := mk_pst m (user_proc :: replicate (nproc - 1) proc0) false false 4 None (Some 0%nat).

Lemma user_state_running : exists m, in_process (user_state m).
Proof.
  destruct demo_user as (m & Hu). exists m. split_and!; [|by eexists|by exists demo_free, {[ [] := demo_root ]}, ∅, MAXVA].
  split; [done| |intros p [= <-]; split; [unfold nproc, NPROC; lia|done]].
  intros p. unfold plk, getproc. cbn [user_state ps_proc]. destruct p as [|p]; [done|]. cbn [lookup list_lookup].
  destruct (replicate (nproc - 1) proc0 !! p) as [x|] eqn:E; [|done]. by apply lookup_replicate in E as [-> _].
Qed.

