(* ===== verification/File.v ===== *)
(** * Open files (kernel/file.c, and pipealloc of kernel/pipe.c)

    The file table over the file system of [Fs] and the pipes of [Pipe]. A
    [struct file*] is an index into the table. *)

From stdpp Require Import base gmap list numbers strings.
From Stdlib Require Import ZArith Lia.
From S2P Require Import Prelude Spinlock Bytes Sleeplock Disk Bio BlockIO Fs ProcEnv Pipe.
Open Scope Z_scope.
Open Scope kernel_scope.

Definition NFILE : nat := 100.
Definition NDEV : Z := 10.

Inductive fdtype := FD_NONE | FD_PIPE | FD_INODE | FD_DEVICE.

(** struct file *)
Record file := mk_file {
  f_type : fdtype; f_ref : Z; f_readable : bool; f_writable : bool; f_pipe : Z; f_ip : nat; f_off : Z; f_major : Z }.
Definition file0 : file := mk_file FD_NONE 0 false false 0 0 0 0.
Definition set_f_type (v : fdtype) (f : file) : file := mk_file v (f_ref f) (f_readable f) (f_writable f) (f_pipe f) (f_ip f) (f_off f) (f_major f).
Definition set_f_ref (v : Z) (f : file) : file := mk_file (f_type f) v (f_readable f) (f_writable f) (f_pipe f) (f_ip f) (f_off f) (f_major f).
Definition set_f_access (r w : bool) (f : file) : file := mk_file (f_type f) (f_ref f) r w (f_pipe f) (f_ip f) (f_off f) (f_major f).
Definition set_f_pipe (v : Z) (f : file) : file := mk_file (f_type f) (f_ref f) (f_readable f) (f_writable f) v (f_ip f) (f_off f) (f_major f).
Definition set_f_ip (v : nat) (f : file) : file := mk_file (f_type f) (f_ref f) (f_readable f) (f_writable f) (f_pipe f) v (f_off f) (f_major f).
Definition set_f_off (v : Z) (f : file) : file := mk_file (f_type f) (f_ref f) (f_readable f) (f_writable f) (f_pipe f) (f_ip f) v (f_major f).
Definition set_f_major (v : Z) (f : file) : file := mk_file (f_type f) (f_ref f) (f_readable f) (f_writable f) (f_pipe f) (f_ip f) (f_off f) v.

(** devsw: the read and write functions of a device, from the flag that the
    address is a user's, the address and the count. *)
Class DevSw (U : Type) := {
  dev_read : Z -> option (bool -> Z -> Z -> M U Z);
  dev_write : Z -> option (bool -> Z -> Z -> M U Z)
}.

Record kst (S U : Type) := mk_kst { k_fs : fsst S U; k_pipes : gmap Z pipe; ft_lock : bool; ft_file : list file }.
Arguments mk_kst {S U} _ _ _ _.
Arguments k_fs {S U} _.
Arguments k_pipes {S U} _.
Arguments ft_lock {S U} _.
Arguments ft_file {S U} _.

Section file_c.
Context {S H U : Type} {io : BlockIO S H} {env : ProcEnv U} {devs : DevSw U}.
Context (mypid : Z).
Notation K := (kst S U).
Implicit Types (s : K) (f : nat).

Definition set_fs s (v : fsst S U) : K := mk_kst v (k_pipes s) (ft_lock s) (ft_file s).
Definition set_pipes s (v : gmap Z pipe) : K := mk_kst (k_fs s) v (ft_lock s) (ft_file s).
Definition set_ft_lock s (v : bool) : K := mk_kst (k_fs s) (k_pipes s) v (ft_file s).
Definition set_files s (v : list file) : K := mk_kst (k_fs s) (k_pipes s) (ft_lock s) v.
Definition fsm {A} (m : M (fsst S U) A) : M K A := zoom k_fs set_fs m.
Definition kenv {A} (m : M U A) : M K A := fsm (usr m).
Definition pipe_view s : pipest U := mk_pipest (fs_um (k_fs s)) (k_pipes s).
Definition pipe_put s (v : pipest U) : K := mk_kst (set_um (k_fs s) (pip_env v)) (pip_tab v) (ft_lock s) (ft_file s).
Definition pipes {A} (m : M (pipest U) A) : M K A := zoom pipe_view pipe_put m.
Definition getf s f : file := default file0 (ft_file s !! f).
Definition updf f (g : file -> file) : M K unit := modify (fun s => set_files s (<[f := g (getf s f)]> (ft_file s))).

Definition fileinit : M K unit := modify (fun s => set_ft_lock s false).

Definition filealloc : M K (option nat) :=
  acquire ft_lock set_ft_lock ;;;
  s <- get ;;
  match List.find (fun f => f_ref (getf s f) =? 0) (seq 0 NFILE) with
  | Some f =>
      updf f (set_f_ref 1) ;;;
      release ft_lock set_ft_lock ;;;
      ret (Some f)
  | None => release ft_lock set_ft_lock ;;; ret None
  end.

Definition filedup f : M K nat :=
  acquire ft_lock set_ft_lock ;;;
  s <- get ;;
  if f_ref (getf s f) <? 1 then panic "filedup"
  else
    updf f (fun x => set_f_ref (f_ref x + 1) x) ;;;
    release ft_lock set_ft_lock ;;;
    ret f.

Definition fileclose f : M K unit :=
  acquire ft_lock set_ft_lock ;;;
  s <- get ;;
  if f_ref (getf s f) <? 1 then panic "fileclose"
  else
    updf f (fun x => set_f_ref (f_ref x - 1) x) ;;;
    s <- get ;;
    let ff := getf s f in
    if 0 <? f_ref ff then release ft_lock set_ft_lock
    else
      updf f (fun x => set_f_type FD_NONE (set_f_ref 0 x)) ;;;
      release ft_lock set_ft_lock ;;;
      match f_type ff with
      | FD_PIPE => pipes (pipeclose (f_pipe ff) (f_writable ff))
      | FD_INODE | FD_DEVICE =>
          fsm (blk io_begin_op) ;;;
          fsm (iput mypid (f_ip ff)) ;;;
          fsm (blk io_end_op)
      | FD_NONE => ret tt
      end.

(** The bytes of a [struct stat]; [pad] is the padding between [nlink] and
    [size], which nothing initialises. *)
Definition stat_bytes (pad : list Z) (st : stat) : list Z :=
  le_bytes 4 (st_dev st) ++ le_bytes 4 (st_ino st) ++ le_bytes 2 (st_type st) ++ le_bytes 2 (st_nlink st) ++ pad ++ le_bytes 8 (st_size st).

Definition filestat (pad : list Z) f (addr : Z) : M K Z :=
  s <- get ;;
  match f_type (getf s f) with
  | FD_INODE | FD_DEVICE =>
      let ip := f_ip (getf s f) in
      fsm (ilock mypid ip) ;;;
      st <- fsm (stati ip) ;;
      fsm (iunlock mypid ip) ;;;
      ok <- kenv (u_copyout addr (stat_bytes pad st)) ;;
      if ok : bool then ret 0 else ret (-1)
  | _ => ret (-1)
  end.

Definition dev_call (o : option (bool -> Z -> Z -> M U Z)) (major addr n : Z) : M K Z :=
  match o with
  | Some op => if (major <? 0) || (NDEV <=? major) then ret (-1) else kenv (op true addr n)
  | None => ret (-1)
  end.

Definition fileread f (addr n : Z) : M K Z :=
  s <- get ;;
  let x := getf s f in
  if negb (f_readable x) then ret (-1)
  else
    match f_type x with
    | FD_PIPE => pipes (piperead (f_pipe x) addr n)
    | FD_DEVICE => dev_call (dev_read (f_major x)) (f_major x) addr n
    | FD_INODE =>
        fsm (ilock mypid (f_ip x)) ;;;
        r <- fsm (readi (f_ip x) (User addr) (f_off x) (u32 n)) ;;
        when (0 <? fst r) (updf f (fun x => set_f_off (u32 (f_off x + fst r)) x)) ;;;
        fsm (iunlock mypid (f_ip x)) ;;;
        ret (fst r)
    | FD_NONE => panic "fileread"
    end.

(** [int max = ((MAXOPBLOCKS-1-1-2) / 2) * BSIZE] *)
Definition max_write : Z := (MAXOPBLOCKS - 1 - 1 - 2) / 2 * BSIZE.

(** The loop of [filewrite]: the bytes written when it ends. *)
Fixpoint filewrite_loop (fuel : nat) f (addr n i : Z) : M K Z :=
  if i <? n then
    match fuel with
    | O => no_fuel
    | Datatypes.S k =>
        let n1 := Z.min (n - i) max_write in
        s <- get ;;
        let ip := f_ip (getf s f) in
        fsm (blk io_begin_op) ;;;
        fsm (ilock mypid ip) ;;;
        s <- get ;;
        r <- fsm (writei ip (User (u64 (addr + i))) (f_off (getf s f)) n1) ;;
        when (0 <? r) (updf f (fun x => set_f_off (u32 (f_off x + r)) x)) ;;;
        fsm (iunlock mypid ip) ;;;
        fsm (blk io_end_op) ;;;
        if negb (r =? n1) then ret i
        else filewrite_loop k f addr n (i + r)
    end
  else ret i.

Definition filewrite f (addr n : Z) : M K Z :=
  s <- get ;;
  let x := getf s f in
  if negb (f_writable x) then ret (-1)
  else
    match f_type x with
    | FD_PIPE => pipes (pipewrite (f_pipe x) addr n)
    | FD_DEVICE => dev_call (dev_write (f_major x)) (f_major x) addr n
    | FD_INODE =>
        i <- filewrite_loop (Z.to_nat n) f addr n 0 ;;
        ret (if i =? n then n else -1)
    | FD_NONE => panic "filewrite"
    end.

(** [pipealloc]: the two files, or [None] after undoing what was done. [junk]
    is what the page holds where the data buffer will be. *)
Definition pipealloc (junk : Z -> list Z) : M K (option (nat * nat)) :=
  f0 <- filealloc ;;
  f1 <- (match f0 with Some _ => filealloc | None => ret None end) ;;
  pi <- (match f0, f1 with Some _, Some _ => kenv kalloc_page | _, _ => ret 0 end) ;;
  match f0, f1 with
  | Some r, Some w =>
      if pi =? 0 then fileclose r ;;; fileclose w ;;; ret None
      else
        modify (fun s => set_pipes s (<[pi := pipe_init (junk pi)]> (k_pipes s))) ;;;
        updf r (fun x => set_f_pipe pi (set_f_access true false (set_f_type FD_PIPE x))) ;;;
        updf w (fun x => set_f_pipe pi (set_f_access false true (set_f_type FD_PIPE x))) ;;;
        ret (Some (r, w))
  | Some r, None => fileclose r ;;; ret None
  | None, _ => ret None
  end.
End file_c.
