(* ===== verification/Syscall.v ===== *)
(** * Arguments of system calls (kernel/syscall.c) *)

From stdpp Require Import base gmap list numbers strings.
From Stdlib Require Import ZArith Lia.
From S2P Require Import Prelude Riscv Mem Spinlock Kalloc Vm BlockIO ProcEnv Proc.
Open Scope Z_scope.
Open Scope kernel_scope.

(** Offsets in struct trapframe. *)
Definition TF_EPC : Z := 24.
Definition TF_SP : Z := 48.
Definition TF_A0 : Z := 112.
Definition TF_A1 : Z := 120.
Definition TF_A7 : Z := 168.
Definition sizeof_trapframe : nat := 288.

Section syscall_c.
Context {img : KernelImage} (kbuf : Z).

Definition trapframe_get (off : Z) : M pst Z :=
  gets (fun s => ld64 (mram (ps_mem s)) (p_trapframe (getproc s (mine s)) + off)).
Definition trapframe_set (off v : Z) : M pst unit :=
  tf <- gets (fun s => p_trapframe (getproc s (mine s))) ;;
  mem (store (fun m => st64 m (tf + off) (u64 v))).

(** The value read, or [None] for -1. *)
Definition fetchaddr (addr : Z) : M pst (option Z) :=
  s <- get ;;
  let sz := p_sz (getproc s (mine s)) in
  if (sz <=? addr) || (sz <? u64 (addr + 8)) then ret None
  else
    r <- proc_copyin kbuf addr 8 ;;
    if snd r then ret (Some (le_value (fst r))) else ret None.

(** The string copied into [buf], or [None] for -1. *)
Definition fetchstr (addr buf max : Z) : M pst (option (list Z)) :=
  s <- get ;;
  r <- mem (copyinstr (p_pagetable (getproc s (mine s))) buf addr max) ;;
  if r <? 0 then ret None
  else str <- gets (fun s => cstr_name (ldn (Z.to_nat max) (mram (ps_mem s)) buf)) ;; ret (Some str).

Definition argraw (n : Z) : M pst Z :=
  if (0 <=? n) && (n <=? 5) then trapframe_get (TF_A0 + 8 * n) else panic "argraw".
Definition argint (n : Z) : M pst Z := v <- argraw n ;; ret (i32 v).
Definition argaddr (n : Z) : M pst Z := argraw n.
Definition argstr (n buf max : Z) : M pst (option (list Z)) :=
  addr <- argaddr n ;;
  fetchstr addr buf max.
End syscall_c.
