(* ===== verification/Exec.v ===== *)
(** * Running programs (kernel/exec.c, kernel/elf.h) *)

From stdpp Require Import base gmap list numbers strings.
From Stdlib Require Import ZArith Lia.
From S2P Require Import Prelude Riscv Mem Spinlock Kalloc Vm Bytes Sleeplock Disk Bio BlockIO Fs ProcEnv Pipe File Proc Syscall.
Open Scope Z_scope.
Open Scope kernel_scope.

Definition MAXARG : Z := 32.
Definition USERSTACK : Z := 1.
Definition ELF_MAGIC : Z := 0x464C457F.
Definition ELF_PROG_LOAD : Z := 1.

(** The fields of struct elfhdr and struct proghdr that are used. *)
Definition sizeof_elfhdr : Z := 64.
Definition elf_magic (b : list Z) : Z := getn 4 b 0.
Definition elf_entry (b : list Z) : Z := getn 8 b 24.
Definition elf_phoff (b : list Z) : Z := getn 8 b 32.
Definition elf_phnum (b : list Z) : Z := getn 2 b 56.
Definition sizeof_proghdr : Z := 56.
Definition ph_type (b : list Z) : Z := getn 4 b 0.
Definition ph_flags (b : list Z) : Z := getn 4 b 4.
Definition ph_off (b : list Z) : Z := getn 8 b 8.
Definition ph_vaddr (b : list Z) : Z := getn 8 b 16.
Definition ph_filesz (b : list Z) : Z := getn 8 b 32.
Definition ph_memsz (b : list Z) : Z := getn 8 b 40.

Definition flags2perm (flags : Z) : Z :=
  let perm := if has flags 0x1 then PTE_X else 0 in
  if has flags 0x2 then Z.lor perm PTE_W else perm.

(** [safestrcpy(dst, s, sizeof(dst))] on the bytes of [dst]. *)
Definition copy_name (dst str : list Z) : list Z :=
  let t := take (length dst - 1) str ++ [0] in t ++ drop (length t) dst.
(** The part of the path after the last slash. *)
Definition last_component (path : list Z) : list Z :=
  fold_left (fun last c => if c =? SLASH then [] else last ++ [c]) path [].

Section exec_c.
Context {S H : Type} {io : BlockIO S H} {img : KernelImage} (kbuf mypid : Z).
#[local] Instance env : ProcEnv pst := proc_env kbuf.
Notation K := (kst S pst).
Implicit Types (s : K) (ip : nat).

Definition inproc {A} (m : M pst A) : M K A := kenv m.
Definition memory {A} (m : M memst A) : M K A := inproc (mem m).
Definition pstate s : pst := fs_um (k_fs s).

(** The loop of [loadseg]; [readi] stores into the page at [pa]. *)
Fixpoint loadseg_loop (fuel : nat) (pagetable va : Z) ip (offset sz i : Z) : M K Z :=
  if i <? sz then
    match fuel with
    | O => no_fuel
    | Datatypes.S k =>
        pa <- memory (walkaddr pagetable (u64 (va + i))) ;;
        if pa =? 0 then panic "loadseg: address should exist"
        else
          let n := if sz - i <? PGSIZE then sz - i else PGSIZE in
          r <- fsm (readi ip (Kernel []) (u32 (offset + i)) n) ;;
          memory (store (fun m => stn m pa (snd r))) ;;;
          if negb (fst r =? n) then ret (-1)
          else loadseg_loop k pagetable va ip offset sz (u32 (i + PGSIZE))
    end
  else ret 0.
Definition loadseg (pagetable va : Z) ip (offset sz : Z) : M K Z :=
  loadseg_loop (Datatypes.S (Z.to_nat (sz / PGSIZE))) pagetable va ip offset sz 0.

(** The program headers from number [i] on: the size reached, and whether
    every segment was loaded. *)
Fixpoint load_program (fuel : nat) (pagetable : Z) ip (phnum i off sz : Z) : M K (Z * bool) :=
  if i <? phnum then
    match fuel with
    | O => no_fuel
    | Datatypes.S k =>
        r <- fsm (readi ip (Kernel []) (u32 off) sizeof_proghdr) ;;
        let ph := snd r in
        let next := load_program k pagetable ip phnum (i + 1) (i32 (off + sizeof_proghdr)) in
        if negb (fst r =? sizeof_proghdr) then ret (sz, false)
        else if negb (ph_type ph =? ELF_PROG_LOAD) then next sz
        else if ph_memsz ph <? ph_filesz ph then ret (sz, false)
        else if u64 (ph_vaddr ph + ph_memsz ph) <? ph_vaddr ph then ret (sz, false)
        else if negb (ph_vaddr ph mod PGSIZE =? 0) then ret (sz, false)
        else
          sz1 <- memory (uvmalloc pagetable sz (u64 (ph_vaddr ph + ph_memsz ph)) (flags2perm (ph_flags ph))) ;;
          if sz1 =? 0 then ret (sz, false)
          else
            l <- loadseg pagetable (ph_vaddr ph) ip (u32 (ph_off ph)) (u32 (ph_filesz ph)) ;;
            if l <? 0 then ret (sz1, false) else next sz1
    end
  else ret (sz, true).

(** [copyout(pagetable, va, p, len)] of a kernel object with these bytes. *)
Definition copyout_to (pagetable va : Z) (bytes : list Z) : M K bool :=
  s <- get ;;
  memory (store (fun m => stn m kbuf bytes)) ;;;
  r <- memory (copyout (cur_of (pstate s)) pagetable va kbuf (Z.of_nat (length bytes))) ;;
  ret (negb (r <? 0)).

(** The argument strings, each below the previous one: the stack pointer and
    [ustack] so far. *)
Fixpoint push_args (pagetable stackbase sp : Z) (argv : list (list Z)) (ustack : list Z) : M K (option (Z * list Z)) :=
  match argv with
  | [] => ret (Some (sp, ustack))
  | a :: argv' =>
      if MAXARG <=? Z.of_nat (length ustack) then ret None
      else
        let sp := u64 (sp - (Z.of_nat (length a) + 1)) in
        let sp := sp - sp mod 16 in
        if sp <? stackbase then ret None
        else
          ok <- copyout_to pagetable sp (a ++ [0]) ;;
          if ok : bool then push_args pagetable stackbase sp argv' (ustack ++ [sp]) else ret None
  end.

(** [bad:] *)
Definition exec_bad (pagetable sz : Z) (ip : option nat) : M K Z :=
  when (negb (pagetable =? 0)) (inproc (proc_freepagetable pagetable sz)) ;;;
  match ip with
  | Some ip => fsm (iunlockput mypid ip) ;;; fsm (blk io_end_op)
  | None => ret tt
  end ;;;
  ret (-1).

(** From the stack on; [sz] is the size of the program. *)
Definition exec_stack (path : list Z) (argv : list (list Z)) (entry pagetable sz : Z) : M K Z :=
  s <- get ;;
  let p := mine (pstate s) in
  let oldsz := p_sz (getproc (pstate s) p) in
  let sz := PGROUNDUP sz in
  sz1 <- memory (uvmalloc pagetable sz (u64 (sz + (USERSTACK + 1) * PGSIZE)) PTE_W) ;;
  if sz1 =? 0 then exec_bad pagetable sz None
  else
    memory (uvmclear pagetable (u64 (sz1 - (USERSTACK + 1) * PGSIZE))) ;;;
    let stackbase := sz1 - USERSTACK * PGSIZE in
    r <- push_args pagetable stackbase sz1 argv [] ;;
    match r with
    | None => exec_bad pagetable sz1 None
    | Some (sp, ustack) =>
        let argc := Z.of_nat (length ustack) in
        let sp := u64 (sp - (argc + 1) * 8) in
        let sp := sp - sp mod 16 in
        if sp <? stackbase then exec_bad pagetable sz1 None
        else
          ok <- copyout_to pagetable sp (concat (map (le_bytes 8) (ustack ++ [0]))) ;;
          if negb ok then exec_bad pagetable sz1 None
          else
            inproc (trapframe_set TF_A1 sp) ;;;
            inproc (updproc p (fun x => set_p_name (copy_name (p_name x) (last_component path)) x)) ;;;
            s <- get ;;
            let oldpagetable := p_pagetable (getproc (pstate s) p) in
            inproc (updproc p (set_p_pagetable pagetable)) ;;;
            inproc (updproc p (set_p_sz sz1)) ;;;
            inproc (trapframe_set TF_EPC entry) ;;;
            inproc (trapframe_set TF_SP sp) ;;;
            inproc (proc_freepagetable oldpagetable oldsz) ;;;
            ret argc
    end.

Definition kexec (path : list Z) (argv : list (list Z)) : M K Z :=
  s <- get ;;
  let p := mine (pstate s) in
  fsm (blk io_begin_op) ;;;
  r <- fsm (namei mypid (default 0%nat (p_cwd (getproc (pstate s) p))) path) ;;
  match r with
  | None => fsm (blk io_end_op) ;;; ret (-1)
  | Some ip =>
      fsm (ilock mypid ip) ;;;
      e <- fsm (readi ip (Kernel []) 0 sizeof_elfhdr) ;;
      let elf := snd e in
      if negb (fst e =? sizeof_elfhdr) then exec_bad 0 0 (Some ip)
      else if negb (elf_magic elf =? ELF_MAGIC) then exec_bad 0 0 (Some ip)
      else
        pagetable <- inproc (proc_pagetable p) ;;
        if pagetable =? 0 then exec_bad 0 0 (Some ip)
        else
          l <- load_program (Z.to_nat (elf_phnum elf)) pagetable ip (elf_phnum elf) 0 (i32 (elf_phoff elf)) 0 ;;
          let '(sz, ok) := l in
          if negb ok then exec_bad pagetable sz (Some ip)
          else
            fsm (iunlockput mypid ip) ;;;
            fsm (blk io_end_op) ;;;
            exec_stack path argv (elf_entry elf) pagetable sz
  end.
End exec_c.
