(* ===== verification/Sysfile.v ===== *)
(** * File-system system calls (kernel/sysfile.c) *)

From stdpp Require Import base gmap list numbers strings.
From Stdlib Require Import ZArith Lia.
From S2P Require Import Prelude Riscv Mem Spinlock Kalloc Vm Bytes Sleeplock Disk Bio BlockIO Fs ProcEnv Pipe File Proc Syscall Exec.
Open Scope Z_scope.
Open Scope kernel_scope.

Definition MAXPATH : Z := 128.

Definition dot : list Z := [46].
Definition dotdot : list Z := [46; 46].

Section sysfile_c.
Context {S H : Type} {io : BlockIO S H} {img : KernelImage} {devs : DevSw pst} (kbuf mypid : Z).
#[local] Instance env : ProcEnv pst := proc_env kbuf.
Notation K := (kst S pst).
Implicit Types (s : K) (f ip dp : nat) (fd n : Z).

Definition cwd s : nat := default 0%nat (p_cwd (getproc (pstate s) (mine (pstate s)))).
Definition ofile s fd : option nat := default None (p_ofile (getproc (pstate s) (mine (pstate s))) !! Z.to_nat fd).
Definition set_ofile fd (v : option nat) : M K unit :=
  p <- inproc (gets mine) ;;
  inproc (updproc p (fun x => set_p_ofile (setz (p_ofile x) fd v) x)).

(** The descriptor and the file, or [None] for -1. *)
Definition argfd n : M K (option (Z * nat)) :=
  fd <- inproc (argint n) ;;
  s <- get ;;
  if (fd <? 0) || (Z.of_nat NOFILE <=? fd) then ret None
  else match ofile s fd with Some f => ret (Some (fd, f)) | None => ret None end.

Definition fdalloc f : M K Z :=
  s <- get ;;
  match List.find (fun fd => match ofile s fd with None => true | Some _ => false end) (seqZ 0 (Z.of_nat NOFILE)) with
  | Some fd => set_ofile fd (Some f) ;;; ret fd
  | None => ret (-1)
  end.

Definition sys_dup : M K Z :=
  a <- argfd 0 ;;
  match a with
  | None => ret (-1)
  | Some (_, f) =>
      fd <- fdalloc f ;;
      if fd <? 0 then ret (-1)
      else _ <- filedup f ;; ret fd
  end.

Definition sys_read : M K Z :=
  p <- inproc (argaddr 1) ;;
  n <- inproc (argint 2) ;;
  a <- argfd 0 ;;
  match a with None => ret (-1) | Some (_, f) => fileread mypid f p n end.

Definition sys_write : M K Z :=
  p <- inproc (argaddr 1) ;;
  n <- inproc (argint 2) ;;
  a <- argfd 0 ;;
  match a with None => ret (-1) | Some (_, f) => filewrite mypid f p n end.

Definition sys_close : M K Z :=
  a <- argfd 0 ;;
  match a with
  | None => ret (-1)
  | Some (fd, f) => set_ofile fd None ;;; fileclose mypid f ;;; ret 0
  end.

Definition sys_fstat (pad : list Z) : M K Z :=
  st <- inproc (argaddr 1) ;;
  a <- argfd 0 ;;
  match a with None => ret (-1) | Some (_, f) => filestat mypid pad f st end.

Definition begin_op_ : M K unit := fsm (blk io_begin_op).
Definition end_op_ : M K unit := fsm (blk io_end_op).
Definition dinode_of s ip : dinode := i_d (geti (k_fs s) ip).
Definition add_nlink ip (k : Z) : M K unit := fsm (updd ip (fun d => set_d_nlink d (i16 (di_nlink d + k)))).

(** [bad:] of [sys_link] *)
Definition link_bad ip : M K Z :=
  fsm (ilock mypid ip) ;;;
  add_nlink ip (-1) ;;;
  fsm (iupdate ip) ;;;
  fsm (iunlockput mypid ip) ;;;
  end_op_ ;;;
  ret (-1).

Definition sys_link : M K Z :=
  old <- inproc (argstr 0 kbuf MAXPATH) ;;
  new <- (match old with Some _ => inproc (argstr 1 kbuf MAXPATH) | None => ret None end) ;;
  match old, new with
  | Some old, Some new =>
      begin_op_ ;;;
      s <- get ;;
      r <- fsm (namei mypid (cwd s) old) ;;
      match r with
      | None => end_op_ ;;; ret (-1)
      | Some ip =>
          fsm (ilock mypid ip) ;;;
          s <- get ;;
          if di_type (dinode_of s ip) =? T_DIR then
            fsm (iunlockput mypid ip) ;;; end_op_ ;;; ret (-1)
          else
            add_nlink ip 1 ;;;
            fsm (iupdate ip) ;;;
            fsm (iunlock mypid ip) ;;;
            s <- get ;;
            r <- fsm (nameiparent mypid (cwd s) new) ;;
            match r with
            | (None, _) => link_bad ip
            | (Some dp, name) =>
                fsm (ilock mypid dp) ;;;
                s <- get ;;
                l <- (if negb (i_dev (geti (k_fs s) dp) =? i_dev (geti (k_fs s) ip)) then ret (-1)
                      else fsm (dirlink mypid dp name (i_inum (geti (k_fs s) ip)))) ;;
                if l <? 0 then fsm (iunlockput mypid dp) ;;; link_bad ip
                else
                  fsm (iunlockput mypid dp) ;;;
                  fsm (iput mypid ip) ;;;
                  end_op_ ;;;
                  ret 0
            end
      end
  | _, _ => ret (-1)
  end.

(** The entries after "." and "..". *)
Definition isdirempty dp : M K bool :=
  s <- get ;;
  r <- for_each (filter (fun off => 2 * sizeof_dirent <= off) (dir_offsets (di_size (dinode_of s dp)))) (fun off =>
    r <- fsm (readi dp (Kernel []) off sizeof_dirent) ;;
    if negb (fst r =? sizeof_dirent) then panic "isdirempty: readi"
    else if negb (de_inum (snd r) =? 0) then ret (Some false) else ret None) ;;
  match r with Some b => ret b | None => ret true end.

Definition unlink_bad dp : M K Z := fsm (iunlockput mypid dp) ;;; end_op_ ;;; ret (-1).

Definition sys_unlink : M K Z :=
  path <- inproc (argstr 0 kbuf MAXPATH) ;;
  match path with
  | None => ret (-1)
  | Some path =>
      begin_op_ ;;;
      s <- get ;;
      r <- fsm (nameiparent mypid (cwd s) path) ;;
      match r with
      | (None, _) => end_op_ ;;; ret (-1)
      | (Some dp, name) =>
          fsm (ilock mypid dp) ;;;
          if (namecmp name dot =? 0) || (namecmp name dotdot =? 0) then unlink_bad dp
          else
            r <- fsm (dirlookup dp name) ;;
            match r with
            | None => unlink_bad dp
            | Some (ip, off) =>
                fsm (ilock mypid ip) ;;;
                s <- get ;;
                if di_nlink (dinode_of s ip) <? 1 then panic "unlink: nlink < 1"
                else
                  full <- (if di_type (dinode_of s ip) =? T_DIR then e <- isdirempty ip ;; ret (negb e) else ret false) ;;
                  if full : bool then fsm (iunlockput mypid ip) ;;; unlink_bad dp
                  else
                    w <- fsm (writei dp (Kernel (replicate (Z.to_nat sizeof_dirent) 0)) off sizeof_dirent) ;;
                    if negb (w =? sizeof_dirent) then panic "unlink: writei"
                    else
                      s <- get ;;
                      when (di_type (dinode_of s ip) =? T_DIR) (add_nlink dp (-1) ;;; fsm (iupdate dp)) ;;;
                      fsm (iunlockput mypid dp) ;;;
                      add_nlink ip (-1) ;;;
                      fsm (iupdate ip) ;;;
                      fsm (iunlockput mypid ip) ;;;
                      end_op_ ;;;
                      ret 0
            end
      end
  end.

(** [fail:] of [create] *)
Definition create_fail ip dp : M K (option nat) :=
  fsm (updd ip (fun d => set_d_nlink d 0)) ;;;
  fsm (iupdate ip) ;;;
  fsm (iunlockput mypid ip) ;;;
  fsm (iunlockput mypid dp) ;;;
  ret None.

Definition create (path : list Z) (type major minor : Z) : M K (option nat) :=
  s <- get ;;
  r <- fsm (nameiparent mypid (cwd s) path) ;;
  match r with
  | (None, _) => ret None
  | (Some dp, name) =>
      fsm (ilock mypid dp) ;;;
      r <- fsm (dirlookup dp name) ;;
      match r with
      | Some (ip, _) =>
          fsm (iunlockput mypid dp) ;;;
          fsm (ilock mypid ip) ;;;
          s <- get ;;
          let t := di_type (dinode_of s ip) in
          if (type =? T_FILE) && ((t =? T_FILE) || (t =? T_DEVICE)) then ret (Some ip)
          else fsm (iunlockput mypid ip) ;;; ret None
      | None =>
          s <- get ;;
          r <- fsm (ialloc (i_dev (geti (k_fs s) dp)) type) ;;
          match r with
          | None => fsm (iunlockput mypid dp) ;;; ret None
          | Some ip =>
              fsm (ilock mypid ip) ;;;
              fsm (updd ip (fun d => mk_dinode (di_type d) major minor 1 (di_size d) (di_addrs d))) ;;;
              fsm (iupdate ip) ;;;
              s <- get ;;
              let inum := i_inum (geti (k_fs s) ip) in
              dots <- (if type =? T_DIR then
                         l <- fsm (dirlink mypid ip dot inum) ;;
                         if l <? 0 then ret (-1)
                         else fsm (dirlink mypid ip dotdot (i_inum (geti (k_fs s) dp)))
                       else ret 0) ;;
              if dots <? 0 then create_fail ip dp
              else
                l <- fsm (dirlink mypid dp name inum) ;;
                if l <? 0 then create_fail ip dp
                else
                  when (type =? T_DIR) (add_nlink dp 1 ;;; fsm (iupdate dp)) ;;;
                  fsm (iunlockput mypid dp) ;;;
                  ret (Some ip)
          end
      end
  end.

(** [sys_open] once the inode is found and locked. *)
Definition open_inode ip (omode : Z) : M K Z :=
  s <- get ;;
  let d := dinode_of s ip in
  let fail := fsm (iunlockput mypid ip) ;;; end_op_ ;;; ret (-1) in
  if (di_type d =? T_DEVICE) && ((di_major d <? 0) || (NDEV <=? di_major d)) then fail
  else
    f <- filealloc ;;
    match f with
    | None => fail
    | Some f =>
        fd <- fdalloc f ;;
        if fd <? 0 then fileclose mypid f ;;; fail
        else
          (if di_type d =? T_DEVICE then updf f (fun x => set_f_major (di_major d) (set_f_type FD_DEVICE x))
           else updf f (fun x => set_f_off 0 (set_f_type FD_INODE x))) ;;;
          updf f (set_f_ip ip) ;;;
          updf f (set_f_access (negb (has omode O_WRONLY)) (has omode O_WRONLY || has omode O_RDWR)) ;;;
          when (has omode O_TRUNC && (di_type d =? T_FILE)) (fsm (itrunc ip)) ;;;
          fsm (iunlock mypid ip) ;;;
          end_op_ ;;;
          ret fd
    end.

Definition sys_open : M K Z :=
  omode <- inproc (argint 1) ;;
  path <- inproc (argstr 0 kbuf MAXPATH) ;;
  match path with
  | None => ret (-1)
  | Some path =>
      begin_op_ ;;;
      if has omode O_CREATE then
        r <- create path T_FILE 0 0 ;;
        match r with
        | None => end_op_ ;;; ret (-1)
        | Some ip => open_inode ip omode
        end
      else
        s <- get ;;
        r <- fsm (namei mypid (cwd s) path) ;;
        match r with
        | None => end_op_ ;;; ret (-1)
        | Some ip =>
            fsm (ilock mypid ip) ;;;
            s <- get ;;
            if (di_type (dinode_of s ip) =? T_DIR) && negb (omode =? O_RDONLY) then
              fsm (iunlockput mypid ip) ;;; end_op_ ;;; ret (-1)
            else open_inode ip omode
        end
  end.

(** The end of [sys_mkdir] and [sys_mknod]. *)
Definition made (r : option nat) : M K Z :=
  match r with
  | None => end_op_ ;;; ret (-1)
  | Some ip => fsm (iunlockput mypid ip) ;;; end_op_ ;;; ret 0
  end.

Definition sys_mkdir : M K Z :=
  begin_op_ ;;;
  path <- inproc (argstr 0 kbuf MAXPATH) ;;
  r <- (match path with Some path => create path T_DIR 0 0 | None => ret None end) ;;
  made r.

Definition sys_mknod : M K Z :=
  begin_op_ ;;;
  major <- inproc (argint 1) ;;
  minor <- inproc (argint 2) ;;
  path <- inproc (argstr 0 kbuf MAXPATH) ;;
  r <- (match path with Some path => create path T_DEVICE (i16 major) (i16 minor) | None => ret None end) ;;
  made r.

Definition sys_chdir : M K Z :=
  p <- inproc (gets mine) ;;
  begin_op_ ;;;
  path <- inproc (argstr 0 kbuf MAXPATH) ;;
  s <- get ;;
  r <- (match path with Some path => fsm (namei mypid (cwd s) path) | None => ret None end) ;;
  match r with
  | None => end_op_ ;;; ret (-1)
  | Some ip =>
      fsm (ilock mypid ip) ;;;
      s <- get ;;
      if negb (di_type (dinode_of s ip) =? T_DIR) then
        fsm (iunlockput mypid ip) ;;; end_op_ ;;; ret (-1)
      else
        fsm (iunlock mypid ip) ;;;
        fsm (iput mypid (cwd s)) ;;;
        end_op_ ;;;
        inproc (updproc p (set_p_cwd (Some ip))) ;;;
        ret 0
  end.

(** The loop of [sys_exec] that fetches the arguments: their strings and the
    pages that hold them, and whether it reached the null pointer. *)
Fixpoint fetch_args (fuel : nat) (uargv i : Z) (argv : list (list Z)) (pages : list Z) : M K (list (list Z) * list Z * bool) :=
  match fuel with
  | O => ret (argv, pages, false)
  | Datatypes.S k =>
      a <- inproc (fetchaddr kbuf (u64 (uargv + 8 * i))) ;;
      match a with
      | None => ret (argv, pages, false)
      | Some uarg =>
          if uarg =? 0 then ret (argv, pages, true)
          else
            pg <- memory kalloc ;;
            if pg =? 0 then ret (argv, pages, false)
            else
              str <- inproc (fetchstr uarg pg PGSIZE) ;;
              match str with
              | None => ret (argv, pages ++ [pg], false)
              | Some a => fetch_args k uargv (i + 1) (argv ++ [a]) (pages ++ [pg])
              end
      end
  end.

Definition sys_exec : M K Z :=
  uargv <- inproc (argaddr 1) ;;
  path <- inproc (argstr 0 kbuf MAXPATH) ;;
  match path with
  | None => ret (-1)
  | Some path =>
      r <- fetch_args (Z.to_nat MAXARG) uargv 0 [] [] ;;
      let '(argv, pages, ok) := r in
      v <- (if ok : bool then kexec kbuf mypid path argv else ret (-1)) ;;
      for_all pages (fun pg => memory (kfree pg)) ;;;
      ret v
  end.

Definition sys_pipe (junk : Z -> list Z) : M K Z :=
  fdarray <- inproc (argaddr 0) ;;
  r <- pipealloc mypid junk ;;
  match r with
  | None => ret (-1)
  | Some (rf, wf) =>
      let undo := fileclose mypid rf ;;; fileclose mypid wf ;;; ret (-1) in
      fd0 <- fdalloc rf ;;
      if fd0 <? 0 then undo
      else
        fd1 <- fdalloc wf ;;
        if fd1 <? 0 then set_ofile fd0 None ;;; undo
        else
          ok0 <- inproc (proc_copyout kbuf fdarray (le_bytes 4 fd0)) ;;
          ok1 <- (if ok0 : bool then inproc (proc_copyout kbuf (u64 (fdarray + 4)) (le_bytes 4 fd1)) else ret false) ;;
          if ok1 : bool then ret 0
          else set_ofile fd0 None ;;; set_ofile fd1 None ;;; undo
  end.
End sysfile_c.
