(* ===== verification/Kernel.v ===== *)
(** * Processes and files together (kernel/proc.c, kernel/sysproc.c,
      kernel/syscall.c)

    Creating and ending processes, the process system calls, and the
    dispatch of system calls. *)

From stdpp Require Import base gmap list numbers strings.
From Stdlib Require Import ZArith Lia.
From S2P Require Import Prelude Riscv Mem Spinlock Kalloc Vm Bytes Sleeplock Disk Bio BlockIO Fs ProcEnv Pipe File Proc Syscall Exec Sysfile.
Open Scope Z_scope.
Open Scope kernel_scope.

(** The kernel and its clock: [ticks] and [tickslock] of trap.c. *)
Record sysst (S : Type) := mk_sys { sy_k : kst S pst; ticks : Z; tickslock : bool }.
Arguments mk_sys {S} _ _ _.
Arguments sy_k {S} _.
Arguments ticks {S} _.
Arguments tickslock {S} _.

Section kernel.
Context {S H : Type} {io : BlockIO S H} {img : KernelImage} {devs : DevSw pst} (kbuf mypid forkret : Z).
#[local] Instance env : ProcEnv pst := proc_env kbuf.
Notation K := (kst S pst).
Notation T := (sysst S).
Implicit Types (s : K) (p : nat).

Definition kproc s p : proc := getproc (pstate s) p.

Definition userinit : M K unit :=
  r <- inproc (allocproc forkret) ;;
  match r with
  | None => panic "kerneltrap" (* p->cwd faults on the null pointer *)
  | Some p =>
      inproc (modify (fun t => set_initproc t (Some p))) ;;;
      s <- get ;;
      d <- fsm (namei mypid (cwd s) [SLASH]) ;;
      inproc (updproc p (set_p_cwd d)) ;;;
      inproc (updproc p (set_p_state RUNNABLE)) ;;;
      inproc (release_proc p)
  end.

Definition kfork : M K Z :=
  p <- inproc (gets mine) ;;
  r <- inproc (allocproc forkret) ;;
  match r with
  | None => ret (-1)
  | Some np =>
      s <- get ;;
      c <- memory (uvmcopy (p_pagetable (kproc s p)) (p_pagetable (kproc s np)) (p_sz (kproc s p))) ;;
      if c <? 0 then
        inproc (freeproc np) ;;;
        inproc (release_proc np) ;;;
        ret (-1)
      else
        inproc (updproc np (set_p_sz (p_sz (kproc s p)))) ;;;
        memory (store (fun m => stn m (p_trapframe (kproc s np)) (ldn sizeof_trapframe m (p_trapframe (kproc s p))))) ;;;
        memory (store (fun m => st64 m (p_trapframe (kproc s np) + TF_A0) 0)) ;;;
        for_all (seqZ 0 (Z.of_nat NOFILE)) (fun i =>
          match default None (p_ofile (kproc s p) !! Z.to_nat i) with
          | Some f =>
              f' <- filedup f ;;
              inproc (updproc np (fun x => set_p_ofile (setz (p_ofile x) i (Some f')) x))
          | None => ret tt
          end) ;;;
        d <- fsm (idup (default 0%nat (p_cwd (kproc s p)))) ;;
        inproc (updproc np (set_p_cwd (Some d))) ;;;
        inproc (updproc np (fun x => set_p_name (copy_name (p_name x) (cstr_name (p_name (kproc s p)))) x)) ;;;
        pid <- gets (fun s => p_pid (kproc s np)) ;;
        inproc (release_proc np) ;;;
        inproc (acquire wait_lock set_wait_lock) ;;;
        inproc (updproc np (set_p_parent (Some p))) ;;;
        inproc (release wait_lock set_wait_lock) ;;;
        inproc (acquire_proc np) ;;;
        inproc (updproc np (set_p_state RUNNABLE)) ;;;
        inproc (release_proc np) ;;;
        ret pid
  end.

(** [kexit] up to the switch to the scheduler: the process that ended. *)
Definition kexit_out (status : Z) : M K nat :=
  p <- inproc (gets mine) ;;
  s <- get ;;
  if decide (initproc (pstate s) = Some p) then panic "init exiting"
  else
    for_all (seqZ 0 (Z.of_nat NOFILE)) (fun fd =>
      s <- get ;;
      match ofile s fd with
      | Some f => fileclose mypid f ;;; set_ofile fd None
      | None => ret tt
      end) ;;;
    begin_op_ ;;;
    s <- get ;;
    fsm (iput mypid (default 0%nat (p_cwd (kproc s p)))) ;;;
    end_op_ ;;;
    inproc (updproc p (set_p_cwd None)) ;;;
    inproc (acquire wait_lock set_wait_lock) ;;;
    inproc (reparent p) ;;;
    s <- get ;;
    (match p_parent (kproc s p) with Some q => inproc (wakeup_procs (ChProc q)) | None => ret tt end) ;;;
    inproc (acquire_proc p) ;;;
    inproc (updproc p (set_p_xstate status)) ;;;
    inproc (updproc p (set_p_state ZOMBIE)) ;;;
    inproc (release wait_lock set_wait_lock) ;;;
    inproc sched ;;;
    inproc scheduler_return ;;;
    ret p.
(** The switch does not come back. *)
Definition kexit {A} (status : Z) : M K A := p <- kexit_out status ;; sleep_on (ChExit p).

(** ** sysproc.c *)

Definition set_k (t : T) (k : K) : T := mk_sys k (ticks t) (tickslock t).
Definition set_ticks (t : T) (v : Z) : T := mk_sys (sy_k t) v (tickslock t).
Definition set_tickslock (t : T) (v : bool) : T := mk_sys (sy_k t) (ticks t) v.
Definition kern {A} (m : M K A) : M T A := zoom sy_k set_k m.

Definition sys_exit : M K Z := n <- inproc (argint 0) ;; kexit n.
Definition sys_getpid : M K Z := gets (fun s => p_pid (kproc s (mine (pstate s)))).
Definition sys_fork : M K Z := kfork.
Definition sys_wait : M K Z := p <- inproc (argaddr 0) ;; inproc (kwait kbuf p).
Definition sys_kill : M K Z := pid <- inproc (argint 0) ;; inproc (kkill pid).

Definition sys_sbrk : M K Z :=
  n <- inproc (argint 0) ;;
  t <- inproc (argint 1) ;;
  s <- get ;;
  let p := mine (pstate s) in
  let addr := p_sz (kproc s p) in
  if (t =? SBRK_EAGER) || (n <? 0) then
    r <- inproc (growproc n) ;;
    if r <? 0 then ret (-1) else ret addr
  else if u64 (addr + n) <? addr then ret (-1)
  else if TRAPFRAME <? u64 (addr + n) then ret (-1)
  else inproc (updproc p (fun x => set_p_sz (u64 (p_sz x + n)) x)) ;;; ret addr.

(** One round of [sys_pause] after [ticks0] was read: the value to return, or
    [None] when the process is now asleep. *)
Definition pause_round (n ticks0 : Z) : M T (option Z) :=
  now <- gets ticks ;;
  if u32 (now - ticks0) <? n then
    k <- kern (kenv killed) ;;
    if k : bool then release tickslock set_tickslock ;;; ret (Some (-1))
    else
      release tickslock set_tickslock ;;;
      kern (kenv (modify (park ChTicks))) ;;;
      ret None
  else release tickslock set_tickslock ;;; ret (Some 0).

Definition sys_pause : M T Z :=
  n <- kern (inproc (argint 0)) ;;
  let n := if n <? 0 then 0 else n in
  acquire tickslock set_tickslock ;;;
  ticks0 <- gets ticks ;;
  r <- pause_round n ticks0 ;;
  match r with Some v => ret v | None => sleep_on ChTicks end.

Definition sys_uptime : M T Z :=
  acquire tickslock set_tickslock ;;;
  xticks <- gets ticks ;;
  release tickslock set_tickslock ;;;
  ret xticks.

(** ** The table of system calls and [syscall] *)

Definition syscalls (pad : list Z) (junk : Z -> list Z) : list (option (M T Z)) :=
  [ None; Some (kern sys_fork); Some (kern sys_exit); Some (kern sys_wait); Some (kern (sys_pipe kbuf mypid junk));
    Some (kern (sys_read kbuf mypid)); Some (kern sys_kill); Some (kern (sys_exec kbuf mypid)); Some (kern (sys_fstat kbuf mypid pad));
    Some (kern (sys_chdir kbuf mypid)); Some (kern sys_dup); Some (kern sys_getpid); Some (kern sys_sbrk);
    Some sys_pause; Some sys_uptime; Some (kern (sys_open kbuf mypid)); Some (kern (sys_write kbuf mypid));
    Some (kern (sys_mknod kbuf mypid)); Some (kern (sys_unlink kbuf mypid)); Some (kern (sys_link kbuf mypid));
    Some (kern (sys_mkdir kbuf mypid)); Some (kern (sys_close kbuf mypid)) ].

Definition syscall (pad : list Z) (junk : Z -> list Z) : M T unit :=
  num <- kern (inproc (trapframe_get TF_A7)) ;;
  let num := i32 num in
  let table := syscalls pad junk in
  if (0 <? num) && (num <? Z.of_nat (length table)) then
    match default None (table !! Z.to_nat num) with
    | Some call => v <- call ;; kern (inproc (trapframe_set TF_A0 v))
    | None => kern (inproc (trapframe_set TF_A0 (-1)))
    end
  else kern (inproc (trapframe_set TF_A0 (-1))). (* "unknown sys call" *)
End kernel.
