(* ===== verification/FdFrame.v ===== *)
(** * What system calls leave alone

    A routine preserves a relation between states when every run of it that
    returns relates the state before to the state after. The relations here say
    that descriptor tables, the running process and the reference counts of
    open files stay the same: they hold of the file system, of pipes, of [exec]
    and of all the system calls that neither make nor remove descriptors. *)

From stdpp Require Import base gmap list numbers strings.
From Stdlib Require Import ZArith Lia.
From S2P Require Import Prelude Riscv Mem Spinlock Kalloc Vm Bytes Sleeplock Disk Bio BlockIO Fs ProcEnv Pipe File Proc ProcInv Syscall Exec Sysfile Kernel.
Open Scope Z_scope.
Open Scope kernel_scope.

(** ** Routines that keep a relation between the states before and after *)

Create HintDb pres.

Definition pres {S A} (R : S -> S -> Prop) (m : M S A) : Prop := forall s a s', m s = Ok a s' -> R s s'.

Section pres.
Context {S : Type} (R : S -> S -> Prop) `{!PreOrder R}.

Lemma pres_ret {A} (a : A) : pres R (ret a).
Proof using PreOrder0. by intros s b s' [= _ <-]. Qed.
Lemma pres_get : pres R get.
Proof using PreOrder0. by intros s b s' [= _ <-]. Qed.
Lemma pres_gets {A} (f : S -> A) : pres R (gets f).
Proof using PreOrder0. by intros s b s' [= _ <-]. Qed.
Lemma pres_panic {A} msg : pres R (panic (A := A) msg).
Proof using. by intros s a s'. Qed.
Lemma pres_no_fuel {A} : pres R (no_fuel (A := A)).
Proof using. by intros s a s'. Qed.
Lemma pres_sleep {A} c : pres R (sleep_on (A := A) c).
Proof using. by intros s a s'. Qed.
Lemma pres_modify f : (forall s, R s (f s)) -> pres R (modify f).
Proof using. intros Hf s a s' [= _ <-]. apply Hf. Qed.
Lemma pres_bind {A B} (m : M S A) (k : A -> M S B) : pres R m -> (forall a, pres R (k a)) -> pres R (bind m k).
Proof using PreOrder0. intros Hm Hk s b s' H. bind_inv H. etransitivity; [by eapply Hm|by eapply Hk]. Qed.
Lemma pres_when c (m : M S unit) : pres R m -> pres R (when c m).
Proof using PreOrder0. intros Hm. destruct c; [done|apply pres_ret]. Qed.
Lemma pres_for_all {A} (l : list A) body : (forall x, pres R (body x)) -> pres R (for_all l body).
Proof using PreOrder0. intros Hb. induction l; [apply pres_ret|by apply pres_bind]. Qed.
Lemma pres_for_each {A B} (l : list A) (body : A -> M S (option B)) : (forall x, pres R (body x)) -> pres R (for_each l body).
Proof using PreOrder0. intros Hb. induction l as [|x l IH]; [apply pres_ret|]. apply pres_bind; [done|]. intros [v|]; [apply pres_ret|done]. Qed.
Lemma pres_acquire g f : (forall s b, R s (f s b)) -> pres R (acquire g f).
Proof using. intros Hf s a s'. unfold acquire, get, put, panic, bind. destruct (g s); try discriminate. intros [= _ <-]. apply Hf. Qed.
Lemma pres_release g f : (forall s b, R s (f s b)) -> pres R (release g f).
Proof using. intros Hf s a s'. unfold release, get, put, panic, bind. destruct (g s); try discriminate. intros [= _ <-]. apply Hf. Qed.
Lemma pres_zoom {T A} (getf : S -> T) (setf : S -> T -> S) (m : M T A) (Q : T -> T -> Prop) : pres Q m ->
  (forall s t, Q (getf s) t -> R s (setf s t)) -> pres R (zoom getf setf m).
Proof using. intros Hm Hs s a s'. unfold zoom. destruct (m (getf s)) eqn:E; try discriminate. intros [= _ <-]. apply Hs. by eapply Hm. Qed.
End pres.
Arguments pres_bind {S R _ A B}.
Arguments pres_when {S R _}.
Arguments pres_for_all {S R _ A}.
Arguments pres_for_each {S R _ A B}.

#[export] Hint Resolve pres_panic pres_no_fuel pres_sleep : pres.
#[export] Hint Extern 1 (pres _ (ret _)) => apply (pres_ret _) : pres.
#[export] Hint Extern 1 (pres _ get) => apply (pres_get _) : pres.
#[export] Hint Extern 1 (pres _ (gets _)) => apply (pres_gets _) : pres.
Ltac pres := repeat first
  [ solve [eauto 2 with pres] | apply pres_when | apply pres_for_all | apply pres_for_each | apply pres_bind | progress intros | case_decide | case_match | progress cbn beta iota ].

(** ** Descriptor tables *)

Definition tables (P : pst) : list (list (option nat)) := p_ofile <$> ps_proc P.

(** A process that is gone: it has closed its files. *)
Definition ended (x : procstate) : bool := match x with UNUSED | ZOMBIE => true | _ => false end.
Definition ended_at (P : pst) (p : nat) : bool := ended (p_state (getproc P p)).

(** The tables and the running process stay, and no process ends. *)
Record same_fds (P P' : pst) : Prop := {
  sf_tables : tables P' = tables P;
  sf_me : me P' = me P;
  sf_ended : forall p, ended_at P' p = true -> ended_at P p = true
}.
#[export] Instance same_fds_pre : PreOrder same_fds.
Proof. split; [by intros P|]. intros P1 P2 P3 [A1 B1 C1] [A2 B2 C2]. split; [congruence|congruence|auto]. Qed.

Lemma tables_setproc P p x : tables (setproc P p x) = <[p := p_ofile x]> (tables P).
Proof. unfold tables, setproc. cbn. apply list_fmap_insert. Qed.

Lemma tables_lookup P p t : tables P !! p = Some t -> p_ofile (getproc P p) = t.
Proof. unfold tables, getproc. rewrite list_lookup_fmap. intros (x & -> & ->)%fmap_Some. done. Qed.

Lemma same_fds_setproc P p x : p_ofile x = p_ofile (getproc P p) -> (ended (p_state x) = true -> ended_at P p = true) -> same_fds P (setproc P p x).
Proof.
  intros Ho Hu. split; [|done|].
  - rewrite tables_setproc, Ho. apply list_insert_id'. intros Hl. unfold tables, getproc. rewrite list_lookup_fmap.
    unfold tables in Hl. rewrite length_fmap in Hl. by destruct (lookup_lt_is_Some_2 _ _ Hl) as [y ->].
  - intros q. unfold ended_at in *. rewrite getproc_upd. case_decide as E; [destruct E as [-> _]; exact Hu|done].
Qed.

Lemma same_fds_updproc p f : (forall x, p_ofile (f x) = p_ofile x) -> (forall x, ended (p_state (f x)) = true -> ended (p_state x) = true) -> pres same_fds (updproc p f).
Proof. intros Ho Hu s a s' [= _ <-]. apply same_fds_setproc; [apply Ho|apply Hu]. Qed.
#[export] Hint Extern 3 (pres same_fds (updproc _ _)) => apply same_fds_updproc; by intros [] : pres.

Lemma same_fds_mem {A} (m : M memst A) : pres same_fds (mem m).
Proof. intros s a s'. unfold mem, zoom. by destruct (m (ps_mem s)); intros [= _ <-]. Qed.
Lemma same_fds_lock p : pres same_fds (acquire_proc p) /\ pres same_fds (release_proc p).
Proof. split; [apply pres_acquire|apply pres_release]; intros s b; by apply same_fds_setproc. Qed.
Lemma same_fds_acquire p : pres same_fds (acquire_proc p).
Proof. apply same_fds_lock. Qed.
Lemma same_fds_release p : pres same_fds (release_proc p).
Proof. apply same_fds_lock. Qed.
Lemma same_fds_acquire_wait : pres same_fds (acquire wait_lock set_wait_lock).
Proof. apply pres_acquire. by intros s b. Qed.
Lemma same_fds_release_wait : pres same_fds (release wait_lock set_wait_lock).
Proof. apply pres_release. by intros s b. Qed.
#[export] Hint Resolve same_fds_mem same_fds_acquire same_fds_release same_fds_acquire_wait same_fds_release_wait : pres.

Lemma same_fds_wakeup c : pres same_fds (wakeup_procs c).
Proof. unfold wakeup_procs. pres. Qed.
Lemma same_fds_copyout kbuf {img : KernelImage} va bytes : pres same_fds (proc_copyout kbuf va bytes).
Proof. unfold proc_copyout. pres. Qed.
Lemma same_fds_pagetable {img : KernelImage} p : pres same_fds (proc_pagetable p).
Proof. unfold proc_pagetable. pres. Qed.
Lemma same_fds_argraw n : pres same_fds (argraw n).
Proof. unfold argraw, trapframe_get. pres. Qed.
#[export] Hint Resolve same_fds_wakeup same_fds_copyout same_fds_pagetable same_fds_argraw : pres.


Lemma same_fds_refl P : same_fds P P.
Proof. done. Qed.
Lemma same_fds_copyin kbuf {img : KernelImage} va n : pres same_fds (proc_copyin kbuf va n).
Proof.
  unfold proc_copyin. generalize (Z.to_nat (n / PGSIZE) + 2)%nat, (@nil Z). intros k. revert va n. induction k as [|k IH]; intros va n acc; cbn [proc_copyin_loop]; pres.
Qed.
Lemma same_fds_trapframe_set off v : pres same_fds (trapframe_set off v).
Proof. unfold trapframe_set. pres. Qed.
Lemma same_fds_argint n : pres same_fds (argint n).
Proof. unfold argint. pres. Qed.
Lemma same_fds_fetchstr addr buf max : pres same_fds (fetchstr addr buf max).
Proof. unfold fetchstr. pres. Qed.
#[export] Hint Resolve same_fds_copyin same_fds_trapframe_set same_fds_argint same_fds_fetchstr : pres.
Lemma same_fds_argstr n buf max : pres same_fds (argstr n buf max).
Proof. unfold argstr, argaddr. pres. Qed.
Lemma same_fds_argaddr n : pres same_fds (argaddr n).
Proof. apply same_fds_argraw. Qed.
Lemma same_fds_fetchaddr kbuf {img : KernelImage} addr : pres same_fds (fetchaddr kbuf addr).
Proof. unfold fetchaddr. pres. Qed.
Lemma same_fds_freepagetable {img : KernelImage} pt sz : pres same_fds (proc_freepagetable pt sz).
Proof. unfold proc_freepagetable. pres. Qed.
Lemma same_fds_killed p : pres same_fds (proc_killed p).
Proof. unfold proc_killed. pres. Qed.
Lemma same_fds_kkill pid : pres same_fds (kkill pid).
Proof. unfold kkill. pres. Qed.
Lemma same_fds_growproc {img : KernelImage} n : pres same_fds (growproc n).
Proof. unfold growproc. pres. Qed.
Lemma same_fds_reparent p : pres same_fds (reparent p).
Proof. unfold reparent. pres. Qed.
#[export] Hint Resolve same_fds_argstr same_fds_argaddr same_fds_fetchaddr same_fds_freepagetable same_fds_killed same_fds_kkill same_fds_growproc same_fds_reparent : pres.

(** ** The file system *)

Section fs_frame.
Context {S H : Type} {io : BlockIO S H} {img : KernelImage} (kbuf mypid : Z).
#[local] Instance frame_env : ProcEnv pst := proc_env kbuf.
Notation FS := (fsst S pst).

Definition same_um (s s' : FS) : Prop := same_fds (fs_um s) (fs_um s').
#[export] Instance same_um_pre : PreOrder same_um.
Proof. split; [intros s; apply same_fds_refl|]. intros s1 s2 s3 E1 E2. unfold same_um in *. by etransitivity. Qed.
Lemma same_um_eq s s' : fs_um s' = fs_um s -> same_um s s'.
Proof using. unfold same_um. by intros ->. Qed.

Lemma same_um_blk {A} (m : M S A) : pres same_um (blk m).
Proof using. intros s a s'. unfold blk, zoom. destruct (m (fs_io s)); try discriminate. intros [= _ <-]. by apply same_um_eq. Qed.
Lemma same_um_usr {A} (m : M pst A) : pres same_fds m -> pres same_um (usr m).
Proof using. intros Hm. by apply (pres_zoom same_um _ _ m same_fds Hm). Qed.
#[local] Hint Extern 2 (pres same_um (acquire _ _)) => apply pres_acquire; intros; apply same_um_eq; exact eq_refl : pres.
#[local] Hint Extern 2 (pres same_um (release _ _)) => apply pres_release; intros; apply same_um_eq; exact eq_refl : pres.
#[local] Hint Extern 2 (pres same_um (modify _)) => apply pres_modify; intros; apply same_um_eq; exact eq_refl : pres.
Lemma same_um_updi ip f : pres same_um (updi ip f).
Proof using. apply pres_modify. intros s. by apply same_um_eq. Qed.
Lemma same_um_updd ip f : pres same_um (updd ip f).
Proof using. apply same_um_updi. Qed.
#[local] Hint Resolve same_um_blk same_um_usr same_um_updi same_um_updd : pres.
Lemma same_um_acquiresleep ip c : pres same_um (acquiresleep (ino_sl ip) (set_ino_sl ip) mypid c).
Proof using. unfold acquiresleep. pres. Qed.
Lemma same_um_releasesleep ip : pres same_um (releasesleep (ino_sl ip) (set_ino_sl ip)).
Proof using. unfold releasesleep. pres. Qed.
Lemma same_um_holdingsleep ip : pres same_um (holdingsleep (ino_sl ip) (set_ino_sl ip) mypid).
Proof using. unfold holdingsleep. pres. Qed.
Lemma same_um_bzero dev b : pres same_um (bzero dev b).
Proof using. unfold bzero. pres. Qed.
#[local] Hint Resolve same_um_bzero : pres.
Lemma same_um_balloc dev : pres same_um (balloc dev).
Proof using. unfold balloc. pres. Qed.
Lemma same_um_bfree dev b : pres same_um (bfree dev b).
Proof using. unfold bfree. pres. Qed.
Lemma same_um_iupdate ip : pres same_um (iupdate ip).
Proof using. unfold iupdate. pres. Qed.
Lemma same_um_iget dev i : pres same_um (iget dev i).
Proof using. unfold iget. pres. Qed.
#[local] Hint Resolve same_um_acquiresleep same_um_releasesleep same_um_holdingsleep same_um_balloc same_um_bfree same_um_iupdate same_um_iget : pres.
Lemma same_um_ialloc dev t : pres same_um (ialloc dev t).
Proof using. unfold ialloc. pres. Qed.
Lemma same_um_idup ip : pres same_um (idup ip).
Proof using. unfold idup. pres. Qed.
Lemma same_um_ilock ip : pres same_um (ilock mypid ip).
Proof using. unfold ilock. pres. Qed.
Lemma same_um_iunlock ip : pres same_um (iunlock mypid ip).
Proof using. unfold iunlock. pres. Qed.
Lemma same_um_bmap ip bn : pres same_um (bmap ip bn).
Proof using. unfold bmap. pres. Qed.
Lemma same_um_itrunc ip : pres same_um (itrunc ip).
Proof using. unfold itrunc. pres. Qed.
#[local] Hint Resolve same_um_idup same_um_ilock same_um_iunlock same_um_bmap same_um_itrunc : pres.
Lemma same_um_iput ip : pres same_um (iput mypid ip).
Proof using. unfold iput. pres. Qed.
#[local] Hint Resolve same_um_iput : pres.
Lemma same_um_iunlockput ip : pres same_um (iunlockput mypid ip).
Proof using. unfold iunlockput. pres. Qed.
Lemma same_um_copyout dst bytes : pres same_um (fs_copyout dst bytes).
Proof using. destruct dst; [apply same_um_usr, same_fds_copyout|apply (pres_ret _)]. Qed.
Lemma same_um_copyin src n : pres same_um (fs_copyin src n).
Proof using. destruct src; [apply same_um_usr, same_fds_copyin|apply (pres_ret _)]. Qed.
#[local] Hint Resolve same_um_iunlockput same_um_copyout same_um_copyin : pres.
Lemma same_um_readi ip dst off n : pres same_um (readi ip dst off n).
Proof using.
  assert (Hl : forall k dst off n tot acc, pres same_um (readi_loop k ip dst off n tot acc)) by (intros k; induction k as [|k IH]; intros; cbn [readi_loop]; pres).
  unfold readi. pres.
Qed.
Lemma same_um_writei ip src off n : pres same_um (writei ip src off n).
Proof using.
  assert (Hl : forall k src off n tot, pres same_um (writei_loop k ip src off n tot)) by (intros k; induction k as [|k IH]; intros; cbn [writei_loop]; pres).
  unfold writei. pres.
Qed.
#[local] Hint Resolve same_um_readi same_um_writei : pres.
Lemma same_um_dirlookup dp name : pres same_um (dirlookup dp name).
Proof using. unfold dirlookup. pres. Qed.
#[local] Hint Resolve same_um_dirlookup : pres.
Lemma same_um_dirlink dp name inum : pres same_um (dirlink mypid dp name inum).
Proof using. unfold dirlink. pres. Qed.
Lemma same_um_namex cwd path np : pres same_um (namex mypid cwd path np).
Proof using.
  assert (Hl : forall k ip path name, pres same_um (namex_loop mypid k ip path np name)) by (intros k; induction k as [|k IH]; intros; cbn [namex_loop]; pres).
  unfold namex. pres.
Qed.
Lemma same_um_namei cwd path : pres same_um (namei mypid cwd path).
Proof using. unfold namei. apply pres_bind; [apply same_um_namex|intros; apply (pres_ret _)]. Qed.
Lemma same_um_nameiparent cwd path : pres same_um (nameiparent mypid cwd path).
Proof using. apply same_um_namex. Qed.
End fs_frame.
#[export] Hint Resolve same_um_blk same_um_usr same_um_updi same_um_updd same_um_iupdate same_um_iget same_um_ialloc same_um_idup same_um_ilock same_um_iunlock same_um_itrunc
  same_um_iput same_um_iunlockput same_um_readi same_um_writei same_um_dirlookup same_um_dirlink same_um_namei same_um_nameiparent : pres.

(** ** Pipes *)

(** The same for the runs whose result satisfies [ok]: a run that parked the
    process does not return to it. *)
Definition pres_if {S A} (ok : A -> bool) (R : S -> S -> Prop) (m : M S A) : Prop := forall s a s', m s = Ok a s' -> ok a = true -> R s s'.
Lemma pres_weaken {S A} ok (R : S -> S -> Prop) (m : M S A) : pres R m -> pres_if ok R m.
Proof. intros Hm s a s' E _. by eapply Hm. Qed.
Lemma pres_if_bind {S A B} ok (R : S -> S -> Prop) `{!PreOrder R} (m : M S A) (k : A -> M S B) : pres R m -> (forall a, pres_if ok R (k a)) -> pres_if ok R (bind m k).
Proof. intros Hm Hk s b s' E Hok. bind_inv E. etransitivity; [by eapply Hm|by eapply Hk]. Qed.
Lemma pres_if_never {S A} (ok : A -> bool) (R : S -> S -> Prop) a : ok a = false -> pres_if ok R (ret a).
Proof. intros Ha s b s' [= <- _]. congruence. Qed.
Lemma pres_after {S A B} ok (R : S -> S -> Prop) `{!PreOrder R} (m : M S A) (k : A -> M S B) : pres_if ok R m -> (forall a, pres R (k a)) ->
  (forall a s b s', ok a = false -> k a s <> Ok b s') -> pres R (bind m k).
Proof. intros Hm Hk Hn s b s' (a & s1 & E1 & E2)%bind_inv. destruct (ok a) eqn:Hok; [etransitivity; [by eapply Hm|by eapply Hk]|]. by eapply Hn in E2. Qed.
Arguments pres_if_bind {S A B ok R _}.

Section pipe_frame.
Context {img : KernelImage} (kbuf : Z).
#[local] Instance pipe_frame_env : ProcEnv pst := proc_env kbuf.

Definition same_env (s s' : pipest pst) : Prop := same_fds (pip_env s) (pip_env s').
#[export] Instance same_env_pre : PreOrder same_env.
Proof. split; [intros s; apply same_fds_refl|]. intros s1 s2 s3 E1 E2. unfold same_env in *. by etransitivity. Qed.
Lemma same_env_eq s s' : pip_env s' = pip_env s -> same_env s s'.
Proof using. unfold same_env. by intros ->. Qed.
Lemma same_env_in {A} (m : M pst A) : pres same_fds m -> pres same_env (in_env m).
Proof using. intros Hm. by apply (pres_zoom same_env _ _ m same_fds Hm). Qed.
#[local] Hint Extern 2 (pres same_env (acquire _ _)) => apply pres_acquire; intros; apply same_env_eq; exact eq_refl : pres.
#[local] Hint Extern 2 (pres same_env (release _ _)) => apply pres_release; intros; apply same_env_eq; exact eq_refl : pres.
#[local] Hint Extern 2 (pres same_env (updp _ _)) => apply pres_modify; intros; apply same_env_eq; exact eq_refl : pres.
Lemma same_env_wakeup c : pres same_env (in_env (wakeup c)).
Proof using. apply same_env_in, same_fds_wakeup. Qed.
Lemma same_env_killed : pres same_env (in_env killed).
Proof using. apply same_env_in. apply pres_bind; [apply (pres_gets _)|intros; apply same_fds_killed]. Qed.
Lemma same_env_copyout va bytes : pres same_env (in_env (u_copyout va bytes)).
Proof using. apply same_env_in, same_fds_copyout. Qed.
Lemma same_env_copyin va n : pres same_env (in_env (u_copyin va n)).
Proof using. apply same_env_in, same_fds_copyin. Qed.
Lemma same_env_kfree pi : pres same_env (in_env (kfree_page pi)).
Proof using. apply same_env_in, same_fds_mem. Qed.
#[local] Hint Resolve same_env_wakeup same_env_killed same_env_copyout same_env_copyin same_env_kfree : pres.

Lemma same_env_close pi w : pres same_env (pipeclose pi w).
Proof using. unfold pipeclose. pres. Qed.

Definition is_done (g : segment) : bool := match g with Done _ => true | Waits _ => false end.
Lemma same_env_sleep pi c i : pres_if is_done same_env (pipe_sleep pi c i).
Proof using. intros s a s' (a1 & s1 & _ & (a2 & s2 & _ & [= <- _])%bind_inv)%bind_inv. done. Qed.
Ltac pres_seg := repeat first [ apply same_env_sleep | apply pres_if_bind; [pres|intros ?] | apply pres_weaken; solve [pres] | case_match ].
Lemma same_env_write_loop pi addr n : forall k i, pres_if is_done same_env (pipewrite_loop k pi addr n i).
Proof using. intros k. induction k as [|k IH]; intros i; cbn [pipewrite_loop]; [by intros s a s'|]. repeat first [apply IH|progress pres_seg]. Qed.
Lemma same_env_write pi addr n : pres same_env (pipewrite pi addr n).
Proof using.
  unfold pipewrite. apply (pres_after is_done same_env); [|intros [r|i]; pres|by intros [r|i]].
  unfold pipewrite_from. apply pres_if_bind; [pres|]. intros _. apply same_env_write_loop.
Qed.
Lemma same_env_read_loop pi addr n : forall k i, pres same_env (piperead_loop k pi addr n i).
Proof using. intros k. induction k as [|k IH]; intros i; cbn [piperead_loop]; pres. Qed.
#[local] Hint Resolve same_env_read_loop : pres.
Lemma same_env_read pi addr n : pres same_env (piperead pi addr n).
Proof using.
  unfold piperead. apply (pres_after is_done same_env); [|intros [r|i]; pres|by intros [r|i]]. unfold piperead_from. pres_seg.
Qed.
End pipe_frame.
#[export] Hint Resolve same_env_close same_env_write same_env_read : pres.

(** ** System calls *)

Section kernel_frame.
Context {S H : Type} {io : BlockIO S H} {img : KernelImage} {devs : DevSw pst} (kbuf mypid : Z).
#[local] Instance kernel_frame_env : ProcEnv pst := proc_env kbuf.
Notation K := (kst S pst).
Implicit Types (s : K) (f : nat).

(** The count of open file [f]. *)
Definition ref_of s f : Z := default 0 (f_ref <$> ft_file s !! f).
Record same_files s s' : Prop := {
  sl_lock : ft_lock s' = ft_lock s;
  sl_len : length (ft_file s') = length (ft_file s);
  sl_refs : forall f, ref_of s' f = ref_of s f;
  sl_fds : same_fds (pstate s) (pstate s')
}.
#[export] Instance same_files_pre : PreOrder same_files.
Proof. split; [done|]. intros s1 s2 s3 [A1 B1 C1 D1] [A2 B2 C2 D2]. split; [congruence|congruence|intros f; by rewrite C2|by etransitivity]. Qed.

Lemma same_files_fsm {A} (m : M (fsst S pst) A) : pres same_um m -> pres same_files (fsm m).
Proof using. intros Hm. by apply (pres_zoom same_files _ _ m same_um Hm). Qed.
Lemma same_files_inproc {A} (m : M pst A) : pres same_fds m -> pres same_files (inproc m).
Proof using. intros Hm. by apply same_files_fsm, same_um_usr. Qed.
Lemma same_files_kenv {A} (m : M pst A) : pres same_fds m -> pres same_files (kenv m).
Proof using. apply same_files_inproc. Qed.
Lemma same_files_memory {A} (m : M memst A) : pres same_files (memory m).
Proof using. apply same_files_inproc, same_fds_mem. Qed.
Lemma same_files_pipes {A} (m : M (pipest pst) A) : pres same_env m -> pres same_files (pipes m).
Proof using. intros Hm. by apply (pres_zoom same_files _ _ m same_env Hm). Qed.
Lemma same_files_updf f g : (forall x, f_ref (g x) = f_ref x) -> pres same_files (updf f g).
Proof using.
  intros Hg. apply pres_modify. intros s. split; [done|apply length_insert| |done]. intros f'. unfold ref_of, getf. cbn. rewrite list_lookup_insert.
  case_decide as E; [|done]. destruct E as [-> Hl]. destruct (lookup_lt_is_Some_2 _ _ Hl) as [x ->]. cbn. apply Hg.
Qed.
#[local] Hint Resolve same_files_fsm same_files_inproc same_files_kenv same_files_memory same_files_pipes : pres.
#[local] Hint Extern 2 (pres same_files (updf _ _)) => apply same_files_updf; by intros [] : pres.

(** The device routines that the tables hold do not touch descriptors. *)
Context (Hread : forall major op, dev_read major = Some op -> forall u a n, pres same_fds (op u a n)).
Context (Hwrite : forall major op, dev_write major = Some op -> forall u a n, pres same_fds (op u a n)).

Lemma same_files_fileread f addr n : pres same_files (fileread mypid f addr n).
Proof using Hread. unfold fileread, dev_call. pres. all: apply same_files_kenv; by eapply Hread. Qed.
Lemma same_files_filewrite f addr n : pres same_files (filewrite mypid f addr n).
Proof using Hwrite.
  assert (Hl : forall k i, pres same_files (filewrite_loop mypid k f addr n i)) by (intros k; induction k as [|k IH]; intros; cbn [filewrite_loop]; pres).
  unfold filewrite, dev_call. pres. all: apply same_files_kenv; by eapply Hwrite.
Qed.
Lemma same_files_filestat pad f addr : pres same_files (filestat mypid pad f addr).
Proof using. unfold filestat, stati. pres. all: apply same_files_kenv, same_fds_copyout. Qed.
#[local] Hint Resolve same_files_fileread same_files_filewrite same_files_filestat : pres.

(** [exec] *)
Lemma same_files_loadseg pt va ip off sz : pres same_files (loadseg kbuf pt va ip off sz).
Proof using.
  assert (Hl : forall k i, pres same_files (loadseg_loop kbuf k pt va ip off sz i)) by (intros k; induction k as [|k IH]; intros; cbn [loadseg_loop]; pres).
  unfold loadseg. pres.
Qed.
#[local] Hint Resolve same_files_loadseg : pres.
Lemma same_files_load pt ip phnum : forall k i off sz, pres same_files (load_program kbuf k pt ip phnum i off sz).
Proof using. intros k. induction k as [|k IH]; intros; cbn [load_program]; pres. Qed.
Lemma same_files_copyout_to pt va bytes : pres same_files (copyout_to kbuf pt va bytes).
Proof using. unfold copyout_to. pres. Qed.
#[local] Hint Resolve same_files_load same_files_copyout_to : pres.
Lemma same_files_push pt sb argv : forall sp us, pres same_files (push_args kbuf pt sb sp argv us).
Proof using. induction argv as [|a argv IH]; intros; cbn [push_args]; pres. Qed.
Lemma same_files_bad pt sz ip : pres same_files (exec_bad mypid pt sz ip).
Proof using. unfold exec_bad. pres. Qed.
#[local] Hint Resolve same_files_push same_files_bad : pres.
Lemma same_files_stack path argv e pt sz : pres same_files (exec_stack kbuf mypid path argv e pt sz).
Proof using. unfold exec_stack. pres. Qed.
#[local] Hint Resolve same_files_stack : pres.
Lemma same_files_kexec path argv : pres same_files (kexec kbuf mypid path argv).
Proof using. unfold kexec. pres. Qed.
#[local] Hint Resolve same_files_kexec : pres.

(** The calls of sysfile.c *)
Lemma same_files_argfd n : pres same_files (argfd n).
Proof using. unfold argfd. pres. Qed.
Lemma same_files_begin : pres same_files begin_op_.
Proof using. unfold begin_op_. pres. Qed.
Lemma same_files_end : pres same_files end_op_.
Proof using. unfold end_op_. pres. Qed.
Lemma same_files_nlink ip k : pres same_files (add_nlink ip k).
Proof using. unfold add_nlink. pres. Qed.
#[local] Hint Resolve same_files_argfd same_files_begin same_files_end same_files_nlink : pres.
Lemma same_files_read : pres same_files (sys_read kbuf mypid).
Proof using Hread. unfold sys_read. pres. Qed.
Lemma same_files_write : pres same_files (sys_write kbuf mypid).
Proof using Hwrite. unfold sys_write. pres. Qed.
Lemma same_files_fstat pad : pres same_files (sys_fstat kbuf mypid pad).
Proof using. unfold sys_fstat. pres. Qed.
Lemma same_files_link_bad ip : pres same_files (link_bad mypid ip).
Proof using. unfold link_bad. pres. Qed.
#[local] Hint Resolve same_files_link_bad : pres.
Lemma same_files_link : pres same_files (sys_link kbuf mypid).
Proof using. unfold sys_link. pres. Qed.
Lemma same_files_isdirempty dp : pres same_files (isdirempty kbuf dp).
Proof using. unfold isdirempty. pres. Qed.
Lemma same_files_unlink_bad dp : pres same_files (unlink_bad mypid dp).
Proof using. unfold unlink_bad. pres. Qed.
#[local] Hint Resolve same_files_isdirempty same_files_unlink_bad : pres.
Lemma same_files_unlink : pres same_files (sys_unlink kbuf mypid).
Proof using. unfold sys_unlink. pres. Qed.
Lemma same_files_create_fail ip dp : pres same_files (create_fail mypid ip dp).
Proof using. unfold create_fail. pres. Qed.
#[local] Hint Resolve same_files_create_fail : pres.
Lemma same_files_create path t ma mi : pres same_files (create kbuf mypid path t ma mi).
Proof using. unfold create. pres. Qed.
Lemma same_files_made r : pres same_files (made mypid r).
Proof using. unfold made. pres. Qed.
#[local] Hint Resolve same_files_create same_files_made : pres.
Lemma same_files_mkdir : pres same_files (sys_mkdir kbuf mypid).
Proof using. unfold sys_mkdir. pres. Qed.
Lemma same_files_mknod : pres same_files (sys_mknod kbuf mypid).
Proof using. unfold sys_mknod. pres. Qed.
Lemma same_files_chdir : pres same_files (sys_chdir kbuf mypid).
Proof using. unfold sys_chdir. pres. Qed.
Lemma same_files_fetch : forall k ua i av pgs, pres same_files (fetch_args kbuf k ua i av pgs).
Proof using. intros k. induction k as [|k IH]; intros; cbn [fetch_args]; pres. Qed.
#[local] Hint Resolve same_files_fetch : pres.
Lemma same_files_exec : pres same_files (sys_exec kbuf mypid).
Proof using. unfold sys_exec. pres. Qed.

(** The calls of sysproc.c *)
Lemma same_files_sbrk : pres same_files sys_sbrk.
Proof using. unfold sys_sbrk. pres. Qed.
Lemma same_files_kill : pres same_files sys_kill.
Proof using. unfold sys_kill. pres. Qed.
Lemma same_files_getpid : pres same_files sys_getpid.
Proof using. unfold sys_getpid. pres. Qed.
End kernel_frame.
#[export] Hint Resolve same_files_fsm same_files_inproc same_files_kenv same_files_memory same_files_pipes same_files_begin same_files_end same_files_argfd same_files_create : pres.
#[export] Hint Extern 2 (pres same_files (updf _ _)) => apply same_files_updf; by intros [] : pres.
