(* ===== verification/FdSpec.v ===== *)
(** * Descriptors and open files

    The reference count of an open file is the number of descriptors, of all
    processes, that name it (kernel/file.c, and the system calls of sysfile.c
    and proc.c that make and remove descriptors). It follows that a file is not
    taken away from a process that has it open, and that the checks of
    [filedup] and [fileclose] never fail. *)

From stdpp Require Import base gmap list numbers strings.
From Stdlib Require Import ZArith Lia.
From S2P Require Import Prelude Riscv Mem Spinlock Kalloc Vm Bytes Sleeplock Disk Bio BlockIO Fs ProcEnv Pipe File Proc ProcInv Syscall Exec Sysfile Kernel FdFrame.
Open Scope Z_scope.
Open Scope kernel_scope.

(** ** Counting descriptors *)

(** How many descriptors of the tables name file [f]. *)
Definition uses (tt : list (list (option nat))) (f : nat) : Z := Z.of_nat (length (filter (fun x => x = Some f) (concat tt))).
Definition one (x : option nat) (f : nat) : Z := if decide (x = Some f) then 1 else 0.

Lemma uses_app tt tt' f : uses (tt ++ tt') f = uses tt f + uses tt' f.
Proof. unfold uses. rewrite concat_app, filter_app, length_app. lia. Qed.
Lemma uses_cons t tt f : uses (t :: tt) f = uses [t] f + uses tt f.
Proof. apply (uses_app [t] tt). Qed.
Lemma uses_row t f : uses [t] f = Z.of_nat (length (filter (fun x => x = Some f) t)).
Proof. unfold uses. cbn [concat]. by rewrite app_nil_r. Qed.
Lemma uses_nonneg tt f : 0 <= uses tt f.
Proof. unfold uses. lia. Qed.
Lemma row_split t i x f : t !! i = Some x -> uses [t] f = uses [take i t ++ drop (Datatypes.S i) t] f + one x f.
Proof.
  intros E. rewrite <- (take_drop_middle t i x E) at 1. rewrite !uses_row, !filter_app, !length_app. unfold one.
  destruct (decide (x = Some f)); [rewrite filter_cons_True by done|rewrite filter_cons_False by done]; cbn [length]; lia.
Qed.
Lemma row_insert t i x y f : t !! i = Some x -> uses [<[i := y]> t] f = uses [t] f - one x f + one y f.
Proof.
  intros E. pose proof (lookup_lt_Some _ _ _ E) as Hl. rewrite (row_split t i x f E). rewrite (row_split (<[i := y]> t) i y f) by (by rewrite list_lookup_insert_eq).
  rewrite take_insert_ge, drop_insert_lt by lia. lia.
Qed.
Lemma uses_insert tt p t t' f : tt !! p = Some t -> uses (<[p := t']> tt) f = uses tt f - uses [t] f + uses [t'] f.
Proof.
  intros E. pose proof (lookup_lt_Some _ _ _ E) as Hl. rewrite <- (take_drop_middle tt p t E) at 2. rewrite insert_take_drop by done.
  rewrite !(uses_app (take p tt)), (uses_cons t'), (uses_cons t). lia.
Qed.
Lemma uses_in tt p t i f : tt !! p = Some t -> t !! i = Some (Some f) -> 0 < uses tt f.
Proof.
  intros Ep Ei. rewrite <- (take_drop_middle tt p t Ep), uses_app, uses_cons, (row_split t i (Some f) f Ei). unfold one. rewrite decide_True by done.
  pose proof (uses_nonneg (take p tt) f). pose proof (uses_nonneg (drop (Datatypes.S p) tt) f). pose proof (uses_nonneg [take i t ++ drop (Datatypes.S i) t] f). lia.
Qed.

(** ** The invariant *)

Section fds.
Context {S H : Type} {io : BlockIO S H} {img : KernelImage} (kbuf mypid forkret : Z).
#[local] Instance fd_env : ProcEnv pst := proc_env kbuf.
Notation K := (kst S pst).
Implicit Types (s : K) (f : nat) (d : nat -> Z).

Definition row_of s p : list (option nat) := p_ofile (getproc (pstate s) p).

(** [d f] is the number of references to [f] that kernel code holds itself. *)
Record fd_ok d s : Prop := {
  fo_lock : ft_lock s = false;
  fo_len : length (ft_file s) = NFILE;
  fo_procs : length (ps_proc (pstate s)) = nproc;
  fo_rows : Forall (fun t => length t = NOFILE) (tables (pstate s));
  fo_me : forall p, me (pstate s) = Some p -> (p < length (ps_proc (pstate s)))%nat /\ ended_at (pstate s) p = false;
  fo_refs : forall f, ref_of s f = uses (tables (pstate s)) f + d f;
  fo_ended : forall p, ended_at (pstate s) p = true -> forall f, uses [row_of s p] f = 0
}.
Definition none_held : nat -> Z := fun _ => 0.
Definition plus_one d (x : option nat) : nat -> Z := fun f => d f + one x f.
Definition minus_one d (x : option nat) : nat -> Z := fun f => d f - one x f.
(** Between two system calls. *)
Definition fd_inv s : Prop := fd_ok none_held s.

Lemma fd_ok_ext d d' s : (forall f, d f = d' f) -> fd_ok d s -> fd_ok d' s.
Proof using. intros E [H1 H2 HP H3 H4 H5 H6]. split; try done. intros f. by rewrite <- E. Qed.

Lemma row_lookup s p : (p < length (ps_proc (pstate s)))%nat -> tables (pstate s) !! p = Some (row_of s p).
Proof using. intros Hp. unfold row_of, getproc, tables. rewrite list_lookup_fmap. by destruct (lookup_lt_is_Some_2 _ _ Hp) as [x ->]. Qed.
Lemma row_length d s p : fd_ok d s -> (p < length (ps_proc (pstate s)))%nat -> length (row_of s p) = NOFILE.
Proof using. intros Ho Hp. pose proof (fo_rows _ _ Ho) as Hr. rewrite Forall_lookup in Hr. by apply (Hr p), row_lookup. Qed.

(** Changes to the file table alone, and those of [same_files]. *)
Lemma fd_ok_files d d' s s' : fd_ok d s -> ft_lock s' = false -> length (ft_file s') = NFILE -> pstate s' = pstate s ->
  (forall f, ref_of s' f - d' f = ref_of s f - d f) -> fd_ok d' s'.
Proof using. intros [H1 H2 HP H3 H4 H5 H6] Hl Hn Hp Hr. split; unfold row_of; rewrite ?Hp; try done. intros f. pose proof (Hr f). rewrite (H5 f) in *. lia. Qed.
Lemma same_row P P' p : tables P' = tables P -> p_ofile (getproc P' p) = p_ofile (getproc P p).
Proof using.
  intros E. assert (E' : tables P' !! p = tables P !! p) by (by rewrite E). unfold tables in E'. rewrite !list_lookup_fmap in E'. unfold getproc.
  destruct (ps_proc P' !! p), (ps_proc P !! p); cbn in *; congruence.
Qed.
Lemma same_length P P' : tables P' = tables P -> length (ps_proc P') = length (ps_proc P).
Proof using. intros E%(f_equal length). unfold tables in E. by rewrite !length_fmap in E. Qed.
Lemma fd_ok_same d s s' : fd_ok d s -> same_files s s' -> fd_ok d s'.
Proof using.
  intros [H1 H2 HP H3 H4 H5 H6] [Hl Hn Hr [G1 G2 G3]]. split; rewrite ?G1, ?G2, ?Hn; [congruence|done|by rewrite (same_length _ _ G1)|done| |intros f; by rewrite Hr|].
  - intros p Hp. destruct (H4 p Hp) as [Hlt He]. split; [by rewrite (same_length _ _ G1)|]. destruct (ended_at (pstate s') p) eqn:E; [|done]. by rewrite (G3 p E) in He.
  - intros p Hp f. unfold row_of. rewrite (same_row _ _ p G1). by apply (H6 p), G3.
Qed.

Lemma ref_of_updf s f g f' : ref_of (set_files s (<[f := g (getf s f)]> (ft_file s))) f' =
  if decide (f' = f /\ (f < length (ft_file s))%nat) then f_ref (g (getf s f)) else ref_of s f'.
Proof using.
  unfold ref_of. cbn [ft_file set_files]. rewrite list_lookup_insert. repeat case_decide; try done; destruct_and?; naive_solver.
Qed.
Lemma ref_of_pos s f : 1 <= ref_of s f -> (f < length (ft_file s))%nat /\ f_ref (getf s f) = ref_of s f.
Proof using. unfold ref_of, getf. destruct (ft_file s !! f) as [x|] eqn:E; cbn; [|lia]. intros _. split; [by eapply lookup_lt_Some|done]. Qed.

Lemma one_same f f' : one (Some f) f' = if decide (f' = f) then 1 else 0.
Proof using. unfold one. repeat case_decide; congruence. Qed.
Lemma one_nonneg x f : 0 <= one x f.
Proof using. unfold one. case_decide; lia. Qed.
Lemma held_ref d s f : fd_ok d s -> 1 <= d f -> 1 <= ref_of s f.
Proof using. intros Ho Hd. rewrite (fo_refs _ _ Ho). pose proof (uses_nonneg (tables (pstate s)) f). lia. Qed.
Lemma used_ref d s p i f : fd_ok d s -> (p < length (ps_proc (pstate s)))%nat -> row_of s p !! i = Some (Some f) -> 0 <= d f -> 1 <= ref_of s f.
Proof using. intros Ho Hp Hi Hd. rewrite (fo_refs _ _ Ho). pose proof (uses_in _ _ _ _ _ (row_lookup s p Hp) Hi). lia. Qed.

(** ** Taking and giving references *)

Lemma filedup_ok d s f : fd_ok d s -> 1 <= ref_of s f ->
  exists s', filedup f s = Ok f s' /\ fd_ok (plus_one d (Some f)) s' /\ pstate s' = pstate s.
Proof using.
  intros Ho Hr. destruct (ref_of_pos s f Hr) as [Hl Eg]. unfold filedup, acquire, get, put, bind. rewrite (fo_lock _ _ Ho). cbn [when].
  change (getf (set_ft_lock s true) f) with (getf s f). rewrite Eg, (proj2 (Z.ltb_ge _ _)) by lia. eexists. split; [reflexivity|]. split; [|done].
  apply (fd_ok_files d _ s); [done|done|by cbn; rewrite length_insert; apply Ho|done|]. intros f'. unfold plus_one. rewrite one_same.
  match goal with |- ref_of ?x f' - _ = _ => change (ref_of x f') with (ref_of (set_files s (<[f := set_f_ref (f_ref (getf s f) + 1) (getf s f)]> (ft_file s))) f') end.
  rewrite (ref_of_updf s f (fun x => set_f_ref (f_ref x + 1) x)). repeat case_decide; cbn; destruct_and?; subst; try lia; try (exfalso; tauto).
Qed.

(** What [fileclose] does once the count has been lowered. *)
Lemma fileclose_rest (ff : file) : pres same_files
  match f_type ff with
  | FD_PIPE => pipes (pipeclose (f_pipe ff) (f_writable ff))
  | FD_INODE | FD_DEVICE => fsm (blk io_begin_op) ;;; fsm (iput mypid (f_ip ff)) ;;; fsm (blk io_end_op)
  | FD_NONE => ret tt
  end.
Proof using.
  destruct (f_type ff); pres.
Qed.

Definition lower (x : file) : file := set_f_ref (f_ref x - 1) x.
Definition dropped (x : file) : file := set_f_type FD_NONE (set_f_ref 0 x).

Lemma fileclose_eq s f : ft_lock s = false -> (f < length (ft_file s))%nat -> 1 <= f_ref (getf s f) ->
  fileclose mypid f s =
    if 0 <? f_ref (getf s f) - 1 then Ok tt (set_files s (<[f := lower (getf s f)]> (ft_file s)))
    else match f_type (getf s f) with
         | FD_PIPE => pipes (pipeclose (f_pipe (getf s f)) (f_writable (getf s f)))
         | FD_INODE | FD_DEVICE => fsm (blk io_begin_op) ;;; fsm (iput mypid (f_ip (getf s f))) ;;; fsm (blk io_end_op)
         | FD_NONE => ret tt
         end (set_files s (<[f := dropped (lower (getf s f))]> (ft_file s))).
Proof using.
  intros Hk Hl Hr. unfold fileclose. set (sl := set_ft_lock s true).
  assert (Ea : acquire ft_lock set_ft_lock s = Ok tt sl) by (unfold acquire, get, put, bind; by rewrite Hk). step_with Ea.
  unfold get at 1, bind at 1. change (getf sl f) with (getf s f). rewrite (proj2 (Z.ltb_ge _ _)) by lia.
  set (s1 := set_files sl (<[f := lower (getf s f)]> (ft_file s))). assert (E1 : updf f (fun x => set_f_ref (f_ref x - 1) x) sl = Ok tt s1) by reflexivity. step_with E1.
  unfold get at 1, bind at 1. assert (Eg : getf s1 f = lower (getf s f)) by (unfold getf at 1; cbn; by rewrite list_lookup_insert_eq). rewrite !Eg. cbn [lower f_ref set_f_ref].
  destruct (0 <? f_ref (getf s f) - 1); [destruct s; cbn in *; by subst|].
  assert (E2 : updf f (fun x => set_f_type FD_NONE (set_f_ref 0 x)) s1 = Ok tt (set_files sl (<[f := dropped (lower (getf s f))]> (ft_file s)))).
  { unfold updf, modify. rewrite Eg. unfold s1, set_files. cbn. by rewrite list_insert_insert_eq. }
  step_with E2. assert (E3 : release ft_lock set_ft_lock (set_files sl (<[f := dropped (lower (getf s f))]> (ft_file s))) = Ok tt (set_files s (<[f := dropped (lower (getf s f))]> (ft_file s))))
    by (destruct s; cbn in *; by subst). step_with E3. reflexivity.
Qed.

Lemma fileclose_ok d s f : fd_ok d s -> 1 <= ref_of s f ->
  (forall a s', fileclose mypid f s = Ok a s' -> fd_ok (minus_one d (Some f)) s' /\ same_fds (pstate s) (pstate s')) /\
  (2 <= ref_of s f -> exists s', fileclose mypid f s = Ok tt s').
Proof using.
  intros Ho Hr. destruct (ref_of_pos s f Hr) as [Hl Eg]. rewrite (fileclose_eq s f (fo_lock _ _ Ho) Hl) by lia. rewrite Eg.
  assert (Hs : forall g, f_ref (g (getf s f)) = ref_of s f - 1 -> fd_ok (minus_one d (Some f)) (set_files s (<[f := g (getf s f)]> (ft_file s)))).
  { intros g E. apply (fd_ok_files d _ s); [done|apply Ho|by cbn; rewrite length_insert; apply Ho|done|]. intros f'. unfold minus_one. rewrite one_same, ref_of_updf, E.
    repeat case_decide; destruct_and?; subst; try lia; try (exfalso; tauto). }
  destruct (Z.ltb_spec 0 (ref_of s f - 1)).
  - split; [|by eauto]. intros a s' [= _ <-]. split; [apply (Hs lower); cbn; lia|done].
  - split; [|lia]. intros a s' E. apply fileclose_rest in E. split; [|exact (sl_fds _ _ E)]. eapply fd_ok_same; [|exact E]. apply (Hs (fun x => dropped (lower x))). cbn. lia.
Qed.

(** ** Setting descriptors *)

(** The state after descriptor [i] of process [p] has been set to [v]. *)
Record fd_set s p (i : nat) (v : option nat) d' s' : Prop := {
  fs_ok : fd_ok d' s';
  fs_tables : tables (pstate s') = <[p := <[i := v]> (row_of s p)]> (tables (pstate s));
  fs_me : me (pstate s') = me (pstate s);
  fs_ended : forall q, ended_at (pstate s') q = ended_at (pstate s) q
}.

Lemma set_fd_ended d s p i old v : fd_ok d s -> row_of s p !! i = Some old -> v = None -> ended_at (pstate s) p = true -> forall f, uses [<[i := v]> (row_of s p)] f = 0.
Proof using.
  intros Ho Hi -> He f. rewrite (row_insert _ _ _ _ _ Hi), (fo_ended _ _ Ho p He). pose proof (uses_nonneg [<[i := None]> (row_of s p)] f) as Hn.
  rewrite (row_insert _ _ _ _ _ Hi), (fo_ended _ _ Ho p He) in Hn. unfold one in *. repeat case_decide; try done; lia.
Qed.

Lemma set_fd_ok d s p i old v : fd_ok d s -> (p < length (ps_proc (pstate s)))%nat -> row_of s p !! i = Some old -> v = None \/ ended_at (pstate s) p = false ->
  exists s', inproc (updproc p (fun x => set_p_ofile (setz (p_ofile x) (Z.of_nat i) v) x)) s = Ok tt s' /\
    fd_set s p i v (minus_one (plus_one d old) v) s'.
Proof using.
  intros Ho Hp Hi Hv. pose proof (row_lookup s p Hp) as Ht. eexists. split; [reflexivity|].
  match goal with |- fd_set _ _ _ _ _ ?x => set (s' := x) end.
  assert (Ep : pstate s' = setproc (pstate s) p (set_p_ofile (<[i := v]> (row_of s p)) (getproc (pstate s) p))) by (unfold s', pstate, setz; cbn; by rewrite Nat2Z.id).
  assert (Eo : p_ofile (set_p_ofile (<[i := v]> (row_of s p)) (getproc (pstate s) p)) = <[i := v]> (row_of s p)) by (by destruct (getproc (pstate s) p)).
  assert (Etab : tables (pstate s') = <[p := <[i := v]> (row_of s p)]> (tables (pstate s))) by (by rewrite Ep, tables_setproc, Eo).
  assert (Hst : forall q, ended_at (pstate s') q = ended_at (pstate s) q) by (intros q; unfold ended_at; rewrite Ep, getproc_upd; case_decide as E; [destruct E as [-> _]; by destruct (getproc (pstate s) p)|done]).
  assert (Hme : me (pstate s') = me (pstate s)) by (by rewrite Ep). split; [|done|done|done].
  assert (Hlen : length (ps_proc (pstate s')) = length (ps_proc (pstate s))) by (rewrite Ep; unfold setproc; cbn; by rewrite length_insert).
  split; [apply Ho|apply Ho|rewrite Hlen; apply Ho| | | |].
  - rewrite Etab. apply Forall_insert; [apply Ho|]. rewrite length_insert. by apply (row_length d).
  - intros q Hq. rewrite Hst. rewrite Hme in Hq. rewrite Hlen. by apply (fo_me _ _ Ho).
  - intros f. change (ref_of s' f) with (ref_of s f). rewrite (fo_refs _ _ Ho), Etab, (uses_insert _ _ _ _ _ Ht), (row_insert _ _ _ _ _ Hi). unfold minus_one, plus_one. lia.
  - intros q Hq f. rewrite Hst in Hq. unfold row_of at 1. destruct (decide (q = p)) as [->|Hne].
    + destruct Hv as [->|Hv]; [|congruence]. rewrite Ep, getproc_upd, decide_True, Eo by done. by eapply set_fd_ended.
    + rewrite Ep, getproc_other by done. by apply (fo_ended _ _ Ho).
Qed.

Lemma set_ofile_eq fd v s p s' : me (pstate s) = Some p -> inproc (updproc p (fun x => set_p_ofile (setz (p_ofile x) fd v) x)) s = Ok tt s' -> set_ofile fd v s = Ok tt s'.
Proof using. intros Hm E. assert (Eg : inproc (gets mine) s = Ok p s) by (destruct s as [[] ? ? ?]; cbn in *; unfold inproc, kenv, fsm, usr, zoom, gets, mine; cbn; by rewrite Hm). unfold set_ofile. by step_with Eg. Qed.

Lemma my_row d s p : fd_ok d s -> me (pstate s) = Some p -> (p < length (ps_proc (pstate s)))%nat /\ ended_at (pstate s) p = false /\ length (row_of s p) = NOFILE.
Proof using. intros Ho Hm. destruct (fo_me _ _ Ho p Hm) as [Hp He]. split_and!; [done|done|by apply (row_length d)]. Qed.
Lemma ofile_mine s p fd : me (pstate s) = Some p -> ofile s fd = default None (row_of s p !! Z.to_nat fd).
Proof using. intros Hm. unfold ofile, row_of, mine. by rewrite Hm. Qed.

Lemma set_ofile_ok d s p i old v : fd_ok d s -> me (pstate s) = Some p -> row_of s p !! i = Some old ->
  exists s', set_ofile (Z.of_nat i) v s = Ok tt s' /\ fd_set s p i v (minus_one (plus_one d old) v) s'.
Proof using.
  intros Ho Hm Hi. destruct (my_row d s p Ho Hm) as (Hp & He & _). destruct (set_fd_ok d s p i old v Ho Hp Hi (or_intror He)) as (s' & E & Hs).
  exists s'. split; [by apply (set_ofile_eq _ _ s p)|done].
Qed.

Lemma find_lowest (P : Z -> bool) (n : nat) a : match List.find P (seqZ a (Z.of_nat n)) with
  | Some i => a <= i < a + Z.of_nat n /\ P i = true /\ forall j, a <= j < i -> P j = false
  | None => forall j, a <= j < a + Z.of_nat n -> P j = false
  end.
Proof using.
  revert a. induction n as [|n IH]; intros a; [rewrite seqZ_nil by lia; cbn [List.find]; intros j Hj; lia|]. rewrite seqZ_cons by lia. cbn [List.find]. destruct (P a) eqn:E; [split_and!; [lia|lia|done|lia]|].
  replace (Z.pred (Z.of_nat (Datatypes.S n))) with (Z.of_nat n) by lia. specialize (IH (Z.succ a)). destruct (List.find P (seqZ (Z.succ a) (Z.of_nat n))) as [i|].
  - destruct IH as (Hr & Hi & Hj). split_and!; [lia|lia|done|]. intros j Hj'. destruct (decide (j = a)) as [->|]; [done|]. apply Hj. lia.
  - intros j Hj. destruct (decide (j = a)) as [->|]; [done|]. apply IH. lia.
Qed.

(** [fdalloc] takes the lowest free descriptor. *)
Lemma fdalloc_ok d s p f : fd_ok d s -> me (pstate s) = Some p ->
  (exists i s', row_of s p !! i = Some None /\ (forall j, (j < i)%nat -> exists g, row_of s p !! j = Some (Some g)) /\
     fdalloc f s = Ok (Z.of_nat i) s' /\ fd_set s p i (Some f) (minus_one d (Some f)) s') \/
  ((forall i x, row_of s p !! i = Some x -> x <> None) /\ fdalloc f s = Ok (-1) s).
Proof using.
  intros Ho Hm. destruct (my_row d s p Ho Hm) as (Hp & He & Hlen).
  assert (Ef : fdalloc f s = match List.find (fun fd => match ofile s fd with None => true | Some _ => false end) (seqZ 0 (Z.of_nat NOFILE)) with
    | Some fd => (set_ofile fd (Some f) ;;; ret fd) s | None => Ok (-1) s end) by (unfold fdalloc, get, bind at 1; by destruct (List.find _ _)). rewrite !Ef. clear Ef.
  pose proof (find_lowest (fun fd => match ofile s fd with None => true | Some _ => false end) NOFILE 0) as Hfind.
  destruct (List.find _ _) as [fd|]; [left|right].
  - destruct Hfind as (Hr & Hfd & Hj). rewrite (ofile_mine s p) in Hfd by done. exists (Z.to_nat fd).
    destruct (lookup_lt_is_Some_2 (row_of s p) (Z.to_nat fd)) as [x Hx]; [lia|]. rewrite Hx in Hfd. cbn in Hfd. destruct x as [g|]; [done|].
    destruct (set_ofile_ok d s p (Z.to_nat fd) None (Some f) Ho Hm Hx) as (s' & E & [K1 K2 K3 K4]). exists s'. split_and!; [done| | |].
    + intros j Hlt. destruct (lookup_lt_is_Some_2 (row_of s p) j) as [y Hy]; [lia|]. specialize (Hj (Z.of_nat j)). rewrite (ofile_mine s p), Nat2Z.id, Hy in Hj by done. cbn in Hj. destruct y as [g|]; [by exists g|]. exfalso. by discriminate Hj; lia.
    + rewrite Z2Nat.id in E |- * by lia. by step_with E.
    + split; try done. eapply fd_ok_ext; [|exact K1]. intros g. unfold minus_one, plus_one, one. rewrite (decide_False (P := None = Some g)) by done. lia.
  - split; [|reflexivity]. intros i x Hx ->. pose proof (lookup_lt_Some _ _ _ Hx). specialize (Hfind (Z.of_nat i)). rewrite (ofile_mine s p), Nat2Z.id, Hx in Hfind by done. cbn in Hfind. discriminate Hfind. lia.
Qed.

Lemma filealloc_ok d s r s' : fd_ok d s -> (forall f, 0 <= d f) -> filealloc s = Ok r s' ->
  fd_ok (plus_one d r) s' /\ pstate s' = pstate s /\ forall f, r = Some f -> ref_of s f = 0.
Proof using.
  intros Ho Hd. assert (E : filealloc s = match List.find (fun f => f_ref (getf s f) =? 0) (seq 0 NFILE) with
    | Some f => Ok (Some f) (set_files s (<[f := set_f_ref 1 (getf s f)]> (ft_file s))) | None => Ok None s end).
  { unfold filealloc, acquire, get, put, bind. rewrite (fo_lock _ _ Ho). cbn [when]. change (fun f => f_ref (getf (set_ft_lock s true) f) =? 0) with (fun f => f_ref (getf s f) =? 0).
    pose proof (fo_lock _ _ Ho). destruct (List.find _ _); destruct s; cbn in *; by subst. }
  rewrite E. destruct (List.find _ _) as [f|] eqn:Ef; intros [= <- <-].
  - apply List.find_some in Ef as [Hf%in_seq Hr%Z.eqb_eq].
    assert (Er : ref_of s f = 0) by (unfold ref_of, getf in *; destruct (ft_file s !! f); by cbn in *). split; [|split; [done|by intros ? [= <-]]].
    apply (fd_ok_files d _ s); [done|apply Ho|by cbn; rewrite length_insert; apply Ho|done|]. intros f'. unfold plus_one. rewrite one_same, (ref_of_updf s f (set_f_ref 1)), (fo_len _ _ Ho).
    repeat case_decide; destruct_and?; subst; cbn; try lia; exfalso; naive_solver lia.
  - split_and!; [|done|done]. eapply fd_ok_ext; [|exact Ho]. intros f. unfold plus_one, one. rewrite decide_False by done. lia.
Qed.

(** ** The calls that make and remove descriptors *)

Ltac held := let g := fresh "g" in intros g; unfold none_held, minus_one, plus_one; pose proof (fun x => one_nonneg x g) as Hone; repeat match goal with |- context [one ?x g] => pose proof (Hone x); generalize dependent (one x g); intros end; lia.
Ltac held_eq := eapply fd_ok_ext; [|eassumption]; let g := fresh "g" in intros g; unfold none_held, minus_one, plus_one, one; rewrite ?(decide_False (P := None = Some g)) by done; lia.

(** The first argument as a descriptor, and its file. *)
Definition arg0 s : Z := i32 (ld64 (mram (ps_mem (pstate s))) (p_trapframe (getproc (pstate s) (mine (pstate s))) + TF_A0)).
Definition fd_file s fd : option nat := if (fd <? 0) || (Z.of_nat NOFILE <=? fd) then None else ofile s fd.

Lemma argfd_eq s : argfd 0 s = Ok ((fun f => (arg0 s, f)) <$> fd_file s (arg0 s)) s.
Proof using.
  assert (Ea : inproc (argint 0) s = Ok (arg0 s) s) by (destruct s as [[] ? ? ?]; reflexivity). unfold argfd. step_with Ea. unfold get, bind, fd_file. destruct (_ || _); [done|]. by destruct (ofile s (arg0 s)).
Qed.
Lemma fd_file_row d s p fd f : fd_ok d s -> me (pstate s) = Some p -> fd_file s fd = Some f -> exists i, fd = Z.of_nat i /\ row_of s p !! i = Some (Some f).
Proof using.
  intros Ho Hm. unfold fd_file. destruct (Z.ltb_spec fd 0), (Z.leb_spec (Z.of_nat NOFILE) fd); try done. cbn [orb]. rewrite (ofile_mine s p) by done. intros E. exists (Z.to_nat fd). split; [lia|].
  destruct (row_of s p !! Z.to_nat fd) as [x|]; cbn in E; by subst.
Qed.

(** The state [s'] after [s], with the references [d] held and tables [T]. *)
Definition went d (T : list (list (option nat))) s s' : Prop := fd_ok d s' /\ me (pstate s') = me (pstate s) /\ tables (pstate s') = T.
Lemma went_refl d s : fd_ok d s -> went d (tables (pstate s)) s s.
Proof using. by intros Ho. Qed.
Lemma went_trans d d' T T' s s1 s2 : went d T s s1 -> went d' T' s1 s2 -> went d' T' s s2.
Proof using. intros (_ & E1 & _) (K2 & E2 & T2). split_and!; [done|congruence|done]. Qed.
Lemma went_ext d d' T s s' : went d T s s' -> (forall f, d f = d' f) -> went d' T s s'.
Proof using. intros (K1 & K2 & K3) E. split_and!; [by eapply fd_ok_ext|done|done]. Qed.
Lemma went_same d s s' : fd_ok d s -> same_files s s' -> went d (tables (pstate s)) s s'.
Proof using. intros Ho HS. split_and!; [by eapply fd_ok_same|apply (sf_me _ _ (sl_fds _ _ HS))|apply (sf_tables _ _ (sl_fds _ _ HS))]. Qed.
Lemma went_pres {A} d s a s' (m : M K A) : fd_ok d s -> pres same_files m -> m s = Ok a s' -> went d (tables (pstate s)) s s'.
Proof using. intros Ho Hm E. by eapply went_same, Hm. Qed.
Lemma went_close d s f a s' : fd_ok d s -> 1 <= d f -> fileclose mypid f s = Ok a s' -> went (minus_one d (Some f)) (tables (pstate s)) s s'.
Proof using. intros Ho Hd E. destruct (proj1 (fileclose_ok d s f Ho (held_ref d s f Ho Hd)) a s' E) as [K1 [K2 K3 _]]. done. Qed.
Lemma went_alloc d s r s' : fd_ok d s -> (forall f, 0 <= d f) -> filealloc s = Ok r s' ->
  went (plus_one d r) (tables (pstate s)) s s' /\ forall f, r = Some f -> uses (tables (pstate s)) f = 0 /\ d f = 0.
Proof using.
  intros Ho Hd E. destruct (filealloc_ok d s r s' Ho Hd E) as (K1 & K2 & K3). split; [split_and!; [done|by rewrite K2|by rewrite K2]|].
  intros f Hf. specialize (K3 f Hf). rewrite (fo_refs _ _ Ho) in K3. pose proof (Hd f). pose proof (uses_nonneg (tables (pstate s)) f). lia.
Qed.

(** The lowest free descriptor of a table. *)
Definition lowest (row : list (option nat)) (i : nat) : Prop := row !! i = Some None /\ forall j, (j < i)%nat -> exists g, row !! j = Some (Some g).
Definition full (row : list (option nat)) : Prop := forall i x, row !! i = Some x -> x <> None.

Lemma went_fdalloc d s p f r s' : fd_ok d s -> me (pstate s) = Some p -> fdalloc f s = Ok r s' ->
  r = -1 /\ s' = s /\ full (row_of s p) \/
  exists i, r = Z.of_nat i /\ lowest (row_of s p) i /\ went (minus_one d (Some f)) (<[p := <[i := Some f]> (row_of s p)]> (tables (pstate s))) s s'.
Proof using.
  intros Ho Hm E. destruct (fdalloc_ok d s p f Ho Hm) as [(i & s1 & Hi & Hj & E1 & [K1 K2 K3 K4])|[Hf E1]]; rewrite E1 in E; injection E as <- <-; [right|by left]. by exists i.
Qed.
Lemma row_set s s' p t : (p < length (ps_proc (pstate s)))%nat -> tables (pstate s') = <[p := t]> (tables (pstate s)) -> row_of s' p = t.
Proof using. intros Hp E. apply tables_lookup. rewrite E. apply list_lookup_insert_eq. unfold tables. by rewrite length_fmap. Qed.
Lemma row_same s s' p : same_files s s' -> row_of s' p = row_of s p.
Proof using. intros E. apply same_row, (sf_tables _ _ (sl_fds _ _ E)). Qed.
Lemma went_unset d s p i f a s' : fd_ok d s -> me (pstate s) = Some p -> row_of s p !! i = Some (Some f) -> set_ofile (Z.of_nat i) None s = Ok a s' ->
  went (plus_one d (Some f)) (<[p := <[i := None]> (row_of s p)]> (tables (pstate s))) s s'.
Proof using.
  intros Ho Hm Hi E. destruct (set_ofile_ok d s p i _ None Ho Hm Hi) as (s1 & E1 & [K1 K2 K3 K4]). rewrite E1 in E. injection E as _ <-. split_and!; [held_eq|done|done].
Qed.

(** *** [dup]: the lowest free descriptor, and one more reference *)
Lemma sys_dup_run s p : fd_inv s -> me (pstate s) = Some p ->
  match fd_file s (arg0 s) with
  | None => sys_dup s = Ok (-1) s
  | Some f =>
      (exists i s', lowest (row_of s p) i /\ sys_dup s = Ok (Z.of_nat i) s' /\ went none_held (<[p := <[i := Some f]> (row_of s p)]> (tables (pstate s))) s s') \/
      (full (row_of s p) /\ sys_dup s = Ok (-1) s)
  end.
Proof using.
  intros Ho Hm. unfold sys_dup. destruct (fd_file s (arg0 s)) as [f|] eqn:Ef; (assert (Ea := argfd_eq s); rewrite Ef in Ea; cbn [fmap option_fmap option_map] in Ea).
  - destruct (fd_file_row _ s p _ f Ho Hm Ef) as (k & _ & Hk). destruct (my_row _ s p Ho Hm) as (Hp & _ & _).
    assert (Hr : 1 <= ref_of s f) by (apply (used_ref none_held s p k f); done).
    destruct (fdalloc_ok _ s p f Ho Hm) as [(i & s1 & Hi & Hj & E1 & [K1 K2 K3 K4])|[Hn E1]]; [left|right].
    + assert (Hr1 : 1 <= ref_of s1 f).
      { rewrite (fo_refs _ _ K1), K2, (uses_insert _ _ _ _ _ (row_lookup s p Hp)), (row_insert _ _ _ _ _ Hi). rewrite (fo_refs _ _ Ho) in Hr. unfold none_held, minus_one, one in *.
        rewrite (decide_False (P := None = Some f)) by done. rewrite !decide_True by done. lia. }
      destruct (filedup_ok _ s1 f K1 Hr1) as (s2 & E2 & K5 & K6). exists i, s2. split_and!; [by split| |split_and!; [held_eq|by rewrite K6, K3|by rewrite K6]].
      step_with Ea. step_with E1. rewrite (proj2 (Z.ltb_ge _ _)) by lia. by step_with E2.
    + split; [done|]. step_with Ea. by step_with E1.
  - by step_with Ea.
Qed.

(** *** [close]: the descriptor is free, and there is one reference less *)
Lemma sys_close_run s p a s' : fd_inv s -> me (pstate s) = Some p -> sys_close kbuf mypid s = Ok a s' ->
  match fd_file s (arg0 s) with
  | None => a = -1 /\ s' = s
  | Some f => a = 0 /\ went none_held (<[p := <[Z.to_nat (arg0 s) := None]> (row_of s p)]> (tables (pstate s))) s s'
  end.
Proof using.
  intros Ho Hm. unfold sys_close. destruct (fd_file s (arg0 s)) as [f|] eqn:Ef; (assert (Ea := argfd_eq s); rewrite Ef in Ea; cbn [fmap option_fmap option_map] in Ea; step_with Ea); [|by intros [= <- <-]].
  destruct (fd_file_row _ s p _ f Ho Hm Ef) as (k & Ek & Hk). rewrite Ek, Nat2Z.id. intros (u1 & s1 & E1 & (u & s2 & E2 & [= <- <-])%bind_inv)%bind_inv. split; [done|].
  pose proof (went_unset _ s p k f _ _ Ho Hm Hk E1) as F1. eapply went_trans; [exact F1|]. destruct F1 as (K1 & _ & <-). eapply went_ext; [eapply went_close; [exact K1| |exact E2]|].
  - unfold plus_one, none_held. rewrite one_same, decide_True by done. lia.
  - intros g. unfold minus_one, plus_one, none_held. lia.
Qed.

(** *** [open]: a descriptor for a file that was not in use *)
Definition opened s p (a : Z) s' : Prop :=
  a = -1 /\ went none_held (tables (pstate s)) s s' \/
  exists i f, a = Z.of_nat i /\ lowest (row_of s p) i /\ uses (tables (pstate s)) f = 0 /\ went none_held (<[p := <[i := Some f]> (row_of s p)]> (tables (pstate s))) s s'.

Lemma opened_after s p a s1 s' : same_files s s1 -> opened s1 p a s' -> opened s p a s'.
Proof using.
  intros HS. unfold opened, went. pose proof (sl_fds _ _ HS) as [T1 M1 _]. rewrite T1, (row_same _ _ p HS).
  intros [(-> & K1 & K2 & K3)|(i & f & -> & Hi & Hf & K1 & K2 & K3)]; [left|right; exists i, f]; (split_and!; [done..|congruence|done]).
Qed.

Lemma open_inode_run ip omode s p a s' : fd_inv s -> me (pstate s) = Some p -> open_inode kbuf mypid ip omode s = Ok a s' -> opened s p a s'.
Proof using.
  intros Ho Hm. unfold open_inode. intros (s0 & ? & [= <- <-] & E)%bind_inv. cbn zeta in E.
  assert (Hfail : forall s1 s2, went none_held (tables (pstate s)) s s1 -> (fsm (iunlockput mypid ip) ;;; end_op_ ;;; ret (-1)) s1 = Ok a s2 -> opened s p a s2).
  { intros s1 s2 F1 E1. left. split; [by apply bind_inv in E1 as (? & ? & _ & (? & ? & _ & [= <- _])%bind_inv)|]. eapply went_trans; [exact F1|]. destruct F1 as (K1 & _ & <-). eapply went_pres; [done| |exact E1]. pres. }
  destruct (_ && _); [by apply (Hfail s); [apply went_refl|]|]. apply bind_inv in E as (r & s1 & E1 & E). destruct (went_alloc _ _ _ _ Ho (fun _ => Z.le_refl 0) E1) as [F1 Hf].
  destruct r as [f|]; [|apply (Hfail s1); [|done]; eapply went_ext; [exact F1|]; intros g; unfold plus_one, one; rewrite decide_False by done; lia].
  destruct (Hf f eq_refl) as [Hfree _]. pose proof F1 as (K1 & M1 & T1). rewrite Hm in M1. assert (R1 : row_of s1 p = row_of s p) by (by apply same_row).
  apply bind_inv in E as (fd & s2 & E2 & E). destruct (went_fdalloc _ _ p _ _ _ K1 M1 E2) as [(-> & -> & _)|(i & -> & Hi & F2)].
  - apply bind_inv in E as (u & s3 & E3 & E). apply (Hfail s3); [|done]. eapply went_trans; [exact F1|]. rewrite <- T1. eapply went_ext; [eapply went_close; [exact K1| |exact E3]|].
    + unfold plus_one, none_held. rewrite one_same, decide_True by done. lia.
    + intros g. unfold minus_one, plus_one, none_held. lia.
  - rewrite (proj2 (Z.ltb_ge _ _)) in E by lia. rewrite R1, T1 in *. right. exists i, f. split_and!; [|done|done|].
    + by repeat (apply bind_inv in E as (? & ? & _ & E)); injection E.
    + eapply went_trans; [exact F1|]. eapply went_trans; [exact F2|]. destruct F2 as (K2 & _ & <-). eapply went_pres; [held_eq| |exact E]. pres.
Qed.

Definition opens (m : M K Z) : Prop := forall s p a s', fd_inv s -> me (pstate s) = Some p -> m s = Ok a s' -> opened s p a s'.
Lemma opens_bind {A} (m : M K A) k : pres same_files m -> (forall a, opens (k a)) -> opens (bind m k).
Proof using.
  intros Hm Hk s p a s' Ho Hp (x & s1 & E1%Hm & E2)%bind_inv. apply (opened_after s p a s1); [done|]. apply (Hk x); [by eapply fd_ok_same|by rewrite (sf_me _ _ (sl_fds _ _ E1))|done].
Qed.
Lemma opens_fail : opens (ret (-1)).
Proof using. intros s p a s' Ho Hp [= <- <-]. left. split; [done|by apply went_refl]. Qed.
Lemma opens_inode ip omode : opens (open_inode kbuf mypid ip omode).
Proof using. intros s p a s'. apply open_inode_run. Qed.
Lemma sys_open_run : opens (sys_open kbuf mypid).
Proof using.
  unfold sys_open. repeat first [apply opens_inode | apply opens_fail | apply opens_bind; [solve [pres]|intros ?] | case_match].
Qed.

(** *** [pipe]: two descriptors for two files that were not in use *)
Definition both (r w : nat) : nat -> Z := plus_one (plus_one none_held (Some r)) (Some w).
Lemma went_close_both {A} s r w (a b : A) s' : fd_ok (both r w) s -> (fileclose mypid r ;;; fileclose mypid w ;;; ret a) s = Ok b s' -> b = a /\ went none_held (tables (pstate s)) s s'.
Proof using.
  intros Ho (u1 & s1 & E1 & (u2 & s2 & E2 & [= <- <-])%bind_inv)%bind_inv. split; [done|].
  assert (F1 : went (minus_one (both r w) (Some r)) (tables (pstate s)) s s1) by (eapply went_close; [done| |exact E1]; unfold both, plus_one, none_held; rewrite (one_same r), decide_True by done; pose proof (one_nonneg (Some w) r); lia).
  eapply went_trans; [exact F1|]. destruct F1 as (K1 & _ & <-). eapply went_ext; [eapply went_close; [exact K1| |exact E2]|].
  - unfold minus_one, both, plus_one, none_held. rewrite (one_same w), decide_True by done. pose proof (one_nonneg (Some r) w). lia.
  - intros f. unfold minus_one, both, plus_one, none_held. lia.
Qed.

Lemma pipealloc_run junk s r s' : fd_inv s -> pipealloc mypid junk s = Ok r s' ->
  match r with
  | Some (rf, wf) => rf <> wf /\ uses (tables (pstate s)) rf = 0 /\ uses (tables (pstate s)) wf = 0 /\ went (both rf wf) (tables (pstate s)) s s'
  | None => went none_held (tables (pstate s)) s s'
  end.
Proof using.
  intros Ho. unfold pipealloc. intros (r0 & s1 & E1 & E)%bind_inv. destruct (went_alloc _ _ _ _ Ho (fun _ => Z.le_refl 0) E1) as [F1 U1]. pose proof F1 as (K1 & _ & T1).
  destruct r0 as [rf|]; [|apply bind_inv in E as (r1 & s2 & [= <- <-] & (pi & s3 & [= <- <-] & [= <- <-])%bind_inv); eapply went_ext; [exact F1|]; intros g; unfold plus_one, one; rewrite decide_False by done; lia].
  destruct (U1 rf eq_refl) as [Ur _]. apply bind_inv in E as (r1 & s2 & E2 & E). destruct (went_alloc (plus_one none_held (Some rf)) s1 r1 s2 K1) as [F2 U2]; [held|done|]. rewrite T1 in F2, U2. pose proof F2 as (K2 & _ & T2).
  apply bind_inv in E as (pi & s3 & E3 & E). assert (F3 : went (plus_one (plus_one none_held (Some rf)) r1) (tables (pstate s2)) s2 s3).
  { destruct r1; [|injection E3 as _ <-; by apply went_refl]. eapply went_pres; [done| |exact E3]. apply same_files_kenv, same_fds_mem. }
  rewrite T2 in F3. pose proof F3 as (K3 & _ & T3). pose proof (went_trans _ _ _ _ _ _ _ F1 (went_trans _ _ _ _ _ _ _ F2 F3)) as F. destruct r1 as [wf|].
  - destruct (pi =? 0); [apply (went_close_both s3 rf wf None r) in E as [-> E]; [|done]; eapply went_trans; [exact F|]; by rewrite <- T3|].
    assert (r = Some (rf, wf)) as -> by (by apply bind_inv in E as (? & ? & _ & (? & ? & _ & (? & ? & _ & [= <- _])%bind_inv)%bind_inv)). destruct (U2 wf eq_refl) as [Uw Dw].
    split_and!; [|done|done|].
    + intros ->. unfold plus_one, none_held in Dw. rewrite one_same, decide_True in Dw by done. lia.
    + eapply went_trans; [exact F|]. rewrite <- T3. eapply went_pres; [exact K3| |exact E]. apply pres_bind; [apply pres_modify; intros x; by split|intros _]. pres.
  - apply bind_inv in E as (u & s4 & E4 & [= <- <-]). eapply went_trans; [exact F|]. rewrite <- T3. eapply went_ext; [eapply went_close; [exact K3| |exact E4]|].
    + unfold plus_one, none_held. rewrite (one_same rf), decide_True by done. unfold one. rewrite decide_False by done. lia.
    + intros f. unfold minus_one, plus_one, none_held, one. rewrite (decide_False (P := None = Some f)) by done. lia.
Qed.

(** The numbers of the two descriptors are copied to the process, one after the
    other: the last thing the call does. *)
Definition wrote_fds (arr : Z) p (i j : nat) s' : Prop := exists P1 P2, me P1 = Some p /\
  proc_copyout kbuf arr (le_bytes 4 (Z.of_nat i)) P1 = Ok true P2 /\ proc_copyout kbuf (u64 (arr + 4)) (le_bytes 4 (Z.of_nat j)) P2 = Ok true (pstate s').
(** The first argument of a call, as an address. *)
Definition addr0 s : Z := ld64 (mram (ps_mem (pstate s))) (p_trapframe (getproc (pstate s) (mine (pstate s))) + TF_A0).
Lemma argaddr_eq s : inproc (argaddr 0) s = Ok (addr0 s) s.
Proof using. by destruct s as [[] ? ? ?]. Qed.
Lemma inproc_inv {A} (m : M pst A) s a s' : inproc m s = Ok a s' -> m (pstate s) = Ok a (pstate s') /\ ft_lock s' = ft_lock s /\ ft_file s' = ft_file s.
Proof using. unfold inproc, kenv, fsm, usr, zoom, pstate. destruct (m (fs_um (k_fs s))); try discriminate. by intros [= <- <-]. Qed.

Definition piped s p (a : Z) s' : Prop :=
  a = -1 /\ went none_held (tables (pstate s)) s s' \/
  a = 0 /\ exists i j rf wf, rf <> wf /\ uses (tables (pstate s)) rf = 0 /\ uses (tables (pstate s)) wf = 0 /\ lowest (row_of s p) i /\ lowest (<[i := Some rf]> (row_of s p)) j /\
    wrote_fds (addr0 s) p i j s' /\ went none_held (<[p := <[j := Some wf]> (<[i := Some rf]> (row_of s p))]> (tables (pstate s))) s s'.

(** The end of [sys_pipe] when a copy failed. *)
Lemma pipe_undo_both s p i j rf wf a s' : fd_inv s -> me (pstate s) = Some p -> i <> j -> row_of s p !! i = Some (Some rf) -> row_of s p !! j = Some (Some wf) ->
  (set_ofile (Z.of_nat i) None ;;; set_ofile (Z.of_nat j) None ;;; fileclose mypid rf ;;; fileclose mypid wf ;;; ret (-1)) s = Ok a s' ->
  a = -1 /\ went none_held (<[p := <[j := None]> (<[i := None]> (row_of s p))]> (tables (pstate s))) s s'.
Proof using.
  intros Ho Hm Hij Hi Hj (u1 & s1 & E1 & (u2 & s2 & E2 & E)%bind_inv)%bind_inv. destruct (my_row _ s p Ho Hm) as (Hp & _ & _).
  pose proof (went_unset _ s p i rf _ _ Ho Hm Hi E1) as F1. pose proof F1 as (K1 & M1 & T1). rewrite Hm in M1. pose proof (row_set s s1 p _ Hp T1) as R1.
  assert (Hj1 : row_of s1 p !! j = Some (Some wf)) by (by rewrite R1, list_lookup_insert_ne). pose proof (went_unset _ s1 p j wf _ _ K1 M1 Hj1 E2) as F2. rewrite R1, T1, list_insert_insert_eq in F2.
  pose proof F2 as (K2 & _ & T2). apply (went_close_both s2 rf wf (-1) a) in E as [-> E]; [|done]. split; [done|]. eapply went_trans; [exact F1|]. eapply went_trans; [exact F2|]. by rewrite <- T2.
Qed.

(** The copies to the process. *)
Lemma pipe_copy_run s p i j rf wf arr a s' : fd_inv s -> me (pstate s) = Some p -> i <> j -> row_of s p !! i = Some (Some rf) -> row_of s p !! j = Some (Some wf) -> (
    ok0 <- inproc (proc_copyout kbuf arr (le_bytes 4 (Z.of_nat i))) ;;
    ok1 <- (if ok0 : bool then inproc (proc_copyout kbuf (u64 (arr + 4)) (le_bytes 4 (Z.of_nat j))) else ret false) ;;
    if ok1 : bool then ret 0
    else set_ofile (Z.of_nat i) None ;;; set_ofile (Z.of_nat j) None ;;; fileclose mypid rf ;;; fileclose mypid wf ;;; ret (-1)) s = Ok a s' ->
  a = 0 /\ wrote_fds arr p i j s' /\ went none_held (tables (pstate s)) s s' \/ a = -1 /\ went none_held (<[p := <[j := None]> (<[i := None]> (row_of s p))]> (tables (pstate s))) s s'.
Proof using.
  intros Ho Hm Hij Hi Hj (ok0 & s4 & E4 & E)%bind_inv. pose proof (same_files_inproc _ (same_fds_copyout kbuf arr (le_bytes 4 (Z.of_nat i))) _ _ _ E4) as S4.
  apply bind_inv in E as (ok1 & s5 & E5 & E). assert (S5 : same_files s4 s5) by (destruct ok0; [exact (same_files_inproc _ (same_fds_copyout kbuf _ _) _ _ _ E5)|by injection E5 as _ <-]).
  pose proof (transitivity S4 S5) as S35. pose proof (went_same none_held s s5 Ho S35) as F5. pose proof F5 as (K5 & M5 & T5). rewrite Hm in M5. pose proof (row_same _ _ p S35) as R5.
  destruct ok1; [injection E as <- <-; left|right].
  { split_and!; [done| |done]. destruct ok0; [|discriminate]. exists (pstate s), (pstate s4). split_and!; [done|by apply inproc_inv|by apply inproc_inv]. }
  apply (pipe_undo_both s5 p i j rf wf a) in E as [-> E]; [|done|done|done|by rewrite R5|by rewrite R5].
  split; [done|]. eapply went_trans; [exact F5|]. by rewrite R5, T5 in E.
Qed.

Lemma row_restore (row : list (option nat)) i j rf wf : i <> j -> row !! i = Some None -> row !! j = Some None ->
  <[j := None]> (<[i := None]> (<[j := Some wf]> (<[i := Some rf]> row))) = row.
Proof using.
  intros Hij Hi Hj. apply list_eq. intros k. rewrite !list_lookup_insert. rewrite !length_insert. pose proof (lookup_lt_Some _ _ _ Hi). pose proof (lookup_lt_Some _ _ _ Hj). repeat case_decide; destruct_and?; subst; try done; naive_solver.
Qed.

Lemma sys_pipe_run junk s p a s' : fd_inv s -> me (pstate s) = Some p -> sys_pipe kbuf mypid junk s = Ok a s' -> piped s p a s'.
Proof using.
  intros Ho Hm. unfold sys_pipe. cbn zeta. intros E. rewrite (bind_ok _ _ _ _ _ (argaddr_eq s)) in E. set (arr := addr0 s) in E. destruct (my_row _ s p Ho Hm) as (Hp & _ & _).
  apply bind_inv in E as (r & s1 & E1 & E). pose proof (pipealloc_run junk s r s1 Ho E1) as F1. destruct r as [[rf wf]|]; [|injection E as <- <-; by left].
  destruct F1 as (Hrw & Ur & Uw & F1). pose proof F1 as (K1 & M1 & T1). rewrite Hm in M1. pose proof (same_row _ _ p T1) as R1. fold (row_of s p) (row_of s1 p) in R1.
  apply bind_inv in E as (fd0 & s2 & E2 & E). destruct (went_fdalloc _ _ p _ _ _ K1 M1 E2) as [(-> & -> & _)|(i & -> & Hi & F2)].
  { apply (went_close_both s1 rf wf (-1) a) in E as [-> E]; [|done]. left. split; [done|]. eapply went_trans; [exact F1|]. by rewrite <- T1. }
  rewrite (proj2 (Z.ltb_ge _ _)) in E by lia. rewrite R1 in Hi. rewrite R1, T1 in F2. pose proof F2 as (K2 & M2 & T2). rewrite M1 in M2. pose proof (row_set s s2 p _ Hp T2) as R2.
  pose proof (lookup_lt_Some _ _ _ (proj1 Hi)) as Hil. assert (Hi2 : row_of s2 p !! i = Some (Some rf)) by (rewrite R2; by apply list_lookup_insert_eq).
  assert (Htab : <[p := row_of s p]> (tables (pstate s)) = tables (pstate s)) by (by apply list_insert_id, row_lookup).
  apply bind_inv in E as (fd1 & s3 & E3 & E). destruct (went_fdalloc _ _ p _ _ _ K2 M2 E3) as [(-> & -> & _)|(j & -> & Hj & F3)].
  { apply bind_inv in E as (u & s4 & E4 & E). pose proof (went_unset _ _ p i rf _ _ K2 M2 Hi2 E4) as F4. rewrite R2, T2, !list_insert_insert_eq, (list_insert_id _ i None (proj1 Hi)), Htab in F4. pose proof F4 as (K4 & _ & T4).
    apply (went_close_both s4 rf wf (-1) a) in E as [-> E]; [|eapply fd_ok_ext; [|exact K4]; intros g; unfold plus_one, minus_one; lia].
    left. split; [done|]. do 3 (eapply went_trans; [eassumption|]). by rewrite <- T4. }
  rewrite (proj2 (Z.ltb_ge _ _)) in E by lia. rewrite R2, T2, list_insert_insert_eq in F3. rewrite R2 in Hj. pose proof F3 as (K3 & M3 & T3). rewrite M2 in M3. pose proof (row_set s s3 p _ Hp T3) as R3.
  pose proof (lookup_lt_Some _ _ _ (proj1 Hj)) as Hjl. assert (Hij : i <> j) by (intros ->; destruct Hj as [Hj _]; by rewrite list_lookup_insert_eq in Hj).
  assert (Hj0 : row_of s p !! j = Some None) by (destruct Hj as [Hj _]; by rewrite list_lookup_insert_ne in Hj).
  assert (F : went none_held (<[p := <[j := Some wf]> (<[i := Some rf]> (row_of s p))]> (tables (pstate s))) s s3).
  { eapply went_ext; [eapply went_trans; [exact F1|]; eapply went_trans; [exact F2|exact F3]|]. intros g. unfold both, plus_one, minus_one, none_held. lia. }
  apply (pipe_copy_run s3 p i j rf wf arr a) in E; [|apply F|done|done|rewrite R3, list_lookup_insert_ne by done; by apply list_lookup_insert_eq|rewrite R3; by apply list_lookup_insert_eq].
  destruct E as [(-> & Hw & E)|[-> E]].
  - right. split; [done|]. exists i, j, rf, wf. split_and!; [done..|]. eapply went_trans; [exact F|]. by rewrite <- T3.
  - left. split; [done|]. eapply went_trans; [exact F|]. by rewrite R3, T3, list_insert_insert_eq, (row_restore _ i j), Htab in E by (try done; apply Hi).
Qed.

(** ** No reference is lost *)
Definition balances {A} (m : M K A) : Prop := forall s p a s', fd_inv s -> me (pstate s) = Some p -> m s = Ok a s' -> fd_inv s' /\ me (pstate s') = Some p.
Lemma balances_same {A} (m : M K A) : pres same_files m -> balances m.
Proof using. intros Hm s p a s' Ho Hp E. apply Hm in E. split; [by eapply fd_ok_same|]. by rewrite (sf_me _ _ (sl_fds _ _ E)). Qed.
Lemma went_balances T s p s' : me (pstate s) = Some p -> went none_held T s s' -> fd_inv s' /\ me (pstate s') = Some p.
Proof using. intros Hm (K1 & M1 & _). split; [done|congruence]. Qed.
Lemma balances_dup : balances sys_dup.
Proof using.
  intros s p a s' Ho Hm E. pose proof (sys_dup_run s p Ho Hm) as Hd. destruct (fd_file s (arg0 s)); [destruct Hd as [(i & s1 & _ & E1 & F1)|[_ E1]]|rename Hd into E1]; rewrite E1 in E; injection E as <- <-; [by eapply went_balances|done|done].
Qed.
Lemma balances_close : balances (sys_close kbuf mypid).
Proof using. intros s p a s' Ho Hm E. pose proof (sys_close_run s p a s' Ho Hm E) as F. destruct (fd_file s (arg0 s)); [by eapply went_balances, F|by destruct F as [_ ->]]. Qed.
Lemma balances_open : balances (sys_open kbuf mypid).
Proof using. intros s p a s' Ho Hm E. destruct (sys_open_run s p a s' Ho Hm E) as [[_ F]|(i & f & _ & _ & _ & F)]; by eapply went_balances. Qed.
Lemma balances_pipe junk : balances (sys_pipe kbuf mypid junk).
Proof using. intros s p a s' Ho Hm E. destruct (sys_pipe_run junk s p a s' Ho Hm E) as [[_ F]|(_ & i & j & rf & wf & _ & _ & _ & _ & _ & _ & F)]; by eapply went_balances. Qed.
End fds.
