(* ===== verification/FdCalls.v ===== *)
(** * Reference counts through every system call

    The system calls that make and end processes ([fork], [exit], [wait]) and
    the dispatch of system calls: whatever programs call, the count of an open
    file stays the number of descriptors that name it (kernel/proc.c,
    kernel/syscall.c). *)

From stdpp Require Import base gmap list numbers strings.
From Stdlib Require Import ZArith Lia.
From S2P Require Import Prelude Riscv Mem Spinlock Kalloc Vm Bytes Sleeplock Disk Bio BlockIO Fs ProcEnv Pipe File Proc ProcInv Syscall Exec Sysfile Kernel FdFrame FdSpec Log BioSpec LogIO.
Open Scope Z_scope.
Open Scope kernel_scope.

(** ** Process entries *)

(** As [same_fds], but entry [p] may be freed. *)
Record same_but (p : nat) (P P' : pst) : Prop := {
  sb_tables : tables P' = tables P;
  sb_me : me P' = me P;
  sb_ended : forall q, q <> p -> ended_at P' q = true -> ended_at P q = true
}.
#[export] Instance same_but_pre p : PreOrder (same_but p).
Proof. split; [by intros P|]. intros P1 P2 P3 [A1 B1 C1] [A2 B2 C2]. split; [congruence|congruence|auto]. Qed.

Lemma same_but_weaken p P P' : same_fds P P' -> same_but p P P'.
Proof. intros [A B C]. split; auto. Qed.
Lemma same_but_pres {A} p (m : M pst A) : pres same_fds m -> pres (same_but p) m.
Proof. intros Hm s a s' E. by eapply same_but_weaken, Hm. Qed.
Lemma same_but_ended p P P' : same_but p P P' -> ended_at P p = true -> same_fds P P'.
Proof. intros [A B C] He. split; [done|done|]. intros q. destruct (decide (q = p)) as [->|Hq]; [done|by apply C]. Qed.
Lemma same_but_updproc p f : (forall x, p_ofile (f x) = p_ofile x) -> pres (same_but p) (updproc p f).
Proof.
  intros Ho s a s' [= _ <-]. split; [|done|].
  - rewrite tables_setproc, Ho. apply list_insert_id'. intros Hl. unfold tables, getproc in *. rewrite list_lookup_fmap. rewrite length_fmap in Hl. by destruct (lookup_lt_is_Some_2 _ _ Hl) as [y ->].
  - intros q Hq. unfold ended_at. by rewrite getproc_other.
Qed.
#[export] Hint Extern 3 (pres (same_but _) (updproc _ _)) => apply same_but_updproc; by intros [] : pres.
#[export] Hint Extern 4 (pres (same_but _) _) => apply same_but_pres; solve [eauto 2 with pres] : pres.

Section procs.
Context {img : KernelImage}.

Lemma same_but_freeproc p : pres (same_but p) (freeproc p).
Proof using. unfold freeproc. pres. Qed.
#[local] Hint Resolve same_but_freeproc : pres.

Lemma same_fds_modify_proc f : (forall s, ps_proc (f s) = ps_proc s) -> (forall s, me (f s) = me s) -> pres same_fds (modify f).
Proof using. intros Hp Hm s a s' [= _ <-]. split; unfold tables, ended_at, getproc; rewrite ?Hp, ?Hm; done. Qed.
Lemma same_fds_allocpid : pres same_fds allocpid.
Proof using.
  unfold allocpid. apply pres_bind; [apply pres_acquire; by intros s b|intros _]. apply pres_bind; [apply (pres_gets _)|intros pid].
  apply pres_bind; [by apply same_fds_modify_proc|intros _]. apply pres_bind; [apply pres_release; by intros s b|intros _]. apply (pres_ret _).
Qed.

Lemma find_unused_fds P r P' : find_unused P = Ok r P' -> same_fds P P' /\ forall p, r = Some p -> (p < nproc)%nat /\ ended_at P' p = true.
Proof using.
  intros E. split; [revert P r P' E; change (pres same_fds find_unused); unfold find_unused; pres|]. revert P E. unfold find_unused.
  assert (Hl : Forall (fun p => (p < nproc)%nat) all_procs) by (apply Forall_forall; unfold all_procs; intros x Hx%elem_of_seq; lia). revert Hl. generalize all_procs. intros l. induction l as [|p l IH]; intros Hl P E p' ->; [done|].
  inversion_clear Hl as [|? ? Hp Hl']. cbn [for_each] in E. apply bind_inv in E as (o & P1 & E1 & E). apply bind_inv in E1 as (u & P2 & E2 & E1). apply bind_inv in E1 as (? & ? & [= <- <-] & E1).
  case_decide as Hu; [injection E1 as <- <-; injection E as <- <-; unfold ended_at; by rewrite Hu|]. apply bind_inv in E1 as (? & P3 & _ & [= <- <-]). by apply (IH Hl' P3).
Qed.

(** The end of [allocproc], once the entry is taken. *)
Lemma alloc_rest_fds forkret p P r P' : (
    tf <- mem kalloc ;;
    updproc p (set_p_trapframe tf) ;;;
    if tf =? 0 then freeproc p ;;; release_proc p ;;; ret None
    else
      pt <- proc_pagetable p ;;
      updproc p (set_p_pagetable pt) ;;;
      if pt =? 0 then freeproc p ;;; release_proc p ;;; ret None
      else
        s <- get ;;
        updproc p (set_p_context (forkret :: u64 (p_kstack (getproc s p) + PGSIZE) :: replicate 12 0)) ;;;
        ret (Some p)) P = Ok r P' ->
  same_but p P P' /\ (r = None \/ r = Some p /\ same_fds P P').
Proof using.
  intros E. split; [revert P r P' E; match goal with |- forall P r P', ?m P = _ -> _ => change (pres (same_but p) m) end; pres|].
  apply bind_inv in E as (tf & P1 & E1 & E). apply same_fds_mem in E1. apply bind_inv in E as (u2 & P2 & E2 & E). destruct (tf =? 0); [left; by apply bind_inv in E as (? & ? & _ & (? & ? & _ & [= <- _])%bind_inv)|].
  apply bind_inv in E as (pt & P3 & E3 & E). apply same_fds_pagetable in E3. apply bind_inv in E as (u4 & P4 & E4 & E). destruct (pt =? 0); [left; by apply bind_inv in E as (? & ? & _ & (? & ? & _ & [= <- _])%bind_inv)|].
  apply bind_inv in E as (? & ? & [= <- <-] & (u5 & P5 & E5 & [= <- <-])%bind_inv). right. split; [done|].
  apply (same_fds_updproc p) in E2, E4, E5; try by intros []. repeat (etransitivity; [eassumption|]). done.
Qed.

(** [allocproc] takes an entry that was unused. *)
Lemma allocproc_fds forkret P r P' : length (ps_proc P) = nproc -> allocproc forkret P = Ok r P' ->
  same_fds P P' /\ forall p, r = Some p -> (p < nproc)%nat /\ ended_at P p = true /\ ended_at P' p = false.
Proof using.
  intros HP. unfold allocproc. intros (r1 & P1 & E1 & E)%bind_inv. destruct (find_unused_fds _ _ _ E1) as [S1 H1]. destruct r1 as [p|]; [|injection E as <- <-; by split]. destruct (H1 p eq_refl) as [Hp He1].
  pose proof (sf_ended _ _ S1 p He1) as He. apply bind_inv in E as (pid & P2 & E2 & E). apply same_fds_allocpid in E2. apply bind_inv in E as (u3 & P3 & E3 & E). apply bind_inv in E as (u4 & P4 & E4 & E).
  apply (same_fds_updproc p) in E3; [|by intros []|by intros []]. pose proof (transitivity S1 (transitivity E2 E3)) as S13.
  assert (He4 : ended_at P4 p = false).
  { injection E4 as _ <-. unfold ended_at. rewrite getproc_upd, decide_True; [by destruct (getproc P3 p)|]. split; [done|]. unfold in_table. pose proof (same_length _ _ (sf_tables _ _ S13)). lia. }
  apply (same_fds_updproc p) in E4; [|by intros []|by intros []]. pose proof (transitivity S13 E4) as S14. apply alloc_rest_fds in E as [Hb Hr]. split.
  - apply (same_but_ended p); [|done]. etransitivity; [by apply same_but_weaken|done].
  - intros q ->. destruct Hr as [|[[= ->] Hs]]; [done|]. split_and!; [done|done|]. destruct (ended_at P' p) eqn:E5; [|done]. by rewrite (sf_ended _ _ Hs p E5) in He4.
Qed.

(** [kwait] frees a zombie, which has closed its files. *)
Lemma kwait_scan_fds kbuf addr : forall l hk P a P', kwait_scan kbuf l addr hk P = Ok a P' -> same_fds P P'.
Proof using.
  intros l. induction l as [|pp l IH]; intros hk P a P' E; cbn [kwait_scan] in E; [by injection E as _ <-|].
  apply bind_inv in E as (? & ? & [= <- <-] & E). case_decide; [|by eapply IH]. apply bind_inv in E as (u1 & P1 & E1 & E). apply same_fds_acquire in E1. etransitivity; [exact E1|]. clear E1.
  apply bind_inv in E as (? & ? & [= <- <-] & E). case_decide as Hz.
  - apply bind_inv in E as (ok & P2 & E2 & E). assert (S2 : same_fds P1 P2) by (destruct (addr =? 0); [by injection E2 as _ <-|by apply same_fds_copyout in E2]).
    destruct ok; [|etransitivity; [exact S2|]; revert E; match goal with |- ?m P2 = _ -> _ => assert (Hm : pres same_fds m) by pres; apply (Hm P2) end].
    apply (same_but_ended pp); [|unfold ended_at; by rewrite Hz]. etransitivity; [by apply same_but_weaken|].
    revert E. match goal with |- ?m P2 = _ -> _ => assert (Hm : pres (same_but pp) m) by pres; apply (Hm P2) end.
  - apply bind_inv in E as (u2 & P2 & E2 & E). apply same_fds_release in E2. etransitivity; [exact E2|]. by eapply IH.
Qed.
Lemma same_fds_kwait kbuf addr : pres same_fds (kwait kbuf addr).
Proof using.
  unfold kwait. apply pres_bind; [apply (pres_gets _)|intros p]. apply (pres_after (fun r => match r with Some _ => true | None => false end) same_fds); [|intros [v|]; pres|by intros [v|]].
  unfold kwait_round. apply pres_if_bind; [pres|intros _]. apply pres_if_bind; [intros P a P'; apply kwait_scan_fds|]. intros [v|hk]; [apply pres_weaken; pres|].
  apply pres_if_bind; [pres|intros s]. apply pres_if_bind; [destruct hk; pres|]. intros [|]; [apply pres_weaken; pres|]. intros P a P' (? & ? & _ & [= <- _])%bind_inv. done.
Qed.
End procs.

(** ** Parts of calls that wait

    A call that has to wait leaves the processor in the middle; what it does up
    to there, and from there on, keeps the tables as well. *)

Record moves (P P' : pst) : Prop := {
  mv_tables : tables P' = tables P;
  mv_me : me P' = me P \/ me P' = None;
  mv_ended : forall p, ended_at P' p = true -> ended_at P p = true
}.
#[export] Instance moves_pre : PreOrder moves.
Proof.
  split; [intros P; split; auto|]. intros P1 P2 P3 [A1 B1 C1] [A2 B2 C2]. split; [congruence| |auto]. destruct B2 as [->|]; auto.
Qed.
Lemma moves_same P P' : same_fds P P' -> moves P P'.
Proof. intros [A B C]. split; auto. Qed.
Lemma pres_moves {A} (m : M pst A) : pres same_fds m -> pres moves m.
Proof. intros Hm s a s' E. by eapply moves_same, Hm. Qed.

Section waits.
Context {img : KernelImage} (kbuf : Z).
#[local] Instance waits_env : ProcEnv pst := proc_env kbuf.

Lemma moves_park c P : moves P (park_me c P).
Proof using.
  unfold park_me. set (P1 := setproc P (mine P) (set_p_chan (Some c) (getproc P (mine P)))). set (P2 := setproc P1 (mine P) (set_p_state SLEEPING (getproc P1 (mine P)))).
  assert (H1 : same_fds P P1) by (apply same_fds_setproc; unfold ended_at; by destruct (getproc P (mine P))).
  assert (H2 : same_fds P1 P2) by (apply same_fds_setproc; unfold ended_at; by destruct (getproc P1 (mine P))).
  destruct (transitivity H1 H2) as [A B C]. split; [exact A|by right|exact C].
Qed.
Lemma moves_return : pres moves scheduler_return.
Proof using.
  intros P u P' (p & ? & [= <- <-] & (? & ? & [= _ <-] & E)%bind_inv)%bind_inv. apply same_fds_release in E as [A B C]. split; [by rewrite A|right; by rewrite B|done].
Qed.
Lemma moves_sleep_out c rel : pres same_fds rel -> pres moves (sleep_out c rel).
Proof using.
  intros Hr. unfold sleep_out, sched. do 6 (apply pres_bind; [apply pres_moves; solve [pres]|intros ?]). apply moves_return.
Qed.
Lemma moves_wait addr : pres moves (kwait_round kbuf addr).
Proof using.
  unfold kwait_round. apply pres_bind; [apply pres_moves; pres|intros _]. apply pres_bind; [intros P a P' E; by eapply moves_same, kwait_scan_fds|].
  intros [v|hk]; [apply pres_moves; pres|]. apply pres_bind; [apply pres_moves; pres|intros s]. apply pres_bind; [apply pres_moves; destruct hk; pres|].
  intros [|]; [apply pres_moves; pres|]. apply pres_bind; [apply moves_sleep_out; pres|intros _; apply pres_moves; pres].
Qed.

Definition env_moves (s s' : pipest pst) : Prop := moves (pip_env s) (pip_env s').
#[local] Instance env_moves_pre : PreOrder env_moves.
Proof. split; [intros s; unfold env_moves; reflexivity|]. intros s1 s2 s3 E1 E2. unfold env_moves in *. by etransitivity. Qed.
Lemma env_moves_same {A} (m : M (pipest pst) A) : pres same_env m -> pres env_moves m.
Proof using. intros Hm s a s' E. by eapply moves_same, Hm. Qed.
#[local] Hint Extern 2 (pres env_moves (acquire _ _)) => apply env_moves_same, pres_acquire; intros; apply same_env_eq; exact eq_refl : pres.
#[local] Hint Extern 2 (pres env_moves (release _ _)) => apply env_moves_same, pres_release; intros; apply same_env_eq; exact eq_refl : pres.
#[local] Hint Extern 2 (pres env_moves (updp _ _)) => apply env_moves_same, pres_modify; intros; apply same_env_eq; exact eq_refl : pres.
#[local] Hint Extern 2 (pres env_moves (in_env _)) => apply env_moves_same; first [apply same_env_wakeup|apply same_env_killed|apply same_env_copyin] : pres.
Lemma env_moves_sleep pi c i : pres env_moves (pipe_sleep pi c i).
Proof using. unfold pipe_sleep. pres. apply pres_modify. intros s. apply moves_park. Qed.
#[local] Hint Resolve env_moves_sleep : pres.
Lemma env_moves_write pi addr n i : pres env_moves (pipewrite_from pi addr n i).
Proof using.
  unfold pipewrite_from. apply pres_bind; [pres|intros _]. generalize (Datatypes.S (Z.to_nat (n - i))). intros k. revert i. induction k as [|k IH]; intros i; cbn [pipewrite_loop]; pres.
Qed.
Lemma env_moves_read pi addr n : pres env_moves (piperead_from pi addr n).
Proof using.
  assert (Hl : forall k i, pres env_moves (piperead_loop k pi addr n i)) by (intros k i; apply env_moves_same, same_env_read_loop).
  unfold piperead_from. pres.
Qed.
End waits.

Section calls.
Context {S H : Type} {io : BlockIO S H} {img : KernelImage} {devs : DevSw pst} (kbuf mypid forkret : Z).
#[local] Instance calls_env : ProcEnv pst := proc_env kbuf.
Notation K := (kst S pst).
Implicit Types (s : K) (f : nat) (d : nat -> Z).

Lemma fd_ok_but d s s' p : fd_ok d s -> ft_lock s' = ft_lock s -> ft_file s' = ft_file s -> same_but p (pstate s) (pstate s') ->
  (forall f, uses [row_of s p] f = 0) -> me (pstate s) <> Some p -> fd_ok d s'.
Proof using.
  intros [H1 H2 HP H3 H4 H5 H6] Hl Hf [G1 G2 G3] Hrow Hme. split; rewrite ?G1, ?G2, ?Hf; [congruence|done|by rewrite (same_length _ _ G1)|done| |intros f; unfold ref_of; rewrite Hf; apply H5|].
  - intros q Hq. destruct (H4 q Hq) as [Hlt He]. split; [by rewrite (same_length _ _ G1)|]. destruct (ended_at (pstate s') q) eqn:E; [|done]. rewrite (G3 q) in He; [done|congruence|done].
  - intros q Hq f. unfold row_of. rewrite (same_row _ _ q G1). destruct (decide (q = p)) as [->|Hne]; [apply Hrow|by apply (H6 q), G3].
Qed.

Lemma empty_row t i x : (forall f, uses [t] f = 0) -> t !! i = Some x -> x = None.
Proof using.
  intros Hu Hi. destruct x as [f|]; [|done]. pose proof (Hu f) as Hf. rewrite (row_split t i _ f Hi) in Hf. pose proof (uses_nonneg [take i t ++ drop (Datatypes.S i) t] f). unfold one in Hf. rewrite decide_True in Hf by done. lia.
Qed.

(** ** [fork] *)

(** One descriptor of the parent copied to the child. *)
Definition dup_fd (row : list (option nat)) (np : nat) (i : Z) : M K unit :=
  match default None (row !! Z.to_nat i) with
  | Some f => f' <- filedup f ;; inproc (updproc np (fun x => set_p_ofile (setz (p_ofile x) i (Some f')) x))
  | None => ret tt
  end.

Record forking s p np (row : list (option nat)) (a : nat) : Prop := {
  fk_inv : fd_inv s;
  fk_me : me (pstate s) = Some p;
  fk_new : np <> p /\ (np < nproc)%nat /\ ended_at (pstate s) np = false;
  fk_parent : row_of s p = row;
  fk_child : forall j, (a <= j < NOFILE)%nat -> row_of s np !! j = Some None
}.

Lemma dup_fd_ok s p np row a : forking s p np row a -> (a < NOFILE)%nat ->
  exists s' x, dup_fd row np (Z.of_nat a) s = Ok tt s' /\ forking s' p np row (Datatypes.S a) /\ row !! a = Some x /\ tables (pstate s') = <[np := <[a := x]> (row_of s np)]> (tables (pstate s)).
Proof using.
  intros [Ho Hm (Hne & Hnp & He) Hrow Hch] Ha. destruct (my_row _ s p Ho Hm) as (Hp & _ & Hlen). rewrite Hrow in Hlen. destruct (lookup_lt_is_Some_2 row a) as [x Hx]; [lia|].
  assert (Hnp' : (np < length (ps_proc (pstate s)))%nat) by (rewrite (fo_procs _ _ Ho); done). unfold dup_fd. rewrite Nat2Z.id, Hx. cbn [from_option]. unfold id. destruct x as [f|].
  - assert (Hr : 1 <= ref_of s f) by (apply (used_ref none_held s p a f Ho Hp); [by rewrite Hrow|done]). destruct (filedup_ok _ s f Ho Hr) as (s1 & E1 & K1 & P1).
    assert (R1 : forall q, row_of s1 q = row_of s q) by (intros q; unfold row_of; by rewrite P1).
    destruct (set_fd_ok _ s1 np a None (Some f) K1) as (s2 & E2 & [K2 T2 M2 D2]); [by rewrite P1|rewrite R1; apply Hch; lia|rewrite P1; by right|]. rewrite R1, P1 in T2. rewrite P1 in M2.
    exists s2, (Some f). split_and!; [by step_with E1| |done|done]. split; [|congruence|split_and!; [done|done|by rewrite D2, P1]| |].
    + eapply fd_ok_ext; [|exact K2]. intros g. unfold minus_one, plus_one, none_held, one. rewrite (decide_False (P := None = Some g)) by done. lia.
    + rewrite <- Hrow. apply tables_lookup. rewrite T2, list_lookup_insert_ne by done. by apply row_lookup.
    + intros j Hj. rewrite (row_set s s2 np _ Hnp' T2), list_lookup_insert_ne by lia. apply Hch. lia.
  - exists s, None. split_and!; [done| |done|].
    + split; [done|done|done|done|]. intros j Hj. apply Hch. lia.
    + rewrite (list_insert_id (row_of s np) a) by (apply Hch; lia). by rewrite list_insert_id by (by apply row_lookup).
Qed.

Lemma dup_fds_ok p np row : length row = NOFILE -> forall n a s, (a + n = NOFILE)%nat -> forking s p np row a ->
  exists s', for_all (seqZ (Z.of_nat a) (Z.of_nat n)) (dup_fd row np) s = Ok tt s' /\ forking s' p np row NOFILE /\
    tables (pstate s') = <[np := take a (row_of s np) ++ drop a row]> (tables (pstate s)).
Proof using.
  intros Hlen n. induction n as [|n IH]; intros a s Ha Hk.
  - rewrite seqZ_nil by lia. exists s. split_and!; [done|by replace NOFILE with a by lia|]. destruct Hk as [Ho Hm (_ & Hnp & _) _ _]. assert (Hnp' : (np < length (ps_proc (pstate s)))%nat) by (rewrite (fo_procs _ _ Ho); done).
    rewrite (drop_ge row), app_nil_r, take_ge by (rewrite ?(row_length _ s np Ho Hnp'); lia). by rewrite list_insert_id by (by apply row_lookup).
  - rewrite seqZ_cons by lia. replace (Z.pred (Z.of_nat (Datatypes.S n))) with (Z.of_nat n) by lia. replace (Z.succ (Z.of_nat a)) with (Z.of_nat (Datatypes.S a)) by lia.
    destruct (dup_fd_ok s p np row a Hk) as (s1 & x & E1 & K1 & Hx & T1); [lia|]. destruct (IH (Datatypes.S a) s1) as (s2 & E2 & K2 & T2); [lia|done|].
    exists s2. cbn [for_all]. split_and!; [by step_with E1|done|]. destruct Hk as [Ho Hm (_ & Hnp & _) _ Hch]. assert (Hnp' : (np < length (ps_proc (pstate s)))%nat) by (rewrite (fo_procs _ _ Ho); done).
    rewrite T2, T1, list_insert_insert_eq, (row_set s s1 np _ Hnp' T1). f_equal. pose proof (row_length _ s np Ho Hnp') as Hl.
    rewrite (take_S_r _ a x) by (apply list_lookup_insert_eq; lia). rewrite take_insert_ge by lia. rewrite <- app_assoc. f_equal. by rewrite (drop_S row x a).
Qed.

Lemma by_pres {A} (m : M K A) s a s' : m s = Ok a s' -> pres same_files m -> same_files s s'.
Proof using. intros E Hm. by eapply Hm. Qed.
Lemma inproc_gets {A} (f : pst -> A) s : inproc (gets f) s = Ok (f (pstate s)) s.
Proof using. by destruct s as [[] ? ? ?]. Qed.
Lemma same_files_alloc s r s' : fd_inv s -> inproc (allocproc forkret) s = Ok r s' ->
  same_files s s' /\ forall np, r = Some np -> (np < nproc)%nat /\ ended_at (pstate s) np = true /\ ended_at (pstate s') np = false.
Proof using.
  intros Ho (E & El & Ef)%inproc_inv. apply allocproc_fds in E as [Hs Hr]; [|apply Ho]. split; [|done]. split; [done|by rewrite Ef| |done]. intros f. unfold ref_of. by rewrite Ef.
Qed.
Lemma ended_not_me d s p np : fd_ok d s -> me (pstate s) = Some p -> ended_at (pstate s) np = true -> np <> p.
Proof using. intros Ho Hm He ->. destruct (fo_me _ _ Ho p Hm) as [_ He']. congruence. Qed.

(** The end of [kfork]: the child's pid is its answer. *)
Definition same_pid np s s' : Prop := p_pid (kproc s' np) = p_pid (kproc s np).
#[local] Instance same_pid_pre np : PreOrder (same_pid np).
Proof. split; [done|]. intros s1 s2 s3 E1 E2. unfold same_pid in *. congruence. Qed.
Definition keeps_pid {A} (m : M pst A) : Prop := forall np P a P', m P = Ok a P' -> p_pid (getproc P' np) = p_pid (getproc P np).
Lemma pid_inproc {A} (m : M pst A) np : keeps_pid m -> pres (same_pid np) (inproc m).
Proof using. intros Hm s a s' (E & _ & _)%inproc_inv. by eapply Hm. Qed.
Lemma pid_setproc P q x np : p_pid x = p_pid (getproc P q) -> p_pid (getproc (setproc P q x) np) = p_pid (getproc P np).
Proof using. intros Hx. rewrite getproc_upd. case_decide as E; [destruct E as [-> _]; exact Hx|done]. Qed.
Lemma keeps_pid_updproc q g : (forall x, p_pid (g x) = p_pid x) -> keeps_pid (updproc q g).
Proof using. intros Hf np P a P' [= _ <-]. by apply pid_setproc. Qed.
Lemma keeps_pid_acquire q : keeps_pid (acquire_proc q).
Proof using. intros np. apply (pres_acquire (fun P P' => p_pid (getproc P' np) = p_pid (getproc P np))). intros s b. by apply pid_setproc. Qed.
Lemma keeps_pid_release q : keeps_pid (release_proc q).
Proof using. intros np. apply (pres_release (fun P P' => p_pid (getproc P' np) = p_pid (getproc P np))). intros s b. by apply pid_setproc. Qed.
Lemma keeps_pid_wait : keeps_pid (acquire wait_lock set_wait_lock) /\ keeps_pid (release wait_lock set_wait_lock).
Proof using. split; intros np; [apply (pres_acquire (fun P P' => p_pid (getproc P' np) = p_pid (getproc P np)))|apply (pres_release (fun P P' => p_pid (getproc P' np) = p_pid (getproc P np)))]; by intros s b. Qed.
Lemma fork_tail p np s r s' : (
    pid <- gets (fun s => p_pid (kproc s np)) ;;
    inproc (release_proc np) ;;;
    inproc (acquire wait_lock set_wait_lock) ;;;
    inproc (updproc np (set_p_parent (Some p))) ;;;
    inproc (release wait_lock set_wait_lock) ;;;
    inproc (acquire_proc np) ;;;
    inproc (updproc np (set_p_state RUNNABLE)) ;;;
    inproc (release_proc np) ;;;
    ret pid) s = Ok r s' -> same_files s s' /\ r = p_pid (kproc s' np).
Proof using.
  intros E. split; [revert E; match goal with |- ?m s = _ -> _ => assert (Hm : pres same_files m) by pres; apply (Hm s) end|]. apply bind_inv in E as (pid & ? & [= <- <-] & E).
  assert (Hs : r = p_pid (kproc s np) /\ same_pid np s s'); [|destruct Hs as [-> Hs]; symmetry; exact Hs]. revert E.
  match goal with |- ?m s = _ -> _ => assert (Hm : pres (same_pid np) m) end.
  { repeat (apply pres_bind; [apply pid_inproc; first [apply keeps_pid_acquire|apply keeps_pid_release|apply keeps_pid_wait|apply keeps_pid_updproc; by intros []]|intros _]). apply (pres_ret _). }
  intros E. split; [|by eapply Hm]. do 7 (apply bind_inv in E as (? & ? & _ & E)). by injection E as <- _.
Qed.

(** The child has a descriptor wherever the parent has one, on the same file. *)
Lemma kfork_run s p r s' : fd_inv s -> me (pstate s) = Some p -> kfork forkret s = Ok r s' -> fd_inv s' /\ me (pstate s') = Some p /\
  (r = -1 /\ tables (pstate s') = tables (pstate s) \/ exists np, r = p_pid (kproc s' np) /\ (np < length (ps_proc (pstate s)))%nat /\ ended_at (pstate s) np = true /\ tables (pstate s') = <[np := row_of s p]> (tables (pstate s))).
Proof using.
  intros Ho Hm E. unfold kfork in E. rewrite (bind_ok _ _ _ _ _ (inproc_gets mine s)) in E. replace (mine (pstate s)) with p in E by (unfold mine; by rewrite Hm).
  apply bind_inv in E as (r1 & s1 & E1 & E). destruct (same_files_alloc s r1 s1 Ho E1) as [S1 H1]. pose proof (fd_ok_same _ _ _ Ho S1) as Ho1. pose proof (sl_fds _ _ S1) as [T1 M1 _]. rewrite Hm in M1.
  destruct r1 as [np|]; [|injection E as <- <-; split_and!; [done|done|left; by split]]. destruct (H1 np eq_refl) as (Hnp & He & He1). pose proof (ended_not_me _ _ _ _ Ho Hm He) as Hne.
  assert (Hempty : forall f, uses [row_of s1 np] f = 0) by (rewrite (row_same _ _ np S1); by apply (fo_ended _ _ Ho)).
  apply bind_inv in E as (? & ? & [= <- <-] & E). apply bind_inv in E as (c & s2 & E2 & E). apply by_pres in E2; [|apply same_files_memory]. pose proof (fd_ok_same _ _ _ Ho1 E2) as Ho2. pose proof (sl_fds _ _ E2) as [T2 M2 _]. rewrite M1 in M2.
  destruct (c <? 0).
  - apply bind_inv in E as (u3 & s3 & E3 & E). apply inproc_inv in E3 as (E3 & L3 & F3). apply same_but_freeproc in E3. pose proof E3 as [T3 M3 _].
    assert (Ho3 : fd_inv s3) by (apply (fd_ok_but _ s2 s3 np); [done|done|done|done|rewrite (row_same _ _ np E2); done|rewrite M2; congruence]).
    apply bind_inv in E as (u4 & s4 & E4 & [= <- <-]). apply by_pres in E4; [|pres]. pose proof (sl_fds _ _ E4) as [T4 M4 _]. split_and!; [by apply (fd_ok_same _ s3)|congruence|left; split; [done|congruence]].
  - apply bind_inv in E as (u3 & s3 & E3 & E). apply by_pres in E3; [|pres]. apply bind_inv in E as (u4 & s4 & E4 & E). apply by_pres in E4; [|pres]. apply bind_inv in E as (u5 & s5 & E5 & E). apply by_pres in E5; [|pres].
    pose proof (transitivity E2 (transitivity E3 (transitivity E4 E5))) as S5. pose proof (sl_fds _ _ S5) as [T5 M5 D5]. pose proof (fd_ok_same _ _ _ Ho1 S5) as Ho5.
    assert (Hp : (p < length (ps_proc (pstate s)))%nat) by (by apply (my_row _ s p Ho Hm)).
    assert (Hk : forking s5 p np (row_of s1 p) 0).
    { split; [done|congruence|split_and!; [done|done|]|by apply row_same|]; [destruct (ended_at (pstate s5) np) eqn:Ex; [by rewrite (D5 np Ex) in He1|done]|].
      intros j Hj. rewrite (row_same _ _ np S5). destruct (lookup_lt_is_Some_2 (row_of s1 np) j) as [x Hx]; [rewrite (row_length _ s1 np Ho1); [lia|rewrite (fo_procs _ _ Ho1); done]|]. by rewrite (empty_row _ _ _ Hempty Hx) in Hx. }
    assert (Hl : length (row_of s1 p) = NOFILE) by (rewrite (row_same _ _ p S1); by apply (my_row _ s p Ho Hm)).
    destruct (dup_fds_ok p np _ Hl NOFILE 0 s5 eq_refl Hk) as (s6 & E6 & [Ho6 M6 _ _ _] & T6). apply bind_inv in E as (u6 & s6' & E6' & E).
    change (for_all (seqZ (Z.of_nat 0) (Z.of_nat NOFILE)) (dup_fd (row_of s1 p) np) s5 = Ok u6 s6') in E6'. rewrite E6 in E6'. injection E6' as <- <-. assert (S6 : same_files s6 s6) by reflexivity.
    do 3 (apply bind_inv in E as (? & ? & E7 & E); apply by_pres in E7; [|pres]; apply (transitivity S6) in E7; clear S6; rename E7 into S6). apply fork_tail in E as [E Er]. apply (transitivity S6) in E. clear S6.
    pose proof (sl_fds _ _ E) as [T7 M7 _]. split_and!; [by apply (fd_ok_same _ s6)|congruence|right]. exists np. split_and!; [exact Er|rewrite (fo_procs _ _ Ho); done|done|]. rewrite T7, T6, T5, T1. by rewrite (row_same _ _ p S1).
Qed.

(** ** [exit] *)

Definition close_fd (fd : Z) : M K unit :=
  s <- get ;;
  match ofile s fd with
  | Some f => fileclose mypid f ;;; set_ofile fd None
  | None => ret tt
  end.

Lemma close_fd_run s p a u s' : fd_inv s -> me (pstate s) = Some p -> (a < NOFILE)%nat -> close_fd (Z.of_nat a) s = Ok u s' ->
  fd_inv s' /\ me (pstate s') = Some p /\ tables (pstate s') = <[p := <[a := None]> (row_of s p)]> (tables (pstate s)).
Proof using.
  intros Ho Hm Ha (? & ? & [= <- <-] & E)%bind_inv. destruct (my_row _ s p Ho Hm) as (Hp & _ & Hlen). destruct (lookup_lt_is_Some_2 (row_of s p) a) as [x Hx]; [lia|].
  rewrite (ofile_mine s p), Nat2Z.id, Hx in E by done. cbn [from_option] in E. unfold id in E. destruct x as [f|].
  - apply bind_inv in E as (u1 & s1 & E1 & E2). assert (Hr : 1 <= ref_of s f) by (by apply (used_ref none_held s p a f)).
    destruct (proj1 (fileclose_ok kbuf mypid _ s f Ho Hr) _ _ E1) as [K1 [T1 M1 _]]. rewrite Hm in M1. pose proof (same_row _ _ p T1) as R1. assert (Hx1 : row_of s1 p !! a = Some (Some f)) by (unfold row_of; by rewrite R1).
    destruct (set_ofile_ok _ s1 p a _ None K1 M1 Hx1) as (s2 & E3 & [K2 T2 M2 _]). rewrite E3 in E2. injection E2 as _ <-. split_and!; [|congruence|].
    + eapply fd_ok_ext; [|exact K2]. intros g. unfold minus_one, plus_one, none_held, one. rewrite (decide_False (P := None = Some g)) by done. lia.
    + rewrite T2, T1. unfold row_of. by rewrite R1.
  - injection E as _ <-. split_and!; [done|done|]. rewrite (list_insert_id (row_of s p)) by done. by rewrite list_insert_id by (by apply row_lookup).
Qed.

Lemma close_fds_run p : forall n a s u s', fd_inv s -> me (pstate s) = Some p -> (a + n = NOFILE)%nat -> for_all (seqZ (Z.of_nat a) (Z.of_nat n)) close_fd s = Ok u s' ->
  fd_inv s' /\ me (pstate s') = Some p /\ tables (pstate s') = <[p := take a (row_of s p) ++ replicate n None]> (tables (pstate s)).
Proof using.
  intros n. induction n as [|n IH]; intros a s u s' Ho Hm Ha E.
  - rewrite seqZ_nil in E by lia. injection E as _ <-. destruct (my_row _ s p Ho Hm) as (Hp & _ & Hlen). split_and!; [done|done|]. rewrite app_nil_r, take_ge by lia. by rewrite list_insert_id by (by apply row_lookup).
  - rewrite seqZ_cons in E by lia. replace (Z.pred (Z.of_nat (Datatypes.S n))) with (Z.of_nat n) in E by lia. replace (Z.succ (Z.of_nat a)) with (Z.of_nat (Datatypes.S a)) in E by lia.
    cbn [for_all] in E. apply bind_inv in E as (u1 & s1 & E1 & E). destruct (close_fd_run s p a u1 s1 Ho Hm) as (K1 & M1 & T1); [lia|done|]. destruct (IH (Datatypes.S a) s1 u s' K1 M1) as (K2 & M2 & T2); [lia|done|].
    destruct (my_row _ s p Ho Hm) as (Hp & _ & Hlen). split_and!; [done|done|]. rewrite T2, T1, list_insert_insert_eq, (row_set s s1 p _ Hp T1). f_equal.
    rewrite (take_S_r _ a None) by (apply list_lookup_insert_eq; lia). rewrite take_insert_ge by lia. by rewrite <- app_assoc.
Qed.

(** A process leaves the processor. *)
Lemma scheduler_return_fds P u P' : scheduler_return P = Ok u P' -> tables P' = tables P /\ me P' = None /\ forall q, ended_at P' q = true -> ended_at P q = true.
Proof using. intros (p & ? & [= <- <-] & (? & ? & [= _ <-] & E)%bind_inv)%bind_inv. apply same_fds_release in E as [A B C]. split_and!; [by rewrite A|by rewrite B|done]. Qed.
Lemma fd_ok_leaves d s s' p : fd_ok d s -> ft_lock s' = ft_lock s -> ft_file s' = ft_file s -> tables (pstate s') = tables (pstate s) -> me (pstate s') = None ->
  (forall q, q <> p -> ended_at (pstate s') q = true -> ended_at (pstate s) q = true) -> (ended_at (pstate s') p = true -> forall f, uses [row_of s p] f = 0) -> fd_ok d s'.
Proof using.
  intros [H1 H2 HP H3 H4 H5 H6] Hl Hf G1 G2 G3 Hrow. split; rewrite ?G1, ?G2, ?Hf; [congruence|done|by rewrite (same_length _ _ G1)|done|done|intros f; unfold ref_of; rewrite Hf; apply H5|].
  intros q Hq f. unfold row_of. rewrite (same_row _ _ q G1). destruct (decide (q = p)) as [->|Hne]; [by apply Hrow|by apply (H6 q), G3].
Qed.
Lemma uses_none n f : uses [replicate n None] f = 0.
Proof using. rewrite uses_row. induction n as [|n IH]; [done|]. cbn [replicate]. by rewrite filter_cons_False by done. Qed.

Lemma same_fds_sched : pres same_fds sched.
Proof using. unfold sched. pres. Qed.
(** One more routine that keeps [same_files]. *)
Ltac past E HS := let u := fresh "v" in let x := fresh "z" in let Ex := fresh "E" in
  apply bind_inv in E as (u & x & Ex & E); apply by_pres in Ex; [apply (transitivity HS) in Ex; clear HS; rename Ex into HS|solve [pres]].
Lemma kexit_run s p status q s' : fd_inv s -> me (pstate s) = Some p -> kexit_out kbuf mypid status s = Ok q s' ->
  fd_inv s' /\ me (pstate s') = None /\ q = p /\ tables (pstate s') = <[p := replicate NOFILE None]> (tables (pstate s)).
Proof using.
  intros Ho Hm E. unfold kexit_out in E. rewrite (bind_ok _ _ _ _ _ (inproc_gets mine s)) in E. replace (mine (pstate s)) with p in E by (unfold mine; by rewrite Hm).
  apply bind_inv in E as (? & ? & [= <- <-] & E). case_decide; [discriminate|]. apply bind_inv in E as (u1 & s1 & E1 & E).
  destruct (close_fds_run p NOFILE 0 s u1 s1 Ho Hm eq_refl E1) as (K1 & M1 & T1).
  assert (S2 : same_files s1 s1) by reflexivity. do 11 past E S2. match type of S2 with same_files _ ?x => rename x into s2 end.
  pose proof (fd_ok_same _ _ _ K1 S2) as K2. pose proof (sl_fds _ _ S2) as [T2 M2 _]. rewrite M1 in M2.
  assert (Hp : (p < length (ps_proc (pstate s)))%nat) by (by apply (my_row _ s p Ho Hm)).
  assert (R2 : row_of s2 p = replicate NOFILE None) by (rewrite (row_same _ _ p S2); by apply (row_set s)).
  apply bind_inv in E as (u3 & s3 & (E3 & L3 & F3)%inproc_inv & E). apply (same_but_updproc p (set_p_state ZOMBIE)) in E3; [|by intros []].
  apply bind_inv in E as (u4 & s4 & (E4 & L4 & F4)%inproc_inv & E). apply same_fds_release_wait in E4. apply bind_inv in E as (u5 & s5 & (E5 & L5 & F5)%inproc_inv & E). apply same_fds_sched in E5.
  apply bind_inv in E as (u6 & s6 & (E6 & L6 & F6)%inproc_inv & [= <- <-]). apply scheduler_return_fds in E6 as (T6 & M6 & D6).
  pose proof (transitivity E3 (same_but_weaken p _ _ (transitivity E4 E5))) as [T5 M5 D5]. split_and!; [|done|done|rewrite T6, T5, T2; exact T1].
  apply (fd_ok_leaves _ s2 s6 p); [done|congruence|congruence|congruence|done| |]; [intros q Hq Hend; apply D5; [done|by apply D6]|]. intros _ f. rewrite R2. apply uses_none.
Qed.

(** ** Every system call *)

(** Reads and writes of devices do not touch descriptors. *)
Definition quiet_devices : Prop :=
  (forall major op, dev_read major = Some op -> forall u a n, pres same_fds (op u a n)) /\
  (forall major op, dev_write major = Some op -> forall u a n, pres same_fds (op u a n)).

Notation T := (sysst S).
Definition balanced (t : T) : Prop := fd_inv (sy_k t).
Definition running (t : T) (p : nat) : Prop := me (pstate (sy_k t)) = Some p.
Definition balances_sys {A} (m : M T A) : Prop := forall t p a t', balanced t -> running t p -> m t = Ok a t' -> balanced t' /\ running t' p.

Lemma balances_kern {A} (m : M K A) : balances m -> balances_sys (kern m).
Proof using. intros Hm t p a t' Ho Hp. unfold kern, zoom. destruct (m (sy_k t)) eqn:E; try discriminate. intros [= <- <-]. by apply (Hm (sy_k t) p a0). Qed.
Lemma balances_sys_bind {A B} (m : M T A) (k : A -> M T B) : balances_sys m -> (forall a, balances_sys (k a)) -> balances_sys (bind m k).
Proof using. intros Hm Hk t p b t' Ho Hp (a & t1 & E1 & E2)%bind_inv. destruct (Hm t p a t1 Ho Hp E1) as [Ho1 Hp1]. by apply (Hk a t1 p b). Qed.
Lemma balances_clock {A} (m : M T A) : (forall t a t', m t = Ok a t' -> sy_k t' = sy_k t) -> balances_sys m.
Proof using. intros Hm t p a t' Ho Hp E%Hm. unfold balanced, running. by rewrite E. Qed.

Definition same_kernel (t t' : T) : Prop := sy_k t' = sy_k t.
#[local] Instance same_kernel_pre : PreOrder same_kernel.
Proof. split; [done|]. intros t1 t2 t3 E1 E2. unfold same_kernel in *. congruence. Qed.
#[local] Hint Extern 2 (pres same_kernel (acquire tickslock _)) => apply pres_acquire; intros; exact eq_refl : pres.
#[local] Hint Extern 2 (pres same_kernel (release tickslock _)) => apply pres_release; intros; exact eq_refl : pres.
Lemma balances_uptime : balances_sys sys_uptime.
Proof using. apply balances_clock. change (pres same_kernel (sys_uptime (S := S))). unfold sys_uptime. pres. Qed.

Lemma same_files_killed : pres same_files (kenv (S := S) killed).
Proof using. apply same_files_kenv. apply pres_bind; [apply (pres_gets _)|intros p; apply same_fds_killed]. Qed.
Lemma balances_pause : balances_sys (sys_pause kbuf).
Proof using.
  unfold sys_pause. apply balances_sys_bind; [apply balances_kern, balances_same; pres|intros n]. cbn zeta. apply balances_sys_bind; [apply balances_clock; change (pres same_kernel (acquire (tickslock (S := S)) set_tickslock)); pres|intros _].
  apply balances_sys_bind; [apply balances_clock; change (pres same_kernel (gets (ticks (S := S)))); pres|intros t0]. intros t p a t' Ho Hp (r & t1 & E1 & E2)%bind_inv. destruct r as [v|]; [|discriminate]. injection E2 as _ <-.
  assert (Hrel : forall v0 : Z, balances_sys (release (tickslock (S := S)) set_tickslock ;;; ret (Some v0))) by (intros v0; apply balances_clock; match goal with |- forall t a t', ?m t = _ -> _ => change (pres same_kernel m) end; pres).
  revert E1. unfold pause_round. intros (now & ? & [= <- <-] & E1)%bind_inv. destruct (_ <? _); [|by eapply Hrel].
  apply bind_inv in E1 as (k & t2 & E2 & E1). destruct (balances_kern _ (balances_same _ same_files_killed) _ _ _ _ Ho Hp E2) as [Ho2 Hp2]. destruct k; [by eapply Hrel|].
  by apply bind_inv in E1 as (? & ? & _ & (? & ? & _ & ?)%bind_inv).
Qed.

Lemma balances_fork : balances (S := S) (kfork forkret).
Proof using. intros s p a s' Ho Hm E. by destruct (kfork_run s p a s' Ho Hm E) as (K1 & K2 & _). Qed.
Lemma balances_exit : balances (S := S) (sys_exit kbuf mypid).
Proof using. intros s p a s' Ho Hm (n & s1 & _ & (q & s2 & _ & E)%bind_inv)%bind_inv. discriminate. Qed.
Lemma balances_wait : balances (S := S) (sys_wait kbuf).
Proof using. apply balances_same. unfold sys_wait. pres. apply same_files_inproc, same_fds_kwait. Qed.

Lemma balances_call pad junk : quiet_devices -> Forall (fun o => forall call, o = Some call -> balances_sys call) (syscalls kbuf mypid forkret pad junk).
Proof using.
  intros [Hr Hw]. unfold syscalls. repeat apply List.Forall_cons; try apply List.Forall_nil; intros call [= <-].
  - exact (balances_kern _ balances_fork).
  - exact (balances_kern _ balances_exit).
  - exact (balances_kern _ balances_wait).
  - exact (balances_kern _ (balances_pipe kbuf mypid junk)).
  - exact (balances_kern _ (balances_same _ (same_files_read kbuf mypid Hr))).
  - exact (balances_kern _ (balances_same _ same_files_kill)).
  - exact (balances_kern _ (balances_same _ (same_files_exec kbuf mypid))).
  - exact (balances_kern _ (balances_same _ (same_files_fstat kbuf mypid pad))).
  - exact (balances_kern _ (balances_same _ (same_files_chdir kbuf mypid))).
  - exact (balances_kern _ balances_dup).
  - exact (balances_kern _ (balances_same _ same_files_getpid)).
  - exact (balances_kern _ (balances_same _ same_files_sbrk)).
  - exact balances_pause.
  - exact balances_uptime.
  - exact (balances_kern _ (balances_open kbuf mypid)).
  - exact (balances_kern _ (balances_same _ (same_files_write kbuf mypid Hw))).
  - exact (balances_kern _ (balances_same _ (same_files_mknod kbuf mypid))).
  - exact (balances_kern _ (balances_same _ (same_files_unlink kbuf mypid))).
  - exact (balances_kern _ (balances_same _ (same_files_link kbuf mypid))).
  - exact (balances_kern _ (balances_same _ (same_files_mkdir kbuf mypid))).
  - exact (balances_kern _ (balances_close kbuf mypid)).
Qed.

Lemma balances_trapframe off v : balances_sys (kern (S := S) (inproc (trapframe_set off v))).
Proof using. apply balances_kern, balances_same. pres. Qed.
Lemma balances_syscall pad junk : quiet_devices -> balances_sys (syscall kbuf mypid forkret pad junk).
Proof using.
  intros Hd. unfold syscall. apply balances_sys_bind; [apply balances_kern, balances_same, same_files_inproc; unfold trapframe_get; pres|intros num]. cbn zeta.
  destruct (_ && _); [|apply balances_trapframe]. destruct (syscalls kbuf mypid forkret pad junk !! Z.to_nat (i32 num)) as [[call|]|] eqn:E; cbn [from_option id]; [|apply balances_trapframe..].
  apply balances_sys_bind; [|intros v; apply balances_trapframe]. pose proof (balances_call pad junk Hd) as Hall. rewrite Forall_lookup in Hall. by apply (Hall _ _ E).
Qed.

(** ** The system *)

(** What happens on the processor: system calls that return, processes that
    exit or give it up, the scheduler's choices, wakeups and clock ticks from
    interrupts, the [exec] of the first program, and whatever user code does to
    memory and (through the trap frame) to registers.

    A call that waits for a child, for a pipe or for the clock is a sequence of
    steps: a round that ends in sleep ([sc_wait], [sc_pipe_write], [sc_pipe_read],
    [sc_pause]), a wakeup, the scheduler's choice, the return from [sleep]
    ([sc_woken]), the next round. The part of a device routine between two
    sleeps is [sc_device]. A call that uses the disk is a step when it does
    not have to wait, for the log, a buffer, an inode or the device. *)
Inductive sys_step : T -> T -> Prop :=
  | sc_call t t' p pad junk : running t p -> syscall kbuf mypid forkret pad junk t = Ok tt t' -> sys_step t t'
  | sc_exit t t' p q status : running t p -> kern (kexit_out kbuf mypid status) t = Ok q t' -> sys_step t t'
  | sc_yield t t' p : running t p -> kern (inproc yield_out) t = Ok tt t' -> sys_step t t'
  | sc_pick t t' p b : me (pstate (sy_k t)) = None -> kern (inproc (scheduler_visit p)) t = Ok b t' -> sys_step t t'
  | sc_resume t t' p : running t p -> kern (inproc yield_back) t = Ok tt t' -> sys_step t t'
  | sc_wakeup t t' c : kern (inproc (wakeup_procs c)) t = Ok tt t' -> sys_step t t'
  | sc_first t t' p path argv a : running t p -> kern (kexec kbuf mypid path argv) t = Ok a t' -> sys_step t t'
  | sc_user t t' (m : M memst unit) : kern (memory m) t = Ok tt t' -> sys_step t t'
  | sc_wait t t' p addr r : running t p -> kern (inproc (kwait_round kbuf addr)) t = Ok r t' -> sys_step t t'
  | sc_pipe_write t t' p pi addr n i g : running t p -> kern (pipes (pipewrite_from pi addr n i)) t = Ok g t' -> sys_step t t'
  | sc_pipe_read t t' p pi addr n g : running t p -> kern (pipes (piperead_from pi addr n)) t = Ok g t' -> sys_step t t'
  | sc_pause t t' p n ticks0 r : running t p -> (acquire tickslock set_tickslock ;;; pause_round kbuf n ticks0) t = Ok r t' -> sys_step t t'
  | sc_device t t' p (m : M pst unit) : running t p -> pres moves m -> kern (inproc m) t = Ok tt t' -> sys_step t t'
  | sc_woken t t' p : running t p -> kern (inproc (sleep_back (ret tt))) t = Ok tt t' -> sys_step t t'
  | sc_tick t : sys_step t (set_ticks t (u32 (ticks t + 1))).

Lemma kern_inv {A} (m : M K A) t a t' : kern m t = Ok a t' -> m (sy_k t) = Ok a (sy_k t').
Proof using. unfold kern, zoom. destruct (m (sy_k t)); try discriminate. by intros [= <- <-]. Qed.

Lemma balanced_same {A} (m : M K A) t a t' : balanced t -> pres same_files m -> kern m t = Ok a t' -> balanced t'.
Proof using. intros Ho Hm E%kern_inv%Hm. by eapply fd_ok_same. Qed.

(** Parts of calls, which may end in sleep. *)
Lemma fd_ok_moves d s s' : fd_ok d s -> ft_lock s' = ft_lock s -> ft_file s' = ft_file s -> moves (pstate s) (pstate s') -> fd_ok d s'.
Proof using.
  intros Ho Hl Hf [T1 [M1|M1] D1].
  - apply (fd_ok_same _ s); [done|]. split; [done|by rewrite Hf|intros f; unfold ref_of; by rewrite Hf|by split].
  - apply (fd_ok_leaves _ s s' 0); [done..|auto|]. intros He f. apply (fo_ended _ _ Ho). auto.
Qed.
Lemma balanced_moves {A} (m : M pst A) t a t' : balanced t -> pres moves m -> kern (inproc m) t = Ok a t' -> balanced t'.
Proof using. intros Ho Hm (E%Hm & El & Ef)%kern_inv%inproc_inv. by apply (fd_ok_moves _ (sy_k t)). Qed.
Lemma balanced_pipes {A} (m : M (pipest pst) A) t a t' : balanced t -> pres env_moves m -> kern (pipes m) t = Ok a t' -> balanced t'.
Proof using.
  intros Ho Hm E%kern_inv. revert E. unfold pipes, zoom. destruct (m (pipe_view (sy_k t))) as [? s'| | |] eqn:E; try discriminate. intros [= _ Es]. apply Hm in E.
  apply (fd_ok_moves _ (sy_k t)); [done|by rewrite <- Es..|]. rewrite <- Es. exact E.
Qed.
Lemma balanced_pause n ticks0 t r t' : balanced t -> (acquire tickslock set_tickslock ;;; pause_round kbuf n ticks0) t = Ok r t' -> balanced t'.
Proof using.
  intros Ho (u1 & t1 & E1 & (now & ? & [= <- <-] & E)%bind_inv)%bind_inv. assert (K1 : same_kernel t t1) by (revert E1; apply pres_acquire; by intros).
  assert (Ho1 : balanced t1) by (unfold balanced; by rewrite K1). assert (Hrel : forall t2 u t3, balanced t2 -> release (tickslock (S := S)) set_tickslock t2 = Ok u t3 -> balanced t3).
  { intros t2 u t3 Ho2 E2. assert (K2 : same_kernel t2 t3) by (revert E2; apply pres_release; by intros). unfold balanced. by rewrite K2. }
  destruct (_ <? _); [|by apply bind_inv in E as (u2 & t2 & E2 & [= _ <-]); eapply Hrel].
  apply bind_inv in E as (k & t2 & E2 & E). apply (balanced_same _ _ _ _ Ho1 same_files_killed) in E2. destruct k; apply bind_inv in E as (u3 & t3 & E3 & E); apply (Hrel _ _ _ E2) in E3; [by injection E as _ <-|].
  apply bind_inv in E as (u4 & t4 & E4 & [= _ <-]). refine (balanced_moves _ _ _ _ E3 _ E4). apply pres_modify. intros P. apply moves_park.
Qed.

(** Giving up the processor, and taking it. *)
Lemma moves_yield : pres moves yield_out.
Proof using. unfold yield_out, sched. do 4 (apply pres_bind; [apply pres_moves; solve [pres]|intros ?]). apply moves_return. Qed.
Lemma balanced_pick t t' p b : balanced t -> me (pstate (sy_k t)) = None -> kern (inproc (scheduler_visit p)) t = Ok b t' -> balanced t'.
Proof using.
  intros Ho Hn (E & El & Ef)%kern_inv%inproc_inv. unfold scheduler_visit in E. apply bind_inv in E as (u1 & P1 & E1 & E). apply same_fds_acquire in E1. apply bind_inv in E as (? & ? & [= <- <-] & E). case_decide as Hr.
  - apply bind_inv in E as (u2 & P2 & E2 & E). assert (Hp : (p < length (ps_proc P1))%nat).
    { destruct (decide (p < length (ps_proc P1))%nat) as [|Hge]; [done|]. unfold getproc in Hr. by rewrite lookup_ge_None_2 in Hr by lia. }
    assert (He : ended_at P2 p = false) by (injection E2 as _ <-; unfold ended_at; rewrite getproc_upd, decide_True by done; by destruct (getproc P1 p)).
    apply (same_fds_updproc p (set_p_state RUNNING)) in E2; [|by intros []|by intros []]. pose proof (transitivity E1 E2) as [T2 M2 D2]. apply bind_inv in E as (u3 & P3 & [= _ <-] & [= _ Eq]).
    assert (Ep : ps_proc (pstate (sy_k t')) = ps_proc P2) by (by rewrite <- Eq). assert (Et : tables (pstate (sy_k t')) = tables P2) by (unfold tables; by rewrite Ep).
    assert (Ee : forall q, ended_at (pstate (sy_k t')) q = ended_at P2 q) by (intros q; unfold ended_at, getproc; by rewrite Ep).
    destruct Ho as [H1 H2 HP H3 H4 H5 H6]. split; rewrite ?Et, ?T2, ?Ef; [congruence|done|by rewrite Ep, (same_length _ _ T2)|done| |intros f; unfold ref_of; rewrite Ef; apply H5|].
    + intros q Hq. rewrite <- Eq in Hq. injection Hq as <-. rewrite Ep, Ee. split; [|done]. rewrite (same_length _ _ T2), <- (same_length _ _ (sf_tables _ _ E1)). done.
    + intros q Hq f. rewrite Ee in Hq. unfold row_of. rewrite (same_row P2 _ q Et), (same_row _ _ q T2). by apply (H6 q), D2.
  - eapply (fd_ok_same _ (sy_k t)); [done|]. split; [done|by rewrite Ef|intros f; unfold ref_of; by rewrite Ef|]. etransitivity; [exact E1|].
    apply bind_inv in E as (u2 & P2 & E2 & [= _ <-]). by apply same_fds_release in E2.
Qed.

Lemma balanced_step t t' : quiet_devices -> sys_step t t' -> balanced t -> balanced t'.
Proof using.
  intros Hd [t1 t2 p pad junk Hp E|t1 t2 p q st Hp E|t1 t2 p Hp E|t1 t2 p b Hn E|t1 t2 p Hp E|t1 t2 c E|t1 t2 p path argv a Hp E|t1 t2 m E|t1 t2 p addr r Hp E|t1 t2 p pi addr n i g Hp E|t1 t2 p pi addr n g Hp E|t1 t2 p n t0 r Hp E|t1 t2 p m Hp Hm E|t1 t2 p Hp E|t1] Ho.
  - by destruct (balances_syscall pad junk Hd t1 p tt t2 Ho Hp E).
  - apply kern_inv in E. by destruct (kexit_run _ p st q _ Ho Hp E).
  - exact (balanced_moves _ _ _ _ Ho moves_yield E).
  - by apply (balanced_pick t1 t2 p b).
  - refine (balanced_same _ _ _ _ Ho _ E). apply same_files_inproc. unfold yield_back. pres.
  - refine (balanced_same _ _ _ _ Ho _ E). pres.
  - exact (balanced_same _ _ _ _ Ho (same_files_kexec kbuf mypid path argv) E).
  - exact (balanced_same _ _ _ _ Ho (same_files_memory m) E).
  - exact (balanced_moves _ _ _ _ Ho (moves_wait kbuf addr) E).
  - exact (balanced_pipes _ _ _ _ Ho (env_moves_write kbuf pi addr n i) E).
  - exact (balanced_pipes _ _ _ _ Ho (env_moves_read kbuf pi addr n) E).
  - exact (balanced_pause _ _ _ _ _ Ho E).
  - exact (balanced_moves _ _ _ _ Ho Hm E).
  - refine (balanced_same _ _ _ _ Ho _ E). apply same_files_inproc. unfold sleep_back. pres.
  - exact Ho.
Qed.

Lemma balanced_run t t' : quiet_devices -> rtc sys_step t t' -> balanced t -> balanced t'.
Proof using. intros Hd Hs. induction Hs as [|t1 t2 t3 Hst _ IH]; [done|]. intros Ho. apply IH. by apply (balanced_step t1). Qed.

(** No file is open and no process runs: the state the kernel starts from. *)
Record no_files (t : T) : Prop := {
  nf_lock : ft_lock (sy_k t) = false;
  nf_len : length (ft_file (sy_k t)) = NFILE;
  nf_free : Forall (fun x => f_ref x = 0) (ft_file (sy_k t));
  nf_tables : tables (pstate (sy_k t)) = replicate nproc (replicate NOFILE None);
  nf_me : me (pstate (sy_k t)) = None
}.
Lemma no_files_balanced t : no_files t -> balanced t.
Proof using.
  intros [H1 H2 H3 H4 H5]. assert (Hu : forall f, uses (tables (pstate (sy_k t))) f = 0).
  { intros f. rewrite H4. generalize nproc. intros n. induction n as [|n IH]; [done|]. cbn [replicate]. by rewrite uses_cons, uses_none, IH. }
  split; [done|done| |rewrite H4; apply Forall_replicate; by rewrite length_replicate|by rewrite H5| |].
  - apply (f_equal length) in H4. unfold tables in H4. by rewrite length_fmap, length_replicate in H4.
  - intros f. rewrite Hu. unfold none_held, ref_of. destruct (ft_file (sy_k t) !! f) as [x|] eqn:E; [|done]. rewrite Forall_lookup in H3. cbn. by rewrite (H3 f x E).
  - intros p _ f. unfold row_of, getproc. destruct (ps_proc (pstate (sy_k t)) !! p) as [x|] eqn:E; cbn [from_option]; [|done].
    assert (Ex : tables (pstate (sy_k t)) !! p = Some (p_ofile x)) by (unfold tables; by rewrite list_lookup_fmap, E). rewrite H4 in Ex. apply lookup_replicate in Ex as [Ex _]. unfold id. rewrite Ex. apply uses_none.
Qed.

(** C6. Reference counts are right. From a kernel with no open file, and for
    any sequence of the steps of [sys_step] (system calls, exits, switches,
    clock ticks and changes of user memory; calls that wait for a child, a pipe,
    the clock or a device, asleep and woken; calls on the disk that need not
    wait for it), the reference count of every open file is the number of
    descriptors, of all processes, that name it: a file that some process has
    open is never taken for free, a file that nobody has open never stays in
    use, processes that ended hold nothing, and [dup] never panics. *)
Theorem fd_reference_counts t t' : quiet_devices -> no_files t -> rtc sys_step t t' ->
  (forall f, ref_of (sy_k t') f = uses (tables (pstate (sy_k t'))) f) /\
  (forall p i f, row_of (sy_k t') p !! i = Some (Some f) -> 1 <= ref_of (sy_k t') f) /\
  (forall p i x, ended_at (pstate (sy_k t')) p = true -> row_of (sy_k t') p !! i = Some x -> x = None) /\
  (forall p, running t' p -> exists a k, sys_dup (sy_k t') = Ok a k).
Proof using.
  intros Hd Hn Hs. pose proof (balanced_run t t' Hd Hs (no_files_balanced t Hn)) as Ho. split_and!.
  - intros f. rewrite (fo_refs _ _ Ho). unfold none_held. lia.
  - intros p i f Hi. apply (used_ref none_held (sy_k t') p i f Ho); [|done|done]. unfold row_of, getproc in Hi. destruct (ps_proc (pstate (sy_k t')) !! p) eqn:E; [by eapply lookup_lt_Some|]. by apply lookup_replicate in Hi as [? _].
  - intros p i x He. apply empty_row, (fo_ended _ _ Ho p He).
  - intros p Hp. pose proof (sys_dup_run (sy_k t') p Ho Hp) as Hr. destruct (fd_file _ _); [destruct Hr as [(i & k & _ & E & _)|[_ E]]|]; eauto.
Qed.
End calls.

(** ** Example: [pipe], then [dup], then a read that waits *)

Section example.
#[local] Instance fd_img : KernelImage := demo_img 4.
#[local] Instance fd_io : BlockIO (logst ramdisk_st) nat := log_io 1.
#[local] Instance fd_devices : DevSw pst := {| dev_read := fun _ => None; dev_write := fun _ => None |}.

(** One runnable process with one page of memory, about to call [pipe], and one
    free page. *)
Definition fd_pte (pa flags : Z) : Z := Z.lor (Z.shiftl (Z.shiftr pa 12) 10) flags.
Definition fd_ram : ram :=
  st64 (st64 (st64 (st64 (st64 (st64 ∅ 0x81000000 (fd_pte 0x81001000 PTE_V)) 0x81001000 (fd_pte 0x81002000 PTE_V))
    0x81002000 (fd_pte 0x81003000 (Z.lor PTE_V (Z.lor PTE_R (Z.lor PTE_W PTE_U))))) (0x81004000 + TF_A7) 4) (0x81004000 + TF_A0) 16) 0x81005000 0.
Definition fd_first : proc := set_p_state RUNNABLE (set_p_sz 4096 (set_p_pagetable 0x81000000 (set_p_trapframe 0x81004000 proc0))).
Definition fd_start : sysst (logst ramdisk_st) :=
  mk_sys (mk_kst (mk_fs (mk_log false 0 0 false 0 0 [] bio0) (mk_pst (mk_memst fd_ram false 0x81005000) (fd_first :: replicate 63 proc0) false false 2 (Some 0%nat) None)
    false [] (mk_sb 0 0 0 0 0 0 0 0)) ∅ false (replicate NFILE file0)) 0 false.
Definition after {S A} (m : M S A) (s : S) : S := match m s with Ok _ s' => s' | _ => s end.
Definition returns {S A} (m : M S A) (s : S) : bool := match m s with Ok _ _ => true | _ => false end.
Lemma after_ok {S} (m : M S unit) s : returns m s = true -> m s = Ok tt (after m s).
Proof. unfold returns, after. destruct (m s) as [[] | | |]; done. Qed.

Definition fd_chosen := after (kern (inproc (scheduler_visit 0))) fd_start.
Definition fd_picked := after (kern (inproc yield_back)) fd_chosen.
Definition fd_piped := after (syscall 0x82000000 1 0 [] (fun _ => [])) fd_picked.
Definition fd_set_a7 : M memst unit := store (fun m => st64 (st64 m (0x81004000 + TF_A7) 10) (0x81004000 + TF_A0) 0).
Definition fd_asked := after (kern (memory fd_set_a7)) fd_piped.
Definition fd_dupped := after (syscall 0x82000000 1 0 [] (fun _ => [])) fd_asked.

(** It reads from the empty pipe and sleeps; a wakeup makes it run again. *)
Definition fd_asleep := after (kern (pipes (piperead_from (env := proc_env 0x82000000) 0x81005000 64 1))) fd_dupped.
Definition fd_woken := after (kern (inproc (wakeup_procs (ChPipeR 0x81005000)))) fd_asleep.
Definition fd_again := after (kern (inproc (scheduler_visit 0))) fd_woken.
Definition fd_back := after (kern (inproc (sleep_back (ret tt)))) fd_again.

Lemma fd_run : rtc (sys_step 0x82000000 1 0) fd_start fd_dupped.
Proof.
  assert (H0 : sys_step 0x82000000 1 0 fd_start fd_chosen) by (apply (sc_pick _ _ _ fd_start fd_chosen 0 true); [done|vm_compute; reflexivity]).
  assert (H1 : sys_step 0x82000000 1 0 fd_chosen fd_picked) by (apply (sc_resume _ _ _ fd_chosen fd_picked 0); [vm_compute; reflexivity|unfold fd_picked; apply after_ok; vm_compute; reflexivity]).
  assert (H2 : sys_step 0x82000000 1 0 fd_picked fd_piped) by (apply (sc_call _ _ _ fd_picked fd_piped 0 [] (fun _ => [])); [vm_compute; reflexivity|unfold fd_piped; apply after_ok; vm_compute; reflexivity]).
  assert (H3 : sys_step 0x82000000 1 0 fd_piped fd_asked) by (apply (sc_user _ _ _ fd_piped fd_asked fd_set_a7); unfold fd_asked; apply after_ok; vm_compute; reflexivity).
  assert (H4 : sys_step 0x82000000 1 0 fd_asked fd_dupped) by (apply (sc_call _ _ _ fd_asked fd_dupped 0 [] (fun _ => [])); [vm_compute; reflexivity|unfold fd_dupped; apply after_ok; vm_compute; reflexivity]).
  exact (rtc_l _ _ _ _ H0 (rtc_l _ _ _ _ H1 (rtc_l _ _ _ _ H2 (rtc_l _ _ _ _ H3 (rtc_once _ _ H4))))).
Qed.
Lemma after_any {S A} (m : M S A) s : returns m s = true -> exists a, m s = Ok a (after m s).
Proof. unfold returns, after. destruct (m s) as [a | | |]; [by exists a|done..]. Qed.
Lemma fd_waits : rtc (sys_step 0x82000000 1 0) fd_dupped fd_back.
Proof.
  assert (H1 : sys_step 0x82000000 1 0 fd_dupped fd_asleep).
  { destruct (after_any (kern (pipes (piperead_from (env := proc_env 0x82000000) 0x81005000 64 1))) fd_dupped) as [g E]; [vm_compute; reflexivity|].
    refine (sc_pipe_read _ _ _ _ _ 0 _ _ _ _ _ E). vm_compute; reflexivity. }
  assert (H2 : sys_step 0x82000000 1 0 fd_asleep fd_woken) by (apply (sc_wakeup _ _ _ fd_asleep fd_woken (ChPipeR 0x81005000)); unfold fd_woken; apply after_ok; vm_compute; reflexivity).
  assert (H3 : sys_step 0x82000000 1 0 fd_woken fd_again).
  { destruct (after_any (kern (inproc (scheduler_visit 0))) fd_woken) as [b E]; [vm_compute; reflexivity|]. refine (sc_pick _ _ _ _ _ 0 b _ E). vm_compute; reflexivity. }
  assert (H4 : sys_step 0x82000000 1 0 fd_again fd_back) by (apply (sc_woken _ _ _ fd_again fd_back 0); [vm_compute; reflexivity|unfold fd_back; apply after_ok; vm_compute; reflexivity]).
  exact (rtc_l _ _ _ _ H1 (rtc_l _ _ _ _ H2 (rtc_l _ _ _ _ H3 (rtc_once _ _ H4)))).
Qed.
Lemma fd_start_no_files : no_files fd_start.
Proof. split; [done|done|by apply Forall_replicate|by vm_compute|done]. Qed.
Lemma fd_quiet : quiet_devices.
Proof. by split. Qed.

Lemma fd_reference_counts_witness : me (pstate (sy_k fd_asleep)) = None /\ ref_of (sy_k fd_back) 0 = 2 /\ row_of (sy_k fd_back) 0 = [Some 0; Some 1; Some 0]%nat ++ replicate 13 None /\
  (forall f, ref_of (sy_k fd_back) f = uses (tables (pstate (sy_k fd_back))) f).
Proof. split; [by vm_compute|]. split; [by vm_compute|]. split; [by vm_compute|]. apply (fd_reference_counts 0x82000000 1 0 fd_start fd_back fd_quiet fd_start_no_files (transitivity fd_run fd_waits)). Defined.
End example.
