(* ===== verification/Console.v ===== *)
(** * The console and the uart (kernel/console.c, kernel/uart.c)

    The uart is what the driver sees of it: the bytes written to THR, the
    bytes waiting in its receive FIFO, for how many more reads of LSR it will
    be busy with the last byte, and the writes to its control registers. The
    device takes its own time for each byte it is given, and gets done with it.
    Reads and writes of processes run in segments that end by returning or
    by going to sleep. *)

From stdpp Require Import base gmap list numbers strings.
From Stdlib Require Import ZArith Lia.
From S2P Require Import Prelude Spinlock BlockIO ProcEnv Printf.
Open Scope Z_scope.
Open Scope kernel_scope.

Definition INPUT_BUF_SIZE : Z := 128.
Definition NL : Z := 10.
Definition CR : Z := 13.
(** C('D'), C('H'), C('P'), C('U') and delete *)
Definition CTRL_D : Z := 4.
Definition CTRL_H : Z := 8.
Definition CTRL_P : Z := 16.
Definition CTRL_U : Z := 21.
Definition DEL : Z := 127.

(** struct cons *)
Record cons := mk_cons { c_lock : bool; c_buf : list Z; c_r : Z; c_w : Z; c_e : Z }.
Definition cons0 : cons := mk_cons false (replicate (Z.to_nat INPUT_BUF_SIZE) 0) 0 0 0.
(** The driver's variables and the device: [u_delay k] is the time the
    device takes for byte [k], [u_left] what is left of it for the last one. *)
Record uart := mk_uart {
  tx_lock : bool; tx_busy : bool; u_out : list Z; u_rx : list Z; u_left : nat; u_delay : nat -> nat; u_ctl : list (Z * Z) }.
Definition uart0 : uart := mk_uart false false [] [] 0 (fun k => k mod 3)%nat [].

Record consst (U : Type) := mk_consst { cs_env : U; cs_cons : cons; cs_uart : uart }.
Arguments mk_consst {U} _ _ _.
Arguments cs_env {U} _.
Arguments cs_cons {U} _.
Arguments cs_uart {U} _.

(** How a segment of a read ends: a return value, or the count and address
    it goes on with after the [sleep]. A write that sleeps also has the rest
    of its buffer. *)
Inductive rseg := RDone (v : Z) | RWaits (n dst : Z).
Inductive wseg := WDone (v : Z) | WWaits (i : Z) (rest : list Z).

Section console_c.
Context {U : Type} {env : ProcEnv U} (dump : U -> list Z).
Notation CS := (consst U).
Implicit Types (s : CS) (n dst c : Z).

Definition set_cs_env s (u : U) : CS := mk_consst u (cs_cons s) (cs_uart s).
Definition set_cons s (x : cons) : CS := mk_consst (cs_env s) x (cs_uart s).
Definition set_uart s (x : uart) : CS := mk_consst (cs_env s) (cs_cons s) x.
Definition cenv {A} (m : M U A) : M CS A := zoom cs_env set_cs_env m.
Definition updc (f : cons -> cons) : M CS unit := modify (fun s => set_cons s (f (cs_cons s))).
Definition clock s : bool := c_lock (cs_cons s).
Definition set_clock s (b : bool) : CS :=
  let x := cs_cons s in set_cons s (mk_cons b (c_buf x) (c_r x) (c_w x) (c_e x)).
Definition tlock s : bool := tx_lock (cs_uart s).
Definition set_tlock s (b : bool) : CS :=
  let x := cs_uart s in set_uart s (mk_uart b (tx_busy x) (u_out x) (u_rx x) (u_left x) (u_delay x) (u_ctl x)).

(** [WriteReg(THR, c)] *)
Definition write_thr c : M CS unit := modify (fun s =>
  let x := cs_uart s in
  set_uart s (mk_uart (tx_lock x) (tx_busy x) (u_out x ++ [u8 c]) (u_rx x) (u_delay x (length (u_out x))) (u_delay x) (u_ctl x))).
Definition set_tx_busy (b : bool) : M CS unit := modify (fun s =>
  let x := cs_uart s in set_uart s (mk_uart (tx_lock x) b (u_out x) (u_rx x) (u_left x) (u_delay x) (u_ctl x))).

(** [ReadReg(LSR)]: the bits LSR_TX_IDLE and LSR_RX_READY. Time passes for
    the device with each read. *)
Definition read_lsr : M CS (bool * bool) :=
  x <- gets cs_uart ;;
  modify (fun s => set_uart s (mk_uart (tx_lock x) (tx_busy x) (u_out x) (u_rx x) (pred (u_left x)) (u_delay x) (u_ctl x))) ;;;
  ret ((u_left x =? 0)%nat, negb (bool_decide (u_rx x = []))).

(** [while((ReadReg(LSR) & LSR_TX_IDLE) == 0)] *)
Fixpoint wait_tx_idle (fuel : nat) : M CS unit :=
  match fuel with
  | O => no_fuel
  | S k =>
      lsr <- read_lsr ;;
      if fst lsr : bool then ret tt else wait_tx_idle k
  end.

(** [uartputc_sync] when no hart has panicked: it waits until the uart is
    idle and sends. [consputc] sends the bytes of [Printf.consputc]. *)
Definition uartputc_sync c : M CS unit :=
  x <- gets cs_uart ;;
  wait_tx_idle (S (u_left x)) ;;;
  write_thr c.
Definition cons_putc c : M CS unit := for_all (consputc c) uartputc_sync.

(** [cons.e--] *)
Definition dec_e (x : cons) : cons := mk_cons (c_lock x) (c_buf x) (c_r x) (c_w x) (u32 (c_e x - 1)).
(** [cons.buf[cons.e++ % INPUT_BUF_SIZE] = c] *)
Definition push_e c (x : cons) : cons :=
  mk_cons (c_lock x) (setz (c_buf x) (c_e x mod INPUT_BUF_SIZE) c) (c_r x) (c_w x) (u32 (c_e x + 1)).
Definition commit_w (x : cons) : cons := mk_cons (c_lock x) (c_buf x) (c_r x) (c_e x) (c_e x).
Definition set_r (v : Z) (x : cons) : cons := mk_cons (c_lock x) (c_buf x) v (c_w x) (c_e x).

(** The loop of ^U: at most the buffer is erased. *)
Fixpoint kill_line (fuel : nat) : M CS unit :=
  match fuel with
  | O => no_fuel
  | S k =>
      x <- gets cs_cons ;;
      if negb (c_e x =? c_w x) && negb (nthz (c_buf x) (u32 (c_e x - 1) mod INPUT_BUF_SIZE) =? NL) then
        updc dec_e ;;;
        cons_putc BACKSPACE ;;;
        kill_line k
      else ret tt
  end.

Definition consoleintr c : M CS unit :=
  acquire clock set_clock ;;;
  (if c =? CTRL_P then
     s <- get ;; for_all (dump (cs_env s)) cons_putc
   else if c =? CTRL_U then kill_line (S (Z.to_nat INPUT_BUF_SIZE))
   else if (c =? CTRL_H) || (c =? DEL) then
     x <- gets cs_cons ;;
     when (negb (c_e x =? c_w x)) (updc dec_e ;;; cons_putc BACKSPACE)
   else
     x <- gets cs_cons ;;
     when (negb (c =? 0) && (u32 (c_e x - c_r x) <? INPUT_BUF_SIZE)) (
       let c := if c =? CR then NL else c in
       cons_putc c ;;;
       updc (push_e c) ;;;
       x <- gets cs_cons ;;
       when ((c =? NL) || (c =? CTRL_D) || (u32 (c_e x - c_r x) =? INPUT_BUF_SIZE)) (
         updc commit_w ;;;
         cenv (wakeup ChCons)))) ;;;
  release clock set_clock.

(** [consoleread] of a process: [target] bytes were asked for, [n] are left. *)
Fixpoint consoleread_loop (fuel : nat) (target n dst : Z) : M CS rseg :=
  match fuel with
  | O => no_fuel
  | S k =>
      if 0 <? n then
        x <- gets cs_cons ;;
        if c_r x =? c_w x then
          d <- cenv killed ;;
          if d : bool then release clock set_clock ;;; ret (RDone (-1))
          else
            release clock set_clock ;;;
            cenv (modify (park ChCons)) ;;;
            ret (RWaits n dst)
        else
          let c := nthz (c_buf x) (c_r x mod INPUT_BUF_SIZE) in
          updc (set_r (u32 (c_r x + 1))) ;;;
          if c =? CTRL_D then
            when (n <? target) (updc (set_r (c_r x))) ;;;
            release clock set_clock ;;; ret (RDone (target - n))
          else
            ok <- cenv (u_copyout dst [c]) ;;
            if negb ok then release clock set_clock ;;; ret (RDone (target - n))
            else if c =? NL then release clock set_clock ;;; ret (RDone (target - (n - 1)))
            else consoleread_loop k target (n - 1) (u64 (dst + 1))
      else release clock set_clock ;;; ret (RDone (target - n))
  end.
Definition consoleread_from (target n dst : Z) : M CS rseg :=
  acquire clock set_clock ;;;
  consoleread_loop (S (Z.to_nat n)) target n dst.
Definition consoleread (dst n : Z) : M CS Z :=
  g <- consoleread_from n n dst ;;
  match g with RDone v => ret v | RWaits _ _ => sleep_on ChCons end.

(** [uartwrite]: [None] when all of [buf] is sent, or the rest of it when the
    uart is busy and the process is now asleep. *)
Fixpoint uartwrite_loop (buf : list Z) : M CS (option (list Z)) :=
  match buf with
  | [] => release tlock set_tlock ;;; ret None
  | c :: buf' =>
      x <- gets cs_uart ;;
      if tx_busy x then
        release tlock set_tlock ;;;
        cenv (modify (park ChUartTx)) ;;;
        ret (Some buf)
      else
        write_thr c ;;;
        set_tx_busy true ;;;
        uartwrite_loop buf'
  end.
Definition uartwrite (buf : list Z) : M CS (option (list Z)) :=
  acquire tlock set_tlock ;;;
  uartwrite_loop buf.

(** [consolewrite] at byte [i], with what is left of its 32-byte buffer. *)
Fixpoint consolewrite_loop (fuel : nat) (src n i : Z) : M CS wseg :=
  if i <? n then
    match fuel with
    | O => no_fuel
    | S k =>
        let nn := Z.min 32 (n - i) in
        r <- cenv (u_copyin (u64 (src + i)) nn) ;;
        if negb (snd r) then ret (WDone i)
        else
          w <- uartwrite (fst r) ;;
          match w with
          | Some rest => ret (WWaits (i + nn) rest)
          | None => consolewrite_loop k src n (i + nn)
          end
    end
  else ret (WDone i).
Definition consolewrite_from (src n i : Z) (rest : list Z) : M CS wseg :=
  w <- uartwrite rest ;;
  match w with
  | Some rest => ret (WWaits i rest)
  | None => consolewrite_loop (Z.to_nat n) src n i
  end.
Definition consolewrite (src n : Z) : M CS Z :=
  g <- consolewrite_loop (Z.to_nat n) src n 0 ;;
  match g with WDone v => ret v | WWaits _ _ => sleep_on ChUartTx end.

(** [-1] when nothing is waiting. *)
Definition uartgetc : M CS Z :=
  lsr <- read_lsr ;;
  if snd lsr : bool then
    x <- gets cs_uart ;;
    (* RHR *)
    modify (fun s => set_uart s (mk_uart (tx_lock x) (tx_busy x) (u_out x) (tail (u_rx x)) (u_left x) (u_delay x) (u_ctl x))) ;;;
    ret (nthz (u_rx x) 0)
  else ret (-1).

Fixpoint uart_input (fuel : nat) : M CS unit :=
  match fuel with
  | O => no_fuel
  | S k =>
      c <- uartgetc ;;
      if c =? -1 then ret tt else consoleintr c ;;; uart_input k
  end.

Definition uartintr : M CS unit :=
  acquire tlock set_tlock ;;;
  lsr <- read_lsr ;;
  when (fst lsr) (set_tx_busy false ;;; cenv (wakeup ChUartTx)) ;;;
  release tlock set_tlock ;;;
  x <- gets cs_uart ;;
  uart_input (S (length (u_rx x))).

Definition IER : Z := 1.
Definition FCR : Z := 2.
Definition LCR : Z := 3.
Definition WriteReg (reg v : Z) : M CS unit := modify (fun s =>
  let x := cs_uart s in set_uart s (mk_uart (tx_lock x) (tx_busy x) (u_out x) (u_rx x) (u_left x) (u_delay x) (u_ctl x ++ [(reg, v)]))).
Definition uartinit : M CS unit :=
  WriteReg IER 0x00 ;;;
  WriteReg LCR (Z.shiftl 1 7) ;;;
  WriteReg 0 0x03 ;;;
  WriteReg 1 0x00 ;;;
  WriteReg LCR (Z.shiftl 3 0) ;;;
  WriteReg FCR (Z.lor (Z.shiftl 1 0) (Z.shiftl 3 1)) ;;;
  WriteReg IER (Z.lor (Z.shiftl 1 1) (Z.shiftl 1 0)) ;;;
  modify (fun s => set_tlock s false).
Definition consoleinit : M CS unit :=
  modify (fun s => set_clock s false) ;;;
  uartinit.
End console_c.
