(* ===== verification/ConsoleSpec.v ===== *)
(** * The console is a line editor

    The input buffer holds the lines that were finished and not yet read,
    followed by the line being typed; the three indices wrap at 2^32. *)

From stdpp Require Import base gmap list numbers strings.
From Stdlib Require Import ZArith Lia.
From S2P Require Import Prelude Spinlock BlockIO ProcEnv Printf Console.
Open Scope Z_scope.
Open Scope kernel_scope.

Definition cell (x : cons) (k : Z) : Z := nthz (c_buf x) ((c_r x + k) mod INPUT_BUF_SIZE).
Definition held (x : cons) : Z := u32 (c_e x - c_r x).
Definition done_len (x : cons) : Z := u32 (c_w x - c_r x).
Definition all_input (x : cons) : list Z := map (cell x) (seqZ 0 (held x)).
(** The finished lines, and the line being typed. *)
Definition finished (x : cons) : list Z := take (Z.to_nat (done_len x)) (all_input x).
Definition typing (x : cons) : list Z := drop (Z.to_nat (done_len x)) (all_input x).

Record cons_core (x : cons) : Prop := {
  cw_buf : length (c_buf x) = Z.to_nat INPUT_BUF_SIZE;
  cw_r : 0 <= c_r x < 2 ^ 32;
  cw_w : 0 <= c_w x < 2 ^ 32;
  cw_e : 0 <= c_e x < 2 ^ 32;
  cw_held : done_len x <= held x <= INPUT_BUF_SIZE
}.

(** What a typed character does to the finished lines and the current one. *)
Definition edit (st : list Z * list Z) (c : Z) : list Z * list Z :=
  let '(q, l) := st in
  if c =? CTRL_P then (q, l)
  else if c =? CTRL_U then (q, [])
  else if (c =? CTRL_H) || (c =? DEL) then (q, removelast l)
  else if negb (c =? 0) && (Z.of_nat (length q + length l) <? INPUT_BUF_SIZE) then
    let c := if c =? CR then NL else c in
    if (c =? NL) || (c =? CTRL_D) || (Z.of_nat (length q + length l) + 1 =? INPUT_BUF_SIZE)
    then (q ++ l ++ [c], []) else (q, l ++ [c])
  else (q, l).

Ltac cons_arith := unfold held, done_len, u32, INPUT_BUF_SIZE in *; change (2 ^ 32) with 4294967296 in *; dlia.

Lemma held_nonneg x : 0 <= held x.
Proof. apply u32_range. Qed.
Lemma done_nonneg x : 0 <= done_len x.
Proof. apply u32_range. Qed.
Lemma length_input x : Z.of_nat (length (all_input x)) = held x.
Proof. unfold all_input. rewrite length_map, length_seqZ. pose proof (held_nonneg x). lia. Qed.

Lemma length_parts x : cons_core x -> Z.of_nat (length (finished x)) = done_len x /\ Z.of_nat (length (typing x)) = held x - done_len x /\
  all_input x = finished x ++ typing x.
Proof.
  intros Hw. pose proof (cw_held x Hw). pose proof (done_nonneg x). pose proof (length_input x). unfold finished, typing.
  rewrite length_take, length_drop, take_drop. split_and!; [lia|lia|done].
Qed.

Lemma line_empty x : cons_core x -> (c_e x =? c_w x) = (held x =? done_len x).
Proof.
  intros [_ H1 H2 H3 H4]. destruct (Z.eqb_spec (c_e x) (c_w x)), (Z.eqb_spec (held x) (done_len x)); try done; exfalso; cons_arith.
Qed.

Lemma line_nil x : cons_core x -> (c_e x =? c_w x) = match typing x with [] => true | _ => false end.
Proof.
  intros Hw. rewrite line_empty by done. destruct (length_parts x Hw) as (_ & L & _).
  destruct (typing x), (Z.eqb_spec (held x) (done_len x)); cbn in L; done || lia.
Qed.

Lemma push_held x c : cons_core x -> held x < INPUT_BUF_SIZE -> held (push_e c x) = held x + 1 /\ done_len (push_e c x) = done_len x.
Proof. intros [_ H1 H2 H3 H4] Hlt. unfold held, done_len in *. cbn [push_e c_e c_r c_w]. split; [cons_arith|done]. Qed.

Lemma push_cell x c k : cons_core x -> held x < INPUT_BUF_SIZE -> 0 <= k <= held x ->
  cell (push_e c x) k = if k =? held x then c else cell x k.
Proof.
  intros [H0 H1 H2 H3 H4] Hlt Hk. unfold cell. cbn [push_e c_buf c_r].
  assert (E : c_e x mod INPUT_BUF_SIZE = (c_r x + held x) mod INPUT_BUF_SIZE) by cons_arith.
  rewrite E, nthz_setz by (rewrite ?H0; unfold INPUT_BUF_SIZE; dlia). destruct (Z.eqb_spec k (held x)) as [->|Hne]; [by rewrite Z.eqb_refl|].
  destruct (Z.eqb_spec ((c_r x + k) mod INPUT_BUF_SIZE) ((c_r x + held x) mod INPUT_BUF_SIZE)) as [Em|]; [|done].
  exfalso. unfold INPUT_BUF_SIZE in *. dlia.
Qed.

Lemma push_input x c : cons_core x -> held x < INPUT_BUF_SIZE -> all_input (push_e c x) = all_input x ++ [c].
Proof.
  intros Hw Hlt. unfold all_input. destruct (push_held x c Hw Hlt) as [-> _]. pose proof (held_nonneg x).
  rewrite seqZ_app by lia. rewrite map_app. f_equal.
  - apply map_ext_in. intros k Hk%list_elem_of_In%elem_of_seqZ. rewrite push_cell by (done || lia).
    destruct (Z.eqb_spec k (held x)); [lia|done].
  - change (seqZ (0 + held x) 1) with [0 + (0 + held x)]. cbn [map]. f_equal. rewrite push_cell by (done || lia).
    replace (0 + (0 + held x)) with (held x) by lia. by rewrite Z.eqb_refl.
Qed.

Lemma push_parts x c : cons_core x -> held x < INPUT_BUF_SIZE ->
  finished (push_e c x) = finished x /\ typing (push_e c x) = typing x ++ [c].
Proof.
  intros Hw Hlt. unfold finished, typing. rewrite push_input by done. destruct (push_held x c Hw Hlt) as [_ ->].
  pose proof (cw_held x Hw). pose proof (length_input x). pose proof (done_nonneg x).
  rewrite take_app_le, drop_app_le by lia. done.
Qed.

Lemma dec_parts x : cons_core x -> typing x <> [] ->
  finished (dec_e x) = finished x /\ typing (dec_e x) = removelast (typing x) /\ cons_core (dec_e x).
Proof.
  intros Hw Hne. destruct (length_parts x Hw) as (Lf & Lt & _). assert (0 < Z.of_nat (length (typing x))) as Hpos by (destruct (typing x); [done|cbn; lia]).
  assert (E : held (dec_e x) = held x - 1 /\ done_len (dec_e x) = done_len x).
  { destruct Hw as [_ H1 H2 H3 H4]. unfold held, done_len in *. cbn [dec_e c_e c_r c_w]. split; [cons_arith|done]. }
  destruct E as [Eh Ed].
  assert (Ea : all_input (dec_e x) = removelast (all_input x)).
  { unfold all_input. rewrite Eh. replace (held x) with (held x - 1 + 1) at 2 by lia. rewrite (seqZ_app 0 (held x - 1) 1) by lia.
    rewrite map_app. change (seqZ (0 + (held x - 1)) 1) with [0 + (0 + (held x - 1))]. cbn [map]. by rewrite removelast_last. }
  assert (Es : all_input x = finished x ++ typing x) by apply (length_parts x Hw).
  rewrite Es, removelast_app in Ea by done.
  assert (Ef : finished (dec_e x) = finished x) by (unfold finished at 1; rewrite Ea, Ed, take_app_length' by lia; done).
  assert (Et : typing (dec_e x) = removelast (typing x)) by (unfold typing at 1; rewrite Ea, Ed, drop_app_length' by lia; done).
  split_and!; [done|done|]. destruct Hw as [H0 H1 H2 H3 H4]. split; [done|done|done|apply u32_range|lia].
Qed.

Lemma commit_parts x : cons_core x -> finished (commit_w x) = all_input x /\ typing (commit_w x) = [] /\ cons_core (commit_w x).
Proof.
  intros Hw. assert (E : held (commit_w x) = held x /\ done_len (commit_w x) = held x) by done. destruct E as [E1 E2].
  assert (Ea : all_input (commit_w x) = all_input x) by done. pose proof (length_input x).
  assert (Ef : finished (commit_w x) = all_input x) by (unfold finished; rewrite Ea, E2; apply take_ge; lia).
  assert (Et : typing (commit_w x) = []) by (unfold typing; rewrite Ea, E2; apply drop_ge; lia).
  split_and!; [done|done|]. destruct Hw as [H0 H1 H2 H3 H4]. split; [done|done|done|done|lia].
Qed.

Lemma push_core x c : cons_core x -> held x < INPUT_BUF_SIZE -> cons_core (push_e c x).
Proof.
  intros Hw Hlt. destruct (push_held x c Hw Hlt) as [E1 E2]. destruct Hw as [H0 H1 H2 H3 H4].
  split; [cbn; unfold setz; by rewrite length_insert|done|done|apply u32_range|lia].
Qed.

Lemma Forall_removelast {A} (P : A -> Prop) l : Forall P l -> Forall P (removelast l).
Proof.
  destruct l as [|a l] using rev_ind; [done|]. rewrite removelast_last. by intros [? _]%Forall_app.
Qed.

(** The byte before [cons.e] is the last one typed. *)
Lemma last_typed x : cons_core x -> typing x <> [] -> Forall (fun c => c <> NL) (typing x) ->
  nthz (c_buf x) (u32 (c_e x - 1) mod INPUT_BUF_SIZE) <> NL.
Proof.
  intros Hw Hne Hl. destruct (length_parts x Hw) as (Lf & Lt & Ea).
  destruct (typing x) as [|b m] eqn:Et using rev_ind; [done|]. clear IHm. rewrite length_app in Lt. cbn in Lt.
  assert (E : nthz (c_buf x) (u32 (c_e x - 1) mod INPUT_BUF_SIZE) = b); [|rewrite E; by apply Forall_app in Hl as [_ [Hb _]%Forall_cons_1]].
  assert (E1 : all_input x !! Z.to_nat (held x - 1) = Some b).
  { rewrite Ea. rewrite app_assoc. rewrite lookup_app_r by (rewrite length_app; lia). rewrite length_app.
    replace (Z.to_nat (held x - 1) - (length (finished x) + length m))%nat with 0%nat by lia. done. }
  pose proof (done_nonneg x). unfold all_input in E1. rewrite list_lookup_fmap, lookup_seqZ_lt in E1 by lia. cbn in E1. injection E1 as <-.
  unfold cell. f_equal. destruct Hw as [_ H1 H2 H3 H4]. rewrite Z2Nat.id by lia. cons_arith.
Qed.

(** No finished line is still being typed. *)
Definition cons_wf (x : cons) : Prop := cons_core x /\ Forall (fun c => c <> NL) (typing x).
Definition view (x : cons) : list Z * list Z := (finished x, typing x).

Section console_spec.
Context {U : Type} {env : ProcEnv U} {spec : ProcSpec U} (dump : U -> list Z).
Notation CS := (consst U).
Implicit Types (s : CS).

(** Output and sleeping processes aside, the state is the input buffer. *)

(** The uart after it has been given a byte, and after some. *)
Definition sent (c : Z) (x : uart) : uart :=
  mk_uart (tx_lock x) (tx_busy x) (u_out x ++ [u8 c]) (u_rx x) (u_delay x (length (u_out x))) (u_delay x) (u_ctl x).
Definition sent_all (l : list Z) (x : uart) : uart := fold_left (fun x c => sent c x) l x.

Lemma sent_all_out l x : u_out (sent_all l x) = u_out x ++ map u8 l.
Proof. revert x. induction l as [|c l IH]; intros x; cbn; [by rewrite app_nil_r|]. fold (sent_all l (sent c x)). rewrite IH. cbn. by rewrite <- app_assoc. Qed.

(** The wait for the uart ends, after the time the device needs. *)
Lemma wait_tx_idle_ok n s : u_left (cs_uart s) = n -> exists x, wait_tx_idle (S n) s = Ok tt (set_uart s x) /\ forall c, sent c x = sent c (cs_uart s).
Proof.
  revert s. induction n as [|n IH]; intros s E; cbn [wait_tx_idle]; unfold read_lsr, gets, modify, bind; rewrite E; cbn [fst Nat.eqb ret].
  - eexists. split; [reflexivity|done].
  - destruct (IH (set_uart s (mk_uart (tx_lock (cs_uart s)) (tx_busy (cs_uart s)) (u_out (cs_uart s)) (u_rx (cs_uart s)) n (u_delay (cs_uart s)) (u_ctl (cs_uart s))))) as (x & E' & Hx);
      [done|]. exists x. split; [exact E'|]. intros c. rewrite Hx. done.
Qed.

Lemma uartputc_sync_ok c s : uartputc_sync c s = Ok tt (set_uart s (sent c (cs_uart s))).
Proof.
  unfold uartputc_sync, gets, bind at 1. destruct (wait_tx_idle_ok _ s eq_refl) as (x & E & Hx). step_with E.
  unfold write_thr, modify. rewrite <- Hx. done.
Qed.

Lemma uart_sends l s : for_all l uartputc_sync s = Ok tt (set_uart s (sent_all l (cs_uart s))).
Proof.
  revert s. induction l as [|c l IH]; intros s; cbn [for_all]; [by destruct s|]. step_with (uartputc_sync_ok c s). rewrite IH. done.
Qed.

Lemma cons_putc_ok c s : exists x, cons_putc c s = Ok tt (set_uart s x).
Proof. unfold cons_putc. rewrite uart_sends. by eexists. Qed.

Lemma dump_ok l s : exists x, for_all l cons_putc s = Ok tt (set_uart s x).
Proof.
  revert s. induction l as [|c l IH]; intros s; cbn [for_all]; [exists (cs_uart s); by destruct s|].
  destruct (cons_putc_ok c s) as [x E]. step_with E. destruct (IH (set_uart s x)) as [y E']. exists y. exact E'.
Qed.

(** [^U] erases the line being typed. *)
Lemma kill_line_ok fuel s : cons_wf (cs_cons s) -> (length (typing (cs_cons s)) < fuel)%nat ->
  exists x y, kill_line fuel s = Ok tt (set_uart (set_cons s x) y) /\ cons_wf x /\ view x = (finished (cs_cons s), []) /\
    c_lock x = c_lock (cs_cons s).
Proof.
  revert s. induction fuel as [|fuel IH]; intros s [Hw Hl] Hf; [lia|]. cbn [kill_line]. unfold gets, bind at 1. cbn beta iota.
  rewrite line_nil by done. destruct (typing (cs_cons s)) as [|a l] eqn:Et.
  { cbn [negb andb]. exists (cs_cons s), (cs_uart s). split_and!; [by destruct s|by split; [|rewrite Et]|unfold view; by rewrite Et|done]. }
  assert (Hne : typing (cs_cons s) <> []) by (by rewrite Et). rewrite <- Et in *.
  pose proof (last_typed _ Hw Hne Hl) as Hc. destruct (Z.eqb_spec (nthz (c_buf (cs_cons s)) (u32 (c_e (cs_cons s) - 1) mod INPUT_BUF_SIZE)) NL); [done|].
  destruct (dec_parts _ Hw Hne) as (D1 & D2 & D3). cbn [negb andb]. unfold updc at 1, modify, bind at 1.
  destruct (cons_putc_ok BACKSPACE (set_cons s (dec_e (cs_cons s)))) as [y E]. step_with E.
  destruct (IH (set_uart (set_cons s (dec_e (cs_cons s))) y)) as (x' & y' & E' & W' & V' & L').
  - split; [done|]. cbn [set_uart set_cons cs_cons]. rewrite D2. by apply Forall_removelast.
  - cbn [set_uart set_cons cs_cons]. rewrite D2. destruct (typing (cs_cons s)) as [|b m] using rev_ind; [done|].
    rewrite removelast_last. rewrite length_app in Hf. cbn in Hf. lia.
  - exists x', y'. split_and!; [exact E'|done| |by rewrite L']. rewrite V'. cbn [set_uart set_cons cs_cons]. by rewrite D1.
Qed.


(** The handler between taking and releasing the lock. *)
Definition intr_body (c : Z) : M CS unit :=
  if c =? CTRL_P then
    s <- get ;; for_all (dump (cs_env s)) cons_putc
  else if c =? CTRL_U then kill_line (S (Z.to_nat INPUT_BUF_SIZE))
  else if (c =? CTRL_H) || (c =? DEL) then
    x <- gets cs_cons ;;
    when (negb (c_e x =? c_w x)) (updc dec_e ;;; cons_putc BACKSPACE)
  else
    x <- gets cs_cons ;;
    when (negb (c =? 0) && (u32 (c_e x - c_r x) <? INPUT_BUF_SIZE)) (
      let c := if c =? CR then NL else c in
      cons_putc c ;;;
      updc (push_e c) ;;;
      x <- gets cs_cons ;;
      when ((c =? NL) || (c =? CTRL_D) || (u32 (c_e x - c_r x) =? INPUT_BUF_SIZE)) (
        updc commit_w ;;;
        cenv (wakeup ChCons))).

(** What a run of the handler keeps and does. *)
Record edited (c : Z) s s' : Prop := {
  ed_wf : cons_wf (cs_cons s');
  ed_view : view (cs_cons s') = edit (view (cs_cons s)) c;
  ed_lock : c_lock (cs_cons s') = c_lock (cs_cons s);
  ed_steady : steady (cs_env s');
  ed_asleep : forall ch, asleep (cs_env s') ch -> asleep (cs_env s) ch;
  ed_wakes : finished (cs_cons s') <> finished (cs_cons s) -> ~ asleep (cs_env s') ChCons;
  ed_mem : forall a, user_byte (cs_env s') a = user_byte (cs_env s) a
}.

Lemma edited_same c s x y : steady (cs_env s) -> cons_wf x -> view x = edit (view (cs_cons s)) c -> c_lock x = c_lock (cs_cons s) ->
  finished x = finished (cs_cons s) -> edited c s (set_uart (set_cons s x) y).
Proof. intros H0 H1 H2 H3 H4. by split. Qed.

Lemma type_char c s : cons_wf (cs_cons s) -> steady (cs_env s) -> c <> CTRL_P -> c <> CTRL_U -> c <> CTRL_H -> c <> DEL ->
  exists s', intr_body c s = Ok tt s' /\ edited c s s'.
Proof.
  intros [Hw Hl] Hst N1 N2 N3 N4. set (x := cs_cons s) in *. destruct (length_parts x Hw) as (Lf & Lt & Ea). unfold intr_body.
  assert (Eedit : edit (view x) c = if negb (c =? 0) && (held x <? INPUT_BUF_SIZE) then
     let c := if c =? CR then NL else c in
     if (c =? NL) || (c =? CTRL_D) || (held x + 1 =? INPUT_BUF_SIZE) then (finished x ++ typing x ++ [c], []) else (finished x, typing x ++ [c])
     else view x).
  { unfold edit, view. apply Z.eqb_neq in N1, N2, N3, N4. rewrite N1, N2, N3, N4. cbn [orb]. replace (Z.of_nat (length (finished x) + length (typing x))) with (held x) by lia. done. }
  apply Z.eqb_neq in N1, N2, N3, N4. rewrite N1, N2, N3, N4. cbn [orb]. unfold gets, bind at 1. cbn beta iota. fold x.
  change (u32 (c_e x - c_r x)) with (held x). destruct (negb (c =? 0) && (held x <? INPUT_BUF_SIZE)) eqn:Ec; cbn [when].
  2:{ exists s. split; [done|]. destruct s. by split. }
  apply andb_true_iff in Ec as [_ Hlt%Z.ltb_lt]. cbn zeta in *. set (c' := if c =? CR then NL else c) in *.
  destruct (cons_putc_ok c' s) as [y E]. step_with E. unfold updc at 1, modify, bind at 1. cbn [set_uart set_cons cs_cons]. fold x.
  unfold bind at 1. cbn beta iota. cbn [set_uart set_cons cs_cons]. destruct (push_held x c' Hw Hlt) as [Eh _].
  change (u32 (c_e (push_e c' x) - c_r (push_e c' x))) with (held (push_e c' x)). rewrite Eh.
  destruct (push_parts x c' Hw Hlt) as [P1 P2]. pose proof (push_core x c' Hw Hlt) as Hc.
  destruct ((c' =? NL) || (c' =? CTRL_D) || (held x + 1 =? INPUT_BUF_SIZE)) eqn:Eend; cbn [when].
  - destruct (commit_parts _ Hc) as (C1 & C2 & C3). rewrite (push_input x c' Hw Hlt), Ea in C1.
    destruct (wakeup_ok (cs_env s) ChCons Hst) as (u & Eu & Hsu & _ & Hn & Ha & Hm & _).
    set (s1 := set_cons (set_uart s y) (push_e c' x)). exists (set_cs_env (set_cons s1 (commit_w (push_e c' x))) u). split.
    { transitivity (cenv (wakeup ChCons) (set_cons s1 (commit_w (push_e c' x)))); [reflexivity|]. unfold cenv, zoom.
      change (cs_env (set_cons s1 (commit_w (push_e c' x)))) with (cs_env s). by rewrite Eu. }
    split; [|change (view (commit_w (push_e c' x)) = edit (view x) c)|done|exact Hsu|exact Ha|intros _; exact Hn|exact Hm].
    + split; [exact C3|]. change (Forall (fun c => c <> NL) (typing (commit_w (push_e c' x)))). by rewrite C2.
    + rewrite Eedit. unfold view. rewrite C1, C2. by rewrite app_assoc.
  - exists (set_cons (set_uart s y) (push_e c' x)). split; [reflexivity|].
    split; [|change (view (push_e c' x) = edit (view x) c)|done|done|done|intros Hne; by destruct Hne|done].
    + split; [exact Hc|]. change (Forall (fun c => c <> NL) (typing (push_e c' x))). rewrite P2. apply Forall_app. split; [done|].
      constructor; [|constructor]. apply orb_false_iff in Eend as [[E1 _]%orb_false_iff _]. by apply Z.eqb_neq.
    + rewrite Eedit. unfold view. by rewrite P1, P2.
Qed.

Lemma intr_body_ok c s : cons_wf (cs_cons s) -> steady (cs_env s) -> exists s', intr_body c s = Ok tt s' /\ edited c s s'.
Proof.
  intros Hwf Hst. destruct (decide (c = CTRL_P)) as [->|N1].
  { destruct (dump_ok (dump (cs_env s)) s) as [y E]. exists (set_uart s y). split; [exact E|].
    change (set_uart s y) with (set_uart (set_cons s (cs_cons s)) y). by apply edited_same. }
  destruct (decide (c = CTRL_U)) as [->|N2].
  { pose proof Hwf as [Hw _]. destruct (length_parts _ Hw) as (_ & Lt & _). pose proof (cw_held _ Hw). pose proof (done_nonneg (cs_cons s)).
    destruct (kill_line_ok (S (Z.to_nat INPUT_BUF_SIZE)) s Hwf) as (x & y & E & Wx & Vx & Lx); [unfold INPUT_BUF_SIZE in *; lia|].
    exists (set_uart (set_cons s x) y). split; [exact E|]. apply edited_same; [done|done|by rewrite Vx|done|]. by injection Vx. }
  destruct (decide (c = CTRL_H \/ c = DEL)) as [Hb|Hb]; [|apply type_char; tauto].
  pose proof Hwf as [Hw Hl].
  assert (Ei : intr_body c s = when (negb (c_e (cs_cons s) =? c_w (cs_cons s))) (updc dec_e ;;; cons_putc BACKSPACE) s) by (by destruct Hb as [-> | ->]).
  assert (Ee : edit (view (cs_cons s)) c = (finished (cs_cons s), removelast (typing (cs_cons s)))) by (by destruct Hb as [-> | ->]).
  rewrite Ei, line_nil by done. destruct (typing (cs_cons s)) as [|a l] eqn:Et; cbn [negb when].
  - exists s. split; [done|]. replace s with (set_uart (set_cons s (cs_cons s)) (cs_uart s)) at 2 by (by destruct s).
    apply edited_same; [done|done| |done|done]. rewrite Ee. unfold view. by rewrite Et.
  - assert (Hne : typing (cs_cons s) <> []) by (by rewrite Et). destruct (dec_parts _ Hw Hne) as (D1 & D2 & D3).
    destruct (cons_putc_ok BACKSPACE (set_cons s (dec_e (cs_cons s)))) as [y E].
    exists (set_uart (set_cons s (dec_e (cs_cons s))) y). split; [exact E|]. apply edited_same; [done| |rewrite Ee, <- Et; unfold view; congruence|done|done].
    split; [done|]. rewrite D2, Et. by apply Forall_removelast.
Qed.

Lemma clock_wf s b : cons_wf (cs_cons s) -> cons_wf (cs_cons (set_clock s b)).
Proof. intros [[H0 H1 H2 H3 H4] Hl]. split; [by split|exact Hl]. Qed.

Lemma consoleintr_ok c s : cons_wf (cs_cons s) -> c_lock (cs_cons s) = false -> steady (cs_env s) ->
  exists s', consoleintr dump c s = Ok tt s' /\ edited c s s'.
Proof.
  intros Hwf Hl Hst. destruct (intr_body_ok c (set_clock s true)) as (s' & E & [H1 H2 H3 H0 H4 H5 H6]); [by apply clock_wf|done|].
  exists (set_clock s' false). split; [|split; [by apply clock_wf|exact H2|by rewrite Hl|exact H0|exact H4|exact H5|exact H6]].
  assert (Ea : acquire clock set_clock s = Ok tt (set_clock s true)) by (unfold acquire, get, bind, put, clock; by rewrite Hl).
  unfold consoleintr. step_with Ea. change (bind (intr_body c) (fun _ => release clock set_clock) (set_clock s true) = Ok tt (set_clock s' false)).
  step_with E. unfold release, get, bind, put, clock. by rewrite H3.
Qed.

(** C37. The console's interrupt handler is a line editor: whatever is typed,
    the finished lines and the line being typed in its buffer are those that
    the editing rules of [edit] give, character by character (backspace and
    ^U edit the current line only, Enter and ^D finish it, a full buffer of
    INPUT_BUF_SIZE finishes it and then drops input), also when the indices
    wrap; called while nobody holds the lock of a process, the handler always
    returns; and no process sleeps for input after a line was finished. *)
Theorem console_edits_lines cs s : cons_wf (cs_cons s) -> c_lock (cs_cons s) = false -> steady (cs_env s) ->
  (asleep (cs_env s) ChCons -> finished (cs_cons s) = []) ->
  exists s', for_all cs (consoleintr dump) s = Ok tt s' /\ cons_wf (cs_cons s') /\
    view (cs_cons s') = fold_left edit cs (view (cs_cons s)) /\
    (asleep (cs_env s') ChCons -> finished (cs_cons s') = []).
Proof.
  revert s. induction cs as [|c cs IH]; intros s Hwf Hl Hst Hs; cbn [for_all fold_left]; [by exists s|].
  destruct (consoleintr_ok c s Hwf Hl Hst) as (s1 & E & [H1 H2 H3 H0 H4 H5 H6]). step_with E.
  destruct (IH s1) as (s' & E' & W' & V' & S'); [done|congruence|done| |].
  - intros Ha. destruct (decide (finished (cs_cons s1) = finished (cs_cons s))) as [Ef|Ef]; [rewrite Ef; apply Hs, H4, Ha|].
    exfalso. by apply (H5 Ef).
  - exists s'. split_and!; [exact E'|done|by rewrite V', H2|done].
Qed.
End console_spec.

#[local] Existing Instance flat_env.
#[local] Existing Instance flat_spec.

Definition demo_console : consst flat := mk_consst (mk_flat ∅ [ChCons] []) (mk_cons false (replicate (Z.to_nat INPUT_BUF_SIZE) 0) (2 ^ 32 - 2) (2 ^ 32 - 2) (2 ^ 32 - 2)) uart0.

(** "lx", backspace, "s", Enter, with indices about to wrap. *)
Lemma console_edits_lines_witness : exists s', for_all [108; 120; 8; 115; 13; 112] (consoleintr (fun _ => [])) demo_console = Ok tt s' /\
  view (cs_cons s') = ([108; 115; 10], [112]) /\ ~ asleep (cs_env s') ChCons.
Proof.
  destruct (console_edits_lines (fun _ => []) [108; 120; 8; 115; 13; 112] demo_console) as (s' & E & _ & V & Hs).
  - split; [split; cbn; [reflexivity|lia|lia|lia|by vm_compute]|constructor].
  - reflexivity.
  - exact I.
  - reflexivity.
  - exists s'. assert (Ev : view (cs_cons s') = ([108; 115; 10], [112])) by (rewrite V; vm_compute; reflexivity).
    split_and!; [exact E|exact Ev|]. intros Ha. specialize (Hs Ha). injection Ev as Ef _. rewrite Ef in Hs. discriminate Hs.
Defined.
