(* ===== verification/Trap.v ===== *)
(** * Traps and interrupts (kernel/trap.c, kernel/plic.c, timerinit of
      kernel/start.c)

    The control registers a trap handler uses, over the kernel of [Kernel]
    and the console of [Console]. [t_pending] are the interrupts the PLIC
    will hand out, [t_served] those it was told are complete, and [t_timer]
    the next timer interrupt asked of the firmware. *)

From stdpp Require Import base gmap list numbers strings.
From Stdlib Require Import ZArith Lia.
From S2P Require Import Prelude Riscv Mem Spinlock Kalloc Vm Bytes Sleeplock Disk Bio BlockIO Fs ProcEnv Pipe File Proc Syscall Exec Sysfile Kernel Console.
Open Scope Z_scope.
Open Scope kernel_scope.

Definition SSTATUS_SPP : Z := Z.shiftl 1 8.
Definition SSTATUS_SPIE : Z := Z.shiftl 1 5.
Definition SSTATUS_SIE : Z := Z.shiftl 1 1.

(** The supervisor's control registers and tp. *)
Record csrs := mk_csrs { sstatus : Z; stvec : Z; sepc : Z; scause : Z; stval : Z; satp : Z; tp : Z }.
Definition w_sstatus (v : Z) (c : csrs) : csrs := mk_csrs v (stvec c) (sepc c) (scause c) (stval c) (satp c) (tp c).
Definition w_stvec (v : Z) (c : csrs) : csrs := mk_csrs (sstatus c) v (sepc c) (scause c) (stval c) (satp c) (tp c).
Definition w_sepc (v : Z) (c : csrs) : csrs := mk_csrs (sstatus c) (stvec c) v (scause c) (stval c) (satp c) (tp c).
(** [intr_on], [intr_off], [intr_get] on sstatus. *)
Definition csr_intr_on (c : csrs) : csrs := w_sstatus (Z.lor (sstatus c) SSTATUS_SIE) c.
Definition csr_intr_off (c : csrs) : csrs := w_sstatus (Z.land (sstatus c) (Z.lnot SSTATUS_SIE)) c.
Definition csr_intr_get (c : csrs) : bool := has (sstatus c) SSTATUS_SIE.

Record trapst (S : Type) := mk_trap {
  t_sys : sysst S; t_cons : cons; t_uart : uart; t_csr : csrs; t_pending : list Z; t_served : list Z; t_timer : Z }.
Arguments mk_trap {S} _ _ _ _ _ _ _.
Arguments t_sys {S} _.
Arguments t_cons {S} _.
Arguments t_uart {S} _.
Arguments t_csr {S} _.
Arguments t_pending {S} _.
Arguments t_served {S} _.
Arguments t_timer {S} _.

Section trap_c.
Context {S H : Type} {io : BlockIO S H} {img : KernelImage} {devs : DevSw pst} (kbuf mypid forkret : Z).
(** The addresses of code, what the clock reads, and see [Kernel.syscall]. *)
Context (kernelvec uservec usertrap_addr : Z) (r_time : Z) (pad : list Z) (junk : Z -> list Z).
#[local] Instance env : ProcEnv pst := proc_env kbuf.
Notation T := (trapst S).
Implicit Types (s : T) (p : nat).

Definition set_t_sys s (v : sysst S) : T := mk_trap v (t_cons s) (t_uart s) (t_csr s) (t_pending s) (t_served s) (t_timer s).
Definition set_t_csr s (v : csrs) : T := mk_trap (t_sys s) (t_cons s) (t_uart s) v (t_pending s) (t_served s) (t_timer s).
Definition sys {A} (m : M (sysst S) A) : M T A := zoom t_sys set_t_sys m.
Definition kproc_op {A} (m : M pst A) : M T A := sys (kern (inproc m)).
Definition csr (f : csrs -> csrs) : M T unit := modify (fun s => set_t_csr s (f (t_csr s))).
Definition tproc s : pst := pstate (sy_k (t_sys s)).

(** The console's state inside this one. *)
Definition cons_view s : consst pst := mk_consst (tproc s) (t_cons s) (t_uart s).
Definition cons_put s (v : consst pst) : T :=
  let k := sy_k (t_sys s) in
  let k := set_fs k (set_um (k_fs k) (cs_env v)) in
  mk_trap (set_k (t_sys s) k) (cs_cons v) (cs_uart v) (t_csr s) (t_pending s) (t_served s) (t_timer s).
Definition console {A} (m : M (consst pst) A) : M T A := zoom cons_view cons_put m.

Definition trapinit : M T unit := sys (modify (fun t => set_tickslock t false)).
Definition trapinithart : M T unit := csr (w_stvec kernelvec).

Definition plic_claim : M T Z := fun s =>
  match t_pending s with
  | irq :: l => Ok irq (mk_trap (t_sys s) (t_cons s) (t_uart s) (t_csr s) l (t_served s) (t_timer s))
  | [] => Ok 0 s
  end.
Definition plic_complete (irq : Z) : M T unit := modify (fun s =>
  mk_trap (t_sys s) (t_cons s) (t_uart s) (t_csr s) (t_pending s) (t_served s ++ [irq]) (t_timer s)).

Definition timerinit : M T unit := modify (fun s =>
  mk_trap (t_sys s) (t_cons s) (t_uart s) (t_csr s) (t_pending s) (t_served s) (u64 (r_time + 10000000))).

(** [cpuid()] reads tp. *)
Definition clockintr : M T unit :=
  c <- gets t_csr ;;
  when (tp c =? 0) (
    sys (acquire tickslock set_tickslock) ;;;
    sys (modify (fun t => set_ticks t (u32 (ticks t + 1)))) ;;;
    kproc_op (wakeup_procs ChTicks) ;;;
    sys (release tickslock set_tickslock)) ;;;
  timerinit.

Definition devintr : M T Z :=
  c <- gets t_csr ;;
  if scause c =? 0x8000000000000009 then
    irq <- plic_claim ;;
    when (irq =? UART0_IRQ) (console (uartintr procdump)) ;;;
    when (negb (irq =? 0)) (plic_complete irq) ;;;
    ret 1
  else if scause c =? 0x8000000000000005 then clockintr ;;; ret 2
  else ret 0.

Definition prepare_return : M T unit :=
  s <- get ;;
  let p := mine (tproc s) in
  csr csr_intr_off ;;;
  csr (w_stvec (u64 (TRAMPOLINE + (uservec - trampoline)))) ;;;
  s <- get ;;
  kproc_op (trapframe_set 0 (satp (t_csr s))) ;;;
  kproc_op (trapframe_set 8 (p_kstack (getproc (tproc s) p) + PGSIZE)) ;;;
  kproc_op (trapframe_set 16 usertrap_addr) ;;;
  kproc_op (trapframe_set 32 (tp (t_csr s))) ;;;
  csr (fun c => w_sstatus (Z.lor (Z.land (sstatus c) (Z.lnot SSTATUS_SPP)) SSTATUS_SPIE) c) ;;;
  epc <- kproc_op (trapframe_get TF_EPC) ;;
  csr (w_sepc epc).

(** The end of [usertrap], after a possible [yield]. *)
Definition usertrap_return : M T Z :=
  prepare_return ;;;
  gets (fun s => MAKE_SATP (p_pagetable (getproc (tproc s) (mine (tproc s))))).

(** The satp for the trampoline, or [None] when the process gave up the hart:
    it goes on with [usertrap_resume] when it is scheduled again. *)
Definition usertrap : M T (option Z) :=
  s <- get ;;
  if has (sstatus (t_csr s)) SSTATUS_SPP then panic "usertrap: not from user mode"
  else
    csr (w_stvec kernelvec) ;;;
    s <- get ;;
    let p := mine (tproc s) in
    let c := t_csr s in
    kproc_op (trapframe_set TF_EPC (sepc c)) ;;;
    which_dev <- (if scause c =? 8 then
        k <- kproc_op (proc_killed p) ;;
        when k (sys (kern (kexit kbuf mypid (-1)))) ;;;
        epc <- kproc_op (trapframe_get TF_EPC) ;;
        kproc_op (trapframe_set TF_EPC (epc + 4)) ;;;
        csr csr_intr_on ;;;
        sys (syscall kbuf mypid forkret pad junk) ;;;
        ret 0
      else
        d <- devintr ;;
        if negb (d =? 0) then ret d
        else
          ok <- (if (scause c =? 15) || (scause c =? 13) then
                   s <- get ;;
                   kproc_op (mem (vmfault (cur_of (tproc s)) (p_pagetable (getproc (tproc s) p)) (stval c)))
                 else ret 0) ;;
          when (ok =? 0) (kproc_op (setkilled p)) ;;;
          ret 0) ;;
    k <- kproc_op (proc_killed p) ;;
    when k (sys (kern (kexit kbuf mypid (-1)))) ;;;
    if which_dev =? 2 then kproc_op yield_out ;;; ret None
    else r <- usertrap_return ;; ret (Some r).
Definition usertrap_resume : M T Z := kproc_op yield_back ;;; usertrap_return.

(** [false] when the process gave up the hart: [kerneltrap_resume] goes on
    with the saved registers. *)
Definition kerneltrap : M T bool :=
  s <- get ;;
  let c := t_csr s in
  if negb (has (sstatus c) SSTATUS_SPP) then panic "kerneltrap: not from supervisor mode"
  else if csr_intr_get c then panic "kerneltrap: interrupts enabled"
  else
    which_dev <- devintr ;;
    if which_dev =? 0 then panic "kerneltrap"
    else
      s <- get ;;
      if (which_dev =? 2) && match me (tproc s) with Some _ => true | None => false end then
        kproc_op yield_out ;;; ret false
      else
        csr (w_sepc (sepc c)) ;;;
        csr (w_sstatus (sstatus c)) ;;;
        ret true.
Definition kerneltrap_resume (sepc0 sstatus0 : Z) : M T unit :=
  kproc_op yield_back ;;;
  csr (w_sepc sepc0) ;;;
  csr (w_sstatus sstatus0).
End trap_c.
