(* ===== verification/TrapSpec.v ===== *)
(** * From user space to the kernel and back

    What [usertrap] leaves behind (trap.c, model in Trap) is what the code of
    trampoline.S (model in Asm) needs, on the way to the process and on the next
    trap out of it. *)

From stdpp Require Import functions base gmap numbers strings list.
From Stdlib Require Import ZArith Lia.
From S2P Require Import Prelude Riscv Mem Spinlock Kalloc Vm Disk Bio BlockIO Fs ProcEnv Pipe File Proc Syscall Exec Sysfile Kernel Console Trap Asm.
Open Scope Z_scope.
Open Scope kernel_scope.

Section trap_spec.
Context {S : Type} {img : KernelImage} (uservec_addr usertrap_addr : Z).
Implicit Types (s : trapst S).

Definition tram s : ram := mram (ps_mem (tproc s)).
Definition me_proc s : proc := getproc (tproc s) (mine (tproc s)).

(** Memory and control registers may differ. *)
Definition same_procs s s' : Prop := ps_proc (tproc s') = ps_proc (tproc s) /\ me (tproc s') = me (tproc s).

Lemma same_me s s' : same_procs s s' -> me_proc s' = me_proc s.
Proof using. intros [E1 E2]. unfold me_proc, mine, getproc. by rewrite E1, E2. Qed.

Lemma same_trans s1 s2 s3 : same_procs s1 s2 -> same_procs s2 s3 -> same_procs s1 s3.
Proof using. intros [] []. split; congruence. Qed.

Lemma tf_set_run off v s : exists s', kproc_op (trapframe_set off v) s = Ok tt s' /\
  tram s' = st64 (tram s) (p_trapframe (me_proc s) + off) (u64 v) /\ t_csr s' = t_csr s /\ same_procs s s'.
Proof using. by eexists. Qed.

Lemma tf_get_run off s : kproc_op (trapframe_get off) s = Ok (ld64 (tram s) (p_trapframe (me_proc s) + off)) s.
Proof using. destruct s as [[[[] ? ? ?] ? ?] ? ? ? ? ? ?]. reflexivity. Qed.

Lemma csr_run f s : exists s', csr f s = Ok tt s' /\ tram s' = tram s /\ t_csr s' = f (t_csr s) /\ same_procs s s'.
Proof using. by eexists. Qed.

(** The kernel's half of the trap frame: satp, stack, entry point and hart. *)
Definition kernel_half s (x : ram) (tf : Z) : Prop :=
  ld64 x tf = u64 (satp (t_csr s)) /\ ld64 x (tf + 8) = u64 (p_kstack (me_proc s) + PGSIZE) /\
  ld64 x (tf + 16) = u64 usertrap_addr /\ ld64 x (tf + 32) = u64 (tp (t_csr s)).

(** Everything else in memory is as it was. *)
Definition user_half (x x' : ram) (tf : Z) : Prop :=
  ld64 x' (tf + 24) = ld64 x (tf + 24) /\ forall a, a + 8 <= tf \/ tf + 40 <= a -> ld64 x' a = ld64 x a.

(** The control registers as the trampoline wants them. *)
Definition ready s s' (tf : Z) : Prop :=
  stvec (t_csr s') = u64 (TRAMPOLINE + (uservec_addr - trampoline)) /\ sepc (t_csr s') = ld64 (tram s) (tf + 24) /\
  satp (t_csr s') = satp (t_csr s) /\ Z.testbit (sstatus (t_csr s')) SPP = false /\
  Z.testbit (sstatus (t_csr s')) SPIE = true /\ Z.testbit (sstatus (t_csr s')) SIE = false.

Lemma return_sstatus v :
  let v' := Z.lor (Z.land (Z.land v (Z.lnot SSTATUS_SIE)) (Z.lnot SSTATUS_SPP)) SSTATUS_SPIE in
  Z.testbit v' SPP = false /\ Z.testbit v' SPIE = true /\ Z.testbit v' SIE = false.
Proof using.
  cbn zeta. rewrite !Z.lor_spec, !Z.land_spec, !Z.lnot_spec by done.
  repeat split; rewrite ?andb_false_r, ?orb_true_r, ?orb_false_r; done.
Qed.

Lemma kernel_words_stored x tf a b c d : let x' := st64 (st64 (st64 (st64 x (tf + 0) (u64 a)) (tf + 8) (u64 b)) (tf + 16) (u64 c)) (tf + 32) (u64 d) in
  (ld64 x' tf = u64 a /\ ld64 x' (tf + 8) = u64 b /\ ld64 x' (tf + 16) = u64 c /\ ld64 x' (tf + 32) = u64 d) /\ user_half x x' tf.
Proof using.
  intros x'. pose proof u64_range as Hu. subst x'. rewrite Z.add_0_r. unfold user_half.
  repeat split; intros; repeat (rewrite ld64_st64_ne by lia); rewrite ?ld64_st64 by apply Hu; done.
Qed.

Lemma sie_clear c : Z.testbit (sstatus c) SIE = false -> csr_intr_get c = false.
Proof using. intros H. unfold csr_intr_get, SSTATUS_SIE. by rewrite has_testbit. Qed.

Lemma prepare_return_run s : let tf := p_trapframe (me_proc s) in
  exists s', prepare_return uservec_addr usertrap_addr s = Ok tt s' /\
    kernel_half s (tram s') tf /\ user_half (tram s) (tram s') tf /\ ready s s' tf /\ same_procs s s'.
Proof using.
  intros tf. unfold prepare_return.
  destruct (csr_run csr_intr_off s) as (s1 & E1 & M1 & C1 & P1). rewrite (bind_ok get _ s s s), (bind_ok _ _ s tt s1) by done.
  destruct (csr_run (w_stvec (u64 (TRAMPOLINE + (uservec_addr - trampoline)))) s1) as (s2 & E2 & M2 & C2 & P2).
  rewrite (bind_ok _ _ s1 tt s2), (bind_ok get _ s2 s2 s2) by done.
  destruct (tf_set_run 0 (satp (t_csr s2)) s2) as (s3 & E3 & M3 & C3 & P3). rewrite (bind_ok _ _ s2 tt s3) by done.
  destruct (tf_set_run 8 (p_kstack (getproc (tproc s2) (mine (tproc s))) + PGSIZE) s3) as (s4 & E4 & M4 & C4 & P4). rewrite (bind_ok _ _ s3 tt s4) by done.
  destruct (tf_set_run 16 usertrap_addr s4) as (s5 & E5 & M5 & C5 & P5). rewrite (bind_ok _ _ s4 tt s5) by done.
  destruct (tf_set_run 32 (tp (t_csr s2)) s5) as (s6 & E6 & M6 & C6 & P6). rewrite (bind_ok _ _ s5 tt s6) by done.
  set (f := fun c => w_sstatus (Z.lor (Z.land (sstatus c) (Z.lnot SSTATUS_SPP)) SSTATUS_SPIE) c).
  destruct (csr_run f s6) as (s7 & E7 & M7 & C7 & P7). rewrite (bind_ok _ _ s6 tt s7) by done.
  rewrite (bind_ok _ _ s7 _ s7 (tf_get_run TF_EPC s7)).
  destruct (csr_run (w_sepc (ld64 (tram s7) (p_trapframe (me_proc s7) + TF_EPC))) s7) as (s8 & E8 & M8 & C8 & P8).
  exists s8. split; [done|].
  assert (tf_same : forall a b, same_procs a b -> p_trapframe (me_proc a) = tf -> p_trapframe (me_proc b) = tf) by (intros a b Hp <-; by rewrite (same_me _ _ Hp)).
  assert (T2 : p_trapframe (me_proc s2) = tf) by eauto. assert (T3 : p_trapframe (me_proc s3) = tf) by eauto. assert (T4 : p_trapframe (me_proc s4) = tf) by eauto.
  assert (T5 : p_trapframe (me_proc s5) = tf) by eauto. assert (T7 : p_trapframe (me_proc s7) = tf) by eauto.
  assert (Em : tram s8 = st64 (st64 (st64 (st64 (tram s) (tf + 0) (u64 (satp (t_csr s)))) (tf + 8) (u64 (p_kstack (me_proc s) + PGSIZE))) (tf + 16) (u64 usertrap_addr)) (tf + 32) (u64 (tp (t_csr s)))).
  { rewrite M8, M7, M6, M5, M4, M3, M2, M1, T2, T3, T4, T5, C2, C1. cbn [satp tp w_stvec csr_intr_off w_sstatus].
    do 4 f_equal. rewrite <- (same_me s s2) by (by eapply same_trans). unfold me_proc, mine. destruct P1 as [_ <-], P2 as [_ <-]. done. }
  pose proof (kernel_words_stored (tram s) tf (satp (t_csr s)) (p_kstack (me_proc s) + PGSIZE) usertrap_addr (tp (t_csr s))) as [Hk Hu].
  rewrite <- Em in Hk, Hu.
  assert (Ee : ld64 (tram s7) (p_trapframe (me_proc s7) + TF_EPC) = ld64 (tram s) (tf + 24)) by (rewrite T7, <- M8; exact (proj1 Hu)).
  split; [exact Hk|]. split; [exact Hu|]. split; [|eauto 10 using same_trans].
  unfold ready. rewrite C8, C7, C6, C5, C4, C3, C2, C1, Ee. pose proof (return_sstatus (sstatus (t_csr s))) as (Hb1 & Hb2 & Hb3). done.
Qed.

Lemma usertrap_return_run s : let tf := p_trapframe (me_proc s) in
  exists s', usertrap_return uservec_addr usertrap_addr s = Ok (MAKE_SATP (p_pagetable (me_proc s))) s' /\
    kernel_half s (tram s') tf /\ user_half (tram s) (tram s') tf /\ ready s s' tf /\ same_procs s s'.
Proof using.
  intros tf. destruct (prepare_return_run s) as (s' & E & Hk & Hu & Hr & Hp). exists s'. split; [|done].
  unfold usertrap_return. rewrite (bind_ok _ _ _ _ _ E). unfold gets. fold (me_proc s'). by rewrite (same_me _ _ Hp).
Qed.

(** A hart that jumps to the trampoline with this kernel state. *)
Record on_hart s (m : mach) : Prop := {
  oh_mem : phys m = tram s;
  oh_sstatus : csrf m SSTATUS = sstatus (t_csr s);
  oh_sepc : csrf m SEPC = sepc (t_csr s);
  oh_stvec : csrf m STVEC = stvec (t_csr s) }.

Context {mmu : Mmu}.

(** What the process sees: user mode, its program counter and registers, its
    page table, interrupts enabled. *)
Record resumed s (tf satp : Z) (m : mach) : Prop := {
  rs_user : user m = true;
  rs_pc : pc m = ld64 (tram s) (tf + 24);
  rs_regs : forall r, rf m r = ld64 (tram s) (tf + tf_off r);
  rs_satp : csrf m SATP = satp;
  rs_sie : Z.testbit (csrf m SSTATUS) SIE = true }.

(** What the kernel sees after the next trap of the process on machine [m]. *)
Record entered s (tf : Z) (m m' : mach) : Prop := {
  en_pc : pc m' = u64 usertrap_addr;
  en_sp : rf m' X.sp = u64 (p_kstack (me_proc s) + PGSIZE);
  en_tp : rf m' X.tp = u64 (tp (t_csr s));
  en_satp : csrf m' SATP = u64 (satp (t_csr s));
  en_saved : forall r, ld64 (phys m') (tf + tf_off r) = rf m r }.

Lemma return_resumes s s' tf sp m : user_half (tram s) (tram s') tf -> ready s s' tf -> on_hart s' m -> rf m X.a0 = sp -> tf_mapped sp tf ->
  exists m', exec userret m = Some m' /\ resumed s tf sp m' /\ phys m' = tram s'.
Proof using.
  intros [Hepc Hu] (Hv & He & _ & H1 & H2 & H3) [Om Os Oe Ov] Ea Hm. rewrite <- Ea in Hm.
  destruct (userret_restores tf m Hm) as (m' & E & R). exists m'. split; [done|]. split; [|by rewrite (rt_mem _ _ _ R)]. split.
  - by rewrite (rt_user _ _ _ R), Os, H1.
  - by rewrite (rt_pc _ _ _ R), Oe.
  - intros r. rewrite (rt_regs _ _ _ R), Om. apply Hu. right. destruct r; cbn; lia.
  - by rewrite (rt_satp _ _ _ R).
  - by rewrite (rt_sie _ _ _ R), Os.
Qed.

Lemma trap_enters s x tf link m : kernel_half s x tf -> (forall o, 0 <= o < 40 -> ld64 (phys m) (tf + o) = ld64 x (tf + o)) ->
  tf_mapped (csrf m SATP) tf -> regs_ok m -> exists m', exec (uservec link) m = Some m' /\ entered s tf m m'.
Proof using.
  intros (K0 & K8 & K16 & K32) Hsame Hm Hr. destruct (uservec_saves tf link m Hm Hr) as (m' & E & T). exists m'. split; [done|].
  split; [rewrite (tr_pc _ _ _ _ T)|rewrite (tr_sp _ _ _ _ T)|rewrite (tr_tp _ _ _ _ T)|rewrite (tr_satp _ _ _ _ T)|exact (tr_saved _ _ _ _ T)];
    rewrite Hsame by lia; by rewrite ?Z.add_0_r.
Qed.

(** C20. A trap is invisible to the process and the next one finds the kernel.
    The end of [usertrap] always returns.  From its state [userret] puts the hart
    in user mode, at the saved program counter, on the process's page table,
    with every register as in the trap frame and interrupts enabled; stvec is the
    trampoline's [uservec].  On any later machine of this process that has not
    written the kernel's words of the trap frame, [uservec] enters [usertrap] on
    the process's kernel stack, on this hart, with the kernel's page table and
    all the process's registers in the trap frame. *)
Theorem trap_cycle s : let tf := p_trapframe (me_proc s) in let sp := MAKE_SATP (p_pagetable (me_proc s)) in tf_mapped sp tf ->
  exists s', usertrap_return uservec_addr usertrap_addr s = Ok sp s' /\
    stvec (t_csr s') = u64 (TRAMPOLINE + (uservec_addr - trampoline)) /\ csr_intr_get (t_csr s') = false /\
    forall m, on_hart s' m -> rf m X.a0 = sp ->
      exists m1, exec userret m = Some m1 /\ resumed s tf sp m1 /\
        forall m2 link, csrf m2 SATP = sp -> regs_ok m2 -> (forall o, 0 <= o < 40 -> ld64 (phys m2) (tf + o) = ld64 (phys m1) (tf + o)) ->
          exists m3, exec (uservec link) m2 = Some m3 /\ entered s tf m2 m3.
Proof using.
  intros tf sp Hm. destruct (usertrap_return_run s) as (s' & E & Hk & Hu & Hr & Hp). exists s'. split; [exact E|].
  split; [exact (proj1 Hr)|]. split; [by apply sie_clear, Hr|].
  intros m Hon Ha0. destruct (return_resumes s s' tf sp m Hu Hr Hon Ha0 Hm) as (m1 & E1 & R1 & Em1). exists m1. split; [done|]. split; [done|].
  intros m2 link Hs2 Hr2 Hsame. apply (trap_enters s (tram s') tf); [exact Hk| |by rewrite Hs2|done].
  intros o Ho. by rewrite (Hsame o Ho), Em1.
Qed.
End trap_spec.

(** ** Example *)

Definition demo_proc : proc :=
  mk_proc false RUNNING None false 0 1 None 8192 4096 65536 TRAPFRAME [] [] None [].
Definition demo_trap : trapst unit :=
  mk_trap (mk_sys (mk_kst (mk_fs tt (mk_pst (mk_memst ∅ false 0) [demo_proc] false false 2 None (Some 0%nat)) false [] (mk_sb 0 0 0 0 0 0 0 0)) ∅ false []) 0 false)
    cons0 uart0 (mk_csrs (2 ^ 8) 0 0 8 0 7 3) [] [] 0.

Lemma trap_cycle_witness : exists s', @usertrap_return unit (demo_img 3) 40 500 demo_trap = Ok (MAKE_SATP 65536) s' /\ csr_intr_get (t_csr s') = false.
Proof.
  destruct (@trap_cycle unit (demo_img 3) 40 500 flat_mmu demo_trap) as (s' & E & _ & H & _); [refine (flat_mapped (MAKE_SATP 65536) TRAPFRAME 288 _ _); by vm_compute|].
  exists s'. by split.
Defined.
