(* ===== verification/Main.v ===== *)
(** * Starting the kernel (kernel/main.c, and forkret of kernel/proc.c)

    The kernel of [Trap] over the log and the buffer cache of a disk, with
    what else [main] sets up: the registers of the interrupt controller, the
    kernel's page table, the flag that lets the other harts go on, and the
    flag of the first [forkret]. [disk_init] is the [virtio_disk_init] of the
    driver the kernel is linked with, [mypid] the pid in the log's locks. *)

From stdpp Require Import base gmap list numbers strings.
From Stdlib Require Import ZArith Lia.
From S2P Require Import Prelude Riscv Boot Mem Spinlock Kalloc Vm Bytes Sleeplock Disk Bio Log BlockIO LogIO Fs ProcEnv Pipe Printf File Proc Syscall Exec Sysfile Kernel Console Trap.
Open Scope Z_scope.
Open Scope kernel_scope.

Record machine (D : Type) := mk_machine {
  mc_trap : trapst (logst D); mc_plic : gmap Z Z; kernel_pagetable : Z; started : bool; first : bool }.
Arguments mk_machine {D} _ _ _ _ _.
Arguments mc_trap {D} _.
Arguments mc_plic {D} _.
Arguments kernel_pagetable {D} _.
Arguments started {D} _.
Arguments first {D} _.

Section main_c.
Context {D : Type} {drv : DiskDriver D} {img : KernelImage} {devs : DevSw pst}.
Context (disk_init : M D unit) (kbuf mypid forkret_addr kernelvec uservec usertrap_addr : Z).
#[local] Instance main_io : BlockIO (logst D) nat := log_io mypid.
#[local] Instance main_env : ProcEnv pst := proc_env kbuf.
Notation MC := (machine D).
Implicit Types (s : MC).

Definition set_mc_trap s (v : trapst (logst D)) : MC := mk_machine v (mc_plic s) (kernel_pagetable s) (started s) (first s).
Definition set_mc_plic s (v : gmap Z Z) : MC := mk_machine (mc_trap s) v (kernel_pagetable s) (started s) (first s).
Definition set_kpt s (v : Z) : MC := mk_machine (mc_trap s) (mc_plic s) v (started s) (first s).
Definition set_started s (v : bool) : MC := mk_machine (mc_trap s) (mc_plic s) (kernel_pagetable s) v (first s).
Definition set_first s (v : bool) : MC := mk_machine (mc_trap s) (mc_plic s) (kernel_pagetable s) (started s) v.

Definition trap {A} (m : M (trapst (logst D)) A) : M MC A := zoom mc_trap set_mc_trap m.
Definition kernel {A} (m : M (kst (logst D) pst) A) : M MC A := trap (sys (kern m)).
(** The interrupt controller, as this hart sees it. *)
Definition plic_view s : bootst unit :=
  mk_boot (Boot.mk_hart SMODE (fun _ => 0) (tp (t_csr (mc_trap s))) 0 0) tt (mc_plic s).
Definition plic {A} (m : M (bootst unit) A) : M MC A := zoom plic_view (fun s v => set_mc_plic s (b_plic v)) m.
(** The driver's state under the buffer cache. *)
Definition set_bdisk (x : bio D) (d : D) : bio D := mk_bio (bc_lock x) (bc_buf x) d (bhist x).
Definition on_disk {A} (m : M D A) : M MC A := kernel (fsm (blk (cache (zoom bdisk set_bdisk m)))).

Definition kprintf (fmt : list Z) (args : list arg) : M MC unit :=
  trap (console (for_all (kernel_printf fmt args) uartputc_sync)).
Definition cpuid s : Z := i32 (tp (t_csr (mc_trap s))).
Definition w_satp (v : Z) (c : csrs) : csrs := mk_csrs (sstatus c) (stvec c) (sepc c) (scause c) (stval c) v (tp c).
Definition hart_kvminithart : M MC unit :=
  s <- get ;; trap (csr (w_satp (kvminithart (kernel_pagetable s)))).

(** [main] up to [scheduler()]: [false] when a hart other than the first
    found [started] still 0 and goes on looking. *)
Definition main : M MC bool :=
  s <- get ;;
  if cpuid s =? 0 then
    trap (console consoleinit) ;;;
    kprintf (line "") [] ;;;
    kprintf (line "xv6 kernel is booting") [] ;;;
    kprintf (line "") [] ;;;
    kernel (memory kinit) ;;;
    k <- kernel (memory kvminit) ;;
    modify (fun s => set_kpt s k) ;;;
    hart_kvminithart ;;;
    kernel (inproc procinit) ;;;
    trap trapinit ;;;
    trap (trapinithart kernelvec) ;;;
    plic plicinit ;;;
    plic plicinithart ;;;
    kernel (fsm (blk (cache binit))) ;;;
    kernel (fsm iinit) ;;;
    kernel fileinit ;;;
    on_disk disk_init ;;;
    kernel (userinit kbuf mypid forkret_addr) ;;;
    modify (fun s => set_started s true) ;;;
    ret true
  else if negb (started s) then ret false
  else
    kprintf (line "hart %d starting") [Word (cpuid s)] ;;;
    hart_kvminithart ;;;
    trap (trapinithart kernelvec) ;;;
    plic plicinithart ;;;
    ret true.

(** [forkret] up to the jump to the trampoline with this satp. *)
Definition forkret : M MC Z :=
  s <- get ;;
  let p := mine (tproc (mc_trap s)) in
  kernel (inproc (release_proc p)) ;;;
  (if first s then
     kernel (fsm (fsinit mypid ROOTDEV)) ;;;
     modify (fun s => set_first s false) ;;;
     r <- kernel (kexec kbuf mypid (str "/init") [str "/init"]) ;;
     kernel (inproc (trapframe_set TF_A0 r)) ;;;
     a0 <- kernel (inproc (trapframe_get TF_A0)) ;;
     if a0 =? u64 (-1) then panic "exec" else ret tt
   else ret tt) ;;;
  trap (usertrap_return uservec usertrap_addr).
End main_c.
