(* ===== verification/MainSpec.v ===== *)
(** * The kernel starts

    From the memory of a machine that has just been switched on, [main]
    reaches the scheduler on the first hart, with every component in the
    state the rest of the kernel relies on. *)

From stdpp Require Import base gmap list numbers strings.
From Stdlib Require Import ZArith Lia.
From S2P Require Import Prelude Riscv Boot Mem Spinlock Kalloc Vm VmSpec VmOps VmKernel Bytes Sleeplock Disk Bio BioSpec Log BlockIO LogIO Fs ProcEnv Pipe Printf File Proc ProcInv Syscall Exec Sysfile Kernel Console ConsoleSpec Trap Main.
Open Scope Z_scope.
Open Scope kernel_scope.

(** ** The first process *)

Section first_process.
Context {img : KernelImage} {imgok : KernelImageOk img}.

(** The table after [procinit], and with its first entry replaced. *)
Definition idle_proc (p : nat) : proc := set_p_kstack (KSTACK (Z.of_nat p)) proc0.
Definition idle_table : list proc := map idle_proc all_procs.
Definition with_first (m : memst) (x : proc) (pid : Z) : pst := mk_pst m (x :: map idle_proc (seq 1 (nproc - 1))) false false pid None None.

Lemma procinit_ok m : procinit (table_boot m) = Ok tt (with_first m (idle_proc 0) 1).
Proof using. vm_compute. reflexivity. Qed.

Lemma find_unused_ok m : find_unused (with_first m (idle_proc 0) 1) = Ok (Some 0%nat) (with_first m (set_p_lock (idle_proc 0) true) 1).
Proof using. vm_compute. reflexivity. Qed.

Lemma with_first_upd m x pid f : updproc 0 f (with_first m x pid) = Ok tt (with_first m (f x) pid).
Proof using. reflexivity. Qed.
Lemma with_first_mem {A} (c : M memst A) m x pid a m' : c m = Ok a m' -> mem c (with_first m x pid) = Ok a (with_first m' x pid).
Proof using. intros E. unfold mem, zoom. cbn [ps_mem with_first]. by rewrite E. Qed.

(** What [allocproc] leaves in the entry. *)
Definition first_proc (fr tf pt : Z) : proc :=
  mk_proc true USED None false 0 1 None (KSTACK 0) 0 pt tf (fr :: u64 (KSTACK 0 + PGSIZE) :: replicate 12 0) (replicate NOFILE None) None (replicate 16 0).

Lemma allocproc_boot fr m tf root m0 m1 m2 m3 : kalloc m = Ok tf m0 -> tf <> 0 -> root <> 0 -> uvmcreate m0 = Ok root m1 ->
  mappages root TRAMPOLINE PGSIZE trampoline (Z.lor PTE_R PTE_X) m1 = Ok 0 m2 -> mappages root TRAPFRAME PGSIZE tf (Z.lor PTE_R PTE_W) m2 = Ok 0 m3 ->
  allocproc fr (with_first m (idle_proc 0) 1) = Ok (Some 0%nat) (with_first m3 (first_proc fr tf root) 2).
Proof using.
  intros E0 Htf Hroot E1 E2 E3. unfold allocproc. step_with (find_unused_ok m).
  assert (Ep : allocpid (with_first m (set_p_lock (idle_proc 0) true) 1) = Ok 1 (with_first m (set_p_lock (idle_proc 0) true) 2)) by (vm_compute; reflexivity). step_with Ep.
  rewrite 2!(bind_ok _ _ _ _ _ (with_first_upd _ _ _ _)). step_with (with_first_mem _ _ (set_p_state USED (set_p_pid 1 (set_p_lock (idle_proc 0) true))) 2 _ _ E0).
  rewrite (bind_ok _ _ _ _ _ (with_first_upd _ _ _ _)), (proj2 (Z.eqb_neq tf 0) Htf). set (x := set_p_trapframe tf _).
  assert (Ept : proc_pagetable 0 (with_first m0 x 2) = Ok root (with_first m3 x 2)).
  { unfold proc_pagetable. step_with (with_first_mem _ _ x 2 _ _ E1). rewrite (proj2 (Z.eqb_neq root 0) Hroot). step_with (with_first_mem _ _ x 2 _ _ E2).
    change (0 <? 0) with false. cbn iota. assert (Eg : gets (fun s => p_trapframe (getproc s 0)) (with_first m2 x 2) = Ok tf (with_first m2 x 2)) by reflexivity. step_with Eg.
    by step_with (with_first_mem _ _ x 2 _ _ E3). }
  step_with Ept. rewrite (bind_ok _ _ _ _ _ (with_first_upd _ _ _ _)), (proj2 (Z.eqb_neq root 0) Hroot). reflexivity.
Qed.
End first_process.

(** ** Memory: the kernel's table and the process's *)

Section boot_memory.
Context {img : KernelImage} {imgok : KernelImageOk img}.

(** Both address spaces, and the trap frame between them. *)
Record booted (m : memst) (kroot uroot tf : Z) (qs : list Z) : Prop := {
  bt_ex : exists l T L Tu Lu, vm_inv m l kroot T L /\ maps L (kernel_map qs) /\ vm_inv m l uroot Tu Lu /\ maps Lu (new_map tf) /\
    length qs = Z.to_nat NPROC /\ NoDup (tf :: qs ++ l ++ tpages T ++ tpages Tu) /\ Forall page_ok (tf :: qs ++ l ++ tpages T ++ tpages Tu)
}.

Lemma boot_memory m : freelist m = 0 -> room 364 ->
  exists kroot m1 tf m2 uroot m3 m4 m5 qs, (kinit ;;; kvminit) m = Ok kroot m1 /\ kalloc m1 = Ok tf m2 /\ tf <> 0 /\ uroot <> 0 /\
    uvmcreate m2 = Ok uroot m3 /\ mappages uroot TRAMPOLINE PGSIZE trampoline (Z.lor PTE_R PTE_X) m3 = Ok 0 m4 /\
    mappages uroot TRAPFRAME PGSIZE tf (Z.lor PTE_R PTE_W) m4 = Ok 0 m5 /\ booted m5 kroot uroot tf qs.
Proof using imgok.
  intros Hf Hr. destruct (kvminit_run m 364 Hf ltac:(lia) Hr) as (kroot & m1 & qs & l & T & L & E1 & Hv & Hm & Hl & Hp & Hn).
  destruct l as [|tf [|uroot l]]; [cbn in Hn; lia|cbn in Hn; lia|]. cbn [length] in Hn. pose proof (kalloc_cons m1 tf _ (vi_kmem _ _ _ _ _ Hv)) as E2. set (m2 := mk_memst _ _ _) in E2.
  assert (Hok : Forall page_ok (qs ++ (tf :: uroot :: l) ++ tpages T)) by (apply Forall_forall; intros q Hq; apply elem_of_free_pages; by rewrite <- Hp).
  assert (Hnd : NoDup (qs ++ (tf :: uroot :: l) ++ tpages T)) by (rewrite Hp; destruct (kinit_run m Hf) as (? & _ & Hk); apply Hk).
  assert (Hpage : page_ok tf /\ page_ok uroot) by (apply Forall_app in Hok as [_ Hok]; by inversion_clear Hok as [|? ? ? Hok']; inversion_clear Hok'). destruct Hpage as [Htf Hur].
  destruct (uvm_take m1 tf (uroot :: l) kroot T L 0 (mram m2)) as (_ & _ & _ & _ & [Hv2 _ _ _]).
  { split; [exact Hv|rewrite MAXVA_val; lia|intros va e HL%(vi_leaves _ _ _ _ _ Hv); lia|intros va va' e e' HL%(vi_leaves _ _ _ _ _ Hv); lia]. }
  { intros p Ha Hne. apply same_page_memset; [done|by apply page_ok_aligned|done]. }
  pose proof (page_ok_pos tf Htf) as (Hpos & Htop & _). pose proof (page_ok_pos uroot Hur) as (Hpos' & _).
  destruct (new_table_run m2 uroot l tf (vi_kmem _ _ _ _ _ Hv2)) as (m3 & m4 & m5 & l' & E3 & E4 & E5 & [(Tu & Lu & Hvu & Hmu & Hpu & _)] & Ho);
    [cbn; lia|by apply page_ok_aligned|lia|unfold PHYSTOP, KERNBASE in *; lia|].
  exists kroot, m1, tf, m2, uroot, m3, m4, m5, qs. split_and!; [done|done|lia|lia|done|done|done|].
  destruct (vm_inv_tables_same m2 m5 kroot T L) as [Ht5 Hl5]; [|apply Hv2|apply Hv2|].
  { intros pi p Hpi. apply Ho; [exact (page_ok_aligned _ (pt_page _ _ _ (vi_tree _ _ _ _ _ Hv2) _ _ Hpi))|exact (vi_free _ _ _ _ _ Hv2 _ _ Hpi)]. }
  cbn [app] in Hpu. assert (Hperm : tf :: qs ++ l' ++ tpages T ++ tpages Tu ≡ₚ qs ++ (tf :: uroot :: l) ++ tpages T).
  { rewrite <- app_comm_cons, <- Permutation_middle, <- Hpu, <- app_assoc. do 3 f_equiv. apply Permutation_app_comm. }
  split. exists l', T, L, Tu, Lu. split_and!; [|done|done|done|done|by rewrite Hperm|by rewrite Hperm].
  split; [apply Hvu|done| |done]. intros pi p Hpi Hin. apply (vi_free _ _ _ _ _ Hv2 _ _ Hpi). rewrite <- Hpu. apply elem_of_app. by left.
Qed.
End boot_memory.

(** ** The machine *)

Section boot_machine.
Context {D : Type} {drv : DiskDriver D} {dspec : DiskSpec D} {img : KernelImage} {imgok : KernelImageOk img} {devs : DevSw pst}.
Context (disk_init : M D unit) (kbuf mypid forkret_addr kernelvec : Z).
#[local] Instance boot_main_io : BlockIO (logst D) nat := log_io mypid.
#[local] Instance boot_main_env : ProcEnv pst := proc_env kbuf.

(** The parts of the machine that [main] works on. *)
Definition machine_of (p : pst) (it : list inode) (b : bio D) (cn : cons) (u : uart) (c : csrs) (pl : gmap Z Z) (k : Z) (st : bool) : machine D :=
  mk_machine (mk_trap (mk_sys (mk_kst (mk_fs (mk_log false 0 0 false 0 0 (replicate (Z.to_nat LOGBLOCKS) 0) b) p false it (mk_sb 0 0 0 0 0 0 0 0)) ∅ false (replicate NFILE file0)) 0 false)
    cn u c [] [] 0) pl k st true.

(** Switched on: memory holds anything but the allocator's and the kernel's
    own variables are zero. *)
Definition power_on (m : ram) (d : D) (u : uart) (c : csrs) (pl : gmap Z Z) : machine D :=
  machine_of (table_boot (mk_memst m false 0)) (replicate NINODE inode0) (mk_bio false (replicate (S NBUF) buf0) d []) cons0 u c pl 0 false.

Section parts.
Context (p : pst) (it : list inode) (b : bio D) (cn : cons) (u : uart) (c : csrs) (pl : gmap Z Z) (k : Z) (st : bool).
Notation here := (machine_of p it b cn u c pl k st).

Lemma run_proc {A} (m : M pst A) a p' : m p = Ok a p' -> Main.kernel (inproc m) here = Ok a (machine_of p' it b cn u c pl k st).
Proof using. intros E. unfold Main.kernel, trap, sys, kern, inproc, kenv, fsm, usr, zoom. cbn. by rewrite E. Qed.
Lemma run_memory {A} (m : M memst A) a x : m (ps_mem p) = Ok a x -> Main.kernel (memory m) here = Ok a (machine_of (set_mem p x) it b cn u c pl k st).
Proof using. intros E. apply run_proc. unfold mem, zoom. by rewrite E. Qed.
Lemma run_cache {A} (m : M (bio D) A) a b' : m b = Ok a b' -> Main.kernel (fsm (blk (cache m))) here = Ok a (machine_of p it b' cn u c pl k st).
Proof using. intros E. unfold Main.kernel, trap, sys, kern, fsm, blk, cache, zoom. cbn. by rewrite E. Qed.
Lemma run_fs {A} (m : M (fsst (logst D) pst) A) a p' it' : (forall x sb, m (mk_fs x p false it sb) = Ok a (mk_fs x p' false it' sb)) ->
  Main.kernel (fsm m) here = Ok a (machine_of p' it' b cn u c pl k st).
Proof using. intros E. unfold Main.kernel, trap, sys, kern, fsm, zoom. cbn. by rewrite E. Qed.
Lemma run_console {A} (m : M (consst pst) A) a cn' u' : m (mk_consst p cn u) = Ok a (mk_consst p cn' u') ->
  trap (console m) here = Ok a (machine_of p it b cn' u' c pl k st).
Proof using. intros E. unfold trap, console, zoom, cons_view. cbn. by rewrite E. Qed.
Lemma run_print fmt args : kprintf fmt args here = Ok tt (machine_of p it b cn (sent_all (kernel_printf fmt args) u) c pl k st).
Proof using. unfold kprintf. apply run_console. by rewrite uart_sends. Qed.
End parts.

(** ** The steps of [main] *)

(** The root directory is in the first inode of the table. *)
Definition root_inode : inode := mk_inode ROOTDEV ROOTINO 1 initsleeplock false dinode0.
Definition root_inodes : list inode := root_inode :: replicate (NINODE - 1) inode0.

Lemma iinit_ok (x : logst D) (q : pst) sb : iinit (mk_fs x q false (replicate NINODE inode0) sb) = Ok tt (mk_fs x q false (replicate NINODE inode0) sb).
Proof using. vm_compute. reflexivity. Qed.

Lemma namei_root (x : logst D) (q : pst) sb cwd : namei mypid cwd [SLASH] (mk_fs x q false (replicate NINODE inode0) sb) = Ok (Some 0%nat) (mk_fs x q false root_inodes sb).
Proof using. vm_compute. reflexivity. Qed.

(** The process table when [main] is done. *)
Definition first_ready (fr tf pt : Z) : proc := set_p_lock (set_p_state RUNNABLE (set_p_cwd (Some 0%nat) (first_proc fr tf pt))) false.
Definition boot_table (m : memst) (fr tf pt : Z) : pst :=
  mk_pst m (first_ready fr tf pt :: map idle_proc (seq 1 (nproc - 1))) false false 2 (Some 0%nat) None.

Lemma userinit_ok m m' tf pt x sb pp ft fl : allocproc forkret_addr (with_first m (idle_proc 0) 1) = Ok (Some 0%nat) (with_first m' (first_proc forkret_addr tf pt) 2) ->
  userinit kbuf mypid forkret_addr (mk_kst (mk_fs x (with_first m (idle_proc 0) 1) false (replicate NINODE inode0) sb) pp ft fl) =
  Ok tt (mk_kst (mk_fs x (boot_table m' forkret_addr tf pt) false root_inodes sb) pp ft fl).
Proof using.
  intros E. unfold userinit. 
  assert (E1 : inproc (allocproc forkret_addr) (mk_kst (mk_fs x (with_first m (idle_proc 0) 1) false (replicate NINODE inode0) sb) pp ft fl) =
    Ok (Some 0%nat) (mk_kst (mk_fs x (with_first m' (first_proc forkret_addr tf pt) 2) false (replicate NINODE inode0) sb) pp ft fl)) by (unfold inproc, kenv, fsm, usr, zoom; cbn [k_fs fs_um]; by rewrite E).
  step_with E1. set (q := set_initproc (with_first m' (first_proc forkret_addr tf pt) 2) (Some 0%nat)).
  assert (E2 : inproc (modify (fun t => set_initproc t (Some 0%nat))) (mk_kst (mk_fs x (with_first m' (first_proc forkret_addr tf pt) 2) false (replicate NINODE inode0) sb) pp ft fl) =
    Ok tt (mk_kst (mk_fs x q false (replicate NINODE inode0) sb) pp ft fl)) by reflexivity.
  step_with E2. unfold get at 1, bind at 1.
  assert (E3 : forall cwd, fsm (namei mypid cwd [SLASH]) (mk_kst (mk_fs x q false (replicate NINODE inode0) sb) pp ft fl) =
    Ok (Some 0%nat) (mk_kst (mk_fs x q false root_inodes sb) pp ft fl)) by (intros cwd; unfold fsm, zoom; cbn [k_fs]; by rewrite namei_root).
  step_with (E3 (cwd (mk_kst (mk_fs x q false (replicate NINODE inode0) sb) pp ft fl))). reflexivity.
Qed.

(** The buffers after [binit], which does not look at the disk. *)
Definition boot_bufs : list buf := match binit (mk_bio false (replicate (S NBUF) buf0) tt []) with Ok _ x => bc_buf x | _ => [] end.
Lemma binit_ok (d : D) : binit (mk_bio false (replicate (S NBUF) buf0) d []) = Ok tt (mk_bio false boot_bufs d []).
Proof using. vm_compute. reflexivity. Qed.

Lemma boot_table_inv m fr tf pt : table_inv (fun p => p = 0%nat) (boot_table m fr tf pt).
Proof using.
  assert (Hg : forall p, p <> 0%nat -> p_state (getproc (boot_table m fr tf pt) p) = UNUSED /\ p_pid (getproc (boot_table m fr tf pt) p) = 0).
  { intros [|p] Hp; [done|]. unfold getproc. change (ps_proc (boot_table m fr tf pt) !! S p) with ((idle_proc <$> seq 1 (nproc - 1)) !! p). rewrite list_lookup_fmap.
    by destruct (seq 1 (nproc - 1) !! p). }
  split; [split| |].
  - cbn [ps_proc boot_table length]. by rewrite length_map, length_seq.
  - cbn. lia.
  - intros p Hp E. destruct (decide (p = 0%nat)) as [->|Hne]; [done|by apply Hg].
  - intros p Hp E. destruct (decide (p = 0%nat)) as [->|Hne]; [cbn; lia|]. by destruct (Hg p Hne).
  - intros p q Hp Hq E Eq. destruct (decide (p = 0%nat)) as [->|Hne]; [|by destruct (Hg p Hne)].
    destruct (decide (q = 0%nat)) as [->|Hne]; [done|]. destruct (Hg q Hne) as [_ Hz]. rewrite Hz in Eq. done.
  - done.
  - by intros p ->.
Qed.

Ltac main_step lem E :=
  match goal with |- context [bind _ _ (machine_of ?p ?it ?b ?cn ?u ?c ?pl ?k ?st)] =>
    let X := fresh in pose proof (lem p it b cn u c pl k st _ _ _ _ E) as X; rewrite (bind_ok _ _ _ _ _ X); clear X end.

(** What the kernel has sent when it goes on to set up its memory. *)
Definition boot_banner : list Z := line "" ++ line "xv6 kernel is booting" ++ line "".

Lemma consoleinit_ok (p : pst) u : exists u', consoleinit (mk_consst p cons0 u) = Ok tt (mk_consst p cons0 u') /\ u_out u' = u_out u.
Proof using. eexists. split; reflexivity. Qed.

Lemma main_until_memory (k : M (machine D) bool) m d u c pl kroot m1 : (kinit ;;; kvminit) (mk_memst m false 0) = Ok kroot m1 ->
  exists u', (trap (console consoleinit) ;;;
    kprintf (line "") [] ;;; kprintf (line "xv6 kernel is booting") [] ;;; kprintf (line "") [] ;;;
    Main.kernel (memory kinit) ;;; kp <- Main.kernel (memory kvminit) ;; modify (fun s => set_kpt s kp) ;;; k) (power_on m d u c pl) =
  k (machine_of (table_boot m1) (replicate NINODE inode0) (mk_bio false (replicate (S NBUF) buf0) d []) cons0 u' c pl kroot false) /\
  u_out u' = u_out u ++ boot_banner.
Proof using.
  intros E. apply bind_inv in E as ([] & m0 & E1 & E2). unfold power_on. set (p := table_boot _).
  destruct (consoleinit_ok p u) as (u1 & Ec & Eo).
  set (it := replicate NINODE inode0). set (b := mk_bio false (replicate (S NBUF) buf0) d []).
  step_with (run_console p it b cons0 u c pl 0 false _ _ _ _ Ec).
  step_with (run_print p it b cons0 u1 c pl 0 false (line "") []). set (u2 := sent_all _ u1).
  step_with (run_print p it b cons0 u2 c pl 0 false (line "xv6 kernel is booting") []). set (u3 := sent_all _ u2).
  step_with (run_print p it b cons0 u3 c pl 0 false (line "") []). set (u4 := sent_all _ u3).
  exists u4. split.
  - main_step (@run_memory) E1. main_step (@run_memory) E2.
    assert (Ek : modify (fun s => set_kpt s kroot) (machine_of (set_mem (set_mem p m0) m1) it b cons0 u4 c pl 0 false) =
      Ok tt (machine_of (table_boot m1) it b cons0 u4 c pl kroot false)) by reflexivity.
    by step_with Ek.
  - unfold u4, u3, u2. rewrite !sent_all_out, Eo, <- !app_assoc. f_equal.
Qed.

(** The rest of [main] on hart 0. *)
Definition main_rest : M (machine D) bool :=
  hart_kvminithart ;;; Main.kernel (inproc procinit) ;;; trap trapinit ;;; trap (trapinithart kernelvec) ;;;
  plic plicinit ;;; plic plicinithart ;;; Main.kernel (fsm (blk (cache binit))) ;;; Main.kernel (fsm iinit) ;;; Main.kernel fileinit ;;;
  on_disk disk_init ;;; Main.kernel (userinit kbuf mypid forkret_addr) ;;; modify (fun s => set_started s true) ;;; ret true.

Lemma main_rest_ok d d' m m' tf pt u c pl k : disk_init d = Ok tt d' ->
  allocproc forkret_addr (with_first m (idle_proc 0) 1) = Ok (Some 0%nat) (with_first m' (first_proc forkret_addr tf pt) 2) ->
  exists c' pl', main_rest (machine_of (table_boot m) (replicate NINODE inode0) (mk_bio false (replicate (S NBUF) buf0) d []) cons0 u c pl k false) =
    Ok true (machine_of (boot_table m' forkret_addr tf pt) root_inodes (mk_bio false boot_bufs d' []) cons0 u c' pl' k true) /\
    satp c' = MAKE_SATP k /\ stvec c' = kernelvec.
Proof using.
  intros Hd Ea. unfold main_rest. set (it := replicate NINODE inode0). set (b := mk_bio _ _ d _).
  assert (E1 : hart_kvminithart (machine_of (table_boot m) it b cons0 u c pl k false) = Ok tt (machine_of (table_boot m) it b cons0 u (Main.w_satp (MAKE_SATP k) c) pl k false)) by reflexivity.
  step_with E1. set (c1 := Main.w_satp _ c). main_step (@run_proc) (procinit_ok m). set (p1 := with_first _ _ _).
  assert (E2 : trap trapinit (machine_of p1 it b cons0 u c1 pl k false) = Ok tt (machine_of p1 it b cons0 u c1 pl k false)) by reflexivity. step_with E2.
  assert (E3 : trap (trapinithart kernelvec) (machine_of p1 it b cons0 u c1 pl k false) = Ok tt (machine_of p1 it b cons0 u (w_stvec kernelvec c1) pl k false)) by reflexivity. step_with E3.
  set (c2 := w_stvec kernelvec c1).
  assert (E4 : exists pl', (plic plicinit ;;; plic plicinithart) (machine_of p1 it b cons0 u c2 pl k false) = Ok tt (machine_of p1 it b cons0 u c2 pl' k false)) by (eexists; reflexivity).
  destruct E4 as [pl' E4]. exists c2, pl'. split; [|split; reflexivity]. apply bind_inv in E4 as ([] & s1 & E4 & E5). step_with E4. step_with E5.
  main_step (@run_cache) (binit_ok d). set (b1 := mk_bio false boot_bufs d []).
  assert (E6 : Main.kernel (fsm iinit) (machine_of p1 it b1 cons0 u c2 pl' k false) = Ok tt (machine_of p1 it b1 cons0 u c2 pl' k false)).
  { apply run_fs. intros. apply iinit_ok. }
  step_with E6. assert (E7 : Main.kernel fileinit (machine_of p1 it b1 cons0 u c2 pl' k false) = Ok tt (machine_of p1 it b1 cons0 u c2 pl' k false)) by reflexivity. step_with E7.
  assert (E8 : zoom bdisk set_bdisk disk_init b1 = Ok tt (mk_bio false boot_bufs d' [])) by (unfold zoom; cbn [bdisk b1]; by rewrite Hd).
  unfold on_disk. main_step (@run_cache) E8.
  assert (E9 : Main.kernel (userinit kbuf mypid forkret_addr) (machine_of p1 it (mk_bio false boot_bufs d' []) cons0 u c2 pl' k false) =
    Ok tt (machine_of (boot_table m' forkret_addr tf pt) root_inodes (mk_bio false boot_bufs d' []) cons0 u c2 pl' k false)).
  { unfold Main.kernel, trap, sys, kern, zoom. cbn [mc_trap t_sys sy_k machine_of]. unfold p1, it. by rewrite (userinit_ok m m' tf pt _ _ _ _ _ Ea). }
  by step_with E9.
Qed.

(** C4. The kernel starts. On a machine that has just been switched on, whatever
    its memory, its uart and its interrupt controller hold, with 364 free pages,
    a disk whose driver starts and a uart that takes some finite time for each
    byte, [main] on hart 0 sends its banner (an empty line, "xv6 kernel is
    booting" and an empty line) to the uart and reaches the scheduler. The hart runs on the kernel's own page table with its trap vector set;
    process 1 is runnable, will start at [forkret] on its own stack, has a page
    table with the trampoline and its trap frame and the root directory as
    working directory; no other entry of the table is in use; no page is used
    twice; the buffer cache is empty and sound over the disk; and the other
    harts may go on. *)
Theorem main_boots (m : ram) (d d' : D) (u : uart) (c : csrs) (pl : gmap Z Z) :
  tp c = 0 -> room 364 -> disk_init d = Ok tt d' -> dok d' ->
  exists mem kroot uroot tf qs b u' c' pl',
    main disk_init kbuf mypid forkret_addr kernelvec (power_on m d u c pl) =
      Ok true (machine_of (boot_table mem forkret_addr tf uroot) root_inodes b cons0 u' c' pl' kroot true) /\
    u_out u' = u_out u ++ boot_banner /\
    satp c' = MAKE_SATP kroot /\ stvec c' = kernelvec /\ booted mem kroot uroot tf qs /\
    table_inv (fun p => p = 0%nat) (boot_table mem forkret_addr tf uroot) /\
    cache_inv b (rev (seq 0 NBUF)) /\ clean b /\ bdisk b = d'.
Proof using imgok dspec.
  intros Htp Hr Hd Hok. destruct (boot_memory (mk_memst m false 0) eq_refl Hr) as (kroot & m1 & tf & m2 & uroot & m3 & m4 & m5 & qs & E1 & E2 & Htf & Hur & E3 & E4 & E5 & Hb).
  pose proof (allocproc_boot forkret_addr m1 tf uroot m2 m3 m4 m5 E2 Htf Hur E3 E4 E5) as Ea.
  destruct (binit_inv d' [] Hok) as (b & Eb & Hinv & Hcl & Hbd & _). rewrite binit_ok in Eb. injection Eb as <-.
  assert (Em : exists u' c' pl', main disk_init kbuf mypid forkret_addr kernelvec (power_on m d u c pl) =
      Ok true (machine_of (boot_table m5 forkret_addr tf uroot) root_inodes (mk_bio false boot_bufs d' []) cons0 u' c' pl' kroot true) /\
      u_out u' = u_out u ++ boot_banner /\ satp c' = MAKE_SATP kroot /\ stvec c' = kernelvec).
  2:{ destruct Em as (u' & c' & pl' & Em & Ho & Hc). exists m5, kroot, uroot, tf, qs, (mk_bio false boot_bufs d' []), u', c', pl'. split_and!; try done; [apply Hc|apply Hc|apply boot_table_inv]. }
  unfold main, get at 1, bind at 1. assert (Ecpu : cpuid (power_on m d u c pl) =? 0 = true) by (unfold cpuid; cbn; by rewrite Htp). rewrite Ecpu.
  destruct (main_until_memory main_rest m d u c pl kroot m1 E1) as (u' & Eu & Ho).
  destruct (main_rest_ok d d' m1 m5 tf uroot u' c pl kroot Hd Ea) as (c' & pl' & Er & Hc). exists u', c', pl'. split; [|split; [exact Ho|exact Hc]].
  rewrite <- Er, <- Eu. unfold main_rest, boot_main_io, boot_main_env, main_io, main_env. reflexivity.
Qed.
End boot_machine.

(** ** Example: a kernel that leaves 400 pages, on the RAM disk *)

Section example.
#[local] Instance boot_img : KernelImage := demo_img 400.
#[local] Instance boot_img_ok : KernelImageOk boot_img.
Proof. apply demo_img_ok. lia. Qed.
#[local] Instance no_devices : DevSw pst := {| dev_read := fun _ => None; dev_write := fun _ => None |}.

Lemma main_boots_witness : exists mem kroot uroot tf qs b u' c' pl',
    main (D := ramdisk_st) (put ramdisk_init) 0 1 0x40001000 0x40002000 (power_on ∅ (mk_ramdisk ∅ 3 4) uart0 (mk_csrs 0 0 0 0 0 0 0) ∅) =
      Ok true (machine_of (boot_table mem 0x40001000 tf uroot) root_inodes b cons0 u' c' pl' kroot true) /\
    u_out u' = boot_banner /\ satp c' = MAKE_SATP kroot /\ stvec c' = 0x40002000 /\ booted mem kroot uroot tf qs /\
    table_inv (fun p => p = 0%nat) (boot_table mem 0x40001000 tf uroot) /\
    cache_inv b (rev (seq 0 NBUF)) /\ clean b /\ bdisk b = ramdisk_init.
Proof. apply (main_boots (put ramdisk_init) 0 1 0x40001000 0x40002000 ∅ (mk_ramdisk ∅ 3 4) ramdisk_init); [reflexivity|vm_compute; congruence|reflexivity|exact I]. Defined.
End example.
