(* ===== verification/Ulib.v ===== *)
(** * The C library of user programs (user/ulib.c)

    On the byte memory of a process, as kernel/string.c in [Mem]. A string
    routine gets the length of the string it walks as its fuel. *)

From stdpp Require Import base gmap list numbers strings.
From Stdlib Require Import ZArith Lia.
From S2P Require Import Prelude Mem Printf.
Open Scope Z_scope.

(** [while(( *s++ = *t++) != 0);] *)
Fixpoint strcpy (fuel : nat) (m : ram) (s t : Z) : ram :=
  match fuel with
  | O => m
  | S k => let m := st8 m s (ld8 m t) in if ld8 m s =? 0 then m else strcpy k m (s + 1) (t + 1)
  end.

Fixpoint strcmp (fuel : nat) (m : ram) (p q : Z) : Z :=
  match fuel with
  | O => ld8 m p - ld8 m q
  | S k => if negb (ld8 m p =? 0) && (ld8 m p =? ld8 m q) then strcmp k m (p + 1) (q + 1) else ld8 m p - ld8 m q
  end.

Fixpoint strlen_from (fuel : nat) (m : ram) (s n : Z) : Z :=
  match fuel with
  | O => n
  | S k => if ld8 m (s + n) =? 0 then n else strlen_from k m s (n + 1)
  end.
Definition strlen (fuel : nat) (m : ram) (s : Z) : Z := strlen_from fuel m s 0.

Fixpoint memset_from (k : nat) (m : ram) (dst c i : Z) : ram :=
  match k with
  | O => m
  | S k' => memset_from k' (st8 m (dst + i) c) dst c (i + 1)
  end.
Definition memset (m : ram) (dst c n : Z) : ram := memset_from (Z.to_nat n) m dst c 0.

(** The address found, or 0. *)
Fixpoint strchr (fuel : nat) (m : ram) (s c : Z) : Z :=
  match fuel with
  | O => 0
  | S k => if ld8 m s =? 0 then 0 else if ld8 m s =? c then s else strchr k m (s + 1) c
  end.

(** [read(0, &c, 1)] gives the next byte of the input, or none. The result is
    what was stored before the NUL, and the input that is left. *)
Fixpoint gets_loop (n : nat) (input : list Z) : list Z * list Z :=
  match n, input with
  | S k, c :: input =>
      if (c =? 10) || (c =? 13) then ([c], input)
      else let '(l, rest) := gets_loop k input in (c :: l, rest)
  | _, _ => ([], input)
  end.
Definition gets (m : ram) (buf max : Z) (input : list Z) : ram * list Z :=
  let '(l, rest) := gets_loop (Z.to_nat (max - 1)) input in (stn m buf (l ++ [0]), rest).

(** [n = n*10 + *s++ - '0'] in an [int]. *)
Fixpoint atoi_loop (s : list Z) (n : Z) : Z :=
  match s with
  | c :: s' => if (48 <=? c) && (c <=? 57) then atoi_loop s' (i32 (n * 10 + c - 48)) else n
  | [] => n
  end.
Definition atoi (s : list Z) : Z := atoi_loop s 0.

Fixpoint copy_up (k : nat) (m : ram) (dst src : Z) : ram :=
  match k with
  | O => m
  | S k' => copy_up k' (st8 m dst (ld8 m src)) (dst + 1) (src + 1)
  end.
Fixpoint copy_down (k : nat) (m : ram) (dst src : Z) : ram :=
  match k with
  | O => m
  | S k' => copy_down k' (st8 m (dst - 1) (ld8 m (src - 1))) (dst - 1) (src - 1)
  end.
Definition memmove (m : ram) (vdst vsrc n : Z) : ram :=
  if vdst <? vsrc then copy_up (Z.to_nat n) m vdst vsrc else copy_down (Z.to_nat n) m (vdst + n) (vsrc + n).

Fixpoint memcmp_from (k : nat) (m : ram) (p1 p2 : Z) : Z :=
  match k with
  | O => 0
  | S k' => if negb (ld8 m p1 =? ld8 m p2) then ld8 m p1 - ld8 m p2 else memcmp_from k' m (p1 + 1) (p2 + 1)
  end.
Definition memcmp (m : ram) (s1 s2 n : Z) : Z := memcmp_from (Z.to_nat n) m s1 s2.
Definition memcpy (m : ram) (dst src n : Z) : ram := memmove m dst src n.

(** ** Numbers survive printing and reading *)

Lemma atoi_digits base ds n : base = 10 -> Forall (fun d => 0 <= d < base) ds -> 0 <= n ->
  n * base ^ Z.of_nat (length ds) + value base ds < 2 ^ 31 ->
  atoi_loop (rev (map (nthz digits_upper) ds)) n = n * base ^ Z.of_nat (length ds) + value base ds.
Proof.
  intros ->. revert n. induction ds as [|d ds IH] using rev_ind; intros n Hd Hn Hlt; [cbn; lia|].
  apply Forall_app in Hd as [Hd Hd1]. apply Forall_cons in Hd1 as [Hd1 _].
  assert (Hval : forall l, value 10 (l ++ [d]) = value 10 l + 10 ^ Z.of_nat (length l) * d).
  { induction l as [|e l IHl]; cbn [app value length]; [lia|]. rewrite IHl. rewrite Nat2Z.inj_succ, Z.pow_succ_r by lia. lia. }
  assert (Hnn : forall l, Forall (fun d => 0 <= d < 10) l -> 0 <= value 10 l).
  { induction 1; cbn; lia. }
  rewrite map_app, rev_app_distr. cbn [map rev app atoi_loop].
  assert (E : nthz digits_upper d = 48 + d).
  { assert (d = 0 \/ d = 1 \/ d = 2 \/ d = 3 \/ d = 4 \/ d = 5 \/ d = 6 \/ d = 7 \/ d = 8 \/ d = 9) as Hc by lia.
    repeat (destruct Hc as [->|Hc]; [done|]). by subst. }
  rewrite E. replace ((48 <=? 48 + d) && (48 + d <=? 57)) with true by lia.
  rewrite Hval in *. rewrite length_app in *. cbn [length] in *. replace (Z.of_nat (length ds + 1)) with (Z.succ (Z.of_nat (length ds))) in * by lia.
  rewrite Z.pow_succ_r in * by lia. pose proof (Hnn ds Hd). assert (0 < 10 ^ Z.of_nat (length ds)) by (apply Z.pow_pos_nonneg; lia).
  unfold i32. rewrite signed_small by nia. rewrite IH by (done || nia). lia.
Qed.

(** [atoi] reads back what [printf("%d")] prints of every non-negative
    [int]. *)
Theorem atoi_printint x : 0 <= x < 2 ^ 31 -> atoi (printint digits_upper x 10 true) = x.
Proof.
  intros Hx. unfold printint. destruct (printint_buf_spec digits_upper x 10 true) as (ds & -> & Hv & _ & Hd); [by left|lia|].
  replace (true && (x <? 0)) with false in * by lia. rewrite app_nil_r. unfold atoi.
  rewrite u64_small in Hv by lia. rewrite (atoi_digits 10); rewrite ?Hv; done || lia.
Qed.

Lemma atoi_printint_witness : atoi (printint digits_upper 65535 10 true) = 65535.
Proof. apply (atoi_printint 65535). lia. Defined.
