(* ===== verification/Umalloc.v ===== *)
(** * The user memory allocator (user/umalloc.c)

    A [Header] occupies 16 bytes; pointers to headers are addresses, and
    pointer arithmetic counts in headers. [base] is the address of the static
    header; [grow brk n] is whether the kernel lets the process grow from
    [brk] by [n] bytes. *)

From stdpp Require Import base gmap list numbers strings.
From Stdlib Require Import ZArith Lia.
From S2P Require Import Prelude.
Open Scope Z_scope.
Open Scope kernel_scope.

Definition sizeof_header : Z := 16.

(** union header *)
Record header := mk_header { h_ptr : Z; h_size : Z }.

(** [freep], the headers in memory, and the end of the process's memory. *)
Definition map_size (m : gmap Z header) : nat := stdpp.base.size m.

Record heap := mk_heap { freep : Z; hdrs : gmap Z header; brk : Z }.

Section umalloc_c.
Context (base : Z) (grow : Z -> Z -> bool).
Implicit Types (h : heap) (p bp : Z).

Definition hget h p : header := default (mk_header 0 0) (hdrs h !! p).
Definition ptr h p : Z := h_ptr (hget h p).
Definition size h p : Z := h_size (hget h p).
Definition set_header h p (x : header) : heap := mk_heap (freep h) (<[p := x]> (hdrs h)) (brk h).
Definition set_ptr h p (v : Z) : heap := set_header h p (mk_header v (size h p)).
Definition set_size h p (v : Z) : heap := set_header h p (mk_header (ptr h p) (u32 v)).
Definition set_freep h p : heap := mk_heap p (hdrs h) (brk h).
(** [p + k] on [Header*] *)
Definition plus (p k : Z) : Z := p + sizeof_header * k.

(** [sbrk(int n)] *)
Definition sbrk (n : Z) : M heap (option Z) := fun h =>
  if grow (brk h) (i32 n) then Ok (Some (brk h)) (mk_heap (freep h) (hdrs h) (brk h + i32 n)) else Ok None h.

(** The search of [free] for the block before [bp]. *)
Fixpoint free_search (fuel : nat) h p bp : option Z :=
  match fuel with
  | O => None
  | S k =>
      if (p <? bp) && (bp <? ptr h p) then Some p
      else if (ptr h p <=? p) && ((p <? bp) || (bp <? ptr h p)) then Some p
      else free_search k h (ptr h p) bp
  end.

(** [free] once the place is found. *)
Definition free_at h p bp : heap :=
  let h := if plus bp (size h bp) =? ptr h p then
             let h' := set_size h bp (size h bp + size h (ptr h p)) in
             set_ptr h' bp (ptr h' (ptr h' p))
           else set_ptr h bp (ptr h p) in
  let h := if plus p (size h p) =? bp then
             let h' := set_size h p (size h p + size h bp) in
             set_ptr h' p (ptr h' bp)
           else set_ptr h p bp in
  set_freep h p.

(** The search goes at most once around the list of free blocks. *)
Definition free (ap : Z) : M heap unit := fun h =>
  let bp := ap - sizeof_header in
  match free_search (S (map_size (hdrs h))) h (freep h) bp with
  | Some p => Ok tt (free_at h p bp)
  | None => NoFuel
  end.

Definition morecore (nu : Z) : M heap Z :=
  let nu := if nu <? 4096 then 4096 else nu in
  p <- sbrk (nu * sizeof_header) ;;
  match p with
  | None => ret 0
  | Some p =>
      modify (fun h => set_header h p (mk_header (ptr h p) nu)) ;;;
      free (plus p 1) ;;;
      gets freep
  end.

(** The loop of [malloc] at [prevp] and [p]. *)
Fixpoint malloc_loop (fuel : nat) (nunits prevp p : Z) : M heap Z :=
  match fuel with
  | O => no_fuel
  | S k =>
      h <- get ;;
      if nunits <=? size h p then
        if size h p =? nunits then
          put (set_freep (set_ptr h prevp (ptr h p)) prevp) ;;;
          ret (plus p 1)
        else
          let h := set_size h p (size h p - nunits) in
          let p := plus p (size h p) in
          let h := set_size h p nunits in
          put (set_freep h prevp) ;;;
          ret (plus p 1)
      else if p =? freep h then
        q <- morecore nunits ;;
        if q =? 0 then ret 0
        else h <- get ;; malloc_loop k nunits q (ptr h q)
      else malloc_loop k nunits p (ptr h p)
  end.

Definition malloc (nbytes : Z) : M heap Z :=
  let nunits := u32 ((nbytes + sizeof_header - 1) / sizeof_header + 1) in
  h <- get ;;
  when (freep h =? 0) (put (set_freep (set_header h base (mk_header base 0)) base)) ;;;
  h <- get ;;
  malloc_loop (2 * map_size (hdrs h) + 6) nunits (freep h) (ptr h (freep h)).
End umalloc_c.

(** A process that has used no heap yet. *)
Definition heap0 (b : Z) : heap := mk_heap 0 ∅ b.
