(* ===== verification/UmallocSpec.v ===== *)
(** * The user allocator hands out disjoint memory

    The free blocks form a ring through [base], sorted by address. *)

From stdpp Require Import base gmap list numbers strings sorting.
From Stdlib Require Import ZArith Lia.
From S2P Require Import Prelude Umalloc.
Open Scope Z_scope.
Open Scope kernel_scope.

(** ** Rings *)

(** [l] is linked in order, and its last element to [z]. *)
Fixpoint chain (h : heap) (l : list Z) (z : Z) : Prop :=
  match l with
  | [] => True
  | x :: l' => ptr h x = hd z l' /\ chain h l' z
  end.

Lemma chain_app h l1 l2 z : chain h (l1 ++ l2) z <-> chain h l1 (hd z l2) /\ chain h l2 z.
Proof.
  induction l1 as [|x l1 IH]; cbn; [tauto|]. rewrite IH. destruct l1; cbn; tauto.
Qed.
Lemma chain_ext h h' l z : (forall x, x ∈ l -> ptr h' x = ptr h x) -> chain h l z -> chain h' l z.
Proof.
  induction l as [|x l IH]; cbn; [done|]. intros He [Hx Hl]. split; [rewrite He by (by left); done|]. apply IH; [|done].
  intros y Hy. apply He. by right.
Qed.

Lemma ring_next h b l i x : chain h (b :: l) b -> (b :: l) !! i = Some x -> (b :: l) !! next_pos (length (b :: l)) i = Some (ptr h x).
Proof.
  intros Hc Hx. assert (Hi : (i < length (b :: l))%nat) by (by apply lookup_lt_Some in Hx). unfold next_pos.
  pose proof Hc as Hc'. rewrite <- (take_drop_middle _ _ _ Hx) in Hc. apply chain_app in Hc as [_ [Hp _]]. rewrite Hp.
  destruct (decide (S i = length (b :: l))) as [E|E].
  - rewrite E, Nat.Div0.mod_same. rewrite drop_ge by lia. done.
  - rewrite Nat.mod_small by lia. destruct (lookup_lt_is_Some_2 (b :: l) (S i)) as [y Hy]; [lia|]. rewrite Hy. f_equal.
    rewrite (drop_S _ y) by done. done.
Qed.

(** ** Headers *)

Create HintDb heap.
Create Rewrite HintDb heap.

Section headers.
Implicit Types (h : heap) (p q v : Z).

Lemma hget_set h p q x : hget (set_header h p x) q = if decide (q = p) then x else hget h q.
Proof.
  unfold hget, set_header. cbn. case_decide; [subst; by rewrite lookup_insert_eq|by rewrite lookup_insert_ne].
Qed.
Lemma ptr_set_ptr h p q v : ptr (set_ptr h p v) q = if decide (q = p) then v else ptr h q.
Proof. unfold ptr, set_ptr. rewrite hget_set. by case_decide. Qed.
Lemma size_set_ptr h p q v : size (set_ptr h p v) q = size h q.
Proof. unfold size, set_ptr. rewrite hget_set. case_decide; by subst. Qed.
Lemma ptr_set_size h p q v : ptr (set_size h p v) q = ptr h q.
Proof. unfold ptr, set_size. rewrite hget_set. case_decide; by subst. Qed.
Lemma size_set_size h p q v : size (set_size h p v) q = if decide (q = p) then u32 v else size h q.
Proof. unfold size, set_size. rewrite hget_set. by case_decide. Qed.
Lemma ptr_set_freep h p q : ptr (set_freep h p) q = ptr h q.
Proof. done. Qed.
Lemma size_set_freep h p q : size (set_freep h p) q = size h q.
Proof. done. Qed.
Lemma has_set_ptr h p q v : is_Some (hdrs h !! q) -> is_Some (hdrs (set_ptr h p v) !! q).
Proof. unfold set_ptr, set_header. cbn. destruct (decide (q = p)) as [->|]; [by rewrite lookup_insert_eq|by rewrite lookup_insert_ne]. Qed.
Lemma has_set_size h p q v : is_Some (hdrs h !! q) -> is_Some (hdrs (set_size h p v) !! q).
Proof. unfold set_size, set_header. cbn. destruct (decide (q = p)) as [->|]; [by rewrite lookup_insert_eq|by rewrite lookup_insert_ne]. Qed.
Lemma has_set_freep h p q : is_Some (hdrs h !! q) -> is_Some (hdrs (set_freep h p) !! q).
Proof. done. Qed.
End headers.
#[local] Hint Rewrite ptr_set_ptr size_set_ptr ptr_set_size size_set_size ptr_set_freep size_set_freep : heap.
#[local] Hint Resolve has_set_ptr has_set_size has_set_freep : heap.

(** ** The invariant *)

Section umalloc.
Context (base lo : Z) (grow : Z -> Z -> bool).
Implicit Types (h : heap) (p bp x y : Z) (r fs : list Z) (live : Z -> Prop).

(** The end of a block, and two blocks that do not overlap. *)
Definition ext h x : Z := plus x (size h x).
Definition apart h x y : Prop := ext h x <= y \/ ext h y <= x.

(** [r] is the ring of free blocks from [base] on, [live] the blocks the
    program holds. [size] counts headers in 32 bits, which is enough while the
    heap stays below 2^36 bytes. *)
Record uinv h r live : Prop := mk_uinv {
  ui_head : exists fs, r = base :: fs;
  ui_chain : chain h r base;
  ui_sorted : StronglySorted Z.lt r;
  ui_order x y : x ∈ r -> y ∈ r -> x < y -> ext h x <= y;
  ui_base : 0 < base /\ base + sizeof_header <= lo /\ size h base = 0 /\ is_Some (hdrs h !! base);
  ui_block x : (x ∈ r /\ x <> base) \/ live x -> lo <= x /\ 1 <= size h x /\ ext h x <= brk h /\ is_Some (hdrs h !! x);
  ui_apart x y : x ∈ r -> live y -> apart h x y;
  ui_live x y : live x -> live y -> x <> y -> apart h x y;
  ui_freep : freep h ∈ r;
  ui_brk : lo <= brk h <= lo + 2 ^ 36 - sizeof_header }.

Lemma ext_eq h x : ext h x = x + 16 * size h x.
Proof. unfold ext, plus, sizeof_header. lia. Qed.

Lemma size_bound h r live x : uinv h r live -> (x ∈ r /\ x <> base) \/ live x -> 1 <= size h x < 2 ^ 32.
Proof.
  intros Hu Hx. destruct (ui_block _ _ _ Hu x Hx) as (H1 & H2 & H3 & _). rewrite ext_eq in H3. pose proof (ui_brk _ _ _ Hu). unfold sizeof_header in *. lia.
Qed.
Lemma base_lt h r live x : uinv h r live -> (x ∈ r /\ x <> base) \/ live x -> base < x.
Proof.
  intros Hu Hx. destruct (ui_block _ _ _ Hu x Hx) as (H1 & _). destruct (ui_base _ _ _ Hu) as (_ & B & _). unfold sizeof_header in B. lia.
Qed.
Lemma live_not_free h r live x : uinv h r live -> live x -> x ∉ r.
Proof.
  intros Hu Hx Hin. pose proof (ui_block _ _ _ Hu x (or_intror Hx)) as (H1 & H2 & _).
  destruct (ui_apart _ _ _ Hu x x Hin Hx) as [E|E]; rewrite ext_eq in E; lia.
Qed.

(** A block that is held lies between two neighbours of the ring. *)
Lemma ring_split (l : list Z) b x : StronglySorted Z.lt (b :: l) -> b < x -> x ∉ l ->
  exists l1 p l2, b :: l = l1 ++ p :: l2 /\ p < x /\ Forall (fun y => x < y) l2.
Proof.
  revert b. induction l as [|y l IH]; intros b Hs Hb Hx; [by exists [], b, []|]. apply StronglySorted_cons in Hs as [Hlt Hs].
  rewrite elem_of_cons in Hx. destruct (decide (y < x)).
  - destruct (IH y Hs ltac:(done) ltac:(tauto)) as (l1 & p & l2 & E & Hp & Hl). exists (b :: l1), p, l2. by rewrite E.
  - exists [], b, (y :: l). split_and!; [done|done|]. assert (x < y) by lia. constructor; [done|].
    apply StronglySorted_cons in Hs as [Hy _]. eapply Forall_impl; [exact Hy|]. cbn. lia.
Qed.
Lemma sorted_nodup (l : list Z) : StronglySorted Z.lt l -> NoDup l.
Proof.
  induction l as [|x l IH]; [constructor|]. intros [Hx Hs]%StronglySorted_cons. apply NoDup_cons. split; [|by apply IH].
  intros Hin. rewrite Forall_forall in Hx. specialize (Hx x Hin). lia.
Qed.
Lemma place h r live bp : uinv h r live -> live bp -> exists l1 p l2, r = l1 ++ p :: l2 /\ p < bp /\ Forall (fun y => bp < y) l2.
Proof.
  intros Hu Hl. destruct (ui_head _ _ _ Hu) as [fs ->]. apply ring_split; [apply Hu|by eapply base_lt; [|right]|].
  intros Hin. apply (live_not_free _ _ _ _ Hu Hl). by right.
Qed.

(** ** The search of [free] *)

Definition stops h p bp : bool :=
  ((p <? bp) && (bp <? ptr h p)) || ((ptr h p <=? p) && ((p <? bp) || (bp <? ptr h p))).
Lemma free_search_step k h p bp : free_search (S k) h p bp = if stops h p bp then Some p else free_search k h (ptr h p) bp.
Proof. unfold stops. cbn. by destruct ((p <? bp) && (bp <? ptr h p)). Qed.

Lemma stops_at h r live bp k1 x k2 : uinv h r live -> base < bp -> r = k1 ++ x :: k2 ->
  stops h x bp = true <-> x < bp /\ Forall (fun y => bp < y) k2.
Proof.
  intros Hu Hbb Ek. pose proof (ui_sorted _ _ _ Hu) as Hs. pose proof (ui_chain _ _ _ Hu) as Hc.
  assert (Hbx : base <= x).
  { destruct (decide (x = base)) as [->|Hne]; [done|]. apply Z.lt_le_incl, (base_lt h r live x Hu). left. split; [rewrite Ek; set_solver|done]. }
  rewrite Ek in Hs, Hc. apply chain_app in Hc as [_ [Hptr _]]. apply StronglySorted_app_1_r, StronglySorted_cons in Hs as [Hx Hs].
  unfold stops. rewrite Hptr. destruct k2 as [|y k2]; cbn [hd].
  - split; [|lia]. intros H. split; [lia|constructor].
  - rewrite Forall_cons in Hx. apply StronglySorted_cons in Hs as [Hy _]. split; [|rewrite Forall_cons; lia].
    intros H. assert (x < bp < y) by lia. split; [lia|]. constructor; [lia|]. eapply Forall_impl; [exact Hy|]. cbn. lia.
Qed.

Lemma stops_iff h r live bp l1 p l2 x : uinv h r live -> base < bp -> r = l1 ++ p :: l2 -> p < bp -> Forall (fun y => bp < y) l2 ->
  x ∈ r -> stops h x bp = true <-> x = p.
Proof.
  intros Hu Hbb Er Hp Hl Hx. apply list_elem_of_split in Hx as (k1 & k2 & Ek). pose proof (ui_sorted _ _ _ Hu) as Hs.
  pose proof Hs as Hs'. rewrite Er in Hs. rewrite Ek in Hs'. rewrite Forall_forall in Hl. split.
  - intros H. apply (stops_at h r live bp k1 x k2 Hu Hbb Ek) in H as [Hx Hk]. rewrite Forall_forall in Hk.
    assert (H1 : x ∈ l1 ++ p :: l2) by (rewrite <- Er, Ek; set_solver). assert (H2 : p ∈ k1 ++ x :: k2) by (rewrite <- Ek, Er; set_solver).
    rewrite elem_of_app, elem_of_cons in H1, H2. destruct H1 as [H1|[H1|H1]]; [|done|specialize (Hl x H1); lia].
    destruct H2 as [H2|[H2|H2]]; [|done|specialize (Hk p H2); lia].
    pose proof (StronglySorted_app_1_elem_of _ _ _ x p Hs H1 ltac:(by left)). pose proof (StronglySorted_app_1_elem_of _ _ _ p x Hs' H2 ltac:(by left)). lia.
  - intros ->. apply (stops_at h r live bp l1 p l2 Hu Hbb Er). rewrite Forall_forall. done.
Qed.

Lemma ring_has h r live x : uinv h r live -> x ∈ r -> is_Some (hdrs h !! x).
Proof.
  intros Hu Hx. destruct (decide (x = base)) as [->|Hne]; [apply (ui_base _ _ _ Hu)|]. apply (ui_block _ _ _ Hu x (or_introl (conj Hx Hne))).
Qed.
(** The ring is no longer than the number of headers. *)
Lemma ring_length h r live : uinv h r live -> (length r <= map_size (hdrs h))%nat.
Proof.
  intros Hu. unfold map_size. rewrite <- size_dom. rewrite <- (size_list_to_set (C := gset Z) r) by (apply sorted_nodup, Hu).
  apply subseteq_size. intros x Hx%elem_of_list_to_set. apply elem_of_dom. by eapply ring_has.
Qed.
Lemma ring_step h r live i x : uinv h r live -> r !! i = Some x -> r !! next_pos (length r) i = Some (ptr h x).
Proof. intros Hu. pose proof (ui_chain _ _ _ Hu) as Hc. destruct (ui_head _ _ _ Hu) as [fs ->]. by apply ring_next. Qed.

(** The search ends at the block before [bp], from any place in the ring. *)
Lemma free_search_run h r live bp l1 p l2 : uinv h r live -> base < bp -> r = l1 ++ p :: l2 -> p < bp -> Forall (fun y => bp < y) l2 ->
  forall fuel i x, r !! i = Some x -> (steps_to (length r) i (length l1) < fuel)%nat -> free_search fuel h x bp = Some p.
Proof.
  intros Hu Hbb Er Hp Hl. assert (Hj : r !! length l1 = Some p) by (rewrite Er; by rewrite list_lookup_middle).
  assert (Hjn : (length l1 < length r)%nat) by (by apply lookup_lt_Some in Hj).
  assert (Hst := fun x => stops_iff h r live bp l1 p l2 x Hu Hbb Er Hp Hl).
  induction fuel as [|k IH]; intros i x Hx Hf; [lia|]. rewrite free_search_step.
  destruct (stops h x bp) eqn:E; [f_equal; apply Hst; [by eapply list_elem_of_lookup_2|done]|].
  destruct (decide (i = length l1)) as [->|Hne].
  - rewrite Hj in Hx. injection Hx as <-. rewrite (proj2 (Hst p ltac:(by eapply list_elem_of_lookup_2)) eq_refl) in E. done.
  - assert (Hi : (i < length r)%nat) by (by apply lookup_lt_Some in Hx). destruct (steps_to_next _ _ _ Hi Hjn Hne) as [Hlt Hs].
    apply (IH (next_pos (length r) i)); [by eapply ring_step|lia].
Qed.

(** ** [free] in steps *)

(** The second half of [free], on the lower neighbour [p]. *)
Definition free_low h p bp : heap :=
  set_freep (if plus p (size h p) =? bp then
               let h' := set_size h p (size h p + size h bp) in set_ptr h' p (ptr h' bp)
             else set_ptr h p bp) p.
(** Taking [n], the upper neighbour of [bp], out of the ring and into [bp]. *)
Definition unlink h p bp n : heap := set_freep (set_size (set_ptr h p (ptr h n)) bp (size h bp + size h n)) p.

Lemma heap_eq h h' : freep h = freep h' -> brk h = brk h' -> (forall x, hdrs h !! x = hdrs h' !! x) -> h = h'.
Proof. destruct h, h'. cbn. intros -> -> E. f_equal. by apply map_eq. Qed.
Lemma hdrs_set_ptr h p v q : hdrs (set_ptr h p v) !! q = if decide (q = p) then Some (mk_header v (size h p)) else hdrs h !! q.
Proof. unfold set_ptr, set_header. cbn. case_decide; [subst; by rewrite lookup_insert_eq|by rewrite lookup_insert_ne]. Qed.
Lemma hdrs_set_size h p v q : hdrs (set_size h p v) !! q = if decide (q = p) then Some (mk_header (ptr h p) (u32 v)) else hdrs h !! q.
Proof. unfold set_size, set_header. cbn. case_decide; [subst; by rewrite lookup_insert_eq|by rewrite lookup_insert_ne]. Qed.
Lemma hdrs_set_freep h p q : hdrs (set_freep h p) !! q = hdrs h !! q.
Proof. done. Qed.
Ltac at_header := repeat first [rewrite hdrs_set_freep | rewrite hdrs_set_ptr | rewrite hdrs_set_size | (progress autorewrite with heap) | (case_decide; subst; try done)].

(** The second half does not depend on the link of [p]. *)
Lemma free_low_link h p bp v w : p <> bp -> free_low (set_freep (set_ptr h p v) w) p bp = free_low h p bp.
Proof.
  intros Hne. unfold free_low. cbn zeta. rewrite !size_set_freep, !size_set_ptr. apply heap_eq; [done|by destruct (_ =? _)|].
  intros x. destruct (_ =? _); at_header.
Qed.
Lemma free_at_low h p bp : ext h bp <> ptr h p -> free_at h p bp = free_low (set_ptr h bp (ptr h p)) p bp.
Proof. intros Hn. unfold free_at, ext in *. by rewrite (proj2 (Z.eqb_neq _ _) Hn). Qed.
Lemma free_at_up h p bp : p <> bp -> ptr h p <> bp -> ext h bp = ptr h p ->
  free_at h p bp = let h' := unlink h p bp (ptr h p) in free_low (set_ptr h' bp (ptr h' p)) p bp.
Proof.
  intros Hne Hnb E. unfold free_at, ext in *. rewrite (proj2 (Z.eqb_eq _ _) E). cbn zeta.
  set (h1 := set_ptr (set_size h bp _) bp _). change (free_low h1 p bp = free_low (set_ptr (unlink h p bp (ptr h p)) bp (ptr (unlink h p bp (ptr h p)) p)) p bp).
  rewrite <- (free_low_link h1 p bp (ptr h (ptr h p)) p Hne). f_equal. apply heap_eq; [done|done|]. intros x. unfold h1, unlink. at_header.
Qed.

Lemma nodup_middle (l1 l2 : list Z) p : StronglySorted Z.lt (l1 ++ p :: l2) -> p ∉ l1 /\ p ∉ l2.
Proof. intros H%sorted_nodup. apply NoDup_app in H as (_ & H1 & H2). apply NoDup_cons in H2 as [H2 _]. split; [|done]. intros Hin. apply (H1 p Hin). by left. Qed.

(** The link of [p] changes: [p :: l2] becomes [p :: l2']. *)
Lemma chain_relink h h' l1 p l2 l2' z : chain h (l1 ++ p :: l2) z -> p ∉ l1 -> (forall x, x ∈ l1 -> ptr h' x = ptr h x) ->
  ptr h' p = hd z l2' -> chain h' l2' z -> chain h' (l1 ++ p :: l2') z.
Proof.
  intros [Hc _]%chain_app Hp He Hh Hc'. apply chain_app. split; [|by split]. cbn [hd] in *. by apply (chain_ext h).
Qed.

Ltac entries := autorewrite with heap; repeat (case_decide; subst).

(** The block [n] right after [bp] is not [base]; taking it in, [bp] ends where
    [n] ended. *)
Lemma unlink_ext h r live p bp n : uinv h r live -> live bp -> n ∈ r -> ext h bp = n -> n <> base /\
  (forall x, x <> bp -> size (unlink h p bp n) x = size h x) /\ (forall x, x <> bp -> ext (unlink h p bp n) x = ext h x) /\
  size (unlink h p bp n) bp = size h bp + size h n /\ ext (unlink h p bp n) bp = ext h n.
Proof.
  intros Hu Hlive Hn En. assert (Hnb : n <> base).
  { intros ->. destruct (ui_block _ _ _ Hu bp (or_intror Hlive)) as (_ & ? & _). pose proof (base_lt _ _ _ _ Hu (or_intror Hlive)). rewrite ext_eq in En. lia. }
  assert (Hsz : forall x, x <> bp -> size (unlink h p bp n) x = size h x) by (intros x Hx; unfold unlink; entries; done).
  assert (Hszb : size (unlink h p bp n) bp = size h bp + size h n).
  { unfold unlink. rewrite size_set_freep, size_set_size, decide_True by done. apply u32_small. destruct (ui_block _ _ _ Hu n (or_introl (conj Hn Hnb))) as (? & ? & ? & _).
    destruct (ui_block _ _ _ Hu bp (or_intror Hlive)) as (? & ? & _). pose proof (ui_brk _ _ _ Hu). rewrite !ext_eq in *. unfold sizeof_header in *. lia. }
  split_and!; [done|done| |done|rewrite !ext_eq in *; rewrite Hszb; lia]. intros x Hx. by rewrite !ext_eq, Hsz.
Qed.
Lemma sorted_skip (l1 l2 : list Z) p n : StronglySorted Z.lt (l1 ++ p :: n :: l2) ->
  StronglySorted Z.lt (l1 ++ p :: l2) /\ forall x, x ∈ l1 ++ p :: l2 -> x ∈ l1 ++ p :: n :: l2 /\ x <> n.
Proof.
  intros Hs. pose proof (sorted_nodup _ Hs) as Hd. split.
  - apply StronglySorted_app in Hs as (H1 & H2 & H3). rewrite !StronglySorted_cons, !Forall_cons in H3. apply StronglySorted_app.
    split_and!; [|done|apply StronglySorted_cons; tauto]. intros x y Hx Hy. apply H1; set_solver.
  - intros x Hx. split; [set_solver|]. intros ->. rewrite cons_middle, app_assoc in Hd. apply NoDup_app in Hd as (_ & H1 & H2).
    apply NoDup_cons in H2 as [H2 _]. specialize (H1 n). set_solver.
Qed.

Lemma unlink_inv h r live l1 p n l2 bp : uinv h r live -> live bp -> r = l1 ++ p :: n :: l2 -> ext h bp = n -> p < bp ->
  uinv (unlink h p bp n) (l1 ++ p :: l2) live.
Proof.
  intros Hu Hlive Er En Hp. assert (Hnr : n ∈ r) by (rewrite Er; set_solver).
  destruct (unlink_ext h r live p bp n Hu Hlive Hnr En) as (Hnb & Hsz & Hex & Hszb & Hexb).
  pose proof (live_not_free _ _ _ _ Hu Hlive) as Hbr. destruct Hu as [[fs Hh] Hc Hs Ho Hb Hbl Ha Hl Hf Hk].
  assert (Hsk := Hs). rewrite Er in Hsk. apply sorted_skip in Hsk as [Hs' Hsub]. rewrite <- Er in Hsub.
  destruct (Hbl n (or_introl (conj Hnr Hnb))) as (N1 & N2 & N3 & N4). destruct (Hbl bp (or_intror Hlive)) as (B1 & B2 & B3 & B4).
  assert (Hne : forall x, x ∈ r -> x <> bp) by (intros x Hx ->; done).
  rewrite Er in Hc, Hs. destruct (nodup_middle _ _ _ Hs) as [Hp1 Hp2]. split.
  - destruct l1 as [|b l1]; rewrite Hh in Er; injection Er as -> _; eauto.
  - apply (chain_relink h _ l1 p (n :: l2)); [done|done| | |].
    + intros x Hx. unfold unlink. entries; done.
    + apply chain_app in Hc as [_ (_ & E & _)]. unfold unlink. entries; done.
    + apply chain_app in Hc as [_ (_ & _ & Hc)]. revert Hc. apply chain_ext. intros x Hx. unfold unlink. entries; [|done]. set_solver.
  - done.
  - intros x y [Hx _]%Hsub [Hy _]%Hsub Hlt. rewrite Hex by auto. by apply Ho.
  - destruct Hb as (? & ? & ? & ?). split_and!; [done|done| |unfold unlink; auto with heap]. rewrite Hsz; [done|]. unfold sizeof_header in *. lia.
  - intros x Hx. destruct (decide (x = bp)) as [->|Hxb].
    + rewrite Hexb. split_and!; [done| |done|]; [|unfold unlink; auto with heap].
      rewrite Hszb. lia.
    + rewrite Hex, Hsz by done. assert (Hx' : (x ∈ r /\ x <> base) \/ live x) by (destruct Hx as [[Hx%Hsub ?]|]; [left; tauto|by right]).
      destruct (Hbl x Hx') as (? & ? & ? & ?). split_and!; try done. unfold unlink; auto with heap.
  - intros x y [Hx Hxn]%Hsub Hy. unfold apart. rewrite (Hex x) by auto. destruct (decide (y = bp)) as [->|Hyb]; [rewrite Hexb|rewrite Hex by done; by apply Ha].
    destruct (Ha x bp Hx Hlive) as [?|Hle]; [by left|right]. rewrite En in Hle. apply Ho; [done|done|lia].
  - assert (Hbn : forall y, live y -> y <> bp -> ext h y <= bp \/ ext h n <= y).
    { intros y Hy Hyb. destruct (Hl y bp Hy Hlive Hyb) as [?|Hle]; [by left|right]. rewrite En in Hle. destruct (Ha n y Hnr Hy) as [?|Hle']; [done|].
      destruct (Hbl y (or_intror Hy)) as (_ & ? & _). rewrite ext_eq in Hle'. lia. }
    intros x y Hx Hy Hxy. unfold apart. destruct (decide (x = bp)) as [->|Hxb], (decide (y = bp)) as [->|Hyb]; rewrite ?Hexb, ?Hex by done; [done| | |by apply Hl].
    + destruct (Hbn y Hy Hyb); tauto.
    + destruct (Hbn x Hx Hxb); tauto.
  - cbn. set_solver.
  - done.
Qed.

Definition without live bp : Z -> Prop := fun x => live x /\ x <> bp.

(** [bp] joins the ring after [p]. *)
Lemma link_inv h live l1 p l2 bp : uinv h (l1 ++ p :: l2) live -> live bp -> p < bp -> Forall (fun y => bp < y) l2 ->
  uinv (set_freep (set_ptr (set_ptr h bp (ptr h p)) p bp) p) (l1 ++ p :: bp :: l2) (without live bp).
Proof.
  intros Hu Hlive Hp Hl2. pose proof (live_not_free _ _ _ _ Hu Hlive) as Hbr. destruct Hu as [[fs Hh] Hc Hs Ho Hb Hbl Ha Hl Hf Hk].
  set (h' := set_freep _ p). assert (Hsz : forall x, size h' x = size h x) by (intros x; unfold h'; by entries).
  assert (Hex : forall x, ext h' x = ext h x) by (intros x; by rewrite !ext_eq, Hsz).
  assert (Hmem : forall x, x ∈ l1 ++ p :: bp :: l2 -> x = bp \/ x ∈ l1 ++ p :: l2) by set_solver.
  assert (Hhas : forall x, is_Some (hdrs h !! x) -> is_Some (hdrs h' !! x)) by (intros x Hx; unfold h'; auto with heap).
  destruct (nodup_middle _ _ _ Hs) as [Hp1 Hp2]. split.
  - destruct l1 as [|b l1]; injection Hh as -> _; eauto.
  - apply (chain_relink h _ l1 p l2); [done|done| | |split].
    + intros x Hx. unfold h'. entries; set_solver.
    + unfold h'. by entries.
    + apply chain_app in Hc as [_ (E & _)]. unfold h'. entries; [lia|done..].
    + apply chain_app in Hc as [_ (_ & Hc)]. revert Hc. apply chain_ext. intros x Hx. unfold h'. entries; set_solver.
  - apply StronglySorted_app in Hs as (H1 & H2 & H3). apply StronglySorted_cons in H3 as [H3 H4]. apply StronglySorted_app. split_and!; [|done|].
    + intros x y Hx [->|[->|Hy]%elem_of_cons]%elem_of_cons; [apply H1; set_solver| |apply H1; set_solver].
      transitivity p; [apply H1; set_solver|done].
    + rewrite !StronglySorted_cons, Forall_cons. done.
  - intros x y [->|Hx]%Hmem [->|Hy]%Hmem Hlt; rewrite Hex; [lia| | |by apply Ho].
    + destruct (Ha y bp Hy Hlive) as [E|E]; [|done]. assert (Hy2 : base <> y -> 1 <= size h y) by (intros; apply Hbl; left; auto).
      destruct (decide (base = y)) as [<-|Hne]; [|specialize (Hy2 Hne); rewrite ext_eq in E; lia].
      destruct (Hbl bp (or_intror Hlive)) as [? _]. unfold sizeof_header in *. lia.
    + destruct (Ha x bp Hx Hlive) as [E|E]; [done|]. destruct (Hbl bp (or_intror Hlive)) as (_ & ? & _). rewrite ext_eq in E. lia.
  - rewrite Hsz. destruct Hb as (? & ? & ? & ?). auto.
  - intros x Hx. rewrite Hex, Hsz. assert (Hx' : (x ∈ l1 ++ p :: l2 /\ x <> base) \/ live x).
    { destruct Hx as [[[->|Hx]%Hmem Hxb]|[Hx _]]; [by right|by left|by right]. }
    destruct (Hbl x Hx') as (? & ? & ? & ?). auto.
  - intros x y [->|Hx]%Hmem [Hy Hyb]; unfold apart; rewrite !Hex; [by apply Hl|by apply Ha].
  - intros x y [Hx _] [Hy _] Hne. unfold apart. rewrite !Hex. by apply Hl.
  - cbn. set_solver.
  - done.
Qed.

(** [bp] is the end of the free block [p]. *)
Lemma join_inv h live l1 p l2 bp h' : uinv h (l1 ++ p :: l2) live -> live bp -> ext h p = bp -> p <> base ->
  (forall x, ptr h' x = if decide (x = bp) then ptr h p else ptr h x) ->
  (forall x, size h' x = if decide (x = p) then size h p + size h bp else size h x) ->
  (forall x, is_Some (hdrs h !! x) -> is_Some (hdrs h' !! x)) -> brk h' = brk h -> freep h' = p ->
  uinv h' (l1 ++ p :: l2) (without live bp).
Proof.
  intros Hu Hlive Hp Hpb Hptr Hsz Hhas Hbrk Hfp. pose proof (live_not_free _ _ _ _ Hu Hlive) as Hbr. destruct Hu as [Hh Hc Hs Ho Hb Hbl Ha Hl Hf Hk].
  set (r := l1 ++ p :: l2) in *. assert (Hpr : p ∈ r) by (unfold r; set_solver).
  assert (Hex : forall x, x <> p -> ext h' x = ext h x) by (intros x Hx; rewrite !ext_eq, Hsz; by rewrite decide_False).
  assert (Hexp : ext h' p = ext h bp) by (rewrite !ext_eq in *; rewrite Hsz, decide_True by done; lia).
  destruct (Hbl bp (or_intror Hlive)) as (B1 & B2 & B3 & B4). destruct (Hbl p (or_introl (conj Hpr Hpb))) as (P1 & P2 & P3 & P4).
  assert (Hpn : forall y, live y -> y <> p) by (intros y Hy ->; destruct (Ha p p Hpr Hy) as [E|E]; rewrite ext_eq in E; lia).
  split; try done.
  - revert Hc. apply chain_ext. intros x Hx. rewrite Hptr. by rewrite decide_False by (by intros ->).
  - intros x y Hx Hy Hlt. destruct (decide (x = p)) as [->|Hne]; [|rewrite Hex by done; by apply Ho]. rewrite Hexp.
    destruct (Ha y bp Hy Hlive) as [E|E]; [|done]. pose proof (Ho p y Hpr Hy Hlt). assert (Hyb : y <> base).
    { intros ->. unfold sizeof_header in *. lia. }
    destruct (Hbl y (or_introl (conj Hy Hyb))) as (_ & ? & _). rewrite ext_eq in E. lia.
  - destruct Hb as (? & ? & ? & ?). rewrite Hsz, decide_False by done. auto.
  - intros x Hx. rewrite Hbrk. assert (Hx' : (x ∈ r /\ x <> base) \/ live x) by (destruct Hx as [|[]]; auto).
    destruct (Hbl x Hx') as (? & ? & ? & ?). destruct (decide (x = p)) as [->|Hne].
    + rewrite Hexp, Hsz, decide_True by done. split_and!; [done|lia|done|auto].
    + rewrite Hex, Hsz, decide_False by done. auto.
  - intros x y Hx [Hy Hyb]. unfold apart. rewrite (Hex y) by auto. destruct (decide (x = p)) as [->|Hne]; [|rewrite Hex by done; by apply Ha].
    rewrite Hexp. destruct (Ha p y Hpr Hy) as [E|E]; [|by right]. destruct (Hl bp y Hlive Hy ltac:(done)) as [E'|E']; [by left|].
    destruct (Hbl y (or_intror Hy)) as (_ & ? & _). rewrite ext_eq in E'. lia.
  - intros x y [Hx _] [Hy _] Hne. unfold apart. rewrite !Hex by auto. by apply Hl.
  - by rewrite Hfp.
  - by rewrite Hbrk.
Qed.

(** What a call of [free] on the held block [bp] establishes. *)
Record freed h r live bp h' r' : Prop := mk_freed {
  fr_inv : uinv h' r' (without live bp);
  fr_size y : live y -> y <> bp -> size h' y = size h y;
  fr_room : exists x, x ∈ r' /\ size h bp <= size h' x;
  fr_len : (length r' <= S (length r))%nat;
  fr_brk : brk h' = brk h }.

Lemma free_low_run h live l1 p l2 bp : uinv h (l1 ++ p :: l2) live -> live bp -> p < bp -> Forall (fun y => bp < y) l2 ->
  exists r', freed h (l1 ++ p :: l2) live bp (free_low (set_ptr h bp (ptr h p)) p bp) r'.
Proof.
  intros Hu Hlive Hp Hl2. pose proof (live_not_free _ _ _ _ Hu Hlive) as Hbr. assert (Hpn : forall y, live y -> y <> p).
  { intros y Hy ->. apply (live_not_free _ _ _ _ Hu Hy). set_solver. }
  unfold free_low. cbn zeta. rewrite size_set_ptr. change (plus p (size h p)) with (ext h p). destruct (Z.eqb_spec (ext h p) bp) as [E|E].
  - exists (l1 ++ p :: l2). assert (Hpb : p <> base).
    { intros ->. destruct (ui_base _ _ _ Hu) as (_ & _ & Hz & _). rewrite ext_eq, Hz in E. lia. }
    assert (Hbd : 1 <= size h p /\ 0 <= size h p + size h bp < 2 ^ 32).
    { destruct (ui_block _ _ _ Hu bp (or_intror Hlive)) as (_ & ? & ? & _). destruct (ui_block _ _ _ Hu p) as (? & ? & _); [left; split; [set_solver|done]|].
      destruct (ui_brk _ _ _ Hu). rewrite !ext_eq in *. unfold sizeof_header in *. lia. }
    set (h' := set_freep _ p). assert (Hsz : forall x, size h' x = if decide (x = p) then size h p + size h bp else size h x).
    { intros x. unfold h'. entries; try done. apply u32_small. lia. }
    split; [|intros y Hy Hyb; rewrite Hsz, decide_False by auto; done| |lia|done].
    + apply (join_inv h live l1 p l2 bp); try done; [|intros x Hx; unfold h'; auto with heap]. intros x. unfold h'. entries; done.
    + exists p. rewrite Hsz, decide_True by done. split; [set_solver|lia].
  - exists (l1 ++ p :: bp :: l2). split; [by apply link_inv| | | |done].
    + intros y Hy Hyb. entries; done.
    + exists bp. split; [set_solver|]. entries; try done; lia.
    + rewrite !length_app. cbn. lia.
Qed.

Lemma free_run h r live bp : uinv h r live -> live bp -> exists h' r', free (plus bp 1) h = Ok tt h' /\ freed h r live bp h' r'.
Proof.
  intros Hu Hlive. destruct (place _ _ _ _ Hu Hlive) as (l1 & p & l2 & Er & Hp & Hl2).
  exists (free_at h p bp). assert (Hrun : free (plus bp 1) h = Ok tt (free_at h p bp)).
  { unfold free. replace (plus bp 1 - sizeof_header) with bp by (unfold plus; lia).
    destruct (list_elem_of_lookup_1 _ _ (ui_freep _ _ _ Hu)) as [i Hi]. assert (Hil := lookup_lt_Some _ _ _ Hi).
    rewrite (free_search_run h r live bp l1 p l2 Hu (base_lt _ _ _ _ Hu (or_intror Hlive)) Er Hp Hl2 _ i); [done|done|].
    pose proof (ring_length _ _ _ Hu). assert (length l1 < length r)%nat by (rewrite Er, length_app; cbn; lia).
    pose proof (steps_to_lt (length r) i (length l1) ltac:(done) ltac:(done)). lia. }
  pose proof (ui_chain _ _ _ Hu) as Hc. rewrite Er in Hc. apply chain_app in Hc as [_ [Hptr _]].
  destruct (decide (ext h bp = ptr h p)) as [E|E].
  - rewrite Hptr in E. destruct l2 as [|n l2]; cbn [hd] in *.
    { destruct (ui_block _ _ _ Hu bp (or_intror Hlive)) as (? & ? & _). pose proof (base_lt _ _ _ _ Hu (or_intror Hlive)). rewrite ext_eq in E. lia. }
    rewrite Forall_cons in Hl2. destruct Hl2 as [Hn Hl2]. set (h1 := unlink h p bp n).
    assert (Hu1 : uinv h1 (l1 ++ p :: l2) live) by (by eapply unlink_inv).
    destruct (free_low_run h1 live l1 p l2 bp Hu1 Hlive Hp Hl2) as [r' [F1 F2 F3 F4 F5]]. exists r'. split; [done|].
    rewrite free_at_up by (rewrite ?Hptr; lia || done). rewrite Hptr. fold h1. cbn zeta.
    destruct (unlink_ext h r live p bp n Hu Hlive ltac:(rewrite Er; set_solver) E) as (Hnb & Hsz & _ & Hszb & _). fold h1 in Hsz, Hszb.
    destruct (ui_block _ _ _ Hu n) as (_ & ? & _); [left; split; [rewrite Er; set_solver|done]|].
    split; [done| | |rewrite Er; rewrite !length_app in *; cbn in *; lia|done].
    + intros y Hy Hyb. rewrite F2 by done. by apply Hsz.
    + destruct F3 as (x & Hx & Hle). exists x. split; [done|lia].
  - destruct (free_low_run h live l1 p l2 bp) as [r' F]; [by rewrite <- Er|done..|]. exists r'. split; [done|]. rewrite free_at_low by done. by rewrite Er.
Qed.

(** ** Taking a block *)

Definition also live q : Z -> Prop := fun x => live x \/ x = q.

(** What taking [nunits] out of the ring establishes: [q] is held now. *)
Record taken h live nunits q h' r' : Prop := mk_taken {
  tk_inv : uinv h' r' (also live q);
  tk_new : ~ live q;
  tk_size y : live y -> size h' y = size h y;
  tk_units : size h' q = nunits;
  tk_brk : brk h' = brk h }.

Lemma take_all h live l1 o p l2 : uinv h (l1 ++ o :: p :: l2) live -> p <> base ->
  taken h live (size h p) p (set_freep (set_ptr h o (ptr h p)) o) (l1 ++ o :: l2).
Proof.
  intros Hu Hpb. assert (Hnl : ~ live p) by (intros Hl; apply (live_not_free _ _ _ _ Hu Hl); set_solver).
  destruct Hu as [[fs Hh] Hc Hs Ho Hb Hbl Ha Hl Hf Hk]. set (h' := set_freep _ o).
  assert (Hsz : forall x, size h' x = size h x) by (intros x; unfold h'; by entries).
  assert (Hex : forall x, ext h' x = ext h x) by (intros x; by rewrite !ext_eq, Hsz).
  assert (Hhas : forall x, is_Some (hdrs h !! x) -> is_Some (hdrs h' !! x)) by (intros x Hx; unfold h'; auto with heap).
  destruct (sorted_skip _ _ _ _ Hs) as [Hs' Hsub]. destruct (nodup_middle _ _ _ Hs) as [Ho1 Ho2].
  split; [split| |intros y _; by rewrite Hsz|by rewrite Hsz|done]; try done.
  - destruct l1 as [|b l1]; injection Hh as -> _; eauto.
  - apply (chain_relink h _ l1 o (p :: l2)); [done|done| | |]; apply chain_app in Hc as [_ (_ & E & Hc)].
    + intros x Hx. unfold h'. entries; done.
    + unfold h'. entries; done.
    + revert Hc. apply chain_ext. intros x Hx. unfold h'. entries; [set_solver|done].
  - intros x y [Hx _]%Hsub [Hy _]%Hsub Hlt. rewrite Hex. by apply Ho.
  - rewrite Hsz. destruct Hb as (? & ? & ? & ?). auto.
  - intros x Hx. rewrite Hex, Hsz. assert (Hx' : (x ∈ l1 ++ o :: p :: l2 /\ x <> base) \/ live x).
    { destruct Hx as [[[Hx _]%Hsub ?]|[Hx| ->]]; [by left|by right|left; split; [set_solver|done]]. }
    destruct (Hbl x Hx') as (? & ? & ? & ?). auto.
  - intros x y [Hx Hxp]%Hsub [Hy| ->]; unfold apart; rewrite !Hex; [by apply Ha|].
    destruct (Z.lt_trichotomy x p) as [Hlt|[Heq|Hlt]]; [left|done|right]; apply Ho; set_solver.
  - intros x y [Hx| ->] [Hy| ->] Hne; unfold apart; rewrite !Hex; [by apply Hl| | |done].
    + destruct (Ha p x ltac:(set_solver) Hx); tauto.
    + apply Ha; set_solver.
  - cbn. set_solver.
Qed.

(** The tail [q] of the free block [p] is cut off. *)
Lemma carve_inv h r live p q nunits h' : uinv h r live -> p ∈ r -> p <> base -> 1 <= nunits < size h p -> q = p + 16 * (size h p - nunits) ->
  size h' p = size h p - nunits -> size h' q = nunits -> (forall x, x <> p -> x <> q -> size h' x = size h x) ->
  (forall x, ptr h' x = ptr h x) -> (forall x, is_Some (hdrs h !! x) -> is_Some (hdrs h' !! x)) -> is_Some (hdrs h' !! q) ->
  freep h' ∈ r -> brk h' = brk h -> q ∉ r -> ~ live q -> uinv h' r (also live q).
Proof.
  intros Hu Hpr Hpb Hn Eq Hszp Hszq Hsz Hptr Hhas Hhq Hfp Hbrk Hqr Hql.
  assert (Hlp : forall y, live y -> y <> p /\ y <> q) by (intros y Hy; split; intros ->; [by apply (live_not_free _ _ _ _ Hu Hy)|done]).
  assert (Hex : forall x, x <> p -> x <> q -> ext h' x = ext h x) by (intros x H1 H2; rewrite !ext_eq; by rewrite Hsz).
  assert (Hexq : ext h' q = ext h p) by (rewrite !ext_eq, Hszq; lia). assert (Hexp : ext h' p = q) by (rewrite !ext_eq, Hszp; lia).
  assert (Hxq : forall x, x ∈ r -> x <> q) by (intros x Hx ->; done).
  destruct Hu as [Hh Hc Hs Ho Hb Hbl Ha Hl Hf Hk]. destruct (Hbl p (or_introl (conj Hpr Hpb))) as (P1 & P2 & P3 & P4).
  assert (Hpe : q < ext h p) by (rewrite ext_eq; lia).
  split; try done.
  - revert Hc. apply chain_ext. intros x _. apply Hptr.
  - intros x y Hx Hy Hlt. destruct (decide (x = p)) as [->|Hne]; [rewrite Hexp; pose proof (Ho p y Hpr Hy Hlt); lia|].
    rewrite Hex by auto. by apply Ho.
  - destruct Hb as (? & ? & ? & ?). rewrite Hsz; [auto|done|]. unfold sizeof_header in *. lia.
  - intros x Hx. rewrite Hbrk. destruct (decide (x = q)) as [->|Hxq']; [rewrite Hexq, Hszq; split_and!; [lia|lia|done|done]|].
    assert (Hx' : (x ∈ r /\ x <> base) \/ live x) by (destruct Hx as [|[|]]; tauto). destruct (Hbl x Hx') as (? & ? & ? & ?).
    destruct (decide (x = p)) as [->|Hxp]; [rewrite Hexp, Hszp; split_and!; [lia|lia|lia|auto]|]. rewrite Hex, Hsz by done. auto.
  - intros x y Hx [Hy| ->]; unfold apart.
    + rewrite (Hex y) by (by apply Hlp). destruct (decide (x = p)) as [->|Hxp]; [rewrite Hexp|rewrite Hex by auto; by apply Ha].
      destruct (Ha p y Hpr Hy); [left; lia|by right].
    + rewrite Hexq. destruct (Z.lt_trichotomy x p) as [Hlt|[->|Hlt]]; [left|left; lia|right; by apply Ho].
      rewrite Hex by (auto; lia). pose proof (Ho x p Hx Hpr Hlt). lia.
  - assert (Hlq : forall y, live y -> ext h y <= q \/ ext h p <= y).
    { intros y Hy. destruct (Ha p y Hpr Hy); [by right|left; lia]. }
    intros x y [Hx| ->] [Hy| ->] Hne; unfold apart; rewrite ?Hexq, ?Hex by (by apply Hlp); [by apply Hl| | |done].
    + destruct (Hlq x Hx); tauto.
    + destruct (Hlq y Hy); tauto.
  - by rewrite Hbrk.
Qed.

Lemma take_part h r live o p nunits : uinv h r live -> o ∈ r -> p ∈ r -> p <> base -> 1 <= nunits < size h p ->
  let h1 := set_size h p (size h p - nunits) in let q := plus p (size h1 p) in
  taken h live nunits q (set_freep (set_size h1 q nunits) o) r.
Proof.
  intros Hu Hor Hpr Hpb Hn h1 q. pose proof (size_bound _ _ _ p Hu (or_introl (conj Hpr Hpb))) as Hsp.
  assert (Hs1 : size h1 p = size h p - nunits) by (unfold h1; rewrite size_set_size, decide_True by done; apply u32_small; lia).
  assert (Eq : q = p + 16 * (size h p - nunits)) by (unfold q, plus, sizeof_header; rewrite Hs1; lia).
  assert (Hqe : q + 16 * nunits = ext h p) by (rewrite ext_eq; lia). set (h' := set_freep _ o).
  assert (Hqr : q ∉ r).
  { intros Hq. destruct (decide (q = base)) as [E|E]; [pose proof (base_lt _ _ _ _ Hu (or_introl (conj Hpr Hpb))); lia|].
    pose proof (ui_order _ _ _ Hu p q Hpr Hq ltac:(lia)). lia. }
  assert (Hql : forall y, live y -> ext h y <= p \/ ext h p <= y) by (intros y Hy; destruct (ui_apart _ _ _ Hu p y Hpr Hy); tauto).
  assert (Hnl : ~ live q).
  { intros Hl. destruct (ui_block _ _ _ Hu q (or_intror Hl)) as (_ & ? & _). destruct (Hql q Hl) as [E|E]; rewrite ?ext_eq in *; lia. }
  assert (Hszp : size h' p = size h p - nunits) by (unfold h'; rewrite size_set_freep, size_set_size, decide_False by lia; done).
  assert (Hszq : size h' q = nunits) by (unfold h'; rewrite size_set_freep, size_set_size, decide_True by done; apply u32_small; lia).
  assert (Hsz : forall x, x <> p -> x <> q -> size h' x = size h x).
  { intros x H1 H2. unfold h', h1. rewrite size_set_freep, !size_set_size, !decide_False by done. done. }
  assert (Hptr : forall x, ptr h' x = ptr h x) by (intros x; unfold h', h1; by autorewrite with heap).
  assert (Hhas : forall x, is_Some (hdrs h !! x) -> is_Some (hdrs h' !! x)) by (intros x Hx; unfold h', h1; auto with heap).
  assert (Hhq : is_Some (hdrs h' !! q)) by (unfold h', set_size, set_header; cbn; by rewrite lookup_insert_eq).
  split; [|done| |done|done].
  - by apply (carve_inv h r live p q nunits).
  - intros y Hy. apply Hsz; intros ->; [by apply (live_not_free _ _ _ _ Hu Hy)|done].
Qed.

(** ** More memory *)

(** The kernel never lets the heap grow past what 32-bit sizes can count. *)
Context (Hgrow : forall b n, 0 < n -> grow b n = true -> b + n <= lo + 2 ^ 36 - sizeof_header).

Lemma grow_inv h r live nu : uinv h r live -> 1 <= nu -> brk h + 16 * nu <= lo + 2 ^ 36 - sizeof_header ->
  let h0 := mk_heap (freep h) (hdrs h) (brk h + 16 * nu) in
  let h1 := set_header h0 (brk h) (mk_header (ptr h0 (brk h)) nu) in
  uinv h1 r (also live (brk h)) /\ ~ live (brk h) /\ (forall y, live y -> size h1 y = size h y) /\ size h1 (brk h) = nu.
Proof.
  intros Hu Hnu Hmax h0 h1. assert (Hlt : forall x, x ∈ r \/ live x -> x < brk h).
  { intros x Hx. destruct (decide (x = base)) as [->|Hne].
    - destruct (ui_base _ _ _ Hu) as (_ & ? & _). destruct (ui_brk _ _ _ Hu). unfold sizeof_header in *. lia.
    - destruct (ui_block _ _ _ Hu x) as (? & ? & E & _); [destruct Hx; tauto|]. rewrite ext_eq in E. lia. }
  assert (Hg : forall x, x <> brk h -> hget h1 x = hget h x) by (intros x Hx; unfold h1; rewrite hget_set, decide_False by done; done).
  assert (Hp : forall x, x <> brk h -> ptr h1 x = ptr h x) by (intros x Hx; unfold ptr; by rewrite Hg).
  assert (Hsz : forall x, x <> brk h -> size h1 x = size h x) by (intros x Hx; unfold size; by rewrite Hg).
  assert (Hszn : size h1 (brk h) = nu) by (unfold h1, size; rewrite hget_set, decide_True by done; done).
  assert (Hex : forall x, x <> brk h -> ext h1 x = ext h x) by (intros x Hx; rewrite !ext_eq; by rewrite Hsz).
  assert (Hhas : forall x, is_Some (hdrs h !! x) -> is_Some (hdrs h1 !! x)).
  { intros x Hx. unfold h1, set_header. cbn. destruct (decide (x = brk h)) as [->|]; [by rewrite lookup_insert_eq|by rewrite lookup_insert_ne]. }
  assert (Hnb : forall x, x ∈ r \/ live x -> x <> brk h) by (intros x Hx%Hlt; lia).
  assert (Hle : forall x, (x ∈ r \/ live x) -> ext h x <= brk h).
  { intros x Hx. destruct (decide (x = base)) as [->|Hne]; [|apply (ui_block _ _ _ Hu); tauto].
    destruct (ui_base _ _ _ Hu) as (_ & ? & E & _). destruct (ui_brk _ _ _ Hu). rewrite ext_eq, E. unfold sizeof_header in *. lia. }
  split_and!; [|intros Hl; by apply (Hnb (brk h)); [right|]|intros y Hy; apply Hsz, Hnb; by right|done].
  destruct Hu as [Hh Hc Hs Ho Hb Hbl Ha Hl Hf Hk]. split; try done.
  - revert Hc. apply chain_ext. intros x Hx. apply Hp, Hnb. by left.
  - intros x y Hx Hy Hlt'. rewrite Hex by auto. by apply Ho.
  - destruct Hb as (? & ? & ? & ?). rewrite Hsz; [auto|]. unfold sizeof_header in *. lia.
  - intros x Hx. destruct (decide (x = brk h)) as [->|Hne].
    + rewrite ext_eq, Hszn. cbn. rewrite lookup_insert_eq. split_and!; [lia|done|lia|done].
    + destruct (Hbl x) as (? & ? & ? & ?); [destruct Hx as [|[|]]; tauto|]. rewrite Hex, Hsz by done. cbn. split_and!; [done|done|lia|auto].
  - intros x y Hx [Hy| ->]; unfold apart; rewrite (Hex x) by auto; [rewrite Hex by auto; by apply Ha|left; auto].
  - intros x y [Hx| ->] [Hy| ->] Hne; unfold apart; [rewrite !Hex by auto; by apply Hl| | |done].
    + left. rewrite Hex by auto. auto.
    + right. rewrite Hex by auto. auto.
  - cbn. lia.
Qed.

#[local] Instance uinv_proper h r : Proper (pointwise_relation Z iff ==> impl) (uinv h r).
Proof. intros l l' E [Hh Hc Hs Ho Hb Hbl Ha Hl Hf Hk]. split; try done; intros *; rewrite <- ?E; auto. Qed.

(** A call of [morecore] fails when the kernel refuses, or leaves a free block that is
    large enough. *)
Lemma morecore_run h r live nu : uinv h r live -> 1 <= nu -> nu < 2 ^ 27 ->
  (morecore grow nu h = Ok 0 h /\ grow (brk h) (16 * Z.max 4096 nu) = false) \/
  exists h' r', morecore grow nu h = Ok (freep h') h' /\ uinv h' r' live /\ (forall y, live y -> size h' y = size h y) /\
    (exists x, x ∈ r' /\ nu <= size h' x) /\ (length r' <= S (length r))%nat /\ brk h <= brk h'.
Proof.
  intros Hu H1 H2. unfold morecore. replace (if nu <? 4096 then 4096 else nu) with (Z.max 4096 nu) by (destruct (Z.ltb_spec nu 4096); lia).
  set (n := Z.max 4096 nu). assert (En : i32 (n * sizeof_header) = 16 * n) by (unfold sizeof_header; rewrite Z.mul_comm; apply signed_small; lia).
  assert (Hs : sbrk grow (n * sizeof_header) h =
    if grow (brk h) (16 * n) then Ok (Some (brk h)) (mk_heap (freep h) (hdrs h) (brk h + 16 * n)) else Ok None h) by (unfold sbrk; by rewrite En).
  destruct (grow (brk h) (16 * n)) eqn:E; [right|left; by step_with Hs]. apply Hgrow in E; [|lia]. destruct (grow_inv h r live n Hu ltac:(lia) E) as (Hu1 & Hnl & Hsz & Hn).
  set (h1 := set_header _ _ _) in *. destruct (free_run h1 r _ (brk h) Hu1 ltac:(by right)) as (h' & r' & Hrun & [F1 F2 F3 F4 F5]).
  exists h', r'. split_and!; [| | | |done|].
  - step_with Hs. change ((free (plus (brk h) 1) ;;; gets freep) h1 = Ok (freep h') h'). by step_with Hrun.
  - revert F1. apply uinv_proper. intros x. unfold without, also. split; [tauto|]. intros Hx. split; [by left|by intros ->].
  - intros y Hy. rewrite F2; [by apply Hsz|by left|by intros ->].
  - destruct F3 as (x & Hx & Hle). exists x. split; [done|lia].
  - rewrite F5. cbn. lia.
Qed.

(** ** The loop of [malloc] *)

Lemma ring_index h r live i x : uinv h r live -> r !! i = Some x -> x <> base -> exists j o, i = S j /\ r !! j = Some o.
Proof.
  intros Hu Hx Hne. destruct (ui_head _ _ _ Hu) as [fs E]. destruct i as [|j]; [rewrite E in Hx; cbn in Hx; congruence|].
  assert (Hj : (S j < length r)%nat) by (by apply lookup_lt_Some in Hx). destruct (lookup_lt_is_Some_2 r j) as [o Ho]; [lia|]. by exists j, o.
Qed.
Lemma next_pos_S n i j : (i < n)%nat -> next_pos n i = S j -> i = j.
Proof. intros Hi. unfold next_pos. destruct (decide (S i = n)) as [->|]; [by rewrite Nat.Div0.mod_same|]. rewrite Nat.mod_small by lia. lia. Qed.

(** The block [p] after [o] is taken, wholly or in part. *)
Lemma take_run h r live nunits k i o p : uinv h r live -> 1 <= nunits -> r !! i = Some o -> r !! next_pos (length r) i = Some p -> nunits <= size h p ->
  exists q h' r', malloc_loop grow (S k) nunits o p h = Ok (plus q 1) h' /\ taken h live nunits q h' r'.
Proof.
  intros Hu Hn Ho Hp Hs. assert (Hpb : p <> base) by (intros ->; destruct (ui_base _ _ _ Hu) as (_ & _ & E & _); lia).
  destruct (ring_index _ _ _ _ _ Hu Hp Hpb) as (j & o' & Ej & _). apply next_pos_S in Ej as Eij; [|by apply lookup_lt_Some in Ho]. subst j.
  rewrite Ej in Hp. cbn [malloc_loop]. unfold bind at 1, get. rewrite (proj2 (Z.leb_le _ _) Hs). destruct (Z.eqb_spec (size h p) nunits) as [E|E].
  - exists p. eexists. exists (take i r ++ o :: drop (S (S i)) r). split; [reflexivity|]. rewrite <- E. apply take_all; [|done].
    rewrite <- drop_S by done. rewrite <- (drop_S r o i) by done. by rewrite take_drop.
  - eexists. eexists. exists r. split; [reflexivity|]. apply take_part; try done; [by eapply list_elem_of_lookup_2..|lia].
Qed.

Lemma malloc_loop_small h nunits k o p : size h p < nunits -> malloc_loop grow (S k) nunits o p h =
  (if p =? freep h then q <- morecore grow nunits ;; if q =? 0 then ret 0 else h <- get ;; malloc_loop grow k nunits q (ptr h q)
   else malloc_loop grow k nunits p (ptr h p)) h.
Proof. intros Hs. cbn [malloc_loop]. unfold bind at 1, get at 1. by rewrite (proj2 (Z.leb_gt _ _)) by lia. Qed.
Lemma malloc_scan h r live nunits j : uinv h r live -> 1 <= nunits -> r !! j = Some (freep h) -> forall fuel i o p,
  r !! i = Some o -> r !! next_pos (length r) i = Some p -> (steps_to (length r) (next_pos (length r) i) j < fuel)%nat ->
  (exists q h' r', malloc_loop grow fuel nunits o p h = Ok (plus q 1) h' /\ taken h live nunits q h' r') \/
  (exists k, malloc_loop grow fuel nunits o p h =
      (q <- morecore grow nunits ;; if q =? 0 then ret 0 else h <- get ;; malloc_loop grow k nunits q (ptr h q)) h /\
    fuel = (S (steps_to (length r) (next_pos (length r) i) j) + k)%nat /\
    forall m x, r !! m = Some x -> (steps_to (length r) (next_pos (length r) i) m <= steps_to (length r) (next_pos (length r) i) j)%nat -> size h x < nunits).
Proof.
  intros Hu Hn Hj. assert (Hjl := lookup_lt_Some _ _ _ Hj). induction fuel as [|k IH]; intros i o p Ho Hp Hf; [lia|].
  destruct (decide (nunits <= size h p)) as [Hs|Hs]; [left; by eapply take_run|]. rewrite !malloc_loop_small by lia.
  assert (Hpl := lookup_lt_Some _ _ _ Hp). set (a := next_pos (length r) i) in *.
  destruct (Z.eqb_spec p (freep h)) as [->|Hpf].
  - assert (a = j) as Ea by (eapply NoDup_lookup; [apply sorted_nodup, Hu|done|done]). right. exists k. rewrite Ea in *.
    assert (H0 : steps_to (length r) j j = 0%nat) by (unfold steps_to; rewrite Nat.leb_refl; lia). rewrite H0. split_and!; [done|lia|].
    intros m x Hm Hle. assert (m = j) as -> by (revert Hle; unfold steps_to; assert (Hml := lookup_lt_Some _ _ _ Hm); destruct (Nat.leb_spec j m); lia).
    rewrite Hm in Hj. injection Hj as ->. lia.
  - assert (Haj : a <> j) by (intros E; rewrite E in Hp; congruence).
    destruct (steps_to_next (length r) a j Hpl Hjl Haj) as [Hal Hst].
    destruct (IH a p (ptr h p) Hp (ring_step _ _ _ _ _ Hu Hp) ltac:(lia)) as [Hl|(k' & Hrun & Hk & Hall)]; [by left|right].
    exists k'. split_and!; [done|lia|]. intros m x Hm Hle. assert (Hml := lookup_lt_Some _ _ _ Hm).
    destruct (decide (a = m)) as [->|Ham]; [rewrite Hp in Hm; injection Hm as ->; lia|].
    destruct (steps_to_next (length r) a m Hpl Hml Ham) as [_ Hst']. apply (Hall m x Hm). lia.
Qed.

(** From [freep] the scan sees the whole ring. *)
Lemma steps_full n j m : (j < n)%nat -> (m < n)%nat -> (steps_to n (next_pos n j) m <= steps_to n (next_pos n j) j)%nat.
Proof.
  intros Hj Hm. unfold next_pos. destruct (decide (S j = n)) as [E|E].
  - rewrite E, Nat.Div0.mod_same. unfold steps_to. cbn. lia.
  - rewrite Nat.mod_small by lia. unfold steps_to. destruct (Nat.leb_spec (S j) m), (Nat.leb_spec (S j) j); lia.
Qed.
Lemma scan_all h r live nunits fuel : uinv h r live -> 1 <= nunits -> (length r <= fuel)%nat ->
  (exists q h' r', malloc_loop grow fuel nunits (freep h) (ptr h (freep h)) h = Ok (plus q 1) h' /\ taken h live nunits q h' r') \/
  (exists k, malloc_loop grow fuel nunits (freep h) (ptr h (freep h)) h =
      (q <- morecore grow nunits ;; if q =? 0 then ret 0 else h <- get ;; malloc_loop grow k nunits q (ptr h q)) h /\
    (fuel <= length r + k)%nat /\ forall x, x ∈ r -> size h x < nunits).
Proof.
  intros Hu Hn Hf. destruct (list_elem_of_lookup_1 _ _ (ui_freep _ _ _ Hu)) as [j Hj]. assert (Hjl := lookup_lt_Some _ _ _ Hj).
  assert (Hp := ring_step _ _ _ _ _ Hu Hj). assert (Hpl := lookup_lt_Some _ _ _ Hp).
  pose proof (steps_to_lt (length r) _ j Hpl Hjl) as Hst.
  destruct (malloc_scan h r live nunits j Hu Hn Hj fuel j _ _ Hj Hp ltac:(lia)) as [Hl|(k & Hrun & Hk & Hall)]; [by left|right].
  exists k. split_and!; [done|lia|]. intros x Hx. destruct (list_elem_of_lookup_1 _ _ Hx) as [m Hm]. apply (Hall m x Hm), steps_full; [done|by apply lookup_lt_Some in Hm].
Qed.

(** What a call of [malloc] on a heap with a ring establishes. *)
Lemma malloc_loop_run h r live nunits fuel : uinv h r live -> 1 <= nunits < 2 ^ 27 -> (2 * length r + 1 <= fuel)%nat ->
  (malloc_loop grow fuel nunits (freep h) (ptr h (freep h)) h = Ok 0 h /\ grow (brk h) (16 * Z.max 4096 nunits) = false) \/
  exists q h' r', malloc_loop grow fuel nunits (freep h) (ptr h (freep h)) h = Ok (plus q 1) h' /\
    uinv h' r' (also live q) /\ ~ live q /\ (forall y, live y -> size h' y = size h y) /\ size h' q = nunits /\ brk h <= brk h'.
Proof.
  intros Hu Hn Hf. destruct (scan_all h r live nunits fuel Hu ltac:(lia) ltac:(lia)) as [(q & h' & r' & Hrun & [T1 T2 T3 T4 T5])|(k & Hrun & Hk & Hall)].
  { right. exists q, h', r'. rewrite T5. split_and!; done || lia. }
  rewrite Hrun. destruct (morecore_run h r live nunits Hu ltac:(lia) ltac:(lia)) as [[Hm Hg]|(h1 & r1 & Hm & Hu1 & Hsz & (x & Hx & Hroom) & Hlen & Hb)].
  { left. split; [|done]. by step_with Hm. }
  right. step_with Hm. assert (Hnz : freep h1 <> 0).
  { destruct (ui_base _ _ _ Hu1) as (? & _). destruct (decide (freep h1 = base)) as [->|Hne]; [lia|].
    pose proof (base_lt _ _ _ _ Hu1 (or_introl (conj (ui_freep _ _ _ Hu1) Hne))). lia. }
  rewrite (proj2 (Z.eqb_neq _ _) Hnz). unfold bind at 1, get.
  destruct (scan_all h1 r1 live nunits k Hu1 ltac:(lia) ltac:(lia)) as [(q & h' & r' & Hrun' & [T1 T2 T3 T4 T5])|(k' & _ & _ & Hall')].
  - exists q, h', r'. rewrite T5. split_and!; try done. intros y Hy. rewrite T3 by done. by apply Hsz.
  - specialize (Hall' x Hx). lia.
Qed.

(** ** Programs that use the allocator

    [L] lists what the program holds: pointers with the sizes it asked for. *)
Implicit Types (L : list (Z * Z)).

Definition held L : Z -> Prop := fun x => plus x 1 ∈ L.*1.
Record heap_inv h L r : Prop := mk_heap_inv {
  hi_ring : uinv h r (held L);
  hi_nodup : NoDup L.*1;
  hi_size p n : (p, n) ∈ L -> 0 <= n <= 16 * (size h (p - 16) - 1) }.
Definition fresh h L : Prop := freep h = 0 /\ L = [] /\ lo <= brk h <= lo + 2 ^ 36 - sizeof_header.
Definition heap_ok h L : Prop := fresh h L \/ exists r, heap_inv h L r.

(** A program may ask for up to 2^31 - 32 bytes, and give back what it holds. *)
Inductive ustep : list (Z * Z) * heap -> list (Z * Z) * heap -> Prop :=
| u_malloc L h n p h' : 0 <= n <= 2 ^ 31 - 32 -> malloc base grow n h = Ok p h' -> ustep (L, h) (if p =? 0 then L else (p, n) :: L, h')
| u_free L h p n h' : (p, n) ∈ L -> free p h = Ok tt h' -> ustep (L, h) (filter (fun e => e.1 <> p) L, h').

Context (Hbase : 0 < base) (Hlo : base + sizeof_header <= lo).

Definition units (n : Z) : Z := (n + sizeof_header - 1) / sizeof_header + 1.
Lemma units_bound n : 0 <= n <= 2 ^ 31 - 32 -> 1 <= units n < 2 ^ 27 /\ n <= 16 * (units n - 1).
Proof. intros Hn. unfold units, sizeof_header. dlia. Qed.

Lemma first_inv h : lo <= brk h <= lo + 2 ^ 36 - sizeof_header -> uinv (set_freep (set_header h base (mk_header base 0)) base) [base] (held []).
Proof.
  intros Hb. set (h' := set_freep _ base). assert (Hg : hget h' base = mk_header base 0) by (unfold h'; change (hget (set_freep ?a base)) with (hget a); by rewrite hget_set, decide_True).
  assert (Hsz : size h' base = 0) by (unfold size; by rewrite Hg). split; try done.
  - by exists [].
  - cbn. unfold ptr. by rewrite Hg.
  - repeat constructor.
  - set_solver by lia.
  - split_and!; [done|done|done|]. unfold h', set_header. cbn. by rewrite lookup_insert_eq.
  - intros x [[Hx Hn]|Hx]; [set_solver|]. by apply not_elem_of_nil in Hx.
  - by intros x y _ Hy%not_elem_of_nil.
  - by intros x y Hx%not_elem_of_nil.
  - by left.
Qed.

Lemma held_free_inv h L r p : heap_inv h L r -> p ∈ L.*1 -> exists h' r', free p h = Ok tt h' /\ heap_inv h' (filter (fun e => e.1 <> p) L) r'.
Proof.
  intros [Hu Hd Hs] Hp. set (bp := p - 16). assert (Ep : plus bp 1 = p) by (unfold bp, plus, sizeof_header; lia).
  destruct (free_run h r (held L) bp Hu) as (h' & r' & Hrun & [F1 F2 F3 F4 F5]); [unfold held; by rewrite Ep|]. rewrite Ep in Hrun.
  assert (Hf : forall x, x ∈ (filter (fun e => e.1 <> p) L).*1 <-> x ∈ L.*1 /\ x <> p).
  { intros x. rewrite !list_elem_of_fmap. split; [intros (y & -> & [? ?]%list_elem_of_filter); eauto|intros ((y & -> & ?) & ?)]. exists y. split; [done|]. by apply list_elem_of_filter. }
  exists h', r'. split; [done|]. split.
  - revert F1. apply uinv_proper. intros x. unfold without, held. rewrite Hf. unfold bp, plus, sizeof_header. split; intros [? ?]; split; try done; lia.
  - eapply sublist_NoDup; [exact Hd|]. apply fmap_sublist, sublist_filter.
  - intros q n [Hq Hin]%list_elem_of_filter. cbn in Hq. rewrite F2; [by apply Hs| |unfold bp; lia]. unfold held.
    replace (plus (q - 16) 1) with q by (unfold plus, sizeof_header; lia). apply list_elem_of_fmap. by exists (q, n).
Qed.

Lemma ring_malloc h L r n : heap_inv h L r -> 0 <= n <= 2 ^ 31 - 32 -> forall fuel, (2 * length r + 1 <= fuel)%nat ->
  (malloc_loop grow fuel (units n) (freep h) (ptr h (freep h)) h = Ok 0 h /\ grow (brk h) (16 * Z.max 4096 (units n)) = false) \/
  exists p h' r', malloc_loop grow fuel (units n) (freep h) (ptr h (freep h)) h = Ok p h' /\ p <> 0 /\ heap_inv h' ((p, n) :: L) r'.
Proof.
  intros [Hu Hd Hs] Hn fuel Hf. destruct (units_bound n Hn) as [Hb Hnu].
  destruct (malloc_loop_run h r (held L) (units n) fuel Hu Hb Hf) as [Hl|(q & h' & r' & Hrun & Hu' & Hnew & Hsz & Hq & _)]; [by left|right].
  assert (Eq : plus q 1 - 16 = q) by (unfold plus, sizeof_header; lia).
  exists (plus q 1), h', r'. split_and!; [done| |split].
  - pose proof (base_lt _ _ _ _ Hu' (or_intror (or_intror eq_refl))). unfold plus, sizeof_header. lia.
  - revert Hu'. apply uinv_proper. intros x. unfold also, held. rewrite fmap_cons, elem_of_cons. cbn. unfold plus, sizeof_header. intuition lia.
  - apply NoDup_cons. done.
  - intros p m [[= -> ->]|Hin]%elem_of_cons; [rewrite Eq, Hq; lia|]. rewrite Hsz; [by apply Hs|]. unfold held.
    replace (plus (p - 16) 1) with p by (unfold plus, sizeof_header; lia). apply list_elem_of_fmap. by exists (p, m).
Qed.

Lemma malloc_run h L n : heap_ok h L -> 0 <= n <= 2 ^ 31 - 32 -> exists p h', malloc base grow n h = Ok p h' /\
  (p = 0 -> grow (brk h) (16 * Z.max 4096 (units n)) = false) /\ heap_ok h' (if p =? 0 then L else (p, n) :: L).
Proof.
  intros Hok Hn. destruct (units_bound n Hn) as [Hb _]. unfold malloc. rewrite u32_small by (fold (units n); lia). fold (units n).
  set (h1 := if freep h =? 0 then set_freep (set_header h base (mk_header base 0)) base else h).
  assert (Hi : exists r, heap_inv h1 L r).
  { destruct Hok as [(E & -> & Hbrk)|[r Hi]]; unfold h1.
    - rewrite E. cbn. exists [base]. split; [by apply first_inv|constructor|]. by intros p m Hin%not_elem_of_nil.
    - exists r. rewrite (proj2 (Z.eqb_neq _ _)); [done|]. destruct Hi as [Hu _ _]. destruct (decide (freep h = base)) as [->|Hne]; [lia|].
      pose proof (base_lt _ _ _ _ Hu (or_introl (conj (ui_freep _ _ _ Hu) Hne))). lia. }
  assert (Hbk : brk h1 = brk h) by (unfold h1; by destruct (freep h =? 0)). destruct Hi as [r Hi].
  unfold bind at 1, get at 1. rewrite (bind_ok _ _ _ tt h1) by (unfold h1; by destruct (freep h =? 0)). unfold bind at 1, get at 1.
  pose proof (ring_length _ _ _ (hi_ring _ _ _ Hi)) as Hlen.
  destruct (ring_malloc h1 L r n Hi Hn (2 * map_size (hdrs h1) + 6) ltac:(lia)) as [[Hrun Hg]|(p & h' & r' & Hrun & Hp & Hi')].
  - exists 0, h1. rewrite Hbk in Hg. split_and!; [done|done|]. right. by exists r.
  - exists p, h'. rewrite (proj2 (Z.eqb_neq _ _) Hp). split_and!; [done|done|]. right. by exists r'.
Qed.

Lemma ustep_ok s s' : ustep s s' -> heap_ok s.2 s.1 -> heap_ok s'.2 s'.1.
Proof.
  intros Hs Hok. destruct Hs as [L h n p h' Hn Hrun|L h p n h' Hin Hrun]; cbn [fst snd] in *.
  - destruct (malloc_run h L n Hok Hn) as (p' & h'' & Hrun' & _ & Hok'). rewrite Hrun in Hrun'. by injection Hrun' as <- <-.
  - destruct Hok as [(_ & -> & _)|[r Hi]]; [by apply not_elem_of_nil in Hin|].
    destruct (held_free_inv h L r p Hi) as (h'' & r' & Hrun' & Hi'); [apply list_elem_of_fmap; by exists (p, n)|].
    rewrite Hrun in Hrun'. injection Hrun' as <-. right. by exists r'.
Qed.

Lemma heap_ok_disjoint h L : heap_ok h L ->
  (forall p n, (p, n) ∈ L -> lo <= p /\ p + n <= brk h) /\
  (forall i j p n q m, i <> j -> L !! i = Some (p, n) -> L !! j = Some (q, m) -> p + n <= q \/ q + m <= p).
Proof.
  intros [(_ & -> & _)|[r [Hu Hd Hs]]]; [split; [by intros p n Hin%not_elem_of_nil|done]|].
  assert (Hh : forall p n, (p, n) ∈ L -> held L (p - 16)).
  { intros p n Hin. unfold held. replace (plus (p - 16) 1) with p by (unfold plus, sizeof_header; lia). apply list_elem_of_fmap. by exists (p, n). }
  split.
  - intros p n Hin. specialize (Hs p n Hin). destruct (ui_block _ _ _ Hu (p - 16) (or_intror (Hh p n Hin))) as (? & ? & E & _). rewrite ext_eq in E. lia.
  - intros i j p n q m Hij Hi Hj. assert (Hpq : p <> q).
    { intros ->. apply Hij. eapply (NoDup_lookup L.*1); [done|rewrite list_lookup_fmap, Hi; done|rewrite list_lookup_fmap, Hj; done]. }
    apply list_elem_of_lookup_2 in Hi, Hj. destruct (ui_live _ _ _ Hu (p - 16) (q - 16)) as [E|E]; [by eapply Hh|by eapply Hh|lia| |];
      rewrite ext_eq in E; pose proof (Hs _ _ Hi); pose proof (Hs _ _ Hj); lia.
Qed.

(** C9. The allocator hands out disjoint memory and always comes back. However
    a program calls [malloc] (for up to 2^31 - 32 bytes) and [free] (of
    pointers it holds), every block it holds lies inside the heap, no two of
    them overlap, every further call of [malloc] and every [free] of a held
    pointer returns, and [malloc] answers 0 only when the kernel refuses the
    memory [morecore] asks for. *)
Theorem umalloc_disjoint L h : rtc ustep ([], heap0 lo) (L, h) ->
  (forall p n, (p, n) ∈ L -> lo <= p /\ p + n <= brk h) /\
  (forall i j p n q m, i <> j -> L !! i = Some (p, n) -> L !! j = Some (q, m) -> p + n <= q \/ q + m <= p) /\
  (forall n, 0 <= n <= 2 ^ 31 - 32 -> exists p h', malloc base grow n h = Ok p h' /\ (p = 0 -> grow (brk h) (16 * Z.max 4096 (units n)) = false)) /\
  (forall p n, (p, n) ∈ L -> exists h', free p h = Ok tt h').
Proof.
  intros Hr. assert (Hok : heap_ok h L).
  { change (heap_ok (L, h).2 (L, h).1). assert (H0 : heap_ok (@nil (Z * Z), heap0 lo).2 (@nil (Z * Z), heap0 lo).1).
    { left. unfold fresh. cbn. unfold sizeof_header. split_and!; done || lia. }
    revert H0. induction Hr as [|a b c Hs Hr IH]; [done|]. intros H0. by apply IH, (ustep_ok a). }
  destruct (heap_ok_disjoint h L Hok) as [H1 H2]. split_and!; [done|done| |].
  - intros n Hn. destruct (malloc_run h L n Hok Hn) as (p & h' & Hrun & Hp & _). by exists p, h'.
  - intros p n Hin. destruct Hok as [(_ & -> & _)|[r Hi]]; [by apply not_elem_of_nil in Hin|].
    destruct (held_free_inv h L r p Hi) as (h' & r' & Hrun & _); [apply list_elem_of_fmap; by exists (p, n)|]. by exists h'.
Qed.
End umalloc.

(** ** Examples *)

Section examples.
(** A heap that may grow by a megabyte. *)
Definition demo_grow (b n : Z) : bool := b + n <=? 8192 + 2 ^ 20.
Lemma demo_grow_ok b n : 0 < n -> demo_grow b n = true -> b + n <= 8192 + 2 ^ 36 - sizeof_header.
Proof. unfold demo_grow, sizeof_header. intros _ H%Z.leb_le. lia. Qed.

Definition heap_of {A} (o : outcome heap A) : heap := match o with Ok _ h => h | _ => heap0 0 end.
Definition heap1 : heap := heap_of (malloc 4096 demo_grow 100 (heap0 8192)).
Definition heap2 : heap := heap_of (malloc 4096 demo_grow 5000 heap1).
Definition heap3 : heap := heap_of (free 73616 heap2).

(** Two blocks, of which the first is given back. *)
Lemma umalloc_disjoint_witness : rtc (ustep 4096 demo_grow) ([], heap0 8192) ([(68592, 5000)], heap3) /\
  68592 + 5000 <= brk heap3 /\ exists h', free 68592 heap3 = Ok tt h'.
Proof.
  assert (Hr : rtc (ustep 4096 demo_grow) ([], heap0 8192) ([(68592, 5000)], heap3)).
  { eapply rtc_l; [apply (u_malloc 4096 demo_grow [] (heap0 8192) 100 73616 heap1); [lia|vm_compute; reflexivity]|].
    eapply rtc_l; [apply (u_malloc 4096 demo_grow [(73616, 100)] heap1 5000 68592 heap2); [lia|vm_compute; reflexivity]|].
    eapply rtc_l; [apply (u_free 4096 demo_grow [(68592, 5000); (73616, 100)] heap2 73616 100 heap3); [right; left|vm_compute; reflexivity]|].
    apply rtc_refl. }
  destruct (umalloc_disjoint 4096 8192 demo_grow demo_grow_ok ltac:(lia) ltac:(unfold sizeof_header; lia) _ _ Hr) as (H1 & _ & _ & H4).
  split; [exact Hr|]. split; [apply (H1 68592 5000); left|apply (H4 68592 5000); left].
Defined.

(** A request of 2^32 - 1 bytes: the number of bytes [morecore] asks for does
    not fit the [int] of [sbrk], the heap grows by 16 bytes, and [malloc]
    answers with a pointer to the end of the heap. *)
Theorem malloc_4g_truncated : exists h', malloc 4096 (fun _ _ => true) (2 ^ 32 - 1) (heap0 8192) = Ok 8208 h' /\ brk h' = 8208.
Proof. eexists. split; [vm_compute; reflexivity|reflexivity]. Qed.
End examples.
