(* ===== verification/Grep.v ===== *)
(** * The matcher of user/grep.c

    C strings are the lists of their bytes before the terminating NUL: [*p]
    is the head of the list, or NUL when the list is empty. *)

From stdpp Require Import base list numbers.
From Stdlib Require Import ZArith Lia.
From S2P Require Import Prelude.
Open Scope Z_scope.

Definition chr_star : Z := 42.
Definition chr_dot : Z := 46.
Definition chr_dollar : Z := 36.
Definition chr_caret : Z := 94.
Definition chr_nl : Z := 10.

(** [*p] of a C string. *)
Definition deref (p : list Z) : Z := match p with [] => 0 | c :: _ => c end.

(** matchstar, given [matchhere(re, _)]: a [do ... while] loop over the text. *)
Fixpoint matchstar (here : list Z -> bool) (c : Z) (text : list Z) : bool :=
  if here text then true
  else match text with
       | [] => false
       | x :: text' => if (x =? c) || (c =? chr_dot) then matchstar here c text' else false
       end.

Fixpoint matchhere (re text : list Z) {struct re} : bool :=
  match re with
  | [] => true
  | r0 :: re1 =>
      match re1 with
      | r1 :: re2 =>
          if r1 =? chr_star then matchstar (matchhere re2) r0 text
          else match text with
               | [] => false
               | x :: text' => if (r0 =? chr_dot) || (r0 =? x) then matchhere re1 text' else false
               end
      | [] =>
          if r0 =? chr_dollar then match text with [] => true | _ => false end
          else match text with
               | [] => false
               | x :: text' => if (r0 =? chr_dot) || (r0 =? x) then matchhere re1 text' else false
               end
      end
  end.

(** The search loop of [match]; it must look at the empty string too. *)
Fixpoint match_loop (re text : list Z) : bool :=
  if matchhere re text then true
  else match text with [] => false | _ :: text' => match_loop re text' end.

Definition grep_match (re text : list Z) : bool :=
  if deref re =? chr_caret then matchhere (tail re) text else match_loop re text.

(** ** grep: filtering a stream of lines

    The reader is a file descriptor: the bytes it still has to deliver, and
    how many of them each call returns. [read(fd, p, n)] returns at least one
    byte while there are any and [n > 0]. *)
Record reader := mk_reader { rd_bytes : list Z; rd_sizes : list nat }.

Definition read (r : reader) (n : nat) : list Z * reader :=
  let want := match rd_sizes r with [] => n | k :: _ => Nat.max 1 k end in
  let k := Nat.min want n in
  (take k (rd_bytes r), mk_reader (drop k (rd_bytes r)) (tail (rd_sizes r))).

Definition BUFSZ : nat := 1024.

(** [strchr(p, '\n')]: the bytes before and after the first newline; a NUL
    ends the string. *)
Fixpoint split_nl (p : list Z) : option (list Z * list Z) :=
  match p with
  | [] => None
  | c :: p' => if c =? 0 then None
               else if c =? chr_nl then Some ([], p')
               else match split_nl p' with Some (l, r) => Some (c :: l, r) | None => None end
  end.

(** The inner loop: one turn per complete line of the buffer. It returns the
    lines written to standard output and what is left in the buffer. *)
Fixpoint grep_lines (fuel : nat) (pattern p : list Z) : option (list (list Z) * list Z) :=
  match fuel with
  | O => None
  | S k =>
      match split_nl p with
      | None => Some ([], p)
      | Some (line, rest) =>
          match grep_lines k pattern rest with
          | None => None
          | Some (out, more) =>
              Some (if grep_match pattern line then ((line ++ [chr_nl]) :: out, more) else (out, more))
          end
      end
  end.

(** grep: [buf] holds the [m] bytes left over from the previous turn. *)
Fixpoint grep (fuel : nat) (pattern buf : list Z) (r : reader) : option (list (list Z)) :=
  match fuel with
  | O => None
  | S k =>
      let '(chunk, r') := read r (BUFSZ - length buf - 1) in
      if (0 <? length chunk)%nat then
        let buf' := buf ++ chunk in
        match grep_lines (S (length buf')) pattern buf' with
        | None => None
        | Some (out, more) =>
            match grep k pattern more r' with
            | None => None
            | Some out' => Some (out ++ out')
            end
        end
      else Some []
  end.

(** ** The language of a pattern *)

Inductive item := One (c : Z) | Star (c : Z).

Definition accepts (c x : Z) : Prop := c = chr_dot \/ c = x.

(** The items of a pattern, and whether it ends in [$]. *)
Fixpoint parse (re : list Z) : list item * bool :=
  match re with
  | [] => ([], false)
  | r0 :: re1 =>
      match re1 with
      | r1 :: re2 =>
          if r1 =? chr_star then let '(its, e) := parse re2 in (Star r0 :: its, e)
          else let '(its, e) := parse re1 in (One r0 :: its, e)
      | [] => if r0 =? chr_dollar then ([], true) else ([One r0], false)
      end
  end.

Inductive lang : list item -> list Z -> Prop :=
  | lang_nil : lang [] []
  | lang_one c x its w : accepts c x -> lang its w -> lang (One c :: its) (x :: w)
  | lang_star c xs its w : Forall (accepts c) xs -> lang its w -> lang (Star c :: its) (xs ++ w).

(** A pattern matches at the beginning of a text. *)
Definition matches_prefix (re text : list Z) : Prop :=
  exists w rest, text = w ++ rest /\ lang (parse re).1 w /\ ((parse re).2 = true -> rest = []).

(** What grep promises: [^] anchors at the beginning, otherwise the pattern
    may match at any position. *)
Definition matches (re text : list Z) : Prop :=
  match re with
  | c :: re' => if decide (c = chr_caret) then matches_prefix re' text
                else exists pre post, text = pre ++ post /\ matches_prefix re post
  | [] => True
  end.

(** ** The matcher decides the language *)

Lemma accepts_dec c x : ((c =? chr_dot) || (c =? x)) = true <-> accepts c x.
Proof. unfold accepts. rewrite orb_true_iff, !Z.eqb_eq. done. Qed.

Lemma accepts_dec' c x : ((x =? c) || (c =? chr_dot)) = true <-> accepts c x.
Proof. unfold accepts. rewrite orb_true_iff, !Z.eqb_eq. intuition. Qed.

Lemma matchstar_spec here c text :
  matchstar here c text = true <-> exists xs post, text = xs ++ post /\ Forall (accepts c) xs /\ here post = true.
Proof.
  induction text as [|x text IH]; cbn [matchstar].
  - destruct (here []) eqn:E; split; try done.
    + intros _. by exists [], [].
    + intros (xs & post & Ht & _ & Hh). symmetry in Ht. apply app_eq_nil in Ht as [-> ->]. congruence.
  - destruct (here (x :: text)) eqn:E; [split; [|done]; intros _; by exists [], (x :: text)|].
    destruct ((x =? c) || (c =? chr_dot)) eqn:Ea.
    + rewrite IH. apply accepts_dec' in Ea. split.
      * intros (xs & post & -> & Hx & Hh). exists (x :: xs), post. split_and!; [done|by constructor|done].
      * intros ([|y xs] & post & Ht & Hx & Hh); cbn in Ht; [congruence|]. injection Ht as -> ->.
        exists xs, post. split_and!; [done|by inversion Hx|done].
    + split; [done|]. intros ([|y xs] & post & Ht & Hx & Hh); cbn in Ht; [congruence|]. injection Ht as -> ->.
      inversion Hx as [|? ? Hy _]; subst. apply accepts_dec' in Hy. congruence.
Qed.

Lemma lang_one_inv c its w : lang (One c :: its) w -> exists x w', w = x :: w' /\ accepts c x /\ lang its w'.
Proof. intros Hl. inversion Hl; subst. eauto. Qed.
Lemma lang_star_inv c its w : lang (Star c :: its) w -> exists xs w', w = xs ++ w' /\ Forall (accepts c) xs /\ lang its w'.
Proof. intros Hl. inversion Hl; subst. eauto. Qed.
Lemma lang_nil_inv w : lang [] w -> w = [].
Proof. intros Hl. by inversion Hl. Qed.

(** One literal or [.] before the rest of the pattern. *)
Lemma matches_one c its (e : bool) re text : parse re = (its, e) ->
  (exists w rest, text = w ++ rest /\ lang (One c :: its) w /\ (e = true -> rest = [])) <->
  exists x text', text = x :: text' /\ accepts c x /\ matches_prefix re text'.
Proof.
  intros Hp. unfold matches_prefix. rewrite Hp. cbn. split.
  - intros (w & rest & -> & (x & w' & -> & Ha & Hl)%lang_one_inv & He). exists x, (w' ++ rest). split_and!; [done|done|].
    by exists w', rest.
  - intros (x & text' & -> & Ha & w & rest & -> & Hl & He). exists (x :: w), rest. split_and!; [done|by constructor|done].
Qed.
Lemma matches_star c its (e : bool) re text : parse re = (its, e) ->
  (exists w rest, text = w ++ rest /\ lang (Star c :: its) w /\ (e = true -> rest = [])) <->
  exists xs post, text = xs ++ post /\ Forall (accepts c) xs /\ matches_prefix re post.
Proof.
  intros Hp. unfold matches_prefix. rewrite Hp. cbn. split.
  - intros (w & rest & -> & (xs & w' & -> & Ha & Hl)%lang_star_inv & He). exists xs, (w' ++ rest).
    split_and!; [by rewrite <- app_assoc|done|]. by exists w', rest.
  - intros (xs & post & -> & Ha & w & rest & -> & Hl & He). exists (xs ++ w), rest.
    split_and!; [by rewrite <- app_assoc|by constructor|done].
Qed.

Lemma step_true (b : bool) (P Q : Prop) : (b = true <-> P) -> forall m : bool, (m = true <-> Q) ->
  (if b then m else false) = true <-> P /\ Q.
Proof. intros E1 m E2. destruct b; intuition congruence. Qed.

Lemma one_step c its (e : bool) re text (m : list Z -> bool) : parse re = (its, e) ->
  (forall t, m t = true <-> matches_prefix re t) ->
  match text with [] => false | x :: text' => if (c =? chr_dot) || (c =? x) then m text' else false end = true <->
  exists w rest, text = w ++ rest /\ lang (One c :: its) w /\ (e = true -> rest = []).
Proof.
  intros Hp Hm. rewrite (matches_one c its e re text Hp). destruct text as [|x text].
  - split; [done|]. by intros (x & t & ? & _).
  - rewrite (step_true _ _ _ (accepts_dec c x) _ (Hm text)). split.
    + intros [Ha Ht]. by exists x, text.
    + intros (x' & t' & [= <- <-] & Ha & Ht). done.
Qed.

Lemma matchhere_bounded n : forall re text, (length re <= n)%nat -> matchhere re text = true <-> matches_prefix re text.
Proof.
  induction n as [|n IH]; intros re text Hn.
  { destruct re; [|cbn in Hn; lia]. split; [|done]. intros _. exists [], text. split_and!; [done|constructor|done]. }
  destruct re as [|r0 re1]; [by apply (IH []); cbn; lia|]. cbn [length] in Hn.
  destruct re1 as [|r1 re2].
  - cbn [matchhere]. destruct (Z.eqb_spec r0 chr_dollar) as [->|Hne].
    + unfold matches_prefix. cbn [parse]. rewrite Z.eqb_refl. cbn. destruct text as [|x text]; split; try done.
      * intros _. exists [], []. split_and!; [done|constructor|done].
      * intros (w & rest & Ht & ->%lang_nil_inv & He). rewrite (He eq_refl) in Ht. done.
    + unfold matches_prefix. cbn [parse]. destruct (Z.eqb_spec r0 chr_dollar); [done|].
      apply (one_step r0 [] false [] text (matchhere [])); [done|]. intros t. apply (IH []). cbn. lia.
  - cbn [matchhere]. unfold matches_prefix. destruct (Z.eqb_spec r1 chr_star) as [->|Hne].
    + destruct (parse re2) as [its e] eqn:Hp. change (parse (r0 :: chr_star :: re2)) with (let '(its, e) := parse re2 in (Star r0 :: its, e)).
      rewrite Hp. cbn [fst snd]. rewrite (matches_star r0 its e re2 text Hp), matchstar_spec.
      split; intros (xs & post & ? & ? & ?); exists xs, post; (split_and!; [done|done|]); apply (IH re2); cbn in Hn; lia || done.
    + change (parse (r0 :: r1 :: re2)) with (if r1 =? chr_star then let '(its, e) := parse re2 in (Star r0 :: its, e)
        else let '(its, e) := parse (r1 :: re2) in (One r0 :: its, e)).
      destruct (Z.eqb_spec r1 chr_star); [done|]. destruct (parse (r1 :: re2)) as [its e] eqn:Hp. cbn [fst snd].
      apply (one_step r0 its e (r1 :: re2) text (matchhere (r1 :: re2)) Hp). intros t. apply IH. cbn in Hn |- *. lia.
Qed.

Lemma matchhere_spec re text : matchhere re text = true <-> matches_prefix re text.
Proof. by apply (matchhere_bounded (length re)). Qed.

Lemma match_loop_spec re text :
  match_loop re text = true <-> exists pre post, text = pre ++ post /\ matches_prefix re post.
Proof.
  induction text as [|x text IH]; cbn [match_loop].
  - destruct (matchhere re []) eqn:E; split; try done.
    + intros _. exists [], []. split; [done|]. by apply matchhere_spec.
    + intros (pre & post & Ht & Hm). symmetry in Ht. apply app_eq_nil in Ht as [-> ->]. apply matchhere_spec in Hm. congruence.
  - destruct (matchhere re (x :: text)) eqn:E.
    + split; [|done]. intros _. exists [], (x :: text). split; [done|]. by apply matchhere_spec.
    + rewrite IH. split.
      * intros (pre & post & -> & Hm). by exists (x :: pre), post.
      * intros ([|y pre] & post & Ht & Hm); cbn in Ht; [subst; apply matchhere_spec in Hm; congruence|].
        injection Ht as -> ->. by exists pre, post.
Qed.

(** The matcher is correct: [match(re, text)] returns 1 exactly when some
    part of the text (its beginning, after [^]; its end, before [$]) is in the
    language of the pattern, where [.] stands for any character and [*] for
    any number of repetitions of the character before it. *)
Theorem grep_match_correct re text : grep_match re text = true <-> matches re text.
Proof.
  unfold grep_match, matches. destruct re as [|c re]; cbn [deref tail].
  - split; [done|]. intros _. destruct text; done.
  - destruct (Z.eqb_spec c chr_caret) as [->|Hne].
    + rewrite decide_True by done. apply matchhere_spec.
    + rewrite decide_False by done. apply match_loop_spec.
Qed.

(** ** The stream filter *)

(** The complete lines of a text, and the incomplete last one. *)
Fixpoint lines_of (cur p : list Z) : list (list Z) * list Z :=
  match p with
  | [] => ([], cur)
  | c :: p' => if c =? chr_nl then let '(ls, r) := lines_of [] p' in (cur :: ls, r) else lines_of (cur ++ [c]) p'
  end.
Definition lines (p : list Z) : list (list Z) := (lines_of [] p).1.

Definition select (pattern : list Z) (ls : list (list Z)) : list (list Z) :=
  map (fun l => l ++ [chr_nl]) (List.filter (grep_match pattern) ls).

Definition text_ok (p : list Z) : Prop := Forall (fun c => c <> 0) p.

Lemma lines_of_app cur p q : lines_of cur (p ++ q) =
  (let '(l1, r1) := lines_of cur p in let '(l2, r2) := lines_of r1 q in (l1 ++ l2, r2)).
Proof.
  revert cur. induction p as [|c p IH]; intros cur; cbn [lines_of app].
  - by destruct (lines_of cur q).
  - destruct (c =? chr_nl); [|apply IH]. rewrite IH. destruct (lines_of [] p) as [l1 r1]. by destruct (lines_of r1 q).
Qed.

Lemma lines_of_split cur p : text_ok p -> lines_of cur p =
  match split_nl p with
  | None => ([], cur ++ p)
  | Some (l, rest) => let '(ls, r) := lines_of [] rest in ((cur ++ l) :: ls, r)
  end.
Proof.
  revert cur. induction p as [|c p IH]; intros cur Hok; cbn [lines_of split_nl]; [by rewrite app_nil_r|].
  apply Forall_cons_1 in Hok as [Hc Hok]. destruct (Z.eqb_spec c 0); [done|]. destruct (c =? chr_nl); [by rewrite app_nil_r|].
  rewrite (IH (cur ++ [c]) Hok). destruct (split_nl p) as [[l rest]|]; [|by rewrite <- app_assoc].
  destruct (lines_of [] rest). by rewrite <- app_assoc.
Qed.

Lemma split_nl_length p l rest : split_nl p = Some (l, rest) -> (length rest < length p)%nat.
Proof.
  revert l. induction p as [|c p IH]; intros l Hs; cbn in Hs; [done|]. destruct (c =? 0); [done|]. destruct (c =? chr_nl).
  - injection Hs as _ <-. cbn. lia.
  - destruct (split_nl p) as [[l' r']|]; [|done]. injection Hs as _ <-. specialize (IH _ eq_refl). cbn. lia.
Qed.

Lemma split_nl_ok p l rest : text_ok p -> split_nl p = Some (l, rest) -> text_ok rest.
Proof.
  revert l. induction p as [|c p IH]; intros l Hok Hs; cbn in Hs; [done|]. apply Forall_cons_1 in Hok as [_ Hok].
  destruct (c =? 0); [done|]. destruct (c =? chr_nl); [by injection Hs as _ <-|].
  destruct (split_nl p) as [[l' r']|]; [|done]. injection Hs as _ <-. by apply (IH l').
Qed.

Lemma grep_lines_spec pattern p fuel : text_ok p -> (length p < fuel)%nat ->
  grep_lines fuel pattern p = Some (select pattern (lines_of [] p).1, (lines_of [] p).2).
Proof.
  revert p. induction fuel as [|fuel IH]; intros p Hok Hf; [lia|]. cbn [grep_lines].
  rewrite (lines_of_split [] p Hok). destruct (split_nl p) as [[l rest]|] eqn:Es; [|done].
  rewrite (IH rest) by (by eapply split_nl_ok || (apply split_nl_length in Es; lia)).
  destruct (lines_of [] rest) as [ls r]. cbn [fst snd app]. unfold select. cbn [List.filter].
  by destruct (grep_match pattern l).
Qed.

(** The incomplete last line holds no newline, so it is its own remainder. *)
Lemma lines_of_rest cur p : (forall q, lines_of [] (cur ++ q) = lines_of cur q) ->
  forall q, lines_of [] ((lines_of cur p).2 ++ q) = lines_of (lines_of cur p).2 q.
Proof.
  revert cur. induction p as [|c p IH]; intros cur Hcur q; cbn [lines_of]; [apply Hcur|].
  destruct (c =? chr_nl) eqn:Ec.
  - destruct (lines_of [] p) as [ls r] eqn:E. pose proof (IH [] (fun _ => eq_refl) q) as H. by rewrite E in H.
  - apply IH. intros q'. rewrite <- app_assoc, Hcur. cbn [app lines_of]. by rewrite Ec.
Qed.

Lemma lines_of_idem cur : (forall q, lines_of [] (cur ++ q) = lines_of cur q) -> lines_of [] cur = ([], cur).
Proof. intros H. rewrite <- (app_nil_r cur) at 1. by rewrite H. Qed.

(** Any remainder is no longer than the line it becomes part of. *)
Lemma first_line_long cur p l ls r : lines_of cur p = (l :: ls, r) -> (length cur <= length l)%nat.
Proof.
  revert cur. induction p as [|c p IH]; intros cur Hl; cbn [lines_of] in Hl; [done|]. destruct (c =? chr_nl).
  - destruct (lines_of [] p). injection Hl as <- _ _. lia.
  - apply IH in Hl. rewrite length_app in Hl. lia.
Qed.

Lemma lines_of_ok cur p : text_ok cur -> text_ok p -> text_ok (lines_of cur p).2.
Proof.
  revert cur. induction p as [|c p IH]; intros cur Hc Hp; cbn [lines_of]; [done|]. apply Forall_cons_1 in Hp as [Hc0 Hp].
  destruct (c =? chr_nl).
  - specialize (IH [] ltac:(by apply Forall_nil_2) Hp). by destruct (lines_of [] p).
  - apply IH; [|done]. apply Forall_app_2; [done|]. by apply Forall_cons_2; [|apply Forall_nil_2].
Qed.

Lemma grep_run pattern fuel buf r :
  text_ok (buf ++ rd_bytes r) -> (forall q, lines_of [] (buf ++ q) = lines_of buf q) ->
  Forall (fun l => length l < BUFSZ - 1)%nat (lines_of buf (rd_bytes r)).1 -> (length (rd_bytes r) < fuel)%nat ->
  grep fuel pattern buf r = Some (select pattern (lines_of buf (rd_bytes r)).1).
Proof.
  revert buf r. induction fuel as [|fuel IH]; intros buf [bytes sizes] Hok Hbuf Hlen Hf; cbn [rd_bytes] in *; [lia|].
  cbn [grep read rd_bytes rd_sizes]. set (k := Nat.min _ _). rewrite length_take.
  destruct (Nat.ltb_spec 0 (k `min` length bytes)) as [Hpos|Hz].
  - assert (Hok' : text_ok (buf ++ take k bytes) /\ text_ok (drop k bytes)).
    { rewrite <- (take_drop k bytes), app_assoc in Hok. by apply Forall_app in Hok. }
    rewrite (grep_lines_spec pattern (buf ++ take k bytes)) by (done || tauto || lia).
    rewrite Hbuf. pose proof (lines_of_app buf (take k bytes) (drop k bytes)) as Happ. rewrite take_drop in Happ.
    rewrite Happ in Hlen |- *.
    pose proof (lines_of_rest buf (take k bytes) Hbuf) as Hrest.
    destruct (lines_of buf (take k bytes)) as [l1 r1] eqn:E1. cbn [fst snd] in *.
    destruct (lines_of r1 (drop k bytes)) as [l2 r2] eqn:E2. cbn [fst snd] in *. apply Forall_app in Hlen as [_ Hlen].
    rewrite IH; cbn [rd_bytes].
    + rewrite E2. cbn. unfold select. by rewrite filter_app, map_app.
    + apply Forall_app_2; [|tauto]. apply Forall_app in Hok as [Hb Hbytes]. rewrite <- (take_drop k bytes) in Hbytes.
      apply Forall_app in Hbytes as [Ht _]. pose proof (lines_of_ok buf (take k bytes) Hb Ht) as Hr. by rewrite E1 in Hr.
    + done.
    + by rewrite E2.
    + rewrite length_drop. lia.
  - assert (Hnone : (lines_of buf bytes).1 = []); [|by rewrite Hnone].
    destruct bytes as [|c bytes]; [done|]. destruct (lines_of buf (c :: bytes)) as [[|l ls] r] eqn:E; [done|]. exfalso.
    apply first_line_long in E. cbn [fst] in Hlen. apply Forall_cons_1 in Hlen as [Hl _]. cbn [length] in Hz.
    unfold k in Hz. unfold BUFSZ in *. destruct sizes; lia.
Qed.

(** grep prints exactly the lines of its input that the pattern matches,
    in order, whatever the sizes of the reads: for input without NUL bytes
    whose lines fit into the buffer. *)
Theorem grep_filters_lines pattern bytes sizes :
  text_ok bytes -> Forall (fun l => length l < BUFSZ - 1)%nat (lines bytes) ->
  grep (S (length bytes)) pattern [] (mk_reader bytes sizes) = Some (select pattern (lines bytes)).
Proof. intros Hok Hl. by apply grep_run; [| | |cbn; lia]. Qed.

Lemma grep_filters_lines_witness :
  grep 9 [97; 42; 98] [] (mk_reader [97; 97; 98; 10; 99; 10; 98; 10] [3; 1]%nat) = Some [[97; 97; 98; 10]; [98; 10]].
Proof.
  change 9%nat with (S (length [97; 97; 98; 10; 99; 10; 98; 10])).
  rewrite (grep_filters_lines [97; 42; 98] [97; 97; 98; 10; 99; 10; 98; 10] [3; 1]%nat).
  - reflexivity.
  - repeat apply Forall_cons_2; try apply Forall_nil_2; discriminate.
  - repeat apply Forall_cons_2; try apply Forall_nil_2; vm_compute; lia.
Defined.
