(* ===== verification/Sh.v ===== *)
(** * The shell's parser (user/sh.c)

    A command line is the buffer [b] of its bytes; pointers into it are byte
    offsets, and the byte at offset [length b] is the terminating NUL. The
    parser's state is the offset [*ps]; [panic] ends the shell's child. *)

From stdpp Require Import base list numbers strings.
From Stdlib Require Import ZArith Lia.
From S2P Require Import Prelude.
Open Scope Z_scope.
Open Scope kernel_scope.

Definition MAXARGS : nat := 10.

(** A [>] redirection truncates, [>>] does not. *)
Record redir := mk_redir { r_file : nat; r_efile : nat; r_mode : Z; r_fd : Z }.

(** struct cmd and its five variants. The words of [EXEC] are the pairs of
    [argv[i]] and [eargv[i]]. *)
Inductive cmd :=
  | EXEC (argv : list (nat * nat))
  | REDIR (c : cmd) (r : redir)
  | PIPE (l r : cmd)
  | LIST (l r : cmd)
  | BACK (c : cmd).

Definition whitespace : list Z := [32; 9; 13; 10; 11].
Definition symbols : list Z := [60; 124; 62; 38; 59; 40; 41].

(** [strchr(s, c) != 0]; the terminating NUL is never found. *)
Definition strchr (s : list Z) (c : Z) : bool := existsb (Z.eqb c) s.

Definition c_bar : Z := 124.
Definition c_lpar : Z := 40.
Definition c_rpar : Z := 41.
Definition c_semi : Z := 59.
Definition c_amp : Z := 38.
Definition c_lt : Z := 60.
Definition c_gt : Z := 62.
Definition c_plus : Z := 43.
Definition c_a : Z := 97.

Section parser.
Context (b : list Z).

Definition ch (p : nat) : Z := default 0 (b !! p).
Definition es : nat := length b.

(** [while(s < es && strchr(whitespace, *s)) s++;] *)
Fixpoint skip (n : nat) (f : Z -> bool) (s : nat) : nat :=
  match n with
  | O => s
  | S n' => if (s <? es)%nat && f (ch s) then skip n' f (S s) else s
  end.
Definition skip_ws (s : nat) : nat := skip (es - s) (strchr whitespace) s.
Definition skip_word (s : nat) : nat :=
  skip (es - s) (fun c => negb (strchr whitespace c) && negb (strchr symbols c)) s.

(** The token, and where it begins and ends. *)
Definition gettoken : M nat (Z * nat * nat) := fun ps =>
  let s := skip_ws ps in
  let q := s in
  let c := ch s in
  let '(ret, s) :=
    if c =? 0 then (c, s)
    else if strchr [c_bar; c_lpar; c_rpar; c_semi; c_amp; c_lt] c then (c, S s)
    else if c =? c_gt then (if ch (S s) =? c_gt then (c_plus, S (S s)) else (c, S s))
    else (c_a, skip_word s) in
  Ok (ret, q, s) (skip_ws s).

Definition peek (toks : list Z) : M nat bool := fun ps =>
  let s := skip_ws ps in
  Ok (negb (ch s =? 0) && strchr toks (ch s)) s.

(** The loop of [parseredirs]: the redirections in the order they are read;
    each one wraps the command built so far. *)
Fixpoint parseredirs (n : nat) : M nat (list redir) :=
  match n with
  | O => no_fuel
  | S n' =>
      more <- peek [c_lt; c_gt] ;;
      if more then
        t <- gettoken ;;
        w <- gettoken ;;
        let '(tok, _, _) := t in
        let '(a, q, eq) := w in
        if a =? c_a then
          rest <- parseredirs n' ;;
          let r := if tok =? c_lt then [mk_redir q eq O_RDONLY 0]
                   else if tok =? c_gt then [mk_redir q eq (Z.lor (Z.lor O_WRONLY O_CREATE) O_TRUNC) 1]
                   else if tok =? c_plus then [mk_redir q eq (Z.lor O_WRONLY O_CREATE) 1]
                   else [] in
          ret (r ++ rest)
        else panic "missing file for redirection"
      else ret []
  end.

Definition wrap (c : cmd) (rs : list redir) : cmd := fold_left REDIR rs c.

(** The loop of [parseexec] that collects arguments: [argv] so far. *)
Fixpoint parseargs (n : nat) (argv : list (nat * nat)) (rs : list redir) : M nat (list (nat * nat) * list redir) :=
  match n with
  | O => no_fuel
  | S n' =>
      stop <- peek [c_bar; c_rpar; c_amp; c_semi] ;;
      if stop then ret (argv, rs)
      else
        t <- gettoken ;;
        let '(tok, q, eq) := t in
        if tok =? 0 then ret (argv, rs)
        else if negb (tok =? c_a) then panic "syntax"
        else
          let argv := argv ++ [(q, eq)] in
          if (MAXARGS <=? length argv)%nat then panic "too many args"
          else
            more <- parseredirs (S es) ;;
            parseargs n' argv (rs ++ more)
  end.

(** [while(peek(ps, es, "&"))] of [parseline]. *)
Fixpoint parseback (n : nat) (c : cmd) : M nat cmd :=
  match n with
  | O => no_fuel
  | S n' =>
      more <- peek [c_amp] ;;
      if more then gettoken ;;; parseback n' (BACK c) else ret c
  end.

Fixpoint parseline (n : nat) : M nat cmd :=
  match n with
  | O => no_fuel
  | S n' =>
      c <- parsepipe n' ;;
      c <- parseback (S es) c ;;
      more <- peek [c_semi] ;;
      if more then gettoken ;;; r <- parseline n' ;; ret (LIST c r) else ret c
  end
with parsepipe (n : nat) : M nat cmd :=
  match n with
  | O => no_fuel
  | S n' =>
      c <- parseexec n' ;;
      more <- peek [c_bar] ;;
      if more then gettoken ;;; r <- parsepipe n' ;; ret (PIPE c r) else ret c
  end
with parseexec (n : nat) : M nat cmd :=
  match n with
  | O => no_fuel
  | S n' =>
      block <- peek [c_lpar] ;;
      if block then parseblock n'
      else
        rs <- parseredirs (S es) ;;
        a <- parseargs (S es) [] rs ;;
        ret (wrap (EXEC a.1) a.2)
  end
with parseblock (n : nat) : M nat cmd :=
  match n with
  | O => no_fuel
  | S n' =>
      ok <- peek [c_lpar] ;;
      if negb ok then panic "parseblock"
      else
        gettoken ;;;
        c <- parseline n' ;;
        ok <- peek [c_rpar] ;;
        if negb ok then panic "syntax - missing )"
        else
          gettoken ;;;
          rs <- parseredirs (S es) ;;
          ret (wrap c rs)
  end.

End parser.

(** NUL-terminate all the counted strings. *)
Fixpoint nulterminate (b : list Z) (c : cmd) : list Z :=
  match c with
  | EXEC argv => fold_left (fun b w => <[w.2 := 0]> b) argv b
  | REDIR c r => <[r_efile r := 0]> (nulterminate b c)
  | PIPE l r => nulterminate (nulterminate b l) r
  | LIST l r => nulterminate (nulterminate b l) r
  | BACK c => nulterminate b c
  end.

(** The result is the tree and the buffer its pointers point into. *)
Definition parsecmd (b : list Z) : outcome nat (cmd * list Z) :=
  (c <- parseline b (4 * length b + 8) ;;
   peek b [] ;;;
   s <- get ;;
   if (s =? es b)%nat then ret (c, nulterminate b c) else panic "syntax") 0%nat.

(** The C string at an offset. *)
Definition cstr (b : list Z) (p : nat) : list Z :=
  (fix go l := match l with [] => [] | c :: l' => if c =? 0 then [] else c :: go l' end) (drop p b).
