(* ===== verification/ShSpec.v ===== *)
(** * The shell's parser terminates, and reads back what was written *)

From stdpp Require Import base list numbers strings.
From Stdlib Require Import ZArith Lia.
From S2P Require Import Prelude Sh.
Open Scope Z_scope.
Open Scope kernel_scope.

(** ** Termination *)
Section total.
Context (b : list Z).
Notation es := (es b).

(** [m] returns at an offset between its start and the end of the buffer,
    or ends the shell; it never runs out of fuel. *)
Definition fine {A} (m : M nat A) (p : nat) : Prop :=
  match m p with Ok _ p' => (p <= p' <= es)%nat | Panic _ => True | Sleep _ _ | NoFuel => False end.

Lemma fine_ret {A} (a : A) p : (p <= es)%nat -> fine (ret a) p.
Proof. unfold fine. cbn. lia. Qed.
Lemma fine_panic {A} msg p : fine (panic msg : M nat A) p.
Proof. done. Qed.
Lemma fine_bind {A B} (m : M nat A) (k : A -> M nat B) p :
  fine m p -> (forall a p', m p = Ok a p' -> (p <= p' <= es)%nat -> fine (k a) p') -> fine (bind m k) p.
Proof.
  unfold fine, bind. destruct (m p) as [a p'|msg|c p'|] eqn:E; try done. intros Hp Hk. specialize (Hk a p' eq_refl Hp).
  destruct (k a p'); try done. lia.
Qed.

Lemma skip_range n f s : (s <= skip b n f s <= Nat.max s es)%nat.
Proof.
  revert s. induction n as [|n IH]; intros s; cbn [skip]; [lia|].
  destruct (Nat.ltb_spec s es); cbn [andb]; [|lia]. destruct (f (ch b s)); [|lia]. specialize (IH (S s)). lia.
Qed.

Lemma skip_stop n f s : (es - s <= n)%nat -> (es <= skip b n f s)%nat \/ f (ch b (skip b n f s)) = false.
Proof.
  revert s. induction n as [|n IH]; intros s Hn; cbn [skip]; [left; lia|].
  destruct (Nat.ltb_spec s es); cbn [andb]; [|left; lia]. destruct (f (ch b s)) eqn:E; [|by right]. apply IH. lia.
Qed.

Lemma skip_ws_idem s : skip_ws b (skip_ws b s) = skip_ws b s.
Proof.
  unfold skip_ws at 1. destruct (skip_stop (es - s) (strchr whitespace) s ltac:(lia)) as [Hge|Hf]; fold (skip_ws b s) in *.
  - replace (es - skip_ws b s)%nat with 0%nat by lia. done.
  - destruct (es - skip_ws b s)%nat; cbn [skip]; [done|]. rewrite Hf. by rewrite andb_false_r.
Qed.

Lemma ch_end p : (es <= p)%nat -> ch b p = 0.
Proof. intros Hp. unfold ch. by rewrite lookup_ge_None_2. Qed.

Lemma peek_run toks p : (p <= es)%nat -> exists r p', peek b toks p = Ok r p' /\ (p <= p' <= es)%nat /\
  p' = skip_ws b p /\ (r = true -> (p' < es)%nat /\ strchr toks (ch b p') = true /\ ch b p' <> 0).
Proof.
  intros Hp. unfold peek. eexists _, _. split; [reflexivity|]. pose proof (skip_range (es - p) (strchr whitespace) p) as Hr.
  fold (skip_ws b p) in Hr. split_and!; [lia|lia|done|]. intros [Hz%negb_true_iff Hs]%andb_true_iff. apply Z.eqb_neq in Hz.
  split_and!; [|done|done]. destruct (decide (skip_ws b p < es)%nat); [done|]. exfalso. apply Hz, ch_end. lia.
Qed.

Lemma fine_peek toks p : (p <= es)%nat -> fine (peek b toks) p.
Proof. intros Hp. destruct (peek_run toks p Hp) as (r & p' & E & Hr & _). unfold fine. by rewrite E. Qed.

(** A token that is not the end of the buffer has at least one byte. *)
Lemma gettoken_run p : (p <= es)%nat -> exists t q eq p', gettoken b p = Ok (t, q, eq) p' /\ (p <= p' <= es)%nat /\
  (t <> 0 -> (p < p')%nat).
Proof.
  intros Hp. unfold gettoken. set (s := skip_ws b p).
  pose proof (skip_range (es - p) (strchr whitespace) p) as Hr. fold (skip_ws b p) s in Hr.
  assert (Hfin : forall x, (s <= x <= es)%nat -> (s <= skip_ws b x <= es)%nat).
  { intros x Hx. pose proof (skip_range (es - x) (strchr whitespace) x) as Hx'. fold (skip_ws b x) in Hx'. lia. }
  assert (Hlt : ch b s <> 0 -> (s < es)%nat).
  { intros Hz. destruct (decide (s < es)%nat); [done|]. destruct Hz. apply ch_end. lia. }
  destruct (Z.eqb_spec (ch b s) 0) as [Hz|Hz].
  { rewrite Hz. eexists _, _, _, _. split; [reflexivity|]. specialize (Hfin s). split; [lia|done]. }
  specialize (Hlt Hz).
  assert (Hgo : forall t x, (s < x <= es)%nat -> exists t' q eq p', Ok (t, s, x) (skip_ws b x) = Ok (t', q, eq) p' /\
    (p <= p' <= es)%nat /\ (t' <> 0 -> (p < p')%nat)).
  { intros t x Hx. eexists _, _, _, _. split; [reflexivity|]. specialize (Hfin x).
    pose proof (skip_range (es - x) (strchr whitespace) x) as Hx'. fold (skip_ws b x) in Hx'. lia. }
  destruct (strchr [c_bar; c_lpar; c_rpar; c_semi; c_amp; c_lt] (ch b s)) eqn:Es; [by apply Hgo; lia|].
  destruct (Z.eqb_spec (ch b s) c_gt) as [Hg|Hg].
  { destruct (Z.eqb_spec (ch b (S s)) c_gt) as [Hg2|]; apply Hgo; [|lia].
    assert (S s < es)%nat; [|lia]. destruct (decide (S s < es)%nat); [done|]. rewrite ch_end in Hg2 by lia. done. }
  apply Hgo. unfold skip_word. destruct (es - s)%nat as [|n] eqn:En; [lia|]. cbn [skip].
  assert (strchr whitespace (ch b s) = false) as ->.
  { destruct (skip_stop (es - p) (strchr whitespace) p ltac:(lia)) as [|Hf]; [fold (skip_ws b p) s in H; lia|done]. }
  assert (strchr symbols (ch b s) = false) as ->.
  { revert Es. unfold strchr, symbols. cbn. fold c_bar c_lpar c_rpar c_semi c_amp c_lt c_gt.
    rewrite (proj2 (Z.eqb_neq _ _) Hg). rewrite !orb_false_r, !orb_false_iff. tauto. }
  destruct (Nat.ltb_spec s es); [|lia]. cbn [andb negb].
  pose proof (skip_range n (fun c => negb (strchr whitespace c) && negb (strchr symbols c)) (S s)). lia.
Qed.

Lemma fine_gettoken p : (p <= es)%nat -> fine (gettoken b) p.
Proof. intros Hp. destruct (gettoken_run p Hp) as (t & q & eq & p' & E & Hr & _). unfold fine. by rewrite E. Qed.

(** After a successful [peek] the next token makes progress. *)
Lemma peek_token toks p r p' : (p <= es)%nat -> peek b toks p = Ok r p' -> r = true ->
  forall t p'', gettoken b p' = Ok t p'' -> (p' < p'' <= es)%nat.
Proof.
  intros Hp Hpk -> t p'' Ht. destruct (peek_run toks p Hp) as (r & q & E & Hr & Eq & Htrue). rewrite E in Hpk. injection Hpk as -> ->.
  destruct (Htrue eq_refl) as (Hlt & _ & Hz). destruct (gettoken_run p' ltac:(lia)) as (t' & q' & eq & p3 & E' & Hr' & Hprog).
  rewrite E' in Ht. injection Ht as <- <-. split; [|lia]. apply Hprog. revert E'. unfold gettoken. rewrite Eq, skip_ws_idem, <- Eq.
  destruct (Z.eqb_spec (ch b p') 0); [done|]. destruct (strchr [c_bar; c_lpar; c_rpar; c_semi; c_amp; c_lt] (ch b p')); [intros E'; injection E'; intros; by subst|].
  destruct (Z.eqb_spec (ch b p') c_gt); [destruct (ch b (S p') =? c_gt); intros E'; injection E'; intros; by subst|]. intros E'; injection E'; intros; by subst.
Qed.

Lemma fine_parseredirs n p : (p <= es)%nat -> (es - p < n)%nat -> fine (parseredirs b n) p.
Proof.
  revert p. induction n as [|n IH]; intros p Hp Hn; [lia|]. cbn [parseredirs].
  apply fine_bind; [by apply fine_peek|]. intros [] p1 Hpk Hp1; [|apply fine_ret; lia].
  apply fine_bind; [apply fine_gettoken; lia|]. intros [[tok q0] eq0] p2 Ht Hp2. pose proof (peek_token _ p _ p1 Hp Hpk eq_refl _ _ Ht).
  apply fine_bind; [apply fine_gettoken; lia|]. intros [[a q] eq] p3 _ Hp3.
  destruct (a =? c_a); [|apply fine_panic]. apply fine_bind; [apply IH; lia|]. intros rest p4 _ Hp4. apply fine_ret. lia.
Qed.

Lemma fine_parseargs n argv rs p : (p <= es)%nat -> (es - p < n)%nat -> fine (parseargs b n argv rs) p.
Proof.
  revert argv rs p. induction n as [|n IH]; intros argv rs p Hp Hn; [lia|]. cbn [parseargs].
  apply fine_bind; [by apply fine_peek|]. intros [] p1 _ Hp1; [apply fine_ret; lia|].
  apply fine_bind; [apply fine_gettoken; lia|]. intros [[tok q] eq] p2 Ht Hp2.
  destruct (gettoken_run p1 ltac:(lia)) as (t' & q' & eq' & p' & E & _ & Hprog). rewrite E in Ht. injection Ht as -> -> -> ->.
  destruct (Z.eqb_spec tok 0) as [|Hz]; [apply fine_ret; lia|]. specialize (Hprog Hz).
  destruct (negb (tok =? c_a)); [apply fine_panic|]. destruct (MAXARGS <=? _)%nat; [apply fine_panic|].
  apply fine_bind; [apply fine_parseredirs; lia|]. intros more p3 _ Hp3. apply IH; lia.
Qed.

Lemma fine_parseback n c p : (p <= es)%nat -> (es - p < n)%nat -> fine (parseback b n c) p.
Proof.
  revert c p. induction n as [|n IH]; intros c p Hp Hn; [lia|]. cbn [parseback].
  apply fine_bind; [by apply fine_peek|]. intros [] p1 Hpk Hp1; [|apply fine_ret; lia].
  apply fine_bind; [apply fine_gettoken; lia|]. intros t p2 Ht Hp2. pose proof (peek_token _ p _ p1 Hp Hpk eq_refl _ _ Ht).
  apply IH; lia.
Qed.

(** Fuel four times the bytes left is enough for each routine. *)
Lemma fine_parsers n :
  (forall p, (p <= es)%nat -> (4 * (es - p) + 4 <= n)%nat -> fine (parseline b n) p) /\
  (forall p, (p <= es)%nat -> (4 * (es - p) + 3 <= n)%nat -> fine (parsepipe b n) p) /\
  (forall p, (p <= es)%nat -> (4 * (es - p) + 2 <= n)%nat -> fine (parseexec b n) p) /\
  (forall p, (p <= es)%nat -> (4 * (es - p) + 1 <= n)%nat -> fine (parseblock b n) p).
Proof.
  induction n as [|n (IHl & IHp & IHe & IHb)]; [split_and!; intros; lia|].
  split_and!; intros p Hp Hn; cbn [parseline parsepipe parseexec parseblock].
  - apply fine_bind; [apply IHp; lia|]. intros c p1 _ Hp1. apply fine_bind; [apply fine_parseback; lia|]. intros c2 p2 _ Hp2.
    apply fine_bind; [apply fine_peek; lia|]. intros [] p3 Hpk Hp3; [|apply fine_ret; lia].
    apply fine_bind; [apply fine_gettoken; lia|]. intros t p4 Ht Hp4. pose proof (peek_token _ p2 _ p3 ltac:(lia) Hpk eq_refl _ _ Ht).
    apply fine_bind; [apply IHl; lia|]. intros r p5 _ Hp5. apply fine_ret. lia.
  - apply fine_bind; [apply IHe; lia|]. intros c p1 _ Hp1.
    apply fine_bind; [apply fine_peek; lia|]. intros [] p3 Hpk Hp3; [|apply fine_ret; lia].
    apply fine_bind; [apply fine_gettoken; lia|]. intros t p4 Ht Hp4. pose proof (peek_token _ p1 _ p3 ltac:(lia) Hpk eq_refl _ _ Ht).
    apply fine_bind; [apply IHp; lia|]. intros r p5 _ Hp5. apply fine_ret. lia.
  - apply fine_bind; [apply fine_peek; lia|]. intros [] p1 _ Hp1; [apply IHb; lia|].
    apply fine_bind; [apply fine_parseredirs; lia|]. intros rs p2 _ Hp2.
    apply fine_bind; [apply fine_parseargs; lia|]. intros a p3 _ Hp3. apply fine_ret. lia.
  - apply fine_bind; [apply fine_peek; lia|]. intros [] p1 Hpk Hp1; [|apply fine_panic]. cbn [negb].
    apply fine_bind; [apply fine_gettoken; lia|]. intros t p2 Ht Hp2. pose proof (peek_token _ p _ p1 Hp Hpk eq_refl _ _ Ht).
    apply fine_bind; [apply IHl; lia|]. intros c p3 _ Hp3. apply fine_bind; [apply fine_peek; lia|]. intros ok p4 _ Hp4.
    destruct (negb ok); [apply fine_panic|]. apply fine_bind; [apply fine_gettoken; lia|]. intros t' p5 _ Hp5.
    apply fine_bind; [apply fine_parseredirs; lia|]. intros rs p6 _ Hp6. apply fine_ret. lia.
Qed.
End total.

(** C38. The shell parses every line: on any input [parsecmd] returns a
    command or ends with a message, within a number of nested calls that is
    linear in the length of the line. *)
Theorem parsecmd_terminates b :
  (exists c b' p, parsecmd b = Ok (c, b') p) \/ exists msg, parsecmd b = Panic msg.
Proof.
  assert (Hf : fine b (c <- parseline b (4 * length b + 8) ;; peek b [] ;;; s <- get ;;
    if (s =? es b)%nat then ret (c, nulterminate b c) else panic "syntax") 0%nat).
  { apply fine_bind; [apply (fine_parsers b); unfold es; lia|]. intros c p _ Hp.
    apply fine_bind; [apply fine_peek; lia|]. intros r p1 _ Hp1. unfold fine, bind, get. destruct (p1 =? es b)%nat; cbn; lia || done. }
  unfold fine in Hf. unfold parsecmd. destruct (bind _ _ _) as [[c b'] p|msg|ch p|]; try done; [left|right]; eauto.
Qed.

(** ** Reading back a written command *)

(** Commands as a user writes them. *)
Inductive rdir := RIn (w : list Z) | ROut (w : list Z) | RApp (w : list Z).
Inductive line := Line (p : pipeline) (amps : nat) | Seq (p : pipeline) (amps : nat) (l : line)
with pipeline := Cmd (e : exec) | Bar (e : exec) (p : pipeline)
with exec := Simple (rs : list rdir) (args : list (list Z * list rdir)) | Block (l : line) (rs : list rdir).

Scheme line_mind := Induction for line Sort Prop
  with pipeline_mind := Induction for pipeline Sort Prop
  with exec_mind := Induction for exec Sort Prop.
Combined Scheme syntax_ind from line_mind, pipeline_mind, exec_mind.

(** The command a line means, with strings for words. *)
Inductive acmd :=
  | AExec (args : list (list Z))
  | ARedir (c : acmd) (file : list Z) (mode fd : Z)
  | APipe (l r : acmd)
  | AList (l r : acmd)
  | ABack (c : acmd).

Definition den_redir (c : acmd) (r : rdir) : acmd :=
  match r with
  | RIn w => ARedir c w O_RDONLY 0
  | ROut w => ARedir c w (Z.lor (Z.lor O_WRONLY O_CREATE) O_TRUNC) 1
  | RApp w => ARedir c w (Z.lor O_WRONLY O_CREATE) 1
  end.
Definition den_redirs (c : acmd) (rs : list rdir) : acmd := fold_left den_redir rs c.
Definition den_amps (c : acmd) (n : nat) : acmd := Nat.iter n ABack c.
Fixpoint den_line (l : line) : acmd :=
  match l with
  | Line p n => den_amps (den_pipe p) n
  | Seq p n l => AList (den_amps (den_pipe p) n) (den_line l)
  end
with den_pipe (p : pipeline) : acmd :=
  match p with
  | Cmd e => den_exec e
  | Bar e p => APipe (den_exec e) (den_pipe p)
  end
with den_exec (e : exec) : acmd :=
  match e with
  | Simple rs args => den_redirs (AExec (map fst args)) (rs ++ concat (map snd args))
  | Block l rs => den_redirs (den_line l) rs
  end.

(** Words: not empty, no space, no symbol; a command has fewer than MAXARGS of
    them. *)
Definition wchar (c : Z) : Prop := c <> 0 /\ strchr whitespace c = false /\ strchr symbols c = false.
Definition word (w : list Z) : Prop := w <> [] /\ Forall wchar w.
Definition rword (r : rdir) : list Z := match r with RIn w | ROut w | RApp w => w end.
Definition wf_redirs (rs : list rdir) : Prop := Forall (fun r => word (rword r)) rs.
Fixpoint wf_line (l : line) : Prop :=
  match l with
  | Line p _ => wf_pipe p
  | Seq p _ l => wf_pipe p /\ wf_line l
  end
with wf_pipe (p : pipeline) : Prop :=
  match p with
  | Cmd e => wf_exec e
  | Bar e p => wf_exec e /\ wf_pipe p
  end
with wf_exec (e : exec) : Prop :=
  match e with
  | Simple rs args => wf_redirs rs /\ Forall (fun a => word a.1 /\ wf_redirs a.2) args /\ (length args < MAXARGS)%nat
  | Block l rs => wf_line l /\ wf_redirs rs
  end.

(** *** The ways to write a command *)

Inductive token := TWord (w : list Z) | TSym (c : Z) | TApp.
Definition tk_redir (r : rdir) : list token :=
  match r with
  | RIn w => [TSym c_lt; TWord w]
  | ROut w => [TSym c_gt; TWord w]
  | RApp w => [TApp; TWord w]
  end.
Definition tk_redirs (rs : list rdir) : list token := concat (map tk_redir rs).
Definition tk_args (args : list (list Z * list rdir)) : list token := concat (map (fun a => TWord a.1 :: tk_redirs a.2) args).
Fixpoint tk_line (l : line) : list token :=
  match l with
  | Line p n => tk_pipe p ++ replicate n (TSym c_amp)
  | Seq p n l => tk_pipe p ++ replicate n (TSym c_amp) ++ TSym c_semi :: tk_line l
  end
with tk_pipe (p : pipeline) : list token :=
  match p with
  | Cmd e => tk_exec e
  | Bar e p => tk_exec e ++ TSym c_bar :: tk_pipe p
  end
with tk_exec (e : exec) : list token :=
  match e with
  | Simple rs args => tk_redirs rs ++ tk_args args
  | Block l rs => TSym c_lpar :: tk_line l ++ TSym c_rpar :: tk_redirs rs
  end.

Definition text (t : token) : list Z := match t with TWord w => w | TSym c => [c] | TApp => [c_gt; c_gt] end.
Definition one_sym (c : Z) : Prop := c ∈ [c_bar; c_lpar; c_rpar; c_semi; c_amp; c_lt; c_gt].
Definition token_ok (t : token) : Prop := match t with TWord w => word w | TSym c => one_sym c | TApp => True end.

(** The bytes that end a word, and what may follow a token without changing it:
    any of them after a word, no second [>] after [>]. *)
Definition stops (c : Z) : bool := strchr whitespace c || strchr symbols c.
Definition apart (t : token) (s : list Z) : Prop :=
  match t, s with
  | TWord _, c :: _ => stops c = true
  | TSym t, c :: _ => t = c_gt -> c <> c_gt
  | _, _ => True
  end.
(** Space, tab, carriage return, newline and vertical tab. *)
Definition blank (ws : list Z) : Prop := Forall (fun c => c ∈ [32; 9; 13; 10; 11]) ws.

(** Tokens in a row, each followed by any space, also none where it can be left
    out; a line may begin with space. *)
Inductive written : list token -> list Z -> Prop :=
  | wr_nil : written [] []
  | wr_token t ws ts s : token_ok t -> blank ws -> apart t (ws ++ s) -> written ts s -> written (t :: ts) (text t ++ ws ++ s).
Definition writes (l : line) (b : list Z) : Prop := exists ws s, blank ws /\ b = ws ++ s /\ written (tk_line l) s.

(** What a tree with offsets means, reading its strings from the buffer. *)
Fixpoint view (b : list Z) (c : cmd) : acmd :=
  match c with
  | EXEC argv => AExec (map (fun w => cstr b w.1) argv)
  | REDIR c r => ARedir (view b c) (cstr b (r_file r)) (r_mode r) (r_fd r)
  | PIPE l r => APipe (view b l) (view b r)
  | LIST l r => AList (view b l) (view b r)
  | BACK c => ABack (view b c)
  end.

(** Before NUL-termination: the word between two offsets. *)
Record seg (b : list Z) (q eq : nat) (w : list Z) : Prop := {
  sg_word : word w;
  sg_at : exists rest, drop q b = w ++ rest /\ match rest with [] => True | c :: _ => stops c = true end;
  sg_end : eq = (q + length w)%nat
}.

Inductive shows (b : list Z) : cmd -> acmd -> Prop :=
  | sh_exec argv ws : Forall2 (fun w x => seg b w.1 w.2 x) argv ws -> shows b (EXEC argv) (AExec ws)
  | sh_redir c a r w : shows b c a -> seg b (r_file r) (r_efile r) w ->
      shows b (REDIR c r) (ARedir a w (r_mode r) (r_fd r))
  | sh_pipe l r a a' : shows b l a -> shows b r a' -> shows b (PIPE l r) (APipe a a')
  | sh_list l r a a' : shows b l a -> shows b r a' -> shows b (LIST l r) (AList a a')
  | sh_back c a : shows b c a -> shows b (BACK c) (ABack a).

(** *** NUL-termination *)

(** The offsets at which [nulterminate] stores a NUL. *)
Fixpoint ends (c : cmd) : list nat :=
  match c with
  | EXEC argv => map snd argv
  | REDIR c r => ends c ++ [r_efile r]
  | PIPE l r => ends l ++ ends r
  | LIST l r => ends l ++ ends r
  | BACK c => ends c
  end.
Definition punch (b : list Z) (ps : list nat) : list Z := fold_left (fun b p => <[p := 0]> b) ps b.

Lemma punch_app b ps qs : punch b (ps ++ qs) = punch (punch b ps) qs.
Proof. apply fold_left_app. Qed.

Lemma nulterminate_punch c b : nulterminate b c = punch b (ends c).
Proof.
  revert b. induction c as [argv|c IH r|l IHl r IHr|l IHl r IHr|c IH]; intros b; cbn [nulterminate ends].
  - revert b. induction argv as [|w argv IH]; intros b; [done|]. cbn. apply IH.
  - rewrite punch_app, IH. done.
  - by rewrite punch_app, IHl, IHr.
  - by rewrite punch_app, IHl, IHr.
  - apply IH.
Qed.

Lemma punch_lookup ps b p : punch b ps !! p = if decide (p ∈ ps) then (fun _ => 0) <$> b !! p else b !! p.
Proof.
  revert b. induction ps as [|q ps IH]; intros b; cbn [punch fold_left]; [by rewrite decide_False by apply not_elem_of_nil|].
  fold (punch (<[q := 0]> b) ps). rewrite IH. destruct (decide (p = q)) as [->|Hne].
  - rewrite (decide_True (P := q ∈ q :: ps)) by (by left). rewrite list_lookup_insert. destruct (decide (q < length b)%nat) as [Hl|Hl].
    + rewrite (decide_True (P := q = q /\ _)) by done. destruct (lookup_lt_is_Some_2 _ _ Hl) as [x ->]. by destruct (decide _).
    + rewrite (decide_False (P := q = q /\ _)) by (by intros [_ ?]). rewrite lookup_ge_None_2 by lia. by destruct (decide _).
  - rewrite list_lookup_insert_ne by done. destruct (decide (p ∈ ps)) as [Hp|Hp]; [by rewrite decide_True by (by right)|].
    rewrite decide_False; [done|]. by intros [?|?]%elem_of_cons.
Qed.

Lemma seg_end b q eq w x : seg b q eq w -> b !! eq = Some x -> stops x = true.
Proof.
  intros [_ (rest & Hr & Hst) ->]. replace (b !! (q + length w)%nat) with (drop q b !! length w) by apply lookup_drop.
  rewrite Hr. destruct rest as [|c rest]; [by rewrite app_nil_r, lookup_ge_None_2 by lia|]. rewrite list_lookup_middle by done. by intros [= <-].
Qed.

Lemma shows_ends b c a : shows b c a -> forall p x, p ∈ ends c -> b !! p = Some x -> stops x = true.
Proof.
  induction 1 as [argv ws Hw|c a r w _ IH Hs|l r a a' _ IHl _ IHr|l r a a' _ IHl _ IHr|c a _ IH]; intros p x Hp; cbn [ends] in Hp.
  - apply list_elem_of_fmap in Hp as (y & -> & Hx). apply list_elem_of_lookup in Hx as [i Hi].
    destruct (Forall2_lookup_l _ _ _ _ _ Hw Hi) as (z & _ & Hs). by eapply seg_end.
  - apply elem_of_app in Hp as [Hp|Hp]; [by apply IH|]. apply list_elem_of_singleton in Hp; subst p. by eapply seg_end.
  - apply elem_of_app in Hp as [Hp|Hp]; eauto.
  - apply elem_of_app in Hp as [Hp|Hp]; eauto.
  - eauto.
Qed.

Lemma cstr_word b q w : Forall (fun c => c <> 0) w -> (forall i x, w !! i = Some x -> b !! (q + i)%nat = Some x) ->
  (forall x, b !! (q + length w)%nat = Some x -> x = 0) -> cstr b q = w.
Proof.
  revert q. induction w as [|x w IH]; intros q Hw Hb Hend; unfold cstr.
  - cbn in Hend. rewrite Nat.add_0_r in Hend. destruct (b !! q) as [x|] eqn:E; [|by rewrite drop_ge by (by apply lookup_ge_None_1)].
    rewrite (drop_S _ _ _ E), (Hend x eq_refl). done.
  - apply Forall_cons_1 in Hw as [Hx Hw]. pose proof (Hb 0%nat x eq_refl) as H0. rewrite Nat.add_0_r in H0.
    rewrite (drop_S _ _ _ H0). destruct (Z.eqb_spec x 0); [done|]. f_equal. apply (IH (S q) Hw).
    + intros i y Hi. rewrite <- (Hb (S i) y Hi). f_equal. lia.
    + intros y Hy. apply Hend. rewrite <- Hy. f_equal. cbn. lia.
Qed.

Lemma wchar_goes c : wchar c -> stops c = false.
Proof. unfold stops. by intros (_ & -> & ->). Qed.

Lemma seg_cstr b b' q eq w (E : list nat) : (forall p, b' !! p = if decide (p ∈ E) then (fun _ => 0) <$> b !! p else b !! p) ->
  (forall p x, p ∈ E -> b !! p = Some x -> stops x = true) -> seg b q eq w -> eq ∈ E -> cstr b' q = w.
Proof.
  intros Hb' HE Hs Hin. pose proof Hs as [[_ Hw] (rest & Hr & _) ->]. apply cstr_word.
  - eapply Forall_impl; [exact Hw|]. by intros x [? _].
  - intros i x Hi. assert (Hbi : b !! (q + i)%nat = Some x).
    { rewrite <- lookup_drop, Hr. apply lookup_app_l_Some, Hi. }
    rewrite Hb'. destruct (decide _) as [Hin'|]; [|done]. apply (HE _ x) in Hin'; [|done].
    by rewrite (wchar_goes x (Forall_lookup_1 _ _ _ _ Hw Hi)) in Hin'.
  - intros x. rewrite Hb', decide_True by done. destruct (b !! _); [|done]. by intros [= <-].
Qed.

Lemma view_shows b b' c a (E : list nat) : (forall p, b' !! p = if decide (p ∈ E) then (fun _ => 0) <$> b !! p else b !! p) ->
  (forall p x, p ∈ E -> b !! p = Some x -> stops x = true) -> shows b c a -> (forall p, p ∈ ends c -> p ∈ E) -> view b' c = a.
Proof.
  intros Hb' HE. induction 1 as [argv ws Hw|c a r w _ IH Hs|l r a a' _ IHl _ IHr|l r a a' _ IHl _ IHr|c a _ IH]; intros Hin; cbn [view ends] in *.
  - f_equal. induction Hw as [|[q eq] w argv ws Hs _ IHw]; [done|]. cbn [map]. f_equal.
    + apply (seg_cstr b b' q eq w E); [done|done|done|]. apply Hin. by left.
    + apply IHw. intros p Hp. apply Hin. by right.
  - f_equal.
    + apply IH. intros p Hp. apply Hin, elem_of_app. by left.
    + apply (seg_cstr b b' _ _ w E Hb' HE Hs). apply Hin, elem_of_app. right. by left.
  - f_equal; [apply IHl|apply IHr]; intros p Hp; apply Hin, elem_of_app; tauto.
  - f_equal; [apply IHl|apply IHr]; intros p Hp; apply Hin, elem_of_app; tauto.
  - f_equal. by apply IH.
Qed.

(** NUL-termination gives every word its string. *)
Lemma nulterminate_view b c a : shows b c a -> view (nulterminate b c) c = a.
Proof.
  intros Hs. pose proof (shows_ends b c a Hs) as He. rewrite nulterminate_punch.
  apply (view_shows b _ c a (ends c)); [|done|done|done]. intros p. apply punch_lookup.
Qed.

(** *** Tokens of a written line *)
Section tokens.
Context (b : list Z).
Notation es := (es b).

(** The rest of the line begins with a token, not with a space. *)
Definition starts (s : list Z) : Prop := match s with [] => True | c :: _ => c <> 0 /\ strchr whitespace c = false end.

Lemma ch_at p s : drop p b = s -> ch b p = match s with [] => 0 | c :: _ => c end.
Proof.
  intros <-. unfold ch. destruct (drop p b) as [|c l] eqn:E.
  - rewrite lookup_ge_None_2; [done|]. pose proof (length_drop b p) as Hl. rewrite E in Hl. cbn in Hl. lia.
  - rewrite <- (Nat.add_0_r p), <- lookup_drop, E. done.
Qed.

Lemma at_lt p c s : drop p b = c :: s -> (p < es)%nat.
Proof. intros E. pose proof (length_drop b p) as Hl. rewrite E in Hl. cbn in Hl. unfold Sh.es. lia. Qed.

Lemma at_next p n s s' : drop p b = s ++ s' -> length s = n -> drop (p + n) b = s'.
Proof. intros E <-. by rewrite <- drop_drop, E, drop_app_length. Qed.

Lemma skip_none n f p s : drop p b = s -> match s with [] => True | c :: _ => f c = false end -> skip b n f p = p.
Proof.
  intros E Hs. destruct n; cbn [skip]; [done|]. destruct (Nat.ltb_spec p es) as [Hlt|]; [|done].
  rewrite (ch_at p s E). destruct s as [|c s]; [|by rewrite Hs].
  pose proof (length_drop b p) as Hl. rewrite E in Hl. unfold Sh.es in *. cbn in Hl. lia.
Qed.

Lemma skip_many n f p w s : drop p b = w ++ s -> Forall (fun c => f c = true) w ->
  match s with [] => True | c :: _ => f c = false end -> (es - p <= n)%nat -> skip b n f p = (p + length w)%nat.
Proof.
  revert n p. induction w as [|c w IH]; intros n p E Hw Hs Hn; cbn [app length] in *.
  - rewrite Nat.add_0_r. by apply (skip_none n f p s).
  - apply Forall_cons_1 in Hw as [Hc Hw]. pose proof (at_lt _ _ _ E) as Hlt. destruct n; [lia|]. cbn [skip].
    destruct (Nat.ltb_spec p es); [|lia]. rewrite (ch_at p _ E), Hc. cbn [andb].
    rewrite (IH n (S p)); [lia| |done|done|lia]. by rewrite <- (Nat.add_1_r p), (at_next p 1 [c] (w ++ s)).
Qed.

Lemma starts_ws s : starts s -> match s with [] => True | c :: _ => strchr whitespace c = false end.
Proof. by destruct s as [|c s]; [|intros [_ ?]]. Qed.

Lemma blank_skipped ws : blank ws -> Forall (fun c => strchr whitespace c = true) ws.
Proof. intros Hw. eapply Forall_impl; [exact Hw|]. intros c Hc. unfold strchr. apply existsb_exists. exists c. split; [by apply list_elem_of_In in Hc|apply Z.eqb_refl]. Qed.
Lemma skip_ws_blank p ws s : drop p b = ws ++ s -> blank ws -> starts s -> skip_ws b p = (p + length ws)%nat.
Proof. intros E Hws Hs. apply (skip_many _ _ p ws s E); [by apply blank_skipped|by apply starts_ws|done]. Qed.
Lemma skip_ws_none p s : drop p b = s -> starts s -> skip_ws b p = p.
Proof. intros E Hs. rewrite (skip_ws_blank p [] s E) by (done || constructor). cbn. lia. Qed.

Lemma one_sym_cases (P : Z -> Prop) : P c_bar -> P c_lpar -> P c_rpar -> P c_semi -> P c_amp -> P c_lt -> P c_gt -> forall c, one_sym c -> P c.
Proof. intros. unfold one_sym in *. rewrite !elem_of_cons in *. repeat destruct_or?; subst; try done. by apply not_elem_of_nil in H6. Qed.
Lemma text_starts t s : token_ok t -> starts (text t ++ s).
Proof.
  destruct t as [w|c|]; cbn [token_ok text]; [|by revert c; apply one_sym_cases|done].
  intros [Hn Hw]. destruct w as [|c w]; [done|]. by apply Forall_cons_1 in Hw as [(Hz & Hws & _) _].
Qed.
Lemma written_nil s : written [] s -> s = [].
Proof. by inversion 1. Qed.
Lemma written_starts ts s : written ts s -> starts s.
Proof. destruct 1; [done|by apply text_starts]. Qed.
Lemma written_length ts s : written ts s -> (length ts <= length s)%nat.
Proof.
  induction 1 as [|t ws ts s Ht _ _ _ IH]; [done|]. rewrite !length_app. cbn [length]. assert (1 <= length (text t))%nat; [|lia].
  destruct t as [w|c|]; [|cbn; lia..]. destruct Ht as [Hn _]. destruct w; [done|cbn; lia].
Qed.
Lemma written_fits ts p : written ts (drop p b) -> (length ts <= es - p)%nat.
Proof. intros Hw%written_length. rewrite length_drop in Hw. exact Hw. Qed.
(** The test of [peek] on the rest of the line. *)
Definition hd_in (ts : list token) (toks : list Z) : bool :=
  match ts with TSym c :: _ => strchr toks c | TApp :: _ => strchr toks c_gt | _ => false end.

Lemma wchar_not_sym c : wchar c -> strchr [c_bar; c_lpar; c_rpar; c_semi; c_amp; c_lt] c = false /\ (c =? c_gt) = false /\
  (c =? 0) = false.
Proof.
  intros (Hz & _ & Hs). unfold strchr, symbols in Hs. cbn in Hs. rewrite !orb_false_r, !orb_false_iff in Hs.
  destruct Hs as (H1 & H2 & H3 & H4 & H5 & H6 & H7). unfold strchr, c_bar, c_lpar, c_rpar, c_semi, c_amp, c_lt, c_gt.
  cbn [existsb]. rewrite H1, H2, H3, H4, H5, H6, H7. split_and!; [done|done|by apply Z.eqb_neq].
Qed.
Lemma wchar_not_in toks c : forallb (strchr symbols) toks = true -> wchar c -> strchr toks c = false.
Proof.
  intros Hsub (_ & _ & Hs). destruct (strchr toks c) eqn:E; [|done]. unfold strchr in E. apply existsb_exists in E as (x & Hx & ->%Z.eqb_eq).
  rewrite forallb_forall in Hsub. by rewrite (Hsub x Hx) in Hs.
Qed.

Lemma peek_at toks p ts : forallb (strchr symbols) toks = true -> written ts (drop p b) -> peek b toks p = Ok (hd_in ts toks) p.
Proof.
  intros Hsub Hw. pose proof (written_starts _ _ Hw) as Hs. unfold peek. rewrite (skip_ws_none p _ eq_refl Hs), (ch_at p _ eq_refl).
  inversion Hw as [|t ws ts' s Ht _ _ _ E1 E2]; [done|]. destruct t as [w|c|]; cbn [text hd_in app] in *.
  - destruct Ht as [Hn Hc]. destruct w as [|c w]; [done|]. apply Forall_cons_1 in Hc as [Hc _]. cbn [app]. by rewrite (wchar_not_in toks c), andb_false_r.
  - destruct Hs as [Hz _]. by rewrite (proj2 (Z.eqb_neq _ _) Hz).
  - done.
Qed.

(** What [gettoken] makes of a token. *)
Definition code (t : token) : Z := match t with TWord _ => c_a | TSym c => c | TApp => c_plus end.

Lemma token_end p t s : token_ok t -> apart t s -> drop p b = text t ++ s ->
  (if ch b p =? 0 then (ch b p, p)
   else if strchr [c_bar; c_lpar; c_rpar; c_semi; c_amp; c_lt] (ch b p) then (ch b p, S p)
   else if ch b p =? c_gt then (if ch b (S p) =? c_gt then (c_plus, S (S p)) else (ch b p, S p))
   else (c_a, skip_word b p)) = (code t, (p + length (text t))%nat).
Proof.
  intros Ht Ha E. rewrite (ch_at p _ E). destruct t as [w|c|]; cbn [text code token_ok] in *.
  - destruct Ht as [Hn Hw]. destruct w as [|c w]; [done|]. pose proof Hw as [Hc _]%Forall_cons_1. destruct (wchar_not_sym c Hc) as (N1 & N2 & N3). cbn [app]. rewrite N3, N1, N2.
    unfold skip_word. rewrite (skip_many _ _ p (c :: w) s E); [done| | |done].
    + eapply Forall_impl; [exact Hw|]. by intros x (_ & -> & ->).
    + destruct s as [|x s]; [done|]. cbn in Ha. unfold stops in Ha. by destruct (strchr whitespace x), (strchr symbols x).
  - pose proof (at_next p 1 [c] s E eq_refl) as E1. rewrite Nat.add_1_r in E1. rewrite (ch_at (S p) _ E1).
    replace (p + length [c])%nat with (S p) by (cbn; lia). assert (Hg : c = c_gt -> (match s with [] => 0 | x :: _ => x end =? c_gt) = false).
    { intros Hc. destruct s as [|x s]; [done|]. by apply Z.eqb_neq, Ha. }
    clear E E1 Ha. revert c Ht Hg. apply (one_sym_cases (fun c => (c = c_gt -> _) -> _)); intros Hg; try done. cbn. by rewrite (Hg eq_refl).
  - pose proof (at_next p 1 [c_gt] _ E eq_refl) as E1. rewrite Nat.add_1_r in E1. rewrite (ch_at (S p) _ E1). cbn. f_equal. lia.
Qed.

Lemma gettoken_at p t ts : written (t :: ts) (drop p b) -> exists p', gettoken b p = Ok (code t, p, (p + length (text t))%nat) p' /\
  (p < p')%nat /\ (p < es)%nat /\ written ts (drop p' b) /\ forall w, t = TWord w -> seg b p (p + length (text t)) w.
Proof.
  intros Hw. pose proof (written_starts _ _ Hw) as Hs. pose proof (written_fits _ _ Hw) as Hl. cbn in Hl. inversion Hw as [|t' ws ts' s Ht Hws Ha Hr E1 E2]. subst t' ts'. symmetry in E2.
  pose proof (at_next p _ (text t) (ws ++ s) E2 eq_refl) as E3. pose proof (at_next _ _ ws s E3 eq_refl) as E4.
  exists (p + length (text t) + length ws)%nat.
  assert (1 <= length (text t))%nat by (destruct t as [w| |]; [destruct Ht as [Hn _]; by destruct w; [|cbn; lia]|cbn; lia..]). split_and!.
  - unfold gettoken. cbn zeta. rewrite (skip_ws_none p _ eq_refl Hs). rewrite (token_end p t _ Ht Ha E2). by rewrite (skip_ws_blank _ ws s E3 Hws (written_starts _ _ Hr)).
  - lia.
  - lia.
  - by rewrite E4.
  - intros w ->. split; [done| |done]. exists (ws ++ s). split; [exact E2|]. by destruct (ws ++ s).
Qed.

Lemma gettoken_end p : written [] (drop p b) -> gettoken b p = Ok (0, p, p) p.
Proof.
  intros E%written_nil. unfold gettoken. rewrite (skip_ws_none p [] E) by done. rewrite (ch_at p [] E). cbn. by rewrite (skip_ws_none p [] E).
Qed.

(** What may come after a part of a command. *)
Definition after_exec : list Z := [c_bar; c_rpar; c_amp; c_semi].
Definition after_pipe : list Z := [c_rpar; c_amp; c_semi].
Definition after_line : list Z := [c_rpar].
Definition follow (toks : list Z) (ts : list token) : Prop := ts = [] \/ exists c ts', ts = TSym c :: ts' /\ c ∈ toks.

Lemma follow_mono toks toks' s : follow toks s -> (forall c, c ∈ toks -> c ∈ toks') -> follow toks' s.
Proof. intros [->|(c & s' & -> & Hc)] Hsub; [by left|]. right. eauto. Qed.

Lemma follow_cons c s toks : c ∈ toks -> follow toks (TSym c :: s).
Proof. right. eauto. Qed.

Ltac in_list := rewrite ?elem_of_cons; tauto.
Ltac followed := match goal with H : follow _ ?s |- follow _ ?s => eapply follow_mono; [exact H|]; intros ?; unfold after_exec, after_pipe, after_line; in_list
  | |- follow _ (TSym _ :: _) => apply follow_cons; unfold after_exec, after_pipe, after_line; in_list end.

Lemma follow_exec_hd s : follow after_exec s -> hd_in s [c_lt; c_gt] = false /\ hd_in s [c_lpar] = false /\
  (s <> [] -> hd_in s after_exec = true).
Proof.
  intros [->|(c & s' & -> & Hc)]; [done|]. unfold after_exec in *. rewrite !elem_of_cons in Hc.
  repeat destruct Hc as [->|Hc]; try done. by apply not_elem_of_nil in Hc.
Qed.
Lemma follow_not toks toks' s : follow toks s -> forallb (fun c => negb (strchr toks' c)) toks = true -> hd_in s toks' = false.
Proof.
  intros [->|(c & s' & -> & Hc)] Hn; [done|]. rewrite forallb_forall in Hn. specialize (Hn c (proj1 (list_elem_of_In _ _) Hc)). cbn [hd_in]. by destruct (strchr toks' c).
Qed.

(** A redirection as it is read. *)
Definition rshow (x : redir) (r : rdir) : Prop :=
  seg b (r_file x) (r_efile x) (rword r) /\
  match r with
  | RIn _ => r_mode x = O_RDONLY /\ r_fd x = 0
  | ROut _ => r_mode x = Z.lor (Z.lor O_WRONLY O_CREATE) O_TRUNC /\ r_fd x = 1
  | RApp _ => r_mode x = Z.lor O_WRONLY O_CREATE /\ r_fd x = 1
  end.

(** The operator of a redirection, then its file. *)
Lemma redir_tokens r p ts : written (tk_redir r ++ ts) (drop p b) ->
  exists tok q0 eq0 p1 q eq p2, gettoken b p = Ok (tok, q0, eq0) p1 /\ gettoken b p1 = Ok (c_a, q, eq) p2 /\ (p < p2)%nat /\ written ts (drop p2 b) /\
    exists x, rshow x r /\
      (if tok =? c_lt then [mk_redir q eq O_RDONLY 0]
       else if tok =? c_gt then [mk_redir q eq (Z.lor (Z.lor O_WRONLY O_CREATE) O_TRUNC) 1]
       else if tok =? c_plus then [mk_redir q eq (Z.lor O_WRONLY O_CREATE) 1] else []) = [x].
Proof.
  intros Hw. destruct r as [w|w|w]; cbn [tk_redir app] in Hw; destruct (gettoken_at _ _ _ Hw) as (p1 & T1 & L1 & _ & W1 & _); destruct (gettoken_at _ _ _ W1) as (p2 & T2 & L2 & _ & W2 & Sg);
    (eexists _, _, _, _, _, _, _; split_and!; [exact T1|exact T2|lia|done|]); eexists; (split; [|cbn; reflexivity]); split; auto.
Qed.

Lemma parseredirs_print rs p ts n : written (tk_redirs rs ++ ts) (drop p b) -> hd_in ts [c_lt; c_gt] = false -> (length rs < n)%nat ->
  exists rl p', parseredirs b n p = Ok rl p' /\ (p <= p')%nat /\ written ts (drop p' b) /\ Forall2 rshow rl rs.
Proof.
  revert p n. induction rs as [|r rs IH]; intros p n Hw Hstop Hn; (destruct n as [|n]; [cbn in Hn; lia|]); cbn [parseredirs].
  - exists [], p. step_with (peek_at [c_lt; c_gt] p _ eq_refl Hw). cbn [tk_redirs map concat app]. rewrite Hstop. split_and!; [done|lia|done|constructor].
  - assert (E : tk_redirs (r :: rs) ++ ts = tk_redir r ++ (tk_redirs rs ++ ts)) by (unfold tk_redirs; cbn [map concat]; by rewrite <- app_assoc). rewrite E in Hw.
    destruct (redir_tokens r p _ Hw) as (tok & q0 & eq0 & p1 & q & eq & p2 & T1 & T2 & L2 & W2 & x & Hx & Hif).
    destruct (IH p2 n W2 Hstop ltac:(cbn in Hn; lia)) as (rl & p3 & Hrun & L3 & W3 & Hrl). exists (x :: rl), p3. split_and!; [|lia|done|by constructor].
    step_with (peek_at [c_lt; c_gt] p _ eq_refl Hw). replace (hd_in _ _) with true by (by destruct r). step_with T1. step_with T2. cbn. step_with Hrun. by rewrite Hif.
Qed.

Lemma redirs_len rs : (length rs <= length (tk_redirs rs))%nat.
Proof.
  induction rs as [|r rs IH]; [cbn; lia|]. unfold tk_redirs in *. cbn [map concat length]. rewrite length_app.
  assert (1 <= length (tk_redir r))%nat by (destruct r; cbn; lia). lia.
Qed.
Lemma args_len args : (length args <= length (tk_args args))%nat.
Proof. induction args as [|a args IH]; [cbn; lia|]. unfold tk_args in *. cbn [map concat length app]. rewrite !length_app. lia. Qed.
Lemma redirs_fit rs ts p : written (tk_redirs rs ++ ts) (drop p b) -> (length rs < S es)%nat.
Proof. intros Hw%written_fits. rewrite length_app in Hw. pose proof (redirs_len rs). lia. Qed.

Lemma args_hd args ts : follow after_exec ts -> hd_in (tk_args args ++ ts) [c_lt; c_gt] = false /\ hd_in (tk_args args ++ ts) [c_lpar] = false.
Proof. intros Hf. destruct args as [|[w rs] args]; [|done]. by destruct (follow_exec_hd ts Hf) as (? & ? & _). Qed.

Lemma parseargs_print args p ts n argv0 rs0 : written (tk_args args ++ ts) (drop p b) -> follow after_exec ts ->
  (length argv0 + length args < MAXARGS)%nat -> (length args < n)%nat ->
  exists av rl p', parseargs b n argv0 rs0 p = Ok (argv0 ++ av, rs0 ++ rl) p' /\ (p <= p')%nat /\ written ts (drop p' b) /\
    Forall2 (fun w x => seg b w.1 w.2 x) av (map fst args) /\ Forall2 rshow rl (concat (map snd args)).
Proof.
  revert p n argv0 rs0. induction args as [|[w rs] args IH]; intros p n argv0 rs0 Hw Hf Hmax Hn;
    (destruct n as [|n]; [cbn in Hn; lia|]); cbn [parseargs].
  - exists [], [], p. rewrite !app_nil_r. split_and!; [|lia|done|constructor|constructor]. step_with (peek_at after_exec p _ eq_refl Hw). cbn [tk_args map concat app].
    destruct ts as [|t ts]; [|by rewrite (proj2 (proj2 (follow_exec_hd _ Hf)))]. cbn [hd_in]. by step_with (gettoken_end p Hw).
  - assert (E : tk_args ((w, rs) :: args) ++ ts = TWord w :: tk_redirs rs ++ (tk_args args ++ ts)) by (unfold tk_args; cbn [map concat fst snd app]; by rewrite <- app_assoc). rewrite E in Hw.
    destruct (gettoken_at _ _ _ Hw) as (p1 & T & L1 & _ & W1 & Sg).
    destruct (parseredirs_print rs p1 _ (S es) W1 (proj1 (args_hd args ts Hf)) (redirs_fit _ _ _ W1)) as (rl1 & p2 & R1 & L2 & W2 & F1).
    destruct (IH p2 n (argv0 ++ [(p, (p + length w)%nat)]) (rs0 ++ rl1) W2 Hf) as (av & rl & p3 & R2 & L3 & W3 & F2 & F3).
    { rewrite length_app. cbn in Hmax |- *. lia. } { cbn in Hn. lia. }
    exists ((p, (p + length w)%nat) :: av), (rl1 ++ rl), p3. split_and!; [|lia|done|constructor; [by apply Sg|exact F2]|cbn [map concat snd]; by apply Forall2_app].
    step_with (peek_at after_exec p _ eq_refl Hw). cbn [hd_in]. step_with T. cbn [code text]. change (c_a =? 0) with false. change (negb (c_a =? c_a)) with false. cbn iota.
    destruct (Nat.leb_spec MAXARGS (length (argv0 ++ [(p, (p + length w)%nat)]))) as [Hle|_]; [rewrite length_app in Hle; cbn in Hle, Hmax; lia|].
    step_with R1. rewrite R2. by rewrite <- !app_assoc.
Qed.

Lemma amps_follow n s : follow after_pipe s -> follow after_pipe (replicate n (TSym c_amp) ++ s).
Proof. intros Hf. destruct n; [done|]. cbn [replicate app]. followed. Qed.

Lemma parseback_print k p ts n c a : written (replicate k (TSym c_amp) ++ ts) (drop p b) -> follow [c_rpar; c_semi] ts -> shows b c a -> (k < n)%nat ->
  exists c' p', parseback b n c p = Ok c' p' /\ (p <= p')%nat /\ written ts (drop p' b) /\ shows b c' (den_amps a k).
Proof.
  revert p n c a. induction k as [|k IH]; intros p n c a Hw Hf Hc Hn; (destruct n as [|n]; [lia|]); cbn [parseback].
  - exists c, p. split_and!; [|lia|done|done]. step_with (peek_at [c_amp] p _ eq_refl Hw). cbn [replicate app]. by rewrite (follow_not _ [c_amp] ts Hf).
  - cbn [replicate app] in Hw. destruct (gettoken_at _ _ _ Hw) as (p1 & T & L1 & _ & W1 & _).
    destruct (IH p1 n (BACK c) (ABack a) W1 Hf ltac:(by constructor) ltac:(lia)) as (c' & p2 & R & L2 & W2 & Hs').
    exists c', p2. split_and!; [|lia|done|].
    + step_with (peek_at [c_amp] p _ eq_refl Hw). cbn. by step_with T.
    + unfold den_amps in *. by rewrite Nat.iter_succ_r.
Qed.
Lemma amps_fit k ts p : written (replicate k (TSym c_amp) ++ ts) (drop p b) -> (k < S es)%nat.
Proof. intros Hw%written_fits. rewrite length_app, length_replicate in Hw. lia. Qed.

Lemma wrap_shows rl rs c a : shows b c a -> Forall2 rshow rl rs -> shows b (wrap c rl) (den_redirs a rs).
Proof.
  intros Hc Hf. revert c a Hc. induction Hf as [|x r rl rs [Hs Hm] _ IH]; intros c a Hc; [done|].
  unfold wrap, den_redirs in *. cbn [fold_left]. apply IH. destruct x as [f e m d].
  destruct r; destruct Hm as [E1 E2]; cbn in *; subst; by apply sh_redir with (r := mk_redir f e _ _).
Qed.

Definition parses (m : M nat cmd) (p : nat) (ts : list token) (a : acmd) : Prop :=
  exists c p', m p = Ok c p' /\ (p <= p')%nat /\ written ts (drop p' b) /\ shows b c a.

Lemma parse_simple rs args p ts n : wf_exec (Simple rs args) -> written (tk_exec (Simple rs args) ++ ts) (drop p b) -> follow after_exec ts ->
  (0 < n)%nat -> parses (parseexec b n) p ts (den_exec (Simple rs args)).
Proof.
  intros (Hrs & Hargs & Hmax) Hw Hf Hn. destruct n as [|n]; [lia|]. cbn [tk_exec] in *. rewrite <- app_assoc in Hw. destruct (args_hd args ts Hf) as [Hlt Hlp].
  destruct (parseredirs_print rs p _ (S es) Hw Hlt (redirs_fit _ _ _ Hw)) as (rl & p1 & R1 & L1 & W1 & F1).
  pose proof (written_fits _ _ W1) as Hl. rewrite length_app in Hl. pose proof (args_len args).
  destruct (parseargs_print args p1 ts (S es) [] rl W1 Hf Hmax ltac:(lia)) as (av & rl2 & p2 & R2 & L2 & W2 & F2 & F3).
  exists (wrap (EXEC av) (rl ++ rl2)), p2. split_and!; [|lia|done|].
  - cbn [parseexec]. step_with (peek_at [c_lpar] p _ eq_refl Hw).
    assert (hd_in (tk_redirs rs ++ tk_args args ++ ts) [c_lpar] = false) as -> by (destruct rs as [|r rs]; [done|by destruct r]).
    step_with R1. step_with R2. done.
  - cbn [den_exec]. apply wrap_shows; [by constructor|]. by apply Forall2_app.
Qed.

Lemma parse_block l rs p ts n : (forall p ts n, written (tk_line l ++ ts) (drop p b) -> follow after_line ts -> (4 * (es - p) + 4 <= n)%nat -> parses (parseline b n) p ts (den_line l)) ->
  written (tk_exec (Block l rs) ++ ts) (drop p b) -> follow after_exec ts -> (4 * (es - p) + 2 <= n)%nat -> parses (parseexec b n) p ts (den_exec (Block l rs)).
Proof.
  intros IH Hw Hf Hn. cbn [tk_exec den_exec] in *. cbn [app] in Hw. rewrite <- app_assoc in Hw. cbn [app] in Hw.
  destruct (gettoken_at _ _ _ Hw) as (p1 & T1 & L1 & Hlt & W1 & _). destruct n as [|[|n]]; [lia|lia|].
  destruct (IH p1 _ n W1 ltac:(followed) ltac:(lia)) as (c1 & p2 & R1 & L2 & W2 & S1).
  destruct (gettoken_at _ _ _ W2) as (p3 & T2 & L3 & _ & W3 & _).
  destruct (parseredirs_print rs _ ts (S es) W3 (proj1 (follow_exec_hd ts Hf)) (redirs_fit _ _ _ W3)) as (rl & p4 & R2 & L4 & W4 & F).
  exists (wrap c1 rl), p4. split_and!; [|lia|done|by apply wrap_shows]. cbn [parseexec parseblock]. step_with (peek_at [c_lpar] p _ eq_refl Hw).
  cbn [hd_in]. change (strchr [c_lpar] c_lpar) with true. cbn iota. step_with (peek_at [c_lpar] p _ eq_refl Hw).
  cbn [hd_in]. change (strchr [c_lpar] c_lpar) with true. cbn [negb]. step_with T1. step_with R1. step_with (peek_at [c_rpar] _ _ eq_refl W2).
  cbn. step_with T2. by step_with R2.
Qed.

Lemma parse_written :
  (forall l, wf_line l -> forall p ts n, written (tk_line l ++ ts) (drop p b) -> follow after_line ts -> (4 * (es - p) + 4 <= n)%nat ->
     parses (parseline b n) p ts (den_line l)) /\
  (forall q, wf_pipe q -> forall p ts n, written (tk_pipe q ++ ts) (drop p b) -> follow after_pipe ts -> (4 * (es - p) + 3 <= n)%nat ->
     parses (parsepipe b n) p ts (den_pipe q)) /\
  (forall e, wf_exec e -> forall p ts n, written (tk_exec e ++ ts) (drop p b) -> follow after_exec ts -> (4 * (es - p) + 2 <= n)%nat ->
     parses (parseexec b n) p ts (den_exec e)).
Proof.
  apply syntax_ind; cbn [wf_line wf_pipe].
  - (* Line *) intros q IH k Hq p ts n Hw Hf Hn. destruct n as [|n]; [lia|]. cbn [tk_line den_line] in *. rewrite <- app_assoc in Hw.
    destruct (IH Hq p _ n Hw ltac:(apply amps_follow; followed) ltac:(lia)) as (c1 & p1 & R1 & L1 & W1 & S1).
    destruct (parseback_print k _ ts (S es) c1 _ W1 ltac:(followed) S1 (amps_fit _ _ _ W1)) as (c2 & p2 & R2 & L2 & W2 & S2).
    exists c2, p2. split_and!; [|lia|done|done]. cbn [parseline]. step_with R1. step_with R2. step_with (peek_at [c_semi] _ _ eq_refl W2). by rewrite (follow_not _ [c_semi] ts Hf).
  - (* Seq *) intros q IHq k l IHl [Hq Hl0] p ts n Hw Hf Hn. destruct n as [|n]; [lia|]. cbn [tk_line den_line] in *. rewrite <- !app_assoc in Hw. cbn [app] in Hw.
    destruct (IHq Hq p _ n Hw ltac:(apply amps_follow; followed) ltac:(lia)) as (c1 & p1 & R1 & L1 & W1 & S1).
    destruct (parseback_print k _ _ (S es) c1 _ W1 ltac:(followed) S1 (amps_fit _ _ _ W1)) as (c2 & p2 & R2 & L2 & W2 & S2).
    destruct (gettoken_at _ _ _ W2) as (p3 & T & L3 & Hlt & W3 & _). destruct (IHl Hl0 p3 ts n W3 Hf ltac:(lia)) as (c3 & p4 & R3 & L4 & W4 & S3).
    exists (LIST c2 c3), p4. split_and!; [|lia|done|by constructor]. cbn [parseline]. step_with R1. step_with R2. step_with (peek_at [c_semi] _ _ eq_refl W2).
    cbn. step_with T. by step_with R3.
  - (* Cmd *) intros e IH He p ts n Hw Hf Hn. destruct n as [|n]; [lia|]. cbn [tk_pipe den_pipe] in *.
    destruct (IH He p ts n Hw ltac:(followed) ltac:(lia)) as (c & p1 & R & L1 & W1 & S1). exists c, p1. split_and!; [|lia|done|done].
    cbn [parsepipe]. step_with R. step_with (peek_at [c_bar] _ _ eq_refl W1). by rewrite (follow_not _ [c_bar] ts Hf).
  - (* Bar *) intros e IHe q IHq [He Hq] p ts n Hw Hf Hn. destruct n as [|n]; [lia|]. cbn [tk_pipe den_pipe] in *. rewrite <- !app_assoc in Hw. cbn [app] in Hw.
    destruct (IHe He p _ n Hw ltac:(followed) ltac:(lia)) as (c1 & p1 & R1 & L1 & W1 & S1).
    destruct (gettoken_at _ _ _ W1) as (p2 & T & L2 & Hlt & W2 & _). destruct (IHq Hq p2 ts n W2 Hf ltac:(lia)) as (c2 & p3 & R2 & L3 & W3 & S2).
    exists (PIPE c1 c2), p3. split_and!; [|lia|done|by constructor]. cbn [parsepipe]. step_with R1. step_with (peek_at [c_bar] _ _ eq_refl W1).
    cbn. step_with T. by step_with R2.
  - (* Simple *) intros rs args He p ts n Hw Hf Hn. apply parse_simple; [done|done|done|lia].
  - (* Block *) intros l IH rs [Hl Hrs] p ts n Hw Hf Hn. apply parse_block; [by apply IH|done|done|done].
Qed.

(** Space before the first token is skipped by the first [peek]. *)
Lemma skip_ws_first p p' : skip_ws b p = p' -> skip_ws b p' = p' -> forall n, parseline b n p = parseline b n p'.
Proof.
  intros E1 E2. assert (Hb : forall {A B} (m : M nat A) (k : A -> M nat B), m p = m p' -> bind m k p = bind m k p') by (intros A B m k Hm; unfold bind; by rewrite Hm).
  assert (Hp : forall toks, peek b toks p = peek b toks p') by (intros toks; unfold peek; by rewrite E1, E2).
  intros [|[|[|n]]]; [done|done|done|]. cbn [parseline parsepipe parseexec]. by do 3 apply Hb.
Qed.
End tokens.

(** See [parsecmd_reads_back]. *)
Lemma parsecmd_written l b : wf_line l -> writes l b -> exists c b' p, parsecmd b = Ok (c, b') p /\ view b' c = den_line l.
Proof.
  intros Hl (ws & s & Hws & Eb & Hw). assert (Es : drop (length ws) b = s) by (by rewrite Eb, drop_app_length).
  assert (Hw0 : written (tk_line l ++ []) (drop (length ws) b)) by (by rewrite app_nil_r, Es).
  destruct (proj1 (parse_written b) l Hl (length ws) [] (4 * length b + 8)%nat Hw0 ltac:(by left) ltac:(unfold es; lia)) as (c & p & R & L & W & Sh).
  pose proof (written_nil _ W) as E. exists c, (nulterminate b c), p. split; [|by apply nulterminate_view].
  rewrite <- (skip_ws_first b 0%nat (length ws)) in R; [|by apply (skip_ws_blank b 0 ws s); [|done|eapply written_starts]|apply (skip_ws_none b _ s Es); by eapply written_starts].
  unfold parsecmd. step_with R. step_with (peek_at b [] p [] eq_refl W). unfold bind, get. cbn [hd_in].
  pose proof (proj1 (fine_parsers b (4 * length b + 8)) 0%nat ltac:(lia) ltac:(unfold es; lia)) as Hp. unfold fine in Hp. rewrite R in Hp.
  apply (f_equal length) in E. rewrite length_drop in E. replace (p =? es b)%nat with true; [done|]. symmetry. apply Nat.eqb_eq. unfold es in *. cbn in E. lia.
Qed.

(** C15. The shell reads back what a user writes: a command line built from
    words, redirections, pipes, lists, background jobs and parentheses, each
    command of fewer than 10 words (MAXARGS), is parsed into the tree of that
    command, in which every word and file name is the NUL-terminated string that
    was written. Any spaces, tabs and newlines may come before, between and after
    the parts, and none where a symbol separates them. *)
Theorem parsecmd_reads_back l b : wf_line l -> writes l b ->
  exists c b' p, parsecmd b = Ok (c, b') p /\ view b' c = den_line l.
Proof. apply parsecmd_written. Qed.

(** The line [ls|wc <i >o& ; (a)>>z], a tab after the pipe and a newline at the
    end. *)
Definition demo_line : line :=
  Seq (Bar (Simple [] [([108; 115], [])]) (Cmd (Simple [] [([119; 99], [RIn [105]; ROut [111]])]))) 1
      (Line (Cmd (Block (Line (Cmd (Simple [] [([97], [])])) 0) [RApp [122]])) 0).
Definition demo_text : list Z := [32; 108; 115; 124; 9; 119; 99; 32; 60; 105; 32; 62; 111; 38; 32; 59; 32; 40; 97; 41; 62; 62; 122; 10].
(** A token, then the given space. *)
Ltac wtoken ws := match goal with |- written (?t :: ?ts) ?s =>
  let s' := eval vm_compute in (drop (length (text t) + length ws) s) in change (written (t :: ts) (text t ++ ws ++ s'));
  apply wr_token; [first [by split; [|repeat constructor]|by apply (bool_decide_unpack _)|done]|by repeat constructor|done|] end.
Lemma demo_written : writes demo_line demo_text.
Proof.
  exists [32], (tail demo_text). split_and!; [by repeat constructor|reflexivity|]. cbn.
  wtoken (@nil Z). wtoken [9]. wtoken [32]. wtoken (@nil Z). wtoken [32]. wtoken (@nil Z). wtoken (@nil Z). wtoken [32]. wtoken [32]. wtoken (@nil Z). wtoken (@nil Z). wtoken (@nil Z). wtoken (@nil Z). wtoken [10]. apply wr_nil.
Qed.
Lemma demo_line_wf : wf_line demo_line.
Proof. cbn. unfold wf_redirs, MAXARGS. repeat first [split|apply Forall_cons_2|apply Forall_nil_2|done|lia]; done. Qed.

Lemma parsecmd_reads_back_witness : exists c b' p, parsecmd demo_text = Ok (c, b') p /\ view b' c = den_line demo_line.
Proof. apply parsecmd_reads_back; [exact demo_line_wf|exact demo_written]. Defined.
