(* ===== verification/Usys.v ===== *)
(** * User programs and their system calls

    A user program is an interaction tree: it computes, and each system call is
    an event to which the kernel answers.  The calls are those of user/user.h
    (stubs generated by user/usys.pl); the answer of a call is what the C
    function returns, together with what the kernel stores through the pointers
    it was given.  Programs that loop forever are [ITree.iter].

    What a program does is stated by its traces, for all answers of the kernel
    ([trace]); [fork] answers twice, so that the branch of the child is one of
    the traces.  This file also holds the routines of user/ulib.c and
    user/printf.c that make system calls. *)

From stdpp Require Import base list numbers strings.
From Stdlib Require Import ZArith Lia.
From ITree Require Import Core.ITreeDefinition Indexed.Sum.
From S2P Require Import Prelude Printf.
Open Scope Z_scope.

Declare Scope prog_scope.
Delimit Scope prog_scope with prog.
Notation "x <- c1 ;; c2" := (ITree.bind c1 (fun x => c2))
  (at level 100, c1 at next level, c2 at level 200, right associativity) : prog_scope.
Notation "c1 ;;; c2" := (ITree.bind c1 (fun _ => c2))
  (at level 100, c2 at level 200, right associativity) : prog_scope.
Open Scope prog_scope.

(** ** The calls *)

(** struct stat *)
Record ustat := mk_ustat { st_dev : Z; st_ino : Z; st_type : Z; st_nlink : Z; st_size : Z }.

(** A read that succeeds answers with the bytes it stored, whose number it
    returns; [None] is -1.  [pipe] answers with the two descriptors, [wait]
    with the pid and the status of the child.  [exec] answers only when it
    fails, [exit] never. *)
Inductive sysE : Type -> Type :=
  | Fork : sysE Z
  | Exit (status : Z) : sysE Empty_set
  | Wait : sysE (Z * Z)
  | Pipe : sysE (option (Z * Z))
  | Write (fd : Z) (bytes : list Z) : sysE Z
  | Read (fd n : Z) : sysE (option (list Z))
  | Close (fd : Z) : sysE Z
  | Kill (pid : Z) : sysE Z
  | Exec (path : list Z) (argv : list (list Z)) : sysE Z
  | Open (path : list Z) (mode : Z) : sysE Z
  | Mknod (path : list Z) (major minor : Z) : sysE Z
  | Unlink (path : list Z) : sysE Z
  | Fstat (fd : Z) : sysE (option ustat)
  | Link (old new : list Z) : sysE Z
  | Mkdir (path : list Z) : sysE Z
  | Chdir (path : list Z) : sysE Z
  | Dup (fd : Z) : sysE Z
  | Getpid : sysE Z
  | Sbrk (n how : Z) : sysE Z
  | Pause (n : Z) : sysE Z
  | Uptime : sysE Z.

Definition prog : Type -> Type := itree sysE.

Definition fork : prog Z := ITree.trigger Fork.
Definition exit {A} (status : Z) : prog A := Vis (Exit status) (fun x : Empty_set => match x with end).
Definition wait : prog (Z * Z) := ITree.trigger Wait.
Definition pipe : prog (option (Z * Z)) := ITree.trigger Pipe.
Definition write (fd : Z) (bytes : list Z) : prog Z := ITree.trigger (Write fd bytes).
Definition read (fd n : Z) : prog (option (list Z)) := ITree.trigger (Read fd n).
Definition close (fd : Z) : prog Z := ITree.trigger (Close fd).
Definition kill (pid : Z) : prog Z := ITree.trigger (Kill pid).
Definition exec (path : list Z) (argv : list (list Z)) : prog Z := ITree.trigger (Exec path argv).
Definition open (path : list Z) (mode : Z) : prog Z := ITree.trigger (Open path mode).
Definition mknod (path : list Z) (major minor : Z) : prog Z := ITree.trigger (Mknod path major minor).
Definition unlink (path : list Z) : prog Z := ITree.trigger (Unlink path).
Definition fstat (fd : Z) : prog (option ustat) := ITree.trigger (Fstat fd).
Definition link (old new : list Z) : prog Z := ITree.trigger (Link old new).
Definition mkdir (path : list Z) : prog Z := ITree.trigger (Mkdir path).
Definition chdir (path : list Z) : prog Z := ITree.trigger (Chdir path).
Definition dup (fd : Z) : prog Z := ITree.trigger (Dup fd).
Definition getpid : prog Z := ITree.trigger Getpid.
Definition sys_sbrk (n how : Z) : prog Z := ITree.trigger (Sbrk n how).
Definition pause (n : Z) : prog Z := ITree.trigger (Pause n).

(** ** Loops *)

Fixpoint each {A} (l : list A) (f : A -> prog unit) : prog unit :=
  match l with
  | [] => Ret tt
  | x :: l => f x ;;; each l f
  end.
(** [if(c) p;] *)
Definition pwhen (c : bool) (p : prog unit) : prog unit := if c then p else Ret tt.
(** [for(;;)]; the body answers whether to go on. *)
Definition round {A} (body : prog (option A)) (_ : unit) : prog (unit + A) :=
  r <- body ;; Ret (match r with Some a => inr a | None => inl tt end).
Definition forever {A} (body : prog (option A)) : prog A := ITree.iter (round body) tt.

(** ** user/printf.c *)

Definition putc (fd c : Z) : prog unit := write fd [u8 c] ;;; Ret tt.
Definition fprintf (fd : Z) (fmt : list Z) (args : list arg) : prog unit := each (vprintf fmt args) (putc fd).
Definition printf : list Z -> list arg -> prog unit := fprintf 1.

(** ** user/ulib.c *)

Definition ustart (main : list (list Z) -> prog Z) (argv : list (list Z)) : prog unit :=
  r <- main argv ;; exit r.

Definition ustat_of (n : list Z) : prog (option ustat) :=
  fd <- open n O_RDONLY ;;
  if fd <? 0 then Ret None
  else
    r <- fstat fd ;;
    close fd ;;;
    Ret r.

(** The loop of [gets]: [i] bytes of [buf] are filled. *)
Fixpoint ugets_loop (k : nat) (buf : list Z) : prog (list Z) :=
  match k with
  | O => Ret buf
  | S k =>
      cc <- read 0 1 ;;
      match cc with
      | Some (c :: _) =>
          let buf := buf ++ [c] in
          if (c =? 10) || (c =? 13) then Ret buf else ugets_loop k buf
      | _ => Ret buf
      end
  end.
Definition ugets (max : nat) : prog (list Z) := ugets_loop (max - 1) [].

Definition sbrk (n : Z) : prog Z := sys_sbrk (i32 n) SBRK_EAGER.
Definition sbrklazy (n : Z) : prog Z := sys_sbrk (i32 n) SBRK_LAZY.
