(* ===== verification/Utrace.v ===== *)
(** * What a program does: traces of its system calls

    A trace of a program is the list of its calls with the kernel's answers,
    and its result when it has returned.  Every prefix of a run is a trace, and
    the kernel may answer anything: theorems about programs say which answers
    they rely on. *)

From stdpp Require Import base list numbers strings.
From Stdlib Require Import ZArith Lia.
From ITree Require Import Core.ITreeDefinition Indexed.Sum.
From S2P Require Import Prelude Printf Usys.
Open Scope Z_scope.
Open Scope prog_scope.

Inductive ev := Ev : forall {A}, sysE A -> A -> ev.

(** How far the program has come. *)
Inductive status (A : Type) := Running | Exited (st : Z) | Returned (a : A).
Arguments Running {A}.
Arguments Exited {A} st.
Arguments Returned {A} a.

Inductive trace {A} : nat -> prog A -> list ev -> status A -> Prop :=
  | tr_stop n t : trace n t [] Running
  | tr_ret n t a : observe t = RetF a -> trace n t [] (Returned a)
  | tr_exit n t st k : observe t = VisF (Exit st) k -> trace n t [] (Exited st)
  | tr_tau n t t' l r : observe t = TauF t' -> trace n t' l r -> trace (S n) t l r
  | tr_vis n t X (e : sysE X) k a l r : observe t = VisF e k -> trace n (k a) l r -> trace (S n) t (Ev e a :: l) r.

(** The traces of a program; the number bounds the steps of a derivation. *)
Definition traces {A} (t : prog A) (l : list ev) (r : status A) : Prop := exists n, trace n t l r.

Definition exits {X A} (e : sysE X) (r : status A) : Prop := match e with Exit st => r = Exited st | _ => False end.

(** A derivation follows the root of the tree. *)
Lemma trace_inv {A} n (t : prog A) l r : trace n t l r ->
  (l = [] /\ r = Running) \/
  match observe t with
  | RetF a => l = [] /\ r = Returned a
  | TauF t' => exists m, n = S m /\ trace m t' l r
  | VisF e k => (l = [] /\ exits e r) \/ exists m a l', n = S m /\ l = Ev e a :: l' /\ trace m (k a) l' r
  end.
Proof.
  intros []; [by left| | | |]; right.
  all: match goal with E : observe _ = _ |- _ => rewrite E end; eauto 10. by left.
Qed.

Lemma trace_mono {A} n m (t : prog A) l r : trace n t l r -> (n <= m)%nat -> trace m t l r.
Proof.
  intros H. revert m. induction H; intros m Hm; [by constructor|by constructor|by econstructor| |].
  - destruct m; [lia|]. eapply tr_tau; [done|]. apply IHtrace. lia.
  - destruct m; [lia|]. eapply tr_vis; [done|]. apply IHtrace. lia.
Qed.

Lemma trace_running {A} n (t : prog A) l r : trace n t l r -> trace n t l Running.
Proof. induction 1; [constructor..|by eapply tr_tau|by eapply tr_vis]. Qed.

(** A trace depends on the root of the tree only. *)
Lemma trace_observe {A} n (t u : prog A) l r : observe t = observe u -> trace n t l r -> trace n u l r.
Proof. intros E H. revert E. destruct H; intros E; [constructor|eapply tr_ret|eapply tr_exit|eapply tr_tau|eapply tr_vis]; try done; etransitivity; [symmetry; exact E|done..]. Qed.

Lemma trace_ret {A} n (a : A) l r : trace n (Ret a) l r -> l = [] /\ (r = Running \/ r = Returned a).
Proof. intros [[-> ->]|[-> ->]]%trace_inv; auto. Qed.

Lemma trace_exit {A} n st l (r : status A) : trace n (exit st) l r -> l = [] /\ (r = Running \/ r = Exited st).
Proof. intros [[-> ->]|[[-> Hr]|(m & [] & ?)]]%trace_inv; auto. Qed.

Lemma observe_bind {A B} (t : prog A) (k : A -> prog B) : observe (ITree.bind t k) =
  match observe t with RetF a => observe (k a) | TauF t' => TauF (ITree.bind t' k) | VisF e ke => VisF e (fun x => ITree.bind (ke x) k) end.
Proof. unfold ITree.bind, observe. cbn. unfold observe. by destruct (_observe t). Qed.

(** A trace of [t] followed by [k] is inside [t], or goes on in [k]. *)
Lemma trace_bind {A B} n (t : prog A) (k : A -> prog B) l r : trace n (ITree.bind t k) l r ->
  (r = Running /\ trace n t l Running) \/ (exists st, r = Exited st /\ trace n t l (Exited st)) \/
  exists l1 l2 a, l = l1 ++ l2 /\ trace n t l1 (Returned a) /\ trace n (k a) l2 r.
Proof.
  revert t l. induction n as [n IH] using lt_wf_ind. intros t l H. destruct (observe t) as [a|t'|X e ke] eqn:E.
  - right. right. exists [], l, a. split; [done|]. split; [by constructor|]. apply (trace_observe _ (ITree.bind t k)); [|done]. by rewrite observe_bind, E.
  - assert (Ho : observe (ITree.bind t k) = TauF (ITree.bind t' k)) by (by rewrite observe_bind, E).
    apply trace_inv in H as [[-> ->]|H]; [left; split; [done|constructor]|]. rewrite Ho in H. destruct H as (m & -> & H).
    apply IH in H as [[-> H]|[(st & -> & H)|(l1 & l2 & a & -> & H1 & H2)]]; [| | |lia]; [left|right; left|right; right].
    + split; [done|]. by eapply tr_tau.
    + exists st. split; [done|]. by eapply tr_tau.
    + exists l1, l2, a. split; [done|]. split; [by eapply tr_tau|]. eapply trace_mono; [done|lia].
  - assert (Ho : observe (ITree.bind t k) = VisF e (fun x => ITree.bind (ke x) k)) by (by rewrite observe_bind, E).
    apply trace_inv in H as [[-> ->]|H]; [left; split; [done|constructor]|]. rewrite Ho in H.
    destruct H as [[-> Hx]|(m & a & l' & -> & -> & H)].
    { right. left. destruct e; try done. exists status0. split; [done|]. by eapply tr_exit. }
    apply IH in H as [[-> H]|[(st & -> & H)|(l1 & l2 & b & -> & H1 & H2)]]; [| | |lia]; [left|right; left|right; right].
    + split; [done|]. by eapply tr_vis.
    + exists st. split; [done|]. by eapply tr_vis.
    + exists (Ev e a :: l1), l2, b. split; [done|]. split; [by eapply tr_vis|]. eapply trace_mono; [done|lia].
Qed.

Lemma trace_call {X B} n (e : sysE X) (k : X -> prog B) l r : trace n (x <- ITree.trigger e ;; k x) l r ->
  (l = [] /\ (r = Running \/ exits e r)) \/ exists a l', l = Ev e a :: l' /\ trace n (k a) l' r.
Proof.
  intros H. apply trace_bind in H as [[-> H]|[(st & -> & H)|(l1 & l2 & a & -> & H1 & H2)]].
  - apply trace_inv in H as [[-> _]|[[-> Hx]|(m & a & l' & -> & -> & H)]]; [by left; auto|destruct e; done|].
    right. exists a, l'. split; [done|]. apply trace_ret in H as [-> _]. constructor.
  - apply trace_inv in H as [[-> [=]]|[[-> Hx]|(m & a & l' & -> & -> & H)]]; [left; split; [done|]; right; destruct e; cbn in *; congruence|].
    apply trace_ret in H as [-> [[=]|[=]]].
  - apply trace_inv in H1 as [[-> [=]]|[[-> Hx]|(m & b & l' & -> & -> & H)]]; [by destruct e|].
    apply trace_ret in H as [-> [[=]|[= ->]]]. right. eauto.
Qed.

(** ** Loops *)

(** The rounds of a loop: each round but the last answers where the next one
    starts. *)
Inductive rounds {I A} (f : I -> prog (I + A)) : I -> list ev -> status A -> Prop :=
  | rd_stop i : rounds f i [] Running
  | rd_in i l : traces (f i) l Running -> rounds f i l Running
  | rd_exit i l st : traces (f i) l (Exited st) -> rounds f i l (Exited st)
  | rd_more i j l l' r : traces (f i) l (Returned (inl j)) -> rounds f j l' r -> rounds f i (l ++ l') r
  | rd_done i l a : traces (f i) l (Returned (inr a)) -> rounds f i l (Returned a).

Lemma observe_iter {I A} (f : I -> prog (I + A)) i :
  observe (ITree.iter f i) = observe (ITree.bind (f i) (fun x => match x with inl j => Tau (ITree.iter f j) | inr a => Ret a end)).
Proof. done. Qed.

Lemma trace_iter {I A} (f : I -> prog (I + A)) n i l r : trace n (ITree.iter f i) l r -> rounds f i l r.
Proof.
  revert i l. induction n as [n IH] using lt_wf_ind. intros i l H. apply (trace_observe _ _ _ _ _ (observe_iter f i)) in H.
  apply trace_bind in H as [[-> H]|[(st & -> & H)|(l1 & l2 & [j|a] & -> & H1 & H2)]].
  - apply rd_in. by exists n.
  - apply rd_exit. by exists n.
  - apply trace_inv in H2 as [[-> ->]|(m & -> & H2)]; (apply rd_more with j; [by eexists|]); [apply rd_stop|]. apply (IH m); [lia|done].
  - apply trace_ret in H2 as [-> [->| ->]]; rewrite app_nil_r; [apply rd_in; exists n; by eapply trace_running|apply rd_done; by exists n].
Qed.

(** ** Complete traces *)

Definition final {A} (r : status A) : Prop := r <> Running.

Lemma traces_observe {A} (t u : prog A) l r : observe t = observe u -> traces t l r -> traces u l r.
Proof. intros E [n H]. exists n. by apply (trace_observe n t u). Qed.

Lemma traces_ret_iff {A} (a : A) l r : final r -> traces (Ret a) l r <-> l = [] /\ r = Returned a.
Proof.
  intros Hf. split.
  - intros [n H]. apply trace_ret in H as [-> [-> | ->]]; [by destruct Hf|done].
  - intros [-> ->]. exists 0%nat. by constructor.
Qed.

Lemma traces_exit_iff {A} st l (r : status A) : final r -> traces (exit st) l r <-> l = [] /\ r = Exited st.
Proof.
  intros Hf. split.
  - intros [n H]. apply trace_exit in H as [-> [-> | ->]]; [by destruct Hf|done].
  - intros [-> ->]. exists 0%nat. by eapply tr_exit.
Qed.

Lemma trace_bind_exit {A B} n (t : prog A) (k : A -> prog B) l st : trace n t l (Exited st) -> trace n (ITree.bind t k) l (Exited st).
Proof.
  revert t l. induction n as [|n IH]; intros t l H; inversion H as [| |? ? ? ke E|? ? t' ? ? E H'|? ? X e ke a l' ? E H']; subst.
  1, 2: eapply tr_exit; by rewrite observe_bind, E.
  - eapply tr_tau; [by rewrite observe_bind, E|]. by apply IH.
  - eapply tr_vis with (k := fun x => ITree.bind (ke x) k); [by rewrite observe_bind, E|]. by apply IH.
Qed.

Lemma trace_bind_ret {A B} n m (t : prog A) (k : A -> prog B) l1 l2 a r :
  trace n t l1 (Returned a) -> trace m (k a) l2 r -> trace (n + m) (ITree.bind t k) (l1 ++ l2) r.
Proof.
  intros H Hk. revert t l1 H. induction n as [|n IH]; intros t l1 H; inversion H as [|? ? ? E| |? ? t' ? ? E H'|? ? X e ke x l' ? E H']; subst.
  1, 2: eapply trace_observe; [|eapply trace_mono; [exact Hk|lia]]; by rewrite observe_bind, E.
  - cbn. eapply tr_tau; [by rewrite observe_bind, E|]. by apply IH.
  - cbn. eapply tr_vis with (k := fun x => ITree.bind (ke x) k); [by rewrite observe_bind, E|]. by apply IH.
Qed.

Lemma traces_bind_iff {A B} (t : prog A) (k : A -> prog B) l r : final r -> traces (ITree.bind t k) l r <->
  (exists st, r = Exited st /\ traces t l (Exited st)) \/ exists l1 l2 a, l = l1 ++ l2 /\ traces t l1 (Returned a) /\ traces (k a) l2 r.
Proof.
  intros Hf. split.
  - intros [n H]. apply trace_bind in H as [[-> H]|[(st & -> & H)|(l1 & l2 & a & -> & H1 & H2)]]; [by destruct Hf|left|right]; unfold traces; eauto 10.
  - intros [(st & -> & n & H)|(l1 & l2 & a & -> & [n H1] & [m H2])]; [exists n; by apply trace_bind_exit|]. exists (n + m)%nat. by eapply trace_bind_ret.
Qed.

Lemma traces_sys_iff {X B} (e : sysE X) (k : X -> prog B) l r : (forall st, ~ exits e (Exited (A := B) st)) -> final r ->
  traces (x <- ITree.trigger e ;; k x) l r <-> exists a l', l = Ev e a :: l' /\ traces (k a) l' r.
Proof.
  intros He Hf. split.
  - intros [n H]. apply trace_call in H as [[-> [->|H]]|(a & l' & -> & H)]; [by destruct Hf| |unfold traces; eauto].
    destruct e; try done. cbn in H. subst r. by destruct (He status0).
  - intros (a & l' & -> & n & H). exists (S n). apply (tr_vis _ _ _ e (fun x => ITree.bind (Ret x) k)); [by rewrite observe_bind|]. eapply trace_observe; [|exact H]. by rewrite observe_bind.
Qed.

Lemma traces_iter_iff {I A} (f : I -> prog (I + A)) i l r : final r -> traces (ITree.iter f i) l r <-> rounds f i l r.
Proof.
  intros Hf. split; [intros [n H]; by eapply trace_iter|]. intros H. induction H as [i|i l H|i l st [n H]|i j l l' r [n H] _ IH|i l a [n H]]; try by destruct Hf.
  - eapply traces_observe; [symmetry; apply observe_iter|]. exists n. by apply trace_bind_exit.
  - destruct (IH Hf) as [m Hm]. eapply traces_observe; [symmetry; apply observe_iter|]. exists (n + S m)%nat. eapply trace_bind_ret; [done|]. by eapply tr_tau.
  - eapply traces_observe; [symmetry; apply observe_iter|]. exists (n + 0)%nat. rewrite <- (app_nil_r l). eapply trace_bind_ret; [done|]. by constructor.
Qed.

(** The rounds of [forever]. *)
Inductive loops {A} (body : prog (option A)) : list ev -> status A -> Prop :=
  | lp_exit l st : traces body l (Exited st) -> loops body l (Exited st)
  | lp_again l l' r : traces body l (Returned None) -> loops body l' r -> loops body (l ++ l') r
  | lp_done l a : traces body l (Returned (Some a)) -> loops body l (Returned a).

Section forever.
Context {A : Type} (body : prog (option A)).

Lemma round_ret l x : traces (round body tt) l (Returned x) <-> exists o, traces body l (Returned o) /\ x = match o with Some a => inr a | None => inl tt end.
Proof using.
  unfold round. rewrite traces_bind_iff by done. split.
  - intros [(st & [=] & _)|(l1 & l2 & o & -> & H1 & H2)]. apply traces_ret_iff in H2 as [-> [= ->]]; [|done]. exists o. by rewrite app_nil_r.
  - intros (o & H & ->). right. exists l, [], o. rewrite app_nil_r. split_and!; [done|done|]. by apply traces_ret_iff.
Qed.
Lemma round_exit l st : traces (round body tt) l (Exited st) <-> traces body l (Exited st).
Proof using.
  unfold round. rewrite traces_bind_iff by done. split.
  - intros [(st' & [= ->] & H)|(l1 & l2 & o & -> & H1 & H2)]; [done|]. by apply traces_ret_iff in H2 as [_ [=]].
  - intros H. left. by exists st.
Qed.

Lemma traces_forever_iff l r : final r -> traces (forever body) l r <-> loops body l r.
Proof using.
  intros Hf. unfold forever. rewrite traces_iter_iff by done. split.
  - intros H. induction H as [[]|[] l H|[] l st H|[] [] l l' r H _ IH|[] l a H]; try by destruct Hf.
    + apply lp_exit. by apply round_exit.
    + apply round_ret in H as ([a|] & H & E); [done|]. eapply lp_again; [done|]. by apply IH.
    + apply round_ret in H as ([a'|] & H & E); [|done]. injection E as ->. by apply lp_done.
  - induction 1 as [l st H|l l' r H _ IH|l a H].
    + apply rd_exit. by apply round_exit.
    + eapply rd_more; [apply round_ret; by exists None|by apply IH].
    + apply rd_done. apply round_ret. by exists (Some a).
Qed.
End forever.

(** ** Running a program *)

(** Answers without the type of their call. *)
Inductive reply := RInt (z : Z) | RBytes (b : option (list Z)) | RTwo (x y : Z) | RNone | RStat (s : ustat).
Definition decode_reply {X} (e : sysE X) (x : reply) : option X :=
  match e in sysE X return option X with
  | Exit _ => None
  | Wait => match x with RTwo a b => Some (a, b) | _ => None end
  | Pipe => match x with RTwo a b => Some (Some (a, b)) | RNone => Some None | _ => None end
  | Read _ _ => match x with RBytes b => Some b | _ => None end
  | Fstat _ => match x with RStat s => Some (Some s) | RNone => Some None | _ => None end
  | Fork | Write _ _ | Close _ | Kill _ | Exec _ _ | Open _ _ | Mknod _ _ _ | Unlink _ | Link _ _ | Mkdir _ | Chdir _ | Dup _ | Getpid | Sbrk _ _
  | Pause _ | Uptime => match x with RInt z => Some z | _ => None end
  end.
Definition exit_status {X} (e : sysE X) : option Z := match e with Exit st => Some st | _ => None end.

Fixpoint play {A} (n : nat) (t : prog A) (rs : list reply) : option (list ev * status A) :=
  match n with
  | O => None
  | S n =>
      match observe t with
      | RetF a => Some ([], Returned a)
      | TauF t => play n t rs
      | VisF e k =>
          match exit_status e with
          | Some st => Some ([], Exited st)
          | None =>
              match rs with
              | [] => Some ([], Running)
              | x :: rs =>
                  match decode_reply e x with
                  | Some a => match play n (k a) rs with Some (l, r) => Some (Ev e a :: l, r) | None => None end
                  | None => None
                  end
              end
          end
      end
  end.

Lemma play_trace {A} n (t : prog A) rs l r : play n t rs = Some (l, r) -> traces t l r.
Proof.
  intros H. exists n. revert t rs l H. induction n as [|n IH]; intros t rs l H; cbn [play] in H; [done|]. destruct (observe t) as [a|t'|X e k] eqn:E.
  - injection H as <- <-. by constructor.
  - eapply tr_tau; [done|]. by eapply IH.
  - destruct (exit_status e) as [st|] eqn:Ee.
    { injection H as <- <-. destruct e; try done. injection Ee as ->. by eapply tr_exit. }
    destruct rs as [|x rs]; [injection H as <- <-; constructor|]. destruct (decode_reply e x) as [a|]; [|done].
    destruct (play n (k a) rs) as [[l' r']|] eqn:Ep; [|done]. injection H as <- ->. eapply tr_vis; [done|]. by eapply IH.
Qed.
