(* ===== verification/Uprog.v ===== *)
(** * The small programs of user/

    cat.c, wc.c, echo.c, ls.c, kill.c, ln.c, mkdir.c, rm.c, zombie.c, init.c and
    the main routine of grep.c, with the system calls they make ([Usys]).  The
    arguments of a program are the list [argv], whose length is [argc]. *)

From stdpp Require Import base list numbers strings.
From Stdlib Require Import ZArith Lia.
From ITree Require Import Core.ITreeDefinition Indexed.Sum.
From S2P Require Import Prelude Bytes Fs Printf Ulib Grep Sh Usys.
Open Scope Z_scope.
Open Scope prog_scope.

Definition argc (argv : list (list Z)) : Z := Z.of_nat (length argv).
Definition arg_at (argv : list (list Z)) (i : nat) : list Z := nth i argv [].
Definition text_arg (s : list Z) : arg := Str (Some s).

(** ** cat.c *)

(** One round of the loop: [Some n] when read returned [n <= 0]. *)
Definition cat_step (fd : Z) : prog (option (option (list Z))) :=
  n <- read fd 512 ;;
  match n with
  | Some ((_ :: _) as buf) =>
      w <- write 1 buf ;;
      if negb (w =? Z.of_nat (length buf)) then fprintf 2 (line "cat: write error") [] ;;; exit 1
      else Ret None
  | _ => Ret (Some n)
  end.
Definition cat (fd : Z) : prog unit :=
  n <- forever (cat_step fd) ;;
  match n with
  | None => fprintf 2 (line "cat: read error") [] ;;; exit 1
  | Some _ => Ret tt
  end.

Definition cat_file (name : list Z) : prog unit :=
  fd <- open name O_RDONLY ;;
  if fd <? 0 then fprintf 2 (line "cat: cannot open %s") [text_arg name] ;;; exit 1
  else cat fd ;;; close fd ;;; Ret tt.

Definition cat_main (argv : list (list Z)) : prog Z :=
  if argc argv <=? 1 then cat 0 ;;; exit 0
  else each (drop 1 argv) cat_file ;;; exit 0.

(** ** wc.c *)

(** The local variables l, w, c and inword. *)
Record counts := mk_counts { n_lines : Z; n_words : Z; n_chars : Z; inword : bool }.
Definition count_byte (k : counts) (b : Z) : counts :=
  let c := i32 (n_chars k + 1) in
  let l := if b =? 10 then i32 (n_lines k + 1) else n_lines k in
  if strchr [32; 13; 9; 10; 11] b then mk_counts l (n_words k) c false
  else if negb (inword k) then mk_counts l (i32 (n_words k + 1)) c true
  else mk_counts l (n_words k) c (inword k).

Definition wc_step (fd : Z) (k : counts) : prog (counts + option (list Z) * counts) :=
  n <- read fd 512 ;;
  match n with
  | Some ((_ :: _) as buf) => Ret (inl (foldl count_byte k buf))
  | _ => Ret (inr (n, k))
  end.
Definition wc (fd : Z) (name : list Z) : prog unit :=
  r <- ITree.iter (wc_step fd) (mk_counts 0 0 0 false) ;;
  let '(n, k) := r in
  match n with
  | None => printf (line "wc: read error") [] ;;; exit 1
  | Some _ => printf (line "%d %d %d %s") [Word (n_lines k); Word (n_words k); Word (n_chars k); text_arg name]
  end.

Definition wc_file (name : list Z) : prog unit :=
  fd <- open name O_RDONLY ;;
  if fd <? 0 then printf (line "wc: cannot open %s") [text_arg name] ;;; exit 1
  else wc fd name ;;; close fd ;;; Ret tt.

Definition wc_main (argv : list (list Z)) : prog Z :=
  if argc argv <=? 1 then wc 0 [] ;;; exit 0
  else each (drop 1 argv) wc_file ;;; exit 0.

(** ** echo.c *)

Fixpoint echo_words (words : list (list Z)) : prog unit :=
  match words with
  | [] => Ret tt
  | w :: rest =>
      write 1 w ;;;
      match rest with
      | [] => write 1 [10]
      | _ => write 1 [32]
      end ;;;
      echo_words rest
  end.
Definition echo_main (argv : list (list Z)) : prog Z := echo_words (drop 1 argv) ;;; exit 0.

(** ** kill.c, ln.c, mkdir.c, rm.c, zombie.c *)

Definition kill_main (argv : list (list Z)) : prog Z :=
  if argc argv <? 2 then fprintf 2 (line "usage: kill pid...") [] ;;; exit 1
  else each (drop 1 argv) (fun a => kill (atoi a) ;;; Ret tt) ;;; exit 0.

Definition ln_main (argv : list (list Z)) : prog Z :=
  if negb (argc argv =? 3) then fprintf 2 (line "Usage: ln old new") [] ;;; exit 1
  else
    r <- link (arg_at argv 1) (arg_at argv 2) ;;
    pwhen (r <? 0) (fprintf 2 (line "link %s %s: failed") [text_arg (arg_at argv 1); text_arg (arg_at argv 2)]) ;;;
    exit 0.

(** The loops of mkdir.c and rm.c stop at the first failure. *)
Fixpoint each_until (l : list (list Z)) (op : list Z -> prog Z) (msg : list Z) : prog unit :=
  match l with
  | [] => Ret tt
  | a :: l =>
      r <- op a ;;
      if r <? 0 then fprintf 2 msg [text_arg a] else each_until l op msg
  end.
Definition mkdir_main (argv : list (list Z)) : prog Z :=
  if argc argv <? 2 then fprintf 2 (line "Usage: mkdir files...") [] ;;; exit 1
  else each_until (drop 1 argv) mkdir (line "mkdir: %s failed to create") ;;; exit 0.
Definition rm_main (argv : list (list Z)) : prog Z :=
  if argc argv <? 2 then fprintf 2 (line "Usage: rm files...") [] ;;; exit 1
  else each_until (drop 1 argv) unlink (line "rm: %s failed to delete") ;;; exit 0.

Definition zombie_main : prog Z :=
  pid <- fork ;;
  pwhen (0 <? pid) (pause 5 ;;; Ret tt) ;;;
  exit 0.

(** ** init.c *)

Definition CONSOLE : Z := 1.
Definition sh_argv : list (list Z) := [str "sh"].

(** The inner loop: it ends when the shell has exited. *)
Definition init_wait (pid : Z) : prog unit :=
  forever (
    r <- wait ;;
    let wpid := fst r in
    if wpid =? pid then Ret (Some tt)
    else if wpid <? 0 then printf (line "init: wait returned an error") [] ;;; exit 1
    else Ret None).

Definition init_round : prog unit :=
  printf (line "init: starting sh") [] ;;;
  pid <- fork ;;
  if pid <? 0 then printf (line "init: fork failed") [] ;;; exit 1
  else if pid =? 0 then
    exec (str "sh") sh_argv ;;;
    printf (line "init: exec sh failed") [] ;;;
    exit 1
  else init_wait pid.

Definition init_main : prog Z :=
  fd <- open (str "console") O_RDWR ;;
  pwhen (fd <? 0) (mknod (str "console") CONSOLE 0 ;;; open (str "console") O_RDWR ;;; Ret tt) ;;;
  dup 0 ;;;
  dup 0 ;;;
  forever (init_round ;;; Ret None).

(** ** ls.c *)

(** [for(p = path + n; p >= path && *p != '/'; p--); p++;] *)
Fixpoint after_slash (path : list Z) (n : nat) : nat :=
  if default 0 (path !! n) =? 47 then S n
  else match n with O => O | S n' => after_slash path n' end.
Definition fmtname (path : list Z) : list Z :=
  let p := drop (after_slash path (length path)) path in
  if DIRSIZ <=? Z.of_nat (length p) then p
  else p ++ replicate (Z.to_nat DIRSIZ - length p) 32.

Definition stat_line (path : list Z) (st : ustat) : prog unit :=
  printf (line "%s %d %d %d") [text_arg (fmtname path); Word (st_type st); Word (st_ino st); Word (i32 (st_size st))].

(** A C string in a buffer. *)
Fixpoint cstring (b : list Z) : list Z :=
  match b with
  | [] => []
  | c :: b => if c =? 0 then [] else c :: cstring b
  end.

(** The loop over the entries of a directory, one read of a struct dirent each. *)
Definition ls_dir (fd : Z) (path : list Z) : prog unit :=
  forever (
    r <- read fd sizeof_dirent ;;
    match r with
    | Some de =>
        if negb (Z.of_nat (length de) =? sizeof_dirent) then Ret (Some tt)
        else if de_inum de =? 0 then Ret None
        else
          let buf := path ++ [47] ++ cstring (de_name de) in
          st <- ustat_of buf ;;
          match st with
          | None => printf (line "ls: cannot stat %s") [text_arg buf] ;;; Ret None
          | Some st => stat_line buf st ;;; Ret None
          end
    | None => Ret (Some tt)
    end).

Definition ls (path : list Z) : prog unit :=
  fd <- open path O_RDONLY ;;
  if fd <? 0 then fprintf 2 (line "ls: cannot open %s") [text_arg path]
  else
    st <- fstat fd ;;
    match st with
    | None => fprintf 2 (line "ls: cannot stat %s") [text_arg path] ;;; close fd ;;; Ret tt
    | Some st =>
        (if (st_type st =? T_DEVICE) || (st_type st =? T_FILE) then stat_line path st
         else if st_type st =? T_DIR then
           if 512 <? Z.of_nat (length path) + 1 + DIRSIZ + 1 then printf (line "ls: path too long") []
           else ls_dir fd path
         else Ret tt) ;;;
        close fd ;;;
        Ret tt
    end.

Definition ls_main (argv : list (list Z)) : prog Z :=
  if argc argv <? 2 then ls (str ".") ;;; exit 0
  else each (drop 1 argv) ls ;;; exit 0.

(** ** grep.c: the loop over a descriptor, and main *)

Definition ugrep (pattern : list Z) (fd : Z) : prog unit :=
  ITree.iter (fun buf =>
    n <- read fd (Z.of_nat BUFSZ - Z.of_nat (length buf) - 1) ;;
    match n with
    | Some ((_ :: _) as chunk) =>
        let buf := buf ++ chunk in
        match grep_lines (S (length buf)) pattern buf with
        | Some (out, rest) => each out (fun l => write 1 l ;;; Ret tt) ;;; Ret (inl rest)
        | None => Ret (inr tt)
        end
    | _ => Ret (inr tt)
    end) [].

Definition grep_main (argv : list (list Z)) : prog Z :=
  if argc argv <=? 1 then fprintf 2 (line "usage: grep pattern [file ...]") [] ;;; exit 1
  else
    let pattern := arg_at argv 1 in
    if argc argv <=? 2 then ugrep pattern 0 ;;; exit 0
    else
      each (drop 2 argv) (fun name =>
        fd <- open name O_RDONLY ;;
        if fd <? 0 then printf (line "grep: cannot open %s") [text_arg name] ;;; exit 1
        else ugrep pattern fd ;;; close fd ;;; Ret tt) ;;;
      exit 0.
