(* ===== verification/UprogSpec.v ===== *)
(** * What the small programs do

    Theorems about the traces of cat, wc and init: for every behaviour of the
    kernel, what a program that ends with status 0 has read and written, and when
    init starts a shell. *)

From stdpp Require Import base list numbers strings.
From Stdlib Require Import ZArith Lia.
From ITree Require Import Core.ITreeDefinition Indexed.Sum.
From S2P Require Import Prelude Bytes Fs Printf Ulib Grep Sh Usys Utrace Uprog.
Open Scope Z_scope.
Open Scope prog_scope.

(** ** Bytes that leave a program *)

(** What a call gives to a descriptor: the bytes it offers, and those the
    kernel accepts. *)
Definition offer (fd : Z) (v : ev) : list Z :=
  match v with
  | Ev e a =>
      match e in sysE X return X -> list Z with
      | Write fd' bs => fun _ => if fd' =? fd then bs else []
      | _ => fun _ => []
      end a
  end.
Definition accept (fd : Z) (v : ev) : list Z :=
  match v with
  | Ev e a =>
      match e in sysE X return X -> list Z with
      | Write fd' bs => fun n => if fd' =? fd then take (Z.to_nat n) bs else []
      | _ => fun _ => []
      end a
  end.
Definition offered (fd : Z) (l : list ev) : list Z := concat (map (offer fd) l).
Definition accepted (fd : Z) (l : list ev) : list Z := concat (map (accept fd) l).

Lemma offered_app fd l l' : offered fd (l ++ l') = offered fd l ++ offered fd l'.
Proof. unfold offered. by rewrite map_app, concat_app. Qed.
Lemma accepted_app fd l l' : accepted fd (l ++ l') = accepted fd l ++ accepted fd l'.
Proof. unfold accepted. by rewrite map_app, concat_app. Qed.

(** ** Calls and printing *)

Lemma final_ret {A} (a : A) : final (Returned a).
Proof. done. Qed.
Lemma final_exit {A} st : final (Exited (A := A) st).
Proof. done. Qed.
#[local] Hint Resolve final_ret final_exit : core.

Lemma traces_each_putc fd t l r : final r -> traces (each t (putc fd)) l r -> r = Returned tt /\ offered fd l = map u8 t.
Proof.
  revert l. induction t as [|c t IH]; intros l Hf H; cbn [each] in H.
  - apply traces_ret_iff in H as [-> ->]; done.
  - apply traces_bind_iff in H as [(st & -> & H)|(l1 & l2 & [] & -> & H1 & H2)]; [| |done].
    + apply traces_sys_iff in H as (a & l' & -> & H); [|by intros ? []|done]. by apply traces_ret_iff in H as [_ [=]].
    + apply traces_sys_iff in H1 as (a & l' & -> & H1); [|by intros ? []|done]. apply traces_ret_iff in H1 as [-> _]; [|done].
      apply IH in H2 as [-> E]; [|done]. split; [done|]. rewrite offered_app, E. unfold offered. cbn. by rewrite Z.eqb_refl.
Qed.

Lemma traces_fprintf fd fmt args l r : final r -> traces (fprintf fd fmt args) l r -> r = Returned tt /\ offered fd l = map u8 (vprintf fmt args).
Proof. apply traces_each_putc. Qed.

(** A program that prints and exits. *)
Lemma traces_print_exit {A} fd fmt args st l (r : status A) : final r -> traces (fprintf fd fmt args ;;; exit st) l r -> r = Exited st.
Proof.
  intros Hf H. apply traces_bind_iff in H as [(st' & -> & H)|(l1 & l2 & [] & -> & H1 & H2)]; [| |done].
  - by apply traces_fprintf in H as [[=] _].
  - by apply traces_exit_iff in H2 as [_ ->].
Qed.

Lemma traces_printf fmt args l r : final r -> traces (printf fmt args) l r -> r = Returned tt /\ offered 1 l = map u8 (vprintf fmt args).
Proof. apply traces_fprintf. Qed.
Lemma traces_printf_exit {A} fmt args st l (r : status A) : final r -> traces (printf fmt args ;;; exit st) l r -> r = Exited st.
Proof. apply traces_print_exit. Qed.

(** ** cat *)

Definition chunk_evs (fd : Z) (c : list Z) : list ev := [Ev (Read fd 512) (Some c); Ev (Write 1 c) (Z.of_nat (length c))].
Definition copy_evs (fd : Z) (cs : list (list Z)) : list ev := concat (map (chunk_evs fd) cs) ++ [Ev (Read fd 512) (Some [])].
Definition nonempty (c : list Z) : Prop := c <> [].

Lemma cat_step_traces fd l r : final r -> traces (cat_step fd) l r -> r = Exited 1 \/
  (exists c, nonempty c /\ l = chunk_evs fd c /\ r = Returned None) \/
  exists o, (o = None \/ o = Some []) /\ l = [Ev (Read fd 512) o] /\ r = Returned (Some o).
Proof.
  intros Hf H. apply traces_sys_iff in H as (o & l' & -> & H); [|by intros ? []|done].
  assert (Hend : forall o' : option (list Z), traces (Ret (Some o')) l' r -> l' = [] /\ r = Returned (Some o')) by (intros o' H'; by apply traces_ret_iff).
  destruct o as [[|b c]|]; [right; right; exists (Some []); apply Hend in H as [-> ->]; auto| |right; right; exists None; apply Hend in H as [-> ->]; auto].
  apply traces_sys_iff in H as (w & l'' & -> & H); [|by intros ? []|done]. destruct (Z.eqb_spec w (Z.of_nat (length (b :: c)))) as [->|]; cbn [negb] in H.
  - apply traces_ret_iff in H as [-> ->]; [|done]. right. left. by exists (b :: c).
  - left. by eapply traces_print_exit.
Qed.

Lemma cat_step_copies fd c : nonempty c -> traces (cat_step fd) (chunk_evs fd c) (Returned None).
Proof.
  intros Hc. apply traces_sys_iff; [by intros ? []|done|]. exists (Some c). eexists. split; [done|]. destruct c as [|b c]; [done|].
  apply traces_sys_iff; [by intros ? []|done|]. eexists _, _. split; [done|]. rewrite Z.eqb_refl. by apply traces_ret_iff.
Qed.
Lemma cat_step_ends fd : traces (cat_step fd) [Ev (Read fd 512) (Some [])] (Returned (Some (Some []))).
Proof. apply traces_sys_iff; [by intros ? []|done|]. exists (Some []), []. split; [done|]. by apply traces_ret_iff. Qed.

Lemma cat_loops fd l r : loops (cat_step fd) l r -> r = Exited 1 \/
  exists cs o, Forall nonempty cs /\ (o = None \/ o = Some []) /\ l = concat (map (chunk_evs fd) cs) ++ [Ev (Read fd 512) o] /\ r = Returned o.
Proof.
  induction 1 as [l st H|l l' r H _ IH|l a H]; apply cat_step_traces in H; try done.
  - destruct H as [H|[(c & _ & _ & [=])|(o & _ & _ & [=])]]. left. congruence.
  - destruct H as [[=]|[(c & Hc & -> & _)|(o & _ & _ & [=])]]. destruct IH as [->|(cs & o & Hcs & Ho & -> & ->)]; [by left|right].
    exists (c :: cs), o. split_and!; [by constructor|done| |done]. cbn. done.
  - destruct H as [[=]|[(c & _ & _ & [=])|(o & Ho & -> & [= <-])]]. right. by exists [], a.
Qed.

Lemma cat_loops_copies fd cs : Forall nonempty cs -> loops (cat_step fd) (copy_evs fd cs) (Returned (Some [])).
Proof.
  intros Hcs. unfold copy_evs. induction Hcs as [|c cs Hc _ IH]; [apply lp_done, cat_step_ends|].
  cbn [map concat]. rewrite <- app_assoc. eapply lp_again; [by apply cat_step_copies|done].
Qed.

Lemma cat_traces fd l r : final r -> traces (cat fd) l r -> r = Exited 1 \/ exists cs, Forall nonempty cs /\ l = copy_evs fd cs /\ r = Returned tt.
Proof.
  intros Hf H. apply traces_bind_iff in H as [(st & -> & H)|(l1 & l2 & o & -> & H1 & H2)]; [| |done].
  - apply traces_forever_iff, cat_loops in H as [H|(cs & o & _ & _ & _ & [=])]; [|done]. left. congruence.
  - apply traces_forever_iff, cat_loops in H1 as [[=]|(cs & o' & Hcs & Ho & -> & [= <-])]; [|done]. destruct Ho as [-> | ->].
    + left. by eapply traces_print_exit.
    + apply traces_ret_iff in H2 as [-> ->]; [|done]. right. exists cs. by rewrite app_nil_r.
Qed.

Lemma cat_copies_fd fd cs : Forall nonempty cs -> traces (cat fd) (copy_evs fd cs) (Returned tt).
Proof.
  intros Hcs. apply traces_bind_iff; [done|]. right. exists (copy_evs fd cs), [], (Some []). rewrite app_nil_r. split; [done|].
  split; [apply traces_forever_iff; [done|]; by apply cat_loops_copies|by apply traces_ret_iff].
Qed.

(** The trace of a run over the files: each is opened, read in pieces that are
    not empty until a read returns nothing, every piece is written in full, and
    it is closed. *)
Inductive copies : list (list Z) -> list (list Z) -> list ev -> Prop :=
  | cp_nil : copies [] [] []
  | cp_cons f fs cs ds fd r l : 0 <= fd -> Forall nonempty cs -> copies fs ds l ->
      copies (f :: fs) (concat cs :: ds) (Ev (Open f O_RDONLY) fd :: copy_evs fd cs ++ Ev (Close fd) r :: l).

Lemma accepted_copy fd cs : accepted 1 (copy_evs fd cs) = concat cs.
Proof.
  unfold copy_evs. rewrite accepted_app. replace (accepted 1 [Ev (Read fd 512) (Some [])]) with (@nil Z) by done. rewrite app_nil_r.
  induction cs as [|c cs IH]; [done|]. cbn [map concat]. rewrite accepted_app, IH. unfold accepted. cbn. by rewrite app_nil_r, Nat2Z.id, firstn_all.
Qed.
Lemma copies_output fs ds l : copies fs ds l -> accepted 1 l = concat ds.
Proof.
  induction 1 as [|f fs cs ds fd r l _ _ _ IH]; [done|]. change (Ev (Open f O_RDONLY) fd :: ?x) with ([Ev (Open f O_RDONLY) fd] ++ x).
  change (Ev (Close fd) r :: l) with ([Ev (Close fd) r] ++ l). rewrite !accepted_app, accepted_copy, IH. done.
Qed.

Lemma traces_close_ret fd l r : final r -> traces (close fd ;;; Ret tt) l r -> exists x, l = [Ev (Close fd) x] /\ r = Returned tt.
Proof.
  intros Hf H. apply traces_sys_iff in H as (x & l' & -> & H); [|by intros ? []|done]. apply traces_ret_iff in H as [-> ->]; [|done]. by exists x.
Qed.

Lemma cat_file_traces f l r : final r -> traces (cat_file f) l r -> r = Exited 1 \/
  exists fd cs x, 0 <= fd /\ Forall nonempty cs /\ l = Ev (Open f O_RDONLY) fd :: copy_evs fd cs ++ [Ev (Close fd) x] /\ r = Returned tt.
Proof.
  intros Hf H. apply traces_sys_iff in H as (fd & l' & -> & H); [|by intros ? []|done]. destruct (Z.ltb_spec fd 0); [left; by eapply traces_print_exit|].
  apply traces_bind_iff in H as [(st & -> & H)|(l1 & l2 & [] & -> & H1 & H2)]; [| |done].
  - apply cat_traces in H as [H|(cs & _ & _ & [=])]; [|done]. left. congruence.
  - apply cat_traces in H1 as [[=]|(cs & Hcs & -> & _)]; [|done]. apply traces_close_ret in H2 as (x & -> & ->); [|done]. right. by exists fd, cs, x.
Qed.

Lemma cat_file_copies f fd cs x : 0 <= fd -> Forall nonempty cs ->
  traces (cat_file f) (Ev (Open f O_RDONLY) fd :: copy_evs fd cs ++ [Ev (Close fd) x]) (Returned tt).
Proof.
  intros Hfd Hcs. apply traces_sys_iff; [by intros ? []|done|]. exists fd. eexists. split; [done|]. destruct (Z.ltb_spec fd 0); [lia|].
  apply traces_bind_iff; [done|]. right. eexists _, _, tt. split; [done|]. split; [by apply cat_copies_fd|].
  apply traces_sys_iff; [by intros ? []|done|]. eexists _, _. split; [done|]. by apply traces_ret_iff.
Qed.

Lemma cat_each fs l st : traces (each fs cat_file) l (Exited st) -> st = 1.
Proof.
  revert l. induction fs as [|f fs IH]; intros l H; cbn [each] in H; [by apply traces_ret_iff in H as [_ [=]]|].
  apply traces_bind_iff in H as [(st' & [= <-] & H)|(l1 & l2 & [] & -> & _ & H2)]; [| |done].
  - apply cat_file_traces in H as [[= ->]|(fd & cs & x & _ & _ & _ & [=])]; done.
  - by eapply IH.
Qed.

Lemma cat_each_copies fs l : traces (each fs cat_file) l (Returned tt) <-> exists ds, copies fs ds l.
Proof.
  revert l. induction fs as [|f fs IH]; intros l; cbn [each].
  - rewrite traces_ret_iff by done. split; [intros [-> _]; exists []; constructor|]. intros (ds & H). by inversion H.
  - rewrite traces_bind_iff by done. split.
    + intros [(st & [=] & _)|(l1 & l2 & [] & -> & H1 & H2)]. apply cat_file_traces in H1 as [[=]|(fd & cs & x & Hfd & Hcs & -> & _)]; [|done].
      apply IH in H2 as (ds & H2). exists (concat cs :: ds). cbn. rewrite <- app_assoc. by constructor.
    + intros (ds & H). right. inversion H as [|? ? cs ds' fd x l' Hfd Hcs Hc]; subst. exists (Ev (Open f O_RDONLY) fd :: copy_evs fd cs ++ [Ev (Close fd) x]), l', tt.
      split; [cbn; by rewrite <- app_assoc|]. split; [by apply cat_file_copies|]. apply IH. by exists ds'.
Qed.

(** C31. cat copies its files, and says so: whatever the kernel does, cat exits
    with status 0 exactly when every file could be opened and was read to its end,
    in any pieces, and all that was read was accepted on standard output, file
    after file. *)
Theorem cat_copies name files l : files <> [] ->
  traces (cat_main (name :: files)) l (Exited 0) <-> exists ds, copies files ds l /\ accepted 1 l = concat ds.
Proof.
  intros Hne. unfold cat_main, argc. destruct files as [|f fs]; [done|]. destruct (Z.leb_spec (Z.of_nat (length (name :: f :: fs))) 1); [cbn in *; lia|].
  cbn [drop]. rewrite traces_bind_iff by done. split.
  - intros [(st & [= <-] & H1)|(l1 & l2 & [] & -> & H1 & H2)]; [by apply cat_each in H1|].
    apply traces_exit_iff in H2 as [-> _]; [|done]. rewrite app_nil_r. apply cat_each_copies in H1 as (ds & H1). exists ds. split; [done|]. by eapply copies_output.
  - intros (ds & H1 & _). right. exists l, [], tt. rewrite app_nil_r. split; [done|]. split; [apply cat_each_copies; by exists ds|by apply traces_exit_iff].
Qed.

Definition demo_copy : list ev :=
  [Ev (Open (str "a") O_RDONLY) 3; Ev (Read 3 512) (Some [104]); Ev (Write 1 [104]) 1; Ev (Read 3 512) (Some [105; 10]); Ev (Write 1 [105; 10]) 2;
   Ev (Read 3 512) (Some []); Ev (Close 3) 0].
Lemma demo_copies : copies [str "a"] [[104; 105; 10]] demo_copy.
Proof.
  apply (cp_cons (str "a") [] [[104]; [105; 10]] [] 3 0 []); [lia|repeat constructor; done|constructor].
Qed.
Lemma cat_copies_witness : traces (cat_main [str "cat"; str "a"]) demo_copy (Exited 0).
Proof. apply (cat_copies (str "cat") [str "a"] demo_copy); [done|]. exists [[104; 105; 10]]. split; [exact demo_copies|reflexivity]. Defined.

(** ** wc *)

Definition space (b : Z) : bool := strchr [32; 13; 9; 10; 11] b.
(** A word begins at a byte that is not a space and follows a space or nothing. *)
Definition begins_word (d : list Z) (i : nat) : bool :=
  negb (space (nth i d 0)) && match i with O => true | S j => space (nth j d 0) end.
Definition count_words (d : list Z) : Z := Z.of_nat (length (List.filter (begins_word d) (seq 0 (length d)))).
Definition count_lines (d : list Z) : Z := Z.of_nat (length (List.filter (Z.eqb 10) d)).

Definition tally (d : list Z) : counts :=
  mk_counts (count_lines d) (count_words d) (Z.of_nat (length d)) (match last d with Some b => negb (space b) | None => false end).

Lemma nth_snoc_last (d : list Z) b : nth (length d) (d ++ [b]) 0 = b.
Proof. rewrite app_nth2 by lia. by rewrite Nat.sub_diag. Qed.
Lemma nth_last (d : list Z) j : length d = S j -> last d = Some (nth j d 0).
Proof. intros E. rewrite last_lookup, E. cbn.  destruct (lookup_lt_is_Some_2 d j ltac:(lia)) as [x Hx]. rewrite Hx. f_equal. symmetry. by apply nth_lookup_Some. Qed.

Lemma count_words_snoc d b : count_words (d ++ [b]) =
  count_words d + (if negb (space b) && match last d with Some c => space c | None => true end then 1 else 0).
Proof.
  unfold count_words. rewrite length_app. cbn [length]. rewrite Nat.add_1_r, seq_S, List.filter_app, length_app, Nat2Z.inj_add. f_equal.
  - do 2 f_equal. apply List.filter_ext_in. intros i Hi. apply in_seq in Hi. unfold begins_word. rewrite app_nth1 by lia.
    destruct i as [|j]; [done|]. by rewrite app_nth1 by lia.
  - cbn [List.filter]. replace (begins_word (d ++ [b]) (0 + length d)) with (negb (space b) && match last d with Some c => space c | None => true end).
    2: { cbn [Nat.add]. unfold begins_word. rewrite nth_snoc_last. f_equal. destruct (length d) as [|j] eqn:E; [by destruct d|].
         rewrite (nth_last d j E). by rewrite app_nth1 by lia. }
    by destruct (negb (space b) && _).
Qed.
Lemma count_lines_snoc d b : count_lines (d ++ [b]) = count_lines d + (if b =? 10 then 1 else 0).
Proof. unfold count_lines. rewrite List.filter_app, length_app, Nat2Z.inj_add. f_equal. cbn [List.filter]. rewrite Z.eqb_sym. by destruct (b =? 10). Qed.

Lemma count_lines_le d : 0 <= count_lines d <= Z.of_nat (length d).
Proof. unfold count_lines. pose proof (List.filter_length_le (Z.eqb 10) d). lia. Qed.
Lemma count_words_le d : 0 <= count_words d <= Z.of_nat (length d).
Proof. unfold count_words. pose proof (List.filter_length_le (begins_word d) (seq 0 (length d))) as H. rewrite length_seq in H. lia. Qed.

Lemma tally_snoc d b : Z.of_nat (length d) + 1 < 2 ^ 31 -> count_byte (tally d) b = tally (d ++ [b]).
Proof.
  intros Hl. pose proof (count_lines_le d). pose proof (count_words_le d). unfold count_byte, tally. cbn [n_lines n_words n_chars inword].
  rewrite count_lines_snoc, count_words_snoc, last_snoc, length_app, Nat2Z.inj_add. change (Z.of_nat (length [b])) with 1.
  fold (space b). unfold i32. rewrite !signed_small by lia.
  destruct (b =? 10), (space b), (last d) as [c|]; cbn [negb andb]; try destruct (space c); cbn [negb]; f_equal; lia.
Qed.

(** The counters after a piece of the input. *)
Lemma tally_app d e : Z.of_nat (length (d ++ e)) < 2 ^ 31 -> foldl count_byte (tally d) e = tally (d ++ e).
Proof.
  revert d. induction e as [|b e IH]; intros d Hl; [by rewrite app_nil_r|]. rewrite length_app in Hl. cbn [length] in Hl. cbn [foldl].
  rewrite tally_snoc by lia. rewrite IH; rewrite <- app_assoc; [done|]. rewrite length_app. cbn. lia.
Qed.

Lemma tally_all d : Z.of_nat (length d) < 2 ^ 31 -> foldl count_byte (mk_counts 0 0 0 false) d = tally d.
Proof. exact (tally_app [] d). Qed.

Lemma tally_lines d : n_lines (tally d) = count_lines d.
Proof. done. Qed.
Lemma tally_words d : n_words (tally d) = count_words d.
Proof. done. Qed.
Lemma tally_chars d : n_chars (tally d) = Z.of_nat (length d).
Proof. done. Qed.

Definition read_evs (fd : Z) (cs : list (list Z)) : list ev := map (fun c => Ev (Read fd 512) (Some c)) cs.

Lemma wc_step_traces fd k l r : final r -> traces (wc_step fd k) l r ->
  (exists c, nonempty c /\ l = read_evs fd [c] /\ r = Returned (inl (foldl count_byte k c))) \/
  exists o, (o = None \/ o = Some []) /\ l = [Ev (Read fd 512) o] /\ r = Returned (inr (o, k)).
Proof.
  intros Hf H. apply traces_sys_iff in H as (o & l' & -> & H); [|by intros ? []|done].
  destruct o as [[|b c]|]; (apply traces_ret_iff in H as [-> ->]; [|done]).
  - right. exists (Some []). auto.
  - left. by exists (b :: c).
  - right. exists None. auto.
Qed.

Lemma wc_rounds fd k l r : final r -> rounds (wc_step fd) k l r -> exists cs o, Forall nonempty cs /\ (o = None \/ o = Some []) /\
  l = read_evs fd cs ++ [Ev (Read fd 512) o] /\ r = Returned (o, foldl count_byte k (concat cs)).
Proof.
  intros Hf. induction 1 as [k|k l H|k l st H|k k' l l' r H _ IH|k l a H]; try by destruct Hf.
  - by apply wc_step_traces in H as [(c & _ & _ & [=])|(o & _ & _ & [=])].
  - apply wc_step_traces in H as [(c & Hc & -> & [= ->])|(o & _ & _ & [=])]; [|done].
    destruct (IH Hf) as (cs & o & Hcs & Ho & -> & ->). exists (c :: cs), o. split_and!; [by constructor|done|done|]. cbn [concat]. by rewrite foldl_app.
  - apply wc_step_traces in H as [(c & _ & _ & [=])|(o & Ho & -> & [= ->])]; [|done]. by exists [], o.
Qed.

(** The line wc prints for a file with contents [d]. *)
Definition report (name d : list Z) : list Z :=
  vprintf (line "%d %d %d %s") [Word (count_lines d); Word (count_words d); Word (Z.of_nat (length d)); text_arg name].

Lemma wc_report name d l r : final r -> Z.of_nat (length d) < 2 ^ 31 ->
  let k := foldl count_byte (mk_counts 0 0 0 false) d in
  traces (printf (line "%d %d %d %s") [Word (n_lines k); Word (n_words k); Word (n_chars k); text_arg name]) l r ->
  offered 1 l = map u8 (report name d).
Proof.
  intros Hf Hl k H. apply traces_printf in H as [-> E]; [|done]. rewrite E. unfold k, report.
  by rewrite tally_all, tally_lines, tally_words, tally_chars by exact Hl.
Qed.

(** The reads, and what follows them. *)
Lemma wc_parts fd name l r : final r -> traces (wc fd name) l r -> exists cs o l2, Forall nonempty cs /\ (o = None \/ o = Some []) /\ l = (read_evs fd cs ++ [Ev (Read fd 512) o]) ++ l2 /\
  let k := foldl count_byte (mk_counts 0 0 0 false) (concat cs) in
  traces (match o with None => printf (line "wc: read error") [] ;;; exit 1
  | Some _ => printf (line "%d %d %d %s") [Word (n_lines k); Word (n_words k); Word (n_chars k); text_arg name] end) l2 r.
Proof.
  intros Hf H. unfold wc in H. apply traces_bind_iff in H as [(st & -> & H)|(l1 & l2 & [o k] & -> & H1 & H2)]; [| |done].
  - apply traces_iter_iff, wc_rounds in H as (cs & o & _ & _ & _ & [=]); done.
  - apply traces_iter_iff, wc_rounds in H1 as (cs & o' & Hcs & Ho & -> & [= <- ->]); [|done..]. by exists cs, o, l2.
Qed.

Lemma wc_traces fd name l r : final r -> traces (wc fd name) l r -> r = Exited 1 \/
  exists cs lp, Forall nonempty cs /\ l = read_evs fd cs ++ [Ev (Read fd 512) (Some [])] ++ lp /\ r = Returned tt /\
    (Z.of_nat (length (concat cs)) < 2 ^ 31 -> offered 1 lp = map u8 (report name (concat cs))).
Proof.
  intros Hf H. apply wc_parts in H as (cs & o & l2 & Hcs & [-> | ->] & -> & H2); [| |done]; cbn zeta in H2; cbn iota in H2.
  - left. by eapply traces_printf_exit.
  - right. exists cs, l2. rewrite <- app_assoc. split; [done|]. split; [done|]. split; [by apply traces_printf in H2 as [-> _]|].
    intros Hl. exact (wc_report name (concat cs) l2 r Hf Hl H2).
Qed.

Lemma offered_cons v l : offered 1 (v :: l) = offer 1 v ++ offered 1 l.
Proof. done. Qed.
Lemma offered_reads fd cs l : offered 1 (read_evs fd cs ++ l) = offered 1 l.
Proof. rewrite offered_app. replace (offered 1 (read_evs fd cs)) with (@nil Z); [done|]. induction cs; [done|]. by cbn. Qed.

(** Each file is opened, read in pieces until a read returns nothing, and
    closed after [lp]: writes to standard output. *)
Inductive counted : list (list Z) -> list (list Z) -> list ev -> Prop :=
  | ct_nil : counted [] [] []
  | ct_cons f fs cs ds fd x lp l : 0 <= fd -> Forall nonempty cs -> counted fs ds l ->
      counted (f :: fs) (concat cs :: ds) (Ev (Open f O_RDONLY) fd :: read_evs fd cs ++ [Ev (Read fd 512) (Some [])] ++ lp ++ Ev (Close fd) x :: l).

Lemma wc_file_traces f l r : final r -> traces (wc_file f) l r -> r = Exited 1 \/
  exists fd cs lp x, 0 <= fd /\ Forall nonempty cs /\ r = Returned tt /\
    l = Ev (Open f O_RDONLY) fd :: read_evs fd cs ++ [Ev (Read fd 512) (Some [])] ++ lp ++ [Ev (Close fd) x] /\
    (Z.of_nat (length (concat cs)) < 2 ^ 31 -> offered 1 lp = map u8 (report f (concat cs))).
Proof.
  intros Hf H. apply traces_sys_iff in H as (fd & l' & -> & H); [|by intros ? []|done]. destruct (Z.ltb_spec fd 0); [left; by eapply traces_printf_exit|].
  apply traces_bind_iff in H as [(st & -> & H)|(l1 & l2 & [] & -> & H1 & H2)]; [| |done].
  - apply wc_traces in H as [H|(cs & lp & _ & _ & [=] & _)]; [|done]. left. congruence.
  - apply wc_traces in H1 as [[=]|(cs & lp & Hcs & -> & _ & Hp)]; [|done]. apply traces_close_ret in H2 as (x & -> & ->); [|done].
    right. exists fd, cs, lp, x. split_and!; try done. by rewrite <- !app_assoc.
Qed.

Lemma wc_each fs l r : final r -> traces (each fs wc_file) l r -> r = Exited 1 \/
  r = Returned tt /\ exists ds, counted fs ds l /\ (Forall (fun d => Z.of_nat (length d) < 2 ^ 31) ds -> offered 1 l = map u8 (concat (zip_with report fs ds))).
Proof.
  revert l. induction fs as [|f fs IH]; intros l Hf H; cbn [each] in H.
  - apply traces_ret_iff in H as [-> ->]; [|done]. right. split; [done|]. exists []. split; [constructor|done].
  - apply traces_bind_iff in H as [(st & -> & H)|(l1 & l2 & [] & -> & H1 & H2)]; [| |done].
    + apply wc_file_traces in H as [H|(fd & cs & lp & x & _ & _ & [=] & _)]; [|done]. left. congruence.
    + apply IH in H2 as [->|[-> (ds & H2 & Ho)]]; [by left| |done]. right. split; [done|].
      apply wc_file_traces in H1 as [[=]|(fd & cs & lp & x & Hfd & Hcs & _ & -> & Hp)]; [|done]. exists (concat cs :: ds). split.
      * rewrite <- app_comm_cons, <- !app_assoc. by apply (ct_cons f fs cs ds fd x lp l2).
      * intros Hl. apply Forall_cons in Hl as [Hl Hls]. cbn [zip_with concat]. rewrite map_app, <- (Ho Hls), <- (Hp Hl).
        rewrite <- app_comm_cons, <- !app_assoc. rewrite (offered_cons (Ev (Open f O_RDONLY) fd)), offered_reads, !offered_app. done.
Qed.

(** wc counts: when wc exits with status 0, whatever the kernel did, every
    file was opened and read to its end, and what it wrote to standard output is one
    line per file with the number of newlines, of words (positions where a byte
    that is no space follows a space or the beginning) and of bytes, for files
    shorter than 2^31 bytes, over which the counters do not wrap. *)
Theorem wc_counts name files l : files <> [] -> traces (wc_main (name :: files)) l (Exited 0) ->
  exists ds, counted files ds l /\ (Forall (fun d => Z.of_nat (length d) < 2 ^ 31) ds -> offered 1 l = map u8 (concat (zip_with report files ds))).
Proof.
  intros Hne H. unfold wc_main, argc in H. destruct files as [|f fs]; [done|]. destruct (Z.leb_spec (Z.of_nat (length (name :: f :: fs))) 1); [cbn in *; lia|].
  cbn [drop] in H. apply traces_bind_iff in H as [(st & [= <-] & H)|(l1 & l2 & [] & -> & H1 & H2)]; [| |done].
  - by apply wc_each in H as [[=]|[[=] _]].
  - apply wc_each in H1 as [[=]|[_ H1]]; [|done]. apply traces_exit_iff in H2 as [-> _]; [|done]. by rewrite app_nil_r.
Qed.

(** ** init *)

(** What init may do next: set up its descriptors and start the first shell;
    start the next one; wait for the shell with this pid; be the child that
    becomes a shell; give up, as something failed. *)
Inductive duty := Setup | Start | Watch (pid : Z) | Child | GiveUp.
Definition forked (pid : Z) : duty := if pid <? 0 then GiveUp else if pid =? 0 then Child else Watch pid.
Definition watch (v : ev) (d : duty) : option duty :=
  match v with
  | Ev e a =>
      match e in sysE X return X -> option duty with
      | Fork => fun pid => match d with Setup | Start => Some (forked pid) | _ => None end
      | Wait => fun r => match d with Watch pid => Some (if fst r =? pid then Start else if fst r <? 0 then GiveUp else Watch pid) | _ => None end
      | Exec path argv => fun _ => match d with Child => if decide (path = str "sh" /\ argv = [str "sh"]) then Some GiveUp else None | _ => None end
      | Write _ _ => fun _ => match d with Setup | Start | GiveUp => Some d | _ => None end
      | Open _ _ | Mknod _ _ _ | Dup _ => fun _ => match d with Setup => Some d | _ => None end
      | _ => fun _ => None
      end a
  end.

Definition demo_count : list ev :=
  [Ev (Open (str "a") O_RDONLY) 3; Ev (Read 3 512) (Some [104; 105; 10]); Ev (Read 3 512) (Some [])] ++
  map (fun c => Ev (Write 1 [c]) 1) (str "1 1 3 a" ++ [10]) ++ [Ev (Close 3) 0].

Lemma wc_counts_witness : exists ds, counted [str "a"] ds demo_count /\
  (Forall (fun d => Z.of_nat (length d) < 2 ^ 31) ds -> offered 1 demo_count = map u8 (concat (zip_with report [str "a"] ds))).
Proof.
  apply (wc_counts (str "wc") [str "a"] demo_count); [done|].
  apply (play_trace 100 _ ([RInt 3; RBytes (Some [104; 105; 10]); RBytes (Some [])] ++ replicate 8 (RInt 1) ++ [RInt 0])). by vm_compute.
Defined.

Fixpoint watches (l : list ev) (d : duty) : option duty :=
  match l with
  | [] => Some d
  | v :: l => match watch v d with Some d => watches l d | None => None end
  end.
Lemma watches_app l l' s : watches (l ++ l') s = match watches l s with Some s => watches l' s | None => None end.
Proof. revert s. induction l as [|v l IH]; intros s; [done|]. cbn. by destruct (watch v s). Qed.

(** From the duty [s], the program does only what its duty allows, exits with
    status 1 only and when it has given up, and returns in a state [Q] allows. *)
Definition keeps {A} (t : prog A) (s : duty) (Q : A -> duty -> Prop) : Prop :=
  forall l r, traces t l r -> exists s', watches l s = Some s' /\ match r with Returned a => Q a s' | Exited st => st = 1 /\ s' = GiveUp | Running => True end.

Lemma watched_ret {A} (a : A) s Q : Q a s -> keeps (Ret a) s Q.
Proof. intros HQ l r [n H]. apply trace_ret in H as [-> [-> | ->]]; by exists s. Qed.
Lemma keeps_exit {A} (Q : A -> duty -> Prop) : keeps (exit 1) GiveUp Q.
Proof. intros l r [n H]. apply trace_exit in H as [-> [-> | ->]]; by exists GiveUp. Qed.
Lemma watched_bind {A B} (t : prog A) (k : A -> prog B) s Q R : keeps t s R -> (forall a s', R a s' -> keeps (k a) s' Q) -> keeps (ITree.bind t k) s Q.
Proof.
  intros Ht Hk l r [n H]. apply trace_bind in H as [[-> H]|[(st & -> & H)|(l1 & l2 & a & -> & H1 & H2)]].
  - destruct (Ht l Running) as (s' & E & _); [by exists n|]. by exists s'.
  - destruct (Ht l (Exited st)) as (s' & E & Hst); [by exists n|]. by exists s'.
  - destruct (Ht l1 (Returned a)) as (s' & E & HR); [by exists n|]. destruct (Hk a s' HR l2 r) as (s'' & E' & HQ); [by exists n|].
    exists s''. by rewrite watches_app, E.
Qed.
Lemma keeps_sys {B X} (e : sysE X) (k : X -> prog B) s Q : exit_status e = None ->
  (forall a, exists s', watch (Ev e a) s = Some s' /\ keeps (k a) s' Q) -> keeps (x <- ITree.trigger e ;; k x) s Q.
Proof.
  intros He Hk l r [n H]. apply trace_call in H as [[-> [->|H]]|(a & l' & -> & H)]; [by exists s|by destruct e|].
  destruct (Hk a) as (s' & E & Hk'). destruct (Hk' l' r) as (s'' & E' & HQ); [by exists n|]. exists s''. cbn [watches]. by rewrite E.
Qed.
(** A loop that starts every round in a state of [P]. *)
Lemma keeps_forever {A} (body : prog (option A)) (P : duty -> Prop) s Q : P s ->
  (forall s, P s -> keeps body s (fun o s' => match o with Some a => Q a s' | None => P s' end)) -> keeps (forever body) s Q.
Proof.
  intros Hs Hb l r [n H]. apply trace_iter in H. remember tt as i eqn:Ei in H. assert (Hr : forall s, P s -> keeps (round body tt) s (fun x s' => match x with inr a => Q a s' | inl _ => P s' end)).
  { intros s' Hs'. eapply watched_bind; [by apply Hb|]. intros [a|] s'' Hs''; by apply watched_ret. }
  clear Ei. revert s Hs. induction H as [[]|[] l H|[] l st H|[] [] l l' r H _ IH|[] l a H]; intros s Hs; [by exists s| | | |].
  - apply (Hr s Hs) in H as (s' & E & _). by exists s'.
  - apply (Hr s Hs) in H as (s' & E & Hst). by exists s'.
  - apply (Hr s Hs) in H as (s' & E & Hs'). rewrite watches_app, E. by apply IH.
  - apply (Hr s Hs) in H as (s' & E & HQ). by exists s'.
Qed.

Definition may_print (s : duty) : Prop := s = Setup \/ s = Start \/ s = GiveUp.
Lemma keeps_printf fd fmt args s : may_print s -> keeps (fprintf fd fmt args) s (fun _ s' => s' = s).
Proof.
  intros Hs. unfold fprintf. induction (vprintf fmt args) as [|c t IH]; cbn [each]; [by apply watched_ret|].
  eapply (watched_bind _ _ _ _ (fun _ s' => s' = s)); [|by intros [] s' ->]. apply keeps_sys; [done|]. intros a. exists s. split; [by destruct Hs as [->|[->| ->]]|]. by apply watched_ret.
Qed.

Lemma keeps_die {A} fmt args (Q : A -> duty -> Prop) : keeps (printf fmt args ;;; exit 1) GiveUp Q.
Proof. eapply watched_bind; [apply keeps_printf; unfold may_print; tauto|]. intros _ s' ->. apply keeps_exit. Qed.

(** Waiting for the shell. *)
Lemma init_wait_keeps pid : keeps (init_wait pid) (Watch pid) (fun _ s' => s' = Start).
Proof.
  apply (keeps_forever _ (fun s => s = Watch pid)); [done|]. intros s ->. apply keeps_sys; [done|]. intros [wpid st]. cbn [watch fst].
  eexists. split; [done|]. destruct (wpid =? pid); [by apply watched_ret|]. destruct (wpid <? 0); [apply keeps_die|by apply watched_ret].
Qed.
Lemma init_round_keeps s : s = Setup \/ s = Start -> keeps init_round s (fun _ s' => s' = Start).
Proof.
  intros Hs. unfold init_round. eapply watched_bind; [apply keeps_printf; unfold may_print; tauto|]. intros _ s' ->. apply keeps_sys; [done|]. intros pid. exists (forked pid). split; [by destruct Hs as [->| ->]|].
  unfold forked. destruct (Z.ltb_spec pid 0); [apply keeps_die|]. destruct (Z.eqb_spec pid 0) as [->|].
  - apply keeps_sys; [done|]. intros a. eexists. split; [done|]. apply keeps_die.
  - apply init_wait_keeps.
Qed.

(** C30. init looks after one shell: in every trace, for all answers of the kernel,
    it forks only when no shell of its own is running, that is to start the first
    one and, after wait has returned the pid of the last one, to start the next;
    while one is running it does nothing but wait; the child executes sh. It ends
    only with status 1, and only after fork or wait has failed or, in a child,
    exec has. *)
Theorem init_one_shell l r : traces init_main l r ->
  exists d, watches l Setup = Some d /\ match r with Running => True | Exited st => st = 1 /\ d = GiveUp | Returned _ => False end.
Proof.
  revert l r. change (keeps init_main Setup (fun _ _ => False)). unfold init_main, pwhen.
  apply keeps_sys; [done|]. intros fd. exists Setup. split; [done|].
  eapply (watched_bind _ _ _ _ (fun _ s' => s' = Setup)).
  { destruct (fd <? 0); [|by apply watched_ret]. apply keeps_sys; [done|]. intros a. exists Setup. split; [done|].
    apply keeps_sys; [done|]. intros b. exists Setup. split; [done|]. by apply watched_ret. }
  intros _ s' ->. apply keeps_sys; [done|]. intros a. exists Setup. split; [done|]. apply keeps_sys; [done|]. intros b. exists Setup. split; [done|].
  apply (keeps_forever _ (fun s => s = Setup \/ s = Start)); [by left|]. intros s Hs. eapply watched_bind; [by apply init_round_keeps|]. intros _ s' ->. apply watched_ret. by right.
Qed.

(** The console is there; another process is reaped before the shell. *)
Definition demo_replies : list reply :=
  [RInt 0; RInt 1; RInt 2] ++ replicate (length (line "init: starting sh")) (RInt 1) ++ [RInt 5; RTwo 7 0; RTwo 5 0] ++ replicate 3 (RInt 1).
Definition demo_init : list ev := match play 200 init_main demo_replies with Some (l, _) => l | None => [] end.
Lemma init_one_shell_witness : exists d, watches demo_init Setup = Some d /\ True.
Proof. apply (init_one_shell demo_init Running). apply (play_trace 200 _ demo_replies). by vm_compute. Defined.
