(* ===== verification/Utest.v ===== *)
(** * Test programs of user/

    forktest.c, stressfs.c, logstress.c, dorphan.c, forphan.c and grind.c with the
    system calls they make, and the generator of random numbers of grind.c. *)

From stdpp Require Import base list numbers strings.
From Stdlib Require Import ZArith Lia.
From ITree Require Import Core.ITreeDefinition Indexed.Sum.
From S2P Require Import Prelude Printf Usys Uprog.
Open Scope Z_scope.
Open Scope prog_scope.

(** [if(c) p;] for a call whose answer is not used. *)
Definition skip_val (p : prog Z) : prog unit := p ;;; Ret tt.
(** A message with the name of the program, and exit(1). *)
Definition fail_with {A} (fmt : string) (args : list arg) : prog A := printf (line fmt) args ;;; exit 1.

(** ** forktest.c *)

Definition N_FORKS : nat := 1000.
Definition print (s : list Z) : prog unit := skip_val (write 1 s).

(** The first loop: how many children there are. *)
Fixpoint fork_many (k : nat) (n : Z) : prog Z :=
  match k with
  | O => Ret n
  | S k =>
      pid <- fork ;;
      if pid <? 0 then Ret n
      else if pid =? 0 then exit 0
      else fork_many k (n + 1)
  end.
Fixpoint wait_many (n : nat) : prog unit :=
  match n with
  | O => Ret tt
  | S n =>
      r <- wait ;;
      if fst r <? 0 then print (line "wait stopped early") ;;; exit 1
      else wait_many n
  end.
Definition forktest : prog unit :=
  print (line "fork test") ;;;
  n <- fork_many N_FORKS 0 ;;
  if n =? Z.of_nat N_FORKS then print (line "fork claimed to work N times!") ;;; exit 1
  else
    wait_many (Z.to_nat n) ;;;
    r <- wait ;;
    if negb (fst r =? -1) then print (line "wait got too many") ;;; exit 1
    else print (line "fork test OK").
Definition forktest_main : prog Z := forktest ;;; exit 0.

(** ** stressfs.c *)

Fixpoint times (k : nat) (p : prog unit) : prog unit :=
  match k with O => Ret tt | S k => p ;;; times k p end.

(** [for(i = 0; i < 4; i++) if(fork() > 0) break;] *)
Fixpoint fork_chain (k : nat) (i : Z) : prog Z :=
  match k with
  | O => Ret i
  | S k => pid <- fork ;; if 0 <? pid then Ret i else fork_chain k (i + 1)
  end.
Definition stressfs_main : prog Z :=
  printf (line "stressfs starting") [] ;;;
  let data := replicate 512 97 in
  i <- fork_chain 4 0 ;;
  printf (line "write %d") [Word i] ;;;
  let path := str "stressfs" ++ [u8 (48 + i)] in
  fd <- open path (Z.lor O_CREATE O_RDWR) ;;
  times 20 (skip_val (write fd data)) ;;;
  close fd ;;;
  printf (line "read") [] ;;;
  fd <- open path O_RDONLY ;;
  times 20 (read fd 512 ;;; Ret tt) ;;;
  close fd ;;;
  wait ;;;
  exit 0.

(** ** logstress.c *)

(** [memset(buf, '0'+i, SZ)] fills SZ = 2000 bytes from [buf], of which 500 are
    the buffer's; the write that follows sends the same 2000 bytes. *)
Definition LOG_N : nat := 250.
Definition LOG_SZ : nat := 2000.
Fixpoint log_writes (k : nat) (fd : Z) (buf : list Z) : prog unit :=
  match k with
  | O => Ret tt
  | S k =>
      n <- write fd buf ;;
      if negb (n =? Z.of_nat LOG_SZ) then fail_with "write failed %d" [Word n]
      else log_writes k fd buf
  end.
Definition log_child (name file : list Z) (i : Z) : prog unit :=
  fd <- open file (Z.lor O_CREATE O_RDWR) ;;
  if fd <? 0 then fail_with "%s: create %s failed" [text_arg name; text_arg file]
  else log_writes LOG_N fd (replicate LOG_SZ (u8 (48 + i))) ;;; exit 0.
Fixpoint log_start (name : list Z) (files : list (list Z)) (i : Z) : prog unit :=
  match files with
  | [] => Ret tt
  | f :: files =>
      pid1 <- fork ;;
      if pid1 <? 0 then fail_with "%s: fork failed" [text_arg name]
      else if pid1 =? 0 then log_child name f i
      else log_start name files (i + 1)
  end.
Fixpoint log_wait (files : list (list Z)) : prog unit :=
  match files with
  | [] => Ret tt
  | _ :: files => r <- wait ;; if negb (snd r =? 0) then exit (snd r) else log_wait files
  end.
Definition logstress_main (argv : list (list Z)) : prog Z :=
  let name := arg_at argv 0 in
  log_start name (drop 1 argv) 1 ;;;
  log_wait (drop 1 argv) ;;;
  Ret 0.

(** ** dorphan.c and forphan.c *)

Definition sit : prog Z := forever (pause 1000 ;;; Ret None).
Definition dorphan_main (argv : list (list Z)) : prog Z :=
  let s := text_arg (arg_at argv 0) in
  r <- mkdir (str "dd") ;;
  if negb (r =? 0) then fail_with "%s: mkdir dd failed" [s]
  else
    r <- chdir (str "dd") ;;
    if negb (r =? 0) then fail_with "%s: chdir dd failed" [s]
    else
      r <- unlink (str "../dd") ;;
      if r <? 0 then fail_with "%s: unlink failed" [s]
      else printf (line "wait for kill and reclaim") [] ;;; sit.

Definition forphan_main (argv : list (list Z)) : prog Z :=
  let s := text_arg (arg_at argv 0) in
  let ff := str "file0" in
  fd <- open ff (Z.lor O_CREATE O_WRONLY) ;;
  if fd <? 0 then fail_with "%s: open failed" [s]
  else
    st <- fstat fd ;;
    match st with
    | None => fprintf 2 (line "%s: cannot stat %s") [s; text_arg (str "ff")] ;;; exit 1
    | Some st =>
        r <- unlink ff ;;
        if r <? 0 then fail_with "%s: unlink failed" [s]
        else
          r <- open ff O_RDONLY ;;
          if negb (r =? -1) then fail_with "%s: open successed" [s]
          else printf (line "wait for kill and reclaim %d") [Word (st_ino st)] ;;; sit
    end.

(** ** grind.c *)

(** The new context, which is also what [do_rand] returns. *)
Definition do_rand (ctx : Z) : Z :=
  let x := ctx mod 0x7ffffffe + 1 in
  let hi := x / 127773 in
  let lo := x mod 127773 in
  let x := 16807 * lo - 2836 * hi in
  let x := if x <? 0 then x + 0x7fffffff else x in
  x - 1.

(** The variables of [go] and rand_next. *)
Record grind := mk_grind { g_rand : Z; g_fd : Z; g_buf : list Z; g_iters : Z }.
Definition set_g_fd (g : grind) (fd : Z) : grind := mk_grind (g_rand g) fd (g_buf g) (g_iters g).
Definition set_g_buf (g : grind) (b : list Z) : grind := mk_grind (g_rand g) (g_fd g) b (g_iters g).

Definition RDWR_CREATE : Z := Z.lor O_CREATE O_RDWR.
Definition close_open (path : string) : prog unit := fd <- open (str path) RDWR_CREATE ;; close fd ;;; Ret tt.
Definition do_unlink (path : string) : prog unit := skip_val (unlink (str path)).
Definition do_mkdir (path : string) : prog unit := skip_val (mkdir (str path)).
Definition do_chdir (path : string) : prog unit := skip_val (chdir (str path)).
Definition do_link (old new : string) : prog unit := skip_val (link (str old) (str new)).

(** fork, with the code of the child; the parent goes on with its pid. *)
Definition fork_child (child : prog unit) : prog Z :=
  pid <- fork ;;
  if pid =? 0 then child ;;; exit 0
  else if pid <? 0 then fail_with "grind: fork failed" []
  else Ret pid.
Definition fork_wait (child : prog unit) : prog unit := fork_child child ;;; wait ;;; Ret tt.

Definition pipe_child (fds : Z * Z) : prog unit :=
  fork ;;;
  fork ;;;
  n <- write (snd fds) (str "x") ;;
  pwhen (negb (n =? 1)) (printf (line "grind: pipe write failed") []) ;;;
  c <- read (fst fds) 1 ;;
  pwhen (match c with Some [_] => false | _ => true end) (printf (line "grind: pipe read failed") []).

(** Case 21: a file that is created, written and looked at. *)
Definition create_c : prog unit :=
  do_unlink "c" ;;;
  fd1 <- open (str "c") RDWR_CREATE ;;
  if fd1 <? 0 then fail_with "grind: create c failed" []
  else
    n <- write fd1 (str "x") ;;
    if negb (n =? 1) then fail_with "grind: write c failed" []
    else
      st <- fstat fd1 ;;
      match st with
      | None => fail_with "grind: fstat failed" []
      | Some st =>
          if negb (st_size st =? 1) then fail_with "grind: fstat reports wrong size %d" [Word (i32 (st_size st))]
          else if 200 <? st_ino st then fail_with "grind: fstat reports crazy i-number %d" [Word (st_ino st)]
          else close fd1 ;;; do_unlink "c"
      end.

(** Case 22: echo hi | cat, with the output of cat on the pipe [bb]. *)
Definition ckpt (r want st : Z) : prog unit := pwhen (negb (r =? want)) (fprintf 2 (line "grind: dup failed") [] ;;; exit st).
Definition echo_child (aa bb : Z * Z) : prog unit :=
  close (fst bb) ;;; close (snd bb) ;;; close (fst aa) ;;; close 1 ;;;
  r <- dup (snd aa) ;; ckpt r 1 1 ;;;
  close (snd aa) ;;;
  exec (str "grindir/../echo") [str "echo"; str "hi"] ;;;
  fprintf 2 (line "grind: echo: not found") [] ;;;
  exit 2.
Definition cat_child (aa bb : Z * Z) : prog unit :=
  close (snd aa) ;;; close (fst bb) ;;; close 0 ;;;
  r <- dup (fst aa) ;; ckpt r 0 4 ;;;
  close (fst aa) ;;; close 1 ;;;
  r <- dup (snd bb) ;; ckpt r 1 5 ;;;
  close (snd bb) ;;;
  exec (str "/cat") [str "cat"] ;;;
  fprintf 2 (line "grind: cat: not found") [] ;;;
  exit 6.
Definition fork_or (st : Z) (child : prog unit) : prog unit :=
  pid <- fork ;;
  if pid =? 0 then child
  else pwhen (pid <? 0) (fprintf 2 (line "grind: fork failed") [] ;;; exit st).
(** [read(bb[0], buf+i, 1)] into a byte that is 0 before. *)
Definition read_byte (fd : Z) : prog Z := c <- read fd 1 ;; Ret (match c with Some (b :: _) => b | _ => 0 end).
Definition echo_cat : prog unit :=
  aa <- pipe ;;
  match aa with
  | None => fprintf 2 (line "grind: pipe failed") [] ;;; exit 1
  | Some aa =>
      bb <- pipe ;;
      match bb with
      | None => fprintf 2 (line "grind: pipe failed") [] ;;; exit 1
      | Some bb =>
          fork_or 3 (echo_child aa bb) ;;;
          fork_or 7 (cat_child aa bb) ;;;
          close (fst aa) ;;; close (snd aa) ;;; close (snd bb) ;;;
          b0 <- read_byte (fst bb) ;;
          b1 <- read_byte (fst bb) ;;
          b2 <- read_byte (fst bb) ;;
          close (fst bb) ;;;
          st1 <- wait ;;
          st2 <- wait ;;
          if negb (snd st1 =? 0) || negb (snd st2 =? 0) || negb (bool_decide (cstring [b0; b1; b2] = line "hi")) then
            printf (str "grind: exec pipeline failed %d %d " ++ [34] ++ str "%s" ++ [34; 10]) [Word (snd st1); Word (snd st2); text_arg (cstring [b0; b1; b2])] ;;; exit 1
          else Ret tt
      end
  end.

(** One action of [go]. *)
Definition act_on (what break0 : Z) (g : grind) : prog grind :=
  match what with
  | 1 => close_open "grindir/../a" ;;; Ret g
  | 2 => close_open "grindir/../grindir/../b" ;;; Ret g
  | 3 => do_unlink "grindir/../a" ;;; Ret g
  | 4 => r <- chdir (str "grindir") ;;
         pwhen (negb (r =? 0)) (fail_with "grind: chdir grindir failed" []) ;;;
         do_unlink "../b" ;;; do_chdir "/" ;;; Ret g
  | 5 => close (g_fd g) ;;; fd <- open (str "/grindir/../a") RDWR_CREATE ;; Ret (set_g_fd g fd)
  | 6 => close (g_fd g) ;;; fd <- open (str "/./grindir/./../b") RDWR_CREATE ;; Ret (set_g_fd g fd)
  | 7 => write (g_fd g) (g_buf g) ;;; Ret g
  | 8 => r <- read (g_fd g) 999 ;; Ret (match r with Some bs => set_g_buf g (bs ++ drop (length bs) (g_buf g)) | None => g end)
  | 9 => do_mkdir "grindir/../a" ;;; close_open "a/../a/./a" ;;; do_unlink "a/a" ;;; Ret g
  | 10 => do_mkdir "/../b" ;;; close_open "grindir/../b/b" ;;; do_unlink "b/b" ;;; Ret g
  | 11 => do_unlink "b" ;;; do_link "../grindir/./../a" "../b" ;;; Ret g
  | 12 => do_unlink "../grindir/../a" ;;; do_link ".././b" "/grindir/../a" ;;; Ret g
  | 13 => fork_wait (Ret tt) ;;; Ret g
  | 14 => fork_wait (fork ;;; fork ;;; Ret tt) ;;; Ret g
  | 15 => sbrk 6011 ;;; Ret g
  | 16 => b <- sbrk 0 ;; pwhen (break0 <? b) (b <- sbrk 0 ;; skip_val (sbrk (- (b - break0)))) ;;; Ret g
  | 17 => pid <- fork_child (close_open "a") ;;
          r <- chdir (str "../grindir/..") ;;
          pwhen (negb (r =? 0)) (fail_with "grind: chdir failed" []) ;;;
          kill pid ;;; wait ;;; Ret g
  | 18 => fork_wait (pid <- getpid ;; skip_val (kill pid)) ;;; Ret g
  | 19 => p <- pipe ;;
          match p with
          | None => fail_with "grind: pipe failed" []
          | Some fds => fork_child (pipe_child fds) ;;; close (fst fds) ;;; close (snd fds) ;;; wait ;;; Ret g
          end
  | 20 => fork_wait (do_unlink "a" ;;; do_mkdir "a" ;;; do_chdir "a" ;;; do_unlink "../a" ;;;
                     skip_val (open (str "x") RDWR_CREATE) ;;; do_unlink "x") ;;; Ret g
  | 21 => create_c ;;; Ret g
  | 22 => echo_cat ;;; Ret g
  | _ => Ret g
  end.

Definition go_step (which_child break0 : Z) (g : grind) : prog (grind + Empty_set) :=
  let iters := u64 (g_iters g + 1) in
  pwhen (iters mod 500 =? 0) (skip_val (write 1 (str (if which_child =? 0 then "A" else "B")))) ;;;
  let x := do_rand (g_rand g) in
  g <- act_on (x mod 23) break0 (mk_grind x (g_fd g) (g_buf g) iters) ;;
  Ret (inl g).
Definition go (which_child rand_next : Z) : prog Empty_set :=
  break0 <- sbrk 0 ;;
  do_mkdir "grindir" ;;;
  r <- chdir (str "grindir") ;;
  pwhen (negb (r =? 0)) (fail_with "grind: chdir grindir failed" []) ;;;
  do_chdir "/" ;;;
  ITree.iter (go_step which_child break0) (mk_grind rand_next (-1) (replicate 999 0) 0).

Definition iter (rand_next : Z) : prog Empty_set :=
  do_unlink "a" ;;;
  do_unlink "b" ;;;
  pid1 <- fork ;;
  if pid1 <? 0 then fail_with "grind: fork failed" []
  else if pid1 =? 0 then go 0 (Z.lxor rand_next 31)
  else
    pid2 <- fork ;;
    if pid2 <? 0 then fail_with "grind: fork failed" []
    else if pid2 =? 0 then go 1 (Z.lxor rand_next 7177)
    else
      r1 <- wait ;;
      let st1 := if fst r1 <? 0 then -1 else snd r1 in
      pwhen (negb (st1 =? 0)) (kill pid1 ;;; skip_val (kill pid2)) ;;;
      wait ;;;
      exit 0.

Definition grind_main : prog Z :=
  ITree.iter (fun rand_next =>
    pid <- fork ;;
    if pid =? 0 then ITree.bind (iter rand_next) (fun x => match x with end)
    else
      pwhen (0 <? pid) (wait ;;; Ret tt) ;;;
      pause 20 ;;;
      Ret (inl (u64 (rand_next + 1)))) 1.

(** ** The generator *)

(** Schrage's decomposition of the modulus: the value computed is not 0. *)
Lemma schrage_nonzero hi lo : 0 <= lo < 127773 -> 0 <= hi -> 1 <= 127773 * hi + lo <= 2 ^ 31 - 2 -> 16807 * lo - 2836 * hi <> 0.
Proof.
  intros Hlo Hhi Hx E. assert (Hd : (16807 | 2836 * hi)) by (exists lo; lia).
  apply Z.gauss in Hd as [k ->]; [|reflexivity]. assert (k = 0 \/ k = 1) as [-> | ->] by lia; lia.
Qed.

(** [do_rand] is the minimal standard generator of Park and Miller: for every
    context it computes one step of x -> 7^5 x mod (2^31 - 1), shifted to start at
    0, its result is a context again, and none of its products leaves 31 bits. *)
Theorem do_rand_park_miller ctx :
  let x := ctx mod (2 ^ 31 - 2) + 1 in
  do_rand ctx = (7 ^ 5 * x) mod (2 ^ 31 - 1) - 1 /\ 0 <= do_rand ctx < 2 ^ 31 - 2 /\
  0 <= 16807 * (x mod 127773) < 2 ^ 31 /\ 0 <= 2836 * (x / 127773) < 2 ^ 31.
Proof.
  intros x. change (7 ^ 5) with 16807. assert (Hx : 1 <= x <= 2 ^ 31 - 2) by (unfold x; pose proof (Z.mod_pos_bound ctx (2 ^ 31 - 2)); lia).
  unfold do_rand. change 0x7ffffffe with (2 ^ 31 - 2). fold x.
  pose proof (Z.mod_pos_bound x 127773 ltac:(lia)) as Hlo. pose proof (Z.div_mod x 127773 ltac:(lia)) as Ex.
  assert (Hhi : 0 <= x / 127773 <= 16807) by (split; [apply Z.div_pos; lia|apply Z.lt_succ_r, Z.div_lt_upper_bound; lia]).
  set (hi := x / 127773) in *. set (lo := x mod 127773) in *. clearbody hi lo.
  pose proof (schrage_nonzero hi lo Hlo ltac:(lia) ltac:(lia)) as Hne.
  destruct (Z.ltb_spec (16807 * lo - 2836 * hi) 0) as [Hlt|Hge].
  - assert (E : 16807 * lo - 2836 * hi + 0x7fffffff = (16807 * x) mod (2 ^ 31 - 1)) by (apply (Z.mod_unique_pos _ _ (hi - 1)); lia).
    rewrite <- E. lia.
  - assert (E : 16807 * lo - 2836 * hi = (16807 * x) mod (2 ^ 31 - 1)) by (apply (Z.mod_unique_pos _ _ hi); lia).
    rewrite <- E. lia.
Qed.
