(* ===== verification/ShRun.v ===== *)
(** * Running commands (user/sh.c)

    [runcmd], [getcmd], [fork1], [panic] and [main] of the shell, with the
    system calls they make.  The command is the tree of [Sh]; its strings are in
    the buffer [b] that [nulterminate] has cut up.  [runcmd] does not return. *)

From stdpp Require Import base list numbers strings.
From Stdlib Require Import ZArith Lia.
From ITree Require Import Core.ITreeDefinition Indexed.Sum.
From S2P Require Import Prelude Printf Sh Usys.
Open Scope Z_scope.
Open Scope prog_scope.

(** A program that does not return, where one that may is expected. *)
Definition noreturn {A} (p : prog Empty_set) : prog A := ITree.bind p (fun x => match x with end).

Definition sh_panic {A} (s : list Z) : prog A := fprintf 2 (line "%s") [Str (Some s)] ;;; exit 1.

Definition fork1 : prog Z :=
  pid <- fork ;;
  if pid =? -1 then sh_panic (str "fork") else Ret pid.

Fixpoint runcmd (b : list Z) (c : cmd) : prog Empty_set :=
  match c with
  | EXEC argv =>
      match argv with
      | [] => exit 1
      | (p, _) :: _ =>
          exec (cstr b p) (map (fun w => cstr b w.1) argv) ;;;
          fprintf 2 (line "exec %s failed") [Str (Some (cstr b p))] ;;;
          exit 0
      end
  | REDIR c r =>
      close (r_fd r) ;;;
      fd <- open (cstr b (r_file r)) (r_mode r) ;;
      if fd <? 0 then fprintf 2 (line "open %s failed") [Str (Some (cstr b (r_file r)))] ;;; exit 1
      else runcmd b c
  | LIST l r =>
      pid <- fork1 ;;
      if pid =? 0 then runcmd b l
      else wait ;;; runcmd b r
  | PIPE l r =>
      p <- pipe ;;
      match p with
      | None => sh_panic (str "pipe")
      | Some (p0, p1) =>
          pid <- fork1 ;;
          if pid =? 0 then
            close 1 ;;;
            dup p1 ;;;
            close p0 ;;;
            close p1 ;;;
            runcmd b l
          else
            pid <- fork1 ;;
            if pid =? 0 then
              close 0 ;;;
              dup p0 ;;;
              close p0 ;;;
              close p1 ;;;
              runcmd b r
            else
              close p0 ;;;
              close p1 ;;;
              wait ;;;
              wait ;;;
              exit 0
      end
  | BACK c =>
      pid <- fork1 ;;
      if pid =? 0 then runcmd b c else exit 0
  end.

(** The command line, or [None] at the end of the input. *)
Definition getcmd (nbuf : nat) : prog (option (list Z)) :=
  write 2 (str "$ ") ;;;
  buf <- ugets nbuf ;;
  let buf := cstr buf 0 in
  Ret (match buf with [] => None | _ => Some buf end).

(** The blanks and tabs before the command. *)
Fixpoint skip_blanks (cmd : list Z) : list Z :=
  match cmd with
  | c :: rest => if (c =? 32) || (c =? 9) then skip_blanks rest else cmd
  | [] => []
  end.

(** The child that runs a line.  A line that does not parse ends it with the
    parser's message. *)
Definition run_line (cmd : list Z) : prog Empty_set :=
  match parsecmd cmd with
  | Ok (c, b) _ => runcmd b c
  | Panic msg => sh_panic (str msg)
  | _ => exit 1
  end.

(** One round of the loop of [main]: [Some tt] at the end of the input. *)
Definition sh_round : prog (option unit) :=
  buf <- getcmd 100 ;;
  match buf with
  | None => Ret (Some tt)
  | Some buf =>
      let cmd := skip_blanks buf in
      match cmd with
      | 10 :: _ => Ret None
      | 99 :: 100 :: 32 :: _ =>
          let dir := drop 3 (take (length cmd - 1) cmd) in
          r <- chdir dir ;;
          pwhen (r <? 0) (fprintf 2 (line "cannot cd %s") [Str (Some dir)]) ;;;
          Ret None
      | _ =>
          pid <- fork1 ;;
          pwhen (pid =? 0) (noreturn (run_line cmd)) ;;;
          wait ;;;
          Ret None
      end
  end.

(** Descriptors 0, 1 and 2 are open when the loop ends. *)
Definition open_console : prog unit :=
  forever (
    fd <- open (str "console") O_RDWR ;;
    if fd <? 0 then Ret (Some tt)
    else if 3 <=? fd then close fd ;;; Ret (Some tt)
    else Ret None).

Definition sh_main : prog Z :=
  open_console ;;;
  forever sh_round ;;;
  exit 0.
