(* ===== verification/ShProc.v ===== *)
(** * Processes and their descriptors

    A run of a program is the tree of the processes it forks, with what each of
    them does to its descriptors.  A process changes its own table only and a
    fork copies it, so that the tree is the same under every interleaving.  The
    kernel may refuse [fork], [pipe], [open] and [exec]; [open], [dup] and [pipe]
    use the lowest free descriptors.  A pipe is named by the process that
    creates it, which makes the names of different pipes different. *)

From stdpp Require Import base list numbers strings.
From Stdlib Require Import ZArith Lia.
From ITree Require Import Core.ITreeDefinition Indexed.Sum.
From S2P Require Import Prelude Printf Usys Utrace.
Open Scope Z_scope.
Open Scope prog_scope.

(** ** Descriptor tables *)

(** A process by its place in the tree of forks, a pipe by its creator and a
    number. *)
Definition pname : Set := list nat.
Inductive obj :=
  | Given (k : Z)
  | OFile (path : list Z) (mode : Z)
  | PipeR (p : pname) (k : nat)
  | PipeW (p : pname) (k : nat).
#[export] Instance obj_eq_dec : EqDecision obj.
Proof. solve_decision. Defined.
Notation fdtable := (list (option obj)).

Definition fd_at (F : fdtable) (fd : Z) : option obj := if 0 <=? fd then mjoin (F !! Z.to_nat fd) else None.
Definition fd_close (F : fdtable) (fd : Z) : fdtable := <[Z.to_nat fd := None]> F.
Fixpoint fdalloc (F : fdtable) (o : obj) : option (nat * fdtable) :=
  match F with
  | [] => None
  | None :: F => Some (0%nat, Some o :: F)
  | Some x :: F => match fdalloc F o with Some (i, F') => Some (S i, Some x :: F') | None => None end
  end.

(** ** Runs *)

(** A process: its table, its name, and how many processes and pipes it has
    made. *)
Record proc := mk_proc { table : fdtable; name : pname; made : nat }.
Definition with_table (p : proc) (F : fdtable) : proc := mk_proc F (name p) (made p).
Definition child_of (p : proc) : proc := mk_proc (table p) (made p :: name p) 0.
Definition next_made (p : proc) : proc := mk_proc (table p) (name p) (S (made p)).

(** What the rest of the system sees of a process. *)
Inductive act :=
  | DidExec (path : list Z) (argv : list (list Z)) (F : fdtable)
  | DidFork (child : list act)
  | DidWait (F : fdtable)
  | DidExit (status : Z) (F : fdtable)
  | DidWrite (fd : Z) (bytes : list Z).

(** What a call other than fork, exec and exit does to the process, and the
    answer. *)
Definition did {X} (e : sysE X) (p : proc) : list act :=
  match e with
  | Wait => [DidWait (table p)]
  | Write fd bs => [DidWrite fd bs]
  | _ => []
  end.
(** Calls that leave the descriptors alone. *)
Definition plain {X} (e : sysE X) : bool :=
  match e with
  | Wait | Write _ _ | Read _ _ | Kill _ | Mknod _ _ _ | Unlink _ | Fstat _ | Link _ _ | Mkdir _ | Chdir _
  | Getpid | Sbrk _ _ | Pause _ | Uptime => true
  | Fork | Exit _ | Pipe | Close _ | Exec _ _ | Open _ _ | Dup _ => false
  end.
Inductive answers (p : proc) : forall {X}, sysE X -> X -> proc -> Prop :=
  | an_close fd o : fd_at (table p) fd = Some o -> answers p (Close fd) 0 (with_table p (fd_close (table p) fd))
  | an_close_bad fd : fd_at (table p) fd = None -> answers p (Close fd) (-1) p
  | an_open path mode i F : fdalloc (table p) (OFile path mode) = Some (i, F) -> answers p (Open path mode) (Z.of_nat i) (with_table p F)
  | an_open_bad path mode : answers p (Open path mode) (-1) p
  | an_dup fd o i F : fd_at (table p) fd = Some o -> fdalloc (table p) o = Some (i, F) -> answers p (Dup fd) (Z.of_nat i) (with_table p F)
  | an_dup_closed fd : fd_at (table p) fd = None -> answers p (Dup fd) (-1) p
  | an_dup_full fd o : fd_at (table p) fd = Some o -> fdalloc (table p) o = None -> answers p (Dup fd) (-1) p
  | an_pipe i j F F' : fdalloc (table p) (PipeR (name p) (made p)) = Some (i, F) -> fdalloc F (PipeW (name p) (made p)) = Some (j, F') ->
      answers p Pipe (Some (Z.of_nat i, Z.of_nat j)) (next_made (with_table p F'))
  | an_pipe_bad : answers p Pipe None p
  | an_plain X (e : sysE X) a : plain e = true -> answers p e a p.

(** The complete runs of a program: they end with [exit] or [exec].  The number
    bounds the steps. *)
Inductive runs {A} : nat -> prog A -> proc -> list act -> Prop :=
  | run_tau n t t' p l : observe t = TauF t' -> runs n t' p l -> runs (S n) t p l
  | run_exit n t st k p : observe t = VisF (Exit st) k -> runs (S n) t p [DidExit st (table p)]
  | run_exec n t path argv k p : observe t = VisF (Exec path argv) k -> runs (S n) t p [DidExec path argv (table p)]
  | run_exec_bad n t path argv k p l : observe t = VisF (Exec path argv) k -> runs n (k (-1)) p l -> runs (S n) t p l
  | run_fork n t k p pid child l : observe t = VisF Fork k -> 0 < pid ->
      runs n (k 0) (child_of p) child -> runs n (k pid) (next_made p) l -> runs (S n) t p (DidFork child :: l)
  | run_fork_bad n t k p l : observe t = VisF Fork k -> runs n (k (-1)) p l -> runs (S n) t p l
  | run_call n t X (e : sysE X) k a p p' l : observe t = VisF e k -> answers p e a p' -> runs n (k a) p' l -> runs (S n) t p (did e p ++ l).
Definition run {A} (t : prog A) (p : proc) (l : list act) : Prop := exists n, runs n t p l.

(** The rules by the kind of the call, over the runs [R] of what follows it. *)
Definition run_vis {A X} (R : prog A -> proc -> list act -> Prop) (e : sysE X) (k : X -> prog A) (p : proc) (l : list act) : Prop :=
  match e in sysE X return (X -> prog A) -> Prop with
  | Exit st => fun _ => l = [DidExit st (table p)]
  | Exec path argv => fun k => l = [DidExec path argv (table p)] \/ R (k (-1)) p l
  | Fork => fun k => R (k (-1)) p l \/
      exists pid child l', 0 < pid /\ l = DidFork child :: l' /\ R (k 0) (child_of p) child /\ R (k pid) (next_made p) l'
  | e => fun k => exists a p' l', answers p e a p' /\ l = did e p ++ l' /\ R (k a) p' l'
  end k.

Lemma runs_mono {A} n m (t : prog A) p l : runs n t p l -> (n <= m)%nat -> runs m t p l.
Proof.
  intros H. revert m. induction H; intros m Hm; (destruct m; [lia|]); try (by econstructor).
  all: econstructor; try done; (match goal with IH : forall _, _ -> _ |- _ => apply IH end; lia).
Qed.

Lemma run_vis_mono {A X} (R R' : prog A -> proc -> list act -> Prop) (e : sysE X) k k' p l :
  (forall a p l, R (k a) p l -> R' (k' a) p l) -> run_vis R e k p l -> run_vis R' e k' p l.
Proof. intros H. destruct e; cbn; naive_solver. Qed.

Lemma runs_inv {A} n (t : prog A) p l : runs n t p l ->
  match observe t with
  | RetF _ => False
  | TauF t' => exists m, n = S m /\ runs m t' p l
  | VisF e k => exists m, n = S m /\ run_vis (runs m) e k p l
  end.
Proof.
  destruct 1 as [n t t' p l E H|n t st k p E|n t path argv k p E|n t path argv k p l E H|n t k p pid child l E Hp Hc H|n t k p l E H|n t X e k a p p' l E Ha H];
    rewrite E; eauto; exists n; (split; [done|]); cbn; eauto 10.
  destruct Ha; cbn; eauto 10 using @answers. destruct e; try done; cbn; eauto 10 using @answers.
Qed.

Lemma run_vis_intro {A X} (e : sysE X) (k : X -> prog A) n t p l : observe t = VisF e k -> run_vis (runs n) e k p l -> runs (S n) t p l.
Proof.
  intros E H. destruct e; cbn [run_vis] in H; (try by destruct H as (a & p' & l' & Ha & -> & H); exact (run_call _ _ _ _ _ _ _ _ _ E Ha H)).
  - destruct H as [H|(pid & child & l' & Hp & -> & Hc & H)]; [by eapply run_fork_bad|by eapply run_fork].
  - subst l. by eapply run_exit.
  - destruct H as [->|H]; [by eapply run_exec|by eapply run_exec_bad].
Qed.

(** ** Reasoning about runs *)

Lemma run_observe {A} (t u : prog A) p l : observe t = observe u -> run t p l -> run u p l.
Proof.
  intros E [n H]. exists n. revert E. destruct H; intros E'; rewrite E' in *.
  all: econstructor; done.
Qed.

Lemma run_call_iff {A X} (e : sysE X) (k : X -> prog A) t p l : observe t = VisF e k -> run t p l <-> run_vis run e k p l.
Proof.
  intros E. split.
  - intros [n H]. apply runs_inv in H. rewrite E in H. destruct H as (m & -> & H). revert H. apply run_vis_mono. by exists m.
  - intros H. assert (Hn : exists n, run_vis (runs n) e k p l).
    { destruct e; cbn [run_vis] in *; unfold run in *; try (destruct H as (a & p' & l' & Ha & El & h & H); by exists h, a, p', l').
      - destruct H as [[n H]|(pid & child & l' & Hp & -> & [n Hc] & m & H)]; [exists n; by left|].
        exists (n + m)%nat. right. exists pid, child, l'. split_and!; [done|done| |]; (eapply runs_mono; [done|lia]).
      - by exists 0%nat.
      - destruct H as [->|[n H]]; [exists 0%nat; by left|exists n; by right]. }
    destruct Hn as [n Hn]. exists (S n). by eapply run_vis_intro.
Qed.

(** Trees that match step by step have the same runs. *)
Definition matching {A} (R : prog A -> prog A -> Prop) (t u : prog A) : Prop :=
  observe t = observe u \/ (exists t' u', observe t = TauF t' /\ observe u = TauF u' /\ R t' u') \/
  exists X (e : sysE X) k k', observe t = VisF e k /\ observe u = VisF e k' /\ forall x, R (k x) (k' x).

Lemma run_match {A} (R : prog A -> prog A -> Prop) : (forall t u, R t u -> matching R t u) ->
  forall t u p l, R t u -> run t p l -> run u p l.
Proof.
  intros HR t u p l Hr [n H]. revert t u p l Hr H. induction n as [|n IH]; intros t u p l Hr H; [by inversion H|].
  destruct (HR t u Hr) as [E|[(t' & u' & Et & Eu & Hr')|(X & e & k & k' & Et & Eu & Hr')]].
  - eapply run_observe; [done|by eexists].
  - apply runs_inv in H. rewrite Et in H. destruct H as (m & [= <-] & H). destruct (IH _ _ _ _ Hr' H) as [m Hm]. exists (S m). by eapply run_tau.
  - apply runs_inv in H. rewrite Et in H. destruct H as (m & [= <-] & H). apply (run_call_iff e k' u p l Eu). revert H. apply run_vis_mono. eauto.
Qed.

(** The laws of [bind] that the proofs use. *)
Section bind_laws.
Context {A B C : Type} (f : A -> prog B) (k : B -> prog C).

Inductive assoc_l : prog C -> prog C -> Prop :=
  | as_l t : assoc_l (ITree.bind (ITree.bind t f) k) (ITree.bind t (fun x => ITree.bind (f x) k)).
Inductive assoc_r : prog C -> prog C -> Prop :=
  | as_r t : assoc_r (ITree.bind t (fun x => ITree.bind (f x) k)) (ITree.bind (ITree.bind t f) k).

Lemma assoc_l_matching t u : assoc_l t u -> matching assoc_l t u.
Proof using.
  destruct 1 as [t]. unfold matching. rewrite !observe_bind. destruct (observe t) as [a|t'|X e ke].
  - left. by rewrite !observe_bind.
  - right. left. eexists _, _. split_and!; [done|done|constructor].
  - right. right. eexists X, e, _, _. split_and!; [done|done|constructor].
Qed.
Lemma assoc_r_matching t u : assoc_r t u -> matching assoc_r t u.
Proof using.
  destruct 1 as [t]. unfold matching. rewrite !observe_bind. destruct (observe t) as [a|t'|X e ke].
  - left. by rewrite !observe_bind.
  - right. left. eexists _, _. split_and!; [done|done|constructor].
  - right. right. eexists X, e, _, _. split_and!; [done|done|constructor].
Qed.

Lemma run_assoc t p l : run (ITree.bind (ITree.bind t f) k) p l <-> run (ITree.bind t (fun x => ITree.bind (f x) k)) p l.
Proof using. split; [apply (run_match _ assoc_l_matching)|apply (run_match _ assoc_r_matching)]; constructor. Qed.
End bind_laws.

Lemma run_ret {A B} (a : A) (k : A -> prog B) p l : run (ITree.bind (Ret a) k) p l <-> run (k a) p l.
Proof. split; apply run_observe; by rewrite observe_bind. Qed.

Lemma run_sys {A X} (e : sysE X) (k : X -> prog A) p l : run (x <- ITree.trigger e ;; k x) p l <-> run_vis run e k p l.
Proof.
  rewrite (run_call_iff e (fun x => ITree.bind (Ret x) k)); [|done].
  split; apply run_vis_mono; intros a q l'; apply run_ret.
Qed.

Lemma run_exit_iff {A} st p l : run (A := A) (exit st) p l <-> l = [DidExit st (table p)].
Proof. by rewrite (run_call_iff (Exit st)). Qed.
