(* ===== verification/ShRunSpec.v ===== *)
(** * What the shell does with a command

    The meaning of a command, in terms of processes and what their descriptors
    refer to, and the proof that [runcmd] gives every command its meaning: the
    calls of close, open, dup and pipe put the right file or end of a pipe on
    descriptors 0 and 1 and leave no other end of a pipe open. *)

From stdpp Require Import base list numbers strings.
From Stdlib Require Import ZArith Lia.
From ITree Require Import Core.ITreeDefinition Indexed.Sum.
From S2P Require Import Prelude Printf Sh ShSpec Usys Utrace ShProc ShRun.
Open Scope Z_scope.
Open Scope prog_scope.

(** ** The meaning of commands *)

Definition says (fd : Z) (text : list Z) : list act := map (fun c => DidWrite fd [u8 c]) text.
(** A message about a name on standard error, and the end of the process. *)
Definition complains (fmt : string) (w : list Z) (st : Z) (F : fdtable) : list act :=
  says 2 (vprintf (Printf.line fmt) [Str (Some w)]) ++ [DidExit st F].
Definition panics (msg : string) (F : fdtable) : list act := complains "%s" (str msg) 1 F.

Definition set_fd (p : proc) (fd : nat) (o : obj) : proc := with_table p (<[fd := Some o]> (table p)).

(** The table of the shell between the creation of a pipe and the closing of
    its ends. *)
Definition piped (p : proc) : option (nat * nat * fdtable) :=
  match fdalloc (table p) (PipeR (name p) (made p)) with
  | Some (i, F) => match fdalloc F (PipeW (name p) (made p)) with Some (j, F') => Some (i, j, F') | None => None end
  | None => None
  end.

Inductive means : acmd -> proc -> list act -> Prop :=
  | m_nothing p : means (AExec []) p [DidExit 1 (table p)]
  | m_exec w ws p : means (AExec (w :: ws)) p [DidExec w (w :: ws) (table p)]
  | m_exec_bad w ws p : means (AExec (w :: ws)) p (complains "exec %s failed" w 0 (table p))
  | m_redir c f m fd p l : means c (set_fd p (Z.to_nat fd) (OFile f m)) l -> means (ARedir c f m fd) p l
  | m_redir_bad c f m fd p : means (ARedir c f m fd) p (complains "open %s failed" f 1 (fd_close (table p) fd))
  | m_list l r p first rest : means l (child_of p) first -> means r (next_made p) rest ->
      means (AList l r) p (DidFork first :: DidWait (table p) :: rest)
  | m_list_bad l r p : means (AList l r) p (panics "fork" (table p))
  | m_pipe l r p q left right : piped p = Some q ->
      means l (set_fd (child_of (next_made p)) 1 (PipeW (name p) (made p))) left ->
      means r (set_fd (child_of (next_made (next_made p))) 0 (PipeR (name p) (made p))) right ->
      means (APipe l r) p [DidFork left; DidFork right; DidWait (table p); DidWait (table p); DidExit 0 (table p)]
  | m_pipe_bad l r p : means (APipe l r) p (panics "pipe" (table p))
  | m_pipe_bad1 l r p i j F : piped p = Some (i, j, F) -> means (APipe l r) p (panics "fork" F)
  | m_pipe_bad2 l r p i j F left : piped p = Some (i, j, F) ->
      means l (set_fd (child_of (next_made p)) 1 (PipeW (name p) (made p))) left -> means (APipe l r) p (DidFork left :: panics "fork" F)
  | m_back c p l : means c (child_of p) l -> means (ABack c) p [DidFork l; DidExit 0 (table p)]
  | m_back_bad c p : means (ABack c) p (panics "fork" (table p)).

(** Descriptors 0 and 1 are open, and redirections are of these two. *)
Definition std (p : proc) : Prop := exists a b G, table p = Some a :: Some b :: G.
Fixpoint std_redirs (c : acmd) : Prop :=
  match c with
  | AExec _ => True
  | ARedir c _ _ fd => (fd = 0 \/ fd = 1) /\ std_redirs c
  | APipe l r | AList l r => std_redirs l /\ std_redirs r
  | ABack c => std_redirs c
  end.

(** ** The calls of the shell *)

Lemma answers_inv p X (e : sysE X) a p' : answers p e a p' ->
  match e in sysE X return X -> Prop with
  | Close fd => fun a => match fd_at (table p) fd with Some _ => a = 0 /\ p' = with_table p (fd_close (table p) fd) | None => a = -1 /\ p' = p end
  | Open path mode => fun a => (a = -1 /\ p' = p) \/
      exists i F, fdalloc (table p) (OFile path mode) = Some (i, F) /\ a = Z.of_nat i /\ p' = with_table p F
  | Dup fd => fun a =>
      match fd_at (table p) fd with
      | Some o => match fdalloc (table p) o with Some (i, F) => a = Z.of_nat i /\ p' = with_table p F | None => a = -1 /\ p' = p end
      | None => a = -1 /\ p' = p
      end
  | Pipe => fun a => (a = None /\ p' = p) \/
      exists i j F, piped p = Some (i, j, F) /\ a = Some (Z.of_nat i, Z.of_nat j) /\ p' = next_made (with_table p F)
  | Wait => fun _ => p' = p
  | Write _ _ => fun _ => p' = p
  | _ => fun _ => True
  end a.
Proof.
  destruct 1 as [fd o E|fd E|path mode i F E|path mode|fd o i F E E'|fd E|fd o E E'|i j F F' E E'| |X e a E]; cbn; rewrite ?E, ?E'; eauto 10.
  - right. exists i, j, F'. unfold piped. by rewrite E, E'.
  - by destruct e.
Qed.

Section calls.
Context {A : Type} (p : proc) (l : list act).

Lemma run_close fd o (k : prog A) : fd_at (table p) fd = Some o -> run (close fd ;;; k) p l <-> run k (with_table p (fd_close (table p) fd)) l.
Proof using.
  intros E. rewrite (run_sys (Close fd)). cbn [run_vis]. split.
  - intros (a & p' & l' & Ha & -> & H). apply answers_inv in Ha. rewrite E in Ha. by destruct Ha as [-> ->].
  - intros H. exists 0. eexists _, l. split_and!; [by eapply an_close|done|done].
Qed.

Lemma run_dup fd o i F (k : prog A) : fd_at (table p) fd = Some o -> fdalloc (table p) o = Some (i, F) ->
  run (dup fd ;;; k) p l <-> run k (with_table p F) l.
Proof using.
  intros E E'. rewrite (run_sys (Dup fd)). cbn [run_vis]. split.
  - intros (a & p' & l' & Ha & -> & H). apply answers_inv in Ha. rewrite E, E' in Ha. by destruct Ha as [-> ->].
  - intros H. eexists _, _, l. split_and!; [by eapply an_dup|done|done].
Qed.

Lemma run_open path mode i F (k : Z -> prog A) : fdalloc (table p) (OFile path mode) = Some (i, F) ->
  run (fd <- open path mode ;; k fd) p l <-> run (k (-1)) p l \/ run (k (Z.of_nat i)) (with_table p F) l.
Proof using.
  intros E. rewrite (run_sys (Open path mode)). cbn [run_vis]. split.
  - intros (a & p' & l' & Ha & -> & H). apply answers_inv in Ha as [[-> ->]|(i' & F' & E' & -> & ->)]; [by left|right]. rewrite E in E'. by injection E' as <- <-.
  - intros [H|H]; [exists (-1), p, l; by split_and!; [apply an_open_bad| |]|exists (Z.of_nat i), (with_table p F), l; by split_and!; [apply an_open| |]].
Qed.

Lemma run_wait (k : prog A) : run (wait ;;; k) p l <-> exists l', l = DidWait (table p) :: l' /\ run k p l'.
Proof using.
  rewrite (run_sys Wait). cbn [run_vis]. split.
  - intros (a & p' & l' & Ha & -> & H). apply answers_inv in Ha as ->. by exists l'.
  - intros (l' & -> & H). exists (0, 0), p, l'. split_and!; [by apply an_plain|done|done].
Qed.

Lemma run_pipe (k : option (Z * Z) -> prog A) : run (x <- pipe ;; k x) p l <->
  run (k None) p l \/ exists i j F, piped p = Some (i, j, F) /\ run (k (Some (Z.of_nat i, Z.of_nat j))) (next_made (with_table p F)) l.
Proof using.
  rewrite (run_sys Pipe). cbn [run_vis]. split.
  - intros (a & p' & l' & Ha & -> & H). apply answers_inv in Ha as [[-> ->]|(i & j & F & E & -> & ->)]; [by left|right; by exists i, j, F].
  - intros [H|(i & j & F & E & H)]; [exists None, p, l; by split_and!; [apply an_pipe_bad| |]|].
    eexists _, _, l. split_and!; [|done|exact H]. unfold piped in E.
    destruct (fdalloc (table p) _) as [[i' F']|] eqn:E1; [|done]. destruct (fdalloc F' _) as [[j' F'']|] eqn:E2; [|done].
    injection E as -> -> ->. by eapply an_pipe.
Qed.
End calls.

Lemma run_fprintf {A} fd fmt args (k : prog A) p l :
  run (fprintf fd fmt args ;;; k) p l <-> exists l', l = says fd (vprintf fmt args) ++ l' /\ run k p l'.
Proof.
  unfold fprintf. generalize (vprintf fmt args) as t. intros t. revert l. induction t as [|c t IH]; intros l; cbn [each says map app].
  - rewrite run_ret. split; [by exists l|]. by intros (l' & -> & H).
  - unfold putc. rewrite run_assoc, run_assoc, (run_sys (Write fd [u8 c])). cbn [run_vis]. split.
    + intros (a & p' & l' & Ha & -> & H). apply answers_inv in Ha as ->. apply run_ret, IH in H as (l'' & -> & H). by exists l''.
    + intros (l' & -> & H). exists 0, p, (says fd t ++ l'). split_and!; [by apply an_plain|done|]. apply run_ret, IH. by exists l'.
Qed.

Lemma run_exit_bind {A B} st (k : A -> prog B) p l : run (ITree.bind (exit st) k) p l <-> l = [DidExit st (table p)].
Proof. apply (run_call_iff (Exit st) (fun x => ITree.bind match x with end k)). by rewrite observe_bind. Qed.

Lemma run_panic {A B} s (k : A -> prog B) p l : run (ITree.bind (sh_panic s) k) p l <-> l = complains "%s" s 1 (table p).
Proof.
  unfold sh_panic. rewrite run_assoc, run_fprintf. setoid_rewrite run_exit_bind. unfold complains. naive_solver.
Qed.

Lemma run_fork1 {A} (k : Z -> prog A) p l : run (pid <- fork1 ;; k pid) p l <->
  l = panics "fork" (table p) \/
  exists pid child l', 0 < pid /\ l = DidFork child :: l' /\ run (k 0) (child_of p) child /\ run (k pid) (next_made p) l'.
Proof.
  unfold fork1. rewrite run_assoc, (run_sys Fork). cbn [run_vis]. cbn [Z.eqb Pos.eqb]. rewrite run_panic.
  split; (intros [->|(pid & child & l' & Hp & -> & Hc & H)]; [by left|right]); exists pid, child, l'; (split_and!; [done|done| |]).
  - by rewrite run_ret in Hc.
  - destruct (Z.eqb_spec pid (-1)); [lia|]. by rewrite run_ret in H.
  - by rewrite run_ret.
  - destruct (Z.eqb_spec pid (-1)); [lia|]. by rewrite run_ret.
Qed.

(** ** Descriptors of a pipe *)

Lemma fdalloc_spec F o i F' : fdalloc F o = Some (i, F') -> F !! i = Some None /\ F' = <[i := Some o]> F.
Proof.
  revert i F'. induction F as [|[x|] F IH]; intros i F' E; cbn in E; [done| |by injection E as <- <-].
  destruct (fdalloc F o) as [[j F'']|]; [|done]. injection E as <- <-. destruct (IH j F'' eq_refl) as [H ->]. done.
Qed.

(** Standard input and output, the other descriptors, and where among them the
    ends of the new pipe are. *)
Record pipe_at (p : proc) (a b : obj) (G : fdtable) (i j : nat) (F : fdtable) : Prop := {
  pa_table : table p = Some a :: Some b :: G;
  pa_r : G !! i = Some None;
  pa_w : G !! j = Some None;
  pa_ne : i <> j;
  pa_after : F = Some a :: Some b :: <[j := Some (PipeW (name p) (made p))]> (<[i := Some (PipeR (name p) (made p))]> G) }.

Lemma piped_std p a b G i j F : table p = Some a :: Some b :: G -> piped p = Some (i, j, F) ->
  exists i' j', i = S (S i') /\ j = S (S j') /\ pipe_at p a b G i' j' F.
Proof.
  intros Et E. unfold piped in E. rewrite Et in E. cbn [fdalloc] in E. destruct (fdalloc G _) as [[i' G1]|] eqn:E1; [|done].
  cbn [fdalloc] in E. destruct (fdalloc G1 _) as [[j' G2]|] eqn:E2; [|done]. injection E as <- <- <-.
  apply fdalloc_spec in E1 as [Hi ->]. apply fdalloc_spec in E2 as [Hj ->].
  assert (i' <> j') by (intros <-; rewrite list_lookup_insert_eq in Hj; [done|by eapply lookup_lt_Some]).
  rewrite list_lookup_insert_ne in Hj by done. exists i', j'. by split_and!.
Qed.

Lemma unpipe (G : fdtable) i j x y : G !! i = Some None -> G !! j = Some None -> i <> j ->
  <[j := None]> (<[i := None]> (<[j := Some x]> (<[i := Some y]> G))) = G.
Proof.
  intros Hi Hj Hne. rewrite (list_insert_insert_ne G j i (Some x)) by done. rewrite list_insert_insert_eq.
  rewrite (list_insert_insert_ne G i j None) by done. by rewrite list_insert_insert_eq, (list_insert_id G i), list_insert_id.
Qed.

Lemma fd_at_nat F n : fd_at F (Z.of_nat n) = mjoin (F !! n).
Proof. unfold fd_at. rewrite Nat2Z.id. by destruct (Z.leb_spec 0 (Z.of_nat n)); [|lia]. Qed.
Lemma fd_close_nat F n : fd_close F (Z.of_nat n) = <[n := None]> F.
Proof. unfold fd_close. by rewrite Nat2Z.id. Qed.

Lemma lookup_SS (x y : option obj) L i : (x :: y :: L) !! S (S i) = L !! i.
Proof. done. Qed.
Lemma insert_SS (x y z : option obj) L i : <[S (S i) := z]> (x :: y :: L) = x :: y :: <[i := z]> L.
Proof. done. Qed.

(** Closing both ends. *)
Lemma run_close_ends {A} p a b G i j F q x y (k : prog A) l : pipe_at p a b G i j F ->
  table q = x :: y :: <[j := Some (PipeW (name p) (made p))]> (<[i := Some (PipeR (name p) (made p))]> G) ->
  run (close (Z.of_nat (S (S i))) ;;; close (Z.of_nat (S (S j))) ;;; k) q l <-> run k (with_table q (x :: y :: G)) l.
Proof.
  intros [Ht Hr Hw Hne _] Eq. assert (Hli := lookup_lt_Some _ _ _ Hr). assert (Hlj := lookup_lt_Some _ _ _ Hw).
  rewrite (run_close q l _ (PipeR (name p) (made p))).
  2: { rewrite fd_at_nat, Eq, lookup_SS. rewrite list_lookup_insert_ne by done. by rewrite list_lookup_insert_eq. }
  rewrite (run_close _ l _ (PipeW (name p) (made p))).
  2: { rewrite fd_at_nat. cbn [table with_table]. rewrite fd_close_nat, Eq, insert_SS, lookup_SS. rewrite list_lookup_insert_ne by done.
       by rewrite list_lookup_insert_eq by (rewrite length_insert; lia). }
  cbn [table with_table name made]. rewrite !fd_close_nat, Eq, !insert_SS. by rewrite unpipe.
Qed.

Lemma run_left_end {A} p a b G i j F q (k : prog A) l : pipe_at p a b G i j F -> table q = F ->
  run (close 1 ;;; dup (Z.of_nat (S (S j))) ;;; close (Z.of_nat (S (S i))) ;;; close (Z.of_nat (S (S j))) ;;; k) q l <->
  run k (with_table q (Some a :: Some (PipeW (name p) (made p)) :: G)) l.
Proof.
  intros Hp Eq. pose proof Hp as [Ht Hr Hw Hne EF]. rewrite EF in Eq. assert (Hlj := lookup_lt_Some _ _ _ Hw).
  set (L := <[j := _]> (<[i := _]> G)) in Eq. rewrite (run_close q l 1 b) by (by rewrite (fd_at_nat _ 1), Eq). rewrite (fd_close_nat _ 1), Eq.
  change (<[1%nat := None]> (Some a :: Some b :: L)) with (Some a :: None :: L).
  rewrite (run_dup (with_table q (Some a :: None :: L)) l _ (PipeW (name p) (made p)) 1 (Some a :: Some (PipeW (name p) (made p)) :: L)); [| |reflexivity].
  2: { rewrite fd_at_nat. cbn [table with_table]. rewrite lookup_SS. unfold L. by rewrite list_lookup_insert_eq by (rewrite length_insert; lia). }
  apply (run_close_ends p a b G i j F (with_table q (Some a :: Some (PipeW (name p) (made p)) :: L)) _ _ k l Hp). done.
Qed.

Lemma run_right_end {A} p a b G i j F q (k : prog A) l : pipe_at p a b G i j F -> table q = F ->
  run (close 0 ;;; dup (Z.of_nat (S (S i))) ;;; close (Z.of_nat (S (S i))) ;;; close (Z.of_nat (S (S j))) ;;; k) q l <->
  run k (with_table q (Some (PipeR (name p) (made p)) :: Some b :: G)) l.
Proof.
  intros Hp Eq. pose proof Hp as [Ht Hr Hw Hne EF]. rewrite EF in Eq. assert (Hli := lookup_lt_Some _ _ _ Hr).
  set (L := <[j := _]> (<[i := _]> G)) in Eq. rewrite (run_close q l 0 a) by (by rewrite (fd_at_nat _ 0), Eq). rewrite (fd_close_nat _ 0), Eq.
  change (<[0%nat := None]> (Some a :: Some b :: L)) with (None :: Some b :: L).
  rewrite (run_dup (with_table q (None :: Some b :: L)) l _ (PipeR (name p) (made p)) 0 (Some (PipeR (name p) (made p)) :: Some b :: L)); [| |reflexivity].
  2: { rewrite fd_at_nat. cbn [table with_table]. rewrite lookup_SS. unfold L. rewrite list_lookup_insert_ne by done. by rewrite list_lookup_insert_eq. }
  apply (run_close_ends p a b G i j F (with_table q (Some (PipeR (name p) (made p)) :: Some b :: L)) _ _ k l Hp). done.
Qed.

(** ** Every command has its meaning *)

Lemma run_exec_iff {A} path argv (k : prog A) p l : run (exec path argv ;;; k) p l <-> l = [DidExec path argv (table p)] \/ run k p l.
Proof. by rewrite (run_sys (Exec path argv)). Qed.

Lemma run_complain {A} fmt w st p l : run (A := A) (fprintf 2 (Printf.line fmt) [Str (Some w)] ;;; exit st) p l <-> l = complains fmt w st (table p).
Proof. rewrite run_fprintf. setoid_rewrite run_exit_iff. unfold complains. naive_solver. Qed.

Lemma run_sh_panic {A} msg p l : run (A := A) (sh_panic (str msg)) p l <-> l = panics msg (table p).
Proof. apply run_complain. Qed.

Section redir.
Context (p : proc) (a b : obj) (G : fdtable) (Ht : table p = Some a :: Some b :: G).

(** [close] and [open] put the file on the descriptor. *)
Lemma run_redir {A} fd f m (bad : prog A) (k : prog A) l : fd = 0 \/ fd = 1 ->
  run (close fd ;;; x <- open f m ;; if x <? 0 then bad else k) p l <->
  run bad (with_table p (fd_close (table p) fd)) l \/ run k (set_fd p (Z.to_nat fd) (OFile f m)) l.
Proof using Ht.
  unfold set_fd. rewrite Ht. intros [-> | ->].
  - rewrite (run_close p l 0 a) by (by rewrite Ht). rewrite (run_open _ l f m 0 (Some (OFile f m) :: Some b :: G)); by rewrite Ht.
  - rewrite (run_close p l 1 b) by (by rewrite Ht). rewrite (run_open _ l f m 1 (Some a :: Some (OFile f m) :: G)); by rewrite Ht.
Qed.
End redir.

Lemma std_child p : std p -> std (child_of p).
Proof. done. Qed.
Lemma std_next p : std p -> std (next_made p).
Proof. done. Qed.
Lemma std_set p fd o : std p -> (fd = 0 \/ fd = 1)%nat -> std (set_fd p fd o).
Proof. intros (a & b & G & E) [-> | ->]; unfold std, set_fd; cbn [table with_table]; rewrite E; cbn; eauto. Qed.
#[local] Hint Resolve std_child std_next std_set : core.

Lemma run_fork_if {A} (child parent : prog A) p l : run (pid <- fork1 ;; if pid =? 0 then child else parent) p l <->
  l = panics "fork" (table p) \/ exists cl l', l = DidFork cl :: l' /\ run child (child_of p) cl /\ run parent (next_made p) l'.
Proof.
  rewrite run_fork1. split; (intros [->|H]; [by left|right]).
  - destruct H as (pid & cl & l' & Hp & -> & Hc & H). destruct (Z.eqb_spec pid 0); [lia|]. by exists cl, l'.
  - destruct H as (cl & l' & -> & Hc & H). by exists 1, cl, l'.
Qed.

(** The processes of a pipe, once it exists. *)
Lemma run_pipe_procs p a b G i j F l (left right : prog Empty_set) : pipe_at p a b G i j F ->
  let p0 := Z.of_nat (S (S i)) in let p1 := Z.of_nat (S (S j)) in
  run (pid <- fork1 ;;
       if pid =? 0 then close 1 ;;; dup p1 ;;; close p0 ;;; close p1 ;;; left
       else
         pid <- fork1 ;;
         if pid =? 0 then close 0 ;;; dup p0 ;;; close p0 ;;; close p1 ;;; right
         else close p0 ;;; close p1 ;;; wait ;;; wait ;;; exit 0) (next_made (with_table p F)) l <->
  l = panics "fork" F \/
  exists cl l', l = DidFork cl :: l' /\ run left (set_fd (child_of (next_made p)) 1 (PipeW (name p) (made p))) cl /\
    (l' = panics "fork" F \/
     exists cr, l' = [DidFork cr; DidWait (table p); DidWait (table p); DidExit 0 (table p)] /\
       run right (set_fd (child_of (next_made (next_made p))) 0 (PipeR (name p) (made p))) cr).
Proof.
  intros Hp p0 p1. pose proof (pa_table _ _ _ _ _ _ _ Hp) as Et. unfold set_fd. cbn [table child_of next_made]. rewrite Et. cbn [insert list_insert].
  rewrite run_fork_if. apply Morphisms_Prop.or_iff_morphism; [done|].
  assert (Hleft : forall l, run (close 1 ;;; dup p1 ;;; close p0 ;;; close p1 ;;; left) (child_of (next_made (with_table p F))) l <->
    run left (with_table (child_of (next_made p)) (Some a :: Some (PipeW (name p) (made p)) :: G)) l) by (intros l0; exact (run_left_end p a b G i j F (child_of (next_made (with_table p F))) left l0 Hp eq_refl)).
  assert (Hright : forall l, run (close 0 ;;; dup p0 ;;; close p0 ;;; close p1 ;;; right) (child_of (next_made (next_made (with_table p F)))) l <->
    run right (with_table (child_of (next_made (next_made p))) (Some (PipeR (name p) (made p)) :: Some b :: G)) l) by (intros l0; exact (run_right_end p a b G i j F (child_of (next_made (next_made (with_table p F)))) right l0 Hp eq_refl)).
  assert (Hparent : forall q l, table q = F -> run (close p0 ;;; close p1 ;;; wait ;;; wait ;;; exit (A := Empty_set) 0) q l <->
    l = [DidWait (table p); DidWait (table p); DidExit 0 (table p)]).
  { intros q l0 Eq. unfold p0, p1. rewrite (run_close_ends p a b G i j F q _ _ _ _ Hp) by (rewrite Eq; apply Hp). rewrite run_wait. setoid_rewrite run_wait.
    setoid_rewrite run_exit_iff. cbn [table with_table]. rewrite Et. naive_solver. }
  split; intros (cl & l' & -> & Hl & H); exists cl, l'; (split; [done|]); (split; [by apply Hleft|]).
  - apply run_fork_if in H as [->|(cr & l'' & -> & Hr & H)]; [by left|right]. exists cr. rewrite Hparent in H by done. subst l''. rewrite Et. split; [done|]. by apply Hright.
  - apply run_fork_if. destruct H as [->|(cr & -> & Hr)]; [by left|right]. exists cr. eexists. split; [done|]. split; [by apply Hright|]. rewrite Hparent by done. by rewrite Et.
Qed.

(** See [runcmd_means]. *)
Lemma runcmd_iff b c p l : std p -> std_redirs (view b c) -> run (runcmd b c) p l <-> means (view b c) p l.
Proof.
  revert p l. induction c as [argv|c IH r|c1 IH1 c2 IH2|c1 IH1 c2 IH2|c IH]; intros p l Hp Hs; cbn [runcmd view std_redirs] in *.
  - destruct argv as [|[w e] argv]; cbn [map fst].
    + rewrite run_exit_iff. split; [intros ->; constructor|by inversion 1].
    + rewrite run_exec_iff, run_complain. split; [intros [->| ->]; constructor|inversion 1; auto].
  - destruct Hs as [Hfd Hs]. pose proof Hp as (a & b0 & G & Et). rewrite (run_redir p a b0 G Et) by done. rewrite run_complain.
    rewrite IH; [|apply std_set; [done|destruct Hfd as [-> | ->]; auto]|done].
    split; [intros [->|H]; by constructor|inversion 1; auto].
  - destruct Hs as [Hs1 Hs2]. pose proof Hp as (a & b0 & G & Et). rewrite run_pipe, run_sh_panic. split.
    + intros [->|(i & j & F & E & H)]; [constructor|]. destruct (piped_std _ _ _ _ _ _ _ Et E) as (i' & j' & -> & -> & Ha).
      apply (run_pipe_procs p a b0 G i' j' F l _ _ Ha) in H as [->|(cl & l' & -> & Hl & [->|(cr & -> & Hr)])].
      * by eapply m_pipe_bad1.
      * apply IH1 in Hl; [|auto..]. by eapply m_pipe_bad2.
      * apply IH1 in Hl; [|auto..]. apply IH2 in Hr; [|auto..]. by eapply m_pipe.
    + inversion 1 as [| | | | | | |? ? ? [[i j] F] al ar E Hl Hr| |? ? ? i j F E|? ? ? i j F al E Hl| |]; subst; [..|by left| |]; right; exists i, j, F; (split; [done|]);
        destruct (piped_std _ _ _ _ _ _ _ Et E) as (i' & j' & -> & -> & Ha); apply (run_pipe_procs p a b0 G i' j' F _ _ _ Ha).
      * right. eexists _, _. split; [done|]. split; [by apply IH1; auto|]. right. eexists. split; [done|]. by apply IH2; auto.
      * by left.
      * right. eexists _, _. split; [done|]. split; [by apply IH1; auto|]. by left.
  - destruct Hs as [Hs1 Hs2]. rewrite run_fork_if. split.
    + intros [->|(cl & l' & -> & Hl & H)]; [constructor|]. apply run_wait in H as (l'' & -> & H). cbn [table next_made]. apply m_list; [by apply IH1; auto|by apply IH2; auto].
    + inversion 1 as [| | | | |? ? ? first rest Hl Hr|? ? ?| | | | | |]; subst; [right|by left]. eexists _, _. split; [done|]. split; [by apply IH1; auto|].
      apply run_wait. eexists. split; [done|]. by apply IH2; auto.
  - rewrite run_fork_if. split.
    + intros [->|(cl & l' & -> & Hl & H)]; [constructor|]. apply run_exit_iff in H as ->. cbn [table next_made]. apply m_back. by apply IH; auto.
    + inversion 1 as [| | | | | | | | | | |? ? l0 Hl|]; subst; [right|by left]. eexists _, _. split; [done|]. split; [by apply IH; auto|]. by apply run_exit_iff.
Qed.

(** C5. [runcmd] gives every command its meaning.  For any command tree, any process with
    descriptors 0 and 1 open and any answers of the kernel, the runs of [runcmd] are
    exactly the runs of the command's meaning: a program runs with the files and
    ends of pipes of its redirections and pipes on descriptors 0 and 1 and the other
    descriptors as the shell had them, lists wait for their first part, pipes for
    both sides, background jobs are not waited for, and when the kernel refuses a
    call the process says so and exits. *)
Theorem runcmd_means b c p l : std p -> std_redirs (view b c) -> run (runcmd b c) p l <-> means (view b c) p l.
Proof. apply runcmd_iff. Qed.

(** ** The ends of pipes *)

(** The tables of the processes that live on: those that wait, and those that
    run a program.  A process that exits closes everything. *)
Fixpoint live1 (a : act) : list fdtable :=
  match a with
  | DidExec _ _ F | DidWait F => [F]
  | DidFork child => flat_map live1 child
  | DidExit _ _ | DidWrite _ _ => []
  end.
Definition live (l : list act) : list fdtable := flat_map live1 l.

(** What a process or its descendants may still create. *)
Definition new_obj (p : proc) (o : obj) : Prop :=
  match o with
  | Given _ => False
  | OFile _ _ => True
  | PipeR n k | PipeW n k => (length (name p) < length n)%nat \/ (n = name p /\ made p <= k)%nat
  end.

Lemma live_app l l' F : F ∈ live (l ++ l') <-> F ∈ live l \/ F ∈ live l'.
Proof. unfold live. rewrite flat_map_app. apply elem_of_app. Qed.
Lemma live_cons a l F : F ∈ live (a :: l) <-> F ∈ live1 a \/ F ∈ live l.
Proof. apply elem_of_app. Qed.
Lemma live_says fd t : live (says fd t) = [].
Proof. induction t; [done|]. by unfold live, says in *. Qed.
Lemma live_complains fmt w st F F' : F' ∈ live (complains fmt w st F) -> False.
Proof. unfold complains. rewrite live_app, live_says. intros [H|H]; by apply elem_of_nil in H. Qed.

Lemma new_child p o : new_obj (child_of p) o -> new_obj p o.
Proof. destruct o; cbn; try done; (intros [H|[-> _]]; left; cbn in *; lia). Qed.
Lemma new_next p o : new_obj (next_made p) o -> new_obj p o.
Proof. destruct o; cbn; try done; (intros [H|[-> H]]; [by left|right; split; [done|lia]]). Qed.
Lemma new_set p fd o o' : new_obj (set_fd p fd o') o -> new_obj p o.
Proof. by destruct o. Qed.

Lemma set_fd_objs p fd o o' : Some o ∈ table (set_fd p fd o') -> o = o' \/ Some o ∈ table p.
Proof.
  unfold set_fd. cbn [table with_table]. intros H. apply list_elem_of_lookup in H as [i H]. apply list_lookup_insert_Some in H as [(-> & [= ->] & _)|[_ H]]; [by left|].
  right. by eapply list_elem_of_lookup_2.
Qed.

(** Objects at hand after a step, from those before it. *)
Lemma objs_child p o : Some o ∈ table (child_of p) \/ new_obj (child_of p) o -> Some o ∈ table p \/ new_obj p o.
Proof. intros [H|H]; [by left|right; by apply new_child]. Qed.
Lemma objs_next p o : Some o ∈ table (next_made p) \/ new_obj (next_made p) o -> Some o ∈ table p \/ new_obj p o.
Proof. intros [H|H]; [by left|right; by apply new_next]. Qed.
Lemma objs_set p fd o' o : Some o ∈ table (set_fd p fd o') \/ new_obj (set_fd p fd o') o -> o = o' \/ Some o ∈ table p \/ new_obj p o.
Proof. intros [H|H]; [apply set_fd_objs in H; tauto|]. apply new_set in H. tauto. Qed.

(** A side of a pipe. *)
Lemma objs_side p q fd o' o : Some o ∈ table (set_fd (child_of q) fd o') \/ new_obj (set_fd (child_of q) fd o') o ->
  (forall o, Some o ∈ table q \/ new_obj q o -> Some o ∈ table p \/ new_obj p o) -> o = o' \/ Some o ∈ table p \/ new_obj p o.
Proof. intros H Hq. apply objs_set in H as [->|H]; [by left|right]. by apply Hq, objs_child. Qed.

Lemma new_pipe p : new_obj p (PipeW (name p) (made p)) /\ new_obj p (PipeR (name p) (made p)).
Proof. split; right; done. Qed.

Lemma live_fork c l F : F ∈ live (DidFork c :: l) <-> F ∈ live c \/ F ∈ live l.
Proof. apply live_cons. Qed.
Lemma live_wait G l F : F ∈ live (DidWait G :: l) <-> F = G \/ F ∈ live l.
Proof. rewrite live_cons. cbn [live1]. by rewrite list_elem_of_singleton. Qed.
Lemma live_exit st G F : F ∈ live [DidExit st G] <-> False.
Proof. split; [|done]. by intros ?%elem_of_nil. Qed.
Lemma live_exec w ws G F : F ∈ live [DidExec w ws G] <-> F = G.
Proof. apply list_elem_of_singleton. Qed.

Definition ended (l : list act) : Prop := exists w st F, l = w ++ [DidExit st F] /\ live w = [].
Lemma dead l F : ended l -> F ∈ live l -> False.
Proof. intros (w & st & G & -> & E). rewrite live_app, E, live_exit. intros [H|[]]. by apply elem_of_nil in H. Qed.
Lemma ended_exit st F : ended [DidExit st F].
Proof. by exists [], st, F. Qed.
Lemma ended_complains fmt w st F : ended (complains fmt w st F).
Proof. eexists _, st, F. split; [done|apply live_says]. Qed.

(** No process lives on in what has ended. *)
Ltac gone H := exfalso; refine (dead _ _ _ H); first [apply ended_exit|apply ended_complains].

Lemma live_objs c p l F o : means c p l -> F ∈ live l -> Some o ∈ F -> Some o ∈ table p \/ new_obj p o.
Proof.
  intros Hm. revert F o. induction Hm as [p|w ws p|w ws p|c f m fd p l _ IH|c f m fd p|l r p first rest _ IH1 _ IH2|l r p|l r p q al ar _ _ IH1 _ IH2|l r p|l r p i j F _|l r p i j F al _ _ IH1|c p l _ IH|c p];
    intros F0 o HF Ho; rewrite ?live_fork, ?live_wait, ?live_exec in HF; try (gone HF).
  - subst F0. by left.
  - destruct (objs_set p (Z.to_nat fd) (OFile f m) o (IH F0 o HF Ho)) as [->|H]; [by right|done].
  - destruct HF as [HF|[->|HF]]; [apply objs_child, (IH1 F0 o HF Ho)|by left|apply objs_next, (IH2 F0 o HF Ho)].
  - destruct HF as [HF|[HF|[->|[->|HF]]]]; [| |by left|by left|gone HF].
    + destruct (objs_side p (next_made p) _ _ o (IH1 F0 o HF Ho) (objs_next p)) as [->|H]; [right; apply new_pipe|done].
    + destruct (objs_side p (next_made (next_made p)) _ _ o (IH2 F0 o HF Ho)) as [->|H]; [intros o' Ho'; by apply objs_next, objs_next|right; apply new_pipe|done].
  - destruct HF as [HF|HF]; [|gone HF].
    destruct (objs_side p (next_made p) _ _ o (IH1 F0 o HF Ho) (objs_next p)) as [->|H]; [right; apply new_pipe|done].
  - destruct HF as [HF|HF]; [|gone HF]. apply objs_child, (IH F0 o HF Ho).
Qed.

(** The other end of the new pipe is not among what a side starts with or may
    create. *)
Lemma side_lacks c p q fd o o' l F : means c (set_fd (child_of q) fd o') l -> table q = table p -> name q = name p -> o <> o' ->
  o = PipeR (name p) (made p) \/ o = PipeW (name p) (made p) -> Some o ∉ table p -> F ∈ live l -> Some o ∉ F.
Proof.
  intros Hm Et En Hne Ho Hnot HF Hin. destruct (live_objs _ _ _ _ _ Hm HF Hin) as [H|H].
  - apply set_fd_objs in H as [H|H]; [done|]. apply Hnot. by rewrite <- Et.
  - apply new_set in H. destruct Ho as [-> | ->]; cbn in H; rewrite En in H; cbn in H; (destruct H as [H|[H _]]; [lia|]); apply (f_equal length) in H; cbn in H; lia.
Qed.

(** C17. The ends of a pipe are where they belong, so that the reader sees the end of
    the data when the writers have exited.  In every run of a pipe whose two
    sides were started, no process of the left side that lives on (that waits, or
    runs a program) has the read end, none of the right side has the write end,
    and the shell that waits for both has neither. *)
Theorem pipeline_ends b l r p left right rest : std p -> std_redirs (view b l) -> std_redirs (view b r) ->
  let R := PipeR (name p) (made p) in let W := PipeW (name p) (made p) in
  Some R ∉ table p -> Some W ∉ table p -> run (runcmd b (PIPE l r)) p (DidFork left :: DidFork right :: rest) ->
  (forall F, F ∈ live left -> Some R ∉ F) /\ (forall F, F ∈ live right -> Some W ∉ F) /\ (forall F, F ∈ live rest -> Some R ∉ F /\ Some W ∉ F).
Proof.
  intros Hp Hl Hr R W HR HW Hrun. apply (runcmd_iff b (PIPE l r) p) in Hrun; [|done|done]. cbn [view] in Hrun.
  inversion Hrun as [| | | | | | |? ? ? q al ar Eq Ml Mr| | |? ? ? i j F al Eq Ml| |]; subst.
  split_and!; intros F HF; [by apply (side_lacks _ p _ _ _ _ _ _ Ml); auto|by apply (side_lacks _ p _ _ _ _ _ _ Mr); auto|].
  rewrite !live_wait, live_exit in HF. by destruct HF as [->|[->|[]]].
Qed.

(** ** From the line that is typed to the processes that run *)

Lemma den_std :
  (forall l, std_redirs (den_line l)) /\ (forall q, std_redirs (den_pipe q)) /\ (forall e, std_redirs (den_exec e)).
Proof.
  assert (Hr : forall rs c, std_redirs c -> std_redirs (den_redirs c rs)).
  { induction rs as [|r rs IH]; intros c Hc; [done|]. cbn. apply IH. destruct r; cbn; auto. }
  assert (Ha : forall n c, std_redirs c -> std_redirs (den_amps c n)) by (intros n c Hc; induction n as [|n IH]; [done|exact IH]).
  apply syntax_ind; cbn [den_line den_pipe den_exec std_redirs]; auto. intros rs args. by apply Hr.
Qed.

(** C16. What is typed is what runs: when the shell's child is given a line that
    writes a command, with any spacing and fewer than 10 words in each part, its
    runs are exactly the runs of that command's meaning; parsing and running
    compose. *)
Theorem shell_runs_line l b p acts : wf_line l -> writes l b -> std p -> run (run_line b) p acts <-> means (den_line l) p acts.
Proof.
  intros Hw Hb Hp. destruct (parsecmd_written l b Hw Hb) as (c & b' & q & E & Hv). unfold run_line. rewrite E, <- Hv.
  apply runcmd_iff; [done|]. rewrite Hv. apply den_std.
Qed.

(** ** Example: ls | wc > f *)

Definition demo_shell : proc := mk_proc [Some (Given 0); Some (Given 1); Some (Given 2); None; None] [] 0.
Lemma demo_std : std demo_shell.
Proof. by eexists _, _, _. Qed.
(** The line [ls | wc > f], and the tree and buffer it is parsed into. *)
Definition demo_pipe : ShSpec.line := Line (Bar (Simple [] [(str "ls", [])]) (Cmd (Simple [] [(str "wc", [ROut (str "f")])]))) 0.
Definition demo_buf : list Z := str "ls" ++ [0; 124; 32] ++ str "wc" ++ [0; 62; 32] ++ str "f" ++ [0].
Definition demo_left : cmd := EXEC [(0, 2)%nat].
Definition demo_right : cmd := REDIR (EXEC [(5, 7)%nat]) (mk_redir 10 11 (Z.lor (Z.lor O_WRONLY O_CREATE) O_TRUNC) 1).
Definition demo_ls : fdtable := [Some (Given 0); Some (PipeW [] 0); Some (Given 2); None; None].
Definition demo_wc : fdtable := [Some (PipeR [] 0); Some (OFile (str "f") (Z.lor (Z.lor O_WRONLY O_CREATE) O_TRUNC)); Some (Given 2); None; None].
Definition demo_acts : list act :=
  [DidFork [DidExec (str "ls") [str "ls"] demo_ls]; DidFork [DidExec (str "wc") [str "wc"] demo_wc];
   DidWait (table demo_shell); DidWait (table demo_shell); DidExit 0 (table demo_shell)].

Lemma demo_means : means (den_line demo_pipe) demo_shell demo_acts.
Proof. eapply m_pipe; [reflexivity|apply m_exec|apply m_redir, m_exec]. Qed.
Lemma demo_run_pipe : run (runcmd demo_buf (PIPE demo_left demo_right)) demo_shell demo_acts.
Proof. apply runcmd_iff; [exact demo_std|cbn; auto|]. exact demo_means. Qed.
Lemma demo_wf : wf_line demo_pipe.
Proof. cbn. unfold wf_redirs, MAXARGS. repeat first [split|apply Forall_cons_2|apply Forall_nil_2|done|lia]; done. Qed.

Lemma runcmd_means_witness : std demo_shell /\ run (runcmd demo_buf (PIPE demo_left demo_right)) demo_shell demo_acts.
Proof. split; [exact demo_std|]. apply (runcmd_means demo_buf (PIPE demo_left demo_right) demo_shell demo_acts); [exact demo_std|cbn; auto|exact demo_means]. Defined.

Lemma pipeline_ends_witness : Some (PipeW [] 0) ∉ demo_wc /\ Some (PipeR [] 0) ∉ demo_ls.
Proof.
  destruct (pipeline_ends demo_buf demo_left demo_right demo_shell _ _ _ demo_std I ltac:(cbn; auto)
    ltac:(apply (bool_decide_unpack _); by vm_compute) ltac:(apply (bool_decide_unpack _); by vm_compute) demo_run_pipe) as (Hl & Hr & _).
  split; [apply Hr|apply Hl]; left.
Defined.

Lemma demo_typed : writes demo_pipe (str "ls | wc >f" ++ [10]).
Proof.
  exists [], (str "ls | wc >f" ++ [10]). split_and!; [constructor|done|]. cbn.
  wtoken [32]. wtoken [32]. wtoken [32]. wtoken (@nil Z). wtoken [10]. apply wr_nil.
Qed.

Lemma shell_runs_line_witness : run (run_line (str "ls | wc >f" ++ [10])) demo_shell demo_acts.
Proof. apply (shell_runs_line demo_pipe _ demo_shell demo_acts); [exact demo_wf|exact demo_typed|exact demo_std|exact demo_means]. Defined.
