(* ===== verification/FdShell.v ===== *)
(** * The kernel's descriptors and the shell's

    ShProc runs the shell on processes whose descriptor tables follow a few
    rules: [open], [dup] and [pipe] use the lowest free descriptors, [close]
    frees one, [fork] copies the table, and other calls leave it alone. Here the
    system calls of the kernel are shown to follow these rules. An open file of
    the kernel is given a name, an [obj] of ShProc; a file that was not in use
    gets a new one when it is opened. *)

From stdpp Require Import base gmap list numbers strings.
From Stdlib Require Import ZArith Lia.
From S2P Require Import Usys ShProc.
From S2P Require Import Prelude Riscv Mem Spinlock Kalloc Vm Bytes Sleeplock Disk Bio BlockIO Fs ProcEnv Pipe File Proc ProcInv Syscall Exec Sysfile Kernel FdFrame FdSpec FdCalls Log BioSpec LogIO.
Open Scope Z_scope.
Open Scope kernel_scope.

(** ** The lowest free descriptor *)

Lemma fdalloc_lowest F o i : F !! i = Some None -> (forall j, (j < i)%nat -> exists x, F !! j = Some (Some x)) -> ShProc.fdalloc F o = Some (i, <[i := Some o]> F).
Proof.
  revert i. induction F as [|x F IH]; intros i Hi Hj; [done|]. destruct i as [|i]; cbn in Hi.
  - by injection Hi as ->.
  - destruct (Hj 0%nat) as [y Hy]; [lia|]. cbn in Hy. injection Hy as ->. cbn [ShProc.fdalloc]. rewrite (IH i Hi); [done|]. intros j Hlt. apply (Hj (S j)). lia.
Qed.
Lemma fdalloc_full F o : (forall i x, F !! i = Some x -> x <> None) -> ShProc.fdalloc F o = None.
Proof.
  induction F as [|x F IH]; intros Hf; [done|]. destruct x as [y|]; [|by destruct (Hf 0%nat None eq_refl)]. cbn [ShProc.fdalloc]. by rewrite (IH (fun i => Hf (S i))).
Qed.

(** ** Names of open files *)

Notation naming := (nat -> obj).
Implicit Types nm : naming.
Definition view nm (row : list (option nat)) : list (option obj) := fmap (M := list) (fmap (M := option) nm) row.
Definition named nm (f : nat) (o : obj) : naming := fun g => if decide (g = f) then o else nm g.

Lemma view_set nm row i x : view nm (<[i := x]> row) = <[i := fmap (M := option) nm x]> (view nm row).
Proof. apply list_fmap_insert. Qed.
Lemma view_lookup nm row i : view nm row !! i = fmap (M := option) (fmap (M := option) nm) (row !! i).
Proof. apply list_lookup_fmap. Qed.
Lemma view_lowest nm row i o : lowest row i -> ShProc.fdalloc (view nm row) o = Some (i, <[i := Some o]> (view nm row)).
Proof.
  intros [Hi Hj]. apply fdalloc_lowest; [by rewrite view_lookup, Hi|]. intros j Hlt. destruct (Hj j Hlt) as [g Hg]. exists (nm g). by rewrite view_lookup, Hg.
Qed.
Lemma view_full nm row o : full row -> ShProc.fdalloc (view nm row) o = None.
Proof. intros Hf. apply fdalloc_full. intros i x. rewrite view_lookup. destruct (row !! i) as [y|] eqn:E; [|done]. intros [= <-]. specialize (Hf i y E). by destruct y. Qed.

(** A file that the row does not use can be given any name. *)
Lemma view_named nm row f o : uses [row] f = 0 -> view (named nm f o) row = view nm row.
Proof.
  intros Hu. apply list_eq. intros i. rewrite !view_lookup. destruct (row !! i) as [[g|]|] eqn:E; [|done..]. cbn. unfold named. case_decide as Hg; [subst g|done].
  pose proof (uses_nonneg [take i row ++ drop (S i) row] f). rewrite (row_split row i _ f E) in Hu. unfold one in Hu. rewrite decide_True in Hu by done. lia.
Qed.
Lemma uses_row_zero tt p t f : uses tt f = 0 -> tt !! p = Some t -> uses [t] f = 0.
Proof.
  intros Hu Hp. rewrite <- (take_drop_middle tt p t Hp), uses_app, uses_cons in Hu. pose proof (uses_nonneg (take p tt) f). pose proof (uses_nonneg (drop (S p) tt) f). pose proof (uses_nonneg [t] f). lia.
Qed.

Section shell.
Context {S H : Type} {io : BlockIO S H} {img : KernelImage} {devs : DevSw pst} (kbuf mypid forkret : Z).
Notation K := (kst S pst).
Implicit Types (s : K) (f : nat) (P : ShProc.proc).

(** Process [p] has the table of [P'] after the call, and nobody else sees a
    change. *)
Definition sees nm nm' s s' p P' : Prop :=
  table P' = view nm' (row_of s' p) /\ forall q, q <> p -> view nm' (row_of s' q) = view nm (row_of s q).

Lemma row_other s s' p t q : tables (pstate s') = <[p := t]> (tables (pstate s)) -> q <> p -> row_of s' q = row_of s q.
Proof using.
  intros E Hq. assert (E' : tables (pstate s') !! q = tables (pstate s) !! q) by (by rewrite E, list_lookup_insert_ne). unfold tables in E'. rewrite !list_lookup_fmap in E'. unfold row_of, getproc.
  destruct (ps_proc (pstate s') !! q), (ps_proc (pstate s) !! q); cbn in *; congruence.
Qed.
Lemma row_unused s f q : uses (tables (pstate s)) f = 0 -> uses [row_of s q] f = 0.
Proof using.
  intros Hu. destruct (decide (q < length (ps_proc (pstate s)))%nat) as [Hq|Hq]; [by eapply uses_row_zero, row_lookup|]. unfold row_of, getproc. by rewrite lookup_ge_None_2 by lia.
Qed.

Lemma sees_set nm s s' p t P' : (p < length (ps_proc (pstate s)))%nat -> tables (pstate s') = <[p := t]> (tables (pstate s)) -> table P' = view nm t -> sees nm nm s s' p P'.
Proof using. intros Hp E HP. split; [by rewrite (row_set s s' p t Hp E)|]. intros q Hq. by rewrite (row_other s s' p t q E Hq). Qed.
Lemma sees_same nm s s' p P : tables (pstate s') = tables (pstate s) -> table P = view nm (row_of s p) -> sees nm nm s s' p P.
Proof using. intros E HP. assert (R : forall q, row_of s' q = row_of s q) by (intros q; by apply same_row). split; [by rewrite R|]. intros q _. by rewrite R. Qed.

Lemma fd_at_view nm s p fd : fd_inv s -> me (pstate s) = Some p -> fd_at (view nm (row_of s p)) fd = fmap (M := option) nm (fd_file s fd).
Proof using.
  intros Ho Hm. destruct (my_row _ s p Ho Hm) as (_ & _ & Hlen). unfold fd_at, fd_file. rewrite (ofile_mine s p) by done. destruct (Z.leb_spec 0 fd), (Z.ltb_spec fd 0), (Z.leb_spec (Z.of_nat NOFILE) fd); try lia; cbn [orb]; [|by rewrite view_lookup; destruct (row_of s p !! Z.to_nat fd)|done..].
  by rewrite view_lookup, lookup_ge_None_2 by lia.
Qed.

(** How [pipe] tells the process its answer: the value it returns, and the two
    numbers copied to the array it was given. *)
Definition told s p (r : option (Z * Z)) (a : Z) s' : Prop :=
  match r with
  | None => a = -1
  | Some (fd0, fd1) => a = 0 /\ exists i j, fd0 = Z.of_nat i /\ fd1 = Z.of_nat j /\ wrote_fds kbuf (addr0 s) p i j s'
  end.

Section call.
Context (s : K) (p : nat) (P : ShProc.proc) (nm : naming).
Context (Ho : fd_inv s) (Hm : me (pstate s) = Some p) (HP : table P = view nm (row_of s p)).

Lemma my_place : (p < length (ps_proc (pstate s)))%nat.
Proof using Ho Hm. apply (my_row _ s p Ho Hm). Qed.
Lemma fd_at_table fd : fd_at (table P) fd = fmap (M := option) nm (fd_file s fd).
Proof using Ho Hm HP. rewrite HP. by apply fd_at_view. Qed.

Lemma dup_answers a s' : sys_dup s = Ok a s' -> exists P', answers P (Dup (arg0 s)) a P' /\ sees nm nm s s' p P'.
Proof using Ho Hm HP.
  intros E. pose proof (sys_dup_run s p Ho Hm) as Hr. pose proof (fd_at_table (arg0 s)) as Hfd. destruct (fd_file s (arg0 s)) as [f|].
  - destruct Hr as [(i & s1 & Hi & E1 & _ & _ & T1)|[Hf E1]]; rewrite E1 in E; injection E as <- <-.
    + exists (with_table P (<[i := Some (nm f)]> (table P))). split; [eapply an_dup; [exact Hfd|]; rewrite HP; by apply view_lowest|].
      eapply sees_set; [apply my_place|exact T1|]. cbn. by rewrite view_set, HP.
    + exists P. split; [|by apply sees_same]. eapply an_dup_full; [exact Hfd|]. rewrite HP. by apply view_full.
  - rewrite Hr in E. injection E as <- <-. exists P. split; [by apply an_dup_closed|by apply sees_same].
Qed.

Lemma close_answers a s' : sys_close kbuf mypid s = Ok a s' -> exists P', answers P (Close (arg0 s)) a P' /\ sees nm nm s s' p P'.
Proof using Ho Hm HP.
  intros E. pose proof (sys_close_run kbuf mypid s p a s' Ho Hm E) as Hr. pose proof (fd_at_table (arg0 s)) as Hfd. destruct (fd_file s (arg0 s)) as [f|].
  - destruct Hr as (-> & _ & _ & T1). exists (with_table P (fd_close (table P) (arg0 s))). split; [by eapply an_close|]. eapply sees_set; [apply my_place|exact T1|]. cbn. by rewrite view_set, HP.
  - destruct Hr as [-> ->]. exists P. split; [by apply an_close_bad|by apply sees_same].
Qed.

Lemma open_answers path mode a s' : sys_open kbuf mypid s = Ok a s' -> exists P' nm', answers P (Open path mode) a P' /\ sees nm nm' s s' p P'.
Proof using Ho Hm HP.
  intros E. destruct (sys_open_run kbuf mypid s p a s' Ho Hm E) as [(-> & _ & _ & T1)|(i & f & -> & Hi & Hu & _ & _ & T1)].
  - exists P, nm. split; [apply an_open_bad|by apply sees_same].
  - exists (with_table P (<[i := Some (OFile path mode)]> (table P))), (named nm f (OFile path mode)). split; [apply an_open; rewrite HP; by apply view_lowest|]. split.
    + rewrite (row_set s s' p _ my_place T1), view_set, view_named by (by apply row_unused). cbn. unfold named. rewrite decide_True by done. by rewrite HP.
    + intros q Hq. rewrite (row_other s s' p _ q T1 Hq). by apply view_named, row_unused.
Qed.

Lemma pipe_answers junk a s' : sys_pipe kbuf mypid junk s = Ok a s' ->
  exists r P' nm', answers P Usys.Pipe r P' /\ told s p r a s' /\ sees nm nm' s s' p P'.
Proof using Ho Hm HP.
  intros E. destruct (sys_pipe_run kbuf mypid junk s p a s' Ho Hm E) as [(-> & _ & _ & T1)|(-> & i & j & rf & wf & Hrw & Ur & Uw & Hi & Hj & Hw & _ & _ & T1)].
  - exists None, P, nm. split_and!; [apply an_pipe_bad|done|by apply sees_same].
  - set (o := PipeR (ShProc.name P) (ShProc.made P)). set (o' := PipeW (ShProc.name P) (ShProc.made P)). set (nm1 := named nm rf o). set (nm2 := named nm1 wf o').
    assert (Hv : forall q, view nm2 (row_of s q) = view nm (row_of s q)) by (intros q; unfold nm2, nm1; rewrite !view_named by (by apply row_unused); done).
    assert (H1 : nm2 rf = o) by (unfold nm2, nm1, named; rewrite decide_False, decide_True by done; done). assert (H2 : nm2 wf = o') by (unfold nm2, named; by rewrite decide_True).
    exists (Some (Z.of_nat i, Z.of_nat j)), (next_made (with_table P (<[j := Some o']> (<[i := Some o]> (table P))))), nm2. split_and!; [|split; [done|by exists i, j]|split].
    + eapply an_pipe; [rewrite HP; by apply view_lowest|]. fold o o'. rewrite HP, <- (Hv p), <- H1. change (Some (nm2 rf)) with (fmap (M := option) nm2 (Some rf)). rewrite <- view_set. rewrite (view_lowest nm2 _ j _ Hj). done.
    + rewrite (row_set s s' p _ my_place T1), !view_set, Hv. cbn. by rewrite H1, H2, HP.
    + intros q Hq. by rewrite (row_other s s' p _ q T1 Hq).
Qed.

(** The child gets the parent's table. *)
Lemma fork_answers a s' : kfork forkret s = Ok a s' ->
  a = -1 /\ (forall q, row_of s' q = row_of s q) \/
  exists np, a = p_pid (kproc s' np) /\ np <> p /\ ended_at (pstate s) np = true /\ view nm (row_of s' np) = table (child_of P) /\ forall q, q <> np -> row_of s' q = row_of s q.
Proof using Ho Hm HP.
  intros E. destruct (kfork_run forkret s p a s' Ho Hm E) as (Ho' & Hm' & [[-> T1]|(np & -> & Hl & He & T1)]); [left; split; [done|]; intros q; by apply same_row|right]. exists np.
  split_and!; [done|by apply (ended_not_me _ s p np Ho)|done| |intros q; by eapply row_other]. rewrite (row_set s s' np _ Hl T1). symmetry. exact HP.
Qed.
End call.

(** The calls of [ShProc.plain], other than those on the clock, and [exec]. *)
Definition plain_calls (pad : list Z) : list (M K Z) :=
  [sys_wait kbuf; sys_read kbuf mypid; sys_write kbuf mypid; sys_kill; sys_exec kbuf mypid; sys_fstat kbuf mypid pad; sys_chdir kbuf mypid; sys_getpid; sys_sbrk;
   sys_mknod kbuf mypid; sys_unlink kbuf mypid; sys_link kbuf mypid; sys_mkdir kbuf mypid].
Lemma same_files_wait : pres same_files (sys_wait (S := S) kbuf).
Proof using. unfold sys_wait. pres. apply same_files_inproc, same_fds_kwait. Qed.
Lemma plain_calls_same pad : quiet_devices -> Forall (fun m => pres same_files m) (plain_calls pad).
Proof using.
  intros [Hr Hw]. unfold plain_calls. repeat apply List.Forall_cons; [apply same_files_wait|by apply same_files_read|by apply same_files_write|apply same_files_kill|apply same_files_exec|apply same_files_fstat|apply same_files_chdir
    |apply same_files_getpid|apply same_files_sbrk|apply same_files_mknod|apply same_files_unlink|apply same_files_link|apply same_files_mkdir|apply List.Forall_nil].
Qed.

(** C7. The kernel gives the shell the descriptors it counts on. Whenever a
    system call on descriptors returns, its answer and the table it leaves the
    process are ones that the processes of ShProc, on which the theorems about
    the shell are proved, allow: [dup], [open] and [pipe] take the lowest free
    descriptors or fail and change nothing, [close] frees its descriptor, [fork]
    returns the pid of a child that has the same table, or -1, and the other
    calls leave every table alone. The two numbers of a [pipe] are the ones that
    were copied to the array the process gave. No call changes what the
    descriptors of another process mean. *)
Theorem kernel_answers s p P nm : quiet_devices -> fd_inv s -> me (pstate s) = Some p -> table P = view nm (row_of s p) ->
  (forall a s', sys_dup s = Ok a s' -> exists P', answers P (Dup (arg0 s)) a P' /\ sees nm nm s s' p P') /\
  (forall a s', sys_close kbuf mypid s = Ok a s' -> exists P', answers P (Close (arg0 s)) a P' /\ sees nm nm s s' p P') /\
  (forall path mode a s', sys_open kbuf mypid s = Ok a s' -> exists P' nm', answers P (Open path mode) a P' /\ sees nm nm' s s' p P') /\
  (forall junk a s', sys_pipe kbuf mypid junk s = Ok a s' ->
    exists r P' nm', answers P Usys.Pipe r P' /\ told s p r a s' /\ sees nm nm' s s' p P') /\
  (forall a s', kfork forkret s = Ok a s' -> a = -1 /\ (forall q, row_of s' q = row_of s q) \/
    exists np, a = p_pid (kproc s' np) /\ np <> p /\ ended_at (pstate s) np = true /\ view nm (row_of s' np) = table (child_of P) /\ forall q, q <> np -> row_of s' q = row_of s q) /\
  (forall pad call a s', call ∈ plain_calls pad -> call s = Ok a s' -> forall q, row_of s' q = row_of s q).
Proof using.
  intros Hd Ho Hm HP. split_and!; [by eapply dup_answers|by eapply close_answers|by eapply open_answers|by eapply pipe_answers|by eapply fork_answers|].
  intros pad call a s' Hc E q. pose proof (plain_calls_same pad Hd) as Hall. rewrite Forall_forall in Hall. by eapply row_same, (Hall call Hc).
Qed.
End shell.

(** ** Example: another [dup] after those of FdCalls *)

Section shell_example.
#[local] Existing Instances fd_img fd_io fd_devices.

Definition given : naming := fun f => Given (Z.of_nat f).
Definition given_proc : ShProc.proc := ShProc.mk_proc (view given (row_of (sy_k fd_dupped) 0)) [] 0.

Definition value {S A} (m : M S A) (s : S) : option A := match m s with Ok a _ => Some a | _ => None end.
Lemma value_ok {S A} (m : M S A) s a : value m s = Some a -> m s = Ok a (after m s).
Proof. unfold value, after. by destruct (m s); intros [= ->]. Qed.
Lemma dupped_inv : fd_inv (sy_k fd_dupped).
Proof. exact (balanced_run 0x82000000 1 0 fd_start fd_dupped fd_quiet fd_run (no_files_balanced _ fd_start_no_files)). Qed.
Lemma dupped_me : me (pstate (sy_k fd_dupped)) = Some 0%nat.
Proof. vm_compute. reflexivity. Qed.
Lemma dupped_arg : arg0 (sy_k fd_dupped) = 2.
Proof. vm_compute. reflexivity. Qed.
Lemma dup_again : exists s', sys_dup (sy_k fd_dupped) = Ok 3 s' /\ row_of s' 0 !! 3%nat = Some (Some 0%nat).
Proof. exists (after sys_dup (sy_k fd_dupped)). split; [apply value_ok|]; vm_compute; reflexivity. Qed.

Lemma kernel_answers_witness : exists P', answers given_proc (Dup 2) 3 P' /\ table P' !! 3%nat = Some (Some (Given 0)).
Proof.
  destruct (kernel_answers 0x82000000 1 0 (sy_k fd_dupped) 0 given_proc given fd_quiet dupped_inv dupped_me eq_refl) as [Hdup _]. rewrite dupped_arg in Hdup.
  destruct dup_again as (s' & E & Hrow). destruct (Hdup 3 s' E) as (P' & Ha & Ht & _). exists P'. split; [exact Ha|]. by rewrite Ht, view_lookup, Hrow.
Defined.
End shell_example.
